(* ===== verification/_CoqProject ===== *)
-Q . S2P
Prelude.v
Bytes.v
BaseUint.v
UintBytes.v
Uint256.v
Serialize.v
ScriptNum.v
Codec.v
Header.v
Chain.v
ChainSpec.v
BlockTree.v
Pow.v
VersionBits.v
TimeData.v
Prevector.v
Opcode.v
Script.v
Amount.v
Transaction.v
Merkle.v
Block.v
PubKey.v
Compressor.v
Coins.v
CoinsView.v
Undo.v
State.v
Connect.v
Ledger.v
Spend.v
Rules.v
RulesSpec.v
Headers.v
HeadersSpec.v
BlockRules.v
BlockRulesSpec.v
BlockContext.v
Interpreter.v
EvalScript.v
EvalScriptSpec.v
SigHash.v
VerifyScript.v
SoftFork.v
EvalRun.v
Payments.v
VerifySpec.v
Multisig.v
SigHashSpec.v
LockTime.v
HashStream.v
Schedule.v
Sha2.v
Sha256.v
Sha512.v
Sha1.v
Ripemd160.v
HashClasses.v
SipHash.v
CheckQueue.v
BlockFiles.v
BlockFilesSpec.v
BlockConnect.v
CheckerSpec.v
SigOpsSpec.v
BlockLedger.v
UndoSpec.v
BlockConnectSpec.v
ConnectBlockSpec.v
BlockHistory.v
Standard.v
Bloom.v
RollingBloom.v
PartialMerkle.v
MerkleBlock.v
Base58.v
Candidates.v
CandidatesSpec.v
