(* ===== verification/Prelude.v ===== *)
(** Sigecoin: a verification library for the consensus and data-structure core.

    The program is a node of the Bitcoin family in C++. Its own code is
    src/sige/src and src/sige/crypto; the rest of src/ is vendored libraries,
    a wallet, a user interface, tests and benchmarks. This library models the
    code every node has to agree on, from integers and bytes up to the connection
    of blocks to the set of unspent outputs, and proves what makes each part
    correct.

    * How the code is modelled

    A class is a Module with a Record [t] of its fields (or a type from the
    library when the class wraps one) and a Definition per method, under the
    method's name; a loop is a Fixpoint of the same body, with the loop's
    condition. A method that changes its object returns the new object.
    Integers are [Z] with the wrap-around of their width written out
    ([u8] .. [u64], [i32], [i64] of this file). Failure is a value of [res]:
    [Throw] for an exception, [AssertFail] for a failed assert, [Undef] where
    C++ has no defined behaviour (a read out of bounds, a division by zero),
    [OutOfFuel] for a loop whose recursion is not structural. Theorems say that a
    result is [Ok]: so that the loop ends, no assertion fails and nothing
    undefined is reached.
    Fuel is always a quantity of the input: the bytes left in a stream or a
    script, the length of a vector, the height of a block, the number of bits
    of a shift; a lemma shows it is enough. Streams are a class [Stream]
    with laws, so that a reader is proved once for every stream. Memory is
    modelled where the code works on raw memory (byte order, prevector), files
    are byte strings with positions. Aliasing matters in three places and is
    modelled there: the block index is a store of entries under pointers, the
    cache of coins is changed through a modifier that holds an iterator, and
    operator*= on itself is a finding. Threads matter in one: the queue of script
    checks is a relation between states, one step per critical section.

    Parameters: the curve library ([PubKey.secp256k1]), the allocator's contents
    of fresh memory, the use of memory by a vector, the free space of the disk,
    the writer of the transaction index, the clock, random numbers, and what is
    rounded from floating point. The hash functions are parameters of the files
    that use them (only that a hash has its length is assumed); HashClasses
    proves that the classes of the code are SHA-256, SHA-512, SHA-1 and
    RIPEMD-160, and the witnesses of BlockHistory run over a concrete instance.

    * The files

    - Prelude: integers, loops, [res], lists, tactics.
    - Bytes: crypto/common.h, compat/byteswap.h, compat/endian.h: reads and
      writes of integers in both byte orders, on both kinds of host.
    - BaseUint, UintBytes, Uint256: baseuint.h, uint256.h/.cpp and the
      hexadecimal functions of utilstrencodings.cpp: arithmetic on limbs, text
      and bytes, compact targets.
    - Serialize, Codec: streams.h and serialize.h: streams, compact sizes and
      varints, then the templates for containers as the record [codec] with
      the class [Lawful] (what is written reads back, with the counted size).
    - ScriptNum: script/script_num.h.
    - Header, Block: primitives/block.h/.cpp. Transaction:
      primitives/transaction.h/.cpp. Amount: amount.h/.cpp.
    - Merkle: consensus/merkle.cpp.
    - Chain, ChainSpec: chain.h, chain.cpp: the index of blocks with its skip
      list, the active chain, locators, the median time; ChainSpec holds the
      reference definitions over predecessors and the theorems. BlockTree:
      AddToBlockIndex of validation.cpp.
    - Pow: pow.cpp. VersionBits: versionbits.cpp. TimeData: timedata.cpp.
    - Prevector: prevector.h over raw storage. Opcode: script_const.h/.cpp.
      Script: script/script.h/.cpp.
    - PubKey: pubkey.h/.cpp and the lax DER parser of pubkeyutil.cpp.
      Compressor: compressor.h/.cpp.
    - Coins: CCoins of coins.h/.cpp. CoinsView: the views and caches of
      coins.h/.cpp and the database view of txdb.cpp. [CCoinsView] is the class
      of operations of a view, [CCoinsViewLaws] what a view promises the one
      above it; the database and the cache are instances, so that the theorem
      about a cache holds for any stack of them.
    - Undo: undo.h. State: consensus/validation.h. Connect: UpdateCoins,
      ApplyTxInUndo, DisconnectBlock and CheckTxInputs of validation.cpp over the
      caches. Ledger: the specification, a map of unspent outputs, which Connect
      follows. Spend: what CheckTxInputs decides.
    - Rules, RulesSpec: the rules on transactions of validation.cpp. Headers,
      HeadersSpec: acceptance of headers. BlockRules, BlockRulesSpec,
      BlockContext: CheckBlock, ContextualCheckBlock and the witness commitment.
    - Interpreter, EvalScript: the script machine of script/interpreter.cpp, and
      EvalScriptSpec its safety. SigHash: signature hashes and the checker of a
      transaction; SigHashSpec compares them with the original definition, which
      test/sighash_tests.cpp keeps. VerifyScript, VerifySpec: VerifyScript and
      witness programs. SoftFork: the flags only restrict. EvalRun, Payments,
      Multisig, LockTime: scripts as runs of operations, and what the standard
      payments and the lock times come to.
    - Standard: script/standard.cpp: the solver and the scripts of destinations.
    - HashStream, Schedule, Sha2, Sha256, Sha512, Sha1, Ripemd160, HashClasses,
      SipHash: src/sige/crypto, hash.h and hash.cpp against the standards.
    - CheckQueue: checkqueue.h with its threads.
    - BlockFiles, BlockFilesSpec: places and files for blocks and undo data of
      validation.cpp and streams.h.
    - BlockConnect: CScriptCheck, CheckInputs and ConnectBlock with all they
      call. CheckerSpec, SigOpsSpec, BlockLedger, UndoSpec, BlockConnectSpec and
      ConnectBlockSpec prove its parts (the checker of signatures, the counts of
      operations, the ledger of a block, the undo data, the loop over the
      transactions, the whole), and BlockHistory states the results.
    - Candidates, CandidatesSpec: the candidates for the tip of validation.cpp,
      FindMostWorkChain and ReceivedBlockTransactions.
    - Bloom, RollingBloom: bloom.h/.cpp and MurmurHash3 of hash.cpp.
      PartialMerkle, MerkleBlock: merkleblock.h/.cpp. Base58: base58.h/.cpp and
      base58string.h with the addresses of sigaddress.h/.cpp.

    Calls go down this list: ConnectBlock calls CheckBlock (BlockRules), the
    view (CoinsView), CheckTxInputs and UpdateCoins (Connect), VerifyScript with
    the checker of SigHash, BlockFiles for the undo data and CheckQueue for the
    order of the script checks.

    * What the theorems show

    - Connection of blocks: ConnectBlock returns on every block; it accepts
      exactly the blocks that keep every rule over the ledger that its view
      stands for, and then leaves the new ledger; DisconnectBlock with the index
      and the files it left restores the ledger. No transaction makes money.
    - Rules: the checks of headers, transactions and blocks accept exactly what
      the rules allow and report every other case; headers only ever extend a
      tree that obeys the rules.
    - Scripts: EvalScript and VerifyScript return on every input within their
      limits; flags are soft forks; the standard payments and OP_CHECKMULTISIG
      succeed exactly when the signatures allow it; lock times in scripts agree
      with the rules of blocks; the solver recognises exactly the standard forms.
    - Round trips and rejections of every format: integers, containers,
      transactions with and without witnesses, blocks, scripts, compressed
      outputs, unspent coins, undo data, destinations, records in block files,
      Bloom filters and Merkle blocks, base 58 and addresses; non-canonical input is rejected where the
      code means to reject it.
    - Functional correctness: the operators of base_uint, compact targets,
      retargeting, GetAncestor through the skip list, FindFork, locators,
      Merkle roots and branches against the tree of levels, the hash functions
      against their standards.
    - Refinements: CDataStream is a queue, prevector a list, a stack of coin
      caches one map, the cached BIP 9 computation the recursive state
      function.
    - The choice of the chain: FindMostWorkChain returns the best usable
      candidate, and the receipt of blocks in any order keeps the candidates
      complete.
    - Invariants: the block index under AddToBlockIndex, the active chain
      under SetTip, the bound on the clock's adjustment, the records in files,
      the keys a rolling filter remembers.
    - Safety and liveness: BIP 9 transitions, the median time never goes back,
      Merkle roots bind their leaves, a partial Merkle tree proves only
      transactions of the block, a Bloom filter has no false negatives, the wait
      for the queue of checks always ends with the right answer.

    * Not modelled

    Text for people (ToString), floating point (ComputePriority, getdouble, fee
    estimation), logging, and the vendored libraries are left out: the first three
    decide nothing, and the last are parameters where the models use them. Of
    validation.cpp, acceptance to the memory pool and the pool itself stand on
    Boost multi-index containers and on the floating-point estimator; the activation
    of the best chain, pruning of files, start-up and shutdown run over signals,
    locks and clocks around FindMostWorkChain, ConnectBlock and DisconnectBlock,
    which are modelled. The cache of valid signatures only saves
    work. The database is LevelDB; the network, the address manager, the RPC and
    HTTP servers, the wallet and the user interface are I/O and policy outside
    consensus. *)

From stdpp Require Export base tactics numbers list gmap strings.
From Stdlib Require Export ZArith Lia.

(** ** Notations *)

Declare Scope sige_scope.
Delimit Scope sige_scope with sige.

(** Reads and writes of a C array held as a list.  The read is total: the
    theorems about a loop carry the bound of its index. *)
Notation "a .[ i ]" := (a !!! i)
  (at level 1, left associativity, format "a .[ i ]") : sige_scope.
Notation "a .[ i := v ]" := (<[ i := v ]> a)
  (at level 1, left associativity, only parsing) : sige_scope.

#[global] Open Scope Z_scope.
#[global] Open Scope sige_scope.

(** ** Machine integers

    An unsigned [w]-bit integer is a [Z] in [0, 2^w); arithmetic in the code is
    arithmetic in [Z] followed by the wrap of the type it is stored in. *)

Definition wrap (w x : Z) : Z := x mod 2 ^ w.
Definition swrap (w x : Z) : Z := (x + 2 ^ (w - 1)) mod 2 ^ w - 2 ^ (w - 1).

Abbreviation u8 := (wrap 8).
Abbreviation u16 := (wrap 16).
Abbreviation u32 := (wrap 32).
Abbreviation u64 := (wrap 64).
Abbreviation i32 := (swrap 32).
Abbreviation i64 := (swrap 64).

Definition in_u (w x : Z) : Prop := 0 <= x < 2 ^ w.
Definition in_s (w x : Z) : Prop := - 2 ^ (w - 1) <= x < 2 ^ (w - 1).

#[global] Instance in_u_dec w x : Decision (in_u w x).
Proof. unfold in_u; apply _. Defined.
#[global] Instance in_s_dec w x : Decision (in_s w x).
Proof. unfold in_s; apply _. Defined.

Create HintDb words.
Create HintDb wordsimp.

Lemma pow2_pos w : 0 <= w -> 0 < 2 ^ w.
Proof. intros; lia. Qed.

Lemma wrap_range w x : 0 <= w -> in_u w (wrap w x).
Proof. intros; unfold in_u, wrap; apply Z.mod_pos_bound, pow2_pos; lia. Qed.

Lemma wrap_small w x : in_u w x -> wrap w x = x.
Proof. intros; unfold wrap; apply Z.mod_small; done. Qed.

Lemma wrap_wrap w x : 0 <= w -> wrap w (wrap w x) = wrap w x.
Proof. intros; apply wrap_small, wrap_range; lia. Qed.

Lemma swrap_range w x : 0 < w -> in_s w (swrap w x).
Proof.
  intros Hw; unfold in_s, swrap.
  pose proof (Z.mod_pos_bound (x + 2 ^ (w - 1)) (2 ^ w) (pow2_pos w ltac:(lia))).
  replace (2 ^ w) with (2 * 2 ^ (w - 1)) in * by (rewrite <- Z.pow_succ_r; [f_equal; lia|lia]).
  lia.
Qed.

Lemma swrap_small w x : 0 < w -> in_s w x -> swrap w x = x.
Proof.
  intros Hw H; unfold in_s, swrap in *.
  assert (2 ^ w = 2 * 2 ^ (w - 1)) by (rewrite <- Z.pow_succ_r; [f_equal; lia|lia]).
  rewrite Z.mod_small; lia.
Qed.

(** Reading an unsigned word back through its signed type. *)
Lemma wrap_swrap w x : 0 < w -> wrap w (swrap w x) = wrap w x.
Proof.
  intros Hw; unfold wrap, swrap.
  rewrite Zminus_mod_idemp_l. f_equal; lia.
Qed.

Lemma in_u_mono w w' x : 0 <= w <= w' -> in_u w x -> in_u w' x.
Proof.
  unfold in_u; intros Hw Hx. pose proof (Z.pow_le_mono_r 2 w w'). lia.
Qed.

#[export] Hint Resolve wrap_range swrap_range pow2_pos : words.

(** ** Bit operations as arithmetic *)

Lemma land_ones_mod x k : 0 <= k -> Z.land x (2 ^ k - 1) = x mod 2 ^ k.
Proof. intros; rewrite <- Z.land_ones, Z.ones_equiv by lia; f_equal; lia. Qed.

Lemma land_ones_low x n k : 0 <= k -> n = 2 ^ k - 1 -> Z.land x n = x mod 2 ^ k.
Proof. intros ? ->; by apply land_ones_mod. Qed.

Lemma shiftr_range w k x : 0 <= k <= w -> in_u w x -> in_u (w - k) (Z.shiftr x k).
Proof.
  unfold in_u; intros Hk Hx. rewrite Z.shiftr_div_pow2 by lia.
  split; [apply Z.div_pos; lia|].
  apply Z.div_lt_upper_bound; [lia|].
  rewrite <- Z.pow_add_r by lia. replace (k + (w - k)) with w by lia. lia.
Qed.

Lemma bits_above w x n : in_u w x -> w <= n -> Z.testbit x n = false.
Proof.
  intros [Hx0 Hx] Hn. destruct (Z.eq_dec x 0) as [->|]; [apply Z.bits_0|].
  apply Z.bits_above_log2; [lia|].
  apply Z.lt_le_trans with w; [apply Z.log2_lt_pow2; lia|lia].
Qed.

Lemma in_u_bits w x : 0 <= w -> 0 <= x ->
  (forall n, w <= n -> Z.testbit x n = false) -> in_u w x.
Proof.
  intros Hw Hx Hb. split; [done|].
  destruct (Z.eq_dec x 0) as [->|]; [lia|].
  apply Z.log2_lt_pow2; [lia|].
  destruct (Z.lt_ge_cases (Z.log2 x) w) as [|Hl]; [done|].
  pose proof (Z.bit_log2 x ltac:(lia)). rewrite Hb in *; done.
Qed.

Lemma land_range w x y : 0 <= w -> in_u w y -> in_u w (Z.land x y).
Proof.
  intros Hw Hy. apply in_u_bits; [done|apply Z.land_nonneg; right; apply Hy|].
  intros n Hn. rewrite Z.land_spec, (bits_above w y), andb_false_r; done.
Qed.

Lemma lor_range w x y : 0 <= w -> in_u w x -> in_u w y -> in_u w (Z.lor x y).
Proof.
  intros Hw Hx Hy. apply in_u_bits; [done|apply Z.lor_nonneg; split; [apply Hx|apply Hy]|].
  intros n Hn. rewrite Z.lor_spec, (bits_above w x), (bits_above w y); done.
Qed.

Lemma lxor_range w x y : 0 <= w -> in_u w x -> in_u w y -> in_u w (Z.lxor x y).
Proof.
  intros Hw Hx Hy. apply in_u_bits; [done|apply Z.lxor_nonneg; destruct Hx, Hy; lia|].
  intros n Hn. rewrite Z.lxor_spec, (bits_above w x), (bits_above w y); done.
Qed.

(** The test of one bit. *)
Lemma bit_test x k : 0 <= k -> negb (Z.land x (Z.shiftl 1 k) =? 0) = Z.testbit x k.
Proof.
  intros Hk. assert (Z.land x (Z.shiftl 1 k) = if Z.testbit x k then 2 ^ k else 0) as ->.
  { rewrite Z.shiftl_mul_pow2, Z.mul_1_l by done. apply Z.bits_inj'. intros i Hi. rewrite Z.land_spec, Z.pow2_bits_eqb by done.
    destruct (Z.testbit x k) eqn:E; rewrite ?Z.pow2_bits_eqb, ?Z.bits_0 by done; destruct (Z.eqb_spec k i) as [<-|Hne]; rewrite ?E, ?andb_true_r, ?andb_false_r; done. }
  destruct (Z.testbit x k); [|done]. apply negb_true_iff, Z.eqb_neq. lia.
Qed.

(** [lor] of a multiple of [2^k] and a number below it is their sum. *)
Lemma lor_shiftl_add a b k : 0 <= k -> in_u k a -> Z.lor (Z.shiftl b k) a = b * 2 ^ k + a.
Proof.
  intros Hk Ha. rewrite <- Z.shiftl_mul_pow2 by lia.
  assert (Z.land (Z.shiftl b k) a = 0) as H0.
  { apply Z.bits_inj'; intros n Hn. rewrite Z.land_spec, Z.bits_0.
    destruct (Z.lt_ge_cases n k).
    - by rewrite Z.shiftl_spec_low by lia.
    - rewrite (bits_above k a), andb_false_r; done. }
  rewrite <- Z.lxor_lor by done. by rewrite Z.add_nocarry_lxor.
Qed.

Lemma lor_add_shiftl a b k : 0 <= k -> in_u k a -> Z.lor a (Z.shiftl b k) = a + b * 2 ^ k.
Proof. intros. rewrite Z.lor_comm, lor_shiftl_add by done. lia. Qed.

Lemma land_le_l a b : 0 <= a -> 0 <= b -> Z.land a b <= a.
Proof.
  intros Ha Hb. rewrite <- (Z2N.id a Ha), <- (Z2N.id b Hb), <- N2Z.inj_land.
  apply N2Z.inj_le, N.land_le_l.
Qed.

#[export] Hint Resolve shiftr_range land_range lor_range lxor_range : words.

(** ** Loops

    [for_up n body s] is [for (i = 0; i < n; i++) s = body i s];
    [for_down n body s] runs [i] from [n - 1] down to [0];
    [find_down n f] is a downward loop that returns at the first [Some]. *)

Fixpoint for_range {S : Type} (start n : nat) (body : nat -> S -> S) (s : S) : S :=
  match n with
  | O => s
  | Datatypes.S n' => for_range (Datatypes.S start) n' body (body start s)
  end.

Definition for_up {S : Type} (n : nat) (body : nat -> S -> S) (s : S) : S :=
  for_range 0 n body s.

Fixpoint for_down {S : Type} (n : nat) (body : nat -> S -> S) (s : S) : S :=
  match n with
  | O => s
  | Datatypes.S n' => for_down n' body (body n' s)
  end.

(** [find_up start n f] tries [start], ..., [start + n - 1]. *)
Fixpoint find_up {R : Type} (start n : nat) (f : nat -> option R) : option R :=
  match n with
  | O => None
  | Datatypes.S n' =>
      match f start with
      | Some r => Some r
      | None => find_up (Datatypes.S start) n' f
      end
  end.

Fixpoint find_down {R : Type} (n : nat) (f : nat -> option R) : option R :=
  match n with
  | O => None
  | Datatypes.S n' =>
      match f n' with
      | Some r => Some r
      | None => find_down n' f
      end
  end.

(** The loop rule: an invariant indexed by the number of iterations done. *)
Lemma for_range_inv {S} (P : nat -> S -> Prop) start n body s :
  P start s ->
  (forall i s, (start <= i < start + n)%nat -> P i s -> P (Datatypes.S i) (body i s)) ->
  P (start + n)%nat (for_range start n body s).
Proof.
  revert start s; induction n as [|n IH]; intros start s Hs Hb; simpl.
  - by rewrite Nat.add_0_r.
  - replace (start + Datatypes.S n)%nat with (Datatypes.S start + n)%nat by lia.
    apply IH; [apply Hb; [lia|done]|]. intros; apply Hb; [lia|done].
Qed.

Lemma for_up_inv {S} (P : nat -> S -> Prop) n body s :
  P O s -> (forall i s, (i < n)%nat -> P i s -> P (Datatypes.S i) (body i s)) ->
  P n (for_up n body s).
Proof. intros ? Hb; apply (for_range_inv P 0 n); [done|]. intros; apply Hb; [lia|done]. Qed.

Lemma for_down_inv {S} (P : nat -> S -> Prop) n body s :
  P n s -> (forall i s, (i < n)%nat -> P (Datatypes.S i) s -> P i (body i s)) ->
  P O (for_down n body s).
Proof.
  revert s; induction n as [|n IH]; intros s Hs Hb; simpl; [done|].
  apply IH; [apply Hb; [lia|done]|]. intros; apply Hb; [lia|done].
Qed.

Lemma find_up_None {R} start n (f : nat -> option R) :
  find_up start n f = None <-> forall i, (start <= i < start + n)%nat -> f i = None.
Proof.
  revert start; induction n as [|n IH]; intros start; simpl; [split; [intros; lia|done]|].
  destruct (f start) eqn:E; split; try done.
  - intros H. rewrite H in E by lia. done.
  - intros H i Hi. destruct (decide (i = start)) as [->|]; [done|].
    rewrite IH in H. apply H; lia.
  - intros H. apply IH. intros; apply H; lia.
Qed.

Lemma find_down_None {R} n (f : nat -> option R) :
  find_down n f = None <-> forall i, (i < n)%nat -> f i = None.
Proof.
  induction n as [|n IH]; simpl; [split; [intros; lia|done]|].
  destruct (f n) eqn:E; split; try done.
  - intros H. rewrite H in E by lia. done.
  - intros H i Hi. destruct (decide (i = n)) as [->|]; [done|]. apply IH; [done|lia].
  - intros H. apply IH. intros; apply H; lia.
Qed.

Lemma find_down_Some {R} n (f : nat -> option R) r :
  find_down n f = Some r <->
  exists i, (i < n)%nat /\ f i = Some r /\ forall j, (i < j < n)%nat -> f j = None.
Proof.
  induction n as [|n IH]; simpl; [split; [done|intros (?&?&_); lia]|].
  destruct (f n) eqn:E; split.
  - intros [= ->]. exists n. split_and!; [lia|done|]. intros; lia.
  - intros (i&Hi&Hf&Hj). destruct (decide (i = n)) as [->|]; [congruence|].
    rewrite Hj in E by lia. done.
  - intros (i&Hi&Hf&Hj)%IH. exists i. split_and!; [lia|done|].
    intros j Hj'. destruct (decide (j = n)) as [->|]; [done|]. apply Hj; lia.
  - intros (i&Hi&Hf&Hj). apply IH. exists i.
    destruct (decide (i = n)) as [->|]; [congruence|].
    split_and!; [lia|done|]. intros; apply Hj; lia.
Qed.

(** ** Finite sums *)

Fixpoint zsum (n : nat) (f : nat -> Z) : Z :=
  match n with
  | O => 0
  | S n' => zsum n' f + f n'
  end.

Lemma zsum_ext n f g : (forall i, (i < n)%nat -> f i = g i) -> zsum n f = zsum n g.
Proof.
  induction n as [|n IH]; intros H; simpl; [done|].
  rewrite IH, H by (intros; try apply H; lia). done.
Qed.

Lemma zsum_mul n f c : zsum n (fun i => c * f i) = c * zsum n f.
Proof. induction n as [|n IH]; simpl; [lia|]. rewrite IH. lia. Qed.

Lemma zsum_add n f g : zsum n (fun i => f i + g i) = zsum n f + zsum n g.
Proof. induction n as [|n IH]; simpl; [lia|]. rewrite IH. lia. Qed.

Lemma zsum_shift n f : zsum (S n) f = f O + zsum n (fun i => f (S i)).
Proof. induction n as [|n IH]; [simpl; lia|]. cbn [zsum] in *. lia. Qed.

Lemma zsum_split n m f : zsum (n + m) f = zsum n f + zsum m (fun i => f (n + i)%nat).
Proof.
  induction m as [|m IH]; simpl; [rewrite Nat.add_0_r; lia|].
  rewrite Nat.add_succ_r. cbn [zsum]. lia.
Qed.

(** ** Congruence modulo [m] *)

Definition eqm (m x y : Z) : Prop := x mod m = y mod m.

#[global] Instance eqm_equiv m : Equivalence (eqm m).
Proof. unfold eqm; split; repeat intro; congruence. Qed.
#[global] Instance eqm_add_proper m : Proper (eqm m ==> eqm m ==> eqm m) Z.add.
Proof. unfold eqm; intros a b H c d H'. rewrite Zplus_mod, H, H', <- Zplus_mod; done. Qed.
#[global] Instance eqm_sub_proper m : Proper (eqm m ==> eqm m ==> eqm m) Z.sub.
Proof. unfold eqm; intros a b H c d H'. rewrite Zminus_mod, H, H', <- Zminus_mod; done. Qed.
#[global] Instance eqm_mul_proper m : Proper (eqm m ==> eqm m ==> eqm m) Z.mul.
Proof. unfold eqm; intros a b H c d H'. rewrite Zmult_mod, H, H', <- Zmult_mod; done. Qed.

Lemma eqm_sub_mult m k x : eqm m (x + k * m) x.
Proof. unfold eqm. apply Z_mod_plus_full. Qed.

Lemma eqm_mod m x y : 0 <= x < m -> eqm m x y -> x = y mod m.
Proof. unfold eqm. intros ? <-. by rewrite Z.mod_small. Qed.

(** ** Outcomes

    [Throw] is a C++ exception with its message, [AssertFail] a failed
    [assert], [Undef] undefined behaviour (a dangling or null pointer is
    dereferenced, an index is out of range), [OutOfFuel] a loop cut by its fuel:
    the theorems exclude the last two. *)

Inductive res (A : Type) : Type :=
| Ok (a : A)
| Throw (what : string)
| AssertFail
| Undef
| OutOfFuel.
Arguments Ok {A} a.
Arguments Throw {A} what.
Arguments AssertFail {A}.
Arguments Undef {A}.
Arguments OutOfFuel {A}.

Definition res_bind {A B : Type} (m : res A) (k : A -> res B) : res B :=
  match m with
  | Ok a => k a
  | Throw e => Throw e
  | AssertFail => AssertFail
  | Undef => Undef
  | OutOfFuel => OutOfFuel
  end.

Notation "'let?' x := m 'in' k" := (res_bind m (fun x => k))
  (at level 10, x pattern, m at level 100, k at level 200) : sige_scope.

Definition res_of_option {A : Type} (o : option A) : res A :=
  match o with Some a => Ok a | None => Undef end.

Lemma res_bind_Ok {A B : Type} (m : res A) (k : A -> res B) b :
  res_bind m k = Ok b <-> exists a, m = Ok a /\ k a = Ok b.
Proof. destruct m; simpl; split; try done; [eauto|by intros (? & [= <-] & ?)|by intros (? & ? & ?)..]. Qed.

(** A computation that reads from a stream of type [S]. *)
Definition rd (S A : Type) : Type := S -> res (A * S).

Definition rd_ret {S A : Type} (a : A) : rd S A := fun s => Ok (a, s).
Definition rd_throw {S A : Type} (what : string) : rd S A := fun _ => Throw what.
Definition rd_bind {S A B : Type} (m : rd S A) (k : A -> rd S B) : rd S B :=
  fun s => let? (a, s) := m s in k a s.

Notation "'let!' x := m 'in' k" := (rd_bind m (fun x => k))
  (at level 10, x pattern, m at level 100, k at level 200) : sige_scope.

(** ** Lists *)

Lemma list_lookup_total_out {A} `{!Inhabited A} (l : list A) i :
  (length l <= i)%nat -> l !!! i = inhabitant.
Proof. intros. rewrite list_lookup_total_alt, lookup_ge_None_2; done. Qed.

Lemma insert_lookup_total {A} `{!Inhabited A} (l : list A) i j x :
  (i < length l)%nat -> <[i := x]> l !!! j = if decide (i = j) then x else l !!! j.
Proof.
  intros. case_decide; subst.
  - by apply list_lookup_total_insert_eq.
  - by rewrite list_lookup_total_insert_ne.
Qed.

Lemma Forall_lookup_total_le {A} `{!Inhabited A} (P : A -> Prop) l i :
  Forall P l -> (i < length l)%nat -> P (l !!! i).
Proof. intros HF Hi. eapply Forall_lookup_total_1; done. Qed.

(** ** Tactics *)

(** Split a boolean test of the code into its cases. *)
Ltac case_bool :=
  match goal with
  | |- context [if ?b then _ else _] =>
      match type of b with bool => destruct b eqn:? end
  end.

Ltac case_bool_in H :=
  match type of H with
  | context [if ?b then _ else _] =>
      match type of b with bool => destruct b eqn:? end
  end.

(** Turn the boolean comparisons of the hypotheses into propositions. *)
Ltac bool_hyps :=
  repeat match goal with
  | H : (_ && _)%bool = true |- _ => apply andb_true_iff in H as [? ?]
  | H : (_ || _)%bool = false |- _ => apply orb_false_iff in H as [? ?]
  | H : negb _ = true |- _ => apply negb_true_iff in H
  | H : negb _ = false |- _ => apply negb_false_iff in H
  | H : (_ <? _) = true |- _ => apply Z.ltb_lt in H
  | H : (_ <? _) = false |- _ => apply Z.ltb_ge in H
  | H : (_ <=? _) = true |- _ => apply Z.leb_le in H
  | H : (_ <=? _) = false |- _ => apply Z.leb_gt in H
  | H : (_ =? _) = true |- _ => apply Z.eqb_eq in H
  | H : (_ =? _) = false |- _ => apply Z.eqb_neq in H
  | H : (_ <? _)%nat = true |- _ => apply Nat.ltb_lt in H
  | H : (_ <? _)%nat = false |- _ => apply Nat.ltb_ge in H
  | H : (_ <=? _)%nat = true |- _ => apply Nat.leb_le in H
  | H : (_ <=? _)%nat = false |- _ => apply Nat.leb_gt in H
  | H : (_ =? _)%nat = true |- _ => apply Nat.eqb_eq in H
  | H : (_ =? _)%nat = false |- _ => apply Nat.eqb_neq in H
  | H : bool_decide _ = true |- _ => apply bool_decide_eq_true in H
  | H : bool_decide _ = false |- _ => apply bool_decide_eq_false in H
  end.

Ltac bool_cases := repeat case_bool; bool_hyps.
