(* ===== verification/Bytes.v ===== *)
(** Byte order: src/sige/src/compat/byteswap.h, compat/endian.h and
    src/sige/crypto/common.h.

    A byte is a [Z] in [0, 256).  The host's byte order (the macro
    [WORDS_BIGENDIAN]) is a parameter: an integer variable of [n] bytes is seen
    through [memcpy] as [mem_of n x], least significant byte first on a
    little-endian host. *)

From S2P Require Import Prelude.

Abbreviation bytes := (list Z).

(** ** Little-endian digits *)

Fixpoint le_bytes (n : nat) (x : Z) : bytes :=
  match n with
  | O => []
  | S n => x mod 2 ^ 8 :: le_bytes n (x / 2 ^ 8)
  end.

Fixpoint le_val (l : bytes) : Z :=
  match l with
  | [] => 0
  | b :: l => b + 2 ^ 8 * le_val l
  end.

(** ** compat/byteswap.h *)

Definition bswap_16 (x : Z) : Z :=
  u16 (Z.lor (Z.shiftr x 8) (Z.shiftl (Z.land x 0x00ff) 8)).

Definition bswap_32 (x : Z) : Z :=
  Z.lor (Z.lor (Z.lor
    (Z.shiftr (Z.land x 0xff000000) 24) (Z.shiftr (Z.land x 0x00ff0000) 8))
    (Z.shiftl (Z.land x 0x0000ff00) 8)) (Z.shiftl (Z.land x 0x000000ff) 24).

Definition bswap_64 (x : Z) : Z :=
  Z.lor (Z.lor (Z.lor (Z.lor (Z.lor (Z.lor (Z.lor
    (Z.shiftr (Z.land x 0xff00000000000000) 56)
    (Z.shiftr (Z.land x 0x00ff000000000000) 40))
    (Z.shiftr (Z.land x 0x0000ff0000000000) 24))
    (Z.shiftr (Z.land x 0x000000ff00000000) 8))
    (Z.shiftl (Z.land x 0x00000000ff000000) 8))
    (Z.shiftl (Z.land x 0x0000000000ff0000) 24))
    (Z.shiftl (Z.land x 0x000000000000ff00) 40))
    (Z.shiftl (Z.land x 0x00000000000000ff) 56).

(** compat/endian.h: the two branches of its conditional compilation. *)
Module HostBig.
Definition htobe16 (x : Z) : Z := x.
Definition htole16 (x : Z) : Z := bswap_16 x.
Definition be16toh (x : Z) : Z := x.
Definition le16toh (x : Z) : Z := bswap_16 x.
Definition htobe32 (x : Z) : Z := x.
Definition htole32 (x : Z) : Z := bswap_32 x.
Definition be32toh (x : Z) : Z := x.
Definition le32toh (x : Z) : Z := bswap_32 x.
Definition htobe64 (x : Z) : Z := x.
Definition htole64 (x : Z) : Z := bswap_64 x.
Definition be64toh (x : Z) : Z := x.
Definition le64toh (x : Z) : Z := bswap_64 x.
End HostBig.

Module HostLittle.
Definition htobe16 (x : Z) : Z := bswap_16 x.
Definition htole16 (x : Z) : Z := x.
Definition be16toh (x : Z) : Z := bswap_16 x.
Definition le16toh (x : Z) : Z := x.
Definition htobe32 (x : Z) : Z := bswap_32 x.
Definition htole32 (x : Z) : Z := x.
Definition be32toh (x : Z) : Z := bswap_32 x.
Definition le32toh (x : Z) : Z := x.
Definition htobe64 (x : Z) : Z := bswap_64 x.
Definition htole64 (x : Z) : Z := x.
Definition be64toh (x : Z) : Z := bswap_64 x.
Definition le64toh (x : Z) : Z := x.
End HostLittle.

Section host.
(** The configuration macro of the host. *)
Context (WORDS_BIGENDIAN : bool).

Definition mem_of (n : nat) (x : Z) : bytes :=
  if WORDS_BIGENDIAN then rev (le_bytes n x) else le_bytes n x.
Definition of_mem (n : nat) (ptr : bytes) : Z :=
  if WORDS_BIGENDIAN then le_val (rev (take n ptr)) else le_val (take n ptr).
(** [memcpy(ptr, src, n)] into the buffer at [ptr]. *)
Definition mem_write (ptr src : bytes) : bytes := src ++ drop (length src) ptr.

(** compat/endian.h on this host. *)
Definition htobe16 (x : Z) : Z := if WORDS_BIGENDIAN then HostBig.htobe16 x else HostLittle.htobe16 x.
Definition htole16 (x : Z) : Z := if WORDS_BIGENDIAN then HostBig.htole16 x else HostLittle.htole16 x.
Definition be16toh (x : Z) : Z := if WORDS_BIGENDIAN then HostBig.be16toh x else HostLittle.be16toh x.
Definition le16toh (x : Z) : Z := if WORDS_BIGENDIAN then HostBig.le16toh x else HostLittle.le16toh x.
Definition htobe32 (x : Z) : Z := if WORDS_BIGENDIAN then HostBig.htobe32 x else HostLittle.htobe32 x.
Definition htole32 (x : Z) : Z := if WORDS_BIGENDIAN then HostBig.htole32 x else HostLittle.htole32 x.
Definition be32toh (x : Z) : Z := if WORDS_BIGENDIAN then HostBig.be32toh x else HostLittle.be32toh x.
Definition le32toh (x : Z) : Z := if WORDS_BIGENDIAN then HostBig.le32toh x else HostLittle.le32toh x.
Definition htobe64 (x : Z) : Z := if WORDS_BIGENDIAN then HostBig.htobe64 x else HostLittle.htobe64 x.
Definition htole64 (x : Z) : Z := if WORDS_BIGENDIAN then HostBig.htole64 x else HostLittle.htole64 x.
Definition be64toh (x : Z) : Z := if WORDS_BIGENDIAN then HostBig.be64toh x else HostLittle.be64toh x.
Definition le64toh (x : Z) : Z := if WORDS_BIGENDIAN then HostBig.le64toh x else HostLittle.le64toh x.

(** crypto/common.h *)
Definition ReadLE16 (ptr : bytes) : Z := le16toh (of_mem 2 ptr).
Definition ReadLE32 (ptr : bytes) : Z := le32toh (of_mem 4 ptr).
Definition ReadLE64 (ptr : bytes) : Z := le64toh (of_mem 8 ptr).
Definition WriteLE16 (ptr : bytes) (x : Z) : bytes :=
  let v := htole16 x in mem_write ptr (mem_of 2 v).
Definition WriteLE32 (ptr : bytes) (x : Z) : bytes :=
  let v := htole32 x in mem_write ptr (mem_of 4 v).
Definition WriteLE64 (ptr : bytes) (x : Z) : bytes :=
  let v := htole64 x in mem_write ptr (mem_of 8 v).
Definition ReadBE32 (ptr : bytes) : Z := be32toh (of_mem 4 ptr).
Definition ReadBE64 (ptr : bytes) : Z := be64toh (of_mem 8 ptr).
Definition WriteBE32 (ptr : bytes) (x : Z) : bytes :=
  let v := htobe32 x in mem_write ptr (mem_of 4 v).
Definition WriteBE64 (ptr : bytes) (x : Z) : bytes :=
  let v := htobe64 x in mem_write ptr (mem_of 8 v).
End host.

(** The conversions, whichever branch defines them. *)
Ltac unfold_endian :=
  unfold htobe16, htole16, be16toh, le16toh, htobe32, htole32, be32toh, le32toh, htobe64, htole64, be64toh, le64toh,
    HostBig.htobe16, HostBig.htole16, HostBig.be16toh, HostBig.le16toh, HostBig.htobe32, HostBig.htole32, HostBig.be32toh, HostBig.le32toh, HostBig.htobe64, HostBig.htole64, HostBig.be64toh, HostBig.le64toh,
    HostLittle.htobe16, HostLittle.htole16, HostLittle.be16toh, HostLittle.le16toh, HostLittle.htobe32, HostLittle.htole32, HostLittle.be32toh, HostLittle.le32toh, HostLittle.htobe64, HostLittle.htole64, HostLittle.be64toh, HostLittle.le64toh in *.

(** A buffer of bytes. *)
Definition byte_list (l : bytes) : Prop := Forall (in_u 8) l.
#[global] Instance byte_list_dec l : Decision (byte_list l).
Proof. unfold byte_list; apply _. Defined.

(** ** Digits *)

Lemma length_le_bytes n x : length (le_bytes n x) = n.
Proof. revert x; induction n as [|n IH]; intros x; simpl; [done|]. by rewrite IH. Qed.

Lemma le_bytes_bytes n x : byte_list (le_bytes n x).
Proof.
  unfold byte_list; revert x; induction n as [|n IH]; intros x; [constructor|].
  cbn [le_bytes]. constructor; [|done]. apply Z.mod_pos_bound; lia.
Qed.

Lemma le_val_bytes n x : le_val (le_bytes n x) = x mod 2 ^ (8 * Z.of_nat n).
Proof.
  revert x; induction n as [|n IH]; intros x; cbn [le_bytes le_val].
  - simpl. by rewrite Z.mod_1_r.
  - rewrite IH. replace (8 * Z.of_nat (S n)) with (8 + 8 * Z.of_nat n) by lia.
    rewrite Z.pow_add_r, Z.rem_mul_r by lia. done.
Qed.

Lemma le_bytes_val l : byte_list l -> le_bytes (length l) (le_val l) = l.
Proof.
  unfold byte_list. induction 1 as [|b l Hb Hl IH]; [done|]. unfold in_u in Hb.
  cbn [length le_bytes le_val].
  rewrite (Z.mul_comm (2 ^ 8)), Z_mod_plus_full, Z_div_plus_full by lia.
  rewrite Z.mod_small, Z.div_small, Z.add_0_l by lia. by rewrite IH.
Qed.

Lemma le_val_range l : byte_list l -> in_u (8 * Z.of_nat (length l)) (le_val l).
Proof.
  unfold byte_list, in_u. induction 1 as [|b l Hb Hl IH]; [simpl; lia|]. unfold in_u in Hb.
  cbn [length le_val]. replace (8 * Z.of_nat (S (length l))) with (8 + 8 * Z.of_nat (length l)) by lia.
  rewrite Z.pow_add_r by lia. lia.
Qed.

Lemma le_val_small n x : in_u (8 * Z.of_nat n) x -> le_val (le_bytes n x) = x.
Proof. intros. rewrite le_val_bytes. by apply Z.mod_small. Qed.

Lemma le_val_app l l' : le_val (l ++ l') = le_val l + 2 ^ (8 * Z.of_nat (length l)) * le_val l'.
Proof.
  induction l as [|b l IH]; cbn [app le_val length]; [change (8 * Z.of_nat 0) with 0; lia|].
  rewrite IH. replace (8 * Z.of_nat (S (length l))) with (8 + 8 * Z.of_nat (length l)) by lia.
  rewrite Z.pow_add_r by lia. lia.
Qed.

Lemma byte_list_rev l : byte_list l -> byte_list (rev l).
Proof. apply List.Forall_rev. Qed.

Lemma byte_list_app l l' : byte_list (l ++ l') <-> byte_list l /\ byte_list l'.
Proof. apply Forall_app. Qed.

Create HintDb bytes.
Create Rewrite HintDb bytes.
#[export] Hint Resolve le_bytes_bytes byte_list_rev : bytes.
#[export] Hint Rewrite length_le_bytes length_rev : bytes.

(** ** Byte swapping *)

(** Masking byte [i] of a word and moving it to position [j]. *)
Lemma land_byte x i : 0 <= i -> Z.land x (Z.shiftl 255 i) = Z.shiftl ((x / 2 ^ i) mod 2 ^ 8) i.
Proof.
  intros Hi. rewrite <- Z.shiftr_div_pow2, <- (land_ones_low _ 255 8) by lia.
  apply Z.bits_inj'; intros n Hn. rewrite Z.land_spec.
  destruct (Z.lt_ge_cases n i).
  - rewrite !Z.shiftl_spec_low by lia. apply andb_false_r.
  - rewrite !Z.shiftl_spec, Z.land_spec, Z.shiftr_spec by lia.
    replace (n - i + i) with n by lia. done.
Qed.

Lemma byte_right x i j : 0 <= j <= i ->
  Z.shiftr (Z.land x (Z.shiftl 255 i)) j = ((x / 2 ^ i) mod 2 ^ 8) * 2 ^ (i - j).
Proof.
  intros Hij. rewrite land_byte by lia. rewrite Z.shiftr_shiftl_l by lia.
  apply Z.shiftl_mul_pow2; lia.
Qed.

Lemma byte_left x i j : 0 <= i -> 0 <= j ->
  Z.shiftl (Z.land x (Z.shiftl 255 i)) j = ((x / 2 ^ i) mod 2 ^ 8) * 2 ^ (i + j).
Proof.
  intros Hi Hj. rewrite land_byte, Z.shiftl_shiftl by lia. apply Z.shiftl_mul_pow2; lia.
Qed.

Lemma lor_byte acc c k : 0 <= k -> in_u k acc -> in_u 8 c ->
  Z.lor acc (c * 2 ^ k) = acc + c * 2 ^ k /\ in_u (k + 8) (acc + c * 2 ^ k).
Proof.
  unfold in_u; intros Hk Ha Hc. split.
  - rewrite <- Z.shiftl_mul_pow2 by lia. rewrite lor_add_shiftl, Z.shiftl_mul_pow2 by done. done.
  - rewrite Z.pow_add_r by lia. change (2 ^ 8) with 256 in *. nia.
Qed.

(** Collect a chain of [|] of bytes in increasing positions. *)
Ltac lor_bytes :=
  repeat match goal with
  | |- context [Z.lor ?a (?c * 2 ^ ?k)] =>
      lazymatch a with
      | context [Z.lor] => fail
      | _ => let H := fresh in let H' := fresh in
             destruct (lor_byte a c k) as [H H'];
             [lia|assumption|apply Z.mod_pos_bound; lia|rewrite H; clear H]
      end
  end.

Ltac pow_exps :=
  repeat match goal with
  | |- context [2 ^ (?a - ?b)] => let v := eval cbv in (a - b) in change (2 ^ (a - b)) with (2 ^ v)
  | |- context [2 ^ (?a + ?b)] => let v := eval cbv in (a + b) in change (2 ^ (a + b)) with (2 ^ v)
  end.
Ltac pow_consts :=
  repeat match goal with
  | |- context [2 ^ ?e] => let v := eval cbv in (2 ^ e) in change (2 ^ e) with v
  end.

Lemma bswap_16_val x : in_u 16 x -> bswap_16 x = le_val (rev (le_bytes 2 x)).
Proof.
  intros Hx. unfold bswap_16.
  change 0x00ff with (Z.shiftl 255 0). rewrite byte_left, Z.shiftr_div_pow2 by lia.
  change (2 ^ 0) with 1. rewrite Z.div_1_r.
  assert (Hh : in_u 8 (x / 2 ^ 8)).
  { rewrite <- Z.shiftr_div_pow2 by lia. apply (shiftr_range 16 8); [lia|done]. }
  destruct (lor_byte (x / 2 ^ 8) (x mod 2 ^ 8) 8) as [H H']; [lia|done|apply Z.mod_pos_bound; lia|].
  change (0 + 8) with 8. rewrite H, wrap_small by done.
  cbn [le_bytes rev app le_val]. rewrite (Z.mod_small (x / 2 ^ 8)) by done. lia.
Qed.

Lemma bswap_32_val x : bswap_32 x = le_val (rev (le_bytes 4 x)).
Proof.
  unfold bswap_32.
  change 0xff000000 with (Z.shiftl 255 24). change 0x00ff0000 with (Z.shiftl 255 16).
  change 0x0000ff00 with (Z.shiftl 255 8). change 0x000000ff with (Z.shiftl 255 0).
  rewrite !byte_right, !byte_left by lia.
  assert (in_u 8 ((x / 2 ^ 24) mod 2 ^ 8 * 2 ^ 0)).
  { rewrite Z.mul_1_r. apply Z.mod_pos_bound; lia. }
  pow_exps. lor_bytes. cbn [le_bytes rev app le_val]. rewrite !Z.div_div by lia.
  rewrite <- !Z.pow_add_r by lia. pow_consts. rewrite Z.div_1_r. lia.
Qed.

Lemma bswap_64_val x : bswap_64 x = le_val (rev (le_bytes 8 x)).
Proof.
  unfold bswap_64.
  change 0xff00000000000000 with (Z.shiftl 255 56). change 0x00ff000000000000 with (Z.shiftl 255 48).
  change 0x0000ff0000000000 with (Z.shiftl 255 40). change 0x000000ff00000000 with (Z.shiftl 255 32).
  change 0x00000000ff000000 with (Z.shiftl 255 24). change 0x0000000000ff0000 with (Z.shiftl 255 16).
  change 0x000000000000ff00 with (Z.shiftl 255 8). change 0x00000000000000ff with (Z.shiftl 255 0).
  rewrite !byte_right, !byte_left by lia.
  assert (in_u 8 ((x / 2 ^ 56) mod 2 ^ 8 * 2 ^ 0)).
  { rewrite Z.mul_1_r. apply Z.mod_pos_bound; lia. }
  pow_exps. lor_bytes. cbn [le_bytes rev app le_val]. rewrite !Z.div_div by lia.
  rewrite <- !Z.pow_add_r by lia. pow_consts. rewrite Z.div_1_r. lia.
Qed.

(** ** Reads and writes do not depend on the host *)

Section host_lemmas.
Context (be : bool) (n : nat) (sw : Z -> Z).
Hypothesis sw_spec : forall x, in_u (8 * Z.of_nat n) x -> sw x = le_val (rev (le_bytes n x)).

Lemma sw_bytes x : in_u (8 * Z.of_nat n) x -> le_bytes n (sw x) = rev (le_bytes n x).
Proof.
  intros Hx. rewrite sw_spec by done.
  rewrite <- (length_le_bytes n x) at 1. rewrite <- length_rev.
  apply le_bytes_val; auto with bytes.
Qed.

Lemma mem_of_le x : in_u (8 * Z.of_nat n) x ->
  mem_of be n (if be then sw x else x) = le_bytes n x.
Proof. intros Hx. destruct be; [|done]. simpl. by rewrite sw_bytes, rev_involutive. Qed.

Lemma mem_of_be x : in_u (8 * Z.of_nat n) x ->
  mem_of be n (if be then x else sw x) = rev (le_bytes n x).
Proof. intros Hx. destruct be; [done|]. simpl. by rewrite sw_bytes. Qed.

Lemma of_mem_range ptr : byte_list ptr -> (n <= length ptr)%nat ->
  in_u (8 * Z.of_nat n) (of_mem be n ptr).
Proof.
  intros Hp Hn. assert (Ht : length (take n ptr) = n) by (rewrite length_take; lia).
  assert (byte_list (take n ptr)) by (by apply Forall_take).
  rewrite <- Ht at 1. unfold of_mem. destruct be.
  - rewrite <- length_rev. apply le_val_range; auto with bytes.
  - by apply le_val_range.
Qed.

Lemma of_mem_le ptr : byte_list ptr -> (n <= length ptr)%nat ->
  (if be then sw (of_mem be n ptr) else of_mem be n ptr) = le_val (take n ptr).
Proof.
  intros Hp Hn. pose proof (of_mem_range ptr Hp Hn) as Hr. unfold of_mem in *.
  destruct be; [|done]. rewrite sw_spec by done.
  assert (Ht : length (rev (take n ptr)) = n) by (rewrite length_rev, length_take; lia).
  rewrite <- Ht at 1. rewrite le_bytes_val, rev_involutive; [done|].
  apply byte_list_rev. by apply Forall_take.
Qed.

Lemma of_mem_be ptr : byte_list ptr -> (n <= length ptr)%nat ->
  (if be then of_mem be n ptr else sw (of_mem be n ptr)) = le_val (rev (take n ptr)).
Proof.
  intros Hp Hn. pose proof (of_mem_range ptr Hp Hn) as Hr. unfold of_mem in *.
  destruct be; [done|]. rewrite sw_spec by done.
  assert (Ht : length (take n ptr) = n) by (rewrite length_take; lia).
  rewrite <- Ht at 1. rewrite le_bytes_val; [done|]. by apply Forall_take.
Qed.
End host_lemmas.

Lemma mem_write_eq ptr src n : length src = n -> mem_write ptr src = src ++ drop n ptr.
Proof. by intros <-. Qed.

(** The memory image a write leaves and the number a read returns are those of
    the named byte order whatever the host's is. *)
Lemma write_le be ptr x :
  (in_u 16 x -> WriteLE16 be ptr x = le_bytes 2 x ++ drop 2 ptr) /\
  (in_u 32 x -> WriteLE32 be ptr x = le_bytes 4 x ++ drop 4 ptr) /\
  (in_u 64 x -> WriteLE64 be ptr x = le_bytes 8 x ++ drop 8 ptr).
Proof.
  split_and!; intros Hx; unfold WriteLE16, WriteLE32, WriteLE64; unfold_endian;
    cbv zeta; rewrite mem_of_le by (done || (intros; rewrite ?bswap_16_val, ?bswap_32_val, ?bswap_64_val; done));
    by apply mem_write_eq.
Qed.

Lemma write_be be ptr x :
  (in_u 32 x -> WriteBE32 be ptr x = rev (le_bytes 4 x) ++ drop 4 ptr) /\
  (in_u 64 x -> WriteBE64 be ptr x = rev (le_bytes 8 x) ++ drop 8 ptr).
Proof.
  split_and!; intros Hx; unfold WriteBE32, WriteBE64; unfold_endian;
    cbv zeta; rewrite mem_of_be by (done || (intros; rewrite ?bswap_32_val, ?bswap_64_val; done));
    by apply mem_write_eq.
Qed.

Lemma read_le be ptr : byte_list ptr ->
  ((2 <= length ptr)%nat -> ReadLE16 be ptr = le_val (take 2 ptr)) /\
  ((4 <= length ptr)%nat -> ReadLE32 be ptr = le_val (take 4 ptr)) /\
  ((8 <= length ptr)%nat -> ReadLE64 be ptr = le_val (take 8 ptr)).
Proof.
  intros Hp. split_and!; intros Hl; unfold ReadLE16, ReadLE32, ReadLE64; unfold_endian;
    apply of_mem_le; try done; intros; rewrite ?bswap_16_val, ?bswap_32_val, ?bswap_64_val; done.
Qed.

Lemma read_be be ptr : byte_list ptr ->
  ((4 <= length ptr)%nat -> ReadBE32 be ptr = le_val (rev (take 4 ptr))) /\
  ((8 <= length ptr)%nat -> ReadBE64 be ptr = le_val (rev (take 8 ptr))).
Proof.
  intros Hp. split_and!; intros Hl; unfold ReadBE32, ReadBE64; unfold_endian;
    apply of_mem_be; try done; intros; rewrite ?bswap_32_val, ?bswap_64_val; done.
Qed.

(** ** Properties *)

(** The fixed-endian accessors of crypto/common.h do not depend on the host:
    whichever way the host stores words, [WriteLE*] lays the bytes out least
    significant first and [WriteBE*] most significant first without touching
    what follows, and [ReadLE*] and [ReadBE*] read them back. *)
Theorem endian_independent be ptr x :
  byte_list ptr ->
  (in_u 16 x -> WriteLE16 be ptr x = le_bytes 2 x ++ drop 2 ptr /\
                ReadLE16 be (WriteLE16 be ptr x) = x) /\
  (in_u 32 x -> WriteLE32 be ptr x = le_bytes 4 x ++ drop 4 ptr /\
                ReadLE32 be (WriteLE32 be ptr x) = x /\
                WriteBE32 be ptr x = rev (le_bytes 4 x) ++ drop 4 ptr /\
                ReadBE32 be (WriteBE32 be ptr x) = x) /\
  (in_u 64 x -> WriteLE64 be ptr x = le_bytes 8 x ++ drop 8 ptr /\
                ReadLE64 be (WriteLE64 be ptr x) = x /\
                WriteBE64 be ptr x = rev (le_bytes 8 x) ++ drop 8 ptr /\
                ReadBE64 be (WriteBE64 be ptr x) = x).
Proof.
  intros Hp. destruct (write_le be ptr x) as (L16 & L32 & L64). destruct (write_be be ptr x) as (B32 & B64).
  assert (Hle : forall n, byte_list (le_bytes n x ++ drop n ptr)).
  { intros n. apply byte_list_app; split; [apply le_bytes_bytes|by apply Forall_drop]. }
  assert (Hbe : forall n, byte_list (rev (le_bytes n x) ++ drop n ptr)).
  { intros n. apply byte_list_app; split; [apply byte_list_rev, le_bytes_bytes|by apply Forall_drop]. }
  assert (Hlt : forall n, take n (le_bytes n x ++ drop n ptr) = le_bytes n x)
    by (intros n; apply take_app_length'; by rewrite length_le_bytes).
  assert (Hbt : forall n, take n (rev (le_bytes n x) ++ drop n ptr) = rev (le_bytes n x))
    by (intros n; apply take_app_length'; by rewrite length_rev, length_le_bytes).
  split_and!; intros Hx;
    rewrite ?L16, ?L32, ?L64, ?B32, ?B64 by done; split_and!; try done.
  all: match goal with
    | |- ReadLE16 _ ?p = _ => destruct (read_le be p (Hle 2%nat)) as (-> & _ & _)
    | |- ReadLE32 _ ?p = _ => destruct (read_le be p (Hle 4%nat)) as (_ & -> & _)
    | |- ReadLE64 _ ?p = _ => destruct (read_le be p (Hle 8%nat)) as (_ & _ & ->)
    | |- ReadBE32 _ ?p = _ => destruct (read_be be p (Hbe 4%nat)) as (-> & _)
    | |- ReadBE64 _ ?p = _ => destruct (read_be be p (Hbe 8%nat)) as (_ & ->)
    end;
    try (rewrite length_app, ?length_rev, length_le_bytes; lia);
    rewrite ?Hlt, ?Hbt, ?rev_involutive; by apply le_val_small.
Qed.

Lemma endian_independent_witness :
  WriteBE32 true [9; 9; 9; 9; 7] 0x01020304 = [1; 2; 3; 4; 7] /\
  (in_u 16 0x0102 -> WriteLE16 false [0; 0; 5] 0x0102 = le_bytes 2 0x0102 ++ drop 2 [0; 0; 5] /\
                ReadLE16 false (WriteLE16 false [0; 0; 5] 0x0102) = 0x0102).
Proof.
  split; [reflexivity|].
  apply (endian_independent false [0; 0; 5] 0x0102); repeat constructor; done.
Defined.
