(* ===== verification/BaseUint.v ===== *)
(** Fixed-width big integers: [base_uint<BITS>] of src/sige/src/baseuint.h.

    A value is its array [pn] of [PN_WIDTH] 32-bit limbs, least significant
    first.  The operators are translated loop by loop; [val] is the integer a
    limb array denotes, and the theorems state each operator as arithmetic on
    [val] modulo [2 ^ BITS]. *)

From S2P Require Import Prelude.

Abbreviation limbs := (list Z).

Section base_uint.
(** The template parameter: [PN_WIDTH = BITS / 32]. *)
Context (PN_WIDTH : nat).

Definition base_uint_zero : limbs := replicate PN_WIDTH 0.

Definition base_uint_of_u64 (b : Z) : limbs :=
  let pn := base_uint_zero.[0%nat := u32 b].[1%nat := u32 (Z.shiftr b 32)] in
  for_range 2 (PN_WIDTH - 2) (fun i pn => pn.[i := 0]) pn.

Definition is_zero (pn : limbs) : bool :=
  match find_up 0 PN_WIDTH (fun i => if pn.[i] =? 0 then None else Some false) with
  | Some r => r
  | None => true
  end.

Definition op_not (pn : limbs) : limbs :=
  for_up PN_WIDTH (fun i ret => ret.[i := u32 (Z.lnot pn.[i])]) base_uint_zero.

(** [operator++()]: [while (++pn[i] == 0 && i < PN_WIDTH - 1) i++]. *)
Fixpoint inc_loop (fuel i : nat) (pn : limbs) : limbs :=
  match fuel with
  | O => pn
  | S fuel' =>
      let pn := pn.[i := u32 (pn.[i] + 1)] in
      if (pn.[i] =? 0) && (i <? PN_WIDTH - 1)%nat
      then inc_loop fuel' (S i) pn else pn
  end.
Definition op_inc (pn : limbs) : limbs := inc_loop PN_WIDTH 0 pn.

(** [operator--()]: [while (--pn[i] == (uint32_t)-1 && i < PN_WIDTH - 1) i++]. *)
Fixpoint dec_loop (fuel i : nat) (pn : limbs) : limbs :=
  match fuel with
  | O => pn
  | S fuel' =>
      let pn := pn.[i := u32 (pn.[i] - 1)] in
      if (pn.[i] =? u32 (-1)) && (i <? PN_WIDTH - 1)%nat
      then dec_loop fuel' (S i) pn else pn
  end.
Definition op_dec (pn : limbs) : limbs := dec_loop PN_WIDTH 0 pn.

Definition op_neg (pn : limbs) : limbs :=
  let ret := for_up PN_WIDTH (fun i ret => ret.[i := u32 (Z.lnot pn.[i])]) base_uint_zero in
  op_inc ret.

Definition xor_assign (pn b : limbs) : limbs :=
  for_up PN_WIDTH (fun i pn => pn.[i := Z.lxor pn.[i] b.[i]]) pn.
Definition and_assign (pn b : limbs) : limbs :=
  for_up PN_WIDTH (fun i pn => pn.[i := Z.land pn.[i] b.[i]]) pn.
Definition or_assign (pn b : limbs) : limbs :=
  for_up PN_WIDTH (fun i pn => pn.[i := Z.lor pn.[i] b.[i]]) pn.

Definition xor_assign_u64 (pn : limbs) (b : Z) : limbs :=
  let pn := pn.[0%nat := Z.lxor pn.[0%nat] (u32 b)] in
  pn.[1%nat := Z.lxor pn.[1%nat] (u32 (Z.shiftr b 32))].
Definition or_assign_u64 (pn : limbs) (b : Z) : limbs :=
  let pn := pn.[0%nat := Z.lor pn.[0%nat] (u32 b)] in
  pn.[1%nat := Z.lor pn.[1%nat] (u32 (Z.shiftr b 32))].

Definition add_step (b : limbs) (i : nat) (st : limbs * Z) : limbs * Z :=
  let '(pn, carry) := st in
  let n := u64 (u64 (carry + pn.[i]) + b.[i]) in
  (pn.[i := Z.land n 0xffffffff], Z.shiftr n 32).
Definition add_assign (pn b : limbs) : limbs :=
  fst (for_up PN_WIDTH (add_step b) (pn, 0)).

Definition sub_assign (pn b : limbs) : limbs := add_assign pn (op_neg b).
Definition add_assign_u64 (pn : limbs) (b64 : Z) : limbs :=
  add_assign pn (base_uint_of_u64 b64).
Definition sub_assign_u64 (pn : limbs) (b64 : Z) : limbs :=
  add_assign pn (op_neg (base_uint_of_u64 b64)).

Definition shl_step (a : limbs) (k : nat) (shift : Z) (i : nat) (pn : limbs) : limbs :=
  let pn :=
    if (i + k + 1 <? PN_WIDTH)%nat && negb (shift =? 0)
    then pn.[(i + k + 1)%nat := Z.lor pn.[(i + k + 1)%nat] (Z.shiftr a.[i] (32 - shift))]
    else pn in
  if (i + k <? PN_WIDTH)%nat
  then pn.[(i + k)%nat := Z.lor pn.[(i + k)%nat] (u32 (Z.shiftl a.[i] shift))]
  else pn.
Definition shl_assign (pn : limbs) (shift : Z) : limbs :=
  let a := pn in
  let k := Z.to_nat (shift / 32) in
  for_up PN_WIDTH (shl_step a k (shift mod 32)) base_uint_zero.

(** The guards [i - k - 1 >= 0] and [i - k >= 0] of the signed indices. *)
Definition shr_step (a : limbs) (k : nat) (shift : Z) (i : nat) (pn : limbs) : limbs :=
  let pn :=
    if (k + 1 <=? i)%nat && negb (shift =? 0)
    then pn.[(i - k - 1)%nat :=
               Z.lor pn.[(i - k - 1)%nat] (u32 (Z.shiftl a.[i] (32 - shift)))]
    else pn in
  if (k <=? i)%nat
  then pn.[(i - k)%nat := Z.lor pn.[(i - k)%nat] (Z.shiftr a.[i] shift)]
  else pn.
Definition shr_assign (pn : limbs) (shift : Z) : limbs :=
  let a := pn in
  let k := Z.to_nat (shift / 32) in
  for_up PN_WIDTH (shr_step a k (shift mod 32)) base_uint_zero.

Definition mul32_step (b32 : Z) (i : nat) (st : limbs * Z) : limbs * Z :=
  let '(pn, carry) := st in
  let n := u64 (carry + u64 (b32 * pn.[i])) in
  (pn.[i := Z.land n 0xffffffff], Z.shiftr n 32).
Definition mul32_assign (pn : limbs) (b32 : Z) : limbs :=
  fst (for_up PN_WIDTH (mul32_step b32) (pn, 0)).

(** [operator*=(const base_uint& b)].  [rd pn] is what reading [b] yields
    when [*this] holds [pn]: the constant function for a [b] that is another
    object, the identity for [x *= x]. *)
Definition mul_step (a : limbs) (rd : limbs -> limbs) (j i : nat) (st : limbs * Z) : limbs * Z :=
  let '(pn, carry) := st in
  let n := u64 (u64 (carry + pn.[(i + j)%nat]) + u64 (a.[j] * (rd pn).[i])) in
  (pn.[(i + j)%nat := Z.land n 0xffffffff], Z.shiftr n 32).
Definition mul_assign_via (rd : limbs -> limbs) (pn : limbs) : limbs :=
  let a := pn in
  for_up PN_WIDTH (fun j pn =>
    fst (for_up (PN_WIDTH - j) (mul_step a rd j) (pn, 0))) (base_uint_of_u64 0).
Definition mul_assign (pn b : limbs) : limbs := mul_assign_via (fun _ => b) pn.
Definition mul_assign_self (pn : limbs) : limbs := mul_assign_via (fun this => this) pn.

Definition CompareTo (pn b : limbs) : Z :=
  match find_down PN_WIDTH (fun i =>
    if pn.[i] <? b.[i] then Some (-1)
    else if b.[i] <? pn.[i] then Some 1 else None) with
  | Some r => r
  | None => 0
  end.

Definition op_gt (a b : limbs) : bool := 0 <? CompareTo a b.
Definition op_lt (a b : limbs) : bool := CompareTo a b <? 0.
Definition op_ge (a b : limbs) : bool := 0 <=? CompareTo a b.
Definition op_le (a b : limbs) : bool := CompareTo a b <=? 0.
(** [memcmp(a.pn, b.pn, sizeof(a.pn)) == 0]. *)
Definition op_eq (a b : limbs) : bool := bool_decide (a = b).

Definition EqualTo (pn : limbs) (b : Z) : bool :=
  match find_down (PN_WIDTH - 2) (fun i =>
    if pn.[(i + 2)%nat] =? 0 then None else Some false) with
  | Some r => r
  | None =>
      if negb (pn.[1%nat] =? Z.shiftr b 32) then false
      else if negb (pn.[0%nat] =? Z.land b 0xffffffff) then false else true
  end.

(** The inner loop tests bits 31 down to 1; the step [b'] is bit [b' + 1]. *)
Definition bits (pn : limbs) : Z :=
  match find_down PN_WIDTH (fun pos =>
    if pn.[pos] =? 0 then None
    else Some (match find_down 31 (fun b' =>
           let bits := Z.of_nat b' + 1 in
           if Z.land pn.[pos] (u32 (Z.shiftl 1 bits)) =? 0 then None
           else Some (32 * Z.of_nat pos + bits + 1)) with
         | Some r => r
         | None => 32 * Z.of_nat pos + 1
         end)) with
  | Some r => r
  | None => 0
  end.

Definition GetLow64 (pn : limbs) : Z := Z.lor pn.[0%nat] (Z.shiftl pn.[1%nat] 32).

(** One turn of the loop of [operator/=]; the state is [(pn, num, div)]. *)
Definition div_step (shift : nat) (st : limbs * limbs * limbs) : limbs * limbs * limbs :=
  let '(pn, num, div) := st in
  let '(pn, num) :=
    if op_ge num div then
      let k := (shift / 32)%nat in
      (pn.[k := Z.lor pn.[k] (u32 (Z.shiftl 1 (Z.land (Z.of_nat shift) 31)))],
       sub_assign num div)
    else (pn, num) in
  (pn, num, shr_assign div 1).

(** [operator/=]: [None] is the exception [uint_error("Division by zero")]. *)
Definition div_assign (pn b : limbs) : option limbs :=
  let div := b in
  let num := pn in
  let pn := base_uint_of_u64 0 in
  let num_bits := bits num in
  let div_bits := bits div in
  if div_bits =? 0 then None
  else if num_bits <? div_bits then Some pn
  else
    let shift := num_bits - div_bits in
    let div := shl_assign div shift in
    let '(pn, _, _) := for_down (Z.to_nat (shift + 1)) div_step (pn, num, div) in
    Some pn.

(** Postfix [operator++] and [operator--]: the old value and the object. *)
Definition op_inc_post (pn : limbs) : limbs * limbs := (pn, op_inc pn).
Definition op_dec_post (pn : limbs) : limbs * limbs := (pn, op_dec pn).

(** The binary operators copy their left operand and use the compound ones;
    the [int] shift is converted to [unsigned int]. *)
Definition op_add (a b : limbs) : limbs := add_assign a b.
Definition op_sub (a b : limbs) : limbs := sub_assign a b.
Definition op_mul (a b : limbs) : limbs := mul_assign a b.
Definition op_div (a b : limbs) : option limbs := div_assign a b.
Definition op_or (a b : limbs) : limbs := or_assign a b.
Definition op_and (a b : limbs) : limbs := and_assign a b.
Definition op_xor (a b : limbs) : limbs := xor_assign a b.
Definition op_shr (a : limbs) (shift : Z) : limbs := shr_assign a (u32 shift).
Definition op_shl (a : limbs) (shift : Z) : limbs := shl_assign a (u32 shift).
Definition op_mul32 (a : limbs) (b : Z) : limbs := mul32_assign a b.
Definition op_ne (a b : limbs) : bool := negb (op_eq a b).
Definition op_eq_u64 (a : limbs) (b : Z) : bool := EqualTo a b.
Definition op_ne_u64 (a : limbs) (b : Z) : bool := negb (EqualTo a b).

Definition IsNull (pn : limbs) : bool :=
  match find_up 0 PN_WIDTH (fun i => if pn.[i] =? 0 then None else Some false) with
  | Some r => r
  | None => true
  end.
Definition SetNull (pn : limbs) : limbs := replicate PN_WIDTH 0.
End base_uint.

(** ** The integer a limb array denotes *)

Fixpoint val (l : limbs) : Z :=
  match l with
  | [] => 0
  | x :: l => x + 2 ^ 32 * val l
  end.

(** The type invariant of [base_uint]: [PN_WIDTH] limbs of 32 bits. *)
Definition wf (W : nat) (l : limbs) : Prop := length l = W /\ Forall (in_u 32) l.

#[global] Instance wf_dec W l : Decision (wf W l).
Proof. unfold wf; apply _. Defined.

Abbreviation BB i := (2 ^ (32 * Z.of_nat i)).

(** ** Limb arrays and their values *)

Lemma pow32_S i : BB (S i) = 2 ^ 32 * BB i.
Proof. rewrite Nat2Z.inj_succ, <- Z.pow_add_r by lia. f_equal; lia. Qed.

Lemma BB_add i j : BB (i + j) = BB i * BB j.
Proof. rewrite <- Z.pow_add_r by lia. f_equal; lia. Qed.

Lemma BB_pos i : 0 < BB i.
Proof. lia. Qed.

Lemma val_range W l : wf W l -> 0 <= val l < BB W.
Proof.
  intros [<- HF]; induction HF as [|x l Hx HF IH]; [simpl; lia|].
  cbn [length val]. rewrite pow32_S. unfold in_u in Hx. lia.
Qed.

Lemma val_insert l i x :
  (i < length l)%nat -> val (<[i := x]> l) = val l + (x - l !!! i) * BB i.
Proof.
  revert i; induction l as [|y l IH]; intros i Hi; simpl in Hi; [lia|].
  destruct i as [|i]; cbn [insert list_insert val].
  - change ((y :: l) !!! 0%nat) with y. simpl; lia.
  - rewrite IH by lia. change ((y :: l) !!! S i) with (l !!! i). rewrite pow32_S. lia.
Qed.

Lemma val_zsum l : val l = zsum (length l) (fun i => l !!! i * BB i).
Proof.
  induction l as [|x l IH]; [done|].
  cbn [length val]. rewrite zsum_shift, IH.
  change ((x :: l) !!! 0%nat) with x.
  rewrite <- zsum_mul. f_equal; [simpl; lia|].
  apply zsum_ext; intros i _. change ((x :: l) !!! S i) with (l !!! i).
  rewrite pow32_S. lia.
Qed.

Lemma val_replicate W : val (replicate W 0) = 0.
Proof. induction W as [|W IH]; [done|]. cbn [replicate val]. lia. Qed.

Lemma wf_lookup W l i : wf W l -> (i < W)%nat -> in_u 32 (l !!! i).
Proof. intros [Hl HF] Hi. apply Forall_lookup_total_le; [done|lia]. Qed.

Lemma wf_insert W l i x : wf W l -> in_u 32 x -> wf W (<[i := x]> l).
Proof.
  intros [Hl HF] Hx. split; [by rewrite length_insert|].
  by apply Forall_insert.
Qed.

Lemma wf_length W l : wf W l -> length l = W.
Proof. by intros []. Qed.

Lemma wf_zero W : wf W (base_uint_zero W).
Proof. split; [apply length_replicate|]. apply Forall_replicate. unfold in_u; lia. Qed.

Lemma limbs_ext W (l l' : limbs) : length l = W -> length l' = W ->
  (forall i, (i < W)%nat -> l !!! i = l' !!! i) -> l = l'.
Proof.
  intros H1 H2 H. apply list_eq_same_length with W; [done|done|].
  intros i x y Hi Hx Hy. rewrite <- (list_lookup_total_correct l i x Hx),
    <- (list_lookup_total_correct l' i y Hy). by apply H.
Qed.

(** The top limb decides: reading off a limb from the value. *)
Lemma val_lookup W l i : wf W l -> (i < W)%nat -> l !!! i = (val l / BB i) mod 2 ^ 32.
Proof.
  intros [<- HF]; revert i; induction HF as [|x l Hx HF IH]; intros i Hi; simpl in Hi; [lia|].
  unfold in_u in Hx. destruct i as [|i].
  - change ((x :: l) !!! 0%nat) with x. cbn [val].
    replace (BB 0) with 1 by done. rewrite Z.div_1_r, Z.mul_comm, Z_mod_plus_full.
    by rewrite Z.mod_small.
  - change ((x :: l) !!! S i) with (l !!! i). rewrite IH by lia. cbn [val].
    rewrite pow32_S, <- Z.div_div by lia.
    do 2 f_equal. rewrite Z.mul_comm, Z_div_plus_full, Z.div_small by lia. done.
Qed.

(** A value has one limb representation. *)
Lemma val_inj W l l' : wf W l -> wf W l' -> val l = val l' -> l = l'.
Proof.
  intros H1 H2 He. eapply limbs_ext; [apply H1|apply H2|].
  intros i Hi. by rewrite (val_lookup W l), (val_lookup W l'), He.
Qed.

Create HintDb uint.
#[export] Hint Resolve wf_zero wf_length : uint.

(** *** The carry loop

    [+=], [*= uint32_t] and the inner loop of [*=] all store the low half of
    [n = carry + g i pn[i]] and carry the high half.  [o] is the offset of the
    limb written from the loop counter. *)
Section carry_loop.
Context (W o : nat) (g : nat -> Z -> Z) (cmax : Z).
Context (step : nat -> limbs * Z -> limbs * Z).

Definition carry_post (i : nat) (pn0 : limbs) (st : limbs * Z) : Prop :=
  wf W (fst st) /\ 0 <= snd st <= cmax /\
  (forall j, (o + i <= j)%nat -> fst st !!! j = pn0 !!! j) /\
  val (fst st) + snd st * BB (o + i) =
    val pn0 + zsum i (fun k => (g k (pn0 !!! (o + k)%nat) - pn0 !!! (o + k)%nat) * BB (o + k)).

Lemma carry_loop n pn0 :
  0 <= cmax -> (o + n <= W)%nat -> wf W pn0 ->
  (forall i pn c, (i < n)%nat -> wf W pn -> 0 <= c <= cmax ->
     pn !!! (o + i)%nat = pn0 !!! (o + i)%nat ->
     let v := c + g i (pn0 !!! (o + i)%nat) in
     0 <= v < (cmax + 1) * 2 ^ 32 /\
     step i (pn, c) = (<[(o + i)%nat := v mod 2 ^ 32]> pn, v / 2 ^ 32)) ->
  carry_post n pn0 (for_up n step (pn0, 0)).
Proof.
  intros Hc Hn Hwf Hstep. apply (for_up_inv (fun i st => carry_post i pn0 st)).
  - unfold carry_post; simpl. split_and!; [done|lia|lia|done|lia].
  - intros i [pn c] Hi (Hw & Hcr & Hsame & Hval); simpl in *.
    assert (Hpn : pn !!! (o + i)%nat = pn0 !!! (o + i)%nat) by (apply Hsame; lia).
    destruct (Hstep i pn c Hi Hw Hcr Hpn) as [Hv ->].
    set (v := c + g i (pn0 !!! (o + i)%nat)) in *.
    pose proof (Z.mod_pos_bound v (2 ^ 32) ltac:(lia)).
    unfold carry_post; cbn [fst snd]. split_and!.
    + apply wf_insert; [done|]. unfold in_u; lia.
    + apply Z.div_pos; lia.
    + assert (v / 2 ^ 32 < cmax + 1) by (apply Z.div_lt_upper_bound; lia). lia.
    + intros j Hj. rewrite insert_lookup_total by (rewrite (wf_length W); [lia|done]).
      case_decide; [lia|]. apply Hsame; lia.
    + rewrite val_insert by (rewrite (wf_length W); [lia|done]).
      cbn [zsum]. rewrite Hpn, Nat.add_succ_r, pow32_S.
      pose proof (Z.div_mod v (2 ^ 32) ltac:(lia)).
      replace (c) with (v - g i (pn0 !!! (o + i)%nat)) in Hval by lia.
      assert (v / 2 ^ 32 * (2 ^ 32 * BB (o + i)) = (v - v mod 2 ^ 32) * BB (o + i)) as ->
        by (rewrite Z.mul_assoc; f_equal; lia).
      lia.
Qed.
End carry_loop.

(** [n & 0xffffffff] and [n >> 32] of a 64-bit [n]. *)
Lemma split64 n : Z.land n 0xffffffff = n mod 2 ^ 32 /\ Z.shiftr n 32 = n / 2 ^ 32.
Proof. split; [by apply land_ones_low|]. by rewrite Z.shiftr_div_pow2. Qed.

Section arith.
Context (W : nat).

Lemma add_assign_carry a b : wf W a -> wf W b ->
  carry_post W 0 (fun i x => x + b !!! i) 1 W a (for_up W (add_step b) (a, 0)).
Proof.
  intros Ha Hb. apply carry_loop; [lia|lia|done|].
  intros i pn c Hi Hpn Hc He. simpl in *.
  pose proof (wf_lookup W a i Ha Hi). pose proof (wf_lookup W b i Hb Hi).
  unfold in_u in *. split; [lia|].
  unfold add_step. rewrite He, (wrap_small 64 (c + _)), (wrap_small 64) by (unfold in_u; lia).
  destruct (split64 (c + a !!! i + b !!! i)) as [-> ->].
  by rewrite <- Z.add_assoc.
Qed.

Lemma carry_sum a b : wf W a -> wf W b ->
  zsum W (fun k => (a !!! (0 + k)%nat + b !!! k - a !!! (0 + k)%nat) * BB (0 + k)) = val b.
Proof.
  intros Ha Hb. rewrite val_zsum, (wf_length W b Hb). apply zsum_ext; intros; simpl; lia.
Qed.

Lemma add_assign_wf a b : wf W a -> wf W b -> wf W (add_assign W a b).
Proof. intros Ha Hb. by destruct (add_assign_carry a b Ha Hb). Qed.

Lemma add_assign_val a b : wf W a -> wf W b ->
  val (add_assign W a b) = (val a + val b) mod BB W.
Proof.
  intros Ha Hb. destruct (add_assign_carry a b Ha Hb) as (Hw & Hc & _ & Hv).
  rewrite carry_sum in Hv by done.
  apply eqm_mod; [by apply val_range|]. unfold add_assign.
  simpl in Hv. rewrite <- Hv. symmetry. apply eqm_sub_mult.
Qed.

Lemma mul32_assign_carry a b : wf W a -> in_u 32 b ->
  carry_post W 0 (fun i x => b * x) (2 ^ 32 - 1) W a (for_up W (mul32_step b) (a, 0)).
Proof.
  intros Ha Hb. apply carry_loop; [lia|lia|done|].
  intros i pn c Hi Hpn Hc He. simpl in *.
  pose proof (wf_lookup W a i Ha Hi). unfold in_u in *.
  assert (0 <= b * a !!! i <= (2 ^ 32 - 1) * (2 ^ 32 - 1)) by nia.
  split; [lia|].
  unfold mul32_step.
  rewrite He, (wrap_small 64 (b * _)), (wrap_small 64) by (unfold in_u; lia).
  by destruct (split64 (c + b * a !!! i)) as [-> ->].
Qed.

Lemma mul32_assign_wf a b : wf W a -> in_u 32 b -> wf W (mul32_assign W a b).
Proof. intros Ha Hb. by destruct (mul32_assign_carry a b Ha Hb). Qed.

Lemma mul32_assign_val a b : wf W a -> in_u 32 b ->
  val (mul32_assign W a b) = (val a * b) mod BB W.
Proof.
  intros Ha Hb. destruct (mul32_assign_carry a b Ha Hb) as (Hw & Hc & _ & Hv).
  apply eqm_mod; [by apply val_range|]. unfold mul32_assign.
  replace (zsum W _) with ((b - 1) * val a) in Hv.
  - replace (val a * b) with (val a + (b - 1) * val a) by lia. rewrite <- Hv. symmetry.
    apply eqm_sub_mult.
  - rewrite val_zsum, (wf_length W a Ha), <- zsum_mul. apply zsum_ext; intros; simpl; lia.
Qed.
End arith.

(** *** Limbwise stores *)

Lemma store_loop (f : nat -> Z -> Z) n (r : limbs) : (n <= length r)%nat ->
  let r' := for_up n (fun i r => r.[i := f i r.[i]]) r in
  length r' = length r /\
  forall j, r' !!! j = if decide (j < n)%nat then f j (r !!! j) else r !!! j.
Proof.
  intros Hn r'. subst r'.
  apply (for_up_inv (fun i r' => length r' = length r /\
    forall j, r' !!! j = if decide (j < i)%nat then f j (r !!! j) else r !!! j)
    n (fun i r => r.[i := f i r.[i]])).
  - split; [done|]. intros; rewrite decide_False by lia; done.
  - intros i s Hi [Hl Hs]. split; [by rewrite length_insert|].
    intros j. rewrite insert_lookup_total by lia. rewrite !Hs.
    repeat case_decide; subst; try lia; done.
Qed.

Lemma wf_intro W (l : limbs) : length l = W -> (forall i, (i < W)%nat -> in_u 32 (l !!! i)) -> wf W l.
Proof.
  intros <- H. split; [done|]. apply Forall_lookup; intros i x Hx.
  rewrite <- (list_lookup_total_correct l i x Hx). apply H. by eapply lookup_lt_Some.
Qed.

Lemma store_loop_wf W (f : nat -> Z -> Z) (r : limbs) :
  length r = W -> (forall i, (i < W)%nat -> in_u 32 (f i (r !!! i))) ->
  wf W (for_up W (fun i r => r.[i := f i r.[i]]) r).
Proof.
  intros Hl Hf. destruct (store_loop f W r) as [Hl' Hj]; [lia|].
  apply wf_intro; [lia|]. intros i Hi. rewrite Hj, decide_True; auto.
Qed.

Lemma geom_sum W : zsum W (fun i => (2 ^ 32 - 1) * BB i) = BB W - 1.
Proof. induction W as [|W IH]; [done|]. cbn [zsum]. rewrite IH, pow32_S. lia. Qed.

Lemma lnot32 x : in_u 32 x -> u32 (Z.lnot x) = 2 ^ 32 - 1 - x.
Proof.
  unfold in_u, wrap; intros Hx. unfold Z.lnot.
  replace (Z.pred (- x)) with (2 ^ 32 - 1 - x + (-1) * 2 ^ 32) by lia.
  rewrite Z_mod_plus_full. apply Z.mod_small. lia.
Qed.

Section arith2.
Context (W : nat).

Lemma op_not_spec a : wf W a -> wf W (op_not W a) /\ val (op_not W a) = BB W - 1 - val a.
Proof.
  intros Ha. pose proof (length_replicate W 0) as Hz.
  destruct (store_loop (fun i _ => u32 (Z.lnot (a !!! i))) W (base_uint_zero W)) as [Hl Hj].
  { unfold base_uint_zero; lia. }
  assert (Hwf : wf W (op_not W a)).
  { apply (store_loop_wf W (fun i _ => u32 (Z.lnot (a !!! i)))); [done|].
    intros; apply wrap_range; lia. }
  split; [done|].
  rewrite val_zsum, (wf_length W _ Hwf), (val_zsum a), (wf_length W _ Ha).
  rewrite <- geom_sum. enough (zsum W (fun i => op_not W a !!! i * BB i + a !!! i * BB i) =
    zsum W (fun i => (2 ^ 32 - 1) * BB i)) as He by (rewrite zsum_add in He; lia).
  apply zsum_ext; intros i Hi. unfold op_not. rewrite Hj, decide_True by done.
  rewrite lnot32 by eauto using wf_lookup. lia.
Qed.

Lemma inc_loop_spec fuel i a : wf W a -> (i < W)%nat -> (W - i <= fuel)%nat ->
  wf W (inc_loop W fuel i a) /\ eqm (BB W) (val (inc_loop W fuel i a)) (val a + BB i).
Proof.
  revert i a; induction fuel as [|fuel IH]; intros i a Ha Hi Hf; [lia|].
  pose proof (wf_lookup W a i Ha Hi) as Hx. unfold in_u in Hx.
  cbn [inc_loop]. set (a' := a.[i := u32 (a.[i] + 1)]).
  assert (Hw : wf W a') by (apply wf_insert; [done|apply wrap_range; lia]).
  assert (Hv : val a' = val a + (u32 (a !!! i + 1) - a !!! i) * BB i)
    by (apply val_insert; rewrite (wf_length W); done).
  assert (Hl : a' !!! i = u32 (a !!! i + 1))
    by (apply list_lookup_total_insert_eq; rewrite (wf_length W); done).
  rewrite Hl.
  destruct (Z.eq_dec (a !!! i) (2 ^ 32 - 1)) as [E|E].
  - rewrite E in Hv. rewrite E. change (u32 (2 ^ 32 - 1 + 1)) with 0 in *. simpl (0 =? 0).
    assert (Hv' : val a' = val a + BB i - BB (S i)) by (rewrite pow32_S; lia).
    destruct (i <? W - 1)%nat eqn:Hlt; bool_hyps; cbn [andb].
    + destruct (IH (S i) a') as [Hw' He]; [done|lia|lia|]. split; [done|].
      rewrite He, Hv'. unfold eqm; f_equal; lia.
    + split; [done|]. rewrite Hv'. replace (S i) with W by lia.
      replace (val a + BB i - BB W) with (val a + BB i + (-1) * BB W) by lia.
      apply eqm_sub_mult.
  - rewrite (wrap_small 32) in * by (unfold in_u; lia).
    destruct (a !!! i + 1 =? 0) eqn:H0; bool_hyps; [lia|]. cbn [andb].
    split; [done|]. rewrite Hv. unfold eqm; f_equal; lia.
Qed.

Lemma op_inc_spec a : (0 < W)%nat -> wf W a ->
  wf W (op_inc W a) /\ val (op_inc W a) = (val a + 1) mod BB W.
Proof.
  intros HW Ha. destruct (inc_loop_spec W 0 a Ha HW ltac:(lia)) as [Hw He].
  split; [done|]. apply eqm_mod; [by apply val_range|]. exact He.
Qed.

Lemma dec_loop_spec fuel i a : wf W a -> (i < W)%nat -> (W - i <= fuel)%nat ->
  wf W (dec_loop W fuel i a) /\ eqm (BB W) (val (dec_loop W fuel i a)) (val a - BB i).
Proof.
  revert i a; induction fuel as [|fuel IH]; intros i a Ha Hi Hf; [lia|].
  pose proof (wf_lookup W a i Ha Hi) as Hx. unfold in_u in Hx.
  cbn [dec_loop]. set (a' := a.[i := u32 (a.[i] - 1)]).
  assert (Hw : wf W a') by (apply wf_insert; [done|apply wrap_range; lia]).
  assert (Hv : val a' = val a + (u32 (a !!! i - 1) - a !!! i) * BB i)
    by (apply val_insert; rewrite (wf_length W); done).
  assert (Hl : a' !!! i = u32 (a !!! i - 1))
    by (apply list_lookup_total_insert_eq; rewrite (wf_length W); done).
  rewrite Hl. change (u32 (-1)) with (2 ^ 32 - 1).
  destruct (Z.eq_dec (a !!! i) 0) as [E|E].
  - rewrite E in Hv. rewrite E. change (u32 (0 - 1)) with (2 ^ 32 - 1) in *. rewrite Z.eqb_refl.
    assert (Hv' : val a' = val a - BB i + BB (S i)) by (rewrite pow32_S; lia).
    destruct (i <? W - 1)%nat eqn:Hlt; bool_hyps; cbn [andb].
    + destruct (IH (S i) a') as [Hw' He]; [done|lia|lia|]. split; [done|].
      rewrite He, Hv'. unfold eqm; f_equal; lia.
    + split; [done|]. rewrite Hv'. replace (S i) with W by lia.
      replace (val a - BB i + BB W) with (val a - BB i + 1 * BB W) by lia.
      apply eqm_sub_mult.
  - rewrite (wrap_small 32) in * by (unfold in_u; lia).
    destruct (a !!! i - 1 =? 2 ^ 32 - 1) eqn:H0; bool_hyps; [lia|]. cbn [andb].
    split; [done|]. rewrite Hv. unfold eqm; f_equal; lia.
Qed.

Lemma op_dec_spec a : (0 < W)%nat -> wf W a ->
  wf W (op_dec W a) /\ val (op_dec W a) = (val a - 1) mod BB W.
Proof.
  intros HW Ha. destruct (dec_loop_spec W 0 a Ha HW ltac:(lia)) as [Hw He].
  split; [done|]. apply eqm_mod; [by apply val_range|]. exact He.
Qed.

Lemma op_neg_spec a : (0 < W)%nat -> wf W a ->
  wf W (op_neg W a) /\ val (op_neg W a) = (- val a) mod BB W.
Proof.
  intros HW Ha. destruct (op_not_spec a Ha) as [Hw Hv].
  destruct (op_inc_spec (op_not W a) HW Hw) as [Hw' Hv']. split; [exact Hw'|].
  unfold op_neg. change (for_up _ _ _) with (op_not W a). rewrite Hv', Hv.
  replace (BB W - 1 - val a + 1) with (- val a + 1 * BB W) by lia.
  apply Z_mod_plus_full.
Qed.

Lemma sub_assign_spec a b : (0 < W)%nat -> wf W a -> wf W b ->
  wf W (sub_assign W a b) /\ val (sub_assign W a b) = (val a - val b) mod BB W.
Proof.
  intros HW Ha Hb. destruct (op_neg_spec b HW Hb) as [Hw Hv].
  split; [by apply add_assign_wf|]. unfold sub_assign. rewrite add_assign_val, Hv by done.
  by rewrite Zplus_mod_idemp_r.
Qed.

Lemma base_uint_of_u64_spec b : (2 <= W)%nat -> in_u 64 b ->
  wf W (base_uint_of_u64 W b) /\ val (base_uint_of_u64 W b) = b.
Proof.
  intros HW Hb. unfold base_uint_of_u64.
  assert (Hh : in_u 32 (Z.shiftr b 32)) by (apply (shiftr_range 64 32); [lia|done]).
  set (pn := <[_ := _]> _).
  assert (Hpn : wf W pn /\ val pn = b /\ forall j, (2 <= j)%nat -> (j < W)%nat -> pn !!! j = 0).
  { subst pn. split_and!.
    - repeat apply wf_insert; auto using wf_zero; apply wrap_range; lia.
    - rewrite !val_insert by (rewrite ?length_insert; unfold base_uint_zero; rewrite length_replicate; lia).
      unfold base_uint_zero. rewrite val_replicate, list_lookup_total_insert_ne by lia.
      rewrite !lookup_total_replicate_2 by lia. rewrite (wrap_small 32 (Z.shiftr _ _)) by done.
      unfold wrap. rewrite Z.shiftr_div_pow2 by lia.
      pose proof (Z.div_mod b (2 ^ 32) ltac:(lia)). change (BB 0) with 1. change (BB 1) with (2 ^ 32). lia.
    - intros j Hj0 Hj. rewrite !list_lookup_total_insert_ne by lia.
      by apply lookup_total_replicate_2. }
  clearbody pn.
  enough (for_range 2 (W - 2) (fun i pn => pn.[i := 0]) pn = pn) as -> by tauto.
  apply (for_range_inv (fun _ s => s = pn) 2 (W - 2)); [done|].
  intros i s Hi ->. apply list_insert_id.
  apply list_lookup_alt. split; [|apply Hpn; lia].
  rewrite (wf_length W); [lia|apply Hpn].
Qed.
End arith2.

Section mul.
Context (W : nat).

(** Truncating [b] to the limbs the inner loop reads loses only multiples of
    [2 ^ BITS]. *)
Lemma val_trunc b j : wf W b -> (j <= W)%nat ->
  eqm (BB W) (BB j * zsum (W - j) (fun i => b !!! i * BB i)) (BB j * val b).
Proof.
  intros Hb Hj. rewrite (val_zsum b), (wf_length W b Hb).
  replace W with ((W - j) + j)%nat at 3 by lia. rewrite zsum_split, Z.mul_add_distr_l.
  rewrite (zsum_ext j _ (fun i => BB (W - j) * (b !!! (W - j + i)%nat * BB i))).
  - rewrite zsum_mul. set (t := zsum j _).
    replace (BB j * (BB (W - j) * t)) with (t * BB W).
    + symmetry. apply eqm_sub_mult.
    + rewrite Z.mul_assoc, <- BB_add. replace (j + (W - j))%nat with W by lia. lia.
  - intros i _. rewrite BB_add. lia.
Qed.

Lemma mul_inner a b pn j : wf W a -> wf W b -> wf W pn -> (j < W)%nat ->
  let st := for_up (W - j) (mul_step a (fun _ => b) j) (pn, 0) in
  wf W (fst st) /\ eqm (BB W) (val (fst st)) (val pn + a !!! j * BB j * val b).
Proof.
  intros Ha Hb Hpn Hj st.
  assert (carry_post W j (fun i x => x + a !!! j * b !!! i) (2 ^ 32 - 1) (W - j) pn st)
    as (Hw & _ & _ & Hv).
  { apply carry_loop; [lia|lia|done|].
    intros i pn' c Hi Hpn' Hc He. rewrite (Nat.add_comm j i) in *.
    pose proof (wf_lookup W a j Ha Hj).
    pose proof (wf_lookup W b i Hb ltac:(lia)).
    pose proof (wf_lookup W pn (i + j)%nat Hpn ltac:(lia)). unfold in_u in *.
    assert (0 <= a !!! j * b !!! i <= (2 ^ 32 - 1) * (2 ^ 32 - 1)) by nia.
    split; [lia|]. unfold mul_step.
    rewrite He, (wrap_small 64 (c + _)), (wrap_small 64 (a !!! j * _)), (wrap_small 64)
      by (unfold in_u; lia).
    destruct (split64 (c + pn !!! (i + j)%nat + a !!! j * b !!! i)) as [-> ->].
    by rewrite <- Z.add_assoc. }
  split; [done|].
  rewrite (zsum_ext (W - j) _ (fun i => a !!! j * BB j * (b !!! i * BB i))) in Hv
    by (intros; rewrite BB_add; lia).
  rewrite zsum_mul in Hv. replace (j + (W - j))%nat with W in Hv by lia.
  rewrite <- (eqm_sub_mult (BB W) (snd st) (val (fst st))), Hv, <- !Z.mul_assoc.
  by rewrite val_trunc by (done || lia).
Qed.

Lemma mul_assign_spec a b : (2 <= W)%nat -> wf W a -> wf W b ->
  wf W (mul_assign W a b) /\ val (mul_assign W a b) = (val a * val b) mod BB W.
Proof.
  intros HW Ha Hb.
  destruct (base_uint_of_u64_spec W 0 HW) as [Hw0 Hv0]; [unfold in_u; lia|].
  destruct (for_up_inv (fun j pn => wf W pn /\
      eqm (BB W) (val pn) (zsum j (fun k => a !!! k * BB k) * val b)) W
    (fun j pn => fst (for_up (W - j) (mul_step a (fun _ => b) j) (pn, 0)))
    (base_uint_of_u64 W 0)) as [Hw He].
  - split; [done|]. rewrite Hv0. unfold eqm; f_equal; simpl; lia.
  - intros j pn Hj [Hpn He]. destruct (mul_inner a b pn j Ha Hb Hpn Hj) as [Hw' He'].
    split; [done|]. rewrite He', He. cbn [zsum]. unfold eqm; f_equal; lia.
  - replace (zsum W (fun k => a !!! k * BB k)) with (val a) in He
      by (by rewrite val_zsum, (wf_length W a Ha)).
    split; [exact Hw|]. apply eqm_mod; [by apply val_range|]. exact He.
Qed.

(** [x *= x]: [*this = 0] also zeroes the operand. *)
Lemma mul_self_zero a : (2 <= W)%nat -> mul_assign_self W a = base_uint_zero W.
Proof.
  intros HW.
  destruct (base_uint_of_u64_spec W 0 HW) as [Hw0 Hv0]; [unfold in_u; lia|].
  assert (base_uint_of_u64 W 0 = base_uint_zero W) as E.
  { apply (val_inj W); auto using wf_zero. rewrite Hv0. symmetry. apply val_replicate. }
  unfold mul_assign_self, mul_assign_via. rewrite E.
  apply (for_up_inv (fun _ pn => pn = base_uint_zero W)); [done|].
  intros j pn Hj ->.
  enough (for_up (W - j) (mul_step a (fun this => this) j) (base_uint_zero W, 0) =
    (base_uint_zero W, 0)) as -> by done.
  apply (for_up_inv (fun _ st => st = (base_uint_zero W, 0))); [done|].
  intros i st Hi ->. unfold mul_step.
  assert (forall k, (k < W)%nat -> base_uint_zero W !!! k = 0) as Hz
    by (intros; by apply lookup_total_replicate_2).
  rewrite !Hz by lia. rewrite Z.mul_0_r. change (u64 _) with 0. change (Z.shiftr 0 32) with 0.
  f_equal. change (Z.land 0 _) with 0. apply list_insert_id, list_lookup_alt.
  split; [rewrite (wf_length W) by apply wf_zero; lia|apply Hz; lia].
Qed.
End mul.

(** *** Comparison *)

Lemma val_split_top W l i : wf W l -> (i < W)%nat ->
  exists lo hi, val l = lo + l !!! i * BB i + hi * BB (S i) /\ 0 <= lo < BB i.
Proof.
  intros Hl Hi. exists (val l mod BB i), (val l / BB i / 2 ^ 32).
  split; [|apply Z.mod_pos_bound; lia].
  rewrite (val_lookup W l i Hl Hi), pow32_S.
  pose proof (Z.div_mod (val l) (BB i) ltac:(lia)).
  pose proof (Z.div_mod (val l / BB i) (2 ^ 32) ltac:(lia)).
  set (q := val l / BB i) in *. set (r := q mod 2 ^ 32) in *. set (s := q / 2 ^ 32) in *.
  assert (BB i * q = BB i * (2 ^ 32 * s + r)) by (f_equal; lia). lia.
Qed.

Lemma div_top i x l h : 0 <= l < BB i -> 0 <= x < 2 ^ 32 ->
  (l + x * BB i + h * BB (S i)) / BB (S i) = h.
Proof.
  intros Hl Hx. rewrite Z_div_plus_full by lia. rewrite Z.div_small; [lia|].
  rewrite pow32_S. nia.
Qed.

Lemma val_high W l l' i : wf W l -> wf W l' ->
  (forall j, (i <= j < W)%nat -> l !!! j = l' !!! j) -> val l / BB i = val l' / BB i.
Proof.
  intros Hl Hl' Hs.
  assert (forall l, wf W l -> val l / BB i =
    zsum (W - i) (fun k => l !!! (i + k)%nat * BB k)) as Hgen.
  { clear; intros l Hl. destruct (decide (i <= W)%nat).
    - pose proof (val_zsum l) as Hv. rewrite (wf_length W l Hl) in Hv.
      replace W with (i + (W - i))%nat in Hv by lia. rewrite zsum_split in Hv.
      rewrite (zsum_ext (W - i) (fun k => l !!! (i + k)%nat * BB (i + k))
        (fun k => BB i * (l !!! (i + k)%nat * BB k))) in Hv by (intros; rewrite BB_add; lia).
      rewrite zsum_mul in Hv. rewrite Hv, Z.mul_comm, Z_div_plus_full by lia.
      enough (0 <= zsum i (fun k => l !!! k * BB k) < BB i) by (rewrite Z.div_small; lia).
      assert (wf i (take i l)) as Ht.
      { destruct Hl as [Hl HF]. split; [rewrite length_take; lia|by apply Forall_take]. }
      pose proof (val_range i _ Ht) as Hr. rewrite val_zsum, (wf_length i _ Ht) in Hr.
      erewrite zsum_ext; [exact Hr|]. intros j Hj; simpl.
      rewrite !list_lookup_total_alt, lookup_take_lt by lia. done.
    - replace (W - i)%nat with 0%nat by lia. simpl. apply Z.div_small.
      pose proof (val_range W l Hl). assert (BB W <= BB i) by (apply Z.pow_le_mono_r; lia). lia. }
  rewrite !Hgen by done. apply zsum_ext; intros. rewrite Hs by lia. done.
Qed.

(** [CompareTo] is three-way comparison of the values. *)
Lemma CompareTo_spec W a b : wf W a -> wf W b ->
  CompareTo W a b = match val a ?= val b with Lt => -1 | Eq => 0 | Gt => 1 end.
Proof.
  intros Ha Hb. unfold CompareTo. destruct (find_down _ _) as [r|] eqn:E.
  - apply find_down_Some in E as (i & Hi & Hf & Hj).
    assert (Hh : val a / BB (S i) = val b / BB (S i)).
    { apply (val_high W); [done|done|]. intros j Hj'. specialize (Hj j ltac:(lia)).
      simpl in Hj. destruct (a.[j] <? b.[j]) eqn:?; [done|].
      destruct (b.[j] <? a.[j]) eqn:?; [done|]. bool_hyps. lia. }
    pose proof (Z.div_mod (val a) (BB (S i)) ltac:(lia)).
    pose proof (Z.div_mod (val b) (BB (S i)) ltac:(lia)).
    pose proof (val_split_top W a i Ha Hi) as (la & ha & Hva & Hla).
    pose proof (val_split_top W b i Hb Hi) as (lb & hb & Hvb & Hlb).
    pose proof (wf_lookup W a i Ha Hi). pose proof (wf_lookup W b i Hb Hi). unfold in_u in *.
    rewrite Hva, Hvb, !div_top in Hh by done. subst hb.
    destruct (a.[i] <? b.[i]) eqn:?; bool_hyps.
    + injection Hf as <-. replace (val a ?= val b) with Lt; [done|].
      symmetry. apply Z.compare_lt_iff. rewrite Hva, Hvb. nia.
    + destruct (b.[i] <? a.[i]) eqn:?; bool_hyps; [|done].
      injection Hf as <-. replace (val a ?= val b) with Gt; [done|].
      symmetry. apply Z.compare_gt_iff. rewrite Hva, Hvb. nia.
  - rewrite find_down_None in E. replace b with a; [by rewrite Z.compare_refl|].
    eapply limbs_ext; [apply Ha|apply Hb|]. intros i Hi. specialize (E i Hi). simpl in E.
    destruct (a.[i] <? b.[i]) eqn:?; [done|].
    destruct (b.[i] <? a.[i]) eqn:?; [done|]. bool_hyps. lia.
Qed.

(** The six relational operators decide the order of the values. *)
Lemma relops_spec W a b : wf W a -> wf W b ->
  op_gt W a b = (val b <? val a) /\ op_lt W a b = (val a <? val b) /\
  op_ge W a b = (val b <=? val a) /\ op_le W a b = (val a <=? val b).
Proof.
  intros Ha Hb. unfold op_gt, op_lt, op_ge, op_le. rewrite CompareTo_spec by done.
  destruct (Z.compare_spec (val a) (val b)); simpl; split_and!; symmetry;
    first [apply Z.ltb_lt|apply Z.ltb_ge|apply Z.leb_le|apply Z.leb_gt]; lia.
Qed.

(** *** [bits()] *)

Lemma land_bit x k : 0 <= k < 32 -> in_u 32 x ->
  (Z.land x (u32 (Z.shiftl 1 k)) =? 0) = negb (Z.testbit x k).
Proof.
  intros Hk Hx. rewrite Z.shiftl_1_l, wrap_small
    by (unfold in_u; split; [lia|apply Z.pow_lt_mono_r; lia]).
  destruct (Z.testbit x k) eqn:E; simpl.
  - apply Z.eqb_neq. intros H. apply (f_equal (fun z => Z.testbit z k)) in H.
    rewrite Z.land_spec, E, Z.pow2_bits_true, Z.bits_0 in H by lia. done.
  - apply Z.eqb_eq. apply Z.bits_inj'; intros n Hn. rewrite Z.land_spec, Z.bits_0.
    destruct (Z.eq_dec n k) as [->|]; [by rewrite E|].
    rewrite (Z.pow2_bits_false k n) by lia. apply andb_false_r.
Qed.

Lemma limb_bits x pos : in_u 32 x -> x <> 0 ->
  match find_down 31 (fun b' =>
    let bits := Z.of_nat b' + 1 in
    if Z.land x (u32 (Z.shiftl 1 bits)) =? 0 then None
    else Some (32 * Z.of_nat pos + bits + 1)) with
  | Some r => r
  | None => 32 * Z.of_nat pos + 1
  end = 32 * Z.of_nat pos + Z.log2 x + 1.
Proof.
  intros Hx Hx0. pose proof Hx as [Hx1 Hx2]. destruct (find_down _ _) as [r|] eqn:E.
  - apply find_down_Some in E as (b & Hb & Hf & Hhi). cbv zeta in *.
    rewrite land_bit in Hf by (done || lia).
    destruct (Z.testbit x (Z.of_nat b + 1)) eqn:Et; simpl in Hf; [|done].
    injection Hf as <-. f_equal. f_equal. symmetry. apply Z.log2_bits_unique; [done|].
    intros n Hn. destruct (Z.lt_ge_cases n 32); [|by apply (bits_above 32)].
    specialize (Hhi (Z.to_nat (n - 1)) ltac:(lia)). rewrite land_bit in Hhi by (done || lia).
    replace (Z.of_nat (Z.to_nat (n - 1)) + 1) with n in Hhi by lia.
    by destruct (Z.testbit x n).
  - rewrite find_down_None in E.
    enough (Z.log2 x = 0) by lia. apply Z.log2_null.
    destruct (Z.le_gt_cases x 1) as [|Hgt]; [done|]. exfalso.
    assert (0 < Z.log2 x) by (apply Z.log2_pos; lia).
    assert (Z.log2 x < 32) by (apply Z.log2_lt_pow2; lia).
    specialize (E (Z.to_nat (Z.log2 x - 1)) ltac:(lia)). cbv zeta in E.
    rewrite land_bit in E by (done || lia).
    replace (Z.of_nat (Z.to_nat (Z.log2 x - 1)) + 1) with (Z.log2 x) in E by lia.
    rewrite Z.bit_log2 in E by lia. done.
Qed.

Lemma bits_spec W a : wf W a ->
  bits W a = if val a =? 0 then 0 else Z.log2 (val a) + 1.
Proof.
  intros Ha. unfold bits. destruct (find_down _ _) as [r|] eqn:E.
  - apply find_down_Some in E as (i & Hi & Hf & Hhi). cbv beta in Hf.
    destruct (a.[i] =? 0) eqn:E0; [done|]. bool_hyps.
    pose proof (wf_lookup W a i Ha Hi) as Hx. rewrite limb_bits in Hf by done.
    injection Hf as <-.
    pose proof (val_split_top W a i Ha Hi) as (lo & hi & Hv & Hlo).
    assert (Hdiv : val a / BB (S i) = 0).
    { rewrite (val_high W a (base_uint_zero W) (S i) Ha (wf_zero W)).
      - unfold base_uint_zero. rewrite val_replicate. apply Z.div_0_l. lia.
      - intros j Hj. specialize (Hhi j ltac:(lia)). cbv beta in Hhi.
        destruct (a.[j] =? 0) eqn:Ej; [|done]. bool_hyps. rewrite Ej.
        unfold base_uint_zero. by rewrite lookup_total_replicate_2 by lia. }
    unfold in_u in Hx. rewrite Hv in Hdiv.
    rewrite div_top in Hdiv by done. subst hi. clear Hhi.
    assert (Hx0 : 0 < a !!! i) by lia.
    pose proof (Z.log2_spec (a !!! i) Hx0) as [Hl1 Hl2].
    assert (1 * BB i <= a !!! i * BB i) by (apply Z.mul_le_mono_nonneg_r; lia).
    destruct (val a =? 0) eqn:Ev; bool_hyps; [lia|].
    f_equal. symmetry. apply Z.log2_unique; [pose proof (Z.log2_nonneg (a !!! i)); lia|].
    pose proof (Z.log2_nonneg (a !!! i)).
    replace (Z.succ (32 * Z.of_nat i + Z.log2 (a !!! i)))
      with (32 * Z.of_nat i + Z.succ (Z.log2 (a !!! i))) by lia.
    rewrite !Z.pow_add_r by lia. nia.
  - rewrite find_down_None in E. replace (val a) with 0; [done|].
    symmetry. rewrite val_zsum, (wf_length W a Ha).
    rewrite (zsum_ext W _ (fun i => 0 * BB i)).
    + rewrite zsum_mul. lia.
    + intros i Hi. specialize (E i Hi). cbv beta in E.
      destruct (a.[i] =? 0) eqn:Ej; [|done]. bool_hyps. by rewrite Ej.
Qed.

(** *** Shifts *)

Lemma lor_update (l : limbs) i x : (i < length l)%nat -> l !!! i = 0 ->
  val (<[i := Z.lor (l !!! i) x]> l) = val l + x * BB i.
Proof. intros Hi H0. rewrite val_insert by done. rewrite H0, Z.lor_0_l. lia. Qed.

(** The two halves of a shifted limb. *)
Lemma shl_halves x s : in_u 32 x -> 0 <= s < 32 ->
  exists lo hi, u32 (Z.shiftl x s) = lo * 2 ^ s /\ Z.shiftr x (32 - s) = hi /\
    0 <= lo < 2 ^ (32 - s) /\ 0 <= hi < 2 ^ s /\ x * 2 ^ s = lo * 2 ^ s + hi * 2 ^ 32.
Proof.
  unfold in_u; intros Hx Hs. exists (x mod 2 ^ (32 - s)), (x / 2 ^ (32 - s)).
  assert (E : 2 ^ 32 = 2 ^ (32 - s) * 2 ^ s) by (rewrite <- Z.pow_add_r by lia; f_equal; lia).
  rewrite Z.shiftl_mul_pow2, Z.shiftr_div_pow2 by lia.
  pose proof (Z.div_mod x (2 ^ (32 - s)) ltac:(lia)).
  split_and!; try apply Z.mod_pos_bound; try lia.
  - unfold wrap. rewrite E, Z.mul_mod_distr_r by lia. done.
  - apply Z.div_pos; lia.
  - apply Z.div_lt_upper_bound; lia.
  - rewrite E. nia.
Qed.

Section shifts.
Context (W : nat).

Definition shl_inv (a : limbs) (k : nat) (s : Z) (i : nat) (pn : limbs) : Prop :=
  wf W pn /\
  (forall j, (i + k < j)%nat -> (j < W)%nat -> pn !!! j = 0) /\
  ((i + k < W)%nat -> 0 <= pn !!! (i + k)%nat < 2 ^ s) /\
  eqm (BB W) (val pn) (zsum i (fun m => a !!! m * BB m) * 2 ^ s * BB k).

Lemma shl_step_inv a k s i pn : wf W a -> 0 <= s < 32 -> (i < W)%nat ->
  shl_inv a k s i pn -> shl_inv a k s (S i) (shl_step W a k s i pn).
Proof.
  intros Ha Hs Hi (Hw & Hz & Hlow & He).
  destruct (shl_halves (a !!! i) s (wf_lookup W a i Ha Hi) Hs)
    as (lo & hi & Elo & Ehi & Hlo & Hhi & Hx).
  assert (E32 : 2 ^ 32 = 2 ^ (32 - s) * 2 ^ s) by (rewrite <- Z.pow_add_r by lia; f_equal; lia).
  assert (Hlo32 : in_u 32 (lo * 2 ^ s)) by (unfold in_u; nia).
  assert (Hhi32 : in_u 32 hi) by (assert (2 ^ s < 2 ^ 32) by (apply Z.pow_lt_mono_r; lia); unfold in_u; lia).
  (* the upper half lands in a limb that is still zero *)
  assert (exists pn1, pn1 = (if (i + k + 1 <? W)%nat && negb (s =? 0)
      then pn.[(i + k + 1)%nat := Z.lor pn.[(i + k + 1)%nat] (Z.shiftr a.[i] (32 - s))] else pn) /\
    wf W pn1 /\ (forall j, j <> (i + k + 1)%nat -> pn1 !!! j = pn !!! j) /\
    ((i + k + 1 < W)%nat -> pn1 !!! (i + k + 1)%nat = hi) /\
    eqm (BB W) (val pn1) (val pn + hi * BB (i + k + 1))) as (pn1 & Epn1 & Hw1 & Hs1 & Hh1 & He1).
  { eexists; split; [reflexivity|]. rewrite Ehi.
    destruct (i + k + 1 <? W)%nat eqn:Hlt; bool_hyps; cbn [andb].
    - assert (pn !!! (i + k + 1)%nat = 0) as H0 by (apply Hz; lia).
      destruct (s =? 0) eqn:Es; bool_hyps; cbn [negb].
      + subst s. assert (hi = 0) as -> by lia.
        split_and!; [done|done|done|]. unfold eqm; f_equal; lia.
      + rewrite lor_update by (rewrite ?(wf_length W); done || lia).
        rewrite H0, Z.lor_0_l. split_and!; [by apply wf_insert| | |done].
        * intros j Hj. by rewrite list_lookup_total_insert_ne by done.
        * intros _. apply list_lookup_total_insert_eq. rewrite (wf_length W); done.
    - split_and!; [done|done|lia|].
      replace (i + k + 1)%nat with (W + (i + k + 1 - W))%nat by lia. rewrite BB_add.
      replace (hi * (BB W * BB (i + k + 1 - W))) with (hi * BB (i + k + 1 - W) * BB W) by lia.
      symmetry. apply eqm_sub_mult. }
  unfold shl_step. rewrite <- Epn1, Elo. clear Epn1.
  assert (Hsum : zsum (S i) (fun m => a !!! m * BB m) * 2 ^ s * BB k =
    zsum i (fun m => a !!! m * BB m) * 2 ^ s * BB k + hi * BB (i + k + 1) + lo * 2 ^ s * BB (i + k)).
  { cbn [zsum]. rewrite (Nat.add_1_r (i + k)), pow32_S, BB_add.
    replace ((zsum i (fun m => a !!! m * BB m) + a !!! i * BB i) * 2 ^ s * BB k) with
      (zsum i (fun m => a !!! m * BB m) * 2 ^ s * BB k + (a !!! i * 2 ^ s) * BB i * BB k) by lia.
    rewrite Hx. lia. }
  destruct (i + k <? W)%nat eqn:Hlt; bool_hyps.
  - specialize (Hlow Hlt). rewrite (Hs1 (i + k)%nat) by lia.
    rewrite <- (Z.shiftl_mul_pow2 lo s), Z.lor_comm, lor_shiftl_add by (done || lia).
    assert (in_u 32 (lo * 2 ^ s + pn !!! (i + k)%nat)) by (unfold in_u; nia).
    split_and!.
    + by apply wf_insert.
    + intros j Hj HjW. rewrite list_lookup_total_insert_ne, Hs1 by lia. apply Hz; lia.
    + intros Hb. rewrite list_lookup_total_insert_ne by lia.
      replace (S i + k)%nat with (i + k + 1)%nat by lia. rewrite Hh1 by lia. done.
    + rewrite val_insert by (rewrite (wf_length W); done).
      rewrite (Hs1 (i + k)%nat) by lia. rewrite He1, He, Hsum. unfold eqm; f_equal; lia.
  - split_and!; [done|lia|lia|].
    rewrite He1, He, Hsum.
    assert (BB (i + k) = BB W * BB (i + k - W)) as -> by (rewrite <- BB_add; do 3 f_equal; lia).
    replace (lo * 2 ^ s * (BB W * BB (i + k - W))) with (lo * 2 ^ s * BB (i + k - W) * BB W) by lia.
    symmetry. apply eqm_sub_mult.
Qed.

Lemma split_shift shift : 0 <= shift ->
  2 ^ shift = 2 ^ (shift mod 32) * BB (Z.to_nat (shift / 32)).
Proof.
  intros Hs. pose proof (Z.div_pos shift 32 Hs ltac:(lia)).
  pose proof (Z.mod_pos_bound shift 32 ltac:(lia)).
  rewrite Z2Nat.id, <- Z.pow_add_r by lia. f_equal.
  pose proof (Z.div_mod shift 32 ltac:(lia)). lia.
Qed.

(** [<<=]: multiplication by a power of two modulo [2 ^ BITS]. *)
Lemma shl_assign_spec a shift : wf W a -> 0 <= shift ->
  wf W (shl_assign W a shift) /\ val (shl_assign W a shift) = (val a * 2 ^ shift) mod BB W.
Proof.
  intros Ha Hs. pose proof (Z.mod_pos_bound shift 32 ltac:(lia)) as Hm.
  destruct (for_up_inv (shl_inv a (Z.to_nat (shift / 32)) (shift mod 32)) W
    (shl_step W a (Z.to_nat (shift / 32)) (shift mod 32)) (base_uint_zero W))
    as (Hw & _ & _ & He).
  - assert (forall j, (j < W)%nat -> base_uint_zero W !!! j = 0) as Hz
      by (intros; by apply lookup_total_replicate_2).
    split_and!; [apply wf_zero|auto| |].
    + intros. rewrite Hz by done. lia.
    + unfold base_uint_zero. rewrite val_replicate. unfold eqm; f_equal; simpl; lia.
  - intros; by apply shl_step_inv.
  - split; [exact Hw|]. apply eqm_mod; [by apply val_range|].
    rewrite He, (split_shift shift Hs), (val_zsum a), (wf_length W a Ha), Z.mul_assoc. done.
Qed.
Lemma shr_halves x s : in_u 32 x -> 0 <= s < 32 ->
  exists lo hi, u32 (Z.shiftl x (32 - s)) = lo * 2 ^ (32 - s) /\ Z.shiftr x s = hi /\
    0 <= lo < 2 ^ s /\ 0 <= hi < 2 ^ (32 - s) /\ x = lo + hi * 2 ^ s.
Proof.
  unfold in_u; intros Hx Hs. exists (x mod 2 ^ s), (x / 2 ^ s).
  assert (E : 2 ^ 32 = 2 ^ s * 2 ^ (32 - s)) by (rewrite <- Z.pow_add_r by lia; f_equal; lia).
  rewrite Z.shiftl_mul_pow2, Z.shiftr_div_pow2 by lia.
  pose proof (Z.div_mod x (2 ^ s) ltac:(lia)).
  split_and!; try apply Z.mod_pos_bound; try lia.
  - unfold wrap. rewrite E, Z.mul_mod_distr_r by lia. done.
  - apply Z.div_pos; lia.
  - apply Z.div_lt_upper_bound; lia.
Qed.

Lemma zsum_val_take a i : wf W a -> (i <= W)%nat ->
  0 <= zsum i (fun m => a !!! m * BB m) < BB i.
Proof.
  intros Ha Hi. induction i as [|i IH]; [simpl; lia|].
  specialize (IH ltac:(lia)). pose proof (wf_lookup W a i Ha Hi). unfold in_u in *.
  cbn [zsum]. rewrite pow32_S. nia.
Qed.

Definition shr_inv (a : limbs) (k : nat) (s : Z) (i : nat) (pn : limbs) : Prop :=
  wf W pn /\
  (forall j, (i <= j + k)%nat -> (j < W)%nat -> pn !!! j = 0) /\
  ((k + 1 <= i)%nat -> 0 <= pn !!! (i - k - 1)%nat < 2 ^ (32 - s)) /\
  val pn = zsum i (fun m => a !!! m * BB m) / (2 ^ s * BB k).

(** One limb further, the shifted prefix grows by the two halves. *)
Lemma shr_sum a k s i lo hi : wf W a -> 0 <= s < 32 -> (i < W)%nat ->
  0 <= lo < 2 ^ s -> a !!! i = lo + hi * 2 ^ s ->
  zsum (S i) (fun m => a !!! m * BB m) / (2 ^ s * BB k) =
    if (k <=? i)%nat then
      zsum i (fun m => a !!! m * BB m) / (2 ^ s * BB k) + hi * BB (i - k) +
        (if (k + 1 <=? i)%nat then lo * 2 ^ (32 - s) * BB (i - k - 1) else 0)
    else zsum i (fun m => a !!! m * BB m) / (2 ^ s * BB k).
Proof.
  intros Ha Hs Hi Hlo Hx. pose proof (zsum_val_take a i Ha ltac:(lia)) as Hr.
  pose proof (zsum_val_take a (S i) Ha ltac:(lia)) as Hr'.
  assert (HD : 0 < 2 ^ s * BB k) by nia.
  destruct (k <=? i)%nat eqn:Hk; bool_hyps.
  - cbn [zsum]. set (A := zsum i _) in *. rewrite Hx.
    assert (EB : BB i = BB k * BB (i - k)) by (rewrite <- BB_add; do 3 f_equal; lia).
    destruct (k + 1 <=? i)%nat eqn:Hk1; bool_hyps.
    + assert (EB' : BB (i - k) = 2 ^ s * 2 ^ (32 - s) * BB (i - k - 1)).
      { rewrite <- Z.pow_add_r by lia. replace (s + (32 - s)) with 32 by lia.
        rewrite <- pow32_S. do 3 f_equal; lia. }
      replace (A + (lo + hi * 2 ^ s) * BB i) with
        (A + (hi * BB (i - k) + lo * 2 ^ (32 - s) * BB (i - k - 1)) * (2 ^ s * BB k)).
      * rewrite Z_div_plus_full by lia. lia.
      * rewrite EB, EB'. ring.
    + assert (i = k) as -> by lia. rewrite Nat.sub_diag in *. change (BB 0) with 1 in *.
      replace (A + (lo + hi * 2 ^ s) * BB k) with (A + lo * BB k + hi * (2 ^ s * BB k)) by ring.
      rewrite Z_div_plus_full by lia. rewrite !Z.div_small by nia. lia.
  - assert (BB (S i) <= BB k) by (apply Z.pow_le_mono_r; lia).
    rewrite pow32_S in *. rewrite !Z.div_small by nia. done.
Qed.

Lemma shr_step_inv a k s i pn : wf W a -> 0 <= s < 32 -> (i < W)%nat ->
  shr_inv a k s i pn -> shr_inv a k s (S i) (shr_step a k s i pn).
Proof.
  intros Ha Hs Hi (Hw & Hz & Hlow & He).
  destruct (shr_halves (a !!! i) s (wf_lookup W a i Ha Hi) Hs)
    as (lo & hi & Elo & Ehi & Hlo & Hhi & Hx).
  pose proof (shr_sum a k s i lo hi Ha Hs Hi Hlo Hx) as Hsum. rewrite <- He in Hsum.
  assert (E32 : 2 ^ 32 = 2 ^ s * 2 ^ (32 - s)) by (rewrite <- Z.pow_add_r by lia; f_equal; lia).
  assert (Hhi32 : in_u 32 hi) by (unfold in_u; nia).
  (* the low half joins the limb written in the previous turn *)
  assert (exists pn1, pn1 = (if (k + 1 <=? i)%nat && negb (s =? 0)
      then pn.[(i - k - 1)%nat := Z.lor pn.[(i - k - 1)%nat] (u32 (Z.shiftl a.[i] (32 - s)))]
      else pn) /\
    wf W pn1 /\ (forall j, (i <= j + k)%nat -> pn1 !!! j = pn !!! j) /\
    val pn1 = val pn + (if (k + 1 <=? i)%nat then lo * 2 ^ (32 - s) * BB (i - k - 1) else 0))
    as (pn1 & Epn1 & Hw1 & Hs1 & He1).
  { eexists; split; [reflexivity|]. rewrite Elo.
    destruct (k + 1 <=? i)%nat eqn:Hlt; bool_hyps; cbn [andb]; [|split_and!; [done|done|lia]].
    destruct (s =? 0) eqn:Es; bool_hyps; cbn [negb].
    - subst s. split_and!; [done|done|lia].
    - specialize (Hlow Hlt).
      rewrite <- (Z.shiftl_mul_pow2 lo), Z.lor_comm, lor_shiftl_add by (done || lia).
      split_and!.
      + apply wf_insert; [done|]. unfold in_u; nia.
      + intros j Hj. by rewrite list_lookup_total_insert_ne by lia.
      + rewrite val_insert by (rewrite (wf_length W); [lia|done]). rewrite Z.shiftl_mul_pow2 by lia. ring. }
  unfold shr_step. rewrite <- Epn1, Ehi. clear Epn1.
  destruct (k <=? i)%nat eqn:Hlt; bool_hyps.
  - assert (pn1 !!! (i - k)%nat = 0) as H0 by (rewrite Hs1 by lia; apply Hz; lia).
    rewrite H0, Z.lor_0_l.
    assert (i - k < length pn1)%nat by (rewrite (wf_length W); [lia|done]).
    split_and!.
    + by apply wf_insert.
    + intros j Hj HjW. rewrite list_lookup_total_insert_ne, Hs1 by lia. apply Hz; lia.
    + intros _. replace (S i - k - 1)%nat with (i - k)%nat by lia.
      by rewrite list_lookup_total_insert_eq by done.
    + rewrite Hsum, val_insert, H0, He1 by done. lia.
  - split_and!; [done| |lia|].
    + intros j Hj HjW. rewrite Hs1 by lia. apply Hz; lia.
    + rewrite Hsum, He1. destruct (k + 1 <=? i)%nat eqn:?; bool_hyps; lia.
Qed.

(** [>>=]: division by a power of two. *)
Lemma shr_assign_spec a shift : wf W a -> 0 <= shift ->
  wf W (shr_assign W a shift) /\ val (shr_assign W a shift) = val a / 2 ^ shift.
Proof.
  intros Ha Hs. pose proof (Z.mod_pos_bound shift 32 ltac:(lia)) as Hm.
  destruct (for_up_inv (shr_inv a (Z.to_nat (shift / 32)) (shift mod 32)) W
    (shr_step a (Z.to_nat (shift / 32)) (shift mod 32)) (base_uint_zero W))
    as (Hw & _ & _ & He).
  - split_and!; [apply wf_zero| |lia|].
    + intros. by apply lookup_total_replicate_2.
    + unfold base_uint_zero. rewrite val_replicate. simpl. rewrite Z.div_0_l; nia.
  - intros; by apply shr_step_inv.
  - split; [exact Hw|].
    unfold shr_assign. rewrite He, (split_shift shift Hs), (val_zsum a), (wf_length W a Ha). done.
Qed.
End shifts.

(** *** Division *)

Section div.
Context (W : nat).

(** Setting bit [sh] of a number divisible by [2 ^ (sh + 1)] adds [2 ^ sh]. *)
Lemma set_bit_val q sh t : wf W q -> (Z.of_nat sh < 32 * Z.of_nat W) ->
  val q = t * 2 ^ (Z.of_nat sh + 1) ->
  let k := (sh / 32)%nat in
  let q' := q.[k := Z.lor q.[k] (u32 (Z.shiftl 1 (Z.land (Z.of_nat sh) 31)))] in
  wf W q' /\ val q' = val q + 2 ^ Z.of_nat sh.
Proof.
  intros Hq Hsh Ht k. cbv zeta. rewrite (land_ones_low _ 31 5) by done. change (2 ^ 5) with 32.
  set (r := Z.of_nat sh mod 32) in *.
  pose proof (Z.mod_pos_bound (Z.of_nat sh) 32 ltac:(lia)) as Hr.
  assert (Hk : Z.of_nat k = Z.of_nat sh / 32) by (subst k; rewrite Nat2Z.inj_div; done).
  assert (Hsk : Z.of_nat sh = 32 * Z.of_nat k + r)
    by (rewrite Hk; apply Z.div_mod; lia).
  assert (HkW : (k < W)%nat) by lia.
  assert (Hlimb : q !!! k = (t mod 2 ^ (31 - r)) * 2 ^ (r + 1)).
  { rewrite (val_lookup W q k Hq HkW), Ht.
    replace (Z.of_nat sh + 1) with (r + 1 + 32 * Z.of_nat k) by lia.
    rewrite Z.pow_add_r, Z.mul_assoc, Z.div_mul by lia.
    replace (2 ^ 32) with (2 ^ (31 - r) * 2 ^ (r + 1)) by (rewrite <- Z.pow_add_r by lia; f_equal; lia).
    by rewrite Z.mul_mod_distr_r by lia. }
  assert (Hpow : u32 (Z.shiftl 1 r) = 2 ^ r).
  { rewrite Z.shiftl_1_l, wrap_small; [done|]. split; [lia|apply Z.pow_lt_mono_r; lia]. }
  assert (Hlor : Z.lor (q !!! k) (u32 (Z.shiftl 1 r)) = q !!! k + 2 ^ r).
  { rewrite Hpow, Hlimb, <- Z.shiftl_mul_pow2 by lia.
    rewrite lor_shiftl_add, Z.shiftl_mul_pow2 by
      (try (split; [lia|apply Z.pow_lt_mono_r; lia]); lia). done. }
  split.
  - apply wf_insert; [done|]. apply lor_range; [lia|by apply (wf_lookup W)|apply wrap_range; lia].
  - rewrite val_insert by (rewrite (wf_length W); done). rewrite Hlor.
    replace (q !!! k + 2 ^ r - q !!! k) with (2 ^ r) by lia.
    rewrite <- Z.pow_add_r by lia. do 2 f_equal. lia.
Qed.

(** The loop invariant of long division at [n] remaining turns. *)
Definition div_inv (N D : Z) (n : nat) (st : limbs * limbs * limbs) : Prop :=
  let '(q, num, div) := st in
  wf W q /\ wf W num /\ wf W div /\
  val div = D * 2 ^ Z.of_nat n / 2 /\
  0 <= val num < D * 2 ^ Z.of_nat n /\
  val q * D + val num = N /\
  exists t, val q = t * 2 ^ Z.of_nat n.

Lemma div_step_inv N D sh st : (0 < W)%nat -> 0 < D -> (Z.of_nat sh < 32 * Z.of_nat W) ->
  div_inv N D (S sh) st -> div_inv N D sh (div_step W sh st).
Proof.
  intros HW HD Hsh. destruct st as [[q num] div].
  intros (Hq & Hn & Hd & Hdv & Hnv & Hsum & t & Ht).
  assert (E : 2 ^ Z.of_nat (S sh) = 2 ^ Z.of_nat sh * 2)
    by (rewrite Nat2Z.inj_succ, Z.pow_succ_r by lia; lia).
  rewrite E, Z.mul_assoc, Z.div_mul in Hdv by lia. rewrite E in Hnv.
  destruct (shr_assign_spec W div 1 Hd ltac:(lia)) as [Hd' Hdv'].
  unfold div_step. destruct (relops_spec W num div Hn Hd) as (_ & _ & -> & _).
  destruct (val div <=? val num) eqn:Hge; bool_hyps.
  - destruct (set_bit_val q sh t Hq Hsh) as [Hq' Hqv'].
    { rewrite Ht. do 2 f_equal. lia. }
    destruct (sub_assign_spec W num div HW Hn Hd) as [Hn' Hnv'].
    rewrite Z.mod_small in Hnv' by (pose proof (val_range W num Hn); pose proof (val_range W div Hd); lia).
    split_and!; [done|done|done| | | | |].
    + rewrite Hdv', Hdv. done.
    + rewrite Hnv'; lia.
    + rewrite Hnv'; lia.
    + rewrite Hqv', Hnv', Hdv. nia.
    + exists (t * 2 + 1). rewrite Hqv', Ht, E. lia.
  - split_and!; [done|done|done| |lia|lia|lia|].
    + by rewrite Hdv', Hdv.
    + exists (t * 2). rewrite Ht, E. lia.
Qed.

(** [/=]: the exception on zero, else the integer quotient. *)
Lemma div_assign_spec a b : (2 <= W)%nat -> wf W a -> wf W b ->
  if val b =? 0 then div_assign W a b = None
  else exists q, div_assign W a b = Some q /\ wf W q /\ val q = val a / val b.
Proof.
  intros HW Ha Hb. pose proof (val_range W a Ha) as Hra. pose proof (val_range W b Hb) as Hrb.
  destruct (base_uint_of_u64_spec W 0 HW) as [Hw0 Hv0]; [unfold in_u; lia|].
  unfold div_assign. rewrite !bits_spec by done.
  destruct (val b =? 0) eqn:Eb; bool_hyps; [done|].
  pose proof (Z.log2_nonneg (val b)). pose proof (Z.log2_nonneg (val a)).
  destruct (Z.log2 (val b) + 1 =? 0) eqn:E0; bool_hyps; [lia|].
  pose proof (Z.log2_spec (val b) ltac:(lia)) as [Hb1 Hb2].
  destruct (_ <? _) eqn:Elt; bool_hyps.
  { eexists. split_and!; [done|done|]. rewrite Hv0, Z.div_small; [done|].
    split; [lia|]. destruct (val a =? 0) eqn:Ea; bool_hyps; [lia|].
    pose proof (Z.log2_spec (val a) ltac:(lia)).
    assert (2 ^ Z.succ (Z.log2 (val a)) <= 2 ^ Z.log2 (val b)) by (apply Z.pow_le_mono_r; lia). lia. }
  destruct (val a =? 0) eqn:Ea; bool_hyps; [lia|].
  set (shift := _ - _) in *. assert (0 <= shift) by lia.
  pose proof (Z.log2_spec (val a) ltac:(lia)) as [Ha1 Ha2].
  assert (Hlog : Z.log2 (val a) < 32 * Z.of_nat W) by (apply Z.log2_lt_pow2; lia).
  destruct (shl_assign_spec W b shift Hb ltac:(lia)) as [Hs Hsv].
  assert (Hprod : val b * 2 ^ shift < BB W /\ val a < val b * 2 ^ shift * 2).
  { assert (2 ^ Z.succ (Z.log2 (val a)) = 2 ^ Z.log2 (val b) * 2 ^ shift * 2) as E.
    { rewrite <- Z.pow_add_r, Z.mul_comm, <- Z.pow_succ_r by lia. f_equal; lia. }
    assert (2 ^ Z.succ (Z.log2 (val b)) * 2 ^ shift = 2 ^ Z.succ (Z.log2 (val a))) as E'.
    { rewrite <- Z.pow_add_r by lia. f_equal; lia. }
    assert (2 ^ Z.succ (Z.log2 (val a)) <= BB W) by (apply Z.pow_le_mono_r; lia).
    split; nia. }
  rewrite Z.mod_small in Hsv by nia.
  pose proof (for_down_inv (div_inv (val a) (val b)) (Z.to_nat (shift + 1)) (div_step W)
    (base_uint_of_u64 W 0, a, shl_assign W b shift)) as HI.
  destruct (for_down _ _ _) as [[q num] div] eqn:Eloop.
  destruct HI as (Hq & _ & _ & _ & Hn & Hsum & _).
  - unfold div_inv. rewrite Z2Nat.id, Z.add_1_r, Z.pow_succ_r by lia.
    split_and!; try done; try lia.
    + rewrite Hsv, (Z.mul_comm 2), Z.mul_assoc, Z.div_mul; lia.
    + exists 0. rewrite Hv0; lia.
  - intros i st Hi HI. apply div_step_inv; [lia|lia|lia|exact HI].
  - exists q. split_and!; [done|done|]. change (2 ^ Z.of_nat 0) with 1 in Hn.
    apply Z.div_unique with (val num); lia.
Qed.
End div.

(** ** Properties *)

(** C18: [base_uint<32 * W>] is the ring of integers modulo 2^(32 * W): every
    in-place arithmetic operator of the class keeps the limbs 32 bits wide and
    computes addition, subtraction, multiplication (by another value and by a
    32-bit word), negation, increment, decrement and complement of the value
    modulo 2^(32 * W), carries and borrows of the limb loops included. *)
Theorem base_uint_ring W a b w :
  (2 <= W)%nat -> wf W a -> wf W b -> in_u 32 w ->
  (wf W (add_assign W a b) /\ val (add_assign W a b) = (val a + val b) mod BB W) /\
  (wf W (sub_assign W a b) /\ val (sub_assign W a b) = (val a - val b) mod BB W) /\
  (wf W (mul_assign W a b) /\ val (mul_assign W a b) = (val a * val b) mod BB W) /\
  (wf W (mul32_assign W a w) /\ val (mul32_assign W a w) = (val a * w) mod BB W) /\
  (wf W (op_neg W a) /\ val (op_neg W a) = (- val a) mod BB W) /\
  (wf W (op_inc W a) /\ val (op_inc W a) = (val a + 1) mod BB W) /\
  (wf W (op_dec W a) /\ val (op_dec W a) = (val a - 1) mod BB W) /\
  (wf W (op_not W a) /\ val (op_not W a) = BB W - 1 - val a).
Proof.
  intros HW Ha Hb Hw. assert (0 < W)%nat by lia.
  auto 10 using add_assign_wf, add_assign_val, mul32_assign_wf, mul32_assign_val, sub_assign_spec,
    mul_assign_spec, op_neg_spec, op_inc_spec, op_dec_spec, op_not_spec.
Qed.

Lemma base_uint_ring_witness :
  (wf 3 (mul_assign 3 [7; 0; 2 ^ 31] [2; 1; 0]) /\
   val (mul_assign 3 [7; 0; 2 ^ 31] [2; 1; 0]) = (val [7; 0; 2 ^ 31] * val [2; 1; 0]) mod BB 3).
Proof.
  refine (proj1 (proj2 (proj2 (base_uint_ring 3 [7; 0; 2 ^ 31] [2; 1; 0] 5 _ _ _ _)))); [lia| | |done];
    (split; [done|repeat constructor; done]).
Defined.

(** C23: [operator/=] divides: on well-formed operands it raises the
    division-by-zero exception exactly when the divisor is zero, and otherwise
    terminates with the floor of the quotient. *)
Theorem base_uint_division W a b :
  (2 <= W)%nat -> wf W a -> wf W b ->
  (div_assign W a b = None <-> val b = 0) /\
  (val b <> 0 -> exists q, div_assign W a b = Some q /\ wf W q /\ val q = val a / val b).
Proof.
  intros HW Ha Hb. pose proof (div_assign_spec W a b HW Ha Hb) as H.
  destruct (val b =? 0) eqn:E; bool_hyps; [by split|].
  destruct H as (q & -> & Hq). split; [done|]. intros _. by exists q.
Qed.

Lemma base_uint_division_witness :
  (div_assign 2 [7; 100] [3; 0] = None <-> val [3; 0] = 0) /\
  (val [3; 0] <> 0 -> exists q, div_assign 2 [7; 100] [3; 0] = Some q /\ wf 2 q /\ val q = val [7; 100] / val [3; 0]).
Proof. apply base_uint_division; [lia| |]; (split; [done|repeat constructor; done]). Defined.

(** The shift operators move the value: [operator<<=] multiplies by a power
    of two modulo 2^(32 * W) and [operator>>=] is the floor of the division,
    for every shift, those of whole limbs and those past the width included. *)
Theorem base_uint_shifts W a shift :
  wf W a -> 0 <= shift ->
  (wf W (shl_assign W a shift) /\ val (shl_assign W a shift) = (val a * 2 ^ shift) mod BB W) /\
  (wf W (shr_assign W a shift) /\ val (shr_assign W a shift) = val a / 2 ^ shift).
Proof. intros Ha Hs. split; [by apply shl_assign_spec|by apply shr_assign_spec]. Qed.

Lemma base_uint_shifts_witness :
  (wf 2 (shl_assign 2 [7; 100] 33) /\ val (shl_assign 2 [7; 100] 33) = (val [7; 100] * 2 ^ 33) mod BB 2) /\
  (wf 2 (shr_assign 2 [7; 100] 33) /\ val (shr_assign 2 [7; 100] 33) = val [7; 100] / 2 ^ 33).
Proof. apply base_uint_shifts; [split; [done|repeat constructor; done]|lia]. Defined.

(** Comparison and [bits]: [CompareTo] and the relational operators order
    well-formed values as integers, equality of the limbs is equality of the
    values, and [bits] is the length of the binary expansion. *)
Theorem base_uint_order W a b :
  wf W a -> wf W b ->
  CompareTo W a b = match val a ?= val b with Lt => -1 | Eq => 0 | Gt => 1 end /\
  op_gt W a b = (val b <? val a) /\ op_lt W a b = (val a <? val b) /\
  op_ge W a b = (val b <=? val a) /\ op_le W a b = (val a <=? val b) /\
  op_eq a b = (val a =? val b) /\
  bits W a = (if val a =? 0 then 0 else Z.log2 (val a) + 1).
Proof.
  intros Ha Hb. destruct (relops_spec W a b Ha Hb) as (? & ? & ? & ?).
  split_and!; try done; [by apply CompareTo_spec| |by apply bits_spec].
  unfold op_eq. destruct (val a =? val b) eqn:E; bool_hyps.
  - apply bool_decide_true. by apply (val_inj W).
  - apply bool_decide_false. by intros ->.
Qed.

Lemma base_uint_order_witness :
  CompareTo 2 [9; 1] [1; 2] = match val [9; 1] ?= val [1; 2] with Lt => -1 | Eq => 0 | Gt => 1 end.
Proof. apply base_uint_order; (split; [done|repeat constructor; done]). Defined.

(** [operator*=] clears [*this] before it reads its operand, so [x *= x]
    through the same object is zero, whatever [x] is, and not the square. *)
Theorem base_uint_mul_alias W a : (2 <= W)%nat ->
  mul_assign_self W a = base_uint_zero W.
Proof. apply mul_self_zero. Qed.

Lemma base_uint_mul_alias_witness : mul_assign_self 8 [3; 0; 0; 0; 0; 0; 0; 0] = base_uint_zero 8.
Proof. apply base_uint_mul_alias; lia. Defined.
