(* ===== verification/UintBytes.v ===== *)
(** The byte view of [base_uint]: hexadecimal text, raw serialisation and
    64-bit reads (src/sige/src/baseuint.h, utilstrencodings.cpp).

    [reinterpret_cast<unsigned char*>(pn)] is the memory image of the limbs on a
    little-endian host, the only one the code's casts are written for.  A C
    string is the list of its characters before the terminating NUL. *)

From S2P Require Import Prelude Bytes BaseUint.

(** ** utilstrencodings.cpp *)

(** The lookup table, row by row. *)
Definition p_util_hexdigit : list Z :=
  replicate 48 (-1) ++
  [0;1;2;3;4;5;6;7;8;9;-1;-1;-1;-1;-1;-1] ++
  [-1;0xa;0xb;0xc;0xd;0xe;0xf] ++ replicate 25 (-1) ++
  [-1;0xa;0xb;0xc;0xd;0xe;0xf] ++ replicate 153 (-1).
Definition HexDigit (c : Z) : Z := p_util_hexdigit.[Z.to_nat (u8 c)].

(** [isspace] and [tolower(c) == 'x'] in the C locale. *)
Definition isspace (c : Z) : bool := (c =? 32) || ((9 <=? c) && (c <=? 13)).
Definition lower_is_x (c : Z) : bool := (c =? 120) || (c =? 88).

(** The character at [psz[i]], the terminator past the end. *)
Definition char_at (psz : bytes) (i : nat) : Z := nth i psz 0.

Fixpoint skip_space (psz : bytes) : bytes :=
  match psz with
  | c :: psz' => if isspace c then skip_space psz' else psz
  | [] => []
  end.

Fixpoint hex_prefix (psz : bytes) : bytes :=
  match psz with
  | c :: psz' => if HexDigit c =? -1 then [] else c :: hex_prefix psz'
  | [] => []
  end.

Section base_uint_bytes.
Context (PN_WIDTH : nat).
Let BYTE_WIDTH := (4 * PN_WIDTH)%nat.

(** [(unsigned char* )pn] *)
Definition pn_bytes (pn : limbs) : bytes := mjoin (map (le_bytes 4) pn).

Fixpoint limbs_of_bytes (n : nat) (mem : bytes) : limbs :=
  match n with
  | O => []
  | S n' => le_val (take 4 mem) :: limbs_of_bytes n' (drop 4 mem)
  end.

(** [base_uint(const std::vector<unsigned char>& vch)]: [None] is the failed
    assertion [vch.size() == sizeof(pn)]. *)
Definition base_uint_of_vch (vch : bytes) : option limbs :=
  if (length vch =? BYTE_WIDTH)%nat then Some (limbs_of_bytes PN_WIDTH vch) else None.

Definition Serialize_uint (s : bytes) (pn : limbs) : bytes := s ++ pn_bytes pn.
(** [s.read] of [sizeof(pn)] bytes; [None] when the stream is too short. *)
Definition Unserialize_uint (s : bytes) : option (limbs * bytes) :=
  if (length s <? BYTE_WIDTH)%nat then None
  else Some (limbs_of_bytes PN_WIDTH (take BYTE_WIDTH s), drop BYTE_WIDTH s).

Definition GetUint64 (pn : limbs) (pos : nat) : Z :=
  let ptr := drop (pos * 8) (pn_bytes pn) in
  Z.lor (Z.lor (Z.lor (Z.lor (Z.lor (Z.lor (Z.lor
    ptr.[0%nat] (Z.shiftl ptr.[1%nat] 8)) (Z.shiftl ptr.[2%nat] 16))
    (Z.shiftl ptr.[3%nat] 24)) (Z.shiftl ptr.[4%nat] 32)) (Z.shiftl ptr.[5%nat] 40))
    (Z.shiftl ptr.[6%nat] 48)) (Z.shiftl ptr.[7%nat] 56).

(** [sprintf("%02x", b)] *)
Definition hex_char (d : Z) : Z := if d <? 10 then 48 + d else 87 + d.
Definition hex2 (b : Z) : bytes := [hex_char (b / 16); hex_char (b mod 16)].

Definition GetHex (pn : limbs) : bytes :=
  let pdata := pn_bytes pn in
  mjoin (map (fun i => hex2 pdata.[(BYTE_WIDTH - i - 1)%nat]) (seq 0 BYTE_WIDTH)).

(** The backward loop of [SetHex]: [ds] are the characters from [psz] down to
    [pbegin], [p1] the offset of the byte being filled. *)
Fixpoint fill_hex (ds : bytes) (p1 : nat) (mem : bytes) : bytes :=
  match ds with
  | [] => mem
  | c :: ds =>
      if (p1 <? BYTE_WIDTH)%nat then
        let mem := mem.[p1 := u8 (HexDigit c)] in
        match ds with
        | [] => mem
        | c' :: ds =>
            fill_hex ds (S p1) (mem.[p1 := Z.lor mem.[p1] (u8 (Z.shiftl (u8 (HexDigit c')) 4))])
        end
      else mem
  end.

Definition SetHex (psz : bytes) : limbs :=
  let mem := replicate BYTE_WIDTH 0 in
  let psz := skip_space psz in
  let psz :=
    if (char_at psz 0 =? 48) && lower_is_x (char_at psz 1) then drop 2 psz else psz in
  limbs_of_bytes PN_WIDTH (fill_hex (rev (hex_prefix psz)) 0 mem).
End base_uint_bytes.

(** The number a string of hexadecimal digits writes, last digit first. *)
Fixpoint hexval_rev (ds : bytes) : Z :=
  match ds with
  | [] => 0
  | c :: ds => HexDigit c + 16 * hexval_rev ds
  end.

Definition is_hex (c : Z) : Prop := HexDigit c <> -1.
#[global] Instance is_hex_dec c : Decision (is_hex c).
Proof. unfold is_hex; apply _. Defined.

Example GetHex_ex : GetHex 1 [0x0000abcd] = [48;48;48;48;97;98;99;100].
Proof. reflexivity. Qed.
Example SetHex_ex : SetHex 2 [32;48;120;97;98;99;100;49;122] = [0xabcd1; 0].
Proof. reflexivity. Qed.

(** ** Bytes and limbs *)

Lemma pn_bytes_cons x pn : pn_bytes (x :: pn) = le_bytes 4 x ++ pn_bytes pn.
Proof. done. Qed.

Lemma length_pn_bytes pn : length (pn_bytes pn) = (4 * length pn)%nat.
Proof.
  induction pn as [|x pn IH]; [done|]. rewrite pn_bytes_cons, length_app, length_le_bytes, IH. simpl; lia.
Qed.

Lemma pn_bytes_bytes pn : byte_list (pn_bytes pn).
Proof.
  induction pn as [|x pn IH]; [constructor|]. rewrite pn_bytes_cons. apply byte_list_app. split; [apply le_bytes_bytes|done].
Qed.

Lemma pn_bytes_val W pn : wf W pn -> le_val (pn_bytes pn) = val pn.
Proof.
  intros [_ HF]. induction HF as [|x pn Hx HF IH]; [done|].
  cbn [val]. by rewrite pn_bytes_cons, le_val_app, length_le_bytes, le_val_small, IH by done.
Qed.

Lemma limbs_of_bytes_spec n mem : byte_list mem -> length mem = (4 * n)%nat ->
  wf n (limbs_of_bytes n mem) /\ val (limbs_of_bytes n mem) = le_val mem.
Proof.
  revert mem; induction n as [|n IH]; intros mem Hm Hl.
  { destruct mem; [|simpl in Hl; lia]. split; [split; [done|constructor]|done]. }
  cbn [limbs_of_bytes val].
  assert (Ht : length (take 4 mem) = 4%nat) by (rewrite length_take; lia).
  assert (Hb : byte_list (take 4 mem)) by (by apply Forall_take).
  destruct (IH (drop 4 mem)) as [[Hw1 Hw2] Hv].
  { by apply Forall_drop. } { rewrite length_drop; lia. }
  split.
  - split; [simpl; by rewrite Hw1|]. constructor; [|done].
    replace 32 with (8 * Z.of_nat (length (take 4 mem))) by (by rewrite Ht). by apply le_val_range.
  - rewrite Hv. rewrite <- (take_drop 4 mem) at 3. by rewrite le_val_app, Ht.
Qed.

Lemma limbs_of_pn_bytes W pn : wf W pn -> limbs_of_bytes W (pn_bytes pn) = pn.
Proof.
  intros Hw. assert (Hl : length (pn_bytes pn) = (4 * W)%nat)
    by (by rewrite length_pn_bytes, (wf_length W)).
  destruct (limbs_of_bytes_spec W (pn_bytes pn) (pn_bytes_bytes pn) Hl) as [Hw' Hv].
  eapply val_inj; [done|done|]. by rewrite Hv, (pn_bytes_val W).
Qed.

Lemma le_val_insert l i x : (i < length l)%nat ->
  le_val (<[i := x]> l) = le_val l + (x - l !!! i) * 2 ^ (8 * Z.of_nat i).
Proof.
  revert i; induction l as [|y l IH]; intros i Hi; simpl in Hi; [lia|].
  destruct i as [|i]; cbn [insert list_insert le_val].
  - change ((y :: l) !!! 0%nat) with y. change (8 * Z.of_nat 0) with 0. lia.
  - rewrite IH by lia. change ((y :: l) !!! S i) with (l !!! i).
    replace (8 * Z.of_nat (S i)) with (8 + 8 * Z.of_nat i) by lia. rewrite Z.pow_add_r by lia. lia.
Qed.

(** ** Hexadecimal digits *)

Lemma HexDigit_range c : HexDigit c <> -1 -> 0 <= HexDigit c < 16.
Proof.
  assert (forallb (fun d => (d =? -1) || ((0 <=? d) && (d <? 16))) p_util_hexdigit = true) as H
    by reflexivity.
  rewrite forallb_forall in H. intros Hc.
  assert (In (HexDigit c) p_util_hexdigit) as Hin.
  { unfold HexDigit. apply list_elem_of_In, list_elem_of_lookup_2 with (Z.to_nat (u8 c)).
    apply list_lookup_lookup_total_lt.
    pose proof (wrap_range 8 c ltac:(lia)) as [? ?]. change (length p_util_hexdigit) with 256%nat.
    change (2 ^ 8) with 256 in *. lia. }
  specialize (H _ Hin). destruct (HexDigit c =? -1) eqn:?; bool_hyps; simpl in *; [lia|].
  bool_hyps. lia.
Qed.

Lemma HexDigit_hex_char d : 0 <= d < 16 -> HexDigit (hex_char d) = d.
Proof.
  intros Hd. assert (forallb (fun i => HexDigit (hex_char (Z.of_nat i)) =? Z.of_nat i) (seq 0 16) = true)
    as H by reflexivity.
  rewrite forallb_forall in H. specialize (H (Z.to_nat d)). rewrite Z2Nat.id in H by lia.
  apply Z.eqb_eq, H, in_seq. lia.
Qed.

Lemma is_hex_char d : 0 <= d < 16 -> is_hex (hex_char d).
Proof. intros Hd. unfold is_hex. rewrite HexDigit_hex_char by done. lia. Qed.

Lemma hex_prefix_spec s : Forall is_hex (hex_prefix s).
Proof.
  induction s as [|c s IH]; [constructor|]. cbn [hex_prefix].
  destruct (HexDigit c =? -1) eqn:E; [constructor|]. bool_hyps. by constructor.
Qed.

Lemma hex_prefix_app ds rest : Forall is_hex ds ->
  match rest with c :: _ => ~ is_hex c | [] => True end ->
  hex_prefix (ds ++ rest) = ds.
Proof.
  intros Hd Hr. induction Hd as [|c ds Hc Hd IH]; cbn [app hex_prefix].
  - destruct rest as [|c rest]; [done|]. cbn [hex_prefix].
    destruct (HexDigit c =? -1) eqn:E; [done|]. bool_hyps. done.
  - destruct (HexDigit c =? -1) eqn:E; bool_hyps; [done|]. by rewrite IH.
Qed.

Lemma hexval_rev_app a b : hexval_rev (a ++ b) = hexval_rev a + 16 ^ Z.of_nat (length a) * hexval_rev b.
Proof.
  induction a as [|c a IH]; cbn [app hexval_rev length]; [change (16 ^ Z.of_nat 0) with 1; lia|].
  rewrite IH, Nat2Z.inj_succ, Z.pow_succ_r by lia. lia.
Qed.

Lemma hex_byte d d' : 0 <= d < 16 -> 0 <= d' < 16 ->
  u8 d = d /\ Z.lor d (u8 (Z.shiftl (u8 d') 4)) = d + 16 * d'.
Proof.
  intros Hd Hd'. rewrite !(wrap_small 8 d'), (wrap_small 8 d) by (unfold in_u; lia).
  split; [done|]. rewrite wrap_small.
  - rewrite lor_add_shiftl by (unfold in_u; lia). lia.
  - rewrite Z.shiftl_mul_pow2 by lia. unfold in_u. lia.
Qed.

Section hex.
Context (W : nat).

(** The backward loop writes the digits' number, cut to the width. *)
Lemma fill_hex_spec ds p1 mem : Forall is_hex ds ->
  byte_list mem -> length mem = (4 * W)%nat -> (p1 <= 4 * W)%nat ->
  (forall j, (p1 <= j < 4 * W)%nat -> mem !!! j = 0) ->
  let mem' := fill_hex W ds p1 mem in
  byte_list mem' /\ length mem' = (4 * W)%nat /\
  eqm (2 ^ (8 * Z.of_nat (4 * W))) (le_val mem') (le_val mem + hexval_rev ds * 2 ^ (8 * Z.of_nat p1)).
Proof.
  intros Hd. remember (length ds) as n eqn:Hn. assert (length ds <= n)%nat as Hle by lia. clear Hn.
  revert ds p1 mem Hd Hle. induction n as [|n IH]; intros ds p1 mem Hd Hle Hm Hl Hp Hz mem'.
  { destruct ds; [|simpl in Hle; lia]. subst mem'. split_and!; [done|done|].
    unfold eqm; f_equal; simpl; lia. }
  destruct ds as [|c ds]; subst mem'; cbn [fill_hex].
  { split_and!; [done|done|]. unfold eqm; f_equal; simpl; lia. }
  destruct (p1 <? 4 * W)%nat eqn:Hlt; bool_hyps.
  2: { assert (p1 = (4 * W)%nat) as -> by lia. split_and!; [done|done|]. symmetry. apply eqm_sub_mult. }
  apply Forall_cons in Hd as [Hc Hd]. apply HexDigit_range in Hc.
  assert (H0 : mem !!! p1 = 0) by (apply Hz; lia).
  destruct ds as [|c' ds].
  { rewrite (wrap_small 8) by (unfold in_u; lia). split_and!.
    - apply Forall_insert; [done|]. unfold in_u; lia.
    - by rewrite length_insert.
    - rewrite le_val_insert, H0 by lia. unfold eqm; f_equal; simpl; lia. }
  apply Forall_cons in Hd as [Hc' Hd]. apply HexDigit_range in Hc'.
  destruct (hex_byte _ _ Hc Hc') as [-> Hbyte].
  rewrite list_lookup_total_insert_eq, list_insert_insert_eq, Hbyte by lia.
  set (b := HexDigit c + 16 * HexDigit c') in *.
  destruct (IH ds (S p1) (<[p1 := b]> mem)) as (Hm' & Hl' & He).
  - done.
  - simpl in Hle; lia.
  - apply Forall_insert; [done|]. unfold in_u; lia.
  - by rewrite length_insert.
  - lia.
  - intros j Hj. rewrite list_lookup_total_insert_ne by lia. apply Hz; lia.
  - split_and!; [done|done|]. rewrite He, le_val_insert, H0 by lia.
    replace (8 * Z.of_nat (S p1)) with (8 + 8 * Z.of_nat p1) by lia.
    rewrite Z.pow_add_r by lia. cbn [hexval_rev]. unfold eqm, b. f_equal. lia.
Qed.

(** Reading a hexadecimal string: blanks, an optional [0x], digits. *)
Lemma SetHex_val s : wf W (SetHex W s) /\
  exists ds, Forall is_hex ds /\ val (SetHex W s) = hexval_rev (rev ds) mod BB W /\
    let s' := skip_space s in
    ds = hex_prefix (if (char_at s' 0 =? 48) && lower_is_x (char_at s' 1) then drop 2 s' else s').
Proof.
  unfold SetHex. set (s0 := skip_space s). cbv zeta.
  set (s' := if (_ : bool) then _ else _).
  pose proof (hex_prefix_spec s') as Hd.
  destruct (fill_hex_spec (rev (hex_prefix s')) 0 (replicate (4 * W) 0)) as (Hm & Hl & He).
  - by apply List.Forall_rev.
  - apply Forall_replicate. unfold in_u; lia.
  - apply length_replicate.
  - lia.
  - intros; apply lookup_total_replicate_2; lia.
  - destruct (limbs_of_bytes_spec W _ Hm Hl) as [Hw Hv]. split; [done|].
    exists (hex_prefix s'). split_and!; [done| |done].
    apply eqm_mod; [by apply val_range|]. rewrite Hv.
    replace (BB W) with (2 ^ (8 * Z.of_nat (4 * W))) by (f_equal; lia).
    rewrite He. change (2 ^ (8 * Z.of_nat 0)) with 1. rewrite Z.mul_1_r.
    assert (le_val (replicate (4 * W) 0) = 0) as ->; [|done].
    generalize (4 * W)%nat; clear. induction n as [|n IH]; [done|]. cbn [replicate le_val]. lia.
Qed.

Lemma map_rev_index (l : bytes) :
  map (fun i => l !!! (length l - i - 1)%nat) (seq 0 (length l)) = rev l.
Proof.
  induction l as [|x l IH] using rev_ind; [done|].
  rewrite length_app, Nat.add_1_r, rev_app_distr. cbn [seq map rev app]. f_equal.
  - rewrite lookup_total_app_r by lia. replace (S (length l) - 0 - 1 - length l)%nat with 0%nat by lia. done.
  - rewrite <- IH, <- seq_shift, map_map. apply map_ext_in. intros i [_ Hi]%in_seq.
    rewrite lookup_total_app_l by lia. f_equal; lia.
Qed.

Lemma GetHex_alt pn : wf W pn -> GetHex W pn = mjoin (map hex2 (rev (pn_bytes pn))).
Proof.
  intros Hw. unfold GetHex. rewrite <- map_rev_index, map_map, length_pn_bytes, (wf_length W) by done.
  done.
Qed.

Lemma hex2_list l : byte_list l ->
  Forall is_hex (mjoin (map hex2 (rev l))) /\ hexval_rev (rev (mjoin (map hex2 (rev l)))) = le_val l.
Proof.
  unfold byte_list. induction 1 as [|b l Hb Hl [IH1 IH2]]; [split; [constructor|done]|].
  cbn [rev]. rewrite map_app, join_app. unfold in_u in Hb.
  assert (0 <= b / 16 < 16) by (split; [apply Z.div_pos; lia|apply Z.div_lt_upper_bound; lia]).
  pose proof (Z.mod_pos_bound b 16 ltac:(lia)).
  split.
  - apply Forall_app. split; [done|]. repeat constructor; by apply is_hex_char.
  - rewrite rev_app_distr, hexval_rev_app, IH2. cbn [map mjoin list_join].
    cbn [hex2 app rev hexval_rev length le_val]. rewrite !HexDigit_hex_char by done.
    change (16 ^ Z.of_nat 2) with (2 ^ 8). pose proof (Z.div_mod b 16 ltac:(lia)). lia.
Qed.

Lemma skip_space_hex ds : Forall is_hex ds -> skip_space ds = ds.
Proof.
  destruct 1 as [|c ds Hc]; [done|]. cbn [skip_space]. destruct (isspace c) eqn:E; [|done].
  exfalso. apply Hc. unfold isspace in E. apply orb_true_iff in E as [E|E]; bool_hyps; [by subst|].
  assert (c = 9 \/ c = 10 \/ c = 11 \/ c = 12 \/ c = 13) as Hcs by lia. by repeat destruct Hcs as [->|Hcs]; subst.
Qed.

(** [SetHex] reads back what [GetHex] prints. *)
Lemma SetHex_GetHex pn : wf W pn -> SetHex W (GetHex W pn) = pn.
Proof.
  intros Hw. destruct (SetHex_val (GetHex W pn)) as (Hw' & ds & Hd & Hv & Eds).
  destruct (hex2_list (pn_bytes pn) (pn_bytes_bytes pn)) as [Hh Hval].
  rewrite <- GetHex_alt in Hh, Hval by done. cbv zeta in Eds.
  rewrite skip_space_hex in Eds by done.
  replace ((char_at (GetHex W pn) 0 =? 48) && lower_is_x (char_at (GetHex W pn) 1)) with false in Eds.
  - assert (ds = GetHex W pn) as ->.
    { rewrite Eds. rewrite <- (app_nil_r (GetHex W pn)) at 1. by apply hex_prefix_app. }
    eapply val_inj; [done|done|]. rewrite Hv, Hval, (pn_bytes_val W) by done.
    apply Z.mod_small. by apply val_range.
  - symmetry. apply andb_false_iff. right. destruct (GetHex W pn) as [|c0 [|c1 l]]; [done|done|].
    change (char_at (c0 :: c1 :: l) 1) with c1.
    apply Forall_cons in Hh as [_ Hh]. apply Forall_cons in Hh as [Hc1 _].
    unfold lower_is_x. destruct (c1 =? 120) eqn:E1; bool_hyps; [subst; by destruct Hc1|].
    destruct (c1 =? 88) eqn:E2; bool_hyps; [subst; by destruct Hc1|done].
Qed.

(** Raw bytes: the memory image reads back, from a stream or a vector. *)
Lemma raw_roundtrip pn s : wf W pn ->
  Unserialize_uint W (pn_bytes pn ++ s) = Some (pn, s) /\
  base_uint_of_vch W (pn_bytes pn) = Some pn.
Proof.
  intros Hw. assert (Hl : length (pn_bytes pn) = (4 * W)%nat)
    by (by rewrite length_pn_bytes, (wf_length W)).
  unfold Unserialize_uint, base_uint_of_vch. split.
  - destruct (_ <? _)%nat eqn:E; bool_hyps; [rewrite length_app in E; lia|].
    rewrite take_app_length', drop_app_length' by done. by rewrite limbs_of_pn_bytes.
  - rewrite Hl, Nat.eqb_refl. by rewrite limbs_of_pn_bytes.
Qed.
End hex.

(** ** Properties *)

(** A [base_uint] survives both of its external forms: [SetHex] reads back
    the digits [GetHex] prints, [Unserialize] reads back the raw bytes
    [Serialize] writes and leaves the rest of the stream, and the byte-vector
    constructor rebuilds the value.  The digits are the value's, most
    significant first. *)
Theorem base_uint_external W pn s :
  wf W pn ->
  SetHex W (GetHex W pn) = pn /\ hexval_rev (rev (GetHex W pn)) = val pn /\
  Unserialize_uint W (pn_bytes pn ++ s) = Some (pn, s) /\
  base_uint_of_vch W (pn_bytes pn) = Some pn /\ le_val (pn_bytes pn) = val pn.
Proof.
  intros Hw. destruct (raw_roundtrip W pn s Hw). split_and!; try done.
  - by apply SetHex_GetHex.
  - rewrite GetHex_alt by done. destruct (hex2_list (pn_bytes pn)) as [_ ->]; [apply pn_bytes_bytes|].
    by apply (pn_bytes_val W).
  - by apply (pn_bytes_val W).
Qed.

Lemma base_uint_external_witness :
  SetHex 2 (GetHex 2 [0xdeadbeef; 0x12]) = [0xdeadbeef; 0x12] /\
  hexval_rev (rev (GetHex 2 [0xdeadbeef; 0x12])) = val [0xdeadbeef; 0x12] /\
  Unserialize_uint 2 (pn_bytes [0xdeadbeef; 0x12] ++ [1; 2]) = Some ([0xdeadbeef; 0x12], [1; 2]) /\
  base_uint_of_vch 2 (pn_bytes [0xdeadbeef; 0x12]) = Some [0xdeadbeef; 0x12] /\
  le_val (pn_bytes [0xdeadbeef; 0x12]) = val [0xdeadbeef; 0x12].
Proof. apply base_uint_external; split; [done|repeat constructor; done]. Defined.
