(* ===== verification/Uint256.v ===== *)
(** 256-bit integers and the compact ("nBits") encoding of difficulty targets:
    src/sige/src/uint256.h and uint256.cpp. *)

From S2P Require Import Prelude Bytes BaseUint UintBytes.

(** [class uint256 : public base_uint<256>] and [uint160]. *)
Definition WIDTH256 : nat := 8.
Definition WIDTH160 : nat := 5.
Abbreviation uint256 := limbs (only parsing).
Abbreviation wf256 := (wf WIDTH256).

Definition UintToArith256 (u : uint256) : uint256 := u.
Definition ArithToUint256 (u : uint256) : uint256 := u.

Definition uint256S (str : bytes) : uint256 := SetHex WIDTH256 str.

(** [GetCheapHash]: [ReadLE64] of the raw limbs (little-endian host). *)
Definition GetCheapHash (pn : uint256) : Z := ReadLE64 false (pn_bytes pn).

(** [SetCompact]: the new value, [*pfNegative] and [*pfOverflow]. *)
Definition SetCompact (nCompact : Z) : uint256 * bool * bool :=
  let nSize := Z.shiftr nCompact 24 in
  let nWord := Z.land nCompact 0x007fffff in
  let '(this, nWord) :=
    if nSize <=? 3 then
      let nWord := Z.shiftr nWord (8 * (3 - nSize)) in
      (base_uint_of_u64 WIDTH256 nWord, nWord)
    else (shl_assign WIDTH256 (base_uint_of_u64 WIDTH256 nWord) (8 * (nSize - 3)), nWord) in
  let pfNegative := negb (nWord =? 0) && negb (Z.land nCompact 0x00800000 =? 0) in
  let pfOverflow := negb (nWord =? 0) &&
    ((34 <? nSize) || ((0xff <? nWord) && (33 <? nSize)) || ((0xffff <? nWord) && (32 <? nSize))) in
  (this, pfNegative, pfOverflow).

(** [GetCompact(fNegative)]: [None] when one of its two assertions fails. *)
Definition GetCompact (this : uint256) (fNegative : bool) : option Z :=
  let nSize := (bits WIDTH256 this + 7) / 8 in
  let nCompact :=
    if nSize <=? 3 then u32 (u64 (Z.shiftl (GetLow64 this) (8 * (3 - nSize))))
    else
      let bn := shr_assign WIDTH256 this (8 * (nSize - 3)) in
      u32 (GetLow64 bn) in
  let '(nCompact, nSize) :=
    if negb (Z.land nCompact 0x00800000 =? 0)
    then (Z.shiftr nCompact 8, nSize + 1) else (nCompact, nSize) in
  if negb (Z.land nCompact (u32 (Z.lnot 0x007fffff)) =? 0) then None
  else if negb (nSize <? 256) then None
  else
    let nCompact := Z.lor nCompact (u32 (Z.shiftl nSize 24)) in
    Some (Z.lor nCompact
      (if fNegative && negb (Z.land nCompact 0x007fffff =? 0) then 0x00800000 else 0)).

(** ** What a compact word denotes *)

Definition compact_size (c : Z) : Z := c / 2 ^ 24.
Definition compact_word (c : Z) : Z := c mod 2 ^ 23.
(** mantissa * 256 ^ (exponent - 3), rounded towards zero. *)
Definition compact_value (c : Z) : Z :=
  if compact_size c <=? 3 then compact_word c / 256 ^ (3 - compact_size c)
  else compact_word c * 256 ^ (compact_size c - 3).

Example SetCompact_ex : SetCompact 0x05009234 = ([0x92340000; 0; 0; 0; 0; 0; 0; 0], false, false).
Proof. reflexivity. Qed.
Example GetCompact_ex : GetCompact [0x92340000; 0; 0; 0; 0; 0; 0; 0] false = Some 0x05009234.
Proof. reflexivity. Qed.

Lemma pow256 k : 0 <= k -> 2 ^ (8 * k) = 256 ^ k.
Proof. intros. rewrite Z.pow_mul_r by lia. done. Qed.

Lemma in_u_64_small x : 0 <= x < 2 ^ 63 -> in_u 64 x.
Proof. unfold in_u; lia. Qed.

Lemma compact_fields c : in_u 32 c ->
  Z.shiftr c 24 = compact_size c /\ Z.land c 0x007fffff = compact_word c /\
  0 <= compact_size c < 256 /\ 0 <= compact_word c < 2 ^ 23.
Proof.
  unfold in_u, compact_size, compact_word; intros Hc. split_and!.
  - by rewrite Z.shiftr_div_pow2.
  - by apply land_ones_low.
  - apply Z.div_pos; lia.
  - apply Z.div_lt_upper_bound; lia.
  - apply Z.mod_pos_bound; lia.
  - apply Z.mod_pos_bound; lia.
Qed.

(** The target [SetCompact] stores, and when it does not fit. *)
Lemma SetCompact_spec c : in_u 32 c ->
  let '(this, neg, ovf) := SetCompact c in
  wf256 this /\ val this = compact_value c mod 2 ^ 256 /\
  (ovf = true <-> 2 ^ 256 <= compact_value c) /\
  (neg = true <-> compact_value c <> 0 /\ Z.testbit c 23 = true).
Proof.
  intros Hc. destruct (compact_fields c Hc) as (E1 & E2 & Hs & Hw).
  unfold SetCompact, compact_value. rewrite E1, E2.
  set (sz := compact_size c) in *. set (w := compact_word c) in *.
  assert (Hbit : (Z.land c 0x00800000 =? 0) = negb (Z.testbit c 23)).
  { rewrite <- (land_bit c 23) by (done || lia). done. }
  rewrite Hbit.
  assert (Hneg : forall x, negb (x =? 0) && negb (negb (Z.testbit c 23)) = true <->
    x <> 0 /\ Z.testbit c 23 = true).
  { intros x. rewrite andb_true_iff, !negb_true_iff, negb_false_iff, Z.eqb_neq. done. }
  destruct (sz <=? 3) eqn:Esz; bool_hyps.
  - rewrite Z.shiftr_div_pow2, pow256 by lia.
    assert (Hd : 0 <= w / 256 ^ (3 - sz) <= w).
    { assert (1 <= 256 ^ (3 - sz)) by (apply (Z.pow_le_mono_r 256 0); lia).
      split; [apply Z.div_pos; lia|]. apply Z.div_le_upper_bound; nia. }
    set (x := w / 256 ^ (3 - sz)) in *.
    destruct (base_uint_of_u64_spec WIDTH256 x) as [Hwf Hv]; [unfold WIDTH256; lia|unfold in_u; lia|].
    split_and!; [done|rewrite Hv, Z.mod_small; lia| |apply Hneg].
    replace (34 <? sz) with false by (symmetry; apply Z.ltb_ge; lia).
    replace (33 <? sz) with false by (symmetry; apply Z.ltb_ge; lia).
    replace (32 <? sz) with false by (symmetry; apply Z.ltb_ge; lia).
    rewrite !andb_false_r. split; [done|lia].
  - destruct (base_uint_of_u64_spec WIDTH256 w) as [Hwf Hv]; [unfold WIDTH256; lia|unfold in_u; lia|].
    destruct (shl_assign_spec WIDTH256 (base_uint_of_u64 WIDTH256 w) (8 * (sz - 3)) Hwf ltac:(lia)) as [Hwf' Hv'].
    rewrite Hv, pow256 in Hv' by lia.
    split_and!; [done|done| |].
    + replace (2 ^ 256) with (256 ^ 32) by done.
      destruct (w =? 0) eqn:E0; bool_hyps; [rewrite E0; simpl; split; [done|lia]|]. simpl.
      assert (Hcmp : forall k, sz = k + 3 -> 0 <= k -> (256 ^ 32 <= w * 256 ^ (sz - 3) <->
        if k <=? 32 then 256 ^ (32 - k) <= w else True)).
      { intros k -> Hk. replace (k + 3 - 3) with k by lia. destruct (k <=? 32) eqn:?; bool_hyps.
        - replace 32 with ((32 - k) + k) at 1 by lia. rewrite Z.pow_add_r by lia.
          assert (0 < 256 ^ k) by lia. split; [intros; nia|intros; nia].
        - split; [done|]. intros _. assert (256 ^ 32 <= 256 ^ k) by (apply Z.pow_le_mono_r; lia). nia. }
      specialize (Hcmp (sz - 3) ltac:(lia) ltac:(lia)). rewrite Hcmp.
      rewrite !orb_true_iff, !andb_true_iff, !Z.ltb_lt.
      destruct (sz - 3 <=? 32) eqn:Ek; bool_hyps; [|split; [done|intros; lia]].
      destruct (decide (sz <= 32)).
      * assert (256 ^ 3 <= 256 ^ (32 - (sz - 3))) by (apply Z.pow_le_mono_r; lia). lia.
      * assert (sz = 33 \/ sz = 34 \/ sz = 35) as [-> | [-> | ->] ] by lia; simpl; lia.
    + rewrite Hneg. assert (0 < 256 ^ (sz - 3)) by lia. split; intros [? ?]; split; (done || nia).
Qed.

(** ** The compact word of a value *)

(** Length in bytes: [(bits() + 7) / 8]. *)
Definition nbytes (v : Z) : Z := ((if v =? 0 then 0 else Z.log2 v + 1) + 7) / 8.

(** Mantissa and exponent before and after making room for the sign bit. *)
Definition mantissa0 (v : Z) : Z :=
  if nbytes v <=? 3 then v * 256 ^ (3 - nbytes v) else v / 256 ^ (nbytes v - 3).
Definition compact_me (v : Z) : Z * Z :=
  if mantissa0 v <? 2 ^ 23 then (mantissa0 v, nbytes v) else (mantissa0 v / 256, nbytes v + 1).
Definition compact_of (v : Z) : Z := let '(m, e) := compact_me v in m + e * 2 ^ 24.

Lemma nbytes_spec v : 0 <= v ->
  0 <= nbytes v /\ v < 256 ^ nbytes v /\ (v <> 0 -> 1 <= nbytes v /\ 256 ^ (nbytes v - 1) <= v).
Proof.
  intros Hv. unfold nbytes. destruct (v =? 0) eqn:E; bool_hyps.
  { subst. split_and!; [done|done|done]. }
  pose proof (Z.log2_nonneg v). pose proof (Z.log2_spec v ltac:(lia)) as [H1 H2].
  set (n := (Z.log2 v + 1 + 7) / 8).
  assert (Hn : 8 * (n - 1) <= Z.log2 v < 8 * n).
  { subst n. pose proof (Z.div_mod (Z.log2 v + 1 + 7) 8 ltac:(lia)).
    pose proof (Z.mod_pos_bound (Z.log2 v + 1 + 7) 8 ltac:(lia)). lia. }
  assert (1 <= n) by lia. split_and!; [lia| |].
  - rewrite <- pow256 by lia. assert (2 ^ Z.succ (Z.log2 v) <= 2 ^ (8 * n)) by (apply Z.pow_le_mono_r; lia). lia.
  - intros _. split; [lia|]. rewrite <- pow256 by lia.
    assert (2 ^ (8 * (n - 1)) <= 2 ^ Z.log2 v) by (apply Z.pow_le_mono_r; lia). lia.
Qed.

Lemma nbytes_unique v n : 0 < v -> 1 <= n -> 256 ^ (n - 1) <= v < 256 ^ n -> nbytes v = n.
Proof.
  intros Hv Hn Hr. destruct (nbytes_spec v ltac:(lia)) as (H0 & H1 & H2).
  destruct (H2 ltac:(lia)) as [H3 H4].
  destruct (Z.lt_trichotomy (nbytes v) n) as [Hlt|[He|Hgt]]; [|done|].
  - assert (256 ^ nbytes v <= 256 ^ (n - 1)) by (apply Z.pow_le_mono_r; lia). lia.
  - assert (256 ^ n <= 256 ^ (nbytes v - 1)) by (apply Z.pow_le_mono_r; lia). lia.
Qed.

Lemma pow_split a b : 0 <= a -> 0 <= b -> 256 ^ (a + b) = 256 ^ a * 256 ^ b.
Proof. intros; by apply Z.pow_add_r. Qed.

Lemma mantissa0_range v : 0 <= v ->
  0 <= mantissa0 v < 2 ^ 24 /\ (v <> 0 -> 2 ^ 16 <= mantissa0 v).
Proof.
  intros Hv. destruct (nbytes_spec v Hv) as (H0 & H1 & H2). unfold mantissa0.
  change (2 ^ 24) with (256 ^ 3). change (2 ^ 16) with (256 ^ 2).
  destruct (nbytes v <=? 3) eqn:E; bool_hyps.
  - assert (0 < 256 ^ (3 - nbytes v)) by lia.
    assert (256 ^ 3 = 256 ^ nbytes v * 256 ^ (3 - nbytes v)) as ->
      by (rewrite <- pow_split by lia; f_equal; lia).
    split; [nia|]. intros Hz. destruct (H2 Hz) as [H3 H4].
    assert (256 ^ 2 = 256 ^ (nbytes v - 1) * 256 ^ (3 - nbytes v)) as ->
      by (rewrite <- pow_split by lia; f_equal; lia). nia.
  - assert (0 < 256 ^ (nbytes v - 3)) by lia.
    assert (256 ^ nbytes v = 256 ^ 3 * 256 ^ (nbytes v - 3)) as E3
      by (rewrite <- pow_split by lia; f_equal; lia). rewrite E3 in H1.
    split; [split; [apply Z.div_pos; lia|apply Z.div_lt_upper_bound; lia]|].
    intros Hz. destruct (H2 Hz) as [H3 H4].
    apply Z.div_le_lower_bound; [lia|]. rewrite <- pow_split by lia.
    by replace (nbytes v - 3 + 2) with (nbytes v - 1) by lia.
Qed.

Lemma compact_me_range v : 0 <= v < 2 ^ 256 ->
  let '(m, e) := compact_me v in 0 <= m < 2 ^ 23 /\ 0 <= e <= 33.
Proof.
  intros Hv. destruct (mantissa0_range v ltac:(lia)) as [Hm _].
  destruct (nbytes_spec v ltac:(lia)) as (H0 & H1 & H2).
  assert (nbytes v <= 32).
  { destruct (Z.eq_dec v 0) as [->|Hz]; [done|]. destruct (H2 Hz).
    apply Z.nlt_ge; intros Hgt. change (2 ^ 256) with (256 ^ 32) in Hv.
    assert (256 ^ 32 <= 256 ^ (nbytes v - 1)) by (apply Z.pow_le_mono_r; lia). lia. }
  unfold compact_me. destruct (_ <? _) eqn:E; bool_hyps; [lia|].
  split; [|lia]. split; [apply Z.div_pos; lia|apply Z.div_lt_upper_bound; lia].
Qed.

(** Decoding the compact word of [v] rounds [v] down to its top three (or,
    when the sign bit is in the way, two) bytes. *)
Definition compact_round (v : Z) : Z :=
  let k := Z.max 0 (snd (compact_me v) - 3) in v / 256 ^ k * 256 ^ k.

Lemma compact_of_fields v : 0 <= v < 2 ^ 256 ->
  compact_word (compact_of v) = fst (compact_me v) /\
  compact_size (compact_of v) = snd (compact_me v) /\
  in_u 32 (compact_of v) /\ Z.testbit (compact_of v) 23 = false.
Proof.
  intros Hv. pose proof (compact_me_range v Hv) as Hr. unfold compact_of, compact_word, compact_size, in_u.
  destruct (compact_me v) as [m e]. destruct Hr as [Hm He]. cbn [fst snd]. split_and!.
  - replace (m + e * 2 ^ 24) with (m + (e * 2) * 2 ^ 23) by lia.
    rewrite Z_mod_plus_full. apply Z.mod_small; lia.
  - rewrite Z_div_plus_full, Z.div_small by lia. lia.
  - lia.
  - lia.
  - replace (m + e * 2 ^ 24) with (m + (e * 2) * 2 ^ 23) by lia.
    rewrite <- (Z.mod_pow2_bits_low _ 24) by lia.
    replace (m + e * 2 * 2 ^ 23) with (m + e * 2 ^ 24) by lia.
    rewrite Z_mod_plus_full, Z.mod_small by lia. apply (bits_above 23); [done|lia].
Qed.

Lemma compact_value_of v : 0 <= v < 2 ^ 256 -> compact_value (compact_of v) = compact_round v.
Proof.
  intros Hv. destruct (compact_of_fields v Hv) as (E1 & E2 & _ & _).
  unfold compact_value, compact_round. rewrite E1, E2. clear E1 E2.
  destruct (nbytes_spec v ltac:(lia)) as (H0 & _ & _).
  unfold compact_me, mantissa0. destruct (nbytes v <=? 3) eqn:E; bool_hyps.
  - destruct (_ <? 2 ^ 23) eqn:E2; bool_hyps; cbn [fst snd].
    + destruct (nbytes v <=? 3) eqn:?; bool_hyps; [|lia]. rewrite Z.max_l by lia.
      rewrite Z.div_mul by lia. change (256 ^ 0) with 1. rewrite Z.div_1_r. lia.
    + destruct (nbytes v + 1 <=? 3) eqn:E3; bool_hyps.
      * rewrite Z.max_l by lia. change (256 ^ 0) with 1. rewrite Z.div_1_r.
        replace (3 - nbytes v) with (1 + (3 - (nbytes v + 1))) by lia. rewrite pow_split by lia.
        change (256 ^ 1) with 256. rewrite (Z.mul_comm 256), Z.mul_assoc, Z.div_mul, Z.div_mul by lia. lia.
      * assert (nbytes v = 3) as -> by lia. change (256 ^ (3 - 3)) with 1. rewrite Z.mul_1_r. done.
  - destruct (_ <? 2 ^ 23) eqn:E2; bool_hyps; cbn [fst snd].
    + destruct (nbytes v <=? 3) eqn:?; bool_hyps; [lia|]. by rewrite Z.max_r by lia.
    + destruct (nbytes v + 1 <=? 3) eqn:?; bool_hyps; [lia|]. rewrite Z.max_r by lia.
      replace (nbytes v + 1 - 3) with ((nbytes v - 3) + 1) by lia. rewrite pow_split by lia.
      change (256 ^ 1) with 256. by rewrite Z.div_div by lia.
Qed.

(** [GetCompact] never fails and computes [compact_of]. *)
Lemma GetLow64_spec x : wf256 x -> GetLow64 x = val x mod 2 ^ 64.
Proof.
  intros Hx. pose proof (wf_lookup _ x 0 Hx ltac:(unfold WIDTH256; lia)) as H0.
  pose proof (wf_lookup _ x 1 Hx ltac:(unfold WIDTH256; lia)) as H1.
  unfold GetLow64. rewrite lor_add_shiftl by (done || lia).
  destruct x as [|a [|b l]]; [by destruct Hx|by destruct Hx|].
  change ((a :: b :: l) !!! 0%nat) with a in *. change ((a :: b :: l) !!! 1%nat) with b in *.
  cbn [val]. unfold in_u in *.
  replace (a + 2 ^ 32 * (b + 2 ^ 32 * val l)) with (a + b * 2 ^ 32 + val l * 2 ^ 64) by lia.
  rewrite Z_mod_plus_full. symmetry. apply Z.mod_small. lia.
Qed.

Lemma bit23 m : 0 <= m < 2 ^ 24 -> (Z.land m 0x00800000 =? 0) = (m <? 2 ^ 23).
Proof.
  intros Hm. change 0x00800000 with (u32 (Z.shiftl 1 23)).
  rewrite (land_bit m 23 ltac:(lia) ltac:(unfold in_u; lia)).
  destruct (m <? 2 ^ 23) eqn:E; bool_hyps.
  - rewrite (bits_above 23 m 23); [done|unfold in_u; lia|lia].
  - replace (Z.testbit m 23) with true; [done|]. symmetry. apply Z.testbit_true; [lia|].
    replace (m / 2 ^ 23) with 1; [done|]. apply Z.div_unique with (m - 2 ^ 23); lia.
Qed.

(** The end of [GetCompact]: both assertions hold, the fields are disjoint. *)
Lemma compact_assemble m e (neg : bool) : 0 <= m < 2 ^ 23 -> 0 <= e < 256 ->
  (if negb (Z.land m (u32 (Z.lnot 0x007fffff)) =? 0) then None
   else if negb (e <? 256) then None
   else
     let nCompact := Z.lor m (u32 (Z.shiftl e 24)) in
     Some (Z.lor nCompact
       (if neg && negb (Z.land nCompact 0x007fffff =? 0) then 0x00800000 else 0))) =
  Some (m + e * 2 ^ 24 + (if neg && negb (m =? 0) then 2 ^ 23 else 0)).
Proof.
  intros Hm He.
  assert (Z.land m (u32 (Z.lnot 0x007fffff)) = 0) as ->.
  { apply Z.bits_inj'; intros i Hi. rewrite Z.land_spec, Z.bits_0.
    destruct (Z.lt_ge_cases i 23).
    - replace (u32 (Z.lnot 0x007fffff)) with (Z.shiftl 511 23) by done.
      rewrite Z.shiftl_spec_low by lia. apply andb_false_r.
    - rewrite (bits_above 23 m); [done|unfold in_u; lia|lia]. }
  destruct (e <? 256) eqn:E; bool_hyps; [|lia]. rewrite Z.eqb_refl. cbn [negb].
  rewrite (wrap_small 32) by (rewrite Z.shiftl_mul_pow2 by lia; unfold in_u; lia).
  rewrite lor_add_shiftl by (unfold in_u; lia). cbv zeta. f_equal.
  rewrite (land_ones_low _ 0x007fffff 23) by done.
  assert ((m + e * 2 ^ 24) mod 2 ^ 23 = m) as ->.
  { replace (m + e * 2 ^ 24) with (m + (e * 2) * 2 ^ 23) by lia.
    rewrite Z_mod_plus_full. apply Z.mod_small; lia. }
  destruct (neg && negb (m =? 0)); [|rewrite Z.lor_0_r; lia].
  replace (m + e * 2 ^ 24) with (Z.lor (Z.shiftl e 24) m)
    by (rewrite lor_shiftl_add by (unfold in_u; lia); lia).
  rewrite <- Z.lor_assoc. change 0x00800000 with (Z.shiftl 1 23).
  rewrite (lor_add_shiftl m 1 23) by (unfold in_u; lia).
  rewrite !lor_shiftl_add by (unfold in_u; lia). lia.
Qed.

Lemma GetCompact_spec x neg : wf256 x ->
  GetCompact x neg = Some (compact_of (val x) +
    (if neg && negb (fst (compact_me (val x)) =? 0) then 2 ^ 23 else 0)).
Proof.
  intros Hx. pose proof (val_range _ x Hx) as Hv. change (BB WIDTH256) with (2 ^ 256) in Hv.
  unfold GetCompact. rewrite bits_spec by done. fold (nbytes (val x)).
  destruct (mantissa0_range (val x) ltac:(lia)) as [Hm _].
  destruct (nbytes_spec (val x) ltac:(lia)) as (Hn & Hlt & _).
  set (m0 := if nbytes (val x) <=? 3 then _ else _).
  assert (m0 = mantissa0 (val x)) as ->.
  { subst m0. unfold mantissa0 in *. destruct (nbytes (val x) <=? 3) eqn:E; bool_hyps.
    - assert (val x < 2 ^ 24).
      { change (2 ^ 24) with (256 ^ 3). assert (256 ^ nbytes (val x) <= 256 ^ 3) by (apply Z.pow_le_mono_r; lia). lia. }
      rewrite GetLow64_spec, Z.mod_small, Z.shiftl_mul_pow2, pow256 by (done || lia).
      rewrite (wrap_small 64), (wrap_small 32) by (unfold in_u; lia). done.
    - destruct (shr_assign_spec WIDTH256 x (8 * (nbytes (val x) - 3)) Hx ltac:(lia)) as [Hw Hv'].
      rewrite GetLow64_spec, Hv', pow256, Z.mod_small by (done || lia).
      apply wrap_small. unfold in_u; lia. }
  rewrite bit23 by done. pose proof (compact_me_range (val x) Hv) as Hr.
  unfold compact_of. unfold compact_me in *.
  destruct (mantissa0 (val x) <? 2 ^ 23) eqn:E; cbn [negb fst] in *.
  - apply compact_assemble; lia.
  - rewrite Z.shiftr_div_pow2 by lia. change (2 ^ 8) with 256. apply compact_assemble; lia.
Qed.

(** *** Rounding is stable *)

Lemma div_mul_le v k : 0 <= v -> 0 <= k -> 0 <= v / 256 ^ k * 256 ^ k <= v.
Proof.
  intros Hv Hk. pose proof (Z.div_mod v (256 ^ k) ltac:(lia)).
  pose proof (Z.mod_pos_bound v (256 ^ k) ltac:(lia)).
  pose proof (Z.div_pos v (256 ^ k) Hv ltac:(lia)). nia.
Qed.

Lemma compact_round_le v : 0 <= v -> 0 <= compact_round v <= v.
Proof. intros. apply div_mul_le; lia. Qed.

Lemma compact_round_stable v : 0 <= v -> compact_me (compact_round v) = compact_me v.
Proof.
  intros Hv. destruct (Z.eq_dec v 0) as [->|Hz]; [done|].
  pose proof (compact_round_le v Hv) as Hle.
  destruct (nbytes_spec v Hv) as (Hn & Hlt & Hge). destruct (Hge Hz) as [Hn1 Hlow].
  destruct (mantissa0_range v Hv) as [Hm Hm16]. specialize (Hm16 Hz).
  destruct (decide (snd (compact_me v) <= 3)) as [Hs|Hs].
  { unfold compact_round. rewrite Z.max_l by lia. change (256 ^ 0) with 1.
    by rewrite Z.div_1_r, Z.mul_1_r. }
  set (n := nbytes v) in *.
  assert (exists k, k = snd (compact_me v) - 3) as [k Hkd] by eauto.
  assert (Hk : compact_round v = v / 256 ^ k * 256 ^ k)
    by (unfold compact_round; by rewrite Z.max_r, <- Hkd by lia).
  (* the top byte survives, so the length does not change *)
  assert (Hnb : nbytes (compact_round v) = n /\ k <= n - 2 /\ (k = n - 3 \/ k = n - 2)).
  { assert (k = n - 3 \/ k = n - 2) as Hkn.
    { rewrite Hkd. unfold compact_me. fold n. destruct (_ <? _); cbn [snd]; lia. }
    assert (k <= n - 2) by lia. split; [|done].
    assert (0 <= k) by lia.
    assert (256 ^ (n - 1) <= compact_round v).
    { rewrite Hk. replace (n - 1) with ((n - 1 - k) + k) by lia. rewrite pow_split by lia.
      apply Z.mul_le_mono_nonneg_r; [lia|]. apply Z.div_le_lower_bound; [lia|].
      rewrite <- pow_split by lia. by replace (k + (n - 1 - k)) with (n - 1) by lia. }
    apply nbytes_unique; lia. }
  destruct Hnb as (Hnb & Hkn & Hcase).
  unfold compact_me, mantissa0. rewrite Hnb. fold n.
  revert Hm Hm16 Hs Hkd. unfold compact_me, mantissa0. fold n.
  destruct (n <=? 3) eqn:E3; bool_hyps.
  - destruct (_ <? 2 ^ 23) eqn:E; cbn [snd]; intros Hm Hm16 Hs Hkd; [lia|].
    assert (n = 3) as Hn3 by lia. rewrite Hn3 in *. change (256 ^ (3 - 3)) with 1 in *.
    rewrite Hk, Hkd. change (3 + 1 - 3) with 1. change (256 ^ 1) with 256. rewrite !Z.mul_1_r in *.
    bool_hyps. assert (2 ^ 23 <= v / 256 * 256).
    { replace (2 ^ 23) with (2 ^ 15 * 256) by done. apply Z.mul_le_mono_nonneg_r; [lia|].
      apply Z.div_le_lower_bound; lia. }
    destruct (v / 256 * 256 <? 2 ^ 23) eqn:E'; bool_hyps; [lia|].
    by rewrite Z.div_mul by lia.
  - destruct (_ <? 2 ^ 23) eqn:E; cbn [snd]; intros Hm Hm16 Hs Hkd; rewrite Hk, Hkd.
    + rewrite Z.div_mul by lia. by rewrite E.
    + replace (n + 1 - 3) with (1 + (n - 3)) by lia. rewrite pow_split by lia. change (256 ^ 1) with 256.
      rewrite Z.mul_assoc, Z.div_mul by lia. rewrite (Z.mul_comm 256), <- Z.div_div by lia. bool_hyps.
      assert (2 ^ 23 <= v / 256 ^ (n - 3) / 256 * 256).
      { replace (2 ^ 23) with (2 ^ 15 * 256) by done. apply Z.mul_le_mono_nonneg_r; [lia|].
        apply Z.div_le_lower_bound; lia. }
      destruct (_ <? 2 ^ 23) eqn:E'; bool_hyps; [lia|].
      by rewrite Z.div_mul by lia.
Qed.

(** ** Properties *)

(** C34: [SetCompact] decodes every 32-bit word to mantissa * 256^(exponent - 3)
    (rounded towards zero below exponent 3) modulo 2^256; it reports overflow
    exactly when that number does not fit 256 bits, and a negative number
    exactly when the sign bit is set on a nonzero value. *)
Theorem SetCompact_decodes c :
  in_u 32 c ->
  let '(this, neg, ovf) := SetCompact c in
  wf256 this /\ val this = compact_value c mod 2 ^ 256 /\
  (ovf = true <-> 2 ^ 256 <= compact_value c) /\
  (neg = true <-> compact_value c <> 0 /\ Z.testbit c 23 = true).
Proof. apply SetCompact_spec. Qed.

Lemma SetCompact_decodes_witness :
  let '(this, neg, ovf) := SetCompact 0x1d00ffff in
  wf256 this /\ val this = compact_value 0x1d00ffff mod 2 ^ 256 /\
  (ovf = true <-> 2 ^ 256 <= compact_value 0x1d00ffff) /\
  (neg = true <-> compact_value 0x1d00ffff <> 0 /\ Z.testbit 0x1d00ffff 23 = true).
Proof. apply (SetCompact_decodes 0x1d00ffff); done. Defined.

(** C34: [GetCompact] is total (neither assertion can fail) and canonical: the
    word it gives decodes without overflow or sign to the value rounded down to
    its leading bytes, never above the value, and encoding the decoded value
    again gives the same word. *)
Theorem GetCompact_canonical x :
  wf256 x ->
  exists c, GetCompact x false = Some c /\ in_u 32 c /\
    let '(y, neg, ovf) := SetCompact c in
    wf256 y /\ neg = false /\ ovf = false /\
    val y = compact_round (val x) /\ val y <= val x /\ GetCompact y false = Some c.
Proof.
  intros Hx. pose proof (val_range _ _ Hx) as Hr. change (BB WIDTH256) with (2 ^ 256) in Hr.
  destruct (compact_of_fields _ Hr) as (_ & _ & Hc & Hsign).
  pose proof (compact_round_le (val x) ltac:(lia)) as Hle.
  exists (compact_of (val x)). rewrite GetCompact_spec, Z.add_0_r by done. split_and!; [done|done|].
  pose proof (SetCompact_spec _ Hc) as Hs. destruct (SetCompact _) as [[y neg] ovf].
  destruct Hs as (Hy & Hv & Hovf & Hneg). rewrite compact_value_of in * by done.
  rewrite Z.mod_small in Hv by lia.
  split_and!; [done| | |done|lia|].
  - destruct neg; [|done]. destruct Hneg as [Hneg _]. destruct (Hneg eq_refl) as [_ Hb].
    by rewrite Hsign in Hb.
  - destruct ovf; [|done]. apply proj1 in Hovf. specialize (Hovf eq_refl). lia.
  - rewrite GetCompact_spec, Z.add_0_r, Hv by done. unfold compact_of.
    by rewrite compact_round_stable by lia.
Qed.

Lemma GetCompact_canonical_witness :
  exists c, GetCompact (base_uint_of_u64 8 0x1234567890) false = Some c /\ in_u 32 c /\
    let '(y, neg, ovf) := SetCompact c in
    wf256 y /\ neg = false /\ ovf = false /\
    val y = compact_round (val (base_uint_of_u64 8 0x1234567890)) /\
    val y <= val (base_uint_of_u64 8 0x1234567890) /\ GetCompact y false = Some c.
Proof. apply GetCompact_canonical. split; [done|repeat constructor; done]. Defined.
