(* ===== verification/Serialize.v ===== *)
(** Streams and the serialisation templates: src/sige/src/serialize.h and
    [CDataStream] / [CVectorWriter] of src/sige/src/streams.h.

    The templates are generic in the stream; here a stream is the class
    [Stream], what the templates rely on is [StreamLaws], and [CDataStream] is
    the instance.  Writing appends, so a [Serialize] function denotes the bytes
    it appends; the host is little-endian ([Bytes.write_le] and [Bytes.read_le]
    show the other host stores and reads the same bytes). *)

From S2P Require Import Prelude Bytes.

(** ** The stream interface *)

Class Stream (S : Type) := {
  (** [s.read(pch, nSize)] *)
  s_read : nat -> rd S bytes;
  (** [s.size()]: the bytes left *)
  s_size : S -> nat;
}.

Class StreamLaws (S : Type) `{!Stream S} := {
  s_ok : S -> Prop;
  s_view : S -> bytes;
  s_view_bytes s : s_ok s -> byte_list (s_view s);
  s_size_view s : s_ok s -> s_size s = length (s_view s);
  s_read_ok n s : s_ok s -> (n <= length (s_view s))%nat ->
    exists s', s_read n s = Ok (take n (s_view s), s') /\ s_ok s' /\ s_view s' = drop n (s_view s);
  s_read_short n s : s_ok s -> Z.of_nat n < 2 ^ 31 -> (length (s_view s) < n)%nat ->
    exists e, s_read n s = Throw e;
}.

(** ** CDataStream *)

Module CDataStream.
Record t := { vch : bytes; nReadPos : Z }.

Definition Init (vch : bytes) : t := {| vch := vch; nReadPos := 0 |}.
Definition size (s : t) : Z := Z.of_nat (length (vch s)) - nReadPos s.
Definition empty (s : t) : bool := Z.of_nat (length (vch s)) =? nReadPos s.
Definition clear (s : t) : t := {| vch := []; nReadPos := 0 |}.
Definition Compact (s : t) : t :=
  {| vch := drop (Z.to_nat (nReadPos s)) (vch s); nReadPos := 0 |}.

Definition Rewind (n : Z) (s : t) : bool * t :=
  if nReadPos s <? n then (false, s)
  else (true, {| vch := vch s; nReadPos := nReadPos s - n |}).

Definition read (nSize : nat) : rd t bytes := fun s =>
  let nReadPosNext := u32 (nReadPos s + Z.of_nat nSize) in
  let out := take nSize (drop (Z.to_nat (nReadPos s)) (vch s)) in
  if Z.of_nat (length (vch s)) <=? nReadPosNext then
    if Z.of_nat (length (vch s)) <? nReadPosNext
    then Throw "CDataStream::read(): end of data"
    else Ok (out, {| vch := []; nReadPos := 0 |})
  else Ok (out, {| vch := vch s; nReadPos := nReadPosNext |}).

Definition ignore (nSize : Z) (s : t) : res t :=
  if nSize <? 0 then Throw "CDataStream::ignore(): nSize negative"
  else
    let nReadPosNext := u32 (nReadPos s + nSize) in
    if Z.of_nat (length (vch s)) <=? nReadPosNext then
      if Z.of_nat (length (vch s)) <? nReadPosNext
      then Throw "CDataStream::ignore(): end of data"
      else Ok {| vch := []; nReadPos := 0 |}
    else Ok {| vch := vch s; nReadPos := nReadPosNext |}.

Definition write (pch : bytes) (s : t) : t :=
  {| vch := vch s ++ pch; nReadPos := nReadPos s |}.

(** [insert(it, first, last)] at [it = begin() + pos]. *)
Definition insert (pos : nat) (ins : bytes) (s : t) : t :=
  if (pos =? 0)%nat && (Z.of_nat (length ins) <=? nReadPos s) then
    let nReadPos' := nReadPos s - Z.of_nat (length ins) in
    {| vch := take (Z.to_nat nReadPos') (vch s) ++ ins ++
              drop (Z.to_nat nReadPos' + length ins) (vch s);
       nReadPos := nReadPos' |}
  else
    let at_ := (Z.to_nat (nReadPos s) + pos)%nat in
    {| vch := take at_ (vch s) ++ ins ++ drop at_ (vch s); nReadPos := nReadPos s |}.

(** [erase(begin() + pos)] *)
Definition erase1 (pos : nat) (s : t) : t :=
  if (pos =? 0)%nat then
    let nReadPos' := u32 (nReadPos s + 1) in
    if Z.of_nat (length (vch s)) <=? nReadPos' then {| vch := []; nReadPos := 0 |}
    else {| vch := vch s; nReadPos := nReadPos' |}
  else
    let at_ := (Z.to_nat (nReadPos s) + pos)%nat in
    {| vch := take at_ (vch s) ++ drop (S at_) (vch s); nReadPos := nReadPos s |}.

(** [erase(begin() + first, begin() + last)] *)
Definition erase (first last : nat) (s : t) : t :=
  let base := Z.to_nat (nReadPos s) in
  if (first =? 0)%nat then
    if (base + last =? length (vch s))%nat then {| vch := []; nReadPos := 0 |}
    else {| vch := vch s; nReadPos := u32 (Z.of_nat (base + last)) |}
  else {| vch := take (base + first) (vch s) ++ drop (base + last) (vch s);
          nReadPos := nReadPos s |}.

Definition resize (n : nat) (s : t) : t :=
  let n' := (n + Z.to_nat (nReadPos s))%nat in
  {| vch := take n' (vch s) ++ replicate (n' - length (vch s)) 0; nReadPos := nReadPos s |}.

(** [operator+=] appends the unread bytes of [b]; [Serialize], behind
    [stream << stream], writes the whole buffer. *)
Definition append (s b : t) : t :=
  {| vch := vch s ++ drop (Z.to_nat (nReadPos b)) (vch b); nReadPos := nReadPos s |}.
Definition Serialize (b : t) : bytes :=
  if (length (vch b) =? 0)%nat then [] else vch b.

Definition GetAndClear (s : t) (d : bytes) : bytes * t :=
  (d ++ drop (Z.to_nat (nReadPos s)) (vch s), clear s).

(** The queue of unread bytes. *)
Definition view (s : t) : bytes := drop (Z.to_nat (nReadPos s)) (vch s).
Definition ok (s : t) : Prop :=
  byte_list (vch s) /\ 0 <= nReadPos s <= Z.of_nat (length (vch s)) /\
  Z.of_nat (length (vch s)) < 2 ^ 31.
End CDataStream.

#[export] Instance CDataStream_Stream : Stream CDataStream.t := {
  s_read := CDataStream.read;
  s_size s := Z.to_nat (CDataStream.size s);
}.

(** ** CVectorWriter *)

Module CVectorWriter.
Record t := { vchData : bytes; nPos : nat }.

Definition resize (n : nat) (l : bytes) : bytes := take n l ++ replicate (n - length l) 0.

Definition make (vchDataIn : bytes) (nPosIn : nat) : t :=
  {| vchData := if (length vchDataIn <? nPosIn)%nat then resize nPosIn vchDataIn else vchDataIn;
     nPos := nPosIn |}.

Definition write (pch : bytes) (s : t) : res t :=
  if (nPos s <=? length (vchData s))%nat then
    let nSize := length pch in
    let nOverwrite := Nat.min nSize (length (vchData s) - nPos s) in
    let v := if (0 <? nOverwrite)%nat
             then take (nPos s) (vchData s) ++ take nOverwrite pch ++ drop (nPos s + nOverwrite) (vchData s)
             else vchData s in
    let v := if (nOverwrite <? nSize)%nat then v ++ drop nOverwrite pch else v in
    Ok {| vchData := v; nPos := nPos s + nSize |}
  else AssertFail.

Definition seek (nSize : nat) (s : t) : t :=
  let nPos' := (nPos s + nSize)%nat in
  {| vchData := if (length (vchData s) <? nPos')%nat then resize nPos' (vchData s) else vchData s;
     nPos := nPos' |}.
End CVectorWriter.

(** ** Primitive data *)

Definition MAX_SIZE : Z := 0x02000000.

Definition ser_writedata8 (obj : Z) : bytes := mem_of false 1 obj.
Definition ser_writedata16 (obj : Z) : bytes := let obj := htole16 false obj in mem_of false 2 obj.
Definition ser_writedata32 (obj : Z) : bytes := let obj := htole32 false obj in mem_of false 4 obj.
Definition ser_writedata64 (obj : Z) : bytes := let obj := htole64 false obj in mem_of false 8 obj.

Section readers.
Context {S : Type} `{!Stream S}.

Definition ser_readdata8 : rd S Z := let! b := s_read 1 in rd_ret (of_mem false 1 b).
Definition ser_readdata16 : rd S Z := let! b := s_read 2 in rd_ret (le16toh false (of_mem false 2 b)).
Definition ser_readdata32 : rd S Z := let! b := s_read 4 in rd_ret (le32toh false (of_mem false 4 b)).
Definition ser_readdata64 : rd S Z := let! b := s_read 8 in rd_ret (le64toh false (of_mem false 8 b)).

Definition ReadCompactSize : rd S Z :=
  let! chSize := ser_readdata8 in
  let! nSizeRet :=
    if chSize <? 253 then rd_ret chSize
    else if chSize =? 253 then
      let! n := ser_readdata16 in
      if n <? 253 then rd_throw "non-canonical ReadCompactSize()" else rd_ret n
    else if chSize =? 254 then
      let! n := ser_readdata32 in
      if n <? 0x10000 then rd_throw "non-canonical ReadCompactSize()" else rd_ret n
    else
      let! n := ser_readdata64 in
      if n <? 0x100000000 then rd_throw "non-canonical ReadCompactSize()" else rd_ret n in
  if MAX_SIZE <? nSizeRet then rd_throw "ReadCompactSize(): size too large"
  else rd_ret nSizeRet.

(** [ReadVarInt<Stream, I>] for an unsigned [I] of [w] bits.  The code has no
    bound on the number of bytes; every turn consumes one, so the bytes left
    in the stream are fuel enough. *)
Fixpoint ReadVarInt_loop (w : Z) (fuel : nat) (n : Z) : rd S Z :=
  match fuel with
  | O => fun _ => OutOfFuel
  | Datatypes.S fuel =>
      let! chData := ser_readdata8 in
      let n := Z.lor (wrap w (Z.shiftl n 7)) (Z.land chData 0x7F) in
      if negb (Z.land chData 0x80 =? 0) then ReadVarInt_loop w fuel (wrap w (n + 1))
      else rd_ret n
  end.
Definition ReadVarInt (w : Z) : rd S Z := fun s => ReadVarInt_loop w (1 + s_size s) 0 s.
End readers.

(** ** Compact sizes *)

Definition GetSizeOfCompactSize (nSize : Z) : Z :=
  if nSize <? 253 then 1
  else if nSize <=? 0xffff then 1 + 2
  else if nSize <=? 0xffffffff then 1 + 4
  else 1 + 8.

Definition WriteCompactSize (nSize : Z) : bytes :=
  if nSize <? 253 then ser_writedata8 (u8 nSize)
  else if nSize <=? 0xffff then ser_writedata8 253 ++ ser_writedata16 (u16 nSize)
  else if nSize <=? 0xffffffff then ser_writedata8 254 ++ ser_writedata32 (u32 nSize)
  else ser_writedata8 255 ++ ser_writedata64 nSize.

(** ** Variable-length integers *)

(** The loop of [GetSizeOfVarInt]; [n] loses seven bits a turn. *)
Fixpoint GetSizeOfVarInt_loop (fuel : nat) (n nRet : Z) : option Z :=
  match fuel with
  | O => None
  | S fuel =>
      let nRet := nRet + 1 in
      if n <=? 0x7F then Some nRet else GetSizeOfVarInt_loop fuel (Z.shiftr n 7 - 1) nRet
  end.
(** [sizeof(I) * 8] is [w]; [(w + 6) / 7] turns are enough. *)
Definition varint_fuel (w : Z) : nat := Z.to_nat ((w + 6) / 7).
Definition GetSizeOfVarInt (w n : Z) : option Z := GetSizeOfVarInt_loop (varint_fuel w) n 0.

(** The first loop of [WriteVarInt] fills [tmp[0..len]]; the second writes it
    from [tmp[len]] down to [tmp[0]].  [None]: the buffer [tmp] overflows. *)
Fixpoint WriteVarInt_loop (fuel : nat) (n : Z) (tmp : bytes) : option bytes :=
  match fuel with
  | O => None
  | S fuel =>
      let len := length tmp in
      let tmp := tmp ++ [u8 (Z.lor (Z.land n 0x7F) (if (len =? 0)%nat then 0x00 else 0x80))] in
      if n <=? 0x7F then Some tmp else WriteVarInt_loop fuel (Z.shiftr n 7 - 1) tmp
  end.
Definition WriteVarInt (w n : Z) : option bytes :=
  option_map (fun tmp => mjoin (map ser_writedata8 (rev tmp))) (WriteVarInt_loop (varint_fuel w) n []).

(** ** CDataStream is a stream *)

#[export] Program Instance CDataStream_Laws : StreamLaws CDataStream.t := {|
  s_ok := CDataStream.ok;
  s_view := CDataStream.view;
|}.
Next Obligation. intros s (Hb & _). by apply Forall_drop. Qed.
Next Obligation.
  intros s (_ & Hp & _). unfold s_size, CDataStream_Stream, CDataStream.size, CDataStream.view.
  rewrite length_drop. lia.
Qed.
Next Obligation.
  intros n [v p] (Hb & Hp & Hl) Hn. unfold s_read, CDataStream_Stream, CDataStream.read, CDataStream.view in *.
  simpl in *. rewrite length_drop in Hn. rewrite wrap_small by (unfold in_u; lia).
  destruct (_ <=? _) eqn:E1; bool_hyps; [destruct (_ <? _) eqn:E2; bool_hyps; [lia|]|].
  - eexists; split; [reflexivity|]. split; [|simpl; rewrite drop_drop, drop_ge by lia; done].
    split_and!; simpl; try lia. constructor.
  - eexists; split; [reflexivity|]. split; [split_and!; simpl; try lia; done|].
    simpl. rewrite drop_drop. f_equal; lia.
Qed.
Next Obligation.
  intros n [v p] (Hb & Hp & Hl) Hn Hs. unfold s_read, CDataStream_Stream, CDataStream.read, CDataStream.view in *.
  simpl in *. rewrite length_drop in Hs. rewrite wrap_small by (unfold in_u; lia).
  destruct (_ <=? _) eqn:E1; bool_hyps; [|lia]. destruct (_ <? _) eqn:E2; bool_hyps; [eauto|lia].
Qed.

(** ** Reading back what was written

    [reads m b a]: on any lawful stream that starts with the bytes [b], [m]
    returns [a] and leaves the rest. *)

Section reads.
Context {S : Type} `{!Stream S, !StreamLaws S}.

Definition reads {A} (m : rd S A) (b : bytes) (a : A) : Prop :=
  forall s rest, s_ok s -> s_view s = b ++ rest ->
    exists s', m s = Ok (a, s') /\ s_ok s' /\ s_view s' = rest.

(** [m] throws on any lawful stream that starts with [b]. *)
Definition rejects {A} (m : rd S A) (b : bytes) : Prop :=
  forall s rest, s_ok s -> s_view s = b ++ rest -> exists e, m s = Throw e.

Lemma reads_ret {A} (a : A) : reads (rd_ret a) [] a.
Proof. intros s rest Hs Hv. exists s. done. Qed.

Lemma reads_bind {A B} (m : rd S A) (k : A -> rd S B) b1 b2 a c :
  reads m b1 a -> reads (k a) b2 c -> reads (rd_bind m k) (b1 ++ b2) c.
Proof.
  intros Hm Hk s rest Hs Hv. rewrite <- app_assoc in Hv.
  destruct (Hm s _ Hs Hv) as (s' & E & Hs' & Hv').
  destruct (Hk s' _ Hs' Hv') as (s'' & E' & Hs'' & Hv'').
  exists s''. unfold rd_bind. rewrite E. simpl. done.
Qed.

Lemma reads_bind_ret {A B} (m : rd S A) (k : A -> rd S B) b a c :
  reads m b a -> reads (k a) [] c -> reads (rd_bind m k) b c.
Proof. intros Hm Hk. rewrite <- (app_nil_r b). by eapply reads_bind. Qed.

Lemma rejects_bind_l {A B} (m : rd S A) (k : A -> rd S B) b : rejects m b -> rejects (rd_bind m k) b.
Proof. intros Hm s rest Hs Hv. destruct (Hm s rest Hs Hv) as [e E]. exists e. unfold rd_bind. by rewrite E. Qed.

Lemma rejects_bind_r {A B} (m : rd S A) (k : A -> rd S B) b1 b2 a :
  reads m b1 a -> rejects (k a) b2 -> rejects (rd_bind m k) (b1 ++ b2).
Proof.
  intros Hm Hk s rest Hs Hv. rewrite <- app_assoc in Hv.
  destruct (Hm s _ Hs Hv) as (s' & E & Hs' & Hv').
  destruct (Hk s' _ Hs' Hv') as (e & E'). exists e. unfold rd_bind. rewrite E. simpl. done.
Qed.

Lemma rejects_throw {A} e : rejects (rd_throw e : rd S A) [].
Proof. intros s rest _ _. by exists e. Qed.

Lemma reads_read n b : length b = n -> reads (s_read n) b b.
Proof.
  intros <- s rest Hs Hv.
  destruct (s_read_ok (length b) s Hs) as (s' & E & Hs' & Hv').
  { rewrite Hv, length_app. lia. }
  exists s'. rewrite E, Hv', Hv, take_app_length, drop_app_length. done.
Qed.

Lemma reads_data n x : in_u (8 * Z.of_nat n) x ->
  reads (let! b := s_read n in rd_ret (of_mem false n b)) (le_bytes n x) x.
Proof.
  intros Hx. eapply reads_bind_ret; [by apply reads_read, length_le_bytes|].
  unfold of_mem. rewrite take_ge by (rewrite length_le_bytes; done).
  rewrite le_val_small by done. apply reads_ret.
Qed.

Lemma reads_data8 x : in_u 8 x -> reads ser_readdata8 (ser_writedata8 x) x.
Proof. apply (reads_data 1). Qed.
Lemma reads_data16 x : in_u 16 x -> reads ser_readdata16 (ser_writedata16 x) x.
Proof. apply (reads_data 2). Qed.
Lemma reads_data32 x : in_u 32 x -> reads ser_readdata32 (ser_writedata32 x) x.
Proof. apply (reads_data 4). Qed.
Lemma reads_data64 x : in_u 64 x -> reads ser_readdata64 (ser_writedata64 x) x.
Proof. apply (reads_data 8). Qed.
End reads.

Create HintDb reads.
#[export] Hint Resolve reads_ret reads_data8 reads_data16 reads_data32 reads_data64 : reads.

(** *** Compact sizes *)

Lemma length_WriteCompactSize n : Z.of_nat (length (WriteCompactSize n)) = GetSizeOfCompactSize n.
Proof. unfold WriteCompactSize, GetSizeOfCompactSize. repeat case_match; done. Qed.

Section compact_size.
Context {S : Type} `{!Stream S, !StreamLaws S}.

Lemma reads_CompactSize n : 0 <= n <= MAX_SIZE -> reads ReadCompactSize (WriteCompactSize n) n.
Proof.
  unfold MAX_SIZE. intros Hn. unfold WriteCompactSize.
  assert (Hfin : forall (m : rd S Z) b, reads m b n ->
    reads (let! x := m in if MAX_SIZE <? x then rd_throw "ReadCompactSize(): size too large" else rd_ret x) b n).
  { intros m b Hm. eapply reads_bind_ret; [exact Hm|]. unfold MAX_SIZE.
    destruct (_ <? n) eqn:?; bool_hyps; [lia|apply reads_ret]. }
  destruct (n <? 253) eqn:E1; bool_hyps; [|destruct (n <=? 0xffff) eqn:E2; bool_hyps;
    [|destruct (n <=? 0xffffffff) eqn:E3; bool_hyps; [|lia]]].
  - rewrite wrap_small by (unfold in_u; lia). rewrite <- (app_nil_r (ser_writedata8 n)).
    eapply reads_bind; [apply reads_data8; unfold in_u; lia|]. apply Hfin.
    destruct (n <? 253) eqn:?; bool_hyps; [apply reads_ret|lia].
  - eapply reads_bind; [apply reads_data8; unfold in_u; lia|]. apply Hfin. simpl.
    rewrite wrap_small by (unfold in_u; lia).
    eapply reads_bind_ret; [apply reads_data16; unfold in_u; lia|].
    destruct (n <? 253) eqn:?; bool_hyps; [lia|apply reads_ret].
  - eapply reads_bind; [apply reads_data8; unfold in_u; lia|]. apply Hfin. simpl.
    rewrite wrap_small by (unfold in_u; lia).
    eapply reads_bind_ret; [apply reads_data32; unfold in_u; lia|].
    destruct (n <? _) eqn:?; bool_hyps; [lia|apply reads_ret].
Qed.

(** Over-long encodings and sizes above [MAX_SIZE] are refused. *)
Lemma rejects_CompactSize_large n : MAX_SIZE < n < 2 ^ 64 -> rejects ReadCompactSize (WriteCompactSize n).
Proof.
  unfold MAX_SIZE. intros Hn. unfold WriteCompactSize.
  assert (Hfin : forall (m : rd S Z) b, reads m b n ->
    rejects (let! x := m in if MAX_SIZE <? x then rd_throw "ReadCompactSize(): size too large" else rd_ret x) b).
  { intros m b Hm. rewrite <- (app_nil_r b). eapply rejects_bind_r; [exact Hm|]. unfold MAX_SIZE.
    destruct (_ <? n) eqn:?; bool_hyps; [apply rejects_throw|lia]. }
  destruct (n <? 253) eqn:E1; bool_hyps; [lia|]. destruct (n <=? 0xffff) eqn:E2; bool_hyps; [lia|].
  destruct (n <=? 0xffffffff) eqn:E3; bool_hyps;
    (eapply rejects_bind_r; [apply reads_data8; unfold in_u; lia|]; apply Hfin; simpl).
  - rewrite wrap_small by (unfold in_u; lia).
    eapply reads_bind_ret; [apply reads_data32; unfold in_u; lia|].
    destruct (n <? _) eqn:?; bool_hyps; [lia|apply reads_ret].
  - eapply reads_bind_ret; [apply reads_data64; unfold in_u; lia|].
    destruct (n <? _) eqn:?; bool_hyps; [lia|apply reads_ret].
Qed.

Lemma rejects_CompactSize_overlong n :
  (0 <= n < 253 -> rejects ReadCompactSize (ser_writedata8 253 ++ ser_writedata16 n)) /\
  (0 <= n < 0x10000 -> rejects ReadCompactSize (ser_writedata8 254 ++ ser_writedata32 n)) /\
  (0 <= n < 0x100000000 -> rejects ReadCompactSize (ser_writedata8 255 ++ ser_writedata64 n)).
Proof.
  split_and!; intros Hn;
    (eapply rejects_bind_r; [apply reads_data8; unfold in_u; lia|]; apply rejects_bind_l; simpl).
  1: rewrite <- (app_nil_r (ser_writedata16 n)).
  2: rewrite <- (app_nil_r (ser_writedata32 n)).
  3: rewrite <- (app_nil_r (ser_writedata64 n)).
  1: eapply rejects_bind_r; [apply reads_data16; unfold in_u; lia|].
  2: eapply rejects_bind_r; [apply reads_data32; unfold in_u; lia|].
  3: eapply rejects_bind_r; [apply reads_data64; unfold in_u; lia|].
  all: destruct (n <? _) eqn:?; bool_hyps; [apply rejects_throw|lia].
Qed.
End compact_size.

(** *** Variable-length integers *)

Lemma bit7 m : 0 <= m < 128 -> Z.lor m 0x80 = m + 128 /\
  Z.land (m + 128) 0x80 <> 0 /\ Z.land m 0x80 = 0.
Proof.
  intros Hm. assert (H : forall x, Z.land x 0x80 = Z.shiftl (Z.land (Z.shiftr x 7) 1) 7).
  { intros x. apply Z.bits_inj'; intros i Hi. rewrite Z.land_spec. change 0x80 with (Z.shiftl 1 7).
    destruct (Z.lt_ge_cases i 7); [rewrite !Z.shiftl_spec_low by lia; apply andb_false_r|].
    rewrite !Z.shiftl_spec, Z.land_spec, Z.shiftr_spec by lia. do 2 f_equal; lia. }
  rewrite !H, !Z.shiftr_div_pow2 by lia. change (2 ^ 7) with 128. split_and!.
  - change 0x80 with (Z.shiftl 1 7) at 1. rewrite lor_add_shiftl by (unfold in_u; lia). done.
  - replace ((m + 128) / 128) with 1; [done|]. apply Z.div_unique with m; lia.
  - by rewrite Z.div_small.
Qed.

Lemma varint_byte n (f : bool) : 0 <= n ->
  let b := u8 (Z.lor (Z.land n 0x7F) (if f then 0x80 else 0x00)) in
  in_u 8 b /\ Z.land b 0x7F = n mod 128 /\ (Z.land b 0x80 =? 0) = negb f.
Proof.
  intros Hn. cbv zeta. rewrite (land_ones_low n _ 7) by done. change (2 ^ 7) with 128.
  pose proof (Z.mod_pos_bound n 128 ltac:(lia)) as Hm.
  destruct (bit7 (n mod 128) Hm) as (E & H1 & H0).
  assert (u8 (Z.lor (n mod 128) (if f then 0x80 else 0x00)) = n mod 128 + (if f then 128 else 0)) as ->.
  { destruct f; [rewrite E|rewrite Z.lor_0_r, Z.add_0_r]; apply wrap_small; unfold in_u; lia. }
  rewrite (land_ones_low _ 0x7F 7) by done. change (2 ^ 7) with 128. split_and!.
  - unfold in_u; destruct f; lia.
  - destruct f; [change 128 with (1 * 128) at 2; rewrite Z_mod_plus_full|rewrite Z.add_0_r]; by rewrite Zmod_mod.
  - destruct f; [by apply Z.eqb_neq|by rewrite Z.add_0_r, H0].
Qed.

Section varint.
Context {S : Type} `{!Stream S, !StreamLaws S} (w : Z) (Hw : 7 <= w).

(** One turn of the reading loop. *)
Lemma varint_turn n (f : bool) s rest :
  in_u w n -> s_ok s ->
  s_view s = ser_writedata8 (u8 (Z.lor (Z.land n 0x7F) (if f then 0x80 else 0x00))) ++ rest ->
  exists s', s_ok s' /\ s_view s' = rest /\ forall k,
    ReadVarInt_loop w (1 + k) (n / 128) s =
      if f then ReadVarInt_loop w k (wrap w (n + 1)) s' else Ok (n, s').
Proof.
  intros Hn Hs Hv. destruct (varint_byte n f) as (Hb & Hlow & Hflag); [apply Hn|].
  destruct (reads_data8 _ Hb s rest Hs Hv) as (s' & E & Hs' & Hv').
  exists s'. split_and!; [done|done|]. intros k.
  cbn [Nat.add ReadVarInt_loop]. unfold rd_bind at 1. rewrite E.
  cbn [res_bind]. rewrite Hlow, Hflag. unfold in_u in Hn.
  pose proof (Z.div_mod n 128 ltac:(lia)). pose proof (Z.mod_pos_bound n 128 ltac:(lia)).
  pose proof (Z.div_pos n 128 ltac:(lia) ltac:(lia)).
  rewrite (wrap_small w (Z.shiftl _ 7))
    by (rewrite Z.shiftl_mul_pow2 by lia; change (2 ^ 7) with 128; unfold in_u; lia).
  rewrite lor_shiftl_add by (unfold in_u; lia). change (2 ^ 7) with 128.
  replace (n / 128 * 128 + n mod 128) with n by lia. by destruct f.
Qed.

Lemma varint_next n : 127 < n -> Z.shiftr n 7 - 1 = n / 128 - 1 /\ 1 <= n / 128.
Proof.
  intros Hn. rewrite Z.shiftr_div_pow2 by lia. split; [done|].
  apply Z.div_le_lower_bound; lia.
Qed.

Lemma writes_app_ser l1 l2 : mjoin (map ser_writedata8 (l1 ++ l2)) =
  mjoin (map ser_writedata8 l1) ++ mjoin (map ser_writedata8 l2).
Proof. by rewrite map_app, join_app. Qed.

Lemma pow7_S k : 2 ^ (7 * Z.of_nat (Datatypes.S k)) = 128 * 2 ^ (7 * Z.of_nat k).
Proof. change 128 with (2 ^ 7). rewrite <- Z.pow_add_r by lia. f_equal; lia. Qed.

(** The bytes of [n] written after the first one, all with the high bit. *)
Lemma varint_tail fuel n : fuel <> O -> 0 <= n < 2 ^ (7 * Z.of_nat fuel) -> n + 1 < 2 ^ w ->
  exists e, (forall tmp, tmp <> [] -> WriteVarInt_loop fuel n tmp = Some (tmp ++ e)) /\
    (forall r, GetSizeOfVarInt_loop fuel n r = Some (r + Z.of_nat (length e))) /\
    forall s rest, s_ok s -> s_view s = mjoin (map ser_writedata8 (rev e)) ++ rest ->
      exists s', s_ok s' /\ s_view s' = rest /\
        forall k, ReadVarInt_loop w (length e + k) 0 s = ReadVarInt_loop w k (n + 1) s'.
Proof.
  revert n. induction fuel as [|fuel IH]; intros n Hfuel Hn Hw1; [done|].
  set (b := u8 (Z.lor (Z.land n 0x7F) 0x80)). cbn [WriteVarInt_loop GetSizeOfVarInt_loop].
  destruct (n <=? 0x7F) eqn:E; bool_hyps.
  - exists [b]. split_and!.
    + intros tmp Htmp. destruct tmp; done.
    + intros r. f_equal.
    + intros s rest Hs Hv. cbn [rev app map mjoin list_join] in Hv. rewrite app_nil_r in Hv.
      destruct (varint_turn n true s rest) as (s' & Hs' & Hv' & E'); [unfold in_u; lia|done|done|].
      exists s'. split_and!; [done|done|]. intros k. specialize (E' k).
      rewrite Z.div_small in E' by lia. cbn [length]. rewrite E', wrap_small by (unfold in_u; lia). done.
  - destruct (varint_next n) as [-> Hpos]; [lia|]. rewrite pow7_S in Hn.
    assert (n / 128 < 2 ^ (7 * Z.of_nat fuel)) by (apply Z.div_lt_upper_bound; lia).
    assert (n / 128 <= n) by (apply Z.div_le_upper_bound; lia).
    destruct (IH (n / 128 - 1)) as (e & He1 & He2 & He3); [by intros ->; simpl in *; lia|lia|lia|].
    exists (b :: e). split_and!.
    + intros tmp Htmp. destruct tmp as [|t0 tmp]; [done|]. simpl (length (t0 :: tmp) =? 0)%nat.
      fold b. rewrite He1 by (by destruct tmp). by rewrite <- app_assoc.
    + intros r. rewrite He2. f_equal. cbn [length]. lia.
    + intros s rest Hs Hv. cbn [rev] in Hv. rewrite writes_app_ser, <- app_assoc in Hv.
      destruct (He3 s _ Hs Hv) as (s1 & Hs1 & Hv1 & E1).
      destruct (varint_turn n true s1 rest) as (s' & Hs' & Hv' & E'); [unfold in_u; lia|done| |].
      { rewrite Hv1. cbn [map mjoin list_join]. by rewrite app_nil_r. }
      exists s'. split_and!; [done|done|]. intros k. cbn [length].
      replace (Datatypes.S (length e) + k)%nat with (length e + (1 + k))%nat by lia.
      rewrite E1. replace (n / 128 - 1 + 1) with (n / 128) by lia.
      rewrite E', wrap_small by (unfold in_u; lia). done.
Qed.

Lemma varint_fuel_enough n : in_u w n ->
  varint_fuel w <> O /\ 0 <= n < 2 ^ (7 * Z.of_nat (varint_fuel w)).
Proof.
  unfold in_u, varint_fuel. intros Hn.
  assert (1 <= (w + 6) / 7) by (apply Z.div_le_lower_bound; lia). split; [lia|]. split; [lia|].
  pose proof (Z.div_mod (w + 6) 7 ltac:(lia)). pose proof (Z.mod_pos_bound (w + 6) 7 ltac:(lia)).
  assert (2 ^ w <= 2 ^ (7 * Z.of_nat (Z.to_nat ((w + 6) / 7)))) by (apply Z.pow_le_mono_r; lia). lia.
Qed.

(** Writing succeeds in the buffer of [(w + 6) / 7] bytes, [GetSizeOfVarInt]
    is the length written, and reading returns the number. *)
Lemma varint_roundtrip n : in_u w n ->
  exists b, WriteVarInt w n = Some b /\
    GetSizeOfVarInt w n = Some (Z.of_nat (length b)) /\ reads (ReadVarInt w) b n.
Proof.
  intros Hn. pose proof (varint_fuel_enough n Hn) as [Hf0 Hf].
  unfold WriteVarInt, GetSizeOfVarInt. destruct (varint_fuel w) as [|fuel]; [done|].
  set (b0 := u8 (Z.lor (Z.land n 0x7F) 0x00)).
  assert (Hlen : forall e, length (mjoin (map ser_writedata8 (rev e))) = length e).
  { intros e. rewrite <- (length_rev e). generalize (rev e); clear.
    induction l as [|x l IH]; [done|].
    change (mjoin (map ser_writedata8 (x :: l))) with (ser_writedata8 x ++ mjoin (map ser_writedata8 l)).
    rewrite length_app, IH. done. }
  assert (Hread : forall e, (forall s rest, s_ok s ->
      s_view s = mjoin (map ser_writedata8 (rev e)) ++ rest ->
      exists s', s_ok s' /\ s_view s' = rest /\
        forall k, ReadVarInt_loop w (length e + k) 0 s = ReadVarInt_loop w k (n / 128) s') ->
    reads (ReadVarInt w) (mjoin (map ser_writedata8 (rev (b0 :: e)))) n).
  { intros e He s rest Hs Hv. cbn [rev] in Hv. rewrite writes_app_ser, <- app_assoc in Hv.
    destruct (He s _ Hs Hv) as (s1 & Hs1 & Hv1 & E1).
    destruct (varint_turn n false s1 rest) as (s' & Hs' & Hv' & E'); [done|done| |].
    { rewrite Hv1. cbn [map mjoin list_join]. by rewrite app_nil_r. }
    exists s'. split_and!; [|done|done]. unfold ReadVarInt.
    rewrite s_size_view, Hv, length_app, Hlen by done.
    replace (1 + (length e + length (mjoin (map ser_writedata8 [b0]) ++ rest)))%nat
      with (length e + (1 + (length (mjoin (map ser_writedata8 [b0]) ++ rest))))%nat by lia.
    by rewrite E1, E'. }
  cbn [WriteVarInt_loop GetSizeOfVarInt_loop length Nat.eqb app]. fold b0.
  unfold in_u in Hn. destruct (n <=? 0x7F) eqn:E; bool_hyps; cbn [option_map].
  - eexists. split_and!; [done|by rewrite Hlen|]. apply Hread.
    intros s rest Hs Hv. exists s. split_and!; [done|done|]. intros k. by rewrite Z.div_small by lia.
  - destruct (varint_next n) as [-> Hpos]; [lia|]. rewrite pow7_S in Hf.
    assert (n / 128 < 2 ^ (7 * Z.of_nat fuel)) by (apply Z.div_lt_upper_bound; lia).
    assert (n / 128 < n) by (apply Z.div_lt; lia).
    destruct (varint_tail fuel (n / 128 - 1)) as (e & He1 & He2 & He3);
      [by intros ->; simpl in *; lia|lia|lia|].
    rewrite He1, He2 by done. cbn [option_map app].
    eexists. split_and!; [done|rewrite Hlen; f_equal; cbn [length]; lia|]. apply Hread.
    intros s rest Hs Hv. destruct (He3 s rest Hs Hv) as (s' & Hs' & Hv' & E').
    exists s'. split_and!; [done|done|]. intros k. rewrite E'. do 2 f_equal. lia.
Qed.
End varint.

(** ** Properties *)

(** *** CDataStream as a queue of bytes *)

Section queue.
Import CDataStream.
Implicit Types s : t.

Lemma drop_insert_at s pos ins : ok s -> (pos <= length (view s))%nat ->
  view (insert pos ins s) = take pos (view s) ++ ins ++ drop pos (view s).
Proof.
  destruct s as [v p]. intros (_ & Hp & _) Hl. unfold insert, view in *. cbn [vch nReadPos] in *.
  rewrite length_drop in Hl. destruct (_ && _) eqn:E; cbn [vch nReadPos].
  - apply andb_true_iff in E as [E1 E2]. apply Nat.eqb_eq in E1 as ->. bool_hyps.
    rewrite drop_app_length' by (rewrite length_take; lia).
    rewrite take_0, drop_0. cbn [app]. do 2 f_equal. lia.
  - rewrite drop_app_le by (rewrite length_take; lia).
    rewrite skipn_firstn_comm. do 2 f_equal; [lia|]. rewrite drop_drop. done.
Qed.

Lemma erase1_view s pos : ok s -> (pos < length (view s))%nat ->
  view (erase1 pos s) = take pos (view s) ++ drop (S pos) (view s).
Proof.
  destruct s as [v p]. intros (_ & Hp & Hv) Hl. unfold erase1, view in *. cbn [vch nReadPos] in *.
  rewrite length_drop in Hl. destruct (pos =? 0)%nat eqn:E; [apply Nat.eqb_eq in E as ->|].
  - rewrite wrap_small by (unfold in_u; lia). rewrite take_0, drop_drop. cbn [app].
    destruct (_ <=? _) eqn:E; bool_hyps; cbn [vch nReadPos].
    + rewrite drop_ge by (simpl; lia). rewrite drop_ge by lia. done.
    + f_equal. lia.
  - cbn [vch nReadPos]. rewrite drop_app_le by (rewrite length_take; lia).
    rewrite skipn_firstn_comm, drop_drop. f_equal; f_equal; lia.
Qed.

Lemma erase_view s first last : ok s -> (first <= last <= length (view s))%nat ->
  view (erase first last s) = take first (view s) ++ drop last (view s).
Proof.
  destruct s as [v p]. intros (_ & Hp & Hv) Hl. unfold erase, view in *. cbn [vch nReadPos] in *.
  rewrite length_drop in Hl. destruct (first =? 0)%nat eqn:E; [apply Nat.eqb_eq in E as ->|].
  - rewrite take_0, drop_drop. cbn [app].
    destruct (_ =? _)%nat eqn:E; [apply Nat.eqb_eq in E|]; cbn [vch nReadPos].
    + rewrite !drop_ge by (simpl; lia). done.
    + rewrite wrap_small by (unfold in_u; lia). f_equal. lia.
  - cbn [vch nReadPos]. rewrite drop_app_le by (rewrite length_take; lia).
    rewrite skipn_firstn_comm, drop_drop. f_equal; f_equal; lia.
Qed.
End queue.

(** C24: [CDataStream] is a queue of bytes for everything its callers can
    observe: reads take from the front, writes append, [ignore] drops, the
    vector-like [insert] and [erase] act at positions of the unread bytes,
    [Compact] is invisible and [Rewind] puts back what was read, although the
    buffer keeps consumed bytes and clears itself when it is read to its end.
    Reading or ignoring more than is left throws. *)
Theorem cdatastream_queue (s : CDataStream.t) (n pos last : nat) (ins : bytes) :
  CDataStream.ok s -> Z.of_nat n < 2 ^ 31 -> (pos <= last <= length (CDataStream.view s))%nat ->
  let q := CDataStream.view s in
  CDataStream.size s = Z.of_nat (length q) /\
  ((n <= length q)%nat ->
     (exists s', CDataStream.read n s = Ok (take n q, s') /\ CDataStream.ok s' /\ CDataStream.view s' = drop n q) /\
     exists s', CDataStream.ignore (Z.of_nat n) s = Ok s' /\ CDataStream.view s' = drop n q) /\
  ((length q < n)%nat ->
     (exists e, CDataStream.read n s = Throw e) /\ exists e, CDataStream.ignore (Z.of_nat n) s = Throw e) /\
  CDataStream.view (CDataStream.write ins s) = q ++ ins /\
  CDataStream.view (CDataStream.insert pos ins s) = take pos q ++ ins ++ drop pos q /\
  CDataStream.view (CDataStream.erase pos last s) = take pos q ++ drop last q /\
  ((pos < length q)%nat -> CDataStream.view (CDataStream.erase1 pos s) = take pos q ++ drop (S pos) q) /\
  CDataStream.view (CDataStream.Compact s) = q /\
  CDataStream.view (CDataStream.append s s) = q ++ q /\
  ((n < length q)%nat -> match CDataStream.read n s with
     | Ok (_, s') => CDataStream.Rewind (Z.of_nat n) s' = (true, s) | _ => False end).
Proof.
  intros Hs Hn Hpos q. pose proof Hs as (Hb & Hp & Hl).
  pose proof (s_size_view s Hs) as Hsz. cbn [s_size s_view CDataStream_Stream CDataStream_Laws] in Hsz.
  fold q in Hsz. assert (Hlq : length q = (length (CDataStream.vch s) - Z.to_nat (CDataStream.nReadPos s))%nat)
    by apply length_drop.
  assert (Hw : u32 (CDataStream.nReadPos s + Z.of_nat n) = CDataStream.nReadPos s + Z.of_nat n)
    by (apply wrap_small; unfold in_u; lia).
  assert (Hig : CDataStream.ignore (Z.of_nat n) s =
    match CDataStream.read n s with Ok (_, s') => Ok s'
    | _ => Throw "CDataStream::ignore(): end of data" end).
  { unfold CDataStream.ignore, CDataStream.read. rewrite Hw.
    replace (Z.of_nat n <? 0) with false by (symmetry; apply Z.ltb_ge; lia).
    cbn zeta. repeat case_match; simplify_eq; done. }
  split_and!.
  - unfold CDataStream.size in *. lia.
  - intros Hle. destruct (@s_read_ok _ _ CDataStream_Laws n s Hs Hle) as (s' & E & Hs' & Hv).
    cbn [s_read CDataStream_Stream] in E. rewrite Hig, E. split; by exists s'.
  - intros Hlt. destruct (@s_read_short _ _ CDataStream_Laws n s Hs Hn Hlt) as (e & E).
    cbn [s_read CDataStream_Stream] in E. rewrite Hig, E. eauto.
  - unfold q, CDataStream.view, CDataStream.write. cbn [CDataStream.vch CDataStream.nReadPos].
    by rewrite drop_app_le by lia.
  - apply drop_insert_at; [done|lia].
  - apply erase_view; [done|lia].
  - intros Hlt; apply erase1_view; [done|exact Hlt].
  - unfold CDataStream.view, CDataStream.Compact. cbn [CDataStream.vch CDataStream.nReadPos]. by rewrite drop_0.
  - unfold q, CDataStream.view, CDataStream.append. cbn [CDataStream.vch CDataStream.nReadPos].
    by rewrite drop_app_le by lia.
  - intros Hlt. unfold CDataStream.read. rewrite Hw.
    replace (Z.of_nat (length (CDataStream.vch s)) <=? CDataStream.nReadPos s + Z.of_nat n) with false
      by (symmetry; apply Z.leb_gt; lia).
    unfold CDataStream.Rewind. cbn [CDataStream.vch CDataStream.nReadPos].
    replace (CDataStream.nReadPos s + Z.of_nat n <? Z.of_nat n) with false by (symmetry; apply Z.ltb_ge; lia).
    f_equal. destruct s as [v p]; cbn. f_equal; lia.
Qed.

Lemma cdatastream_queue_witness :
  CDataStream.view (CDataStream.erase 1 3 {| CDataStream.vch := [9; 1; 2; 3; 4]; CDataStream.nReadPos := 1 |}) =
    [1; 4].
Proof.
  refine (eq_trans (proj1 (proj2 (proj2 (proj2 (proj2 (proj2
    (cdatastream_queue {| CDataStream.vch := [9; 1; 2; 3; 4]; CDataStream.nReadPos := 1 |} 2 1 3 [] _ _ _))))))) _).
  - split_and!; [repeat constructor; done|done|done|done].
  - done.
  - simpl; lia.
  - reflexivity.
Defined.

(** [stream << stream] is not [stream += stream]: once something has been
    read, [Serialize] writes the consumed prefix of the buffer too, while
    [operator+=] appends the unread bytes only. *)
Theorem cdatastream_concat_differs (s b : CDataStream.t) :
  CDataStream.ok s -> CDataStream.ok b -> 0 < CDataStream.nReadPos b ->
  CDataStream.view (CDataStream.append s b) = CDataStream.view s ++ CDataStream.view b /\
  exists consumed, length consumed = Z.to_nat (CDataStream.nReadPos b) /\
    CDataStream.view (CDataStream.write (CDataStream.Serialize b) s) =
      CDataStream.view s ++ consumed ++ CDataStream.view b.
Proof.
  intros (_ & Hs & _) (_ & Hb & _) Hpos.
  unfold CDataStream.append, CDataStream.write, CDataStream.view, CDataStream.Serialize.
  cbn [CDataStream.vch CDataStream.nReadPos]. rewrite !drop_app_le by lia. split; [done|].
  exists (take (Z.to_nat (CDataStream.nReadPos b)) (CDataStream.vch b)).
  split; [rewrite length_take; lia|]. rewrite take_drop. f_equal.
  destruct (CDataStream.vch b); [done|done].
Qed.

Lemma cdatastream_concat_differs_witness :
  let b := {| CDataStream.vch := [7; 8]; CDataStream.nReadPos := 1 |} in
  CDataStream.view (CDataStream.append (CDataStream.Init [1]) b) = CDataStream.view (CDataStream.Init [1]) ++ CDataStream.view b /\
  exists consumed, length consumed = Z.to_nat (CDataStream.nReadPos b) /\
    CDataStream.view (CDataStream.write (CDataStream.Serialize b) (CDataStream.Init [1])) =
      CDataStream.view (CDataStream.Init [1]) ++ consumed ++ CDataStream.view b.
Proof.
  intros b. apply cdatastream_concat_differs; [split_and!|split_and!|]; try done; repeat constructor; done.
Defined.

(** *** The integer encodings *)

(** Compact sizes: what [WriteCompactSize] writes has the announced length
    and is read back from any lawful stream for every size up to [MAX_SIZE];
    larger sizes and every over-long encoding of a smaller size are rejected,
    so an accepted size has exactly one encoding. *)
Theorem compact_size_codec {S : Type} `{!Stream S, !StreamLaws S} n :
  Z.of_nat (length (WriteCompactSize n)) = GetSizeOfCompactSize n /\
  (0 <= n <= MAX_SIZE -> reads ReadCompactSize (WriteCompactSize n) n) /\
  (MAX_SIZE < n < 2 ^ 64 -> rejects ReadCompactSize (WriteCompactSize n)) /\
  (0 <= n < 253 -> rejects ReadCompactSize (ser_writedata8 253 ++ ser_writedata16 n)) /\
  (0 <= n < 0x10000 -> rejects ReadCompactSize (ser_writedata8 254 ++ ser_writedata32 n)) /\
  (0 <= n < 0x100000000 -> rejects ReadCompactSize (ser_writedata8 255 ++ ser_writedata64 n)).
Proof.
  split; [apply length_WriteCompactSize|]. split; [apply reads_CompactSize|].
  split; [apply rejects_CompactSize_large|]. apply rejects_CompactSize_overlong.
Qed.

Lemma compact_size_codec_witness : reads (S := CDataStream.t) ReadCompactSize [253; 0; 1] 256.
Proof. apply (compact_size_codec (S := CDataStream.t) 256); done. Defined.

(** Variable-length integers: for an unsigned type of [w] bits
    [WriteVarInt] terminates within its buffer on every value, its output has
    the length [GetSizeOfVarInt] announces, and [ReadVarInt] reads the value
    back from any lawful stream, leaving what follows. *)
Theorem varint_codec {S : Type} `{!Stream S, !StreamLaws S} w n :
  7 <= w -> in_u w n ->
  exists b, WriteVarInt w n = Some b /\ GetSizeOfVarInt w n = Some (Z.of_nat (length b)) /\
    reads (ReadVarInt w) b n.
Proof. intros Hw Hn. by apply varint_roundtrip. Qed.

Lemma varint_codec_witness :
  exists b, WriteVarInt 32 16512 = Some b /\ GetSizeOfVarInt 32 16512 = Some (Z.of_nat (length b)) /\
    reads (S := CDataStream.t) (ReadVarInt 32) b 16512.
Proof. apply varint_codec; done. Defined.
