(* ===== verification/ScriptNum.v ===== *)
(** Script numbers: [CScriptNum] of src/sige/src/script/script_num.h.

    [m_value] is an [int64_t]; the byte form is little-endian sign-magnitude
    with the sign in the top bit of the last byte. *)

From S2P Require Import Prelude Bytes.

Module CScriptNum.
Definition INT64_MAX : Z := 2 ^ 63 - 1.
Definition INT64_MIN : Z := - 2 ^ 63.
Definition INT_MAX : Z := 2 ^ 31 - 1.
Definition INT_MIN : Z := - 2 ^ 31.

Definition nDefaultMaxNumSize : nat := 4.

(** The last byte and the one before it. *)
Definition back (l : bytes) : Z := List.last l 0.
Definition before_back (l : bytes) : Z := l.[(length l - 2)%nat].

(** [set_vch]: the loop ors byte [i] in at bit [8 * i]. *)
Definition set_vch (vch : bytes) : Z :=
  match vch with
  | [] => 0
  | _ =>
      let result := for_up (length vch)
        (fun i result => Z.lor result (Z.shiftl vch.[i] (8 * Z.of_nat i))) 0 in
      if negb (Z.land (back vch) 0x80 =? 0)
      then - Z.land result (u64 (Z.lnot (Z.shiftl 0x80 (8 * (Z.of_nat (length vch) - 1)))))
      else result
  end.

(** The constructor from a byte vector; its exceptions are [scriptnum_error]s. *)
Definition make (vch : bytes) (fRequireMinimal : bool) (nMaxNumSize : nat) : res Z :=
  if (nMaxNumSize <? length vch)%nat then Throw "script number overflow"
  else if fRequireMinimal && (0 <? length vch)%nat
       && (Z.land (back vch) 0x7f =? 0)
       && ((length vch <=? 1)%nat || (Z.land (before_back vch) 0x80 =? 0))
  then Throw "non-minimally encoded script number"
  else Ok (set_vch vch).

(** [while (absvalue) { result.push_back(absvalue & 0xff); absvalue >>= 8; }];
    eight turns empty 64 bits. *)
Fixpoint abs_bytes (fuel : nat) (absvalue : Z) : bytes :=
  match fuel with
  | O => []
  | S fuel =>
      if absvalue =? 0 then []
      else Z.land absvalue 0xff :: abs_bytes fuel (Z.shiftr absvalue 8)
  end.

Definition set_back (l : bytes) (b : Z) : bytes := removelast l ++ [b].

Definition serialize (value : Z) : bytes :=
  if value =? 0 then []
  else
    let neg := value <? 0 in
    let absvalue := u64 (if neg then - value else value) in
    let result := abs_bytes 8 absvalue in
    if negb (Z.land (back result) 0x80 =? 0) then result ++ [if neg then 0x80 else 0]
    else if neg then set_back result (Z.lor (back result) 0x80)
    else result.

Definition getvch (m_value : Z) : bytes := serialize m_value.

Definition getint (m_value : Z) : Z :=
  if INT_MAX <? m_value then INT_MAX
  else if m_value <? INT_MIN then INT_MIN
  else i32 m_value.

(** The checked compound operators: [AssertFail] is the [assert]. *)
Definition add_assign (m_value rhs : Z) : res Z :=
  if (rhs =? 0) || ((0 <? rhs) && (m_value <=? INT64_MAX - rhs))
     || ((rhs <? 0) && (INT64_MIN - rhs <=? m_value))
  then Ok (i64 (m_value + rhs)) else AssertFail.
Definition sub_assign (m_value rhs : Z) : res Z :=
  if (rhs =? 0) || ((0 <? rhs) && (INT64_MIN + rhs <=? m_value))
     || ((rhs <? 0) && (m_value <=? INT64_MAX + rhs))
  then Ok (i64 (m_value - rhs)) else AssertFail.
Definition negate (m_value : Z) : res Z :=
  if m_value =? INT64_MIN then AssertFail else Ok (i64 (- m_value)).

(** [operator+] and [operator-] are unchecked [int64_t] arithmetic. *)
Definition add (m_value rhs : Z) : Z := i64 (m_value + rhs).
Definition sub (m_value rhs : Z) : Z := i64 (m_value - rhs).
Definition and_ (m_value rhs : Z) : Z := Z.land m_value rhs.
End CScriptNum.

Import CScriptNum.

(** Sign-magnitude reading of a byte vector. *)
Definition sm_val (vch : bytes) : Z :=
  if back vch <? 128 then le_val vch
  else - (le_val vch - 128 * 2 ^ (8 * (Z.of_nat (length vch) - 1))).

(** The last byte carries more than the sign, or the one before needs the room. *)
Definition minimal (vch : bytes) : bool :=
  match length vch with
  | O => true
  | _ => negb ((Z.land (back vch) 0x7f =? 0)
           && ((length vch <=? 1)%nat || (Z.land (before_back vch) 0x80 =? 0)))
  end.

Example serialize_ex : map serialize [0; 1; 127; 128; -127; -255; 256] =
  [[]; [1]; [127]; [128; 0]; [255]; [255; 128]; [0; 1]].
Proof. reflexivity. Qed.
Example set_vch_ex : map set_vch [[255]; [255; 128]; [128; 0]] = [-127; -255; 128].
Proof. reflexivity. Qed.

(** ** Bytes seen from the end *)

Lemma back_snoc l b : back (l ++ [b]) = b.
Proof. apply last_last. Qed.

Lemma set_back_snoc l b c : set_back (l ++ [b]) c = l ++ [c].
Proof. unfold set_back. by rewrite removelast_last. Qed.

Lemma snoc_cases (l : bytes) : l = [] \/ exists l' b, l = l' ++ [b].
Proof. destruct l as [|x l] using rev_ind; [by left|right; eauto]. Qed.

Lemma le_val_snoc l b : le_val (l ++ [b]) = le_val l + 2 ^ (8 * Z.of_nat (length l)) * b.
Proof. rewrite le_val_app. simpl. lia. Qed.

Lemma land_0x80 b : 0 <= b < 256 -> (Z.land b 0x80 =? 0) = (b <? 128).
Proof.
  intros Hb. change 0x80 with (Z.shiftl 1 7) at 1.
  replace (Z.land b (Z.shiftl 1 7)) with (Z.shiftl (b / 128) 7).
  - rewrite Z.shiftl_mul_pow2 by lia. pose proof (Z.div_mod b 128 ltac:(lia)).
    pose proof (Z.mod_pos_bound b 128 ltac:(lia)).
    destruct (b <? 128) eqn:E; bool_hyps; [apply Z.eqb_eq|apply Z.eqb_neq]; change (2 ^ 7) with 128; lia.
  - assert (Hq : 0 <= b / 128 < 2) by (split; [apply Z.div_pos; lia|apply Z.div_lt_upper_bound; lia]).
    assert (b / 128 = Z.land (Z.shiftr b 7) 1) as ->.
    { rewrite (land_ones_low _ 1 1), Z.shiftr_div_pow2 by done. symmetry. by apply Z.mod_small. }
    apply Z.bits_inj'; intros i Hi. rewrite Z.land_spec.
    destruct (Z.lt_ge_cases i 7); [rewrite !Z.shiftl_spec_low by lia; by rewrite andb_false_r|].
    rewrite !Z.shiftl_spec, Z.land_spec, Z.shiftr_spec by lia.
    by replace (i - 7 + 7) with i by lia.
Qed.

Lemma land_0x7f b : 0 <= b < 256 -> (Z.land b 0x7f =? 0) = (b =? 0) || (b =? 128).
Proof.
  intros Hb. rewrite (land_ones_low _ _ 7) by done. change (2 ^ 7) with 128.
  pose proof (Z.div_mod b 128 ltac:(lia)). pose proof (Z.mod_pos_bound b 128 ltac:(lia)).
  destruct (b =? 0) eqn:E1; bool_hyps; [by subst|]. destruct (b =? 128) eqn:E2; bool_hyps; [by subst|].
  apply Z.eqb_neq. assert (b / 128 = 0 \/ b / 128 = 1) by lia. lia.
Qed.

(** ** [set_vch] *)

Lemma set_vch_loop vch : byte_list vch ->
  for_up (length vch) (fun i result => Z.lor result (Z.shiftl vch.[i] (8 * Z.of_nat i))) 0 = le_val vch.
Proof.
  intros Hb.
  assert (H : forall i s, (i < length vch)%nat -> s = le_val (take i vch) ->
    Z.lor s (Z.shiftl vch.[i] (8 * Z.of_nat i)) = le_val (take (S i) vch)).
  { intros i s Hi ->. destruct (lookup_lt_is_Some_2 vch i Hi) as [x Hx].
    rewrite (take_S_r _ _ _ Hx), (list_lookup_total_correct _ _ _ Hx).
    assert (Hl : length (take i vch) = i) by (rewrite length_take; lia).
    rewrite le_val_snoc, Hl, lor_add_shiftl by
      (try lia; rewrite <- Hl at 1; apply le_val_range; by apply Forall_take). lia. }
  pose proof (for_up_inv (fun i s => s = le_val (take i vch)) (length vch)
    (fun i result => Z.lor result (Z.shiftl vch.[i] (8 * Z.of_nat i))) 0 eq_refl) as HI.
  rewrite HI; [by rewrite take_ge|]. intros i s Hi Hs. by apply H.
Qed.

(** Clearing the sign bit. *)
Lemma clear_bit r p : 0 <= p < 64 -> 0 <= r < 2 ^ p ->
  Z.land (r + 2 ^ p) (u64 (Z.lnot (2 ^ p))) = r.
Proof.
  intros Hp Hr. unfold wrap. rewrite <- (Z.shiftl_1_l p).
  replace (r + Z.shiftl 1 p) with (Z.lor r (Z.shiftl 1 p))
    by (rewrite lor_add_shiftl, Z.shiftl_1_l by (done || lia); lia).
  apply Z.bits_inj'; intros i Hi. rewrite Z.land_spec, Z.lor_spec, Z.testbit_mod_pow2 by lia.
  rewrite Z.lnot_spec, Z.shiftl_1_l, Z.pow2_bits_eqb by lia.
  destruct (p =? i) eqn:E; bool_hyps.
  - subst. rewrite (bits_above i r); [|done|lia]. simpl. apply andb_false_r.
  - rewrite orb_false_r. simpl. destruct (Z.lt_ge_cases i 64) as [Hi64|Hi64].
    + apply Z.ltb_lt in Hi64 as ->. apply andb_true_r.
    + rewrite (bits_above p r); [done|done|lia].
Qed.

Lemma set_vch_sm vch : byte_list vch -> (length vch <= 8)%nat -> set_vch vch = sm_val vch.
Proof.
  intros Hb Hl. destruct (snoc_cases vch) as [->|(l & b & ->)]; [done|].
  assert (set_vch (l ++ [b]) =
    if negb (Z.land (back (l ++ [b])) 0x80 =? 0)
    then - Z.land (le_val (l ++ [b])) (u64 (Z.lnot (Z.shiftl 0x80 (8 * (Z.of_nat (length (l ++ [b])) - 1)))))
    else le_val (l ++ [b])) as ->.
  { rewrite <- set_vch_loop by done. unfold set_vch. by destruct l. }
  unfold sm_val. rewrite back_snoc, length_app. rewrite length_app in Hl. cbn [length] in *.
  apply byte_list_app in Hb as [Hbl Hb]. apply Forall_cons in Hb as [Hb _].
  rewrite land_0x80 by apply Hb. destruct (b <? 128) eqn:E; bool_hyps; cbn [negb]; [done|].
  f_equal. replace (8 * (Z.of_nat (length l + 1) - 1)) with (8 * Z.of_nat (length l)) by lia.
  set (k := 8 * Z.of_nat (length l)) in *.
  pose proof (le_val_range l Hbl) as Hr. fold k in Hr. rewrite le_val_snoc. fold k.
  unfold in_u in *. assert (Hp : 2 ^ (k + 7) = 128 * 2 ^ k) by (rewrite Z.pow_add_r by lia; lia).
  replace (Z.shiftl 0x80 k) with (2 ^ (k + 7)) by (rewrite Z.shiftl_mul_pow2 by lia; lia).
  replace (le_val l + 2 ^ k * b) with (le_val l + 2 ^ k * (b - 128) + 2 ^ (k + 7)) by lia.
  rewrite clear_bit by (try lia; nia). lia.
Qed.

(** ** [serialize] *)

Lemma abs_bytes_spec fuel a : 0 <= a < 2 ^ (8 * Z.of_nat fuel) ->
  byte_list (abs_bytes fuel a) /\ le_val (abs_bytes fuel a) = a /\
  (length (abs_bytes fuel a) <= fuel)%nat /\ (a <> 0 -> back (abs_bytes fuel a) <> 0).
Proof.
  revert a; induction fuel as [|fuel IH]; intros a Ha.
  { change (2 ^ (8 * Z.of_nat 0)) with 1 in Ha. assert (a = 0) as -> by lia.
    split_and!; [constructor|done|done|done]. }
  replace (8 * Z.of_nat (S fuel)) with (8 + 8 * Z.of_nat fuel) in Ha by lia.
  rewrite Z.pow_add_r in Ha by lia. cbn [abs_bytes].
  destruct (a =? 0) eqn:E; bool_hyps; [subst; split_and!; [constructor|done|simpl; lia|done]|].
  rewrite (land_ones_low _ _ 8), Z.shiftr_div_pow2 by done. change (2 ^ 8) with 256 in *.
  pose proof (Z.div_mod a 256 ltac:(lia)). pose proof (Z.mod_pos_bound a 256 ltac:(lia)).
  destruct (IH (a / 256)) as (H1 & H2 & H3 & H4).
  { split; [apply Z.div_pos; lia|apply Z.div_lt_upper_bound; lia]. }
  split_and!.
  - constructor; [done|exact H1].
  - cbn [le_val]. rewrite H2. change (2 ^ 8) with 256. lia.
  - simpl; lia.
  - intros _. destruct (Z.eq_dec (a / 256) 0) as [E0|E0].
    + rewrite E0. replace (abs_bytes fuel 0) with ([] : bytes) by (by destruct fuel).
      unfold back; simpl. lia.
    + specialize (H4 E0). unfold back in *. destruct (abs_bytes fuel (a / 256)) eqn:Eb; [done|]. exact H4.
Qed.

Lemma abs_bytes_le_val fuel l : byte_list l -> (length l <= fuel)%nat ->
  (l <> [] -> back l <> 0) -> abs_bytes fuel (le_val l) = l.
Proof.
  intros Hb. revert fuel. induction Hb as [|x l Hx Hb IH]; intros fuel Hl Hnz; [by destruct fuel|].
  destruct fuel as [|fuel]; [simpl in Hl; lia|]. cbn [abs_bytes le_val].
  unfold in_u in Hx. pose proof (le_val_range l Hb) as Hr. unfold in_u in Hr.
  destruct (_ =? 0) eqn:E; bool_hyps.
  - exfalso. assert (x = 0 /\ le_val l = 0) as [-> E0] by lia. destruct l as [|y l]; [by apply Hnz|].
    specialize (IH fuel ltac:(simpl in *; lia)). rewrite E0 in IH.
    assert (abs_bytes fuel 0 = []) as E1 by (by destruct fuel).
    rewrite E1 in IH. discriminate IH. intros _. by apply Hnz.
  - rewrite (land_ones_low _ _ 8), Z.shiftr_div_pow2 by done.
    rewrite (Z.mul_comm (2 ^ 8)), Z_mod_plus_full, Z_div_plus_full, Z.mod_small, Z.div_small by lia.
    rewrite Z.add_0_l, IH; [done|simpl in Hl; lia|].
    intros Hne. destruct l; [done|]. by apply Hnz.
Qed.

Lemma minimal_snoc l b : 0 <= b < 256 -> minimal (l ++ [b]) =
  negb (((b =? 0) || (b =? 128)) && ((length l =? 0)%nat || (Z.land (back l) 0x80 =? 0))).
Proof.
  intros Hb. unfold minimal. rewrite back_snoc, land_0x7f by done.
  rewrite length_app, Nat.add_1_r. do 2 f_equal.
  destruct (snoc_cases l) as [->|(l' & c & ->)]; [done|].
  rewrite length_app. cbn [length]. f_equal; [by rewrite Nat.add_1_r|].
  unfold before_back. rewrite back_snoc, !length_app. cbn [length].
  replace (length l' + 1 + 1 - 2)%nat with (length l') by lia.
  rewrite lookup_total_app_l by (rewrite length_app; simpl; lia).
  rewrite lookup_total_app_r by lia. by rewrite Nat.sub_diag.
Qed.

Lemma back_range l : byte_list l -> l <> [] -> 0 <= back l < 256.
Proof.
  intros Hb Hl. destruct (snoc_cases l) as [->|(l' & b & ->)]; [done|].
  rewrite back_snoc. apply byte_list_app in Hb as [_ Hb]. by apply Forall_cons in Hb as [Hb _].
Qed.

(** The three shapes [serialize] gives, by the magnitude's last byte [c]. *)
Definition sm_shape (neg : bool) (l : bytes) (c : Z) : bytes :=
  if c <? 128 then l ++ [if neg then c + 128 else c] else (l ++ [c]) ++ [if neg then 128 else 0].

Lemma lor_0x80 c : 0 <= c < 128 -> Z.lor c 0x80 = c + 128.
Proof.
  intros Hc. pose proof (lor_add_shiftl c 1 7 ltac:(lia) Hc) as H.
  change (Z.shiftl 1 7) with 128 in H. rewrite H. done.
Qed.

Lemma serialize_shape l c (neg : bool) n : byte_list (l ++ [c]) -> (length l < 8)%nat -> c <> 0 ->
  n = (if neg then - le_val (l ++ [c]) else le_val (l ++ [c])) ->
  n <> 0 /\ serialize n = sm_shape neg l c.
Proof.
  intros Hb Hl Hc Hn. pose proof (le_val_range _ Hb) as Hr. unfold in_u in Hr.
  rewrite length_app in Hr. cbn [length] in Hr.
  assert (Hp : 0 < le_val (l ++ [c])).
  { rewrite le_val_snoc. apply byte_list_app in Hb as [Hbl Hc']. apply Forall_cons in Hc' as [Hc' _].
    pose proof (le_val_range l Hbl). unfold in_u in *. nia. }
  assert (Hn0 : n <> 0) by (destruct neg; lia). split; [done|].
  assert (Hs : (n <? 0) = neg) by (destruct neg; [apply Z.ltb_lt|apply Z.ltb_ge]; lia).
  assert (Ha : u64 (if neg then - n else n) = le_val (l ++ [c])).
  { replace (if neg then - n else n) with (le_val (l ++ [c])) by (destruct neg; lia).
    apply wrap_small. unfold in_u. split; [lia|]. eapply Z.lt_le_trans; [apply Hr|].
    apply Z.pow_le_mono_r; lia. }
  unfold serialize. replace (n =? 0) with false by (symmetry; by apply Z.eqb_neq).
  cbn zeta. rewrite Hs, Ha, abs_bytes_le_val; [|done|rewrite length_app; simpl; lia|by rewrite back_snoc].
  rewrite !back_snoc, set_back_snoc.
  apply byte_list_app in Hb as [_ Hb]. apply Forall_cons in Hb as [Hb _]. unfold in_u in Hb.
  rewrite land_0x80 by apply Hb. unfold sm_shape. destruct (c <? 128) eqn:E; bool_hyps; cbn [negb]; [|done].
  destruct neg; [|done]. rewrite lor_0x80; [done|lia].
Qed.

Lemma sm_shape_spec l c (neg : bool) : byte_list (l ++ [c]) -> c <> 0 ->
  byte_list (sm_shape neg l c) /\ minimal (sm_shape neg l c) = true /\
  sm_val (sm_shape neg l c) = (if neg then - le_val (l ++ [c]) else le_val (l ++ [c])).
Proof.
  intros Hb Hc. pose proof Hb as Hb'. apply byte_list_app in Hb' as [Hbl Hb']. apply Forall_cons in Hb' as [Hc' _].
  unfold in_u in Hc'. change (2 ^ 8) with 256 in Hc'. unfold sm_shape, sm_val.
  destruct (c <? 128) eqn:E; bool_hyps.
  - set (d := if neg then c + 128 else c).
    assert (Hd : 0 <= d < 256 /\ d <> 0 /\ d <> 128) by (subst d; destruct neg; lia).
    split_and!.
    + apply byte_list_app; split; [done|]. constructor; [|constructor]. unfold in_u. lia.
    + rewrite minimal_snoc by lia. destruct Hd as (_ & H0 & H1). apply Z.eqb_neq in H0 as ->, H1 as ->. done.
    + rewrite back_snoc, !le_val_snoc, length_app. cbn [length].
      replace (8 * (Z.of_nat (length l + 1) - 1)) with (8 * Z.of_nat (length l)) by lia.
      subst d. destruct neg; destruct (_ <? 128) eqn:E2; bool_hyps; lia.
  - set (d := if neg then 128 else 0).
    assert (Hd : d = 0 \/ d = 128) by (subst d; destruct neg; lia).
    split_and!.
    + apply byte_list_app; split; [done|]. constructor; [|constructor]. unfold in_u. lia.
    + rewrite minimal_snoc by lia. rewrite length_app, back_snoc, land_0x80 by lia.
      cbn [length]. rewrite Nat.add_1_r. cbn [Nat.eqb orb].
      replace (c <? 128) with false by (symmetry; apply Z.ltb_ge; lia). by rewrite andb_false_r.
    + rewrite back_snoc, (le_val_snoc (l ++ [c])), (length_app (l ++ [c])). cbn [length].
      replace (8 * (Z.of_nat (length (l ++ [c]) + 1) - 1)) with (8 * Z.of_nat (length (l ++ [c]))) by lia.
      subst d. destruct neg; [change (128 <? 128) with false|change (0 <? 128) with true]; cbn [negb]; lia.
Qed.

Lemma magnitude_cases a : 0 < a < 2 ^ 64 ->
  exists l c, a = le_val (l ++ [c]) /\ byte_list (l ++ [c]) /\ (length l < 8)%nat /\ c <> 0.
Proof.
  intros Ha. assert (Ha' : 0 <= a < 2 ^ (8 * Z.of_nat 8)) by (change (8 * Z.of_nat 8) with 64; lia).
  destruct (abs_bytes_spec 8 a Ha') as (H1 & H2 & H3 & H4). clear Ha'.
  destruct (snoc_cases (abs_bytes 8 a)) as [E|(l & c & E)]; rewrite E in *; [change (le_val []) with 0 in H2; lia|].
  exists l, c. rewrite length_app in H3. cbn [length] in H3. rewrite back_snoc in H4.
  split_and!; [done|done|lia|apply H4; lia].
Qed.

Lemma length_sm_shape neg l c k : byte_list (l ++ [c]) -> c <> 0 -> 0 < k ->
  le_val (l ++ [c]) < 2 ^ (8 * k - 1) -> Z.of_nat (length (sm_shape neg l c)) <= k.
Proof.
  intros Hb Hc Hk Hv. apply byte_list_app in Hb as [Hbl Hc']. apply Forall_cons in Hc' as [Hc' _].
  pose proof (le_val_range l Hbl) as Hr. unfold in_u in *. rewrite le_val_snoc in Hv.
  set (j := 8 * Z.of_nat (length l)) in *. unfold sm_shape.
  assert (Hj : 0 < 2 ^ j) by lia.
  destruct (c <? 128) eqn:E; bool_hyps; rewrite !length_app; cbn [length].
  - assert (j < 8 * k - 1); [|lia]. apply (Z.pow_lt_mono_r_iff 2); nia.
  - assert (j + 7 < 8 * k - 1); [|lia]. apply (Z.pow_lt_mono_r_iff 2); [lia|lia|].
    rewrite Z.pow_add_r by lia. change (2 ^ 7) with 128. nia.
Qed.

Lemma sm_val_bound vch : byte_list vch -> vch <> [] ->
  Z.abs (sm_val vch) < 2 ^ (8 * Z.of_nat (length vch) - 1).
Proof.
  intros Hb Hne. destruct (snoc_cases vch) as [->|(l & b & ->)]; [done|].
  apply byte_list_app in Hb as [Hbl Hb']. apply Forall_cons in Hb' as [Hb' _].
  pose proof (le_val_range l Hbl) as Hr. unfold in_u, sm_val in *. rewrite back_snoc, le_val_snoc, length_app.
  cbn [length]. replace (8 * (Z.of_nat (length l + 1) - 1)) with (8 * Z.of_nat (length l)) by lia.
  replace (8 * Z.of_nat (length l + 1) - 1) with (8 * Z.of_nat (length l) + 7) by lia.
  rewrite Z.pow_add_r by lia. change (2 ^ 7) with 128. change (2 ^ 8) with 256 in Hb'.
  destruct (b <? 128) eqn:E; bool_hyps; nia.
Qed.

(** Every minimal vector has one of the shapes. *)
Lemma minimal_shape vch : byte_list vch -> vch <> [] -> minimal vch = true ->
  exists neg l c, vch = sm_shape neg l c /\ byte_list (l ++ [c]) /\ c <> 0 /\ (length l < length vch)%nat.
Proof.
  intros Hb Hne Hm. destruct (snoc_cases vch) as [->|(l & b & ->)]; [done|].
  pose proof Hb as Hb'. apply byte_list_app in Hb' as [Hbl Hb']. apply Forall_cons in Hb' as [Hb' _].
  unfold in_u in Hb'. change (2 ^ 8) with 256 in Hb'. rewrite minimal_snoc in Hm by lia.
  apply negb_true_iff, andb_false_iff in Hm. rewrite length_app. cbn [length].
  destruct (decide (b = 0 \/ b = 128)) as [Hz|Hz].
  - destruct Hm as [Hm|Hm].
    { exfalso. apply orb_false_iff in Hm as [H0 H1]. bool_hyps. lia. }
    apply orb_false_iff in Hm as [H0 H1]. apply Nat.eqb_neq in H0.
    destruct (snoc_cases l) as [->|(l' & c & ->)]; [done|]. rewrite back_snoc in H1.
    pose proof Hbl as Hc. apply byte_list_app in Hc as [_ Hc]. apply Forall_cons in Hc as [Hc _].
    unfold in_u in Hc. change (2 ^ 8) with 256 in Hc. rewrite land_0x80 in H1 by lia.
    exists (b =? 128), l', c. unfold sm_shape. rewrite H1. bool_hyps.
    split_and!; [|done|lia|rewrite length_app; simpl; lia].
    f_equal. destruct Hz as [-> | ->]; done.
  - exists (128 <=? b), l, (if 128 <=? b then b - 128 else b). unfold sm_shape.
    destruct (128 <=? b) eqn:E; bool_hyps.
    + replace (b - 128 <? 128) with true by (symmetry; apply Z.ltb_lt; lia).
      split_and!; [by rewrite Z.sub_add| |lia|lia].
      apply byte_list_app; split; [done|]. constructor; [unfold in_u; lia|constructor].
    + replace (b <? 128) with true by (symmetry; apply Z.ltb_lt; lia). split_and!; [done|done|lia|lia].
Qed.

Lemma serialize_spec n : - 2 ^ 63 < n < 2 ^ 63 ->
  byte_list (serialize n) /\ (length (serialize n) <= 8)%nat /\ minimal (serialize n) = true /\
  sm_val (serialize n) = n.
Proof.
  intros Hn. destruct (Z.eq_dec n 0) as [->|Hn0]; [split_and!; [constructor|simpl; lia|done|done]|].
  destruct (magnitude_cases (Z.abs n)) as (l & c & Ha & Hb & Hl & Hc); [lia|].
  destruct (serialize_shape l c (n <? 0) n Hb Hl Hc) as [_ ->].
  { rewrite <- Ha. destruct (n <? 0) eqn:E; bool_hyps; lia. }
  destruct (sm_shape_spec l c (n <? 0) Hb Hc) as (H1 & H2 & H3).
  split_and!; [done|apply (Nat2Z.inj_le _ 8), length_sm_shape; [done|done|lia|simpl; lia]|done|].
  rewrite H3, <- Ha. destruct (n <? 0) eqn:E; bool_hyps; lia.
Qed.

Lemma length_serialize n k : 0 < k <= 8 -> Z.abs n < 2 ^ (8 * k - 1) ->
  Z.of_nat (length (serialize n)) <= k.
Proof.
  intros Hk Hn. pose proof (Z.pow_le_mono_r 2 (8 * k - 1) 63 ltac:(lia) ltac:(lia)) as Hle.
  destruct (Z.eq_dec n 0) as [->|Hn0]; [simpl; lia|].
  destruct (magnitude_cases (Z.abs n)) as (l & c & Ha & Hb & Hl & Hc); [lia|].
  destruct (serialize_shape l c (n <? 0) n Hb Hl Hc) as [_ ->].
  { rewrite <- Ha. destruct (n <? 0) eqn:E; bool_hyps; lia. }
  apply length_sm_shape; [done|done|lia|by rewrite <- Ha].
Qed.

Lemma serialize_sm_val vch : byte_list vch -> (length vch <= 8)%nat -> minimal vch = true ->
  serialize (sm_val vch) = vch.
Proof.
  intros Hb Hl Hm. destruct (decide (vch = [])) as [->|Hne]; [done|].
  destruct (minimal_shape vch Hb Hne Hm) as (neg & l & c & -> & Hb' & Hc & Hl').
  destruct (sm_shape_spec l c neg Hb' Hc) as (_ & _ & H3).
  destruct (serialize_shape l c neg (sm_val (sm_shape neg l c)) Hb' ltac:(lia) Hc H3) as [_ ->]. done.
Qed.

Lemma make_minimal vch k n : make vch true k = Ok n ->
  (length vch <= k)%nat /\ minimal vch = true /\ set_vch vch = n.
Proof.
  unfold make, minimal. destruct (k <? length vch)%nat eqn:E; [done|]. apply Nat.ltb_ge in E.
  destruct vch as [|b vch]; [intros [= <-]; split_and!; [done|done|done]|].
  cbn [length Nat.ltb Nat.leb andb].
  destruct (_ && _) eqn:E2; [done|]. intros [= <-]. split_and!; [done|done|done].
Qed.

(** ** Properties *)

(** A script number that the checking constructor accepts is the number of
    exactly one byte vector: [make] (minimality required) succeeds on a vector
    and yields [n] if and only if the vector is what [serialize] writes for [n]
    and it is not longer than the limit.  Every 64-bit value but the least one
    serialises to at most eight bytes and is read back. *)
Theorem scriptnum_bijection vch k n :
  byte_list vch -> (k <= 8)%nat -> - 2 ^ 63 < n < 2 ^ 63 ->
  (make vch true k = Ok n <-> vch = serialize n /\ (length vch <= k)%nat) /\
  (length (serialize n) <= 8)%nat /\ make (serialize n) true 8 = Ok n.
Proof.
  intros Hb Hk Hn. destruct (serialize_spec n Hn) as (H1 & H2 & H3 & H4).
  assert (Hmake : forall k, (length (serialize n) <= k)%nat -> make (serialize n) true k = Ok n).
  { intros k' Hk'. unfold make. apply Nat.ltb_ge in Hk' as ->. unfold minimal in H3.
    destruct (serialize n) as [|b l] eqn:E; [by rewrite <- H4|].
    cbn [length Nat.ltb Nat.leb andb] in *. apply negb_true_iff in H3. rewrite H3.
    by rewrite set_vch_sm, H4. }
  split_and!; [|done|by apply Hmake].
  split.
  - intros Hm. apply make_minimal in Hm as (Hl & Hmin & Hv). split; [|done].
    rewrite set_vch_sm in Hv by (done || lia). rewrite <- Hv. symmetry. apply serialize_sm_val; [done|lia|done].
  - intros [-> Hl]. by apply Hmake.
Qed.

Lemma scriptnum_bijection_witness :
  (make [255; 128] true 4 = Ok (-255) <-> [255; 128] = serialize (-255) /\ (length [255; 128] <= 4)%nat) /\
  (length (serialize (-255)) <= 8)%nat /\ make (serialize (-255)) true 8 = Ok (-255).
Proof. apply (scriptnum_bijection [255; 128] 4 (-255)); [repeat constructor; done|lia|lia]. Defined.

(** The arithmetic an evaluated script does is exact: numbers read from
    operands of at most four bytes are below 2^31 in magnitude, [operator+],
    [operator-] and the asserting compound operators on them neither wrap nor
    assert, and the result serialises to at most five bytes. *)
Theorem scriptnum_operands va vb a b :
  byte_list va -> byte_list vb ->
  make va true nDefaultMaxNumSize = Ok a -> make vb true nDefaultMaxNumSize = Ok b ->
  Z.abs a < 2 ^ 31 /\ getint a = a /\
  add a b = a + b /\ sub a b = a - b /\
  add_assign a b = Ok (a + b) /\ sub_assign a b = Ok (a - b) /\ negate a = Ok (- a) /\
  (length (serialize (a + b)) <= 5)%nat /\ (length (serialize (a - b)) <= 5)%nat.
Proof.
  assert (Hop : forall v n, byte_list v -> make v true nDefaultMaxNumSize = Ok n -> Z.abs n < 2 ^ 31).
  { intros v n Hv Hm. apply make_minimal in Hm as (Hl & _ & <-). unfold nDefaultMaxNumSize in Hl.
    rewrite set_vch_sm by (done || lia). destruct (decide (v = [])) as [->|Hne]; [done|].
    eapply Z.lt_le_trans; [by apply sm_val_bound|]. apply Z.pow_le_mono_r; lia. }
  intros Hva Hvb Ha Hb. apply Hop in Ha, Hb; [|done|done]. clear Hop.
  assert (Hs : forall x, - 2 ^ 63 <= x < 2 ^ 63 -> i64 x = x) by (intros; apply swrap_small; [lia|done]).
  assert (Hlen : forall x, Z.abs x < 2 ^ 32 -> (length (serialize x) <= 5)%nat).
  { intros x Hx. pose proof (length_serialize x 5 ltac:(lia)) as H. change (8 * 5 - 1) with 39 in H. lia. }
  unfold getint, add, sub, add_assign, sub_assign, negate, INT_MAX, INT_MIN, INT64_MAX, INT64_MIN.
  rewrite !Hs by lia. split_and!; try (apply Hlen; lia); try lia; try done.
  - repeat case_match; bool_hyps; try lia. apply swrap_small; unfold in_s; lia.
  - case_match; bool_hyps; [done|]. lia.
  - case_match; bool_hyps; [done|]. lia.
  - case_match; bool_hyps; [lia|done].
Qed.

Lemma scriptnum_operands_witness :
  Z.abs 2147483647 < 2 ^ 31 /\ getint 2147483647 = 2147483647 /\
  add 2147483647 (-1) = 2147483647 + -1 /\ sub 2147483647 (-1) = 2147483647 - -1 /\
  add_assign 2147483647 (-1) = Ok (2147483647 + -1) /\ sub_assign 2147483647 (-1) = Ok (2147483647 - -1) /\
  negate 2147483647 = Ok (- 2147483647) /\
  (length (serialize (2147483647 + -1)) <= 5)%nat /\ (length (serialize (2147483647 - -1)) <= 5)%nat.
Proof.
  apply (scriptnum_operands [255; 255; 255; 127] [129]);
    [repeat constructor; done|repeat constructor; done|reflexivity|reflexivity].
Defined.
