(* ===== verification/Codec.v ===== *)
(** The serialisation of values: the overloads of [Serialize] and
    [Unserialize], the wrappers and the container templates of
    src/sige/src/serialize.h.

    C++ picks an overload by the static type; here each type has a [codec]: the
    bytes [Serialize] appends, the count the [CSizeComputer] overloads make of
    them, and the reader [Unserialize], generic in the stream.  [Lawful c dom]
    is what a codec owes its clients: on the values of [dom] the count is the
    length of the bytes and every lawful stream reads them back.  A class whose
    [SerializationOp] is a sequence of [READWRITE]s is a [c_map] of [c_pair]s,
    and its law is found by the instances below. *)

From S2P Require Import Prelude Bytes BaseUint UintBytes Uint256 Serialize.

Record codec (A : Type) := {
  Serialize : A -> bytes;
  SerSize : A -> Z;
  Unserialize : forall S `{!Stream S}, rd S A;
}.
Arguments Serialize {A} c a : rename.
Arguments SerSize {A} c a : rename.
Arguments Unserialize {A} c S {_} : rename.

Class Lawful {A : Type} (c : codec A) (dom : A -> Prop) := {
  law_size a : dom a -> SerSize c a = Z.of_nat (length (Serialize c a));
  law_reads S `{!Stream S, !StreamLaws S} a : dom a -> reads (Unserialize c S) (Serialize c a) a;
}.

(** ** CSizeComputer *)

Module CSizeComputer.
Record t := { nSize : Z }.
Definition make : t := {| nSize := 0 |}.
Definition write (_nSize : Z) (s : t) : t := {| nSize := nSize s + _nSize |}.
Definition seek (_nSize : Z) (s : t) : t := {| nSize := nSize s + _nSize |}.
Definition size (s : t) : Z := nSize s.
(** The overloads that seek instead of writing. *)
Definition WriteCompactSize (n : Z) (s : t) : t := seek (GetSizeOfCompactSize n) s.
Definition WriteVarInt (w n : Z) (s : t) : t := seek (default 0 (GetSizeOfVarInt w n)) s.
(** [os << t] *)
Definition put {A} (c : codec A) (a : A) (s : t) : t := write (SerSize c a) s.
End CSizeComputer.

Definition GetSerializeSize {A} (c : codec A) (a : A) : Z :=
  CSizeComputer.size (CSizeComputer.put c a CSizeComputer.make).

(** ** Fixed-width values *)

Definition c_word (n : nat) (wr : Z -> bytes) (rdr : forall S `{!Stream S}, rd S Z)
    (conv back : Z -> Z) : codec Z := {|
  Serialize a := wr (conv a);
  SerSize _ := Z.of_nat n;
  Unserialize S _ := let! x := rdr S in rd_ret (back x);
|}.

Definition c_u8 : codec Z := c_word 1 ser_writedata8 (@ser_readdata8) u8 u8.
Definition c_i8 : codec Z := c_word 1 ser_writedata8 (@ser_readdata8) u8 (swrap 8).
Definition c_char : codec Z := c_i8.
Definition c_u16 : codec Z := c_word 2 ser_writedata16 (@ser_readdata16) u16 u16.
Definition c_i16 : codec Z := c_word 2 ser_writedata16 (@ser_readdata16) u16 (swrap 16).
Definition c_u32 : codec Z := c_word 4 ser_writedata32 (@ser_readdata32) u32 u32.
Definition c_i32 : codec Z := c_word 4 ser_writedata32 (@ser_readdata32) u32 i32.
Definition c_u64 : codec Z := c_word 8 ser_writedata64 (@ser_readdata64) u64 u64.
Definition c_i64 : codec Z := c_word 8 ser_writedata64 (@ser_readdata64) u64 i64.

Definition c_bool : codec bool := {|
  Serialize (a : bool) := ser_writedata8 (if a then 1 else 0);
  SerSize _ := 1;
  Unserialize S _ := let! f := ser_readdata8 in rd_ret (negb (f =? 0));
|}.

(** [CFlatData] over [n] bytes. *)
Definition c_flat (n : nat) : codec bytes := {|
  Serialize a := a;
  SerSize a := Z.of_nat (length a);
  Unserialize S _ := s_read n;
|}.

(** [base_uint::Serialize]: the limbs' bytes. *)
Definition c_base_uint (W : nat) : codec limbs := {|
  Serialize a := pn_bytes a;
  SerSize a := Z.of_nat (length (pn_bytes a));
  Unserialize S _ := let! b := s_read (4 * W) in rd_ret (limbs_of_bytes W b);
|}.
Definition c_uint256 : codec limbs := c_base_uint WIDTH256.

(** ** Wrappers *)

(** [CVarInt<I>], [I] unsigned of [w] bits. *)
Definition c_varint (w : Z) : codec Z := {|
  Serialize n := default [] (WriteVarInt w n);
  SerSize n := default 0 (GetSizeOfVarInt w n);
  Unserialize S _ := ReadVarInt w;
|}.
(** [CVarInt<int>]: a negative value leaves the writing loop at once. *)
Definition c_varint_int : codec Z := {|
  Serialize n := default [] (WriteVarInt 32 n);
  SerSize n := default 0 (GetSizeOfVarInt 32 n);
  Unserialize S _ := let! n := ReadVarInt 32 in rd_ret (i32 n);
|}.

Definition c_compact : codec Z := {|
  Serialize n := WriteCompactSize n;
  SerSize n := GetSizeOfCompactSize n;
  Unserialize S _ := ReadCompactSize;
|}.

(** [s.read(&v[0], size)] when there is something to read. *)
Definition read_nonempty (S : Type) `{!Stream S} (size : Z) : rd S bytes :=
  if negb (size =? 0) then s_read (Z.to_nat size) else rd_ret [].

Definition blob_size (str : bytes) : Z :=
  GetSizeOfCompactSize (Z.of_nat (length str)) + Z.of_nat (length str).
Definition write_blob (str : bytes) : bytes :=
  WriteCompactSize (Z.of_nat (length str)) ++ (if (length str =? 0)%nat then [] else str).

Definition c_limited_string (Limit : Z) : codec bytes := {|
  Serialize str := write_blob str;
  SerSize str := blob_size str;
  Unserialize S _ :=
    let! size := ReadCompactSize in
    if Limit <? size then rd_throw "String length limit exceeded" else read_nonempty S size;
|}.

Definition c_string : codec bytes := {|
  Serialize str := write_blob str;
  SerSize str := blob_size str;
  Unserialize S _ := let! nSize := ReadCompactSize in read_nonempty S (u32 nSize);
|}.

(** ** Sequences *)

(** The reading loop of byte vectors: blocks of at most five million bytes. *)
Definition max_blk : Z := 1 + 4999999 / 1.
Fixpoint read_blocks (S : Type) `{!Stream S} (fuel : nat) (nSize i : Z) (v : bytes) : rd S bytes :=
  match fuel with
  | O => fun _ => OutOfFuel
  | Datatypes.S fuel =>
      if i <? nSize then
        let blk := Z.min (u32 (nSize - i)) max_blk in
        let! b := s_read (Z.to_nat blk) in
        read_blocks S fuel nSize (u32 (i + blk)) (v ++ b)
      else rd_ret v
  end.

(** [std::vector<unsigned char>] and [prevector<N, unsigned char>]. *)
Definition c_bytes : codec bytes := {|
  Serialize v := write_blob v;
  SerSize v := blob_size v;
  Unserialize S _ :=
    let! nSize := ReadCompactSize in
    let nSize := u32 nSize in
    read_blocks S (Z.to_nat (nSize / max_blk) + 2) nSize 0 [];
|}.

Section vector.
Context {A : Type} (c : codec A) (sizeof_T : Z).

(** [for (; i < nMid; i++) Unserialize(is, v[i])] for [n] elements. *)
Fixpoint read_n (S : Type) `{!Stream S} (n : nat) (v : list A) : rd S (list A) :=
  match n with
  | O => rd_ret v
  | Datatypes.S n => let! x := Unserialize c S in read_n S n (v ++ [x])
  end.

(** The vector grows in steps of [5000000 / sizeof(T)] elements. *)
Fixpoint read_mids (S : Type) `{!Stream S} (fuel : nat) (nSize nMid : Z) (v : list A) : rd S (list A) :=
  match fuel with
  | O => fun _ => OutOfFuel
  | Datatypes.S fuel =>
      if nMid <? nSize then
        let nMid := u32 (nMid + 5000000 / sizeof_T) in
        let nMid := if nSize <? nMid then nSize else nMid in
        let! v := read_n S (Z.to_nat nMid - length v) v in
        read_mids S fuel nSize nMid v
      else rd_ret v
  end.

(** [std::vector<T>] and [prevector<N, T>]. *)
Definition c_vector : codec (list A) := {|
  Serialize v := WriteCompactSize (Z.of_nat (length v)) ++ mjoin (map (Serialize c) v);
  SerSize v := GetSizeOfCompactSize (Z.of_nat (length v)) + foldr (fun a n => SerSize c a + n) 0 v;
  Unserialize S _ :=
    let! nSize := ReadCompactSize in
    let nSize := u32 nSize in
    read_mids S (Z.to_nat (nSize / Z.max 1 (5000000 / sizeof_T)) + 2) nSize 0 [];
|}.
End vector.

Definition c_pair {A B} (ca : codec A) (cb : codec B) : codec (A * B) := {|
  Serialize '(a, b) := Serialize ca a ++ Serialize cb b;
  SerSize '(a, b) := SerSize ca a + SerSize cb b;
  Unserialize S _ := let! a := Unserialize ca S in let! b := Unserialize cb S in rd_ret (a, b);
|}.

(** A class whose fields are the value of another codec. *)
Definition c_map {A B} (c : codec A) (to : A -> B) (from : B -> A) : codec B := {|
  Serialize b := Serialize c (from b);
  SerSize b := SerSize c (from b);
  Unserialize S _ := let! a := Unserialize c S in rd_ret (to a);
|}.

(** [std::shared_ptr<const T>] and [std::unique_ptr<const T>]: the object. *)
Definition c_shared_ptr {A} (c : codec A) : codec A := c_map c (fun a => a) (fun a => a).
Definition c_unique_ptr {A} (c : codec A) : codec A := c_map c (fun a => a) (fun a => a).

(** ** Ordered containers

    A [std::map] or [std::set] is the list of its elements in the order of its
    comparator; [insert] leaves an element with an equivalent key in place. *)
Section ordered.
Context {K T : Type} (key : T -> K) (ltb : K -> K -> bool).

Fixpoint std_insert (item : T) (m : list T) : list T :=
  match m with
  | [] => [item]
  | x :: m' =>
      if ltb (key item) (key x) then item :: m
      else if ltb (key x) (key item) then x :: std_insert item m'
      else m
  end.

Fixpoint read_inserts (c : codec T) (S : Type) `{!Stream S} (n : nat) (m : list T) : rd S (list T) :=
  match n with
  | O => rd_ret m
  | Datatypes.S n => let! item := Unserialize c S in read_inserts c S n (std_insert item m)
  end.

Definition c_ordered (c : codec T) : codec (list T) := {|
  Serialize m := WriteCompactSize (Z.of_nat (length m)) ++ mjoin (map (Serialize c) m);
  SerSize m := GetSizeOfCompactSize (Z.of_nat (length m)) + foldr (fun a n => SerSize c a + n) 0 m;
  Unserialize S _ := let! nSize := ReadCompactSize in read_inserts c S (Z.to_nat (u32 nSize)) [];
|}.

(** Strictly increasing keys. *)
Fixpoint increasing (m : list T) : Prop :=
  match m with
  | [] => True
  | x :: m' => Forall (fun y => ltb (key x) (key y) = true) m' /\ increasing m'
  end.
End ordered.

Definition c_std_map {K T} (ltb : K -> K -> bool) (ck : codec K) (ct : codec T) : codec (list (K * T)) :=
  c_ordered fst ltb (c_pair ck ct).
Definition c_std_set {K} (ltb : K -> K -> bool) (ck : codec K) : codec (list K) :=
  c_ordered (fun k => k) ltb ck.

(** ** Laws *)

#[global] Hint Mode Lawful + + - : typeclass_instances.

Lemma lawful_weaken {A} (c : codec A) (dom dom' : A -> Prop) :
  Lawful c dom -> (forall a, dom' a -> dom a) -> Lawful c dom'.
Proof. intros H Hd. split; intros; [apply law_size; auto|apply law_reads; auto]. Qed.

Lemma swrap_wrap w x : 0 < w -> swrap w (wrap w x) = swrap w x.
Proof. intros. unfold swrap, wrap. by rewrite Zplus_mod_idemp_l. Qed.

Lemma c_word_lawful n wr (rdr : forall S `{!Stream S}, rd S Z) conv back dom :
  (forall x, length (wr x) = n) ->
  (forall S `{!Stream S, !StreamLaws S} x, in_u (8 * Z.of_nat n) x -> reads (rdr S) (wr x) x) ->
  (forall a, dom a -> in_u (8 * Z.of_nat n) (conv a) /\ back (conv a) = a) ->
  Lawful (c_word n wr (@rdr) conv back) dom.
Proof.
  intros Hl Hr Hd. split; cbn [Serialize SerSize Unserialize c_word].
  - intros a _. by rewrite Hl.
  - intros S ?? a Ha. destruct (Hd a Ha) as [Hu Hb]. eapply reads_bind_ret; [by apply Hr|].
    rewrite Hb. apply reads_ret.
Qed.

Ltac solve_word w :=
  apply c_word_lawful;
  [done | intros; eauto with reads
  | intros a Ha; split; [by apply (wrap_range w)|];
    rewrite ?swrap_wrap, ?(wrap_wrap w) by done; first [by apply wrap_small|by apply swrap_small]].

#[export] Instance c_u8_lawful : Lawful c_u8 (in_u 8).
Proof. solve_word 8. Qed.
#[export] Instance c_i8_lawful : Lawful c_i8 (in_s 8).
Proof. solve_word 8. Qed.
#[export] Instance c_u16_lawful : Lawful c_u16 (in_u 16).
Proof. solve_word 16. Qed.
#[export] Instance c_i16_lawful : Lawful c_i16 (in_s 16).
Proof. solve_word 16. Qed.
#[export] Instance c_u32_lawful : Lawful c_u32 (in_u 32).
Proof. solve_word 32. Qed.
#[export] Instance c_i32_lawful : Lawful c_i32 (in_s 32).
Proof. solve_word 32. Qed.
#[export] Instance c_u64_lawful : Lawful c_u64 (in_u 64).
Proof. solve_word 64. Qed.
#[export] Instance c_i64_lawful : Lawful c_i64 (in_s 64).
Proof. solve_word 64. Qed.

#[export] Instance c_bool_lawful : Lawful c_bool (fun _ => True).
Proof.
  split; cbn [Serialize SerSize Unserialize c_bool]; [done|].
  intros S ?? a _. eapply reads_bind_ret; [apply reads_data8; by destruct a|].
  destruct a; apply reads_ret.
Qed.

#[export] Instance c_flat_lawful n : Lawful (c_flat n) (fun a => length a = n).
Proof. split; [done|]. intros S ?? a Ha. by apply reads_read. Qed.

#[export] Instance c_base_uint_lawful W : Lawful (c_base_uint W) (wf W).
Proof.
  split; [done|]. intros S ?? a Ha. cbn [Serialize Unserialize c_base_uint].
  eapply reads_bind_ret.
  { apply reads_read. rewrite length_pn_bytes. by destruct Ha as [-> _]. }
  rewrite (limbs_of_pn_bytes W) by done. apply reads_ret.
Qed.
#[export] Instance c_uint256_lawful : Lawful c_uint256 wf256 := c_base_uint_lawful _.

#[export] Instance c_varint_lawful w : 7 <= w -> Lawful (c_varint w) (in_u w).
Proof.
  intros Hw. split; cbn [Serialize SerSize Unserialize c_varint].
  - intros a Ha. destruct (varint_roundtrip (S := CDataStream.t) w Hw a Ha) as (b & -> & -> & _). done.
  - intros S ?? a Ha. destruct (varint_roundtrip (S := S) w Hw a Ha) as (b & -> & _ & Hr). done.
Qed.
#[export] Instance c_varint_int_lawful : Lawful c_varint_int (fun n => 0 <= n < 2 ^ 31).
Proof.
  split; cbn [Serialize SerSize Unserialize c_varint_int].
  - intros a Ha. destruct (varint_roundtrip (S := CDataStream.t) 32 ltac:(lia) a) as (b & -> & -> & _);
      [unfold in_u; lia|done].
  - intros S ?? a Ha. destruct (varint_roundtrip (S := S) 32 ltac:(lia) a) as (b & -> & _ & Hr);
      [unfold in_u; lia|].
    eapply reads_bind_ret; [apply Hr|]. rewrite swrap_small by (unfold in_s; lia). apply reads_ret.
Qed.

#[export] Instance c_compact_lawful : Lawful c_compact (fun n => 0 <= n <= MAX_SIZE).
Proof.
  split; cbn [Serialize SerSize Unserialize c_compact]; intros.
  - by rewrite length_WriteCompactSize.
  - by apply reads_CompactSize.
Qed.

(** *** Blobs *)

Definition blob_ok (str : bytes) : Prop := Z.of_nat (length str) <= MAX_SIZE.

Lemma write_blob_eq str : write_blob str = WriteCompactSize (Z.of_nat (length str)) ++ str.
Proof. unfold write_blob. by destruct str. Qed.

Lemma blob_size_length str : blob_size str = Z.of_nat (length (write_blob str)).
Proof.
  rewrite write_blob_eq, length_app. unfold blob_size. rewrite <- length_WriteCompactSize. lia.
Qed.

Lemma u32_size n : 0 <= n <= MAX_SIZE -> u32 n = n.
Proof. unfold MAX_SIZE. intros. apply wrap_small. unfold in_u. lia. Qed.

Section blob_laws.
Context {S : Type} `{!Stream S, !StreamLaws S}.

Lemma reads_nonempty str : reads (read_nonempty S (Z.of_nat (length str))) str str.
Proof.
  unfold read_nonempty. destruct (_ =? _) eqn:E; bool_hyps; cbn [negb].
  - destruct str; [apply reads_ret|done].
  - apply reads_read. lia.
Qed.

Lemma reads_blob {B} (k : Z -> rd S B) str a : blob_ok str ->
  reads (k (Z.of_nat (length str))) str a ->
  reads (let! n := ReadCompactSize in k n) (write_blob str) a.
Proof.
  intros Hs Hk. rewrite write_blob_eq. eapply reads_bind; [apply reads_CompactSize|exact Hk].
  unfold blob_ok in Hs. lia.
Qed.

Lemma reads_read_blocks fuel : forall v rest,
  Z.of_nat (length (v ++ rest)) <= MAX_SIZE ->
  (Z.of_nat (length rest) + (max_blk - 1)) / max_blk < Z.of_nat fuel ->
  reads (read_blocks S fuel (Z.of_nat (length (v ++ rest))) (Z.of_nat (length v)) v) rest (v ++ rest).
Proof.
  change max_blk with 5000000. unfold MAX_SIZE.
  induction fuel as [|fuel IH]; intros v rest Hm Hf.
  { assert (0 <= (Z.of_nat (length rest) + (5000000 - 1)) / 5000000) by (apply Z.div_pos; lia). lia. }
  cbn [read_blocks]. rewrite length_app in Hm |- *. destruct (_ <? _) eqn:E; bool_hyps.
  - change max_blk with 5000000. rewrite wrap_small by (unfold in_u; lia).
    set (blk := Z.min _ 5000000).
    assert (Hb : 0 < blk <= Z.of_nat (length rest)) by lia.
    match goal with |- reads ?m _ _ =>
      enough (H : reads m (take (Z.to_nat blk) rest ++ drop (Z.to_nat blk) rest) (v ++ rest))
        by (by rewrite take_drop in H) end.
    eapply reads_bind; [apply reads_read; rewrite length_take; lia|].
    rewrite wrap_small by (unfold in_u; lia).
    replace (v ++ rest) with ((v ++ take (Z.to_nat blk) rest) ++ drop (Z.to_nat blk) rest)
      by (by rewrite <- app_assoc, take_drop).
    replace (Z.of_nat (length v) + blk) with (Z.of_nat (length (v ++ take (Z.to_nat blk) rest)))
      by (rewrite length_app, length_take; lia).
    replace (Z.of_nat (length v + length rest)) with
      (Z.of_nat (length ((v ++ take (Z.to_nat blk) rest) ++ drop (Z.to_nat blk) rest)))
      by (rewrite <- app_assoc, take_drop, length_app; lia).
    apply IH; [rewrite <- app_assoc, take_drop, length_app; lia|].
    rewrite length_drop. destruct (Z.le_ge_cases 5000000 (Z.of_nat (length rest))).
    + assert (blk = 5000000) as -> by lia.
      replace (Z.of_nat (length rest - Z.to_nat 5000000) + (5000000 - 1))
        with (Z.of_nat (length rest) + (5000000 - 1) + (-1) * 5000000) by lia.
      rewrite Z_div_plus_full by lia. lia.
    + replace (length rest - Z.to_nat blk)%nat with O by lia. change ((Z.of_nat 0 + (5000000 - 1)) / 5000000) with 0.
      assert (1 <= (Z.of_nat (length rest) + (5000000 - 1)) / 5000000) by (apply Z.div_le_lower_bound; lia). lia.
  - destruct rest; [|cbn [length] in *; lia]. rewrite app_nil_r. apply reads_ret.
Qed.
End blob_laws.

(** Enough turns for [n] elements in blocks of [b]. *)
Lemma block_fuel n b : 0 <= n -> 0 < b -> (n + (b - 1)) / b < Z.of_nat (Z.to_nat (n / b) + 2).
Proof.
  intros Hn Hb. assert (0 <= n / b) by (apply Z.div_pos; lia).
  assert ((n + (b - 1)) / b <= (n + 1 * b) / b) as Hle by (apply Z.div_le_mono; lia).
  rewrite Z_div_plus_full in Hle by lia. lia.
Qed.

#[export] Instance c_limited_string_lawful L :
  Lawful (c_limited_string L) (fun str => blob_ok str /\ Z.of_nat (length str) <= L).
Proof.
  split; cbn [Serialize SerSize Unserialize c_limited_string].
  - intros. apply blob_size_length.
  - intros S ?? a [Ha HL]. apply (reads_blob (fun size => if L <? size then _ else _)); [done|].
    apply Z.ltb_ge in HL as ->. apply reads_nonempty.
Qed.

#[export] Instance c_string_lawful : Lawful c_string blob_ok.
Proof.
  split; cbn [Serialize SerSize Unserialize c_string].
  - intros. apply blob_size_length.
  - intros S ?? a Ha. apply (reads_blob (fun nSize => read_nonempty S (u32 nSize))); [done|].
    rewrite u32_size; [apply reads_nonempty|]. unfold blob_ok in Ha. lia.
Qed.

#[export] Instance c_bytes_lawful : Lawful c_bytes blob_ok.
Proof.
  split; cbn [Serialize SerSize Unserialize c_bytes].
  - intros. apply blob_size_length.
  - intros S ?? a Ha.
    apply (reads_blob (fun nSize => let nSize := u32 nSize in
      read_blocks S (Z.to_nat (nSize / max_blk) + 2) nSize 0 [])); [done|].
    cbn zeta. unfold blob_ok in Ha. rewrite u32_size by lia.
    apply (reads_read_blocks _ [] a); [done|]. apply block_fuel; [lia|done].
Qed.

Section vector_laws.
Context {A : Type} (c : codec A) (dom : A -> Prop) `{!Lawful c dom} (sizeof_T : Z).

Lemma length_sers (v : list A) : Forall dom v ->
  foldr (fun a n => SerSize c a + n) 0 v = Z.of_nat (length (mjoin (map (Serialize c) v))).
Proof.
  induction 1 as [|x v Hx Hv IH]; [done|].
  change (mjoin (map (Serialize c) (x :: v))) with (Serialize c x ++ mjoin (map (Serialize c) v)).
  cbn [foldr]. rewrite length_app, IH, (law_size x) by done. lia.
Qed.

Lemma sers_app (v w : list A) :
  mjoin (map (Serialize c) (v ++ w)) = mjoin (map (Serialize c) v) ++ mjoin (map (Serialize c) w).
Proof. rewrite map_app. apply join_app. Qed.

Context {S : Type} `{!Stream S, !StreamLaws S}.

Lemma reads_read_n (w : list A) : Forall dom w -> forall v,
  reads (read_n c S (length w) v) (mjoin (map (Serialize c) w)) (v ++ w).
Proof.
  induction 1 as [|x w Hx Hw IH]; intros v; cbn [length read_n].
  - rewrite app_nil_r. apply reads_ret.
  - eapply (reads_bind (Unserialize c S)); [by apply law_reads|].
    replace (v ++ x :: w) with ((v ++ [x]) ++ w) by (by rewrite <- app_assoc). apply IH.
Qed.

Lemma reads_read_mids fuel : 0 < sizeof_T <= 5000000 -> forall v rest,
  Z.of_nat (length (v ++ rest)) <= MAX_SIZE -> Forall dom rest ->
  (Z.of_nat (length rest) + (5000000 / sizeof_T - 1)) / (5000000 / sizeof_T) < Z.of_nat fuel ->
  reads (read_mids c sizeof_T S fuel (Z.of_nat (length (v ++ rest))) (Z.of_nat (length v)) v)
    (mjoin (map (Serialize c) rest)) (v ++ rest).
Proof.
  intros Hs. unfold MAX_SIZE.
  assert (Hb : 1 <= 5000000 / sizeof_T <= 5000000).
  { split; [apply Z.div_le_lower_bound; lia|apply Z.div_le_upper_bound; nia]. }
  set (b := 5000000 / sizeof_T) in *.
  induction fuel as [|fuel IH]; intros v rest Hm Hd Hf.
  { assert (0 <= (Z.of_nat (length rest) + (b - 1)) / b) by (apply Z.div_pos; lia). lia. }
  cbn [read_mids]. rewrite length_app in Hm |- *. fold b. destruct (_ <? _) eqn:E; bool_hyps.
  - rewrite wrap_small by (unfold in_u; lia).
    set (nMid := if _ <? _ then _ else _).
    assert (Hn : nMid = Z.min (Z.of_nat (length v) + b) (Z.of_nat (length v + length rest)))
      by (unfold nMid; case_bool; bool_hyps; lia).
    clearbody nMid. set (k := (Z.to_nat nMid - length v)%nat).
    assert (Hk : (0 < k <= length rest)%nat) by lia.
    match goal with |- reads ?m _ _ =>
      enough (H : reads m (mjoin (map (Serialize c) (take k rest ++ drop k rest))) (v ++ rest))
        by (by rewrite take_drop in H) end.
    rewrite sers_app. pose proof (Forall_take _ k _ Hd) as Hd1. pose proof (Forall_drop _ k _ Hd) as Hd2.
    eapply reads_bind.
    { replace k with (length (take k rest)) at 1 by (rewrite length_take; lia). by apply reads_read_n. }
    replace nMid with (Z.of_nat (length (v ++ take k rest))) by (rewrite length_app, length_take; lia).
    replace (v ++ rest) with ((v ++ take k rest) ++ drop k rest) by (by rewrite <- app_assoc, take_drop).
    replace (Z.of_nat (length v + length rest)) with (Z.of_nat (length ((v ++ take k rest) ++ drop k rest)))
      by (rewrite <- app_assoc, take_drop, length_app; lia).
    apply IH; [rewrite <- app_assoc, take_drop, length_app; lia|done|].
    rewrite length_drop. destruct (Z.le_ge_cases b (Z.of_nat (length rest))).
    + replace (Z.of_nat (length rest - k) + (b - 1)) with (Z.of_nat (length rest) + (b - 1) + (-1) * b) by lia.
      rewrite Z_div_plus_full by lia. lia.
    + replace (length rest - k)%nat with O by lia. rewrite Z.div_small by lia.
      assert (1 <= (Z.of_nat (length rest) + (b - 1)) / b) by (apply Z.div_le_lower_bound; lia). lia.
  - destruct rest; [|cbn [length] in *; lia]. rewrite app_nil_r. apply reads_ret.
Qed.
End vector_laws.

#[export] Instance c_vector_lawful {A} (c : codec A) dom sizeof_T :
  Lawful c dom -> 0 < sizeof_T <= 5000000 ->
  Lawful (c_vector c sizeof_T) (fun v => Z.of_nat (length v) <= MAX_SIZE /\ Forall dom v).
Proof.
  intros Hc Hs. split; cbn [Serialize SerSize Unserialize c_vector].
  - intros v [_ Hv]. rewrite length_app, (length_sers c dom) by done.
    rewrite <- length_WriteCompactSize. lia.
  - intros S ?? v [Hl Hv]. eapply reads_bind; [apply reads_CompactSize; lia|].
    cbn zeta. rewrite u32_size by lia.
    assert (1 <= 5000000 / sizeof_T) by (apply Z.div_le_lower_bound; lia).
    apply (reads_read_mids c dom sizeof_T _ Hs [] v); [done|done|].
    rewrite Z.max_r by lia. apply block_fuel; lia.
Qed.

#[export] Instance c_pair_lawful {A B} (ca : codec A) (cb : codec B) da db :
  Lawful ca da -> Lawful cb db -> Lawful (c_pair ca cb) (fun p => da p.1 /\ db p.2).
Proof.
  intros Ha Hb. split; cbn [Serialize SerSize Unserialize c_pair].
  - intros [a b] [? ?]. rewrite length_app, !law_size by done. lia.
  - intros S ?? [a b] [? ?]. eapply reads_bind; [by apply law_reads|].
    eapply reads_bind_ret; [by apply law_reads|]. apply reads_ret.
Qed.

#[export] Instance c_map_lawful {A B} (c : codec A) (to : A -> B) (from : B -> A) dom :
  Lawful c dom -> Lawful (c_map c to from) (fun b => dom (from b) /\ to (from b) = b).
Proof.
  intros Hc. split; cbn [Serialize SerSize Unserialize c_map].
  - intros b [? _]. by apply law_size.
  - intros S ?? b [Hb He]. eapply reads_bind_ret; [by apply law_reads|]. rewrite He. apply reads_ret.
Qed.

(** What the composed codecs read where the parts do not read back what was written. *)
Lemma c_map_reads {A B} (c : codec A) (to : A -> B) (from : B -> A) S `{!Stream S, !StreamLaws S} a w :
  reads (Unserialize c S) w a -> reads (Unserialize (c_map c to from) S) w (to a).
Proof. intros Hr. eapply reads_bind_ret; [exact Hr|apply reads_ret]. Qed.
Lemma c_pair_reads {A B} (ca : codec A) (cb : codec B) S `{!Stream S, !StreamLaws S} a b wa wb :
  reads (Unserialize ca S) wa a -> reads (Unserialize cb S) wb b -> reads (Unserialize (c_pair ca cb) S) (wa ++ wb) (a, b).
Proof. intros Ha Hb. eapply reads_bind; [exact Ha|]. eapply reads_bind_ret; [exact Hb|]. apply reads_ret. Qed.

#[export] Instance c_shared_ptr_lawful {A} (c : codec A) dom : Lawful c dom -> Lawful (c_shared_ptr c) dom.
Proof. intros Hc. eapply lawful_weaken; [by apply c_map_lawful|]. done. Qed.
#[export] Instance c_unique_ptr_lawful {A} (c : codec A) dom : Lawful c dom -> Lawful (c_unique_ptr c) dom.
Proof. intros Hc. eapply lawful_weaken; [by apply c_map_lawful|]. done. Qed.

Section ordered_laws.
Context {K T : Type} (key : T -> K) (ltb : K -> K -> bool) (c : codec T) (dom : T -> Prop).
Context `{!Lawful c dom} (ltb_asym : forall x y, ltb x y = true -> ltb y x = false).

Lemma std_insert_last x m : Forall (fun y => ltb (key y) (key x) = true) m ->
  std_insert key ltb x m = m ++ [x].
Proof. induction 1 as [|y m Hy Hm IH]; [done|]. cbn [std_insert]. rewrite (ltb_asym _ _ Hy), Hy, IH. done. Qed.

Lemma increasing_app m x m' : increasing key ltb (m ++ x :: m') ->
  Forall (fun y => ltb (key y) (key x) = true) m.
Proof.
  induction m as [|y m IH]; [constructor|]. intros [Hy Hm]. constructor; [|by apply IH].
  apply Forall_app in Hy as [_ Hy]. by apply Forall_cons in Hy as [? _].
Qed.

Lemma reads_read_inserts S `{!Stream S, !StreamLaws S} w : Forall dom w -> forall m,
  increasing key ltb (m ++ w) ->
  reads (read_inserts key ltb c S (length w) m) (mjoin (map (Serialize c) w)) (m ++ w).
Proof.
  induction 1 as [|x w Hx Hw IH]; intros m Hm; cbn [length read_inserts].
  - rewrite app_nil_r. apply reads_ret.
  - eapply (reads_bind (Unserialize c S)); [by apply law_reads|].
    rewrite std_insert_last by (by eapply increasing_app).
    replace (m ++ x :: w) with ((m ++ [x]) ++ w) in * by (by rewrite <- app_assoc). by apply IH.
Qed.

Lemma c_ordered_lawful : Lawful (c_ordered key ltb c)
  (fun m => Z.of_nat (length m) <= MAX_SIZE /\ Forall dom m /\ increasing key ltb m).
Proof.
  split; cbn [Serialize SerSize Unserialize c_ordered].
  - intros v (_ & Hv & _). rewrite length_app, (length_sers c dom) by done.
    rewrite <- length_WriteCompactSize. lia.
  - intros S ?? v (Hl & Hv & Hi). eapply reads_bind; [apply reads_CompactSize; lia|].
    rewrite u32_size, Nat2Z.id by lia. by apply (reads_read_inserts S v Hv []).
Qed.
End ordered_laws.

Lemma GetSerializeSize_length {A} (c : codec A) dom `{!Lawful c dom} a : dom a ->
  GetSerializeSize c a = Z.of_nat (length (Serialize c a)).
Proof. intros. by rewrite <- law_size. Qed.

(** ** Properties *)

(** Containers of any lawful element type: [std::vector] and [prevector],
    whose readers grow the result block by block against bogus sizes, byte
    vectors and strings, pairs, ordered maps and sets all read back from any
    lawful stream what was written, whatever follows, and [GetSerializeSize]
    counts exactly the bytes written. *)
Theorem containers_roundtrip {A} (c : codec A) (dom : A -> Prop) (sizeof_T : Z) (v : list A)
    (ltb : A -> A -> bool) S `{!Stream S, !StreamLaws S} :
  Lawful c dom -> 0 < sizeof_T <= 5000000 -> (forall x y, ltb x y = true -> ltb y x = false) ->
  Z.of_nat (length v) <= MAX_SIZE -> Forall dom v ->
  reads (Unserialize (c_vector c sizeof_T) S) (Serialize (c_vector c sizeof_T) v) v /\
  GetSerializeSize (c_vector c sizeof_T) v = Z.of_nat (length (Serialize (c_vector c sizeof_T) v)) /\
  (increasing (fun k => k) ltb v ->
   reads (Unserialize (c_std_set ltb c) S) (Serialize (c_std_set ltb c) v) v) /\
  (forall (m : list (A * bytes)), Z.of_nat (length m) <= MAX_SIZE ->
     Forall (fun p => dom p.1 /\ blob_ok p.2) m -> increasing fst ltb m ->
     reads (Unserialize (c_std_map ltb c c_bytes) S) (Serialize (c_std_map ltb c c_bytes) m) m /\
     GetSerializeSize (c_std_map ltb c c_bytes) m =
       Z.of_nat (length (Serialize (c_std_map ltb c c_bytes) m))).
Proof.
  intros Hc Hs Ha Hl Hv. pose proof (c_vector_lawful c dom sizeof_T Hc Hs) as Hvec.
  pose proof (c_ordered_lawful (fun k : A => k) ltb c dom Ha) as Hset.
  pose proof (c_ordered_lawful fst ltb (c_pair c c_bytes) _ Ha) as Hmap.
  split_and!.
  - by apply law_reads.
  - by eapply GetSerializeSize_length.
  - intros Hi. by apply (law_reads (Lawful := Hset)).
  - intros m H1 H2 H3. split; [by apply (law_reads (Lawful := Hmap))|].
    by apply (GetSerializeSize_length _ _ (Lawful0 := Hmap)).
Qed.

Lemma containers_roundtrip_witness :
  reads (S := CDataStream.t) (Unserialize (c_vector c_u32 4) CDataStream.t)
    (Serialize (c_vector c_u32 4) [1; 70000; 3]) [1; 70000; 3].
Proof.
  apply (containers_roundtrip c_u32 (in_u 32) 4 [1; 70000; 3] Z.ltb CDataStream.t _);
    [done|intros x y ?%Z.ltb_lt; apply Z.ltb_ge; lia|done|repeat constructor; done].
Defined.
