(* ===== verification/Header.v ===== *)
(** Block headers and block locators: [CBlockHeader] and [CBlockLocator] of
    src/sige/src/primitives/block.h, with their serialisation. *)

From S2P Require Import Prelude Bytes BaseUint UintBytes Uint256 Serialize Codec.

Definition SER_GETHASH : Z := 4.

Record CBlockHeader := {
  nVersion : Z;
  hashPrevBlock : uint256;
  hashMerkleRoot : uint256;
  nTime : Z;
  nBits : Z;
  nNonce : Z;
}.

Module Header.
Definition SetNull : CBlockHeader := {|
  nVersion := 0;
  hashPrevBlock := BaseUint.SetNull WIDTH256 (base_uint_zero WIDTH256);
  hashMerkleRoot := BaseUint.SetNull WIDTH256 (base_uint_zero WIDTH256);
  nTime := 0;
  nBits := 0;
  nNonce := 0;
|}.
Definition IsNull (h : CBlockHeader) : bool := nBits h =? 0.
Definition GetBlockTime (h : CBlockHeader) : Z := nTime h.

(** [SerializationOp]: the six fields in order. *)
Definition c_header : codec CBlockHeader :=
  c_map (c_pair c_i32 (c_pair c_uint256 (c_pair c_uint256 (c_pair c_u32 (c_pair c_u32 c_u32)))))
    (fun '(a, (b, (c, (d, (e, f))))) => {| nVersion := a; hashPrevBlock := b; hashMerkleRoot := c;
       nTime := d; nBits := e; nNonce := f |})
    (fun h => (nVersion h, (hashPrevBlock h, (hashMerkleRoot h, (nTime h, (nBits h, nNonce h)))))).

(** The values a [CBlockHeader] object can hold. *)
Definition wf_header (h : CBlockHeader) : Prop :=
  in_s 32 (nVersion h) /\ wf256 (hashPrevBlock h) /\ wf256 (hashMerkleRoot h) /\
  in_u 32 (nTime h) /\ in_u 32 (nBits h) /\ in_u 32 (nNonce h).

(** [GetHash]: [SerializeHash] of the header, for a given hash function. *)
Definition GetHash (Hash : bytes -> uint256) (h : CBlockHeader) : uint256 :=
  Hash (Serialize c_header h).
End Header.

#[export] Instance c_header_lawful : Lawful Header.c_header Header.wf_header.
Proof.
  eapply lawful_weaken; [apply _|]. intros [] (? & ? & ? & ? & ? & ?). simpl in *. by split_and!.
Qed.

Module Locator.
Record CBlockLocator := { vHave : list uint256 }.

Definition make (vHaveIn : list uint256) : CBlockLocator := {| vHave := vHaveIn |}.
Definition SetNull : CBlockLocator := {| vHave := [] |}.
Definition IsNull (l : CBlockLocator) : bool := (length (vHave l) =? 0)%nat.

(** The version is written and skipped, except for hashing. *)
Definition c_locator (nType nVersion : Z) : codec CBlockLocator :=
  if Z.land nType SER_GETHASH =? 0 then
    c_map (c_pair c_i32 (c_vector c_uint256 32)) (fun '(_, have) => make have)
      (fun l => (nVersion, vHave l))
  else c_map (c_vector c_uint256 32) make vHave.

Definition wf_locator (l : CBlockLocator) : Prop :=
  Z.of_nat (length (vHave l)) <= MAX_SIZE /\ Forall wf256 (vHave l).
End Locator.

Lemma c_locator_lawful nType nVersion : in_s 32 nVersion ->
  Lawful (Locator.c_locator nType nVersion) Locator.wf_locator.
Proof.
  intros Hv. unfold Locator.c_locator. case_bool; (eapply lawful_weaken;
    [apply c_map_lawful; [try apply c_pair_lawful; try apply _; apply c_vector_lawful; [apply _|lia]]|]).
  all: intros [v] [? ?]; simpl in *; by split_and!.
Qed.
