(* ===== verification/Chain.v ===== *)
(** The block tree and the active chain: src/sige/src/chain.h and chain.cpp.

    Block index entries live on the heap and point to each other ([pprev],
    [pskip]); here the heap is a finite map from addresses to entries and NULL
    is [None].  An operation that dereferences gets [Undef] when the address is
    not on the heap; the theorems show that on a well-formed heap it never is. *)

From S2P Require Import Prelude Bytes BaseUint UintBytes Uint256 Serialize Codec Header.

(** ** Block files and positions *)

Module CBlockFileInfo.
Record t := {
  nBlocks : Z; nSize : Z; nUndoSize : Z; nHeightFirst : Z; nHeightLast : Z;
  nTimeFirst : Z; nTimeLast : Z;
}.

Definition SetNull : t := {| nBlocks := 0; nSize := 0; nUndoSize := 0; nHeightFirst := 0;
  nHeightLast := 0; nTimeFirst := 0; nTimeLast := 0 |}.

Definition AddBlock (nHeightIn nTimeIn : Z) (s : t) : t := {|
  nHeightFirst := if (nBlocks s =? 0) || (nHeightIn <? nHeightFirst s) then nHeightIn else nHeightFirst s;
  nTimeFirst := if (nBlocks s =? 0) || (nTimeIn <? nTimeFirst s) then nTimeIn else nTimeFirst s;
  nBlocks := u32 (nBlocks s + 1);
  nHeightLast := if nHeightLast s <? nHeightIn then nHeightIn else nHeightLast s;
  nTimeLast := if nTimeLast s <? nTimeIn then nTimeIn else nTimeLast s;
  nSize := nSize s;
  nUndoSize := nUndoSize s;
|}.

Definition codec : codec t :=
  c_map (c_pair (c_varint 32) (c_pair (c_varint 32) (c_pair (c_varint 32) (c_pair (c_varint 32)
      (c_pair (c_varint 32) (c_pair (c_varint 64) (c_varint 64)))))))
    (fun '(a, (b, (c, (d, (e, (f, g)))))) => {| nBlocks := a; nSize := b; nUndoSize := c;
       nHeightFirst := d; nHeightLast := e; nTimeFirst := f; nTimeLast := g |})
    (fun s => (nBlocks s, (nSize s, (nUndoSize s, (nHeightFirst s, (nHeightLast s, (nTimeFirst s, nTimeLast s))))))).
End CBlockFileInfo.

Module CDiskBlockPos.
Record t := { nFile : Z; nPos : Z }.
Definition SetNull : t := {| nFile := -1; nPos := 0 |}.
Definition IsNull (p : t) : bool := nFile p =? -1.
Definition eqb (a b : t) : bool := (nFile a =? nFile b) && (nPos a =? nPos b).
Definition neqb (a b : t) : bool := negb (eqb a b).
Definition codec : codec t :=
  c_map (c_pair c_varint_int (c_varint 32)) (fun '(a, b) => {| nFile := a; nPos := b |})
    (fun p => (nFile p, nPos p)).
End CDiskBlockPos.

(** ** [enum BlockStatus] *)

Definition BLOCK_VALID_UNKNOWN : Z := 0.
Definition BLOCK_VALID_HEADER : Z := 1.
Definition BLOCK_VALID_TREE : Z := 2.
Definition BLOCK_VALID_TRANSACTIONS : Z := 3.
Definition BLOCK_VALID_CHAIN : Z := 4.
Definition BLOCK_VALID_SCRIPTS : Z := 5.
Definition BLOCK_VALID_MASK : Z :=
  Z.lor (Z.lor (Z.lor (Z.lor BLOCK_VALID_HEADER BLOCK_VALID_TREE) BLOCK_VALID_TRANSACTIONS)
    BLOCK_VALID_CHAIN) BLOCK_VALID_SCRIPTS.
Definition BLOCK_HAVE_DATA : Z := 8.
Definition BLOCK_HAVE_UNDO : Z := 16.
Definition BLOCK_HAVE_MASK : Z := Z.lor BLOCK_HAVE_DATA BLOCK_HAVE_UNDO.
Definition BLOCK_FAILED_VALID : Z := 32.
Definition BLOCK_FAILED_CHILD : Z := 64.
Definition BLOCK_FAILED_MASK : Z := Z.lor BLOCK_FAILED_VALID BLOCK_FAILED_CHILD.
Definition BLOCK_OPT_WITNESS : Z := 128.

(** ** CBlockIndex *)

Abbreviation ptr := (option nat).

Record CBlockIndex := mkBlockIndex {
  phashBlock : option uint256;   (* what the pointer points to *)
  pprev : ptr;
  pskip : ptr;
  nHeight : Z;
  nFile : Z;
  nDataPos : Z;
  nUndoPos : Z;
  nChainWork : uint256;
  nTx : Z;
  nChainTx : Z;
  nStatus : Z;
  nVersion : Z;
  hashMerkleRoot : uint256;
  nTime : Z;
  nBits : Z;
  nNonce : Z;
  nSequenceId : Z;
  nTimeMax : Z;
}.

Abbreviation store := (gmap nat CBlockIndex).

(** [p->...] *)
Definition deref (st : store) (p : ptr) : res CBlockIndex :=
  match p with
  | None => Undef
  | Some a => res_of_option (st !! a)
  end.

Module BlockIndex.
Definition SetNull : CBlockIndex := {|
  phashBlock := None; pprev := None; pskip := None; nHeight := 0; nFile := 0; nDataPos := 0;
  nUndoPos := 0; nChainWork := base_uint_zero WIDTH256; nTx := 0; nChainTx := 0; nStatus := 0;
  nSequenceId := 0; nTimeMax := 0; nVersion := 0; hashMerkleRoot := base_uint_zero WIDTH256;
  nTime := 0; nBits := 0; nNonce := 0 |}.

Definition of_header (block : CBlockHeader) : CBlockIndex := {|
  phashBlock := None; pprev := None; pskip := None; nHeight := 0; nFile := 0; nDataPos := 0;
  nUndoPos := 0; nChainWork := base_uint_zero WIDTH256; nTx := 0; nChainTx := 0; nStatus := 0;
  nSequenceId := 0; nTimeMax := 0;
  nVersion := Header.nVersion block; hashMerkleRoot := Header.hashMerkleRoot block;
  nTime := Header.nTime block; nBits := Header.nBits block; nNonce := Header.nNonce block |}.

Definition GetBlockPos (b : CBlockIndex) : CDiskBlockPos.t :=
  if negb (Z.land (nStatus b) BLOCK_HAVE_DATA =? 0)
  then {| CDiskBlockPos.nFile := nFile b; CDiskBlockPos.nPos := nDataPos b |}
  else CDiskBlockPos.SetNull.
Definition GetUndoPos (b : CBlockIndex) : CDiskBlockPos.t :=
  if negb (Z.land (nStatus b) BLOCK_HAVE_UNDO =? 0)
  then {| CDiskBlockPos.nFile := nFile b; CDiskBlockPos.nPos := nUndoPos b |}
  else CDiskBlockPos.SetNull.

Definition GetBlockHash (b : CBlockIndex) : res uint256 := res_of_option (phashBlock b).

Definition GetBlockHeader (st : store) (b : CBlockIndex) : res CBlockHeader :=
  let? prev :=
    match pprev b with
    | Some _ => let? q := deref st (pprev b) in GetBlockHash q
    | None => Ok (Header.hashPrevBlock Header.SetNull)
    end in
  Ok {| Header.nVersion := nVersion b; Header.hashPrevBlock := prev;
        Header.hashMerkleRoot := hashMerkleRoot b; Header.nTime := nTime b;
        Header.nBits := nBits b; Header.nNonce := nNonce b |}.

Definition GetBlockTime (b : CBlockIndex) : Z := nTime b.
Definition GetBlockTimeMax (b : CBlockIndex) : Z := nTimeMax b.

(** *** Median time *)

Definition nMedianTimeSpan : nat := 11.

(** [*(--pbegin) = pindex->GetBlockTime()]: the array fills from its end. *)
Fixpoint median_times (st : store) (n : nat) (pindex : ptr) (pmedian : list Z) : res (list Z) :=
  match n with
  | O => Ok pmedian
  | S n =>
      match pindex with
      | None => Ok pmedian
      | Some _ =>
          let? b := deref st pindex in
          median_times st n (pprev b) (GetBlockTime b :: pmedian)
      end
  end.

(** [std::sort] of integers. *)
Fixpoint sorted_insert (x : Z) (l : list Z) : list Z :=
  match l with
  | [] => [x]
  | y :: l' => if x <=? y then x :: l else y :: sorted_insert x l'
  end.
Definition std_sort (l : list Z) : list Z := foldr sorted_insert [] l.

Definition GetMedianTimePast (st : store) (this : nat) : res Z :=
  let? times := median_times st nMedianTimeSpan (Some this) [] in
  res_of_option (std_sort times !! (length times / 2)%nat).

(** *** Validity *)

Definition IsValid (nUpTo : Z) (b : CBlockIndex) : res bool :=
  if negb (Z.land nUpTo (u32 (Z.lnot BLOCK_VALID_MASK)) =? 0) then AssertFail
  else if negb (Z.land (nStatus b) BLOCK_FAILED_MASK =? 0) then Ok false
  else Ok (nUpTo <=? Z.land (nStatus b) BLOCK_VALID_MASK).

Definition set_nStatus (b : CBlockIndex) (s : Z) : CBlockIndex := {|
  phashBlock := phashBlock b; pprev := pprev b; pskip := pskip b; nHeight := nHeight b;
  nFile := nFile b; nDataPos := nDataPos b; nUndoPos := nUndoPos b; nChainWork := nChainWork b;
  nTx := nTx b; nChainTx := nChainTx b; nStatus := s; nVersion := nVersion b;
  hashMerkleRoot := hashMerkleRoot b; nTime := nTime b; nBits := nBits b; nNonce := nNonce b;
  nSequenceId := nSequenceId b; nTimeMax := nTimeMax b |}.

Definition RaiseValidity (nUpTo : Z) (b : CBlockIndex) : res (bool * CBlockIndex) :=
  if negb (Z.land nUpTo (u32 (Z.lnot BLOCK_VALID_MASK)) =? 0) then AssertFail
  else if negb (Z.land (nStatus b) BLOCK_FAILED_MASK =? 0) then Ok (false, b)
  else if Z.land (nStatus b) BLOCK_VALID_MASK <? nUpTo
  then Ok (true, set_nStatus b (Z.lor (Z.land (nStatus b) (u32 (Z.lnot BLOCK_VALID_MASK))) nUpTo))
  else Ok (false, b).

(** *** The skip list *)

Definition InvertLowestOne (n : Z) : Z := Z.land n (n - 1).

Definition GetSkipHeight (height : Z) : Z :=
  if height <? 2 then 0
  else if negb (Z.land height 1 =? 0)
  then InvertLowestOne (InvertLowestOne (height - 1)) + 1
  else InvertLowestOne height.

Fixpoint GetAncestor_loop (st : store) (fuel : nat) (height : Z) (pindexWalk : nat) (heightWalk : Z) : res ptr :=
  match fuel with
  | O => OutOfFuel
  | S fuel =>
      if height <? heightWalk then
        let heightSkip := GetSkipHeight heightWalk in
        let heightSkipPrev := GetSkipHeight (heightWalk - 1) in
        let? w := deref st (Some pindexWalk) in
        let prev :=
          match pprev w with
          | Some q => GetAncestor_loop st fuel height q (heightWalk - 1)
          | None => AssertFail
          end in
        match pskip w with
        | Some q =>
            if (heightSkip =? height) ||
               ((height <? heightSkip) &&
                negb ((heightSkipPrev <? heightSkip - 2) && (height <=? heightSkipPrev)))
            then GetAncestor_loop st fuel height q heightSkip
            else prev
        | None => prev
        end
      else Ok (Some pindexWalk)
  end.

(** Every turn lowers [heightWalk]. *)
Definition GetAncestor (st : store) (this : nat) (height : Z) : res ptr :=
  let? b := deref st (Some this) in
  if (nHeight b <? height) || (height <? 0) then Ok None
  else GetAncestor_loop st (Z.to_nat (nHeight b) + 1) height this (nHeight b).

Definition set_pskip (b : CBlockIndex) (p : ptr) : CBlockIndex := {|
  phashBlock := phashBlock b; pprev := pprev b; pskip := p; nHeight := nHeight b;
  nFile := nFile b; nDataPos := nDataPos b; nUndoPos := nUndoPos b; nChainWork := nChainWork b;
  nTx := nTx b; nChainTx := nChainTx b; nStatus := nStatus b; nVersion := nVersion b;
  hashMerkleRoot := hashMerkleRoot b; nTime := nTime b; nBits := nBits b; nNonce := nNonce b;
  nSequenceId := nSequenceId b; nTimeMax := nTimeMax b |}.

Definition BuildSkip (st : store) (this : nat) : res store :=
  let? b := deref st (Some this) in
  match pprev b with
  | Some q =>
      let? a := GetAncestor st q (GetSkipHeight (nHeight b)) in
      Ok (<[this := set_pskip b a]> st)
  | None => Ok st
  end.
End BlockIndex.

(** ** Work *)

Definition GetBlockProof (block : CBlockIndex) : res uint256 :=
  let '(bnTarget, fNegative, fOverflow) := SetCompact (nBits block) in
  if fNegative || fOverflow || EqualTo WIDTH256 bnTarget 0 then Ok (base_uint_of_u64 WIDTH256 0)
  else
    match op_div WIDTH256 (op_not WIDTH256 bnTarget)
            (op_add WIDTH256 bnTarget (base_uint_of_u64 WIDTH256 1)) with
    | Some q => Ok (op_add WIDTH256 q (base_uint_of_u64 WIDTH256 1))
    | None => Throw "Division by zero"
    end.

Definition GetBlockProofEquivalentTime (to from tip : CBlockIndex) (nPowTargetSpacing : Z) : res Z :=
  let '(r, sign) :=
    if op_gt WIDTH256 (nChainWork to) (nChainWork from)
    then (op_sub WIDTH256 (nChainWork to) (nChainWork from), 1)
    else (op_sub WIDTH256 (nChainWork from) (nChainWork to), -1) in
  let? proof := GetBlockProof tip in
  match op_div WIDTH256 (op_mul WIDTH256 r (base_uint_of_u64 WIDTH256 (u64 nPowTargetSpacing))) proof with
  | None => Throw "Division by zero"
  | Some r =>
      if 63 <? bits WIDTH256 r then Ok (i64 (sign * (2 ^ 63 - 1)))
      else Ok (i64 (u64 (u64 sign * GetLow64 r)))
  end.

(** ** CDiskBlockIndex *)

Module CDiskBlockIndex.
Record t := { base : CBlockIndex; hashPrev : uint256 }.

Definition make (st : store) (pindex : CBlockIndex) : res t :=
  match pprev pindex with
  | Some _ =>
      let? q := deref st (pprev pindex) in
      let? h := BlockIndex.GetBlockHash q in
      Ok {| base := pindex; hashPrev := h |}
  | None => Ok {| base := pindex; hashPrev := base_uint_zero WIDTH256 |}
  end.

Definition GetBlockHash (Hash : bytes -> uint256) (d : t) : uint256 :=
  Header.GetHash Hash {| Header.nVersion := nVersion (base d); Header.hashPrevBlock := hashPrev d;
    Header.hashMerkleRoot := hashMerkleRoot (base d); Header.nTime := nTime (base d);
    Header.nBits := nBits (base d); Header.nNonce := nNonce (base d) |}.
End CDiskBlockIndex.

(** ** CChain *)

Module CChain.
Abbreviation t := (list ptr).

Definition Genesis (vChain : t) : ptr := if (0 <? length vChain)%nat then vChain.[0%nat] else None.
Definition Tip (vChain : t) : ptr :=
  if (0 <? length vChain)%nat then vChain.[(length vChain - 1)%nat] else None.
Definition at_ (vChain : t) (nHeight : Z) : ptr :=
  if (nHeight <? 0) || (i32 (Z.of_nat (length vChain)) <=? nHeight) then None
  else vChain.[Z.to_nat nHeight].

(** [operator==]: the last elements are compared even when there is none. *)
Definition eqb (a b : t) : res bool :=
  if (length a =? length b)%nat then
    match last a, last b with
    | Some x, Some y => Ok (bool_decide (x = y))
    | _, _ => Undef
    end
  else Ok false.

Definition Contains (st : store) (vChain : t) (pindex : nat) : res bool :=
  let? b := deref st (Some pindex) in
  Ok (bool_decide (at_ vChain (nHeight b) = Some pindex)).

Definition Next (st : store) (vChain : t) (pindex : nat) : res ptr :=
  let? c := Contains st vChain pindex in
  if c then
    let? b := deref st (Some pindex) in Ok (at_ vChain (i32 (nHeight b + 1)))
  else Ok None.

Definition Height (vChain : t) : Z := i32 (Z.of_nat (length vChain) - 1).

(** [vChain.resize(n)]: new elements are NULL. *)
Definition resize (n : nat) (vChain : t) : t := take n vChain ++ replicate (n - length vChain) None.

Fixpoint SetTip_loop (st : store) (fuel : nat) (pindex : ptr) (vChain : t) : res t :=
  match fuel with
  | O => OutOfFuel
  | S fuel =>
      match pindex with
      | None => Ok vChain
      | Some _ =>
          let? b := deref st pindex in
          let? x := (if nHeight b <? 0 then Undef else res_of_option (vChain !! Z.to_nat (nHeight b))) in
          if bool_decide (x = pindex) then Ok vChain
          else SetTip_loop st fuel (pprev b) (vChain.[Z.to_nat (nHeight b) := pindex])
      end
  end.

(** The entries walked have decreasing heights. *)
Definition SetTip (st : store) (vChain : t) (pindex : ptr) : res t :=
  match pindex with
  | None => Ok []
  | Some _ =>
      let? b := deref st pindex in
      let n := Z.to_nat (nHeight b + 1) in
      SetTip_loop st (n + 1) pindex (resize n vChain)
  end.

Fixpoint GetLocator_loop (st : store) (vChain : t) (fuel : nat) (pindex : ptr) (nStep : Z)
    (vHave : list uint256) : res (list uint256) :=
  match fuel with
  | O => OutOfFuel
  | S fuel =>
      match pindex with
      | None => Ok vHave
      | Some a =>
          let? b := deref st pindex in
          let? h := BlockIndex.GetBlockHash b in
          let vHave := vHave ++ [h] in
          if nHeight b =? 0 then Ok vHave
          else
            let height := Z.max (i32 (nHeight b - nStep)) 0 in
            let? c := Contains st vChain a in
            let? pindex :=
              if c then Ok (at_ vChain height) else BlockIndex.GetAncestor st a height in
            let nStep := if (10 <? length vHave)%nat then i32 (nStep * 2) else nStep in
            GetLocator_loop st vChain fuel pindex nStep vHave
      end
  end.

Definition GetLocator (st : store) (vChain : t) (pindex : ptr) : res Locator.CBlockLocator :=
  let pindex := match pindex with None => Tip vChain | Some _ => pindex end in
  let? fuel :=
    match pindex with
    | None => Ok 1%nat
    | Some _ => let? b := deref st pindex in Ok (Z.to_nat (nHeight b) + 2)%nat
    end in
  let? vHave := GetLocator_loop st vChain fuel pindex 1 [] in
  Ok (Locator.make vHave).

Fixpoint FindFork_loop (st : store) (vChain : t) (fuel : nat) (pindex : ptr) : res ptr :=
  match fuel with
  | O => OutOfFuel
  | S fuel =>
      match pindex with
      | None => Ok None
      | Some a =>
          let? c := Contains st vChain a in
          if c then Ok pindex
          else let? b := deref st pindex in FindFork_loop st vChain fuel (pprev b)
      end
  end.

Definition FindFork (st : store) (vChain : t) (pindex : ptr) : res ptr :=
  match pindex with
  | None => Ok None
  | Some a =>
      let? b := deref st pindex in
      let? pindex :=
        if Height vChain <? nHeight b then BlockIndex.GetAncestor st a (Height vChain) else Ok pindex in
      FindFork_loop st vChain (Z.to_nat (nHeight b) + 2) pindex
  end.

(** [std::lower_bound] on the elements [first, first + count). *)
Fixpoint lower_bound (st : store) (nTime : Z) (vChain : t) (fuel first count : nat) : res nat :=
  match fuel with
  | O => OutOfFuel
  | S fuel =>
      if (0 <? count)%nat then
        let step := (count / 2)%nat in
        let it := (first + step)%nat in
        let? p := res_of_option (vChain !! it) in
        let? b := deref st p in
        if BlockIndex.GetBlockTimeMax b <? nTime
        then lower_bound st nTime vChain fuel (S it) (count - (step + 1))
        else lower_bound st nTime vChain fuel first step
      else Ok first
  end.

Definition FindEarliestAtLeast (st : store) (vChain : t) (nTime : Z) : res ptr :=
  let? lower := lower_bound st nTime vChain (length vChain + 1) 0 (length vChain) in
  if (lower =? length vChain)%nat then Ok None else Ok vChain.[lower].
End CChain.

(** ** The tree *)

Import BlockIndex.

(** The [n]-th predecessor. *)
Definition parent (st : store) (p : nat) : ptr := st !! p ≫= pprev.
Fixpoint anc (st : store) (n : nat) (p : nat) : ptr :=
  match n with
  | O => Some p
  | S n => parent st p ≫= anc st n
  end.

(** A well-formed heap: predecessors exist one level down, and [pskip], once
    built, is the ancestor at [GetSkipHeight]. *)
Definition wf_entry (st : store) (p : nat) (b : CBlockIndex) : Prop :=
  0 <= nHeight b < 2 ^ 31 - 1 /\
  (match pprev b with
   | None => nHeight b = 0
   | Some q => exists bq, st !! q = Some bq /\ nHeight b = nHeight bq + 1
   end) /\
  (forall q, pskip b = Some q ->
   0 < nHeight b /\ anc st (Z.to_nat (nHeight b - GetSkipHeight (nHeight b))) p = Some q).
Definition wf_store (st : store) : Prop := map_Forall (wf_entry st) st.

Lemma anc_add st n m p : anc st (n + m) p = anc st n p ≫= anc st m.
Proof.
  revert p; induction n as [|n IH]; intros p; simpl; [done|].
  destruct (parent st p); simpl; [apply IH|done].
Qed.

Lemma deref_Some st p b : st !! p = Some b -> deref st (Some p) = Ok b.
Proof. intros H. simpl. by rewrite H. Qed.

Lemma InvertLowestOne_range n : 0 <= n -> 0 <= InvertLowestOne n <= n /\ (0 < n -> InvertLowestOne n < n).
Proof.
  intros Hn. unfold InvertLowestOne. destruct (Z.eq_dec n 0) as [->|]; [done|].
  assert (0 <= Z.land n (n - 1)) by (apply Z.land_nonneg; lia).
  assert (Z.land n (n - 1) <= n - 1) by (rewrite Z.land_comm; apply land_le_l; lia). lia.
Qed.

Lemma GetSkipHeight_range h : 0 < h -> 0 <= GetSkipHeight h < h.
Proof.
  intros Hh. unfold GetSkipHeight. destruct (h <? 2) eqn:E; bool_hyps; [lia|].
  case_bool.
  - pose proof (InvertLowestOne_range (h - 1) ltac:(lia)) as [H1 H2].
    pose proof (InvertLowestOne_range (InvertLowestOne (h - 1)) ltac:(lia)) as [H3 H4]. lia.
  - pose proof (InvertLowestOne_range h ltac:(lia)). lia.
Qed.

Section tree.
Context (st : store) (Hst : wf_store st).

Lemma wf_parent p b q : st !! p = Some b -> pprev b = Some q ->
  exists bq, st !! q = Some bq /\ nHeight b = nHeight bq + 1.
Proof. intros Hp Hq. destruct (Hst p b Hp) as (_ & H & _). by rewrite Hq in H. Qed.

Lemma wf_height p b : st !! p = Some b -> 0 <= nHeight b < 2 ^ 31 - 1.
Proof. intros Hp. by destruct (Hst p b Hp). Qed.

Lemma wf_has_parent p b : st !! p = Some b -> 0 < nHeight b -> exists q, pprev b = Some q.
Proof. intros Hp Hh. destruct (Hst p b Hp) as (_ & H & _). destruct (pprev b); [eauto|lia]. Qed.

Lemma anc_height n p b : st !! p = Some b -> Z.of_nat n <= nHeight b ->
  exists q bq, anc st n p = Some q /\ st !! q = Some bq /\ nHeight bq = nHeight b - Z.of_nat n.
Proof.
  revert p b; induction n as [|n IH]; intros p b Hp Hn.
  - exists p, b. split_and!; [done|done|lia].
  - destruct (wf_has_parent p b Hp) as [q Hq]; [lia|].
    destruct (wf_parent p b q Hp Hq) as (bq & Hbq & Hh).
    destruct (IH q bq Hbq) as (r & br & H1 & H2 & H3); [lia|].
    exists r, br. split_and!; [|done|lia]. simpl. unfold parent. rewrite Hp. simpl. by rewrite Hq.
Qed.

Lemma anc_Some n p b q : st !! p = Some b -> anc st n p = Some q ->
  Z.of_nat n <= nHeight b /\ exists bq, st !! q = Some bq /\ nHeight bq = nHeight b - Z.of_nat n.
Proof.
  revert p b; induction n as [|n IH]; intros p b Hp; simpl.
  - intros [= <-]. pose proof (wf_height p b Hp). split; [lia|]. exists b. split; [done|lia].
  - unfold parent. rewrite Hp. simpl. destruct (pprev b) as [r|] eqn:Hr; [|done]. simpl. intros Hq.
    destruct (wf_parent p b r Hp Hr) as (br & Hbr & Hh).
    destruct (IH r br Hbr Hq) as (H1 & bq & H2 & H3). split; [lia|]. exists bq. split; [done|lia].
Qed.

Lemma GetAncestor_loop_spec fuel height p b :
  st !! p = Some b -> 0 <= height <= nHeight b -> nHeight b - height < Z.of_nat fuel ->
  GetAncestor_loop st fuel height p (nHeight b) = Ok (anc st (Z.to_nat (nHeight b - height)) p).
Proof.
  revert p b; induction fuel as [|fuel IH]; intros p b Hp Hh Hf; [lia|]. cbn [GetAncestor_loop].
  destruct (height <? nHeight b) eqn:E; bool_hyps.
  - rewrite (deref_Some _ _ _ Hp). cbn [res_bind].
    destruct (wf_has_parent p b Hp) as [q Hq]; [lia|]. rewrite Hq.
    destruct (wf_parent p b q Hp Hq) as (bq & Hbq & Hhq).
    assert (Hprev : GetAncestor_loop st fuel height q (nHeight b - 1) =
      Ok (anc st (Z.to_nat (nHeight b - height)) p)).
    { replace (nHeight b - 1) with (nHeight bq) by lia. rewrite (IH q bq) by (done || lia).
      replace (Z.to_nat (nHeight b - height)) with (S (Z.to_nat (nHeight bq - height))) by lia.
      simpl. unfold parent. rewrite Hp. simpl. by rewrite Hq. }
    destruct (pskip b) as [s|] eqn:Es; [|done].
    destruct (Hst p b Hp) as (_ & _ & Hskip). destruct (Hskip s Es) as [_ Hs]. clear Hskip.
    pose proof (GetSkipHeight_range (nHeight b) ltac:(lia)) as Hr.
    destruct (anc_Some _ _ _ _ Hp Hs) as (_ & bs & Hbs & Hhs).
    destruct (_ || _) eqn:C; [|done].
    assert (height <= GetSkipHeight (nHeight b)).
    { apply orb_true_iff in C as [C|C]; bool_hyps; lia. }
    replace (GetSkipHeight (nHeight b)) with (nHeight bs) by lia.
    rewrite (IH s bs) by (done || lia).
    replace (Z.to_nat (nHeight b - height)) with
      (Z.to_nat (nHeight b - GetSkipHeight (nHeight b)) + Z.to_nat (nHeight bs - height))%nat by lia.
    by rewrite anc_add, Hs.
  - by replace (Z.to_nat (nHeight b - height)) with O by lia.
Qed.

Lemma GetAncestor_spec p b height : st !! p = Some b ->
  GetAncestor st p height =
    Ok (if (0 <=? height) && (height <=? nHeight b) then anc st (Z.to_nat (nHeight b - height)) p else None).
Proof.
  intros Hp. unfold GetAncestor. rewrite (deref_Some _ _ _ Hp). cbn [res_bind].
  pose proof (wf_height p b Hp).
  destruct (nHeight b <? height) eqn:E1; bool_hyps; cbn [orb].
  - replace (height <=? nHeight b) with false by (symmetry; apply Z.leb_gt; lia). by rewrite andb_false_r.
  - replace (height <=? nHeight b) with true by (symmetry; apply Z.leb_le; lia). rewrite andb_true_r.
    destruct (height <? 0) eqn:E2; bool_hyps.
    + by replace (0 <=? height) with false by (symmetry; apply Z.leb_gt; lia).
    + replace (0 <=? height) with true by (symmetry; apply Z.leb_le; lia).
      apply GetAncestor_loop_spec; [done|lia|lia].
Qed.

Lemma GetAncestor_Some p b height : st !! p = Some b -> 0 <= height <= nHeight b ->
  exists q bq, GetAncestor st p height = Ok (Some q) /\ anc st (Z.to_nat (nHeight b - height)) p = Some q /\
    st !! q = Some bq /\ nHeight bq = height.
Proof.
  intros Hp Hh. destruct (anc_height (Z.to_nat (nHeight b - height)) p b Hp) as (q & bq & H1 & H2 & H3); [lia|].
  exists q, bq. rewrite (GetAncestor_spec p b) by done.
  replace (0 <=? height) with true by (symmetry; apply Z.leb_le; lia).
  replace (height <=? nHeight b) with true by (symmetry; apply Z.leb_le; lia).
  split_and!; [by rewrite H1|done|done|lia].
Qed.
End tree.

(** *** Growing the tree *)

(** [st'] keeps the shape of [st]: predecessors and heights. *)
Definition shape_le (st st' : store) : Prop :=
  forall p b, st !! p = Some b ->
  exists b', st' !! p = Some b' /\ pprev b' = pprev b /\ nHeight b' = nHeight b.

Lemma shape_le_fresh st a b : st !! a = None -> shape_le st (<[a := b]> st).
Proof.
  intros Ha p bp Hp. exists bp. rewrite lookup_insert_ne by congruence. done.
Qed.

Lemma shape_le_update st a b b' : st !! a = Some b -> pprev b' = pprev b -> nHeight b' = nHeight b ->
  shape_le st (<[a := b']> st).
Proof.
  intros Ha H1 H2 p bp Hp. destruct (decide (p = a)) as [->|].
  - exists b'. rewrite lookup_insert_eq. simplify_eq. done.
  - exists bp. by rewrite lookup_insert_ne.
Qed.

Lemma anc_mono st st' n p q : shape_le st st' -> anc st n p = Some q -> (0 < n)%nat -> anc st' n p = Some q.
Proof.
  intros Hs. revert p; induction n as [|n IH]; intros p H Hn; [lia|].
  simpl in *. unfold parent in *. destruct (st !! p) as [b|] eqn:E; [|done]. simpl in H.
  destruct (Hs p b E) as (b' & -> & Hp & _). simpl. rewrite Hp.
  destruct (pprev b) as [r|]; [|done]. simpl in *.
  destruct n; [by simpl in *|]. apply IH; [done|lia].
Qed.

Lemma anc_mono' st st' n p q : shape_le st st' -> anc st n p = Some q -> anc st' n p = Some q.
Proof. intros Hs H. destruct n; [done|]. eapply anc_mono; [done|done|lia]. Qed.

Lemma wf_entry_mono st st' p b : shape_le st st' -> wf_entry st p b -> wf_entry st' p b.
Proof.
  intros Hs (H1 & H2 & H3). split; [done|]. split.
  - destruct (pprev b) as [q|]; [|done]. destruct H2 as (bq & Hq & Hh).
    destruct (Hs q bq Hq) as (b' & Hb' & _ & Hh'). exists b'. split; [done|lia].
  - intros q Hq. destruct (H3 q Hq) as [Hh Ha]. split; [done|]. by apply (anc_mono' st).
Qed.

Lemma wf_store_insert st a b : wf_store st ->
  shape_le st (<[a := b]> st) -> wf_entry (<[a := b]> st) a b -> wf_store (<[a := b]> st).
Proof.
  intros Hst Hs Hb p bp Hp. destruct (decide (p = a)) as [->|].
  - rewrite lookup_insert_eq in Hp. by simplify_eq.
  - rewrite lookup_insert_ne in Hp by done. eapply wf_entry_mono; [done|by apply Hst].
Qed.

(** A fresh entry without skip pointer. *)
Lemma wf_store_fresh st a b : wf_store st -> st !! a = None -> pskip b = None ->
  0 <= nHeight b < 2 ^ 31 - 1 ->
  match pprev b with
  | None => nHeight b = 0
  | Some q => exists bq, st !! q = Some bq /\ nHeight b = nHeight bq + 1
  end -> wf_store (<[a := b]> st).
Proof.
  intros Hst Ha Hk Hh Hp. pose proof (shape_le_fresh st a b Ha) as Hs.
  apply wf_store_insert; [done|done|]. split; [done|]. split; [|by rewrite Hk].
  destruct (pprev b) as [q|]; [|done]. destruct Hp as (bq & Hq & Hhq).
  exists bq. split; [|done]. rewrite lookup_insert_ne by congruence. done.
Qed.

Lemma BuildSkip_spec st a b : wf_store st -> st !! a = Some b ->
  exists k, BuildSkip st a = Ok (<[a := set_pskip b k]> st) /\ wf_store (<[a := set_pskip b k]> st) /\
    (pprev b <> None -> k <> None).
Proof.
  intros Hst Ha. unfold BuildSkip. rewrite (deref_Some _ _ _ Ha). cbn [res_bind].
  assert (Hs : forall k, shape_le st (<[a := set_pskip b k]> st)) by (intros; by eapply shape_le_update).
  assert (Hwf : forall k, (forall q, k = Some q -> 0 < nHeight b /\
      anc st (Z.to_nat (nHeight b - GetSkipHeight (nHeight b))) a = Some q) ->
    wf_store (<[a := set_pskip b k]> st)).
  { intros k Hk. apply wf_store_insert; [done|apply Hs|].
    eapply wf_entry_mono; [apply Hs|]. destruct (Hst a b Ha) as (H1 & H2 & _).
    split; [done|]. split; [done|]. apply Hk. }
  destruct (pprev b) as [q|] eqn:Hq.
  - destruct (wf_parent st Hst a b q Ha Hq) as (bq & Hbq & Hh).
    pose proof (wf_height st Hst a b Ha). pose proof (wf_height st Hst q bq Hbq).
    pose proof (GetSkipHeight_range (nHeight b) ltac:(lia)).
    destruct (GetAncestor_Some st Hst q bq (GetSkipHeight (nHeight b)) Hbq) as (r & br & Hr & Hanc & _); [lia|].
    exists (Some r). rewrite Hr. cbn [res_bind]. split_and!; [done| |done].
    apply Hwf. intros ? [= <-]. split; [lia|].
    replace (Z.to_nat (nHeight b - GetSkipHeight (nHeight b)))
      with (S (Z.to_nat (nHeight bq - GetSkipHeight (nHeight b)))) by lia.
    simpl. unfold parent. rewrite Ha. simpl. by rewrite Hq.
  - destruct (Hst a b Ha) as (_ & H2 & H3). exists (pskip b).
    replace (set_pskip b (pskip b)) with b by (by destruct b). rewrite insert_id by done.
    rewrite Hq in H2. done.
Qed.

(** ** The active chain *)

Section chain.
Context (st : store) (Hst : wf_store st).

(** Element [i] is the entry of height [i] whose predecessor is element [i - 1]. *)
Definition chain_ok (c : CChain.t) : Prop :=
  Z.of_nat (length c) < 2 ^ 31 /\
  forall i p, c !! i = Some p -> exists a b, p = Some a /\ st !! a = Some b /\ nHeight b = Z.of_nat i /\
    match i with O => True | S j => c !! j = Some (pprev b) end.

Definition in_chain (c : CChain.t) (p : nat) : Prop := exists i, c !! i = Some (Some p).

Lemma chain_anc c i k p : chain_ok c -> c !! (i + k)%nat = Some (Some p) -> c !! i = Some (anc st k p).
Proof.
  intros Hc. revert p; induction k as [|k IH]; intros p Hp.
  - by rewrite Nat.add_0_r in Hp.
  - rewrite Nat.add_succ_r in Hp. destruct (proj2 Hc _ _ Hp) as (a & b & [= <-] & Hb & Hh & Hj).
    simpl. unfold parent. rewrite Hb. simpl.
    destruct (proj2 Hc _ _ Hj) as (q & bq & Hq & _). rewrite Hq in Hj |- *. simpl. by apply IH.
Qed.

Lemma chain_height c i p b : chain_ok c -> c !! i = Some (Some p) -> st !! p = Some b -> nHeight b = Z.of_nat i.
Proof. intros Hc Hi Hp. destruct (proj2 Hc _ _ Hi) as (a & b' & [= <-] & Hb & Hh & _). congruence. Qed.

Lemma at_spec c h : Z.of_nat (length c) < 2 ^ 31 ->
  CChain.at_ c h = if h <? 0 then None else default None (c !! Z.to_nat h).
Proof.
  intros Hl. unfold CChain.at_. rewrite swrap_small by (unfold in_s; lia).
  destruct (h <? 0) eqn:E; bool_hyps; cbn [orb]; [done|].
  destruct (_ <=? _) eqn:E2; bool_hyps.
  - rewrite lookup_ge_None_2 by lia. done.
  - rewrite list_lookup_total_alt. by destruct (lookup_lt_is_Some_2 c (Z.to_nat h)) as [x ->]; [lia|].
Qed.

Lemma Height_spec c : Z.of_nat (length c) < 2 ^ 31 -> CChain.Height c = Z.of_nat (length c) - 1.
Proof. intros. unfold CChain.Height. apply swrap_small; unfold in_s; lia. Qed.

Lemma Contains_spec c p b : chain_ok c -> st !! p = Some b ->
  CChain.Contains st c p = Ok (bool_decide (c !! Z.to_nat (nHeight b) = Some (Some p))).
Proof.
  intros Hc Hp. unfold CChain.Contains. rewrite (deref_Some _ _ _ Hp). cbn [res_bind].
  pose proof (wf_height st Hst p b Hp). rewrite at_spec by apply Hc.
  replace (nHeight b <? 0) with false by (symmetry; apply Z.ltb_ge; lia). f_equal.
  apply bool_decide_ext. destruct (c !! _) as [x|]; simpl; split; congruence.
Qed.

Lemma in_chain_lookup c p b : chain_ok c -> st !! p = Some b ->
  in_chain c p <-> c !! Z.to_nat (nHeight b) = Some (Some p).
Proof.
  intros Hc Hp. split; [|by eexists]. intros [i Hi].
  rewrite (chain_height c i p b) by done. by rewrite Nat2Z.id.
Qed.

(** *** SetTip *)

Definition set_tip_inv (c : CChain.t) (a : nat) (h k : Z) (v : CChain.t) : Prop :=
  length v = S (Z.to_nat h) /\
  (forall i, k < Z.of_nat i <= h -> v !! i = Some (anc st (Z.to_nat (h - Z.of_nat i)) a)) /\
  (forall i, Z.of_nat i <= k -> v !! i = Some (default None (c !! i))).

Lemma SetTip_loop_spec c a h fuel p bp v : chain_ok c ->
  anc st (Z.to_nat (h - nHeight bp)) a = Some p -> st !! p = Some bp -> nHeight bp <= h ->
  set_tip_inv c a h (nHeight bp) v -> nHeight bp + 1 < Z.of_nat fuel ->
  exists v', CChain.SetTip_loop st fuel (Some p) v = Ok v' /\ set_tip_inv c a h (-1) v'.
Proof.
  intros Hc. revert p bp v. induction fuel as [|fuel IH]; intros p bp v Hanc Hp Hk (Hl & Hhi & Hlo) Hf;
    pose proof (wf_height st Hst p bp Hp) as Hh0; [lia|]. cbn [CChain.SetTip_loop].
  rewrite (deref_Some _ _ _ Hp). cbn [res_bind].
  replace (nHeight bp <? 0) with false by (symmetry; apply Z.ltb_ge; lia).
  rewrite (Hlo (Z.to_nat (nHeight bp))) by lia. cbn [res_of_option res_bind].
  case_bool_decide as Hx.
  - eexists; split; [reflexivity|]. split; [done|]. split; [|intros; lia].
    intros i Hi. destruct (Z.le_gt_cases (Z.of_nat i) (nHeight bp)) as [Hle|]; [|apply Hhi; lia].
    rewrite Hlo by done. destruct (c !! Z.to_nat (nHeight bp)) as [x|] eqn:E; [|done]. simpl in Hx. subst x.
    replace (Z.to_nat (nHeight bp)) with (i + (Z.to_nat (nHeight bp) - i))%nat in E by lia.
    rewrite (chain_anc c i (Z.to_nat (nHeight bp) - i) p Hc E). simpl. f_equal. replace (Z.to_nat (h - Z.of_nat i)) with
      (Z.to_nat (h - nHeight bp) + (Z.to_nat (nHeight bp) - i))%nat by lia.
    by rewrite anc_add, Hanc.
  - assert (Hinv : forall k', nHeight bp - 1 = k' -> set_tip_inv c a h k' (v.[Z.to_nat (nHeight bp) := Some p])).
    { intros k' <-. split; [by rewrite length_insert|]. split.
      - intros i Hi. destruct (decide (i = Z.to_nat (nHeight bp))) as [->|].
        + rewrite list_lookup_insert_eq by lia. rewrite Z2Nat.id by lia. by rewrite Hanc.
        + rewrite list_lookup_insert_ne by lia. apply Hhi. lia.
      - intros i Hi. rewrite list_lookup_insert_ne by lia. apply Hlo. lia. }
    destruct (pprev bp) as [q|] eqn:Hq.
    + destruct (wf_parent st Hst p bp q Hp Hq) as (bq & Hbq & Hh).
      apply (IH q bq); [|done|lia|apply Hinv; lia|lia].
      replace (Z.to_nat (h - nHeight bq)) with (Z.to_nat (h - nHeight bp) + 1)%nat by lia.
      rewrite anc_add, Hanc. simpl. unfold parent. rewrite Hp. simpl. by rewrite Hq.
    + destruct fuel; [lia|]. eexists; split; [reflexivity|]. apply Hinv.
      destruct (Hst p bp Hp) as (_ & H2 & _). rewrite Hq in H2. lia.
Qed.

Lemma lookup_resize n c i : (i < n)%nat -> CChain.resize n c !! i = Some (default None (c !! i)).
Proof.
  intros Hi. unfold CChain.resize. destruct (Nat.lt_ge_cases i (length c)) as [Hl|Hl].
  - rewrite lookup_app_l by (rewrite length_take; lia). rewrite lookup_take_lt by lia.
    by destruct (lookup_lt_is_Some_2 c i Hl) as [x ->].
  - rewrite lookup_app_r by (rewrite length_take; lia). rewrite length_take, lookup_replicate_2 by lia.
    by rewrite lookup_ge_None_2 by lia.
Qed.

Lemma SetTip_spec c a b : chain_ok c -> st !! a = Some b ->
  exists c', CChain.SetTip st c (Some a) = Ok c' /\ chain_ok c' /\ length c' = S (Z.to_nat (nHeight b)) /\
    forall i, Z.of_nat i <= nHeight b -> c' !! i = Some (anc st (Z.to_nat (nHeight b - Z.of_nat i)) a).
Proof.
  intros Hc Ha. pose proof (wf_height st Hst a b Ha) as Hh. unfold CChain.SetTip.
  rewrite (deref_Some _ _ _ Ha). cbn [res_bind].
  destruct (SetTip_loop_spec c a (nHeight b) (Z.to_nat (nHeight b + 1) + 1) a b
    (CChain.resize (Z.to_nat (nHeight b + 1)) c)) as (v & Hv & Hl & Hhi & _); [done|by rewrite Z.sub_diag|done|lia| |lia|].
  { split; [|split].
    - unfold CChain.resize. rewrite length_app, length_take, length_replicate. lia.
    - intros; lia.
    - intros. apply lookup_resize. lia. }
  exists v. split_and!; [done| |done|intros; apply Hhi; lia].
  split; [lia|]. intros i p Hi. pose proof (lookup_lt_Some _ _ _ Hi).
  rewrite Hhi in Hi by lia. simplify_eq.
  destruct (anc_height st Hst (Z.to_nat (nHeight b - Z.of_nat i)) a b Ha) as (q & bq & Hq & Hbq & Hhq); [lia|].
  exists q, bq. split_and!; [done|done|lia|]. destruct i as [|j]; [done|].
  rewrite Hhi by lia. replace (Z.to_nat (nHeight b - Z.of_nat j)) with
    (Z.to_nat (nHeight b - Z.of_nat (S j)) + 1)%nat by lia.
  rewrite anc_add, Hq. simpl. unfold parent. rewrite Hbq. simpl. by destruct (pprev bq).
Qed.
End chain.
