(* ===== verification/ChainSpec.v ===== *)
(** What the operations on the block tree and on the active chain promise:
    fork points, locators, searches by time, median times and block work.
    The definitions are in Chain.v. *)

From stdpp Require Import sorting.
From S2P Require Import Prelude Bytes BaseUint UintBytes Uint256 Serialize Codec Header Chain.
Import BlockIndex.

(** ** FindFork *)

Section find_fork.
Context (st : store) (Hst : wf_store st) (c : CChain.t) (Hc : chain_ok st c).

Lemma FindFork_loop_spec fuel p b : st !! p = Some b -> nHeight b < Z.of_nat fuel - 1 ->
  exists r, CChain.FindFork_loop st c fuel (Some p) = Ok r /\
    match r with
    | None => forall n q, anc st n p = Some q -> ~ in_chain c q
    | Some f => in_chain c f /\ exists n, anc st n p = Some f /\
        forall m q, anc st m p = Some q -> in_chain c q -> (n <= m)%nat
    end.
Proof.
  revert p b; induction fuel as [|fuel IH]; intros p b Hp Hf;
    pose proof (wf_height st Hst p b Hp); [lia|].
  cbn [CChain.FindFork_loop]. rewrite (Contains_spec st Hst c p b Hc Hp). cbn [res_bind].
  case_bool_decide as Hin.
  - exists (Some p). split; [done|]. split; [by eexists|]. exists O. split; [done|]. intros; lia.
  - rewrite (deref_Some _ _ _ Hp). cbn [res_bind].
    assert (Hnot : ~ in_chain c p) by (by rewrite (in_chain_lookup st c p b Hc Hp)).
    destruct (pprev b) as [q|] eqn:Hq.
    + destruct (wf_parent st Hst p b q Hp Hq) as (bq & Hbq & Hh).
      destruct (IH q bq Hbq) as (r & Hr & Hspec); [lia|]. exists r. split; [done|].
      assert (Hanc : forall n, anc st (S n) p = anc st n q) by
        (intros n; simpl; unfold parent; rewrite Hp; simpl; by rewrite Hq).
      destruct r as [f|].
      * destruct Hspec as (Hf' & n & Hn & Hmin). split; [done|]. exists (S n). rewrite Hanc. split; [done|].
        intros [|m] x Hx Hxc; [simplify_eq/=; done|]. rewrite Hanc in Hx. apply le_n_S. by eapply Hmin.
      * intros [|n] x Hx; [by simplify_eq/=|]. rewrite Hanc in Hx. by eapply Hspec.
    + exists None. split; [destruct fuel; [lia|done]|].
      intros [|n] x Hx; [by simplify_eq/=|]. simpl in Hx. unfold parent in Hx. rewrite Hp in Hx. simpl in Hx.
      by rewrite Hq in Hx.
Qed.

Lemma FindFork_spec p b : st !! p = Some b ->
  exists r, CChain.FindFork st c (Some p) = Ok r /\
    match r with
    | None => forall n q, anc st n p = Some q -> ~ in_chain c q
    | Some f => in_chain c f /\ exists n, anc st n p = Some f /\
        forall m q, anc st m p = Some q -> in_chain c q -> (n <= m)%nat
    end.
Proof.
  intros Hp. unfold CChain.FindFork. rewrite (deref_Some _ _ _ Hp). cbn [res_bind].
  pose proof (wf_height st Hst p b Hp) as Hhb.
  rewrite (Height_spec c (proj1 Hc)).
  destruct (_ <? _) eqn:E; bool_hyps.
  - rewrite (GetAncestor_spec st Hst p b _ Hp).
    set (H := Z.of_nat (length c) - 1) in *.
    assert (Habove : forall n q, anc st n p = Some q -> in_chain c q -> (Z.to_nat (nHeight b - H) <= n)%nat).
    { intros n q Hq [i Hi]. destruct (anc_Some st Hst n p b q Hp Hq) as (_ & bq & Hbq & Hhq).
      pose proof (chain_height st c i q bq Hc Hi Hbq). apply lookup_lt_Some in Hi. lia. }
    destruct (0 <=? H) eqn:E0; bool_hyps; cbn [andb res_bind].
    + replace (H <=? nHeight b) with true by (symmetry; apply Z.leb_le; lia).
      destruct (anc_height st Hst (Z.to_nat (nHeight b - H)) p b Hp) as (q & bq & Hq & Hbq & Hhq); [lia|].
      rewrite Hq. cbn [res_bind].
      destruct (FindFork_loop_spec (Z.to_nat (nHeight b) + 2) q bq Hbq) as (r & -> & Hr); [lia|].
      exists r. split; [done|]. set (d := Z.to_nat (nHeight b - H)) in *. destruct r as [f|].
      * destruct Hr as (Hf & n & Hn & Hmin). split; [done|]. exists (d + n)%nat. rewrite anc_add, Hq. split; [done|].
        intros m x Hx Hxc. pose proof (Habove m x Hx Hxc) as Hdm.
        replace m with (d + (m - d))%nat in Hx by lia. rewrite anc_add, Hq in Hx. simpl in Hx.
        pose proof (Hmin _ _ Hx Hxc). lia.
      * intros m x Hx Hxc. pose proof (Habove m x Hx Hxc) as Hdm.
        replace m with (d + (m - d))%nat in Hx by lia. rewrite anc_add, Hq in Hx. by eapply Hr.
    + exists None. replace (Z.to_nat (nHeight b) + 2)%nat with (S (Z.to_nat (nHeight b) + 1)) by lia.
      split; [done|]. intros n q Hq Hin. pose proof (Habove n q Hq Hin).
      destruct (anc_Some st Hst n p b q Hp Hq) as (Hle & _). lia.
  - cbn [res_bind]. apply (FindFork_loop_spec _ p b Hp). lia.
Qed.

Lemma Next_spec p b : st !! p = Some b ->
  CChain.Next st c p = Ok (match c !! Z.to_nat (nHeight b) with
    | Some (Some q) => if bool_decide (q = p) then default None (c !! S (Z.to_nat (nHeight b))) else None
    | _ => None end).
Proof.
  intros Hp. unfold CChain.Next. rewrite (Contains_spec st Hst c p b Hc Hp). cbn [res_bind].
  pose proof (wf_height st Hst p b Hp). rewrite (deref_Some _ _ _ Hp). cbn [res_bind].
  rewrite swrap_small by (unfold in_s; lia). rewrite at_spec by apply Hc.
  replace (nHeight b + 1 <? 0) with false by (symmetry; apply Z.ltb_ge; lia).
  replace (Z.to_nat (nHeight b + 1)) with (S (Z.to_nat (nHeight b))) by lia.
  destruct (c !! Z.to_nat (nHeight b)) as [[q|]|]; repeat case_bool_decide; simplify_eq; done.
Qed.
End find_fork.

(** ** GetLocator *)

Section locator.
Context (st : store) (Hst : wf_store st) (c : CChain.t) (Hc : chain_ok st c).
Context (Hhash : forall p b, st !! p = Some b -> exists h, phashBlock b = Some h).

(** The entries a locator walks: ancestors at heights falling to 0. *)
Inductive walk : nat -> list (nat * uint256) -> Prop :=
| walk_end p b h : st !! p = Some b -> phashBlock b = Some h -> nHeight b = 0 -> walk p [(p, h)]
| walk_step p b h q bq l : st !! p = Some b -> phashBlock b = Some h -> st !! q = Some bq ->
    nHeight bq < nHeight b -> (exists n, anc st n p = Some q) -> walk q l -> walk p ((p, h) :: l).

Lemma chain_step p b height : st !! p = Some b -> 0 <= height <= nHeight b -> in_chain c p ->
  exists q, CChain.at_ c height = Some q /\ anc st (Z.to_nat (nHeight b - height)) p = Some q /\ in_chain c q.
Proof.
  intros Hp Hh Hin. apply (in_chain_lookup st c p b Hc Hp) in Hin as Hl.
  replace (Z.to_nat (nHeight b)) with (Z.to_nat height + Z.to_nat (nHeight b - height))%nat in Hl by lia.
  pose proof (chain_anc st c _ _ p Hc Hl) as Ha.
  destruct (anc_height st Hst (Z.to_nat (nHeight b - height)) p b Hp) as (q & bq & Hq & _); [lia|].
  exists q. rewrite at_spec by apply Hc. replace (height <? 0) with false by (symmetry; apply Z.ltb_ge; lia).
  rewrite Ha, Hq. split_and!; [done|done|]. eexists. by rewrite Ha, Hq.
Qed.

Lemma GetLocator_loop_spec H fuel p b nStep vHave : st !! p = Some b -> H < 2 ^ 31 - 1 -> nHeight b <= H ->
  (nHeight b <> 0 -> 1 <= nStep <= 1 + H - nHeight b) -> nHeight b + 1 < Z.of_nat fuel ->
  exists l, CChain.GetLocator_loop st c fuel (Some p) nStep vHave = Ok (vHave ++ map snd l) /\ walk p l /\
    (in_chain c p -> Forall (in_chain c) (map fst l)).
Proof.
  intros Hp HH. revert p b nStep vHave Hp.
  induction fuel as [|fuel IH]; intros p b nStep vHave Hp HbH Hs Hf; pose proof (wf_height st Hst p b Hp); [lia|].
  cbn [CChain.GetLocator_loop]. rewrite (deref_Some _ _ _ Hp). cbn [res_bind].
  destruct (Hhash p b Hp) as [h Hh]. unfold GetBlockHash. rewrite Hh. cbn [res_of_option res_bind].
  destruct (nHeight b =? 0) eqn:E; bool_hyps.
  { exists [(p, h)]. split_and!; [done|by eapply walk_end|by repeat constructor]. }
  specialize (Hs E). rewrite swrap_small by (unfold in_s; lia).
  set (height := Z.max (nHeight b - nStep) 0). assert (Hht : 0 <= height < nHeight b) by lia.
  rewrite (Contains_spec st Hst c p b Hc Hp). cbn [res_bind].
  assert (Hnext : exists q bq, (if bool_decide (c !! Z.to_nat (nHeight b) = Some (Some p))
      then Ok (CChain.at_ c height) else GetAncestor st p height) = Ok (Some q) /\
      st !! q = Some bq /\ nHeight bq = height /\ (exists n, anc st n p = Some q) /\
      (in_chain c p -> in_chain c q)).
  { case_bool_decide as Hin.
    - destruct (chain_step p b height Hp) as (q & -> & Hq & Hqc); [lia|by eexists|].
      destruct (anc_Some st Hst _ p b q Hp Hq) as (_ & bq & Hbq & Hhq).
      exists q, bq. split_and!; [done|done|lia|by eexists|done].
    - destruct (GetAncestor_Some st Hst p b height Hp) as (q & bq & -> & Hq & Hbq & Hhq); [lia|].
      exists q, bq. split_and!; [done|done|done|by eexists|].
      intros Hpc. by apply (in_chain_lookup st c p b Hc Hp) in Hpc. }
  destruct Hnext as (q & bq & -> & Hbq & Hhq & Hanc & Hqc). cbn [res_bind].
  edestruct (IH q bq (if (10 <? length (vHave ++ [h]))%nat then i32 (nStep * 2) else nStep) (vHave ++ [h]) Hbq)
    as (l & Hl & Hw & Hall); [lia| |lia|].
  { intros Hnz. case_bool; [|lia]. rewrite swrap_small by (unfold in_s; lia). lia. }
  exists ((p, h) :: l). split_and!.
  - rewrite Hl. by rewrite <- app_assoc.
  - eapply walk_step; [done|done|done|lia|done|done].
  - intros Hpc. constructor; [done|]. auto.
Qed.

Lemma GetLocator_spec p b : st !! p = Some b ->
  exists l, CChain.GetLocator st c (Some p) = Ok (Locator.make (map snd l)) /\ walk p l /\
    (in_chain c p -> Forall (in_chain c) (map fst l)).
Proof.
  intros Hp. pose proof (wf_height st Hst p b Hp). unfold CChain.GetLocator.
  rewrite (deref_Some _ _ _ Hp). cbn [res_bind].
  destruct (GetLocator_loop_spec (nHeight b) (Z.to_nat (nHeight b) + 2) p b 1 [] Hp) as (l & -> & Hw & Hall);
    [lia|lia|lia|lia|]. by exists l.
Qed.
End locator.

(** ** FindEarliestAtLeast *)

Section earliest.
Context (st : store) (c : CChain.t) (nTime : Z).
(** The maximal times of the elements, never falling along the chain. *)
Context (tm : nat -> Z).
Context (Htm : forall i p, c !! i = Some p -> exists b, deref st p = Ok b /\ nTimeMax b = tm i).
Context (Hmono : forall i j, (i <= j < length c)%nat -> tm i <= tm j).

Lemma lower_bound_spec fuel first count : (count < fuel)%nat -> (first + count <= length c)%nat ->
  exists r, CChain.lower_bound st nTime c fuel first count = Ok r /\ (first <= r <= first + count)%nat /\
    (forall i, (first <= i < r)%nat -> tm i < nTime) /\
    (forall i, (r <= i < first + count)%nat -> nTime <= tm i).
Proof.
  revert first count; induction fuel as [|fuel IH]; intros first count Hf Hl; [lia|].
  cbn [CChain.lower_bound]. destruct (0 <? count)%nat eqn:E; bool_hyps.
  - assert (Hs : (count / 2 < count)%nat) by (apply Nat.div_lt; lia).
    set (it := (first + count / 2)%nat).
    destruct (lookup_lt_is_Some_2 c it) as [p Hp]; [lia|]. rewrite Hp. cbn [res_of_option res_bind].
    destruct (Htm it p Hp) as (b & -> & Ht). cbn [res_bind]. unfold GetBlockTimeMax.
    destruct (_ <? _) eqn:Et; bool_hyps.
    + destruct (IH (S it) (count - (count / 2 + 1))%nat) as (r & Hr & Hrange & Hlo & Hhi); [lia|lia|].
      exists r. split_and!; [done|lia|lia| |intros; apply Hhi; lia].
      intros i Hi. destruct (Nat.le_gt_cases i it).
      * pose proof (Hmono i it ltac:(lia)). lia.
      * apply Hlo. lia.
    + destruct (IH first (count / 2)%nat) as (r & Hr & Hrange & Hlo & Hhi); [lia|lia|].
      exists r. split_and!; [done|lia|lia|done|].
      intros i Hi. destruct (Nat.lt_ge_cases i it); [apply Hhi; lia|].
      pose proof (Hmono it i ltac:(lia)). lia.
  - exists first. split_and!; [done|lia|lia|intros; lia|intros; lia].
Qed.

Lemma FindEarliestAtLeast_spec :
  exists r, CChain.FindEarliestAtLeast st c nTime = Ok r /\
    match r with
    | None => forall i, (i < length c)%nat -> tm i < nTime
    | Some p => exists i, c !! i = Some (Some p) /\ nTime <= tm i /\ forall j, (j < i)%nat -> tm j < nTime
    end.
Proof.
  unfold CChain.FindEarliestAtLeast.
  destruct (lower_bound_spec (length c + 1) 0 (length c)) as (r & -> & Hr & Hlo & Hhi); [lia|lia|].
  cbn [res_bind]. destruct (r =? length c)%nat eqn:E; bool_hyps.
  - exists None. split; [done|]. intros i Hi. apply Hlo. lia.
  - destruct (lookup_lt_is_Some_2 c r) as [p Hp]; [lia|].
    rewrite (list_lookup_total_correct _ _ _ Hp). destruct (Htm r p Hp) as (b & Hd & _).
    exists p. split; [done|]. destruct p as [a|]; [|done].
    exists r. split_and!; [done|apply Hhi; lia|]. intros; apply Hlo; lia.
Qed.
End earliest.

(** ** Median time past *)

Definition count_ge (m : Z) (l : list Z) : nat := length (filter (fun x => m <= x) l).

Lemma sorted_insert_perm x l : sorted_insert x l ≡ₚ x :: l.
Proof.
  induction l as [|y l IH]; simpl; [done|]. case_match; [done|]. rewrite IH. constructor.
Qed.
Lemma std_sort_perm l : std_sort l ≡ₚ l.
Proof. induction l as [|x l IH]; simpl; [done|]. by rewrite sorted_insert_perm, IH. Qed.

Lemma sorted_insert_sorted x l : Sorted Z.le l -> Sorted Z.le (sorted_insert x l).
Proof.
  induction l as [|y l IH]; intros Hs; simpl; [by repeat constructor|].
  apply Sorted_inv in Hs as [Hs Hd]. destruct (x <=? y) eqn:E; bool_hyps.
  - repeat constructor; done.
  - constructor; [by apply IH|]. destruct l as [|z l]; simpl; [constructor; lia|].
    inversion Hd; subst. case_match; constructor; lia.
Qed.
Lemma std_sort_sorted l : Sorted Z.le (std_sort l).
Proof. induction l; simpl; [constructor|by apply sorted_insert_sorted]. Qed.

Lemma count_ge_perm m l l' : l ≡ₚ l' -> count_ge m l = count_ge m l'.
Proof. intros H. unfold count_ge. by rewrite H. Qed.
Lemma count_ge_cons m x l : count_ge m (x :: l) = ((if (m <=? x)%Z then 1 else 0) + count_ge m l)%nat.
Proof. unfold count_ge. rewrite filter_cons. case_decide; case_bool; bool_hyps; simpl; lia. Qed.
Lemma count_ge_app m l l' : count_ge m (l ++ l') = (count_ge m l + count_ge m l')%nat.
Proof. unfold count_ge. by rewrite filter_app, length_app. Qed.
Lemma count_ge_le m l : (count_ge m l <= length l)%nat.
Proof. apply length_filter. Qed.

Lemma count_ge_all m l : Forall (fun x => m <= x) l -> count_ge m l = length l.
Proof.
  induction 1 as [|x l Hx Hl IH]; [done|]. rewrite count_ge_cons, IH.
  by apply Z.leb_le in Hx as ->.
Qed.

(** In a sorted list the elements from [m] on are the last ones. *)
Lemma sorted_count l : StronglySorted Z.le l -> forall k x m, l !! k = Some x ->
  m <= x <-> (length l - k <= count_ge m l)%nat.
Proof.
  induction 1 as [|y l Hs IH Hy]; intros k x m Hk; [done|]. rewrite count_ge_cons. cbn [length].
  pose proof (count_ge_le m l) as Hle. destruct k as [|k]; simpl in Hk.
  - simplify_eq. case_bool; bool_hyps; [|lia]. split; [|lia]. intros _.
    enough (count_ge m l = length l) by lia. apply count_ge_all.
    eapply Forall_impl; [exact Hy|]. simpl. lia.
  - rewrite (IH k x m Hk). apply lookup_lt_Some in Hk as Hlt. case_bool; bool_hyps; [|lia].
    assert (y <= x) by (eapply Forall_forall; [exact Hy|by eapply list_elem_of_lookup_2]).
    enough (length l - k <= count_ge m l)%nat by lia. apply (IH k x m Hk). lia.
Qed.

Lemma median_count l k x m : std_sort l !! k = Some x ->
  m <= x <-> (length l - k <= count_ge m l)%nat.
Proof.
  intros Hk. rewrite <- (count_ge_perm _ _ _ (std_sort_perm l)), <- (Permutation_length (std_sort_perm l)).
  apply sorted_count; [|done]. apply Sorted_StronglySorted; [intros ???; lia|apply std_sort_sorted].
Qed.

(** Times of an entry and its predecessors, newest first. *)
Fixpoint times (st : store) (n : nat) (p : ptr) : list Z :=
  match n, p with
  | S n, Some a => match st !! a with Some b => nTime b :: times st n (pprev b) | None => [] end
  | _, _ => []
  end.

Section median.
Context (st : store) (Hst : wf_store st).

Lemma median_times_spec n p acc :
  (forall a, p = Some a -> is_Some (st !! a)) ->
  median_times st n p acc = Ok (rev (times st n p) ++ acc).
Proof.
  revert p acc; induction n as [|n IH]; intros [a|] acc Hp; try done. cbn [median_times times].
  destruct (Hp a eq_refl) as [b Hb]. rewrite (deref_Some _ _ _ Hb), Hb. cbn [res_bind].
  rewrite IH; [simpl; by rewrite <- app_assoc|]. intros q Hq.
  destruct (wf_parent st Hst a b q Hb Hq) as (bq & -> & _). done.
Qed.

Lemma times_take n m p : (n <= m)%nat -> times st n p = take n (times st m p).
Proof.
  revert m p; induction n as [|n IH]; intros m p Hm; [done|]. destruct m as [|m]; [lia|].
  destruct p as [a|]; [|done]. simpl. destruct (st !! a); [|done]. simpl. f_equal. apply IH. lia.
Qed.

Lemma length_times n p : (length (times st n p) <= n)%nat.
Proof.
  revert p; induction n as [|n IH]; intros p; simpl; [done|]. destruct p as [a|]; [|simpl; lia].
  destruct (st !! a) as [b|]; simpl; [|lia]. pose proof (IH (pprev b)). lia.
Qed.

Lemma GetMedianTimePast_spec p b : st !! p = Some b ->
  exists m, GetMedianTimePast st p = Ok m /\
    std_sort (times st 11 (Some p)) !! (length (times st 11 (Some p)) / 2)%nat = Some m.
Proof.
  intros Hp. unfold GetMedianTimePast.
  rewrite median_times_spec, app_nil_r by (intros a [= <-]; by rewrite Hp). cbn [res_bind].
  rewrite length_rev. change nMedianTimeSpan with 11%nat. set (l := times st 11 (Some p)).
  assert (Hl : (0 < length l)%nat) by (unfold l; simpl; rewrite Hp; simpl; lia).
  assert (std_sort (rev l) = std_sort l) as ->.
  { apply (Sorted_unique Z.le); [apply std_sort_sorted..|].
    rewrite !std_sort_perm. symmetry. apply Permutation_rev. }
  destruct (lookup_lt_is_Some_2 (std_sort l) (length l / 2)) as [m Hm].
  { rewrite (Permutation_length (std_sort_perm l)). apply Nat.div_lt; lia. }
  exists m. by rewrite Hm.
Qed.

(** A block later than its predecessor's median does not lower the median. *)
Lemma median_monotone p b q mq mp : st !! p = Some b -> pprev b = Some q ->
  GetMedianTimePast st q = Ok mq -> GetMedianTimePast st p = Ok mp -> mq < nTime b -> mq <= mp.
Proof.
  intros Hp Hq Hmq Hmp Ht. destruct (wf_parent st Hst p b q Hp Hq) as (bq & Hbq & _).
  destruct (GetMedianTimePast_spec p b Hp) as (m1 & E1 & L1).
  destruct (GetMedianTimePast_spec q bq Hbq) as (m2 & E2 & L2).
  rewrite E1 in Hmp. rewrite E2 in Hmq. simplify_eq.
  apply (median_count _ _ _ mq L1). apply (median_count _ _ _ mq) in L2. apply proj1 in L2.
  specialize (L2 (Z.le_refl _)). set (lq := times st 11 (Some q)) in *.
  assert (times st 11 (Some p) = nTime b :: take 10 lq) as ->.
  { change (times st 11 (Some p)) with
      (match st !! p with Some b => nTime b :: times st 10 (pprev b) | None => [] end).
    rewrite Hp, Hq. f_equal. apply times_take. lia. }
  rewrite count_ge_cons. replace (mq <=? nTime b) with true by (symmetry; apply Z.leb_le; lia).
  assert (Hlen : (length lq <= 11)%nat) by apply length_times.
  cbn [length]. rewrite length_take.
  assert (Hc : count_ge mq lq = (count_ge mq (take 10 lq) + count_ge mq (drop 10 lq))%nat)
    by (by rewrite <- count_ge_app, take_drop).
  pose proof (count_ge_le mq (drop 10 lq)) as Hd. rewrite length_drop in Hd.
  pose proof (Nat.div_mod (length lq) 2 ltac:(lia)). pose proof (Nat.mod_upper_bound (length lq) 2 ltac:(lia)).
  pose proof (Nat.div_mod (S (10 `min` length lq)) 2 ltac:(lia)).
  pose proof (Nat.mod_upper_bound (S (10 `min` length lq)) 2 ltac:(lia)). lia.
Qed.
End median.

(** ** Work *)

Lemma EqualTo_spec W pn b : (2 <= W)%nat -> wf W pn -> in_u 64 b -> EqualTo W pn b = (val pn =? b).
Proof.
  intros HW Hw Hb.
  assert (Hb32 : 0 <= b / 2 ^ 32 < 2 ^ 32).
  { unfold in_u in Hb. split; [apply Z.div_pos; lia|apply Z.div_lt_upper_bound; lia]. }
  assert (Hsum : val pn = pn !!! 0%nat + pn !!! 1%nat * 2 ^ 32 +
    zsum (W - 2) (fun i => pn !!! (2 + i)%nat * BB (2 + i))).
  { rewrite val_zsum, (wf_length W) by done. replace W with (2 + (W - 2))%nat at 1 by lia.
    rewrite zsum_split. f_equal. change (zsum 2 (fun i => pn !!! i * BB i)) with
      (0 + pn !!! 0%nat * BB 0 + pn !!! 1%nat * BB 1). change (BB 0) with 1. change (BB 1) with (2 ^ 32). lia. }
  assert (Hdm : b = (b / 2 ^ 32) * 2 ^ 32 + b mod 2 ^ 32) by (pose proof (Z.div_mod b (2 ^ 32) ltac:(lia)); lia).
  pose proof (Z.mod_pos_bound b (2 ^ 32) ltac:(lia)) as Hm.
  pose proof (wf_lookup W pn 0 Hw ltac:(lia)) as H0. pose proof (wf_lookup W pn 1 Hw ltac:(lia)) as H1.
  unfold in_u in H0, H1. unfold EqualTo.
  rewrite Z.shiftr_div_pow2, (land_ones_low b _ 32) by done.
  destruct (find_down _ _) as [r|] eqn:E.
  - apply find_down_Some in E as (i & Hi & Hf & _). destruct (_ =? 0) eqn:Ez; [done|]. bool_hyps. simplify_eq.
    symmetry. apply Z.eqb_neq. intros Hv. apply Ez.
    rewrite (val_lookup W) by (done || lia). rewrite Hv, Z.div_small; [done|].
    unfold in_u in Hb. split; [lia|]. apply Z.lt_le_trans with (BB 2); [apply Hb|].
    unfold BB. apply Z.pow_le_mono_r; lia.
  - rewrite find_down_None in E.
    assert (Hz : zsum (W - 2) (fun i => pn !!! (2 + i)%nat * BB (2 + i)) = 0).
    { rewrite (zsum_ext _ _ (fun i => 0 * 0)); [by rewrite zsum_mul|].
      intros i Hi. specialize (E i Hi). cbn beta in E. rewrite Nat.add_comm in E.
      destruct (_ =? 0) eqn:Ez; [|done]. bool_hyps. lia. }
    rewrite Hsum, Hz. repeat case_bool; bool_hyps; symmetry; [apply Z.eqb_neq; lia..|apply Z.eqb_eq; lia].
Qed.

(** The target a header claims: 0 when it is not a positive 256-bit number. *)
Definition target_of (nBits : Z) : Z :=
  if Z.testbit nBits 23 || (2 ^ 256 <=? compact_value nBits) then 0 else compact_value nBits.

Lemma SetCompact_target nBits : in_u 32 nBits ->
  let '(bn, neg, ovf) := SetCompact nBits in
  wf256 bn /\ (neg || ovf || EqualTo WIDTH256 bn 0 = (target_of nBits =? 0)) /\
  (target_of nBits <> 0 -> val bn = target_of nBits).
Proof.
  intros Hn. pose proof (SetCompact_spec nBits Hn) as H. destruct (SetCompact nBits) as [[bn neg] ovf].
  destruct H as (Hw & Hv & Ho & Hng). assert (H64 : in_u 64 0) by done.
  rewrite (EqualTo_spec WIDTH256 bn 0) by (done || (unfold WIDTH256; lia)). unfold target_of.
  assert (Hpos : 0 <= compact_value nBits).
  { destruct (compact_fields nBits Hn) as (_ & _ & Hs & Hw'). unfold compact_value. case_bool.
    - apply Z.div_pos; lia.
    - bool_hyps. apply Z.mul_nonneg_nonneg; lia. }
  split; [done|]. destruct (2 ^ 256 <=? compact_value nBits) eqn:E; bool_hyps.
  - apply Ho in E as ->. rewrite !orb_true_r. split; done.
  - assert (ovf = false) as -> by (destruct ovf; [|done]; apply proj1 in Ho; specialize (Ho eq_refl); lia).
    rewrite Z.mod_small in Hv by lia. rewrite Hv, !orb_false_r.
    destruct (Z.testbit nBits 23) eqn:Eb; cbn [orb].
    + split; [|done]. destruct neg; [done|]. cbn [orb]. apply Z.eqb_eq.
      destruct (Z.eq_dec (compact_value nBits) 0) as [|Hnz]; [done|]. discriminate (proj2 Hng (conj Hnz eq_refl)).
    + assert (neg = false) as -> by (destruct neg; [|done]; by destruct (proj1 Hng eq_refl)).
      split; [done|]. done.
Qed.

Lemma compact_value_not_max c : in_u 32 c -> compact_value c <> 2 ^ 256 - 1.
Proof.
  intros Hc. destruct (compact_fields c Hc) as (_ & _ & Hs & Hw). unfold compact_value. case_bool; bool_hyps.
  - pose proof (Z.div_le_upper_bound (compact_word c) (256 ^ (3 - compact_size c)) (2 ^ 23) ltac:(lia)) as H.
    assert (1 <= 256 ^ (3 - compact_size c)) by lia. specialize (H ltac:(nia)). lia.
  - intros Heq. replace (256 ^ (compact_size c - 3)) with (256 * 256 ^ (compact_size c - 4)) in Heq
      by (rewrite <- Z.pow_succ_r by lia; f_equal; lia).
    assert ((compact_word c * (256 * 256 ^ (compact_size c - 4))) mod 2 = (2 ^ 256 - 1) mod 2) as Hm by (by rewrite Heq).
    change ((2 ^ 256 - 1) mod 2) with 1 in Hm.
    replace (compact_word c * (256 * 256 ^ (compact_size c - 4))) with
      ((compact_word c * (128 * 256 ^ (compact_size c - 4))) * 2) in Hm by lia.
    rewrite Z_mod_mult in Hm. lia.
Qed.

Lemma GetBlockProof_spec block : in_u 32 (nBits block) ->
  exists w, GetBlockProof block = Ok w /\ wf256 w /\
    val w = if target_of (nBits block) =? 0 then 0 else 2 ^ 256 / (target_of (nBits block) + 1).
Proof.
  intros Hn. pose proof (SetCompact_target _ Hn) as H. pose proof (compact_value_not_max _ Hn) as Hmax.
  unfold GetBlockProof. destruct (SetCompact (nBits block)) as [[bn neg] ovf]. destruct H as (Hw & -> & Hv).
  assert (H2 : (2 <= WIDTH256)%nat) by (unfold WIDTH256; lia).
  set (t := target_of (nBits block)) in *. destruct (t =? 0) eqn:E; bool_hyps.
  - exists (base_uint_of_u64 WIDTH256 0). destruct (base_uint_of_u64_spec WIDTH256 0 H2) as [? ?]; done.
  - specialize (Hv E). pose proof (val_range _ _ Hw) as Hr. change (BB WIDTH256) with (2 ^ 256) in *.
    assert (Htmax : t <> 2 ^ 256 - 1) by (unfold t, target_of in *; case_bool; [done|lia]).
    destruct (base_uint_of_u64_spec WIDTH256 1 H2) as [Hw1 Hv1]; [done|].
    destruct (op_not_spec WIDTH256 bn Hw) as [Hwn Hvn]. change (BB WIDTH256) with (2 ^ 256) in Hvn.
    pose proof (add_assign_wf WIDTH256 bn _ Hw Hw1) as Hwa.
    pose proof (add_assign_val WIDTH256 bn _ Hw Hw1) as Hva. change (BB WIDTH256) with (2 ^ 256) in Hva.
    rewrite Hv1, Hv, Z.mod_small in Hva by lia.
    pose proof (div_assign_spec WIDTH256 _ _ H2 Hwn Hwa) as Hd. unfold op_div, op_add.
    replace (_ =? 0) with false in Hd by (symmetry; apply Z.eqb_neq; lia).
    destruct Hd as (q & -> & Hwq & Hvq). rewrite Hva, Hvn, Hv in Hvq.
    exists (add_assign WIDTH256 q (base_uint_of_u64 WIDTH256 1)). split_and!; [done|by apply add_assign_wf|].
    rewrite (add_assign_val WIDTH256) by done. change (BB WIDTH256) with (2 ^ 256). rewrite Hv1, Hvq.
    replace (2 ^ 256 - 1 - t) with (2 ^ 256 + (-1) * (t + 1)) by lia.
    rewrite Z_div_plus_full by lia. replace (2 ^ 256 / (t + 1) + -1 + 1) with (2 ^ 256 / (t + 1)) by lia.
    apply Z.mod_small. split; [apply Z.div_pos; lia|]. apply Z.div_lt; lia.
Qed.

(** ** A small tree

    Genesis 0, blocks 1, 2, 3 on it and a fork 4 beside 2. *)

#[export] Instance wf_entry_dec st p b : Decision (wf_entry st p b).
Proof.
  unfold wf_entry. apply and_dec; [apply _|apply and_dec].
  - destruct (pprev b) as [q|]; [|apply _].
    destruct (st !! q) as [bq|]; [|right; by intros (? & ? & _)].
    destruct (decide (nHeight b = nHeight bq + 1)); [left; by exists bq|right; intros (? & [= <-] & ?); done].
  - destruct (pskip b) as [q|]; [|by left].
    destruct (decide (0 < nHeight b /\ anc st (Z.to_nat (nHeight b - GetSkipHeight (nHeight b))) p = Some q)).
    + left. by intros ? [= <-].
    + right. intros H. by specialize (H q eq_refl).
Defined.
#[export] Instance wf_store_dec st : Decision (wf_store st).
Proof. unfold wf_store. apply _. Defined.

Definition demo_entry (prev skip : ptr) (height time : Z) : CBlockIndex := {|
  phashBlock := Some [time; 0; 0; 0; 0; 0; 0; 0]; pprev := prev; pskip := skip; nHeight := height; nFile := 0;
  nDataPos := 0; nUndoPos := 0; nChainWork := base_uint_zero WIDTH256; nTx := 0; nChainTx := 0; nStatus := 0;
  nVersion := 1; hashMerkleRoot := base_uint_zero WIDTH256; nTime := time; nBits := 0x207fffff; nNonce := 0;
  nSequenceId := 0; nTimeMax := time |}.
Definition demo : store := list_to_map [
  (0%nat, demo_entry None None 0 10);
  (1%nat, demo_entry (Some 0%nat) (Some 0%nat) 1 20);
  (2%nat, demo_entry (Some 1%nat) (Some 0%nat) 2 30);
  (3%nat, demo_entry (Some 2%nat) (Some 1%nat) 3 40);
  (4%nat, demo_entry (Some 1%nat) (Some 0%nat) 2 35)].

Lemma demo_wf : wf_store demo.
Proof. apply (bool_decide_unpack _). vm_compute. done. Qed.

Definition demo_chain : CChain.t := [Some 0%nat; Some 1%nat; Some 2%nat; Some 3%nat].
Lemma demo_chain_ok : chain_ok demo demo_chain.
Proof.
  split; [done|]. intros i p Hi.
  destruct i as [|[|[|[|i]]]]; simpl in Hi; simplify_eq; do 2 eexists; (split_and!; [done|reflexivity|done|done]).
Qed.

(** ** Properties *)

(** C26: on a well-formed block tree [GetAncestor] is total and right: for any
    height it returns the predecessor that many steps down, found through the
    skip list, or NULL outside 0..nHeight; no assertion fails, no dangling
    pointer is followed, and the walk ends. *)
Theorem GetAncestor_correct st p b height :
  wf_store st -> st !! p = Some b ->
  GetAncestor st p height =
    Ok (if (0 <=? height) && (height <=? nHeight b) then anc st (Z.to_nat (nHeight b - height)) p else None) /\
  (0 <= height <= nHeight b -> exists q bq, GetAncestor st p height = Ok (Some q) /\
     st !! q = Some bq /\ nHeight bq = height).
Proof.
  intros Hst Hp. split; [by apply GetAncestor_spec|]. intros Hh.
  destruct (GetAncestor_Some st Hst p b height Hp Hh) as (q & bq & ? & _ & ? & ?). by exists q, bq.
Qed.

Lemma GetAncestor_correct_witness :
  GetAncestor demo 3 1 = Ok (anc demo 2 3) /\ anc demo 2 3 = Some 1%nat.
Proof.
  split; [|reflexivity].
  apply (proj1 (GetAncestor_correct demo 3 (demo_entry (Some 2%nat) (Some 1%nat) 3 40) 1 demo_wf eq_refl)).
Defined.

(** C27: [CChain]: setting any tip on a consistent chain, with the early stop
    where the old and the new chain meet, gives the chain of exactly that
    block's ancestors by height; the result is consistent again, and
    [Contains], [Next], [Tip] and [Height] then agree with it. *)
Theorem SetTip_correct st c a b :
  wf_store st -> chain_ok st c -> st !! a = Some b ->
  exists c', CChain.SetTip st c (Some a) = Ok c' /\ chain_ok st c' /\
    CChain.Tip c' = Some a /\ CChain.Height c' = nHeight b /\
    (forall i, Z.of_nat i <= nHeight b -> c' !! i = Some (anc st (Z.to_nat (nHeight b - Z.of_nat i)) a)) /\
    forall p bp, st !! p = Some bp ->
      CChain.Contains st c' p = Ok (bool_decide (c' !! Z.to_nat (nHeight bp) = Some (Some p))) /\
      (c' !! Z.to_nat (nHeight bp) = Some (Some p) ->
       CChain.Next st c' p = Ok (default None (c' !! S (Z.to_nat (nHeight bp))))).
Proof.
  intros Hst Hc Ha. pose proof (wf_height st Hst a b Ha).
  destruct (SetTip_spec st Hst c a b Hc Ha) as (c' & H1 & H2 & H3 & H4).
  exists c'. split_and!; [done|done| | |done|].
  - unfold CChain.Tip. replace (0 <? length c')%nat with true by (symmetry; apply Nat.ltb_lt; lia).
    replace (length c' - 1)%nat with (Z.to_nat (nHeight b)) by lia.
    pose proof (H4 (Z.to_nat (nHeight b)) ltac:(lia)) as Ht.
    rewrite Z2Nat.id, Z.sub_diag in Ht by lia. by rewrite (list_lookup_total_correct _ _ _ Ht).
  - rewrite Height_spec by lia. lia.
  - intros p bp Hp. split; [by apply Contains_spec|]. intros Hin.
    rewrite (Next_spec st Hst c' H2 p bp Hp), Hin. by rewrite bool_decide_true.
Qed.

Lemma SetTip_correct_witness :
  exists c', CChain.SetTip demo demo_chain (Some 4%nat) = Ok c' /\ c' = [Some 0%nat; Some 1%nat; Some 4%nat].
Proof.
  destruct (SetTip_correct demo demo_chain 4 _ demo_wf demo_chain_ok eq_refl) as (c' & H & _).
  exists c'. split; [exact H|]. vm_compute in H. by injection H as <-.
Defined.

(** C17: [FindFork] finds the last common block: it always returns, and either
    gives an ancestor of the block that is in the chain and above every other
    such ancestor, or NULL when no ancestor is in the chain. *)
Theorem FindFork_correct st c p b :
  wf_store st -> chain_ok st c -> st !! p = Some b ->
  exists r, CChain.FindFork st c (Some p) = Ok r /\
    match r with
    | None => forall n q, anc st n p = Some q -> ~ in_chain c q
    | Some f => in_chain c f /\ exists n, anc st n p = Some f /\
        forall m q, anc st m p = Some q -> in_chain c q -> (n <= m)%nat
    end.
Proof. intros Hst Hc Hp. by apply (FindFork_spec st Hst c Hc p b). Qed.

Lemma FindFork_correct_witness : exists r, CChain.FindFork demo demo_chain (Some 4%nat) = Ok r /\ r = Some 1%nat.
Proof.
  destruct (FindFork_correct demo demo_chain 4 _ demo_wf demo_chain_ok eq_refl) as (r & H & _).
  exists r. split; [exact H|]. vm_compute in H. by injection H as <-.
Defined.

(** C30: [GetLocator] always returns a usable locator: it starts with the given
    block, goes through ancestors of strictly falling heights and ends with the
    genesis block; from a block of the chain every entry is in the chain. *)
Theorem GetLocator_correct st c p b :
  wf_store st -> chain_ok st c -> (forall p b, st !! p = Some b -> exists h, phashBlock b = Some h) ->
  st !! p = Some b ->
  exists l, CChain.GetLocator st c (Some p) = Ok (Locator.make (map snd l)) /\ walk st p l /\
    (in_chain c p -> Forall (in_chain c) (map fst l)).
Proof. intros Hst Hc Hh Hp. by apply (GetLocator_spec st Hst c Hc Hh p b). Qed.

Lemma GetLocator_correct_witness :
  exists l, CChain.GetLocator demo demo_chain (Some 3%nat) = Ok (Locator.make (map snd l)) /\
    walk demo 3 l /\ (in_chain demo_chain 3 -> Forall (in_chain demo_chain) (map fst l)).
Proof.
  eapply (GetLocator_correct demo demo_chain 3); [exact demo_wf|exact demo_chain_ok| |reflexivity].
  intros p b Hb. assert (map_Forall (fun _ b => is_Some (phashBlock b)) demo) as H
    by (apply (bool_decide_unpack _); vm_compute; done).
  destruct (H p b Hb) as [h Hh]. by exists h.
Defined.

(** The binary search of [FindEarliestAtLeast] is a linear search: on a
    chain whose maximal times never fall it returns the first block whose
    maximal time reaches [nTime], or NULL when no block's does. *)
Theorem FindEarliestAtLeast_correct st c nTime tm :
  (forall i p, c !! i = Some p -> exists b, deref st p = Ok b /\ nTimeMax b = tm i) ->
  (forall i j, (i <= j < length c)%nat -> tm i <= tm j) ->
  exists r, CChain.FindEarliestAtLeast st c nTime = Ok r /\
    match r with
    | None => forall i, (i < length c)%nat -> tm i < nTime
    | Some p => exists i, c !! i = Some (Some p) /\ nTime <= tm i /\ forall j, (j < i)%nat -> tm j < nTime
    end.
Proof. apply FindEarliestAtLeast_spec. Qed.

Lemma FindEarliestAtLeast_correct_witness :
  exists r, CChain.FindEarliestAtLeast demo demo_chain 25 = Ok r /\ r = Some 2%nat.
Proof.
  destruct (FindEarliestAtLeast_correct demo demo_chain 25 (fun i => 10 + 10 * Z.of_nat i)) as (r & H & _).
  - intros i p Hi. destruct i as [|[|[|[|i]]]]; simpl in Hi; simplify_eq; eexists; (split; [reflexivity|done]).
  - intros. lia.
  - exists r. split; [exact H|]. vm_compute in H. by injection H as <-.
Defined.

(** Median time past is total on a well-formed tree, and a block whose time
    is later than its predecessor's median (the rule a new block must satisfy)
    never moves the median back, also while the window of eleven is filling. *)
Theorem median_time_monotone st p b q :
  wf_store st -> st !! p = Some b -> pprev b = Some q ->
  exists mq mp, GetMedianTimePast st q = Ok mq /\ GetMedianTimePast st p = Ok mp /\ (mq < nTime b -> mq <= mp).
Proof.
  intros Hst Hp Hq. destruct (wf_parent st Hst p b q Hp Hq) as (bq & Hbq & _).
  destruct (GetMedianTimePast_spec st Hst p b Hp) as (mp & Ep & _).
  destruct (GetMedianTimePast_spec st Hst q bq Hbq) as (mq & Eq & _).
  exists mq, mp. split_and!; [done|done|]. intros Ht. by eapply (median_monotone st Hst p b q).
Qed.

Lemma median_time_monotone_witness :
  exists mq mp, GetMedianTimePast demo 2 = Ok mq /\ GetMedianTimePast demo 3 = Ok mp /\ (mq < 40 -> mq <= mp).
Proof. apply (median_time_monotone demo 3 _ 2 demo_wf eq_refl eq_refl). Defined.

(** C12: [GetBlockProof] is the expected number of hashes: for every header bits
    it is 2^256 / (target + 1) exactly, computed in 256 bits without the
    overflow of 2^256, and 0 for a target that is zero, negative or too large. *)
Theorem GetBlockProof_correct block :
  in_u 32 (nBits block) ->
  exists w, GetBlockProof block = Ok w /\ wf256 w /\
    val w = if target_of (nBits block) =? 0 then 0 else 2 ^ 256 / (target_of (nBits block) + 1).
Proof. apply GetBlockProof_spec. Qed.

Lemma GetBlockProof_correct_witness :
  exists w, GetBlockProof (demo_entry None None 0 10) = Ok w /\ wf256 w /\
    val w = if target_of 0x207fffff =? 0 then 0 else 2 ^ 256 / (target_of 0x207fffff + 1).
Proof. apply (GetBlockProof_correct (demo_entry None None 0 10)). done. Defined.
