(* ===== verification/BlockTree.v ===== *)
(** The block index: [AddToBlockIndex] of src/sige/src/validation.cpp, which
    links a header into the tree of Chain.v and maintains the index by hash,
    the accumulated work, the maximal time and the best known header. *)

From S2P Require Import Prelude Bytes BaseUint UintBytes Uint256 Serialize Codec Header Chain ChainSpec.
Import BlockIndex.

Record block_index := {
  heap : store;
  mapBlockIndex : gmap uint256 nat;
  pindexBestHeader : ptr;
  setDirtyBlockIndex : gset nat;
}.

(** Assignments to fields of an entry. *)
Definition set_hash (b : CBlockIndex) (h : uint256) : CBlockIndex := {|
  phashBlock := Some h; pprev := pprev b; pskip := pskip b; nHeight := nHeight b;
  nFile := nFile b; nDataPos := nDataPos b; nUndoPos := nUndoPos b; nChainWork := nChainWork b;
  nTx := nTx b; nChainTx := nChainTx b; nStatus := nStatus b; nVersion := nVersion b;
  hashMerkleRoot := hashMerkleRoot b; nTime := nTime b; nBits := nBits b; nNonce := nNonce b;
  nSequenceId := 0; nTimeMax := nTimeMax b |}.
Definition set_prev (b : CBlockIndex) (p : ptr) (h : Z) : CBlockIndex := {|
  phashBlock := phashBlock b; pprev := p; pskip := pskip b; nHeight := h;
  nFile := nFile b; nDataPos := nDataPos b; nUndoPos := nUndoPos b; nChainWork := nChainWork b;
  nTx := nTx b; nChainTx := nChainTx b; nStatus := nStatus b; nVersion := nVersion b;
  hashMerkleRoot := hashMerkleRoot b; nTime := nTime b; nBits := nBits b; nNonce := nNonce b;
  nSequenceId := nSequenceId b; nTimeMax := nTimeMax b |}.
Definition set_work (b : CBlockIndex) (tm : Z) (w : uint256) : CBlockIndex := {|
  phashBlock := phashBlock b; pprev := pprev b; pskip := pskip b; nHeight := nHeight b;
  nFile := nFile b; nDataPos := nDataPos b; nUndoPos := nUndoPos b; nChainWork := w;
  nTx := nTx b; nChainTx := nChainTx b; nStatus := nStatus b; nVersion := nVersion b;
  hashMerkleRoot := hashMerkleRoot b; nTime := nTime b; nBits := nBits b; nNonce := nNonce b;
  nSequenceId := nSequenceId b; nTimeMax := tm |}.

(** Time and work accumulated from the predecessor. *)
Definition accumulate (st : store) (b : CBlockIndex) : res (Z * uint256) :=
  let? proof := GetBlockProof b in
  match pprev b with
  | Some _ =>
      let? q := deref st (pprev b) in
      Ok (Z.max (nTimeMax q) (nTime b), op_add WIDTH256 (nChainWork q) proof)
  | None => Ok (nTime b, op_add WIDTH256 (base_uint_of_u64 WIDTH256 0) proof)
  end.

Definition AddToBlockIndex (Hash : bytes -> uint256) (block : CBlockHeader) (s : block_index) :
    res (nat * block_index) :=
  let hash := Header.GetHash Hash block in
  match mapBlockIndex s !! hash with
  | Some a => Ok (a, s)
  | None =>
      let new := fresh (dom (heap s)) in
      let b := set_hash (of_header block) hash in
      let index := <[hash := new]> (mapBlockIndex s) in
      let st := <[new := b]> (heap s) in
      let? st :=
        match index !! Header.hashPrevBlock block with
        | Some q =>
            let? bq := deref st (Some q) in
            BuildSkip (<[new := set_prev b (Some q) (i32 (nHeight bq + 1))]> st) new
        | None => Ok st
        end in
      let? b := deref st (Some new) in
      let? (tm, work) := accumulate st b in
      let? (_, b) := RaiseValidity BLOCK_VALID_TREE (set_work b tm work) in
      let st := <[new := b]> st in
      let? best :=
        match pindexBestHeader s with
        | None => Ok (Some new)
        | Some p =>
            let? bp := deref st (Some p) in
            Ok (if op_lt WIDTH256 (nChainWork bp) (nChainWork b) then Some new else Some p)
        end in
      Ok (new, {| heap := st; mapBlockIndex := index; pindexBestHeader := best;
                  setDirtyBlockIndex := {[new]} ∪ setDirtyBlockIndex s |})
  end.

(** ** The invariant *)

(** An entry agrees with its header, its predecessor and the index. *)
Record entry_ok (Hash : bytes -> uint256) (s : block_index) (a : nat) (b : CBlockIndex) : Prop := {
  ok_hash : exists h hd, phashBlock b = Some h /\ mapBlockIndex s !! h = Some a /\
    GetBlockHeader (heap s) b = Ok hd /\ Header.GetHash Hash hd = h;
  ok_accumulated : accumulate (heap s) b = Ok (nTimeMax b, nChainWork b);
  ok_work : wf256 (nChainWork b);
}.

(** No entry has more work than the best header. *)
Definition best_ok (st : store) (best : ptr) : Prop :=
  match best with
  | None => st = ∅
  | Some p => exists bp, st !! p = Some bp /\ map_Forall (fun _ b => val (nChainWork b) <= val (nChainWork bp)) st
  end.

Record index_ok (Hash : bytes -> uint256) (s : block_index) : Prop := {
  ok_tree : wf_store (heap s);
  ok_entries : map_Forall (entry_ok Hash s) (heap s);
  ok_best : best_ok (heap s) (pindexBestHeader s);
  ok_index : map_Forall (fun h a => exists b, heap s !! a = Some b /\ phashBlock b = Some h) (mapBlockIndex s);
}.

(** Everything an entry's invariant reads of the heap is kept. *)
Definition links_le (st st' : store) : Prop :=
  forall p b, st !! p = Some b -> exists b', st' !! p = Some b' /\ phashBlock b' = phashBlock b /\
    nTimeMax b' = nTimeMax b /\ nChainWork b' = nChainWork b.

Lemma accumulate_mono st st' b tw : links_le st st' -> accumulate st b = Ok tw -> accumulate st' b = Ok tw.
Proof.
  intros Hl. unfold accumulate. destruct (GetBlockProof b); simpl; try done.
  destruct (pprev b) as [q|]; [|done]. simpl. destruct (st !! q) as [bq|] eqn:E; [|done]. simpl.
  destruct (Hl q bq E) as (b' & -> & _ & H1 & H2). simpl. by rewrite H1, H2.
Qed.

Lemma GetBlockHeader_mono st st' b hd : links_le st st' ->
  GetBlockHeader st b = Ok hd -> GetBlockHeader st' b = Ok hd.
Proof.
  intros Hl. unfold GetBlockHeader. destruct (pprev b) as [q|]; [|done]. simpl.
  destruct (st !! q) as [bq|] eqn:E; [|done]. simpl. destruct (Hl q bq E) as (b' & -> & H & _). simpl.
  unfold GetBlockHash. by rewrite H.
Qed.

Lemma RaiseValidity_tree b : Z.land (nStatus b) BLOCK_FAILED_MASK = 0 ->
  exists f s, RaiseValidity BLOCK_VALID_TREE b = Ok (f, set_nStatus b s).
Proof.
  intros H. unfold RaiseValidity. rewrite H. cbn [Z.eqb negb].
  change (Z.land BLOCK_VALID_TREE (u32 (Z.lnot BLOCK_VALID_MASK))) with 0. cbn [Z.eqb negb].
  case_bool; [by eauto|]. exists false, (nStatus b). by destruct b.
Qed.

(** The entry that [AddToBlockIndex] puts on the heap. *)
Definition linked (Hash : bytes -> uint256) (block : CBlockHeader) (q : option (nat * CBlockIndex))
    (b : CBlockIndex) : Prop :=
  phashBlock b = Some (Header.GetHash Hash block) /\ nVersion b = Header.nVersion block /\
  hashMerkleRoot b = Header.hashMerkleRoot block /\ nTime b = Header.nTime block /\
  nBits b = Header.nBits block /\ nNonce b = Header.nNonce block /\ nStatus b = 0 /\
  match q with
  | Some (a, bq) => pprev b = Some a /\ nHeight b = nHeight bq + 1
  | None => pprev b = None /\ nHeight b = 0
  end.

Lemma link_block (Hash : bytes -> uint256) (st : store) (block : CBlockHeader) (q : option (nat * CBlockIndex)) (new : nat) (index : gmap uint256 nat) : wf_store st -> st !! new = None ->
  match q with
  | Some (a, bq) => index !! Header.hashPrevBlock block = Some a /\ st !! a = Some bq /\ nHeight bq + 1 < 2 ^ 31 - 1
  | None => index !! Header.hashPrevBlock block = None
  end ->
  let b := set_hash (of_header block) (Header.GetHash Hash block) in
  exists b', (match index !! Header.hashPrevBlock block with
     | Some q =>
         let? bq := deref (<[new := b]> st) (Some q) in
         BuildSkip (<[new := set_prev b (Some q) (i32 (nHeight bq + 1))]> (<[new := b]> st)) new
     | None => Ok (<[new := b]> st)
     end) = Ok (<[new := b']> st) /\ wf_store (<[new := b']> st) /\ linked Hash block q b'.
Proof.
  intros Hst Hnew Hq b. destruct q as [[a bq]|].
  - destruct Hq as (-> & Ha & Hh). pose proof (wf_height st Hst a bq Ha).
    assert (a <> new) by congruence. rewrite (deref_Some _ a bq) by (by rewrite lookup_insert_ne). cbn [res_bind].
    rewrite swrap_small by (unfold in_s; lia). rewrite insert_insert_eq.
    set (b1 := set_prev b (Some a) (nHeight bq + 1)).
    assert (Hw1 : wf_store (<[new := b1]> st)).
    { apply wf_store_fresh; [done|done|done|simpl; lia|]. simpl. by exists bq. }
    destruct (BuildSkip_spec _ new b1 Hw1) as (k & -> & Hw & _); [by rewrite lookup_insert_eq|].
    rewrite insert_insert_eq in Hw |- *. exists (set_pskip b1 k). by split_and!.
  - rewrite Hq. exists b. split_and!; [done| |by split_and!].
    apply wf_store_fresh; [done|done|done|simpl; lia|done].
Qed.

Lemma wf_store_update st a b b' : wf_store st -> st !! a = Some b ->
  pprev b' = pprev b -> nHeight b' = nHeight b -> pskip b' = pskip b -> wf_store (<[a := b']> st).
Proof.
  intros Hst Ha H1 H2 H3. pose proof (shape_le_update st a b b' Ha H1 H2) as Hs.
  apply wf_store_insert; [done|done|]. eapply wf_entry_mono; [exact Hs|].
  unfold wf_entry. rewrite H1, H2, H3. by apply Hst.
Qed.

Lemma links_le_fresh st a b : st !! a = None -> links_le st (<[a := b]> st).
Proof. intros Ha p bp Hp. exists bp. by rewrite lookup_insert_ne by congruence. Qed.

Lemma accumulate_total Hash s block q b : index_ok Hash s -> in_u 32 (nBits b) -> linked Hash block q b ->
  match q with Some (a, bq) => heap s !! a = Some bq | None => True end ->
  exists tm w, accumulate (heap s) b = Ok (tm, w) /\ wf256 w.
Proof.
  intros Hs Hn (_ & _ & _ & _ & _ & _ & _ & Hq) Hh. unfold accumulate.
  destruct (GetBlockProof_spec b Hn) as (w & -> & Hw & _). cbn [res_bind].
  destruct q as [[a bq]|].
  - destruct Hq as [-> _]. rewrite (deref_Some _ _ _ Hh). cbn [res_bind]. do 2 eexists. split; [done|].
    apply add_assign_wf; [|done]. eapply ok_work, (ok_entries Hash s Hs a bq Hh).
  - destruct Hq as [-> _]. do 2 eexists. split; [done|]. apply add_assign_wf; [|done].
    apply base_uint_of_u64_spec; [unfold WIDTH256; lia|done].
Qed.

(** The best header after the step. *)
Lemma best_step st best new b : best_ok st best -> st !! new = None ->
  map_Forall (fun _ b => wf256 (nChainWork b)) st -> wf256 (nChainWork b) ->
  exists best', (match best with
     | None => Ok (Some new)
     | Some p => let? bp := deref (<[new := b]> st) (Some p) in
         Ok (if op_lt WIDTH256 (nChainWork bp) (nChainWork b) then Some new else Some p)
     end) = Ok best' /\ best_ok (<[new := b]> st) best'.
Proof.
  intros Hb Hnew Hst Hw. destruct best as [p|]; simpl in Hb.
  - destruct Hb as (bp & Hp & Hmax). assert (p <> new) by congruence.
    rewrite (deref_Some _ p bp) by (by rewrite lookup_insert_ne). cbn [res_bind].
    destruct (relops_spec WIDTH256 _ _ (Hst p bp Hp) Hw) as (_ & -> & _).
    eexists; split; [reflexivity|]. case_bool; bool_hyps.
    + exists b. rewrite lookup_insert_eq. split; [done|]. apply map_Forall_insert_2; [lia|].
      intros a ba Ha. pose proof (Hmax a ba Ha). simpl in *. lia.
    + exists bp. rewrite lookup_insert_ne by done. split; [done|]. by apply map_Forall_insert_2.
  - subst st. exists (Some new). split; [done|]. exists b. rewrite lookup_insert_eq. split; [done|].
    apply map_Forall_insert_2; [lia|]. apply map_Forall_empty.
Qed.

(** What the caller of [AddToBlockIndex] has checked: the header is not known,
    its predecessor is (or it is the first block), and the index has room. *)
Definition addable (Hash : bytes -> uint256) (block : CBlockHeader) (s : block_index) : Prop :=
  Header.wf_header block /\ Header.GetHash Hash block <> Header.hashPrevBlock block /\
  match mapBlockIndex s !! Header.hashPrevBlock block with
  | Some q => forall bq, heap s !! q = Some bq -> nHeight bq + 1 < 2 ^ 31 - 1
  | None => Header.hashPrevBlock block = Header.hashPrevBlock Header.SetNull
  end.

Lemma entry_ok_mono Hash s s' a b : links_le (heap s) (heap s') ->
  (forall h x, mapBlockIndex s !! h = Some x -> mapBlockIndex s' !! h = Some x) ->
  entry_ok Hash s a b -> entry_ok Hash s' a b.
Proof.
  intros Hl Hm [(h & hd & H1 & H2 & H3 & H4) Hacc Hw]. split; [|by eapply accumulate_mono|done].
  exists h, hd. split_and!; [done|by apply Hm|by eapply GetBlockHeader_mono|done].
Qed.

Lemma GetBlockHeader_linked Hash st block q b st' b' : linked Hash block q b ->
  phashBlock b' = phashBlock b -> pprev b' = pprev b -> nVersion b' = nVersion b ->
  hashMerkleRoot b' = hashMerkleRoot b -> nTime b' = nTime b -> nBits b' = nBits b -> nNonce b' = nNonce b ->
  match q with
  | Some (a, bq) => st !! a = Some bq /\ phashBlock bq = Some (Header.hashPrevBlock block)
  | None => Header.hashPrevBlock block = Header.hashPrevBlock Header.SetNull
  end -> links_le st st' -> GetBlockHeader st' b' = Ok block.
Proof.
  intros (H1 & H2 & H3 & H4 & H5 & H6 & _ & Hq) E1 E2 E3 E4 E5 E6 E7 Hprev Hl.
  unfold GetBlockHeader. rewrite E2, E3, E4, E5, E6, E7, H2, H3, H4, H5, H6.
  destruct q as [[a bq]|].
  - destruct Hq as [-> _], Hprev as [Ha Hh]. destruct (Hl a bq Ha) as (bq' & Hbq' & Hh' & _).
    rewrite (deref_Some _ _ _ Hbq'). cbn [res_bind]. unfold GetBlockHash. rewrite Hh', Hh. cbn [res_of_option res_bind].
    by destruct block.
  - destruct Hq as [-> _]. cbn [res_bind]. rewrite <- Hprev. by destruct block.
Qed.

Lemma AddToBlockIndex_new Hash block s : index_ok Hash s -> addable Hash block s ->
  mapBlockIndex s !! Header.GetHash Hash block = None ->
  exists a b s', AddToBlockIndex Hash block s = Ok (a, s') /\ index_ok Hash s' /\
    heap s !! a = None /\ heap s' = <[a := b]> (heap s) /\
    mapBlockIndex s' = <[Header.GetHash Hash block := a]> (mapBlockIndex s) /\
    GetBlockHeader (heap s') b = Ok block /\
    pprev b = mapBlockIndex s !! Header.hashPrevBlock block.
Proof.
  intros Hs (Hwf & Hne & Hprev) Hnone. unfold AddToBlockIndex. rewrite Hnone.
  set (hash := Header.GetHash Hash block) in *. set (new := fresh (dom (heap s))).
  assert (Hnew : heap s !! new = None) by (apply not_elem_of_dom, is_fresh).
  set (q := match mapBlockIndex s !! Header.hashPrevBlock block with
            | Some a => match heap s !! a with Some bq => Some (a, bq) | None => None end | None => None end).
  assert (Hq : match q with
    | Some (a, bq) => mapBlockIndex s !! Header.hashPrevBlock block = Some a /\ heap s !! a = Some bq /\
        nHeight bq + 1 < 2 ^ 31 - 1 /\ phashBlock bq = Some (Header.hashPrevBlock block)
    | None => mapBlockIndex s !! Header.hashPrevBlock block = None /\
        Header.hashPrevBlock block = Header.hashPrevBlock Header.SetNull
    end).
  { unfold q. destruct (mapBlockIndex s !! _) as [a|] eqn:E; [|done].
    destruct (ok_index Hash s Hs _ _ E) as (bq & Hbq & Hh). rewrite Hbq. split_and!; [done|done|by apply Hprev|done]. }
  clearbody q. clear Hprev. cbn zeta.
  destruct (link_block Hash (heap s) block q new (<[hash := new]> (mapBlockIndex s)) (ok_tree Hash s Hs) Hnew)
    as (b' & Hlink & Hwf' & Hb').
  { destruct q as [[a bq]|]; rewrite lookup_insert_ne by done; [|apply Hq]. by destruct Hq as (? & ? & ? & _). }
  fold hash in Hlink. rewrite Hlink. cbn [res_bind]. rewrite (deref_Some _ new b') by apply lookup_insert_eq. cbn [res_bind].
  pose proof Hb' as (_ & _ & _ & _ & Hbits & _ & Hstatus & _).
  destruct (accumulate_total Hash s block q b' Hs) as (tm & w & Hacc & Hww);
    [by rewrite Hbits; apply Hwf|done|by destruct q as [[a bq]|]; [apply Hq|]|].
  pose proof (links_le_fresh (heap s) new b' Hnew) as Hl1.
  rewrite (accumulate_mono _ _ _ _ Hl1 Hacc). cbn [res_bind].
  destruct (RaiseValidity_tree (set_work b' tm w)) as (f & ns & ->); [by simpl; rewrite Hstatus|]. cbn [res_bind].
  rewrite insert_insert_eq. set (b2 := set_nStatus (set_work b' tm w) ns).
  pose proof (links_le_fresh (heap s) new b2 Hnew) as Hl2.
  destruct (best_step (heap s) (pindexBestHeader s) new b2) as (best & -> & Hbest); [apply Hs|done| |done|].
  { intros a ba Ha. eapply ok_work, (ok_entries Hash s Hs a ba Ha). }
  cbn [res_bind]. assert (Hhd : GetBlockHeader (<[new := b2]> (heap s)) b2 = Ok block).
  { eapply (GetBlockHeader_linked Hash (heap s) block q b'); try done.
    destruct q as [[a bq]|]; [by destruct Hq as (_ & ? & _ & ?)|by destruct Hq]. }
  exists new, b2, {| heap := <[new := b2]> (heap s); mapBlockIndex := <[hash := new]> (mapBlockIndex s);
    pindexBestHeader := best; setDirtyBlockIndex := {[new]} ∪ setDirtyBlockIndex s |}.
  split_and!; try done; [|destruct Hb' as (_ & _ & _ & _ & _ & _ & _ & Hl); cbn [set_nStatus set_work pprev];
    by destruct q as [[a bq]|]; [destruct Hq as (-> & _), Hl|destruct Hq as (-> & _), Hl]].
  split; cbn [heap mapBlockIndex pindexBestHeader].
  - rewrite <- (insert_insert_eq (heap s) new b2 b'). by apply (wf_store_update _ new b'); [|apply lookup_insert_eq|..].
  - apply map_Forall_insert_2.
    + split; [|cbn [heap]; change (accumulate _ b2) with (accumulate (<[new := b2]> (heap s)) b');
               by eapply accumulate_mono|done].
      exists hash, block. split_and!; [apply Hb'|apply lookup_insert_eq|done|done].
    + intros a b Ha. eapply entry_ok_mono; [exact Hl2| |by apply (ok_entries Hash s Hs)].
      intros h x Hh. cbn [mapBlockIndex]. rewrite lookup_insert_ne by congruence. done.
  - done.
  - apply map_Forall_insert_2.
    + exists b2. split; [apply lookup_insert_eq|apply Hb'].
    + intros h a Ha. destruct (ok_index Hash s Hs h a Ha) as (b & Hb & Hh). exists b.
      rewrite lookup_insert_ne by congruence. done.
Qed.

(** ** Properties *)

Definition empty_index : block_index := {|
  heap := ∅; mapBlockIndex := ∅; pindexBestHeader := None; setDirtyBlockIndex := ∅ |}.

Lemma empty_index_ok Hash : index_ok Hash empty_index.
Proof. split; try done; apply map_Forall_empty. Qed.

(** The block index grows soundly: adding a header whose predecessor is
    known keeps the whole invariant (the tree and its skip list are well
    formed; every entry reproduces its header, whose hash indexes it; work and
    maximal time are accumulated from the predecessor; the best header has the
    most work), adds exactly one entry for it and changes no other; a header
    that is already known is returned and changes nothing. *)
Theorem AddToBlockIndex_correct Hash block s :
  index_ok Hash s -> addable Hash block s ->
  exists a s', AddToBlockIndex Hash block s = Ok (a, s') /\ index_ok Hash s' /\
    mapBlockIndex s' !! Header.GetHash Hash block = Some a /\
    match mapBlockIndex s !! Header.GetHash Hash block with
    | Some a' => a' = a /\ s' = s
    | None => exists b, heap s !! a = None /\ heap s' = <[a := b]> (heap s) /\
        GetBlockHeader (heap s') b = Ok block
    end.
Proof.
  intros Hs Ha. destruct (mapBlockIndex s !! Header.GetHash Hash block) as [a|] eqn:E.
  - exists a, s. unfold AddToBlockIndex. by rewrite E.
  - destruct (AddToBlockIndex_new Hash block s Hs Ha E) as (a & b & s' & H1 & H2 & H3 & H4 & H5 & H6 & _).
    exists a, s'. split_and!; [done|done|by rewrite H5, lookup_insert_eq|]. by exists b.
Qed.

(** A stand-in for the hash function: the time, plus one. *)
Definition toy_hash (b : bytes) : uint256 := limbs_of_bytes 8 (take 4 (drop 68 b) ++ replicate 28 1).
Definition toy_genesis : CBlockHeader := {| Header.nVersion := 1; hashPrevBlock := base_uint_zero 8;
  Header.hashMerkleRoot := base_uint_zero 8; Header.nTime := 10; Header.nBits := 0x207fffff; Header.nNonce := 0 |}.

Lemma AddToBlockIndex_correct_witness :
  exists a s', AddToBlockIndex toy_hash toy_genesis empty_index = Ok (a, s') /\ index_ok toy_hash s' /\
    mapBlockIndex s' !! Header.GetHash toy_hash toy_genesis = Some a /\
    exists b, heap empty_index !! a = None /\ heap s' = <[a := b]> (heap empty_index) /\
      GetBlockHeader (heap s') b = Ok toy_genesis.
Proof.
  apply (AddToBlockIndex_correct toy_hash toy_genesis empty_index (empty_index_ok toy_hash)).
  split; [split_and!; try done; apply wf_zero|]. split; [by vm_compute|done].
Defined.
