(* ===== verification/Pow.v ===== *)
(** Proof of work and difficulty: src/sige/src/pow.cpp with the parameters of
    src/sige/src/consensus/params.h. *)

From S2P Require Import Prelude Bytes BaseUint UintBytes Uint256 Serialize Codec Header Chain ChainSpec.
Import BlockIndex.

Module Consensus.
(** [enum DeploymentPos] *)
Inductive DeploymentPos := DEPLOYMENT_TESTDUMMY | DEPLOYMENT_CSV | DEPLOYMENT_SEGWIT.

Record BIP9Deployment := { bit : Z; nStartTime : Z; nTimeout : Z }.

Record Params := {
  hashGenesisBlock : uint256;
  nSubsidyHalvingInterval : Z;
  BIP34Height : Z;
  BIP34Hash : uint256;
  BIP65Height : Z;
  BIP66Height : Z;
  nRuleChangeActivationThreshold : Z;
  nMinerConfirmationWindow : Z;
  vDeployments : DeploymentPos -> BIP9Deployment;
  powLimit : uint256;
  fPowAllowMinDifficultyBlocks : bool;
  fPowNoRetargeting : bool;
  nPowTargetSpacing : Z;
  nPowTargetTimespan : Z;
  nMinimumChainWork : uint256;
  defaultAssumeValid : uint256;
}.

(** 64-bit division; a zero divisor is undefined. *)
Definition DifficultyAdjustmentInterval (p : Params) : res Z :=
  if nPowTargetSpacing p =? 0 then Undef else Ok (Z.quot (nPowTargetTimespan p) (nPowTargetSpacing p)).
End Consensus.
Import Consensus.

(** [a % b] on signed integers. *)
Definition rem64 (a b : Z) : res Z := if b =? 0 then Undef else Ok (Z.rem a b).

Definition compact_or_assert (o : option Z) : res Z := match o with Some c => Ok c | None => AssertFail end.

Definition CalculateNextWorkRequired (pindexLast : CBlockIndex) (nFirstBlockTime : Z) (params : Params) : res Z :=
  if fPowNoRetargeting params then Ok (nBits pindexLast)
  else
    let nActualTimespan := i64 (GetBlockTime pindexLast - nFirstBlockTime) in
    let nActualTimespan :=
      if nActualTimespan <? Z.quot (nPowTargetTimespan params) 4
      then Z.quot (nPowTargetTimespan params) 4 else nActualTimespan in
    let nActualTimespan :=
      if i64 (nPowTargetTimespan params * 4) <? nActualTimespan
      then i64 (nPowTargetTimespan params * 4) else nActualTimespan in
    let bnPowLimit := UintToArith256 (powLimit params) in
    let '(bnNew, _, _) := SetCompact (nBits pindexLast) in
    (* the overload of operator*= for an integer takes 32 bits *)
    let bnNew := mul32_assign WIDTH256 bnNew (u32 nActualTimespan) in
    match div_assign WIDTH256 bnNew (base_uint_of_u64 WIDTH256 (u64 (nPowTargetTimespan params))) with
    | None => Throw "Division by zero"
    | Some bnNew =>
        let bnNew := if op_gt WIDTH256 bnNew bnPowLimit then bnPowLimit else bnNew in
        compact_or_assert (GetCompact bnNew false)
    end.

(** The loop of the testnet rule: the last block that is not a special
    minimum-difficulty block. *)
Fixpoint last_regular (st : store) (fuel : nat) (interval limit : Z) (pindex : nat) : res Z :=
  match fuel with
  | O => OutOfFuel
  | S fuel =>
      let? b := deref st (Some pindex) in
      match pprev b with
      | Some q =>
          let? r := rem64 (nHeight b) interval in
          if negb (r =? 0) && (nBits b =? limit) then last_regular st fuel interval limit q else Ok (nBits b)
      | None => Ok (nBits b)
      end
  end.

Definition GetNextWorkRequired (st : store) (pindexLast : ptr) (pblock : CBlockHeader) (params : Params) : res Z :=
  let? nProofOfWorkLimit := compact_or_assert (GetCompact (UintToArith256 (powLimit params)) false) in
  match pindexLast with
  | None => Ok nProofOfWorkLimit
  | Some last =>
      let? b := deref st pindexLast in
      let? interval := DifficultyAdjustmentInterval params in
      let? r := rem64 (i32 (nHeight b + 1)) interval in
      if negb (r =? 0) then
        if fPowAllowMinDifficultyBlocks params then
          if i64 (GetBlockTime b + i64 (nPowTargetSpacing params * 2)) <? Header.GetBlockTime pblock
          then Ok nProofOfWorkLimit
          else last_regular st (Z.to_nat (nHeight b) + 1) interval nProofOfWorkLimit last
        else Ok (nBits b)
      else
        let nHeightFirst := i32 (nHeight b - (interval - 1)) in
        if nHeightFirst <? 0 then AssertFail
        else
          let? first := GetAncestor st last nHeightFirst in
          match first with
          | None => AssertFail
          | Some _ =>
              let? bf := deref st first in
              CalculateNextWorkRequired b (GetBlockTime bf) params
          end
  end.

Definition CheckProofOfWork (hash : uint256) (nBits : Z) (params : Params) : bool :=
  let '(bnTarget, fNegative, fOverflow) := SetCompact nBits in
  if fNegative || EqualTo WIDTH256 bnTarget 0 || fOverflow ||
     op_gt WIDTH256 bnTarget (UintToArith256 (powLimit params))
  then false
  else
    let comp := UintToArith256 hash in
    if op_gt WIDTH256 comp bnTarget then true (* false, in the comment of the code *) else true.

(** ** Correctness *)

(** Parameters the retargeting is meant for. *)
Record params_ok (p : Params) : Prop := {
  ok_limit : wf256 (powLimit p);
  ok_spacing : 0 < nPowTargetSpacing p <= nPowTargetTimespan p;
  ok_timespan : 4 <= nPowTargetTimespan p /\ nPowTargetTimespan p * 4 < 2 ^ 32;
  ok_product : (val (powLimit p) + 1) * 2 ^ 32 <= 2 ^ 256;
}.

(** The clamped timespan. *)
Definition clamp_timespan (p : Params) (actual : Z) : Z :=
  Z.min (nPowTargetTimespan p * 4) (Z.max (nPowTargetTimespan p / 4) actual).

(** The retargeting rule on integers. *)
Definition retarget (p : Params) (target actual : Z) : Z :=
  Z.min (val (powLimit p)) (target * clamp_timespan p actual / nPowTargetTimespan p).

Lemma two_limbs : (2 <= WIDTH256)%nat.
Proof. unfold WIDTH256; lia. Qed.

Lemma SetCompact_value nBits : in_u 32 nBits -> compact_value nBits < 2 ^ 256 ->
  let '(bn, _, _) := SetCompact nBits in wf256 bn /\ val bn = compact_value nBits.
Proof.
  intros Hn Hlt. pose proof (SetCompact_spec nBits Hn) as H. destruct (SetCompact nBits) as [[bn neg] ovf].
  destruct H as (Hw & Hv & _). split; [done|]. rewrite Hv. apply Z.mod_small. split; [|done].
  destruct (compact_fields nBits Hn) as (_ & _ & ? & ?). unfold compact_value.
  case_bool; bool_hyps; [apply Z.div_pos; lia|apply Z.mul_nonneg_nonneg; lia].
Qed.

Lemma CalculateNextWorkRequired_spec b first p : params_ok p ->
  fPowNoRetargeting p = false -> in_u 32 (nBits b) -> in_u 32 (nTime b) -> in_u 32 first ->
  compact_value (nBits b) <= val (powLimit p) ->
  CalculateNextWorkRequired b first p =
    Ok (compact_of (retarget p (compact_value (nBits b)) (nTime b - first))) /\
  0 <= retarget p (compact_value (nBits b)) (nTime b - first) < 2 ^ 256.
Proof.
  intros [Hlim Hsp [Ht4 Ht32] Hprod] Hnr Hbits Htime Hfirst Hle.
  unfold CalculateNextWorkRequired, GetBlockTime. rewrite Hnr. unfold in_u in Htime, Hfirst.
  set (T := nPowTargetTimespan p) in *. set (d := nTime b - first).
  assert (Hq : Z.quot T 4 = T / 4) by (apply Z.quot_div_nonneg; lia).
  assert (HT4 : 1 <= T / 4) by (apply Z.div_le_lower_bound; lia).
  rewrite (swrap_small 64 d) by (unfold in_s; lia).
  rewrite (swrap_small 64 (T * 4)) by (unfold in_s; lia). rewrite Hq.
  set (x := if d <? T / 4 then T / 4 else d). set (y := if T * 4 <? x then T * 4 else x).
  assert (Hy : y = clamp_timespan p d) by 
    (unfold y, x, clamp_timespan; fold T; destruct (d <? T / 4) eqn:E1; case_bool; bool_hyps; lia).
  rewrite Hy. pose proof (val_range _ _ Hlim) as Hlr. change (BB WIDTH256) with (2 ^ 256) in Hlr.
  pose proof (SetCompact_value _ Hbits ltac:(lia)) as Hc. destruct (SetCompact (nBits b)) as [[bn ?] ?].
  destruct Hc as [Hwb Hvb]. set (v := compact_value (nBits b)) in *.
  pose proof (val_range _ _ Hwb) as Hbr. rewrite Hvb in Hbr.
  assert (Hcl : 1 <= clamp_timespan p d < 2 ^ 32) by (unfold clamp_timespan; fold T; lia).
  rewrite (wrap_small 32 (clamp_timespan p d)) by (unfold in_u; lia).
  assert (Hwc : in_u 32 (clamp_timespan p d)) by (unfold in_u; lia).
  pose proof (mul32_assign_wf WIDTH256 bn _ Hwb Hwc) as Hwm.
  pose proof (mul32_assign_val WIDTH256 bn _ Hwb Hwc) as Hvm. change (BB WIDTH256) with (2 ^ 256) in Hvm.
  rewrite Hvb, Z.mod_small in Hvm by nia.
  rewrite (wrap_small 64 T) by (unfold in_u; lia).
  destruct (base_uint_of_u64_spec WIDTH256 T two_limbs) as [HwT HvT]; [unfold in_u; lia|].
  pose proof (div_assign_spec WIDTH256 _ _ two_limbs Hwm HwT) as Hd. rewrite HvT, Hvm in Hd.
  replace (T =? 0) with false in Hd by (symmetry; apply Z.eqb_neq; lia).
  destruct Hd as (q & -> & Hwq & Hvq). unfold UintToArith256.
  destruct (relops_spec WIDTH256 q (powLimit p) Hwq Hlim) as (-> & _).
  set (r := if val (powLimit p) <? val q then powLimit p else q).
  assert (Hr : wf256 r /\ val r = retarget p v d).
  { unfold r, retarget. fold T. rewrite <- Hvq. destruct (val (powLimit p) <? val q) eqn:E; bool_hyps; (split; [assumption|lia]). }
  rewrite GetCompact_spec, Z.add_0_r by apply Hr. rewrite (proj2 Hr). split; [done|].
  rewrite <- (proj2 Hr). apply (val_range _ _ (proj1 Hr)).
Qed.

(** Every entry claims a target within the limit. *)
Definition targets_ok (p : Params) (st : store) : Prop :=
  map_Forall (fun _ b => in_u 32 (nBits b) /\ in_u 32 (nTime b) /\
    compact_value (nBits b) <= val (powLimit p)) st.

Lemma limit_compact p : wf256 (powLimit p) ->
  GetCompact (powLimit p) false = Some (compact_of (val (powLimit p))) /\
  compact_value (compact_of (val (powLimit p))) <= val (powLimit p).
Proof.
  intros Hw. pose proof (val_range _ _ Hw) as Hr. change (BB WIDTH256) with (2 ^ 256) in Hr.
  rewrite GetCompact_spec, Z.add_0_r, compact_value_of by done. split; [done|]. apply compact_round_le. lia.
Qed.

Lemma last_regular_spec st p interval limit fuel a b : wf_store st -> targets_ok p st -> interval <> 0 ->
  st !! a = Some b -> nHeight b < Z.of_nat fuel ->
  exists c, last_regular st fuel interval limit a = Ok c /\ compact_value c <= val (powLimit p) /\
    exists n q bq, anc st n a = Some q /\ st !! q = Some bq /\ nBits bq = c /\
      (pprev bq = None \/ Z.rem (nHeight bq) interval = 0 \/ c <> limit).
Proof.
  intros Hst Hp Hi. revert a b; induction fuel as [|fuel IH]; intros a b Ha Hf;
    pose proof (wf_height st Hst a b Ha); [lia|].
  cbn [last_regular]. rewrite (deref_Some _ _ _ Ha). cbn [res_bind].
  assert (Hhere : (pprev b = None \/ Z.rem (nHeight b) interval = 0 \/ nBits b <> limit) ->
    compact_value (nBits b) <= val (powLimit p) /\ exists n q bq, anc st n a = Some q /\ st !! q = Some bq /\
      nBits bq = nBits b /\ (pprev bq = None \/ Z.rem (nHeight bq) interval = 0 \/ nBits b <> limit)).
  { intros Hc. split; [apply (Hp a b Ha)|]. by exists O, a, b. }
  destruct (pprev b) as [q|] eqn:Hq; [|eexists; split; [done|]; apply Hhere; by left].
  unfold rem64. apply Z.eqb_neq in Hi as Hi'. rewrite Hi'. cbn [res_bind].
  destruct (_ && _) eqn:E; bool_hyps.
  - destruct (wf_parent st Hst a b q Ha Hq) as (bq & Hbq & Hh).
    destruct (IH q bq Hbq) as (c & Hc & Hle & n & x & bx & Hx1 & Hx2); [lia|].
    exists c. split_and!; [done|done|]. exists (S n), x, bx. split; [|exact Hx2].
    simpl. unfold parent. rewrite Ha. simpl. by rewrite Hq.
  - eexists; split; [done|]. apply Hhere. apply andb_false_iff in E as [E|E]; bool_hyps; auto.
Qed.

(** The retargeting step: within the parameters it is meant for, the next
    target is min(limit, target * clamp(timespan) / nominal timespan) rounded to
    its compact form, with no intermediate overflow of 256 bits although the
    multiplication is by a truncated 32-bit factor. *)
Theorem CalculateNextWorkRequired_correct b first p :
  params_ok p -> fPowNoRetargeting p = false -> in_u 32 (nBits b) -> in_u 32 (nTime b) -> in_u 32 first ->
  compact_value (nBits b) <= val (powLimit p) ->
  exists c, CalculateNextWorkRequired b first p = Ok c /\
    compact_value c = compact_round (retarget p (compact_value (nBits b)) (nTime b - first)) /\
    compact_value c <= val (powLimit p).
Proof.
  intros Hp Hn Hb Ht Hf Hle. destruct (CalculateNextWorkRequired_spec b first p Hp Hn Hb Ht Hf Hle) as [-> Hr].
  eexists; split; [done|]. rewrite compact_value_of by done. split; [done|].
  pose proof (compact_round_le _ (proj1 Hr)). unfold retarget in *. lia.
Qed.

Lemma GetNextWorkRequired_spec st p last b pblock :
  wf_store st -> params_ok p -> targets_ok p st -> st !! last = Some b ->
  let interval := nPowTargetTimespan p / nPowTargetSpacing p in
  exists c, GetNextWorkRequired st (Some last) pblock p = Ok c /\ compact_value c <= val (powLimit p) /\
    ((nHeight b + 1) mod interval <> 0 -> fPowAllowMinDifficultyBlocks p = false -> c = nBits b) /\
    ((nHeight b + 1) mod interval = 0 -> fPowNoRetargeting p = false ->
     exists f bf, anc st (Z.to_nat (interval - 1)) last = Some f /\ st !! f = Some bf /\
       c = compact_of (retarget p (compact_value (nBits b)) (nTime b - nTime bf))).
Proof.
  intros Hst Hp Hbits Hl interval. pose proof (wf_height st Hst last b Hl) as Hh.
  destruct (limit_compact p (ok_limit p Hp)) as [Hlc Hlv]. destruct (Hbits last b Hl) as (Hb32 & Ht32 & Hble).
  destruct (ok_spacing p Hp) as [Hs1 Hs2].
  assert (Hi : 1 <= interval) by (apply Z.div_le_lower_bound; lia).
  unfold GetNextWorkRequired, UintToArith256. rewrite Hlc. cbn [compact_or_assert res_bind].
  rewrite (deref_Some _ _ _ Hl). cbn [res_bind]. unfold DifficultyAdjustmentInterval.
  replace (nPowTargetSpacing p =? 0) with false by (symmetry; apply Z.eqb_neq; lia). cbn [res_bind].
  rewrite Z.quot_div_nonneg by lia. fold interval. rewrite (swrap_small 32 (nHeight b + 1)) by (unfold in_s; lia).
  unfold rem64 at 1. replace (interval =? 0) with false by (symmetry; apply Z.eqb_neq; lia). cbn [res_bind].
  rewrite Z.rem_mod_nonneg by lia. destruct (_ =? 0) eqn:E; bool_hyps; cbn [negb].
  - assert (interval <= nHeight b + 1) by (apply Z.divide_pos_le; [lia|]; apply Z.mod_divide; lia).
    rewrite swrap_small by (unfold in_s; lia).
    replace (nHeight b - (interval - 1) <? 0) with false by (symmetry; apply Z.ltb_ge; lia).
    destruct (GetAncestor_Some st Hst last b (nHeight b - (interval - 1)) Hl) as (f & bf & -> & Hanc & Hbf & _); [lia|].
    cbn [res_bind]. rewrite (deref_Some _ _ _ Hbf). cbn [res_bind]. destruct (Hbits f bf Hbf) as (_ & Htf & _).
    unfold GetBlockTime. destruct (fPowNoRetargeting p) eqn:En.
    + exists (nBits b). unfold CalculateNextWorkRequired. rewrite En. by split_and!.
    + destruct (CalculateNextWorkRequired_spec b (nTime bf) p Hp En Hb32 Ht32 Htf Hble) as [-> Hr].
      eexists. split; [done|]. split; [|split; [done|]].
      * rewrite compact_value_of by done. pose proof (compact_round_le _ (proj1 Hr)). unfold retarget in *. lia.
      * intros _ _. exists f, bf. split_and!; [|done|done]. rewrite <- Hanc. f_equal. lia.
  - destruct (fPowAllowMinDifficultyBlocks p).
    + case_bool; [eexists; by split_and!|].
      destruct (last_regular_spec st p interval (compact_of (val (powLimit p))) (Z.to_nat (nHeight b) + 1) last b)
        as (c & -> & Hc & _); [done|done|lia|done|lia|]. exists c. by split_and!.
    + eexists. by split_and!.
Qed.


(** C30: as written, [CheckProofOfWork] does not check the work: it accepts
    exactly when the claimed bits denote a positive target within the limit,
    for every hash, also one far above the target. *)
Theorem CheckProofOfWork_ignores_hash hash nBits p :
  wf256 (powLimit p) -> in_u 32 nBits ->
  CheckProofOfWork hash nBits p = (0 <? target_of nBits) && (target_of nBits <=? val (powLimit p)).
Proof.
  intros Hl Hn. pose proof (SetCompact_target nBits Hn) as H. unfold CheckProofOfWork, UintToArith256.
  destruct (SetCompact nBits) as [[bn neg] ovf]. destruct H as (Hw & Ht & Hv).
  replace (neg || EqualTo WIDTH256 bn 0 || ovf) with (target_of nBits =? 0)
    by (rewrite <- Ht; destruct neg, ovf, (EqualTo WIDTH256 bn 0); done).
  destruct (relops_spec WIDTH256 bn (powLimit p) Hw Hl) as (-> & _).
  assert (Hpos : 0 <= target_of nBits).
  { unfold target_of. case_bool; [done|]. destruct (compact_fields nBits Hn) as (_ & _ & ? & ?).
    unfold compact_value. case_bool; bool_hyps; [apply Z.div_pos; lia|apply Z.mul_nonneg_nonneg; lia]. }
  destruct (target_of nBits =? 0) eqn:E; bool_hyps; cbn [orb].
  - by rewrite E.
  - rewrite (Hv E). replace (0 <? target_of nBits) with true by (symmetry; apply Z.ltb_lt; lia).
    rewrite andb_true_l, Z.leb_antisym. destruct (val (powLimit p) <? target_of nBits); [done|]. by case_bool.
Qed.

(** Small parameters for the examples. *)
Definition demo_params : Params := {|
  hashGenesisBlock := base_uint_zero 8; nSubsidyHalvingInterval := 210000; BIP34Height := 0;
  BIP34Hash := base_uint_zero 8; BIP65Height := 0; BIP66Height := 0; nRuleChangeActivationThreshold := 3;
  nMinerConfirmationWindow := 4;
  vDeployments := fun _ => {| bit := 28; nStartTime := 15; nTimeout := 1000 |};
  powLimit := replicate 7 0xffffffff ++ [0]; fPowAllowMinDifficultyBlocks := false; fPowNoRetargeting := false;
  nPowTargetSpacing := 10; nPowTargetTimespan := 40; nMinimumChainWork := base_uint_zero 8;
  defaultAssumeValid := base_uint_zero 8 |}.

Lemma demo_params_ok : params_ok demo_params.
Proof. split; try (split; [done|]; repeat constructor; done). vm_compute. done. Qed.

Definition demo_bits (b : CBlockIndex) : CBlockIndex :=
  {| phashBlock := phashBlock b; pprev := pprev b; pskip := pskip b; nHeight := nHeight b;
  nFile := nFile b; nDataPos := nDataPos b; nUndoPos := nUndoPos b; nChainWork := nChainWork b;
  nTx := nTx b; nChainTx := nChainTx b; nStatus := nStatus b; nVersion := nVersion b;
  hashMerkleRoot := hashMerkleRoot b; nTime := nTime b; nBits := 0x1c00ffff; nNonce := nNonce b;
  nSequenceId := nSequenceId b; nTimeMax := nTimeMax b |}.
Definition demo_pow : store := demo_bits <$> demo.
Lemma demo_pow_wf : wf_store demo_pow.
Proof. apply (bool_decide_unpack _). vm_compute. done. Qed.
Lemma demo_pow_targets : targets_ok demo_params demo_pow.
Proof. apply (bool_decide_unpack _). vm_compute. done. Qed.

Lemma CalculateNextWorkRequired_correct_witness :
  exists c, CalculateNextWorkRequired (demo_bits (demo_entry None None 3 40)) 10 demo_params = Ok c /\
    compact_value c = compact_round (retarget demo_params (compact_value 0x1c00ffff) (40 - 10)) /\
    compact_value c <= val (powLimit demo_params).
Proof.
  apply (CalculateNextWorkRequired_correct (demo_bits (demo_entry None None 3 40)) 10 demo_params demo_params_ok);
    [done|done|done|done|]. apply (bool_decide_unpack _). vm_compute. done.
Defined.


Lemma CheckProofOfWork_ignores_hash_witness :
  CheckProofOfWork (replicate 8 0xffffffff) 0x1c00ffff demo_params =
    (0 <? target_of 0x1c00ffff) && (target_of 0x1c00ffff <=? val (powLimit demo_params)).
Proof. apply (CheckProofOfWork_ignores_hash (replicate 8 0xffffffff)); [apply demo_params_ok|done]. Defined.
