(* ===== verification/VersionBits.v ===== *)
(** Version bits (BIP 9): src/sige/src/versionbits.h and versionbits.cpp.

    The state of a deployment is a function of the block tree; the code computes
    it with a cache indexed by the last block of the previous period and stops
    early at blocks before the start time.  [spec] is the function, and the
    theorems show that the code computes it and keeps its cache right. *)

From S2P Require Import Prelude Bytes BaseUint UintBytes Uint256 Serialize Codec Header Chain ChainSpec Pow.
Import BlockIndex Consensus.

Definition VERSIONBITS_LAST_OLD_BLOCK_VERSION : Z := 4.
Definition VERSIONBITS_TOP_BITS : Z := i32 0x20000000.
Definition VERSIONBITS_TOP_MASK : Z := i32 0xE0000000.
Definition VERSIONBITS_NUM_BITS : Z := 29.

Inductive ThresholdState :=
| THRESHOLD_DEFINED
| THRESHOLD_STARTED
| THRESHOLD_LOCKED_IN
| THRESHOLD_ACTIVE
| THRESHOLD_FAILED.

#[export] Instance ThresholdState_eq_dec : EqDecision ThresholdState.
Proof. solve_decision. Defined.

Abbreviation ThresholdConditionCache := (gmap ptr ThresholdState).

(** The virtual methods of [AbstractThresholdConditionChecker], for the
    parameters at hand. *)
Class ConditionChecker := {
  Condition : CBlockIndex -> bool;
  BeginTime : Z;
  EndTime : Z;
  Period : Z;
  Threshold : Z;
}.

Section checker.
Context `{ConditionChecker} (st : store).

(** The counting loop: [Condition] of [n] blocks from [pindexCount] back. *)
Fixpoint count_conditions (n : nat) (pindexCount : ptr) (count : Z) : res Z :=
  match n with
  | O => Ok count
  | S n =>
      let? b := deref st pindexCount in
      count_conditions n (pprev b) (if Condition b then count + 1 else count)
  end.

(** One turn of the forward walk. *)
Definition next_state (state : ThresholdState) (pindexPrev : nat) : res ThresholdState :=
  match state with
  | THRESHOLD_DEFINED =>
      let? t := GetMedianTimePast st pindexPrev in
      if EndTime <=? t then Ok THRESHOLD_FAILED
      else if BeginTime <=? t then Ok THRESHOLD_STARTED
      else Ok state
  | THRESHOLD_STARTED =>
      let? t := GetMedianTimePast st pindexPrev in
      if EndTime <=? t then Ok THRESHOLD_FAILED
      else
        let? count := count_conditions (Z.to_nat Period) (Some pindexPrev) 0 in
        if Threshold <=? count then Ok THRESHOLD_LOCKED_IN else Ok state
  | THRESHOLD_LOCKED_IN => Ok THRESHOLD_ACTIVE
  | THRESHOLD_FAILED | THRESHOLD_ACTIVE => Ok state
  end.

(** The backward walk: where it stops, the cache, and [vToCompute] with its
    back first. *)
Fixpoint walk_back (fuel : nat) (pindexPrev : ptr) (cache : ThresholdConditionCache) (vToCompute : list nat) :
    res (ptr * ThresholdConditionCache * list nat) :=
  match fuel with
  | O => OutOfFuel
  | S fuel =>
      match cache !! pindexPrev with
      | Some _ => Ok (pindexPrev, cache, vToCompute)
      | None =>
          match pindexPrev with
          | None => Ok (pindexPrev, <[pindexPrev := THRESHOLD_DEFINED]> cache, vToCompute)
          | Some a =>
              let? t := GetMedianTimePast st a in
              if t <? BeginTime
              then Ok (pindexPrev, <[pindexPrev := THRESHOLD_DEFINED]> cache, vToCompute)
              else
                let? b := deref st pindexPrev in
                let? p := GetAncestor st a (i32 (nHeight b - Period)) in
                walk_back fuel p cache (a :: vToCompute)
          end
      end
  end.

Fixpoint walk_forward (vToCompute : list nat) (state : ThresholdState) (cache : ThresholdConditionCache) :
    res (ThresholdState * ThresholdConditionCache) :=
  match vToCompute with
  | [] => Ok (state, cache)
  | a :: vToCompute =>
      let? stateNext := next_state state a in
      walk_forward vToCompute stateNext (<[Some a := stateNext]> cache)
  end.

(** The last block of the previous period; [%] by zero is undefined. *)
Definition period_parent (a : nat) : res ptr :=
  let? b := deref st (Some a) in
  let? r := rem64 (i32 (nHeight b + 1)) Period in
  GetAncestor st a (i32 (nHeight b - r)).

Definition GetStateFor (pindexPrev : ptr) (cache : ThresholdConditionCache) :
    res (ThresholdState * ThresholdConditionCache) :=
  let? pindexPrev := match pindexPrev with Some a => period_parent a | None => Ok None end in
  let? fuel := match pindexPrev with
    | Some a => let? b := deref st (Some a) in Ok (Z.to_nat (nHeight b) + 3)%nat
    | None => Ok 2%nat end in
  let? (pindexPrev, cache, vToCompute) := walk_back fuel pindexPrev cache [] in
  match cache !! pindexPrev with
  | None => AssertFail
  | Some state => walk_forward vToCompute state cache
  end.

Fixpoint since_loop (fuel : nat) (initialState : ThresholdState) (pindexPrev : nat) (previousPeriodParent : ptr)
    (cache : ThresholdConditionCache) : res (nat * ThresholdConditionCache) :=
  match fuel with
  | O => OutOfFuel
  | S fuel =>
      match previousPeriodParent with
      | None => Ok (pindexPrev, cache)
      | Some q =>
          let? (s, cache) := GetStateFor (Some q) cache in
          if bool_decide (s = initialState) then
            let? b := deref st (Some q) in
            let? p := GetAncestor st q (i32 (nHeight b - Period)) in
            since_loop fuel initialState q p cache
          else Ok (pindexPrev, cache)
      end
  end.

Definition GetStateSinceHeightFor (pindexPrev : ptr) (cache : ThresholdConditionCache) :
    res (Z * ThresholdConditionCache) :=
  let? (initialState, cache) := GetStateFor pindexPrev cache in
  if bool_decide (initialState = THRESHOLD_DEFINED) then Ok (0, cache)
  else
    match pindexPrev with
    | None => Undef
    | Some a =>
        let? p := period_parent a in
        match p with
        | None => Undef
        | Some p =>
            let? b := deref st (Some p) in
            let? previousPeriodParent := GetAncestor st p (i32 (nHeight b - Period)) in
            let? (p, cache) := since_loop (Z.to_nat (nHeight b) + 2) initialState p previousPeriodParent cache in
            let? b := deref st (Some p) in
            Ok (i32 (nHeight b + 1), cache)
        end
    end.
End checker.

(** ** [VersionBitsConditionChecker] *)

Definition Mask (params : Params) (id : DeploymentPos) : Z := u32 (Z.shiftl 1 (bit (vDeployments params id))).

Definition VersionBitsConditionChecker (params : Params) (id : DeploymentPos) : ConditionChecker := {|
  BeginTime := nStartTime (vDeployments params id);
  EndTime := nTimeout (vDeployments params id);
  Period := i32 (nMinerConfirmationWindow params);
  Threshold := i32 (nRuleChangeActivationThreshold params);
  Condition pindex :=
    (Z.land (Chain.nVersion pindex) VERSIONBITS_TOP_MASK =? VERSIONBITS_TOP_BITS) &&
    negb (Z.land (u32 (Chain.nVersion pindex)) (Mask params id) =? 0);
|}.

Record VersionBitsCache := { caches : DeploymentPos -> ThresholdConditionCache }.
Definition Clear (cache : VersionBitsCache) : VersionBitsCache := {| caches := fun _ => ∅ |}.

#[export] Instance DeploymentPos_eq_dec : EqDecision DeploymentPos.
Proof. solve_decision. Defined.

Definition set_cache (cache : VersionBitsCache) (pos : DeploymentPos) (c : ThresholdConditionCache) : VersionBitsCache :=
  {| caches := fun d => if decide (d = pos) then c else caches cache d |}.

Definition VersionBitsState (st : store) (pindexPrev : ptr) (params : Params) (pos : DeploymentPos)
    (cache : VersionBitsCache) : res (ThresholdState * VersionBitsCache) :=
  let? (s, c) := @GetStateFor (VersionBitsConditionChecker params pos) st pindexPrev (caches cache pos) in
  Ok (s, set_cache cache pos c).
Definition VersionBitsStateSinceHeight (st : store) (pindexPrev : ptr) (params : Params) (pos : DeploymentPos)
    (cache : VersionBitsCache) : res (Z * VersionBitsCache) :=
  let? (h, c) := @GetStateSinceHeightFor (VersionBitsConditionChecker params pos) st pindexPrev (caches cache pos) in
  Ok (h, set_cache cache pos c).
Definition VersionBitsMask (params : Params) (pos : DeploymentPos) : Z := Mask params pos.

(** ** The state as a function of the tree *)

Section spec.
Context `{ConditionChecker} (st : store).

Definition mtp (a : nat) : Z := match GetMedianTimePast st a with Ok t => t | _ => 0 end.
Definition next_pure (s : ThresholdState) (a : nat) : ThresholdState :=
  match next_state st s a with Ok s' => s' | _ => s end.
Definition P : nat := Z.to_nat Period.

(** The state after [k] whole periods, the last of them ending at [p]. *)
Fixpoint spec (k : nat) (p : ptr) : ThresholdState :=
  match k, p with
  | S k, Some a => next_pure (spec k (anc st P a)) a
  | _, _ => THRESHOLD_DEFINED
  end.

(** [p] ends [k] whole periods. *)
Definition ends (p : ptr) (k : nat) : Prop :=
  match p with
  | None => k = O
  | Some a => (0 < k)%nat /\ exists b, st !! a = Some b /\ nHeight b + 1 = Z.of_nat k * Period
  end.

Definition cache_ok (c : ThresholdConditionCache) : Prop :=
  map_Forall (fun p s => exists k, ends p k /\ s = spec k p) c.

(** The rules under which the tree was built, and a sane deployment. *)
Record deployment_ok : Prop := {
  ok_store : wf_store st;
  ok_times : forall a b q, st !! a = Some b -> pprev b = Some q -> mtp q < nTime b;
  ok_period : 0 < Period < 2 ^ 31;
  ok_window : BeginTime <= EndTime;
}.

Context (Hd : deployment_ok).

Lemma mtp_spec a b : st !! a = Some b -> GetMedianTimePast st a = Ok (mtp a).
Proof.
  intros Ha. unfold mtp. destruct (GetMedianTimePast_spec st (ok_store Hd) a b Ha) as (m & -> & _). done.
Qed.

Lemma mtp_anc n a b q : st !! a = Some b -> anc st n a = Some q -> mtp q <= mtp a.
Proof.
  revert a b; induction n as [|n IH]; intros a b Ha Hq; simpl in Hq; [simplify_eq; lia|].
  unfold parent in Hq. rewrite Ha in Hq. simpl in Hq. destruct (pprev b) as [r|] eqn:Hr; [|done]. simpl in Hq.
  destruct (wf_parent st (ok_store Hd) a b r Ha Hr) as (br & Hbr & _).
  pose proof (IH r br Hbr Hq). pose proof (ok_times Hd a b r Ha Hr) as Ht.
  pose proof (median_monotone st (ok_store Hd) a b r _ _ Ha Hr (mtp_spec r br Hbr) (mtp_spec a b Ha) Ht). lia.
Qed.

Lemma count_total n a b k : st !! a = Some b -> Z.of_nat n <= nHeight b + 1 ->
  exists c, count_conditions st n (Some a) k = Ok c.
Proof.
  revert a b k; induction n as [|n IH]; intros a b k Ha Hn; cbn [count_conditions]; [by eexists|].
  rewrite (deref_Some _ _ _ Ha). cbn [res_bind]. destruct (pprev b) as [q|] eqn:Hq.
  - destruct (wf_parent st (ok_store Hd) a b q Ha Hq) as (bq & Hbq & Hh). eapply IH; [done|lia].
  - destruct (ok_store Hd a b Ha) as (_ & H2 & _). rewrite Hq in H2. destruct n; [by eexists|lia].
Qed.

Lemma next_total s a k : ends (Some a) k -> next_state st s a = Ok (next_pure s a).
Proof.
  intros [Hk (b & Ha & Hh)]. unfold next_pure. destruct (ok_period Hd).
  enough (exists s', next_state st s a = Ok s') as [s' ->] by done.
  unfold next_state. destruct (count_total (Z.to_nat Period) a b 0 Ha) as [c Hc]; [nia|].
  destruct s; rewrite ?(mtp_spec a b Ha), ?Hc; cbn [res_bind]; repeat case_bool; by eexists.
Qed.

(** The predecessor at the end of the previous period. *)
Lemma prev_period a k b : st !! a = Some b -> nHeight b + 1 = Z.of_nat (S k) * Period ->
  GetAncestor st a (i32 (nHeight b - Period)) = Ok (anc st P a) /\ ends (anc st P a) k.
Proof.
  intros Ha Hh. pose proof (wf_height st (ok_store Hd) a b Ha) as Hr. destruct (ok_period Hd) as [HP HP'].
  rewrite swrap_small by (unfold in_s; nia). rewrite (GetAncestor_spec st (ok_store Hd) a b _ Ha).
  replace (nHeight b - Period <=? nHeight b) with true by (symmetry; apply Z.leb_le; lia). rewrite andb_true_r.
  replace (Z.to_nat (nHeight b - (nHeight b - Period))) with P by (unfold P; lia).
  destruct (0 <=? _) eqn:E; bool_hyps.
  - split; [done|]. destruct (anc_height st (ok_store Hd) P a b Ha) as (q & bq & Hq & Hbq & Hhq); [unfold P; lia|].
    rewrite Hq. simpl. unfold P in Hhq. split; [nia|]. exists bq. split; [done|]. nia.
  - assert (k = O) as -> by nia. destruct (anc st P a) as [q|] eqn:Hq; [|done].
    destruct (anc_Some st (ok_store Hd) P a b q Ha Hq) as [Hle _]. unfold P in Hle. nia.
Qed.

(** Before the start time every state is DEFINED: the early stop is right. *)
Lemma spec_early k : forall a, ends (Some a) k -> mtp a < BeginTime -> spec k (Some a) = THRESHOLD_DEFINED.
Proof.
  induction k as [|k IH]; intros a Ha Ht; [done|]. cbn [spec].
  pose proof Ha as (_ & b & Hb & Hh). destruct (prev_period a k b Hb Hh) as [_ He].
  assert (spec k (anc st P a) = THRESHOLD_DEFINED) as ->.
  { destruct (anc st P a) as [q|] eqn:Hq; [|by destruct k]. apply IH; [done|].
    pose proof (mtp_anc P a b q Hb Hq). lia. }
  unfold next_pure, next_state. rewrite (mtp_spec a b Hb). cbn [res_bind]. pose proof (ok_window Hd).
  replace (EndTime <=? mtp a) with false by (symmetry; apply Z.leb_gt; lia).
  by replace (BeginTime <=? mtp a) with false by (symmetry; apply Z.leb_gt; lia).
Qed.

(** Blocks still to compute, each a period after the one before. *)
Fixpoint stacked (k : nat) (p : ptr) (v : list nat) : Prop :=
  match v with
  | [] => True
  | a :: v => ends (Some a) (S k) /\ anc st P a = p /\ stacked (S k) (Some a) v
  end.
Definition top (p : ptr) (v : list nat) : ptr := match last v with Some a => Some a | None => p end.

Lemma top_cons p a v : top p (a :: v) = top (Some a) v.
Proof. unfold top. rewrite last_cons. by destruct (last v). Qed.

Lemma walk_forward_spec v : forall k p c, stacked k p v -> cache_ok c ->
  exists c', walk_forward st v (spec k p) c = Ok (spec (k + length v) (top p v), c') /\ cache_ok c'.
Proof.
  induction v as [|a v IH]; intros k p c Hv Hc; cbn [walk_forward length].
  - rewrite Nat.add_0_r. by exists c.
  - destruct Hv as (Ha & Hp & Hv). rewrite (next_total _ a _ Ha). cbn [res_bind].
    assert (Hn : next_pure (spec k p) a = spec (S k) (Some a)) by (cbn [spec]; by rewrite Hp).
    rewrite Hn, top_cons, <- Nat.add_succ_comm. apply IH; [done|].
    apply map_Forall_insert_2; [by exists (S k)|done].
Qed.

Lemma walk_back_spec fuel : forall k p c v, ends p k -> (k + 1 < fuel)%nat -> cache_ok c -> stacked k p v ->
  exists k' p' c' v', walk_back st fuel p c v = Ok (p', c', v') /\ stacked k' p' v' /\ cache_ok c' /\
    c' !! p' = Some (spec k' p') /\ (k' + length v' = k + length v)%nat /\ top p' v' = top p v.
Proof.
  induction fuel as [|fuel IH]; intros k p c v He Hf Hc Hv; [lia|]. cbn [walk_back].
  destruct (c !! p) as [s|] eqn:E.
  - exists k, p, c, v. destruct (Hc p s E) as (k2 & He2 & ->). split_and!; try done. rewrite E.
    enough (k2 = k) by congruence. destruct p as [a|]; simpl in *; [|congruence].
    destruct He as (_ & b & Hb & Hh), He2 as (_ & b2 & Hb2 & Hh2). simplify_eq. destruct (ok_period Hd). nia.
  - assert (Hstop : (match p with Some a => mtp a < BeginTime | None => True end) ->
      exists k' p' c' v', Ok (p, <[p := THRESHOLD_DEFINED]> c, v) = Ok (p', c', v') /\ stacked k' p' v' /\ cache_ok c' /\
        c' !! p' = Some (spec k' p') /\ (k' + length v' = k + length v)%nat /\ top p' v' = top p v).
    { intros Ht. assert (Hs : spec k p = THRESHOLD_DEFINED).
      { destruct p as [a|]; [by apply spec_early|]. by destruct k. }
      exists k, p, (<[p := THRESHOLD_DEFINED]> c), v. split_and!; try done.
      - apply map_Forall_insert_2; [by exists k|done].
      - by rewrite lookup_insert_eq, Hs. }
    destruct p as [a|]; [|by apply Hstop].
    pose proof He as (Hk & b & Hb & Hh). rewrite (mtp_spec a b Hb). cbn [res_bind]. case_bool; bool_hyps.
    + by apply Hstop.
    + rewrite (deref_Some _ _ _ Hb). cbn [res_bind]. destruct k as [|k]; [lia|].
      destruct (prev_period a k b Hb Hh) as [-> He']. cbn [res_bind].
      destruct (IH k (anc st P a) c (a :: v) He') as (k' & p' & c' & v' & H1 & H2 & H3 & H4 & H5 & H6); [lia|done|done|].
      exists k', p', c', v'. split_and!; try done; [cbn [length] in H5; lia|]. by rewrite H6, top_cons.
Qed.

Lemma period_parent_spec a b : st !! a = Some b ->
  exists p, period_parent st a = Ok p /\ ends p (Z.to_nat ((nHeight b + 1) / Period)) /\
    p = (if nHeight b + 1 <? Period then None else anc st (Z.to_nat ((nHeight b + 1) mod Period)) a).
Proof.
  intros Ha. unfold period_parent. rewrite (deref_Some _ _ _ Ha). cbn [res_bind].
  pose proof (wf_height st (ok_store Hd) a b Ha) as Hr. destruct (ok_period Hd) as [HP HP'].
  rewrite (swrap_small 32 (nHeight b + 1)) by (unfold in_s; lia). unfold rem64.
  replace (Period =? 0) with false by (symmetry; apply Z.eqb_neq; lia). cbn [res_bind].
  rewrite Z.rem_mod_nonneg by lia. pose proof (Z.mod_pos_bound (nHeight b + 1) Period HP).
  assert (HP0 : Period <> 0) by lia. assert (Hb1 : 0 <= nHeight b + 1) by lia.
  pose proof (Z.div_mod (nHeight b + 1) Period HP0). pose proof (Z.div_pos (nHeight b + 1) Period Hb1 HP).
  set (r := (nHeight b + 1) mod Period) in *. set (k := (nHeight b + 1) / Period) in *.
  rewrite swrap_small by (unfold in_s; lia). rewrite (GetAncestor_spec st (ok_store Hd) a b _ Ha).
  replace (nHeight b - r <=? nHeight b) with true by (symmetry; apply Z.leb_le; lia). rewrite andb_true_r.
  replace (nHeight b - (nHeight b - r)) with r by lia. eexists; split; [done|].
  destruct (nHeight b + 1 <? Period) eqn:E; bool_hyps.
  - assert (Hk0 : k = 0) by nia. replace (0 <=? nHeight b - r) with false by (symmetry; apply Z.leb_gt; lia).
    by rewrite Hk0.
  - assert (1 <= k) by nia. replace (0 <=? nHeight b - r) with true by (symmetry; apply Z.leb_le; nia). split; [|done].
    destruct (anc_height st (ok_store Hd) (Z.to_nat r) a b Ha) as (q & bq & -> & Hbq & Hhq); [nia|].
    split; [lia|]. exists bq. split; [done|]. rewrite Z2Nat.id by lia. nia.
Qed.

(** The states around a block: [GetStateFor] computes [spec]. *)
Lemma GetStateFor_spec a b c : st !! a = Some b -> cache_ok c ->
  exists p c', period_parent st a = Ok p /\ ends p (Z.to_nat ((nHeight b + 1) / Period)) /\
    GetStateFor st (Some a) c = Ok (spec (Z.to_nat ((nHeight b + 1) / Period)) p, c') /\ cache_ok c'.
Proof.
  intros Ha Hc. destruct (period_parent_spec a b Ha) as (p & Hp & He & _). set (k := Z.to_nat _) in *.
  unfold GetStateFor. rewrite Hp. cbn [res_bind].
  assert (exists fuel, (match p with Some a => let? b := deref st (Some a) in Ok (Z.to_nat (nHeight b) + 3)%nat
    | None => Ok 2%nat end) = Ok fuel /\ (k + 1 < fuel)%nat) as (fuel & -> & Hf).
  { destruct p as [q|]; [|exists 2%nat; simpl in He; rewrite He; split; [done|lia]].
    destruct He as (_ & bq & Hbq & Hh). rewrite (deref_Some _ _ _ Hbq). eexists; split; [done|].
    destruct (ok_period Hd). nia. }
  cbn [res_bind]. destruct (walk_back_spec fuel k p c [] He Hf Hc I) as (k' & p' & c1 & v & -> & Hv & Hc1 & E & Hk & Ht).
  cbn [res_bind]. rewrite E. destruct (walk_forward_spec v k' p' c1 Hv Hc1) as (c' & -> & Hc').
  exists p, c'. rewrite Hk, Ht, Nat.add_0_r. done.
Qed.
End spec.

(** ** The state machine *)

(** The transitions of BIP 9, from one period to the next. *)
Inductive bip9_step : ThresholdState -> ThresholdState -> Prop :=
| step_wait : bip9_step THRESHOLD_DEFINED THRESHOLD_DEFINED
| step_start : bip9_step THRESHOLD_DEFINED THRESHOLD_STARTED
| step_expire : bip9_step THRESHOLD_DEFINED THRESHOLD_FAILED
| step_signal : bip9_step THRESHOLD_STARTED THRESHOLD_STARTED
| step_lock : bip9_step THRESHOLD_STARTED THRESHOLD_LOCKED_IN
| step_fail : bip9_step THRESHOLD_STARTED THRESHOLD_FAILED
| step_activate : bip9_step THRESHOLD_LOCKED_IN THRESHOLD_ACTIVE
| step_active : bip9_step THRESHOLD_ACTIVE THRESHOLD_ACTIVE
| step_failed : bip9_step THRESHOLD_FAILED THRESHOLD_FAILED.

Section machine.
Context `{ConditionChecker} (st : store) (Hd : deployment_ok st).

Lemma next_pure_step s a k : ends st (Some a) k -> bip9_step s (next_pure st s a).
Proof.
  intros He. pose proof (next_total st Hd s a k He) as Hn. unfold next_state in Hn.
  destruct He as (_ & b & Hb & _). rewrite (mtp_spec st Hd a b Hb) in Hn. cbn [res_bind] in Hn.
  revert Hn. generalize (next_pure st s a). intros s' Hn. destruct s; cbn [res_bind] in Hn.
  - repeat case_bool_in Hn; simplify_eq; constructor.
  - case_bool_in Hn; [simplify_eq; constructor|]. apply res_bind_Ok in Hn as (c & _ & Hn).
    case_bool_in Hn; simplify_eq; constructor.
  - simplify_eq; constructor.
  - simplify_eq; constructor.
  - simplify_eq; constructor.
Qed.

Lemma spec_step k a : ends st (Some a) (S k) -> bip9_step (spec st k (anc st (P) a)) (spec st (S k) (Some a)).
Proof. intros He. by eapply next_pure_step. Qed.

Lemma since_loop_spec s fuel : forall q i c, s <> THRESHOLD_DEFINED -> ends st (Some q) (S i) -> (i + 1 < fuel)%nat ->
  cache_ok st c -> spec st (S i) (Some q) = s ->
  exists q' c' m, since_loop st fuel s q (anc st P q) c = Ok (q', c') /\ cache_ok st c' /\ (m <= i)%nat /\
    anc st (m * P) q = Some q' /\ ends st (Some q') (S (i - m)) /\
    (forall d, (d <= m)%nat -> spec st (S i - d) (anc st (d * P) q) = s) /\
    spec st (i - m) (anc st (S m * P) q) <> s.
Proof.
  induction fuel as [|fuel IH]; intros q i c Hs He Hf Hc Hq; [lia|]. cbn [since_loop].
  pose proof He as (_ & b & Hb & Hh). destruct (prev_period st Hd q i b Hb Hh) as [_ Hp].
  assert (Hstop : spec st i (anc st P q) <> s -> forall c', cache_ok st c' ->
    exists q' c1 m, Ok (q, c') = Ok (q', c1) /\ cache_ok st c1 /\ (m <= i)%nat /\
      anc st (m * P) q = Some q' /\ ends st (Some q') (S (i - m)) /\
      (forall d, (d <= m)%nat -> spec st (S i - d) (anc st (d * P) q) = s) /\
      spec st (i - m) (anc st (S m * P) q) <> s).
  { intros Hne c' Hc'. exists q, c', O. rewrite Nat.sub_0_r, Nat.mul_1_l. split_and!; try done; [lia|].
    intros d Hd0. by assert (d = O) as -> by lia. }
  destruct (anc st P q) as [r|] eqn:Er.
  - pose proof Hp as (Hi & br & Hbr & Hhr).
    destruct (GetStateFor_spec st Hd r br c Hbr Hc) as (p2 & c2 & Hpp & _ & -> & Hc2). cbn [res_bind].
    destruct (ok_period st Hd) as [HP HP'].
    assert (Hk : (nHeight br + 1) / Period = Z.of_nat i) by (rewrite Hhr; apply Z.div_mul; lia).
    destruct (period_parent_spec st Hd r br Hbr) as (p3 & Hp3 & _ & Hp3e). rewrite Hp3 in Hpp. injection Hpp as <-.
    replace (nHeight br + 1 <? Period) with false in Hp3e by (symmetry; apply Z.ltb_ge; nia).
    rewrite Hhr, Z.mod_mul in Hp3e by lia. simpl in Hp3e. subst p3. rewrite Hk, Nat2Z.id.
    case_bool_decide as Hsr.
    + rewrite (deref_Some _ _ _ Hbr). cbn [res_bind]. destruct i as [|i]; [lia|].
      destruct (prev_period st Hd r i br Hbr Hhr) as [-> _]. cbn [res_bind].
      destruct (IH r i c2 Hs Hp) as (q' & c' & m & H1 & H2 & H3 & H4 & H5 & H6 & H7); [lia|done|done|].
      exists q', c', (S m). split_and!; [done|done|lia| |by replace (S i - S m)%nat with (i - m)%nat by lia| |].
      * rewrite Nat.mul_succ_l, Nat.add_comm, anc_add, Er. done.
      * intros [|d] Hdm; [by rewrite Nat.sub_0_r|].
        rewrite Nat.mul_succ_l, Nat.add_comm, anc_add, Er. apply (H6 d). lia.
      * rewrite (Nat.mul_succ_l (S m)), Nat.add_comm, anc_add, Er. apply H7.
    + by apply Hstop.
  - apply Hstop; [|done]. by destruct i.
Qed.
End machine.

(** A chain of four blocks with a period of two and the last block signalling. *)
#[local] Instance demo_checker : ConditionChecker := {|
  Condition b := nTime b =? 40; BeginTime := 15; EndTime := 1000; Period := 2; Threshold := 1 |}.
Lemma demo_deployment : deployment_ok demo.
Proof.
  split; [exact demo_wf| |done|done]. intros a b q Ha Hq.
  assert (map_Forall (fun _ b => match pprev b with Some q => mtp demo q < nTime b | None => True end) demo) as Hall.
  { apply map_Forall_to_list. vm_compute. repeat constructor. }
  specialize (Hall a b Ha). cbn beta in Hall. by rewrite Hq in Hall.
Qed.

(** ** Properties *)



(** The deployment moves only along the BIP 9 transitions: from one period
    to the next the computed state takes exactly one step of the machine, so
    ACTIVE and FAILED are final, LOCKED_IN lasts one period, and nothing
    activates without being started and locked in first. *)
Theorem deployment_transitions `{ConditionChecker} st k a :
  deployment_ok st -> ends st (Some a) (S k) ->
  bip9_step (spec st k (anc st P a)) (spec st (S k) (Some a)) /\
  (spec st (S k) (Some a) = THRESHOLD_ACTIVE ->
   spec st k (anc st P a) = THRESHOLD_ACTIVE \/ spec st k (anc st P a) = THRESHOLD_LOCKED_IN).
Proof.
  intros Hd He. pose proof (spec_step st Hd k a He) as Hs. split; [done|]. intros Ha. rewrite Ha in Hs.
  inversion Hs; auto.
Qed.

Lemma deployment_transitions_witness :
  bip9_step (spec demo 1 (anc demo P 3)) (spec demo 2 (Some 3%nat)).
Proof.
  apply (deployment_transitions demo 1 3 demo_deployment). split; [lia|]. eexists; split; [reflexivity|done].
Defined.

(** C14: [GetStateSinceHeightFor] finds where the current state began: it returns
    0 in DEFINED, and otherwise the first height of the earliest period of the
    unbroken run of periods in the current state. *)
Theorem GetStateSinceHeightFor_correct `{ConditionChecker} st a b c :
  deployment_ok st -> st !! a = Some b -> cache_ok st c ->
  let k := Z.to_nat ((nHeight b + 1) / Period) in
  exists p h c', period_parent st a = Ok p /\ GetStateSinceHeightFor st (Some a) c = Ok (h, c') /\ cache_ok st c' /\
    if bool_decide (spec st k p = THRESHOLD_DEFINED) then h = 0
    else exists q m, p = Some q /\ (m < k)%nat /\ h = Z.of_nat (k - m) * Period /\
      (forall d, (d <= m)%nat -> spec st (k - d) (anc st (d * P) q) = spec st k p) /\
      spec st (k - S m) (anc st (S m * P) q) <> spec st k p.
Proof.
  intros Hd Ha Hc k. destruct (GetStateFor_spec st Hd a b c Ha Hc) as (p & c1 & Hp & He & Hg & Hc1). fold k in He, Hg.
  exists p. unfold GetStateSinceHeightFor. rewrite Hg, Hp. cbn [res_bind]. case_bool_decide as Hs.
  - exists 0, c1. by split_and!.
  - destruct p as [q|]; [|by destruct k]. pose proof He as (Hk & bq & Hbq & Hh).
    rewrite (deref_Some _ _ _ Hbq). cbn [res_bind]. destruct k as [|i]; [lia|].
    destruct (prev_period st Hd q i bq Hbq Hh) as [-> _]. cbn [res_bind]. destruct (ok_period st Hd) as [HP HP'].
    destruct (since_loop_spec st Hd (spec st (S i) (Some q)) (Z.to_nat (nHeight bq) + 2) q i c1 Hs He)
      as (q' & c' & m & -> & Hc' & Hm & Hanc & He' & Hall & Hne); [nia|done|done|].
    cbn [res_bind]. destruct He' as (_ & b' & Hb' & Hh'). rewrite (deref_Some _ _ _ Hb'). cbn [res_bind].
    exists (nHeight b' + 1), c'. pose proof (wf_height st (ok_store st Hd) q' b' Hb').
    rewrite swrap_small by (unfold in_s; lia). split_and!; [done|done|done|].
    exists q, m. replace (S i - m)%nat with (S (i - m)) by lia. split_and!; [done|lia|done|done|done].
Qed.

Lemma GetStateSinceHeightFor_correct_witness :
  exists p h c', period_parent demo 3 = Ok p /\ GetStateSinceHeightFor demo (Some 3%nat) ∅ = Ok (h, c') /\ h = 4.
Proof.
  destruct (GetStateSinceHeightFor_correct demo 3 (demo_entry (Some 2%nat) (Some 1%nat) 3 40) ∅
    demo_deployment eq_refl (map_Forall_empty _)) as (p & h & c' & Hp & Hh & _).
  exists p, h, c'. split_and!; [exact Hp|exact Hh|]. vm_compute in Hh. by injection Hh as <- _.
Defined.
