(* ===== verification/TimeData.v ===== *)
(** Network-adjusted time: [CMedianFilter] of src/sige/src/timedata.h and
    [AddTimeData] of timedata.cpp.

    The function's static variables are the state; the addresses of peers are
    any countable type, the command-line bound on the adjustment is an
    argument, and logging is left out. *)

From S2P Require Import Prelude Bytes BaseUint UintBytes Uint256 Serialize Codec Header Chain ChainSpec.

Definition DEFAULT_MAX_TIME_ADJUSTMENT : Z := 70 * 60.
Definition SIGECOIN_TIMEDATA_MAX_SAMPLES : nat := 200.

Module CMedianFilter.
Record t := { vValues : list Z; vSorted : list Z; nSize : nat }.

Definition make (size : nat) (initial_value : Z) : t :=
  {| vValues := [initial_value]; vSorted := [initial_value]; nSize := size |}.

Definition input (value : Z) (f : t) : t :=
  let vValues := if (length (vValues f) =? nSize f)%nat then tail (vValues f) else vValues f in
  let vValues := vValues ++ [value] in
  {| vValues := vValues; vSorted := BlockIndex.std_sort vValues; nSize := nSize f |}.

Definition median (f : t) : res Z :=
  let size := length (vSorted f) in
  if (size =? 0)%nat then AssertFail
  else if Nat.odd size then Ok (vSorted f).[(size / 2)%nat]
  else Ok (Z.quot (i64 ((vSorted f).[(size / 2 - 1)%nat] + (vSorted f).[(size / 2)%nat])) 2).

Definition size (f : t) : nat := length (vValues f).
Definition sorted (f : t) : list Z := vSorted f.
End CMedianFilter.
Import CMedianFilter.

Definition abs64 (n : Z) : Z := if 0 <=? n then n else i64 (- n).

Section timedata.
Context {CNetAddr : Type} `{Countable CNetAddr}.

Record timedata := {
  setKnown : gset CNetAddr;
  vTimeOffsets : CMedianFilter.t;
  nTimeOffset : Z;
  fDone : bool;
  warned : bool;  (* [SetMiscWarning] and the message box were called *)
}.

Definition init : timedata := {|
  setKnown := ∅; vTimeOffsets := make SIGECOIN_TIMEDATA_MAX_SAMPLES 0; nTimeOffset := 0;
  fDone := false; warned := false |}.

Definition GetTimeOffset (s : timedata) : Z := nTimeOffset s.
Definition GetAdjustedTime (GetTime : Z) (s : timedata) : Z := i64 (GetTime + GetTimeOffset s).

(** Some peer is within five minutes of us but not at zero. *)
Definition fMatch (vSorted : list Z) : bool :=
  existsb (fun nOffset => negb (nOffset =? 0) && (abs64 nOffset <? 5 * 60)) vSorted.

Definition AddTimeData (maxtimeadjustment : Z) (ip : CNetAddr) (nOffsetSample : Z) (s : timedata) : res timedata :=
  if (base.size (setKnown s) =? SIGECOIN_TIMEDATA_MAX_SAMPLES)%nat then Ok s
  else if bool_decide (ip ∈ setKnown s) then Ok s
  else
    let known := {[ip]} ∪ setKnown s in
    let offsets := input nOffsetSample (vTimeOffsets s) in
    if (5 <=? CMedianFilter.size offsets)%nat && Nat.odd (CMedianFilter.size offsets) then
      let? nMedian := median offsets in
      let vSorted := sorted offsets in
      if abs64 nMedian <=? Z.max 0 maxtimeadjustment then
        Ok {| setKnown := known; vTimeOffsets := offsets; nTimeOffset := nMedian; fDone := fDone s; warned := warned s |}
      else
        let warn := negb (fDone s) && negb (fMatch vSorted) in
        Ok {| setKnown := known; vTimeOffsets := offsets; nTimeOffset := 0;
              fDone := fDone s || warn; warned := warned s || warn |}
    else Ok {| setKnown := known; vTimeOffsets := offsets; nTimeOffset := nTimeOffset s;
               fDone := fDone s; warned := warned s |}.

(** ** The invariant *)

Record filter_ok (f : CMedianFilter.t) : Prop := {
  ok_sorted : vSorted f = BlockIndex.std_sort (vValues f);
  ok_size : (0 < length (vValues f) <= nSize f)%nat;
  ok_values : Forall (in_s 64) (vValues f);
}.

Record time_ok (maxadj : Z) (s : timedata) : Prop := {
  ok_filter : filter_ok (vTimeOffsets s);
  ok_min : Forall (fun v => - 2 ^ 63 < v) (vValues (vTimeOffsets s));
  ok_cap : nSize (vTimeOffsets s) = SIGECOIN_TIMEDATA_MAX_SAMPLES;
  ok_count : length (vValues (vTimeOffsets s)) =
    Nat.min SIGECOIN_TIMEDATA_MAX_SAMPLES (S (base.size (setKnown s)));
  ok_offset : Z.abs (nTimeOffset s) <= Z.max 0 maxadj;
}.

Lemma input_ok v f : filter_ok f -> in_s 64 v -> filter_ok (input v f) /\
  length (vValues (input v f)) = Nat.min (nSize f) (S (length (vValues f))).
Proof.
  intros [Hs Hl Hv] Hin. unfold input.
  destruct (length (vValues f) =? nSize f)%nat eqn:E; bool_hyps; cbn [vValues vSorted nSize].
  - destruct (vValues f) as [|x l] eqn:El; [simpl in *; lia|]. cbn [tail length] in *.
    rewrite length_app. cbn [length]. apply Forall_cons in Hv as [_ Hv]. split; [|lia].
    split; cbn [vValues vSorted nSize]; [done|rewrite length_app; simpl; lia|].
    apply Forall_app; split; [done|by constructor].
  - rewrite length_app. cbn [length]. split; [|lia].
    split; cbn [vValues vSorted nSize]; [done|rewrite length_app; simpl; lia|].
    apply Forall_app; split; [done|by constructor].
Qed.

(** With an odd number of values the median is one of them, and it splits them. *)
Lemma median_odd f : filter_ok f -> Nat.odd (CMedianFilter.size f) = true ->
  exists m, median f = Ok m /\ m ∈ vValues f /\
    (length (vValues f) / 2 < count_ge m (vValues f))%nat.
Proof.
  intros [Hs Hl Hv] Hodd. unfold median, CMedianFilter.size in *. rewrite Hs.
  rewrite (Permutation_length (std_sort_perm (vValues f))).
  replace (length (vValues f) =? 0)%nat with false by (symmetry; apply Nat.eqb_neq; lia). rewrite Hodd.
  set (l := vValues f) in *.
  destruct (lookup_lt_is_Some_2 (BlockIndex.std_sort l) (length l / 2)) as [m Hm].
  { rewrite (Permutation_length (std_sort_perm l)). apply Nat.div_lt; lia. }
  rewrite (list_lookup_total_correct _ _ _ Hm). exists m. split_and!; [done| |].
  - rewrite <- (std_sort_perm l). by eapply list_elem_of_lookup_2.
  - pose proof (proj1 (median_count l _ m m Hm) (Z.le_refl m)).
    apply Nat.odd_spec in Hodd as [k Hk]. pose proof (Nat.div_mod (length l) 2 ltac:(lia)).
    pose proof (Nat.mod_upper_bound (length l) 2 ltac:(lia)). lia.
Qed.

Lemma tail_Forall (Q : Z -> Prop) l : Forall Q l -> Forall Q (tail l).
Proof. by destruct 1. Qed.

(** The adjustment peers can make to the clock is bounded: from the initial
    state on, whatever samples arrive, adding time data returns (the median's
    assertion holds) and leaves an offset of at most the configured maximum,
    which is the old one, zero, or one of the samples in the filter; repeated
    peers and peers past the two hundredth change nothing. *)
Theorem AddTimeData_bounded maxadj ip sample s :
  time_ok maxadj s -> - 2 ^ 63 < sample < 2 ^ 63 ->
  exists s', AddTimeData maxadj ip sample s = Ok s' /\ time_ok maxadj s' /\
    (ip ∈ setKnown s \/ base.size (setKnown s) = SIGECOIN_TIMEDATA_MAX_SAMPLES -> s' = s) /\
    (nTimeOffset s' = nTimeOffset s \/ nTimeOffset s' = 0 \/ nTimeOffset s' ∈ vValues (vTimeOffsets s')).
Proof.
  intros [Hf Hmin Hcap Hcnt Hoff] Hsm. unfold AddTimeData.
  destruct (_ =? _)%nat eqn:Esz; bool_hyps; [exists s; split_and!; try done; by left|].
  case_bool_decide as Hin; [exists s; split_and!; try done; by left|].
  assert (Hins : in_s 64 sample) by (unfold in_s; lia).
  destruct (input_ok sample (vTimeOffsets s) Hf Hins) as [Hf' Hlen].
  set (offsets := input sample (vTimeOffsets s)) in *.
  assert (Hok : forall off d w, Z.abs off <= Z.max 0 maxadj -> time_ok maxadj
    {| setKnown := {[ip]} ∪ setKnown s; vTimeOffsets := offsets; nTimeOffset := off; fDone := d; warned := w |}).
  { intros off d w Ho. split; cbn [vTimeOffsets setKnown nTimeOffset]; [done| |done| |done].
    - unfold offsets, input. cbn [vValues]. apply Forall_app. split; [|repeat constructor; lia].
      case_bool; [by apply tail_Forall|done].
    - rewrite Hlen, Hcap, Hcnt. rewrite size_union by set_solver. rewrite size_singleton.
      unfold SIGECOIN_TIMEDATA_MAX_SAMPLES in *. lia. }
  assert (Hno : forall s', (ip ∈ setKnown s \/ base.size (setKnown s) = SIGECOIN_TIMEDATA_MAX_SAMPLES -> s' = s))
    by (intros s' [?|?]; [done|congruence]).
  destruct (_ && _) eqn:Eodd; bool_hyps.
  - destruct (median_odd offsets Hf') as (m & -> & Hm & _); [done|]. cbn [res_bind].
    assert (Hmr : - 2 ^ 63 < m < 2 ^ 63).
    { pose proof (Hok 0 false false ltac:(lia)) as [_ Hmin' _ _ _]. cbn [vTimeOffsets] in Hmin'.
      pose proof (proj1 (Forall_forall _ _) Hmin' m Hm).
      pose proof (proj1 (Forall_forall _ _) (ok_values offsets Hf') m Hm) as Hin'. unfold in_s in Hin'. simpl in *. lia. }
    assert (Habs : abs64 m = Z.abs m).
    { unfold abs64. case_bool; bool_hyps; [lia|]. rewrite swrap_small by (unfold in_s; lia). lia. }
    rewrite Habs. case_bool; bool_hyps; eexists; (split; [reflexivity|]).
    + split_and!; [by apply Hok|apply Hno|by right; right].
    + split_and!; [apply Hok; simpl; lia|apply Hno|by right; left].
  - eexists; split; [reflexivity|]. split_and!; [by apply Hok|apply Hno|by left].
Qed.
End timedata.

Lemma init_time_ok : time_ok (CNetAddr := nat) DEFAULT_MAX_TIME_ADJUSTMENT init.
Proof.
  split; [split|..]; cbn [vTimeOffsets init make vValues vSorted nSize].
  - done.
  - unfold SIGECOIN_TIMEDATA_MAX_SAMPLES. simpl. lia.
  - repeat constructor; done.
  - repeat constructor; done.
  - done.
  - done.
  - done.
Qed.

Lemma AddTimeData_bounded_witness :
  exists s', AddTimeData DEFAULT_MAX_TIME_ADJUSTMENT 7%nat 100 init = Ok s' /\
    time_ok DEFAULT_MAX_TIME_ADJUSTMENT s'.
Proof.
  destruct (AddTimeData_bounded DEFAULT_MAX_TIME_ADJUSTMENT 7%nat 100 init init_time_ok) as (s' & H1 & H2 & _); [done|].
  exists s'. split; assumption.
Defined.
