(* ===== verification/Prevector.v ===== *)
(** [prevector] of src/sige/src/prevector.h: a vector whose first [N] elements
    live inside the object, used for scripts.

    The union is kept untagged as in the code: [_size] alone says which arm is
    live ([is_direct]), and reading the other arm is [Undef].  A slot of storage
    is [None] until an object has been constructed in it; [malloc] returns
    uninitialised slots and [realloc] keeps the common prefix.  Allocation is
    assumed to succeed, as in the code.  [size_type] is 32-bit unsigned and
    [difference_type] 32-bit signed, the defaults of the template; an iterator
    is its offset in elements from the start of the storage, so moving it is
    pointer arithmetic.  Elements are passed by value: the argument of [insert]
    and [push_back] is not a reference into the vector itself. *)

From S2P Require Import Prelude.

#[local] Ltac Zify.zify_post_hook ::= Z.to_euclidean_division_equations.

(** ** Raw storage *)

Definition zlen {A} (l : list A) : Z := Z.of_nat (length l).

Section storage.
Context {A : Type}.

Definition mem_read (s : list A) (pos n : Z) : res (list A) :=
  if (0 <=? pos) && (0 <=? n) && (pos + n <=? zlen s) then
    Ok (take (Z.to_nat n) (drop (Z.to_nat pos) s))
  else Undef.

Definition mem_write (s : list A) (pos : Z) (d : list A) : res (list A) :=
  if (0 <=? pos) && (pos + zlen d <=? zlen s) then
    Ok (take (Z.to_nat pos) s ++ d ++ drop (Z.to_nat (pos + zlen d)) s)
  else Undef.

(** [memmove(s + dst, s + src, n)]: overlapping areas are allowed. *)
Definition memmove (s : list A) (dst src n : Z) : res (list A) :=
  let? d := mem_read s src n in mem_write s dst d.

Lemma zlen_nonneg (l : list A) : 0 <= zlen l.
Proof. unfold zlen; lia. Qed.

Lemma zlen_app (l k : list A) : zlen (l ++ k) = zlen l + zlen k.
Proof. unfold zlen; rewrite length_app; lia. Qed.

Lemma mem_read_ok s pos n : 0 <= pos -> 0 <= n -> pos + n <= zlen s ->
  mem_read s pos n = Ok (take (Z.to_nat n) (drop (Z.to_nat pos) s)).
Proof.
  intros. unfold mem_read. rewrite !(proj2 (Z.leb_le _ _)) by done. done.
Qed.

Lemma mem_write_ok s pos d : 0 <= pos -> pos + zlen d <= zlen s ->
  mem_write s pos d = Ok (take (Z.to_nat pos) s ++ d ++ drop (Z.to_nat (pos + zlen d)) s).
Proof.
  intros. unfold mem_write. rewrite !(proj2 (Z.leb_le _ _)) by done. done.
Qed.

Lemma mem_write_len s pos d s' : mem_write s pos d = Ok s' -> zlen s' = zlen s.
Proof.
  unfold mem_write. case_bool; [|done]. bool_hyps. intros [= <-].
  unfold zlen in *. rewrite !length_app, length_take, length_drop. lia.
Qed.
End storage.

(** ** Iterators *)

Module iterator.
Definition incr (ptr : Z) : Z := ptr + 1.
Definition decr (ptr : Z) : Z := ptr - 1.
Definition plus (ptr n : Z) : Z := ptr + n.
Definition minus (ptr n : Z) : Z := ptr - n.
Definition diff (a b : Z) : Z := i32 (a - b).
Definition eq (a b : Z) : bool := a =? b.
Definition ne (a b : Z) : bool := negb (a =? b).
End iterator.

Module const_iterator.
Definition incr (ptr : Z) : Z := ptr + 1.
Definition decr (ptr : Z) : Z := ptr - 1.
Definition diff (a b : Z) : Z := i32 (a - b).
Definition ne (a b : Z) : bool := negb (a =? b).
Definition of_iterator (x : Z) : Z := x.
End const_iterator.

(** Going forward through a reverse iterator goes down in memory. *)
Module const_reverse_iterator.
Definition incr (ptr : Z) : Z := ptr - 1.
Definition decr (ptr : Z) : Z := ptr + 1.
Definition ne (a b : Z) : bool := negb (a =? b).
End const_reverse_iterator.

Section prevector.
Context {T : Type} (N : Z) (sizeof_T : Z) (T_default : T).

Inductive direct_or_indirect : Type :=
| direct (d : list (option T))
| indirect (capacity : Z) (d : list (option T)).

Record prevector : Type := mk { _size : Z; _union : direct_or_indirect }.

Definition is_direct (v : prevector) : bool := _size v <=? N.

Definition size (v : prevector) : Z :=
  if is_direct v then _size v else u32 (u32 (_size v - N) - 1).

Definition empty (v : prevector) : bool := size v =? 0.

Definition capacity (v : prevector) : res Z :=
  if is_direct v then Ok N
  else match _union v with indirect c _ => Ok c | direct _ => Undef end.

(** The elements [item_ptr] points into. *)
Definition slots (v : prevector) : res (list (option T)) :=
  match is_direct v, _union v with
  | true, direct d => Ok d
  | false, indirect _ d => Ok d
  | _, _ => Undef
  end.

Definition set_slots (d : list (option T)) (v : prevector) : prevector :=
  mk (_size v) (match _union v with direct _ => direct d | indirect c _ => indirect c d end).

Definition set_size (n : Z) (v : prevector) : prevector := mk (u32 n) (_union v).

Definition item_ptr (pos : Z) : Z := i32 pos.

Definition begin_ : Z := item_ptr 0.
Definition end_ (v : prevector) : Z := item_ptr (size v).
Definition rbegin (v : prevector) : Z := item_ptr (u32 (size v - 1)).
Definition rend : Z := item_ptr (-1).

(** [*ptr] *)
Definition deref (v : prevector) (ptr : Z) : res T :=
  let? s := slots v in
  let? d := mem_read s ptr 1 in
  match d with [Some x] => Ok x | _ => Undef end.

(** [new (item_ptr(pos)) T(x)] *)
Definition construct (pos : Z) (x : T) (v : prevector) : res prevector :=
  let? s := slots v in
  let? s := mem_write s (item_ptr pos) [Some x] in
  Ok (set_slots s v).

Definition move (dst src n : Z) (v : prevector) : res prevector :=
  let? s := slots v in
  let? s := memmove s dst src n in
  Ok (set_slots s v).

Definition malloc (n : Z) : list (option T) := replicate (Z.to_nat n) None.

Definition realloc (d : list (option T)) (n : Z) : list (option T) :=
  take (Z.to_nat n) d ++ malloc (n - zlen d).

Definition change_capacity (new_capacity : Z) (v : prevector) : res prevector :=
  if new_capacity <=? N then
    if negb (is_direct v) then
      let? src := slots v in
      let? d := mem_read src 0 (size v) in
      (* the arms overlap: writing [direct] clobbers [capacity] and [indirect] *)
      let? dst := mem_write (malloc N) 0 d in
      Ok (mk (u32 (_size v - (N + 1))) (direct dst))
    else Ok v
  else
    if negb (is_direct v) then
      let? d := slots v in
      Ok (mk (_size v) (indirect new_capacity (realloc d new_capacity)))
    else
      let? src := slots v in
      let? d := mem_read src 0 (size v) in
      let? dst := mem_write (malloc new_capacity) 0 d in
      Ok (mk (u32 (_size v + (N + 1))) (indirect new_capacity dst)).

(** [while (size() < n) { _size++; new (item_ptr(size() - 1)) T(val); }] *)
Fixpoint fill_loop (fuel : nat) (n : Z) (val : T) (v : prevector) : res prevector :=
  if size v <? n then
    match fuel with
    | O => OutOfFuel
    | S fuel =>
        let v := set_size (_size v + 1) v in
        let? v := construct (u32 (size v - 1)) val v in
        fill_loop fuel n val v
    end
  else Ok v.

Definition fill (n : Z) (val : T) (v : prevector) : res prevector :=
  fill_loop (Z.to_nat n) n val v.

(** [while (first != last) { _size++; new (item_ptr(size() - 1)) T of [*first]; ++first; }] *)
Fixpoint append_range (xs : list T) (v : prevector) : res prevector :=
  match xs with
  | [] => Ok v
  | x :: xs =>
      let v := set_size (_size v + 1) v in
      let? v := construct (u32 (size v - 1)) x v in
      append_range xs v
  end.

(** The destructors of the elements do nothing the model can see. *)
Fixpoint destroy_range (n : nat) (v : prevector) : prevector :=
  match n with O => v | S n => destroy_range n (set_size (_size v - 1) v) end.

Definition erase (first last : Z) (v : prevector) : res (prevector * Z) :=
  let endp := end_ v in
  let? s := slots v in
  let? s := memmove s first last (endp - last) in
  Ok (destroy_range (Z.to_nat (last - first)) (set_slots s v), first).

Definition erase1 (pos : Z) (v : prevector) : res (prevector * Z) :=
  erase pos (iterator.plus pos 1) v.

(** Room for [new_size] elements, half as many again when storage must grow. *)
Definition grow (new_size : Z) (v : prevector) : res prevector :=
  let? c := capacity v in
  if c <? new_size then change_capacity (u32 (new_size + Z.shiftr new_size 1)) v else Ok v.

Definition resize (new_size : Z) (v : prevector) : res prevector :=
  let? v := if new_size <? size v then
              let? (v, _) := erase (item_ptr new_size) (end_ v) v in Ok v
            else Ok v in
  let? c := capacity v in
  let? v := if c <? new_size then change_capacity new_size v else Ok v in
  fill new_size T_default v.

Definition reserve (new_capacity : Z) (v : prevector) : res prevector :=
  let? c := capacity v in
  if c <? new_capacity then change_capacity new_capacity v else Ok v.

Definition shrink_to_fit (v : prevector) : res prevector := change_capacity (size v) v.

Definition clear (v : prevector) : res prevector := resize 0 v.

Definition assign (n : Z) (val : T) (v : prevector) : res prevector :=
  let? v := clear v in
  let? c := capacity v in
  let? v := if c <? n then change_capacity n v else Ok v in
  fill n val v.

Definition assign_range (xs : list T) (v : prevector) : res prevector :=
  let n := u32 (zlen xs) in
  let? v := clear v in
  let? c := capacity v in
  let? v := if c <? n then change_capacity n v else Ok v in
  append_range xs v.

Definition insert (pos : Z) (value : T) (v : prevector) : res (prevector * Z) :=
  let p := u32 (iterator.diff pos begin_) in
  let new_size := u32 (size v + 1) in
  let? v := grow new_size v in
  let? v := move (item_ptr (u32 (p + 1))) (item_ptr p) (u32 (size v - p)) v in
  let v := set_size (_size v + 1) v in
  let? v := construct p value v in
  Ok (v, item_ptr p).

(** [for (i = 0; i < count; i++) new (item_ptr(p + i)) T(value)] *)
Fixpoint construct_n (p i : Z) (n : nat) (value : T) (v : prevector) : res prevector :=
  match n with
  | O => Ok v
  | S n =>
      let? v := construct (u32 (p + i)) value v in
      construct_n p (i + 1) n value v
  end.

Definition insert_n (pos count : Z) (value : T) (v : prevector) : res prevector :=
  let p := u32 (iterator.diff pos begin_) in
  let new_size := u32 (size v + count) in
  let? v := grow new_size v in
  let? v := move (item_ptr (u32 (p + count))) (item_ptr p) (u32 (size v - p)) v in
  let v := set_size (_size v + count) v in
  construct_n p 0 (Z.to_nat count) value v.

Fixpoint construct_range (p : Z) (xs : list T) (v : prevector) : res prevector :=
  match xs with
  | [] => Ok v
  | x :: xs => let? v := construct p x v in construct_range (u32 (p + 1)) xs v
  end.

Definition insert_range (pos : Z) (xs : list T) (v : prevector) : res prevector :=
  let p := u32 (iterator.diff pos begin_) in
  let count := i32 (zlen xs) in
  let new_size := u32 (size v + count) in
  let? v := grow new_size v in
  let? v := move (item_ptr (u32 (p + count))) (item_ptr p) (u32 (size v - p)) v in
  let v := set_size (_size v + count) v in
  construct_range p xs v.

Definition push_back (value : T) (v : prevector) : res prevector :=
  let new_size := u32 (size v + 1) in
  let? v := grow new_size v in
  let? v := construct (size v) value v in
  Ok (set_size (_size v + 1) v).

Definition pop_back (v : prevector) : res prevector :=
  let? (v, _) := erase (iterator.minus (end_ v) 1) (end_ v) v in Ok v.

(** *** Constructors and assignment *)

Definition make : prevector := mk 0 (direct (malloc N)).

Definition make_size (n : Z) : res prevector := resize n make.

Definition make_fill (n : Z) (val : T) : res prevector :=
  let? v := change_capacity n make in fill n val v.

Definition make_range (xs : list T) : res prevector :=
  let? v := change_capacity (u32 (zlen xs)) make in append_range xs v.

(** The loop [while (it != other.end()) { ..; ++it; }] over another vector. *)
Fixpoint copy_loop (fuel : nat) (it : Z) (other : prevector) (v : prevector) : res prevector :=
  if const_iterator.ne it (end_ other) then
    match fuel with
    | O => OutOfFuel
    | S fuel =>
        let? x := deref other it in
        let v := set_size (_size v + 1) v in
        let? v := construct (u32 (size v - 1)) x v in
        copy_loop fuel (const_iterator.incr it) other v
    end
  else Ok v.

Definition make_copy (other : prevector) : res prevector :=
  let? v := change_capacity (size other) make in
  copy_loop (Z.to_nat (size other)) begin_ other v.

(** [operator=] for two different objects. *)
Definition op_assign (other v : prevector) : res prevector :=
  let? v := resize 0 v in
  let? v := change_capacity (size other) v in
  copy_loop (Z.to_nat (size other)) begin_ other v.

Definition swap (v other : prevector) : prevector * prevector :=
  (mk (_size other) (_union other), mk (_size v) (_union v)).

(** The moved-from object becomes the second component. *)
Definition make_move (other : prevector) : prevector * prevector := swap make other.

(** *** Access *)

Definition get (pos : Z) (v : prevector) : res T := deref v (item_ptr pos).
Definition front (v : prevector) : res T := deref v (item_ptr 0).
Definition back (v : prevector) : res T := deref v (item_ptr (u32 (size v - 1))).

(** [v[pos] = x] *)
Definition put (pos : Z) (x : T) (v : prevector) : res prevector := construct pos x v.

Definition allocated_memory (v : prevector) : res Z :=
  if is_direct v then Ok 0
  else let? c := capacity v in Ok (u64 (sizeof_T * c)).

(** A range-for loop over the vector, and the same loop backwards. *)
Fixpoint collect_loop (fuel : nat) (it e : Z) (v : prevector) : res (list T) :=
  if const_iterator.ne it e then
    match fuel with
    | O => OutOfFuel
    | S fuel =>
        let? x := deref v it in
        let? xs := collect_loop fuel (const_iterator.incr it) e v in
        Ok (x :: xs)
    end
  else Ok [].

Definition collect (v : prevector) : res (list T) :=
  collect_loop (Z.to_nat (size v)) begin_ (end_ v) v.

Fixpoint rcollect_loop (fuel : nat) (it e : Z) (v : prevector) : res (list T) :=
  if const_reverse_iterator.ne it e then
    match fuel with
    | O => OutOfFuel
    | S fuel =>
        let? x := deref v it in
        let? xs := rcollect_loop fuel (const_reverse_iterator.incr it) e v in
        Ok (x :: xs)
    end
  else Ok [].

Definition rcollect (v : prevector) : res (list T) :=
  rcollect_loop (Z.to_nat (size v)) (rbegin v) rend v.

(** *** Comparison *)

Context (T_ne T_lt : T -> T -> bool).

Fixpoint eq_loop (fuel : nat) (b1 b2 e1 : Z) (v other : prevector) : res bool :=
  if const_iterator.ne b1 e1 then
    match fuel with
    | O => OutOfFuel
    | S fuel =>
        let? x := deref v b1 in
        let? y := deref other b2 in
        if T_ne x y then Ok false
        else eq_loop fuel (const_iterator.incr b1) (const_iterator.incr b2) e1 v other
    end
  else Ok true.

Definition op_eq (v other : prevector) : res bool :=
  if negb (size other =? size v) then Ok false
  else eq_loop (Z.to_nat (size v)) begin_ begin_ (end_ v) v other.

Definition op_ne (v other : prevector) : res bool :=
  let? b := op_eq v other in Ok (negb b).

Fixpoint lt_loop (fuel : nat) (b1 b2 e1 : Z) (v other : prevector) : res bool :=
  if const_iterator.ne b1 e1 then
    match fuel with
    | O => OutOfFuel
    | S fuel =>
        let? x := deref v b1 in
        let? y := deref other b2 in
        if T_lt x y then Ok true
        else if T_lt y x then Ok false
        else lt_loop fuel (const_iterator.incr b1) (const_iterator.incr b2) e1 v other
    end
  else Ok false.

Definition op_lt (v other : prevector) : res bool :=
  if size v <? size other then Ok true
  else if size other <? size v then Ok false
  else lt_loop (Z.to_nat (size v)) begin_ begin_ (end_ v) v other.
End prevector.

(** ** Storage lemmas

    A storage is split as [a ++ b ++ c] where an operation touches [b]. *)

Section storage_lemmas.
Context {A : Type}.
Implicit Types a b c d r s : list A.

Lemma mem_read_app a b c : mem_read (a ++ b ++ c) (zlen a) (zlen b) = Ok b.
Proof.
  rewrite mem_read_ok by (rewrite ?zlen_app; pose proof (zlen_nonneg c); unfold zlen in *; lia).
  unfold zlen. rewrite !Nat2Z.id, drop_app_length, take_app_length. done.
Qed.

Lemma mem_write_app a r d : zlen d <= zlen r ->
  mem_write (a ++ r) (zlen a) d = Ok (a ++ d ++ drop (length d) r).
Proof.
  intros. rewrite mem_write_ok by (rewrite ?zlen_app; unfold zlen in *; lia).
  f_equal. unfold zlen. rewrite Nat2Z.id, take_app_length. do 2 f_equal.
  replace (Z.to_nat (Z.of_nat (length a) + Z.of_nat (length d))) with (length a + length d)%nat by lia.
  by rewrite <- drop_drop, drop_app_length.
Qed.

Lemma mem_write_over a b c d : zlen b = zlen d -> mem_write (a ++ b ++ c) (zlen a) d = Ok (a ++ d ++ c).
Proof.
  intros H. rewrite mem_write_app by (rewrite zlen_app; pose proof (zlen_nonneg c); lia).
  do 3 f_equal. unfold zlen in H. replace (length d) with (length b) by lia. by rewrite drop_app_length.
Qed.

Lemma mem_write_init r d : zlen d <= zlen r -> mem_write r 0 d = Ok (d ++ drop (length d) r).
Proof. intros. by apply (mem_write_app [] r d). Qed.

Lemma mem_read_init b c : mem_read (b ++ c) 0 (zlen b) = Ok b.
Proof. apply (mem_read_app [] b c). Qed.

Lemma zlen_fmap {B} (f : A -> B) s : zlen (f <$> s) = zlen s.
Proof. unfold zlen. by rewrite length_fmap. Qed.

Lemma zlen_take n s : 0 <= n <= zlen s -> zlen (take (Z.to_nat n) s) = n.
Proof. unfold zlen. rewrite length_take. lia. Qed.

Lemma zlen_cons x s : zlen (x :: s) = zlen s + 1.
Proof. unfold zlen. simpl. lia. Qed.

Lemma zlen_split_at n s : 0 <= n <= zlen s -> exists a b, s = a ++ b /\ zlen a = n.
Proof.
  intros. exists (take (Z.to_nat n) s), (drop (Z.to_nat n) s).
  split; [by rewrite take_drop|by apply zlen_take].
Qed.
End storage_lemmas.

(** Moving the block [c] up by [k] opens a gap of [k] elements before it. *)
Lemma memmove_up {A} (a c j : list A) k : 0 <= k <= zlen j ->
  exists m j', memmove (a ++ c ++ j) (zlen a + k) (zlen a) (zlen c) = Ok (a ++ m ++ c ++ j') /\ zlen m = k /\
               zlen j' = zlen j - k.
Proof.
  intros Hk. unfold memmove. rewrite mem_read_app. cbn [res_bind].
  destruct (zlen_split_at k (c ++ j)) as (m & r & E & Hm);
    [rewrite zlen_app; pose proof (zlen_nonneg c); lia|].
  assert (zlen m + zlen r = zlen c + zlen j) as Hlen by by rewrite <- !zlen_app, E.
  exists m, (drop (length c) r). rewrite E, (app_assoc a m r).
  replace (zlen a + k) with (zlen (a ++ m)) by (rewrite zlen_app; lia).
  rewrite mem_write_app by lia. rewrite <- app_assoc. split_and!; [done|done|].
  unfold zlen in *. rewrite length_drop. lia.
Qed.

(** Moving the block [c] down over [b]. *)
Lemma memmove_down {A} (a b c j : list A) :
  memmove (a ++ b ++ c ++ j) (zlen a) (zlen a + zlen b) (zlen c) =
  Ok (a ++ c ++ drop (length c) (b ++ c ++ j)).
Proof.
  unfold memmove. rewrite (app_assoc a b), <- zlen_app, mem_read_app. cbn [res_bind].
  rewrite <- app_assoc. apply mem_write_app.
  rewrite !zlen_app. pose proof (zlen_nonneg b). pose proof (zlen_nonneg j). lia.
Qed.

Lemma begin_zlen {A} : begin_ = zlen (@nil A).
Proof. done. Qed.

Lemma zlen_ne {A} (a b : list A) : const_iterator.ne (zlen a) (zlen (a ++ b)) = negb (bool_decide (b = [])).
Proof.
  unfold const_iterator.ne. rewrite zlen_app. f_equal. pose proof (zlen_nonneg b).
  apply eq_true_iff_eq. rewrite Z.eqb_eq, bool_decide_eq_true.
  split; [|intros ->; unfold zlen; simpl; lia].
  destruct b; [done|]. rewrite zlen_cons in *. pose proof (zlen_nonneg b). lia.
Qed.

Lemma incr_zlen {A} (a : list A) x : const_iterator.incr (zlen a) = zlen (a ++ [x]).
Proof. by rewrite zlen_app. Qed.

Lemma zlen_malloc {T} n : 0 <= n -> zlen (@malloc T n) = n.
Proof. intros. unfold zlen, malloc. rewrite length_replicate. lia. Qed.

(** ** The representation invariant *)

Section invariant.
Context {T : Type} (N sizeof_T : Z) (T_default : T).
Context (HN : 0 <= N < 2 ^ 30).
#[local] Abbreviation prevector := (@prevector T).
Implicit Types (v : prevector) (l a b c xs : list T) (s j : list (option T)).

(** [v] counts [n] elements and its live storage is [s]. *)
Inductive hold : prevector -> Z -> list (option T) -> Prop :=
| hold_direct n s : 0 <= n <= N -> zlen s = N -> hold (mk n (direct s)) n s
| hold_indirect n s : 0 <= n <= zlen s -> N < zlen s < 2 ^ 31 ->
    hold (mk (n + N + 1) (indirect (zlen s) s)) n s.

(** The elements of [v] are [l], then come the unused slots [j]. *)
Definition holds (v : prevector) (l : list T) (j : list (option T)) : Prop :=
  hold v (zlen l) ((Some <$> l) ++ j).

Definition represents (v : prevector) (l : list T) : Prop := exists j, holds v l j.

Lemma hold_bounds v n s : hold v n s -> 0 <= n <= zlen s /\ zlen s < 2 ^ 31.
Proof. destruct 1; lia. Qed.

Lemma hold_min v n s : hold v n s -> N <= zlen s.
Proof. destruct 1; lia. Qed.

Lemma hold_size v n s : hold v n s -> size N v = n.
Proof.
  destruct 1; unfold size, is_direct; simpl.
  - by rewrite (proj2 (Z.leb_le _ _)) by lia.
  - rewrite (proj2 (Z.leb_gt _ _)) by lia.
    rewrite (wrap_small 32 (n + N + 1 - N)) by (unfold in_u; lia).
    rewrite wrap_small by (unfold in_u; lia). lia.
Qed.

Lemma hold_capacity v n s : hold v n s -> capacity N v = Ok (zlen s).
Proof.
  destruct 1; unfold capacity, is_direct; simpl.
  - rewrite (proj2 (Z.leb_le _ _)) by lia. by f_equal.
  - by rewrite (proj2 (Z.leb_gt _ _)) by lia.
Qed.

Lemma hold_slots v n s : hold v n s -> slots N v = Ok s.
Proof.
  destruct 1; unfold slots, is_direct; simpl.
  - by rewrite (proj2 (Z.leb_le _ _)) by lia.
  - by rewrite (proj2 (Z.leb_gt _ _)) by lia.
Qed.

Lemma hold_set_slots v n s s' : hold v n s -> zlen s' = zlen s -> hold (set_slots s' v) n s'.
Proof. destruct 1; intros E; unfold set_slots; simpl; [|rewrite <- E]; constructor; lia. Qed.

Lemma hold_set_size v n s k m : hold v n s -> m = n + k -> 0 <= m <= zlen s ->
  hold (set_size (_size v + k) v) m s.
Proof.
  intros [n' s' Hn Hs|n' s' Hn Hs] -> Hk; unfold set_size; simpl;
    rewrite wrap_small by (unfold in_u; lia).
  - constructor; lia.
  - replace (n' + N + 1 + k) with (n' + k + N + 1) by lia. constructor; lia.
Qed.

Lemma item_ptr_small n : 0 <= n < 2 ^ 31 -> item_ptr n = n.
Proof. intros. apply swrap_small; unfold in_s; lia. Qed.

Lemma u32_small n : 0 <= n < 2 ^ 31 -> u32 n = n.
Proof. intros. apply wrap_small; unfold in_u; lia. Qed.

(** Writing an element over a slot. *)
Lemma construct_over v n (a c : list (option T)) o x p :
  p = zlen a -> hold v n (a ++ o :: c) ->
  exists v', construct N p x v = Ok v' /\ hold v' n (a ++ Some x :: c).
Proof.
  intros -> H. unfold construct. rewrite (hold_slots _ _ _ H). cbn [res_bind].
  pose proof (hold_bounds _ _ _ H) as [Hn Hs]. rewrite zlen_app, zlen_cons in Hs.
  pose proof (zlen_nonneg a). pose proof (zlen_nonneg c).
  rewrite item_ptr_small by lia. change (o :: c) with ([o] ++ c).
  rewrite mem_write_over by done. cbn [res_bind]. eexists; split; [done|].
  apply (hold_set_slots _ _ _ _ H). change ([Some x] ++ c) with (Some x :: c).
  by rewrite !zlen_app, !zlen_cons.
Qed.

Lemma construct_range_over xs v n (a m c : list (option T)) p :
  p = zlen a -> zlen m = zlen xs -> hold v n (a ++ m ++ c) ->
  exists v', construct_range N p xs v = Ok v' /\ hold v' n (a ++ (Some <$> xs) ++ c).
Proof.
  revert v a m p; induction xs as [|x xs IH]; intros v a m p -> Hm H.
  - destruct m; [|by unfold zlen in Hm]. simpl. eauto.
  - destruct m as [|o m]; [by unfold zlen in Hm|]. rewrite !zlen_cons in Hm.
    destruct (construct_over _ _ a (m ++ c) o x _ eq_refl H) as (v' & E & H').
    pose proof (hold_bounds _ _ _ H') as [_ Hs]. rewrite zlen_app, zlen_cons in Hs.
    pose proof (zlen_nonneg a). pose proof (zlen_nonneg (m ++ c)).
    cbn [construct_range]. rewrite E. cbn [res_bind].
    destruct (IH v' (a ++ [Some x]) m (u32 (zlen a + 1))) as (v'' & E' & H''); [| lia | |].
    + rewrite u32_small, zlen_app by lia. done.
    + by rewrite <- app_assoc.
    + exists v''. rewrite <- app_assoc in H''. done.
Qed.

Lemma construct_n_range p i n x v : 0 <= p + i -> p + i + Z.of_nat n < 2 ^ 31 ->
  construct_n N p i n x v = construct_range N (p + i) (replicate n x) v.
Proof.
  revert i v; induction n as [|n IH]; intros i v H0 H1; [done|].
  cbn [construct_n replicate construct_range]. rewrite (u32_small (p + i)) by lia.
  destruct (construct N (p + i) x v); [|done..]. cbn [res_bind].
  rewrite IH by lia. rewrite u32_small by lia. f_equal; lia.
Qed.

(** One element at the end: [_size++; new (item_ptr(size() - 1)) T(x)]. *)
Lemma append_one v l j x : holds v l j -> j <> [] ->
  exists v', construct N (u32 (size N (set_size (_size v + 1) v) - 1)) x (set_size (_size v + 1) v) = Ok v' /\
             holds v' (l ++ [x]) (tail j).
Proof.
  intros H Hj. destruct j as [|o j]; [done|]. unfold holds in H.
  pose proof (hold_bounds _ _ _ H) as [Hn Hs]. rewrite zlen_app, zlen_cons, zlen_fmap in *.
  pose proof (zlen_nonneg j).
  assert (hold (set_size (_size v + 1) v) (zlen l + 1) ((Some <$> l) ++ o :: j)) as H'.
  { apply (hold_set_size v (zlen l)); [done|lia|].
    rewrite zlen_app, zlen_cons, zlen_fmap. lia. }
  rewrite (hold_size _ _ _ H'). replace (zlen l + 1 - 1) with (zlen l) by lia.
  rewrite u32_small by lia.
  destruct (construct_over _ _ _ _ o x (zlen (Some <$> l)) eq_refl H') as (v' & E & H'').
  rewrite zlen_fmap in E.
  exists v'. split; [done|]. unfold holds. rewrite fmap_app, zlen_app, <- app_assoc. done.
Qed.

Lemma append_range_holds xs v l j : holds v l j -> zlen xs <= zlen j ->
  exists v' j', append_range N xs v = Ok v' /\ holds v' (l ++ xs) j' /\ zlen j' = zlen j - zlen xs.
Proof.
  revert v l j; induction xs as [|x xs IH]; intros v l j H Hj.
  - exists v, j. rewrite app_nil_r. unfold zlen; simpl. split_and!; [done|done|lia].
  - rewrite zlen_cons in *. destruct j as [|o j]; [unfold zlen in *; simpl in *; lia|].
    rewrite zlen_cons in *.
    destruct (append_one _ _ _ x H) as (v1 & E1 & H1); [done|].
    destruct (IH _ _ _ H1) as (v2 & j2 & E2 & H2 & Hl); [simpl; lia|].
    exists v2, j2. cbn [append_range]. rewrite E1. cbn [res_bind].
    rewrite <- app_assoc in H2. split_and!; [done|done|simpl in Hl; lia].
Qed.

Lemma fill_loop_range fuel n x v l j : holds v l j -> zlen l <= n -> n - zlen l <= zlen j ->
  (Z.to_nat (n - zlen l) <= fuel)%nat ->
  fill_loop N fuel n x v = append_range N (replicate (Z.to_nat (n - zlen l)) x) v.
Proof.
  revert v l j; induction fuel as [|fuel IH]; intros v l j H Hn Hj Hf; cbn [fill_loop];
    rewrite (hold_size _ _ _ H).
  - rewrite (proj2 (Z.ltb_ge _ _)) by lia. by replace (Z.to_nat (n - zlen l)) with O by lia.
  - case_bool; bool_hyps.
    + destruct j as [|o j]; [unfold zlen in *; simpl in *; lia|]. rewrite zlen_cons in Hj.
      replace (Z.to_nat (n - zlen l)) with (S (Z.to_nat (n - (zlen l + 1)))) by lia.
      cbn [replicate append_range].
      destruct (append_one _ _ _ x H) as (v1 & E1 & H1); [done|]. rewrite E1. cbn [res_bind].
      assert (zlen (l ++ [x]) = zlen l + 1) as El by (by rewrite zlen_app).
      rewrite <- El. eapply IH; [exact H1|rewrite El; lia|rewrite El; simpl; lia|rewrite El; lia].
    + by replace (Z.to_nat (n - zlen l)) with O by lia.
Qed.

Lemma fill_holds n x v l j : holds v l j -> zlen l <= n -> n - zlen l <= zlen j ->
  exists v' j', fill N n x v = Ok v' /\ holds v' (l ++ replicate (Z.to_nat (n - zlen l)) x) j'.
Proof.
  intros H Hn Hj. unfold fill. pose proof (zlen_nonneg l).
  rewrite (fill_loop_range _ _ _ _ _ _ H) by lia.
  destruct (append_range_holds (replicate (Z.to_nat (n - zlen l)) x) _ _ _ H) as (v' & j' & E & H' & _).
  - unfold zlen at 1. rewrite length_replicate. lia.
  - eauto.
Qed.

(** ** Capacity *)

Lemma holds_len v l j : holds v l j -> 0 <= zlen l /\ 0 <= zlen j /\ zlen l + zlen j < 2 ^ 31.
Proof.
  intros [Hn Hs]%hold_bounds. rewrite zlen_app, zlen_fmap in *.
  pose proof (zlen_nonneg l). pose proof (zlen_nonneg j). lia.
Qed.

Lemma holds_capacity v l j : holds v l j -> capacity N v = Ok (zlen l + zlen j).
Proof. intros H. by rewrite (hold_capacity _ _ _ H), zlen_app, zlen_fmap. Qed.

Lemma holds_size v l j : holds v l j -> size N v = zlen l.
Proof. apply hold_size. Qed.

Lemma change_capacity_holds (c : Z) v l j : holds v l j -> zlen l <= c < 2 ^ 31 ->
  exists v' j', change_capacity N c v = Ok v' /\ holds v' l j' /\ zlen l + zlen j' = Z.max N c.
Proof.
  intros H Hc. pose proof (holds_len _ _ _ H) as (Hl & Hj & _).
  unfold change_capacity. pose proof (hold_slots _ _ _ H) as Hs. pose proof (hold_size _ _ _ H) as Hz.
  assert (zlen (Some <$> l) = zlen l) as El by apply zlen_fmap.
  assert (forall n, mem_read ((Some <$> l) ++ j) 0 (size N v) = Ok (Some <$> l) /\
    (zlen l <= n -> exists j', mem_write (malloc n) 0 (Some <$> l) = Ok ((Some <$> l) ++ j') /\ zlen l + zlen j' = n))
    as Hcopy.
  { intros n. split; [rewrite Hz, <- El; apply mem_read_init|]. intros Hn.
    exists (drop (length (Some <$> l)) (malloc n)).
    rewrite mem_write_init by (rewrite zlen_malloc; lia). split; [done|].
    unfold zlen, malloc in *. rewrite length_drop, length_replicate, length_fmap in *. lia. }
  unfold is_direct in *. inversion H as [n s Hn Hlen E1 E2 E3|n s Hn Hlen E1 E2 E3]; simpl; subst s; subst v; subst n.
  - rewrite (proj2 (Z.leb_le (zlen l) N)) by lia. simpl.
    destruct (Z.leb_spec c N).
    + exists (mk (zlen l) (direct ((Some <$> l) ++ j))), j. split_and!; [done|done|].
      rewrite zlen_app, El in Hlen. lia.
    + rewrite Hs. cbn [res_bind]. destruct (Hcopy c) as [-> (j' & E & Hj')]; [lia|]. cbn [res_bind].
      rewrite E. cbn [res_bind].
      eexists _, j'. split; [done|]. split; [|lia].
      rewrite wrap_small by (unfold in_u; lia). rewrite Z.add_assoc, <- Hj', <- El, <- zlen_app.
      unfold holds. rewrite <- El at 1. rewrite El. apply hold_indirect; rewrite zlen_app, El; lia.
  - rewrite (proj2 (Z.leb_gt (zlen l + N + 1) N)) by lia. simpl.
    destruct (Z.leb_spec c N).
    + rewrite Hs. cbn [res_bind]. destruct (Hcopy N) as [-> (j' & E & Hj')]; [lia|]. cbn [res_bind].
      rewrite E. cbn [res_bind].
      eexists _, j'. split; [done|]. split; [|lia].
      rewrite wrap_small by (unfold in_u; lia).
      replace (zlen l + N + 1 - (N + 1)) with (zlen l) by lia.
      apply hold_direct; rewrite ?zlen_app; lia.
    + rewrite Hs. cbn [res_bind].
      assert (exists j', realloc ((Some <$> l) ++ j) c = (Some <$> l) ++ j' /\ zlen l + zlen j' = c) as (j' & -> & Hj').
      { unfold realloc.
        exists (take (Z.to_nat (c - zlen l)) j ++ malloc (c - (zlen l + zlen j))).
        rewrite take_app_ge by (unfold zlen in *; lia). rewrite <- app_assoc, zlen_app, El.
        replace (Z.to_nat c - length (Some <$> l))%nat with (Z.to_nat (c - zlen l)) by (unfold zlen in *; lia).
        split; [done|]. unfold zlen, malloc in *. rewrite length_app, length_take, length_replicate. lia. }
      eexists _, j'. split; [done|]. split; [|lia].
      replace c with (zlen ((Some <$> l) ++ j')) by (rewrite zlen_app, El; lia).
      apply hold_indirect; rewrite zlen_app, El; lia.
Qed.

(** A vector of [n] elements may be grown: the room asked for is below 2^31. *)
Definition growable (n : Z) : Prop := n + n / 2 < 2 ^ 31.

Lemma ensure_holds n (c : Z) v l j : holds v l j -> zlen l <= c < 2 ^ 31 -> 0 <= n <= c ->
  exists v' j', (let? cap := capacity N v in if cap <? n then change_capacity N c v else Ok v) = Ok v' /\
    holds v' l j' /\ n <= zlen l + zlen j'.
Proof.
  intros H Hc Hn. rewrite (holds_capacity _ _ _ H). cbn [res_bind]. case_bool; bool_hyps.
  - destruct (change_capacity_holds c _ _ _ H) as (v' & j' & E & H' & Hl); [lia|].
    exists v', j'. split_and!; [done|done|lia].
  - exists v, j. split_and!; [done|done|lia].
Qed.

Lemma grow_holds n v l j : holds v l j -> zlen l <= n -> growable n ->
  exists v' j', grow N n v = Ok v' /\ holds v' l j' /\ n <= zlen l + zlen j'.
Proof.
  intros H Hn Hg. unfold growable in Hg. pose proof (holds_len _ _ _ H) as (Hl & _ & _).
  unfold grow. rewrite Z.shiftr_div_pow2 by lia. change (2 ^ 1) with 2. rewrite u32_small by lia.
  eapply (ensure_holds n (n + n / 2)); [exact H|lia|lia].
Qed.

(** ** The operations *)

Lemma destroy_range_hold k v n m s : hold v n s -> m = n - Z.of_nat k -> 0 <= m ->
  hold (destroy_range k v) m s.
Proof.
  revert v n; induction k as [|k IH]; intros v n H -> Hk; cbn [destroy_range].
  - by replace (n - Z.of_nat 0) with n by lia.
  - pose proof (hold_bounds _ _ _ H).
    eapply (IH _ (n - 1)); [apply (hold_set_size v n s (-1)); [done|lia|lia]|lia|lia].
Qed.

Lemma erase_holds v a b c j : holds v (a ++ b ++ c) j ->
  exists v' j', erase N (zlen a) (zlen a + zlen b) v = Ok (v', zlen a) /\ holds v' (a ++ c) j'.
Proof.
  intros H. pose proof (holds_len _ _ _ H) as (Hl & Hj & Hb). rewrite !zlen_app in *.
  pose proof (zlen_nonneg a). pose proof (zlen_nonneg b). pose proof (zlen_nonneg c).
  unfold erase, end_. rewrite (holds_size _ _ _ H), !zlen_app, item_ptr_small by lia.
  rewrite (hold_slots _ _ _ H). cbn [res_bind].
  replace (zlen a + (zlen b + zlen c) - (zlen a + zlen b)) with (zlen c) by lia.
  rewrite !fmap_app, <- !app_assoc.
  rewrite <- (zlen_fmap Some a), <- (zlen_fmap Some b), <- (zlen_fmap Some c), memmove_down. cbn [res_bind].
  set (j' := drop _ _). eexists _, j'. split; [done|]. rewrite !zlen_fmap.
  unfold holds. rewrite fmap_app, <- app_assoc. eapply destroy_range_hold.
  - eapply hold_set_slots; [exact H|]. subst j'. unfold zlen.
    rewrite !fmap_app, !length_app, length_drop, !length_app. lia.
  - rewrite !zlen_app. unfold zlen. lia.
  - rewrite zlen_app; unfold zlen; lia.
Qed.

Lemma resize_holds n v l j : holds v l j -> 0 <= n < 2 ^ 31 ->
  exists v' j', resize N T_default n v = Ok v' /\
    holds v' (take (Z.to_nat n) l ++ replicate (Z.to_nat (n - zlen l)) T_default) j'.
Proof.
  intros H Hn. pose proof (holds_len _ _ _ H) as (Hl & Hj & Hb).
  unfold resize. rewrite (holds_size _ _ _ H).
  assert (exists v1 j1, (if n <? zlen l then let? (v, _) := erase N (item_ptr n) (end_ N v) v in Ok v else Ok v) = Ok v1 /\
     holds v1 (take (Z.to_nat n) l) j1) as (v1 & j1 & -> & H1).
  { case_bool; bool_hyps.
    - destruct (zlen_split_at n l) as (a & b & -> & Ea); [lia|].
      replace (take (Z.to_nat n) (a ++ b)) with a
        by (replace (Z.to_nat n) with (length a) by (unfold zlen in *; lia); by rewrite take_app_length).
      unfold end_. rewrite (holds_size _ _ _ H), !item_ptr_small, zlen_app, <- Ea by lia.
      destruct (erase_holds v a b [] j) as (v1 & j1 & -> & H1); [by rewrite app_nil_r|].
      exists v1, j1. by rewrite app_nil_r in H1.
    - exists v, j. rewrite take_ge by (unfold zlen in *; lia). done. }
  cbn [res_bind].
  assert (zlen (take (Z.to_nat n) l) = Z.min n (zlen l)) as El
    by (unfold zlen; rewrite length_take; lia).
  destruct (ensure_holds n n _ _ _ H1) as (v2 & j2 & E2 & H2 & Hr); [lia|lia|].
  destruct (capacity N v1); [|done..]. cbn [res_bind] in *. rewrite E2. cbn [res_bind].
  destruct (fill_holds n T_default _ _ _ H2) as (v3 & j3 & E3 & H3); [lia|lia|].
  exists v3, j3. split; [done|]. rewrite El in H3.
  replace (Z.to_nat (n - zlen l)) with (Z.to_nat (n - Z.min n (zlen l))) by lia. done.
Qed.

Lemma clear_holds v l j : holds v l j -> exists v' j', clear N T_default v = Ok v' /\ holds v' [] j'.
Proof.
  intros H. destruct (resize_holds 0 _ _ _ H) as (v' & j' & E & H'); [lia|].
  pose proof (zlen_nonneg l). exists v', j'. split; [done|].
  replace (Z.to_nat (0 - zlen l)) with O in H' by lia. by rewrite take_0 in H'.
Qed.

(** The gap the three insertions open. *)
Lemma insert_gap v a c j k : holds v (a ++ c) j -> 0 <= k -> growable (zlen (a ++ c) + k) ->
  exists v' m j', zlen m = k /\ zlen a + zlen c + k < 2 ^ 31 /\
    (let? v := grow N (u32 (size N v + k)) v in
     let? v := move N (item_ptr (u32 (zlen a + k))) (item_ptr (zlen a)) (u32 (size N v - zlen a)) v in
     Ok (set_size (_size v + k) v)) = Ok v' /\
    hold v' (zlen a + zlen c + k) ((Some <$> a) ++ m ++ (Some <$> c) ++ j').
Proof.
  intros H Hk Hg. pose proof (holds_len _ _ _ H) as (Hl & Hj & Hb).
  pose proof (zlen_nonneg a) as Ha. pose proof (zlen_nonneg c) as Hc.
  assert (zlen (a ++ c) + k < 2 ^ 31) as Hs by (unfold growable in Hg; lia).
  rewrite (holds_size _ _ _ H), u32_small by lia.
  edestruct grow_holds as (v1 & j1 & -> & H1 & Hr); [exact H| |exact Hg|]; [lia|]. cbn [res_bind].
  pose proof (holds_len _ _ _ H1) as (_ & _ & Hb1).
  rewrite (holds_size _ _ _ H1). rewrite zlen_app in *.
  rewrite !item_ptr_small, !u32_small by (rewrite ?u32_small by lia; lia).
  unfold move. rewrite (hold_slots _ _ _ H1). cbn [res_bind].
  replace (zlen a + zlen c - zlen a) with (zlen c) by lia.
  rewrite fmap_app, <- app_assoc.
  destruct (memmove_up (Some <$> a) (Some <$> c) j1 k ltac:(lia)) as (m & j2 & E & Hm & Hj2).
  rewrite !zlen_fmap in E. rewrite E. cbn [res_bind].
  eexists _, m, j2. split_and!; [done|lia|done|].
  eapply hold_set_size; [eapply hold_set_slots; [exact H1|]|rewrite zlen_app; lia|].
  - rewrite fmap_app, !zlen_app, !zlen_fmap. lia.
  - rewrite !zlen_app, !zlen_fmap. lia.
Qed.

Lemma fill_gap v a c m j xs : hold v (zlen a + zlen c + zlen xs) ((Some <$> a) ++ m ++ (Some <$> c) ++ j) ->
  zlen m = zlen xs ->
  exists v', construct_range N (zlen a) xs v = Ok v' /\ holds v' (a ++ xs ++ c) j.
Proof.
  intros H Hm. destruct (construct_range_over xs _ _ (Some <$> a) m _ (zlen a) ltac:(by rewrite zlen_fmap) Hm H)
    as (v' & E & H').
  exists v'. split; [done|]. unfold holds. rewrite !fmap_app, !zlen_app, <- !app_assoc.
  by replace (zlen a + (zlen xs + zlen c)) with (zlen a + zlen c + zlen xs) by lia.
Qed.

Lemma insert_position n : 0 <= n < 2 ^ 31 -> u32 (iterator.diff n begin_) = n.
Proof.
  intros. unfold iterator.diff. change begin_ with 0. rewrite Z.sub_0_r.
  rewrite wrap_swrap by lia. by apply u32_small.
Qed.

Lemma insert_range_holds v a c j xs : holds v (a ++ c) j -> growable (zlen (a ++ c) + zlen xs) ->
  exists v' j', insert_range N (zlen a) xs v = Ok v' /\ holds v' (a ++ xs ++ c) j'.
Proof.
  intros H Hg. pose proof (holds_len _ _ _ H) as (Hl & Hj & Hb). pose proof (zlen_nonneg xs) as Hx.
  pose proof (zlen_nonneg a) as Ha. pose proof (zlen_nonneg c) as Hc.
  destruct (insert_gap _ _ _ _ (zlen xs) H ltac:(assumption) Hg) as (v1 & m & j1 & Hm & Hlt & E & H1).
  rewrite zlen_app in *. unfold insert_range. rewrite insert_position by lia.
  replace (i32 (zlen xs)) with (zlen xs) by (symmetry; apply swrap_small; unfold in_s; lia).
  destruct (grow N _ v) as [v2| | | |]; [|done..]. cbn [res_bind] in *.
  destruct (move N _ _ _ v2) as [v3| | | |]; [|done..]. cbn [res_bind] in *. injection E as E.
  rewrite E. destruct (fill_gap _ _ _ _ _ _ H1 Hm) as (v' & E' & H'). eauto.
Qed.

Lemma insert_n_range v a c j n x : holds v (a ++ c) j -> growable (zlen (a ++ c) + n) -> 0 <= n ->
  insert_n N (zlen a) n x v = insert_range N (zlen a) (replicate (Z.to_nat n) x) v.
Proof.
  intros H Hg Hn. pose proof (holds_len _ _ _ H) as (Hl & Hj & Hb).
  pose proof (zlen_nonneg a) as Ha. pose proof (zlen_nonneg c) as Hc.
  destruct (insert_gap _ _ _ _ n H ltac:(assumption) Hg) as (v1 & m & j1 & Hm & Hlt & E & H1).
  rewrite zlen_app in *. unfold insert_n, insert_range. rewrite insert_position by lia.
  replace (zlen (replicate _ x)) with n by (unfold zlen; rewrite length_replicate; lia).
  replace (i32 n) with n by (symmetry; apply swrap_small; unfold in_s; lia).
  destruct (grow N _ v) as [v2| | | |]; [|done..]. cbn [res_bind].
  destruct (move N _ _ _ v2) as [v3| | | |]; [|done..]. cbn [res_bind].
  rewrite construct_n_range by lia. by rewrite Z.add_0_r.
Qed.

Lemma insert_one_range v a c j x : holds v (a ++ c) j -> growable (zlen (a ++ c) + 1) ->
  insert N (zlen a) x v = (let? v := insert_range N (zlen a) [x] v in Ok (v, zlen a)).
Proof.
  intros H Hg. pose proof (holds_len _ _ _ H) as (Hl & Hj & Hb).
  pose proof (zlen_nonneg a) as Ha. pose proof (zlen_nonneg c) as Hc. rewrite zlen_app in *.
  unfold insert, insert_range. rewrite insert_position, (item_ptr_small (zlen a)) by lia.
  change (i32 (zlen [x])) with 1.
  destruct (grow N _ v) as [v2| | | |]; [|done..]. cbn [res_bind].
  destruct (move N _ _ _ v2) as [v3| | | |]; [|done..]. cbn [res_bind construct_range].
  by destruct (construct N _ _ _).
Qed.

Lemma push_back_holds v l j x : holds v l j -> growable (zlen l + 1) ->
  exists v' j', push_back N x v = Ok v' /\ holds v' (l ++ [x]) j'.
Proof.
  intros H Hg. pose proof (holds_len _ _ _ H) as (Hl & Hj & Hb).
  assert (zlen l + 1 < 2 ^ 31) as Hs by (unfold growable in Hg; lia).
  unfold push_back. rewrite (holds_size _ _ _ H), u32_small by lia.
  edestruct grow_holds as (v1 & j1 & -> & H1 & Hr); [exact H| |exact Hg|]; [lia|]. cbn [res_bind].
  rewrite (holds_size _ _ _ H1).
  destruct j1 as [|o j1]; [unfold zlen in *; simpl in *; lia|].
  destruct (construct_over _ _ _ _ o x (zlen (Some <$> l)) eq_refl H1) as (v2 & E2 & H2).
  rewrite zlen_fmap in E2. rewrite E2. cbn [res_bind].
  exists (set_size (_size v2 + 1) v2), j1. split; [done|].
  unfold holds. rewrite fmap_app, <- app_assoc. eapply hold_set_size; [exact H2|by rewrite zlen_app|].
  simpl. rewrite !zlen_app, zlen_fmap, zlen_cons. unfold zlen; simpl; lia.
Qed.

Lemma append_fresh (c : Z) xs v l j : holds v l j -> zlen l = 0 -> zlen xs <= c < 2 ^ 31 ->
  zlen xs <= zlen l + zlen j ->
  exists v' j', append_range N xs v = Ok v' /\ holds v' xs j'.
Proof.
  intros H Hl Hx Hj. destruct l; [|unfold zlen in Hl; simpl in Hl; lia].
  destruct (append_range_holds xs _ _ _ H) as (v' & j' & E & H' & _); [unfold zlen in *; simpl in *; lia|].
  eauto.
Qed.

(** ** Reading *)

Lemma deref_mid v n (a c : list (option T)) x : hold v n (a ++ Some x :: c) -> deref N v (zlen a) = Ok x.
Proof.
  intros H. unfold deref. rewrite (hold_slots _ _ _ H). cbn [res_bind].
  change (Some x :: c) with ([Some x] ++ c). change 1 with (zlen [Some x]) at 1.
  by rewrite mem_read_app.
Qed.

Lemma deref_holds v a x c j : holds v (a ++ x :: c) j -> deref N v (zlen a) = Ok x.
Proof.
  unfold holds. rewrite fmap_app, <- app_assoc. intros H.
  rewrite <- (zlen_fmap Some a). eapply (deref_mid _ _ _ ((Some <$> c) ++ j)). exact H.
Qed.

Lemma holds_end v l j : holds v l j -> end_ N v = zlen l.
Proof.
  intros H. pose proof (holds_len _ _ _ H). unfold end_. by rewrite (holds_size _ _ _ H), item_ptr_small by lia.
Qed.

Lemma collect_loop_holds fuel v a b j : holds v (a ++ b) j -> (length b <= fuel)%nat ->
  collect_loop N fuel (zlen a) (zlen (a ++ b)) v = Ok b.
Proof.
  revert a b; induction fuel as [|fuel IH]; intros a b H Hf; cbn [collect_loop]; rewrite zlen_ne;
    (destruct b as [|x b]; [done|]; simpl in Hf; try lia).
  rewrite bool_decide_eq_false_2 by done. cbn [negb].
  rewrite (deref_holds _ _ _ _ _ H). cbn [res_bind].
  rewrite (incr_zlen a x). replace (a ++ x :: b) with ((a ++ [x]) ++ b) in * by (by rewrite <- app_assoc).
  rewrite IH by (done || lia). done.
Qed.

Lemma collect_holds v l j : holds v l j -> collect N v = Ok l.
Proof.
  intros H. unfold collect. rewrite (holds_end _ _ _ H), (holds_size _ _ _ H), (@begin_zlen T).
  apply (collect_loop_holds _ v [] l j H). unfold zlen; lia.
Qed.

Lemma rcollect_loop_holds fuel v a b j : holds v (a ++ b) j -> (length a <= fuel)%nat ->
  rcollect_loop N fuel (zlen a - 1) rend v = Ok (rev a).
Proof.
  revert a b; induction fuel as [|fuel IH]; intros a b H Hf; cbn [rcollect_loop];
    unfold const_reverse_iterator.ne; change rend with (-1);
    (destruct a as [|x a _] using rev_ind; [done|]; rewrite length_app in Hf; simpl in Hf; try lia).
  rewrite zlen_app. pose proof (zlen_nonneg a).
  rewrite (proj2 (Z.eqb_neq _ _)) by (unfold zlen in *; simpl; lia). cbn [negb].
  replace (zlen a + zlen [x] - 1) with (zlen a) by (unfold zlen; simpl; lia).
  rewrite <- app_assoc in H. rewrite (deref_holds _ _ _ _ _ H). cbn [res_bind].
  unfold const_reverse_iterator.incr. change (-1) with rend. rewrite (IH a _ H) by lia.
  cbn [res_bind]. by rewrite rev_app_distr.
Qed.

Lemma rcollect_holds v l j : holds v l j -> rcollect N v = Ok (rev l).
Proof.
  intros H. pose proof (holds_len _ _ _ H) as (Hl & Hj & Hb). unfold rcollect, rbegin.
  rewrite (holds_size _ _ _ H). rewrite <- (app_nil_r l) in H.
  assert (item_ptr (u32 (zlen l - 1)) = zlen l - 1) as ->.
  { unfold item_ptr. destruct (decide (zlen l = 0)) as [->|]; [done|].
    rewrite u32_small by lia. apply swrap_small; unfold in_s; lia. }
  apply (rcollect_loop_holds _ v l [] j H). unfold zlen; lia.
Qed.

Lemma copy_loop_holds fuel other v a b jo j : holds other (a ++ b) jo -> holds v a j ->
  zlen b <= zlen j -> (length b <= fuel)%nat ->
  exists v' j', copy_loop N fuel (zlen a) other v = Ok v' /\ holds v' (a ++ b) j'.
Proof.
  revert v a b j; induction fuel as [|fuel IH]; intros v a b j Ho Hv Hj Hf; cbn [copy_loop];
    rewrite (holds_end _ _ _ Ho), zlen_ne;
    (destruct b as [|x b]; [rewrite app_nil_r; eauto|]; simpl in Hf; try lia).
  rewrite bool_decide_eq_false_2 by done. cbn [negb].
  rewrite (deref_holds _ _ _ _ _ Ho). cbn [res_bind].
  destruct j as [|o j]; [unfold zlen in Hj; simpl in Hj; lia|]. rewrite !zlen_cons in Hj.
  destruct (append_one _ _ _ x Hv) as (v1 & -> & H1); [done|]. cbn [res_bind].
  rewrite (incr_zlen a x). replace (a ++ x :: b) with ((a ++ [x]) ++ b) in * by (by rewrite <- app_assoc).
  apply (IH _ _ _ j); [done|done|simpl; lia|lia].
Qed.

Lemma make_holds : holds (make N) [] (malloc N).
Proof. unfold holds. apply hold_direct; simpl; rewrite ?zlen_malloc; unfold zlen; simpl; lia. Qed.

(** Storage prepared for [n] elements in an empty vector, as every constructor does. *)
Lemma prepare_holds n v j : holds v [] j -> 0 <= n < 2 ^ 31 ->
  exists v' j', change_capacity N n v = Ok v' /\ holds v' [] j' /\ n <= zlen j'.
Proof.
  intros H Hn. destruct (change_capacity_holds n _ _ _ H) as (v' & j' & E & H' & Hl);
    rewrite ?(eq_refl : zlen (@nil T) = 0) in *; [lia|]. exists v', j'. split_and!; [done|done|lia].
Qed.

Lemma copy_holds other v l jo j : holds other l jo -> holds v [] j ->
  exists v' j', (let? v := change_capacity N (size N other) v in
     copy_loop N (Z.to_nat (size N other)) begin_ other v) = Ok v' /\ holds v' l j'.
Proof.
  intros Ho Hv. pose proof (holds_len _ _ _ Ho). rewrite (holds_size _ _ _ Ho).
  destruct (prepare_holds (zlen l) _ _ Hv) as (v1 & j1 & -> & H1 & Hj1); [lia|]. cbn [res_bind].
  rewrite (@begin_zlen T). eapply (copy_loop_holds _ other v1 [] l); [exact Ho|exact H1|done|].
  unfold zlen; lia.
Qed.

(** ** A command language over vectors *)

Inductive vop : Type :=
| PushBack (x : T) | PopBack | Insert (p : Z) (x : T) | InsertN (p n : Z) (x : T)
| InsertRange (p : Z) (xs : list T) | Erase1 (p : Z) | Erase (p q : Z)
| Resize (n : Z) | Reserve (n : Z) | ShrinkToFit | Clear
| Assign (n : Z) (x : T) | AssignRange (xs : list T) | Put (p : Z) (x : T).

Definition exec (o : vop) (v : prevector) : res prevector :=
  match o with
  | PushBack x => push_back N x v
  | PopBack => pop_back N v
  | Insert p x => let? (v, _) := insert N p x v in Ok v
  | InsertN p n x => insert_n N p n x v
  | InsertRange p xs => insert_range N p xs v
  | Erase1 p => let? (v, _) := erase1 N p v in Ok v
  | Erase p q => let? (v, _) := erase N p q v in Ok v
  | Resize n => resize N T_default n v
  | Reserve n => reserve N n v
  | ShrinkToFit => shrink_to_fit N v
  | Clear => clear N T_default v
  | Assign n x => assign N T_default n x v
  | AssignRange xs => assign_range N T_default xs v
  | Put p x => put N p x v
  end.

Fixpoint exec_all (os : list vop) (v : prevector) : res prevector :=
  match os with
  | [] => Ok v
  | o :: os => let? v := exec o v in exec_all os v
  end.

(** What [std::vector] does; [None] where its contract, or the size the
    storage can have, is violated. *)
Definition splice (p q : Z) (xs l : list T) : list T :=
  take (Z.to_nat p) l ++ xs ++ drop (Z.to_nat q) l.

Definition guard_list (P : Prop) `{Decision P} (l : list T) : option (list T) :=
  if decide P then Some l else None.

#[local] Instance growable_dec n : Decision (growable n).
Proof. unfold growable; apply _. Defined.

Definition spec (o : vop) (l : list T) : option (list T) :=
  let n := zlen l in
  match o with
  | PushBack x => guard_list (growable (n + 1)) (l ++ [x])
  | PopBack => guard_list (0 < n) (splice (n - 1) n [] l)
  | Insert p x => guard_list (0 <= p <= n /\ growable (n + 1)) (splice p p [x] l)
  | InsertN p k x => guard_list (0 <= p <= n /\ 0 <= k /\ growable (n + k)) (splice p p (replicate (Z.to_nat k) x) l)
  | InsertRange p xs => guard_list (0 <= p <= n /\ growable (n + zlen xs)) (splice p p xs l)
  | Erase1 p => guard_list (0 <= p < n) (splice p (p + 1) [] l)
  | Erase p q => guard_list (0 <= p <= q /\ q <= n) (splice p q [] l)
  | Resize k => guard_list (0 <= k < 2 ^ 31) (take (Z.to_nat k) l ++ replicate (Z.to_nat (k - n)) T_default)
  | Reserve k => guard_list (0 <= k < 2 ^ 31) l
  | ShrinkToFit => Some l
  | Clear => Some []
  | Assign k x => guard_list (0 <= k < 2 ^ 31) (replicate (Z.to_nat k) x)
  | AssignRange xs => guard_list (zlen xs < 2 ^ 31) xs
  | Put p x => guard_list (0 <= p < n) (splice p (p + 1) [x] l)
  end.

Fixpoint spec_all (os : list vop) (l : list T) : option (list T) :=
  match os with
  | [] => Some l
  | o :: os => l ← spec o l; spec_all os l
  end.

Lemma guard_list_Some (P : Prop) `{Decision P} l l' : guard_list P l = Some l' -> P /\ l' = l.
Proof. unfold guard_list. case_decide; [|done]. by intros [= <-]. Qed.

Lemma splice_app a b c xs p q : p = zlen a -> q = zlen a + zlen b -> splice p q xs (a ++ b ++ c) = a ++ xs ++ c.
Proof.
  intros -> ->. unfold splice, zlen. rewrite Nat2Z.id, take_app_length.
  replace (Z.to_nat (Z.of_nat (length a) + Z.of_nat (length b))) with (length a + length b)%nat by lia.
  by rewrite <- drop_drop, !drop_app_length.
Qed.

Lemma split3 p q l : 0 <= p <= q -> q <= zlen l ->
  exists a b c, l = a ++ b ++ c /\ p = zlen a /\ q = zlen a + zlen b.
Proof.
  intros. destruct (zlen_split_at p l) as (a & r & -> & Ha); [lia|]. rewrite zlen_app in *.
  destruct (zlen_split_at (q - p) r) as (b & c & -> & Hb); [lia|].
  exists a, b, c. split_and!; [done|lia|lia].
Qed.

Lemma erase_represents p q v l : represents v l -> 0 <= p <= q -> q <= zlen l ->
  exists v', erase N p q v = Ok (v', p) /\ represents v' (splice p q [] l).
Proof.
  intros [j H] Hp Hq. destruct (split3 p q l) as (a & b & c & -> & -> & ->); [done..|].
  destruct (erase_holds _ _ _ _ _ H) as (v' & j' & E & H').
  exists v'. split; [done|]. rewrite splice_app by done. by exists j'.
Qed.

Lemma insert_range_represents p xs v l : represents v l -> 0 <= p <= zlen l ->
  growable (zlen l + zlen xs) ->
  exists v', insert_range N p xs v = Ok v' /\ represents v' (splice p p xs l).
Proof.
  intros [j H] Hp Hg. destruct (split3 p p l) as (a & b & c & -> & -> & Eb); [lia..|].
  destruct b; [|rewrite zlen_cons in Eb; pose proof (zlen_nonneg b); lia].
  destruct (insert_range_holds _ a c _ xs H Hg) as (v' & j' & E & H').
  exists v'. split; [done|]. rewrite (splice_app a [] c) by done. by exists j'.
Qed.

Lemma insert_as_range p v l : represents v l -> 0 <= p <= zlen l ->
  (forall k x, 0 <= k -> growable (zlen l + k) ->
     insert_n N p k x v = insert_range N p (replicate (Z.to_nat k) x) v) /\
  (forall x, growable (zlen l + 1) ->
     insert N p x v = (let? v := insert_range N p [x] v in Ok (v, p))).
Proof.
  intros [j H] Hp. destruct (zlen_split_at p l) as (a & c & -> & <-); [lia|]. split; intros.
  - by eapply insert_n_range.
  - by eapply insert_one_range.
Qed.

Lemma put_represents p x v l : represents v l -> 0 <= p < zlen l ->
  exists v', put N p x v = Ok v' /\ represents v' (splice p (p + 1) [x] l).
Proof.
  intros [j H] Hp. destruct (split3 p (p + 1) l) as (a & b & c & -> & -> & Eb); [lia..|].
  destruct b as [|y [|]]; rewrite ?zlen_cons in Eb; try (unfold zlen in Eb; simpl in Eb; lia).
  unfold holds in H. rewrite !fmap_app, <- !app_assoc in H. simpl in H.
  destruct (construct_over _ _ _ _ _ x (zlen (Some <$> a)) eq_refl H) as (v' & E & H').
  rewrite zlen_fmap in E. exists v'. split; [done|]. rewrite (splice_app a [y] c) by done.
  exists j. unfold holds. rewrite !fmap_app, <- !app_assoc. simpl.
  by rewrite zlen_app, zlen_cons in *.
Qed.

Lemma reset_represents n v l : represents v l -> 0 <= n < 2 ^ 31 ->
  exists v' j, (let? v := clear N T_default v in let? k := capacity N v in
      if k <? n then change_capacity N n v else Ok v) = Ok v' /\ holds v' [] j /\ n <= zlen j.
Proof.
  intros [j H] Hn. destruct (clear_holds _ _ _ H) as (v1 & j1 & -> & H1). cbn [res_bind].
  destruct (ensure_holds n n _ _ _ H1) as (v2 & j2 & E & H2 & Hr); rewrite ?(eq_refl : zlen (@nil T) = 0) in *; [lia|lia|].
  exists v2, j2. split_and!; [done|done|lia].
Qed.

Lemma assign_represents n x v l : represents v l -> 0 <= n < 2 ^ 31 ->
  exists v', assign N T_default n x v = Ok v' /\ represents v' (replicate (Z.to_nat n) x).
Proof.
  intros H Hn. destruct (reset_represents _ _ _ H Hn) as (v1 & j1 & E1 & H1 & Hj).
  unfold assign. destruct (clear N T_default v); [|done..]. cbn [res_bind] in *.
  destruct (capacity N _); [|done..]. cbn [res_bind] in *. rewrite E1. cbn [res_bind].
  destruct (fill_holds n x _ _ _ H1) as (v2 & j2 & E2 & H2); rewrite ?(eq_refl : zlen (@nil T) = 0) in *; [lia|lia|].
  exists v2. split; [done|]. exists j2. by rewrite Z.sub_0_r in H2.
Qed.

Lemma assign_range_represents xs v l : represents v l -> zlen xs < 2 ^ 31 ->
  exists v', assign_range N T_default xs v = Ok v' /\ represents v' xs.
Proof.
  intros H Hn. pose proof (zlen_nonneg xs) as Hx.
  destruct (reset_represents (zlen xs) _ _ H) as (v1 & j1 & E1 & H1 & Hj); [lia|].
  unfold assign_range. rewrite u32_small by lia.
  destruct (clear N T_default v); [|done..]. cbn [res_bind] in *.
  destruct (capacity N _); [|done..]. cbn [res_bind] in *. rewrite E1. cbn [res_bind].
  destruct (append_range_holds xs _ _ _ H1 Hj) as (v2 & j2 & E2 & H2 & _).
  exists v2. split; [done|]. by exists j2.
Qed.

(** One step: wherever the list operation is defined, the vector does it. *)
Lemma exec_spec o v l l' : represents v l -> spec o l = Some l' ->
  exists v', exec o v = Ok v' /\ represents v' l'.
Proof.
  intros Hr Hs. pose proof Hr as [j H]. pose proof (zlen_nonneg l).
  destruct o as [x| |p x|p n x|p xs|p|p q|n|n| | |n x|xs|p x]; cbn [exec spec] in *;
    try apply guard_list_Some in Hs as [Hg ->].
  - destruct (push_back_holds _ _ _ x H Hg) as (v' & j' & E & H'). exists v'. split; [done|by exists j'].
  - unfold pop_back. rewrite (holds_end _ _ _ H). unfold iterator.minus.
    destruct (erase_represents (zlen l - 1) (zlen l) _ _ Hr) as (v' & -> & H'); [lia|lia|]. eauto.
  - destruct Hg as [Hp Hg]. rewrite (proj2 (insert_as_range _ _ _ Hr Hp) _ Hg).
    destruct (insert_range_represents p [x] _ _ Hr Hp Hg) as (v' & -> & H'). eauto.
  - destruct Hg as (Hp & Hn & Hg). rewrite (proj1 (insert_as_range _ _ _ Hr Hp) _ _ Hn Hg).
    apply insert_range_represents; [done|done|].
    by replace (zlen (replicate _ x)) with n by (unfold zlen; rewrite length_replicate; lia).
  - destruct Hg as [Hp Hg]. by apply insert_range_represents.
  - unfold erase1, iterator.plus. destruct (erase_represents p (p + 1) _ _ Hr) as (v' & -> & H'); [lia|lia|]. eauto.
  - destruct (erase_represents p q _ _ Hr) as (v' & -> & H'); [lia|lia|]. eauto.
  - destruct (resize_holds n _ _ _ H Hg) as (v' & j' & E & H'). exists v'. split; [done|by exists j'].
  - unfold reserve. rewrite (holds_capacity _ _ _ H). cbn [res_bind]. case_bool; bool_hyps; [|eauto].
    pose proof (holds_len _ _ _ H).
    destruct (change_capacity_holds n _ _ _ H) as (v' & j' & E & H' & _); [lia|]. exists v'. split; [done|by exists j'].
  - injection Hs as <-. unfold shrink_to_fit. rewrite (holds_size _ _ _ H). pose proof (holds_len _ _ _ H).
    destruct (change_capacity_holds (zlen l) _ _ _ H) as (v' & j' & E & H' & _); [lia|].
    exists v'. split; [done|by exists j'].
  - injection Hs as <-. destruct (clear_holds _ _ _ H) as (v' & j' & E & H'). exists v'. split; [done|by exists j'].
  - by eapply assign_represents.
  - by eapply assign_range_represents.
  - by apply put_represents.
Qed.

Lemma exec_all_spec os v l l' : represents v l -> spec_all os l = Some l' ->
  exists v', exec_all os v = Ok v' /\ represents v' l'.
Proof.
  revert v l; induction os as [|o os IH]; intros v l Hr Hs; cbn [exec_all spec_all] in *.
  - injection Hs as <-. eauto.
  - apply bind_Some in Hs as (l1 & Ho & Hs). destruct (exec_spec _ _ _ _ Hr Ho) as (v1 & -> & H1).
    cbn [res_bind]. by eapply IH.
Qed.

(** Every constructor and assignment. *)
Lemma make_fill_represents n x : 0 <= n < 2 ^ 31 ->
  exists v, make_fill N n x = Ok v /\ represents v (replicate (Z.to_nat n) x).
Proof.
  intros Hn. unfold make_fill. destruct (prepare_holds n _ _ make_holds Hn) as (v1 & j1 & -> & H1 & Hj).
  cbn [res_bind]. destruct (fill_holds n x _ _ _ H1) as (v2 & j2 & E2 & H2);
    rewrite ?(eq_refl : zlen (@nil T) = 0) in *; [lia|lia|].
  exists v2. split; [done|]. exists j2. by rewrite Z.sub_0_r in H2.
Qed.

Lemma make_range_represents xs : zlen xs < 2 ^ 31 -> exists v, make_range N xs = Ok v /\ represents v xs.
Proof.
  intros Hn. pose proof (zlen_nonneg xs). unfold make_range. rewrite u32_small by lia.
  destruct (prepare_holds (zlen xs) _ _ make_holds) as (v1 & j1 & -> & H1 & Hj); [lia|]. cbn [res_bind].
  destruct (append_range_holds xs _ _ _ H1 Hj) as (v2 & j2 & E2 & H2 & _). exists v2. split; [done|]. by exists j2.
Qed.

Lemma make_size_represents n : 0 <= n < 2 ^ 31 ->
  exists v, make_size N T_default n = Ok v /\ represents v (replicate (Z.to_nat n) T_default).
Proof.
  intros Hn. destruct (resize_holds n _ _ _ make_holds Hn) as (v & j & E & H).
  exists v. split; [done|]. exists j. rewrite (eq_refl : zlen (@nil T) = 0), Z.sub_0_r, take_nil in H. done.
Qed.

Lemma op_assign_represents other v l k : represents other k -> represents v l ->
  exists v', op_assign N T_default other v = Ok v' /\ represents v' k.
Proof.
  intros [jo Ho] [j H]. unfold op_assign.
  destruct (clear_holds _ _ _ H) as (v1 & j1 & E1 & H1). unfold clear in E1. rewrite E1. cbn [res_bind].
  destruct (copy_holds _ _ _ _ _ Ho H1) as (v2 & j2 & E2 & H2). exists v2. split; [done|]. by exists j2.
Qed.

Lemma make_copy_represents other l : represents other l ->
  exists v, make_copy N other = Ok v /\ represents v l.
Proof.
  intros [jo Ho]. destruct (copy_holds _ _ _ _ _ Ho make_holds) as (v & j & E & H).
  exists v. split; [done|]. by exists j.
Qed.

Lemma make_represents : represents (make N) [].
Proof. exists (malloc N). apply make_holds. Qed.

(** ** Comparison *)

Context `{!EqDecision T} (T_lt : T -> T -> bool).

Definition T_ne (x y : T) : bool := negb (bool_decide (x = y)).

Fixpoint lex (l k : list T) : bool :=
  match l, k with
  | x :: l, y :: k => T_lt x y || (negb (T_lt y x) && lex l k)
  | _, _ => false
  end.

(** Shorter vectors come first, vectors of one length in lexicographic order. *)
Definition shortlex (l k : list T) : bool :=
  (zlen l <? zlen k) || ((zlen l =? zlen k) && lex l k).

Lemma eq_loop_holds fuel v w a a' b b' j j' : holds v (a ++ b) j -> holds w (a' ++ b') j' ->
  zlen a = zlen a' -> zlen b = zlen b' -> (length b <= fuel)%nat ->
  eq_loop N T_ne fuel (zlen a) (zlen a') (zlen (a ++ b)) v w = Ok (bool_decide (b = b')).
Proof.
  revert a a' b b'; induction fuel as [|fuel IH]; intros a a' b b' H H' Ha Hb Hf; cbn [eq_loop]; rewrite zlen_ne;
    (destruct b as [|x b], b' as [|y b']; try (unfold zlen in Hb; simpl in Hb; lia); [done|]; simpl in Hf; try lia).
  rewrite bool_decide_eq_false_2 by done. cbn [negb]. rewrite !zlen_cons in Hb.
  rewrite (deref_holds _ _ _ _ _ H), (deref_holds _ _ _ _ _ H'). cbn [res_bind]. unfold T_ne.
  case_bool_decide as E; cbn [negb]; [subst y|by rewrite bool_decide_eq_false_2 by congruence].
  rewrite (incr_zlen a x), (incr_zlen a' x).
  replace (a ++ x :: b) with ((a ++ [x]) ++ b) in * by (by rewrite <- app_assoc).
  replace (a' ++ x :: b') with ((a' ++ [x]) ++ b') in * by (by rewrite <- app_assoc).
  rewrite (IH _ _ b b') by (done || lia || (rewrite !zlen_app; lia)).
  f_equal. apply bool_decide_ext. split; congruence.
Qed.

Lemma lt_loop_holds fuel v w a a' b b' j j' : holds v (a ++ b) j -> holds w (a' ++ b') j' ->
  zlen a = zlen a' -> zlen b = zlen b' -> (length b <= fuel)%nat ->
  lt_loop N T_lt fuel (zlen a) (zlen a') (zlen (a ++ b)) v w = Ok (lex b b').
Proof.
  revert a a' b b'; induction fuel as [|fuel IH]; intros a a' b b' H H' Ha Hb Hf; cbn [lt_loop]; rewrite zlen_ne;
    (destruct b as [|x b], b' as [|y b']; try (unfold zlen in Hb; simpl in Hb; lia); [done|]; simpl in Hf; try lia).
  rewrite bool_decide_eq_false_2 by done. cbn [negb]. rewrite !zlen_cons in Hb.
  rewrite (deref_holds _ _ _ _ _ H), (deref_holds _ _ _ _ _ H'). cbn [res_bind lex].
  destruct (T_lt x y); [done|]. destruct (T_lt y x); [done|]. cbn [negb orb andb].
  rewrite (incr_zlen a x), (incr_zlen a' y).
  replace (a ++ x :: b) with ((a ++ [x]) ++ b) in * by (by rewrite <- app_assoc).
  replace (a' ++ y :: b') with ((a' ++ [y]) ++ b') in * by (by rewrite <- app_assoc).
  eapply IH; [exact H|exact H'|rewrite !zlen_app, !zlen_cons; change (zlen (@nil T)) with 0; lia|lia|lia].
Qed.

Lemma op_eq_represents v w l k : represents v l -> represents w k ->
  op_eq N T_ne v w = Ok (bool_decide (l = k)).
Proof.
  intros [j H] [j' H']. unfold op_eq. rewrite (holds_size _ _ _ H), (holds_size _ _ _ H').
  destruct (Z.eqb_spec (zlen k) (zlen l)) as [E|E]; cbn [negb].
  - rewrite (holds_end _ _ _ H). apply (eq_loop_holds _ v w [] [] l k j j'); try done. unfold zlen; lia.
  - rewrite bool_decide_eq_false_2 by congruence. done.
Qed.

Lemma op_lt_represents v w l k : represents v l -> represents w k ->
  op_lt N T_lt v w = Ok (shortlex l k).
Proof.
  intros [j H] [j' H']. unfold op_lt, shortlex. rewrite (holds_size _ _ _ H), (holds_size _ _ _ H').
  destruct (Z.ltb_spec (zlen l) (zlen k)); [done|].
  destruct (Z.ltb_spec (zlen k) (zlen l)).
  - by rewrite (proj2 (Z.eqb_neq _ _)) by lia.
  - rewrite (proj2 (Z.eqb_eq _ _)) by lia. rewrite (holds_end _ _ _ H).
    apply (lt_loop_holds _ v w [] [] l k j j'); try done; [lia|]. unfold zlen; lia.
Qed.

Lemma shortlex_total l k :
  (forall x y, T_lt x y = true \/ x = y \/ T_lt y x = true) ->
  shortlex l k = true \/ l = k \/ shortlex k l = true.
Proof.
  intros Htot. unfold shortlex.
  destruct (Z.lt_total (zlen l) (zlen k)) as [E|[E|E]].
  - left. by rewrite (proj2 (Z.ltb_lt _ _) E).
  - rewrite E, Z.ltb_irrefl, Z.eqb_refl. cbn [orb andb]. clear HN.
    revert k E; induction l as [|x l IH]; intros [|y k] E; rewrite ?zlen_cons in E;
      try (unfold zlen in E; simpl in E; lia); [by right; left|]. cbn [lex].
    destruct (Htot x y) as [-> | [-> | ->]]; [by left| |by do 2 right].
    destruct (T_lt y y); [by left|]. cbn [orb andb negb].
    destruct (IH k ltac:(lia)) as [-> | [-> | ->]]; auto.
  - right; right. by rewrite (proj2 (Z.ltb_lt _ _) E).
Qed.

End invariant.

(** ** Properties *)

(** C31: the vector refines the list.  Starting from an empty vector, any
    sequence of operations whose list counterpart is defined runs without
    undefined behaviour, moving between inline and allocated storage as it
    goes, and the vector then has the size of the list, its elements forwards
    and backwards, its first and last element, and a capacity that covers it. *)
Theorem prevector_refines_list {T : Type} (N : Z) (T_default : T) (os : list vop) (l : list T) :
  0 <= N < 2 ^ 30 -> spec_all T_default os [] = Some l ->
  exists v, exec_all N T_default os (make N) = Ok v /\
    size N v = zlen l /\ collect N v = Ok l /\ rcollect N v = Ok (rev l) /\
    (forall i x, l !! i = Some x -> get N (Z.of_nat i) v = Ok x) /\
    exists c, capacity N v = Ok c /\ N <= c /\ zlen l <= c.
Proof.
  intros HN Hs. destruct (exec_all_spec N T_default HN os _ _ _ (make_represents N HN) Hs) as (v & E & j & H).
  exists v. pose proof (holds_len N HN _ _ _ H) as Hl. split_and!.
  - exact E.
  - by eapply holds_size.
  - by eapply collect_holds.
  - by eapply rcollect_holds.
  - intros i x Hi. apply list_elem_of_split_length in Hi as (a & b & -> & ->).
    unfold get. pose proof (zlen_nonneg b). rewrite zlen_app, zlen_cons in Hl. unfold zlen in *.
    rewrite (item_ptr_small N HN) by lia. by eapply deref_holds.
  - exists (zlen l + zlen j). split_and!; [by eapply holds_capacity| |lia].
    apply (hold_min N HN) in H. by rewrite zlen_app, zlen_fmap in H.
Qed.

Definition ops_demo : list (vop (T := Z)) :=
  [PushBack 1; PushBack 2; PushBack 3; Insert 1 7; InsertRange 0 [8; 9]; Erase 1 3; InsertN 2 2 5; PopBack;
   Resize 3; ShrinkToFit; Resize 2; ShrinkToFit; PushBack 4; Put 0 6].

Lemma prevector_refines_list_witness : exists v,
  exec_all 2 0 ops_demo (make 2) = Ok v /\ size 2 v = 3 /\ collect 2 v = Ok [6; 7; 4].
Proof.
  destruct (prevector_refines_list 2 0 ops_demo [6; 7; 4]) as (v & E & Hz & Hc & _); [lia|vm_compute; reflexivity|].
  exists v. split; [exact E|]. split; [exact Hz|exact Hc].
Defined.

(** Constructors, copies, moves and comparisons of vectors are those of the
    lists: each constructor holds the elements it is given, copying and
    assigning give an equal vector, moving swaps contents with an empty one,
    [==] decides equality, and [<] is the order by size and then by elements,
    total when the order of the elements is. *)
Theorem prevector_values {T : Type} `{EqDecision T} (N : Z) (T_default : T) (T_lt : T -> T -> bool)
    (v w : prevector) (l k : list T) :
  0 <= N < 2 ^ 30 -> represents N v l -> represents N w k ->
  (forall n (x : T), 0 <= n < 2 ^ 31 -> exists u, make_fill N n x = Ok u /\ represents N u (replicate (Z.to_nat n) x)) /\
  (forall n, 0 <= n < 2 ^ 31 -> exists u, make_size N T_default n = Ok u /\
     represents N u (replicate (Z.to_nat n) T_default)) /\
  (forall xs : list T, zlen xs < 2 ^ 31 -> exists u, make_range N xs = Ok u /\ represents N u xs) /\
  (exists u, make_copy N v = Ok u /\ represents N u l /\ op_eq N T_ne u v = Ok true) /\
  (exists u, op_assign N T_default w v = Ok u /\ represents N u k) /\
  (represents N (fst (make_move N v)) l /\ represents N (snd (make_move N v)) []) /\
  op_eq N T_ne v w = Ok (bool_decide (l = k)) /\
  op_lt N T_lt v w = Ok (shortlex T_lt l k) /\
  ((forall x y, T_lt x y = true \/ x = y \/ T_lt y x = true) ->
     op_lt N T_lt v w = Ok true \/ op_eq N T_ne v w = Ok true \/ op_lt N T_lt w v = Ok true).
Proof.
  intros HN Hv Hw. pose proof (op_lt_represents N T_default HN T_lt _ _ _ _ Hv Hw) as Elt.
  pose proof (op_lt_represents N T_default HN T_lt _ _ _ _ Hw Hv) as Egt.
  pose proof (op_eq_represents N T_default HN T_lt _ _ _ _ Hv Hw) as Eeq. split_and!.
  - intros. by apply make_fill_represents.
  - intros. by apply make_size_represents.
  - intros. by apply make_range_represents.
  - destruct (make_copy_represents N HN _ _ Hv) as (u & E & Hu). exists u. split_and!; [done|done|].
    rewrite (op_eq_represents N T_default HN T_lt _ _ _ _ Hu Hv). by rewrite bool_decide_eq_true_2.
  - by eapply op_assign_represents.
  - by destruct v.
  - apply make_represents; done.
  - done.
  - done.
  - intros Htot. rewrite Elt, Eeq, Egt. destruct (shortlex_total T_lt l k Htot) as [-> | [-> | ->]];
      [by left|right; left; by rewrite bool_decide_eq_true_2|by do 2 right].
Qed.

Lemma prevector_values_witness : exists v w u,
  make_range 2 [1; 2; 3] = Ok v /\ make_range 2 [1; 5] = Ok w /\ make_copy 2 v = Ok u /\
  op_lt 2 Z.ltb w v = Ok true /\ op_eq 2 T_ne u v = Ok true.
Proof.
  destruct (make_range_represents 2 ltac:(lia) [1; 2; 3]) as (v & Ev & Hv); [vm_compute; reflexivity|].
  destruct (make_range_represents 2 ltac:(lia) [1; 5]) as (w & Ew & Hw); [vm_compute; reflexivity|].
  destruct (prevector_values 2 0 Z.ltb w v _ _ ltac:(lia) Hw Hv) as (_ & _ & _ & _ & _ & _ & _ & Elt & _).
  destruct (prevector_values 2 0 Z.ltb v w _ _ ltac:(lia) Hv Hw) as (_ & _ & _ & (u & Eu & _ & Hu) & _).
  exists v, w, u. split; [exact Ev|]. split; [exact Ew|]. split; [exact Eu|]. split; [exact Elt|exact Hu].
Defined.
