(* ===== verification/Opcode.v ===== *)
(** The script opcodes: src/sige/src/script/script_const.h and the names of
    script_const.cpp.

    [opcodetype] has the enumerators of the enum and [value] their numbers.  A
    C++ variable of the enum type may hold any byte of a script, so the
    scripts of Script.v carry numbers; [value] is a coercion, and
    [enumerator] finds the enumerator of a number, if it has one. *)

From S2P Require Import Prelude.

Definition MAX_SCRIPT_ELEMENT_SIZE : Z := 520.
Definition MAX_OPS_PER_SCRIPT : Z := 201.
Definition MAX_PUBKEYS_PER_MULTISIG : Z := 20.
Definition MAX_SCRIPT_SIZE : Z := 10000.
Definition LOCKTIME_THRESHOLD : Z := 500000000.

Inductive opcodetype : Type :=
| OP_0 | OP_PUSHDATA1 | OP_PUSHDATA2 | OP_PUSHDATA4 | OP_1NEGATE | OP_RESERVED | OP_1 | OP_2
| OP_3 | OP_4 | OP_5 | OP_6 | OP_7 | OP_8 | OP_9 | OP_10 | OP_11 | OP_12 | OP_13 | OP_14
| OP_15 | OP_16 | OP_NOP | OP_VER | OP_IF | OP_NOTIF | OP_VERIF | OP_VERNOTIF | OP_ELSE
| OP_ENDIF | OP_VERIFY | OP_RETURN | OP_TOALTSTACK | OP_FROMALTSTACK | OP_2DROP | OP_2DUP
| OP_3DUP | OP_2OVER | OP_2ROT | OP_2SWAP | OP_IFDUP | OP_DEPTH | OP_DROP | OP_DUP | OP_NIP
| OP_OVER | OP_PICK | OP_ROLL | OP_ROT | OP_SWAP | OP_TUCK | OP_CAT | OP_SUBSTR | OP_LEFT
| OP_RIGHT | OP_SIZE | OP_INVERT | OP_AND | OP_OR | OP_XOR | OP_EQUAL | OP_EQUALVERIFY
| OP_RESERVED1 | OP_RESERVED2 | OP_1ADD | OP_1SUB | OP_2MUL | OP_2DIV | OP_NEGATE | OP_ABS
| OP_NOT | OP_0NOTEQUAL | OP_ADD | OP_SUB | OP_MUL | OP_DIV | OP_MOD | OP_LSHIFT | OP_RSHIFT
| OP_BOOLAND | OP_BOOLOR | OP_NUMEQUAL | OP_NUMEQUALVERIFY | OP_NUMNOTEQUAL | OP_LESSTHAN
| OP_GREATERTHAN | OP_LESSTHANOREQUAL | OP_GREATERTHANOREQUAL | OP_MIN | OP_MAX | OP_WITHIN
| OP_RIPEMD160 | OP_SHA1 | OP_SHA256 | OP_HASH160 | OP_HASH256 | OP_CODESEPARATOR | OP_CHECKSIG
| OP_CHECKSIGVERIFY | OP_CHECKMULTISIG | OP_CHECKMULTISIGVERIFY | OP_NOP1
| OP_CHECKLOCKTIMEVERIFY | OP_CHECKSEQUENCEVERIFY | OP_NOP4 | OP_NOP5 | OP_NOP6 | OP_NOP7
| OP_NOP8 | OP_NOP9 | OP_NOP10 | OP_SMALLINTEGER | OP_PUBKEYS | OP_PUBKEYHASH | OP_PUBKEY
| OP_INVALIDOPCODE.

Definition value (opcode : opcodetype) : Z :=
  match opcode with
  | OP_0 => 0x00 | OP_PUSHDATA1 => 0x4c | OP_PUSHDATA2 => 0x4d | OP_PUSHDATA4 => 0x4e
  | OP_1NEGATE => 0x4f | OP_RESERVED => 0x50 | OP_1 => 0x51 | OP_2 => 0x52 | OP_3 => 0x53
  | OP_4 => 0x54 | OP_5 => 0x55 | OP_6 => 0x56 | OP_7 => 0x57 | OP_8 => 0x58 | OP_9 => 0x59
  | OP_10 => 0x5a | OP_11 => 0x5b | OP_12 => 0x5c | OP_13 => 0x5d | OP_14 => 0x5e
  | OP_15 => 0x5f | OP_16 => 0x60 | OP_NOP => 0x61 | OP_VER => 0x62 | OP_IF => 0x63
  | OP_NOTIF => 0x64 | OP_VERIF => 0x65 | OP_VERNOTIF => 0x66 | OP_ELSE => 0x67
  | OP_ENDIF => 0x68 | OP_VERIFY => 0x69 | OP_RETURN => 0x6a | OP_TOALTSTACK => 0x6b
  | OP_FROMALTSTACK => 0x6c | OP_2DROP => 0x6d | OP_2DUP => 0x6e | OP_3DUP => 0x6f
  | OP_2OVER => 0x70 | OP_2ROT => 0x71 | OP_2SWAP => 0x72 | OP_IFDUP => 0x73 | OP_DEPTH => 0x74
  | OP_DROP => 0x75 | OP_DUP => 0x76 | OP_NIP => 0x77 | OP_OVER => 0x78 | OP_PICK => 0x79
  | OP_ROLL => 0x7a | OP_ROT => 0x7b | OP_SWAP => 0x7c | OP_TUCK => 0x7d | OP_CAT => 0x7e
  | OP_SUBSTR => 0x7f | OP_LEFT => 0x80 | OP_RIGHT => 0x81 | OP_SIZE => 0x82
  | OP_INVERT => 0x83 | OP_AND => 0x84 | OP_OR => 0x85 | OP_XOR => 0x86 | OP_EQUAL => 0x87
  | OP_EQUALVERIFY => 0x88 | OP_RESERVED1 => 0x89 | OP_RESERVED2 => 0x8a | OP_1ADD => 0x8b
  | OP_1SUB => 0x8c | OP_2MUL => 0x8d | OP_2DIV => 0x8e | OP_NEGATE => 0x8f | OP_ABS => 0x90
  | OP_NOT => 0x91 | OP_0NOTEQUAL => 0x92 | OP_ADD => 0x93 | OP_SUB => 0x94 | OP_MUL => 0x95
  | OP_DIV => 0x96 | OP_MOD => 0x97 | OP_LSHIFT => 0x98 | OP_RSHIFT => 0x99
  | OP_BOOLAND => 0x9a | OP_BOOLOR => 0x9b | OP_NUMEQUAL => 0x9c | OP_NUMEQUALVERIFY => 0x9d
  | OP_NUMNOTEQUAL => 0x9e | OP_LESSTHAN => 0x9f | OP_GREATERTHAN => 0xa0
  | OP_LESSTHANOREQUAL => 0xa1 | OP_GREATERTHANOREQUAL => 0xa2 | OP_MIN => 0xa3
  | OP_MAX => 0xa4 | OP_WITHIN => 0xa5 | OP_RIPEMD160 => 0xa6 | OP_SHA1 => 0xa7
  | OP_SHA256 => 0xa8 | OP_HASH160 => 0xa9 | OP_HASH256 => 0xaa | OP_CODESEPARATOR => 0xab
  | OP_CHECKSIG => 0xac | OP_CHECKSIGVERIFY => 0xad | OP_CHECKMULTISIG => 0xae
  | OP_CHECKMULTISIGVERIFY => 0xaf | OP_NOP1 => 0xb0 | OP_CHECKLOCKTIMEVERIFY => 0xb1
  | OP_CHECKSEQUENCEVERIFY => 0xb2 | OP_NOP4 => 0xb3 | OP_NOP5 => 0xb4 | OP_NOP6 => 0xb5
  | OP_NOP7 => 0xb6 | OP_NOP8 => 0xb7 | OP_NOP9 => 0xb8 | OP_NOP10 => 0xb9
  | OP_SMALLINTEGER => 0xfa | OP_PUBKEYS => 0xfb | OP_PUBKEYHASH => 0xfd | OP_PUBKEY => 0xfe
  | OP_INVALIDOPCODE => 0xff
  end.

Coercion value : opcodetype >-> Z.

Definition OP_FALSE : opcodetype := OP_0.
Definition OP_TRUE : opcodetype := OP_1.
Definition OP_NOP2 : opcodetype := OP_CHECKLOCKTIMEVERIFY.
Definition OP_NOP3 : opcodetype := OP_CHECKSEQUENCEVERIFY.

Definition opcodes : list opcodetype := [
  OP_0; OP_PUSHDATA1; OP_PUSHDATA2; OP_PUSHDATA4; OP_1NEGATE; OP_RESERVED; OP_1; OP_2; OP_3;
  OP_4; OP_5; OP_6; OP_7; OP_8; OP_9; OP_10; OP_11; OP_12; OP_13; OP_14; OP_15; OP_16; OP_NOP;
  OP_VER; OP_IF; OP_NOTIF; OP_VERIF; OP_VERNOTIF; OP_ELSE; OP_ENDIF; OP_VERIFY; OP_RETURN;
  OP_TOALTSTACK; OP_FROMALTSTACK; OP_2DROP; OP_2DUP; OP_3DUP; OP_2OVER; OP_2ROT; OP_2SWAP;
  OP_IFDUP; OP_DEPTH; OP_DROP; OP_DUP; OP_NIP; OP_OVER; OP_PICK; OP_ROLL; OP_ROT; OP_SWAP;
  OP_TUCK; OP_CAT; OP_SUBSTR; OP_LEFT; OP_RIGHT; OP_SIZE; OP_INVERT; OP_AND; OP_OR; OP_XOR;
  OP_EQUAL; OP_EQUALVERIFY; OP_RESERVED1; OP_RESERVED2; OP_1ADD; OP_1SUB; OP_2MUL; OP_2DIV;
  OP_NEGATE; OP_ABS; OP_NOT; OP_0NOTEQUAL; OP_ADD; OP_SUB; OP_MUL; OP_DIV; OP_MOD; OP_LSHIFT;
  OP_RSHIFT; OP_BOOLAND; OP_BOOLOR; OP_NUMEQUAL; OP_NUMEQUALVERIFY; OP_NUMNOTEQUAL;
  OP_LESSTHAN; OP_GREATERTHAN; OP_LESSTHANOREQUAL; OP_GREATERTHANOREQUAL; OP_MIN; OP_MAX;
  OP_WITHIN; OP_RIPEMD160; OP_SHA1; OP_SHA256; OP_HASH160; OP_HASH256; OP_CODESEPARATOR;
  OP_CHECKSIG; OP_CHECKSIGVERIFY; OP_CHECKMULTISIG; OP_CHECKMULTISIGVERIFY; OP_NOP1;
  OP_CHECKLOCKTIMEVERIFY; OP_CHECKSEQUENCEVERIFY; OP_NOP4; OP_NOP5; OP_NOP6; OP_NOP7; OP_NOP8;
  OP_NOP9; OP_NOP10; OP_SMALLINTEGER; OP_PUBKEYS; OP_PUBKEYHASH; OP_PUBKEY; OP_INVALIDOPCODE].

Definition enumerator (opcode : Z) : option opcodetype :=
  List.find (fun o => value o =? opcode) opcodes.

Definition GetOpName (opcode : Z) : string :=
  match enumerator opcode with
  | Some OP_0 => "0" | Some OP_PUSHDATA1 => "OP_PUSHDATA1"
  | Some OP_PUSHDATA2 => "OP_PUSHDATA2" | Some OP_PUSHDATA4 => "OP_PUSHDATA4"
  | Some OP_1NEGATE => "-1" | Some OP_RESERVED => "OP_RESERVED" | Some OP_1 => "1"
  | Some OP_2 => "2" | Some OP_3 => "3" | Some OP_4 => "4" | Some OP_5 => "5"
  | Some OP_6 => "6" | Some OP_7 => "7" | Some OP_8 => "8" | Some OP_9 => "9"
  | Some OP_10 => "10" | Some OP_11 => "11" | Some OP_12 => "12" | Some OP_13 => "13"
  | Some OP_14 => "14" | Some OP_15 => "15" | Some OP_16 => "16" | Some OP_NOP => "OP_NOP"
  | Some OP_VER => "OP_VER" | Some OP_IF => "OP_IF" | Some OP_NOTIF => "OP_NOTIF"
  | Some OP_VERIF => "OP_VERIF" | Some OP_VERNOTIF => "OP_VERNOTIF" | Some OP_ELSE => "OP_ELSE"
  | Some OP_ENDIF => "OP_ENDIF" | Some OP_VERIFY => "OP_VERIFY" | Some OP_RETURN => "OP_RETURN"
  | Some OP_TOALTSTACK => "OP_TOALTSTACK" | Some OP_FROMALTSTACK => "OP_FROMALTSTACK"
  | Some OP_2DROP => "OP_2DROP" | Some OP_2DUP => "OP_2DUP" | Some OP_3DUP => "OP_3DUP"
  | Some OP_2OVER => "OP_2OVER" | Some OP_2ROT => "OP_2ROT" | Some OP_2SWAP => "OP_2SWAP"
  | Some OP_IFDUP => "OP_IFDUP" | Some OP_DEPTH => "OP_DEPTH" | Some OP_DROP => "OP_DROP"
  | Some OP_DUP => "OP_DUP" | Some OP_NIP => "OP_NIP" | Some OP_OVER => "OP_OVER"
  | Some OP_PICK => "OP_PICK" | Some OP_ROLL => "OP_ROLL" | Some OP_ROT => "OP_ROT"
  | Some OP_SWAP => "OP_SWAP" | Some OP_TUCK => "OP_TUCK" | Some OP_CAT => "OP_CAT"
  | Some OP_SUBSTR => "OP_SUBSTR" | Some OP_LEFT => "OP_LEFT" | Some OP_RIGHT => "OP_RIGHT"
  | Some OP_SIZE => "OP_SIZE" | Some OP_INVERT => "OP_INVERT" | Some OP_AND => "OP_AND"
  | Some OP_OR => "OP_OR" | Some OP_XOR => "OP_XOR" | Some OP_EQUAL => "OP_EQUAL"
  | Some OP_EQUALVERIFY => "OP_EQUALVERIFY" | Some OP_RESERVED1 => "OP_RESERVED1"
  | Some OP_RESERVED2 => "OP_RESERVED2" | Some OP_1ADD => "OP_1ADD" | Some OP_1SUB => "OP_1SUB"
  | Some OP_2MUL => "OP_2MUL" | Some OP_2DIV => "OP_2DIV" | Some OP_NEGATE => "OP_NEGATE"
  | Some OP_ABS => "OP_ABS" | Some OP_NOT => "OP_NOT" | Some OP_0NOTEQUAL => "OP_0NOTEQUAL"
  | Some OP_ADD => "OP_ADD" | Some OP_SUB => "OP_SUB" | Some OP_MUL => "OP_MUL"
  | Some OP_DIV => "OP_DIV" | Some OP_MOD => "OP_MOD" | Some OP_LSHIFT => "OP_LSHIFT"
  | Some OP_RSHIFT => "OP_RSHIFT" | Some OP_BOOLAND => "OP_BOOLAND"
  | Some OP_BOOLOR => "OP_BOOLOR" | Some OP_NUMEQUAL => "OP_NUMEQUAL"
  | Some OP_NUMEQUALVERIFY => "OP_NUMEQUALVERIFY" | Some OP_NUMNOTEQUAL => "OP_NUMNOTEQUAL"
  | Some OP_LESSTHAN => "OP_LESSTHAN" | Some OP_GREATERTHAN => "OP_GREATERTHAN"
  | Some OP_LESSTHANOREQUAL => "OP_LESSTHANOREQUAL"
  | Some OP_GREATERTHANOREQUAL => "OP_GREATERTHANOREQUAL" | Some OP_MIN => "OP_MIN"
  | Some OP_MAX => "OP_MAX" | Some OP_WITHIN => "OP_WITHIN"
  | Some OP_RIPEMD160 => "OP_RIPEMD160" | Some OP_SHA1 => "OP_SHA1"
  | Some OP_SHA256 => "OP_SHA256" | Some OP_HASH160 => "OP_HASH160"
  | Some OP_HASH256 => "OP_HASH256" | Some OP_CODESEPARATOR => "OP_CODESEPARATOR"
  | Some OP_CHECKSIG => "OP_CHECKSIG" | Some OP_CHECKSIGVERIFY => "OP_CHECKSIGVERIFY"
  | Some OP_CHECKMULTISIG => "OP_CHECKMULTISIG"
  | Some OP_CHECKMULTISIGVERIFY => "OP_CHECKMULTISIGVERIFY" | Some OP_NOP1 => "OP_NOP1"
  | Some OP_CHECKLOCKTIMEVERIFY => "OP_CHECKLOCKTIMEVERIFY"
  | Some OP_CHECKSEQUENCEVERIFY => "OP_CHECKSEQUENCEVERIFY" | Some OP_NOP4 => "OP_NOP4"
  | Some OP_NOP5 => "OP_NOP5" | Some OP_NOP6 => "OP_NOP6" | Some OP_NOP7 => "OP_NOP7"
  | Some OP_NOP8 => "OP_NOP8" | Some OP_NOP9 => "OP_NOP9" | Some OP_NOP10 => "OP_NOP10"
  | Some OP_INVALIDOPCODE => "OP_INVALIDOPCODE"
  | _ => "OP_UNKNOWN"
  end%string.

(** Every byte is either the value of one enumerator or of none. *)
Lemma enumerator_value (o : opcodetype) : enumerator o = Some o.
Proof. by destruct o. Qed.

Lemma value_range (o : opcodetype) : 0 <= o < 256.
Proof. destruct o; simpl; lia. Qed.

Lemma enumerator_Some z (o : opcodetype) : enumerator z = Some o <-> z = value o.
Proof.
  split; [|by intros ->; apply enumerator_value].
  intros H%List.find_some. destruct H as [_ H%Z.eqb_eq]. done.
Qed.

#[global] Instance value_inj : Inj (=) (=) value.
Proof.
  intros a b E. pose proof (enumerator_value a) as Ha. rewrite E, enumerator_value in Ha. congruence.
Qed.

#[global] Instance opcodetype_eq_dec : EqDecision opcodetype.
Proof.
  intros a b. destruct (decide (value a = value b)) as [E|E]; [left; by apply (inj value)|right; congruence].
Defined.
