(* ===== verification/Script.v ===== *)
(** Scripts: [CScript] of src/sige/src/script/script.h and script.cpp.

    A script is the list of its bytes: [CScriptBase] is a [prevector], which
    Prevector.v proves to behave as a list.  Iterators are positions, with the
    arithmetic of Prevector.v.  The calls that read through a [const_iterator&]
    return it with the other outputs.  [CScriptWitness] is modelled with the
    transactions. *)

From S2P Require Import Prelude Bytes Prevector ScriptNum Opcode.

#[local] Ltac Zify.zify_post_hook ::= Z.to_euclidean_division_equations.

Abbreviation CScript := bytes.

(** [s[pos]], [end()] and the bytes between two iterators. *)
Definition at_ (s : CScript) (pos : Z) : Z := s.[Z.to_nat pos].
Definition script_end (s : CScript) : Z := zlen s.
Definition slice (s : CScript) (first last : Z) : bytes :=
  take (Z.to_nat (last - first)) (drop (Z.to_nat first) s).

Section script.
(** The byte order of the host. *)
Context (WORDS_BIGENDIAN : bool).

(** ** Building a script *)

Definition put_vch (b : bytes) (s : CScript) : CScript :=
  let s :=
    if zlen b <? OP_PUSHDATA1 then s ++ [wrap 8 (zlen b)]
    else if zlen b <=? 0xff then s ++ [OP_PUSHDATA1 : Z] ++ [wrap 8 (zlen b)]
    else if zlen b <=? 0xffff then
      s ++ [OP_PUSHDATA2 : Z] ++ WriteLE16 WORDS_BIGENDIAN (replicate 2 0) (u16 (zlen b))
    else s ++ [OP_PUSHDATA4 : Z] ++ WriteLE32 WORDS_BIGENDIAN (replicate 4 0) (u32 (zlen b)) in
  s ++ b.

Definition put_opcode (opcode : Z) (s : CScript) : res CScript :=
  if (opcode <? 0) || (0xff <? opcode) then Throw "CScript::operator<<(): invalid opcode"
  else Ok (s ++ [opcode]).

Definition push_int64 (n : Z) (s : CScript) : CScript :=
  if (n =? -1) || ((1 <=? n) && (n <=? 16)) then s ++ [wrap 8 (n + (OP_1 - 1))]
  else if n =? 0 then s ++ [OP_0 : Z]
  else put_vch (CScriptNum.serialize n) s.

Definition put_num (n : Z) (s : CScript) : CScript := put_vch (CScriptNum.getvch n) s.

Definition op_add_assign (b s : CScript) : CScript := s ++ b.

Definition of_int64 (b : Z) : CScript := push_int64 b [].

(** ** Reading a script *)

Record getop := GetOpRet { fRet : bool; pcRet : Z; opcodeRet : Z; vchRet : bytes }.

Definition getop_fail (pc : Z) : getop := GetOpRet false pc OP_INVALIDOPCODE [].

(** The length that follows a push opcode, and where its data starts. *)
Definition immediate_size (s : CScript) (opcode pc : Z) : option (Z * Z) :=
  let left := const_iterator.diff (script_end s) pc in
  if opcode <? OP_PUSHDATA1 then Some (opcode, pc)
  else if opcode =? OP_PUSHDATA1 then
    if left <? 1 then None else Some (at_ s pc, pc + 1)
  else if opcode =? OP_PUSHDATA2 then
    if left <? 2 then None else Some (ReadLE16 WORDS_BIGENDIAN (drop (Z.to_nat pc) s), pc + 2)
  else if opcode =? OP_PUSHDATA4 then
    if left <? 4 then None else Some (ReadLE32 WORDS_BIGENDIAN (drop (Z.to_nat pc) s), pc + 4)
  else Some (0, pc).

Definition GetOp2 (s : CScript) (pc : Z) : getop :=
  if script_end s <=? pc then getop_fail pc
  else if const_iterator.diff (script_end s) pc <? 1 then getop_fail pc
  else
    let opcode := at_ s pc in
    let pc := const_iterator.incr pc in
    if opcode <=? OP_PUSHDATA4 then
      match immediate_size s opcode pc with
      | None => getop_fail pc
      | Some (nSize, pc) =>
          let left := const_iterator.diff (script_end s) pc in
          if (left <? 0) || (u32 left <? nSize) then getop_fail pc
          else GetOpRet true (pc + nSize) opcode (slice s pc (pc + nSize))
      end
    else GetOpRet true pc opcode [].

Definition GetOp (s : CScript) (pc : Z) : getop := GetOp2 s pc.

(** ** Small integers *)

Definition DecodeOP_N (opcode : Z) : res Z :=
  if opcode =? OP_0 then Ok 0
  else if (OP_1 <=? opcode) && (opcode <=? OP_16) then Ok (opcode - (OP_1 - 1))
  else AssertFail.

Definition EncodeOP_N (n : Z) : res Z :=
  if (0 <=? n) && (n <=? 16) then
    if n =? 0 then Ok (OP_0 : Z) else Ok (OP_1 + n - 1)
  else AssertFail.

(** ** Searches *)

(** [while (size_t(end() - pc) >= b.size() && equal(b.begin(), b.end(), pc))] *)
Fixpoint skip_loop (fuel : nat) (b s : CScript) (pc nFound : Z) : res (Z * Z) :=
  if (zlen b <=? u64 (iterator.diff (script_end s) pc)) && bool_decide (slice s pc (pc + zlen b) = b) then
    match fuel with
    | O => OutOfFuel
    | S fuel => skip_loop fuel b s (iterator.plus pc (zlen b)) (nFound + 1)
    end
  else Ok (pc, nFound).

(** The body of [do { .. } while (GetOp(pc, opcode))] and what follows the loop. *)
Fixpoint delete_loop (fuel : nat) (b s result : CScript) (pc pc2 nFound : Z) : res (CScript * Z) :=
  match fuel with
  | O => OutOfFuel
  | S fuel =>
      let result := result ++ slice s pc2 pc in
      let? (pc, nFound) := skip_loop (length s) b s pc nFound in
      let pc2 := pc in
      let r := GetOp s pc in
      if fRet r then delete_loop fuel b s result (pcRet r) pc2 nFound
      else if 0 <? nFound then Ok (result ++ slice s pc2 (script_end s), nFound)
      else Ok (s, nFound)
  end.

Definition FindAndDelete (b s : CScript) : res (CScript * Z) :=
  if zlen b =? 0 then Ok (s, 0)
  else delete_loop (S (length s)) b s [] begin_ begin_ 0.

Fixpoint find_loop (fuel : nat) (op : Z) (s : CScript) (pc nFound : Z) : res Z :=
  if iterator.ne pc (script_end s) then
    let r := GetOp s pc in
    if fRet r then
      match fuel with
      | O => OutOfFuel
      | S fuel => find_loop fuel op s (pcRet r) (if opcodeRet r =? op then nFound + 1 else nFound)
      end
    else Ok nFound
  else Ok nFound.

Definition Find (op : Z) (s : CScript) : res Z := find_loop (length s) op s begin_ 0.

Fixpoint sigop_loop (fuel : nat) (fAccurate : bool) (s : CScript) (pc lastOpcode n : Z) : res Z :=
  if pc <? script_end s then
    let r := GetOp s pc in
    if negb (fRet r) then Ok n
    else
      match fuel with
      | O => OutOfFuel
      | S fuel =>
          let opcode := opcodeRet r in
          let? n :=
            if (opcode =? OP_CHECKSIG) || (opcode =? OP_CHECKSIGVERIFY) then Ok (u32 (n + 1))
            else if (opcode =? OP_CHECKMULTISIG) || (opcode =? OP_CHECKMULTISIGVERIFY) then
              if fAccurate && (OP_1 <=? lastOpcode) && (lastOpcode <=? OP_16) then
                let? k := DecodeOP_N lastOpcode in Ok (u32 (n + k))
              else Ok (u32 (n + MAX_PUBKEYS_PER_MULTISIG))
            else Ok n in
          sigop_loop fuel fAccurate s (pcRet r) opcode n
      end
  else Ok n.

Definition GetSigOpCount (fAccurate : bool) (s : CScript) : res Z :=
  sigop_loop (length s) fAccurate s begin_ OP_INVALIDOPCODE 0.

(** ** Templates *)

Definition IsPayToScriptHash (s : CScript) : bool :=
  (zlen s =? 23) && (at_ s 0 =? OP_HASH160) && (at_ s 1 =? 0x14) && (at_ s 22 =? OP_EQUAL).

Definition IsPayToWitnessScriptHash (s : CScript) : bool :=
  (zlen s =? 34) && (at_ s 0 =? OP_0) && (at_ s 1 =? 0x20).

(** [Some (version, program)] where the code returns true. *)
Definition IsWitnessProgram (s : CScript) : res (option (Z * bytes)) :=
  if (zlen s <? 4) || (42 <? zlen s) then Ok None
  else if negb (at_ s 0 =? OP_0) && ((at_ s 0 <? OP_1) || (OP_16 <? at_ s 0)) then Ok None
  else if at_ s 1 + 2 =? zlen s then
    let? version := DecodeOP_N (at_ s 0) in
    Ok (Some (version, slice s (begin_ + 2) (script_end s)))
  else Ok None.

Fixpoint push_only_loop (fuel : nat) (s : CScript) (pc : Z) : res bool :=
  if pc <? script_end s then
    let r := GetOp s pc in
    if negb (fRet r) then Ok false
    else if OP_16 <? opcodeRet r then Ok false
    else match fuel with O => OutOfFuel | S fuel => push_only_loop fuel s (pcRet r) end
  else Ok true.

Definition IsPushOnly (s : CScript) : res bool := push_only_loop (length s) s begin_.

(** The last item a scriptSig pushes, or [None] where the count is 0. *)
Fixpoint last_push_loop (fuel : nat) (scriptSig : CScript) (pc : Z) (data : bytes) : res (option bytes) :=
  if pc <? script_end scriptSig then
    let r := GetOp scriptSig pc in
    if negb (fRet r) then Ok None
    else if OP_16 <? opcodeRet r then Ok None
    else match fuel with
         | O => OutOfFuel
         | S fuel => last_push_loop fuel scriptSig (pcRet r) (vchRet r)
         end
  else Ok (Some data).

Definition GetSigOpCountP2SH (scriptSig s : CScript) : res Z :=
  if negb (IsPayToScriptHash s) then GetSigOpCount true s
  else
    let? data := last_push_loop (length scriptSig) scriptSig begin_ [] in
    match data with
    | None => Ok 0
    | Some subscript => GetSigOpCount true subscript
    end.

Definition IsUnspendable (s : CScript) : bool :=
  ((0 <? zlen s) && (at_ s 0 =? OP_RETURN)) || (MAX_SCRIPT_SIZE <? zlen s).

(** ** What a script denotes

    [next_op] splits off the first operation of a script and [parse] lists
    them all, saying whether it reached the end. *)

Definition header (r : bytes) (opcode : Z) : option (Z * bytes) :=
  if opcode <? OP_PUSHDATA1 then Some (opcode, r)
  else
    let k := if opcode =? OP_PUSHDATA1 then 1%nat else if opcode =? OP_PUSHDATA2 then 2%nat else 4%nat in
    if (length r <? k)%nat then None else Some (le_val (take k r), drop k r).

Definition next_op (r : bytes) : option (Z * bytes * bytes) :=
  match r with
  | [] => None
  | opcode :: r =>
      if opcode <=? OP_PUSHDATA4 then
        '(n, r) ← header r opcode;
        if zlen r <? n then None else Some (opcode, take (Z.to_nat n) r, drop (Z.to_nat n) r)
      else Some (opcode, [], r)
  end.

Fixpoint parse (fuel : nat) (r : bytes) : list (Z * bytes) * bool :=
  match fuel, next_op r with
  | S fuel, Some (op, d, r) => let '(ops, done) := parse fuel r in ((op, d) :: ops, done)
  | _, _ => ([], bool_decide (r = []))
  end.

Definition ops (s : CScript) : list (Z * bytes) := fst (parse (length s) s).
Definition well_parsed (s : CScript) : bool := snd (parse (length s) s).

(** ** Reading is parsing *)

Definition script_ok (s : CScript) : Prop := byte_list s /\ zlen s < 2 ^ 31.

Lemma drop_zlen (a r : bytes) : drop (Z.to_nat (zlen a)) (a ++ r) = r.
Proof. unfold zlen. by rewrite Nat2Z.id, drop_app_length. Qed.

Lemma at_zlen (a r : bytes) x : at_ (a ++ x :: r) (zlen a) = x.
Proof. unfold at_, zlen. rewrite Nat2Z.id. by apply list_lookup_total_middle. Qed.

Lemma slice_mid (a b r : bytes) : slice (a ++ b ++ r) (zlen a) (zlen a + zlen b) = b.
Proof.
  unfold slice. rewrite drop_zlen. replace (Z.to_nat (zlen a + zlen b - zlen a)) with (length b) by (unfold zlen; lia).
  by rewrite take_app_length.
Qed.

Lemma slice_end (a r : bytes) : slice (a ++ r) (zlen a) (script_end (a ++ r)) = r.
Proof. unfold script_end. rewrite zlen_app. rewrite <- (app_nil_r r) at 1. apply slice_mid. Qed.

Lemma left_ok (a r : bytes) : zlen (a ++ r) < 2 ^ 31 ->
  const_iterator.diff (script_end (a ++ r)) (zlen a) = zlen r.
Proof.
  intros H. unfold const_iterator.diff, script_end. rewrite zlen_app in *.
  pose proof (zlen_nonneg a). pose proof (zlen_nonneg r).
  replace (zlen a + zlen r - zlen a) with (zlen r) by lia. apply swrap_small; unfold in_s; lia.
Qed.

Lemma immediate_size_spec a r opcode : script_ok (a ++ r) -> 0 <= opcode <= OP_PUSHDATA4 ->
  match header r opcode with
  | Some (n, r') => exists b, r = b ++ r' /\ immediate_size (a ++ r) opcode (zlen a) = Some (n, zlen (a ++ b)) /\ 0 <= n < 2 ^ 32
  | None => immediate_size (a ++ r) opcode (zlen a) = None
  end.
Proof.
  intros [Hb Hs] Ho. apply byte_list_app in Hb as [_ Hb].
  unfold immediate_size, header. rewrite left_ok, drop_zlen by done.
  destruct (Z.ltb_spec opcode OP_PUSHDATA1).
  { exists []. rewrite app_nil_r. split_and!; [done|done|simpl in *; lia|simpl in *; lia]. }
  assert (forall k v p, (k <= length r)%nat -> v = le_val (take k r) -> p = zlen a + Z.of_nat k ->
    exists b, r = b ++ drop k r /\ Some (v, p) = Some (le_val (take k r), zlen (a ++ b))) as Hread.
  { intros k v p Hk -> ->. exists (take k r). rewrite take_drop. split; [done|].
    do 2 f_equal. rewrite zlen_app. unfold zlen at 3. rewrite length_take. lia. }
  assert (forall k, (k <= 4)%nat -> (k <= length r)%nat -> 0 <= le_val (take k r) < 2 ^ 32) as Hrange.
  { intros k H4 Hk. pose proof (le_val_range (take k r)) as Hr. rewrite length_take, min_l in Hr by done.
    apply (in_u_mono (8 * Z.of_nat k) 32); [lia|]. apply Hr. by apply Forall_take. }
  destruct (read_le WORDS_BIGENDIAN r Hb) as (R2 & R4 & _).
  destruct (Z.eqb_spec opcode OP_PUSHDATA1); [|destruct (Z.eqb_spec opcode OP_PUSHDATA2);
    [|rewrite (proj2 (Z.eqb_eq opcode OP_PUSHDATA4)) by (simpl in *; lia)]].
  - destruct (Nat.ltb_spec (length r) 1); [rewrite (proj2 (Z.ltb_lt _ _)) by (unfold zlen; lia); done|].
    rewrite (proj2 (Z.ltb_ge _ _)) by (unfold zlen; lia).
    destruct (Hread 1%nat (at_ (a ++ r) (zlen a)) (zlen a + 1)) as (b & E & ->); [lia| |done|].
    + destruct r as [|x r]; [simpl in *; lia|]. rewrite at_zlen. simpl. lia.
    + exists b. split_and!; [done|done|apply Hrange; lia|apply Hrange; lia].
  - destruct (Nat.ltb_spec (length r) 2); [rewrite (proj2 (Z.ltb_lt _ _)) by (unfold zlen; lia); done|].
    rewrite (proj2 (Z.ltb_ge _ _)) by (unfold zlen; lia).
    destruct (Hread 2%nat (ReadLE16 WORDS_BIGENDIAN r) (zlen a + 2)) as (b & E & ->); [lia|auto|done|].
    exists b. split_and!; [done|done|apply Hrange; lia|apply Hrange; lia].
  - destruct (Nat.ltb_spec (length r) 4); [rewrite (proj2 (Z.ltb_lt _ _)) by (unfold zlen; lia); done|].
    rewrite (proj2 (Z.ltb_ge _ _)) by (unfold zlen; lia).
    destruct (Hread 4%nat (ReadLE32 WORDS_BIGENDIAN r) (zlen a + 4)) as (b & E & ->); [lia|auto|done|].
    exists b. split_and!; [done|done|apply Hrange; lia|apply Hrange; lia].
Qed.

(** [GetOp] at a position reads the first operation of what follows it. *)
Lemma GetOp_spec a r : script_ok (a ++ r) ->
  match next_op r with
  | Some (op, d, r') => exists b, r = b ++ r' /\ b <> [] /\ 0 <= op < 256 /\
      GetOp (a ++ r) (zlen a) = GetOpRet true (zlen (a ++ b)) op d
  | None => exists b r', r = b ++ r' /\ GetOp (a ++ r) (zlen a) = getop_fail (zlen (a ++ b))
  end.
Proof.
  intros H. unfold GetOp, GetOp2, script_end. rewrite zlen_app. pose proof (zlen_nonneg a) as Ha.
  destruct r as [|op r]; cbn [next_op].
  { rewrite (proj2 (Z.leb_le _ _)) by (unfold zlen; simpl; lia). exists [], []. split; [done|by rewrite app_nil_r]. }
  pose proof (zlen_nonneg r) as Hr. rewrite zlen_cons, (proj2 (Z.leb_gt (zlen a + (zlen r + 1)) (zlen a))) by lia.
  pose proof (left_ok a (op :: r) (proj2 H)) as Hleft. unfold script_end in Hleft.
  rewrite zlen_app, zlen_cons in Hleft. rewrite Hleft, (proj2 (Z.ltb_ge (zlen r + 1) 1)), at_zlen by lia.
  assert (in_u 8 op) as Hop.
  { destruct H as [Hb _]. apply byte_list_app in Hb as [_ Hb]. by inversion Hb. }
  assert (a ++ op :: r = (a ++ [op]) ++ r) as E by by rewrite <- app_assoc.
  rewrite (incr_zlen a op). rewrite E in H.
  destruct (Z.leb_spec op OP_PUSHDATA4); cbn [andb].
  - pose proof (immediate_size_spec (a ++ [op]) r op H) as Hi. rewrite <- E in Hi.
    destruct (header r op) as [[n r1]|] eqn:Eh; cbn [mbind option_bind].
    + destruct Hi as (b & Er & -> & Hn); [unfold in_u in Hop; lia|].
      assert (a ++ op :: r = (a ++ [op] ++ b) ++ r1) as E1 by (rewrite E, Er, <- !app_assoc; done).
      assert (script_ok ((a ++ [op] ++ b) ++ r1)) as H1 by (rewrite <- E1, E; exact H).
      rewrite <- (app_assoc a [op] b).
      assert (zlen a + (zlen r + 1) = script_end ((a ++ [op] ++ b) ++ r1)) as ->
        by (unfold script_end; rewrite <- E1, zlen_app, zlen_cons; done).
      rewrite (left_ok _ _ (proj2 H1)). pose proof (zlen_nonneg r1).
      rewrite (proj2 (Z.ltb_ge (zlen r1) 0)) by done. cbn [orb].
      assert (zlen r1 < 2 ^ 31) by (destruct H1 as [_ H1]; rewrite zlen_app in H1; pose proof (zlen_nonneg (a ++ [op] ++ b)); lia).
      rewrite (wrap_small 32 (zlen r1)) by (unfold in_u; lia).
      destruct (Z.ltb_spec (zlen r1) n).
      * exists (op :: b), r1. rewrite Er. done.
      * destruct (zlen_split_at n r1) as (d & r2 & Er1 & Hd); [lia|]. exists (op :: b ++ d).
        rewrite E1, Er1. replace (Z.to_nat n) with (length d) by (unfold zlen in Hd; lia).
        rewrite take_app_length, drop_app_length.
        split_and!; [by rewrite Er, Er1, <- app_comm_cons, app_assoc|done|apply Hop|apply Hop|].
        rewrite <- Hd, slice_mid, <- zlen_app, <- !app_assoc. done.
    + rewrite Hi by (unfold in_u in Hop; lia). exists [op], r. done.
  - exists [op]. split_and!; [done|done|apply Hop|apply Hop|done].
Qed.

Lemma next_op_shorter r op d r' : next_op r = Some (op, d, r') -> (length r' < length r)%nat.
Proof.
  destruct r as [|x r]; [done|]. cbn [next_op]. case_bool; [|intros [= <- <- <-]; simpl; lia].
  unfold header. repeat case_bool; intros [[n r1] [E H]]%bind_Some; try done;
    injection E as <- <-; case_bool_in H; try done; injection H as <- <- <-;
    rewrite ?length_drop; simpl; lia.
Qed.

(** Induction along the operations of a script. *)
Lemma script_ind (P : bytes -> Prop) :
  (forall r, next_op r = None -> P r) ->
  (forall r op d r', next_op r = Some (op, d, r') -> (length r' < length r)%nat -> P r' -> P r) ->
  forall r, P r.
Proof.
  intros Hn Hs. assert (forall n r, (length r < n)%nat -> P r) as H; [|intros r; eapply (H (S (length r))); lia].
  induction n as [|n IH]; intros r Hr; [lia|].
  destruct (next_op r) as [[[op d] r']|] eqn:E; [|by apply Hn].
  pose proof (next_op_shorter _ _ _ _ E). eapply Hs; [exact E|done|apply IH; lia].
Qed.

Lemma parse_fuel fuel r : (length r <= fuel)%nat -> parse fuel r = parse (length r) r.
Proof.
  intros H. assert (forall f g r, (length r <= f)%nat -> (length r <= g)%nat -> parse f r = parse g r) as Hfg; [|by apply Hfg].
  clear. induction f as [|f IH]; intros g r Hf Hg.
  { destruct r; [|simpl in Hf; lia]. by destruct g. }
  destruct g as [|g]; [destruct r; [done|simpl in Hg; lia]|]. cbn [parse].
  destruct (next_op r) as [[[op d] r']|] eqn:E; [|done].
  pose proof (next_op_shorter _ _ _ _ E). by rewrite (IH g) by lia.
Qed.

Lemma ops_step r op d r' : next_op r = Some (op, d, r') ->
  ops r = (op, d) :: ops r' /\ well_parsed r = well_parsed r'.
Proof.
  intros E. pose proof (next_op_shorter _ _ _ _ E). unfold ops, well_parsed.
  destruct (length r) as [|n] eqn:El; [lia|]. cbn [parse]. rewrite E.
  rewrite (parse_fuel n) by lia. by destruct (parse (length r') r').
Qed.

Lemma ops_stop r : next_op r = None -> ops r = [] /\ well_parsed r = bool_decide (r = []).
Proof. intros E. unfold ops, well_parsed. destruct (length r); cbn [parse]; by rewrite ?E. Qed.

Lemma ops_length r : (length (ops r) <= length r)%nat.
Proof.
  induction r as [r E|r op d r' E Hl IH] using script_ind.
  - destruct (ops_stop _ E) as [-> _]. simpl. lia.
  - destruct (ops_step _ _ _ _ E) as [-> _]. simpl. lia.
Qed.

(** ** The searches as functions of the operations *)

Definition pushes (s : CScript) : bool := well_parsed s && forallb (fun o => fst o <=? OP_16) (ops s).

Definition sigop_weight (fAccurate : bool) (last op : Z) : Z :=
  if (op =? OP_CHECKSIG) || (op =? OP_CHECKSIGVERIFY) then 1
  else if (op =? OP_CHECKMULTISIG) || (op =? OP_CHECKMULTISIGVERIFY) then
    if fAccurate && (OP_1 <=? last) && (last <=? OP_16) then last - OP_RESERVED else 20
  else 0.

Fixpoint sigops (fAccurate : bool) (last : Z) (l : list (Z * bytes)) : Z :=
  match l with
  | [] => 0
  | (op, _) :: l => sigop_weight fAccurate last op + sigops fAccurate op l
  end.

Lemma sigop_weight_range acc last op : 0 <= sigop_weight acc last op <= 20.
Proof. unfold sigop_weight. simpl. bool_cases; lia. Qed.

Lemma sigops_range acc last l : 0 <= sigops acc last l <= 20 * Z.of_nat (length l).
Proof.
  revert last; induction l as [|[op d] l IH]; intros last; cbn [sigops length]; [lia|].
  pose proof (sigop_weight_range acc last op). pose proof (IH op). lia.
Qed.

(** A loop at the end of the script, at an operation and at a malformed one. *)
Lemma at_end_ltb (a r : bytes) : (zlen a <? script_end (a ++ r)) = negb (bool_decide (r = [])).
Proof.
  unfold script_end. rewrite zlen_app. destruct r as [|x r].
  - rewrite bool_decide_eq_true_2 by done. apply Z.ltb_ge. unfold zlen; simpl; lia.
  - rewrite bool_decide_eq_false_2 by done. apply Z.ltb_lt. rewrite zlen_cons. pose proof (zlen_nonneg r). lia.
Qed.

Lemma at_end_ne (a r : bytes) : iterator.ne (zlen a) (script_end (a ++ r)) = negb (bool_decide (r = [])).
Proof. apply (zlen_ne a r). Qed.

Ltac scan_stop a r E H :=
  destruct (ops_stop _ E) as [Hops Hwell]; pose proof (GetOp_spec a r H) as Hget; rewrite E in Hget;
  destruct Hget as (b & r' & Hr & Hget); rewrite ?at_end_ltb, ?at_end_ne, ?Hget, ?Hops, ?Hwell.

Ltac scan_step a r E H :=
  destruct (ops_step _ _ _ _ E) as [Hops Hwell]; pose proof (GetOp_spec a r H) as Hget; rewrite E in Hget;
  destruct Hget as (b & Hr & Hb & Hop & Hget);
  rewrite ?at_end_ltb, ?at_end_ne, ?(bool_decide_eq_false_2 (r = [])), ?Hget, ?Hops, ?Hwell
    by (rewrite Hr; by destruct b).

Lemma push_only_spec r : forall fuel a, script_ok (a ++ r) -> (length r <= fuel)%nat ->
  push_only_loop fuel (a ++ r) (zlen a) = Ok (pushes r).
Proof.
  unfold pushes.
  induction r as [r E|r op d r' E Hl IH] using script_ind; intros fuel a H Hf.
  - destruct fuel; cbn [push_only_loop]; scan_stop a r E H; by case_bool_decide.
  - destruct fuel as [|fuel]; [lia|]. cbn [push_only_loop]. scan_step a r E H.
    cbn [fRet negb opcodeRet pcRet forallb fst].
    destruct (Z.leb_spec op OP_16).
    + rewrite (proj2 (Z.ltb_ge _ _)) by done. subst r. rewrite app_assoc in *. cbn [andb].
      apply IH; [done|lia].
    + rewrite (proj2 (Z.ltb_lt _ _)) by done. by rewrite andb_false_r.
Qed.

Lemma find_spec op r : forall fuel a n, script_ok (a ++ r) -> (length r <= fuel)%nat ->
  find_loop fuel op (a ++ r) (zlen a) n =
  Ok (n + Z.of_nat (length (filter (fun o => fst o = op) (ops r)))).
Proof.
  induction r as [r E|r op' d r' E Hl IH] using script_ind; intros fuel a n H Hf.
  - destruct fuel; cbn [find_loop]; scan_stop a r E H; case_bool_decide; cbn [negb fRet getop_fail];
      f_equal; simpl; lia.
  - destruct fuel as [|fuel]; [lia|]. cbn [find_loop]. scan_step a r E H.
    cbn [fRet negb opcodeRet pcRet]. subst r. rewrite app_assoc in *.
    rewrite IH by (done || lia). f_equal. rewrite filter_cons. cbn [fst].
    destruct (Z.eqb_spec op' op); case_decide; try done; simpl; lia.
Qed.

Lemma last_push_spec r : forall fuel a data, script_ok (a ++ r) -> (length r <= fuel)%nat ->
  last_push_loop fuel (a ++ r) (zlen a) data =
  Ok (if pushes r then Some (List.last (map snd (ops r)) data) else None).
Proof.
  unfold pushes.
  induction r as [r E|r op d r' E Hl IH] using script_ind; intros fuel a data H Hf.
  - destruct fuel; cbn [last_push_loop]; scan_stop a r E H; by case_bool_decide.
  - destruct fuel as [|fuel]; [lia|]. cbn [last_push_loop]. scan_step a r E H.
    cbn [fRet negb opcodeRet pcRet vchRet forallb fst map snd].
    destruct (Z.leb_spec op OP_16).
    + rewrite (proj2 (Z.ltb_ge _ _)) by done. subst r. rewrite app_assoc in *. cbn [andb].
      rewrite IH by (done || lia). do 2 f_equal. case_bool; [|done]. f_equal.
      destruct (map snd (ops r')) as [|y l] eqn:El; [done|].
      clear -y. revert y; induction l as [|z l IHl]; intros y; [done|]. apply (IHl z).
    + rewrite (proj2 (Z.ltb_lt _ _)) by done. by rewrite andb_false_r.
Qed.

Lemma sigop_spec acc r : forall fuel a last n, script_ok (a ++ r) -> (length r <= fuel)%nat -> 0 <= n ->
  n + 20 * zlen r < 2 ^ 32 ->
  sigop_loop fuel acc (a ++ r) (zlen a) last n = Ok (n + sigops acc last (ops r)).
Proof.
  induction r as [r E|r op d r' E Hl IH] using script_ind; intros fuel a last n H Hf Hn Hbound.
  - destruct fuel; cbn [sigop_loop]; scan_stop a r E H; case_bool_decide; cbn [negb fRet getop_fail sigops];
      f_equal; lia.
  - destruct fuel as [|fuel]; [lia|]. cbn [sigop_loop]. scan_step a r E H.
    cbn [fRet negb opcodeRet pcRet sigops].
    pose proof (sigop_weight_range acc last op) as Hw.
    match goal with |- context [res_bind ?m] => assert (m = Ok (n + sigop_weight acc last op)) as -> end.
    { assert (forall k, 0 <= k <= 20 -> u32 (n + k) = n + k) as Hu
        by (intros; apply wrap_small; unfold in_u, zlen in *; lia).
      unfold sigop_weight in *. repeat case_bool; try (rewrite Hu by (unfold MAX_PUBKEYS_PER_MULTISIG; lia); done); try (f_equal; lia).
      bool_hyps. unfold DecodeOP_N. rewrite (proj2 (Z.eqb_neq _ _)) by (simpl in *; lia).
      rewrite !(proj2 (Z.leb_le _ _)) by done. cbn [andb res_bind]. rewrite Hu by (simpl in *; lia). done. }
    cbn [res_bind]. subst r. rewrite app_assoc in *.
    rewrite IH; [f_equal; lia|done|lia|lia|]. rewrite zlen_app in Hbound.
    assert (1 <= zlen b) by (destruct b; [done|rewrite zlen_cons; pose proof (zlen_nonneg b); lia]). lia.
Qed.

(** ** Building *)

Definition push_opcode (b : bytes) : Z :=
  if zlen b <? OP_PUSHDATA1 then zlen b
  else if zlen b <=? 0xff then OP_PUSHDATA1
  else if zlen b <=? 0xffff then OP_PUSHDATA2 else OP_PUSHDATA4.

Lemma put_vch_app b s : put_vch b s = s ++ put_vch b [].
Proof. unfold put_vch. repeat case_bool; by rewrite <- !app_assoc. Qed.

Lemma put_vch_bytes b : byte_list b -> byte_list (put_vch b []).
Proof.
  intros Hb. unfold put_vch.
  assert (forall k, byte_list (drop k (replicate k 0))) as Hnil
    by (intros; rewrite drop_ge by (rewrite length_replicate; done); constructor).
  destruct (write_le WORDS_BIGENDIAN (replicate 2 0) (u16 (zlen b))) as (W2 & _ & _).
  destruct (write_le WORDS_BIGENDIAN (replicate 4 0) (u32 (zlen b))) as (_ & W4 & _).
  rewrite W2, W4 by (apply wrap_range; lia).
  repeat case_bool; rewrite ?app_nil_l, !byte_list_app; split_and!; auto using le_bytes_bytes;
    repeat constructor; try done; apply wrap_range; lia.
Qed.

Lemma take_drop_block {A} (k r : list A) : take (length k) (k ++ r) = k /\ drop (length k) (k ++ r) = r.
Proof. split; [apply take_app_length|apply drop_app_length]. Qed.

Lemma next_op_push b r : zlen b < 2 ^ 31 -> next_op (put_vch b [] ++ r) = Some (push_opcode b, b, r).
Proof.
  intros Hb. pose proof (zlen_nonneg b) as Hb0.
  assert (forall k n, k = le_bytes n (zlen b) -> zlen b < 2 ^ (8 * Z.of_nat n) ->
    take n (k ++ b ++ r) = k /\ drop n (k ++ b ++ r) = b ++ r /\ le_val k = zlen b /\ length k = n) as Hle.
  { intros k n -> Hn. destruct (take_drop_block (le_bytes n (zlen b)) (b ++ r)) as [Ht Hd].
    rewrite length_le_bytes in Ht, Hd. rewrite le_val_small, length_le_bytes by (unfold in_u; lia). done. }
  assert (forall op : Z, (if zlen (b ++ r) <? zlen b then None
    else Some (op, take (Z.to_nat (zlen b)) (b ++ r), drop (Z.to_nat (zlen b)) (b ++ r))) = Some (op, b, r)) as Hcut.
  { intros op. rewrite (proj2 (Z.ltb_ge _ _)) by (rewrite zlen_app; pose proof (zlen_nonneg r); lia).
    unfold zlen. rewrite Nat2Z.id. by destruct (take_drop_block b r) as [-> ->]. }
  unfold put_vch, push_opcode.
  destruct (write_le WORDS_BIGENDIAN (replicate 2 0) (zlen b)) as (W2 & _ & _).
  destruct (write_le WORDS_BIGENDIAN (replicate 4 0) (zlen b)) as (_ & W4 & _).
  destruct (Z.ltb_spec (zlen b) OP_PUSHDATA1); [|destruct (Z.leb_spec (zlen b) 0xff); [|destruct (Z.leb_spec (zlen b) 0xffff)]];
    rewrite ?app_nil_l, ?wrap_small by (unfold in_u; simpl in *; lia); rewrite <- ?app_assoc; cbn [app next_op].
  - rewrite (proj2 (Z.leb_le _ _)) by (simpl in *; lia). unfold header.
    rewrite (proj2 (Z.ltb_lt _ _)) by done. cbn [mbind option_bind]. apply Hcut.
  - cbn. destruct (Hle [zlen b] 1%nat) as (_ & _ & Hv & _); [simpl; rewrite Z.mod_small by lia; done|simpl; lia|].
    cbn in Hv. rewrite take_0, drop_0. cbn [le_val]. rewrite Z.add_0_r. apply Hcut.
  - rewrite W2 by (unfold in_u; lia). cbn [drop replicate]. rewrite app_nil_r.
    destruct (Hle (le_bytes 2 (zlen b)) 2%nat) as (Ht & Hd & Hv & Hl); [done|simpl; lia|].
    rewrite (proj2 (Z.leb_le _ _)) by (simpl; lia). unfold header. cbn [Z.ltb Z.eqb value Z.compare Pos.compare Pos.compare_cont Pos.eqb].
    rewrite length_app, Hl. cbn [Nat.ltb Nat.leb Nat.add]. rewrite Ht, Hd, Hv. apply Hcut.
  - rewrite W4 by (unfold in_u; lia). cbn [drop replicate]. rewrite app_nil_r.
    destruct (Hle (le_bytes 4 (zlen b)) 4%nat) as (Ht & Hd & Hv & Hl); [done|simpl; lia|].
    rewrite (proj2 (Z.leb_le _ _)) by (simpl; lia). unfold header. cbn [Z.ltb Z.eqb value Z.compare Pos.compare Pos.compare_cont Pos.eqb].
    rewrite length_app, Hl. cbn [Nat.ltb Nat.leb Nat.add]. rewrite Ht, Hd, Hv. apply Hcut.
Qed.

(** What the overloads of [<<] are given. *)
Inductive item : Type :=
| Code (opcode : Z)
| Data (b : bytes)
| Num (n : Z).

Definition put_item (i : item) (s : CScript) : res CScript :=
  match i with
  | Code opcode => put_opcode opcode s
  | Data b => Ok (put_vch b s)
  | Num n => Ok (push_int64 n s)
  end.

Fixpoint build (its : list item) (s : CScript) : res CScript :=
  match its with
  | [] => Ok s
  | i :: its => let? s := put_item i s in build its s
  end.

Definition small_int (n : Z) : bool := (n =? -1) || ((1 <=? n) && (n <=? 16)).

(** The operation an item is read back as. *)
Definition item_op (i : item) : Z * bytes :=
  match i with
  | Code opcode => (opcode, [])
  | Data b => (push_opcode b, b)
  | Num n =>
      if small_int n then (n + OP_RESERVED, []) else (push_opcode (CScriptNum.serialize n), CScriptNum.serialize n)
  end.

Definition item_ok (i : item) : Prop :=
  match i with
  | Code opcode => OP_PUSHDATA4 < opcode < 256
  | Data b => byte_list b /\ zlen b < 2 ^ 31
  | Num n => - 2 ^ 63 < n < 2 ^ 63
  end.

Lemma next_op_item i s : item_ok i ->
  exists x, put_item i s = Ok (s ++ x) /\ byte_list x /\ forall r, next_op (x ++ r) = Some (fst (item_op i), snd (item_op i), r).
Proof.
  destruct i as [op|b|n]; intros Hi; cbn [put_item item_op item_ok] in *.
  - exists [op]. unfold put_opcode. rewrite !(proj2 (Z.ltb_ge _ _)) by (simpl in *; lia). split; [done|].
    split; [repeat constructor; simpl in *; lia|]. intros r. cbn [app next_op]. by rewrite (proj2 (Z.leb_gt _ _)) by lia.
  - exists (put_vch b []). rewrite put_vch_app. destruct Hi as [Hb Hl]. split; [done|].
    split; [by apply put_vch_bytes|]. intros r. by apply next_op_push.
  - unfold push_int64. fold (small_int n). destruct (small_int n) eqn:En.
    + eexists; split; [done|]. split; [repeat constructor; apply wrap_range; lia|]. intros r. unfold small_int in En.
      assert (wrap 8 (n + (OP_1 - 1)) = n + OP_RESERVED) as ->
        by (rewrite wrap_small; unfold in_u; simpl; bool_cases; lia).
      cbn [app next_op]. rewrite (proj2 (Z.leb_gt _ _)) by (simpl; bool_cases; lia). done.
    + destruct (Z.eqb_spec n 0) as [->|].
      * eexists; split; [done|]. split; [repeat constructor; done|]. intros r. cbn. rewrite (proj2 (Z.ltb_ge _ _)) by apply zlen_nonneg. done.
      * eexists; split; [by rewrite put_vch_app|]. split; [apply put_vch_bytes, serialize_spec; lia|]. intros r. apply next_op_push.
        assert (Z.of_nat (length (CScriptNum.serialize n)) <= 8)
          by (apply length_serialize; [lia|change (8 * 8 - 1) with 63; lia]).
        cbn [snd]. unfold zlen. lia.
Qed.

Lemma build_parse its : Forall item_ok its -> forall s,
  exists x, build its s = Ok (s ++ x) /\ byte_list x /\ ops x = map item_op its /\ well_parsed x = true.
Proof.
  induction 1 as [|i its Hi _ IH]; intros s; cbn [build map].
  - exists []. rewrite app_nil_r. split_and!; [done|constructor|done|done].
  - destruct (next_op_item i s Hi) as (x & -> & Hb & Hx). cbn [res_bind].
    destruct (IH (s ++ x)) as (y & -> & Hby & Hops & Hw). exists (x ++ y). rewrite <- app_assoc.
    destruct (ops_step _ _ _ _ (Hx y)) as [-> ->]. rewrite Hops.
    split_and!; [done|by apply byte_list_app|by destruct (item_op i)|done].
Qed.

(** ** Deletion

    [deleted b r r' k]: going through [r] operation by operation, [k] copies of
    [b] that start at an operation are cut out and [r'] is left. *)
Inductive deleted (b : bytes) : bytes -> bytes -> Z -> Prop :=
| deleted_match r r' k : deleted b r r' k -> deleted b (b ++ r) r' (k + 1)
| deleted_op x op d r r' k : ~ b `prefix_of` (x ++ r) -> next_op (x ++ r) = Some (op, d, r) ->
    deleted b r r' k -> deleted b (x ++ r) (x ++ r') k
| deleted_stop r : ~ b `prefix_of` r -> next_op r = None -> deleted b r r 0.

Lemma deleted_length b r r' k : deleted b r r' k -> 0 <= k /\ zlen r = zlen r' + k * zlen b.
Proof. induction 1; rewrite ?zlen_app; lia. Qed.

Lemma deleted_nothing b r r' k : deleted b r r' k -> k = 0 -> r' = r.
Proof.
  induction 1 as [r r' k H IH|x op d r r' k _ _ _ IH|]; intros Hk.
  - destruct (deleted_length _ _ _ _ H). lia.
  - by rewrite IH.
  - done.
Qed.

Lemma match_test b a r : script_ok (a ++ r) ->
  (zlen b <=? u64 (iterator.diff (script_end (a ++ r)) (zlen a))) &&
  bool_decide (slice (a ++ r) (zlen a) (zlen a + zlen b) = b) = bool_decide (b `prefix_of` r).
Proof.
  intros [_ H]. pose proof (left_ok a r H) as Hl. unfold iterator.diff, const_iterator.diff in *. rewrite Hl.
  rewrite zlen_app in H. pose proof (zlen_nonneg a). pose proof (zlen_nonneg r).
  rewrite wrap_small by (unfold in_u; lia).
  unfold slice. rewrite drop_zlen. replace (Z.to_nat (zlen a + zlen b - zlen a)) with (length b) by (unfold zlen; lia).
  apply eq_true_iff_eq. rewrite andb_true_iff, Z.leb_le, !bool_decide_eq_true. split.
  - intros [_ E]. exists (drop (length b) r). by rewrite <- E at 1; rewrite take_drop.
  - intros [k ->]. rewrite zlen_app, take_app_length. pose proof (zlen_nonneg k). split; [lia|done].
Qed.

(** The inner loop skips every copy of [b] at its position. *)
Lemma skip_spec b fuel : b <> [] -> forall a r n, script_ok (a ++ r) -> (length r <= fuel)%nat ->
  exists x r1 k, r = x ++ r1 /\ 0 <= k /\ ~ b `prefix_of` r1 /\
    (forall r' j, deleted b r1 r' j -> deleted b r r' (j + k)) /\
    skip_loop fuel b (a ++ r) (zlen a) n = Ok (zlen (a ++ x), n + k).
Proof.
  intros Hb. induction fuel as [|fuel IH]; intros a r n H Hf; cbn [skip_loop]; rewrite match_test by done;
    case_bool_decide as Hp;
    try (exists [], r, 0; rewrite app_nil_r; split_and!; [done|done|done| |by rewrite Z.add_0_r];
         intros r' j; by rewrite Z.add_0_r).
  - destruct Hp as [q ->]. rewrite length_app in Hf. destruct b; [done|simpl in Hf; lia].
  - destruct Hp as [q ->]. unfold iterator.plus. rewrite <- zlen_app, app_assoc in *.
    destruct (IH (a ++ b) q (n + 1) H) as (x & r1 & k & -> & Hk & Hn & Hd & E).
    { rewrite length_app in Hf. destruct b; [done|simpl in Hf; lia]. }
    exists (b ++ x), r1, (k + 1). rewrite app_assoc. rewrite E. split_and!.
    + by rewrite <- app_assoc.
    + lia.
    + done.
    + intros r' j Hj. rewrite Z.add_assoc. rewrite <- app_assoc. apply deleted_match. by apply Hd.
    + rewrite <- app_assoc. do 2 f_equal. lia.
Qed.

Lemma delete_loop_spec b fuel : b <> [] -> forall a r result pc2 n, script_ok (a ++ r) ->
  (length r < fuel)%nat -> 0 <= n ->
  exists r' k, deleted b r r' k /\
    delete_loop fuel b (a ++ r) result (zlen a) pc2 n =
    Ok (if 0 <? n + k then (result ++ slice (a ++ r) pc2 (zlen a)) ++ r' else a ++ r, n + k).
Proof.
  intros Hb. induction fuel as [|fuel IH]; intros a r result pc2 n H Hf Hn; [lia|]. cbn [delete_loop].
  destruct (skip_spec b (length (a ++ r)) Hb a r n H) as (x & r1 & k & Er & Hk & Hnp & Hd & E);
    [rewrite length_app; lia|]. rewrite E. cbn [res_bind]. clear E.
  set (result1 := result ++ slice (a ++ r) pc2 (zlen a)).
  clearbody result1. subst r. rewrite length_app in Hf. rewrite (app_assoc a x r1) in *.
  pose proof (GetOp_spec (a ++ x) r1 H) as Hg. destruct (next_op r1) as [[[op d] r2]|] eqn:E1.
  - destruct Hg as (y & Ey & Hy & _ & ->). cbn [fRet pcRet]. subst r1.
    pose proof (next_op_shorter _ _ _ _ E1).
    assert ((a ++ x) ++ y ++ r2 = ((a ++ x) ++ y) ++ r2) as E2 by apply app_assoc. rewrite E2 in *.
    destruct (IH ((a ++ x) ++ y) r2 result1 (zlen (a ++ x)) (n + k)) as (r' & j & Hr & ->); [done|lia|lia|].
    exists (y ++ r'), (j + k). split.
    + apply Hd. by eapply deleted_op.
    + replace (n + (j + k)) with (n + k + j) by lia. case_bool; [|done].
      rewrite (zlen_app (a ++ x) y), <- E2, slice_mid, <- app_assoc. done.
  - destruct Hg as (y & r3 & _ & ->). cbn [fRet getop_fail]. exists r1, k. split.
    + specialize (Hd r1 0). rewrite Z.add_0_l in Hd. apply Hd. by constructor.
    + rewrite slice_end. by case_bool.
Qed.

Lemma FindAndDelete_spec b s : b <> [] -> script_ok s ->
  exists s' k, deleted b s s' k /\ FindAndDelete b s = Ok (s', k).
Proof.
  intros Hb H. unfold FindAndDelete. rewrite (proj2 (Z.eqb_neq _ _))
    by (destruct b; [done|rewrite zlen_cons; pose proof (zlen_nonneg b); lia]).
  destruct (delete_loop_spec b (S (length s)) Hb [] s [] begin_ 0 H) as (s' & k & Hd & E); [lia|lia|].
  exists s', k. split; [done|]. rewrite (@begin_zlen Z) at 1. cbn [app] in E. rewrite E, Z.add_0_l.
  case_bool; bool_hyps; [done|]. destruct (deleted_length _ _ _ _ Hd). rewrite (deleted_nothing _ _ _ _ Hd) by lia. done.
Qed.

(** ** Templates *)

Lemma at_cons x s i : 0 <= i -> at_ (x :: s) (i + 1) = at_ s i.
Proof. intros. unfold at_. by replace (Z.to_nat (i + 1)) with (S (Z.to_nat i)) by lia. Qed.

Lemma at_app s x : at_ (s ++ [x]) (zlen s) = x.
Proof. apply at_zlen. Qed.

Lemma p2sh_spec s : IsPayToScriptHash s = true <->
  exists h, zlen h = 20 /\ s = [OP_HASH160 : Z; 20] ++ h ++ [OP_EQUAL : Z].
Proof.
  unfold IsPayToScriptHash. rewrite !andb_true_iff, !Z.eqb_eq. split.
  - intros [[[Hl H0] H1] H22]. destruct s as [|x [|y s]]; try (unfold zlen in Hl; simpl in Hl; lia).
    rewrite !zlen_cons in Hl. destruct (snoc_cases s) as [->|(h & z & ->)]; [done|].
    rewrite zlen_app in Hl. assert (zlen h = 20) as Hh by (change (zlen [z]) with 1 in Hl; lia).
    exists h. split; [done|].
    change 22 with (20 + 1 + 1) in H22. rewrite !at_cons, <- Hh, at_app in H22 by lia.
    change (at_ (x :: y :: h ++ [z]) 0) with x in H0. change (at_ (x :: y :: h ++ [z]) 1) with y in H1. by subst.
  - intros (h & Hh & ->). cbn [app]. rewrite !zlen_cons, zlen_app, Hh.
    assert (at_ (h ++ [OP_EQUAL : Z]) 20 = OP_EQUAL) as E by (rewrite <- Hh; apply at_app).
    change 22 with (20 + 1 + 1). rewrite !at_cons, E by lia. done.
Qed.

Lemma p2wsh_spec s : IsPayToWitnessScriptHash s = true <-> exists h, zlen h = 32 /\ s = [0; 32] ++ h.
Proof.
  unfold IsPayToWitnessScriptHash. rewrite !andb_true_iff, !Z.eqb_eq. split.
  - intros [[Hl H0] H1]. destruct s as [|x [|y s]]; try (unfold zlen in Hl; simpl in Hl; lia).
    rewrite !zlen_cons in Hl. exists s. split; [lia|]. unfold at_ in *. simpl in *. by subst.
  - intros (h & Hh & ->). cbn [app]. rewrite !zlen_cons, Hh. done.
Qed.

Lemma EncodeOP_N_spec n : 0 <= n <= 16 ->
  EncodeOP_N n = Ok (if n =? 0 then 0 else n + OP_RESERVED) /\
  (let? op := EncodeOP_N n in DecodeOP_N op) = Ok n.
Proof.
  intros Hn. unfold EncodeOP_N, DecodeOP_N. rewrite !(proj2 (Z.leb_le _ _)) by lia. cbn [andb].
  destruct (Z.eqb_spec n 0); cbn [res_bind]; [subst; done|].
  split; [f_equal; simpl; lia|]. rewrite (proj2 (Z.eqb_neq _ _)) by (simpl; lia).
  rewrite !(proj2 (Z.leb_le _ _)) by (simpl; lia). cbn [andb]. f_equal. simpl. lia.
Qed.

Lemma IsWitnessProgram_spec s : script_ok s ->
  match IsWitnessProgram s with
  | Ok (Some (version, program)) => 0 <= version <= 16 /\ 2 <= zlen program <= 40 /\
      exists op, EncodeOP_N version = Ok op /\ s = [op; zlen program] ++ program
  | Ok None => ~ exists version op program, 0 <= version <= 16 /\ 2 <= zlen program <= 40 /\
      EncodeOP_N version = Ok op /\ s = [op; zlen program] ++ program
  | _ => False
  end.
Proof.
  intros [Hb _]. unfold IsWitnessProgram.
  destruct ((zlen s <? 4) || (42 <? zlen s)) eqn:El.
  { intros (v & op & p & _ & Hp & _ & ->). cbn [app] in El. rewrite !zlen_cons in El.
    apply orb_true_iff in El as [El|El]; bool_hyps; lia. }
  bool_hyps. destruct s as [|x [|y s]]; try (unfold zlen in *; simpl in *; lia).
  rewrite !zlen_cons in *. change (at_ (x :: y :: s) 0) with x. change (at_ (x :: y :: s) 1) with y.
  inversion Hb as [|? ? Hx Hb']; subst. unfold in_u in Hx.
  destruct (negb (x =? OP_0) && ((x <? OP_1) || (OP_16 <? x))) eqn:Ex.
  { intros (v & op & p & Hv & Hp & Eo & E). destruct (EncodeOP_N_spec v Hv) as [Ev _]. rewrite Ev in Eo.
    injection Eo as Eo. injection E as -> _ _. apply andb_true_iff in Ex as [E0 E1]. bool_hyps. subst op.
    destruct (Z.eqb_spec v 0); [done|]. apply orb_true_iff in E1 as [E1|E1]; bool_hyps; simpl in *; lia. }
  destruct (Z.eqb_spec (y + 2) (zlen s + 1 + 1)) as [Ey|Ey].
  - assert (slice (x :: y :: s) (begin_ + 2) (script_end (x :: y :: s)) = s) as Hsl
      by (apply (slice_end [x; y] s)).
    unfold DecodeOP_N. destruct (Z.eqb_spec x OP_0) as [->|Hx0].
    + cbn [res_bind]. rewrite Hsl. split_and!; [lia|lia|lia|lia|]. exists 0.
      split; [done|]. simpl. repeat f_equal; lia.
    + cbn [negb andb] in Ex. apply orb_false_iff in Ex as [E1 E2]. bool_hyps.
      rewrite !(proj2 (Z.leb_le _ _)) by done. cbn [andb res_bind]. rewrite Hsl.
      assert (0 <= x - (OP_1 - 1) <= 16) as Hv by (simpl in *; lia).
      split_and!; [lia|lia|lia|lia|]. exists x.
      destruct (EncodeOP_N_spec _ Hv) as [-> _]. rewrite (proj2 (Z.eqb_neq _ _)) by (simpl in *; lia).
      split; [f_equal; simpl; lia|]. simpl. repeat f_equal; lia.
  - intros (v & op & p & _ & _ & _ & E). injection E as _ -> ->. lia.
Qed.

Lemma next_op_data r op d r' : byte_list r -> next_op r = Some (op, d, r') ->
  byte_list d /\ zlen d <= zlen r /\ byte_list r' /\ zlen r' <= zlen r.
Proof.
  intros Hb. destruct r as [|x r]; [done|]. apply Forall_cons in Hb as [_ Hb]. cbn [next_op].
  rewrite zlen_cons. case_bool.
  - intros [[n r1] [E H]]%bind_Some. case_bool_in H; [done|]. injection H as _ <- <-.
    assert (byte_list r1 /\ (length r1 <= length r)%nat) as [H1 H2].
    { unfold header in E. repeat case_bool_in E; try done; injection E as _ <-;
        (split; [try apply Forall_drop; done|rewrite ?length_drop; lia]). }
    unfold zlen. rewrite length_take, length_drop.
    split_and!; [by apply Forall_take|lia|by apply Forall_drop|lia].
  - intros [= _ <- <-]. pose proof (zlen_nonneg r). split_and!; [constructor|unfold zlen; simpl; lia|done|lia].
Qed.

Lemma ops_data r : byte_list r -> Forall (fun o => byte_list (snd o) /\ zlen (snd o) <= zlen r) (ops r).
Proof.
  induction r as [r E|r op d r' E Hl IH] using script_ind; intros Hb.
  - destruct (ops_stop _ E) as [-> _]. constructor.
  - destruct (ops_step _ _ _ _ E) as [-> _]. destruct (next_op_data _ _ _ _ Hb E) as (Hd & Hl1 & Hb' & Hl2).
    constructor; [done|]. eapply Forall_impl; [by apply IH|]. intros o [? ?]. split; [done|lia].
Qed.

Lemma last_push_ok r : script_ok r ->
  script_ok (List.last (map snd (ops r)) []) /\ zlen (List.last (map snd (ops r)) []) <= zlen r.
Proof.
  intros [Hb Hr]. pose proof (ops_data r Hb) as H. pose proof (zlen_nonneg r).
  destruct (ops r) as [|o l] using rev_ind.
  - simpl. split; [split; [constructor|]|]; unfold zlen in *; simpl; lia.
  - rewrite map_app. cbn [map]. rewrite List.last_last. apply Forall_app in H as [_ H]. apply Forall_singleton in H as [H1 H2].
    split; [split; [done|lia]|done].
Qed.

(** The loop [while (pc < end()) { if (!GetOp(pc, opcode, data)) break; .. }]
    of the callers: every operation read, and whether the end was reached. *)
Fixpoint read_loop (fuel : nat) (s : CScript) (pc : Z) : res (list (Z * bytes) * bool) :=
  if pc <? script_end s then
    let r := GetOp s pc in
    if negb (fRet r) then Ok ([], false)
    else match fuel with
         | O => OutOfFuel
         | S fuel =>
             let? (l, done) := read_loop fuel s (pcRet r) in Ok ((opcodeRet r, vchRet r) :: l, done)
         end
  else Ok ([], true).

Definition read_all (s : CScript) : res (list (Z * bytes) * bool) := read_loop (length s) s begin_.

Lemma read_spec r : forall fuel a, script_ok (a ++ r) -> (length r <= fuel)%nat ->
  read_loop fuel (a ++ r) (zlen a) = Ok (ops r, well_parsed r).
Proof.
  induction r as [r E|r op d r' E Hl IH] using script_ind; intros fuel a H Hf.
  - destruct fuel; cbn [read_loop]; scan_stop a r E H; by case_bool_decide.
  - destruct fuel as [|fuel]; [lia|]. cbn [read_loop]. scan_step a r E H.
    cbn [fRet negb opcodeRet pcRet vchRet]. subst r. rewrite app_assoc in *.
    by rewrite IH by (done || lia).
Qed.
End script.

(** ** Properties *)

(** What [<<] writes, [GetOp] reads.  Opcodes above the push opcodes, data
    of any length below 2^31 and numbers, appended in any order to an empty
    script on either host, never throw, and reading the script operation by
    operation gives them back, each with the opcode of its push and its data,
    down to the end of the script. *)
Theorem script_roundtrip (be : bool) (its : list item) :
  Forall item_ok its ->
  exists s, build be its [] = Ok s /\ byte_list s /\
    (zlen s < 2 ^ 31 -> read_all be s = Ok (map item_op its, true)).
Proof.
  intros H. destruct (build_parse be its H []) as (s & E & Hb & Hops & Hw). exists s.
  split_and!; [done|done|]. intros Hs. unfold read_all.
  rewrite <- Hops, <- Hw. apply (read_spec be s (length s) []); [by split|done].
Qed.

Lemma script_roundtrip_witness :
  exists s, build false [Code OP_DUP; Data [1; 2; 3]; Num (-1); Num 1000; Data (replicate 300 7)] [] = Ok s /\
    read_all false s =
    Ok ([(118, []); (3, [1; 2; 3]); (79, []); (2, [232; 3]); (77, replicate 300 7)], true).
Proof.
  destruct (script_roundtrip false [Code OP_DUP; Data [1; 2; 3]; Num (-1); Num 1000; Data (replicate 300 7)])
    as (s & E & Hb & Hr).
  - repeat constructor; simpl; try lia; done.
  - exists s. split; [exact E|]. vm_compute in E. injection E as <-. apply Hr. reflexivity.
Defined.

(** Every scan of a script terminates whatever its bytes and is a function
    of the operations it holds: [IsPushOnly] is that the script is well formed
    and pushes only, [Find] counts an opcode, [GetSigOpCount] adds the weights
    of the signature operations, at most 20 a byte and without overflow, and
    the count through a pay-to-script-hash output is that of the last item the
    input pushes. *)
Theorem script_scans (be : bool) (s scriptSig : CScript) (op : Z) (acc : bool) :
  script_ok s -> 20 * zlen s < 2 ^ 32 -> script_ok scriptSig -> 20 * zlen scriptSig < 2 ^ 32 ->
  read_all be s = Ok (ops s, well_parsed s) /\
  IsPushOnly be s = Ok (well_parsed s && forallb (fun o => fst o <=? OP_16) (ops s)) /\
  Find be op s = Ok (Z.of_nat (length (filter (fun o => fst o = op) (ops s)))) /\
  GetSigOpCount be acc s = Ok (sigops acc OP_INVALIDOPCODE (ops s)) /\
  0 <= sigops acc OP_INVALIDOPCODE (ops s) <= 20 * zlen s /\
  GetSigOpCountP2SH be scriptSig s =
    Ok (if IsPayToScriptHash s then
          if pushes scriptSig then sigops true OP_INVALIDOPCODE (ops (List.last (map snd (ops scriptSig)) [])) else 0
        else sigops true OP_INVALIDOPCODE (ops s)).
Proof.
  intros Hs Hl Hs' Hl'.
  assert (forall acc s, script_ok s -> 20 * zlen s < 2 ^ 32 ->
    GetSigOpCount be acc s = Ok (sigops acc OP_INVALIDOPCODE (ops s))) as Hcount.
  { intros acc' s' H H'. apply (sigop_spec be acc' s' (length s') [] _ 0 H); lia. }
  split_and!.
  - by apply (read_spec be s (length s) []).
  - by apply (push_only_spec be s (length s) []).
  - by apply (find_spec be op s (length s) [] 0).
  - by apply Hcount.
  - apply sigops_range.
  - pose proof (sigops_range acc OP_INVALIDOPCODE (ops s)). pose proof (ops_length s). unfold zlen. lia.
  - unfold GetSigOpCountP2SH. destruct (IsPayToScriptHash s); cbn [negb]; [|by apply Hcount].
    pose proof (last_push_spec be scriptSig (length scriptSig) [] [] Hs' ltac:(done)) as E.
    change (zlen (@nil Z)) with begin_ in E. cbn [app] in E. rewrite E. cbn [res_bind].
    destruct (pushes scriptSig); [|done]. destruct (last_push_ok scriptSig Hs') as [H1 H2]. apply Hcount; [done|lia].
Qed.

Lemma script_scans_witness :
  IsPushOnly false [3; 1; 2; 3; 82] = Ok true /\ GetSigOpCount false true [82; 174; 172] = Ok 3.
Proof.
  destruct (script_scans false [3; 1; 2; 3; 82] [] 0 true) as (_ & H & _);
    [split; [repeat constructor; done|done]|done|split; [constructor|done]|done|].
  destruct (script_scans false [82; 174; 172] [] 0 true) as (_ & _ & _ & H' & _);
    [split; [repeat constructor; done|done]|done|split; [constructor|done]|done|].
  split; [exact H|exact H'].
Defined.

(** C33: [FindAndDelete] terminates, cuts out exactly the copies of its argument
    that start where an operation starts, once the copies before them are
    gone, leaves every other byte in place, counts what it cut, and leaves the
    script alone when there is none; an empty argument deletes nothing. *)
Theorem find_and_delete_correct (be : bool) (b s : CScript) :
  script_ok s ->
  (b = [] -> FindAndDelete be b s = Ok (s, 0)) /\
  (b <> [] -> exists s' k, FindAndDelete be b s = Ok (s', k) /\ deleted b s s' k /\
     0 <= k /\ zlen s = zlen s' + k * zlen b /\ (k = 0 -> s' = s)).
Proof.
  intros Hs. split; [by intros ->|]. intros Hb.
  destruct (FindAndDelete_spec be b s Hb Hs) as (s' & k & Hd & E).
  destruct (deleted_length _ _ _ _ Hd). exists s', k. split_and!; try done. by apply deleted_nothing with (1 := Hd).
Qed.

Lemma find_and_delete_correct_witness :
  exists k, FindAndDelete false [172] [1; 172; 172; 172; 118] = Ok ([1; 172; 118], k) /\
    deleted [172] [1; 172; 172; 172; 118] [1; 172; 118] k.
Proof.
  destruct (find_and_delete_correct false [172] [1; 172; 172; 172; 118]) as [_ H];
    [split; [repeat constructor; done|done]|].
  destruct H as (s' & k & E & Hd & _); [done|]. exists k.
  assert (s' = [1; 172; 118]) as -> by (vm_compute in E; by injection E as <- _). split; [exact E|exact Hd].
Defined.

(** The fast tests recognise exactly their templates: a pay-to-script-hash
    script is HASH160, a push of 20 bytes, EQUAL; a pay-to-witness-script-hash
    script is 0 and a push of 32 bytes; a witness program is a small integer
    and one push of 2 to 40 bytes, and the test returns them and never fails an
    assertion; small integers decode to what was encoded. *)
Theorem script_templates (s : CScript) :
  script_ok s ->
  (IsPayToScriptHash s = true <-> exists h, zlen h = 20 /\ s = [OP_HASH160 : Z; 20] ++ h ++ [OP_EQUAL : Z]) /\
  (IsPayToWitnessScriptHash s = true <-> exists h, zlen h = 32 /\ s = [0; 32] ++ h) /\
  match IsWitnessProgram s with
  | Ok (Some (version, program)) => 0 <= version <= 16 /\ 2 <= zlen program <= 40 /\
      exists op, EncodeOP_N version = Ok op /\ s = [op; zlen program] ++ program
  | Ok None => ~ exists version op program, 0 <= version <= 16 /\ 2 <= zlen program <= 40 /\
      EncodeOP_N version = Ok op /\ s = [op; zlen program] ++ program
  | _ => False
  end /\
  (forall n, 0 <= n <= 16 -> (let? op := EncodeOP_N n in DecodeOP_N op) = Ok n).
Proof.
  intros H. split_and!; [apply p2sh_spec|apply p2wsh_spec|by apply IsWitnessProgram_spec|].
  intros n Hn. by apply EncodeOP_N_spec.
Qed.

Lemma script_templates_witness :
  IsPayToScriptHash ([169; 20] ++ replicate 20 5 ++ [135]) = true /\
  IsPayToWitnessScriptHash ([0; 32] ++ replicate 32 5) = true.
Proof.
  destruct (script_templates ([169; 20] ++ replicate 20 5 ++ [135])) as (H & _);
    [split; [repeat constructor; done|done]|].
  destruct (script_templates ([0; 32] ++ replicate 32 5)) as (_ & H' & _);
    [split; [repeat constructor; done|done]|].
  split; [apply H; by exists (replicate 20 5)|apply H'; by exists (replicate 32 5)].
Defined.
