(* ===== verification/Amount.v ===== *)
(** Amounts and fee rates: src/sige/src/amount.h and amount.cpp.

    [CAmount] is [int64_t]; products wrap at 64 bits as the compiled code's do,
    and the theorem carries the bound under which they do not. *)

From S2P Require Import Prelude Bytes BaseUint UintBytes Uint256 Serialize Codec.

#[local] Ltac Zify.zify_post_hook ::= Z.to_euclidean_division_equations.

Definition COIN : Z := 100000000.
Definition CENT : Z := 1000000.
Definition MAX_MONEY : Z := 84000000 * COIN.

Definition MoneyRange (nValue : Z) : bool := (0 <=? nValue) && (nValue <=? MAX_MONEY).

Module CFeeRate.
Record t := mk { nSigesPerK : Z }.

Definition make : t := mk 0.

(** [assert(nBytes_ <= uint64_t(std::numeric_limits<int64_t>::max()))] *)
Definition of_fee (nFeePaid nBytes_ : Z) : res t :=
  if nBytes_ <=? 2 ^ 63 - 1 then
    let nSize := i64 nBytes_ in
    if 0 <? nSize then Ok (mk (Z.quot (i64 (nFeePaid * 1000)) nSize)) else Ok (mk 0)
  else AssertFail.

Definition GetFee (nBytes_ : Z) (r : t) : res Z :=
  if nBytes_ <=? 2 ^ 63 - 1 then
    let nSize := i64 nBytes_ in
    let nFee := Z.quot (i64 (nSigesPerK r * nSize)) 1000 in
    if (nFee =? 0) && negb (nSize =? 0) then
      let nFee := if 0 <? nSigesPerK r then 1 else nFee in
      Ok (if nSigesPerK r <? 0 then -1 else nFee)
    else Ok nFee
  else AssertFail.

Definition GetFeePerK (r : t) : res Z := GetFee 1000 r.

Definition op_lt (a b : t) : bool := nSigesPerK a <? nSigesPerK b.
Definition op_gt (a b : t) : bool := nSigesPerK b <? nSigesPerK a.
Definition op_eq (a b : t) : bool := nSigesPerK a =? nSigesPerK b.
Definition op_le (a b : t) : bool := nSigesPerK a <=? nSigesPerK b.
Definition op_ge (a b : t) : bool := nSigesPerK b <=? nSigesPerK a.
Definition add_assign (a this : t) : t := mk (i64 (nSigesPerK this + nSigesPerK a)).

(** [SerializationOp] *)
Definition c_fee_rate : codec t := c_map c_i64 mk nSigesPerK.
End CFeeRate.

#[export] Instance c_fee_rate_lawful : Lawful CFeeRate.c_fee_rate (fun r => in_s 64 (CFeeRate.nSigesPerK r)).
Proof. eapply lawful_weaken; [apply _|]. by intros []. Qed.

Lemma GetFee_spec n r : 0 <= CFeeRate.nSigesPerK r -> 0 <= n < 2 ^ 63 -> CFeeRate.nSigesPerK r * n < 2 ^ 63 ->
  CFeeRate.GetFee n r =
  Ok (if (0 <? CFeeRate.nSigesPerK r) && (0 <? n) then Z.max 1 (CFeeRate.nSigesPerK r * n / 1000) else 0).
Proof.
  destruct r as [k]. unfold CFeeRate.GetFee. cbn [CFeeRate.nSigesPerK]. intros Hk Hn Hp.
  assert (0 <= k * n) by (apply Z.mul_nonneg_nonneg; lia).
  rewrite (proj2 (Z.leb_le n (2 ^ 63 - 1))) by lia.
  rewrite (swrap_small 64 n) by (unfold in_s; lia). rewrite (swrap_small 64 (k * n)) by (unfold in_s; lia).
  rewrite Z.quot_div_nonneg by lia. rewrite (proj2 (Z.ltb_ge k 0)) by lia.
  destruct (Z.ltb_spec 0 k); [|assert (k = 0) as -> by lia; cbn [andb]; rewrite Z.mul_0_l; cbn; by case_bool].
  destruct (Z.ltb_spec 0 n); [|assert (n = 0) as -> by lia; rewrite Z.mul_0_r; done]. cbn [andb].
  rewrite (proj2 (Z.eqb_neq n 0)), andb_true_r by lia. destruct (Z.eqb_spec (k * n / 1000) 0); f_equal; lia.
Qed.

(** ** Properties *)

(** Fees: below the overflow bound [GetFee] is the rate times the size per
    thousand, rounded down but never to nothing for a positive rate and size;
    it is monotone in the size; and the rate computed from a fee paid for a
    transaction never asks more than that fee, or one, for that size. *)
Theorem fee_rate_correct (r : CFeeRate.t) (m n paid : Z) :
  0 <= CFeeRate.nSigesPerK r -> 0 <= m <= n -> n < 2 ^ 63 -> CFeeRate.nSigesPerK r * n < 2 ^ 63 ->
  0 <= paid <= MAX_MONEY -> 0 < n ->
  exists fm fn, CFeeRate.GetFee m r = Ok fm /\ CFeeRate.GetFee n r = Ok fn /\
    0 <= fm <= fn /\ (0 < CFeeRate.nSigesPerK r -> 0 < fn) /\
    (1 < fn -> fn * 1000 <= CFeeRate.nSigesPerK r * n < (fn + 1) * 1000) /\
    exists q f, CFeeRate.of_fee paid n = Ok q /\ CFeeRate.GetFee n q = Ok f /\ f <= Z.max 1 paid.
Proof.
  intros Hr Hm Hn Hp Hpaid Hn0. unfold MAX_MONEY, COIN in Hpaid.
  set (k := CFeeRate.nSigesPerK r) in *.
  assert (0 <= k * m <= k * n) by nia.
  pose proof (GetFee_spec m r) as Em. pose proof (GetFee_spec n r) as En. fold k in Em, En.
  rewrite Em, En by lia. do 2 eexists. split_and!; [done|done| | | | |].
  - repeat case_bool; lia.
  - repeat case_bool; bool_hyps; lia.
  - intros. rewrite (proj2 (Z.ltb_lt 0 k)), (proj2 (Z.ltb_lt 0 n)) by lia. cbn [andb]. lia.
  - case_bool; bool_hyps; intros; lia.
  - assert (CFeeRate.of_fee paid n = Ok (CFeeRate.mk (paid * 1000 / n))) as ->.
    { unfold CFeeRate.of_fee. rewrite (proj2 (Z.leb_le n (2 ^ 63 - 1))) by lia.
      rewrite (swrap_small 64 n) by (unfold in_s; lia). rewrite (swrap_small 64 (paid * 1000)) by (unfold in_s; lia).
      rewrite (proj2 (Z.ltb_lt 0 n)) by lia. by rewrite Z.quot_div_nonneg by lia. }
    assert (0 <= paid * 1000 / n) by (apply Z.div_pos; lia).
    assert (paid * 1000 / n * n <= paid * 1000) by (rewrite Z.mul_comm; apply Z.mul_div_le; lia).
    do 2 eexists. split_and!; [done|apply GetFee_spec; cbn [CFeeRate.nSigesPerK]; lia|].
    cbn [CFeeRate.nSigesPerK]. case_bool; [|lia].
    assert (paid * 1000 / n * n / 1000 <= paid) by (apply Z.div_le_upper_bound; lia). lia.
Qed.

Lemma fee_rate_correct_witness :
  CFeeRate.GetFee 250 (CFeeRate.mk 1000) = Ok 250 /\
  exists fm fn, CFeeRate.GetFee 1 (CFeeRate.mk 1000) = Ok fm /\ CFeeRate.GetFee 250 (CFeeRate.mk 1000) = Ok fn /\
    0 <= fm <= fn.
Proof.
  split; [reflexivity|].
  destruct (fee_rate_correct (CFeeRate.mk 1000) 1 250 5000) as (fm & fn & Em & En & H & _);
    [simpl; lia|lia|lia|simpl; lia|unfold MAX_MONEY, COIN; lia|lia|].
  exists fm, fn. split; [exact Em|]. split; [exact En|exact H].
Defined.
