(* ===== verification/Transaction.v ===== *)
(** Transactions: src/sige/src/primitives/transaction.h and transaction.cpp,
    with [CScriptWitness] of script/script.h.

    A [CTransaction] is its fields and the hash its constructors compute; the
    hash function is a parameter.  The stream's version is an argument of the
    codecs.  [ToString] and the floating-point [ComputePriority] are not
    modelled. *)

From S2P Require Import Prelude Bytes BaseUint UintBytes Uint256 Serialize Codec Opcode Prevector ScriptNum Script Amount.

#[local] Ltac Zify.zify_post_hook ::= Z.to_euclidean_division_equations.

Definition SERIALIZE_TRANSACTION_NO_WITNESS : Z := 0x40000000.
Definition WITNESS_SCALE_FACTOR : Z := 4.
Definition PROTOCOL_VERSION : Z := 70015.

(** [base_uint::Compare]: [memcmp] of the limbs in memory, up to its sign. *)
Fixpoint memcmp (a b : bytes) : Z :=
  match a, b with
  | x :: a, y :: b => if x <? y then -1 else if y <? x then 1 else memcmp a b
  | _, _ => 0
  end.

Definition Compare (pn other : uint256) : Z := memcmp (pn_bytes pn) (pn_bytes other).

(** ** Outpoints, inputs and outputs *)

Module COutPoint.
Record t := mk { hash : uint256; n : Z }.

Definition make : t := mk (BaseUint.SetNull WIDTH256 (base_uint_zero WIDTH256)) (u32 (-1)).
Definition SetNull (o : t) : t := mk (BaseUint.SetNull WIDTH256 (hash o)) (u32 (-1)).
Definition IsNull (o : t) : bool := BaseUint.IsNull WIDTH256 (hash o) && (n o =? u32 (-1)).
Definition op_lt (a b : t) : bool :=
  let cmp := Compare (hash a) (hash b) in
  (cmp <? 0) || ((cmp =? 0) && (n a <? n b)).
Definition op_eq (a b : t) : bool := BaseUint.op_eq (hash a) (hash b) && (n a =? n b).
Definition op_ne (a b : t) : bool := negb (op_eq a b).

Definition codec : codec t := c_map (c_pair c_uint256 c_u32) (fun '(h, n) => mk h n) (fun o => (hash o, n o)).
Definition wf_outpoint (o : t) : Prop := wf256 (hash o) /\ in_u 32 (n o).
End COutPoint.

Module CScriptWitness.
Record t := mk { stack : list bytes }.
Definition make : t := mk [].
Definition IsNull (w : t) : bool := (length (stack w) =? 0)%nat.
Definition SetNull (w : t) : t := mk [].
End CScriptWitness.

Definition SEQUENCE_FINAL : Z := 0xffffffff.
Definition SEQUENCE_LOCKTIME_DISABLE_FLAG : Z := Z.shiftl 1 31.
Definition SEQUENCE_LOCKTIME_TYPE_FLAG : Z := Z.shiftl 1 22.
Definition SEQUENCE_LOCKTIME_MASK : Z := 0x0000ffff.
Definition SEQUENCE_LOCKTIME_GRANULARITY : Z := 9.

Module CTxIn.
Record t := mk {
  prevout : COutPoint.t;
  scriptSig : CScript;
  nSequence : Z;
  scriptWitness : CScriptWitness.t; (* only serialised through the transaction *)
}.

Definition default : t := mk COutPoint.make [] SEQUENCE_FINAL CScriptWitness.make.
Definition make (prevoutIn : COutPoint.t) (scriptSigIn : CScript) (nSequenceIn : Z) : t :=
  mk prevoutIn scriptSigIn nSequenceIn CScriptWitness.make.
Definition make_at (hashPrevTx : uint256) (nOut : Z) (scriptSigIn : CScript) (nSequenceIn : Z) : t :=
  mk (COutPoint.mk hashPrevTx nOut) scriptSigIn nSequenceIn CScriptWitness.make.
Definition op_eq (a b : t) : bool :=
  COutPoint.op_eq (prevout a) (prevout b) && bool_decide (scriptSig a = scriptSig b) && (nSequence a =? nSequence b).
Definition op_ne (a b : t) : bool := negb (op_eq a b).

Definition codec : codec t :=
  c_map (c_pair COutPoint.codec (c_pair c_bytes c_u32))
    (fun '(p, (s, q)) => mk p s q CScriptWitness.make) (fun i => (prevout i, (scriptSig i, nSequence i))).
(** [txin.scriptWitness.stack = w] *)
Definition set_witness (w : list bytes) (i : t) : t :=
  mk (prevout i) (scriptSig i) (nSequence i) (CScriptWitness.mk w).
Definition wf_txin (i : t) : Prop :=
  COutPoint.wf_outpoint (prevout i) /\ blob_ok (scriptSig i) /\ in_u 32 (nSequence i).
End CTxIn.

Module CTxOut.
Record t := mk { nValue : Z; scriptPubKey : CScript }.

Definition SetNull : t := mk (-1) [].
Definition make (nValueIn : Z) (scriptPubKeyIn : CScript) : t := mk nValueIn scriptPubKeyIn.
Definition IsNull (o : t) : bool := nValue o =? -1.
Definition op_eq (a b : t) : bool :=
  (nValue a =? nValue b) && bool_decide (scriptPubKey a = scriptPubKey b).
Definition op_ne (a b : t) : bool := negb (op_eq a b).

Definition codec : codec t :=
  c_map (c_pair c_i64 c_bytes) (fun '(v, s) => mk v s) (fun o => (nValue o, scriptPubKey o)).
Definition wf_txout (o : t) : Prop := in_s 64 (nValue o) /\ blob_ok (scriptPubKey o).

Definition GetDustThreshold (minRelayTxFee : CFeeRate.t) (o : t) : res Z :=
  if IsUnspendable (scriptPubKey o) then Ok 0
  else
    let nSize := GetSerializeSize codec o in
    let? w := IsWitnessProgram (scriptPubKey o) in
    let nSize := u64 (match w with
      | Some _ => nSize + (32 + 4 + 1 + (107 / WITNESS_SCALE_FACTOR) + 4)
      | None => nSize + (32 + 4 + 1 + 107 + 4)
      end) in
    let? fee := CFeeRate.GetFee nSize minRelayTxFee in
    Ok (i64 (3 * fee)).

Definition IsDust (minRelayTxFee : CFeeRate.t) (o : t) : res bool :=
  let? threshold := GetDustThreshold minRelayTxFee o in Ok (nValue o <? threshold).
End CTxOut.

(** ** Transactions *)

Record CMutableTransaction := mk_tx {
  nVersion : Z;
  vin : list CTxIn.t;
  vout : list CTxOut.t;
  nLockTime : Z;
}.

Definition CURRENT_VERSION : Z := 2.
Definition MAX_STANDARD_VERSION : Z := 2.

Definition HasWitness (tx : CMutableTransaction) : bool :=
  existsb (fun i => negb (CScriptWitness.IsNull (CTxIn.scriptWitness i))) (vin tx).

Section transaction.
(** What the vector readers divide their blocks by. *)
Context (sizeof_CTxIn sizeof_CTxOut sizeof_vector : Z).

Definition c_vin : codec (list CTxIn.t) := c_vector CTxIn.codec sizeof_CTxIn.
Definition c_vout : codec (list CTxOut.t) := c_vector CTxOut.codec sizeof_CTxOut.
Definition c_stack : codec (list bytes) := c_vector c_bytes sizeof_vector.

Definition allow_witness (version : Z) : bool := Z.land version SERIALIZE_TRANSACTION_NO_WITNESS =? 0.

(** [for (i = 0; i < tx.vin.size(); i++) s >> tx.vin[i].scriptWitness.stack] *)
Fixpoint read_witnesses (S : Type) `{!Stream S} (vin : list CTxIn.t) : rd S (list CTxIn.t) :=
  match vin with
  | [] => rd_ret []
  | i :: vin =>
      let! w := Unserialize c_stack S in
      let! vin := read_witnesses S vin in
      rd_ret (CTxIn.set_witness w i :: vin)
  end.

Definition UnserializeTransaction (version : Z) (S : Type) `{!Stream S} : rd S CMutableTransaction :=
  let fAllowWitness := allow_witness version in
  let! nVersion := Unserialize c_i32 S in
  let! vin := Unserialize c_vin S in
  let! (flags, vin, vout) :=
    if (length vin =? 0)%nat && fAllowWitness then
      let! flags := Unserialize c_u8 S in
      if negb (flags =? 0) then
        let! vin := Unserialize c_vin S in
        let! vout := Unserialize c_vout S in
        rd_ret (flags, vin, vout)
      else rd_ret (flags, vin, [])
    else
      let! vout := Unserialize c_vout S in
      rd_ret (0, vin, vout) in
  let! (flags, vin) :=
    if negb (Z.land flags 1 =? 0) && fAllowWitness then
      let! vin := read_witnesses S vin in
      rd_ret (Z.lxor flags 1, vin)
    else rd_ret (flags, vin) in
  if negb (flags =? 0) then rd_throw "Unknown transaction optional data"
  else
    let! nLockTime := Unserialize c_u32 S in
    rd_ret (mk_tx nVersion vin vout nLockTime).

Definition witness_of (i : CTxIn.t) : list bytes := CScriptWitness.stack (CTxIn.scriptWitness i).

Definition SerializeTransaction (version : Z) (tx : CMutableTransaction) : bytes :=
  let fAllowWitness := allow_witness version in
  let flags := if fAllowWitness then if HasWitness tx then Z.lor 0 1 else 0 else 0 in
  Serialize c_i32 (nVersion tx) ++
  (if negb (flags =? 0) then Serialize c_vin [] ++ Serialize c_u8 flags else []) ++
  Serialize c_vin (vin tx) ++
  Serialize c_vout (vout tx) ++
  (if negb (Z.land flags 1 =? 0) then mjoin (map (fun i => Serialize c_stack (witness_of i)) (vin tx)) else []) ++
  Serialize c_u32 (nLockTime tx).

(** The same code over a [CSizeComputer]. *)
Definition SizeTransaction (version : Z) (tx : CMutableTransaction) : Z :=
  let fAllowWitness := allow_witness version in
  let flags := if fAllowWitness then if HasWitness tx then Z.lor 0 1 else 0 else 0 in
  SerSize c_i32 (nVersion tx) +
  (if negb (flags =? 0) then SerSize c_vin [] + SerSize c_u8 flags else 0) +
  SerSize c_vin (vin tx) +
  SerSize c_vout (vout tx) +
  (if negb (Z.land flags 1 =? 0) then foldr (fun i n => SerSize c_stack (witness_of i) + n) 0 (vin tx) else 0) +
  SerSize c_u32 (nLockTime tx).

Definition c_transaction (version : Z) : codec CMutableTransaction := {|
  Serialize := SerializeTransaction version;
  SerSize := SizeTransaction version;
  Unserialize S _ := UnserializeTransaction version S;
|}.

(** *** CTransaction *)

Context (Hash : bytes -> uint256).

Record CTransaction := mk_CTransaction { tx :> CMutableTransaction; hash : uint256 }.

Definition mutable_GetHash (t : CMutableTransaction) : uint256 :=
  Hash (Serialize (c_transaction SERIALIZE_TRANSACTION_NO_WITNESS) t).
Definition ComputeHash (t : CMutableTransaction) : uint256 :=
  Hash (Serialize (c_transaction SERIALIZE_TRANSACTION_NO_WITNESS) t).
Definition GetWitnessHash (t : CTransaction) : uint256 := Hash (Serialize (c_transaction 0) (tx t)).

Definition make_mutable : CMutableTransaction := mk_tx CURRENT_VERSION [] [] 0.
Definition make_null : CTransaction := mk_CTransaction make_mutable (base_uint_zero WIDTH256).
(** [CTransaction(const CMutableTransaction&)] and the move constructor. *)
Definition make_transaction (t : CMutableTransaction) : CTransaction := mk_CTransaction t (ComputeHash t).
Definition to_mutable (t : CTransaction) : CMutableTransaction := tx t.

(** [CTransaction(deserialize_type, Stream&)] *)
Definition c_CTransaction (version : Z) : codec CTransaction :=
  c_map (c_transaction version) make_transaction tx.

Definition GetHash (t : CTransaction) : uint256 := hash t.
Definition IsNull (t : CTransaction) : bool := (length (vin t) =? 0)%nat && (length (vout t) =? 0)%nat.
Definition op_eq (a b : CTransaction) : bool := BaseUint.op_eq (hash a) (hash b).
Definition op_ne (a b : CTransaction) : bool := BaseUint.op_ne (hash a) (hash b).
Definition mutable_op_eq (a b : CMutableTransaction) : bool :=
  BaseUint.op_eq (mutable_GetHash a) (mutable_GetHash b).

Definition IsCoinBase (t : CMutableTransaction) : bool :=
  match vin t with [i] => COutPoint.IsNull (CTxIn.prevout i) | _ => false end.

Fixpoint value_loop (vout : list CTxOut.t) (nValueOut : Z) : res Z :=
  match vout with
  | [] => Ok nValueOut
  | it :: vout =>
      let nValueOut := i64 (nValueOut + CTxOut.nValue it) in
      if negb (MoneyRange (CTxOut.nValue it)) || negb (MoneyRange nValueOut)
      then Throw "GetValueOut: value out of range"
      else value_loop vout nValueOut
  end.

Definition GetValueOut (t : CMutableTransaction) : res Z := value_loop (vout t) 0.

Definition GetTotalSize (t : CMutableTransaction) : Z := u32 (GetSerializeSize (c_transaction PROTOCOL_VERSION) t).

(** The size without witnesses counts three times. *)
Definition GetTransactionWeight (t : CMutableTransaction) : Z :=
  i64 (u64 (GetSerializeSize (c_transaction (Z.lor PROTOCOL_VERSION SERIALIZE_TRANSACTION_NO_WITNESS)) t *
            (WITNESS_SCALE_FACTOR - 1) +
            GetSerializeSize (c_transaction PROTOCOL_VERSION) t)).

Fixpoint modified_loop (vin : list CTxIn.t) (nTxSize : Z) : Z :=
  match vin with
  | [] => nTxSize
  | it :: vin =>
      let offset := u32 (41 + Z.min 110 (u32 (zlen (CTxIn.scriptSig it)))) in
      modified_loop vin (if offset <? nTxSize then u32 (nTxSize - offset) else nTxSize)
  end.

Definition CalculateModifiedSize (nTxSize : Z) (t : CMutableTransaction) : Z :=
  let nTxSize :=
    if nTxSize =? 0 then
      u32 (Z.quot (i64 (GetTransactionWeight t + WITNESS_SCALE_FACTOR - 1)) WITNESS_SCALE_FACTOR)
    else nTxSize in
  modified_loop (vin t) nTxSize.
(** ** Laws *)

Context (Hin : 0 < sizeof_CTxIn <= 5000000) (Hout : 0 < sizeof_CTxOut <= 5000000)
  (Hvec : 0 < sizeof_vector <= 5000000).

(** An input without its witness, as the stream carries it. *)
Definition strip_input (i : CTxIn.t) : CTxIn.t := CTxIn.set_witness [] i.
Definition strip (t : CMutableTransaction) : CMutableTransaction :=
  mk_tx (nVersion t) (map strip_input (vin t)) (vout t) (nLockTime t).

(** The values a transaction can hold, with containers no larger than a
    compact size may say. *)
Record wf_tx (t : CMutableTransaction) : Prop := {
  wf_version : in_s 32 (nVersion t);
  wf_locktime : in_u 32 (nLockTime t);
  wf_vin_size : Z.of_nat (length (vin t)) <= MAX_SIZE;
  wf_vin : Forall CTxIn.wf_txin (vin t);
  wf_witness : Forall (fun i => Z.of_nat (length (witness_of i)) <= MAX_SIZE /\ Forall blob_ok (witness_of i)) (vin t);
  wf_vout_size : Z.of_nat (length (vout t)) <= MAX_SIZE;
  wf_vout : Forall CTxOut.wf_txout (vout t);
}.

Lemma outpoint_lawful : Lawful COutPoint.codec COutPoint.wf_outpoint.
Proof. eapply lawful_weaken; [apply _|]. intros [] [? ?]. by split_and!. Qed.

Lemma txin_lawful : Lawful CTxIn.codec (fun i => CTxIn.wf_txin i /\ strip_input i = i).
Proof.
  pose proof outpoint_lawful. eapply lawful_weaken; [apply _|].
  intros [p s q w] [(? & ? & ?) E]. unfold strip_input, CTxIn.set_witness in E. simpl in *.
  injection E as <-. by split_and!.
Qed.

Lemma txout_lawful : Lawful CTxOut.codec CTxOut.wf_txout.
Proof. eapply lawful_weaken; [apply _|]. intros [] [? ?]. by split_and!. Qed.

#[local] Existing Instances txin_lawful txout_lawful.

Lemma vin_lawful : Lawful c_vin
  (fun v => Z.of_nat (length v) <= MAX_SIZE /\ Forall (fun i => CTxIn.wf_txin i /\ strip_input i = i) v).
Proof. apply c_vector_lawful; [apply _|done]. Qed.
Lemma vout_lawful : Lawful c_vout (fun v => Z.of_nat (length v) <= MAX_SIZE /\ Forall CTxOut.wf_txout v).
Proof. apply c_vector_lawful; [apply _|done]. Qed.
Lemma stack_lawful : Lawful c_stack (fun v => Z.of_nat (length v) <= MAX_SIZE /\ Forall blob_ok v).
Proof. apply c_vector_lawful; [apply _|done]. Qed.

(** The stream does not see the witnesses of the inputs. *)
Lemma vin_strip v : Serialize c_vin (map strip_input v) = Serialize c_vin v /\
  SerSize c_vin (map strip_input v) = SerSize c_vin v.
Proof.
  unfold c_vin. cbn [Serialize SerSize c_vector]. rewrite length_map, map_map. split; [done|].
  f_equal. induction v as [|i v IH]; [done|]. cbn [map foldr]. by rewrite IH.
Qed.

Lemma vin_strip_ok t : wf_tx t ->
  Z.of_nat (length (map strip_input (vin t))) <= MAX_SIZE /\
  Forall (fun i => CTxIn.wf_txin i /\ strip_input i = i) (map strip_input (vin t)).
Proof.
  intros []. rewrite length_map. split; [done|]. apply Forall_map. by eapply Forall_impl; [exact wf_vin0|].
Qed.

Lemma vin_size t : wf_tx t -> SerSize c_vin (vin t) = Z.of_nat (length (Serialize c_vin (vin t))).
Proof.
  intros H. destruct (vin_strip (vin t)) as [<- <-]. pose proof vin_lawful. by apply law_size, vin_strip_ok.
Qed.

Lemma no_witness t : HasWitness t = false -> Forall (fun i => witness_of i = [] /\ strip_input i = i) (vin t).
Proof.
  unfold HasWitness, witness_of, strip_input, CTxIn.set_witness, CScriptWitness.IsNull.
  induction (vin t) as [|[p s q [w]] v IH]; [by constructor|].
  cbn [existsb CTxIn.scriptWitness CScriptWitness.stack]. intros [Hw Hv]%orb_false_iff.
  constructor; [|by apply IH]. destruct w; [done|by simpl in Hw].
Qed.

Lemma no_witness_strip t : HasWitness t = false -> strip t = t.
Proof.
  intros H%no_witness. destruct t as [n v o l]. unfold strip. simpl in *. f_equal.
  induction H as [|i v [_ Hi] Hv IH]; [done|]. simpl. by rewrite Hi, IH.
Qed.

(** Without witnesses a transaction and its stripped copy have the same bytes. *)
Lemma serialize_strip version t : allow_witness version = false ->
  SerializeTransaction version (strip t) = SerializeTransaction version t.
Proof.
  intros Ha. unfold SerializeTransaction. rewrite Ha. unfold strip. cbn [nVersion vin vout nLockTime].
  by destruct (vin_strip (vin t)) as [-> _].
Qed.

Lemma strip_no_witness t : HasWitness (strip t) = false.
Proof. unfold HasWitness, strip. cbn [vin]. induction (vin t) as [|i v IH]; [done|exact IH]. Qed.

Lemma strip_wf t : wf_tx t -> wf_tx (strip t).
Proof.
  intros [H1 H2 H3 H4 _ H6 H7]. split; cbn [strip nVersion vin vout nLockTime]; try done.
  - by rewrite length_map.
  - by apply Forall_map.
  - apply Forall_map, Forall_true. intros i. by split.
Qed.

Section reading.
Context {S : Type} `{!Stream S, !StreamLaws S}.

Lemma reads_witnesses v :
  Forall (fun i => Z.of_nat (length (witness_of i)) <= MAX_SIZE /\ Forall blob_ok (witness_of i)) v ->
  reads (read_witnesses S (map strip_input v)) (mjoin (map (fun i => Serialize c_stack (witness_of i)) v)) v.
Proof.
  pose proof stack_lawful. induction 1 as [|i v Hi Hv IH]; cbn [map read_witnesses]; [apply reads_ret|].
  change (mjoin (_ :: ?l)) with (Serialize c_stack (witness_of i) ++ mjoin l).
  eapply reads_bind; [by apply law_reads|]. eapply reads_bind_ret; [apply IH|].
  assert (CTxIn.set_witness (witness_of i) (strip_input i) = i) as -> by by destruct i as [? ? ? []].
  apply reads_ret.
Qed.

Lemma reads_vin t : wf_tx t -> reads (Unserialize c_vin S) (Serialize c_vin (vin t)) (map strip_input (vin t)).
Proof.
  intros H. destruct (vin_strip (vin t)) as [<- _]. pose proof vin_lawful. by apply law_reads, vin_strip_ok.
Qed.

Lemma reads_no_input : reads (Unserialize c_vin S) (Serialize c_vin []) [].
Proof. pose proof vin_lawful. apply law_reads. split; [done|constructor]. Qed.

Lemma reads_vout t : wf_tx t -> reads (Unserialize c_vout S) (Serialize c_vout (vout t)) (vout t).
Proof. intros []. pose proof vout_lawful. by apply law_reads. Qed.

Lemma transaction_reads version t : wf_tx t -> (allow_witness version = true -> vin t = [] -> vout t = []) ->
  reads (UnserializeTransaction version S) (SerializeTransaction version t)
    (if allow_witness version then t else strip t).
Proof.
  intros H Hamb. unfold UnserializeTransaction, SerializeTransaction.
  assert (reads (Unserialize c_u32 S) (Serialize c_u32 (nLockTime t)) (nLockTime t)) as Hlock
    by apply law_reads, (wf_locktime t H).
  eapply reads_bind; [apply law_reads, (wf_version t H)|].
  destruct (allow_witness version) eqn:Ea; [destruct (HasWitness t) eqn:Ew|].
  - change (negb (Z.lor 0 1 =? 0)) with true. change (negb (Z.land (Z.lor 0 1) 1 =? 0)) with true. cbn iota.
    rewrite <- app_assoc. eapply reads_bind; [apply reads_no_input|]. cbn [length Nat.eqb andb].
    rewrite app_assoc, app_assoc. eapply reads_bind.
    { rewrite <- app_assoc. eapply reads_bind; [apply law_reads; done|]. change (negb (Z.lor 0 1 =? 0)) with true. cbn iota.
      eapply reads_bind; [by apply reads_vin|]. eapply reads_bind_ret; [by apply reads_vout|]. apply reads_ret. }
    cbn iota beta. eapply reads_bind.
    { change (negb (Z.land (Z.lor 0 1) 1 =? 0) && true) with true. cbn iota.
      eapply reads_bind_ret; [apply reads_witnesses, H|]. apply reads_ret. }
    cbn iota beta. change (negb (Z.lxor (Z.lor 0 1) 1 =? 0)) with false. cbn iota.
    eapply reads_bind_ret; [exact Hlock|]. destruct t. apply reads_ret.
  - change (negb (0 =? 0)) with false. change (negb (Z.land 0 1 =? 0)) with false. cbn iota. rewrite !app_nil_l.
    pose proof (no_witness_strip t Ew) as Es. eapply reads_bind; [by apply reads_vin|].
    assert (map strip_input (vin t) = vin t) as -> by (rewrite <- Es at 2; done).
    apply (reads_bind _ _ _ _ (0, vin t, vout t)).
    { destruct (vin t) as [|i v] eqn:Ev; cbn [length Nat.eqb andb].
      - rewrite (Hamb eq_refl eq_refl). change (Serialize c_vout []) with (Serialize c_u8 0).
        eapply reads_bind_ret; [by apply law_reads|]. apply reads_ret.
      - eapply reads_bind_ret; [by apply reads_vout|]. apply reads_ret. }
    apply (reads_bind _ _ [] _ (0, vin t)); [apply reads_ret|]. cbn iota beta. change (negb (0 =? 0)) with false. cbn iota.
    eapply reads_bind_ret; [exact Hlock|]. destruct t. apply reads_ret.
  - change (negb (0 =? 0)) with false. change (negb (Z.land 0 1 =? 0)) with false. cbn iota. rewrite !app_nil_l.
    eapply reads_bind; [by apply reads_vin|]. rewrite andb_false_r.
    apply (reads_bind _ _ _ _ (0, map strip_input (vin t), vout t)).
    { eapply reads_bind_ret; [by apply reads_vout|apply reads_ret]. }
    apply (reads_bind _ _ [] _ (0, map strip_input (vin t))); [apply reads_ret|].
    cbn iota beta. change (negb (0 =? 0)) with false. cbn iota.
    eapply reads_bind_ret; [exact Hlock|]. apply reads_ret.
Qed.
End reading.

(** The bytes the witnesses add: the dummy input list, the flag and the stacks. *)
Definition witness_bytes (t : CMutableTransaction) : Z :=
  if HasWitness t then 2 + Z.of_nat (length (mjoin (map (fun i => Serialize c_stack (witness_of i)) (vin t)))) else 0.

Lemma witness_size v :
  Forall (fun i => Z.of_nat (length (witness_of i)) <= MAX_SIZE /\ Forall blob_ok (witness_of i)) v ->
  foldr (fun i n => SerSize c_stack (witness_of i) + n) 0 v =
  Z.of_nat (length (mjoin (map (fun i => Serialize c_stack (witness_of i)) v))).
Proof.
  pose proof stack_lawful. induction 1 as [|i v Hi Hv IH]; [done|]. cbn [foldr map].
  change (mjoin (_ :: ?l)) with (Serialize c_stack (witness_of i) ++ mjoin l).
  rewrite length_app, IH, law_size by done. lia.
Qed.

Lemma transaction_size version t : wf_tx t ->
  SizeTransaction version t = Z.of_nat (length (SerializeTransaction version t)) /\
  SizeTransaction version t = SizeTransaction SERIALIZE_TRANSACTION_NO_WITNESS t +
    (if allow_witness version then witness_bytes t else 0).
Proof.
  intros H. unfold SizeTransaction, SerializeTransaction, witness_bytes.
  assert (SerSize c_vout (vout t) = Z.of_nat (length (Serialize c_vout (vout t)))) as Eo.
  { pose proof vout_lawful. apply law_size. split; apply H. }
  assert (SerSize c_i32 (nVersion t) = Z.of_nat (length (Serialize c_i32 (nVersion t)))) as Ev by apply law_size, H.
  assert (SerSize c_u32 (nLockTime t) = Z.of_nat (length (Serialize c_u32 (nLockTime t)))) as El by apply law_size, H.
  change (allow_witness SERIALIZE_TRANSACTION_NO_WITNESS) with false. cbn iota.
  destruct (allow_witness version); [destruct (HasWitness t)|];
    change (negb (Z.lor 0 1 =? 0)) with true; change (negb (Z.land (Z.lor 0 1) 1 =? 0)) with true;
    change (negb (0 =? 0)) with false; change (negb (Z.land 0 1 =? 0)) with false; cbn iota;
    rewrite ?witness_size by apply H; rewrite !length_app, Eo, Ev, El, (vin_size t H);
    change (SerSize c_vin []) with 1; change (SerSize c_u8 (Z.lor 0 1)) with 1;
    change (length (Serialize c_vin [])) with 1%nat; change (length (Serialize c_u8 (Z.lor 0 1))) with 1%nat;
    cbn [length]; lia.
Qed.

(** An extended serialisation with a flag byte the code does not know. *)
Definition flagged (f : Z) (t : CMutableTransaction) : bytes :=
  Serialize c_i32 (nVersion t) ++ Serialize c_vin [] ++ Serialize c_u8 f ++ Serialize c_vin (vin t) ++
  Serialize c_vout (vout t) ++
  (if Z.odd f then mjoin (map (fun i => Serialize c_stack (witness_of i)) (vin t)) else []).

Lemma flag_bits f : 0 <= f < 256 -> negb (Z.land f 1 =? 0) = Z.odd f /\ (Z.lxor f 1 =? 0) = (f =? 1).
Proof.
  intros Hf. assert (In f (seqZ 0 256)) as Hin' by (apply list_elem_of_In, elem_of_seqZ; lia).
  assert (forallb (fun f => Bool.eqb (negb (Z.land f 1 =? 0)) (Z.odd f) && Bool.eqb (Z.lxor f 1 =? 0) (f =? 1)) (seqZ 0 256) = true)
    as Ht by (vm_compute; reflexivity).
  rewrite forallb_forall in Ht. specialize (Ht f Hin').
  apply andb_true_iff in Ht as [E1 E2]. split; by apply Bool.eqb_prop.
Qed.

Lemma flagged_rejected version f t S `{!Stream S, !StreamLaws S} : wf_tx t -> allow_witness version = true ->
  2 <= f < 256 -> rejects (UnserializeTransaction version S) (flagged f t).
Proof.
  intros H Ha Hf. destruct (flag_bits f ltac:(lia)) as [Eodd Exor].
  unfold UnserializeTransaction, flagged. rewrite Ha.
  eapply rejects_bind_r; [apply law_reads, (wf_version t H)|].
  eapply rejects_bind_r; [apply reads_no_input|]. cbn [length Nat.eqb andb].
  rewrite (app_assoc (Serialize c_vin (vin t))), (app_assoc (Serialize c_u8 f)).
  eapply rejects_bind_r.
  { eapply reads_bind; [apply law_reads; unfold in_u; lia|].
    rewrite (proj2 (Z.eqb_neq f 0)) by lia. cbn [negb].
    eapply reads_bind; [by apply reads_vin|]. eapply reads_bind_ret; [by apply reads_vout|]. apply reads_ret. }
  cbn iota beta. rewrite Eodd, andb_true_r.
  rewrite <- (app_nil_r (if Z.odd f then _ else _)).
  apply (rejects_bind_r _ _ _ _ (if Z.odd f then (Z.lxor f 1, vin t) else (f, map strip_input (vin t)))).
  - destruct (Z.odd f); [eapply reads_bind_ret; [apply reads_witnesses, H|]; apply reads_ret|apply reads_ret].
  - cbn iota beta. destruct (Z.odd f); cbn iota beta.
    + rewrite Exor, (proj2 (Z.eqb_neq f 1)) by lia. apply rejects_throw.
    + rewrite (proj2 (Z.eqb_neq f 0)) by lia. apply rejects_throw.
Qed.
End transaction.

(** ** Values *)

Definition total_value (v : list CTxOut.t) : Z := foldr (fun o n => CTxOut.nValue o + n) 0 v.

Lemma total_value_nonneg v : forallb (fun o => MoneyRange (CTxOut.nValue o)) v = true -> 0 <= total_value v.
Proof.
  induction v as [|o v IH]; [done|]. cbn [forallb total_value foldr]. intros [E1 E2]%andb_true_iff.
  unfold MoneyRange in E1. bool_hyps. specialize (IH E2). unfold total_value in *. lia.
Qed.

Lemma value_loop_spec v acc : Forall (fun o => in_s 64 (CTxOut.nValue o)) v -> 0 <= acc <= MAX_MONEY ->
  value_loop v acc =
  if forallb (fun o => MoneyRange (CTxOut.nValue o)) v && (acc + total_value v <=? MAX_MONEY)
  then Ok (acc + total_value v) else Throw "GetValueOut: value out of range".
Proof.
  intros Hv. revert acc. induction Hv as [|o v Ho Hv IH]; intros acc Hacc; cbn [value_loop forallb total_value foldr].
  - rewrite (proj2 (Z.leb_le _ _)), Z.add_0_r by lia. done.
  - fold (total_value v). destruct (MoneyRange (CTxOut.nValue o)) eqn:Em; cbn [negb orb andb]; [|done].
    unfold MoneyRange in Em at 1. bool_hyps. unfold MAX_MONEY, COIN in *.
    rewrite (swrap_small 64) by (unfold in_s; lia). unfold MoneyRange at 1. unfold MAX_MONEY, COIN.
    rewrite (proj2 (Z.leb_le 0 _)) by lia. cbn [andb].
    destruct (Z.leb_spec (acc + CTxOut.nValue o) (84000000 * 100000000)) as [Hle|Hgt]; cbn [negb].
    + rewrite IH by lia. by rewrite Z.add_assoc.
    + destruct (forallb (fun o => MoneyRange (CTxOut.nValue o)) v) eqn:Ef; cbn [andb]; [|done].
      pose proof (total_value_nonneg v Ef).
      by rewrite (proj2 (Z.leb_gt _ _)) by lia.
Qed.

(** ** The order of outpoints *)

Lemma memcmp_refl a : memcmp a a = 0.
Proof. induction a as [|x a IH]; [done|]. cbn [memcmp]. by rewrite Z.ltb_irrefl. Qed.

Lemma memcmp_cases a b : length a = length b ->
  (memcmp a b = 0 /\ a = b) \/ (memcmp a b = -1 /\ memcmp b a = 1) \/ (memcmp a b = 1 /\ memcmp b a = -1).
Proof.
  revert b; induction a as [|x a IH]; intros [|y b] Hl; simpl in Hl; try lia; cbn [memcmp]; [by left|].
  destruct (Z.ltb_spec x y), (Z.ltb_spec y x); try lia; auto.
  assert (x = y) as -> by lia. destruct (IH b) as [[E ->]|[E|E]]; [lia|auto..].
Qed.

Lemma memcmp_trans a b c : length a = length b -> length b = length c ->
  memcmp a b < 0 -> memcmp b c < 0 -> memcmp a c < 0.
Proof.
  revert b c; induction a as [|x a IH]; intros [|y b] [|z c] H1 H2; simpl in H1, H2; try lia; cbn [memcmp]; try lia.
  destruct (Z.ltb_spec x y), (Z.ltb_spec y x), (Z.ltb_spec y z), (Z.ltb_spec z y), (Z.ltb_spec x z), (Z.ltb_spec z x);
    try lia. apply IH; lia.
Qed.

Lemma pn_bytes_inj a b : wf256 a -> wf256 b -> pn_bytes a = pn_bytes b -> a = b.
Proof.
  intros Ha Hb E. rewrite <- (limbs_of_pn_bytes WIDTH256 a Ha), <- (limbs_of_pn_bytes WIDTH256 b Hb). by rewrite E.
Qed.

Lemma pn_bytes_len a : wf256 a -> length (pn_bytes a) = 32%nat.
Proof. intros [Ha _]. by rewrite length_pn_bytes, Ha. Qed.

#[export] Instance outpoint_eq_dec : EqDecision COutPoint.t.
Proof. solve_decision. Defined.

Lemma outpoint_irrefl (a : COutPoint.t) : COutPoint.op_lt a a = false.
Proof. unfold COutPoint.op_lt, Compare. rewrite memcmp_refl. apply Z.ltb_irrefl. Qed.

(** Of two outpoints either one is below the other or they are equal. *)
Lemma outpoint_cases (a b : COutPoint.t) : COutPoint.wf_outpoint a -> COutPoint.wf_outpoint b ->
  a = b \/ (COutPoint.op_lt a b = true /\ COutPoint.op_lt b a = false) \/ (COutPoint.op_lt b a = true /\ COutPoint.op_lt a b = false).
Proof.
  destruct a as [ha na], b as [hb nb]. intros [Ha _] [Hb _]. unfold COutPoint.op_lt, Compare. cbn [COutPoint.hash COutPoint.n] in *.
  pose proof (pn_bytes_len ha Ha) as La. pose proof (pn_bytes_len hb Hb) as Lb.
  destruct (memcmp_cases (pn_bytes ha) (pn_bytes hb)) as [[E E']|[[E1 E2]|[E1 E2]]]; [congruence| | |].
  - apply pn_bytes_inj in E'; [subst|done..]. rewrite !memcmp_refl. cbn [Z.ltb Z.compare orb Z.eqb andb].
    destruct (Z.lt_total na nb) as [L|[->|L]].
    + right; left. split; [by apply Z.ltb_lt|apply Z.ltb_ge; lia].
    + by left.
    + right; right. split; [by apply Z.ltb_lt|apply Z.ltb_ge; lia].
  - right; left. by rewrite E1, E2.
  - right; right. by rewrite E1, E2.
Qed.

(** ** Properties *)

(** A transaction reads back from any lawful stream as it was written,
    with its witnesses where the version carries them and without them where
    it does not, and its size is counted exactly.  The one exception is the
    extended format's own ambiguity: a transaction with outputs but no input. *)
Theorem transaction_roundtrip (s1 s2 s3 version : Z) (t : CMutableTransaction) S `{!Stream S, !StreamLaws S} :
  0 < s1 <= 5000000 -> 0 < s2 <= 5000000 -> 0 < s3 <= 5000000 -> wf_tx t ->
  (allow_witness version = true -> vin t = [] -> vout t = []) ->
  reads (Unserialize (c_transaction s1 s2 s3 version) S) (Serialize (c_transaction s1 s2 s3 version) t)
    (if allow_witness version then t else strip t) /\
  GetSerializeSize (c_transaction s1 s2 s3 version) t =
    Z.of_nat (length (Serialize (c_transaction s1 s2 s3 version) t)).
Proof.
  intros H1 H2 H3 Ht Ha. split; [by apply transaction_reads|].
  by apply (transaction_size s1 s2 s3 H1 H2 H3).
Qed.

Definition demo_tx : CMutableTransaction :=
  mk_tx 1 [CTxIn.mk (COutPoint.mk (replicate 8 5) 3) [1; 7] SEQUENCE_FINAL (CScriptWitness.mk [[1; 2]; []])]
    [CTxOut.mk 5000 [118; 169]; CTxOut.mk 70 []] 9.

Lemma demo_tx_ok : wf_tx demo_tx.
Proof.
  split; unfold CTxIn.wf_txin, COutPoint.wf_outpoint, CTxOut.wf_txout, blob_ok, in_s, in_u, wf.
  all: repeat constructor; vm_compute; congruence.
Qed.

Lemma transaction_roundtrip_witness :
  reads (S := CDataStream.t) (Unserialize (c_transaction 100 40 24 0) CDataStream.t)
    (Serialize (c_transaction 100 40 24 0) demo_tx) demo_tx.
Proof.
  destruct (transaction_roundtrip 100 40 24 0 demo_tx CDataStream.t) as [H _];
    [lia|lia|lia|apply demo_tx_ok|done|exact H].
Defined.

(** The optional-data flag: an extended transaction whose flag byte is
    neither 0 nor 1 is rejected with an exception by every reader that
    understands witnesses, whatever else the flag says. *)
Theorem transaction_unknown_flags (s1 s2 s3 version f : Z) (t : CMutableTransaction) S `{!Stream S, !StreamLaws S} :
  0 < s1 <= 5000000 -> 0 < s2 <= 5000000 -> 0 < s3 <= 5000000 -> wf_tx t ->
  allow_witness version = true -> 2 <= f < 256 ->
  rejects (Unserialize (c_transaction s1 s2 s3 version) S) (flagged s1 s2 s3 f t).
Proof. intros. by apply flagged_rejected. Qed.

Lemma transaction_unknown_flags_witness :
  rejects (S := CDataStream.t) (Unserialize (c_transaction 100 40 24 0) CDataStream.t) (flagged 100 40 24 3 demo_tx).
Proof.
  apply (transaction_unknown_flags 100 40 24 0 3 demo_tx CDataStream.t); [lia|lia|lia|apply demo_tx_ok|done|lia].
Defined.

(** Weight and identity: the weight is four times the size without
    witnesses plus the bytes the witnesses add; the hash of a transaction does
    not depend on its witnesses while its witness hash equals it when there
    are none; and a transaction read from a stream carries its own hash. *)
Theorem transaction_weight_and_id (s1 s2 s3 : Z) (Hash : bytes -> uint256) (t : CMutableTransaction)
    S `{!Stream S, !StreamLaws S} :
  0 < s1 <= 5000000 -> 0 < s2 <= 5000000 -> 0 < s3 <= 5000000 -> wf_tx t -> (vin t = [] -> vout t = []) ->
  let base := Z.of_nat (length (Serialize (c_transaction s1 s2 s3 SERIALIZE_TRANSACTION_NO_WITNESS) t)) in
  (4 * base + witness_bytes s3 t < 2 ^ 63 ->
   GetTransactionWeight s1 s2 s3 t = 4 * base + witness_bytes s3 t) /\
  ComputeHash s1 s2 s3 Hash t = ComputeHash s1 s2 s3 Hash (strip t) /\
  (HasWitness t = false ->
   GetWitnessHash s1 s2 s3 Hash (make_transaction s1 s2 s3 Hash t) =
   GetHash (make_transaction s1 s2 s3 Hash t)) /\
  reads (Unserialize (c_CTransaction s1 s2 s3 Hash 0) S) (Serialize (c_transaction s1 s2 s3 0) t)
    (make_transaction s1 s2 s3 Hash t) /\
  hash (make_transaction s1 s2 s3 Hash t) = mutable_GetHash s1 s2 s3 Hash t.
Proof.
  intros H1 H2 H3 Ht Hamb base.
  pose proof (transaction_size s1 s2 s3 H1 H2 H3) as Hsize. split_and!.
  - intros Hb. unfold GetTransactionWeight.
    change (GetSerializeSize (c_transaction s1 s2 s3 ?v) t) with (0 + SizeTransaction s1 s2 s3 v t).
    destruct (Hsize (Z.lor PROTOCOL_VERSION SERIALIZE_TRANSACTION_NO_WITNESS) t Ht) as [_ ->].
    destruct (Hsize PROTOCOL_VERSION t Ht) as [_ ->].
    change (allow_witness (Z.lor PROTOCOL_VERSION SERIALIZE_TRANSACTION_NO_WITNESS)) with false.
    change (allow_witness PROTOCOL_VERSION) with true. cbn iota.
    destruct (Hsize SERIALIZE_TRANSACTION_NO_WITNESS t Ht) as [-> _]. unfold WITNESS_SCALE_FACTOR.
    assert (0 <= witness_bytes s3 t) by (unfold witness_bytes; case_bool; lia).
    change (SerializeTransaction s1 s2 s3 SERIALIZE_TRANSACTION_NO_WITNESS t) with
      (Serialize (c_transaction s1 s2 s3 SERIALIZE_TRANSACTION_NO_WITNESS) t). fold base.
    rewrite wrap_small by (unfold in_u; lia). rewrite swrap_small by (unfold in_s; lia). lia.
  - unfold ComputeHash. f_equal. symmetry. by apply serialize_strip.
  - intros Hw. unfold GetWitnessHash, GetHash, make_transaction, ComputeHash. cbn [tx hash]. f_equal.
    cbn [Serialize c_transaction]. unfold SerializeTransaction. rewrite Hw. by repeat case_bool.
  - unfold c_CTransaction. cbn [Unserialize c_map]. eapply reads_bind_ret; [|apply reads_ret].
    by apply (transaction_reads s1 s2 s3 H1 H2 H3 0 t).
  - done.
Qed.

Lemma transaction_weight_and_id_witness :
  GetTransactionWeight 100 40 24 demo_tx = 4 * 73 + 7 /\
  ComputeHash 100 40 24 (fun b => [le_val (take 4 b)]) demo_tx =
  ComputeHash 100 40 24 (fun b => [le_val (take 4 b)]) (strip demo_tx).
Proof.
  destruct (transaction_weight_and_id 100 40 24 (fun b => [le_val (take 4 b)]) demo_tx CDataStream.t)
    as (H & H' & _); [lia|lia|lia|apply demo_tx_ok|done|].
  split; [|exact H']. exact (H eq_refl).
Defined.

(** C32: [GetValueOut] is the sum of the outputs when each of them and the sum
    are in the money range, and an exception in every other case, those where
    the running sum would overflow included: it never returns a wrong amount. *)
Theorem GetValueOut_correct (t : CMutableTransaction) :
  Forall (fun o => in_s 64 (CTxOut.nValue o)) (vout t) ->
  GetValueOut t =
    (if forallb (fun o => MoneyRange (CTxOut.nValue o)) (vout t) && MoneyRange (total_value (vout t))
     then Ok (total_value (vout t)) else Throw "GetValueOut: value out of range") /\
  (forall n, GetValueOut t = Ok n -> MoneyRange n = true /\ n = total_value (vout t)).
Proof.
  intros H. assert (GetValueOut t =
    (if forallb (fun o => MoneyRange (CTxOut.nValue o)) (vout t) && MoneyRange (total_value (vout t))
     then Ok (total_value (vout t)) else Throw "GetValueOut: value out of range")) as E.
  { unfold GetValueOut. rewrite value_loop_spec by (done || (unfold MAX_MONEY, COIN; lia)). rewrite Z.add_0_l.
    destruct (forallb _ (vout t)) eqn:Ef; cbn [andb]; [|done].
    unfold MoneyRange. by rewrite (proj2 (Z.leb_le 0 _)) by by apply total_value_nonneg. }
  split; [exact E|]. intros n. rewrite E. case_bool; [|done]. intros [= <-]. bool_hyps. done.
Qed.

Lemma GetValueOut_correct_witness :
  GetValueOut demo_tx = Ok 5070 /\
  GetValueOut (mk_tx 1 [] [CTxOut.mk (2 ^ 63 - 1) []] 0) = Throw "GetValueOut: value out of range".
Proof.
  destruct (GetValueOut_correct demo_tx) as [H _]; [repeat constructor; vm_compute; congruence|].
  destruct (GetValueOut_correct (mk_tx 1 [] [CTxOut.mk (2 ^ 63 - 1) []] 0)) as [H' _];
    [repeat constructor; vm_compute; congruence|].
  split; [exact H|exact H'].
Defined.

(** Outpoints can key an ordered map: [operator<] is irreflexive and
    transitive, and of two outpoints either one is below the other or they are
    [==], which is equality of hash and index. *)
Theorem outpoint_order (a b c : COutPoint.t) :
  COutPoint.wf_outpoint a -> COutPoint.wf_outpoint b -> COutPoint.wf_outpoint c ->
  COutPoint.op_lt a a = false /\
  (COutPoint.op_lt a b = true -> COutPoint.op_lt b c = true -> COutPoint.op_lt a c = true) /\
  (COutPoint.op_eq a b = true <-> a = b) /\
  (a = b \/ (COutPoint.op_lt a b = true /\ COutPoint.op_lt b a = false) \/
   (COutPoint.op_lt b a = true /\ COutPoint.op_lt a b = false)).
Proof.
  intros Wa Wb Wc. pose proof (outpoint_cases a b Wa Wb) as Hcases. revert Wa Wb Wc.
  destruct a as [ha na], b as [hb nb], c as [hc nc]. intros [Ha _] [Hb _] [Hc _]. split_and!; [| | |exact Hcases]; clear Hcases;
    unfold COutPoint.op_lt, COutPoint.op_eq, BaseUint.op_eq, Compare; cbn [COutPoint.hash COutPoint.n] in *.
  - rewrite memcmp_refl. apply Z.ltb_irrefl.
  - pose proof (pn_bytes_len ha Ha) as La. pose proof (pn_bytes_len hb Hb) as Lb. pose proof (pn_bytes_len hc Hc) as Lc.
    assert (forall x y, wf256 x -> wf256 y -> memcmp (pn_bytes x) (pn_bytes y) = 0 -> x = y) as Hinj.
    { intros x y Hx Hy E. apply pn_bytes_inj; [done..|].
      destruct (memcmp_cases (pn_bytes x) (pn_bytes y)) as [[_ ?]|[[? _]|[? _]]]; [by rewrite !pn_bytes_len|done|lia|lia]. }
    rewrite !orb_true_iff, !andb_true_iff, !Z.ltb_lt, !Z.eqb_eq.
    intros [H1|[E1 H1]] [H2|[E2 H2]].
    + left. eapply memcmp_trans; [| |exact H1|exact H2]; congruence.
    + apply Hinj in E2 as ->; [|done..]. by left.
    + apply Hinj in E1 as ->; [|done..]. by left.
    + apply Hinj in E1 as ->; [|done..]. right. split; [done|lia].
  - rewrite andb_true_iff, bool_decide_eq_true, Z.eqb_eq. split; [by intros [-> ->]|by intros [= -> ->]].
Qed.

Lemma outpoint_order_witness :
  COutPoint.op_lt (COutPoint.mk (replicate 8 5) 3) (COutPoint.mk (replicate 8 5) 3) = false /\
  (COutPoint.op_lt (COutPoint.mk (replicate 8 5) 3) (COutPoint.mk (replicate 8 5) 4) = true ->
   COutPoint.op_lt (COutPoint.mk (replicate 8 5) 4) (COutPoint.mk (replicate 8 6) 0) = true ->
   COutPoint.op_lt (COutPoint.mk (replicate 8 5) 3) (COutPoint.mk (replicate 8 6) 0) = true).
Proof.
  destruct (outpoint_order (COutPoint.mk (replicate 8 5) 3) (COutPoint.mk (replicate 8 5) 4)
    (COutPoint.mk (replicate 8 6) 0)) as (H1 & H2 & _);
    [split; [split; [reflexivity|]|]; repeat constructor; vm_compute; congruence..|].
  split; [exact H1|exact H2].
Defined.
