(* ===== verification/Merkle.v ===== *)
(** Merkle trees: src/sige/src/consensus/merkle.cpp.

    [MerkleComputation] hashes a list of leaves in constant space: [inner] holds
    the hash of one complete subtree per bit of the number of leaves seen, and a
    final sweep pairs what is left with itself.  The double SHA-256 of the code
    is a parameter; an entry of [inner] is [None] until it is assigned. *)

From S2P Require Import Prelude Bytes BaseUint UintBytes Uint256.

Section merkle.
Context (Hash : bytes -> uint256).

(** [CHash256().Write(a, 32).Write(b, 32).Finalize(h)] *)
Definition hash_pair (a b : uint256) : uint256 := Hash (pn_bytes a ++ pn_bytes b).

(** [!(count & (((uint32_t)1) << level))]; a shift by 32 or more is undefined. *)
Definition bit_clear (count level : Z) : res bool :=
  if (0 <=? level) && (level <? 32) then Ok (Z.land count (u32 (Z.shiftl 1 level)) =? 0) else Undef.

Record state := mk {
  inner : list (option uint256);  (* uint256 inner[32] *)
  matchlevel : Z;
  pbranch : option (list uint256);  (* [None] for the null pointer *)
  mutated : bool;
}.

Definition inner_at (st : state) (level : Z) : res uint256 :=
  if level <? 0 then Undef
  else match inner st !! Z.to_nat level with Some (Some h) => Ok h | _ => Undef end.

Definition set_inner (level : Z) (h : uint256) (st : state) : state :=
  mk (<[Z.to_nat level := Some h]> (inner st)) (matchlevel st) (pbranch st) (mutated st).
Definition set_matchlevel (level : Z) (st : state) : state := mk (inner st) level (pbranch st) (mutated st).
Definition set_pbranch (b : option (list uint256)) (st : state) : state := mk (inner st) (matchlevel st) b (mutated st).
Definition set_mutated (m : bool) (st : state) : state := mk (inner st) (matchlevel st) (pbranch st) m.

(** The four lines that extend the branch when a left sibling [x] meets [h]. *)
Definition extend_branch (x h : uint256) (level : Z) (matchh : bool) (st : state) : state * bool :=
  match pbranch st with
  | None => (st, matchh)
  | Some b =>
      if matchh then (set_pbranch (Some (b ++ [x])) st, matchh)
      else if matchlevel st =? level then (set_pbranch (Some (b ++ [h])) st, true)
      else (st, matchh)
  end.

(** [for (level = 0; !(count & (1 << level)); level++) { .. }] *)
Fixpoint combine_loop (fuel : nat) (count level : Z) (h : uint256) (matchh : bool) (st : state) :
    res (Z * uint256 * bool * state) :=
  let? clear := bit_clear count level in
  if clear then
    match fuel with
    | O => OutOfFuel
    | S fuel =>
        let? x := inner_at st level in
        let '(st, matchh) := extend_branch x h level matchh st in
        let st := set_mutated (mutated st || op_eq x h) st in
        combine_loop fuel count (level + 1) (hash_pair x h) matchh st
    end
  else Ok (level, h, matchh, st).

(** [while (count < leaves.size()) { .. }] *)
Fixpoint leaves_loop (leaves : list uint256) (branchpos count : Z) (st : state) : res (Z * state) :=
  match leaves with
  | [] => Ok (count, st)
  | h :: leaves =>
      let matchh := count =? branchpos in
      let count := u32 (count + 1) in
      let? (level, h, matchh, st) := combine_loop 32 count 0 h matchh st in
      let st := set_inner level h st in
      let st := if matchh then set_matchlevel level st else st in
      leaves_loop leaves branchpos count st
  end.

(** [while (!(count & (1 << level))) level++] *)
Fixpoint skip_level (fuel : nat) (count level : Z) : res Z :=
  let? clear := bit_clear count level in
  if clear then match fuel with O => OutOfFuel | S fuel => skip_level fuel count (level + 1) end
  else Ok level.

(** The inner loop of the sweep, which does not look for mutations. *)
Fixpoint propagate_loop (fuel : nat) (count level : Z) (h : uint256) (matchh : bool) (st : state) :
    res (Z * uint256 * bool * state) :=
  let? clear := bit_clear count level in
  if clear then
    match fuel with
    | O => OutOfFuel
    | S fuel =>
        let? x := inner_at st level in
        let '(st, matchh) := extend_branch x h level matchh st in
        propagate_loop fuel count (level + 1) (hash_pair x h) matchh st
    end
  else Ok (level, h, matchh, st).

(** [if (pbranch && matchh) pbranch->push_back(h)] *)
Definition push_matched (h : uint256) (matchh : bool) (st : state) : state :=
  match pbranch st with
  | Some b => if matchh then set_pbranch (Some (b ++ [h])) st else st
  | None => st
  end.

(** [while (count != (1 << level)) { .. }] *)
Fixpoint sweep_loop (fuel : nat) (count level : Z) (h : uint256) (matchh : bool) (st : state) : res (uint256 * state) :=
  if (level <? 0) || (32 <=? level) then Undef
  else if negb (count =? u32 (Z.shiftl 1 level)) then
    match fuel with
    | O => OutOfFuel
    | S fuel =>
        let st := push_matched h matchh st in
        let h := hash_pair h h in
        let count := u32 (count + u32 (Z.shiftl 1 level)) in
        let level := level + 1 in
        let? (level, h, matchh, st) := propagate_loop 32 count level h matchh st in
        sweep_loop fuel count level h matchh st
    end
  else Ok (h, st).

Definition init (branch : bool) : state :=
  mk (replicate 32 None) (-1) (if branch then Some [] else None) false.

(** The root, the mutation flag and the branch. *)
Definition MerkleComputation (leaves : list uint256) (branchpos : Z) (branch : bool) :
    res (uint256 * bool * list uint256) :=
  if (length leaves =? 0)%nat then Ok (base_uint_zero WIDTH256, false, [])
  else
    let? (count, st) := leaves_loop leaves branchpos 0 (init branch) in
    let? level := skip_level 32 count 0 in
    let? h := inner_at st level in
    let matchh := matchlevel st =? level in
    let? (h, st) := sweep_loop 32 count level h matchh st in
    Ok (h, mutated st, default [] (pbranch st)).

Definition ComputeMerkleRoot (leaves : list uint256) : res (uint256 * bool) :=
  let? (root, mutated, _) := MerkleComputation leaves (u32 (-1)) false in Ok (root, mutated).

Definition ComputeMerkleBranch (leaves : list uint256) (position : Z) : res (list uint256) :=
  let? (_, _, branch) := MerkleComputation leaves position true in Ok branch.

Fixpoint ComputeMerkleRootFromBranch (hash : uint256) (vMerkleBranch : list uint256) (nIndex : Z) : uint256 :=
  match vMerkleBranch with
  | [] => hash
  | it :: vMerkleBranch =>
      let hash := if negb (Z.land nIndex 1 =? 0) then Hash (pn_bytes it ++ pn_bytes hash)
                  else Hash (pn_bytes hash ++ pn_bytes it) in
      ComputeMerkleRootFromBranch hash vMerkleBranch (Z.shiftr nIndex 1)
  end.

(** ** The tree the code computes

    Each level pairs the hashes of the level below; the last one of an odd
    level is paired with itself. *)
Fixpoint level_up (l : list uint256) : list uint256 :=
  match l with
  | a :: b :: l => hash_pair a b :: level_up l
  | [a] => [hash_pair a a]
  | [] => []
  end.

Fixpoint merkle_root (fuel : nat) (l : list uint256) : option uint256 :=
  match l, fuel with
  | [h], _ => Some h
  | _, S fuel => merkle_root fuel (level_up l)
  | _, O => None
  end.

(** ** Levels of the tree *)

#[local] Abbreviation P k := (2 ^ Z.of_nat k).

Lemma P_pos k : 0 < P k.
Proof. lia. Qed.

Lemma P_S k : P (S k) = 2 * P k.
Proof. rewrite Nat2Z.inj_succ, Z.pow_succ_r by lia. lia. Qed.

Lemma level_up_ind (Q : list uint256 -> Prop) :
  Q [] -> (forall a, Q [a]) -> (forall a b l, Q l -> Q (a :: b :: l)) -> forall l, Q l.
Proof.
  intros H0 H1 H2 l. assert (forall n l, (length l <= n)%nat -> Q l) as H; [|by apply (H (length l))].
  clear l. induction n as [|n IH]; intros [|a [|b l]] Hl; simpl in Hl; try lia; auto.
  apply H2, IH. lia.
Qed.

Lemma level_up_length l : Z.of_nat (length (level_up l)) = (Z.of_nat (length l) + 1) / 2.
Proof.
  induction l as [|a|a b l IH] using level_up_ind; [done|done|]. cbn [level_up length].
  rewrite !Nat2Z.inj_succ, IH.
  replace (Z.succ (Z.succ (Z.of_nat (length l))) + 1) with (Z.of_nat (length l) + 1 + 1 * 2) by lia.
  rewrite Z.div_add by lia. lia.
Qed.

Lemma level_up_lookup l i :
  level_up l !! i = (a ← l !! (2 * i)%nat; Some (hash_pair a (default a (l !! (2 * i + 1)%nat)))).
Proof.
  revert i; induction l as [|a|a b l IH] using level_up_ind; intros i; cbn [level_up].
  - by rewrite !lookup_nil.
  - destruct i as [|i]; [done|]. rewrite !lookup_cons_ne_0, lookup_nil by lia. done.
  - destruct i as [|i]; [done|]. cbn [lookup list_lookup]. rewrite IH.
    replace (2 * S i)%nat with (S (S (2 * i))) by lia. done.
Qed.

Section leaves.
Context (L : list uint256).
#[local] Abbreviation n := (Z.of_nat (length L)).

(** Level [k] of the tree and the number of its nodes. *)
Definition row (k : nat) : list uint256 := Nat.iter k level_up L.
Definition width (k : nat) : Z := (n + P k - 1) / P k.

(** The hash of the complete subtree over leaves [i * 2^k] to [(i + 1) * 2^k - 1]. *)
Fixpoint full (k : nat) (i : Z) : uint256 :=
  match k with
  | O => L !!! Z.to_nat i
  | S k => hash_pair (full k (2 * i)) (full k (2 * i + 1))
  end.

Lemma width_S k : width (S k) = (width k + 1) / 2.
Proof.
  unfold width. rewrite P_S. pose proof (P_pos k).
  replace ((n + P k - 1) / P k + 1) with ((n + P k - 1 + 1 * P k) / P k) by (rewrite Z.div_add by lia; lia).
  rewrite Z.div_div, (Z.mul_comm (P k) 2) by lia. f_equal. lia.
Qed.

Lemma row_length k : Z.of_nat (length (row k)) = width k.
Proof.
  induction k as [|k IH].
  - change (row 0) with L. unfold width. change (P 0) with 1. rewrite Z.div_1_r. lia.
  - rewrite width_S, <- IH. apply (level_up_length (row k)).
Qed.

Lemma width_bounds k : 0 < n -> (width k - 1) * P k < n <= width k * P k.
Proof.
  intros Hn. unfold width. pose proof (P_pos k).
  pose proof (Z.div_mod (n + P k - 1) (P k) ltac:(lia)). pose proof (Z.mod_pos_bound (n + P k - 1) (P k) ltac:(lia)). nia.
Qed.

Lemma row_S k i : 0 <= i ->
  row (S k) !! Z.to_nat i =
  (a ← row k !! Z.to_nat (2 * i); Some (hash_pair a (default a (row k !! Z.to_nat (2 * i + 1))))).
Proof.
  intros Hi. change (row (S k)) with (level_up (row k)). rewrite level_up_lookup.
  replace (2 * Z.to_nat i)%nat with (Z.to_nat (2 * i)) by lia.
  by replace (Z.to_nat (2 * i) + 1)%nat with (Z.to_nat (2 * i + 1)) by lia.
Qed.

Lemma row_full k : forall i, 0 <= i -> (i + 1) * P k <= n -> row k !! Z.to_nat i = Some (full k i).
Proof.
  induction k as [|k IH]; intros i Hi Hb.
  - change (P 0) with 1 in Hb. apply list_lookup_lookup_total_lt. change (row 0) with L. lia.
  - rewrite P_S in Hb. pose proof (P_pos k). rewrite row_S by done. rewrite !IH by lia. done.
Qed.

(** The tree's root is the only node of its first level of one node. *)
Lemma merkle_root_row k h : row k = [h] -> (forall j, (j < k)%nat -> width j <> 1) ->
  forall fuel, (k <= fuel)%nat -> merkle_root fuel L = Some h.
Proof.
  intros Hk Hj fuel Hf.
  assert (forall d j, (j + d = k)%nat -> merkle_root (fuel - j) (row j) = Some h) as H.
  { induction d as [|d IH]; intros j Hd.
    - replace j with k by lia. rewrite Hk. by destruct (fuel - k)%nat.
    - specialize (IH (S j) ltac:(lia)). specialize (Hj j ltac:(lia)). rewrite <- row_length in Hj.
      destruct (fuel - j)%nat as [|f] eqn:Ef; [lia|]. replace (fuel - S j)%nat with f in IH by lia.
      change (row (S j)) with (level_up (row j)) in IH. cbn [merkle_root].
      destruct (row j) as [|a [|b l]]; [done|done|done]. }
  specialize (H k O ltac:(lia)). by rewrite Nat.sub_0_r in H.
Qed.

(** ** Arithmetic of the counter *)

Lemma bit_clear_spec c k : 0 <= c -> (k < 32)%nat -> bit_clear c (Z.of_nat k) = Ok (negb (Z.testbit c (Z.of_nat k))).
Proof.
  intros Hc Hk. unfold bit_clear. rewrite (proj2 (Z.leb_le _ _)), (proj2 (Z.ltb_lt _ _)) by lia. cbn [andb]. f_equal.
  assert (u32 (Z.shiftl 1 (Z.of_nat k)) = P k) as ->.
  { rewrite Z.shiftl_mul_pow2, Z.mul_1_l by lia. apply wrap_small. unfold in_u.
    split; [lia|]. apply Z.pow_lt_mono_r; lia. }
  apply eq_true_iff_eq. rewrite Z.eqb_eq, negb_true_iff. split; intros H.
  - assert (Z.testbit (Z.land c (P k)) (Z.of_nat k) = false) as Hb by (rewrite H; apply Z.bits_0).
    rewrite Z.land_spec, Z.pow2_bits_true, andb_true_r in Hb by lia. done.
  - apply Z.bits_inj'. intros j Hj. rewrite Z.land_spec, Z.bits_0.
    destruct (Z.eq_dec j (Z.of_nat k)) as [->|]; [by rewrite H|]. rewrite Z.pow2_bits_false by lia. apply andb_false_r.
Qed.

Lemma testbit_odd_div c k : 0 <= c -> Z.testbit c (Z.of_nat k) = Z.odd (c / P k).
Proof. intros. rewrite <- Z.shiftr_div_pow2, <- Z.bit0_odd, Z.shiftr_spec, Z.add_0_l by lia. done. Qed.

(** [c] is a multiple of [2^k]; what its predecessor looks like. *)
Lemma pred_div c k : (P k | c) -> 0 < c -> (c - 1) / P k = c / P k - 1.
Proof.
  intros [q ->] Hc. pose proof (P_pos k). rewrite Z.div_mul by lia.
  replace (q * P k - 1) with (P k - 1 + (q - 1) * P k) by lia. rewrite Z.div_add, Z.div_small by lia. lia.
Qed.

Lemma pred_div_above c k j : (P k | c) -> 0 < c -> Z.odd (c / P k) = true -> (k < j)%nat -> (c - 1) / P j = c / P j.
Proof.
  intros Hd Hc Ho Hj. replace j with (k + S (j - k - 1))%nat by lia.
  rewrite Nat2Z.inj_add, Z.pow_add_r, <- !Z.div_div by lia. rewrite pred_div by done.
  rewrite P_S, <- !Z.div_div by lia. f_equal. apply Z.odd_spec in Ho as [m Hm]. rewrite Hm.
  replace (2 * m + 1 - 1) with (m * 2) by lia. rewrite Z.div_mul by lia.
  replace (2 * m + 1) with (1 + m * 2) by lia. rewrite Z.div_add by lia. done.
Qed.

Lemma div_S c k : c / P (S k) = c / P k / 2.
Proof. pose proof (P_pos k). rewrite P_S, Z.mul_comm, Z.div_div by lia. done. Qed.

Lemma even_divide c k : (P k | c) -> Z.odd (c / P k) = false -> (P (S k) | c) /\ c / P k = 2 * (c / P (S k)).
Proof.
  intros [q ->] Ho. pose proof (P_pos k). rewrite Z.div_mul in Ho by lia.
  assert (Z.even q = true) as He by (rewrite <- Z.negb_odd, Ho; done). apply Z.even_spec in He as [m ->].
  split; [exists m; rewrite P_S; lia|]. rewrite Z.div_mul by lia.
  replace (2 * m * P k) with (m * P (S k)) by (rewrite P_S; lia). rewrite Z.div_mul by lia. done.
Qed.

(** ** The first phase *)

Lemma branch_snoc b x : forall h idx, 0 <= idx ->
  ComputeMerkleRootFromBranch h (b ++ [x]) idx =
  (let r := ComputeMerkleRootFromBranch h b idx in
   if Z.testbit idx (Z.of_nat (length b)) then hash_pair x r else hash_pair r x).
Proof.
  induction b as [|y b IH]; intros h idx Hi; cbn [app ComputeMerkleRootFromBranch length].
  - change 1 with (2 ^ 1 - 1). rewrite land_ones_mod by lia. change (2 ^ 1) with 2.
    rewrite Zmod_odd. change (Z.of_nat 0) with 0. rewrite Z.bit0_odd. by destruct (Z.odd idx).
  - rewrite IH by (apply Z.shiftr_nonneg; done). cbn zeta. rewrite Z.shiftr_spec by lia.
    replace (Z.of_nat (length b) + 1) with (Z.of_nat (S (length b))) by lia. done.
Qed.

(** Two complete sibling subtrees with the same hash below the first [c] leaves. *)
Definition twins (c : Z) : Prop :=
  exists k i, 0 <= i /\ (2 * i + 2) * P k <= c /\ full k (2 * i) = full k (2 * i + 1).

Lemma twins_mono c d : c <= d -> twins c -> twins d.
Proof. intros Hcd (k & i & Hi & Hc & E). exists k, i. split_and!; [done|lia|done]. Qed.

Context (pos : Z) (Hpos : 0 <= pos).

(** [b] leads from the leaf at [pos] to [h], [k] levels up. *)
Definition climbs (k : nat) (b : list uint256) (h : uint256) : Prop :=
  length b = k /\ ComputeMerkleRootFromBranch (L !!! Z.to_nat pos) b pos = h.

Lemma climbs_right k b h x : climbs k b h -> Z.odd (pos / P k) = true -> climbs (S k) (b ++ [x]) (hash_pair x h).
Proof.
  intros [Hl Hr] Ho. split; [rewrite length_app; simpl; lia|].
  rewrite branch_snoc, Hl, testbit_odd_div, Ho, Hr by done. done.
Qed.

Lemma climbs_left k b h x : climbs k b h -> Z.odd (pos / P k) = false -> climbs (S k) (b ++ [x]) (hash_pair h x).
Proof.
  intros [Hl Hr] Ho. split; [rewrite length_app; simpl; lia|].
  rewrite branch_snoc, Hl, testbit_odd_div, Ho, Hr by done. done.
Qed.

(** [inner] holds the complete subtrees of the first [c] leaves. *)
Definition inner_ok (c : Z) (st : state) : Prop :=
  length (inner st) = 32%nat /\
  forall k, (k < 32)%nat -> Z.testbit c (Z.of_nat k) = true -> inner st !! k = Some (Some (full k (c / P k - 1))).

(** The leaf at [pos] is below the entry at [matchlevel], at or above level [k]. *)
Definition matched (c : Z) (k : nat) (b : list uint256) (st : state) : Prop :=
  exists ml, matchlevel st = Z.of_nat ml /\ (k <= ml < 32)%nat /\ Z.testbit c (Z.of_nat ml) = true /\
    pos / P ml = c / P ml - 1 /\ climbs ml b (full ml (pos / P ml)).

Definition branch_ok (c : Z) (st : state) : Prop :=
  match pbranch st with
  | None => True
  | Some b => if pos <? c then matched c 0 b st else matchlevel st = -1 /\ b = []
  end.

(** While leaf [c - 1] is being combined, at level [k]. *)
Definition branch_mid (c : Z) (k : nat) (matchh : bool) (st : state) : Prop :=
  match pbranch st with
  | None => True
  | Some b =>
      if matchh then pos < c /\ pos / P k = c / P k - 1 /\ climbs k b (full k (pos / P k))
      else if pos <? c - 1 then matched (c - 1) k b st else c <= pos /\ matchlevel st = -1 /\ b = []
  end.

Lemma extend_inner x h level m st st' m' : extend_branch x h level m st = (st', m') ->
  inner st' = inner st /\ mutated st' = mutated st /\ matchlevel st' = matchlevel st /\ (pbranch st = None <-> pbranch st' = None).
Proof.
  unfold extend_branch. destruct (pbranch st) eqn:E; [|by intros [= <- <-]; rewrite E].
  repeat case_bool; intros [= <- <-]; simpl; rewrite ?E; by split_and!.
Qed.

Lemma sibling c k : (P k | c) -> 0 < c -> Z.odd (c / P k) = false ->
  Z.testbit (c - 1) (Z.of_nat k) = true /\ (c - 1) / P k - 1 = 2 * (c / P (S k) - 1) /\
  c / P k - 1 = 2 * (c / P (S k) - 1) + 1 /\ 0 < c / P (S k) /\ 2 * (c / P (S k)) * P k = c.
Proof.
  intros Hd Hc Ho. destruct (even_divide c k Hd Ho) as [Hd' E]. pose proof (P_pos k). pose proof (P_pos (S k)).
  assert (0 < c / P (S k)) by (apply Z.div_str_pos; split; [lia|by apply Z.divide_pos_le]).
  rewrite testbit_odd_div by lia. rewrite (pred_div c k Hd Hc), E. split_and!; [|lia|lia|done|].
  - replace (2 * (c / P (S k)) - 1) with (1 + 2 * (c / P (S k) - 1)) by lia. by rewrite Z.odd_add_mul_2.
  - rewrite <- E. destruct Hd as [q ->]. by rewrite Z.div_mul by lia.
Qed.

Lemma branch_mid_step c k m st st' m' x h : (P k | c) -> 0 < c -> Z.odd (c / P k) = false ->
  x = full k (2 * (c / P (S k) - 1)) -> h = full k (2 * (c / P (S k) - 1) + 1) ->
  branch_mid c k m st -> extend_branch x h (Z.of_nat k) m st = (st', m') -> branch_mid c (S k) m' st'.
Proof.
  intros Hd Hc Ho Hx Hh H E. destruct (sibling c k Hd Hc Ho) as (Ht & E1 & E2 & Hq & _).
  unfold branch_mid, extend_branch in *. destruct (pbranch st) as [b|] eqn:Eb; [|injection E as <- <-; by rewrite Eb].
  destruct m.
  - injection E as <- <-. simpl. destruct H as (Hlt & Hp & Hcl).
    assert (pos / P (S k) = c / P (S k) - 1) as Ep by (rewrite div_S, Hp, E2, Z.add_comm, Z.mul_comm, Z.div_add by lia; done).
    split_and!; [done|done|]. rewrite Ep. cbn [full]. rewrite <- Hx. rewrite Hp, E2 in Hcl.
    apply climbs_right; [done|]. rewrite Hp, E2, Z.add_comm. by rewrite Z.odd_add_mul_2.
  - destruct (Z.ltb_spec pos (c - 1)) as [Hlt|Hge].
    + destruct H as (ml & Eml & Hml & Hbit & Hp & Hcl). destruct (Z.eqb_spec (matchlevel st) (Z.of_nat k)) as [Ek|Ek].
      * injection E as <- <-. simpl. assert (ml = k) as -> by lia. rewrite E1 in Hp.
        assert (pos / P (S k) = c / P (S k) - 1) as Ep by (rewrite div_S, Hp, Z.mul_comm, Z.div_mul by lia; done).
        split_and!; [lia|done|]. rewrite Ep. cbn [full]. rewrite <- Hh. rewrite Hp in Hcl.
        apply climbs_left; [done|]. rewrite Hp. by rewrite Z.odd_mul.
      * injection E as <- <-. rewrite Eb.
        exists ml. split_and!; [done|lia|lia|done|done|exact Hcl].
    + destruct H as (Hle & Em & ->). rewrite (proj2 (Z.eqb_neq _ _)) in E by lia. injection E as <- <-.
      rewrite Eb. done.
Qed.

(** One leaf: the loop combines it with the subtrees to its left. *)
Lemma combine_loop_spec c : 0 < c < 2 ^ 32 -> forall d k fuel m st, (k + d = 32)%nat -> (d <= fuel)%nat ->
  (P k | c) -> inner_ok (c - 1) st -> branch_mid c k m st ->
  (mutated st = true <-> twins (c - 1) \/
     exists j i, (j < k)%nat /\ 0 <= i /\ (2 * i + 2) * P j = c /\ full j (2 * i) = full j (2 * i + 1)) ->
  exists k' m' st', combine_loop fuel c (Z.of_nat k) (full k (c / P k - 1)) m st =
      Ok (Z.of_nat k', full k' (c / P k' - 1), m', st') /\
    (k' < 32)%nat /\ (P k' | c) /\ Z.odd (c / P k') = true /\ inner st' = inner st /\ matchlevel st' = matchlevel st /\
    branch_mid c k' m' st' /\ (mutated st' = true <-> twins c) /\ (pbranch st = None <-> pbranch st' = None).
Proof.
  intros Hc d. induction d as [|d IH]; intros k fuel m st Hk Hf Hd Hin Hbr Hmut.
  { destruct Hd as [q ->]. replace k with 32%nat in Hc by lia. change (P 32) with (2 ^ 32) in Hc. nia. }
  destruct (Z.odd (c / P k)) eqn:Ho.
  - exists k, m, st. assert (combine_loop fuel c (Z.of_nat k) (full k (c / P k - 1)) m st =
      Ok (Z.of_nat k, full k (c / P k - 1), m, st)) as ->.
    { destruct fuel; cbn [combine_loop]; by rewrite bit_clear_spec, testbit_odd_div, Ho by lia. }
    split_and!; try done; [lia|]. rewrite Hmut. split.
    + intros [H|(j & i & _ & Hi & Hb & E)]; [eapply twins_mono; [|exact H]; lia|exists j, i; split_and!; [done|lia|done]].
    + intros (j & i & Hi & Hb & E). destruct (Z.le_gt_cases ((2 * i + 2) * P j) (c - 1)); [left; by exists j, i|].
      right. exists j, i. split_and!; [|done|lia|done].
      assert (c = (2 * i + 2) * P j) as Ec by lia. destruct (decide (j < k)%nat) as [|Hj]; [done|exfalso].
      rewrite Ec in Ho. replace j with (k + (j - k))%nat in Ho by lia. rewrite Nat2Z.inj_add, Z.pow_add_r in Ho by lia.
      pose proof (P_pos k).
      replace ((2 * i + 2) * (P k * P (j - k))) with ((2 * ((i + 1) * P (j - k))) * P k) in Ho by lia.
      rewrite Z.div_mul, Z.odd_mul in Ho by lia. done.
  - destruct fuel as [|fuel]; [lia|]. cbn [combine_loop]. rewrite bit_clear_spec, testbit_odd_div, Ho by lia. cbn [res_bind negb].
    destruct (sibling c k Hd (proj1 Hc) Ho) as (Ht & E1 & E2 & Hq & Ec). destruct Hin as [Hlen Hin].
    assert (inner_at st (Z.of_nat k) = Ok (full k (2 * (c / P (S k) - 1)))) as ->.
    { unfold inner_at. rewrite (proj2 (Z.ltb_ge _ _)), Nat2Z.id, (Hin k), E1 by (lia || done). done. }
    cbn [res_bind]. rewrite E2.
    destruct (extend_branch _ _ _ m st) as [st1 m1] eqn:Ee. pose proof (extend_inner _ _ _ _ _ _ _ Ee) as (Ei & Em & El & Enone).
    pose proof (branch_mid_step c k m st st1 m1 _ _ Hd (proj1 Hc) Ho eq_refl eq_refl Hbr Ee) as Hbr1.
    replace (Z.of_nat k + 1) with (Z.of_nat (S k)) by lia.
    change (hash_pair (full k (2 * (c / P (S k) - 1))) (full k (2 * (c / P (S k) - 1) + 1))) with (full (S k) (c / P (S k) - 1)).
    match goal with |- context [set_mutated ?b st1] => set (mb := b) end.
    destruct (IH (S k) fuel m1 (set_mutated mb st1)) as (k' & m' & st' & E & Hk' & Hd' & Ho' & Hi' & Hl' & Hb' & Hm' & Hn');
      [lia|lia|apply (even_divide c k Hd Ho)|split; simpl; rewrite Ei; [exact Hlen|exact Hin]|exact Hbr1| |].
    2: { exists k', m', st'. simpl in Hi', Hl', Hn'. rewrite Ei in Hi'. rewrite El in Hl'. rewrite Enone.
         split_and!; [exact E|done..]. }
    subst mb. cbn [mutated set_mutated]. rewrite orb_true_iff, Em, Hmut. unfold op_eq. rewrite bool_decide_eq_true. split.
    + intros [[H|(j & i & Hj & H)]|H]; [by left|right; exists j, i; split; [lia|exact H]|].
      right. exists k, (c / P (S k) - 1). split_and!; [lia|lia|lia|exact H].
    + intros [H|(j & i & Hj & Hi & Hb & Et)]; [by left; left|]. destruct (decide (j = k)) as [->|].
      * right. pose proof (P_pos k). assert (i = c / P (S k) - 1) as -> by nia. exact Et.
      * left; right. exists j, i. split_and!; [lia|done|done|done].
Qed.

Definition state_ok (c : Z) (st : state) : Prop :=
  inner_ok c st /\ branch_ok c st /\ (mutated st = true <-> twins c).

Lemma low_bit c k j : (P k | c) -> 0 <= c -> (j < k)%nat -> Z.testbit c (Z.of_nat j) = false.
Proof.
  intros [q ->] Hc Hj. rewrite testbit_odd_div by done. pose proof (P_pos j).
  replace k with (j + S (k - j - 1))%nat by lia. rewrite Nat2Z.inj_add, Z.pow_add_r, P_S by lia.
  replace (q * (P j * (2 * P (k - j - 1)))) with (2 * (q * P (k - j - 1)) * P j) by lia.
  rewrite Z.div_mul, Z.odd_mul by lia. done.
Qed.

Lemma odd_pred q : Z.odd q = true -> Z.odd (q - 1) = false.
Proof. rewrite Z.odd_sub. by intros ->. Qed.

(** Storing the combined hash [full k (c / 2^k - 1)] restores the invariant. *)
Lemma inner_stored c k st h : 0 < c -> (k < 32)%nat -> (P k | c) -> Z.odd (c / P k) = true ->
  h = full k (c / P k - 1) -> inner_ok (c - 1) st -> inner_ok c (set_inner (Z.of_nat k) h st).
Proof.
  intros Hc Hk Hd Ho -> [Hlen Hin]. unfold set_inner. rewrite Nat2Z.id. split; simpl; [by rewrite length_insert|].
  intros j Hj Hb. destruct (Nat.lt_total j k) as [Hlt|[->|Hgt]].
  - by rewrite (low_bit c k j) in Hb by (done || lia).
  - rewrite list_lookup_insert_eq by lia. done.
  - rewrite list_lookup_insert_ne by lia. rewrite testbit_odd_div in Hb by lia.
    rewrite <- (pred_div_above c k j) in Hb |- * by done. apply Hin; [done|]. by rewrite testbit_odd_div by lia.
Qed.

Lemma matched_above c k b st : 0 < c -> (P k | c) -> Z.odd (c / P k) = true ->
  matched (c - 1) k b st -> matched c (S k) b st.
Proof.
  intros Hc Hd Ho (ml & Em & Hml & Hb & Hp & Hcl).
  destruct (decide (ml = k)) as [->|].
  { rewrite testbit_odd_div, (pred_div c k Hd Hc), odd_pred in Hb by (done || lia). done. }
  rewrite testbit_odd_div, (pred_div_above c k ml) in Hb by (done || lia).
  rewrite (pred_div_above c k ml) in Hp by (done || lia).
  exists ml. split_and!; [done|lia|lia|by rewrite testbit_odd_div by lia|done|exact Hcl].
Qed.

Lemma leaf_step c st : 0 <= c < n -> c + 1 < 2 ^ 32 -> state_ok c st ->
  exists k m st1, combine_loop 32 (u32 (c + 1)) 0 (L !!! Z.to_nat c) (c =? pos) st =
      Ok (Z.of_nat k, full k ((c + 1) / P k - 1), m, st1) /\
    let st2 := set_inner (Z.of_nat k) (full k ((c + 1) / P k - 1)) st1 in
    let st3 := if m then set_matchlevel (Z.of_nat k) st2 else st2 in
    state_ok (c + 1) st3 /\ (pbranch st = None <-> pbranch st3 = None).
Proof.
  intros Hc Hb (Hin & Hbr & Hm). rewrite wrap_small by (unfold in_u; lia).
  destruct (combine_loop_spec (c + 1) ltac:(lia) 32 0 32 (c =? pos) st) as
    (k & m & st1 & E & Hk & Hd & Ho & Hi & Hl & Hb' & Hm' & Hnone); [done|done|apply Z.divide_1_l| | | |].
  - by replace (c + 1 - 1) with c by lia.
  - unfold branch_mid, branch_ok in *. destruct (pbranch st) as [b|]; [|done].
    replace (c + 1 - 1) with c by lia. change (P 0) with 1. rewrite !Z.div_1_r.
    destruct (Z.eqb_spec c pos) as [e|Hne].
    + rewrite (proj2 (Z.ltb_ge pos c)) in Hbr by lia. destruct Hbr as [_ ->]. split_and!; [lia|lia|by split].
    + destruct (Z.ltb_spec pos c); [done|]. split_and!; [lia|apply Hbr|apply Hbr].
  - replace (c + 1 - 1) with c by lia. rewrite Hm. split; [by left|]. intros [H|(j & i & Hj & _)]; [done|lia].
  - exists k, m, st1. split.
    { rewrite <- E. change (P 0) with 1. rewrite Z.div_1_r. cbn [full]. by replace (c + 1 - 1) with c by lia. }
    assert (inner_ok (c + 1) (set_inner (Z.of_nat k) (full k ((c + 1) / P k - 1)) st1)) as Hin'.
    { apply inner_stored; [lia|done..|]. replace (c + 1 - 1) with c by lia. destruct Hin as [Hlen Hin].
      split; [by rewrite Hi|]. intros j Hj Hbit. rewrite Hi. by apply Hin. }
    cbn zeta. split; [|by destruct m; simpl].
    split; [by destruct m|]. split; [|by destruct m].
    unfold branch_ok, branch_mid in *. destruct m; simpl; (destruct (pbranch st1) as [b|] eqn:Eb; [|done]).
    + destruct Hb' as (Hlt & Hp & Hcl). rewrite (proj2 (Z.ltb_lt _ _)) by done.
      exists k. split_and!; [done|lia|lia|by rewrite testbit_odd_div by lia|done|exact Hcl].
    + destruct (Z.lt_ge_cases pos c).
      * rewrite (proj2 (Z.ltb_lt pos (c + 1 - 1))) in Hb' by lia. rewrite (proj2 (Z.ltb_lt _ _)) by lia.
        destruct (matched_above (c + 1) k b st1 ltac:(lia) Hd Ho Hb') as (ml & Hml).
        exists ml. split_and!; [apply Hml|lia|apply Hml|apply Hml|apply Hml|apply Hml].
      * rewrite (proj2 (Z.ltb_ge pos (c + 1 - 1))) in Hb' by lia. rewrite (proj2 (Z.ltb_ge _ _)) by lia. apply Hb'.
Qed.

Lemma leaves_loop_spec l : forall c st, n < 2 ^ 32 -> L = take (Z.to_nat c) L ++ l -> 0 <= c -> c + Z.of_nat (length l) = n ->
  state_ok c st ->
  exists st', leaves_loop l pos c st = Ok (n, st') /\ state_ok n st' /\ (pbranch st = None <-> pbranch st' = None).
Proof.
  induction l as [|h l IH]; intros c st Hn HL Hc Hl Hst; cbn [leaves_loop length] in *.
  - exists st. replace n with c by lia. done.
  - assert (L !!! Z.to_nat c = h) as Eh.
    { rewrite HL. apply list_lookup_total_middle. rewrite length_take. lia. }
    destruct (leaf_step c st ltac:(lia) ltac:(lia) Hst) as (k & m & st1 & E & Hst3 & Hnone).
    rewrite Eh in E. rewrite E. cbn [res_bind]. rewrite wrap_small by (unfold in_u; lia).
    match type of Hst3 with state_ok _ ?st3 => destruct (IH (c + 1) st3 Hn) as (st' & E' & H' & Hnone') end;
      [|lia|lia|exact Hst3|].
    { replace (Z.to_nat (c + 1)) with (S (Z.to_nat c)) by lia.
      rewrite (take_S_r _ _ h), <- app_assoc by (rewrite <- Eh; apply list_lookup_lookup_total_lt; lia). done. }
    exists st'. rewrite Hnone. done.
Qed.

Lemma init_ok branch : state_ok 0 (init branch).
Proof.
  split; [|split].
  - split; [done|]. intros k _ Hb. by rewrite Z.bits_0 in Hb.
  - unfold branch_ok, init; simpl. destruct branch; [|done]. by rewrite (proj2 (Z.ltb_ge _ _)) by lia.
  - simpl. split; [done|]. intros (k & i & Hi & Hb & _). pose proof (P_pos k). nia.
Qed.

(** ** The sweep over the right edge *)

Context (Hn : 0 < n <= 2 ^ 31).

Lemma width_pos k : 1 <= width k.
Proof.
  pose proof (width_bounds k (proj1 Hn)) as [_ H]. pose proof (P_pos k).
  destruct (Z.le_gt_cases 1 (width k)); [done|]. nia.
Qed.

Lemma width_total k : (k < 32)%nat -> width k * P k <= 2 ^ 31.
Proof.
  intros Hk. pose proof (width_bounds k (proj1 Hn)) as [H _].
  assert (2 ^ 31 = P (31 - k) * P k) as E by (rewrite <- Z.pow_add_r by lia; f_equal; lia).
  pose proof (P_pos k). rewrite E. apply Z.mul_le_mono_nonneg_r; [lia|].
  assert ((width k - 1) * P k < P (31 - k) * P k) as Hlt by lia. apply Z.mul_lt_mono_pos_r in Hlt; lia.
Qed.

(** The lowest set bit of [n]. *)
Context (k0 : nat) (Hd0 : (P k0 | n)) (Ho0 : Z.odd (n / P k0) = true).

Lemma width_k0 : width k0 = n / P k0.
Proof.
  pose proof (width_bounds k0 (proj1 Hn)). pose proof (P_pos k0). destruct Hd0 as [q Eq].
  rewrite Eq, Z.div_mul in * by lia. nia.
Qed.

Lemma width_above k : (k0 < k)%nat -> n / P k = width k - 1.
Proof.
  intros Hk. pose proof (width_bounds k (proj1 Hn)) as [H1 H2]. pose proof (P_pos k).
  destruct (Z.eq_dec n (width k * P k)) as [E|Hneq].
  - exfalso. assert (Z.testbit n (Z.of_nat k0) = false) as Hb by (apply (low_bit n k); [by exists (width k)|lia|done]).
    rewrite testbit_odd_div, Ho0 in Hb by lia. done.
  - symmetry. apply (Z.div_unique _ _ _ (n - (width k - 1) * P k)); lia.
Qed.

Lemma width_lt_k0 j : (j < k0)%nat -> width j <> 1.
Proof.
  intros Hj E. pose proof (width_bounds j (proj1 Hn)) as [_ H]. rewrite E in H.
  assert (P k0 <= n) by (apply Z.divide_pos_le; [lia|done]).
  assert (P j < P k0) by (apply Z.pow_lt_mono_r; lia). lia.
Qed.

Lemma skip_level_spec d : forall k fuel, (k + d = k0)%nat -> (k0 < 32)%nat -> (d <= fuel)%nat ->
  skip_level fuel n (Z.of_nat k) = Ok (Z.of_nat k0).
Proof.
  induction d as [|d IH]; intros k fuel Hk Hlt Hf.
  - replace k with k0 by lia. destruct fuel; cbn [skip_level]; by rewrite bit_clear_spec, testbit_odd_div, Ho0 by lia.
  - destruct fuel as [|fuel]; [lia|]. cbn [skip_level]. rewrite bit_clear_spec by lia.
    rewrite (low_bit n k0 k) by (done || lia). cbn [res_bind negb].
    replace (Z.of_nat k + 1) with (Z.of_nat (S k)) by lia. apply IH; lia.
Qed.

Definition sweep_ok (k : nat) (h : uint256) (matchh : bool) (st : state) : Prop :=
  (k < 32)%nat /\ inner_ok n st /\ row k !! Z.to_nat (width k - 1) = Some h /\ (forall j, (j < k)%nat -> width j <> 1) /\
  match pbranch st with
  | None => True
  | Some b =>
      if matchh then pos / P k = width k - 1 /\ climbs k b h
      else matched n k b st /\ matchlevel st <> Z.of_nat k0
  end.

Lemma row_pair k i a b : 0 <= i -> row k !! Z.to_nat (2 * i) = Some a -> row k !! Z.to_nat (2 * i + 1) = Some b ->
  row (S k) !! Z.to_nat i = Some (hash_pair a b).
Proof. intros Hi Ha Hb. by rewrite row_S, Ha, Hb by done. Qed.

Lemma row_single k i a : 0 <= i -> width k = 2 * i + 1 -> row k !! Z.to_nat (2 * i) = Some a ->
  row (S k) !! Z.to_nat i = Some (hash_pair a a).
Proof.
  intros Hi Hw Ha. rewrite row_S, Ha by done. cbn [mbind option_bind].
  rewrite (lookup_ge_None_2 (row k)); [done|]. pose proof (row_length k). lia.
Qed.

Lemma bit_width k : (k < 32)%nat -> Z.testbit (width k * P k) (Z.of_nat k) = Z.odd (width k).
Proof.
  intros Hk. pose proof (width_pos k). pose proof (P_pos k). rewrite testbit_odd_div by nia.
  by rewrite Z.div_mul by lia.
Qed.

Lemma propagate_step k m h st x st1 m1 : (k0 < k)%nat -> Z.odd (width k) = false -> sweep_ok k h m st ->
  x = full k (width k - 2) -> extend_branch x h (Z.of_nat k) m st = (st1, m1) ->
  inner_at st (Z.of_nat k) = Ok x /\ sweep_ok (S k) (hash_pair x h) m1 st1 /\ width (S k) * P (S k) = width k * P k.
Proof.
  intros Hk0 Ho (Hk & [Hlen Hin] & Hrow & Hne & Hbr) Hx E.
  pose proof (width_pos k) as Hw. pose proof (P_pos k) as HP. pose proof (width_total k Hk) as Htot.
  assert (exists q, width k = 2 * q) as [q Hq].
  { assert (Z.even (width k) = true) as He by (rewrite <- Z.negb_odd, Ho; done). by apply Z.even_spec in He. }
  assert (width (S k) = q) as HwS by (rewrite width_S, Hq, Z.add_comm, Z.mul_comm, Z.div_add by lia; done).
  assert (S k < 32)%nat as HkS.
  { destruct (decide (k = 31)%nat) as [->|]; [|lia]. change (P 31) with (2 ^ 31) in Htot. nia. }
  pose proof (extend_inner _ _ _ _ _ _ _ E) as (Ei & Em & El & _).
  pose proof (width_above k Hk0) as Hdiv. pose proof (width_bounds k (proj1 Hn)) as [Hb1 Hb2].
  split_and!.
  - unfold inner_at. rewrite (proj2 (Z.ltb_ge _ _)), Nat2Z.id, Hin, Hdiv; [|lia| |lia].
    + rewrite Hx. do 2 f_equal. lia.
    + rewrite testbit_odd_div, Hdiv, Hq by lia. replace (2 * q - 1) with (1 + 2 * (q - 1)) by lia. by rewrite Z.odd_add_mul_2.
  - split_and!; [done|by split; rewrite Ei| | |].
    + rewrite HwS. apply row_pair; [lia| |].
      * rewrite Hx. replace (2 * (q - 1)) with (width k - 2) by lia. apply row_full; [lia|nia].
      * replace (2 * (q - 1) + 1) with (width k - 1) by lia. done.
    + intros j Hj. destruct (decide (j = k)) as [->|]; [lia|apply Hne; lia].
    + unfold extend_branch in E. destruct (pbranch st) as [b|] eqn:Eb; [|injection E as <- <-; by rewrite Eb].
      destruct m.
      * injection E as <- <-. simpl. destruct Hbr as [Hp Hcl]. split.
        -- rewrite div_S, Hp, HwS, Hq. replace (2 * q - 1) with (1 + (q - 1) * 2) by lia. rewrite Z.div_add by lia. change (1 / 2) with 0. lia.
        -- apply climbs_right; [done|]. rewrite Hp, Hq. replace (2 * q - 1) with (1 + 2 * (q - 1)) by lia. by rewrite Z.odd_add_mul_2.
      * destruct Hbr as [(ml & Eml & Hml & Hbit & Hp & Hcl) Hne0].
        destruct (Z.eqb_spec (matchlevel st) (Z.of_nat k)) as [Ek|Ek]; injection E as <- <-.
        -- simpl. assert (ml = k) as -> by lia. rewrite Hdiv in Hp.
           assert (pos / P k = width k - 2) as Hp' by lia. split.
           ++ rewrite div_S, Hp', HwS, Hq. replace (2 * q - 2) with ((q - 1) * 2) by lia. by rewrite Z.div_mul by lia.
           ++ rewrite Hx, <- Hp'. apply climbs_left; [done|]. rewrite Hp', Hq. replace (2 * q - 2) with (2 * (q - 1)) by lia.
              by rewrite Z.odd_mul.
        -- rewrite Eb. split; [|done]. exists ml. split_and!; [done|lia|lia|done|done|exact Hcl].
  - rewrite HwS, Hq, P_S. lia.
Qed.

Lemma propagate_spec d : forall k fuel m h st, (k + d = 32)%nat -> (d <= fuel)%nat -> (k0 < k)%nat -> sweep_ok k h m st ->
  exists k' h' m' st', propagate_loop fuel (width k * P k) (Z.of_nat k) h m st = Ok (Z.of_nat k', h', m', st') /\
    (k <= k')%nat /\ sweep_ok k' h' m' st' /\ Z.odd (width k') = true /\ width k' * P k' = width k * P k /\
    mutated st' = mutated st /\ (pbranch st = None <-> pbranch st' = None).
Proof.
  induction d as [|d IH]; intros k fuel m h st Hk Hf Hk0 H; pose proof H as (Hk32 & _); [lia|].
  pose proof (width_pos k) as Hw. pose proof (P_pos k) as HP.
  destruct (Z.odd (width k)) eqn:Ho.
  - exists k, h, m, st. split; [|done].
    destruct fuel; cbn [propagate_loop]; by rewrite bit_clear_spec, bit_width, Ho by (done || nia).
  - destruct fuel as [|fuel]; [lia|]. cbn [propagate_loop]. rewrite bit_clear_spec, bit_width, Ho by (done || nia). cbn [res_bind negb].
    destruct (extend_branch (full k (width k - 2)) h (Z.of_nat k) m st) as [st1 m1] eqn:E.
    destruct (propagate_step k m h st _ st1 m1 Hk0 Ho H eq_refl E) as (-> & H1 & Ew). cbn [res_bind]. rewrite E.
    pose proof (extend_inner _ _ _ _ _ _ _ E) as (_ & Em & _ & Enone).
    replace (Z.of_nat k + 1) with (Z.of_nat (S k)) by lia. rewrite <- Ew.
    destruct (IH (S k) fuel m1 _ st1 ltac:(lia) ltac:(lia) ltac:(lia) H1) as (k' & h' & m' & st' & -> & Hk' & H' & Ho' & Ew' & Em' & En').
    exists k', h', m', st'. split_and!; [done|lia|done|done|congruence|congruence|by rewrite Enone].
Qed.

Lemma sweep_done k h m st : sweep_ok k h m st -> width k = 1 -> row k = [h] /\
  match pbranch st with None => True | Some b => pos < n -> climbs k b h end.
Proof.
  intros (Hk & _ & Hrow & _ & Hbr) Hw. pose proof (row_length k) as Hl. rewrite Hw in *.
  split; [by destruct (row k) as [|a [|b l]]; simpl in *; try lia; injection Hrow as ->|].
  destruct (pbranch st) as [b|]; [|done]. destruct m; [intros _; apply Hbr|exfalso].
  destruct Hbr as [(ml & Eml & Hml & Hbit & _) Hne]. pose proof (width_bounds k (proj1 Hn)) as [_ Hb]. rewrite Hw in Hb.
  assert (ml <> k0) by congruence. destruct (decide (ml < k0)%nat).
  { by rewrite (low_bit n k0 ml) in Hbit by (done || lia). }
  rewrite testbit_odd_div, (width_above ml) in Hbit by lia.
  assert (P k <= P ml) by (apply Z.pow_le_mono_r; lia).
  assert (width ml = 1) as Ew by (pose proof (width_pos ml); pose proof (width_bounds ml (proj1 Hn)); pose proof (P_pos ml); nia).
  by rewrite Ew in Hbit.
Qed.

(** One pairing of the rightmost node with itself. *)
Lemma sweep_step k m h st q : (k0 <= k)%nat -> (S k < 32)%nat -> width k = 2 * q + 1 -> 0 < q -> sweep_ok k h m st ->
  let st1 := push_matched h m st in
  sweep_ok (S k) (hash_pair h h) m st1 /\ mutated st1 = mutated st /\ (pbranch st = None <-> pbranch st1 = None).
Proof.
  intros Hk0 HkS Hq Hpos0 (Hk32 & Hin & Hrow & Hne & Hbr). cbn zeta. unfold push_matched.
  assert (width (S k) = q + 1) as HwS
    by (rewrite width_S, Hq; replace (2 * q + 1 + 1) with ((q + 1) * 2) by lia; by rewrite Z.div_mul by lia).
  split_and!; [split_and!| |].
  - done.
  - destruct (pbranch st); [destruct m|]; apply Hin.
  - rewrite HwS. replace (q + 1 - 1) with q by lia. apply row_single; [lia|lia|].
    by replace (2 * q) with (width k - 1) by lia.
  - intros j Hj. destruct (decide (j = k)) as [->|]; [nia|apply Hne; lia].
  - destruct (pbranch st) as [b|] eqn:Eb; [destruct m; simpl|by rewrite Eb].
    + destruct Hbr as [Hp Hcl]. split.
      * rewrite div_S, Hp, HwS, Hq. replace (2 * q + 1 - 1) with (q * 2) by lia. rewrite Z.div_mul by lia. lia.
      * apply climbs_left; [done|]. rewrite Hp, Hq. replace (2 * q + 1 - 1) with (2 * q) by lia. by rewrite Z.odd_mul.
    + rewrite Eb. destruct Hbr as [(ml & Eml & Hml & Hbit & Hp & Hcl) Hne0]. split; [|done].
      exists ml. split_and!; [done| |lia|done|done|exact Hcl].
      destruct (decide (ml = k)) as [->|]; [exfalso|lia].
      destruct (decide (k = k0)) as [->|]; [done|].
      rewrite testbit_odd_div, (width_above k), Hq in Hbit by lia.
      replace (2 * q + 1 - 1) with (2 * q) in Hbit by lia. by rewrite Z.odd_mul in Hbit.
  - destruct (pbranch st); [by destruct m|done].
  - destruct (pbranch st) eqn:Eb; [destruct m; simpl; by rewrite ?Eb|by rewrite Eb].
Qed.

Lemma sweep_spec d : forall k fuel m h st, (k + d = 32)%nat -> (d <= fuel)%nat -> (k0 <= k)%nat -> sweep_ok k h m st ->
  Z.odd (width k) = true ->
  exists k' h' st', sweep_loop fuel (width k * P k) (Z.of_nat k) h m st = Ok (h', st') /\
    row k' = [h'] /\ (k' < 32)%nat /\ (forall j, (j < k')%nat -> width j <> 1) /\ mutated st' = mutated st /\
    (pbranch st = None <-> pbranch st' = None) /\
    match pbranch st' with None => True | Some b => pos < n -> climbs k' b h' end.
Proof.
  induction d as [d IH] using lt_wf_ind; intros k fuel m h st Hk Hf Hk0 H Ho; pose proof H as (Hk32 & Hin & Hrow & Hne & Hbr).
  pose proof (width_pos k) as Hw. pose proof (P_pos k) as HP. pose proof (width_total k Hk32) as Htot.
  assert (u32 (Z.shiftl 1 (Z.of_nat k)) = P k) as Eshift.
  { rewrite Z.shiftl_mul_pow2, Z.mul_1_l by lia. apply wrap_small. unfold in_u. nia. }
  assert ((Z.of_nat k <? 0) || (32 <=? Z.of_nat k) = false) as Erange
    by (apply orb_false_iff; split; [apply Z.ltb_ge|apply Z.leb_gt]; lia).
  destruct (Z.eqb_spec (width k * P k) (P k)) as [E1|E1].
  - assert (width k = 1) as Hw1 by nia. exists k, h, st.
    destruct (sweep_done k h m st H Hw1) as [Hr Hb]. split; [|by split_and!].
    destruct fuel; cbn [sweep_loop]; rewrite Erange, Eshift, (proj2 (Z.eqb_eq _ _)) by done; done.
  - destruct fuel as [|fuel]; [lia|]. cbn [sweep_loop]. rewrite Erange, Eshift, (proj2 (Z.eqb_neq _ _)) by done. cbn [negb].
    apply Z.odd_spec in Ho as [q Hq].
    assert (width (S k) = q + 1) as HwS by (rewrite width_S, Hq; replace (2 * q + 1 + 1) with ((q + 1) * 2) by lia; by rewrite Z.div_mul by lia).
    assert (S k < 32)%nat as HkS.
    { destruct (decide (k = 31)%nat) as [->|]; [|lia]. change (P 31) with (2 ^ 31) in Htot. nia. }
    destruct (sweep_step k m h st q Hk0 HkS Hq ltac:(nia) H) as (H1 & Em1 & En1). set (st1 := push_matched h m st) in *.
    rewrite wrap_small by (unfold in_u; nia).
    replace (width k * P k + P k) with (width (S k) * P (S k)) by (rewrite HwS, Hq, P_S; lia).
    replace (Z.of_nat k + 1) with (Z.of_nat (S k)) by lia.
    destruct (propagate_spec (32 - S k) (S k) 32 m _ st1 ltac:(lia) ltac:(lia) ltac:(lia) H1)
      as (k2 & h2 & m2 & st2 & -> & Hk2 & H2 & Ho2 & Ew2 & Em2 & En2). cbn [res_bind]. rewrite <- Ew2.
    pose proof H2 as (Hk232 & _).
    destruct (IH (32 - k2)%nat ltac:(lia) k2 fuel m2 h2 st2) as (k' & h' & st' & E & Hr & Hk' & Hne' & Em' & En' & Hb');
      [lia|lia|lia|done|done|].
    exists k', h', st'. split_and!; [done|done|done|done|congruence|by rewrite En1, En2|done].
Qed.

Lemma MerkleComputation_ok branch : (branch = true -> pos < n) ->
  exists root m b d, MerkleComputation L pos branch = Ok (root, m, b) /\ row d = [root] /\ (d < 32)%nat /\
    (forall j, (j < d)%nat -> width j <> 1) /\ (m = true <-> twins n) /\
    (branch = true -> climbs d b root).
Proof.
  intros Hbranch. assert (k0 < 32)%nat as Hk0.
  { destruct (decide (k0 < 32)%nat) as [|Hge]; [done|exfalso]. assert (P k0 <= n) by (apply Z.divide_pos_le; [lia|done]).
    assert (P 32 <= P k0) by (apply Z.pow_le_mono_r; lia). change (P 32) with (2 ^ 32) in *. lia. }
  unfold MerkleComputation. destruct (Nat.eqb_spec (length L) 0) as [|Hlen]; [lia|].
  destruct (leaves_loop_spec L 0 (init branch)) as (st & E & (Hin & Hbr & Hm) & Hnone); [lia|done|done|done|apply init_ok|].
  rewrite E. cbn [res_bind]. rewrite (skip_level_spec k0 0 32 eq_refl Hk0 ltac:(lia) : skip_level 32 n 0 = _). cbn [res_bind].
  assert (Z.testbit n (Z.of_nat k0) = true) as Hbit by (by rewrite testbit_odd_div by lia).
  pose proof Hd0 as [q Eq]. pose proof (P_pos k0).
  assert (inner_at st (Z.of_nat k0) = Ok (full k0 (n / P k0 - 1))) as ->.
  { unfold inner_at. rewrite (proj2 (Z.ltb_ge _ _)), Nat2Z.id by lia. by rewrite (proj2 Hin k0 Hk0 Hbit). }
  cbn [res_bind].
  assert (n = width k0 * P k0) as En by (rewrite width_k0, Eq, Z.div_mul by lia; lia).
  destruct (sweep_spec (32 - k0) k0 32 (matchlevel st =? Z.of_nat k0) (full k0 (n / P k0 - 1)) st)
    as (d & h & st' & E' & Hrow & Hd & Hne & Em & En' & Hb); [lia|lia|lia| |by rewrite width_k0|].
  { assert (0 < n / P k0) by (rewrite Eq, Z.div_mul by lia; nia).
    split_and!; [done|done| |apply width_lt_k0|].
    - rewrite width_k0. apply row_full; [lia|]. rewrite Eq, Z.div_mul by lia. lia.
    - unfold branch_ok in Hbr. destruct (pbranch st) as [b|]; [|done].
      destruct (Z.eqb_spec (matchlevel st) (Z.of_nat k0)) as [Ek|Ek].
      + destruct (pos <? n); [|exfalso; lia]. destruct Hbr as (ml & Eml & _ & _ & Hp & Hcl).
        assert (ml = k0) as -> by lia. rewrite width_k0, <- Hp. done.
      + split; [|exact Ek]. destruct (Z.ltb_spec pos n) as [|Hge].
        * destruct Hbr as (ml & Eml & Hml & Hb & Hp & Hcl). exists ml. split_and!; [done| |lia|done|done|exact Hcl].
          destruct (decide (k0 <= ml)%nat) as [|Hlt]; [done|]. by rewrite (low_bit n k0 ml) in Hb by (done || lia).
        * exfalso. destruct branch; [specialize (Hbranch eq_refl); lia|].
          destruct Hnone as [Hnone _]. by specialize (Hnone eq_refl). }
  rewrite <- En in E'. rewrite E'. cbn [res_bind]. exists h, (mutated st'), (default [] (pbranch st')), d.
  split_and!; [done|done|done|done|by rewrite Em|].
  intros ->. destruct (pbranch st') as [b|]; [by apply Hb, Hbranch|].
  exfalso. destruct En' as [_ En']. destruct Hnone as [_ Hnone]. by specialize (Hnone (En' eq_refl)).
Qed.
End leaves.

(** ** The whole computation *)

Lemma lowest_bit c : 0 < c -> exists k, (P k | c) /\ Z.odd (c / P k) = true.
Proof.
  intros Hc. assert (forall b c, 0 < c < 2 ^ Z.of_nat b -> exists k, (P k | c) /\ Z.odd (c / P k) = true) as H.
  { clear c Hc. induction b as [|b IH]; intros c Hc; [change (2 ^ Z.of_nat 0) with 1 in Hc; lia|]. rewrite P_S in Hc.
    destruct (Z.odd c) eqn:Ho.
    - exists O. change (P 0) with 1. rewrite Z.div_1_r. split; [apply Z.divide_1_l|done].
    - assert (Z.even c = true) as He by (rewrite <- Z.negb_odd, Ho; done). apply Z.even_spec in He as [q ->].
      destruct (IH q ltac:(lia)) as (k & [r ->] & Hk). exists (S k). pose proof (P_pos k).
      rewrite Z.div_mul in Hk by lia. replace (2 * (r * P k)) with (r * P (S k)) by (rewrite P_S; lia).
      rewrite Z.div_mul by lia. split; [by exists r|done]. }
  apply (H (Z.to_nat (Z.log2 c + 1)) c). pose proof (Z.log2_spec c Hc) as [_ Hl]. pose proof (Z.log2_nonneg c).
  rewrite Z2Nat.id by lia. replace (Z.log2 c + 1) with (Z.succ (Z.log2 c)) by lia. lia.
Qed.

Lemma MerkleComputation_spec L pos branch : 0 <= pos -> 0 < Z.of_nat (length L) <= 2 ^ 31 ->
  (branch = true -> pos < Z.of_nat (length L)) ->
  exists root m b d, MerkleComputation L pos branch = Ok (root, m, b) /\ row L d = [root] /\ (d < 32)%nat /\
    (forall j, (j < d)%nat -> width L j <> 1) /\ (m = true <-> twins L (Z.of_nat (length L))) /\
    (branch = true -> climbs L pos d b root).
Proof.
  intros Hpos Hn Hb. destruct (lowest_bit (Z.of_nat (length L)) ltac:(lia)) as (k0 & Hd & Ho).
  by apply (MerkleComputation_ok L pos Hpos Hn k0 Hd Ho).
Qed.

(** ** Different lists with the same root *)

(** Two inputs of the hash with the same output. *)
Definition collision : Prop := exists x y : bytes, x <> y /\ Hash x = Hash y.

Context (Hash_wf : forall x, wf256 (Hash x)).

Lemma pn_bytes_app_inj a b c d : wf256 a -> wf256 b -> wf256 c -> wf256 d ->
  pn_bytes a ++ pn_bytes b = pn_bytes c ++ pn_bytes d -> a = c /\ b = d.
Proof.
  intros Ha Hb Hc Hd E. apply app_inj_1 in E as [E1 E2]; [|by rewrite !length_pn_bytes, !(wf_length WIDTH256)].
  rewrite <- (limbs_of_pn_bytes WIDTH256 a), <- (limbs_of_pn_bytes WIDTH256 b), E1, E2 by done.
  by rewrite !limbs_of_pn_bytes by done.
Qed.

Lemma hash_pair_inj a b c d : wf256 a -> wf256 b -> wf256 c -> wf256 d ->
  hash_pair a b = hash_pair c d -> (a = c /\ b = d) \/ collision.
Proof.
  intros Ha Hb Hc Hd E. destruct (decide (pn_bytes a ++ pn_bytes b = pn_bytes c ++ pn_bytes d)) as [e|ne].
  - left. by apply pn_bytes_app_inj.
  - right. by eexists _, _.
Qed.

Lemma level_up_wf l : Forall wf256 l -> Forall wf256 (level_up l).
Proof.
  intros H. induction l as [|a|a b l IH] using level_up_ind; cbn [level_up]; [done|by repeat constructor; apply Hash_wf|].
  rewrite !Forall_cons in H. destruct H as (_ & _ & H). constructor; [apply Hash_wf|auto].
Qed.

Lemma row_wf L k : Forall wf256 L -> Forall wf256 (row L k).
Proof. intros H. induction k as [|k IH]; [done|]. by apply (level_up_wf (row L k)). Qed.

(** Two levels with the same level above them differ at most by the copy of an odd last node. *)
Lemma level_up_inj l1 : forall l2, Forall wf256 l1 -> Forall wf256 l2 -> level_up l1 = level_up l2 ->
  l1 = l2 \/ collision \/ exists l a, Nat.Even (length l) /\
    ((l1 = l ++ [a] /\ l2 = l ++ [a; a]) \/ (l2 = l ++ [a] /\ l1 = l ++ [a; a])).
Proof.
  induction l1 as [|a|a b l1 IH] using level_up_ind; intros l2 H1 H2 E.
  - left. by destruct l2 as [|c [|d l2]].
  - destruct l2 as [|c [|d l2]]; cbn [level_up] in E; [done| |].
    + injection E as E. rewrite Forall_singleton in H1, H2. destruct (hash_pair_inj a a c c) as [[-> _]|Hc]; auto.
    + injection E as E El. destruct l2 as [|? [|? ?]]; [|done|done].
      rewrite Forall_singleton in H1. rewrite Forall_cons, Forall_singleton in H2. destruct H2 as [Hwc H2].
      destruct (hash_pair_inj a a c d) as [[<- <-]|Hc]; auto.
      do 2 right. exists [], a. split; [by exists O|by left].
  - rewrite !Forall_cons in H1. destruct H1 as (Hwa & Hwb & H1).
    destruct l2 as [|c [|d l2]]; cbn [level_up] in E; [done| |].
    + injection E as E El. destruct l1 as [|? [|? ?]]; [|done|done]. rewrite Forall_singleton in H2.
      destruct (hash_pair_inj a b c c) as [[-> ->]|Hc]; auto.
      do 2 right. exists [], c. split; [by exists O|by right].
    + injection E as E El. rewrite !Forall_cons in H2. destruct H2 as (Hwc & Hwd & H2).
      destruct (hash_pair_inj a b c d) as [[-> ->]|Hc]; auto.
      destruct (IH l2 H1 H2 El) as [->|[Hc|(l & x & [m Hm] & Hl)]]; auto.
      do 2 right. exists (c :: d :: l), x. split; [exists (S m); simpl; lia|].
      by destruct Hl as [[-> ->]|[-> ->]]; [left|right].
Qed.

(** A right-edge subtree with missing leaves cannot equal a complete one unless
    two complete siblings are equal. *)
Lemma incomplete_twin L : Forall wf256 L -> 0 < Z.of_nat (length L) -> forall k i, 0 <= i ->
  (i + 1) * P k <= Z.of_nat (length L) < width L k * P k ->
  row L k !! Z.to_nat (width L k - 1) = Some (full L k i) -> twins L (Z.of_nat (length L)) \/ collision.
Proof.
  intros HL Hn. induction k as [|k IH]; intros i Hi Hb Hrow.
  { unfold width in Hb. change (P 0) with 1 in Hb. rewrite Z.div_1_r in Hb. lia. }
  pose proof (P_pos k) as HP. pose proof (P_S k) as HPS. pose proof (width_S L k) as HwS.
  pose proof (width_bounds L k Hn) as Hw. set (n := Z.of_nat (length L)) in *.
  assert (1 <= width L k) by nia. assert (1 <= width L (S k)) as HwS1 by (pose proof (width_bounds L (S k) Hn); nia).
  rewrite row_S in Hrow by lia. cbn [full] in Hrow.
  destruct (row L k !! Z.to_nat (2 * (width L (S k) - 1))) as [a|] eqn:Ea; [|done]. cbn [mbind option_bind] in Hrow.
  injection Hrow as Hrow.
  pose proof (fun j x => Forall_lookup_1 wf256 _ j x (row_wf L k HL)) as Hwfl.
  assert (row L k !! Z.to_nat (2 * i) = Some (full L k (2 * i))) as F1 by (apply row_full; [lia|nia]).
  assert (row L k !! Z.to_nat (2 * i + 1) = Some (full L k (2 * i + 1))) as F2 by (apply row_full; [lia|nia]).
  pose proof (row_length L k) as Hlen. pose proof (Z.div_mod (width L k + 1) 2 ltac:(lia)) as Hdm.
  pose proof (Z.mod_pos_bound (width L k + 1) 2 ltac:(lia)) as Hmb. rewrite <- HwS in Hdm.
  destruct (row L k !! Z.to_nat (2 * (width L (S k) - 1) + 1)) as [b|] eqn:Eb; cbn [default] in Hrow.
  - destruct (hash_pair_inj _ _ _ _ (Hwfl _ _ Ea) (Hwfl _ _ Eb) (Hwfl _ _ F1) (Hwfl _ _ F2) Hrow) as [[-> ->]|Hc]; [|by right].
    apply lookup_lt_Some in Eb as Hlt. assert (width L k = 2 * width L (S k)) as Ew by lia.
    apply (IH (2 * i + 1)); [lia|rewrite HPS in Hb; nia|].
    by replace (width L k - 1) with (2 * (width L (S k) - 1) + 1) by lia.
  - destruct (hash_pair_inj _ _ _ _ (Hwfl _ _ Ea) (Hwfl _ _ Ea) (Hwfl _ _ F1) (Hwfl _ _ F2) Hrow) as [[E1 E2]|Hc]; [|by right].
    left. exists k, i. split_and!; [done|nia|congruence].
Qed.

Lemma twin_row L k a : Forall wf256 L -> 0 < Z.of_nat (length L) -> forall l, Nat.Even (length l) -> row L k = l ++ [a; a] ->
  twins L (Z.of_nat (length L)) \/ collision.
Proof.
  intros HL Hn l [q Hq] Hrow. pose proof (row_length L k) as Hlen. pose proof (P_pos k) as HP.
  rewrite Hrow, length_app in Hlen. cbn [length] in Hlen. pose proof (width_bounds L k Hn) as Hw.
  assert (row L k !! Z.to_nat (width L k - 1) = Some a) as Ha1.
  { rewrite Hrow. replace (Z.to_nat (width L k - 1)) with (length l + 1)%nat by lia. by rewrite lookup_app_r, Nat.add_comm, Nat.add_sub by lia. }
  assert (row L k !! Z.to_nat (width L k - 2) = Some a) as Ha2.
  { rewrite Hrow. replace (Z.to_nat (width L k - 2)) with (length l) by lia. by rewrite lookup_app_r, Nat.sub_diag by lia. }
  rewrite row_full in Ha2 by nia. destruct (Z.eq_dec (width L k * P k) (Z.of_nat (length L))) as [E|E].
  - left. rewrite row_full in Ha1 by nia. exists k, (Z.of_nat q).
    replace (2 * Z.of_nat q) with (width L k - 2) by lia. replace (width L k - 2 + 1) with (width L k - 1) by lia.
    split_and!; [lia|nia|congruence].
  - apply (incomplete_twin L HL Hn k (width L k - 2)); [lia|nia|congruence].
Qed.

Lemma rows_equal L1 L2 : Forall wf256 L1 -> Forall wf256 L2 ->
  0 < Z.of_nat (length L1) -> 0 < Z.of_nat (length L2) -> forall d, row L1 d = row L2 d ->
  L1 = L2 \/ twins L1 (Z.of_nat (length L1)) \/ twins L2 (Z.of_nat (length L2)) \/ collision.
Proof.
  intros H1 H2 Hn1 Hn2 d. induction d as [|d IH]; [by left|]. intros E.
  destruct (level_up_inj (row L1 d) (row L2 d) (row_wf L1 d H1) (row_wf L2 d H2) E) as [Eq|[Hc|(l & a & Hl & [[E1 E2]|[E2 E1]])]];
    [auto|auto| |].
  - destruct (twin_row L2 d a H2 Hn2 l Hl E2); auto.
  - destruct (twin_row L1 d a H1 Hn1 l Hl E1); auto.
Qed.

Lemma width_le_1 L k : 0 < Z.of_nat (length L) -> width L k = 1 <-> Z.of_nat (length L) <= P k.
Proof.
  intros Hn. pose proof (width_bounds L k Hn). pose proof (P_pos k). split; [intros E; rewrite E in *; lia|].
  intros. assert (1 <= width L k) by nia. assert (width L k - 1 < 1) by nia. lia.
Qed.

(** The depth of the tree. *)
Lemma depth_log2_up L d : 0 < Z.of_nat (length L) -> width L d = 1 -> (forall j, (j < d)%nat -> width L j <> 1) ->
  Z.of_nat d = Z.log2_up (Z.of_nat (length L)).
Proof.
  intros Hn Hd Hj. rewrite width_le_1 in Hd by done. symmetry. destruct d as [|d].
  - change (P 0) with 1 in Hd. by replace (Z.of_nat (length L)) with 1 by lia.
  - specialize (Hj d ltac:(lia)). rewrite width_le_1 in Hj by done. apply Z.log2_up_unique; [lia|].
    rewrite Nat2Z.inj_succ, Z.pred_succ in *. lia.
Qed.

Lemma row_root_width L d root : row L d = [root] -> width L d = 1.
Proof. intros E. by rewrite <- row_length, E. Qed.

(** A branch fixes the leaf it is checked with. *)
Lemma branch_inj b1 : forall b2 h1 h2 idx, length b1 = length b2 -> wf256 h1 -> wf256 h2 -> Forall wf256 b1 -> Forall wf256 b2 ->
  ComputeMerkleRootFromBranch h1 b1 idx = ComputeMerkleRootFromBranch h2 b2 idx -> (h1 = h2 /\ b1 = b2) \/ collision.
Proof.
  induction b1 as [|x b1 IH]; intros [|y b2] h1 h2 idx Hl W1 W2 F1 F2 E; [by left|done|done|].
  rewrite Forall_cons in F1, F2. destruct F1 as [Wx F1], F2 as [Wy F2]. cbn [ComputeMerkleRootFromBranch] in E.
  injection Hl as Hl. destruct (negb (Z.land idx 1 =? 0));
    (destruct (IH b2 _ _ _ Hl (Hash_wf _) (Hash_wf _) F1 F2 E) as [[Eh ->]|Hc]; [|by right]).
  - destruct (hash_pair_inj x h1 y h2 Wx W1 Wy W2 Eh) as [[-> ->]|Hc]; [by left|by right].
  - destruct (hash_pair_inj h1 x h2 y W1 Wx W2 Wy Eh) as [[-> ->]|Hc]; [by left|by right].
Qed.

Lemma ComputeMerkleRoot_spec L : 0 < Z.of_nat (length L) <= 2 ^ 31 ->
  exists root m d, ComputeMerkleRoot L = Ok (root, m) /\ row L d = [root] /\ (d < 32)%nat /\
    (forall j, (j < d)%nat -> width L j <> 1) /\ Z.of_nat d = Z.log2_up (Z.of_nat (length L)) /\
    (m = true <-> twins L (Z.of_nat (length L))).
Proof.
  intros Hn. destruct (MerkleComputation_spec L (u32 (-1)) false) as (root & m & b & d & E & Hrow & Hd & Hj & Hm & _);
    [by vm_compute|done|done|].
  exists root, m, d. unfold ComputeMerkleRoot. rewrite E. split_and!; [done|done|done|done| |done].
  apply depth_log2_up; [lia|by apply (row_root_width L d root)|done].
Qed.
End merkle.

(** C32: for up to 2^31 leaves [ComputeMerkleRoot] terminates without touching an
    unassigned or out-of-range entry of [inner] and returns the root of the tree
    built level by level; it reports a mutation exactly when the tree has two
    equal complete sibling subtrees.  The root of no leaves is zero. *)
Theorem merkle_root_correct (Hash : bytes -> uint256) (L : list uint256) :
  Z.of_nat (length L) <= 2 ^ 31 ->
  match L with
  | [] => ComputeMerkleRoot Hash L = Ok (base_uint_zero WIDTH256, false)
  | _ => exists root m, ComputeMerkleRoot Hash L = Ok (root, m) /\ merkle_root Hash 31 L = Some root /\
           (m = true <-> twins Hash L (Z.of_nat (length L)))
  end.
Proof.
  intros Hn. destruct L as [|h L]; [done|]. set (L' := h :: L) in *.
  destruct (ComputeMerkleRoot_spec Hash L') as (root & m & d & E & Hrow & Hd & Hj & _ & Hm); [subst L'; simpl in *; lia|].
  exists root, m. split_and!; [done| |done]. apply (merkle_root_row Hash L' d root Hrow Hj). lia.
Qed.

(** A hash for the examples, which adds up its input. *)
Definition toy_hash (l : bytes) : uint256 := [foldr Z.add 1 l mod 2 ^ 32; 0; 0; 0; 0; 0; 0; 0].

Lemma toy_hash_wf l : wf256 (toy_hash l).
Proof. pose proof (Z.mod_pos_bound (foldr Z.add 1 l) (2 ^ 32) ltac:(lia)). repeat constructor; unfold in_u; lia. Qed.

Lemma merkle_root_correct_witness :
  let leaf i := [i; 0; 0; 0; 0; 0; 0; 0] in
  ComputeMerkleRoot toy_hash [leaf 1; leaf 2; leaf 3; leaf 3] = Ok (leaf 12, true) /\
  (true = true <-> twins toy_hash [leaf 1; leaf 2; leaf 3; leaf 3] 4).
Proof.
  intros leaf. destruct (merkle_root_correct toy_hash [leaf 1; leaf 2; leaf 3; leaf 3]) as (root & m & E & _ & H); [by vm_compute|].
  vm_compute in E. injection E as <- <-. split; [by vm_compute|exact H].
Defined.

(** The branch of any leaf leads from it to the root, one hash per level;
    and what a branch proves is fixed: two branches of the same length that
    lead to the same root from the same position start from the same leaf,
    or two inputs of the hash collide. *)
Theorem merkle_branch_roundtrip (Hash : bytes -> uint256) (L : list uint256) (pos : Z) :
  Z.of_nat (length L) <= 2 ^ 31 -> 0 <= pos < Z.of_nat (length L) ->
  exists root m branch, ComputeMerkleRoot Hash L = Ok (root, m) /\ ComputeMerkleBranch Hash L pos = Ok branch /\
    Z.of_nat (length branch) = Z.log2_up (Z.of_nat (length L)) /\
    ComputeMerkleRootFromBranch Hash (L !!! Z.to_nat pos) branch pos = root /\
    ((forall x, wf256 (Hash x)) -> Forall wf256 L -> Forall wf256 branch ->
     forall h branch', wf256 h -> Forall wf256 branch' -> length branch' = length branch ->
     ComputeMerkleRootFromBranch Hash h branch' pos = root -> h = L !!! Z.to_nat pos \/ collision Hash).
Proof.
  intros Hn Hpos.
  destruct (ComputeMerkleRoot_spec Hash L) as (root & m & d & E & Hrow & Hd & Hj & Hlog & Hm); [lia|].
  destruct (MerkleComputation_spec Hash L pos true) as (root' & m' & b & d' & E' & Hrow' & Hd' & Hj' & _ & Hb); [lia|lia|lia|].
  assert (d' = d) as ->.
  { apply Nat2Z.inj. rewrite Hlog. apply depth_log2_up; [lia|by apply (row_root_width Hash L d' root')|done]. }
  rewrite Hrow in Hrow'. injection Hrow' as <-. destruct (Hb eq_refl) as [Hlen Hroot].
  exists root, m, b. unfold ComputeMerkleBranch. rewrite E'. split_and!; [done|done|by rewrite Hlen|done|].
  intros HH HL Fb h b' Wh Fb' Hl Er. rewrite <- Hroot in Er.
  assert (wf256 (L !!! Z.to_nat pos)) as Wl.
  { eapply (Forall_lookup_1 wf256); [exact HL|]. apply list_lookup_lookup_total_lt. lia. }
  destruct (branch_inj Hash HH b' b h _ pos Hl Wh Wl Fb' Fb Er) as [[-> _]|Hc]; auto.
Qed.

Lemma merkle_branch_roundtrip_witness :
  let leaf i := [i; 0; 0; 0; 0; 0; 0; 0] in
  ComputeMerkleBranch toy_hash [leaf 1; leaf 2; leaf 3] 2 = Ok [leaf 3; leaf 4] /\
  exists root m branch, ComputeMerkleRoot toy_hash [leaf 1; leaf 2; leaf 3] = Ok (root, m) /\
    ComputeMerkleRootFromBranch toy_hash (leaf 3) branch 2 = root /\
    (forall h branch', wf256 h -> Forall wf256 branch' -> length branch' = length branch ->
     ComputeMerkleRootFromBranch toy_hash h branch' 2 = root -> h = leaf 3 \/ collision toy_hash).
Proof.
  intros leaf.
  destruct (merkle_branch_roundtrip toy_hash [leaf 1; leaf 2; leaf 3] 2) as (root & m & b & E & Eb & _ & Hr & H); [by vm_compute|by vm_compute|].
  split; [by vm_compute|]. exists root, m, b. split_and!; [exact E|exact Hr|]. apply H; [apply toy_hash_wf| |].
  - repeat constructor; unfold in_u; lia.
  - vm_compute in Eb. injection Eb as <-. repeat constructor; unfold in_u; lia.
Defined.

(** The root commits to the leaves.  Two lists that need the same number of
    levels, have the same root and are both reported unmutated are equal, or two
    inputs of the hash collide: duplicating transactions is always noticed. *)
Theorem merkle_binding (Hash : bytes -> uint256) (L1 L2 : list uint256) (root : uint256) :
  (forall x, wf256 (Hash x)) -> Forall wf256 L1 -> Forall wf256 L2 ->
  0 < Z.of_nat (length L1) <= 2 ^ 31 -> 0 < Z.of_nat (length L2) <= 2 ^ 31 ->
  Z.log2_up (Z.of_nat (length L1)) = Z.log2_up (Z.of_nat (length L2)) ->
  ComputeMerkleRoot Hash L1 = Ok (root, false) -> ComputeMerkleRoot Hash L2 = Ok (root, false) ->
  L1 = L2 \/ collision Hash.
Proof.
  intros HH F1 F2 Hn1 Hn2 Hlog E1 E2.
  destruct (ComputeMerkleRoot_spec Hash L1 Hn1) as (r1 & m1 & d1 & E1' & Hrow1 & _ & _ & Hd1 & Hm1).
  destruct (ComputeMerkleRoot_spec Hash L2 Hn2) as (r2 & m2 & d2 & E2' & Hrow2 & _ & _ & Hd2 & Hm2).
  rewrite E1 in E1'. injection E1' as <- <-. rewrite E2 in E2'. injection E2' as <- <-.
  assert (d2 = d1) as -> by lia.
  destruct (rows_equal Hash HH L1 L2 F1 F2 ltac:(lia) ltac:(lia) d1) as [?|[H|[H|?]]]; [congruence|auto| | |auto].
  - by apply Hm1 in H.
  - by apply Hm2 in H.
Qed.

Lemma merkle_binding_witness :
  let L := [[1; 0; 0; 0; 0; 0; 0; 0]; [2; 0; 0; 0; 0; 0; 0; 0]; [3; 0; 0; 0; 0; 0; 0; 0]] in
  ComputeMerkleRoot toy_hash L = Ok ([12; 0; 0; 0; 0; 0; 0; 0], false) /\ (L = L \/ collision toy_hash).
Proof.
  intros L. assert (Forall wf256 L) as F by (repeat constructor; unfold in_u; lia).
  assert (ComputeMerkleRoot toy_hash L = Ok ([12; 0; 0; 0; 0; 0; 0; 0], false)) as E by (by vm_compute).
  split; [exact E|].
  apply (merkle_binding toy_hash L L [12; 0; 0; 0; 0; 0; 0; 0] toy_hash_wf F F); [by vm_compute|by vm_compute|done|exact E|exact E].
Defined.
