(* ===== verification/Block.v ===== *)
(** Blocks: [CBlock] of src/sige/src/primitives/block.h and block.cpp, and the
    Merkle roots of a block of src/sige/src/consensus/merkle.cpp.

    The transactions of a block are shared pointers to constant objects, so the
    model holds the objects; [ToString] is not modelled. *)

From S2P Require Import Prelude Bytes BaseUint UintBytes Uint256 Serialize Codec Header Opcode Prevector ScriptNum Script Amount Transaction Merkle.

#[local] Ltac Zify.zify_post_hook ::= Z.to_euclidean_division_equations.

Record CBlock := mk_block {
  header :> CBlockHeader;
  vtx : list CTransaction;
  fChecked : bool; (* memory only *)
}.

Module Block.
(** [CBlock::SetNull], which is also the constructor. *)
Definition SetNull : CBlock := mk_block Header.SetNull [] false.
Definition of_header (h : CBlockHeader) : CBlock := mk_block h [] false.
Definition GetBlockHeader (b : CBlock) : CBlockHeader :=
  {| Header.nVersion := Header.nVersion (header b); hashPrevBlock := hashPrevBlock b; hashMerkleRoot := hashMerkleRoot b;
     nTime := nTime b; nBits := nBits b; nNonce := nNonce b |}.

Section block.
(** What the vector readers divide their blocks by, and the hash. *)
Context (sizeof_CTxIn sizeof_CTxOut sizeof_vector sizeof_ref : Z) (Hash : bytes -> uint256).

Definition c_vtx (version : Z) : codec (list CTransaction) :=
  c_vector (c_shared_ptr (c_CTransaction sizeof_CTxIn sizeof_CTxOut sizeof_vector Hash version)) sizeof_ref.

(** [SerializationOp], into a new object. *)
Definition c_block (version : Z) : codec CBlock :=
  c_map (c_pair Header.c_header (c_vtx version)) (fun '(h, v) => mk_block h v false) (fun b => (header b, vtx b)).

(** The size without witnesses counts three times. *)
Definition GetBlockWeight (b : CBlock) : Z :=
  i64 (u64 (GetSerializeSize (c_block (Z.lor PROTOCOL_VERSION SERIALIZE_TRANSACTION_NO_WITNESS)) b *
            (WITNESS_SCALE_FACTOR - 1) +
            GetSerializeSize (c_block PROTOCOL_VERSION) b)).

Definition BlockMerkleRoot (b : CBlock) : res (uint256 * bool) :=
  ComputeMerkleRoot Hash (map GetHash (vtx b)).

(** [leaves[0].SetNull()] is out of range in a block without transactions. *)
Definition BlockWitnessMerkleRoot (b : CBlock) : res (uint256 * bool) :=
  match vtx b with
  | [] => Undef
  | _ :: vtx => ComputeMerkleRoot Hash
      (BaseUint.SetNull WIDTH256 (base_uint_zero WIDTH256) ::
       map (GetWitnessHash sizeof_CTxIn sizeof_CTxOut sizeof_vector Hash) vtx)
  end.

Definition BlockMerkleBranch (b : CBlock) (position : Z) : res (list uint256) :=
  ComputeMerkleBranch Hash (map GetHash (vtx b)) position.

(** ** Laws *)

Context (Hin : 0 < sizeof_CTxIn <= 5000000) (Hout : 0 < sizeof_CTxOut <= 5000000)
  (Hvec : 0 < sizeof_vector <= 5000000) (Href : 0 < sizeof_ref <= 5000000).

(** A transaction object with the hash its constructors compute. *)
Definition hashed (t : CTransaction) : Prop :=
  t = make_transaction sizeof_CTxIn sizeof_CTxOut sizeof_vector Hash (tx t).

(** The transactions a stream of the given version carries as they are. *)
Definition carried (version : Z) (t : CTransaction) : Prop :=
  wf_tx t /\ hashed t /\ if allow_witness version then vin t = [] -> vout t = [] else HasWitness t = false.

Lemma c_CTransaction_lawful version :
  Lawful (c_CTransaction sizeof_CTxIn sizeof_CTxOut sizeof_vector Hash version) (carried version).
Proof.
  split; unfold c_CTransaction, c_map; cbn [Serialize SerSize Unserialize c_transaction].
  - intros t (Hwf & _ & _). by apply transaction_size.
  - intros S H1 H2 [t h] (Hwf & Hh & Ha). injection Hh as ->. cbn [tx] in *.
    eapply reads_bind_ret; [apply transaction_reads; [done..|by intros E; rewrite E in Ha]|].
    destruct (allow_witness version); [apply reads_ret|]. rewrite (no_witness_strip _ Ha). apply reads_ret.
Qed.

Definition wf_block (version : Z) (b : CBlock) : Prop :=
  Header.wf_header (header b) /\ Z.of_nat (length (vtx b)) <= MAX_SIZE /\ Forall (carried version) (vtx b).

Lemma c_block_lawful version : Lawful (c_block version) (fun b => wf_block version b /\ fChecked b = false).
Proof.
  pose proof (c_CTransaction_lawful version). eapply lawful_weaken; [apply c_map_lawful, c_pair_lawful; [apply _|]|].
  - apply c_vector_lawful; [apply _|done].
  - intros [h v c] [(Hh & Hl & Hv) Hc]. simpl in *. subst c. by split_and!.
Qed.

(** A block as a stream without witnesses carries it. *)
Definition strip_tx (t : CTransaction) : CTransaction :=
  make_transaction sizeof_CTxIn sizeof_CTxOut sizeof_vector Hash (strip (tx t)).
Definition strip_block (b : CBlock) : CBlock := mk_block (header b) (map strip_tx (vtx b)) (fChecked b).

Lemma serialize_strip_vtx version v : allow_witness version = false ->
  Serialize (c_vtx version) (map strip_tx v) = Serialize (c_vtx version) v.
Proof.
  intros Ha. unfold c_vtx. cbn [Serialize c_vector]. rewrite length_map, map_map. do 2 f_equal.
  apply map_ext. intros t. by apply serialize_strip.
Qed.

Lemma strip_hash t : hashed t -> hash (strip_tx t) = hash t.
Proof.
  destruct t as [t h]. intros E. injection E as ->. unfold strip_tx. cbn [tx hash make_transaction].
  unfold ComputeHash. f_equal. by apply serialize_strip.
Qed.

Lemma strip_carried version (t : CTransaction) : allow_witness version = false -> wf_tx t -> carried version (strip_tx t).
Proof.
  intros Ha Hwf. split_and!; [by apply strip_wf|done|]. rewrite Ha. apply strip_no_witness.
Qed.

Lemma strip_merkle_root b : Forall hashed (vtx b) -> BlockMerkleRoot (strip_block b) = BlockMerkleRoot b.
Proof.
  intros H. unfold BlockMerkleRoot. f_equal. cbn [vtx strip_block]. rewrite map_map.
  apply map_ext_in. intros t Ht. apply strip_hash. rewrite Forall_forall in H. by apply H, list_elem_of_In.
Qed.

(** The bytes the witnesses of a block add. *)
Definition block_witness_bytes (v : list CTransaction) : Z :=
  foldr (fun t n => witness_bytes sizeof_vector (tx t) + n) 0 v.

Lemma vtx_size version v : Forall (fun t : CTransaction => wf_tx t) v ->
  SerSize (c_vtx version) v =
  SerSize (c_vtx SERIALIZE_TRANSACTION_NO_WITNESS) v + (if allow_witness version then block_witness_bytes v else 0).
Proof.
  unfold c_vtx. cbn [SerSize c_vector c_shared_ptr c_map c_CTransaction c_transaction].
  enough (Forall (fun t : CTransaction => wf_tx t) v ->
    foldr (fun t n => SizeTransaction sizeof_CTxIn sizeof_CTxOut sizeof_vector version (tx t) + n) 0 v =
    foldr (fun t n => SizeTransaction sizeof_CTxIn sizeof_CTxOut sizeof_vector SERIALIZE_TRANSACTION_NO_WITNESS (tx t) + n) 0 v +
    (if allow_witness version then block_witness_bytes v else 0)) as H by (intros Hv; rewrite (H Hv); lia).
  unfold block_witness_bytes. induction 1 as [|t v Ht Hv IH]; [by case_bool|]. cbn [foldr].
  destruct (transaction_size _ _ _ Hin Hout Hvec version (tx t) Ht) as [_ ->]. rewrite IH. case_bool; lia.
Qed.

Lemma vtx_length version v : Forall (fun t : CTransaction => wf_tx t) v ->
  SerSize (c_vtx version) v = Z.of_nat (length (Serialize (c_vtx version) v)).
Proof.
  intros H. unfold c_vtx. cbn [Serialize SerSize c_vector]. rewrite length_app, Nat2Z.inj_add, length_WriteCompactSize. f_equal.
  induction H as [|t v Ht Hv IH]; [done|]. cbn [foldr map].
  change (mjoin (?x :: ?l)) with (x ++ mjoin l). rewrite length_app, IH.
  cbn [Serialize SerSize c_shared_ptr c_map c_CTransaction c_transaction].
  destruct (transaction_size _ _ _ Hin Hout Hvec version (tx t) Ht) as [-> _]. lia.
Qed.

Lemma block_length version b : Header.wf_header (header b) -> Forall (fun t : CTransaction => wf_tx t) (vtx b) ->
  GetSerializeSize (c_block version) b = Z.of_nat (length (Serialize (c_block version) b)).
Proof.
  intros Hh Hv. change (GetSerializeSize (c_block version) b) with
    (SerSize Header.c_header (header b) + SerSize (c_vtx version) (vtx b)).
  unfold c_block. cbn [Serialize c_map c_pair]. by rewrite length_app, vtx_length, (law_size (header b)), Nat2Z.inj_add by done.
Qed.

Lemma block_size version b : Forall (fun t : CTransaction => wf_tx t) (vtx b) ->
  GetSerializeSize (c_block version) b = GetSerializeSize (c_block SERIALIZE_TRANSACTION_NO_WITNESS) b +
    (if allow_witness version then block_witness_bytes (vtx b) else 0).
Proof.
  intros Hv.
  change (SerSize Header.c_header (header b) + SerSize (c_vtx version) (vtx b) =
    SerSize Header.c_header (header b) + SerSize (c_vtx SERIALIZE_TRANSACTION_NO_WITNESS) (vtx b) +
    (if allow_witness version then block_witness_bytes (vtx b) else 0)).
  rewrite (vtx_size version) by done. lia.
Qed.

Lemma block_witness_nonneg v : 0 <= block_witness_bytes v.
Proof.
  unfold block_witness_bytes. induction v as [|t v IH]; [done|]. cbn [foldr].
  assert (0 <= witness_bytes sizeof_vector (tx t)) by (unfold witness_bytes; case_bool; lia). lia.
Qed.
End block.
End Block.

(** ** Properties *)

(** A block reads back as it was written, witnesses included; a reader
    without witnesses gets the same block without them, with the same
    transaction ids and so the same Merkle root; both sizes are counted exactly
    and the weight is four times the size without witnesses plus the bytes
    the witnesses add. *)
Theorem block_roundtrip (s1 s2 s3 s4 : Z) (Hash : bytes -> uint256) (b : CBlock) S `{!Stream S, !StreamLaws S} :
  0 < s1 <= 5000000 -> 0 < s2 <= 5000000 -> 0 < s3 <= 5000000 -> 0 < s4 <= 5000000 ->
  Header.wf_header (header b) -> Z.of_nat (length (vtx b)) <= MAX_SIZE -> fChecked b = false ->
  Forall (fun t : CTransaction => wf_tx t /\ Block.hashed s1 s2 s3 Hash t /\ (vin t = [] -> vout t = [])) (vtx b) ->
  let full := Block.c_block s1 s2 s3 s4 Hash PROTOCOL_VERSION in
  let base := Block.c_block s1 s2 s3 s4 Hash (Z.lor PROTOCOL_VERSION SERIALIZE_TRANSACTION_NO_WITNESS) in
  reads (Unserialize full S) (Serialize full b) b /\
  reads (Unserialize base S) (Serialize base b) (Block.strip_block s1 s2 s3 Hash b) /\
  Block.BlockMerkleRoot Hash (Block.strip_block s1 s2 s3 Hash b) = Block.BlockMerkleRoot Hash b /\
  GetSerializeSize full b = Z.of_nat (length (Serialize full b)) /\
  GetSerializeSize base b = Z.of_nat (length (Serialize base b)) /\
  (4 * Z.of_nat (length (Serialize base b)) + Block.block_witness_bytes s3 (vtx b) < 2 ^ 63 ->
   Block.GetBlockWeight s1 s2 s3 s4 Hash b =
     4 * Z.of_nat (length (Serialize base b)) + Block.block_witness_bytes s3 (vtx b)).
Proof.
  intros H1 H2 H3 H4 Hh Hl Hc Hv full base. set (NW := Z.lor PROTOCOL_VERSION SERIALIZE_TRANSACTION_NO_WITNESS).
  pose proof (Block.c_block_lawful s1 s2 s3 s4 Hash H1 H2 H3 H4 PROTOCOL_VERSION) as Lf.
  pose proof (Block.c_block_lawful s1 s2 s3 s4 Hash H1 H2 H3 H4 NW) as Lb.
  assert (Forall (fun t : CTransaction => wf_tx t) (vtx b)) as Hwf by (eapply Forall_impl; [exact Hv|by intros t (? & _)]).
  assert (Block.wf_block s1 s2 s3 Hash PROTOCOL_VERSION b) as Wf by done.
  set (b' := Block.strip_block s1 s2 s3 Hash b).
  assert (Block.wf_block s1 s2 s3 Hash NW b' /\ fChecked b' = false) as Wb.
  { split; [|done]. split; [exact Hh|]. split; [by cbn; rewrite length_map|]. apply Forall_map.
    eapply Forall_impl; [exact Hwf|]. intros t Ht. by apply Block.strip_carried. }
  assert (Serialize base b' = Serialize base b) as Es.
  { subst base. unfold Block.c_block. cbn [Serialize c_map c_pair b' Block.strip_block header vtx]. f_equal.
    by apply Block.serialize_strip_vtx. }
  split_and!.
  - by apply (@law_reads _ _ _ Lf).
  - rewrite <- Es. by apply (@law_reads _ _ _ Lb).
  - apply Block.strip_merkle_root. eapply Forall_impl; [exact Hv|]. by intros t (_ & ? & _).
  - by apply Block.block_length.
  - by apply Block.block_length.
  - intros Hb. pose proof (Nat2Z.is_nonneg (length (Serialize base b))) as Hpos.
    pose proof (Block.block_length s1 s2 s3 s4 Hash H1 H2 H3 NW b Hh Hwf) as E1.
    change (Block.c_block s1 s2 s3 s4 Hash NW) with base in E1. rewrite <- E1 in *.
    pose proof (Block.block_size s1 s2 s3 s4 Hash H1 H2 H3 PROTOCOL_VERSION b Hwf) as E2.
    pose proof (Block.block_size s1 s2 s3 s4 Hash H1 H2 H3 NW b Hwf) as E3.
    change (allow_witness NW) with false in E3. change (allow_witness PROTOCOL_VERSION) with true in E2.
    pose proof (Block.block_witness_nonneg s3 (vtx b)). unfold Block.GetBlockWeight, WITNESS_SCALE_FACTOR. fold NW. fold base.
    change (Block.c_block s1 s2 s3 s4 Hash NW) with base in *. rewrite Z.add_0_r in E3. rewrite E2, <- E3.
    rewrite wrap_small by (unfold in_u; lia). rewrite swrap_small by (unfold in_s; lia). lia.
Qed.

Definition demo_block : CBlock :=
  mk_block Header.SetNull [make_transaction 100 40 24 toy_hash demo_tx; make_transaction 100 40 24 toy_hash (strip demo_tx)] false.

Lemma block_roundtrip_witness :
  let base := Block.c_block 100 40 24 16 toy_hash (Z.lor PROTOCOL_VERSION SERIALIZE_TRANSACTION_NO_WITNESS) in
  reads (S := CDataStream.t) (Unserialize base CDataStream.t) (Serialize base demo_block)
    (Block.strip_block 100 40 24 toy_hash demo_block) /\
  Block.GetBlockWeight 100 40 24 16 toy_hash demo_block = 4 * 227 + 7.
Proof.
  destruct (block_roundtrip 100 40 24 16 toy_hash demo_block CDataStream.t) as (_ & H & _ & _ & _ & Hw);
    [lia|lia|lia|lia| |done|done| |split; [exact H|exact (Hw eq_refl)]].
  - unfold Header.wf_header, in_s, in_u, wf. split_and!; try (cbn; lia); repeat constructor; vm_compute; congruence.
  - repeat constructor; unfold CTxIn.wf_txin, COutPoint.wf_outpoint, CTxOut.wf_txout, blob_ok, in_s, in_u, wf;
      try discriminate; repeat constructor; vm_compute; congruence.
Defined.
