(* ===== verification/PubKey.v ===== *)
(** Public keys: [CPubKey] of src/sige/src/pubkey.h and pubkey.cpp, and the lax
    DER parser of pubkeyutil.cpp.

    The curve library secp256k1 is a parameter: what it makes of a serialised
    key or signature.  A key object is the 65 bytes of its array, whatever they
    were before the object was built. *)

From S2P Require Import Prelude Bytes BaseUint UintBytes Uint256 Serialize Codec Transaction.

(** What the code calls of secp256k1. *)
Record secp256k1 := {
  ec_point : Type;      (* secp256k1_pubkey *)
  ec_signature : Type;  (* secp256k1_ecdsa_signature *)
  ec_pubkey_parse : bytes -> option ec_point;
  ec_pubkey_serialize : ec_point -> bool -> bytes; (* [true]: compressed *)
  ec_pubkey_tweak_add : ec_point -> bytes -> option ec_point;
  ecdsa_signature_parse_compact : bytes -> option ec_signature;
  ecdsa_signature_normalize : ec_signature -> bool * ec_signature;
  ecdsa_verify : ec_signature -> uint256 -> ec_point -> bool;
  ecdsa_recover_compact : bytes -> Z -> uint256 -> option (option ec_point);
}.

Module CPubKey.
Record t := mk { m_vch : bytes }.

Definition GetLen (chHeader : Z) : Z :=
  if (chHeader =? 2) || (chHeader =? 3) then 33
  else if (chHeader =? 4) || (chHeader =? 6) || (chHeader =? 7) then 65
  else 0.

Definition at_ (k : t) (pos : Z) : Z := (m_vch k).[Z.to_nat pos].

Definition Invalidate (k : t) : t := mk ((m_vch k).[0%nat := 255]).

(** [Set(pbegin, pend)] over the bytes [src]. *)
Definition Set_ (src : bytes) (k : t) : t :=
  let len := match src with [] => 0 | h :: _ => GetLen h end in
  if negb (len =? 0) && (len =? Z.of_nat (length src))
  then mk (mem_write (m_vch k) src)
  else Invalidate k.

Definition make (mem : bytes) : t := Invalidate (mk mem).
Definition of_range (mem src : bytes) : t := Set_ src (mk mem).
Definition of_vch (mem _vch : bytes) : t := Set_ _vch (mk mem).

Definition size (k : t) : Z := GetLen (at_ k 0).
(** [begin()] to [end()] *)
Definition range (k : t) : bytes := take (Z.to_nat (size k)) (m_vch k).

Definition op_eq (a b : t) : bool :=
  (at_ a 0 =? at_ b 0) && (memcmp (take (Z.to_nat (size a)) (m_vch a)) (take (Z.to_nat (size a)) (m_vch b)) =? 0).
Definition op_ne (a b : t) : bool := negb (op_eq a b).
Definition op_lt (a b : t) : bool :=
  (at_ a 0 <? at_ b 0) ||
  ((at_ a 0 =? at_ b 0) && (memcmp (take (Z.to_nat (size a)) (m_vch a)) (take (Z.to_nat (size a)) (m_vch b)) <? 0)).

Definition Serialize (k : t) : bytes := WriteCompactSize (size k) ++ range k.

Fixpoint skip_loop (S : Type) `{!Stream S} (len : nat) : rd S unit :=
  match len with
  | O => rd_ret tt
  | Datatypes.S len => let! _ := s_read 1 in skip_loop S len
  end.

Definition Unserialize (S : Type) `{!Stream S} (k : t) : rd S t :=
  let! len := ReadCompactSize in
  let len := u32 len in
  if len <=? 65 then
    let! b := s_read (Z.to_nat len) in
    rd_ret (mk (mem_write (m_vch k) b))
  else
    let! _ := skip_loop S (Z.to_nat len) in
    rd_ret (Invalidate k).

Definition IsValid (k : t) : bool := 0 <? size k.
Definition IsCompressed (k : t) : bool := size k =? 33.

Section hashes.
Context (Hash160 : bytes -> limbs) (Hash : bytes -> uint256).
Definition GetID (k : t) : limbs := Hash160 (range k).
Definition GetPublicKeyHash (k : t) : uint256 := Hash (range k).
End hashes.

(** The library reads [size()] bytes of the key. *)
Section curve.
Context (ec : secp256k1).

Definition IsFullyValid (k : t) : bool :=
  if negb (IsValid k) then false
  else match ec_pubkey_parse ec (range k) with Some _ => true | None => false end.

Definition Decompress (k : t) : bool * t :=
  if negb (IsValid k) then (false, k)
  else match ec_pubkey_parse ec (range k) with
       | None => (false, k)
       | Some pubkey => (true, Set_ (ec_pubkey_serialize ec pubkey false) k)
       end.

Definition RecoverCompact (hash : uint256) (vchSig : bytes) (k : t) : res (bool * t) :=
  if negb (length vchSig =? 65)%nat then Ok (false, k)
  else
    let recid := Z.land (vchSig.[0%nat] - 27) 3 in
    let fComp := negb (Z.land (vchSig.[0%nat] - 27) 4 =? 0) in
    match ecdsa_recover_compact ec (drop 1 vchSig) recid hash with
    | Some (Some pubkey) => Ok (true, Set_ (ec_pubkey_serialize ec pubkey fComp) k)
    | _ => Ok (false, k)
    end.

(** [BIP32Hash] of hash.cpp is a parameter; [nChild] is an [unsigned int]. *)
Definition Derive (BIP32Hash : uint256 -> Z -> Z -> bytes -> bytes) (nChild : Z) (cc : uint256) (k child : t) :
    res (bool * t * uint256) :=
  if negb (IsValid k) then AssertFail
  else if negb (Z.shiftr nChild 31 =? 0) then AssertFail
  else if negb (size k =? 33) then AssertFail
  else
    let out := BIP32Hash cc nChild (at_ k 0) (drop 1 (range k)) in
    let ccChild := limbs_of_bytes WIDTH256 (drop 32 out) in
    match ec_pubkey_parse ec (range k) with
    | None => Ok (false, child, ccChild)
    | Some pubkey =>
        match ec_pubkey_tweak_add ec pubkey (take 32 out) with
        | None => Ok (false, child, ccChild)
        | Some pubkey => Ok (true, Set_ (ec_pubkey_serialize ec pubkey true) child, ccChild)
        end
    end.

(** ** The lax DER parser *)

Definition in_at (input : bytes) (pos : Z) : res Z := res_of_option (input !! Z.to_nat pos).

(** [while (n > 0 && input[pos] == 0) { n--; pos++; }] *)
Fixpoint zeros_loop (fuel : nat) (input : bytes) (pos n : Z) : res (Z * Z) :=
  if n <=? 0 then Ok (pos, n)
  else
    let? b := in_at input pos in
    if b =? 0 then
      match fuel with
      | O => OutOfFuel
      | S fuel => zeros_loop fuel input (pos + 1) (n - 1)
      end
    else Ok (pos, n).

(** [while (lenbyte > 0) { len = (len << 8) + input[pos]; pos++; lenbyte--; }] *)
Fixpoint length_loop (lenbyte : nat) (input : bytes) (pos len : Z) : res (Z * Z) :=
  match lenbyte with
  | O => Ok (pos, len)
  | S lenbyte =>
      let? b := in_at input pos in
      length_loop lenbyte input (pos + 1) (u64 (u64 (Z.shiftl len 8) + b))
  end.

(** The tag and the length of an integer, and where its value starts and ends;
    [None] is [return 0].  The code has this twice, for R and for S. *)
Definition der_integer (input : bytes) (pos : Z) : res (option (Z * Z * Z)) :=
  let inputlen := Z.of_nat (length input) in
  if pos =? inputlen then Ok None
  else
    let? tag := in_at input pos in
    if negb (tag =? 2) then Ok None
    else
      let pos := pos + 1 in
      if pos =? inputlen then Ok None
      else
        let? lenbyte := in_at input pos in
        let pos := pos + 1 in
        let? header :=
          if negb (Z.land lenbyte 0x80 =? 0) then
            let lenbyte := lenbyte - 0x80 in
            if inputlen <? pos + lenbyte then Ok None
            else
              let? (pos, lenbyte) := zeros_loop (length input) input pos lenbyte in
              if 8 <=? lenbyte then Ok None
              else
                let? (pos, len) := length_loop (Z.to_nat lenbyte) input pos 0 in
                Ok (Some (pos, len))
          else Ok (Some (pos, lenbyte)) in
        match header with
        | None => Ok None
        | Some (pos, len) => if inputlen - pos <? len then Ok None else Ok (Some (pos, len, pos + len))
        end.

(** Leading zeroes are skipped; [None] when the value is longer than 32 bytes. *)
Definition copy_value (input : bytes) (pos len off : Z) (tmpsig : bytes) : res (option bytes) :=
  let? (pos, len) := zeros_loop (length input) input pos len in
  if 32 <? len then Ok None
  else
    let value := take (Z.to_nat len) (drop (Z.to_nat pos) input) in
    let at_ := Z.to_nat (off - len) in
    Ok (Some (take at_ tmpsig ++ value ++ drop (at_ + length value) tmpsig)).

(** The signature object, and whether the input was accepted.  [None] for the
    object is a parse of 64 zeroes that fails. *)
Definition ecdsa_signature_parse_der_lax (input : bytes) : res (bool * option (ec_signature ec)) :=
  let inputlen := Z.of_nat (length input) in
  let tmpsig := replicate 64 0 in
  let sig := ecdsa_signature_parse_compact ec tmpsig in
  if 0 =? inputlen then Ok (false, sig)
  else
    let? tag := in_at input 0 in
    if negb (tag =? 0x30) then Ok (false, sig)
    else if 1 =? inputlen then Ok (false, sig)
    else
      let? lenbyte := in_at input 1 in
      let pos := if negb (Z.land lenbyte 0x80 =? 0) then 2 + (lenbyte - 0x80) else 2 in
      if negb (Z.land lenbyte 0x80 =? 0) && (inputlen <? pos) then Ok (false, sig)
      else
        let? r := der_integer input pos in
        match r with
        | None => Ok (false, sig)
        | Some (rpos, rlen, pos) =>
            let? s := der_integer input pos in
            match s with
            | None => Ok (false, sig)
            | Some (spos, slen, _) =>
                let? tmpr := copy_value input rpos rlen 32 tmpsig in
                let? tmps := copy_value input spos slen 64 (default tmpsig tmpr) in
                match tmpr, tmps with
                | Some _, Some tmpsig' =>
                    match ecdsa_signature_parse_compact ec tmpsig' with
                    | Some sig' => Ok (true, Some sig')
                    | None => Ok (true, sig)
                    end
                | _, _ => Ok (true, sig)
                end
            end
        end.

Definition Verify (hash : uint256) (vchSig : bytes) (k : t) : res bool :=
  if negb (IsValid k) then Ok false
  else
    match ec_pubkey_parse ec (range k) with
    | None => Ok false
    | Some pubkey =>
        if (length vchSig =? 0)%nat then Ok false
        else
          let? (ok, sig) := ecdsa_signature_parse_der_lax vchSig in
          if negb ok then Ok false
          else
            match sig with
            | Some sig => Ok (ecdsa_verify ec (snd (ecdsa_signature_normalize ec sig)) hash pubkey)
            | None => Undef
            end
    end.

(** extpubkey.cpp; an S value that needs no normalisation. *)
Definition CheckLowS (vchSig : bytes) : res bool :=
  let? (ok, sig) := ecdsa_signature_parse_der_lax vchSig in
  if negb ok then Ok false
  else
    match sig with
    | Some sig => Ok (negb (fst (ecdsa_signature_normalize ec sig)))
    | None => Undef
    end.
End curve.
End CPubKey.

(** ** The parser stays inside its input *)

Lemma high_bit b : 0 <= b < 256 -> (Z.land b 0x80 =? 0) = (b <? 128).
Proof.
  intros Hb. assert (In b (seqZ 0 256)) as Hin by (apply list_elem_of_In, elem_of_seqZ; lia).
  assert (forallb (fun b => Bool.eqb (Z.land b 128 =? 0) (b <? 128)) (seqZ 0 256) = true) as Ht by (vm_compute; reflexivity).
  rewrite forallb_forall in Ht. by apply Bool.eqb_prop, Ht.
Qed.

Section der.
Context (input : bytes) (Hin : byte_list input).
#[local] Abbreviation inputlen := (Z.of_nat (length input)).

Lemma in_at_ok pos : 0 <= pos < inputlen -> exists b, CPubKey.in_at input pos = Ok b /\ 0 <= b < 256.
Proof.
  intros H. unfold CPubKey.in_at. destruct (lookup_lt_is_Some_2 input (Z.to_nat pos)) as [b E]; [lia|].
  rewrite E. exists b. split; [done|]. by apply (Forall_lookup_1 _ _ _ _ Hin) in E.
Qed.

Lemma zeros_loop_ok fuel : forall pos n, 0 <= pos -> 0 <= n <= Z.of_nat fuel -> pos + n <= inputlen ->
  exists k, CPubKey.zeros_loop fuel input pos n = Ok (pos + k, n - k) /\ 0 <= k <= n.
Proof.
  induction fuel as [|fuel IH]; intros pos n Hp Hn Hl; cbn [CPubKey.zeros_loop].
  - exists 0. replace n with 0 by lia. split; [do 2 f_equal; lia|lia].
  - destruct (Z.leb_spec n 0); [exists 0; split; [do 2 f_equal; lia|lia]|].
    destruct (in_at_ok pos) as (b & -> & _); [lia|]. cbn [res_bind]. destruct (b =? 0).
    + destruct (IH (pos + 1) (n - 1)) as (k & -> & Hk); [lia..|]. exists (k + 1). split; [do 2 f_equal; lia|lia].
    + exists 0. split; [do 2 f_equal; lia|lia].
Qed.

Lemma length_loop_ok n : forall pos len, 0 <= pos -> pos + Z.of_nat n <= inputlen -> 0 <= len ->
  exists len', CPubKey.length_loop n input pos len = Ok (pos + Z.of_nat n, len') /\ 0 <= len'.
Proof.
  induction n as [|n IH]; intros pos len Hp Hn Hl; cbn [CPubKey.length_loop].
  - exists len. split; [do 2 f_equal; lia|done].
  - destruct (in_at_ok pos) as (b & -> & _); [lia|]. cbn [res_bind].
    destruct (IH (pos + 1) (u64 (u64 (Z.shiftl len 8) + b))) as (len' & -> & H); [lia|lia|apply wrap_range; lia|].
    exists len'. split; [do 2 f_equal; lia|done].
Qed.

Lemma der_integer_ok pos : 0 <= pos <= inputlen ->
  exists r, CPubKey.der_integer input pos = Ok r /\
    match r with None => True | Some (p, l, e) => 0 <= p /\ 0 <= l /\ e = p + l /\ e <= inputlen end.
Proof.
  intros Hp. unfold CPubKey.der_integer. destruct (Z.eqb_spec pos inputlen); [by exists None|].
  destruct (in_at_ok pos) as (tag & -> & _); [lia|]. cbn [res_bind]. destruct (negb (tag =? 2)); [by exists None|].
  destruct (Z.eqb_spec (pos + 1) inputlen); [by exists None|].
  destruct (in_at_ok (pos + 1)) as (b & -> & Hb); [lia|]. cbn [res_bind].
  assert (forall r, match r with None => True | Some (p, l) => 0 <= p <= inputlen /\ 0 <= l end ->
    exists r', match r with None => Ok None
      | Some (p, l) => if inputlen - p <? l then Ok None else Ok (Some (p, l, p + l)) end = Ok r' /\
      match r' with None => True | Some (p, l, e) => 0 <= p /\ 0 <= l /\ e = p + l /\ e <= inputlen end) as Hend.
  { intros [[p l]|] H; [|by exists None]. destruct (Z.ltb_spec (inputlen - p) l); eexists; split; [done|done|done|cbn; lia]. }
  rewrite high_bit by done. destruct (Z.ltb_spec b 128); cbn [negb].
  - cbn [res_bind]. apply (Hend (Some (pos + 1 + 1, b))). lia.
  - destruct (Z.ltb_spec inputlen (pos + 1 + 1 + (b - 128))); [apply (Hend None); done|].
    destruct (zeros_loop_ok (length input) (pos + 1 + 1) (b - 128)) as (k & -> & Hk); [lia..|]. cbn [res_bind].
    destruct (Z.leb_spec 8 (b - 128 - k)); [apply (Hend None); done|].
    destruct (length_loop_ok (Z.to_nat (b - 128 - k)) (pos + 1 + 1 + k) 0) as (len & -> & Hlen); [lia..|].
    cbn [res_bind]. apply (Hend (Some (pos + 1 + 1 + k + Z.of_nat (Z.to_nat (b - 128 - k)), len))). lia.
Qed.

Lemma copy_value_ok pos len off tmpsig : 0 <= pos -> 0 <= len -> pos + len <= inputlen ->
  exists r, CPubKey.copy_value input pos len off tmpsig = Ok r.
Proof.
  intros. unfold CPubKey.copy_value. destruct (zeros_loop_ok (length input) pos len) as (k & -> & Hk); [lia..|].
  cbn [res_bind]. case_bool; by eexists.
Qed.
End der.

(** ** What the parser reads *)

(** The value bytes without their leading zeroes. *)
Fixpoint strip_zeros (v : bytes) : bytes :=
  match v with
  | b :: v' => if b =? 0 then strip_zeros v' else v
  | [] => []
  end.

Definition pad32 (v : bytes) : bytes := replicate (32 - length v) 0 ++ v.

(** The encoding the parser is written for, with values of up to 127 bytes. *)
Definition der_sig (r s rest : bytes) : bytes :=
  [0x30; Z.of_nat (length r + length s + 4)] ++ [2; Z.of_nat (length r)] ++ r ++ [2; Z.of_nat (length s)] ++ s ++ rest.

Lemma length_strip_zeros v : (length (strip_zeros v) <= length v)%nat.
Proof. induction v as [|b v IH]; [done|]. cbn [strip_zeros length]. case_bool; cbn [length]; lia. Qed.

Lemma strip_zeros_eq v : replicate (length v - length (strip_zeros v)) 0 ++ strip_zeros v = v.
Proof.
  induction v as [|b v IH]; [done|]. cbn [strip_zeros]. case_bool; bool_hyps; subst.
  - pose proof (length_strip_zeros v). cbn [length]. replace (S (length v) - length (strip_zeros v))%nat
      with (S (length v - length (strip_zeros v))) by lia. cbn [replicate app]. by rewrite IH.
  - by rewrite Nat.sub_diag.
Qed.

Lemma in_at_mid a b c : CPubKey.in_at (a ++ b :: c) (Z.of_nat (length a)) = Ok b.
Proof. unfold CPubKey.in_at. by rewrite Nat2Z.id, lookup_app_r, Nat.sub_diag by lia. Qed.

Lemma zeros_loop_strip v : forall fuel a c, (length v <= fuel)%nat ->
  CPubKey.zeros_loop fuel (a ++ v ++ c) (Z.of_nat (length a)) (Z.of_nat (length v)) =
  Ok (Z.of_nat (length a + (length v - length (strip_zeros v))), Z.of_nat (length (strip_zeros v))).
Proof.
  induction v as [|b v IH]; intros fuel a c Hf.
  - cbn [length strip_zeros]. rewrite Nat.sub_0_r, Nat.add_0_r. by destruct fuel.
  - destruct fuel as [|fuel]; cbn [length] in Hf; [lia|]. cbn [CPubKey.zeros_loop].
    rewrite (proj2 (Z.leb_gt (Z.of_nat (length (b :: v))) 0)) by (cbn [length]; lia).
    rewrite (in_at_mid a b (v ++ c) : CPubKey.in_at (a ++ (b :: v) ++ c) _ = _). cbn [res_bind strip_zeros].
    destruct (b =? 0); [|by rewrite Nat.sub_diag, Nat.add_0_r].
    replace (a ++ (b :: v) ++ c) with ((a ++ [b]) ++ v ++ c) by (by rewrite <- app_assoc).
    replace (Z.of_nat (length a) + 1) with (Z.of_nat (length (a ++ [b]))) by (rewrite length_app; cbn [length]; lia).
    replace (Z.of_nat (length (b :: v)) - 1) with (Z.of_nat (length v)) by (cbn [length]; lia).
    rewrite IH by lia. pose proof (length_strip_zeros v). rewrite length_app. cbn [length]. do 3 f_equal; lia.
Qed.

Lemma copy_value_mid a v c off tmpsig : (length (strip_zeros v) <= 32)%nat -> 32 <= off ->
  CPubKey.copy_value (a ++ v ++ c) (Z.of_nat (length a)) (Z.of_nat (length v)) off tmpsig =
  Ok (Some (take (Z.to_nat off - length (strip_zeros v)) tmpsig ++ strip_zeros v ++ drop (Z.to_nat off) tmpsig)).
Proof.
  intros Hv Ho. unfold CPubKey.copy_value. rewrite zeros_loop_strip by (rewrite !length_app; lia). cbn [res_bind].
  rewrite (proj2 (Z.ltb_ge _ _)), !Nat2Z.id by lia. pose proof (length_strip_zeros v). do 2 f_equal.
  assert (take (length (strip_zeros v)) (drop (length a + (length v - length (strip_zeros v))) (a ++ v ++ c)) = strip_zeros v) as ->.
  { replace (a ++ v ++ c) with ((a ++ replicate (length v - length (strip_zeros v)) 0) ++ strip_zeros v ++ c).
    - rewrite drop_app_length' by (rewrite length_app, length_replicate; lia). by rewrite take_app_length.
    - by rewrite <- app_assoc, (app_assoc (replicate _ _)), strip_zeros_eq. }
  f_equal; [f_equal; lia|]. do 2 f_equal. lia.
Qed.

Lemma der_integer_mid a v c : (length v < 128)%nat ->
  CPubKey.der_integer (a ++ [2; Z.of_nat (length v)] ++ v ++ c) (Z.of_nat (length a)) =
  Ok (Some (Z.of_nat (length a + 2), Z.of_nat (length v), Z.of_nat (length a + 2 + length v))).
Proof.
  intros Hv. unfold CPubKey.der_integer. set (input := a ++ _).
  assert (length input = (length a + 2 + length v + length c)%nat) as Hl by (subst input; rewrite !length_app; cbn [length]; lia).
  rewrite Hl, !(proj2 (Z.eqb_neq _ _)) by lia.
  rewrite (in_at_mid a 2 (Z.of_nat (length v) :: v ++ c) : CPubKey.in_at input _ = _). cbn [res_bind negb Z.eqb Pos.eqb].
  replace (Z.of_nat (length a) + 1) with (Z.of_nat (length (a ++ [2]))) by (rewrite length_app; cbn [length]; lia).
  assert (input = (a ++ [2]) ++ Z.of_nat (length v) :: v ++ c) as -> by (subst input; by rewrite <- app_assoc).
  rewrite in_at_mid. cbn [res_bind]. rewrite high_bit, (proj2 (Z.ltb_lt _ _)) by lia.
  cbn [res_bind negb]. rewrite length_app. cbn [length].
  rewrite (proj2 (Z.ltb_ge _ _)) by lia. do 4 f_equal; lia.
Qed.

Lemma copy_value_long a v c off tmpsig : (32 < length (strip_zeros v))%nat ->
  CPubKey.copy_value (a ++ v ++ c) (Z.of_nat (length a)) (Z.of_nat (length v)) off tmpsig = Ok None.
Proof.
  intros Hv. unfold CPubKey.copy_value. rewrite zeros_loop_strip by (rewrite !length_app; lia). cbn [res_bind].
  by rewrite (proj2 (Z.ltb_lt _ _)) by lia.
Qed.

(** The 64 bytes handed to the curve library for the values [r] and [s]. *)
Definition compact_sig (r s : bytes) : option bytes :=
  if (length (strip_zeros r) <=? 32)%nat && (length (strip_zeros s) <=? 32)%nat
  then Some (pad32 (strip_zeros r) ++ pad32 (strip_zeros s)) else None.

Lemma copy_any a v c off tmpsig : 32 <= off ->
  exists t, CPubKey.copy_value (a ++ v ++ c) (Z.of_nat (length a)) (Z.of_nat (length v)) off tmpsig = Ok t /\
    (is_Some t <-> (length (strip_zeros v) <= 32)%nat).
Proof.
  intros Ho. destruct (le_gt_dec (length (strip_zeros v)) 32).
  - rewrite copy_value_mid by done. eexists. split; [done|]. split; [done|by eexists].
  - rewrite copy_value_long by lia. exists None. split; [done|]. split; [by intros []|lia].
Qed.

Lemma copy_both a r b s c : let input := a ++ r ++ b ++ s ++ c in
  exists tmpr tmps,
    CPubKey.copy_value input (Z.of_nat (length a)) (Z.of_nat (length r)) 32 (replicate 64 0) = Ok tmpr /\
    CPubKey.copy_value input (Z.of_nat (length (a ++ r ++ b))) (Z.of_nat (length s)) 64 (default (replicate 64 0) tmpr) = Ok tmps /\
    match tmpr, tmps with Some _, Some t => Some t | _, _ => None end = compact_sig r s.
Proof.
  intros input. assert (input = (a ++ r ++ b) ++ s ++ c) as E by (unfold input; by rewrite <- !app_assoc).
  unfold compact_sig. destruct (Nat.leb_spec (length (strip_zeros r)) 32) as [Hr|Hr]; cbn [andb].
  2: { destruct (copy_any (a ++ r ++ b) s c 64 (replicate 64 0) ltac:(lia)) as (tmps & Es & _). rewrite <- E in Es.
       exists None, tmps. unfold input at 1. rewrite copy_value_long by done. split_and!; [done|exact Es|done]. }
  exists (Some (pad32 (strip_zeros r) ++ replicate 32 0)). unfold input at 1. rewrite copy_value_mid by lia.
  change (Z.to_nat 32) with 32%nat.
  assert (take (32 - length (strip_zeros r)) (replicate 64 0) ++ strip_zeros r ++ drop 32 (replicate 64 0) =
    pad32 (strip_zeros r) ++ replicate 32 0) as ->.
  { unfold pad32. rewrite <- app_assoc, take_replicate, drop_replicate. by rewrite Nat.min_l by lia. }
  rewrite E. unfold default, id. destruct (Nat.leb_spec (length (strip_zeros s)) 32) as [Hs|Hs].
  2: { exists None. by rewrite copy_value_long by done. }
  exists (Some (pad32 (strip_zeros r) ++ pad32 (strip_zeros s))). rewrite copy_value_mid by lia.
  split_and!; [done| |done]. do 2 f_equal. change (Z.to_nat 64) with 64%nat.
  assert (length (pad32 (strip_zeros r)) = 32%nat) as Hp by (unfold pad32; rewrite length_app, length_replicate; lia).
  rewrite take_app, take_ge by lia. rewrite Hp, take_replicate, Nat.min_l by lia.
  rewrite drop_ge by (rewrite length_app, length_replicate; lia). rewrite app_nil_r, <- app_assoc. f_equal.
  unfold pad32. do 2 f_equal. lia.
Qed.

Lemma der_lax_total (ec : secp256k1) (input : bytes) : byte_list input ->
  exists ok sig, CPubKey.ecdsa_signature_parse_der_lax ec input = Ok (ok, sig).
Proof.
  intros Hin. unfold CPubKey.ecdsa_signature_parse_der_lax. set (sig := ecdsa_signature_parse_compact ec _).
  destruct (Z.eqb_spec 0 (Z.of_nat (length input))); [by eexists _, _|].
  destruct (in_at_ok input Hin 0) as (tag & -> & _); [lia|]. cbn [res_bind]. destruct (negb (tag =? 48)); [by eexists _, _|].
  destruct (Z.eqb_spec 1 (Z.of_nat (length input))); [by eexists _, _|].
  destruct (in_at_ok input Hin 1) as (b & -> & Hb); [lia|]. cbn [res_bind].
  rewrite high_bit by done. set (pos := if negb (b <? 128) then 2 + (b - 128) else 2).
  destruct (negb (b <? 128) && (Z.of_nat (length input) <? pos)) eqn:Epos; [by eexists _, _|].
  assert (0 <= pos <= Z.of_nat (length input)) as Hpos.
  { subst pos. destruct (Z.ltb_spec b 128); cbn [negb andb] in *; bool_hyps; lia. }
  destruct (der_integer_ok input Hin pos Hpos) as ([[[rpos rlen] e]|] & -> & H); cbn [res_bind]; [|by eexists _, _].
  destruct (der_integer_ok input Hin e ltac:(lia)) as ([[[spos slen] e']|] & -> & H'); cbn [res_bind]; [|by eexists _, _].
  destruct (copy_value_ok input Hin rpos rlen 32 (replicate 64 0)) as (tmpr & ->); [lia..|]. cbn [res_bind].
  destruct (copy_value_ok input Hin spos slen 64 (default (replicate 64 0) tmpr)) as (tmps & ->); [lia..|]. cbn [res_bind].
  repeat case_match; by eexists _, _.
Qed.

Lemma der_lax_reads (ec : secp256k1) (r s rest : bytes) :
  (length r < 128)%nat -> (length s < 128)%nat -> (length r + length s + 4 < 128)%nat ->
  let invalid := ecdsa_signature_parse_compact ec (replicate 64 0) in
  CPubKey.ecdsa_signature_parse_der_lax ec (der_sig r s rest) =
    Ok (true, match compact_sig r s with
              | Some b => match ecdsa_signature_parse_compact ec b with Some sig => Some sig | None => invalid end
              | None => invalid
              end).
Proof.
  intros Hr Hs Hl invalid. set (input' := der_sig r s rest). unfold CPubKey.ecdsa_signature_parse_der_lax.
  assert (Z.of_nat (length input') = Z.of_nat (length r + length s + 6 + length rest)) as ->
    by (subst input'; unfold der_sig; rewrite !length_app; cbn [length]; lia).
  rewrite !(proj2 (Z.eqb_neq _ _)) by lia.
  change (CPubKey.in_at input' 0) with (Ok 48). cbn [res_bind negb Z.eqb Pos.eqb].
  change (CPubKey.in_at input' 1) with (Ok (Z.of_nat (length r + length s + 4))). cbn [res_bind].
  rewrite high_bit, (proj2 (Z.ltb_lt _ 128)) by lia. cbn [negb andb].
  pose proof (der_integer_mid [48; Z.of_nat (length r + length s + 4)] r ([2; Z.of_nat (length s)] ++ s ++ rest) Hr) as E1.
  change (_ ++ [2; Z.of_nat (length r)] ++ r ++ _) with input' in E1.
  change (Z.of_nat (length [48; _])) with 2 in E1. rewrite E1. cbn [res_bind length Nat.add].
  set (pre := [48; Z.of_nat (length r + length s + 4); 2; Z.of_nat (length r)]).
  assert (input' = (pre ++ r) ++ [2; Z.of_nat (length s)] ++ s ++ rest) as E2 by (by rewrite <- app_assoc).
  pose proof (der_integer_mid (pre ++ r) s rest Hs) as E3. rewrite <- E2 in E3.
  assert (length (pre ++ r) = 4 + length r)%nat as Epre by (by rewrite length_app). rewrite Epre in E3.
  cbn [Nat.add] in E3. rewrite E3. cbn [res_bind].
  destruct (copy_both pre r [2; Z.of_nat (length s)] s rest) as (tmpr & tmps & C1 & C2 & C3).
  change (pre ++ r ++ [2; Z.of_nat (length s)] ++ s ++ rest) with input' in C1, C2.
  assert (length (pre ++ r ++ [2; Z.of_nat (length s)]) = (4 + length r + 2)%nat) as El
    by (rewrite !length_app; change (length pre) with 4%nat; cbn [length]; lia).
  rewrite El in C2. change (length pre) with 4%nat in C1. rewrite <- C3. rewrite C1. cbn [res_bind].
  cbn [Nat.add] in C2. rewrite C2. cbn [res_bind].
  destruct tmpr; [|done]. destruct tmps as [t|]; [|done]. by destruct (ecdsa_signature_parse_compact ec t).
Qed.

(** ** Properties *)

(** The signature parser is safe on every input: it terminates and never
    reads outside it, whatever the lengths in it claim.  On the encoding of
    two integers of up to 127 bytes, with anything after it, it accepts and hands the
    curve library the two values without their leading zeroes, padded to 32
    bytes each; a value longer than that gives the invalid signature instead. *)
Theorem der_lax_correct (ec : secp256k1) (input r s rest : bytes) :
  byte_list input -> (length r < 128)%nat -> (length s < 128)%nat -> (length r + length s + 4 < 128)%nat ->
  (exists ok sig, CPubKey.ecdsa_signature_parse_der_lax ec input = Ok (ok, sig)) /\
  let invalid := ecdsa_signature_parse_compact ec (replicate 64 0) in
  CPubKey.ecdsa_signature_parse_der_lax ec (der_sig r s rest) =
    Ok (true, match compact_sig r s with
              | Some b => match ecdsa_signature_parse_compact ec b with Some sig => Some sig | None => invalid end
              | None => invalid
              end).
Proof. intros Hin Hr Hs Hl. split; [by apply der_lax_total|by apply der_lax_reads]. Qed.

(** A curve library for the examples: every signature parses to its own bytes. *)
Definition toy_curve : secp256k1 := {|
  ec_point := bytes; ec_signature := bytes;
  ec_pubkey_parse b := Some b;
  ec_pubkey_serialize p _ := p;
  ec_pubkey_tweak_add p _ := Some p;
  ecdsa_signature_parse_compact b := Some b;
  ecdsa_signature_normalize s := (false, s);
  ecdsa_verify _ _ _ := true;
  ecdsa_recover_compact _ _ _ := None;
|}.

Lemma der_lax_correct_witness :
  CPubKey.ecdsa_signature_parse_der_lax toy_curve (der_sig [0; 200; 1] [9] [7]) =
    Ok (true, Some (replicate 30 0 ++ [200; 1] ++ replicate 31 0 ++ [9])).
Proof.
  destruct (der_lax_correct toy_curve [] [0; 200; 1] [9] [7]) as [_ H]; [constructor|cbn; lia|cbn; lia|cbn; lia|].
  exact H.
Defined.
