(* ===== verification/Compressor.v ===== *)
(** Compact serialisation of transaction outputs: src/sige/src/compressor.h and
    compressor.cpp.

    The curve library is the parameter of [PubKey]; [REF] objects are values
    that the readers return. *)

From S2P Require Import Prelude Bytes BaseUint UintBytes Uint256 Serialize Codec Opcode Prevector ScriptNum Script Amount Transaction PubKey.

#[local] Ltac Zify.zify_post_hook ::= Z.to_euclidean_division_equations.

Module CScriptCompressor.
Definition nSpecialScripts : Z := 6.

(** [script[i] == b] for an index below the size. *)
Definition byte_is (script : CScript) (i : nat) (b : Z) : bool := script.[i] =? b.

Definition IsToKeyID (script : CScript) : option bytes :=
  if (length script =? 25)%nat && byte_is script 0 (value OP_DUP) && byte_is script 1 (value OP_HASH160) &&
     byte_is script 2 20 && byte_is script 23 (value OP_EQUALVERIFY) && byte_is script 24 (value OP_CHECKSIG)
  then Some (take 20 (drop 3 script)) else None.

Definition IsToScriptID (script : CScript) : option bytes :=
  if (length script =? 23)%nat && byte_is script 0 (value OP_HASH160) && byte_is script 1 20 &&
     byte_is script 22 (value OP_EQUAL)
  then Some (take 20 (drop 2 script)) else None.

Section curve.
Context (ec : secp256k1).

(** The key object, over memory [mem], and whether the script is one. *)
Definition IsToPubKey (mem : bytes) (script : CScript) : bool * CPubKey.t :=
  let pubkey := CPubKey.make mem in
  if (length script =? 35)%nat && byte_is script 0 33 && byte_is script 34 (value OP_CHECKSIG) &&
     (byte_is script 1 2 || byte_is script 1 3)
  then (true, CPubKey.Set_ (take 33 (drop 1 script)) pubkey)
  else if (length script =? 67)%nat && byte_is script 0 65 && byte_is script 66 (value OP_CHECKSIG) && byte_is script 1 4
  then
    let pubkey := CPubKey.Set_ (take 65 (drop 1 script)) pubkey in
    (CPubKey.IsFullyValid ec pubkey, pubkey)
  else (false, pubkey).

Definition Compress (mem : bytes) (script : CScript) : option bytes :=
  match IsToKeyID script with
  | Some keyID => Some (0 :: keyID)
  | None =>
      match IsToScriptID script with
      | Some scriptID => Some (1 :: scriptID)
      | None =>
          let '(ok, pubkey) := IsToPubKey mem script in
          if ok then
            let x := take 32 (drop 1 (CPubKey.m_vch pubkey)) in
            let b0 := CPubKey.at_ pubkey 0 in
            if (b0 =? 2) || (b0 =? 3) then Some (b0 :: x)
            else if b0 =? 4 then Some (Z.lor 4 (Z.land (CPubKey.at_ pubkey 64) 1) :: x)
            else None
          else None
      end
  end.

Definition GetSpecialSize (nSize : Z) : Z :=
  if (nSize =? 0) || (nSize =? 1) then 20
  else if (nSize =? 2) || (nSize =? 3) || (nSize =? 4) || (nSize =? 5) then 32
  else 0.

(** Whether it succeeded, and the script, which is left alone otherwise. *)
Definition Decompress (mem : bytes) (nSize : Z) (in_ : bytes) (script : CScript) : res (bool * CScript) :=
  if nSize =? 0 then
    Ok (true, [value OP_DUP; value OP_HASH160; 20] ++ take 20 in_ ++ [value OP_EQUALVERIFY; value OP_CHECKSIG])
  else if nSize =? 1 then Ok (true, [value OP_HASH160; 20] ++ take 20 in_ ++ [value OP_EQUAL])
  else if (nSize =? 2) || (nSize =? 3) then Ok (true, [33; nSize] ++ take 32 in_ ++ [value OP_CHECKSIG])
  else if (nSize =? 4) || (nSize =? 5) then
    let vch := (nSize - 2) :: take 32 in_ in
    let pubkey := CPubKey.of_range mem vch in
    let '(ok, pubkey) := CPubKey.Decompress ec pubkey in
    if negb ok then Ok (false, script)
    else if negb (CPubKey.size pubkey =? 65) then AssertFail
    else Ok (true, [65] ++ take 65 (CPubKey.m_vch pubkey) ++ [value OP_CHECKSIG])
  else Ok (false, script).

(** The memory of the key objects on the stack. *)
Context (mem : bytes).

Definition Serialize (script : CScript) : bytes :=
  match Compress mem script with
  | Some compr => compr
  | None => Codec.Serialize (c_varint 32) (u32 (zlen script + nSpecialScripts)) ++ script
  end.

Definition SerSize (script : CScript) : Z :=
  match Compress mem script with
  | Some compr => zlen compr
  | None => Codec.SerSize (c_varint 32) (u32 (zlen script + nSpecialScripts)) + zlen script
  end.

(** [s.ignore(n)] is a read whose bytes are dropped. *)
Definition Unserialize (S : Type) `{!Stream S} (script : CScript) : rd S CScript :=
  let! nSize := Codec.Unserialize (c_varint 32) S in
  if nSize <? nSpecialScripts then
    let! vch := s_read (Z.to_nat (GetSpecialSize nSize)) in
    fun s => let? (_, script) := Decompress mem nSize vch script in Ok (script, s)
  else
    let nSize := nSize - nSpecialScripts in
    if MAX_SCRIPT_SIZE <? nSize then
      let! _ := s_read (Z.to_nat nSize) in
      fun s => let? script := put_opcode (value OP_RETURN) script in Ok (script, s)
    else s_read (Z.to_nat nSize).
End curve.
End CScriptCompressor.

Module CTxOutCompressor.

(** [while (((n % 10) == 0) && e < 9) { n /= 10; e++; }] *)
Fixpoint exponent_loop (fuel : nat) (n e : Z) : Z * Z :=
  if (n mod 10 =? 0) && (e <? 9) then
    match fuel with
    | O => (n, e)
    | S fuel => exponent_loop fuel (n / 10) (e + 1)
    end
  else (n, e).

Definition CompressAmount (n : Z) : res Z :=
  if n =? 0 then Ok 0
  else
    let '(n, e) := exponent_loop 9 n 0 in
    if e <? 9 then
      let d := n mod 10 in
      if negb ((1 <=? d) && (d <=? 9)) then AssertFail
      else
        let n := n / 10 in
        Ok (u64 (1 + u64 (u64 (u64 (n * 9) + d - 1) * 10) + e))
    else Ok (u64 (1 + u64 ((n - 1) * 10) + 9)).

(** [while (e) { n *= 10; e--; }] *)
Fixpoint scale_loop (e : nat) (n : Z) : Z :=
  match e with
  | O => n
  | S e => scale_loop e (u64 (n * 10))
  end.

Definition DecompressAmount (x : Z) : Z :=
  if x =? 0 then 0
  else
    let x := x - 1 in
    let e := x mod 10 in
    let x := x / 10 in
    let n :=
      if e <? 9 then
        let d := x mod 9 + 1 in
        let x := x / 9 in
        u64 (u64 (x * 10) + d)
      else u64 (x + 1) in
    scale_loop (Z.to_nat e) n.

Section curve.
Context (ec : secp256k1) (mem : bytes).

(** [SerializationOp], writing: the amount is converted to 64 bits unsigned. *)
Definition Serialize (o : CTxOut.t) : res bytes :=
  let? nVal := CompressAmount (u64 (CTxOut.nValue o)) in
  Ok (Codec.Serialize (c_varint 64) nVal ++ CScriptCompressor.Serialize ec mem (CTxOut.scriptPubKey o)).

(** [SerializationOp], reading into [o]. *)
Definition Unserialize (S : Type) `{!Stream S} (o : CTxOut.t) : rd S CTxOut.t :=
  let! nVal := Codec.Unserialize (c_varint 64) S in
  let nValue := i64 (DecompressAmount nVal) in
  let! script := CScriptCompressor.Unserialize ec mem S (CTxOut.scriptPubKey o) in
  rd_ret (CTxOut.mk nValue script).
End curve.
End CTxOutCompressor.

(** ** Amounts *)

Lemma exponent_loop_spec fuel : forall n e, 0 < n -> 0 <= e -> e + Z.of_nat fuel = 9 ->
  let '(m, e') := CTxOutCompressor.exponent_loop fuel n e in
  n = m * 10 ^ (e' - e) /\ e <= e' <= 9 /\ 0 < m /\ (e' < 9 -> m mod 10 <> 0).
Proof.
  induction fuel as [|fuel IH]; intros n e Hn He Hf; cbn [CTxOutCompressor.exponent_loop].
  - replace e with 9 by lia. rewrite andb_false_r. change (9 - 9) with 0. lia.
  - destruct (Z.eqb_spec (n mod 10) 0) as [E|E]; cbn [andb]; [|rewrite Z.sub_diag; lia].
    rewrite (proj2 (Z.ltb_lt _ _)) by lia. specialize (IH (n / 10) (e + 1) ltac:(lia) ltac:(lia) ltac:(lia)).
    destruct (CTxOutCompressor.exponent_loop fuel (n / 10) (e + 1)) as [m e'].
    destruct IH as (Em & He' & Hm & Hd). split_and!; [|lia|lia|done|done].
    assert (e' - e = Z.succ (e' - (e + 1))) as -> by lia. rewrite Z.pow_succ_r by lia.
    rewrite (Z.mul_comm 10), Z.mul_assoc, <- Em. lia.
Qed.

Lemma scale_loop_spec e : forall n, 0 <= n -> n * 10 ^ Z.of_nat e < 2 ^ 64 ->
  CTxOutCompressor.scale_loop e n = n * 10 ^ Z.of_nat e.
Proof.
  induction e as [|e IH]; intros n Hn Hb; cbn [CTxOutCompressor.scale_loop]; [lia|].
  rewrite Nat2Z.inj_succ, Z.pow_succ_r in * by lia. pose proof (Z.pow_pos_nonneg 10 (Z.of_nat e) ltac:(lia) ltac:(lia)).
  rewrite Z.mul_assoc in Hb. rewrite wrap_small by (unfold in_u; nia). rewrite IH by lia. lia.
Qed.

Lemma CompressAmount_total n : in_u 64 n -> exists x, CTxOutCompressor.CompressAmount n = Ok x /\ in_u 64 x.
Proof.
  intros Hn. unfold CTxOutCompressor.CompressAmount. destruct (Z.eqb_spec n 0); [exists 0; by split|].
  pose proof (exponent_loop_spec 9 n 0 ltac:(unfold in_u in Hn; lia) ltac:(lia) ltac:(lia)) as H.
  destruct (CTxOutCompressor.exponent_loop 9 n 0) as [m e]. destruct H as (_ & He & Hm & Hd).
  destruct (Z.ltb_spec e 9); [|by eexists; split; [|apply wrap_range; lia]].
  specialize (Hd ltac:(done)). rewrite (proj2 (Z.leb_le 1 (m mod 10))), (proj2 (Z.leb_le (m mod 10) 9)) by lia.
  by eexists; split; [|apply wrap_range; lia].
Qed.

Lemma digits_spec m : 0 < m -> m mod 10 <> 0 ->
  let y := m / 10 * 9 + m mod 10 - 1 in 0 <= y /\ y / 9 = m / 10 /\ y mod 9 = m mod 10 - 1.
Proof. cbn zeta. lia. Qed.

Lemma amount_roundtrip n : 0 <= n < 2 ^ 60 ->
  exists x, CTxOutCompressor.CompressAmount n = Ok x /\ 0 <= x <= 9 * n + 10 /\ CTxOutCompressor.DecompressAmount x = n.
Proof.
  intros Hn. unfold CTxOutCompressor.CompressAmount. destruct (Z.eqb_spec n 0) as [->|]; [by exists 0|].
  pose proof (exponent_loop_spec 9 n 0 ltac:(lia) ltac:(lia) ltac:(lia)) as H.
  destruct (CTxOutCompressor.exponent_loop 9 n 0) as [m e]. rewrite Z.sub_0_r in H. destruct H as (En & He & Hm & Hd).
  pose proof (Z.pow_pos_nonneg 10 e ltac:(lia) ltac:(lia)) as Hp.
  assert (m <= n) by nia.
  assert (forall x, 0 < x < 2 ^ 64 -> (x - 1) mod 10 = e ->
    (if e <? 9 then u64 (u64 ((x - 1) / 10 / 9 * 10) + ((x - 1) / 10 mod 9 + 1)) else u64 ((x - 1) / 10 + 1)) = m ->
    CTxOutCompressor.DecompressAmount x = n) as Hdec.
  { intros x Hx Ex Em. unfold CTxOutCompressor.DecompressAmount. rewrite (proj2 (Z.eqb_neq _ _)) by lia.
    rewrite Ex, Em, scale_loop_spec; rewrite ?Z2Nat.id by lia; lia. }
  destruct (Z.ltb_spec e 9).
  - specialize (Hd ltac:(done)). rewrite (proj2 (Z.leb_le 1 (m mod 10))), (proj2 (Z.leb_le (m mod 10) 9)) by lia. cbn [negb andb].
    assert (u64 (1 + u64 (u64 (u64 (m / 10 * 9) + m mod 10 - 1) * 10) + e) = 1 + (m / 10 * 9 + m mod 10 - 1) * 10 + e) as ->.
    { rewrite (wrap_small 64 (m / 10 * 9)) by (unfold in_u; lia). rewrite (wrap_small 64 (m / 10 * 9 + m mod 10 - 1)) by (unfold in_u; lia).
      rewrite (wrap_small 64 (_ * 10)) by (unfold in_u; lia). apply wrap_small. unfold in_u; lia. }
    eexists. split; [done|]. split; [lia|].
    destruct (digits_spec m Hm Hd) as (Hy & Ey1 & Ey2). set (y := m / 10 * 9 + m mod 10 - 1) in *.
    replace (1 + y * 10 + e - 1) with (e + y * 10) in * by lia.
    apply Hdec; [lia| |].
    + replace (1 + y * 10 + e - 1) with (e + y * 10) by lia. rewrite Z.mod_add, Z.mod_small by lia. done.
    + replace (1 + y * 10 + e - 1) with (e + y * 10) by lia. rewrite Z.div_add, (Z.div_small e), Z.add_0_l by lia.
      rewrite (wrap_small 64 (y / 9 * 10)) by (unfold in_u; lia). rewrite Ey1, Ey2. rewrite wrap_small by (unfold in_u; lia). lia.
  - assert (e = 9) as -> by lia. rewrite (wrap_small 64 ((m - 1) * 10)) by (unfold in_u; lia).
    rewrite wrap_small by (unfold in_u; lia). eexists. split; [done|]. split; [lia|].
    apply Hdec; [lia|lia|]. rewrite wrap_small by (unfold in_u; lia). lia.
Qed.

(** ** Scripts *)

#[local] Instance varint32_lawful : Lawful (c_varint 32) (in_u 32).
Proof. by apply c_varint_lawful. Qed.
#[local] Instance varint64_lawful : Lawful (c_varint 64) (in_u 64).
Proof. by apply c_varint_lawful. Qed.

(** Where a script of a known length matches a template. *)
Ltac template_bytes H :=
  unfold CScriptCompressor.byte_is in H;
  repeat match type of H with (_ && _)%bool = true => let H' := fresh H in apply andb_true_iff in H as [H H'] end;
  bool_hyps.

Lemma split_script (s : CScript) i j : (i <= j)%nat -> s = take i s ++ take (j - i) (drop i s) ++ drop j s.
Proof.
  intros H. rewrite <- (take_drop i s) at 1. f_equal. rewrite <- (take_drop (j - i) (drop i s)) at 1.
  rewrite drop_drop. do 2 f_equal. lia.
Qed.

Lemma take_S_total (s : CScript) i : (i < length s)%nat -> take (S i) s = take i s ++ [s.[i]].
Proof. intros H. apply take_S_r. by apply list_lookup_lookup_total_lt. Qed.

Lemma drop_total (s : CScript) i : (i < length s)%nat -> drop i s = s.[i] :: drop (S i) s.
Proof. intros H. apply drop_S. by apply list_lookup_lookup_total_lt. Qed.

Lemma IsToKeyID_spec s h : CScriptCompressor.IsToKeyID s = Some h ->
  s = [value OP_DUP; value OP_HASH160; 20] ++ h ++ [value OP_EQUALVERIFY; value OP_CHECKSIG] /\ length h = 20%nat.
Proof.
  unfold CScriptCompressor.IsToKeyID. case_bool; [intros [= <-]|done]. template_bytes Heqb.
  split; [|rewrite length_take, length_drop; lia].
  rewrite (split_script s 3 23) at 1 by lia. rewrite !(take_S_total s), (drop_total s 23), (drop_total s 24), (drop_ge s 25) by lia.
  by repeat match goal with H : s.[_] = _ |- _ => rewrite H; clear H end.
Qed.

Lemma IsToScriptID_spec s h : CScriptCompressor.IsToScriptID s = Some h ->
  s = [value OP_HASH160; 20] ++ h ++ [value OP_EQUAL] /\ length h = 20%nat.
Proof.
  unfold CScriptCompressor.IsToScriptID. case_bool; [intros [= <-]|done]. template_bytes Heqb.
  split; [|rewrite length_take, length_drop; lia].
  rewrite (split_script s 2 22) at 1 by lia. rewrite !(take_S_total s), (drop_total s 22), (drop_ge s 23) by lia.
  by repeat match goal with H : s.[_] = _ |- _ => rewrite H; clear H end.
Qed.

Lemma key_range k0 src : (0 < length src)%nat -> CPubKey.GetLen (src.[0%nat]) = zlen src ->
  let k := CPubKey.Set_ src k0 in
  CPubKey.range k = src /\ CPubKey.size k = zlen src /\ take (length src) (CPubKey.m_vch k) = src /\
  forall i, (i < length src)%nat -> (CPubKey.m_vch k).[i] = src.[i].
Proof.
  intros Hs HL. cbn zeta. destruct src as [|b src]; [cbn in Hs; lia|]. set (v := b :: src) in *.
  assert (CPubKey.Set_ v k0 = CPubKey.mk (Bytes.mem_write (CPubKey.m_vch k0) v)) as ->.
  { transitivity (if negb (CPubKey.GetLen b =? 0) && (CPubKey.GetLen b =? zlen v)
      then CPubKey.mk (Bytes.mem_write (CPubKey.m_vch k0) v) else CPubKey.Invalidate k0); [done|].
    rewrite (HL : CPubKey.GetLen b = zlen v), Z.eqb_refl, (proj2 (Z.eqb_neq _ _)) by (unfold zlen; lia). done. }
  assert (take (length v) (CPubKey.m_vch (CPubKey.mk (Bytes.mem_write (CPubKey.m_vch k0) v))) = v) as Ht
    by (cbn [CPubKey.m_vch]; unfold Bytes.mem_write; apply take_app_length).
  assert (CPubKey.size (CPubKey.mk (Bytes.mem_write (CPubKey.m_vch k0) v)) = zlen v) as Hsz by (rewrite <- HL; done).
  split_and!; [|done|done|].
  - unfold CPubKey.range. rewrite Hsz. unfold zlen. by rewrite Nat2Z.id.
  - intros i Hi. rewrite <- Ht at 2. by rewrite list_lookup_total_alt, (list_lookup_total_alt (take _ _)), lookup_take_lt by done.
Qed.

(** The script as a push of [n] bytes and an opcode. *)
Lemma push_template s n op : length s = (n + 2)%nat -> s.[0%nat] = Z.of_nat n -> s.[(n + 1)%nat] = op ->
  s = [Z.of_nat n] ++ take n (drop 1 s) ++ [op].
Proof.
  intros Hl H0 H1. rewrite (split_script s 1 (n + 1)) at 1 by lia. rewrite Nat.add_sub.
  rewrite (take_S_total s), (drop_total s (n + 1)), (drop_ge s (S (n + 1))), H0, H1 by lia. done.
Qed.

Section curve.
Context (ec : secp256k1).

(** Compressing a key on the curve and parsing it back gives the key. *)
Definition curve_compression : Prop :=
  forall p q, length p = 65%nat -> p.[0%nat] = 4 -> ec_pubkey_parse ec p = Some q ->
  exists q', ec_pubkey_parse ec ((2 + Z.land (p.[64%nat]) 1) :: take 32 (drop 1 p)) = Some q' /\
    ec_pubkey_serialize ec q' false = p.

Context (Hec : curve_compression) (mem : bytes).

Definition pubkey_script (p : bytes) : CScript := [zlen p] ++ p ++ [value OP_CHECKSIG].

Lemma IsToPubKey_spec s k : CScriptCompressor.IsToPubKey ec mem s = (true, k) ->
  exists p, s = pubkey_script p /\ CPubKey.range k = p /\ (forall i, (i < length p)%nat -> (CPubKey.m_vch k).[i] = p.[i]) /\
    take 32 (drop 1 (CPubKey.m_vch k)) = take 32 (drop 1 p) /\
    ((length p = 33%nat /\ (p.[0%nat] = 2 \/ p.[0%nat] = 3)) \/
     (length p = 65%nat /\ p.[0%nat] = 4 /\ exists q, ec_pubkey_parse ec p = Some q)).
Proof.
  unfold CScriptCompressor.IsToPubKey. case_bool; [|case_bool; [|done]].
  - intros [= <-]. apply andb_true_iff in Heqb as [Heqb H23]. template_bytes Heqb.
    set (p := take 33 (drop 1 s)). assert (length p = 33%nat) as Hp by (subst p; rewrite length_take, length_drop; lia).
    assert (p.[0%nat] = s.[1%nat]) as Ep.
    { subst p. by rewrite list_lookup_total_alt, lookup_take_lt, lookup_drop, <- list_lookup_total_alt by lia. }
    assert (p.[0%nat] = 2 \/ p.[0%nat] = 3) as H.
    { unfold CScriptCompressor.byte_is in H23. apply orb_true_iff in H23. rewrite !Z.eqb_eq in H23. lia. }
    destruct (key_range (CPubKey.make mem) p ltac:(lia)) as (E1 & E2 & E3 & E4).
    { unfold zlen. rewrite Hp. destruct H as [-> | ->]; done. }
    exists p. split_and!; [|done|done| |by left].
    + unfold pubkey_script, zlen. rewrite Hp. by apply (push_template s 33).
    + rewrite <- E3 at 2. rewrite Hp, skipn_firstn_comm, take_take. done.
  - intros [= E <-]. template_bytes Heqb0.
    set (p := take 65 (drop 1 s)) in *. assert (length p = 65%nat) as Hp by (subst p; rewrite length_take, length_drop; lia).
    assert (p.[0%nat] = 4) as Ep.
    { subst p. by rewrite list_lookup_total_alt, lookup_take_lt, lookup_drop, <- list_lookup_total_alt by lia. }
    destruct (key_range (CPubKey.make mem) p ltac:(lia)) as (E1 & E2 & E3 & E4); [by rewrite Ep; unfold zlen; rewrite Hp|].
    exists p. split_and!; [|done|done| |].
    + unfold pubkey_script, zlen. rewrite Hp. by apply (push_template s 65).
    + rewrite <- E3 at 2. rewrite Hp, skipn_firstn_comm, take_take. done.
    + right. split_and!; [done|done|]. unfold CPubKey.IsFullyValid in E. rewrite E1 in E.
      case_bool_in E; [done|]. destruct (ec_pubkey_parse ec p); [by eexists|done].
Qed.

Section reading.
Context {S : Type} `{!Stream S, !StreamLaws S}.

(** A special script: its number and the bytes that stand for it. *)
Lemma reads_special nSize v s script0 : 0 <= nSize < 6 -> zlen v = CScriptCompressor.GetSpecialSize nSize ->
  CScriptCompressor.Decompress ec mem nSize v script0 = Ok (true, s) ->
  reads (CScriptCompressor.Unserialize ec mem S script0) (nSize :: v) s.
Proof.
  intros Hn Hv Hd. unfold CScriptCompressor.Unserialize.
  assert ([nSize] = Codec.Serialize (c_varint 32) nSize) as E.
  { assert (In nSize (seqZ 0 6)) as Hin by (apply list_elem_of_In, elem_of_seqZ; lia). cbn in Hin.
    by repeat (destruct Hin as [<- | Hin]; [done|]). }
  change (nSize :: v) with ([nSize] ++ v). rewrite E. eapply reads_bind; [apply law_reads; unfold in_u; lia|].
  rewrite (proj2 (Z.ltb_lt _ _)) by (unfold CScriptCompressor.nSpecialScripts; lia).
  eapply reads_bind_ret; [apply reads_read; rewrite <- Hv; unfold zlen; lia|]. rewrite Hd. apply reads_ret.
Qed.

Lemma parity_bit b : Z.lor 4 (Z.land b 1) = 4 + Z.land b 1 /\ 0 <= Z.land b 1 < 2.
Proof.
  change 1 with (2 ^ 1 - 1). rewrite land_ones_mod by lia. change (2 ^ 1) with 2.
  pose proof (Z.mod_pos_bound b 2 ltac:(lia)). split; [|done].
  assert (b mod 2 = 0 \/ b mod 2 = 1) as [-> | ->] by lia; done.
Qed.

Lemma reads_script s script0 : zlen s <= MAX_SCRIPT_SIZE ->
  reads (CScriptCompressor.Unserialize ec mem S script0) (CScriptCompressor.Serialize ec mem s) s.
Proof.
  intros Hl. unfold CScriptCompressor.Serialize, CScriptCompressor.Compress.
  destruct (CScriptCompressor.IsToKeyID s) as [h|] eqn:EK.
  { destruct (IsToKeyID_spec s h EK) as [-> Hh]. apply reads_special; [lia|unfold zlen; by rewrite Hh|].
    unfold CScriptCompressor.Decompress. rewrite take_ge by lia. done. }
  destruct (CScriptCompressor.IsToScriptID s) as [h|] eqn:ES.
  { destruct (IsToScriptID_spec s h ES) as [-> Hh]. apply reads_special; [lia|unfold zlen; by rewrite Hh|].
    unfold CScriptCompressor.Decompress. rewrite take_ge by lia. done. }
  assert (reads (CScriptCompressor.Unserialize ec mem S script0)
    (Codec.Serialize (c_varint 32) (u32 (zlen s + CScriptCompressor.nSpecialScripts)) ++ s) s) as Hplain.
  { unfold CScriptCompressor.Unserialize, CScriptCompressor.nSpecialScripts, MAX_SCRIPT_SIZE, zlen in *.
    rewrite wrap_small by (unfold in_u; lia). eapply reads_bind; [apply law_reads; unfold in_u; lia|].
    rewrite (proj2 (Z.ltb_ge _ 6)), (proj2 (Z.ltb_ge 10000 _)) by lia. apply reads_read. lia. }
  destruct (CScriptCompressor.IsToPubKey ec mem s) as [[] k] eqn:EP; [|exact Hplain].
  destruct (IsToPubKey_spec s k EP) as (p & -> & Er & Ei & Ex & Hp). unfold CPubKey.at_.
  change (Z.to_nat 0) with 0%nat. change (Z.to_nat 64) with 64%nat. rewrite (Ei 0%nat), Ex by (destruct Hp as [[]|[]]; lia).
  destruct Hp as [[Hp H23]|(Hp & H4 & q & Eq)].
  - assert (take 32 (drop 1 p) = drop 1 p) as -> by (apply take_ge; rewrite length_drop; lia).
    assert (p = p.[0%nat] :: drop 1 p) as Ep by (by rewrite <- drop_total by lia).
    rewrite (proj2 (orb_true_iff _ _)) by (rewrite !Z.eqb_eq; lia).
    apply reads_special; [lia|unfold zlen; rewrite length_drop, Hp; destruct H23 as [-> | ->]; done|].
    assert (pubkey_script p = [33; p.[0%nat]] ++ take 32 (drop 1 p) ++ [value OP_CHECKSIG]) as ->.
    { unfold pubkey_script, zlen. rewrite Hp, take_ge by (rewrite length_drop; lia). by rewrite Ep at 1. }
    unfold CScriptCompressor.Decompress.
    by destruct H23 as [-> | ->].
  - rewrite H4, (Ei 64%nat) by lia. cbn [Z.eqb Pos.eqb orb]. destruct (parity_bit (p.[64%nat])) as [-> Hpar].
    set (par := Z.land _ 1) in *. set (x := take 32 (drop 1 p)).
    assert (length x = 32%nat) as Hx by (subst x; rewrite length_take, length_drop; lia).
    apply reads_special; [lia|unfold zlen; rewrite Hx; assert (par = 0 \/ par = 1) as [-> | ->] by lia; done|].
    destruct (Hec p q Hp H4 Eq) as (q' & Eq' & Es). fold par x in Eq'.
    unfold CScriptCompressor.Decompress. rewrite (take_ge x 32) by lia.
    assert ((4 + par =? 4) || (4 + par =? 5) = true) as -> by (apply orb_true_iff; rewrite !Z.eqb_eq; lia).
    rewrite !(proj2 (Z.eqb_neq _ _)) by lia. cbn [orb]. unfold CPubKey.of_range.
    replace (4 + par - 2) with (2 + par) by lia. set (vch := (2 + par) :: x).
    destruct (key_range (CPubKey.mk mem) vch) as (R1 & R2 & _); [cbn; lia| |].
    { unfold zlen. cbn [length vch]. rewrite Hx. assert (par = 0 \/ par = 1) as E by lia.
      subst vch. destruct E as [-> | ->]; done. }
    unfold CPubKey.Decompress. unfold CPubKey.IsValid. rewrite R2. unfold zlen at 1. cbn [length vch]. rewrite Hx.
    change (negb (0 <? Z.of_nat 33)) with false. cbn iota. rewrite R1, (Eq' : ec_pubkey_parse ec vch = _), Es.
    destruct (key_range (CPubKey.Set_ vch (CPubKey.mk mem)) p) as (_ & R3 & R4 & _); [lia|by rewrite H4; unfold zlen; rewrite Hp|].
    cbn [negb]. rewrite R3. unfold zlen at 1. rewrite Hp. change (negb (Z.of_nat 65 =? 65)) with false. cbn iota.
    rewrite Hp in R4. rewrite R4. unfold pubkey_script, zlen. by rewrite Hp.
Qed.

(** A script that is too long to be spent reads back as [OP_RETURN]. *)
Lemma reads_long_script s script0 : MAX_SCRIPT_SIZE < zlen s < 2 ^ 31 ->
  reads (CScriptCompressor.Unserialize ec mem S script0) (CScriptCompressor.Serialize ec mem s) (script0 ++ [value OP_RETURN]).
Proof.
  intros Hl. unfold MAX_SCRIPT_SIZE in Hl. unfold CScriptCompressor.Serialize, CScriptCompressor.Compress.
  destruct (CScriptCompressor.IsToKeyID s) as [h|] eqn:EK.
  { destruct (IsToKeyID_spec s h EK) as [-> Hh]. unfold zlen in Hl. rewrite !length_app, Hh in Hl. cbn [length] in Hl. lia. }
  destruct (CScriptCompressor.IsToScriptID s) as [h|] eqn:ES.
  { destruct (IsToScriptID_spec s h ES) as [-> Hh]. unfold zlen in Hl. rewrite !length_app, Hh in Hl. cbn [length] in Hl. lia. }
  destruct (CScriptCompressor.IsToPubKey ec mem s) as [[] k] eqn:EP.
  { destruct (IsToPubKey_spec s k EP) as (p & -> & _ & _ & _ & Hp). unfold zlen, pubkey_script in Hl.
    rewrite !length_app in Hl. cbn [length] in Hl. lia. }
  unfold CScriptCompressor.Unserialize, CScriptCompressor.nSpecialScripts. unfold zlen in *.
  rewrite wrap_small by (unfold in_u; lia). eapply reads_bind; [apply law_reads; unfold in_u; lia|].
  rewrite (proj2 (Z.ltb_ge _ 6)), (proj2 (Z.ltb_lt MAX_SCRIPT_SIZE _)) by (unfold MAX_SCRIPT_SIZE; lia).
  eapply reads_bind_ret; [apply reads_read; lia|]. apply reads_ret.
Qed.

Lemma reads_txout o o0 : 0 <= CTxOut.nValue o < 2 ^ 60 -> zlen (CTxOut.scriptPubKey o) < 2 ^ 31 ->
  exists b, CTxOutCompressor.Serialize ec mem o = Ok b /\
    reads (CTxOutCompressor.Unserialize ec mem S o0) b
      (if zlen (CTxOut.scriptPubKey o) <=? MAX_SCRIPT_SIZE then o
       else CTxOut.mk (CTxOut.nValue o) (CTxOut.scriptPubKey o0 ++ [value OP_RETURN])).
Proof.
  destruct o as [v s]. cbn [CTxOut.nValue CTxOut.scriptPubKey]. intros Hv Hs.
  destruct (amount_roundtrip v Hv) as (x & Ex & Hx & Ed). unfold CTxOutCompressor.Serialize. cbn [CTxOut.nValue CTxOut.scriptPubKey].
  rewrite wrap_small, Ex by (unfold in_u; lia). eexists. split; [done|].
  eapply reads_bind; [apply law_reads; unfold in_u; lia|]. rewrite Ed, swrap_small by (unfold in_s; lia).
  destruct (Z.leb_spec (zlen s) MAX_SCRIPT_SIZE).
  - eapply reads_bind_ret; [by apply reads_script|apply reads_ret].
  - eapply reads_bind_ret; [by apply reads_long_script|apply reads_ret].
Qed.
End reading.
End curve.

(** ** Properties *)

(** A compressed output reads back as it was, whatever was in the object it
    is read into: every amount below 2^60 units and every spendable script, the
    six special forms included; a script too long to be spent reads back as
    [OP_RETURN].  Compressing an amount never fails its assertion. *)
Theorem txout_compressor_roundtrip (ec : secp256k1) (mem : bytes) (o o0 : CTxOut.t) S `{!Stream S, !StreamLaws S} :
  curve_compression ec -> 0 <= CTxOut.nValue o < 2 ^ 60 -> zlen (CTxOut.scriptPubKey o) < 2 ^ 31 ->
  (exists b, CTxOutCompressor.Serialize ec mem o = Ok b /\
    reads (CTxOutCompressor.Unserialize ec mem S o0) b
      (if zlen (CTxOut.scriptPubKey o) <=? MAX_SCRIPT_SIZE then o
       else CTxOut.mk (CTxOut.nValue o) (CTxOut.scriptPubKey o0 ++ [value OP_RETURN]))) /\
  forall n, in_u 64 n -> exists x, CTxOutCompressor.CompressAmount n = Ok x.
Proof.
  intros Hec Hv Hs. split; [|by intros n Hn; destruct (CompressAmount_total n Hn) as (x & ? & _); exists x].
  by apply reads_txout.
Qed.

(** A curve for the example: a point is its x coordinate and the parity of y. *)
Definition xonly_curve : secp256k1 := {|
  ec_point := bytes * Z; ec_signature := bytes;
  ec_pubkey_parse b :=
    if (length b =? 65)%nat then
      let par := Z.land (b.[64%nat]) 1 in
      if bool_decide (b = [4] ++ take 32 (drop 1 b) ++ replicate 31 0 ++ [par]) then Some (take 32 (drop 1 b), par) else None
    else Some (drop 1 b, b.[0%nat] - 2);
  ec_pubkey_serialize p _ := [4] ++ fst p ++ replicate 31 0 ++ [snd p];
  ec_pubkey_tweak_add p _ := Some p;
  ecdsa_signature_parse_compact b := Some b;
  ecdsa_signature_normalize s := (false, s);
  ecdsa_verify _ _ _ := true;
  ecdsa_recover_compact _ _ _ := None;
|}.

Lemma xonly_curve_compression : curve_compression xonly_curve.
Proof.
  intros p q Hp H4 Hq. cbn [xonly_curve ec_pubkey_parse ec_pubkey_serialize] in *. rewrite Hp in Hq. cbn [Nat.eqb] in Hq.
  case_bool_in Hq; [|done]. bool_hyps.
  assert (length (take 32 (drop 1 p)) = 32%nat) as Hx by (rewrite length_take, length_drop; lia).
  cbn [length]. rewrite Hx. cbn [Nat.eqb]. eexists. split; [done|]. cbn [fst snd drop].
  replace (((2 + Z.land p.[64%nat] 1) :: take 32 (drop 1 p)).[0%nat] - 2) with (Z.land p.[64%nat] 1)
    by (change ((?a :: _).[0%nat]) with a; lia). symmetry. done.
Qed.

Lemma txout_compressor_roundtrip_witness :
  exists b, CTxOutCompressor.Serialize xonly_curve (replicate 65 0)
      (CTxOut.mk 5000000000 (pubkey_script ([4] ++ replicate 32 9 ++ replicate 31 0 ++ [1]))) = Ok b /\
    length b = 34%nat /\
    reads (S := CDataStream.t) (CTxOutCompressor.Unserialize xonly_curve (replicate 65 0) CDataStream.t CTxOut.SetNull) b
      (CTxOut.mk 5000000000 (pubkey_script ([4] ++ replicate 32 9 ++ replicate 31 0 ++ [1]))).
Proof.
  destruct (txout_compressor_roundtrip xonly_curve (replicate 65 0)
    (CTxOut.mk 5000000000 (pubkey_script ([4] ++ replicate 32 9 ++ replicate 31 0 ++ [1]))) CTxOut.SetNull CDataStream.t
    xonly_curve_compression) as [(b & E & H) _]; [by cbn|by vm_compute|].
  exists b. split; [exact E|]. split; [vm_compute in E; by injection E as <-|exact H].
Defined.
