(* ===== verification/Coins.v ===== *)
(** Unspent transaction outputs: [CCoins] of src/sige/src/coins.h and coins.cpp.

    Memory accounting depends on the capacity of vectors and is left to the
    caches of [CoinsView], where it is a parameter. *)

From S2P Require Import Prelude Bytes BaseUint UintBytes Uint256 Serialize Codec Opcode Prevector ScriptNum Script Amount Transaction PubKey Compressor.

#[local] Ltac Zify.zify_post_hook ::= Z.to_euclidean_division_equations.

Module CCoins.
Record t := mk {
  fCoinBase : bool;
  vout : list CTxOut.t;
  nHeight : Z;
  nVersion : Z;
}.

(** The empty constructor and [Clear]. *)
Definition make : t := mk false [] 0 0.
Definition Clear (c : t) : t := mk false [] 0 0.

(** [while (vout.size() > 0 && vout.back().IsNull()) vout.pop_back();], from the back. *)
Fixpoint drop_nulls (r : list CTxOut.t) : list CTxOut.t :=
  match r with
  | o :: r' => if CTxOut.IsNull o then drop_nulls r' else r
  | [] => []
  end.

Definition Cleanup (c : t) : t := mk (fCoinBase c) (rev (drop_nulls (rev (vout c)))) (nHeight c) (nVersion c).

Definition ClearUnspendable (c : t) : t :=
  Cleanup (mk (fCoinBase c)
    (map (fun txout => if IsUnspendable (CTxOut.scriptPubKey txout) then CTxOut.SetNull else txout) (vout c))
    (nHeight c) (nVersion c)).

(** [FromTx] and the constructor from a transaction. *)
Definition FromTx (tx : CMutableTransaction) (nHeightIn : Z) : t :=
  ClearUnspendable (mk (IsCoinBase tx) (Transaction.vout tx) nHeightIn (Transaction.nVersion tx)).

Definition IsCoinBase (c : t) : bool := fCoinBase c.

Definition IsPruned (c : t) : bool := forallb CTxOut.IsNull (vout c).

Definition IsAvailable (nPos : Z) (c : t) : bool :=
  match vout c !! Z.to_nat nPos with Some o => negb (CTxOut.IsNull o) | None => false end.

Definition vout_eq (a b : list CTxOut.t) : bool :=
  (length a =? length b)%nat && forallb (fun p => CTxOut.op_eq (fst p) (snd p)) (zip a b).

Definition op_eq (a b : t) : bool :=
  if IsPruned a && IsPruned b then true
  else Bool.eqb (fCoinBase a) (fCoinBase b) && (nHeight a =? nHeight b) && (nVersion a =? nVersion b) &&
       vout_eq (vout a) (vout b).
Definition op_ne (a b : t) : bool := negb (op_eq a b).

Definition Spend (nPos : Z) (c : t) : bool * t :=
  match vout c !! Z.to_nat nPos with
  | Some o =>
      if CTxOut.IsNull o then (false, c)
      else (true, Cleanup (mk (fCoinBase c) (<[Z.to_nat nPos := CTxOut.SetNull]> (vout c)) (nHeight c) (nVersion c)))
  | None => (false, c)
  end.

(** ** Serialisation *)

(** [i < vout.size() && !vout[i].IsNull()] *)
Definition used (v : list CTxOut.t) (i : nat) : bool :=
  match v !! i with Some o => negb (CTxOut.IsNull o) | None => false end.

Definition byte_used (v : list CTxOut.t) (b : nat) : bool :=
  existsb (fun i => used v (2 + b * 8 + i)) (seq 0 8).

(** The outer loop, over the bytes with [2 + b * 8 < vout.size()]: the last byte
    used and the number of bytes that are not zero. *)
Definition mask_bytes (v : list CTxOut.t) : nat := ((length v - 2) + 7) / 8.
Definition CalcMaskSize (c : t) : Z * Z :=
  for_up (mask_bytes (vout c))
    (fun b '(nLastUsedByte, nNonzeroBytes) =>
       if byte_used (vout c) b then (Z.of_nat b + 1, nNonzeroBytes + 1) else (nLastUsedByte, nNonzeroBytes))
    (0, 0).

(** [for (i = 0; i < 8 && ..; i++) if (..) chAvail |= (1 << i)] *)
Definition mask_byte (v : list CTxOut.t) (b : nat) : Z :=
  for_up 8 (fun i chAvail => if used v (2 + b * 8 + i) then Z.lor chAvail (Z.shiftl 1 (Z.of_nat i)) else chAvail) 0.

Section serialisation.
Context (ec : secp256k1) (mem : bytes).

Fixpoint write_outs (v : list CTxOut.t) : res bytes :=
  match v with
  | [] => Ok []
  | o :: v =>
      let? b := if CTxOut.IsNull o then Ok [] else CTxOutCompressor.Serialize ec mem o in
      let? r := write_outs v in
      Ok (b ++ r)
  end.

Definition header_code (c : t) (fFirst fSecond : bool) (nMaskCode : Z) : Z :=
  u32 (8 * (nMaskCode - (if fFirst || fSecond then 0 else 1)) + (if fCoinBase c then 1 else 0) +
       (if fFirst then 2 else 0) + (if fSecond then 4 else 0)).

Definition Serialize (c : t) : res bytes :=
  let '(nMaskSize, nMaskCode) := CalcMaskSize c in
  let fFirst := used (vout c) 0 in
  let fSecond := used (vout c) 1 in
  if negb (fFirst || fSecond || negb (nMaskCode =? 0)) then AssertFail
  else
    let? outs := write_outs (vout c) in
    Ok (Codec.Serialize c_varint_int (nVersion c) ++
        Codec.Serialize (c_varint 32) (header_code c fFirst fSecond nMaskCode) ++
        mjoin (map (fun b => Codec.Serialize c_u8 (mask_byte (vout c) b)) (seq 0 (Z.to_nat nMaskSize))) ++
        outs ++
        Codec.Serialize c_varint_int (nHeight c)).

(** [vAvail.push_back(chAvail & (1 << p))] for each bit. *)
Definition mask_bits (chAvail : Z) : list bool :=
  map (fun p => negb (Z.land chAvail (Z.shiftl 1 (Z.of_nat p)) =? 0)) (seq 0 8).

(** [while (nMaskCode > 0) { .. }]: every turn reads a byte. *)
Fixpoint read_mask (S : Type) `{!Stream S} (fuel : nat) (nMaskCode : Z) (vAvail : list bool) : rd S (list bool) :=
  if nMaskCode <=? 0 then rd_ret vAvail
  else
    match fuel with
    | O => fun _ => OutOfFuel
    | Datatypes.S fuel =>
        let! chAvail := Codec.Unserialize c_u8 S in
        read_mask S fuel (if negb (chAvail =? 0) then nMaskCode - 1 else nMaskCode) (vAvail ++ mask_bits chAvail)
    end.

Fixpoint read_outs (S : Type) `{!Stream S} (vAvail : list bool) : rd S (list CTxOut.t) :=
  match vAvail with
  | [] => rd_ret []
  | f :: vAvail =>
      let! o := if f : bool then CTxOutCompressor.Unserialize ec mem S CTxOut.SetNull else rd_ret CTxOut.SetNull in
      let! v := read_outs S vAvail in
      rd_ret (o :: v)
  end.

Definition Unserialize (S : Type) `{!Stream S} : rd S t :=
  let! nVersion := Codec.Unserialize c_varint_int S in
  let! nCode := Codec.Unserialize (c_varint 32) S in
  let fCoinBase := negb (Z.land nCode 1 =? 0) in
  let vAvail := [negb (Z.land nCode 2 =? 0); negb (Z.land nCode 4 =? 0)] in
  let nMaskCode := nCode / 8 + (if negb (Z.land nCode 6 =? 0) then 0 else 1) in
  let! vAvail := fun s => read_mask S (Datatypes.S (s_size s)) nMaskCode vAvail s in
  let! vout := read_outs S vAvail in
  let! nHeight := Codec.Unserialize c_varint_int S in
  rd_ret (Cleanup (mk fCoinBase vout nHeight nVersion)).
End serialisation.
End CCoins.

(** ** Cleaning up *)

Lemma drop_nulls_app l r : Forall (fun o => CTxOut.IsNull o = true) l -> CCoins.drop_nulls (l ++ r) = CCoins.drop_nulls r.
Proof. induction 1 as [|o l Ho Hl IH]; [done|]. cbn [app CCoins.drop_nulls]. by rewrite Ho. Qed.

Lemma drop_nulls_split r : exists l, r = l ++ CCoins.drop_nulls r /\ Forall (fun o => CTxOut.IsNull o = true) l.
Proof.
  induction r as [|o r (l & E & Hl)]; [by exists []|]. cbn [CCoins.drop_nulls]. destruct (CTxOut.IsNull o) eqn:En.
  - exists (o :: l). split; [cbn; by f_equal|by constructor].
  - by exists [].
Qed.

Lemma drop_nulls_head r o r' : CCoins.drop_nulls r = o :: r' -> CTxOut.IsNull o = false.
Proof.
  induction r as [|x r IH]; [done|]. cbn [CCoins.drop_nulls]. destruct (CTxOut.IsNull x) eqn:En; [done|]. by intros [= -> ->].
Qed.

Definition trim (v : list CTxOut.t) : list CTxOut.t := rev (CCoins.drop_nulls (rev v)).

Lemma trim_nulls v n : trim (v ++ replicate n CTxOut.SetNull) = trim v.
Proof.
  unfold trim. rewrite rev_app_distr, drop_nulls_app; [done|]. apply Forall_rev, Forall_replicate. done.
Qed.

(** No spent output at the end. *)
Definition trimmed (v : list CTxOut.t) : Prop := forall o, last v = Some o -> CTxOut.IsNull o = false.

Lemma trim_trimmed v : trimmed (trim v).
Proof.
  intros o Ho. unfold trim in Ho. destruct (CCoins.drop_nulls (rev v)) as [|x r] eqn:E; [done|].
  cbn [rev] in Ho. rewrite last_snoc in Ho. injection Ho as ->. by eapply drop_nulls_head.
Qed.

Lemma trimmed_trim v : trimmed v -> trim v = v.
Proof.
  intros H. unfold trim. destruct v as [|o v _] using rev_ind; [done|]. rewrite rev_app_distr. cbn [rev app CCoins.drop_nulls].
  rewrite (H o) by apply last_snoc. cbn [rev]. by rewrite rev_involutive.
Qed.

Lemma trim_prefix v : exists n l, v = trim v ++ l /\ length l = n /\ Forall (fun o => CTxOut.IsNull o = true) l.
Proof.
  destruct (drop_nulls_split (rev v)) as (l & E & Hl). exists (length l), (rev l). split_and!.
  - unfold trim. by rewrite <- rev_app_distr, <- E, rev_involutive.
  - apply length_rev.
  - by apply Forall_rev.
Qed.

(** ** The bit mask *)

Lemma mask_byte_bits v b :
  CCoins.mask_bits (CCoins.mask_byte v b) = map (fun i => CCoins.used v (2 + b * 8 + i)) (seq 0 8) /\
  (CCoins.mask_byte v b =? 0) = negb (CCoins.byte_used v b) /\ in_u 8 (CCoins.mask_byte v b).
Proof.
  unfold CCoins.mask_byte, CCoins.byte_used, CCoins.mask_bits, for_up. cbn [for_range seq map existsb].
  generalize (CCoins.used v (2 + b * 8 + 0)), (CCoins.used v (2 + b * 8 + 1)), (CCoins.used v (2 + b * 8 + 2)),
    (CCoins.used v (2 + b * 8 + 3)), (CCoins.used v (2 + b * 8 + 4)), (CCoins.used v (2 + b * 8 + 5)),
    (CCoins.used v (2 + b * 8 + 6)), (CCoins.used v (2 + b * 8 + 7)).
  intros [] [] [] [] [] [] [] []; (split; [reflexivity|split; [reflexivity|vm_compute; split; congruence]]).
Qed.

Definition count_used (v : list CTxOut.t) (n : nat) : nat := length (filter (fun b => CCoins.byte_used v b = true) (seq 0 n)).

Lemma count_used_S v n : count_used v (S n) = (count_used v n + (if CCoins.byte_used v n then 1 else 0))%nat.
Proof.
  unfold count_used. rewrite seq_S, filter_app, length_app. f_equal. cbn [Nat.add].
  rewrite filter_cons. case_decide as H; destruct (CCoins.byte_used v n); done.
Qed.

Lemma CalcMaskSize_spec c : exists n k, CCoins.CalcMaskSize c = (Z.of_nat n, Z.of_nat k) /\
  k = count_used (CCoins.vout c) n /\ (n <= CCoins.mask_bytes (CCoins.vout c))%nat /\
  (forall m, n = S m -> CCoins.byte_used (CCoins.vout c) m = true) /\
  (forall b, (n <= b < CCoins.mask_bytes (CCoins.vout c))%nat -> CCoins.byte_used (CCoins.vout c) b = false).
Proof.
  unfold CCoins.CalcMaskSize. set (v := CCoins.vout c).
  apply (for_up_inv (fun i s => exists n k, s = (Z.of_nat n, Z.of_nat k) /\ k = count_used v n /\ (n <= i)%nat /\
    (forall m, n = S m -> CCoins.byte_used v m = true) /\ (forall b, (n <= b < i)%nat -> CCoins.byte_used v b = false))).
  - exists O, O. split_and!; [done|done|done|done|lia].
  - intros i s Hi (n & k & -> & Hk & Hn & Hl & Hu). destruct (CCoins.byte_used v i) eqn:E.
    + exists (S i), (S k). split_and!; [do 2 f_equal; lia| |lia|by intros m [= <-]|lia].
      rewrite count_used_S, E, Hk. assert (forall d, (n + d <= i)%nat -> count_used v (n + d) = count_used v n) as Hc.
      { induction d as [|d IH]; intros Hd; [by rewrite Nat.add_0_r|].
        rewrite Nat.add_succ_r, count_used_S, Hu, IH by lia. lia. }
      replace i with (n + (i - n))%nat by lia. rewrite Hc by lia. lia.
    + exists n, k. split_and!; [done|done|lia|done|]. intros b Hb. destruct (decide (b = i)) as [->|]; [done|apply Hu; lia].
Qed.

(** ** Reading back *)

Section reading.
Context {S : Type} `{!Stream S, !StreamLaws S}.

(** A reader whose fuel is the number of bytes left. *)
Lemma reads_fuel {A} (m : nat -> rd S A) b a :
  (forall fuel, (length b < fuel)%nat -> reads (m fuel) b a) -> reads (fun s => m (Datatypes.S (s_size s)) s) b a.
Proof.
  intros H s rest Hs Hv. apply (H (Datatypes.S (s_size s))); [|done|done].
  rewrite (s_size_view s Hs), Hv, length_app. lia.
Qed.

Definition mask_of (v : list CTxOut.t) (b n : nat) : bytes :=
  mjoin (map (fun b => Codec.Serialize c_u8 (CCoins.mask_byte v b)) (seq b n)).

Lemma mask_of_S v b n : mask_of v b (Datatypes.S n) = Codec.Serialize c_u8 (CCoins.mask_byte v b) ++ mask_of v (Datatypes.S b) n.
Proof. done. Qed.

Lemma length_mask_of v n : forall b, length (mask_of v b n) = n.
Proof. induction n as [|n IH]; intros b; [done|]. rewrite mask_of_S, length_app, IH. done. Qed.

Definition count_range (v : list CTxOut.t) (b n : nat) : nat :=
  length (filter (fun b => CCoins.byte_used v b = true) (seq b n)).

Lemma reads_mask v n : forall b fuel acc, (n < fuel)%nat -> (forall m, n = Datatypes.S m -> CCoins.byte_used v (b + m) = true) ->
  reads (CCoins.read_mask S fuel (Z.of_nat (count_range v b n)) acc) (mask_of v b n)
    (acc ++ map (CCoins.used v) (seq (2 + b * 8) (n * 8))).
Proof.
  induction n as [|n IH]; intros b fuel acc Hf Hlast.
  - cbn [Nat.mul seq map]. rewrite app_nil_r. destruct fuel; [lia|]. apply reads_ret.
  - destruct fuel as [|fuel]; [lia|]. destruct (mask_byte_bits v b) as (Ebits & Ezero & Hu).
    assert (count_range v b (Datatypes.S n) =
      ((if CCoins.byte_used v b then 1 else 0) + count_range v (Datatypes.S b) n)%nat) as Ec.
    { unfold count_range. cbn [seq]. rewrite filter_cons. case_decide as H; destruct (CCoins.byte_used v b); done. }
    assert ((0 < count_range v b (Datatypes.S n))%nat) as Hpos.
    { unfold count_range. apply Nat.neq_0_lt_0. intros E. apply length_zero_iff_nil in E.
      specialize (Hlast n eq_refl). assert (b + n ∈ filter (fun b => CCoins.byte_used v b = true) (seq b (Datatypes.S n)))%nat as Hin
        by (apply list_elem_of_filter; split; [done|apply elem_of_seq; lia]). rewrite E in Hin. by apply elem_of_nil in Hin. }
    cbn [CCoins.read_mask]. rewrite (proj2 (Z.leb_gt _ _)) by lia. rewrite mask_of_S.
    eapply reads_bind; [by apply law_reads|]. rewrite Ezero, Ebits, negb_involutive.
    assert ((if CCoins.byte_used v b then Z.of_nat (count_range v b (Datatypes.S n)) - 1 else Z.of_nat (count_range v b (Datatypes.S n))) =
      Z.of_nat (count_range v (Datatypes.S b) n)) as -> by (rewrite Ec; case_bool; lia).
    replace (acc ++ map (CCoins.used v) (seq (2 + b * 8) (Datatypes.S n * 8))) with
      ((acc ++ map (fun i => CCoins.used v (2 + b * 8 + i)) (seq 0 8)) ++ map (CCoins.used v) (seq (2 + Datatypes.S b * 8) (n * 8))).
    + apply IH; [lia|]. intros m ->. rewrite <- (Hlast (Datatypes.S m) eq_refl). f_equal. lia.
    + rewrite <- app_assoc. f_equal. cbn [Nat.mul]. rewrite seq_app, map_app. f_equal.
      * assert (seq (2 + b * 8) 8 = Nat.add (2 + b * 8) <$> seq 0 8) as -> by (rewrite fmap_add_seq; by rewrite Nat.add_0_r).
        by rewrite <- list_fmap_compose.
      * do 2 f_equal. lia.
Qed.
End reading.

Lemma land_low3 x m : 0 <= m < 8 -> Z.land x m = Z.land (x mod 8) m.
Proof.
  intros Hm. change 8 with (2 ^ 3). rewrite <- land_ones_mod, <- Z.land_assoc by lia. f_equal.
  change (2 ^ 3 - 1) with 7. assert (m = 0 \/ m = 1 \/ m = 2 \/ m = 3 \/ m = 4 \/ m = 5 \/ m = 6 \/ m = 7) as H by lia.
  by repeat (destruct H as [-> | H]; [done|]); subst.
Qed.

Lemma header_bits K (c f s : bool) : 0 <= K ->
  let x := 8 * K + (if c then 1 else 0) + (if f then 2 else 0) + (if s then 4 else 0) in
  negb (Z.land x 1 =? 0) = c /\ negb (Z.land x 2 =? 0) = f /\ negb (Z.land x 4 =? 0) = s /\
  negb (Z.land x 6 =? 0) = (f || s) /\ x / 8 = K.
Proof.
  intros HK x. assert (x mod 8 = (if c then 1 else 0) + (if f then 2 else 0) + (if s then 4 else 0)) as E
    by (subst x; destruct c, f, s; lia).
  rewrite !(land_low3 x), E by lia. split_and!; [by destruct c, f, s..|]. subst x. destruct c, f, s; lia.
Qed.

(** The outputs a coin can hold: spent ones are in their one null form. *)
Definition wf_out (o : CTxOut.t) : Prop :=
  if CTxOut.IsNull o then o = CTxOut.SetNull
  else 0 <= CTxOut.nValue o < 2 ^ 60 /\ zlen (CTxOut.scriptPubKey o) <= MAX_SCRIPT_SIZE.

Record wf_coins (c : CCoins.t) : Prop := {
  wf_coins_version : 0 <= CCoins.nVersion c < 2 ^ 31;
  wf_coins_height : 0 <= CCoins.nHeight c < 2 ^ 31;
  wf_coins_size : zlen (CCoins.vout c) < 2 ^ 28;
  wf_coins_outs : Forall wf_out (CCoins.vout c);
  wf_coins_trimmed : trimmed (CCoins.vout c);
}.

Definition avail (o : CTxOut.t) : bool := negb (CTxOut.IsNull o).

Lemma avail_used v m : (length v <= m)%nat ->
  map (CCoins.used v) (seq 0 m) = map avail (v ++ replicate (m - length v) CTxOut.SetNull).
Proof.
  intros Hm. apply list_eq. intros i. destruct (decide (i < m)%nat).
  - rewrite !list_lookup_fmap, lookup_seq_lt by lia. cbn. unfold CCoins.used. destruct (v !! i) as [o|] eqn:E.
    + by rewrite (lookup_app_l_Some _ _ _ _ E).
    + apply lookup_ge_None in E. rewrite lookup_app_r by lia. by rewrite lookup_replicate_2 by lia.
  - rewrite !lookup_ge_None_2; [done|rewrite length_map, length_app, length_replicate; lia|rewrite length_map, length_seq; lia].
Qed.

#[local] Instance varint32_coins : Lawful (c_varint 32) (in_u 32).
Proof. by apply c_varint_lawful. Qed.

Section serialisation.
Context (ec : secp256k1) (Hec : curve_compression ec) (mem : bytes).
Context {S : Type} `{!Stream S, !StreamLaws S}.

Lemma write_outs_nulls v n : CCoins.write_outs ec mem (v ++ replicate n CTxOut.SetNull) = CCoins.write_outs ec mem v.
Proof.
  induction v as [|o v IH]; cbn [app CCoins.write_outs].
  - induction n as [|n IH]; [done|]. cbn [replicate CCoins.write_outs]. by rewrite IH.
  - by rewrite IH.
Qed.

Lemma reads_outs v : Forall wf_out v ->
  exists b, CCoins.write_outs ec mem v = Ok b /\ reads (CCoins.read_outs ec mem S (map avail v)) b v.
Proof.
  induction 1 as [|o v Ho Hv (b & E & Hr)]; [exists []; split; [done|apply reads_ret]|].
  cbn [CCoins.write_outs map CCoins.read_outs]. unfold wf_out, avail in *. destruct (CTxOut.IsNull o) eqn:En; cbn [negb].
  - subst o. exists b. rewrite E. split; [done|]. change b with ([] ++ b). eapply reads_bind; [apply reads_ret|].
    eapply reads_bind_ret; [exact Hr|apply reads_ret].
  - destruct Ho as [Hn Hs]. destruct (reads_txout ec Hec mem (S := S) o CTxOut.SetNull Hn) as (bo & Eo & Hro);
      [unfold MAX_SCRIPT_SIZE in *; lia|].
    rewrite (proj2 (Z.leb_le _ _)) in Hro by done. rewrite Eo, E. eexists. split; [done|]. cbn [res_bind].
    eapply reads_bind; [exact Hro|]. eapply reads_bind_ret; [exact Hr|apply reads_ret].
Qed.

(** The mask covers every output of a trimmed list. *)
Lemma byte_of_last l n : (2 + n * 8 <= l)%nat -> let b := ((l - 2) / 8)%nat in
  (n <= b < (l + 1 - 2 + 7) / 8)%nat /\ (2 + b * 8 + (l - 2) mod 8 = l)%nat /\ ((l - 2) mod 8 < 8)%nat.
Proof.
  intros H. cbn zeta. pose proof (Nat.div_mod_eq (l - 2) 8). pose proof (Nat.mod_upper_bound (l - 2) 8 ltac:(lia)).
  split_and!; [apply Nat.div_le_lower_bound; lia| |lia|lia].
  replace (l + 1 - 2 + 7)%nat with ((l - 2) + 1 * 8)%nat by lia. rewrite Nat.div_add by lia. lia.
Qed.

Lemma mask_covers v n : trimmed v -> (n <= CCoins.mask_bytes v)%nat ->
  (forall b, (n <= b < CCoins.mask_bytes v)%nat -> CCoins.byte_used v b = false) -> (length v <= 2 + n * 8)%nat.
Proof.
  intros Ht Hn Hu. destruct (le_gt_dec (length v) (2 + n * 8)) as [|Hgt]; [done|exfalso].
  destruct v as [|o v _] using rev_ind; [cbn in Hgt; lia|]. rewrite length_app in Hgt. cbn [length] in Hgt.
  destruct (byte_of_last (length v) n ltac:(lia)) as (Hb & Hi & Hi8). set (b := ((length v - 2) / 8)%nat) in *.
  assert (CCoins.byte_used (v ++ [o]) b = false) as Hf by (apply Hu; unfold CCoins.mask_bytes; by rewrite length_app).
  assert (CCoins.byte_used (v ++ [o]) b = true) as Htt.
  { apply existsb_exists. exists ((length v - 2) mod 8)%nat. split; [apply in_seq; lia|]. rewrite Hi.
    unfold CCoins.used. rewrite lookup_app_r, Nat.sub_diag by lia. cbn. by rewrite (Ht o) by apply last_snoc. }
  congruence.
Qed.

Lemma count_used_range v n : count_used v n = count_range v 0 n.
Proof. done. Qed.

Lemma count_used_le v n : (count_used v n <= n)%nat.
Proof. unfold count_used. etransitivity; [apply length_filter|]. by rewrite length_seq. Qed.

Lemma some_used v n : trimmed v -> v <> [] -> (length v <= 2 + n * 8)%nat ->
  (forall m, n = Datatypes.S m -> CCoins.byte_used v m = true) ->
  CCoins.used v 0 || CCoins.used v 1 || negb (Z.of_nat (count_used v n) =? 0) = true.
Proof.
  intros Ht Hv Hl Hlast. destruct n as [|n].
  - destruct v as [|o [|o' [|? ?]]]; [done| | |cbn in Hl; lia]; unfold CCoins.used; cbn; by rewrite (Ht _ eq_refl), ?orb_true_r.
  - rewrite count_used_S, (Hlast n eq_refl). apply orb_true_iff. right. apply negb_true_iff, Z.eqb_neq. lia.
Qed.

Lemma coins_roundtrip c : wf_coins c -> CCoins.IsPruned c = false ->
  exists b, CCoins.Serialize ec mem c = Ok b /\ reads (CCoins.Unserialize ec mem S) b c.
Proof.
  intros [Hver Hhei Hsz Houts Htr] Hp. unfold CCoins.Serialize, CCoins.Unserialize.
  destruct (CalcMaskSize_spec c) as (n & k & -> & Hk & Hn & Hlast & Hrest).
  pose proof (mask_covers _ n Htr Hn Hrest) as Hcov. set (v := CCoins.vout c) in *.
  set (fF := CCoins.used v 0). set (fS := CCoins.used v 1).
  assert (v <> []) as Hv by (intros E; unfold CCoins.IsPruned in Hp; fold v in Hp; by rewrite E in Hp).
  pose proof (some_used v n Htr Hv Hcov Hlast) as Hne. rewrite <- Hk in Hne. fold fF fS in Hne.
  rewrite Hne. cbn [negb]. destruct (reads_outs (v ++ replicate (2 + n * 8 - length v) CTxOut.SetNull)) as (bo & Eo & Hro).
  { apply Forall_app. split; [done|]. by apply Forall_replicate. }
  rewrite write_outs_nulls in Eo. rewrite Eo. cbn [res_bind]. eexists. split; [done|].
  pose proof (count_used_le v n) as Hkn. unfold CCoins.mask_bytes, zlen in *.
  assert (n <= length v + 7)%nat as Hn' by (etransitivity; [exact Hn|]; apply Nat.Div0.div_le_upper_bound; lia).
  set (K := Z.of_nat k - (if fF || fS then 0 else 1)).
  assert (0 <= K /\ K + (if fF || fS then 0 else 1) = Z.of_nat k) as [HK EK].
  { clear Hn. subst K. destruct (fF || fS); [lia|]. cbn [orb] in Hne. apply negb_true_iff, Z.eqb_neq in Hne. lia. }
  destruct (header_bits K (CCoins.fCoinBase c) fF fS HK) as (B1 & B2 & B3 & B4 & B5).
  unfold CCoins.header_code. fold K. clear Hn.
  assert (in_u 32 (8 * K + (if CCoins.fCoinBase c then 1 else 0) + (if fF then 2 else 0) + (if fS then 4 else 0))) as HU.
  { assert (K < 2 ^ 29) by (destruct (fF || fS); lia). clear - HK H. unfold in_u. destruct (CCoins.fCoinBase c), fF, fS; lia. }
  rewrite (wrap_small 32) by exact HU.
  eapply reads_bind; [by apply law_reads|]. eapply reads_bind; [apply law_reads, HU|].
  rewrite B1, B2, B3, B4, B5. replace (K + (if fF || fS then 0 else 1)) with (Z.of_nat (count_range v 0 n)) by (by rewrite EK, Hk).
  rewrite Nat2Z.id. eapply reads_bind.
  { apply (reads_fuel (fun fuel => CCoins.read_mask S fuel (Z.of_nat (count_range v 0 n)) [fF; fS])).
    intros fuel Hf. apply (reads_mask v n 0 fuel [fF; fS]); [pose proof (length_mask_of v n 0) as El; rewrite <- El; exact Hf|exact Hlast]. }
  change ([fF; fS] ++ map (CCoins.used v) (seq (2 + 0 * 8) (n * 8))) with (map (CCoins.used v) (seq 0 (2 + n * 8))).
  rewrite avail_used by done. eapply reads_bind; [exact Hro|]. eapply reads_bind_ret; [by apply law_reads|].
  assert (CCoins.Cleanup (CCoins.mk (CCoins.fCoinBase c) (v ++ replicate (2 + n * 8 - length v) CTxOut.SetNull)
    (CCoins.nHeight c) (CCoins.nVersion c)) = c) as ->; [|apply reads_ret].
  unfold CCoins.Cleanup. cbn [CCoins.vout CCoins.fCoinBase CCoins.nHeight CCoins.nVersion].
  change (rev (CCoins.drop_nulls (rev ?l))) with (trim l). rewrite trim_nulls, trimmed_trim by done. by destruct c.
Qed.
End serialisation.

(** ** Properties *)

(** The compact serialisation of unspent outputs reads back exactly, with
    its bit mask and its trailing spent outputs left out; it asserts precisely
    on coins that are entirely spent. *)
Theorem coins_serialize_roundtrip (ec : secp256k1) (mem : bytes) (c : CCoins.t) S `{!Stream S, !StreamLaws S} :
  curve_compression ec -> wf_coins c ->
  if CCoins.IsPruned c then CCoins.Serialize ec mem c = AssertFail
  else exists b, CCoins.Serialize ec mem c = Ok b /\ reads (CCoins.Unserialize ec mem S) b c.
Proof.
  intros Hec Hc. destruct (CCoins.IsPruned c) eqn:Hp; [|by apply coins_roundtrip].
  destruct c as [cb v h n]. unfold CCoins.IsPruned in Hp. cbn [CCoins.vout] in Hp.
  destruct v as [|o v _] using rev_ind; [done|]. rewrite forallb_app in Hp. cbn in Hp.
  rewrite (wf_coins_trimmed _ Hc o) in Hp by apply last_snoc. by rewrite andb_false_r in Hp.
Qed.

Definition demo_coins : CCoins.t :=
  CCoins.mk true (replicate 4 CTxOut.SetNull ++ [CTxOut.mk 234925952 [81]; CTxOut.SetNull; CTxOut.mk 7 [82; 83]]) 120891 1.

Lemma coins_serialize_roundtrip_witness :
  exists b, CCoins.Serialize xonly_curve [] demo_coins = Ok b /\ take 3 b = [1; 1; 20] /\
    reads (S := CDataStream.t) (CCoins.Unserialize xonly_curve [] CDataStream.t) b demo_coins.
Proof.
  assert (wf_coins demo_coins) as Hw.
  { split; [cbn; lia|cbn; lia|by vm_compute| |].
    - cbn. repeat (apply Forall_cons; split); try apply Forall_nil; unfold wf_out, zlen, MAX_SCRIPT_SIZE; cbn; done || lia.
    - intros o [= <-]. done. }
  destruct (coins_serialize_roundtrip xonly_curve [] demo_coins CDataStream.t xonly_curve_compression Hw) as (b & E & H).
  exists b. split; [exact E|]. split; [vm_compute in E; by injection E as <-|exact H].
Defined.
