(* ===== verification/CoinsView.v ===== *)
(** Views of the unspent outputs: [CCoinsView] and its layers of
    src/sige/src/coins.h and coins.cpp, and [CCoinsViewDB] of txdb.cpp.

    A view is a class of operations; [CCoinsViewLaws] is what each layer owes
    to the layer above it, and the caches are proved against it, so they can be
    stacked.  A [const] method that fills a cache returns the new view.  The
    database is a map: its bytes are those of [Coins], its storage engine is a
    library.  Memory use of a coin, which depends on the capacity of vectors, is
    a parameter. *)

From S2P Require Import Prelude Bytes BaseUint UintBytes Uint256 Serialize Codec Opcode Prevector ScriptNum Script Amount Transaction PubKey Compressor Coins.

Module CCoinsCacheEntry.
Record t := mk { coins : CCoins.t; flags : Z }.
Definition DIRTY : Z := Z.shiftl 1 0.
Definition FRESH : Z := Z.shiftl 1 1.
Definition make : t := mk CCoins.make 0.
(** [flags & DIRTY], [flags & FRESH] *)
Definition dirty (e : t) : bool := negb (Z.land (flags e) DIRTY =? 0).
Definition fresh (e : t) : bool := negb (Z.land (flags e) FRESH =? 0).
End CCoinsCacheEntry.
Import CCoinsCacheEntry.

Abbreviation CCoinsMap := (gmap uint256 CCoinsCacheEntry.t).

(** The virtual methods of [CCoinsView]; [Cursor] is left to the database. *)
Class CCoinsView (V : Type) := {
  GetCoins : uint256 -> V -> res (option CCoins.t * V);
  HaveCoins : uint256 -> V -> res (bool * V);
  GetBestBlock : V -> res (uint256 * V);
  BatchWrite : CCoinsMap -> uint256 -> V -> res (bool * V);
}.

(** ** The abstract base class *)

#[export] Instance CCoinsView_base : CCoinsView unit := {|
  GetCoins _ v := Ok (None, v);
  HaveCoins _ v := Ok (false, v);
  GetBestBlock v := Ok (base_uint_zero WIDTH256, v);
  BatchWrite _ _ v := Ok (false, v);
|}.

(** ** The database *)

Module CCoinsViewDB.
Record t := mk { db : gmap uint256 CCoins.t; best_block : option uint256 }.

(** One turn of the loop: pruned coins are erased from the batch. *)
Definition write_entry (k : uint256) (e : CCoinsCacheEntry.t) (m : gmap uint256 CCoins.t) : gmap uint256 CCoins.t :=
  if dirty e then if CCoins.IsPruned (coins e) then delete k m else <[k := coins e]> m else m.

Definition BatchWrite (mapCoins : CCoinsMap) (hashBlock : uint256) (v : t) : res (bool * t) :=
  let m := foldr (fun '(k, e) m => write_entry k e m) (db v) (map_to_list mapCoins) in
  Ok (true, mk m (if negb (BaseUint.IsNull WIDTH256 hashBlock) then Some hashBlock else best_block v)).
End CCoinsViewDB.

#[export] Instance CCoinsView_db : CCoinsView CCoinsViewDB.t := {|
  GetCoins txid v := Ok (CCoinsViewDB.db v !! txid, v);
  HaveCoins txid v := Ok (bool_decide (is_Some (CCoinsViewDB.db v !! txid)), v);
  GetBestBlock v := Ok (default (base_uint_zero WIDTH256) (CCoinsViewDB.best_block v), v);
  BatchWrite := CCoinsViewDB.BatchWrite;
|}.

(** ** A cache over another view *)

Module CCoinsViewCache.
Record t (V : Type) := mk {
  base : V;
  hasModifier : bool;
  hashBlock : uint256;
  cacheCoins : CCoinsMap;
  cachedCoinsUsage : Z;
}.
Arguments mk {V}.
Arguments base {V}.
Arguments hasModifier {V}.
Arguments hashBlock {V}.
Arguments cacheCoins {V}.
Arguments cachedCoinsUsage {V}.

(** [CCoinsModifier]: the entry it refers to and its memory use before. *)
Record modifier := mk_modifier { it : uint256; cachedCoinUsage : Z }.

Section cache.
Context {V : Type} `{!CCoinsView V} (DynamicMemoryUsage : CCoins.t -> Z).
Implicit Types s : t V.

Definition make (baseIn : V) : t V := mk baseIn false (base_uint_zero WIDTH256) ∅ 0.
Definition set_base (v : V) (s : t V) : t V := mk v (hasModifier s) (hashBlock s) (cacheCoins s) (cachedCoinsUsage s).
Definition set_hasModifier (b : bool) (s : t V) : t V := mk (base s) b (hashBlock s) (cacheCoins s) (cachedCoinsUsage s).
Definition set_hashBlock (h : uint256) (s : t V) : t V := mk (base s) (hasModifier s) h (cacheCoins s) (cachedCoinsUsage s).
Definition set_cacheCoins (m : CCoinsMap) (s : t V) : t V := mk (base s) (hasModifier s) (hashBlock s) m (cachedCoinsUsage s).
Definition add_usage (n : Z) (s : t V) : t V :=
  mk (base s) (hasModifier s) (hashBlock s) (cacheCoins s) (u64 (cachedCoinsUsage s + n)).

Definition FetchCoins (txid : uint256) (s : t V) : res (option CCoins.t * t V) :=
  match cacheCoins s !! txid with
  | Some e => Ok (Some (coins e), s)
  | None =>
      let? (tmp, v) := GetCoins txid (base s) in
      let s := set_base v s in
      match tmp with
      | None => Ok (None, s)
      | Some c =>
          let flags := if CCoins.IsPruned c then FRESH else 0 in
          Ok (Some c, add_usage (DynamicMemoryUsage c) (set_cacheCoins (<[txid := CCoinsCacheEntry.mk c flags]> (cacheCoins s)) s))
      end
  end.

(** [GetCoins] and [AccessCoins] *)
Definition GetCoins (txid : uint256) (s : t V) : res (option CCoins.t * t V) := FetchCoins txid s.
Definition AccessCoins (txid : uint256) (s : t V) : res (option CCoins.t * t V) := FetchCoins txid s.

(** [vout.empty()] instead of [IsPruned]. *)
Definition HaveCoins (txid : uint256) (s : t V) : res (bool * t V) :=
  let? (c, s) := FetchCoins txid s in
  Ok (match c with Some c => negb (length (CCoins.vout c) =? 0)%nat | None => false end, s).

Definition HaveCoinsInCache (txid : uint256) (s : t V) : bool := bool_decide (is_Some (cacheCoins s !! txid)).

Definition GetBestBlock (s : t V) : res (uint256 * t V) :=
  if BaseUint.IsNull WIDTH256 (hashBlock s) then
    let? (h, v) := GetBestBlock (base s) in
    Ok (h, set_hashBlock h (set_base v s))
  else Ok (hashBlock s, s).

Definition SetBestBlock (hashBlockIn : uint256) (s : t V) : t V := set_hashBlock hashBlockIn s.

(** The constructor of [CCoinsModifier]. *)
Definition start_modifier (txid : uint256) (usage : Z) (s : t V) : res (modifier * t V) :=
  if hasModifier s then AssertFail else Ok (mk_modifier txid usage, set_hasModifier true s).

Definition ModifyCoins (txid : uint256) (s : t V) : res (modifier * t V) :=
  if hasModifier s then AssertFail
  else
    let? (e, cachedCoinUsage, s) :=
      match cacheCoins s !! txid with
      | Some e => Ok (e, DynamicMemoryUsage (coins e), s)
      | None =>
          let? (c, v) := CoinsView.GetCoins txid (base s) in
          let e := match c with
                   | None => CCoinsCacheEntry.mk (CCoins.Clear CCoins.make) FRESH
                   | Some c => CCoinsCacheEntry.mk c (if CCoins.IsPruned c then FRESH else 0)
                   end in
          Ok (e, 0, set_base v s)
      end in
    let e := CCoinsCacheEntry.mk (coins e) (Z.lor (flags e) DIRTY) in
    start_modifier txid cachedCoinUsage (set_cacheCoins (<[txid := e]> (cacheCoins s)) s).

Definition ModifyNewCoins (txid : uint256) (coinbase : bool) (s : t V) : res (modifier * t V) :=
  if hasModifier s then AssertFail
  else
    let e := default CCoinsCacheEntry.make (cacheCoins s !! txid) in
    if negb coinbase && negb (CCoins.IsPruned (coins e)) then
      Throw "ModifyNewCoins should not find pre-existing coins on a non-coinbase unless they are pruned!"
    else
      let flags := if negb coinbase && negb (dirty e) then Z.lor (flags e) FRESH else flags e in
      let e := CCoinsCacheEntry.mk (CCoins.Clear (coins e)) (Z.lor flags DIRTY) in
      start_modifier txid 0 (set_cacheCoins (<[txid := e]> (cacheCoins s)) s).

(** [it->second.coins], read and written through the modifier. *)
Definition modified (m : modifier) (s : t V) : res CCoins.t :=
  let? e := res_of_option (cacheCoins s !! it m) in Ok (coins e).
Definition set_modified (m : modifier) (c : CCoins.t) (s : t V) : t V :=
  set_cacheCoins (alter (fun e => CCoinsCacheEntry.mk c (flags e)) (it m) (cacheCoins s)) s.

(** The destructor of [CCoinsModifier]. *)
Definition end_modifier (m : modifier) (s : t V) : res (t V) :=
  if negb (hasModifier s) then AssertFail
  else
    let s := set_hasModifier false s in
    let? e := res_of_option (cacheCoins s !! it m) in
    let e := CCoinsCacheEntry.mk (CCoins.Cleanup (coins e)) (flags e) in
    let s := add_usage (- cachedCoinUsage m) s in
    if fresh e && CCoins.IsPruned (coins e) then Ok (set_cacheCoins (delete (it m) (cacheCoins s)) s)
    else Ok (add_usage (DynamicMemoryUsage (coins e)) (set_cacheCoins (<[it m := e]> (cacheCoins s)) s)).

(** The life of a modifier around a change of its coins. *)
Definition with_modifier {A} (start : res (modifier * t V)) (f : CCoins.t -> res (A * CCoins.t)) : res (A * t V) :=
  let? (m, s) := start in
  let? c := modified m s in
  let? (a, c) := f c in
  let? s := end_modifier m (set_modified m c s) in
  Ok (a, s).

(** One turn of the loop of [BatchWrite]. *)
Definition write_entry (k : uint256) (e : CCoinsCacheEntry.t) (s : t V) : res (t V) :=
  if dirty e then
    match cacheCoins s !! k with
    | None =>
        if fresh e && CCoins.IsPruned (coins e) then Ok s
        else
          let flags := if fresh e then Z.lor DIRTY FRESH else DIRTY in
          Ok (add_usage (DynamicMemoryUsage (coins e))
                (set_cacheCoins (<[k := CCoinsCacheEntry.mk (coins e) flags]> (cacheCoins s)) s))
    | Some us =>
        if fresh e && negb (CCoins.IsPruned (coins us)) then
          Throw "FRESH flag misapplied to cache entry for base transaction with spendable outputs"
        else if fresh us && CCoins.IsPruned (coins e) then
          Ok (set_cacheCoins (delete k (cacheCoins s)) (add_usage (- DynamicMemoryUsage (coins us)) s))
        else
          Ok (add_usage (DynamicMemoryUsage (coins e))
                (set_cacheCoins (<[k := CCoinsCacheEntry.mk (coins e) (Z.lor (flags us) DIRTY)]> (cacheCoins s))
                   (add_usage (- DynamicMemoryUsage (coins us)) s)))
    end
  else Ok s.

Fixpoint write_entries (l : list (uint256 * CCoinsCacheEntry.t)) (s : t V) : res (t V) :=
  match l with
  | [] => Ok s
  | (k, e) :: l => let? s := write_entry k e s in write_entries l s
  end.

Definition BatchWrite (mapCoins : CCoinsMap) (hashBlockIn : uint256) (s : t V) : res (bool * t V) :=
  if hasModifier s then AssertFail
  else
    let? s := write_entries (map_to_list mapCoins) s in
    Ok (true, set_hashBlock hashBlockIn s).

Definition Flush (s : t V) : res (bool * t V) :=
  let? (fOk, v) := CoinsView.BatchWrite (cacheCoins s) (hashBlock s) (base s) in
  Ok (fOk, mk v (hasModifier s) (hashBlock s) ∅ 0).

Definition Uncache (hash : uint256) (s : t V) : t V :=
  match cacheCoins s !! hash with
  | Some e =>
      if flags e =? 0
      then set_cacheCoins (delete hash (cacheCoins s)) (add_usage (- DynamicMemoryUsage (coins e)) s)
      else s
  | None => s
  end.

Definition GetOutputFor (input : CTxIn.t) (s : t V) : res (CTxOut.t * t V) :=
  let prevout := CTxIn.prevout input in
  let? (c, s) := AccessCoins (COutPoint.hash prevout) s in
  match c with
  | Some c =>
      if CCoins.IsAvailable (COutPoint.n prevout) c
      then let? o := res_of_option (CCoins.vout c !! Z.to_nat (COutPoint.n prevout)) in Ok (o, s)
      else AssertFail
  | None => AssertFail
  end.

(** [for (i = 0; i < tx.vin.size(); i++) nResult += GetOutputFor(tx.vin[i]).nValue;] *)
Fixpoint value_in_loop (vin : list CTxIn.t) (nResult : Z) (s : t V) : res (Z * t V) :=
  match vin with
  | [] => Ok (nResult, s)
  | txin :: vin =>
      let? (o, s) := GetOutputFor txin s in
      value_in_loop vin (i64 (nResult + CTxOut.nValue o)) s
  end.

Definition GetValueIn (tx : CMutableTransaction) (s : t V) : res (Z * t V) :=
  if IsCoinBase tx then Ok (0, s) else value_in_loop (Transaction.vin tx) 0 s.

Fixpoint have_inputs_loop (vin : list CTxIn.t) (s : t V) : res (bool * t V) :=
  match vin with
  | [] => Ok (true, s)
  | txin :: vin =>
      let prevout := CTxIn.prevout txin in
      let? (c, s) := AccessCoins (COutPoint.hash prevout) s in
      match c with
      | Some c => if CCoins.IsAvailable (COutPoint.n prevout) c then have_inputs_loop vin s else Ok (false, s)
      | None => Ok (false, s)
      end
  end.

Definition HaveInputs (tx : CMutableTransaction) (s : t V) : res (bool * t V) :=
  if IsCoinBase tx then Ok (true, s) else have_inputs_loop (Transaction.vin tx) s.

Definition GetCacheSize (s : t V) : Z := u32 (Z.of_nat (length (map_to_list (cacheCoins s)))).
End cache.
End CCoinsViewCache.

#[export] Instance CCoinsView_cache {V} `{!CCoinsView V} (usage : CCoins.t -> Z) : CCoinsView (CCoinsViewCache.t V) := {|
  GetCoins := CCoinsViewCache.GetCoins usage;
  HaveCoins := CCoinsViewCache.HaveCoins usage;
  GetBestBlock := CCoinsViewCache.GetBestBlock;
  BatchWrite := CCoinsViewCache.BatchWrite usage;
|}.

(** ** What a view promises *)

(** The coins that count: those with an unspent output. *)
Definition unspent (c : option CCoins.t) : option CCoins.t :=
  match c with Some c => if CCoins.IsPruned c then None else Some c | None => None end.

(** The unspent outputs after a batch. *)
Definition batched (U : uint256 -> option CCoins.t) (m : CCoinsMap) (t : uint256) : option CCoins.t :=
  match m !! t with
  | Some e => if dirty e then unspent (Some (coins e)) else U t
  | None => U t
  end.

(** What the layer above may write: clean coins, and FRESH only where there are none. *)
Definition batch_ok (U : uint256 -> option CCoins.t) (m : CCoinsMap) : Prop :=
  forall t e, m !! t = Some e -> trimmed (CCoins.vout (coins e)) /\ (dirty e = true -> fresh e = true -> U t = None).

Class CCoinsViewLaws (V : Type) `{!CCoinsView V} := {
  view_ok : V -> Prop;
  utxo : V -> uint256 -> option CCoins.t;
  best : V -> uint256;
  law_utxo v t c : view_ok v -> utxo v t = Some c -> CCoins.IsPruned c = false /\ trimmed (CCoins.vout c);
  law_GetCoins v t : view_ok v -> exists o v', GetCoins t v = Ok (o, v') /\ view_ok v' /\
    (forall t', utxo v' t' = utxo v t') /\ best v' = best v /\ unspent o = utxo v t /\
    (forall c, o = Some c -> trimmed (CCoins.vout c));
  law_HaveCoins v t : view_ok v -> exists v', HaveCoins t v = Ok (bool_decide (is_Some (utxo v t)), v') /\ view_ok v' /\
    (forall t', utxo v' t' = utxo v t') /\ best v' = best v;
  law_GetBestBlock v : view_ok v -> exists v', GetBestBlock v = Ok (best v, v') /\ view_ok v' /\
    (forall t', utxo v' t' = utxo v t') /\ best v' = best v;
  law_BatchWrite v m h : view_ok v -> batch_ok (utxo v) m -> exists v', BatchWrite m h v = Ok (true, v') /\ view_ok v' /\
    (forall t, utxo v' t = batched (utxo v) m t) /\ (BaseUint.IsNull WIDTH256 h = false -> best v' = h);
}.

(** ** The database keeps the promise *)

Lemma pruned_empty v : trimmed v -> forallb CTxOut.IsNull v = true -> v = [].
Proof.
  intros Ht Hp. destruct v as [|o v _] using rev_ind; [done|]. rewrite forallb_app in Hp. cbn in Hp.
  rewrite (Ht o) in Hp by apply last_snoc. by rewrite andb_false_r in Hp.
Qed.

Lemma unspent_Some c c' : unspent c = Some c' -> c = Some c' /\ CCoins.IsPruned c' = false.
Proof. destruct c as [c|]; [|done]. cbn. case_bool; [done|]. by intros [= ->]. Qed.

Lemma unspent_idem o : unspent (unspent o) = unspent o.
Proof. destruct o as [c|]; [|done]. cbn. destruct (CCoins.IsPruned c) eqn:E; cbn; by rewrite ?E. Qed.

(** A fold over the entries of a map, one entry per key. *)
Lemma write_fold (l : list (uint256 * CCoinsCacheEntry.t)) (m : gmap uint256 CCoins.t) t : NoDup l.*1 ->
  foldr (fun '(k, e) m => CCoinsViewDB.write_entry k e m) m l !! t =
  match (list_to_map l : CCoinsMap) !! t with
  | Some e => CCoinsViewDB.write_entry t e m !! t
  | None => m !! t
  end.
Proof.
  induction l as [|[k e] l IH]; intros Hnd; [by simpl; rewrite lookup_empty|]. cbn [fmap list_fmap fst] in Hnd. apply NoDup_cons in Hnd as [Hk Hnd].
  cbn [foldr list_to_map]. specialize (IH Hnd). destruct (decide (t = k)) as [->|Hne].
  - rewrite lookup_insert_eq. rewrite (not_elem_of_list_to_map_1 _ _ Hk) in IH. unfold CCoinsViewDB.write_entry at 1 3. cbn [snd].
    destruct (dirty e); [|done]. destruct (CCoins.IsPruned (coins e)); [by rewrite !lookup_delete_eq|by rewrite !lookup_insert_eq].
  - rewrite lookup_insert_ne by done. rewrite <- IH. unfold CCoinsViewDB.write_entry at 1.
    destruct (dirty e); [|done]. destruct (CCoins.IsPruned (coins e)); [by rewrite lookup_delete_ne|by rewrite lookup_insert_ne].
Qed.

Definition db_ok (v : CCoinsViewDB.t) : Prop :=
  map_Forall (fun _ c => CCoins.IsPruned c = false /\ trimmed (CCoins.vout c)) (CCoinsViewDB.db v).

#[export] Program Instance CCoinsViewLaws_db : CCoinsViewLaws CCoinsViewDB.t := {|
  view_ok := db_ok;
  utxo v t := CCoinsViewDB.db v !! t;
  best v := default (base_uint_zero WIDTH256) (CCoinsViewDB.best_block v);
|}.
Next Obligation. intros v t c Hok E. by apply (Hok t c). Qed.
Next Obligation.
  intros v t Hok. exists (CCoinsViewDB.db v !! t), v. split_and!; [done|done|done|done| |intros c E; by apply (Hok t c)].
  destruct (CCoinsViewDB.db v !! t) as [c|] eqn:E; [|done]. cbn. by rewrite (proj1 (Hok t c E)).
Qed.
Next Obligation. intros v t Hok. by exists v. Qed.
Next Obligation. intros v Hok. by exists v. Qed.
Next Obligation.
  intros v m h Hok Hb. eexists. split; [done|].
  assert (forall t, foldr (fun '(k, e) m => CCoinsViewDB.write_entry k e m) (CCoinsViewDB.db v) (map_to_list m) !! t =
    batched (fun t => CCoinsViewDB.db v !! t) m t) as E.
  { intros t. rewrite write_fold by apply NoDup_fst_map_to_list. rewrite list_to_map_to_list. unfold batched.
    destruct (m !! t) as [e|]; [|done]. unfold CCoinsViewDB.write_entry, unspent. destruct (dirty e); [|done].
    case_bool; [by rewrite lookup_delete_eq|by rewrite lookup_insert_eq]. }
  split_and!; [|exact E|intros Hh; cbn; by rewrite Hh].
  intros t c Hc. cbn in Hc. rewrite E in Hc. unfold batched in Hc. destruct (m !! t) as [e|] eqn:Em; [|by apply (Hok t c)].
  destruct (dirty e); [|by apply (Hok t c)]. apply unspent_Some in Hc as [[= <-] Hp]. split; [done|]. by apply (Hb t e).
Qed.

(** ** A cache keeps the promise *)

Lemma flag_lor f a b : (Z.land (Z.lor f a) b =? 0) = (Z.land f b =? 0) && (Z.land a b =? 0).
Proof.
  rewrite Z.land_lor_distr_l. apply eq_true_iff_eq. rewrite andb_true_iff, !Z.eqb_eq. apply Z.lor_eq_0_iff.
Qed.

Lemma dirty_lor c f a : dirty (CCoinsCacheEntry.mk c (Z.lor f a)) =
  dirty (CCoinsCacheEntry.mk c f) || dirty (CCoinsCacheEntry.mk c a).
Proof. unfold dirty. cbn [flags]. by rewrite flag_lor, negb_andb. Qed.
Lemma fresh_lor c f a : fresh (CCoinsCacheEntry.mk c (Z.lor f a)) =
  fresh (CCoinsCacheEntry.mk c f) || fresh (CCoinsCacheEntry.mk c a).
Proof. unfold fresh. cbn [flags]. by rewrite flag_lor, negb_andb. Qed.

Lemma dirty_flags e c : dirty (CCoinsCacheEntry.mk c (flags e)) = dirty e.
Proof. done. Qed.
Lemma fresh_flags e c : fresh (CCoinsCacheEntry.mk c (flags e)) = fresh e.
Proof. done. Qed.

Definition upd (U : uint256 -> option CCoins.t) (t : uint256) (o : option CCoins.t) (t' : uint256) : option CCoins.t :=
  if decide (t' = t) then o else U t'.

(** Computes the fields of a cache and the steps of its monad. *)
Ltac cache_simpl :=
  cbn [CCoinsViewCache.base CCoinsViewCache.hasModifier CCoinsViewCache.hashBlock CCoinsViewCache.cacheCoins
       CCoinsViewCache.set_base CCoinsViewCache.set_hasModifier CCoinsViewCache.set_hashBlock
       CCoinsViewCache.set_cacheCoins CCoinsViewCache.add_usage CCoinsViewCache.it CCoinsViewCache.cachedCoinUsage
       coins flags res_bind res_of_option fmap option_fmap option_map negb].

Section cache_laws.
Context {V : Type} `{!CCoinsView V, !CCoinsViewLaws V} (usage : CCoins.t -> Z).
Implicit Types s : CCoinsViewCache.t V.

Definition entry_ok (U : uint256 -> option CCoins.t) (t : uint256) (e : CCoinsCacheEntry.t) : Prop :=
  trimmed (CCoins.vout (coins e)) /\ (fresh e = true -> U t = None) /\
  (dirty e = false -> unspent (Some (coins e)) = U t).

Record cache_ok (s : CCoinsViewCache.t V) : Prop := {
  ok_base : view_ok (CCoinsViewCache.base s);
  ok_modifier : CCoinsViewCache.hasModifier s = false;
  ok_entries : map_Forall (entry_ok (utxo (CCoinsViewCache.base s))) (CCoinsViewCache.cacheCoins s);
}.

Definition cache_utxo (s : CCoinsViewCache.t V) (t : uint256) : option CCoins.t :=
  match CCoinsViewCache.cacheCoins s !! t with
  | Some e => unspent (Some (coins e))
  | None => utxo (CCoinsViewCache.base s) t
  end.

Definition cache_best (s : CCoinsViewCache.t V) : uint256 :=
  if BaseUint.IsNull WIDTH256 (CCoinsViewCache.hashBlock s) then best (CCoinsViewCache.base s)
  else CCoinsViewCache.hashBlock s.

(** The same unspent outputs and the same best block. *)
Record same s s' : Prop := {
  same_utxo t : cache_utxo s' t = cache_utxo s t;
  same_best : cache_best s' = cache_best s;
}.

Lemma entry_ok_ext U U' t e : (forall t, U' t = U t) -> entry_ok U t e -> entry_ok U' t e.
Proof. intros E (? & ? & ?). split_and!; [done|by rewrite E|by rewrite E]. Qed.

Lemma entries_ext (U U' : uint256 -> option CCoins.t) (m : CCoinsMap) : (forall t, U' t = U t) -> map_Forall (entry_ok U) m -> map_Forall (entry_ok U') m.
Proof. intros E H t e Ht. by eapply entry_ok_ext, H. Qed.

Lemma FetchCoins_spec s t : cache_ok s -> exists o s', CCoinsViewCache.FetchCoins usage t s = Ok (o, s') /\ cache_ok s' /\
  same s s' /\ unspent o = cache_utxo s t /\ (forall c, o = Some c -> trimmed (CCoins.vout c)).
Proof.
  intros [Hb Hm He]. unfold CCoinsViewCache.FetchCoins.
  destruct (CCoinsViewCache.cacheCoins s !! t) as [e|] eqn:E.
  { exists (Some (coins e)), s. split_and!; [done|done|done|unfold cache_utxo; by rewrite E|]. intros c [= <-]. apply (He t e E). }
  assert (cache_utxo s t = utxo (CCoinsViewCache.base s) t) as Eu by (unfold cache_utxo; by rewrite E).
  destruct (law_GetCoins (CCoinsViewCache.base s) t Hb) as (o & v' & -> & Hv & Hu & Hbest & Ho & Ht). cbn [res_bind].
  destruct o as [c|]; eexists _, _; (split; [done|]); rewrite Eu; (split_and!; [split| |exact Ho|exact Ht]); try done.
  - cbn. apply map_Forall_insert_2; [|by eapply entries_ext].
    split_and!; [by apply Ht| |by rewrite Hu, <- Ho]. unfold fresh. cbn [flags coins]. rewrite Hu, <- Ho. cbn.
    by destruct (CCoins.IsPruned c).
  - split; [intros t'|unfold cache_best; cbn; by rewrite Hbest].
    unfold cache_utxo. cbn. destruct (decide (t' = t)) as [->|].
    + by rewrite lookup_insert_eq, E, <- Ho.
    + rewrite lookup_insert_ne by done. by destruct (_ !! t').
  - cbn. by eapply entries_ext.
  - split; [intros t'|unfold cache_best; cbn; by rewrite Hbest]. unfold cache_utxo. cbn. by destruct (_ !! t').
Qed.

(** The end of a modifier that changed its coins to [c]. *)
Lemma end_modifier_spec s t e c n : cache_ok s -> dirty e = true ->
  (fresh e = true -> utxo (CCoinsViewCache.base s) t = None) ->
  let m := CCoinsViewCache.mk_modifier t n in
  let s1 := CCoinsViewCache.set_hasModifier true
    (CCoinsViewCache.set_cacheCoins (<[t := e]> (CCoinsViewCache.cacheCoins s)) s) in
  exists s', CCoinsViewCache.end_modifier usage m (CCoinsViewCache.set_modified m c s1) = Ok s' /\ cache_ok s' /\
    (forall t', cache_utxo s' t' = upd (cache_utxo s) t (unspent (Some (CCoins.Cleanup c))) t') /\ cache_best s' = cache_best s.
Proof.
  intros [Hb Hm He] Hd Hf m s1. unfold CCoinsViewCache.end_modifier, CCoinsViewCache.set_modified. subst m s1. cache_simpl.
  rewrite lookup_alter_eq, lookup_insert_eq. cache_simpl. rewrite fresh_flags. set (C := alter _ _ _).
  assert (forall t', t' <> t -> C !! t' = CCoinsViewCache.cacheCoins s !! t') as HC
    by (intros t' Hne; subst C; by rewrite lookup_alter_ne, lookup_insert_ne).
  assert (forall t' e', t' <> t -> C !! t' = Some e' -> entry_ok (utxo (CCoinsViewCache.base s)) t' e') as HC'
    by (intros t' e' Hne E; rewrite HC in E by done; by apply He).
  destruct (fresh e && _) eqn:Ef; eexists; (split; [done|]); (split; [split; [done|done|]|split; [|done]]); cache_simpl.
  - intros t' e' [Hne E]%lookup_delete_Some. by apply HC'.
  - intros t'. unfold cache_utxo, upd. cache_simpl. apply andb_true_iff in Ef as [Ef Ep]. case_decide as Et.
    + subst t'. rewrite lookup_delete_eq. unfold unspent. rewrite Ep. by apply Hf.
    + by rewrite lookup_delete_ne, HC.
  - intros t' e' E. destruct (decide (t' = t)) as [->|Hne]; [|rewrite lookup_insert_ne in E by done; by apply HC'].
    rewrite lookup_insert_eq in E. injection E as <-. split_and!; [apply trim_trimmed|by rewrite fresh_flags|by rewrite dirty_flags, Hd].
  - intros t'. unfold cache_utxo, upd. cache_simpl. case_decide as Et.
    + subst t'. by rewrite lookup_insert_eq.
    + by rewrite lookup_insert_ne, HC.
Qed.

Lemma set_base_ok s v : cache_ok s -> view_ok v -> (forall t, utxo v t = utxo (CCoinsViewCache.base s) t) ->
  best v = best (CCoinsViewCache.base s) ->
  cache_ok (CCoinsViewCache.set_base v s) /\ same s (CCoinsViewCache.set_base v s).
Proof.
  intros [Hb Hm He] Hv Hu Hh. split; split; try done.
  - cache_simpl. by eapply entries_ext.
  - intros t. unfold cache_utxo. cache_simpl. by destruct (_ !! t).
  - unfold cache_best. cache_simpl. by rewrite Hh.
Qed.

(** A modifier over the entry [e], inserted in a state [s1] with the unspent outputs of [s]. *)
Lemma modifier_spec {A} s s1 t e n (f : CCoins.t -> res (A * CCoins.t)) a c : cache_ok s1 -> same s s1 -> dirty e = true ->
  (fresh e = true -> utxo (CCoinsViewCache.base s1) t = None) -> f (coins e) = Ok (a, c) ->
  exists s', CCoinsViewCache.with_modifier usage (CCoinsViewCache.start_modifier t n
      (CCoinsViewCache.set_cacheCoins (<[t := e]> (CCoinsViewCache.cacheCoins s1)) s1)) f = Ok (a, s') /\
    cache_ok s' /\ (forall t', cache_utxo s' t' = upd (cache_utxo s) t (unspent (Some (CCoins.Cleanup c))) t') /\
    cache_best s' = cache_best s.
Proof.
  intros Hs1 [Hu Hbest] Hd Hf Hc.
  unfold CCoinsViewCache.with_modifier, CCoinsViewCache.start_modifier, CCoinsViewCache.modified. cache_simpl.
  rewrite (ok_modifier _ Hs1). cache_simpl. rewrite lookup_insert_eq. cache_simpl. rewrite Hc. cache_simpl.
  destruct (end_modifier_spec s1 t e c n Hs1 Hd Hf) as (s' & Es & Hs' & Hu' & Hb'). rewrite Es. cache_simpl.
  exists s'. split_and!; [done|done| |congruence]. intros t'. rewrite Hu'. unfold upd. case_decide; [done|apply Hu].
Qed.

(** The same modifier, when the change fails an assertion. *)
Lemma modifier_fails {A} s1 t e n (f : CCoins.t -> res (A * CCoins.t)) : cache_ok s1 -> f (coins e) = AssertFail ->
  CCoinsViewCache.with_modifier usage (CCoinsViewCache.start_modifier t n
    (CCoinsViewCache.set_cacheCoins (<[t := e]> (CCoinsViewCache.cacheCoins s1)) s1)) f = AssertFail.
Proof.
  intros Hs1 Hc. unfold CCoinsViewCache.with_modifier, CCoinsViewCache.start_modifier, CCoinsViewCache.modified. cache_simpl.
  rewrite (ok_modifier _ Hs1). cache_simpl. rewrite lookup_insert_eq. cache_simpl. by rewrite Hc.
Qed.

(** A change [f] of the coins of [t], wherever they come from. *)
Lemma ModifyCoins_spec {A} s t (f : CCoins.t -> res (A * CCoins.t)) : cache_ok s -> exists c0,
  unspent (Some c0) = cache_utxo s t /\ trimmed (CCoins.vout c0) /\
  (f c0 = AssertFail -> CCoinsViewCache.with_modifier usage (CCoinsViewCache.ModifyCoins usage t s) f = AssertFail) /\
  forall a c, f c0 = Ok (a, c) -> exists s', CCoinsViewCache.with_modifier usage (CCoinsViewCache.ModifyCoins usage t s) f = Ok (a, s') /\
    cache_ok s' /\ (forall t', cache_utxo s' t' = upd (cache_utxo s) t (unspent (Some (CCoins.Cleanup c))) t') /\
    cache_best s' = cache_best s.
Proof.
  intros Hs. pose proof Hs as [Hb Hm He]. unfold CCoinsViewCache.ModifyCoins. rewrite Hm.
  destruct (CCoinsViewCache.cacheCoins s !! t) as [e|] eqn:E.
  - exists (coins e). destruct (He t e E) as (Ht & Hf & _). split_and!; [unfold cache_utxo; by rewrite E|done| |].
    { intros Hc. cache_simpl. by apply modifier_fails. }
    intros a c Hc. cache_simpl. apply modifier_spec; [done|by split|by rewrite dirty_lor, orb_true_r| |done].
    rewrite fresh_lor, fresh_flags, orb_false_r. done.
  - assert (cache_utxo s t = utxo (CCoinsViewCache.base s) t) as Eu by (unfold cache_utxo; by rewrite E).
    destruct (law_GetCoins (CCoinsViewCache.base s) t Hb) as (o & v' & -> & Hv & Hu & Hbest & Ho & Ht). cache_simpl.
    destruct (set_base_ok s v' Hs Hv Hu Hbest) as [Hs1 Hsame].
    exists (default (CCoins.Clear CCoins.make) o). rewrite Eu, <- Ho.
    split_and!; [by destruct o|destruct o; [by apply Ht|done]| |].
    { intros Hc. apply (modifier_fails (CCoinsViewCache.set_base v' s)); [done|by destruct o]. }
    intros a c Hc.
    apply (modifier_spec s (CCoinsViewCache.set_base v' s)); [done|done|by rewrite dirty_lor, orb_true_r| |by destruct o].
    cache_simpl. rewrite fresh_lor, orb_false_r, Hu, <- Ho. unfold fresh, unspent.
    destruct o as [c0|]; cache_simpl; [by destruct (CCoins.IsPruned c0)|done].
Qed.

(** A new transaction: [f] starts from no output. *)
Lemma ModifyNewCoins_spec {A} s t cb (f : CCoins.t -> res (A * CCoins.t)) a c : cache_ok s ->
  (cb = false -> cache_utxo s t = None) -> f CCoins.make = Ok (a, c) ->
  exists s', CCoinsViewCache.with_modifier usage (CCoinsViewCache.ModifyNewCoins t cb s) f = Ok (a, s') /\
    cache_ok s' /\ (forall t', cache_utxo s' t' = upd (cache_utxo s) t (unspent (Some (CCoins.Cleanup c))) t') /\
    cache_best s' = cache_best s.
Proof.
  intros Hs Hnew Hc. pose proof Hs as [Hb Hm He]. unfold CCoinsViewCache.ModifyNewCoins. rewrite Hm.
  assert (forall e, e = default CCoinsCacheEntry.make (CCoinsViewCache.cacheCoins s !! t) ->
    (cb = false -> CCoins.IsPruned (coins e) = true) /\ (fresh e = true -> utxo (CCoinsViewCache.base s) t = None) /\
    (cb = false -> dirty e = false -> utxo (CCoinsViewCache.base s) t = None)) as H.
  { intros e ->. unfold cache_utxo in Hnew. destruct (_ !! t) as [e|] eqn:E; [|split_and!; [done|vm_compute; discriminate|by intros Hcb _; apply Hnew]]. destruct (He t e E) as (_ & Hf & Hd). cbn [default from_option]. unfold id.
    split_and!; [|done|].
    - intros Hcb. specialize (Hnew Hcb). unfold unspent in Hnew. by destruct (CCoins.IsPruned (coins e)).
    - intros Hcb Hd'. rewrite <- (Hd Hd'). by apply Hnew. }
  destruct (H _ eq_refl) as (Hp & Hf & Hd). set (e := default _ _) in *.
  destruct (negb cb && negb (CCoins.IsPruned (coins e))) eqn:Et.
  { apply andb_true_iff in Et as [Ec%negb_true_iff Ep]. by rewrite (Hp Ec) in Ep. }
  apply modifier_spec; [done|by split|by rewrite dirty_lor, orb_true_r| |done].
  rewrite fresh_lor, orb_false_r. case_bool; [|by rewrite fresh_flags].
  apply andb_true_iff in Heqb as [Ec%negb_true_iff Ed%negb_true_iff]. intros _. by apply Hd.
Qed.

Lemma HaveCoins_spec s t : cache_ok s -> exists s',
  CCoinsViewCache.HaveCoins usage t s = Ok (bool_decide (is_Some (cache_utxo s t)), s') /\ cache_ok s' /\ same s s'.
Proof.
  intros Hs. unfold CCoinsViewCache.HaveCoins. destruct (FetchCoins_spec s t Hs) as (o & s' & -> & Hs' & Hsame & Ho & Ht).
  cache_simpl. exists s'. split; [|done]. do 2 f_equal. rewrite <- Ho. destruct o as [c|]; [|done]. specialize (Ht c eq_refl).
  unfold unspent. destruct (CCoins.IsPruned c) eqn:E.
  - by rewrite (pruned_empty _ Ht E).
  - unfold CCoins.IsPruned in E. by destruct (CCoins.vout c).
Qed.

Lemma set_hashBlock_ok s h : cache_ok s -> cache_ok (CCoinsViewCache.set_hashBlock h s) /\
  (forall t, cache_utxo (CCoinsViewCache.set_hashBlock h s) t = cache_utxo s t) /\
  (BaseUint.IsNull WIDTH256 h = false -> cache_best (CCoinsViewCache.set_hashBlock h s) = h).
Proof. intros [Hb Hm He]. split_and!; [by split|done|]. intros E. unfold cache_best. cache_simpl. by rewrite E. Qed.

Lemma GetBestBlock_spec s : cache_ok s -> exists s', CCoinsViewCache.GetBestBlock s = Ok (cache_best s, s') /\ cache_ok s' /\ same s s'.
Proof.
  intros Hs. unfold CCoinsViewCache.GetBestBlock. destruct (BaseUint.IsNull WIDTH256 (CCoinsViewCache.hashBlock s)) eqn:E.
  - destruct (law_GetBestBlock _ (ok_base s Hs)) as (v & -> & Hv & Hu & Hh). cache_simpl.
    destruct (set_base_ok s v Hs Hv Hu Hh) as [Hs1 [Hu1 Hb1]]. unfold cache_best at 1. rewrite E. eexists. split; [done|].
    destruct (set_hashBlock_ok _ (best (CCoinsViewCache.base s)) Hs1) as (Hok & Hut & Hbe). split; [done|]. split.
    + intros t. by rewrite Hut.
    + unfold cache_best. cache_simpl. rewrite E, Hh. by case_bool.
  - exists s. unfold cache_best. rewrite E. split_and!; done.
Qed.

Lemma delete_ok s t n : cache_ok s -> (forall e, CCoinsViewCache.cacheCoins s !! t = Some e -> unspent (Some (coins e)) = utxo (CCoinsViewCache.base s) t) ->
  let s' := CCoinsViewCache.set_cacheCoins (delete t (CCoinsViewCache.cacheCoins s)) (CCoinsViewCache.add_usage n s) in
  cache_ok s' /\ same s s'.
Proof.
  intros [Hb Hm He] Ht s'. split; split; try done.
  - subst s'. cache_simpl. intros t' e [_ E]%lookup_delete_Some. by apply He.
  - intros t'. unfold cache_utxo. subst s'. cache_simpl. destruct (decide (t' = t)) as [->|].
    + rewrite lookup_delete_eq. destruct (_ !! t) as [e|]; [symmetry; by apply Ht|done].
    + by rewrite lookup_delete_ne.
Qed.

Lemma Uncache_spec s t : cache_ok s -> cache_ok (CCoinsViewCache.Uncache usage t s) /\ same s (CCoinsViewCache.Uncache usage t s).
Proof.
  intros Hs. unfold CCoinsViewCache.Uncache. destruct (_ !! t) as [e|] eqn:E; [|by split; [|split]].
  case_bool; [|by split; [|split]]. apply Z.eqb_eq in Heqb. apply delete_ok; [done|]. intros e' E'. rewrite E in E'. injection E' as <-.
  apply (ok_entries s Hs t e E). unfold dirty. by rewrite Heqb.
Qed.

(** An entry put in the place of one, with the usage of memory updated. *)
Lemma insert_ok s s1 t e : cache_ok s -> CCoinsViewCache.base s1 = CCoinsViewCache.base s ->
  CCoinsViewCache.hashBlock s1 = CCoinsViewCache.hashBlock s -> CCoinsViewCache.hasModifier s1 = false ->
  CCoinsViewCache.cacheCoins s1 = <[t := e]> (CCoinsViewCache.cacheCoins s) -> dirty e = true ->
  trimmed (CCoins.vout (coins e)) -> (fresh e = true -> utxo (CCoinsViewCache.base s) t = None) ->
  cache_ok s1 /\ (forall t', cache_utxo s1 t' = upd (cache_utxo s) t (unspent (Some (coins e))) t').
Proof.
  intros [Hb Hm He] Eb Eh Em Ec Hd Ht Hf. split.
  - split; [by rewrite Eb|done|]. rewrite Eb, Ec. apply map_Forall_insert_2; [|done]. split_and!; [done|done|congruence].
  - intros t'. unfold cache_utxo, upd. rewrite Eb, Ec. case_decide as E; [subst; by rewrite lookup_insert_eq|by rewrite lookup_insert_ne].
Qed.

Lemma write_entry_spec s k e : cache_ok s -> trimmed (CCoins.vout (coins e)) ->
  (dirty e = true -> fresh e = true -> cache_utxo s k = None) -> exists s', CCoinsViewCache.write_entry usage k e s = Ok s' /\
    cache_ok s' /\ (forall t, cache_utxo s' t = if dirty e then upd (cache_utxo s) k (unspent (Some (coins e))) t else cache_utxo s t).
Proof.
  intros Hs Ht Hf. pose proof (ok_modifier s Hs) as Hm. unfold CCoinsViewCache.write_entry. destruct (dirty e) eqn:Ed; [|by exists s].
  specialize (Hf eq_refl). unfold cache_utxo in Hf. destruct (CCoinsViewCache.cacheCoins s !! k) as [us|] eqn:E.
  - destruct (ok_entries s Hs k us E) as (Htu & Hfu & Hdu). assert (fresh e && negb (CCoins.IsPruned (coins us)) = false) as ->.
    { destruct (fresh e); [|done]. specialize (Hf eq_refl). unfold unspent in Hf. by destruct (CCoins.IsPruned (coins us)). }
    destruct (fresh us && CCoins.IsPruned (coins e)) eqn:Ef; eexists; (split; [done|]).
    + apply andb_true_iff in Ef as [Ef Ep]. split.
      * destruct Hs as [Hb _ He]. split; [done|done|]. cache_simpl. intros t' e' [_ E']%lookup_delete_Some. by apply He.
      * intros t. unfold cache_utxo, upd. cache_simpl. case_decide as Et.
        -- subst t. rewrite lookup_delete_eq. unfold unspent. rewrite Ep. by apply Hfu.
        -- by rewrite lookup_delete_ne.
    + eapply (insert_ok s _ k (CCoinsCacheEntry.mk (coins e) _)); try done; [by rewrite dirty_lor, orb_true_r|].
      rewrite fresh_lor, fresh_flags, orb_false_r. done.
  - destruct (fresh e && CCoins.IsPruned (coins e)) eqn:Ef; [apply andb_true_iff in Ef as [Ef Ep]|].
    + exists s. split; [done|]. split; [done|]. intros t. unfold upd. case_decide as Et; [|done]. subst t. unfold cache_utxo.
      rewrite E, (Hf Ef). unfold unspent. by rewrite Ep.
    + eexists. split; [done|]. eapply (insert_ok s _ k (CCoinsCacheEntry.mk (coins e) _)); try done; [by destruct (fresh e)|].
      intros Hfr. apply Hf. by destruct (fresh e).
Qed.

Lemma write_entries_spec l : forall s, cache_ok s -> NoDup l.*1 ->
  Forall (fun '(k, e) => trimmed (CCoins.vout (coins e)) /\ (dirty e = true -> fresh e = true -> cache_utxo s k = None)) l ->
  exists s', CCoinsViewCache.write_entries usage l s = Ok s' /\ cache_ok s' /\
    forall t, cache_utxo s' t = batched (cache_utxo s) (list_to_map l) t.
Proof.
  induction l as [|[k e] l IH]; intros s Hs Hnd Hl; [by exists s|]. cbn [fmap list_fmap fst] in Hnd.
  apply NoDup_cons in Hnd as [Hk Hnd]. apply Forall_cons in Hl as [[Ht Hf] Hl].
  destruct (write_entry_spec s k e Hs Ht Hf) as (s1 & E1 & Hs1 & Hu1). cbn [CCoinsViewCache.write_entries]. rewrite E1. cache_simpl.
  assert (forall t, t <> k -> cache_utxo s1 t = cache_utxo s t) as Hne
    by (intros t Hne; rewrite Hu1; unfold upd; case_bool; [by rewrite decide_False|done]).
  destruct (IH s1 Hs1 Hnd) as (s2 & E2 & Hs2 & Hu2).
  { apply Forall_forall. intros [k' e'] Hin. rewrite Forall_forall in Hl. specialize (Hl _ Hin). cbn in Hl.
    rewrite Hne; [done|]. intros ->. apply Hk. by apply (list_elem_of_fmap_2 fst _ (k, e')). }
  exists s2. split_and!; [done|done|]. intros t. rewrite Hu2. unfold batched. cbn [list_to_map foldr fst snd].
  destruct (decide (t = k)) as [->|Hn].
  - change (list_to_map ((k, e) :: l) : CCoinsMap) with (<[k := e]> (list_to_map l : CCoinsMap)).
    rewrite lookup_insert_eq, (not_elem_of_list_to_map_1 _ _ Hk), Hu1. unfold upd. case_bool; [by rewrite decide_True|done].
  - change (list_to_map ((k, e) :: l) : CCoinsMap) with (<[k := e]> (list_to_map l : CCoinsMap)).
    rewrite lookup_insert_ne, (Hne t Hn) by done. done.
Qed.

Lemma BatchWrite_spec s m h : cache_ok s -> batch_ok (cache_utxo s) m -> exists s', CCoinsViewCache.BatchWrite usage m h s = Ok (true, s') /\
  cache_ok s' /\ (forall t, cache_utxo s' t = batched (cache_utxo s) m t) /\ (BaseUint.IsNull WIDTH256 h = false -> cache_best s' = h).
Proof.
  intros Hs Hb. unfold CCoinsViewCache.BatchWrite. rewrite (ok_modifier s Hs).
  destruct (write_entries_spec (map_to_list m) s Hs) as (s' & -> & Hs' & Hu).
  - apply NoDup_fst_map_to_list.
  - apply Forall_forall. intros [k e] Hin%elem_of_map_to_list. by apply Hb.
  - cache_simpl. destruct (set_hashBlock_ok s' h Hs') as (Hok & Hut & Hbe). eexists. split_and!; [done|done| |done].
    intros t. by rewrite Hut, Hu, list_to_map_to_list.
Qed.

Lemma cache_utxo_clean s t c : cache_ok s -> cache_utxo s t = Some c -> CCoins.IsPruned c = false /\ trimmed (CCoins.vout c).
Proof.
  intros [Hb Hm He]. unfold cache_utxo. destruct (_ !! t) as [e|] eqn:E; [|by apply law_utxo].
  intros H. apply unspent_Some in H as [[= <-] Hp]. split; [done|]. apply (He t e E).
Qed.

(** What is written down is what the layer above saw. *)
Lemma Flush_spec s : cache_ok s -> exists s', CCoinsViewCache.Flush s = Ok (true, s') /\ cache_ok s' /\
  (forall t, cache_utxo s' t = cache_utxo s t) /\ (forall t, utxo (CCoinsViewCache.base s') t = cache_utxo s t) /\
  CCoinsViewCache.cacheCoins s' = ∅ /\
  (BaseUint.IsNull WIDTH256 (CCoinsViewCache.hashBlock s) = false ->
   best (CCoinsViewCache.base s') = cache_best s /\ cache_best s' = cache_best s).
Proof.
  intros Hs. pose proof Hs as [Hb Hm He]. unfold CCoinsViewCache.Flush.
  destruct (law_BatchWrite (CCoinsViewCache.base s) (CCoinsViewCache.cacheCoins s) (CCoinsViewCache.hashBlock s) Hb) as (v & -> & Hv & Hu & Hh).
  { intros t e E. destruct (He t e E) as (Ht & Hf & _). done. }
  cache_simpl. eexists. split; [done|].
  assert (forall t, utxo v t = cache_utxo s t) as Ev.
  { intros t. rewrite Hu. unfold batched, cache_utxo. destruct (_ !! t) as [e|] eqn:E; [|done]. destruct (He t e E) as (_ & _ & Hd).
    destruct (dirty e); [done|by rewrite Hd]. }
  split_and!; [by split|done|done|done|]. intros Hn. unfold cache_best. cache_simpl. rewrite Hn, Hh by done. done.
Qed.
End cache_laws.

#[export] Program Instance CCoinsViewLaws_cache {V} `{!CCoinsView V, !CCoinsViewLaws V} (usage : CCoins.t -> Z) :
  @CCoinsViewLaws (CCoinsViewCache.t V) (CCoinsView_cache usage) := {|
  view_ok := cache_ok;
  utxo := cache_utxo;
  best := cache_best;
|}.
Next Obligation. intros. by eapply cache_utxo_clean. Qed.
Next Obligation.
  intros V ? ? usage s t Hs. destruct (FetchCoins_spec usage s t Hs) as (o & s' & E & Hs' & [Hu Hb] & Ho & Ht).
  exists o, s'. by split_and!.
Qed.
Next Obligation.
  intros V ? ? usage s t Hs. destruct (HaveCoins_spec usage s t Hs) as (s' & E & Hs' & [Hu Hb]). exists s'. by split_and!.
Qed.
Next Obligation.
  intros V ? ? usage s Hs. destruct (GetBestBlock_spec s Hs) as (s' & E & Hs' & [Hu Hb]). exists s'. by split_and!.
Qed.
Next Obligation. intros V ? ? usage s m h Hs Hm. by apply BatchWrite_spec. Qed.

(** ** Sequences of operations *)

Inductive cop :=
| CGet (t : uint256)
| CHave (t : uint256)
| CModify (t : uint256) (f : CCoins.t -> CCoins.t)
| CNew (t : uint256) (coinbase : bool) (f : CCoins.t -> CCoins.t)
| CUncache (t : uint256)
| CSetBest (h : uint256)
| CFlush.

Inductive answer := ANone | ACoins (o : option CCoins.t) | ABool (b : bool).

(** One operation on a cache; a pruned coin counts as no coin. *)
Definition run_op {V} `{!CCoinsView V} (usage : CCoins.t -> Z) (o : cop) (s : CCoinsViewCache.t V) :
  res (answer * CCoinsViewCache.t V) :=
  match o with
  | CGet t => let? (c, s) := CCoinsViewCache.GetCoins usage t s in Ok (ACoins (unspent c), s)
  | CHave t => let? (b, s) := CCoinsViewCache.HaveCoins usage t s in Ok (ABool b, s)
  | CModify t f => CCoinsViewCache.with_modifier usage (CCoinsViewCache.ModifyCoins usage t s) (fun c => Ok (ANone, f c))
  | CNew t cb f => CCoinsViewCache.with_modifier usage (CCoinsViewCache.ModifyNewCoins t cb s) (fun c => Ok (ANone, f c))
  | CUncache t => Ok (ANone, CCoinsViewCache.Uncache usage t s)
  | CSetBest h => Ok (ANone, CCoinsViewCache.SetBestBlock h s)
  | CFlush => let? (b, s) := CCoinsViewCache.Flush s in Ok (ABool b, s)
  end.

Fixpoint run_ops {V} `{!CCoinsView V} (usage : CCoins.t -> Z) (l : list cop) (s : CCoinsViewCache.t V) :
  res (list answer * CCoinsViewCache.t V) :=
  match l with
  | [] => Ok ([], s)
  | o :: l =>
      let? (a, s) := run_op usage o s in
      let? (r, s) := run_ops usage l s in
      Ok (a :: r, s)
  end.

(** The specification: one map, and no cache. [None]: a new transaction, not a
    coinbase, over coins that are not all spent, which BIP 30 rules out. *)
Definition spec_op (o : cop) (U : uint256 -> option CCoins.t) : option (answer * (uint256 -> option CCoins.t)) :=
  match o with
  | CGet t => Some (ACoins (U t), U)
  | CHave t => Some (ABool (bool_decide (is_Some (U t))), U)
  | CModify t f => Some (ANone, upd U t (unspent (Some (CCoins.Cleanup (f (default CCoins.make (U t)))))))
  | CNew t cb f =>
      if negb cb && bool_decide (is_Some (U t)) then None
      else Some (ANone, upd U t (unspent (Some (CCoins.Cleanup (f CCoins.make)))))
  | CUncache _ | CSetBest _ => Some (ANone, U)
  | CFlush => Some (ABool true, U)
  end.

Fixpoint spec_ops (l : list cop) (U : uint256 -> option CCoins.t) : option (list answer * (uint256 -> option CCoins.t)) :=
  match l with
  | [] => Some ([], U)
  | o :: l =>
      match spec_op o U with
      | Some (a, U) => match spec_ops l U with Some (r, U) => Some (a :: r, U) | None => None end
      | None => None
      end
  end.

(** A change that does not tell a pruned coin from none: what is left of the
    coinbase flag, the height and the version of a spent coin depends on the cache. *)
Definition op_ok (o : cop) : Prop :=
  match o with
  | CModify t f => forall c, CCoins.vout c = [] ->
      unspent (Some (CCoins.Cleanup (f c))) = unspent (Some (CCoins.Cleanup (f CCoins.make)))
  | _ => True
  end.

Section refinement.
Context {V : Type} `{!CCoinsView V, !CCoinsViewLaws V} (usage : CCoins.t -> Z).

Lemma run_op_spec o s a U U' : cache_ok s -> op_ok o -> (forall t, cache_utxo s t = U t) -> spec_op o U = Some (a, U') ->
  exists s', run_op usage o s = Ok (a, s') /\ cache_ok s' /\ (forall t, cache_utxo s' t = U' t).
Proof.
  intros Hs Hop HU. destruct o as [t|t|t f|t cb f|t|h|]; cbn [run_op spec_op op_ok] in *.
  - intros [= <- <-]. unfold CCoinsViewCache.GetCoins. destruct (FetchCoins_spec usage s t Hs) as (o & s' & -> & Hs' & [Hu Hb] & Ho & Ht).
    cache_simpl. exists s'. rewrite Ho, HU. split_and!; [done|done|]. intros. by rewrite Hu.
  - intros [= <- <-]. destruct (HaveCoins_spec usage s t Hs) as (s' & -> & Hs' & [Hu Hb]). cache_simpl. exists s'.
    rewrite HU. split_and!; [done|done|]. intros. by rewrite Hu.
  - intros [= <- <-]. destruct (ModifyCoins_spec usage s t (fun c => Ok (ANone, f c)) Hs) as (c0 & Hc0 & Ht & _ & H).
    destruct (H _ _ eq_refl) as (s' & -> & Hs' & Hu & _). exists s'. split_and!; [done|done|]. intros t'. rewrite Hu.
    unfold upd. case_decide; [|done]. rewrite <- HU, <- Hc0. destruct (CCoins.IsPruned c0) eqn:Ep.
    + replace (unspent (Some c0)) with (@None CCoins.t) by (cbn [unspent]; by rewrite Ep). apply Hop. by apply pruned_empty.
    + by replace (unspent (Some c0)) with (Some c0) by (cbn [unspent]; by rewrite Ep).
  - destruct (negb cb && _) eqn:Eb; [done|]. intros [= <- <-].
    destruct (ModifyNewCoins_spec usage s t cb (fun c => Ok (ANone, f c)) ANone (f CCoins.make) Hs) as (s' & -> & Hs' & Hu & _); [|done|].
    + intros ->. cbn [negb andb] in Eb. rewrite HU. destruct (U t); [by rewrite bool_decide_true in Eb|done].
    + exists s'. split_and!; [done|done|]. intros t'. rewrite Hu. unfold upd. by case_decide.
  - intros [= <- <-]. destruct (Uncache_spec usage s t Hs) as [Hs' [Hu _]]. eexists. split_and!; [done|done|]. intros. by rewrite Hu.
  - intros [= <- <-]. destruct (set_hashBlock_ok s h Hs) as (Hs' & Hu & _). eexists. split_and!; [done|done|]. intros. by rewrite Hu.
  - intros [= <- <-]. destruct (Flush_spec s Hs) as (s' & -> & Hs' & Hu & _). cache_simpl. eexists. split_and!; [done|done|].
    intros. by rewrite Hu.
Qed.

Lemma run_ops_spec l : forall s a U U', cache_ok s -> Forall op_ok l -> (forall t, cache_utxo s t = U t) ->
  spec_ops l U = Some (a, U') -> exists s', run_ops usage l s = Ok (a, s') /\ cache_ok s' /\ (forall t, cache_utxo s' t = U' t).
Proof.
  induction l as [|o l IH]; intros s a U U' Hs Hl HU; cbn [spec_ops run_ops].
  - intros [= <- <-]. by exists s.
  - apply Forall_cons in Hl as [Ho Hl]. destruct (spec_op o U) as [[b U1]|] eqn:E1; [|done].
    destruct (spec_ops l U1) as [[r U2]|] eqn:E2; [|done]. intros [= <- <-].
    destruct (run_op_spec o s b U U1 Hs Ho HU E1) as (s1 & -> & Hs1 & Hu1). cache_simpl.
    destruct (IH s1 r U1 U2 Hs1 Hl Hu1 E2) as (s2 & -> & Hs2 & Hu2). cache_simpl. by exists s2.
Qed.

Lemma run_ops_app l1 : forall l2 s, run_ops usage (l1 ++ l2) s =
  let? (a1, s) := run_ops usage l1 s in let? (a2, s) := run_ops usage l2 s in Ok (a1 ++ a2, s).
Proof.
  induction l1 as [|o l1 IH]; intros l2 s; cbn [app run_ops].
  - cache_simpl. by destruct (run_ops usage l2 s) as [[]| | | |].
  - destruct (run_op usage o s) as [[b s1]| | | |]; try done. cache_simpl. rewrite IH.
    destruct (run_ops usage l1 s1) as [[r s2]| | | |]; try done. cache_simpl. by destruct (run_ops usage l2 s2) as [[]| | | |].
Qed.
End refinement.

(** ** Properties *)

(** C17: a cache over any lawful view, another cache included, is one map of the
    unspent coins: every sequence of reads, modifications, new transactions,
    evictions and flushes runs without a failed assertion or exception, answers
    as the map does, and the flush that ends it writes to the view below
    exactly the map and the best block, and leaves the cache empty. *)
Theorem cache_refines_map {V : Type} `{!CCoinsView V, !CCoinsViewLaws V} (usage : CCoins.t -> Z)
  (l : list cop) (s : CCoinsViewCache.t V) (a : list answer) (U' : uint256 -> option CCoins.t) (h : uint256) :
  cache_ok s -> Forall op_ok l -> BaseUint.IsNull WIDTH256 h = false -> spec_ops l (cache_utxo s) = Some (a, U') ->
  exists s', run_ops usage (l ++ [CSetBest h; CFlush]) s = Ok (a ++ [ANone; ABool true], s') /\ cache_ok s' /\
    (forall t, utxo (CCoinsViewCache.base s') t = U' t) /\ best (CCoinsViewCache.base s') = h /\
    CCoinsViewCache.cacheCoins s' = ∅.
Proof.
  intros Hs Hl Hh E. destruct (run_ops_spec usage l s a _ U' Hs Hl (fun _ => eq_refl) E) as (s1 & E1 & Hs1 & Hu1).
  rewrite run_ops_app, E1. cache_simpl. cbn [run_ops run_op]. cache_simpl.
  destruct (set_hashBlock_ok s1 h Hs1) as (Hs2 & Hu2 & Hb2).
  destruct (Flush_spec (CCoinsViewCache.SetBestBlock h s1) Hs2) as (s' & -> & Hs' & Hu' & Hb' & Hc' & Hbest). cache_simpl.
  exists s'. split_and!; [done|done|intros t; by rewrite Hb', Hu2| |done].
  destruct (Hbest Hh) as [-> _]. by apply Hb2.
Qed.

Definition demo_txid (n : Z) : uint256 := n :: replicate 7 0.
Definition demo_out (n : Z) : CTxOut.t := CTxOut.mk n [81].
Definition demo_new : CCoins.t -> CCoins.t := fun _ => CCoins.mk false [demo_out 5; demo_out 6] 100 1.
Definition demo_spend : CCoins.t -> CCoins.t := fun c => snd (CCoins.Spend 0 c).

(** A cache over a cache over a database. *)
Definition demo_db : CCoinsViewDB.t :=
  CCoinsViewDB.mk {[ demo_txid 1 := CCoins.mk true [demo_out 50] 7 1 ]} (Some (demo_txid 77)).
Definition demo_usage (c : CCoins.t) : Z := 32 * zlen (CCoins.vout c).
Definition demo_cache : CCoinsViewCache.t (CCoinsViewCache.t CCoinsViewDB.t) :=
  CCoinsViewCache.make (CCoinsViewCache.make demo_db).
Definition demo_ops : list cop :=
  [CHave (demo_txid 1); CNew (demo_txid 2) false demo_new; CModify (demo_txid 1) demo_spend; CHave (demo_txid 1);
   CModify (demo_txid 2) demo_spend; CUncache (demo_txid 2); CFlush; CGet (demo_txid 2)].

Lemma cache_refines_map_witness :
  let I : CCoinsView (CCoinsViewCache.t CCoinsViewDB.t) := CCoinsView_cache demo_usage in
  exists s', run_ops (CCoinsView0 := I) demo_usage (demo_ops ++ [CSetBest (demo_txid 99); CFlush]) demo_cache =
      Ok ([ABool true; ANone; ANone; ABool false; ANone; ANone; ABool true;
           ACoins (Some (CCoins.mk false [CTxOut.SetNull; demo_out 6] 100 1)); ANone; ABool true], s') /\
    utxo (CCoinsViewCache.base s') (demo_txid 1) = None /\ best (CCoinsViewCache.base s') = demo_txid 99.
Proof.
  intros I.
  assert (cache_ok demo_cache) as Hs.
  { split; [split; [|done|done]|done|done]. intros t c E. change (({[ demo_txid 1 := CCoins.mk true [demo_out 50] 7 1 ]} : gmap uint256 CCoins.t) !! t = Some c) in E. apply lookup_singleton_Some in E as [_ <-]. split; [done|]. by intros o [= <-]. }
  assert (Forall op_ok demo_ops) as Hl.
  { repeat (apply Forall_cons; split); try done. all: intros [cb v h n] Hc; cbn in Hc; subst v; reflexivity. }
  destruct (cache_refines_map demo_usage demo_ops demo_cache _ _ (demo_txid 99) Hs Hl eq_refl eq_refl)
    as (s' & E & _ & Hu & Hb & _).
  exists s'. split; [exact E|]. split; [by rewrite Hu|exact Hb].
Defined.
