(* ===== verification/Undo.v ===== *)
(** Undo data: src/sige/src/undo.h.

    What connecting a block destroys: the outputs it spends and, where an output
    was the last of its transaction, the metadata of the coins. *)

From S2P Require Import Prelude Bytes BaseUint UintBytes Uint256 Serialize Codec Opcode Prevector ScriptNum Script Amount Transaction PubKey Compressor Coins.

Module CTxInUndo.
Record t := mk { txout : CTxOut.t; fCoinBase : bool; nHeight : Z; nVersion : Z }.

Definition default : t := mk CTxOut.SetNull false 0 0.
(** The constructor with its default arguments. *)
Definition make (txoutIn : CTxOut.t) : t := mk txoutIn false 0 0.

Section serialisation.
Context (ec : secp256k1) (mem : bytes).

(** The expression under VARINT. *)
Definition code (u : t) : Z := u32 (u32 (nHeight u * 2) + (if fCoinBase u then 1 else 0)).

Definition Serialize (u : t) : res bytes :=
  let? o := CTxOutCompressor.Serialize ec mem (txout u) in
  Ok (Codec.Serialize (c_varint 32) (code u) ++
      (if 0 <? nHeight u then Codec.Serialize c_varint_int (nVersion u) else []) ++ o).

(** The same code over a [CSizeComputer]. *)
Definition SerSize (u : t) : Z :=
  match CTxOutCompressor.CompressAmount (u64 (CTxOut.nValue (txout u))) with
  | Ok nVal =>
      Codec.SerSize (c_varint 32) (code u) + (if 0 <? nHeight u then Codec.SerSize c_varint_int (nVersion u) else 0) +
      (Codec.SerSize (c_varint 64) nVal + CScriptCompressor.SerSize ec mem (CTxOut.scriptPubKey (txout u)))
  | _ => 0
  end.

(** Into the object [u0]. *)
Definition Unserialize (S : Type) `{!Stream S} (u0 : t) : rd S t :=
  let! nCode := Codec.Unserialize (c_varint 32) S in
  let nHeight := nCode / 2 in
  let fCoinBase := negb (Z.land nCode 1 =? 0) in
  let! nVersion := if 0 <? nHeight then Codec.Unserialize c_varint_int S else rd_ret (nVersion u0) in
  let! txout := CTxOutCompressor.Unserialize ec mem S (txout u0) in
  rd_ret (mk txout fCoinBase nHeight nVersion).

(** The overloads that the template of vectors calls, on new objects; the
    assertion on amounts is shown never to fail. *)
Definition codec : codec t := {|
  Codec.Serialize u := match Serialize u with Ok b => b | _ => [] end;
  Codec.SerSize := SerSize;
  Codec.Unserialize S _ := Unserialize S default;
|}.
End serialisation.
End CTxInUndo.

Module CTxUndo.
Record t := mk { vprevout : list CTxInUndo.t }.
Definition codec (ec : secp256k1) (mem : bytes) (sizeof_CTxInUndo : Z) : codec t :=
  c_map (c_vector (CTxInUndo.codec ec mem) sizeof_CTxInUndo) mk vprevout.
End CTxUndo.

Module CBlockUndo.
Record t := mk { vtxundo : list CTxUndo.t }.
Definition codec (ec : secp256k1) (mem : bytes) (sizeof_CTxInUndo sizeof_CTxUndo : Z) : codec t :=
  c_map (c_vector (CTxUndo.codec ec mem sizeof_CTxInUndo) sizeof_CTxUndo) mk vtxundo.
End CBlockUndo.

(** ** Laws *)

(** The undo data that connecting a block makes, for versions that are not negative. *)
Definition wf_undo (u : CTxInUndo.t) : Prop :=
  0 <= CTxInUndo.nHeight u < 2 ^ 31 /\
  (if 0 <? CTxInUndo.nHeight u then 0 <= CTxInUndo.nVersion u < 2 ^ 31 else CTxInUndo.nVersion u = 0) /\
  0 <= CTxOut.nValue (CTxInUndo.txout u) < 2 ^ 60 /\ zlen (CTxOut.scriptPubKey (CTxInUndo.txout u)) <= MAX_SCRIPT_SIZE.

#[local] Instance varint32_undo : Lawful (c_varint 32) (in_u 32).
Proof. by apply c_varint_lawful. Qed.
#[local] Instance varint64_undo : Lawful (c_varint 64) (in_u 64).
Proof. by apply c_varint_lawful. Qed.

Section laws.
Context (ec : secp256k1) (Hec : curve_compression ec) (mem : bytes).

Lemma script_size s : zlen s < 2 ^ 31 ->
  CScriptCompressor.SerSize ec mem s = Z.of_nat (length (CScriptCompressor.Serialize ec mem s)).
Proof.
  intros Hs. unfold CScriptCompressor.SerSize, CScriptCompressor.Serialize, zlen in *.
  destruct (CScriptCompressor.Compress ec mem s); [done|]. rewrite length_app.
  rewrite (law_size (c := c_varint 32)); [lia|]. apply wrap_range. lia.
Qed.

Lemma undo_code_bits u : 0 <= CTxInUndo.nHeight u < 2 ^ 31 ->
  in_u 32 (CTxInUndo.code u) /\ CTxInUndo.code u / 2 = CTxInUndo.nHeight u /\
  negb (Z.land (CTxInUndo.code u) 1 =? 0) = CTxInUndo.fCoinBase u.
Proof.
  intros Hh. unfold CTxInUndo.code. set (h := CTxInUndo.nHeight u) in *. rewrite (wrap_small 32 (h * 2)) by (unfold in_u; lia).
  rewrite wrap_small by (unfold in_u; destruct (CTxInUndo.fCoinBase u); lia). change 1 with (2 ^ 1 - 1) at 4.
  rewrite land_ones_mod by lia. change (2 ^ 1) with 2. rewrite Z.add_comm, Z.mul_comm.
  rewrite (Z.mul_comm 2), Z.div_add, Z.mod_add by lia. unfold in_u. destruct (CTxInUndo.fCoinBase u); (split; [lia|split; [|done]]).
  - change (1 / 2) with 0. lia.
  - change (0 / 2) with 0. lia.
Qed.

#[export] Instance undo_lawful : Lawful (CTxInUndo.codec ec mem) wf_undo.
Proof.
  split; unfold CTxInUndo.codec; cbn [Codec.Serialize Codec.SerSize Codec.Unserialize].
  - intros u (Hh & Hv & Ho & Hs). unfold CTxInUndo.SerSize, CTxInUndo.Serialize, CTxOutCompressor.Serialize.
    destruct (CompressAmount_total (u64 (CTxOut.nValue (CTxInUndo.txout u)))) as (x & -> & Hx); [by apply wrap_range|].
    cbn [res_bind]. destruct (undo_code_bits u Hh) as (Hc & _). rewrite !length_app, script_size by (unfold MAX_SCRIPT_SIZE in Hs; lia).
    rewrite (law_size (c := c_varint 32) _ Hc), (law_size (c := c_varint 64) _ Hx).
    destruct (0 <? CTxInUndo.nHeight u); [rewrite (law_size (c := c_varint_int)) by done; lia|cbn [length]; lia].
  - intros S ?? u (Hh & Hv & Ho & Hs). unfold CTxInUndo.Serialize, CTxInUndo.Unserialize.
    destruct (reads_txout ec Hec mem (S := S) (CTxInUndo.txout u) CTxOut.SetNull Ho) as (b & -> & Hr);
      [unfold MAX_SCRIPT_SIZE in Hs; lia|]. cbn [res_bind]. rewrite (proj2 (Z.leb_le _ _)) in Hr by done.
    destruct (undo_code_bits u Hh) as (Hc & Ed & Eb). eapply reads_bind; [by apply law_reads|]. rewrite Ed, Eb.
    destruct u as [o cb h v]. cbn [CTxInUndo.nHeight CTxInUndo.nVersion CTxInUndo.txout CTxInUndo.default CTxInUndo.fCoinBase] in *.
    destruct (0 <? h).
    + eapply reads_bind; [by apply law_reads|]. eapply reads_bind_ret; [exact Hr|apply reads_ret].
    + subst v. change b with ([] ++ b). eapply reads_bind; [apply reads_ret|]. eapply reads_bind_ret; [exact Hr|apply reads_ret].
Qed.

Definition wf_txundo (t : CTxUndo.t) : Prop :=
  zlen (CTxUndo.vprevout t) <= MAX_SIZE /\ Forall wf_undo (CTxUndo.vprevout t).
Definition wf_blockundo (b : CBlockUndo.t) : Prop :=
  zlen (CBlockUndo.vtxundo b) <= MAX_SIZE /\ Forall wf_txundo (CBlockUndo.vtxundo b).

Context (sizeof_CTxInUndo sizeof_CTxUndo : Z) (Hin : 0 < sizeof_CTxInUndo <= 5000000) (Htx : 0 < sizeof_CTxUndo <= 5000000).

Lemma blockundo_lawful : Lawful (CBlockUndo.codec ec mem sizeof_CTxInUndo sizeof_CTxUndo) wf_blockundo.
Proof.
  assert (Lawful (CTxUndo.codec ec mem sizeof_CTxInUndo) wf_txundo) as Ht.
  { eapply lawful_weaken; [apply c_map_lawful, c_vector_lawful; [apply _|done]|]. by intros [v] [? ?]. }
  eapply lawful_weaken; [apply c_map_lawful, c_vector_lawful; [exact Ht|done]|]. by intros [v] [? ?].
Qed.
End laws.
