(* ===== verification/State.v ===== *)
(** The outcome of a validation: [CValidationState] of
    src/sige/src/consensus/validation.h. *)

From S2P Require Import Prelude.

Definition REJECT_MALFORMED : Z := 0x01.
Definition REJECT_INVALID : Z := 0x10.
Definition REJECT_OBSOLETE : Z := 0x11.
Definition REJECT_DUPLICATE : Z := 0x12.
Definition REJECT_NONSTANDARD : Z := 0x40.
Definition REJECT_DUST : Z := 0x41.
Definition REJECT_INSUFFICIENTFEE : Z := 0x42.
Definition REJECT_CHECKPOINT : Z := 0x43.

Module CValidationState.
Inductive mode_state := MODE_VALID | MODE_INVALID | MODE_ERROR.

#[export] Instance mode_state_eq_dec : EqDecision mode_state.
Proof. solve_decision. Defined.

Record t := mk {
  mode : mode_state;
  nDoS : Z;
  strRejectReason : string;
  chRejectCode : Z;
  corruptionPossible : bool;
  strDebugMessage : string;
}.

Definition make : t := mk MODE_VALID 0 "" 0 false "".

(** The arguments are all explicit; [ret] is the value returned. *)
Definition DoS (level : Z) (ret : bool) (chRejectCodeIn : Z) (strRejectReasonIn : string) (corruptionIn : bool)
  (strDebugMessageIn : string) (s : t) : bool * t :=
  if bool_decide (mode s = MODE_ERROR)
  then (ret, mk (mode s) (nDoS s) strRejectReasonIn chRejectCodeIn corruptionIn strDebugMessageIn)
  else (ret, mk MODE_INVALID (i32 (nDoS s + level)) strRejectReasonIn chRejectCodeIn corruptionIn strDebugMessageIn).

Definition Invalid (ret : bool) (chRejectCodeIn : Z) (strRejectReasonIn strDebugMessageIn : string) (s : t) : bool * t :=
  DoS 0 ret chRejectCodeIn strRejectReasonIn false strDebugMessageIn s.

Definition Error (strRejectReasonIn : string) (s : t) : bool * t :=
  (false, mk MODE_ERROR (nDoS s) (if bool_decide (mode s = MODE_VALID) then strRejectReasonIn else strRejectReason s)
     (chRejectCode s) (corruptionPossible s) (strDebugMessage s)).

Definition IsValid (s : t) : bool := bool_decide (mode s = MODE_VALID).
Definition IsInvalid (s : t) : bool := bool_decide (mode s = MODE_INVALID).
Definition IsError (s : t) : bool := bool_decide (mode s = MODE_ERROR).
(** [IsInvalid(nDoSOut)]: the value written, if any. *)
Definition IsInvalid_DoS (s : t) : option Z := if IsInvalid s then Some (nDoS s) else None.
Definition CorruptionPossible (s : t) : bool := corruptionPossible s.
Definition SetCorruptionPossible (s : t) : t :=
  mk (mode s) (nDoS s) (strRejectReason s) (chRejectCode s) true (strDebugMessage s).
Definition GetRejectCode (s : t) : Z := chRejectCode s.
Definition GetRejectReason (s : t) : string := strRejectReason s.
Definition GetDebugMessage (s : t) : string := strDebugMessage s.
End CValidationState.
