(* ===== verification/Connect.v ===== *)
(** Connecting and disconnecting transactions: [UpdateCoins],
    [ApplyTxInUndo], [DisconnectBlock] and [Consensus::CheckTxInputs] of
    src/sige/src/validation.cpp, over the caches of [CoinsView].

    Undo files are read by a parameter.  Debug messages keep their format and
    not the values in it; logging is left out.  The specification is a ledger:
    one map from transactions to their unspent outputs. *)

From S2P Require Import Prelude Bytes BaseUint UintBytes Uint256 Serialize Codec Header Chain Opcode Prevector ScriptNum Script Amount Transaction Block PubKey Compressor Coins CoinsView Undo State.

Definition COINBASE_MATURITY : Z := 100.

Section connect.
Context {V : Type} `{!CCoinsView V} (usage : CCoins.t -> Z).
Abbreviation cache := (CCoinsViewCache.t V).

(** *** UpdateCoins *)

(** The body of the loop over the inputs, between the modifier's birth and death. *)
Definition spend_coins (nPos : Z) (coins : CCoins.t) : res (CTxInUndo.t * CCoins.t) :=
  match CCoins.vout coins !! Z.to_nat nPos with
  | None => AssertFail
  | Some o =>
      if CTxOut.IsNull o then AssertFail
      else
        let undo := CTxInUndo.make o in
        let '(_, coins) := CCoins.Spend nPos coins in
        if (length (CCoins.vout coins) =? 0)%nat
        then Ok (CTxInUndo.mk (CTxInUndo.txout undo) (CCoins.fCoinBase coins) (u32 (CCoins.nHeight coins)) (CCoins.nVersion coins), coins)
        else Ok (undo, coins)
  end.

Fixpoint spend_loop (vin : list CTxIn.t) (vprevout : list CTxInUndo.t) (inputs : cache) : res (list CTxInUndo.t * cache) :=
  match vin with
  | [] => Ok (vprevout, inputs)
  | txin :: vin =>
      let prevout := CTxIn.prevout txin in
      let? (undo, inputs) := CCoinsViewCache.with_modifier usage
        (CCoinsViewCache.ModifyCoins usage (COutPoint.hash prevout) inputs) (spend_coins (COutPoint.n prevout)) in
      spend_loop vin (vprevout ++ [undo]) inputs
  end.

Definition UpdateCoins (tx : CTransaction) (inputs : cache) (txundo : CTxUndo.t) (nHeight : Z) : res (CTxUndo.t * cache) :=
  let? (vprevout, inputs) :=
    if negb (IsCoinBase tx) then spend_loop (vin tx) (CTxUndo.vprevout txundo) inputs
    else Ok (CTxUndo.vprevout txundo, inputs) in
  let? (_, inputs) := CCoinsViewCache.with_modifier usage
    (CCoinsViewCache.ModifyNewCoins (GetHash tx) (IsCoinBase tx) inputs) (fun c => Ok (tt, CCoins.FromTx tx nHeight)) in
  Ok (CTxUndo.mk vprevout, inputs).

(** The overload without undo data. *)
Definition UpdateCoins_noundo (tx : CTransaction) (inputs : cache) (nHeight : Z) : res cache :=
  let? (_, inputs) := UpdateCoins tx inputs (CTxUndo.mk []) nHeight in Ok inputs.

(** *** Undoing *)

(** [vout.resize(n)], larger *)
Definition resize_vout (n : Z) (v : list CTxOut.t) : list CTxOut.t :=
  if zlen v <? n then v ++ replicate (Z.to_nat n - length v) CTxOut.SetNull else v.

Definition undo_coins (undo : CTxInUndo.t) (n : Z) (coins : CCoins.t) : res (bool * CCoins.t) :=
  let fClean := true in
  let '(fClean, coins) :=
    if negb (CTxInUndo.nHeight undo =? 0) then
      let fClean := if negb (CCoins.IsPruned coins) then false else fClean in
      let coins := CCoins.Clear coins in
      (fClean, CCoins.mk (CTxInUndo.fCoinBase undo) (CCoins.vout coins) (i32 (CTxInUndo.nHeight undo)) (CTxInUndo.nVersion undo))
    else (if CCoins.IsPruned coins then false else fClean, coins) in
  let fClean := if CCoins.IsAvailable n coins then false else fClean in
  let v := resize_vout (u32 (n + 1)) (CCoins.vout coins) in
  if n <? zlen v
  then Ok (fClean, CCoins.mk (CCoins.fCoinBase coins) (<[Z.to_nat n := CTxInUndo.txout undo]> v) (CCoins.nHeight coins) (CCoins.nVersion coins))
  else Undef.

Definition ApplyTxInUndo (undo : CTxInUndo.t) (view : cache) (out : COutPoint.t) : res (bool * cache) :=
  CCoinsViewCache.with_modifier usage (CCoinsViewCache.ModifyCoins usage (COutPoint.hash out) view)
    (undo_coins undo (COutPoint.n out)).

(** [for (j = tx.vin.size(); j-- > 0;)] *)
Fixpoint undo_inputs (j : nat) (vin : list CTxIn.t) (vprevout : list CTxInUndo.t) (fClean : bool) (view : cache) :
  res (bool * cache) :=
  match j with
  | O => Ok (fClean, view)
  | S j =>
      let? txin := res_of_option (vin !! j) in
      let? undo := res_of_option (vprevout !! j) in
      let? (ok, view) := ApplyTxInUndo undo view (CTxIn.prevout txin) in
      undo_inputs j vin vprevout (if ok : bool then fClean else false) view
  end.

(** The block that checks the outputs of a transaction and removes them. *)
Definition remove_outputs (tx : CTransaction) (nHeight : Z) (outs : CCoins.t) : res (bool * CCoins.t) :=
  let outs := CCoins.ClearUnspendable outs in
  let outsBlock := CCoins.FromTx tx nHeight in
  let outs :=
    if CCoins.nVersion outsBlock <? 0
    then CCoins.mk (CCoins.fCoinBase outs) (CCoins.vout outs) (CCoins.nHeight outs) (CCoins.nVersion outsBlock)
    else outs in
  Ok (negb (CCoins.op_ne outs outsBlock), CCoins.Clear outs).

(** [for (i = block.vtx.size() - 1; i >= 0; i--)]; [None] is the error return. *)
Fixpoint undo_txs (n : nat) (vtx : list CTransaction) (vtxundo : list CTxUndo.t) (nHeight : Z) (fClean : bool) (view : cache) :
  res (option bool * cache) :=
  match n with
  | O => Ok (Some fClean, view)
  | S i =>
      let? tx := res_of_option (vtx !! i) in
      let? (same, view) := CCoinsViewCache.with_modifier usage
        (CCoinsViewCache.ModifyCoins usage (GetHash tx) view) (remove_outputs tx nHeight) in
      let fClean := if same : bool then fClean else false in
      if (0 <? i)%nat then
        let? txundo := res_of_option (vtxundo !! (i - 1)%nat) in
        if negb (length (CTxUndo.vprevout txundo) =? length (vin tx))%nat then Ok (None, view)
        else
          let? (fClean, view) := undo_inputs (length (vin tx)) (vin tx) (CTxUndo.vprevout txundo) fClean view in
          undo_txs i vtx vtxundo nHeight fClean view
      else undo_txs i vtx vtxundo nHeight fClean view
  end.

(** The value returned, and what is left in [*pfClean] if it is not NULL. *)
Definition DisconnectBlock (st : gmap nat Chain.CBlockIndex) (UndoReadFromDisk : CDiskBlockPos.t -> uint256 -> option CBlockUndo.t)
  (block : CBlock) (pindex : nat) (view : cache) (pfClean : bool) : res (bool * option bool * cache) :=
  let failed (view : cache) := Ok (false, if pfClean then Some false else None, view) in
  let? b := Chain.deref st (Some pindex) in
  let? hash := BlockIndex.GetBlockHash b in
  let? (best, view) := CCoinsViewCache.GetBestBlock view in
  if negb (BaseUint.op_eq hash best) then AssertFail
  else
    let pos := BlockIndex.GetUndoPos b in
    if CDiskBlockPos.IsNull pos then failed view
    else
      let? prev := Chain.deref st (Chain.pprev b) in
      let? hashPrev := BlockIndex.GetBlockHash prev in
      match UndoReadFromDisk pos hashPrev with
      | None => failed view
      | Some blockUndo =>
          let vtxundo := CBlockUndo.vtxundo blockUndo in
          if negb (length vtxundo + 1 =? length (vtx block))%nat then failed view
          else
            let? (r, view) := undo_txs (length (vtx block)) (vtx block) vtxundo (Chain.nHeight b) true view in
            match r with
            | None => failed view
            | Some fClean =>
                let view := CCoinsViewCache.SetBestBlock hashPrev view in
                if pfClean then Ok (true, Some fClean, view) else Ok (fClean, None, view)
            end
      end.

(** *** CheckTxInputs *)

(** The loop over the inputs: the state's report, or the sum of the values. *)
Fixpoint value_inputs (vin : list CTxIn.t) (nSpendHeight nValueIn : Z) (state : CValidationState.t) (inputs : cache) :
  res ((bool * CValidationState.t + Z) * cache) :=
  match vin with
  | [] => Ok (inr nValueIn, inputs)
  | txin :: vin =>
      let prevout := CTxIn.prevout txin in
      let? (coins, inputs) := CCoinsViewCache.AccessCoins usage (COutPoint.hash prevout) inputs in
      match coins with
      | None => AssertFail
      | Some coins =>
          if CCoins.IsCoinBase coins && (i32 (nSpendHeight - CCoins.nHeight coins) <? COINBASE_MATURITY) then
            Ok (inl (CValidationState.Invalid false REJECT_INVALID "bad-txns-premature-spend-of-coinbase"
              "tried to spend coinbase at depth %d" state), inputs)
          else
            let? o := res_of_option (CCoins.vout coins !! Z.to_nat (COutPoint.n prevout)) in
            let nValueIn := i64 (nValueIn + CTxOut.nValue o) in
            if negb (MoneyRange (CTxOut.nValue o)) || negb (MoneyRange nValueIn) then
              Ok (inl (CValidationState.DoS 100 false REJECT_INVALID "bad-txns-inputvalues-outofrange" false "" state), inputs)
            else value_inputs vin nSpendHeight nValueIn state inputs
      end
  end.

Definition CheckTxInputs (tx : CTransaction) (state : CValidationState.t) (inputs : cache) (nSpendHeight : Z) :
  res (bool * CValidationState.t * cache) :=
  let? (have, inputs) := CCoinsViewCache.HaveInputs usage tx inputs in
  if negb have then Ok (CValidationState.Invalid false 0 "" "Inputs unavailable" state, inputs)
  else
    let? (r, inputs) := value_inputs (vin tx) nSpendHeight 0 state inputs in
    match r with
    | inl report => Ok (report, inputs)
    | inr nValueIn =>
        let? nValueOut := GetValueOut tx in
        if nValueIn <? nValueOut then
          Ok (CValidationState.DoS 100 false REJECT_INVALID "bad-txns-in-belowout" false "value in (%s) < value out (%s)" state, inputs)
        else
          let nTxFee := i64 (nValueIn - nValueOut) in
          if nTxFee <? 0 then
            Ok (CValidationState.DoS 100 false REJECT_INVALID "bad-txns-fee-negative" false "" state, inputs)
          else if negb (MoneyRange (i64 (0 + nTxFee))) then
            Ok (CValidationState.DoS 100 false REJECT_INVALID "bad-txns-fee-outofrange" false "" state, inputs)
          else Ok (true, state, inputs)
    end.
End connect.
