(* ===== verification/Ledger.v ===== *)
(** The ledger of unspent outputs, and that connecting and disconnecting the
    transactions of a block follow it: the specification and theorems of
    [Connect]. *)

From S2P Require Import Prelude Bytes BaseUint UintBytes Uint256 Serialize Codec Header Chain Opcode Prevector ScriptNum Script Amount Transaction Block PubKey Compressor Coins CoinsView Undo State Connect.

(** ** The ledger *)

Abbreviation ledger := (gmap uint256 CCoins.t).

(** Spent coins are not kept. *)
Definition put (t : uint256) (c : CCoins.t) (M : ledger) : ledger :=
  if CCoins.IsPruned c then delete t M else <[t := c]> M.

(** The coins after the output [n] is spent. *)
Definition without (n : nat) (c : CCoins.t) : CCoins.t :=
  CCoins.mk (CCoins.fCoinBase c) (trim (<[n := CTxOut.SetNull]> (CCoins.vout c))) (CCoins.nHeight c) (CCoins.nVersion c).

(** Spending an output that is there; what it destroys. *)
Definition spend_out (p : COutPoint.t) (M : ledger) : option (CTxInUndo.t * ledger) :=
  if COutPoint.n p <? 0 then None
  else
    match M !! COutPoint.hash p with
    | None => None
    | Some c =>
        match CCoins.vout c !! Z.to_nat (COutPoint.n p) with
        | None => None
        | Some o =>
            if CTxOut.IsNull o then None
            else
              let c' := without (Z.to_nat (COutPoint.n p)) c in
              Some (if CCoins.IsPruned c' then CTxInUndo.mk o (CCoins.fCoinBase c) (CCoins.nHeight c) (CCoins.nVersion c)
                    else CTxInUndo.make o, put (COutPoint.hash p) c' M)
        end
    end.

Fixpoint spend_outs (vin : list CTxIn.t) (M : ledger) : option (list CTxInUndo.t * ledger) :=
  match vin with
  | [] => Some ([], M)
  | txin :: vin =>
      match spend_out (CTxIn.prevout txin) M with
      | None => None
      | Some (u, M) => match spend_outs vin M with Some (us, M) => Some (u :: us, M) | None => None end
      end
  end.

(** A transaction spends its inputs and adds its outputs; it overwrites nothing. *)
Definition ledger_tx (h : Z) (tx : CTransaction) (M : ledger) : option (CTxUndo.t * ledger) :=
  match (if IsCoinBase tx then Some ([], M) else spend_outs (vin tx) M) with
  | None => None
  | Some (us, M) =>
      match M !! GetHash tx with
      | Some _ => None
      | None => Some (CTxUndo.mk us, put (GetHash tx) (CCoins.FromTx tx h) M)
      end
  end.

Fixpoint ledger_txs (h : Z) (vtx : list CTransaction) (M : ledger) : option (list CTxUndo.t * ledger) :=
  match vtx with
  | [] => Some ([], M)
  | tx :: vtx =>
      match ledger_tx h tx M with
      | None => None
      | Some (u, M) => match ledger_txs h vtx M with Some (us, M) => Some (u :: us, M) | None => None end
      end
  end.

(** The coins that can be restored from undo data: at a height that is not 0,
    spent outputs in their one null form. *)
Definition null_form (o : CTxOut.t) : Prop := CTxOut.IsNull o = true -> o = CTxOut.SetNull.

Record coins_ok (c : CCoins.t) : Prop := {
  coins_height : 0 < CCoins.nHeight c < 2 ^ 31;
  coins_size : zlen (CCoins.vout c) < 2 ^ 32;
  coins_nulls : Forall null_form (CCoins.vout c);
  coins_trimmed : trimmed (CCoins.vout c);
  coins_unspent : CCoins.IsPruned c = false;
}.

Definition ledger_ok (M : ledger) : Prop := map_Forall (fun _ c => coins_ok c) M.

(** ** Coins *)

Lemma Cleanup_trim c : CCoins.Cleanup c =
  CCoins.mk (CCoins.fCoinBase c) (trim (CCoins.vout c)) (CCoins.nHeight c) (CCoins.nVersion c).
Proof. done. Qed.

Lemma Cleanup_trimmed c : trimmed (CCoins.vout c) -> CCoins.Cleanup c = c.
Proof. intros H. rewrite Cleanup_trim, trimmed_trim by done. by destruct c. Qed.

Lemma Forall_trim (P : CTxOut.t -> Prop) v : Forall P v -> Forall P (trim v).
Proof. intros H. destruct (trim_prefix v) as (n & l & E & _). rewrite E in H. by apply Forall_app in H as [? _]. Qed.

Lemma length_trim v : (length (trim v) <= length v)%nat.
Proof. destruct (trim_prefix v) as (n & l & E & _). rewrite E at 2. rewrite length_app. lia. Qed.

Lemma pruned_trim v : forallb CTxOut.IsNull (trim v) = forallb CTxOut.IsNull v.
Proof.
  destruct (trim_prefix v) as (n & l & E & _ & Hl). rewrite E at 2. rewrite forallb_app.
  assert (forallb CTxOut.IsNull l = true) as ->; [|by rewrite andb_true_r]. apply forallb_forall.
  rewrite Forall_forall in Hl. intros x Hx. apply Hl. by apply list_elem_of_In.
Qed.

Lemma put_lookup t c M t' : put t c M !! t' = upd (fun t => M !! t) t (unspent (Some c)) t'.
Proof.
  unfold put, upd, unspent. destruct (CCoins.IsPruned c), (decide (t' = t)) as [->|];
    by rewrite ?lookup_delete_eq, ?lookup_delete_ne, ?lookup_insert_eq, ?lookup_insert_ne.
Qed.

Lemma put_ok t c M : ledger_ok M -> (CCoins.IsPruned c = false -> coins_ok c) -> ledger_ok (put t c M).
Proof.
  intros HM Hc t' c' E. unfold put in E. destruct (CCoins.IsPruned c).
  - apply lookup_delete_Some in E as [_ E]. by apply (HM t').
  - apply lookup_insert_Some in E as [[_ <-]|[_ E]]; [by apply Hc|by apply (HM t')].
Qed.

Lemma without_ok n c : coins_ok c -> CCoins.IsPruned (without n c) = false -> coins_ok (without n c).
Proof.
  intros [Hh Hs Hn Ht Hp] Hu. split; [done| | |apply trim_trimmed|done]; cbn [without CCoins.vout] in *.
  - unfold zlen in *. pose proof (length_trim (<[n:=CTxOut.SetNull]> (CCoins.vout c))) as Hl. rewrite length_insert in Hl. lia.
  - apply Forall_trim. by apply Forall_insert.
Qed.

(** Growing the vector to the output that was spent brings back the shape. *)
Lemma resize_trim n v o : trimmed v -> Forall null_form v -> v !! n = Some o -> CTxOut.IsNull o = false ->
  let w := <[n := CTxOut.SetNull]> v in resize_vout (Z.of_nat n + 1) (trim w) = w /\ <[n := o]> w = v /\ (n < length w)%nat.
Proof.
  intros Ht Hn Ho Hs w. assert (length w = length v) as Hlen by apply length_insert. pose proof (lookup_lt_Some _ _ _ Ho) as Hlt.
  split; [|split; [subst w; by rewrite list_insert_insert_eq, list_insert_id|lia]].
  destruct (trim_prefix w) as (k & l & E & Hk & Hl). assert (l = replicate k CTxOut.SetNull) as El.
  { symmetry. apply replicate_as_Forall. split; [done|]. assert (Forall null_form w) as Hw by by apply Forall_insert. rewrite E in Hw.
    apply Forall_app in Hw as [_ Hw]. rewrite Forall_forall in *. intros x Hx. symmetry. by apply Hw, Hl. }
  unfold resize_vout, zlen. destruct k as [|k].
  - rewrite El in E. cbn [replicate] in E. rewrite app_nil_r in E. rewrite <- E, Hlen.
    by rewrite (proj2 (Z.ltb_ge _ _)) by lia.
  - assert (length w = n + 1)%nat as Hw.
    { destruct (decide (length w = n + 1)%nat) as [|Hne]; [done|exfalso].
      assert (v !! (length v - 1)%nat = Some CTxOut.SetNull) as Hv.
      { rewrite <- (list_lookup_insert_ne v n (length v - 1) CTxOut.SetNull) by lia. change (w !! (length v - 1)%nat = Some CTxOut.SetNull).
        rewrite E, El, lookup_app_r by (rewrite E, length_app, Hk in Hlen; lia). apply lookup_replicate_2.
        rewrite E, length_app, Hk in Hlen. lia. }
      replace (length v - 1)%nat with (pred (length v)) in Hv by lia. rewrite <- last_lookup in Hv. by apply Ht in Hv. }
    rewrite E, length_app, Hk in Hw. rewrite (proj2 (Z.ltb_lt _ _)) by lia.
    replace (Z.to_nat (Z.of_nat n + 1) - length (trim w))%nat with (S k) by lia. rewrite <- El. by rewrite <- E.
Qed.

(** What [ApplyTxInUndo] does with the undo data of a spent output. *)
Lemma undo_without n c o c0 : coins_ok c -> CCoins.vout c !! n = Some o -> CTxOut.IsNull o = false ->
  trimmed (CCoins.vout c0) -> unspent (Some c0) = unspent (Some (without n c)) ->
  undo_coins (if CCoins.IsPruned (without n c) then CTxInUndo.mk o (CCoins.fCoinBase c) (CCoins.nHeight c) (CCoins.nVersion c)
              else CTxInUndo.make o) (Z.of_nat n) c0 = Ok (true, c).
Proof.
  intros [Hh Hsz Hn Ht Hp] Ho Hs H0 Hu. destruct (resize_trim n _ o Ht Hn Ho Hs) as (Er & Ei & Hl).
  set (w := <[n:=CTxOut.SetNull]> (CCoins.vout c)) in *. pose proof (lookup_lt_Some _ _ _ Ho) as Hlt. unfold zlen in Hsz.
  assert (forall cb h v, CCoins.IsAvailable (Z.of_nat n) (CCoins.mk cb (trim w) h v) = false) as Hav.
  { intros. unfold CCoins.IsAvailable. cbn [CCoins.vout]. rewrite Nat2Z.id. destruct (trim w !! n) as [x|] eqn:Ex; [|done].
    destruct (trim_prefix w) as (k & l & E & _). assert (w !! n = Some x) as Ew by (rewrite E; by apply lookup_app_l_Some).
    subst w. rewrite list_lookup_insert_eq in Ew by done. by injection Ew as <-. }
  unfold undo_coins. rewrite wrap_small by (unfold in_u; lia).
  assert (without n c = CCoins.mk (CCoins.fCoinBase c) (trim w) (CCoins.nHeight c) (CCoins.nVersion c)) as Ew by done.
  destruct (CCoins.IsPruned (without n c)) eqn:Ep; cbn [CTxInUndo.nHeight CTxInUndo.make CTxInUndo.fCoinBase CTxInUndo.nVersion CTxInUndo.txout].
  - assert (CCoins.IsPruned c0 = true) as Ep0 by (unfold unspent in Hu; rewrite Ep in Hu; by destruct (CCoins.IsPruned c0)).
    rewrite Ep0, (proj2 (Z.eqb_neq (CCoins.nHeight c) 0)) by lia. cbn [negb CCoins.Clear CCoins.vout].
    assert (trim w = []) as E0 by (apply pruned_empty; [apply trim_trimmed|by rewrite Ew in Ep]).
    rewrite E0 in Hav, Er. rewrite Hav. cbn [CCoins.vout]. rewrite Er. unfold zlen. rewrite (proj2 (Z.ltb_lt _ _)) by lia.
    rewrite Nat2Z.id, Ei, swrap_small by (unfold in_s; lia). cbn. by destruct c.
  - unfold unspent at 2 in Hu. rewrite Ep in Hu. apply unspent_Some in Hu as [[= ->] _]. rewrite Ep. cbn [Z.eqb negb].
    rewrite Ew, Hav. cbn [CCoins.vout CCoins.fCoinBase CCoins.nHeight CCoins.nVersion]. rewrite Er. unfold zlen.
    rewrite (proj2 (Z.ltb_lt _ _)) by lia. rewrite Nat2Z.id, Ei. by destruct c.
Qed.

Lemma trimmed_pruned c : trimmed (CCoins.vout c) -> CCoins.IsPruned c = (length (CCoins.vout c) =? 0)%nat.
Proof.
  intros Ht. destruct (CCoins.IsPruned c) eqn:E; [by rewrite (pruned_empty _ Ht E)|].
  unfold CCoins.IsPruned in E. by destruct (CCoins.vout c).
Qed.

Lemma spend_coins_spec n c o : coins_ok c -> CCoins.vout c !! n = Some o -> CTxOut.IsNull o = false ->
  spend_coins (Z.of_nat n) c =
  Ok (if CCoins.IsPruned (without n c) then CTxInUndo.mk o (CCoins.fCoinBase c) (CCoins.nHeight c) (CCoins.nVersion c)
      else CTxInUndo.make o, without n c).
Proof.
  intros Hc Ho Hs. unfold spend_coins, CCoins.Spend. rewrite Nat2Z.id, Ho, Hs.
  rewrite (trimmed_pruned (without n c)) by apply trim_trimmed. change (CCoins.Cleanup _) with (without n c). case_bool; [|done].
  change (CCoins.nHeight (without n c)) with (CCoins.nHeight c). rewrite wrap_small; [done|].
  destruct (coins_height c Hc). unfold in_u. lia.
Qed.

(** The null outputs of a vector are cleaned once. *)
Lemma ClearUnspendable_idem c : CCoins.ClearUnspendable (CCoins.ClearUnspendable c) = CCoins.ClearUnspendable c.
Proof.
  unfold CCoins.ClearUnspendable at 1. rewrite Cleanup_trim. cbn [CCoins.vout CCoins.fCoinBase CCoins.nHeight CCoins.nVersion].
  set (clear := fun txout => if IsUnspendable (CTxOut.scriptPubKey txout) then CTxOut.SetNull else txout).
  assert (forall v, map clear (trim (map clear v)) = trim (map clear v)) as E.
  { intros v. destruct (trim_prefix (map clear v)) as (n & l & E & _). assert (Forall (fun o => clear o = o) (map clear v)) as H.
    { apply Forall_map, Forall_true. intros o. unfold clear. by destruct (IsUnspendable (CTxOut.scriptPubKey o)) eqn:Eo; rewrite ?Eo. }
    rewrite E in H. apply Forall_app in H as [H _]. clear E. revert H.
    generalize (trim (map clear v)). induction 1 as [|o v' Ho Hv IH]; [done|]. cbn [map]. by f_equal. }
  unfold CCoins.ClearUnspendable, CCoins.Cleanup. cbn [CCoins.vout CCoins.fCoinBase CCoins.nHeight CCoins.nVersion].
  fold clear. change (rev (CCoins.drop_nulls (rev (map clear (CCoins.vout c))))) with (trim (map clear (CCoins.vout c))).
  rewrite E, trimmed_trim by apply trim_trimmed. done.
Qed.

Lemma op_eq_refl c : CCoins.op_eq c c = true.
Proof.
  unfold CCoins.op_eq. case_bool; [done|]. rewrite eqb_reflx, !Z.eqb_refl. cbn [andb]. unfold CCoins.vout_eq.
  rewrite Nat.eqb_refl. cbn [andb]. induction (CCoins.vout c) as [|o v IH]; [done|]. cbn [zip zip_with forallb fst snd].
  unfold CTxOut.op_eq at 1. rewrite Z.eqb_refl, bool_decide_true by done. exact IH.
Qed.

(** What [DisconnectBlock] does to the outputs of a transaction it finds as it
    added them. *)
Lemma remove_outputs_spec (tx : CTransaction) h c0 : trimmed (CCoins.vout c0) -> unspent (Some c0) = unspent (Some (CCoins.FromTx tx h)) ->
  remove_outputs tx h c0 = Ok (true, CCoins.Clear c0).
Proof.
  intros Ht Hu. unfold remove_outputs. set (f := CCoins.FromTx tx h) in *. unfold CCoins.op_ne. rewrite negb_involutive.
  assert (forall c v, CCoins.Clear (CCoins.mk (CCoins.fCoinBase c) (CCoins.vout c) (CCoins.nHeight c) v) = CCoins.Clear c0) as E1 by done.
  assert (CCoins.Clear (CCoins.ClearUnspendable c0) = CCoins.Clear c0) as E2 by done.
  destruct (CCoins.IsPruned f) eqn:Ep.
  - assert (CCoins.vout c0 = []) as E0.
    { apply pruned_empty; [done|]. change (CCoins.IsPruned c0 = true). unfold unspent in Hu. rewrite Ep in Hu. by destruct (CCoins.IsPruned c0). }
    assert (forall v, CCoins.IsPruned (CCoins.mk (CCoins.fCoinBase (CCoins.ClearUnspendable c0)) (CCoins.vout (CCoins.ClearUnspendable c0))
      (CCoins.nHeight (CCoins.ClearUnspendable c0)) v) = true) as Hp.
    { intros v. unfold CCoins.ClearUnspendable. cbn. by rewrite E0. }
    case_bool; unfold CCoins.op_eq; [by rewrite Hp, Ep|].
    by rewrite (Hp 0 : CCoins.IsPruned (CCoins.ClearUnspendable c0) = true), Ep.
  - unfold unspent at 2 in Hu. rewrite Ep in Hu. apply unspent_Some in Hu as [[= ->] _]. unfold f, CCoins.FromTx.
    rewrite ClearUnspendable_idem. case_bool; [|by rewrite op_eq_refl].
    match goal with |- context [CCoins.op_eq ?a ?b] => replace a with b end; [by rewrite op_eq_refl|].
    by destruct (CCoins.ClearUnspendable _).
Qed.

(** ** Connecting *)

Section connecting.
Context {V : Type} `{!CCoinsView V, !CCoinsViewLaws V} (usage : CCoins.t -> Z).
Implicit Types s : CCoinsViewCache.t V.

(** A cache in a good state that shows the ledger [M]. *)
Record shows s (M : ledger) : Prop := {
  shows_ok : cache_ok s;
  shows_utxo t : cache_utxo s t = M !! t;
}.

Lemma shows_coins s M t c : shows s M -> ledger_ok M -> M !! t = Some c -> unspent (Some c) = Some c.
Proof. intros _ HM E. unfold unspent. by rewrite (coins_unspent c (HM t c E)). Qed.

(** Changing the coins of [t]: the new coins go into the ledger. *)
Lemma modify_shows {A} s M t (f : CCoins.t -> res (A * CCoins.t)) a c : shows s M ->
  (forall c0, trimmed (CCoins.vout c0) -> unspent (Some c0) = M !! t -> exists c1, f c0 = Ok (a, c1) /\
     unspent (Some (CCoins.Cleanup c1)) = unspent (Some c)) ->
  exists s', CCoinsViewCache.with_modifier usage (CCoinsViewCache.ModifyCoins usage t s) f = Ok (a, s') /\
    shows s' (put t c M) /\ cache_best s' = cache_best s.
Proof.
  intros [Hs HM] Hf. destruct (ModifyCoins_spec usage s t f Hs) as (c0 & Hc0 & Ht & _ & H). rewrite HM in Hc0.
  destruct (Hf c0 Ht Hc0) as (c1 & E1 & Hc1). destruct (H a c1 E1) as (s' & E & Hs' & Hu & Hb). exists s'.
  split; [done|]. split; [|done]. split; [done|]. intros t'. rewrite Hu, put_lookup, Hc1. unfold upd. case_decide; [done|apply HM].
Qed.

Definition undoes (u : CTxInUndo.t) (p : COutPoint.t) (M' M : ledger) : Prop :=
  forall s, shows s M' -> exists s', ApplyTxInUndo usage u s p = Ok (true, s') /\ shows s' M /\ cache_best s' = cache_best s.

Lemma spend_out_spec s p M u M' : shows s M -> ledger_ok M -> spend_out p M = Some (u, M') ->
  (exists s', CCoinsViewCache.with_modifier usage (CCoinsViewCache.ModifyCoins usage (COutPoint.hash p) s)
      (spend_coins (COutPoint.n p)) = Ok (u, s') /\ shows s' M' /\ cache_best s' = cache_best s) /\
  ledger_ok M' /\ undoes u p M' M.
Proof.
  intros Hs HM. unfold spend_out. destruct (Z.ltb_spec (COutPoint.n p) 0); [done|].
  destruct (M !! COutPoint.hash p) as [c|] eqn:Ec; [|done]. destruct (CCoins.vout c !! _) as [o|] eqn:Eo; [|done].
  destruct (CTxOut.IsNull o) eqn:En; [done|]. intros [= <- <-]. pose proof (HM _ _ Ec) as Hc.
  assert (COutPoint.n p = Z.of_nat (Z.to_nat (COutPoint.n p))) as Hn by lia.
  set (n := Z.to_nat (COutPoint.n p)) in *. split; [|split].
  - apply modify_shows; [done|]. intros c0 Ht Hc0. rewrite Ec in Hc0. apply unspent_Some in Hc0 as [[= ->] _].
    eexists. split; [rewrite Hn; by apply spend_coins_spec|]. by rewrite Cleanup_trimmed by apply trim_trimmed.
  - apply put_ok; [done|]. by apply without_ok.
  - intros s1 [Hs1 Hu1]. unfold ApplyTxInUndo. rewrite Hn. set (u := if CCoins.IsPruned (without n c) then _ else _).
    destruct (modify_shows s1 _ (COutPoint.hash p) (undo_coins u (Z.of_nat n)) true c
      (Build_shows _ _ Hs1 Hu1)) as (s2 & E2 & [Hs2 Hu2] & Hb2).
    + intros c0 Ht Hc0. eexists. split; [apply (undo_without n c o c0 Hc Eo En Ht)|by rewrite Cleanup_trimmed by apply (coins_trimmed c Hc)].
      rewrite Hc0, put_lookup. unfold upd. by rewrite decide_True.
    + exists s2. split; [exact E2|]. split; [|done]. split; [done|]. intros t. rewrite Hu2, put_lookup. unfold upd. case_decide as Et.
      * subst t. rewrite Ec. by eapply shows_coins.
      * rewrite put_lookup. unfold upd. by rewrite decide_False.
Qed.

(** Undoing the inputs from the last to the first. *)
Fixpoint undo_list (l : list (CTxIn.t * CTxInUndo.t)) (fClean : bool) (view : CCoinsViewCache.t V) : res (bool * CCoinsViewCache.t V) :=
  match l with
  | [] => Ok (fClean, view)
  | (i, u) :: l =>
      let? (fClean, view) := undo_list l fClean view in
      let? (ok, view) := ApplyTxInUndo usage u view (CTxIn.prevout i) in
      Ok (if ok : bool then fClean else false, view)
  end.

Lemma undo_list_snoc l i u : forall fClean s, undo_list (l ++ [(i, u)]) fClean s =
  let? (ok, s) := ApplyTxInUndo usage u s (CTxIn.prevout i) in undo_list l (if ok : bool then fClean else false) s.
Proof.
  induction l as [|[i' u'] l IH]; intros fClean s; cbn [app undo_list res_bind].
  - by destruct (ApplyTxInUndo usage u s (CTxIn.prevout i)) as [[]| | | |].
  - rewrite IH. by destruct (ApplyTxInUndo usage u s (CTxIn.prevout i)) as [[]| | | |].
Qed.

Lemma undo_inputs_list vin us j : forall fClean s, (j <= length vin)%nat -> length us = length vin ->
  undo_inputs usage j vin us fClean s = undo_list (take j (zip vin us)) fClean s.
Proof.
  induction j as [|j IH]; intros fClean s Hj Hl; [done|]. cbn [undo_inputs].
  destruct (lookup_lt_is_Some_2 vin j ltac:(lia)) as [i Ei]. destruct (lookup_lt_is_Some_2 us j ltac:(lia)) as [u Eu].
  rewrite Ei, Eu. cbn [res_of_option res_bind]. rewrite (take_S_r _ _ (i, u)) by (apply lookup_zip_with_Some; by exists i, u).
  rewrite undo_list_snoc. destruct (ApplyTxInUndo usage u s (CTxIn.prevout i)) as [[]| | | |]; try done. cbn [res_bind].
  apply IH; [lia|done].
Qed.

Lemma spend_outs_spec vin : forall s acc M us M', shows s M -> ledger_ok M -> spend_outs vin M = Some (us, M') ->
  (exists s', spend_loop usage vin acc s = Ok (acc ++ us, s') /\ shows s' M' /\ cache_best s' = cache_best s) /\
  ledger_ok M' /\ length us = length vin /\
  forall s1 fClean, shows s1 M' -> exists s2, undo_inputs usage (length vin) vin us fClean s1 = Ok (fClean, s2) /\
    shows s2 M /\ cache_best s2 = cache_best s1.
Proof.
  induction vin as [|i vin IH]; intros s acc M us M' Hs HM; cbn [spend_outs spend_loop].
  - intros [= <- <-]. rewrite app_nil_r. split_and!; [by exists s|done|done|]. intros s1 fClean Hs1. by exists s1.
  - destruct (spend_out (CTxIn.prevout i) M) as [[u M1]|] eqn:E1; [|done].
    destruct (spend_outs vin M1) as [[us' M2]|] eqn:E2; [|done]. intros [= <- <-].
    destruct (spend_out_spec s (CTxIn.prevout i) M u M1 Hs HM E1) as ((s1 & -> & Hs1 & Hb1) & HM1 & Hundo).
    destruct (IH s1 (acc ++ [u]) M1 us' M2 Hs1 HM1 E2) as ((s2 & E & Hs2 & Hb2) & HM2 & Hl & Hback). cbn [res_bind].
    split_and!; [|done|cbn; lia|].
    + exists s2. rewrite E, <- app_assoc. split_and!; [done|done|congruence].
    + intros s3 fClean Hs3. destruct (Hback s3 fClean Hs3) as (s4 & E4 & Hs4 & Hb4).
      destruct (Hundo s4 Hs4) as (s5 & E5 & Hs5 & Hb5). exists s5. split_and!; [|done|congruence].
      rewrite undo_inputs_list in E4 |- * by (cbn; lia). rewrite take_ge in E4 |- * by (rewrite length_zip_with; cbn; lia).
      cbn [zip zip_with undo_list]. fold (zip vin us'). rewrite E4. cbn [res_bind]. rewrite E5. done.
Qed.

(** Transactions whose outputs are not in a null form of their own. *)
Definition tx_ok (tx : CTransaction) : Prop := Forall null_form (vout tx) /\ zlen (vout tx) < 2 ^ 32.

Lemma FromTx_ok (tx : CTransaction) h : 0 < h < 2 ^ 31 -> tx_ok tx -> CCoins.IsPruned (CCoins.FromTx tx h) = false -> coins_ok (CCoins.FromTx tx h).
Proof.
  intros Hh [Hn Hl] Hp. split; [done| | |apply trim_trimmed|done].
  - change (zlen (trim (map (fun txout => if IsUnspendable (CTxOut.scriptPubKey txout) then CTxOut.SetNull else txout) (vout tx))) < 2 ^ 32).
    unfold zlen in *. pose proof (length_trim (map (fun txout => if IsUnspendable (CTxOut.scriptPubKey txout) then CTxOut.SetNull else txout) (vout tx))) as H.
    rewrite length_map in H. lia.
  - apply Forall_trim, Forall_map. eapply Forall_impl; [exact Hn|]. intros o Ho. cbn. by case_bool.
Qed.

Lemma ledger_tx_spec s (tx : CTransaction) h M u M' : shows s M -> ledger_ok M -> 0 < h < 2 ^ 31 -> tx_ok tx -> ledger_tx h tx M = Some (u, M') ->
  (exists s', UpdateCoins usage tx s (CTxUndo.mk []) h = Ok (u, s') /\ shows s' M' /\ cache_best s' = cache_best s) /\ ledger_ok M' /\
  forall s1, shows s1 M' -> exists s2, CCoinsViewCache.with_modifier usage (CCoinsViewCache.ModifyCoins usage (GetHash tx) s1) (remove_outputs tx h) =
      Ok (true, s2) /\ cache_best s2 = cache_best s1 /\
    if IsCoinBase tx then shows s2 M
    else length (CTxUndo.vprevout u) = length (vin tx) /\
      forall fClean, exists s3, undo_inputs usage (length (vin tx)) (vin tx) (CTxUndo.vprevout u) fClean s2 = Ok (fClean, s3) /\
        shows s3 M /\ cache_best s3 = cache_best s2.
Proof.
  intros Hs HM Hh Htx. unfold ledger_tx, UpdateCoins.
  destruct (if IsCoinBase tx then _ else _) as [[us M1]|] eqn:E1; [|done]. destruct (M1 !! GetHash tx) eqn:En; [done|].
  intros [= <- <-]. cbn [CTxUndo.vprevout].
  (* the inputs *)
  assert ((exists s1, (if negb (IsCoinBase tx) then spend_loop usage (vin tx) [] s else Ok ([], s)) = Ok (us, s1) /\ shows s1 M1 /\
    cache_best s1 = cache_best s) /\ ledger_ok M1 /\ forall s2, shows s2 M1 -> if IsCoinBase tx then shows s2 M else
      length us = length (vin tx) /\ forall fClean, exists s3, undo_inputs usage (length (vin tx)) (vin tx) us fClean s2 = Ok (fClean, s3) /\
        shows s3 M /\ cache_best s3 = cache_best s2) as ((s1 & -> & Hs1 & Hb1) & HM1 & Hback).
  { destruct (IsCoinBase tx); cbn [negb]; [injection E1 as <- <-; split_and!; [by exists s|done|done]|].
    destruct (spend_outs_spec (vin tx) s [] M us M1 Hs HM E1) as (H1 & H2 & H3 & H4). split_and!; [exact H1|done|].
    intros s2 Hs2. split; [done|]. intros fClean. by apply H4. }
  cbn [res_bind]. pose proof Hs1 as [Hok1 Hu1].
  destruct (ModifyNewCoins_spec usage s1 (GetHash tx) (IsCoinBase tx) (fun c => Ok (tt, CCoins.FromTx tx h)) tt (CCoins.FromTx tx h) Hok1)
    as (s2 & -> & Hs2 & Hu2 & Hb2); [by rewrite Hu1|done|]. cbn [res_bind].
  assert (CCoins.Cleanup (CCoins.FromTx tx h) = CCoins.FromTx tx h) as Ecl by (apply Cleanup_trimmed, trim_trimmed).
  split_and!.
  - eexists. split; [done|]. split; [split; [done|]|congruence]. intros t. rewrite Hu2, put_lookup, Ecl. unfold upd. case_decide; [done|apply Hu1].
  - apply put_ok; [done|]. by apply FromTx_ok.
  - intros s3 Hs3. destruct (modify_shows s3 _ (GetHash tx) (remove_outputs tx h) true CCoins.make Hs3) as (s4 & E4 & [Hs4 Hu4] & Hb4).
    { intros c0 Ht Hc0. rewrite put_lookup in Hc0. unfold upd in Hc0. rewrite decide_True in Hc0 by done.
      eexists. split; [by apply remove_outputs_spec|]. done. }
    exists s4. split_and!; [done|done|]. apply Hback. split; [done|]. intros t. rewrite Hu4, put_lookup. unfold upd. case_decide as Et.
    + subst t. rewrite En. done.
    + rewrite put_lookup. unfold upd. by rewrite decide_False.
Qed.

(** What [ConnectBlock] does to its view, transaction by transaction. *)
Fixpoint update_txs (h : Z) (vtx : list CTransaction) (s : CCoinsViewCache.t V) : res (list CTxUndo.t * CCoinsViewCache.t V) :=
  match vtx with
  | [] => Ok ([], s)
  | tx :: vtx =>
      let? (u, s) := UpdateCoins usage tx s (CTxUndo.mk []) h in
      let? (us, s) := update_txs h vtx s in
      Ok (u :: us, s)
  end.

Lemma update_txs_spec h vtx : forall s M us M', 0 < h < 2 ^ 31 -> Forall tx_ok vtx -> shows s M -> ledger_ok M ->
  ledger_txs h vtx M = Some (us, M') ->
  (exists s', update_txs h vtx s = Ok (us, s') /\ shows s' M' /\ cache_best s' = cache_best s) /\
  ledger_ok M' /\ length us = length vtx.
Proof.
  induction vtx as [|tx vtx IH]; intros s M us M' Hh Htx Hs HM; cbn [ledger_txs update_txs].
  - intros [= <- <-]. split; [by exists s|done].
  - apply Forall_cons in Htx as [Ht Htx]. destruct (ledger_tx h tx M) as [[u M1]|] eqn:E1; [|done].
    destruct (ledger_txs h vtx M1) as [[us' M2]|] eqn:E2; [|done]. intros [= <- <-].
    destruct (ledger_tx_spec s tx h M u M1 Hs HM Hh Ht E1) as ((s1 & -> & Hs1 & Hb1) & HM1 & _).
    destruct (IH s1 M1 us' M2 Hh Htx Hs1 HM1 E2) as ((s2 & E & Hs2 & Hb2) & HM2 & Hl). cbn [res_bind]. rewrite E. cbn [res_bind].
    split; [exists s2; split_and!; [done|done|congruence]|]. split; [done|]. cbn. lia.
Qed.

Lemma ledger_txs_snoc h vtx tx : forall M us M', ledger_txs h (vtx ++ [tx]) M = Some (us, M') ->
  exists us1 M1 u, ledger_txs h vtx M = Some (us1, M1) /\ ledger_tx h tx M1 = Some (u, M') /\ us = us1 ++ [u].
Proof.
  induction vtx as [|tx' vtx IH]; intros M us M'; cbn [app ledger_txs].
  - destruct (ledger_tx h tx M) as [[u M1]|] eqn:E; [|done]. intros [= <- <-]. by exists [], M, u.
  - destruct (ledger_tx h tx' M) as [[u M1]|] eqn:E; [|done]. destruct (ledger_txs h (vtx ++ [tx]) M1) as [[us' M2]|] eqn:E2; [|done].
    intros [= <- <-]. destruct (IH M1 us' M2 E2) as (us1 & M3 & u' & -> & E3 & ->). by exists (u :: us1), M3, u'.
Qed.

Lemma undo_txs_spec h vtx us M0 s0 : 0 < h < 2 ^ 31 -> Forall tx_ok vtx -> shows s0 M0 -> ledger_ok M0 ->
  (forall i (tx : CTransaction), vtx !! i = Some tx -> IsCoinBase tx = (i =? 0)%nat) ->
  forall n Mn s fClean, (n <= length vtx)%nat -> ledger_txs h (take n vtx) M0 = Some (take n us, Mn) -> shows s Mn ->
  exists s', undo_txs usage n vtx (tail us) h fClean s = Ok (Some fClean, s') /\ shows s' M0 /\ cache_best s' = cache_best s.
Proof.
  intros Hh Htx Hs0 HM0 Hcb. induction n as [|n IH]; intros Mn s fClean Hn E Hs; cbn [undo_txs].
  - injection E as <-. by exists s.
  - destruct (lookup_lt_is_Some_2 vtx n ltac:(lia)) as [tx Etx]. rewrite (take_S_r _ _ _ Etx) in E.
    destruct (ledger_txs_snoc h _ tx M0 _ Mn E) as (us1 & M1 & u & E1 & Eu & Eus).
    assert (Forall tx_ok (take n vtx)) as Htn by by apply Forall_take.
    destruct (update_txs_spec h (take n vtx) s0 M0 us1 M1 Hh Htn Hs0 HM0 E1) as ((s1 & _ & Hs1 & _) & HM1 & Hl1).
    rewrite length_take, Nat.min_l in Hl1 by lia.
    assert (us !! n = Some u /\ take n us = us1) as [Hu Etake].
    { split.
      - rewrite <- (lookup_take_lt us (S n)), Eus, lookup_app_r by lia. by rewrite Hl1, Nat.sub_diag.
      - rewrite <- (take_app_length us1 [u]), <- Eus, take_take, Hl1. f_equal. lia. }
    pose proof (Forall_lookup_1 _ _ _ _ Htx Etx) as Ht.
    destruct (ledger_tx_spec s1 tx h M1 u Mn Hs1 HM1 Hh Ht Eu) as (_ & _ & Hback).
    destruct (Hback s Hs) as (s2 & E2 & Hb2 & H2). rewrite Etx. cbn [res_of_option res_bind]. rewrite E2. cbn [res_bind].
    rewrite (Hcb n tx Etx) in H2. destruct n as [|n]; cbn [Nat.eqb Nat.ltb Nat.leb] in *.
    + destruct (IH M1 s2 fClean ltac:(lia)) as (s3 & E3 & Hs3 & Hb3); [by rewrite Etake|done|].
      exists s3. split_and!; [exact E3|done|congruence].
    + destruct H2 as [Hl H2]. destruct (H2 fClean) as (s3 & E3 & Hs3 & Hb3).
      replace (tail us !! (S n - 1)%nat) with (Some u) by (rewrite Nat.sub_1_r; cbn; destruct us; [done|by rewrite <- Hu]).
      cbn [res_of_option res_bind]. rewrite Hl, Nat.eqb_refl. cbn [negb]. rewrite E3. cbn [res_bind].
      destruct (IH M1 s3 fClean ltac:(lia)) as (s4 & E4 & Hs4 & Hb4); [by rewrite Etake|done|].
      exists s4. split_and!; [exact E4|done|congruence].
Qed.

Lemma disconnect_spec h us M M' s0 st read block pindex b q bprev hash hashPrev pfClean s1 :
  0 < h < 2 ^ 31 -> Forall tx_ok (Block.vtx block) -> shows s0 M -> ledger_ok M -> Block.vtx block <> [] ->
  (forall i (tx : CTransaction), Block.vtx block !! i = Some tx -> IsCoinBase tx = (i =? 0)%nat) ->
  ledger_txs h (Block.vtx block) M = Some (us, M') ->
  st !! pindex = Some b -> phashBlock b = Some hash -> Chain.nHeight b = h ->
  pprev b = Some q -> st !! q = Some bprev -> phashBlock bprev = Some hashPrev -> BaseUint.IsNull WIDTH256 hashPrev = false ->
  CDiskBlockPos.IsNull (BlockIndex.GetUndoPos b) = false ->
  read (BlockIndex.GetUndoPos b) hashPrev = Some (CBlockUndo.mk (tail us)) ->
  shows s1 M' -> cache_best s1 = hash ->
  exists s2, DisconnectBlock usage st read block pindex s1 pfClean = Ok (true, if pfClean : bool then Some true else None, s2) /\
    shows s2 M /\ cache_best s2 = hashPrev.
Proof.
  intros Hh Htx Hs HM Hne Hcb E Eb Eh <- Eq Ebq Ehp Hnull Hpos Hread Hs1 Hb1.
  destruct (update_txs_spec _ _ s0 M us M' Hh Htx Hs HM E) as (_ & HM' & Hl).
  pose proof Hs1 as [Hok1 Hu1]. unfold DisconnectBlock, Chain.deref, BlockIndex.GetBlockHash. rewrite Eb. cbn [res_of_option res_bind].
  rewrite Eh. cbn [res_of_option res_bind]. destruct (GetBestBlock_spec s1 Hok1) as (s2 & -> & Hok2 & [Hu2 Hb2]). cbn [res_bind].
  rewrite Hb1. assert (BaseUint.op_eq hash hash = true) as -> by (by apply bool_decide_eq_true). cbn [negb].
  rewrite Hpos, Eq, Ebq. cbn [res_of_option res_bind]. rewrite Ehp. cbn [res_of_option res_bind]. rewrite Hread. cbn [CBlockUndo.vtxundo].
  rewrite (proj2 (Nat.eqb_eq _ _)) by (destruct us; [by destruct (Block.vtx block)|cbn in *; lia]). cbn [negb].
  destruct (undo_txs_spec _ _ us M s0 Hh Htx Hs HM Hcb (length (Block.vtx block)) M' s2 true) as (s3 & -> & [Hok3 Hu3] & Hb3); [lia| | |].
  - by rewrite !take_ge by lia.
  - split; [done|]. intros t. by rewrite Hu2.
  - cbn [res_bind]. destruct (set_hashBlock_ok s3 hashPrev Hok3) as (Hok4 & Hu4 & Hb4). unfold CCoinsViewCache.SetBestBlock.
    exists (CCoinsViewCache.set_hashBlock hashPrev s3). split; [by destruct pfClean|]. split; [|by apply Hb4].
    split; [done|]. intros t. by rewrite Hu4.
Qed.
End connecting.

(** ** Properties *)

(** Connecting the transactions of a block to a view of the ledger spends
    exactly their inputs and adds exactly their outputs, without a failed
    assertion; and [DisconnectBlock], given the undo data that was made, finds
    the block clean, restores the ledger exactly, whatever caches lie in
    between, and moves the best block back to the previous one. *)
Theorem connect_disconnect {V : Type} `{!CCoinsView V, !CCoinsViewLaws V} (usage : CCoins.t -> Z)
  (vtx : list CTransaction) (h : Z) (s : CCoinsViewCache.t V) (M M' : ledger) (us : list CTxUndo.t) :
  shows s M -> ledger_ok M -> 0 < h < 2 ^ 31 -> Forall tx_ok vtx -> vtx <> [] ->
  (forall i (tx : CTransaction), vtx !! i = Some tx -> IsCoinBase tx = (i =? 0)%nat) ->
  ledger_txs h vtx M = Some (us, M') ->
  (exists s', update_txs usage h vtx s = Ok (us, s') /\ shows s' M' /\ ledger_ok M') /\
  forall st read block pindex b q bprev hash hashPrev pfClean (s1 : CCoinsViewCache.t V),
    Block.vtx block = vtx -> st !! pindex = Some b -> phashBlock b = Some hash -> Chain.nHeight b = h ->
    pprev b = Some q -> st !! q = Some bprev -> phashBlock bprev = Some hashPrev -> BaseUint.IsNull WIDTH256 hashPrev = false ->
    CDiskBlockPos.IsNull (BlockIndex.GetUndoPos b) = false ->
    read (BlockIndex.GetUndoPos b) hashPrev = Some (CBlockUndo.mk (tail us)) ->
    shows s1 M' -> cache_best s1 = hash ->
    exists s2, DisconnectBlock usage st read block pindex s1 pfClean = Ok (true, if pfClean : bool then Some true else None, s2) /\
      shows s2 M /\ cache_best s2 = hashPrev.
Proof.
  intros Hs HM Hh Htx Hne Hcb E. destruct (update_txs_spec usage h vtx s M us M' Hh Htx Hs HM E) as ((s' & Eu & Hs' & _) & HM' & Hl).
  split; [by exists s'|]. intros st read block pindex b q bprev hash hashPrev pfClean s1 <-. intros. by eapply (disconnect_spec usage h us M M' s).
Qed.

(** A coin of height 7 is spent by a transaction whose output the next one spends. *)
Definition demo_in (t n : Z) : CTxIn.t := CTxIn.make (COutPoint.mk (demo_txid t) n) [] SEQUENCE_FINAL.
Definition demo_transaction (id : Z) (vin : list CTxIn.t) (vout : list CTxOut.t) : CTransaction :=
  mk_CTransaction (mk_tx 1 vin vout 0) (demo_txid id).
Definition demo_coinbase : CTransaction := demo_transaction 10 [CTxIn.default] [demo_out 55].
Definition demo_vtx : list CTransaction :=
  [demo_coinbase; demo_transaction 2 [demo_in 1 0] [demo_out 20; demo_out 30]; demo_transaction 3 [demo_in 2 1] [demo_out 25]].
Definition demo_M : ledger := CCoinsViewDB.db demo_db.
Definition demo_us : list CTxUndo.t := match ledger_txs 8 demo_vtx demo_M with Some (us, _) => us | None => [] end.
Definition demo_M' : ledger := match ledger_txs 8 demo_vtx demo_M with Some (_, M') => M' | None => ∅ end.

Definition demo_entry (id : Z) (prev : ptr) (h status : Z) : CBlockIndex := {|
  phashBlock := Some (demo_txid id); pprev := prev; pskip := None; Chain.nHeight := h; nFile := 0; nDataPos := 8; nUndoPos := 8;
  nChainWork := base_uint_zero WIDTH256; nTx := 1; nChainTx := 1; nStatus := status; nSequenceId := 0; nTimeMax := 0;
  Chain.nVersion := 1; Chain.hashMerkleRoot := base_uint_zero WIDTH256; Chain.nTime := 0; Chain.nBits := 0; Chain.nNonce := 0 |}.
Definition demo_blocks : gmap nat CBlockIndex := {[ 0%nat := demo_entry 77 None 7 29; 1%nat := demo_entry 78 (Some 0%nat) 8 29 ]}.
Definition demo_block : CBlock := mk_block Header.SetNull demo_vtx true.

Lemma demo_shows : shows (CCoinsViewCache.make demo_db) demo_M /\ ledger_ok demo_M.
Proof.
  assert (forall t c, demo_M !! t = Some c -> c = CCoins.mk true [demo_out 50] 7 1) as Hdb.
  { intros t c E. change (({[ demo_txid 1 := CCoins.mk true [demo_out 50] 7 1 ]} : gmap uint256 CCoins.t) !! t = Some c) in E.
    by apply lookup_singleton_Some in E as [_ <-]. }
  split; [split; [split; [|done|done]|done]|].
  - intros t c E. rewrite (Hdb t c E). split; [done|]. by intros o [= <-].
  - intros t c E. rewrite (Hdb t c E). split; [by vm_compute|by vm_compute| |by intros o [= <-]|done]. by repeat constructor.
Qed.

Lemma connect_disconnect_witness : exists s1 s2,
  update_txs demo_usage 8 demo_vtx (CCoinsViewCache.make demo_db) = Ok (demo_us, s1) /\
  cache_utxo s1 (demo_txid 1) = None /\
  DisconnectBlock demo_usage demo_blocks (fun _ _ => Some (CBlockUndo.mk (tail demo_us))) demo_block 1
    (CCoinsViewCache.SetBestBlock (demo_txid 78) s1) true = Ok (true, Some true, s2) /\
  cache_utxo s2 (demo_txid 1) = Some (CCoins.mk true [demo_out 50] 7 1) /\ cache_utxo s2 (demo_txid 2) = None /\
  cache_best s2 = demo_txid 77.
Proof.
  destruct demo_shows as [Hs HM].
  assert (Forall tx_ok demo_vtx) as Htx by (repeat constructor; done).
  destruct (connect_disconnect demo_usage demo_vtx 8 (CCoinsViewCache.make demo_db) demo_M demo_M' demo_us Hs HM ltac:(lia) Htx
    ltac:(done)) as ((s1 & E1 & Hs1 & _) & Hback); [by intros [|[|[|[]]]] tx [= <-]|by vm_compute|].
  pose proof Hs1 as [Hok1 Hu1]. destruct (set_hashBlock_ok s1 (demo_txid 78) Hok1) as (Hok2 & Hu2 & Hb2).
  destruct (Hback demo_blocks (fun _ _ => Some (CBlockUndo.mk (tail demo_us))) demo_block 1%nat (demo_entry 78 (Some 0%nat) 8 29) 0%nat
    (demo_entry 77 None 7 29) (demo_txid 78) (demo_txid 77) true (CCoinsViewCache.SetBestBlock (demo_txid 78) s1)) as (s2 & E2 & [Hok3 Hu3] & Hb3);
    [reflexivity|by vm_compute|reflexivity|reflexivity|reflexivity|by vm_compute|reflexivity|by vm_compute|by vm_compute|reflexivity
    |split; [exact Hok2|intros t; rewrite <- Hu1; apply Hu2]|apply Hb2; by vm_compute|].
  exists s1, s2. split; [exact E1|]. split; [rewrite Hu1; by vm_compute|]. split; [exact E2|].
  split; [rewrite Hu3; by vm_compute|]. split; [rewrite Hu3; by vm_compute|exact Hb3].
Defined.
