(* ===== verification/Spend.v ===== *)
(** What [Consensus::CheckTxInputs] of src/sige/src/validation.cpp decides, and
    that a transaction it accepts creates no money: the theorems of [Connect]
    on values. *)

From S2P Require Import Prelude Bytes BaseUint UintBytes Uint256 Serialize Codec Opcode Prevector ScriptNum Script Amount Transaction PubKey Compressor Coins CoinsView Undo State Connect Ledger.

(** The unspent output an input names, with its coins. *)
Definition spent (M : ledger) (i : CTxIn.t) : option (CCoins.t * CTxOut.t) :=
  match M !! COutPoint.hash (CTxIn.prevout i) with
  | None => None
  | Some c =>
      match CCoins.vout c !! Z.to_nat (COutPoint.n (CTxIn.prevout i)) with
      | None => None
      | Some o => if CTxOut.IsNull o then None else Some (c, o)
      end
  end.

Definition input_value (M : ledger) (i : CTxIn.t) : Z :=
  match spent M i with Some (_, o) => CTxOut.nValue o | None => 0 end.
Definition inputs_value (M : ledger) (vin : list CTxIn.t) : Z := foldr (fun i n => input_value M i + n) 0 vin.

(** Old enough if from a coinbase, and of a value that exists. *)
Definition input_fine (M : ledger) (h : Z) (i : CTxIn.t) : bool :=
  match spent M i with
  | Some (c, o) => (negb (CCoins.fCoinBase c) || (COINBASE_MATURITY <=? h - CCoins.nHeight c)) && MoneyRange (CTxOut.nValue o)
  | None => false
  end.

Definition payable (M : ledger) (h : Z) (vin : list CTxIn.t) (nValueOut : Z) : bool :=
  forallb (input_fine M h) vin && (nValueOut <=? inputs_value M vin) && (inputs_value M vin <=? MAX_MONEY).

Section checking.
Context {V : Type} `{!CCoinsView V, !CCoinsViewLaws V} (usage : CCoins.t -> Z).
Implicit Types s : CCoinsViewCache.t V.

Lemma fetch_shows s M i : shows s M -> exists o s',
  CCoinsViewCache.AccessCoins usage (COutPoint.hash (CTxIn.prevout i)) s = Ok (o, s') /\ shows s' M /\ cache_best s' = cache_best s /\
  match o with
  | Some c => CCoins.IsAvailable (COutPoint.n (CTxIn.prevout i)) c = bool_decide (is_Some (spent M i))
  | None => spent M i = None
  end /\ (forall c o', spent M i = Some (c, o') -> o = Some c).
Proof.
  intros [Hs HM]. destruct (FetchCoins_spec usage s (COutPoint.hash (CTxIn.prevout i)) Hs) as (o & s' & E & Hs' & [Hu Hb] & Ho & Ht).
  exists o, s'. split; [exact E|]. split; [split; [done|by intros t; rewrite Hu]|]. split; [done|]. rewrite HM in Ho.
  unfold spent. rewrite <- Ho. destruct o as [c|]; [|done]. unfold unspent. destruct (CCoins.IsPruned c) eqn:Ep.
  - split; [|done]. unfold CCoins.IsAvailable. by rewrite (pruned_empty _ (Ht c eq_refl) Ep).
  - unfold CCoins.IsAvailable. destruct (CCoins.vout c !! _) as [x|]; [|done]. destruct (CTxOut.IsNull x); [done|]. split; [done|].
    by intros c' o' [= <- <-].
Qed.

Lemma have_inputs_spec M vin : forall s, shows s M -> exists s',
  CCoinsViewCache.have_inputs_loop usage vin s = Ok (forallb (fun i => bool_decide (is_Some (spent M i))) vin, s') /\ shows s' M /\
  cache_best s' = cache_best s.
Proof.
  induction vin as [|i vin IH]; intros s Hs; cbn [CCoinsViewCache.have_inputs_loop forallb]; [by exists s|].
  destruct (fetch_shows s M i Hs) as (o & s1 & -> & Hs1 & Hb1 & Ho & _). cbn [res_bind]. destruct o as [c|].
  - rewrite Ho. case_bool; [|by exists s1]. destruct (IH s1 Hs1) as (s2 & -> & Hs2 & Hb2). exists s2. cbn [andb].
    split_and!; [done|done|congruence].
  - rewrite Ho. cbn. by exists s1.
Qed.

Lemma spent_coin M i c o : spent M i = Some (c, o) -> M !! COutPoint.hash (CTxIn.prevout i) = Some c /\
  CCoins.vout c !! Z.to_nat (COutPoint.n (CTxIn.prevout i)) = Some o.
Proof.
  unfold spent. destruct (M !! _) as [c'|]; [|done]. destruct (_ !! _) as [o'|] eqn:E; [|done]. destruct (CTxOut.IsNull o'); [done|].
  by intros [= <- <-].
Qed.

Lemma inputs_value_nonneg M h vin : forallb (input_fine M h) vin = true -> 0 <= inputs_value M vin.
Proof.
  unfold inputs_value. induction vin as [|i vin IH]; cbn [foldr forallb]; [done|]. intros [Hi Hv]%andb_true_iff.
  specialize (IH Hv). unfold input_fine in Hi. unfold input_value at 1. destruct (spent M i) as [[c o]|]; [|done].
  apply andb_true_iff in Hi as [_ Hm]. unfold MoneyRange in Hm. bool_hyps. lia.
Qed.

(** A report of [DoS]: false, and a state that is not valid any more. *)
Definition reported (reasons : list string) (state : CValidationState.t) (r : bool * CValidationState.t) : Prop :=
  fst r = false /\ CValidationState.IsValid (snd r) = false /\ CValidationState.strRejectReason (snd r) ∈ reasons.

Lemma DoS_reported reasons level code reason corruption msg state : reason ∈ reasons ->
  reported reasons state (CValidationState.DoS level false code reason corruption msg state).
Proof.
  intros H. unfold reported, CValidationState.DoS, CValidationState.IsValid. case_bool; cbn [fst snd CValidationState.mode CValidationState.strRejectReason].
  - apply bool_decide_eq_true in Heqb. rewrite Heqb. done.
  - done.
Qed.

Definition input_reasons : list string := ["bad-txns-premature-spend-of-coinbase"; "bad-txns-inputvalues-outofrange"].

(** The loop: it stops with a report at the first input that is not fine. *)
Lemma value_inputs_spec M h state vin : forall s acc, shows s M -> ledger_ok M -> 0 <= h < 2 ^ 31 ->
  forallb (fun i => bool_decide (is_Some (spent M i))) vin = true -> 0 <= acc <= MAX_MONEY ->
  exists r s', value_inputs usage vin h acc state s = Ok (r, s') /\ shows s' M /\ cache_best s' = cache_best s /\
    if forallb (input_fine M h) vin && (acc + inputs_value M vin <=? MAX_MONEY) then r = inr (acc + inputs_value M vin)
    else exists rep, r = inl rep /\ reported input_reasons state rep.
Proof.
  induction vin as [|i vin IH]; intros s acc Hs HM Hh Hav Hacc; cbn [value_inputs forallb inputs_value foldr] in *.
  - rewrite (proj2 (Z.leb_le _ _)), Z.add_0_r by lia. cbn [andb]. by exists (inr acc), s.
  - apply andb_true_iff in Hav as [Hi Hav]. apply bool_decide_eq_true in Hi as [[c o] Hi].
    destruct (fetch_shows s M i Hs) as (o' & s1 & -> & Hs1 & Hb1 & _ & Hc). rewrite (Hc c o Hi). cbn [res_bind].
    destruct (spent_coin M i c o Hi) as [Ec Eo]. rewrite Eo. cbn [res_of_option res_bind].
    fold (inputs_value M vin). unfold input_fine at 1, input_value. rewrite Hi. unfold CCoins.IsCoinBase.
    destruct (HM _ _ Ec) as [Hch _ _ _ _]. rewrite (swrap_small 32) by (unfold in_s; lia).
    replace (negb (CCoins.fCoinBase c) || (COINBASE_MATURITY <=? h - CCoins.nHeight c)) with
      (negb (CCoins.fCoinBase c && (h - CCoins.nHeight c <? COINBASE_MATURITY))) by (by rewrite negb_andb, Z.leb_antisym).
    destruct (CCoins.fCoinBase c && _); cbn [negb andb].
    { eexists _, _. split_and!; [done|done|done|]. eexists. split; [done|]. apply DoS_reported. by constructor. }
    destruct (MoneyRange (CTxOut.nValue o)) eqn:Em; cbn [negb orb andb].
    2: { eexists _, _. split_and!; [done|done|done|]. eexists. split; [done|]. apply DoS_reported. by repeat constructor. }
    unfold MoneyRange in Em. bool_hyps. rewrite (swrap_small 64) by (unfold in_s, MAX_MONEY, COIN in *; lia).
    unfold MoneyRange. rewrite (proj2 (Z.leb_le 0 _)) by lia. cbn [andb]. destruct (Z.leb_spec (acc + CTxOut.nValue o) MAX_MONEY); cbn [negb].
    + destruct (IH s1 (acc + CTxOut.nValue o) Hs1 HM Hh Hav ltac:(lia)) as (r & s2 & -> & Hs2 & Hb2 & Hr).
      exists r, s2. rewrite Z.add_assoc. split_and!; [done|done|congruence|exact Hr].
    + destruct (forallb (input_fine M h) vin) eqn:Ef; cbn [andb].
      * rewrite (proj2 (Z.leb_gt _ _)) by (pose proof (inputs_value_nonneg M h vin Ef); lia).
        eexists _, _. split_and!; [done|done|done|]. eexists. split; [done|]. apply DoS_reported. by repeat constructor.
      * eexists _, _. split_and!; [done|done|done|]. eexists. split; [done|]. apply DoS_reported. by repeat constructor.
Qed.
End checking.

(** ** The money supply *)

Definition out_value (o : CTxOut.t) : Z := if CTxOut.IsNull o then 0 else CTxOut.nValue o.
Definition outs_value (v : list CTxOut.t) : Z := foldr (fun o n => out_value o + n) 0 v.
Definition coins_value (c : CCoins.t) : Z := outs_value (CCoins.vout c).

(** The sum of all unspent outputs. *)
Definition supply (M : ledger) : Z := map_fold (fun _ c n => coins_value c + n) 0 M.

Lemma outs_value_app v w : outs_value (v ++ w) = outs_value v + outs_value w.
Proof. unfold outs_value. induction v as [|o v IH]; cbn [app foldr]; [done|]. rewrite IH. lia. Qed.

Lemma outs_value_trim v : outs_value (trim v) = outs_value v.
Proof.
  destruct (trim_prefix v) as (n & l & E & _ & Hl). rewrite E at 2. rewrite outs_value_app.
  assert (outs_value l = 0) as ->; [|lia]. clear E. induction Hl as [|o l Ho Hl IH]; [done|].
  change (out_value o + outs_value l = 0). rewrite IH. unfold out_value. by rewrite Ho.
Qed.

Lemma outs_value_insert v n o : v !! n = Some o -> outs_value (<[n := CTxOut.SetNull]> v) = outs_value v - out_value o.
Proof.
  revert n. induction v as [|x v IH]; intros [|n]; cbn [lookup list_lookup]; [done|done| |].
  - intros [= ->]. change (0 + outs_value v = out_value o + outs_value v - out_value o). lia.
  - intros E. change (out_value x + outs_value (<[n := CTxOut.SetNull]> v) = out_value x + outs_value v - out_value o). rewrite (IH n E). lia.
Qed.

Lemma pruned_value c : CCoins.IsPruned c = true -> coins_value c = 0.
Proof.
  unfold CCoins.IsPruned, coins_value. induction (CCoins.vout c) as [|o v IH]; [done|]. cbn [forallb]. intros [Ho Hv]%andb_true_iff.
  change (out_value o + outs_value v = 0). rewrite (IH Hv). unfold out_value. by rewrite Ho.
Qed.

Lemma supply_insert t c M : M !! t = None -> supply (<[t := c]> M) = coins_value c + supply M.
Proof. intros H. unfold supply. rewrite map_fold_insert_L; [done|intros; lia|done]. Qed.

Lemma supply_delete t c M : M !! t = Some c -> supply M = coins_value c + supply (delete t M).
Proof. intros H. rewrite <- (supply_insert t c) by apply lookup_delete_eq. by rewrite insert_delete_id. Qed.

Lemma supply_put t c M : supply (put t c M) = supply (delete t M) + coins_value c.
Proof.
  unfold put. destruct (CCoins.IsPruned c) eqn:E; [rewrite (pruned_value c E); lia|].
  rewrite <- insert_delete_eq, supply_insert by apply lookup_delete_eq. lia.
Qed.

Lemma spend_out_supply p M u M' : spend_out p M = Some (u, M') ->
  supply M' = supply M - CTxOut.nValue (CTxInUndo.txout u) /\
  (forall i c o, CTxIn.prevout i = p -> spent M i = Some (c, o) -> CTxInUndo.txout u = o) /\
  (forall i, CTxIn.prevout i = p -> is_Some (spent M i)) /\
  (forall i c o, spent M' i = Some (c, o) -> exists c', spent M i = Some (c', o)).
Proof.
  unfold spend_out. case_bool; [done|]. destruct (M !! COutPoint.hash p) as [c|] eqn:Ec; [|done].
  destruct (CCoins.vout c !! _) as [o|] eqn:Eo; [|done]. destruct (CTxOut.IsNull o) eqn:En; [done|]. intros [= <- <-].
  set (n := Z.to_nat (COutPoint.n p)) in *.
  assert (forall u, u = CTxInUndo.mk o (CCoins.fCoinBase c) (CCoins.nHeight c) (CCoins.nVersion c) \/ u = CTxInUndo.make o -> CTxInUndo.txout u = o) as Hu
    by by intros u [-> | ->].
  rewrite Hu by (case_bool; tauto). split_and!.
  - rewrite supply_put, (supply_delete (COutPoint.hash p) c M Ec). unfold coins_value, without. cbn [CCoins.vout].
    rewrite outs_value_trim, (outs_value_insert _ n o Eo). unfold out_value. rewrite En. lia.
  - intros i c' o' Hi Hsp. destruct (spent_coin M i c' o' Hsp) as [E1 E2]. rewrite Hi in *. rewrite Ec in E1. injection E1 as <-.
    subst n. rewrite Eo in E2. by injection E2.
  - intros i Hi. unfold spent. rewrite Hi, Ec. subst n. rewrite Eo, En. by eexists.
  - intros i c' o'. unfold spent at 1. rewrite put_lookup. unfold upd. case_decide as Eh; [|intros H; exists c'; exact H].
    unfold unspent. destruct (CCoins.IsPruned (without n c)); [done|]. unfold spent. rewrite Eh, Ec. cbn [without CCoins.vout].
    set (w := <[n:=CTxOut.SetNull]> (CCoins.vout c)). destruct (trim w !! _) as [x|] eqn:Ex; [|done].
    destruct (trim_prefix w) as (k & l & E & _). assert (w !! Z.to_nat (COutPoint.n (CTxIn.prevout i)) = Some x) as Ew
      by (rewrite E; by apply lookup_app_l_Some).
    apply list_lookup_insert_Some in Ew as [(_ & <- & _)|[_ Ew]]; [done|]. rewrite Ew. destruct (CTxOut.IsNull x); [done|].
    intros [= <- <-]. by exists c.
Qed.

Definition undo_value (us : list CTxInUndo.t) : Z := foldr (fun u n => CTxOut.nValue (CTxInUndo.txout u) + n) 0 us.

Lemma spend_outs_supply vin : forall M us M', spend_outs vin M = Some (us, M') ->
  supply M' = supply M - undo_value us /\ Forall2 (fun i u => exists c, spent M i = Some (c, CTxInUndo.txout u)) vin us.
Proof.
  induction vin as [|i vin IH]; intros M us M'; cbn [spend_outs].
  - intros [= <- <-]. split; [cbn; lia|constructor].
  - destruct (spend_out (CTxIn.prevout i) M) as [[u M1]|] eqn:E1; [|done]. destruct (spend_outs vin M1) as [[us' M2]|] eqn:E2; [|done].
    intros [= <- <-]. destruct (spend_out_supply _ M u M1 E1) as (Hs & Hu & Hi & Hback). destruct (IH M1 us' M2 E2) as [Hs2 Hf].
    split; [change (supply M2 = supply M - (CTxOut.nValue (CTxInUndo.txout u) + undo_value us')); lia|]. constructor.
    + destruct (Hi i eq_refl) as [[c o] E]. exists c. by rewrite (Hu i c o eq_refl E).
    + eapply Forall2_impl; [exact Hf|]. intros j u' [c E]. by apply (Hback j c).
Qed.

Lemma inputs_value_undo M vin us : Forall2 (fun i u => exists c, spent M i = Some (c, CTxInUndo.txout u)) vin us ->
  inputs_value M vin = undo_value us.
Proof.
  induction 1 as [|i u vin us (c & E) H IH]; [done|]. change (input_value M i + inputs_value M vin = CTxOut.nValue (CTxInUndo.txout u) + undo_value us).
  rewrite IH. unfold input_value. by rewrite E.
Qed.

(** The outputs a transaction adds are worth no more than it says. *)
Lemma FromTx_value (tx : CTransaction) h : Forall (fun o => 0 <= CTxOut.nValue o) (vout tx) ->
  coins_value (CCoins.FromTx tx h) <= total_value (vout tx) /\
  (Forall (fun o => IsUnspendable (CTxOut.scriptPubKey o) = false) (vout tx) -> coins_value (CCoins.FromTx tx h) = total_value (vout tx)).
Proof.
  intros Hv. unfold coins_value. change (CCoins.vout (CCoins.FromTx tx h)) with
    (trim (map (fun txout => if IsUnspendable (CTxOut.scriptPubKey txout) then CTxOut.SetNull else txout) (vout tx))).
  rewrite outs_value_trim. induction Hv as [|o v Ho Hv [IH1 IH2]]; [done|]. cbn [map].
  change (total_value (o :: v)) with (CTxOut.nValue o + total_value v).
  change (outs_value (?x :: ?l)) with (out_value x + outs_value l).
  assert (out_value o = CTxOut.nValue o) as Eo by (unfold out_value, CTxOut.IsNull; rewrite (proj2 (Z.eqb_neq _ _)) by lia; done).
  split.
  - case_bool; [change (out_value CTxOut.SetNull) with 0|]; lia.
  - intros Hu. apply Forall_cons in Hu as [Hu1 Hu]. rewrite Hu1, Eo, (IH2 Hu). done.
Qed.

(** ** Checking, then updating *)

Definition values_ok (tx : CTransaction) : Prop := Forall (fun o => in_s 64 (CTxOut.nValue o)) (vout tx).

Lemma GetValueOut_Ok (tx : CTransaction) out : values_ok tx -> GetValueOut tx = Ok out ->
  out = total_value (vout tx) /\ 0 <= out <= MAX_MONEY /\ Forall (fun o => 0 <= CTxOut.nValue o) (vout tx).
Proof.
  intros Hv. unfold GetValueOut. rewrite value_loop_spec by (done || (unfold MAX_MONEY, COIN; lia)). rewrite Z.add_0_l.
  destruct (forallb _ (vout tx)) eqn:Ef; cbn [andb]; [|done]. case_bool; [|done]. intros [= <-]. bool_hyps.
  pose proof (total_value_nonneg _ Ef). split_and!; [done|done|done|]. apply Forall_forall. intros o Ho.
  rewrite forallb_forall in Ef. specialize (Ef o ltac:(by apply list_elem_of_In)). unfold MoneyRange in Ef. bool_hyps. done.
Qed.

Section deciding.
Context {V : Type} `{!CCoinsView V, !CCoinsViewLaws V} (usage : CCoins.t -> Z).

Definition tx_reasons : list string := "" :: "bad-txns-in-belowout" :: input_reasons.

Lemma CheckTxInputs_spec (tx : CTransaction) (state : CValidationState.t) (s : CCoinsViewCache.t V) (M : ledger) (h out : Z) :
  shows s M -> ledger_ok M -> 0 <= h < 2 ^ 31 -> IsCoinBase tx = false -> values_ok tx -> GetValueOut tx = Ok out ->
  exists r s', CheckTxInputs usage tx state s h = Ok (r, s') /\ shows s' M /\ cache_best s' = cache_best s /\
    if payable M h (vin tx) out then r = (true, state) else reported tx_reasons state r.
Proof.
  intros Hs HM Hh Hcb Hv Hout. destruct (GetValueOut_Ok tx out Hv Hout) as (_ & Ho & _).
  unfold CheckTxInputs, CCoinsViewCache.HaveInputs. rewrite Hcb. destruct (have_inputs_spec usage M (vin tx) s Hs) as (s1 & -> & Hs1 & Hb1).
  cbn [res_bind]. unfold payable. assert (forall l, l ⊆ tx_reasons -> forall r, reported l state r -> reported tx_reasons state r) as Hsub
    by (intros l Hl r (? & ? & ?); split_and!; [done|done|by apply Hl]).
  destruct (forallb (fun i => bool_decide (is_Some (spent M i))) (vin tx)) eqn:Hav; cbn [negb].
  - destruct (value_inputs_spec usage M h state (vin tx) s1 0 Hs1 HM Hh Hav) as (r & s2 & -> & Hs2 & Hb2 & Hr); [unfold MAX_MONEY, COIN; lia|].
    cbn [res_bind]. rewrite Z.add_0_l in Hr. destruct (forallb (input_fine M h) (vin tx)) eqn:Ef; cbn [andb] in *.
    + pose proof (inputs_value_nonneg M h _ Ef) as Hnn. destruct (Z.leb_spec (inputs_value M (vin tx)) MAX_MONEY) as [Hle|Hgt].
      * rewrite andb_true_r. subst r. rewrite Hout. cbn [res_bind]. rewrite (Z.leb_antisym (inputs_value M (vin tx)) out).
        destruct (Z.ltb_spec (inputs_value M (vin tx)) out) as [Hlt|Hge]; cbn [negb].
        { eexists _, _. split_and!; [done|done|congruence|]. apply DoS_reported. by repeat constructor. }
        rewrite (swrap_small 64) by (unfold in_s, MAX_MONEY, COIN in *; lia). rewrite (proj2 (Z.ltb_ge _ 0)) by lia.
        rewrite Z.add_0_l, (swrap_small 64) by (unfold in_s, MAX_MONEY, COIN in *; lia). unfold MoneyRange.
        rewrite (proj2 (Z.leb_le 0 _)), (proj2 (Z.leb_le _ MAX_MONEY)) by lia. cbn [andb negb]. eexists _, _. split_and!; [done|done|congruence|done].
      * rewrite andb_false_r. destruct Hr as (rep & -> & Hrep). eexists _, _. split_and!; [done|done|congruence|].
        by apply (Hsub input_reasons); [intros x Hx; do 2 apply list_elem_of_further|].
    + destruct Hr as (rep & -> & Hrep). eexists _, _. split_and!; [done|done|congruence|].
      by apply (Hsub input_reasons); [intros x Hx; do 2 apply list_elem_of_further|].
  - assert (forallb (input_fine M h) (vin tx) = false) as ->.
    { apply not_true_iff_false. intros Hf. apply not_true_iff_false in Hav. apply Hav. apply forallb_forall. intros i Hi.
      rewrite forallb_forall in Hf. specialize (Hf i Hi). unfold input_fine in Hf. destruct (spent M i); [done|done]. }
    cbn [andb]. eexists _, _. split_and!; [done|done|done|]. apply DoS_reported. by constructor.
Qed.
End deciding.

(** ** Properties *)

(** C15: [CheckTxInputs] never fails an assertion, and accepts, leaving the
    state as it was, exactly when every input names an unspent output that is
    mature and in the money range, and the sum of the inputs is in the range
    and covers the outputs; every other case is reported with one of its
    reasons, a later running sum that would overflow included. *)
Theorem CheckTxInputs_correct {V : Type} `{!CCoinsView V, !CCoinsViewLaws V} (usage : CCoins.t -> Z) (tx : CTransaction)
  (state : CValidationState.t) (s : CCoinsViewCache.t V) (M : ledger) (h out : Z) :
  shows s M -> ledger_ok M -> 0 <= h < 2 ^ 31 -> IsCoinBase tx = false -> values_ok tx -> GetValueOut tx = Ok out ->
  exists r s', CheckTxInputs usage tx state s h = Ok (r, s') /\ shows s' M /\ cache_best s' = cache_best s /\
    if payable M h (vin tx) out then r = (true, state) else reported tx_reasons state r.
Proof. exact (CheckTxInputs_spec usage tx state s M h out). Qed.


Definition demo_state : CValidationState.t := CValidationState.make.
Definition demo_payment : CTransaction := demo_transaction 2 [demo_in 1 0] [demo_out 20; demo_out 23].

Lemma CheckTxInputs_correct_witness :
  (exists s', CheckTxInputs demo_usage demo_payment demo_state (CCoinsViewCache.make demo_db) 107 = Ok (true, demo_state, s')) /\
  exists r s', CheckTxInputs demo_usage demo_payment demo_state (CCoinsViewCache.make demo_db) 106 = Ok (r, s') /\
    reported tx_reasons demo_state r.
Proof.
  destruct demo_shows as [Hs HM]. assert (values_ok demo_payment) as Hv by (repeat constructor; done).
  split.
  - destruct (CheckTxInputs_correct demo_usage demo_payment demo_state (CCoinsViewCache.make demo_db) demo_M 107 43 Hs HM ltac:(lia)
      eq_refl Hv eq_refl) as (r & s' & E & _ & _ & Hr).
    replace (payable demo_M 107 (vin demo_payment) 43) with true in Hr by by vm_compute. exists s'. by rewrite E, Hr.
  - destruct (CheckTxInputs_correct demo_usage demo_payment demo_state (CCoinsViewCache.make demo_db) demo_M 106 43 Hs HM ltac:(lia)
      eq_refl Hv eq_refl) as (r & s' & E & _ & _ & Hr).
    replace (payable demo_M 106 (vin demo_payment) 43) with false in Hr by by vm_compute. by exists r, s'.
Defined.

