(* ===== verification/Rules.v ===== *)
(** The rules on transactions of src/sige/src/validation.cpp that need no
    script: [IsFinalTx], the sequence locks of BIP 68, the counts of signature
    operations (with [CountWitnessSigOps] of script/interpreter.cpp),
    [CheckTransaction] and [GetBlockSubsidy].

    Debug messages keep their format, as in [Connect]. *)

From S2P Require Import Prelude Bytes BaseUint UintBytes Uint256 Serialize Codec Header Chain Opcode Prevector ScriptNum Script Amount Transaction PubKey Compressor Coins CoinsView Undo State Connect.

Definition LOCKTIME_VERIFY_SEQUENCE : Z := Z.shiftl 1 0.
Definition LOCKTIME_MEDIAN_TIME_PAST : Z := Z.shiftl 1 1.
Definition MAX_BLOCK_BASE_SIZE : Z := 1000000.
Definition SCRIPT_VERIFY_P2SH : Z := Z.shiftl 1 0.
Definition SCRIPT_VERIFY_WITNESS : Z := Z.shiftl 1 11.

(** ** Lock times *)

Definition IsFinalTx (tx : CMutableTransaction) (nBlockHeight nBlockTime : Z) : bool :=
  if nLockTime tx =? 0 then true
  else if nLockTime tx <? (if nLockTime tx <? LOCKTIME_THRESHOLD then nBlockHeight else nBlockTime) then true
  else forallb (fun txin => CTxIn.nSequence txin =? SEQUENCE_FINAL) (vin tx).

(** [CheckFinalTx] of the active chain [chainActive] at the adjusted time. *)
Definition CheckFinalTx (st : gmap nat CBlockIndex) (chainActive : CChain.t) (GetAdjustedTime : Z) (tx : CMutableTransaction) (flags : Z) :
  res bool :=
  let flags := Z.max flags 0 in
  let nBlockHeight := i32 (CChain.Height chainActive + 1) in
  let? nBlockTime :=
    if negb (Z.land flags LOCKTIME_MEDIAN_TIME_PAST =? 0)
    then match CChain.Tip chainActive with Some tip => BlockIndex.GetMedianTimePast st tip | None => Undef end
    else Ok GetAdjustedTime in
  Ok (IsFinalTx tx nBlockHeight nBlockTime).

(** The loop over the inputs: the locks, and the heights that are left. *)
Fixpoint sequence_loop (st : gmap nat CBlockIndex) (block : nat) (vin : list CTxIn.t) (prevHeights : list Z) (nMinHeight nMinTime : Z) :
  res (Z * Z * list Z) :=
  match vin, prevHeights with
  | txin :: vin, nCoinHeight :: prevHeights =>
      if negb (Z.land (CTxIn.nSequence txin) SEQUENCE_LOCKTIME_DISABLE_FLAG =? 0) then
        let? (h, t, hs) := sequence_loop st block vin prevHeights nMinHeight nMinTime in
        Ok (h, t, 0 :: hs)
      else
        let? (nMinHeight, nMinTime) :=
          if negb (Z.land (CTxIn.nSequence txin) SEQUENCE_LOCKTIME_TYPE_FLAG =? 0) then
            let? p := BlockIndex.GetAncestor st block (Z.max (i32 (nCoinHeight - 1)) 0) in
            match p with
            | None => Undef
            | Some p =>
                let? nCoinTime := BlockIndex.GetMedianTimePast st p in
                Ok (nMinHeight,
                    Z.max nMinTime (i64 (nCoinTime +
                      u32 (Z.shiftl (Z.land (CTxIn.nSequence txin) SEQUENCE_LOCKTIME_MASK) SEQUENCE_LOCKTIME_GRANULARITY) - 1)))
            end
          else Ok (Z.max nMinHeight (i32 (nCoinHeight + Z.land (CTxIn.nSequence txin) SEQUENCE_LOCKTIME_MASK - 1)), nMinTime) in
        let? (h, t, hs) := sequence_loop st block vin prevHeights nMinHeight nMinTime in
        Ok (h, t, nCoinHeight :: hs)
  | _, _ => Ok (nMinHeight, nMinTime, prevHeights)
  end.

Definition CalculateSequenceLocks (st : gmap nat CBlockIndex) (tx : CMutableTransaction) (flags : Z) (prevHeights : list Z) (block : nat) :
  res (Z * Z * list Z) :=
  if negb (length prevHeights =? length (vin tx))%nat then AssertFail
  else
    let nMinHeight := -1 in
    let nMinTime := -1 in
    let fEnforceBIP68 := (2 <=? u32 (nVersion tx)) && negb (Z.land flags LOCKTIME_VERIFY_SEQUENCE =? 0) in
    if negb fEnforceBIP68 then Ok (nMinHeight, nMinTime, prevHeights)
    else sequence_loop st block (vin tx) prevHeights nMinHeight nMinTime.

Definition EvaluateSequenceLocks (st : gmap nat CBlockIndex) (block : nat) (lockPair : Z * Z) : res bool :=
  let? b := Chain.deref st (Some block) in
  match Chain.pprev b with
  | None => AssertFail
  | Some q =>
      let? nBlockTime := BlockIndex.GetMedianTimePast st q in
      if (Chain.nHeight b <=? fst lockPair) || (nBlockTime <=? snd lockPair) then Ok false else Ok true
  end.

Definition SequenceLocks (st : gmap nat CBlockIndex) (tx : CMutableTransaction) (flags : Z) (prevHeights : list Z) (block : nat) :
  res (bool * list Z) :=
  let? (h, t, prevHeights) := CalculateSequenceLocks st tx flags prevHeights block in
  let? r := EvaluateSequenceLocks st block (h, t) in
  Ok (r, prevHeights).

(** ** Signature operations *)

Section sigops.
Context (WORDS_BIGENDIAN : bool).

Fixpoint sigops_loop (scripts : list CScript) (nSigOps : Z) : res Z :=
  match scripts with
  | [] => Ok nSigOps
  | s :: scripts => let? n := GetSigOpCount WORDS_BIGENDIAN false s in sigops_loop scripts (u32 (nSigOps + n))
  end.

Definition GetLegacySigOpCount (tx : CMutableTransaction) : res Z :=
  let? nSigOps := sigops_loop (map CTxIn.scriptSig (vin tx)) 0 in
  sigops_loop (map CTxOut.scriptPubKey (vout tx)) nSigOps.

Definition WitnessSigOps (witversion : Z) (witprogram : bytes) (witness : CScriptWitness.t) : res Z :=
  if witversion =? 0 then
    if zlen witprogram =? 20 then Ok 1
    else
      match last (CScriptWitness.stack witness) with
      | Some subscript => if zlen witprogram =? 32 then GetSigOpCount WORDS_BIGENDIAN true subscript else Ok 0
      | None => Ok 0
      end
  else Ok 0.

(** [while (pc < scriptSig.end()) scriptSig.GetOp(pc, opcode, data)]: an
    operation that cannot be read leaves [pc] behind the byte it was read from. *)
Fixpoint last_data_loop (fuel : nat) (scriptSig : CScript) (pc : Z) (data : bytes) : res bytes :=
  if pc <? script_end scriptSig then
    match fuel with
    | O => OutOfFuel
    | S fuel =>
        let r := GetOp WORDS_BIGENDIAN scriptSig pc in
        last_data_loop fuel scriptSig (pcRet r) (vchRet r)
    end
  else Ok data.

Definition CountWitnessSigOps (scriptSig scriptPubKey : CScript) (witness : CScriptWitness.t) (flags : Z) : res Z :=
  if Z.land flags SCRIPT_VERIFY_WITNESS =? 0 then Ok 0
  else if Z.land flags SCRIPT_VERIFY_P2SH =? 0 then AssertFail
  else
    let? w := IsWitnessProgram scriptPubKey in
    match w with
    | Some (witnessversion, witnessprogram) => WitnessSigOps witnessversion witnessprogram witness
    | None =>
        if IsPayToScriptHash scriptPubKey then
          let? push := IsPushOnly WORDS_BIGENDIAN scriptSig in
          if push : bool then
            let? subscript := last_data_loop (length scriptSig) scriptSig 0 [] in
            let? w := IsWitnessProgram subscript in
            match w with
            | Some (witnessversion, witnessprogram) => WitnessSigOps witnessversion witnessprogram witness
            | None => Ok 0
            end
          else Ok 0
        else Ok 0
    end.

Context {V : Type} `{!CCoinsView V} (usage : CCoins.t -> Z).
Abbreviation cache := (CCoinsViewCache.t V).

Fixpoint p2sh_loop (vin : list CTxIn.t) (nSigOps : Z) (inputs : cache) : res (Z * cache) :=
  match vin with
  | [] => Ok (nSigOps, inputs)
  | txin :: vin =>
      let? (prevout, inputs) := CCoinsViewCache.GetOutputFor usage txin inputs in
      if IsPayToScriptHash (CTxOut.scriptPubKey prevout) then
        let? n := GetSigOpCountP2SH WORDS_BIGENDIAN (CTxIn.scriptSig txin) (CTxOut.scriptPubKey prevout) in
        p2sh_loop vin (u32 (nSigOps + n)) inputs
      else p2sh_loop vin nSigOps inputs
  end.

Definition GetP2SHSigOpCount (tx : CMutableTransaction) (inputs : cache) : res (Z * cache) :=
  if IsCoinBase tx then Ok (0, inputs) else p2sh_loop (vin tx) 0 inputs.

(** The witness operations are added as [size_t]. *)
Fixpoint witness_loop (vin : list CTxIn.t) (flags nSigOps : Z) (inputs : cache) : res (Z * cache) :=
  match vin with
  | [] => Ok (nSigOps, inputs)
  | txin :: vin =>
      let? (prevout, inputs) := CCoinsViewCache.GetOutputFor usage txin inputs in
      let? n := CountWitnessSigOps (CTxIn.scriptSig txin) (CTxOut.scriptPubKey prevout) (CTxIn.scriptWitness txin) (u32 flags) in
      witness_loop vin flags (i64 (nSigOps + n)) inputs
  end.

Definition GetTransactionSigOpCost (tx : CMutableTransaction) (inputs : cache) (flags : Z) : res (Z * cache) :=
  let? n := GetLegacySigOpCount tx in
  let nSigOps := u32 (n * WITNESS_SCALE_FACTOR) in
  if IsCoinBase tx then Ok (nSigOps, inputs)
  else
    let? (nSigOps, inputs) :=
      if negb (Z.land flags SCRIPT_VERIFY_P2SH =? 0) then
        let? (n, inputs) := GetP2SHSigOpCount tx inputs in
        Ok (i64 (nSigOps + u32 (n * WITNESS_SCALE_FACTOR)), inputs)
      else Ok (nSigOps, inputs) in
    witness_loop (vin tx) flags nSigOps inputs.
End sigops.

(** ** CheckTransaction *)

Section checking.
Context (sizeof_CTxIn sizeof_CTxOut sizeof_vector : Z).

(** The loop over the outputs: a report, or the end. *)
Fixpoint check_outputs (vout : list CTxOut.t) (nValueOut : Z) (state : CValidationState.t) : option (bool * CValidationState.t) :=
  match vout with
  | [] => None
  | txout :: vout =>
      if CTxOut.nValue txout <? 0 then Some (CValidationState.DoS 100 false REJECT_INVALID "bad-txns-vout-negative" false "" state)
      else if MAX_MONEY <? CTxOut.nValue txout then Some (CValidationState.DoS 100 false REJECT_INVALID "bad-txns-vout-toolarge" false "" state)
      else
        let nValueOut := i64 (nValueOut + CTxOut.nValue txout) in
        if negb (MoneyRange nValueOut)
        then Some (CValidationState.DoS 100 false REJECT_INVALID "bad-txns-txouttotal-toolarge" false "" state)
        else check_outputs vout nValueOut state
  end.

(** [std::set<COutPoint>] holds an element that is not ordered with [p]. *)
Definition in_set (p : COutPoint.t) (vInOutPoints : list COutPoint.t) : bool :=
  existsb (fun q => negb (COutPoint.op_lt p q) && negb (COutPoint.op_lt q p)) vInOutPoints.

Fixpoint duplicate_loop (vin : list CTxIn.t) (vInOutPoints : list COutPoint.t) : bool :=
  match vin with
  | [] => false
  | txin :: vin => in_set (CTxIn.prevout txin) vInOutPoints || duplicate_loop vin (CTxIn.prevout txin :: vInOutPoints)
  end.

Definition CheckTransaction (tx : CMutableTransaction) (state : CValidationState.t) (fCheckDuplicateInputs : bool) :
  bool * CValidationState.t :=
  if (length (vin tx) =? 0)%nat then CValidationState.DoS 10 false REJECT_INVALID "bad-txns-vin-empty" false "" state
  else if (length (vout tx) =? 0)%nat then CValidationState.DoS 10 false REJECT_INVALID "bad-txns-vout-empty" false "" state
  else if MAX_BLOCK_BASE_SIZE <?
    GetSerializeSize (c_transaction sizeof_CTxIn sizeof_CTxOut sizeof_vector (Z.lor PROTOCOL_VERSION SERIALIZE_TRANSACTION_NO_WITNESS)) tx
  then CValidationState.DoS 100 false REJECT_INVALID "bad-txns-oversize" false "" state
  else
    match check_outputs (vout tx) 0 state with
    | Some report => report
    | None =>
        if fCheckDuplicateInputs && duplicate_loop (vin tx) []
        then CValidationState.DoS 100 false REJECT_INVALID "bad-txns-inputs-duplicate" false "" state
        else if IsCoinBase tx then
          match vin tx with
          | txin :: _ =>
              if (zlen (CTxIn.scriptSig txin) <? 2) || (100 <? zlen (CTxIn.scriptSig txin))
              then CValidationState.DoS 100 false REJECT_INVALID "bad-cb-length" false "" state
              else (true, state)
          | [] => (true, state)
          end
        else if existsb (fun txin => COutPoint.IsNull (CTxIn.prevout txin)) (vin tx)
        then CValidationState.DoS 10 false REJECT_INVALID "bad-txns-prevout-null" false "" state
        else (true, state)
    end.
End checking.

(** ** The subsidy *)

Definition GetBlockSubsidy (nHeight nSubsidyHalvingInterval : Z) : res Z :=
  if nSubsidyHalvingInterval =? 0 then Undef
  else
    let halvings := i32 (Z.quot nHeight nSubsidyHalvingInterval) in
    if 64 <=? halvings then Ok 0
    else
      let nSubsidy := 55 * COIN in
      if halvings <? 0 then Undef else Ok (Z.shiftr nSubsidy halvings).
