(* ===== verification/RulesSpec.v ===== *)
(** What the rules of [Rules] decide: the specification and theorems. *)

From S2P Require Import Prelude Bytes BaseUint UintBytes Uint256 Serialize Codec Header Chain ChainSpec Opcode Prevector ScriptNum Script Amount Transaction PubKey Compressor Coins CoinsView Undo State Connect Ledger Spend Rules.

#[local] Ltac Zify.zify_post_hook ::= Z.to_euclidean_division_equations.

(** ** CheckTransaction *)

Section checking.
Context (sizeof_CTxIn sizeof_CTxOut sizeof_vector : Z).

Definition stripped_size (tx : CMutableTransaction) : Z :=
  GetSerializeSize (c_transaction sizeof_CTxIn sizeof_CTxOut sizeof_vector (Z.lor PROTOCOL_VERSION SERIALIZE_TRANSACTION_NO_WITNESS)) tx.

Definition outputs_fine (v : list CTxOut.t) : bool :=
  forallb (fun o => MoneyRange (CTxOut.nValue o)) v && (total_value v <=? MAX_MONEY).

(** The transactions that need no context to be rejected, negated. *)
Definition well_formed (dup : bool) (tx : CMutableTransaction) : bool :=
  negb (length (vin tx) =? 0)%nat && negb (length (vout tx) =? 0)%nat && (stripped_size tx <=? MAX_BLOCK_BASE_SIZE) &&
  outputs_fine (vout tx) && (negb dup || bool_decide (NoDup (map CTxIn.prevout (vin tx)))) &&
  (if IsCoinBase tx then forallb (fun i => (2 <=? zlen (CTxIn.scriptSig i)) && (zlen (CTxIn.scriptSig i) <=? 100)) (vin tx)
   else forallb (fun i => negb (COutPoint.IsNull (CTxIn.prevout i))) (vin tx)).

Definition transaction_reasons : list string :=
  ["bad-txns-vin-empty"; "bad-txns-vout-empty"; "bad-txns-oversize"; "bad-txns-vout-negative"; "bad-txns-vout-toolarge";
   "bad-txns-txouttotal-toolarge"; "bad-txns-inputs-duplicate"; "bad-cb-length"; "bad-txns-prevout-null"].

Lemma check_outputs_spec state v : forall acc, 0 <= acc <= MAX_MONEY ->
  if forallb (fun o => MoneyRange (CTxOut.nValue o)) v && (acc + total_value v <=? MAX_MONEY) then check_outputs v acc state = None
  else exists r, check_outputs v acc state = Some r /\ reported transaction_reasons state r.
Proof.
  induction v as [|o v IH]; intros acc Hacc; cbn [check_outputs forallb total_value foldr].
  - by rewrite (proj2 (Z.leb_le _ _)) by lia.
  - fold (total_value v). unfold MoneyRange at 1. destruct (Z.ltb_spec (CTxOut.nValue o) 0).
    { rewrite (proj2 (Z.leb_gt 0 _)) by lia. cbn [andb]. eexists. split; [done|]. apply DoS_reported. by repeat constructor. }
    rewrite (proj2 (Z.leb_le 0 _)) by lia. rewrite (Z.leb_antisym MAX_MONEY). cbn [andb]. destruct (Z.ltb_spec MAX_MONEY (CTxOut.nValue o)); cbn [negb andb].
    { eexists. split; [done|]. apply DoS_reported. by repeat constructor. }
    rewrite (swrap_small 64) by (unfold in_s, MAX_MONEY, COIN in *; lia). 
    assert (MoneyRange (acc + CTxOut.nValue o) = (acc + CTxOut.nValue o <=? MAX_MONEY)) as ->
      by (unfold MoneyRange; by rewrite (proj2 (Z.leb_le 0 _)) by lia).
    destruct (Z.leb_spec (acc + CTxOut.nValue o) MAX_MONEY); cbn [negb].
    + rewrite Z.add_assoc. apply IH. lia.
    + destruct (forallb _ v) eqn:Ef; cbn [andb].
      * rewrite (proj2 (Z.leb_gt _ _)) by (pose proof (total_value_nonneg v Ef); lia).
        eexists. split; [done|]. apply DoS_reported. by repeat constructor.
      * eexists. split; [done|]. apply DoS_reported. by repeat constructor.
Qed.

Lemma in_set_spec p seen : COutPoint.wf_outpoint p -> Forall COutPoint.wf_outpoint seen -> in_set p seen = bool_decide (p ∈ seen).
Proof.
  intros Hp Hs. induction Hs as [|q seen Hq Hs IH]; [done|]. cbn [in_set existsb]. fold (in_set p seen). rewrite IH.
  assert (negb (COutPoint.op_lt p q) && negb (COutPoint.op_lt q p) = bool_decide (p = q)) as ->.
  { destruct (decide (p = q)) as [->|Hne]; [by rewrite outpoint_irrefl, bool_decide_true|].
    rewrite bool_decide_false by done. destruct (outpoint_cases p q Hp Hq) as [? | [[-> ->] | [-> ->]]]; done. }
  apply eq_true_iff_eq. by rewrite orb_true_iff, !bool_decide_eq_true, elem_of_cons.
Qed.

Lemma duplicate_loop_spec v : forall seen, Forall (fun i => COutPoint.wf_outpoint (CTxIn.prevout i)) v -> Forall COutPoint.wf_outpoint seen ->
  (duplicate_loop v seen = false <-> NoDup (map CTxIn.prevout v) /\ forall p, p ∈ map CTxIn.prevout v -> p ∉ seen).
Proof.
  induction v as [|i v IH]; intros seen Hv Hs; cbn [duplicate_loop map].
  - split; [|done]. intros _. split; [constructor|]. intros p Hp. by apply elem_of_nil in Hp.
  - apply Forall_cons in Hv as [Hi Hv]. rewrite orb_false_iff, in_set_spec, bool_decide_eq_false, IH by (done || by constructor).
    rewrite NoDup_cons. split.
    + intros (Hi' & Hnd & Hr). split_and!; [|done|].
      * intros Hin. apply (Hr _ Hin). by constructor.
      * intros p [->|Hp]%elem_of_cons; [done|]. intros Hps. apply (Hr p Hp). by constructor.
    + intros ((Hi' & Hnd) & Hr). split_and!; [by apply Hr; constructor|done|].
      intros p Hp [->|Hps]%elem_of_cons; [done|]. by apply (Hr p); [constructor|].
Qed.

Lemma coinbase_one tx : IsCoinBase tx = true -> exists i, vin tx = [i].
Proof. unfold IsCoinBase. destruct (vin tx) as [|i [|]]; try done. by exists i. Qed.

Lemma existsb_negb {A} (f : A -> bool) l : existsb f l = negb (forallb (fun x => negb (f x)) l).
Proof. induction l as [|x l IH]; [done|]. cbn [existsb forallb]. rewrite IH. by destruct (f x). Qed.

Lemma CheckTransaction_spec (tx : CMutableTransaction) (state : CValidationState.t) (dup : bool) :
  Forall (fun i => COutPoint.wf_outpoint (CTxIn.prevout i)) (vin tx) ->
  let r := CheckTransaction sizeof_CTxIn sizeof_CTxOut sizeof_vector tx state dup in
  if well_formed dup tx then r = (true, state) else reported transaction_reasons state r.
Proof.
  intros Hw r. subst r. unfold CheckTransaction, well_formed. fold (stripped_size tx). rewrite (Z.leb_antisym MAX_BLOCK_BASE_SIZE).
  destruct (length (vin tx) =? 0)%nat eqn:E1; cbn [negb andb]; [apply DoS_reported; by repeat constructor|].
  destruct (length (vout tx) =? 0)%nat; cbn [negb andb]; [apply DoS_reported; by repeat constructor|].
  destruct (MAX_BLOCK_BASE_SIZE <? stripped_size tx); cbn [negb andb]; [apply DoS_reported; by repeat constructor|].
  pose proof (check_outputs_spec state (vout tx) 0 ltac:(unfold MAX_MONEY, COIN; lia)) as Hout. rewrite Z.add_0_l in Hout.
  unfold outputs_fine. destruct (forallb _ (vout tx) && _); cbn [andb]; [rewrite Hout|by destruct Hout as (r & -> & Hr)].
  destruct (duplicate_loop_spec (vin tx) [] Hw (Forall_nil_2 _)) as [Hd1 Hd2].
  assert (duplicate_loop (vin tx) [] = negb (bool_decide (NoDup (map CTxIn.prevout (vin tx))))) as ->.
  { destruct (duplicate_loop (vin tx) []) eqn:E.
    - rewrite bool_decide_false; [done|]. intros Hnd. enough (true = false) by done. apply Hd2. split; [done|]. intros p _ Hp. by apply elem_of_nil in Hp.
    - by rewrite bool_decide_true by by apply Hd1. }
  destruct dup, (bool_decide _); cbn [negb andb orb]; try (apply DoS_reported; by repeat constructor).
  all: destruct (IsCoinBase tx) eqn:Ecb;
    [destruct (coinbase_one tx Ecb) as [i ->]; cbn [forallb]; rewrite andb_true_r, (Z.leb_antisym _ 2), (Z.leb_antisym 100), <- negb_orb;
       destruct ((_ <? 2) || _); cbn [negb]; [apply DoS_reported; by repeat constructor|done]
    |rewrite existsb_negb; destruct (forallb _ (vin tx)); cbn [negb]; [done|apply DoS_reported; by repeat constructor]].
Qed.

(** C22: [CheckTransaction] accepts, leaving the state as it was, exactly the
    transactions with inputs and outputs, a stripped size within the limit,
    values and total in the money range, no input twice (when asked to look), a
    coinbase script of 2 to 100 bytes, and no null input otherwise; the rest is
    reported with one of its reasons. *)
Theorem CheckTransaction_correct (tx : CMutableTransaction) (state : CValidationState.t) (dup : bool) :
  Forall (fun i => COutPoint.wf_outpoint (CTxIn.prevout i)) (vin tx) ->
  let r := CheckTransaction sizeof_CTxIn sizeof_CTxOut sizeof_vector tx state dup in
  if well_formed dup tx then r = (true, state) else reported transaction_reasons state r.
Proof. apply CheckTransaction_spec. Qed.
End checking.

(** ** Inputs named twice *)

Lemma spend_out_gone p M u M' i : spend_out p M = Some (u, M') -> CTxIn.prevout i = p -> spent M' i = None.
Proof.
  unfold spend_out. case_bool; [done|]. destruct (M !! COutPoint.hash p) as [c|] eqn:Ec; [|done].
  destruct (CCoins.vout c !! _) as [o|] eqn:Eo; [|done]. destruct (CTxOut.IsNull o); [done|]. intros [= _ <-] Hi. unfold spent.
  rewrite Hi, put_lookup. unfold upd. rewrite decide_True by done. unfold unspent. case_bool; [done|]. cbn [without CCoins.vout].
  set (n := Z.to_nat (COutPoint.n p)) in *. set (w := <[n:=CTxOut.SetNull]> (CCoins.vout c)). destruct (trim w !! n) as [x|] eqn:Ex; [|done].
  destruct (trim_prefix w) as (k & l & E & _). assert (w !! n = Some x) as Ew by (rewrite E; by apply lookup_app_l_Some).
  subst w. rewrite list_lookup_insert_eq in Ew by (by apply lookup_lt_Some in Eo). by injection Ew as <-.
Qed.

Lemma spend_outs_NoDup vin : forall M us M', spend_outs vin M = Some (us, M') -> NoDup (map CTxIn.prevout vin).
Proof.
  induction vin as [|i vin IH]; intros M us M'; cbn [spend_outs map]; [constructor|].
  destruct (spend_out (CTxIn.prevout i) M) as [[u M1]|] eqn:E1; [|done]. destruct (spend_outs vin M1) as [[us' M2]|] eqn:E2; [|done].
  intros _. apply NoDup_cons. split; [|by eapply IH]. intros (j & Hj & Hin)%list_elem_of_fmap.
  destruct (spend_outs_supply vin M1 us' M2 E2) as [_ Hf]. apply list_elem_of_lookup in Hin as [k Hk].
  destruct (Forall2_lookup_l _ _ _ _ _ Hf Hk) as (u' & _ & c & Hs). by rewrite (spend_out_gone _ M u M1 j E1 (eq_sym Hj)) in Hs.
Qed.

Section asserting.
Context {V : Type} `{!CCoinsView V, !CCoinsViewLaws V} (usage : CCoins.t -> Z).

(** An input that names no unspent output: [assert(false)]. *)
Lemma spend_fails (s : CCoinsViewCache.t V) M p : shows s M -> 0 <= COutPoint.n p -> spend_out p M = None ->
  CCoinsViewCache.with_modifier usage (CCoinsViewCache.ModifyCoins usage (COutPoint.hash p) s) (spend_coins (COutPoint.n p)) = AssertFail.
Proof.
  intros [Hs HM] Hn E. destruct (ModifyCoins_spec usage s (COutPoint.hash p) (spend_coins (COutPoint.n p)) Hs) as (c0 & Hc0 & Ht & Hfail & _).
  apply Hfail. rewrite HM in Hc0. unfold spend_out in E. rewrite (proj2 (Z.ltb_ge _ _) Hn) in E. unfold spend_coins.
  destruct (CCoins.IsPruned c0) eqn:Ep; [by rewrite (pruned_empty _ Ht Ep)|]. unfold unspent in Hc0. rewrite Ep in Hc0.
  rewrite <- Hc0 in E. destruct (CCoins.vout c0 !! _) as [o|]; [|done]. by destruct (CTxOut.IsNull o).
Qed.

Lemma spend_loop_fails vin : forall (s : CCoinsViewCache.t V) M acc, shows s M -> ledger_ok M ->
  Forall (fun i => 0 <= COutPoint.n (CTxIn.prevout i)) vin -> spend_outs vin M = None -> spend_loop usage vin acc s = AssertFail.
Proof.
  induction vin as [|i vin IH]; intros s M acc Hs HM Hn; cbn [spend_outs spend_loop]; [done|]. apply Forall_cons in Hn as [Hi Hn].
  destruct (spend_out (CTxIn.prevout i) M) as [[u M1]|] eqn:E1.
  - destruct (spend_out_spec usage s _ M u M1 Hs HM E1) as ((s1 & -> & Hs1 & _) & HM1 & _). cbn [res_bind].
    destruct (spend_outs vin M1) as [[us M2]|] eqn:E2; [done|]. intros _. by apply (IH s1 M1).
  - intros _. by rewrite (spend_fails s M).
Qed.

(** C23: a transaction that names an output twice makes [UpdateCoins] fail its
    assertion, whatever the view; [CheckBlock] does not look for such inputs, and
    the witness is one that [CheckTransaction], as [CheckBlock] calls it, and
    [CheckTxInputs] accept. *)
Theorem duplicate_inputs_assert (tx : CTransaction) (s : CCoinsViewCache.t V) (M : ledger) (u : CTxUndo.t) (h : Z) :
  shows s M -> ledger_ok M -> IsCoinBase tx = false -> Forall (fun i => 0 <= COutPoint.n (CTxIn.prevout i)) (vin tx) ->
  ~ NoDup (map CTxIn.prevout (vin tx)) -> UpdateCoins usage tx s u h = AssertFail.
Proof.
  intros Hs HM Hcb Hn Hd. unfold UpdateCoins. rewrite Hcb. cbn [negb]. rewrite (spend_loop_fails _ s M); [done|done|done|done|].
  destruct (spend_outs (vin tx) M) as [[us M']|] eqn:E; [|done]. by apply spend_outs_NoDup in E.
Qed.
End asserting.

Definition double_spend : CTransaction := demo_transaction 2 [demo_in 1 0; demo_in 1 0] [demo_out 99].

Lemma duplicate_inputs_assert_witness :
  CheckTransaction 1 1 1 double_spend demo_state false = (true, demo_state) /\
  (exists s', CheckTxInputs demo_usage double_spend demo_state (CCoinsViewCache.make demo_db) 200 = Ok (true, demo_state, s')) /\
  UpdateCoins demo_usage double_spend (CCoinsViewCache.make demo_db) (CTxUndo.mk []) 200 = AssertFail.
Proof.
  split; [by vm_compute|]. split; [eexists; by vm_compute|]. destruct demo_shows as [Hs HM].
  apply (duplicate_inputs_assert demo_usage double_spend (CCoinsViewCache.make demo_db) demo_M); [exact Hs|exact HM|done|repeat constructor; done|].
  intros [Hin _]%NoDup_cons. apply Hin. constructor.
Defined.

Lemma CheckTransaction_correct_witness :
  CheckTransaction 1 1 1 double_spend demo_state false = (true, demo_state) /\
  reported transaction_reasons demo_state (CheckTransaction 1 1 1 double_spend demo_state true).
Proof.
  assert (Forall (fun i => COutPoint.wf_outpoint (CTxIn.prevout i)) (vin double_spend)) as Hw.
  { repeat constructor; try done; cbn; unfold in_u; lia. }
  split.
  - pose proof (CheckTransaction_correct 1 1 1 double_spend demo_state false Hw) as H. cbn zeta in H.
    replace (well_formed 1 1 1 false double_spend) with true in H by by vm_compute. exact H.
  - pose proof (CheckTransaction_correct 1 1 1 double_spend demo_state true Hw) as H. cbn zeta in H.
    replace (well_formed 1 1 1 true double_spend) with false in H by by vm_compute. exact H.
Defined.

(** ** Lock times *)

Section locks.
Context (st : gmap nat CBlockIndex) (Hst : wf_store st) (Htimes : map_Forall (fun _ e => in_u 32 (nTime e)) st).

Lemma times_range n : forall p, Forall (in_u 32) (times st n p).
Proof.
  induction n as [|n IH]; intros [a|]; try by constructor. cbn [times]. destruct (st !! a) as [b|] eqn:Hb; [|by constructor].
  constructor; [by apply (Htimes a)|apply IH].
Qed.

Lemma median_range p b : st !! p = Some b -> exists m, BlockIndex.GetMedianTimePast st p = Ok m /\ in_u 32 m.
Proof.
  intros Hp. destruct (GetMedianTimePast_spec st Hst p b Hp) as (m & E & L). exists m. split; [done|].
  apply list_elem_of_lookup_2 in L. rewrite std_sort_perm in L. by apply (proj1 (Forall_forall _ _) (times_range 11 (Some p))).
Qed.

(** The median time of an entry. *)
Definition median_time (p : nat) : Z := match BlockIndex.GetMedianTimePast st p with Ok m => m | _ => 0 end.

Lemma median_time_spec p b : st !! p = Some b -> BlockIndex.GetMedianTimePast st p = Ok (median_time p) /\ in_u 32 (median_time p).
Proof. intros Hp. destruct (median_range p b Hp) as (m & E & Hm). unfold median_time. by rewrite E. Qed.

(** The fields of a sequence number (BIP 68). *)
Definition lock_disabled (n : Z) : bool := Z.testbit n 31.
Definition lock_in_time (n : Z) : bool := Z.testbit n 22.
Definition lock_value (n : Z) : Z := n mod 2 ^ 16.

Context (p : nat) (b : CBlockIndex) (q : nat) (Hp : st !! p = Some b) (Hq : Chain.pprev b = Some q).

(** An input that spends an output of height [h] may enter the block [p]: its
    age in blocks, or the time since the block before the output, is reached. *)
Definition mature (i : CTxIn.t) (h : Z) : Prop :=
  let n := CTxIn.nSequence i in
  lock_disabled n = true \/
  if lock_in_time n
  then exists a, anc st (Z.to_nat (Chain.nHeight b - Z.max (h - 1) 0)) p = Some a /\ median_time a + 512 * lock_value n <= median_time q
  else h + lock_value n <= Chain.nHeight b.

Lemma flag_testbit n k : 0 <= k -> negb (Z.land n (Z.shiftl 1 k) =? 0) = Z.testbit n k.
Proof.
  intros Hk. rewrite Z.shiftl_1_l. apply eq_true_iff_eq. rewrite negb_true_iff, Z.eqb_neq. destruct (Z.testbit n k) eqn:E; split; try done.
  - intros _ H0. apply (f_equal (fun z => Z.testbit z k)) in H0. by rewrite Z.land_spec, Z.pow2_bits_true, E, Z.bits_0 in H0 by done.
  - intros H. exfalso. apply H. apply Z.bits_inj'. intros m Hm. rewrite Z.land_spec, Z.bits_0. destruct (decide (m = k)) as [->|Hne].
    + by rewrite E.
    + by rewrite Z.pow2_bits_false, andb_false_r by done.
Qed.

Definition heights_left (vin : list CTxIn.t) (hs : list Z) : list Z :=
  zip_with (fun i h => if lock_disabled (CTxIn.nSequence i) then 0 else h) vin hs.

(** The lock of one input: the bounds it adds to the height and the time. *)
Lemma input_lock i h mh mt : in_u 32 (CTxIn.nSequence i) -> 0 <= h <= Chain.nHeight b -> Chain.nHeight b < 2 ^ 31 - 2 ^ 16 ->
  lock_disabled (CTxIn.nSequence i) = false ->
  exists mh' mt',
    (if negb (Z.land (CTxIn.nSequence i) SEQUENCE_LOCKTIME_TYPE_FLAG =? 0) then
       let? a := BlockIndex.GetAncestor st p (Z.max (i32 (h - 1)) 0) in
       match a with
       | None => Undef
       | Some a =>
           let? nCoinTime := BlockIndex.GetMedianTimePast st a in
           Ok (mh, Z.max mt (i64 (nCoinTime +
                 u32 (Z.shiftl (Z.land (CTxIn.nSequence i) SEQUENCE_LOCKTIME_MASK) SEQUENCE_LOCKTIME_GRANULARITY) - 1)))
       end
     else Ok (Z.max mh (i32 (h + Z.land (CTxIn.nSequence i) SEQUENCE_LOCKTIME_MASK - 1)), mt)) = Ok (mh', mt') /\
    (mh' < Chain.nHeight b /\ mt' < median_time q <-> (mh < Chain.nHeight b /\ mt < median_time q) /\ mature i h).
Proof.
  intros Hi Hh Hb Hd. unfold SEQUENCE_LOCKTIME_TYPE_FLAG, SEQUENCE_LOCKTIME_MASK, SEQUENCE_LOCKTIME_GRANULARITY, mature.
  rewrite flag_testbit by done. rewrite (land_ones_low _ 0x0000ffff 16) by done. fold (lock_value (CTxIn.nSequence i)).
  assert (0 <= lock_value (CTxIn.nSequence i) < 2 ^ 16) as Hv by (by apply Z.mod_pos_bound).
  rewrite Hd. fold (lock_in_time (CTxIn.nSequence i)). destruct (lock_in_time (CTxIn.nSequence i)).
  - rewrite swrap_small by (unfold in_s; lia). destruct (GetAncestor_Some st Hst p b (Z.max (h - 1) 0) Hp) as (a & ba & -> & Ea & Ha & _); [lia|].
    cbn [res_bind]. destruct (median_time_spec a ba Ha) as [-> Hm]. cbn [res_bind]. rewrite Z.shiftl_mul_pow2 by done. unfold in_u in Hm.
    rewrite wrap_small by (unfold in_u; lia). rewrite swrap_small by (unfold in_s; lia). do 2 eexists. split; [done|].
    split; [intros [? ?]; split; [lia|]; right; exists a; split; [done|lia]|].
    intros [[? ?] [?|(a' & Ea' & ?)]]; [done|]. rewrite Ea in Ea'. injection Ea' as <-. lia.
  - rewrite swrap_small by (unfold in_s; lia). do 2 eexists. split; [done|].
    split; [intros [? ?]; split; [lia|]; right; lia|]. intros [[? ?] [?|?]]; [done|lia].
Qed.

Lemma sequence_loop_spec vin : forall hs mh mt, length hs = length vin -> Forall (fun i => in_u 32 (CTxIn.nSequence i)) vin ->
  Forall (fun h => 0 <= h <= Chain.nHeight b) hs -> Chain.nHeight b < 2 ^ 31 - 2 ^ 16 ->
  exists h t, sequence_loop st p vin hs mh mt = Ok (h, t, heights_left vin hs) /\
    (h < Chain.nHeight b /\ t < median_time q <-> (mh < Chain.nHeight b /\ mt < median_time q) /\ Forall2 mature vin hs).
Proof.
  induction vin as [|i vin IH]; intros [|h hs] mh mt Hl Hv Hh Hb; try done.
  { exists mh, mt. split; [done|]. split; [intros; split; [done|constructor]|tauto]. }
  injection Hl as Hl. apply Forall_cons in Hv as [Hi Hv]. apply Forall_cons in Hh as [Hh0 Hh].
  cbn [sequence_loop heights_left zip_with]. unfold SEQUENCE_LOCKTIME_DISABLE_FLAG. rewrite (flag_testbit _ 31) by done.
  fold (lock_disabled (CTxIn.nSequence i)). fold (heights_left vin hs). destruct (lock_disabled (CTxIn.nSequence i)) eqn:Hd.
  - destruct (IH hs mh mt Hl Hv Hh Hb) as (h' & t' & -> & Hiff). cbn [res_bind]. do 2 eexists. split; [done|]. rewrite Hiff, Forall2_cons.
    unfold mature at 2. rewrite Hd. tauto.
  - destruct (input_lock i h mh mt Hi Hh0 Hb Hd) as (mh1 & mt1 & -> & H1). cbn [res_bind].
    destruct (IH hs mh1 mt1 Hl Hv Hh Hb) as (h' & t' & -> & Hiff). cbn [res_bind]. do 2 eexists. split; [done|].
    rewrite Hiff, H1, Forall2_cons. tauto.
Qed.

Lemma evaluate_spec h t : EvaluateSequenceLocks st p (h, t) = Ok (bool_decide (h < Chain.nHeight b /\ t < median_time q)).
Proof.
  unfold EvaluateSequenceLocks. rewrite (deref_Some _ _ _ Hp). cbn [res_bind]. rewrite Hq.
  destruct (wf_parent st Hst p b q Hp Hq) as (bq & Hbq & _). destruct (median_time_spec q bq Hbq) as [-> _]. cbn [res_bind fst snd].
  destruct (Z.leb_spec (Chain.nHeight b) h); cbn [orb]; [rewrite bool_decide_false by lia; done|].
  destruct (Z.leb_spec (median_time q) t); [rewrite bool_decide_false by lia; done|by rewrite bool_decide_true by lia].
Qed.
End locks.

(** BIP 68 is enforced for this transaction. *)
Definition locks_enforced (tx : CMutableTransaction) (flags : Z) : bool :=
  (2 <=? u32 (nVersion tx)) && negb (Z.land flags LOCKTIME_VERIFY_SEQUENCE =? 0).

Lemma SequenceLocks_spec (st : gmap nat CBlockIndex) (p : nat) (b : CBlockIndex) (q : nat) (tx : CMutableTransaction) (flags : Z) (hs : list Z) :
  wf_store st -> map_Forall (fun _ e => in_u 32 (nTime e)) st -> st !! p = Some b -> Chain.pprev b = Some q ->
  Chain.nHeight b < 2 ^ 31 - 2 ^ 16 -> Forall (fun i => in_u 32 (CTxIn.nSequence i)) (vin tx) ->
  length hs = length (vin tx) -> Forall (fun h => 0 <= h <= Chain.nHeight b) hs ->
  exists r, SequenceLocks st tx flags hs p = Ok (r, if locks_enforced tx flags then heights_left (vin tx) hs else hs) /\
    (r = true <-> locks_enforced tx flags = false \/ Forall2 (mature st p b q) (vin tx) hs).
Proof.
  intros Hst Ht Hp Hq Hb Hv Hl Hh. unfold SequenceLocks, CalculateSequenceLocks. rewrite Hl, Nat.eqb_refl. cbn [negb].
  fold (locks_enforced tx flags). destruct (wf_parent st Hst p b q Hp Hq) as (bq & Hbq & Hhq).
  destruct (median_time_spec st Hst Ht q bq Hbq) as [_ Hm]. pose proof (wf_height st Hst p b Hp). unfold in_u in Hm.
  destruct (locks_enforced tx flags); cbn [negb].
  - destruct (sequence_loop_spec st Hst Ht p b q Hp (vin tx) hs (-1) (-1) Hl Hv Hh Hb) as (h & t & -> & Hiff). cbn [res_bind].
    rewrite (evaluate_spec st Hst Ht p b q Hp Hq). cbn [res_bind]. eexists. split; [done|]. rewrite bool_decide_eq_true, Hiff.
    split; [intros [_ ?]; by right|intros [?|?]; [done|split; [lia|done]]].
  - cbn [res_bind]. rewrite (evaluate_spec st Hst Ht p b q Hp Hq). cbn [res_bind]. eexists. split; [done|].
    rewrite bool_decide_eq_true. split; [by left|lia].
Qed.

(** C24: [SequenceLocks] on a well-formed block tree is total and decides BIP 68:
    a transaction may enter the block exactly when every input with an enabled
    lock is mature, in blocks or in steps of 512 seconds of median time counted
    from the block before the output; the heights of the disabled inputs, and
    only these, are set to zero. *)
Theorem SequenceLocks_correct (st : gmap nat CBlockIndex) (p : nat) (b : CBlockIndex) (q : nat) (tx : CMutableTransaction) (flags : Z) (hs : list Z) :
  wf_store st -> map_Forall (fun _ e => in_u 32 (nTime e)) st -> st !! p = Some b -> Chain.pprev b = Some q ->
  Chain.nHeight b < 2 ^ 31 - 2 ^ 16 -> Forall (fun i => in_u 32 (CTxIn.nSequence i)) (vin tx) ->
  length hs = length (vin tx) -> Forall (fun h => 0 <= h <= Chain.nHeight b) hs ->
  exists r, SequenceLocks st tx flags hs p = Ok (r, if locks_enforced tx flags then heights_left (vin tx) hs else hs) /\
    (r = true <-> locks_enforced tx flags = false \/ Forall2 (mature st p b q) (vin tx) hs).
Proof. apply SequenceLocks_spec. Qed.

(** Two inputs at the block of height 3: one spends an output of height 2 with
    a lock of one block, the other one of height 1 with a lock in time. *)
Definition demo_locked (n m : Z) : CMutableTransaction :=
  mk_tx 2 [CTxIn.make (CTxIn.prevout (demo_in 1 0)) [] n; CTxIn.make (CTxIn.prevout (demo_in 1 1)) [] m] [demo_out 99] 0.

Lemma SequenceLocks_correct_witness :
  (exists r, SequenceLocks ChainSpec.demo (demo_locked 1 (Z.shiftl 1 22)) 1 [2; 1] 3 = Ok (r, [2; 1]) /\
     (r = true <-> locks_enforced (demo_locked 1 (Z.shiftl 1 22)) 1 = false \/
        Forall2 (mature ChainSpec.demo 3 (ChainSpec.demo_entry (Some 2%nat) (Some 1%nat) 3 40) 2) (vin (demo_locked 1 (Z.shiftl 1 22))) [2; 1])) /\
  SequenceLocks ChainSpec.demo (demo_locked 1 (Z.shiftl 1 22)) 1 [2; 1] 3 = Ok (true, [2; 1]) /\
  SequenceLocks ChainSpec.demo (demo_locked 1 (Z.shiftl 1 22 + 1)) 1 [2; 1] 3 = Ok (false, [2; 1]) /\
  SequenceLocks ChainSpec.demo (demo_locked 2 (Z.shiftl 1 31)) 1 [2; 1] 3 = Ok (false, [2; 0]).
Proof.
  split_and!; [|by vm_compute..].
  apply (SequenceLocks_correct ChainSpec.demo 3 (ChainSpec.demo_entry (Some 2%nat) (Some 1%nat) 3 40) 2 (demo_locked 1 (Z.shiftl 1 22)) 1 [2; 1]).
  - exact demo_wf.
  - apply (bool_decide_unpack _). by vm_compute.
  - reflexivity.
  - reflexivity.
  - by vm_compute.
  - repeat constructor; by vm_compute.
  - reflexivity.
  - repeat constructor; by vm_compute.
Defined.

(** ** The subsidy *)

Definition MAINNET_HALVING : Z := 840000.

Lemma subsidy_spec h n : 0 <= h < 2 ^ 31 -> 0 < n < 2 ^ 31 ->
  GetBlockSubsidy h n = Ok (if h / n <? 64 then 55 * COIN / 2 ^ (h / n) else 0).
Proof.
  intros Hh Hn. unfold GetBlockSubsidy. rewrite (proj2 (Z.eqb_neq _ _)), Z.quot_div_nonneg by lia.
  assert (0 <= h / n <= h) as Hd by (split; [apply Z.div_pos; lia|apply Z.div_le_upper_bound; nia]).
  rewrite swrap_small by (unfold in_s; lia). destruct (Z.leb_spec 64 (h / n)).
  - by rewrite (proj2 (Z.ltb_ge _ _)) by lia.
  - rewrite (proj2 (Z.ltb_lt (h / n) 64)), (proj2 (Z.ltb_ge (h / n) 0)) by lia. by rewrite Z.shiftr_div_pow2 by lia.
Qed.

(** The money created up to height [m], block by block. *)
Fixpoint minted (n : Z) (m : nat) : Z :=
  match m with
  | O => 0
  | S m => minted n m + match GetBlockSubsidy (Z.of_nat m) n with Ok s => s | _ => 0 end
  end.

(** The subsidy of an era of [n] blocks, and of the first [k] eras. *)
Definition era (k : Z) : Z := if k <? 64 then 55 * COIN / 2 ^ k else 0.
Fixpoint eras (k : nat) : Z := match k with O => 0 | S k => eras k + era (Z.of_nat k) end.

Lemma era_range k : 0 <= k -> 0 <= era k <= 55 * COIN.
Proof.
  intros Hk. unfold era. destruct (k <? 64); [|unfold COIN; lia]. assert (0 < 2 ^ k) by (by apply pow2_pos).
  split; [apply Z.div_pos; unfold COIN; lia|apply Z.div_le_upper_bound; unfold COIN; nia].
Qed.

Lemma era_mono k l : 0 <= k <= l -> era l <= era k.
Proof.
  intros Hk. destruct (era_range k ltac:(lia)) as [H _]. unfold era in *. destruct (Z.ltb_spec l 64); [|done].
  rewrite (proj2 (Z.ltb_lt k 64)) by lia. apply Z.div_le_compat_l; [unfold COIN; lia|]. split; [by apply pow2_pos; lia|apply Z.pow_le_mono_r; lia].
Qed.

Lemma eras_nonneg k : 0 <= eras k.
Proof. induction k as [|k IH]; cbn [eras]; [done|]. pose proof (era_range (Z.of_nat k) ltac:(lia)). lia. Qed.

Lemma eras_mono k j : eras k <= eras (k + j).
Proof. induction j as [|j IH]; [by rewrite Nat.add_0_r|]. rewrite Nat.add_succ_r. cbn [eras]. pose proof (era_range (Z.of_nat (k + j)) ltac:(lia)). lia. Qed.

Lemma eras_end k j : (64 <= k)%nat -> eras (k + j) = eras k.
Proof.
  intros Hk. induction j as [|j IH]; [by rewrite Nat.add_0_r|]. rewrite Nat.add_succ_r. cbn [eras]. rewrite IH. unfold era.
  rewrite (proj2 (Z.ltb_ge _ _)) by lia. lia.
Qed.

Lemma eras_le k n : n = 64%nat -> eras k <= eras n.
Proof.
  intros Hn. destruct (decide (k <= n)%nat) as [Hk|Hk].
  - replace n with (k + (n - k))%nat by lia. apply eras_mono.
  - replace k with (n + (k - n))%nat by lia. rewrite eras_end by lia. lia.
Qed.

Lemma minted_spec n m : 0 < n < 2 ^ 31 -> Z.of_nat m <= 2 ^ 31 ->
  minted n m = n * eras (Z.to_nat (Z.of_nat m / n)) + (Z.of_nat m mod n) * era (Z.of_nat m / n).
Proof.
  intros Hn. induction m as [|m IH]; intros Hm; [change (Z.of_nat 0) with 0; rewrite Z.div_0_l, Z.mod_0_l by lia; cbn [minted eras Z.to_nat]; rewrite Z.mul_0_r, Z.mul_0_l; done|]. cbn [minted].
  rewrite IH, subsidy_spec by lia. fold (era (Z.of_nat m / n)). set (k := Z.of_nat m / n). set (r := Z.of_nat m mod n).
  assert (Z.of_nat m = n * k + r) as E by (apply Z.div_mod; lia). assert (0 <= r < n) as Hr by (apply Z.mod_pos_bound; lia).
  assert (0 <= k) as Hk by (apply Z.div_pos; lia). clearbody k r. rewrite Nat2Z.inj_succ, E. clear E IH Hm. destruct (decide (r + 1 = n)) as [Hl|Hl].
  - rewrite <- (Z.div_unique_pos _ n (k + 1) 0), <- (Z.mod_unique_pos _ n (k + 1) 0) by nia.
    replace (Z.to_nat (k + 1)) with (S (Z.to_nat k)) by lia. cbn [eras]. rewrite Z2Nat.id by done. nia.
  - rewrite <- (Z.div_unique_pos _ n k (r + 1)), <- (Z.mod_unique_pos _ n k (r + 1)) by lia. nia.
Qed.


