(* ===== verification/Headers.v ===== *)
(** Acceptance of block headers: [AcceptBlockHeader] and what it calls in
    src/sige/src/validation.cpp, with the checkpoints of
    src/sige/src/checkpoints.cpp and [FindForkInGlobalIndex].

    [error] logs and returns false.  [CheckBlockIndex] only re-checks invariants
    when a debug option is set, and [NotifyHeaderTip] only signals; both are left
    out.  Reasons and messages built with [strprintf] keep their format. *)

From S2P Require Import Prelude Bytes BaseUint UintBytes Uint256 Serialize Codec Header Chain ChainSpec BlockTree Pow State.
Import BlockIndex Consensus.

Section headers.
Context (Hash : bytes -> uint256) (params : Params).

(** [mapCheckpoints] in increasing order of heights. *)
Definition GetLastCheckpoint (mapCheckpoints : list (Z * uint256)) (s : block_index) : ptr :=
  foldr (fun i r => match r with Some p => Some p | None => mapBlockIndex s !! snd i end) None mapCheckpoints.

Definition CheckIndexAgainstCheckpoint (pindexPrev : nat) (state : CValidationState.t) (mapCheckpoints : list (Z * uint256)) (s : block_index) :
  res (bool * CValidationState.t) :=
  let? b := deref (heap s) (Some pindexPrev) in
  let? h := GetBlockHash b in
  if BaseUint.op_eq h (hashGenesisBlock params) then Ok (true, state)
  else
    let nHeight := i32 (nHeight b + 1) in
    match GetLastCheckpoint mapCheckpoints s with
    | Some c =>
        let? bc := deref (heap s) (Some c) in
        if nHeight <? Chain.nHeight bc then Ok (CValidationState.DoS 100 false 0 "" false "" state) else Ok (true, state)
    | None => Ok (true, state)
    end.

Definition CheckBlockHeader (block : CBlockHeader) (state : CValidationState.t) (fCheckPOW : bool) : bool * CValidationState.t :=
  if fCheckPOW && negb (CheckProofOfWork (Header.GetHash Hash block) (Header.nBits block) params)
  then CValidationState.DoS 50 false REJECT_INVALID "high-hash" false "proof of work failed" state
  else (true, state).

Definition ContextualCheckBlockHeader (st : gmap nat CBlockIndex) (block : CBlockHeader) (state : CValidationState.t) (pindexPrev : ptr) (nAdjustedTime : Z) :
  res (bool * CValidationState.t) :=
  let? nHeight := match pindexPrev with None => Ok 0 | Some _ => let? b := deref st pindexPrev in Ok (i32 (nHeight b + 1)) end in
  let? nBitsRequired := GetNextWorkRequired st pindexPrev block params in
  if negb (Header.nBits block =? nBitsRequired)
  then Ok (CValidationState.DoS 100 false REJECT_INVALID "bad-diffbits" false "incorrect proof of work" state)
  else
    let? nMedianTime := match pindexPrev with None => Undef | Some p => GetMedianTimePast st p end in
    if Header.GetBlockTime block <=? nMedianTime
    then Ok (CValidationState.Invalid false REJECT_INVALID "time-too-old" "block's timestamp is too early" state)
    else if i64 (nAdjustedTime + 2 * 60 * 60) <? Header.GetBlockTime block
    then Ok (CValidationState.Invalid false REJECT_INVALID "time-too-new" "block timestamp too far in the future" state)
    else if ((Header.nVersion block <? 2) && (BIP34Height params <=? nHeight)) ||
            ((Header.nVersion block <? 3) && (BIP66Height params <=? nHeight)) ||
            ((Header.nVersion block <? 4) && (BIP65Height params <=? nHeight))
    then Ok (CValidationState.Invalid false REJECT_OBSOLETE "bad-version(0x%08x)" "rejected nVersion=0x%08x block" state)
    else Ok (true, state).

(** What [*ppindex] is set to, if it is written. *)
Record accepted := mk_accepted { ret : bool; state_out : CValidationState.t; ppindex : ptr; index_out : block_index }.

Definition AcceptBlockHeader (fCheckpointsEnabled : bool) (mapCheckpoints : list (Z * uint256)) (GetAdjustedTime : Z)
  (block : CBlockHeader) (state : CValidationState.t) (s : block_index) : res accepted :=
  let hash := Header.GetHash Hash block in
  let add state :=
    let? (pindex, s) := AddToBlockIndex Hash block s in
    Ok (mk_accepted true state (Some pindex) s) in
  if BaseUint.op_eq hash (hashGenesisBlock params) then add state
  else
    match mapBlockIndex s !! hash with
    | Some pindex =>
        let? b := deref (heap s) (Some pindex) in
        if negb (Z.land (nStatus b) BLOCK_FAILED_MASK =? 0) then
          let '(r, state) := CValidationState.Invalid false 0 "duplicate" "" state in
          Ok (mk_accepted r state (Some pindex) s)
        else Ok (mk_accepted true state (Some pindex) s)
    | None =>
        let '(r, state) := CheckBlockHeader block state true in
        if negb r then Ok (mk_accepted false state None s)
        else
          match mapBlockIndex s !! Header.hashPrevBlock block with
          | None =>
              let '(r, state) := CValidationState.DoS 10 false 0 "bad-prevblk" false "" state in
              Ok (mk_accepted r state None s)
          | Some pindexPrev =>
              let? bp := deref (heap s) (Some pindexPrev) in
              if negb (Z.land (nStatus bp) BLOCK_FAILED_MASK =? 0) then
                let '(r, state) := CValidationState.DoS 100 false REJECT_INVALID "bad-prevblk" false "" state in
                Ok (mk_accepted r state None s)
              else
                let? (r, state) :=
                  if fCheckpointsEnabled then CheckIndexAgainstCheckpoint pindexPrev state mapCheckpoints s else Ok (true, state) in
                if negb r then Ok (mk_accepted false state None s)
                else
                  let? (r, state) := ContextualCheckBlockHeader (heap s) block state (Some pindexPrev) GetAdjustedTime in
                  if negb r then Ok (mk_accepted false state None s) else add state
          end
    end.

(** The loop stops at the first header that is not accepted; [ppindex] is the
    last one that is. *)
Fixpoint ProcessNewBlockHeaders (fCheckpointsEnabled : bool) (mapCheckpoints : list (Z * uint256)) (GetAdjustedTime : Z)
  (headers : list CBlockHeader) (r : accepted) : res accepted :=
  match headers with
  | [] => Ok r
  | header :: headers =>
      let? a := AcceptBlockHeader fCheckpointsEnabled mapCheckpoints GetAdjustedTime header (state_out r) (index_out r) in
      if negb (ret a) then Ok (mk_accepted false (state_out a) (ppindex r) (index_out a))
      else ProcessNewBlockHeaders fCheckpointsEnabled mapCheckpoints GetAdjustedTime headers a
  end.

(** The first block of the locator that the chain holds, or the tip of the
    chain when it lies below such a block. *)
Fixpoint find_fork_loop (s : block_index) (chain : CChain.t) (vHave : list uint256) : res ptr :=
  match vHave with
  | [] => Ok (CChain.Genesis chain)
  | hash :: vHave =>
      match mapBlockIndex s !! hash with
      | Some pindex =>
          let? c := CChain.Contains (heap s) chain pindex in
          if c : bool then Ok (Some pindex)
          else
            let? a := GetAncestor (heap s) pindex (CChain.Height chain) in
            if bool_decide (a = CChain.Tip chain) then Ok (CChain.Tip chain) else find_fork_loop s chain vHave
      | None => find_fork_loop s chain vHave
      end
  end.

Definition FindForkInGlobalIndex (s : block_index) (chain : CChain.t) (locator : Locator.CBlockLocator) : res ptr :=
  find_fork_loop s chain (Locator.vHave locator).
End headers.
