(* ===== verification/HeadersSpec.v ===== *)
(** What [AcceptBlockHeader] guarantees: the headers of the index obey the rules
    of the chain, a header is accepted exactly when it obeys them, and the tree
    only grows.  The rules are what the theorems on difficulty, median times and
    version bits assume of the tree. *)

From S2P Require Import Prelude Bytes BaseUint UintBytes Uint256 Serialize Codec Header Chain ChainSpec BlockTree Pow VersionBits State Spend Headers.
Import BlockIndex Consensus.

(** ** Reading a tree that grows *)

(** What [m] computes, [m'] computes too. *)
Definition res_le {A} (m m' : res A) : Prop := forall x, m = Ok x -> m' = Ok x.

Lemma res_le_refl {A} (m : res A) : res_le m m.
Proof. by intros x. Qed.

Lemma res_le_bind {A B} (m m' : res A) (k k' : A -> res B) :
  res_le m m' -> (forall x, res_le (k x) (k' x)) -> res_le (res_bind m k) (res_bind m' k').
Proof. intros Hm Hk x. rewrite !res_bind_Ok. intros (a & Ha & Hx). exists a. split; [by apply Hm|by apply Hk]. Qed.

Create HintDb grows.
#[export] Hint Resolve res_le_refl : grows.

(** Walk through the body of a function of the tree. *)
Ltac grow :=
  repeat first
    [ progress eauto with grows
    | apply res_le_bind; [|intros ?]
    | case_match ].

Section grow.
Context (st st' : gmap nat CBlockIndex) (Hle : st ⊆ st').

Lemma deref_le p : res_le (deref st p) (deref st' p).
Proof.
  intros b. destruct p as [p|]; [|done]. cbn [deref]. destruct (st !! p) as [x|] eqn:E; [|done]. intros [= <-].
  by rewrite (lookup_weaken _ _ _ _ E Hle).
Qed.
#[local] Hint Resolve deref_le : grows.

Lemma GetAncestor_loop_le fuel height : forall p h, res_le (GetAncestor_loop st fuel height p h) (GetAncestor_loop st' fuel height p h).
Proof. induction fuel as [|fuel IH]; intros p h; cbn [GetAncestor_loop]; grow. Qed.
#[local] Hint Resolve GetAncestor_loop_le : grows.

Lemma GetAncestor_le p h : res_le (GetAncestor st p h) (GetAncestor st' p h).
Proof. unfold GetAncestor. grow. Qed.
#[local] Hint Resolve GetAncestor_le : grows.

Lemma median_times_le n : forall p acc, res_le (median_times st n p acc) (median_times st' n p acc).
Proof. induction n as [|n IH]; intros p acc; cbn [median_times]; grow. Qed.
#[local] Hint Resolve median_times_le : grows.

Lemma GetMedianTimePast_le p : res_le (GetMedianTimePast st p) (GetMedianTimePast st' p).
Proof. unfold GetMedianTimePast. grow. Qed.

Lemma last_regular_le fuel interval limit : forall p, res_le (last_regular st fuel interval limit p) (last_regular st' fuel interval limit p).
Proof. induction fuel as [|fuel IH]; intros p; cbn [last_regular]; grow. Qed.
#[local] Hint Resolve last_regular_le : grows.

Lemma GetNextWorkRequired_le p block params : res_le (GetNextWorkRequired st p block params) (GetNextWorkRequired st' p block params).
Proof. unfold GetNextWorkRequired. grow. Qed.

Lemma GetBlockHeader_le b : res_le (GetBlockHeader st b) (GetBlockHeader st' b).
Proof. unfold GetBlockHeader. grow. Qed.
End grow.

(** ** The rules *)

Section rules.
Context (Hash : bytes -> uint256) (params : Params) (Hp : params_ok params).

Definition version_ok (nVersion nHeight : Z) : bool :=
  negb ((nVersion <? 2) && (BIP34Height params <=? nHeight)) && negb ((nVersion <? 3) && (BIP66Height params <=? nHeight)) &&
  negb ((nVersion <? 4) && (BIP65Height params <=? nHeight)).

(** A header obeys the rules after the entry [q]. *)
Record follows (st : gmap nat CBlockIndex) (q : nat) (block : CBlockHeader) : Prop := {
  fol_entry : is_Some (st !! q);
  fol_work : GetNextWorkRequired st (Some q) block params = Ok (Header.nBits block);
  fol_time : exists m, GetMedianTimePast st q = Ok m /\ m < Header.nTime block;
  fol_version : forall bq, st !! q = Some bq -> version_ok (Header.nVersion block) (nHeight bq + 1) = true;
}.

(** Every entry but a first one obeys the rules after its predecessor. *)
Record tree_rules (s : block_index) : Prop := {
  tr_index : index_ok Hash s;
  tr_targets : targets_ok params (heap s);
  tr_follows : forall a b q, heap s !! a = Some b -> pprev b = Some q ->
    exists block, GetBlockHeader (heap s) b = Ok block /\ follows (heap s) q block;
}.

Lemma follows_le st st' q block : st ⊆ st' -> follows st q block -> follows st' q block.
Proof.
  intros Hle [[bq Hq] Hw (m & Hm & Ht) Hv]. pose proof (lookup_weaken _ _ _ _ Hq Hle) as Hq'. split.
  - by exists bq.
  - by apply (GetNextWorkRequired_le st st' Hle).
  - exists m. split; [by apply (GetMedianTimePast_le st st' Hle)|done].
  - intros b Hb. rewrite Hq' in Hb. injection Hb as <-. by apply Hv.
Qed.

(** The tree of the index is what the version bits and the lock times need. *)
Lemma header_fields st b block : GetBlockHeader st b = Ok block ->
  Header.nTime block = nTime b /\ Header.nBits block = nBits b /\ Header.nVersion block = nVersion b.
Proof. unfold GetBlockHeader. rewrite res_bind_Ok. by intros (h & _ & [= <-]). Qed.

Lemma tree_times s a b q : tree_rules s -> heap s !! a = Some b -> pprev b = Some q -> mtp (heap s) q < nTime b.
Proof.
  intros Hs Ha Hq. destruct (tr_follows s Hs a b q Ha Hq) as (block & Hb & [_ _ (m & Hm & Ht) _]).
  unfold mtp. rewrite Hm. by destruct (header_fields _ _ _ Hb) as [<- _].
Qed.

Lemma tree_deployment s pos : tree_rules s -> 0 < i32 (nMinerConfirmationWindow params) < 2 ^ 31 ->
  nStartTime (vDeployments params pos) <= nTimeout (vDeployments params pos) ->
  @deployment_ok (VersionBitsConditionChecker params pos) (heap s).
Proof.
  intros Hs Hw Ht. split; [apply (ok_tree Hash s), (tr_index s Hs)| |done|done]. intros a b q. by apply tree_times.
Qed.

(** ** Acceptance *)

Context (fCheckpointsEnabled : bool) (mapCheckpoints : list (Z * uint256)) (adjusted : Z) (Hadj : in_s 62 adjusted).

(** The new height is not below the last known checkpoint. *)
Definition after_checkpoint (s : block_index) (bq : CBlockIndex) : bool :=
  negb fCheckpointsEnabled || bool_decide (phashBlock bq = Some (hashGenesisBlock params)) ||
  match GetLastCheckpoint mapCheckpoints s with
  | Some c => match heap s !! c with Some bc => nHeight bc <=? nHeight bq + 1 | None => false end
  | None => true
  end.

(** The bits the next block must have. *)
Definition required_bits (st : gmap nat CBlockIndex) (q : nat) (block : CBlockHeader) : Z :=
  match GetNextWorkRequired st (Some q) block params with Ok c => c | _ => 0 end.

Definition contextual (st : gmap nat CBlockIndex) (q : nat) (bq : CBlockIndex) (block : CBlockHeader) : bool :=
  (Header.nBits block =? required_bits st q block) && (mtp st q <? Header.nTime block) &&
  (Header.nTime block <=? adjusted + 7200) && version_ok (Header.nVersion block) (nHeight bq + 1).

Definition acceptable (s : block_index) (block : CBlockHeader) : bool :=
  CheckProofOfWork (Header.GetHash Hash block) (Header.nBits block) params &&
  match mapBlockIndex s !! Header.hashPrevBlock block with
  | Some q => match heap s !! q with
    | Some bq => (Z.land (nStatus bq) BLOCK_FAILED_MASK =? 0) && after_checkpoint s bq && contextual (heap s) q bq block
    | None => false
    end
  | None => false
  end.

Definition header_reasons : list string :=
  ["high-hash"; "bad-prevblk"; ""; "bad-diffbits"; "time-too-old"; "time-too-new"; "bad-version(0x%08x)"; "duplicate"].

Lemma Invalid_reported reasons code reason msg state : reason ∈ reasons ->
  reported reasons state (CValidationState.Invalid false code reason msg state).
Proof. apply DoS_reported. Qed.

Lemma DoS_pair level r code reason corruption msg state :
  CValidationState.DoS level r code reason corruption msg state = (r, snd (CValidationState.DoS level r code reason corruption msg state)).
Proof. unfold CValidationState.DoS. by case_match. Qed.

Ltac reject := first [apply DoS_reported | apply Invalid_reported]; unfold header_reasons; rewrite !elem_of_cons; tauto.

Lemma required_spec s q bq block : tree_rules s -> heap s !! q = Some bq ->
  GetNextWorkRequired (heap s) (Some q) block params = Ok (required_bits (heap s) q block) /\
  compact_value (required_bits (heap s) q block) <= val (powLimit params).
Proof.
  intros Hs Hq. destruct (GetNextWorkRequired_spec (heap s) params q bq block (ok_tree Hash s (tr_index s Hs)) Hp (tr_targets s Hs) Hq) as (c & E & Hc & _).
  unfold required_bits. by rewrite E.
Qed.

Lemma contextual_spec s q bq block state : tree_rules s -> heap s !! q = Some bq -> Header.wf_header block ->
  nHeight bq + 1 < 2 ^ 31 ->
  exists r, ContextualCheckBlockHeader params (heap s) block state (Some q) adjusted = Ok r /\
    if contextual (heap s) q bq block then r = (true, state) else reported header_reasons state r.
Proof.
  intros Hs Hq Hwf Hh. pose proof (ok_tree Hash s (tr_index s Hs)) as Hst. pose proof (wf_height _ Hst q bq Hq).
  unfold ContextualCheckBlockHeader, contextual. rewrite (deref_Some _ _ _ Hq). cbn [res_bind].
  rewrite (swrap_small 32 (nHeight bq + 1)) by (unfold in_s; lia). destruct (required_spec s q bq block Hs Hq) as [-> _]. cbn [res_bind].
  destruct (Header.nBits block =? _); cbn [negb andb]; [|eexists; split; [done|reject]].
  destruct (GetMedianTimePast_spec _ Hst q bq Hq) as (m & E & _). unfold mtp. rewrite E. cbn [res_bind].
  unfold Header.GetBlockTime. rewrite (Z.leb_antisym m). destruct (m <? Header.nTime block); cbn [negb andb]; [|eexists; split; [done|reject]].
  rewrite swrap_small by (unfold in_s in *; lia). change (2 * 60 * 60) with 7200. rewrite (Z.leb_antisym (adjusted + 7200)).
  destruct (adjusted + 7200 <? Header.nTime block); cbn [negb andb]; [eexists; split; [done|reject]|].
  unfold version_ok. rewrite <- !negb_orb. destruct (_ || _); cbn [negb]; eexists; (split; [done|]); [reject|done].
Qed.

Lemma checkpoint_spec s q bq state : tree_rules s -> heap s !! q = Some bq -> nHeight bq + 1 < 2 ^ 31 ->
  exists r, (if fCheckpointsEnabled then CheckIndexAgainstCheckpoint params q state mapCheckpoints s else Ok (true, state)) = Ok r /\
    if after_checkpoint s bq then r = (true, state) else reported header_reasons state r.
Proof.
  intros Hs Hq Hh. unfold after_checkpoint. destruct fCheckpointsEnabled; cbn [negb orb]; [|by eexists].
  pose proof (tr_index s Hs) as Hi. pose proof (wf_height _ (ok_tree Hash s Hi) q bq Hq).
  destruct (ok_hash _ _ _ _ (ok_entries Hash s Hi q bq Hq)) as (h & hd & E & _).
  unfold CheckIndexAgainstCheckpoint. rewrite (deref_Some _ _ _ Hq). cbn [res_bind]. unfold GetBlockHash. rewrite E. cbn [res_of_option res_bind].
  unfold BaseUint.op_eq. rewrite (bool_decide_ext (Some h = Some (hashGenesisBlock params)) (h = hashGenesisBlock params)) by (split; congruence).
  destruct (bool_decide _); cbn [orb]; [by eexists|]. rewrite swrap_small by (unfold in_s; lia).
  destruct (GetLastCheckpoint mapCheckpoints s) as [c|] eqn:Ec; [|by eexists].
  assert (is_Some (heap s !! c)) as [bc Hc].
  { clear -Ec Hi. unfold GetLastCheckpoint in Ec. induction mapCheckpoints as [|[k h] l IH]; [done|]. cbn [foldr] in Ec.
    case_match; [by apply IH|]. cbn [snd] in Ec. destruct (ok_index Hash s Hi _ _ Ec) as (b & Hb & _). by exists b. }
  rewrite Hc, (deref_Some _ _ _ Hc). cbn [res_bind]. rewrite (Z.leb_antisym (nHeight bq + 1)).
  destruct (nHeight bq + 1 <? Chain.nHeight bc); cbn [negb]; eexists; (split; [done|]); [reject|done].
Qed.

(** The tree after an acceptable header. *)
Lemma tree_rules_step s a b q bq block s' : tree_rules s -> Header.wf_header block ->
  index_ok Hash s' -> heap s !! a = None -> heap s' = <[a := b]> (heap s) -> GetBlockHeader (heap s') b = Ok block ->
  heap s !! q = Some bq -> pprev b = Some q -> contextual (heap s) q bq block = true -> tree_rules s'.
Proof.
  intros Hs Hwf Hi Ha He Hb Hq Hpb Hc. unfold contextual in Hc. bool_hyps.
  assert (heap s ⊆ heap s') as Hle by (rewrite He; by apply insert_subseteq).
  destruct (required_spec s q bq block Hs Hq) as [Hw Hv]. destruct (header_fields _ _ _ Hb) as (E1 & E2 & _).
  assert (follows (heap s) q block) as Hf.
  { destruct (GetMedianTimePast_spec _ (ok_tree Hash s (tr_index s Hs)) q bq Hq) as (m & E & _).
    split; [by exists bq|congruence| |intros b0 Hb0; congruence]. exists m. split; [done|]. unfold mtp in *. rewrite E in *. lia. }
  split; [done| |].
  - rewrite He. apply map_Forall_insert_2; [|apply Hs]. destruct Hwf as (_ & _ & _ & Ht & Hn & _). rewrite <- E1, <- E2.
    split_and!; [done..|]. congruence.
  - intros a0 b0 q0 Ha0 Hq0. rewrite He in Ha0. apply lookup_insert_Some in Ha0 as [[<- <-]|[Hne Ha0]].
    + exists block. split; [done|]. replace q0 with q by congruence. by apply (follows_le (heap s)).
    + destruct (tr_follows s Hs a0 b0 q0 Ha0 Hq0) as (bl & E & Hfo). exists bl.
      split; [by apply (GetBlockHeader_le _ _ Hle)|by apply (follows_le (heap s))].
Qed.

(** What [AcceptBlockHeader] does, all at once. *)
Definition header_outcome (s : block_index) (block : CBlockHeader) (state : CValidationState.t) (r : accepted) : Prop :=
  match mapBlockIndex s !! Header.GetHash Hash block with
  | Some a => ppindex r = Some a /\ index_out r = s /\
      if ret r then state_out r = state else reported header_reasons state (ret r, state_out r)
  | None =>
      if acceptable s block
      then ret r = true /\ state_out r = state /\ exists a b q, ppindex r = Some a /\ heap s !! a = None /\
        heap (index_out r) = <[a := b]> (heap s) /\
        mapBlockIndex (index_out r) = <[Header.GetHash Hash block := a]> (mapBlockIndex s) /\
        GetBlockHeader (heap (index_out r)) b = Ok block /\ mapBlockIndex s !! Header.hashPrevBlock block = Some q /\ pprev b = Some q
      else reported header_reasons state (ret r, state_out r) /\ ppindex r = None /\ index_out r = s
  end.

Definition room (n : Z) (s : block_index) : Prop := map_Forall (fun _ b => nHeight b + n < 2 ^ 31 - 1) (heap s).

Lemma known_spec s block state : tree_rules s -> is_Some (mapBlockIndex s !! Header.GetHash Hash block) ->
  exists r, AcceptBlockHeader Hash params fCheckpointsEnabled mapCheckpoints adjusted block state s = Ok r /\
    tree_rules (index_out r) /\ header_outcome s block state r.
Proof.
  intros Hs [a Ha]. unfold AcceptBlockHeader, header_outcome, AddToBlockIndex. rewrite Ha. cbn [res_bind]. case_match; [by eexists|].
  destruct (ok_index Hash s (tr_index s Hs) _ _ Ha) as (b & Hb & _). rewrite (deref_Some _ _ _ Hb). cbn [res_bind].
  destruct (negb _); [|by eexists].
  pose proof (Invalid_reported header_reasons 0 "duplicate" "" state ltac:(unfold header_reasons; rewrite !elem_of_cons; tauto)) as Hr.
  destruct (CValidationState.Invalid _ _ _ _ _) as [r st'] eqn:E. eexists. split; [done|]. cbn [ret state_out index_out ppindex].
  destruct Hr as (Hr1 & Hr2 & Hr3). cbn in Hr1. subst r. by split_and!.
Qed.

Lemma unknown_spec s block state : tree_rules s -> Header.wf_header block -> room 1 s ->
  is_Some (mapBlockIndex s !! hashGenesisBlock params) -> mapBlockIndex s !! Header.GetHash Hash block = None ->
  exists r, AcceptBlockHeader Hash params fCheckpointsEnabled mapCheckpoints adjusted block state s = Ok r /\
    tree_rules (index_out r) /\ header_outcome s block state r.
Proof.
  intros Hs Hwf Hroom [g Hg] Hnone. unfold AcceptBlockHeader, header_outcome, acceptable. rewrite Hnone.
  unfold BaseUint.op_eq. rewrite bool_decide_false by congruence. unfold CheckBlockHeader.
  destruct (CheckProofOfWork _ _ _); cbn [negb andb].
  2: { rewrite DoS_pair. eexists. split; [done|]. split; [done|]. split; [|done]. cbn [ret state_out]. rewrite <- DoS_pair. reject. }
  destruct (mapBlockIndex s !! Header.hashPrevBlock block) as [q|] eqn:Hq.
  2: { rewrite DoS_pair. eexists. split; [done|]. split; [done|]. split; [|done]. cbn [ret state_out]. rewrite <- DoS_pair. reject. }
  destruct (ok_index Hash s (tr_index s Hs) _ _ Hq) as (bq & Hbq & _). rewrite Hbq, (deref_Some _ _ _ Hbq). cbn [res_bind].
  destruct (Z.land (nStatus bq) BLOCK_FAILED_MASK =? 0); cbn [negb andb].
  2: { rewrite DoS_pair. eexists. split; [done|]. split; [done|]. split; [|done]. cbn [ret state_out]. rewrite <- DoS_pair. reject. }
  pose proof (Hroom q bq Hbq) as Hh. cbn beta in Hh.
  destruct (checkpoint_spec s q bq state Hs Hbq ltac:(lia)) as ([r st1] & -> & Hr). cbn [res_bind].
  destruct (after_checkpoint s bq); cbn [andb].
  2: { destruct Hr as (Hr1 & Hr2 & Hr3). cbn in Hr1. subst r. eexists. split; [done|]. by split_and!. }
  injection Hr as -> ->. cbn [negb]. destruct (contextual_spec s q bq block state Hs Hbq Hwf ltac:(lia)) as ([r st1] & -> & Hr). cbn [res_bind].
  destruct (contextual (heap s) q bq block) eqn:Hc.
  2: { destruct Hr as (Hr1 & Hr2 & Hr3). cbn in Hr1. subst r. eexists. split; [done|]. by split_and!. }
  injection Hr as -> ->. cbn [negb].
  assert (addable Hash block s) as Hadd.
  { split; [done|]. split; [congruence|]. rewrite Hq. intros b0 Hb0. replace b0 with bq by congruence. lia. }
  destruct (AddToBlockIndex_new Hash block s (tr_index s Hs) Hadd Hnone) as (a & b & s' & -> & Hi & Ha & He & Hm & Hb & Hpb). cbn [res_bind]. rewrite Hq in Hpb.
  eexists. split; [done|]. cbn [index_out]. split; [by eapply tree_rules_step|]. split_and!; [done..|]. by exists a, b, q.
Qed.

Lemma accept_spec s block state : tree_rules s -> Header.wf_header block -> room 1 s ->
  is_Some (mapBlockIndex s !! hashGenesisBlock params) ->
  exists r, AcceptBlockHeader Hash params fCheckpointsEnabled mapCheckpoints adjusted block state s = Ok r /\
    tree_rules (index_out r) /\ header_outcome s block state r.
Proof.
  intros Hs Hwf Hr Hg. destruct (mapBlockIndex s !! Header.GetHash Hash block) as [a|] eqn:E.
  - apply known_spec; [done|by exists a].
  - by apply unknown_spec.
Qed.

(** The index only grows, by one height at most, and holds an accepted header. *)
Lemma outcome_grows s block state r n : tree_rules s -> tree_rules (index_out r) -> header_outcome s block state r -> room (n + 1) s -> 0 <= n ->
  heap s ⊆ heap (index_out r) /\ mapBlockIndex s ⊆ mapBlockIndex (index_out r) /\ room n (index_out r) /\
  (ret r = true -> is_Some (mapBlockIndex (index_out r) !! Header.GetHash Hash block)).
Proof.
  intros Hs Hs' Ho Hr Hn. assert (room n s) as Hr' by (eapply map_Forall_impl; [exact Hr|]; cbn; lia).
  unfold header_outcome in Ho. destruct (mapBlockIndex s !! Header.GetHash Hash block) as [a|] eqn:E.
  - destruct Ho as (_ & -> & _). split_and!; [done..|]. intros _. by exists a.
  - destruct (acceptable s block); [|destruct Ho as ((Hf & _) & _ & ->); cbn in Hf; split_and!; [done..|congruence]].
    destruct Ho as (_ & _ & a & b & q & _ & Ha & He & Hm & _ & Hq & Hpb). rewrite He, Hm.
    split; [by apply insert_subseteq|]. split; [by apply insert_subseteq|]. split; [|intros _; rewrite lookup_insert_eq; by eexists].
    unfold room. rewrite He. apply map_Forall_insert_2; [|done]. pose proof (ok_tree Hash _ (tr_index _ Hs')) as Hst.
    destruct (wf_parent _ Hst a b q) as (bq & Hbq & Hh); [rewrite He; apply lookup_insert_eq|done|].
    destruct (ok_index Hash s (tr_index s Hs) _ _ Hq) as (bq' & Hbq' & _). rewrite He, lookup_insert_ne in Hbq by congruence.
    pose proof (Hr q bq Hbq). cbn beta in *. lia.
Qed.

Lemma process_spec blocks : forall r, tree_rules (index_out r) -> Forall Header.wf_header blocks ->
  room (Z.of_nat (length blocks)) (index_out r) -> is_Some (mapBlockIndex (index_out r) !! hashGenesisBlock params) ->
  exists r', ProcessNewBlockHeaders Hash params fCheckpointsEnabled mapCheckpoints adjusted blocks r = Ok r' /\
    tree_rules (index_out r') /\ heap (index_out r) ⊆ heap (index_out r') /\ mapBlockIndex (index_out r) ⊆ mapBlockIndex (index_out r') /\
    (ret r = true -> ret r' = true -> Forall (fun b => is_Some (mapBlockIndex (index_out r') !! Header.GetHash Hash b)) blocks).
Proof.
  induction blocks as [|block blocks IH]; intros r Hs Hw Hr Hg; [exists r; by split_and!|].
  apply Forall_cons in Hw as [Hwf Hw]. cbn [ProcessNewBlockHeaders length] in *. rewrite Nat2Z.inj_succ in Hr.
  destruct (accept_spec (index_out r) block (state_out r) Hs Hwf) as (a & -> & Hsa & Ho);
    [eapply map_Forall_impl; [exact Hr|]; cbn; lia|done|]. cbn [res_bind].
  destruct (outcome_grows _ _ _ _ (Z.of_nat (length blocks)) Hs Hsa Ho) as (G1 & G2 & G3 & G4); [exact Hr|lia|].
  destruct (ret a) eqn:Ea; cbn [negb].
  - destruct (IH a Hsa Hw G3) as (r' & -> & Hs' & I1 & I2 & I3); [destruct Hg as [g Hg]; exists g; by apply (lookup_weaken _ _ _ _ Hg)|].
    exists r'. split_and!; [done|done|by etransitivity|by etransitivity|]. intros _ Hr'. constructor; [|by apply I3].
    destruct (G4 eq_refl) as [x Hx]. exists x. by apply (lookup_weaken _ _ _ _ Hx).
  - eexists. split; [done|]. by split_and!.
Qed.

(** The tree of the first block. *)
Lemma genesis_rules block : Header.wf_header block -> Header.GetHash Hash block <> Header.hashPrevBlock block ->
  Header.hashPrevBlock block = Header.hashPrevBlock Header.SetNull -> compact_value (Header.nBits block) <= val (powLimit params) ->
  exists a s, AddToBlockIndex Hash block empty_index = Ok (a, s) /\ tree_rules s /\ mapBlockIndex s !! Header.GetHash Hash block = Some a /\
    room (2 ^ 31 - 2) s.
Proof.
  intros Hwf Hne Hprev Hc. destruct (AddToBlockIndex_new Hash block empty_index) as (a & b & s & E & Hi & _ & He & Hm & Hb & Hpb);
    [apply empty_index_ok|by split_and!|done|]. cbn [heap mapBlockIndex empty_index] in *. rewrite lookup_empty in Hpb.
  exists a, s. split; [done|]. destruct (header_fields _ _ _ Hb) as (E1 & E2 & _). split; [split; [done| |]|split].
  - unfold targets_ok. rewrite He. apply map_Forall_insert_2; [|apply map_Forall_empty]. rewrite <- E1, <- E2. by destruct Hwf as (_ & _ & _ & ? & ? & _).
  - intros a0 b0 q Hb0 Hq. rewrite He in Hb0. apply lookup_insert_Some in Hb0 as [[_ <-]|[_ Hb0]]; [congruence|by rewrite lookup_empty in Hb0].
  - by rewrite Hm, lookup_insert_eq.
  - unfold room. rewrite He. apply map_Forall_insert_2; [|apply map_Forall_empty].
    destruct (ok_tree Hash s Hi a b) as (_ & H0 & _); [rewrite He; apply lookup_insert_eq|]. rewrite Hpb in H0. lia.
Qed.
End rules.

(** ** Forks *)

Section forks.
Context (Hash : bytes -> uint256) (s : block_index) (Hi : index_ok Hash s) (c : CChain.t) (Hc : chain_ok (heap s) c).

Lemma total_in_chain i p : c.[i] = Some p -> in_chain c p.
Proof. rewrite list_lookup_total_alt. destruct (c !! i) as [x|] eqn:E; cbn; intros H; [|done]. exists i. by subst. Qed.

Lemma tip_in_chain p : CChain.Tip c = Some p -> in_chain c p.
Proof. unfold CChain.Tip. destruct (_ <? _)%nat; [apply total_in_chain|done]. Qed.

Lemma genesis_in_chain p : CChain.Genesis c = Some p -> in_chain c p.
Proof. unfold CChain.Genesis. destruct (_ <? _)%nat; [apply total_in_chain|done]. Qed.

Lemma walk_find l : forall p b, heap s !! p = Some b -> walk (heap s) p l ->
  (exists g, CChain.Genesis c = Some g /\ anc (heap s) (Z.to_nat (nHeight b)) p = Some g) ->
  exists f n, find_fork_loop s c (map snd l) = Ok (Some f) /\ in_chain c f /\ anc (heap s) n p = Some f /\ (in_chain c p -> f = p).
Proof.
  pose proof (ok_tree Hash s Hi) as Hst. induction l as [|[x h] l IH]; intros p b Hp Hw (g & Hg & Hroot); [by inversion Hw|].
  assert (x = p /\ phashBlock b = Some h) as [-> Hh] by (inversion Hw; subst; split; congruence).
  cbn [map snd find_fork_loop]. destruct (ok_hash _ _ _ _ (ok_entries Hash s Hi p b Hp)) as (h' & hd & E1 & E2 & _).
  rewrite E1 in Hh. injection Hh as ->. rewrite E2. rewrite (Contains_spec _ Hst c p b Hc Hp). cbn [res_bind].
  case_bool_decide as Hin.
  { exists p, O. split_and!; [done|by eexists|done|done]. }
  assert (~ in_chain c p) as Hnot by (intros H; by apply (in_chain_lookup _ c p b Hc Hp) in H).
  assert (0 < length c)%nat as Hlen by (clear -Hg; destruct c; [done|cbn; lia]).
  rewrite Height_spec by apply Hc. rewrite (GetAncestor_spec _ Hst p b) by done. cbn [res_bind].
  case_bool_decide as Ht.
  - assert (exists t, CChain.Tip c = Some t) as [t Et].
    { unfold CChain.Tip. rewrite (proj2 (Nat.ltb_lt _ _)) by lia. rewrite list_lookup_total_alt.
      destruct (lookup_lt_is_Some_2 c (length c - 1)) as [y Ey]; [lia|]. rewrite Ey. simpl.
      destruct (proj2 Hc _ _ Ey) as (a & _ & -> & _). by exists a. }
    rewrite Et in *. destruct (_ && _); [|done]. eexists t, _. split_and!; [done|by apply tip_in_chain|done|by intros ?].
  - inversion Hw as [? b0 h0 Hb0 _ H0|? b0 h0 q bq l' Hb0 _ Hq Hlt [n Hn] Hw']; subst.
    + exfalso. apply Hnot. replace b0 with b in H0 by congruence. rewrite H0 in Hroot. cbn in Hroot. injection Hroot as ->.
      by apply genesis_in_chain.
    + destruct (anc_Some _ Hst n p b q Hp Hn) as (Hle & bq' & Hbq' & Hh'). replace bq' with bq in * by congruence.
      destruct (IH q bq Hq Hw') as (f & m & E & Hf & Ha & _).
      { exists g. split; [done|]. replace (Z.to_nat (nHeight b)) with (n + Z.to_nat (nHeight bq))%nat in Hroot by lia.
        rewrite anc_add, Hn in Hroot. exact Hroot. }
      exists f, (n + m)%nat. split_and!; [done|done| |done]. by rewrite anc_add, Hn.
Qed.
End forks.

(** ** Properties *)



(** C10: [FindForkInGlobalIndex] with a locator of a block of the tree, whose
    first block is the one of the chain, returns an ancestor of that block in the
    chain, and the block itself when the chain holds it. *)
Theorem FindForkInGlobalIndex_correct (Hash : bytes -> uint256) (s : block_index) (chain other : CChain.t) (p : nat) (b : CBlockIndex) (g : nat) :
  index_ok Hash s -> chain_ok (heap s) chain -> chain_ok (heap s) other -> heap s !! p = Some b ->
  CChain.Genesis chain = Some g -> anc (heap s) (Z.to_nat (nHeight b)) p = Some g ->
  exists l f n, CChain.GetLocator (heap s) other (Some p) = Ok l /\ FindForkInGlobalIndex s chain l = Ok (Some f) /\
    in_chain chain f /\ anc (heap s) n p = Some f /\ (in_chain chain p -> f = p).
Proof.
  intros Hi Hc Ho Hp Hg Hr. pose proof (ok_tree Hash s Hi) as Hst.
  destruct (GetLocator_spec _ Hst other Ho) with (p := p) (b := b) as (l & El & Hw & _); [|done|].
  { intros p0 b0 H0. destruct (ok_hash _ _ _ _ (ok_entries Hash s Hi p0 b0 H0)) as (h & _ & E & _). by exists h. }
  destruct (walk_find Hash s Hi chain Hc l p b Hp Hw) as (f & n & E & Hf); [by exists g|].
  by exists (Locator.make (map snd l)), f, n.
Qed.

(** A chain of three headers on the first block. *)
Definition demo_genesis : CBlockHeader := {| Header.nVersion := 4; Header.hashPrevBlock := base_uint_zero 8;
  Header.hashMerkleRoot := base_uint_zero 8; Header.nTime := 10; Header.nBits := 0x1c00ffff; Header.nNonce := 0 |}.
Definition demo_after (prev : CBlockHeader) (time : Z) : CBlockHeader := {| Header.nVersion := 4; Header.hashPrevBlock := Header.GetHash toy_hash prev;
  Header.hashMerkleRoot := base_uint_zero 8; Header.nTime := time; Header.nBits := 0x1c00ffff; Header.nNonce := 0 |}.
Definition demo_rules : Params := {|
  hashGenesisBlock := Header.GetHash toy_hash demo_genesis; nSubsidyHalvingInterval := 210000; BIP34Height := 0;
  BIP34Hash := base_uint_zero 8; BIP65Height := 0; BIP66Height := 0; nRuleChangeActivationThreshold := 3;
  nMinerConfirmationWindow := 4;
  vDeployments := fun _ => {| bit := 28; nStartTime := 15; nTimeout := 1000 |};
  powLimit := replicate 7 0xffffffff ++ [0]; fPowAllowMinDifficultyBlocks := false; fPowNoRetargeting := false;
  nPowTargetSpacing := 10; nPowTargetTimespan := 40; nMinimumChainWork := base_uint_zero 8;
  defaultAssumeValid := base_uint_zero 8 |}.
Definition demo_headers : list CBlockHeader :=
  [demo_after demo_genesis 20; demo_after (demo_after demo_genesis 20) 30; demo_after demo_genesis 35].
Definition demo_index : block_index := match AddToBlockIndex toy_hash demo_genesis empty_index with Ok (_, s) => s | _ => empty_index end.

Lemma demo_rules_ok : params_ok demo_rules.
Proof. split; try (split; [done|]; repeat constructor; done). vm_compute. done. Qed.

Lemma demo_headers_wf : Forall Header.wf_header (demo_genesis :: demo_headers).
Proof. repeat constructor; vm_compute; congruence. Qed.

Lemma demo_index_ok : tree_rules toy_hash demo_rules demo_index /\
  mapBlockIndex demo_index !! hashGenesisBlock demo_rules = Some 0%nat /\ room (2 ^ 31 - 2) demo_index.
Proof.
  destruct (genesis_rules toy_hash demo_rules demo_genesis) as (a & s & E & Hs & Hm & Hr).
  - exact (Forall_inv demo_headers_wf).
  - by vm_compute.
  - done.
  - by vm_compute.
  - unfold demo_index. rewrite E. split; [done|]. split; [|done]. apply (f_equal (fun r => match r with Ok (_, s) => mapBlockIndex s !! hashGenesisBlock demo_rules | _ => None end)) in E.
    rewrite <- E. by vm_compute.
Qed.

Lemma room_le n m s : n <= m -> room m s -> room n s.
Proof. intros Hn Hm. eapply map_Forall_impl; [exact Hm|]. cbn. lia. Qed.



(** The second branch starts at the first block. *)
Lemma FindForkInGlobalIndex_correct_witness :
  exists s l f n, chain_ok (heap s) [Some 0%nat] /\
    CChain.GetLocator (heap s) [Some 0%nat] (Some 0%nat) = Ok l /\ FindForkInGlobalIndex s [Some 0%nat] l = Ok (Some f) /\
    in_chain [Some 0%nat] f /\ anc (heap s) n 0 = Some f /\ (in_chain [Some 0%nat] 0 -> f = 0%nat).
Proof.
  destruct demo_index_ok as (Hs & Hm & Hr). pose proof (tr_index _ _ _ Hs) as Hi.
  destruct (ok_index _ _ Hi _ _ Hm) as (b & Hb & _).
  assert (nHeight b = 0) as Hh.
  { apply (f_equal (fun o => match o with Some b => nHeight b | None => 1 end)) in Hb. rewrite <- Hb. by vm_compute. }
  assert (chain_ok (heap demo_index) [Some 0%nat]) as Hc.
  { split; [done|]. intros [|i] p; [|done]. intros [= <-]. exists 0%nat, b. split; [reflexivity|]. split; [exact Hb|]. split; [exact Hh|exact I]. }
  destruct (FindForkInGlobalIndex_correct toy_hash demo_index [Some 0%nat] [Some 0%nat] 0%nat b 0%nat Hi Hc Hc Hb eq_refl) as (l & f & n & H).
  - rewrite Hh. reflexivity.
  - exists demo_index, l, f, n. split; [exact Hc|exact H].
Defined.
