(* ===== verification/BlockRules.v ===== *)
(** The rules on blocks of src/sige/src/validation.cpp: [CheckBlock], the
    witness commitment in the coinbase, and [ContextualCheckBlock].

    Messages built with [strprintf] keep their format, as in [Connect]. *)

From S2P Require Import Prelude Bytes BaseUint UintBytes Uint256 Serialize Codec Header Chain ChainSpec BlockTree Pow VersionBits Opcode Prevector ScriptNum Script Amount Transaction Merkle Block PubKey Compressor Coins CoinsView Undo State Connect Rules Headers.
Import Consensus.

Definition MAX_BLOCK_WEIGHT : Z := 4000000.
Definition MAX_BLOCK_SIGOPS_COST : Z := 80000.

Section blocks.
Context (WORDS_BIGENDIAN : bool) (sizeof_CTxIn sizeof_CTxOut sizeof_vector sizeof_ref : Z) (Hash : bytes -> uint256) (params : Params).

(** ** CheckBlock *)

(** The loop over the transactions: a report, or the end. *)
Fixpoint check_transactions (vtx : list CTransaction) (state : CValidationState.t) : option (bool * CValidationState.t) * CValidationState.t :=
  match vtx with
  | [] => (None, state)
  | tx :: vtx =>
      let '(r, state) := CheckTransaction sizeof_CTxIn sizeof_CTxOut sizeof_vector tx state false in
      if negb r
      then (Some (CValidationState.Invalid false (CValidationState.GetRejectCode state) (CValidationState.GetRejectReason state)
                    "Transaction check failed (tx hash %s) %s" state), state)
      else check_transactions vtx state
  end.

Fixpoint block_sigops_loop (vtx : list CTransaction) (nSigOps : Z) : res Z :=
  match vtx with
  | [] => Ok nSigOps
  | tx :: vtx => let? n := GetLegacySigOpCount WORDS_BIGENDIAN tx in block_sigops_loop vtx (u32 (nSigOps + n))
  end.

(** [fChecked] is mutable; the block is returned with it. *)
Definition CheckBlock (block : CBlock) (state : CValidationState.t) (fCheckPOW fCheckMerkleRoot : bool) :
  res (bool * CValidationState.t * CBlock) :=
  if fChecked block then Ok (true, state, block)
  else
    let '(r, state) := CheckBlockHeader Hash params (header block) state fCheckPOW in
    if negb r then Ok (false, state, block)
    else
      let? report :=
        if fCheckMerkleRoot then
          let? (hashMerkleRoot2, mutated) := Block.BlockMerkleRoot Hash block in
          if BaseUint.op_ne (Header.hashMerkleRoot block) hashMerkleRoot2
          then Ok (Some (CValidationState.DoS 100 false REJECT_INVALID "bad-txnmrklroot" true "hashMerkleRoot mismatch" state))
          else if mutated : bool
          then Ok (Some (CValidationState.DoS 100 false REJECT_INVALID "bad-txns-duplicate" true "duplicate transaction" state))
          else Ok None
        else Ok None in
      match report with
      | Some (r, state) => Ok (r, state, block)
      | None =>
          if (length (vtx block) =? 0)%nat || (MAX_BLOCK_BASE_SIZE <? zlen (vtx block)) ||
             (MAX_BLOCK_BASE_SIZE <? GetSerializeSize (Block.c_block sizeof_CTxIn sizeof_CTxOut sizeof_vector sizeof_ref Hash
                (Z.lor PROTOCOL_VERSION SERIALIZE_TRANSACTION_NO_WITNESS)) block)
          then Ok (CValidationState.DoS 100 false REJECT_INVALID "bad-blk-length" false "size limits failed" state, block)
          else
            match vtx block with
            | [] => Ok (CValidationState.DoS 100 false REJECT_INVALID "bad-cb-missing" false "first tx is not coinbase" state, block)
            | coinbase :: rest =>
                if negb (IsCoinBase coinbase)
                then Ok (CValidationState.DoS 100 false REJECT_INVALID "bad-cb-missing" false "first tx is not coinbase" state, block)
                else if existsb (fun tx : CTransaction => IsCoinBase tx) rest
                then Ok (CValidationState.DoS 100 false REJECT_INVALID "bad-cb-multiple" false "more than one coinbase" state, block)
                else
                  match check_transactions (vtx block) state with
                  | (Some report, _) => Ok (report, block)
                  | (None, state) =>
                      let? nSigOps := block_sigops_loop (vtx block) 0 in
                      if MAX_BLOCK_SIGOPS_COST <? u32 (nSigOps * WITNESS_SCALE_FACTOR)
                      then Ok (CValidationState.DoS 100 false REJECT_INVALID "bad-blk-sigops" false "out-of-bounds SigOpCount" state, block)
                      else Ok (true, state, mk_block (header block) (vtx block) (fCheckPOW && fCheckMerkleRoot || fChecked block))
                  end
            end
      end.

(** ** The witness commitment *)

Definition IsWitnessEnabled (st : gmap nat CBlockIndex) (pindexPrev : ptr) (versionbitscache : VersionBitsCache) : res (bool * VersionBitsCache) :=
  let? (s, c) := VersionBitsState st pindexPrev params DEPLOYMENT_SEGWIT versionbitscache in
  Ok (bool_decide (s = THRESHOLD_ACTIVE), c).

(** The script of a commitment: at least 38 bytes, with the six first ones. *)
Definition commits (s : CScript) : bool :=
  (38 <=? zlen s) && bool_decide (take 6 s = [value OP_RETURN; 0x24; 0xaa; 0x21; 0xa9; 0xed]).

Fixpoint commitment_loop (vout : list CTxOut.t) (o commitpos : Z) : Z :=
  match vout with
  | [] => commitpos
  | out :: vout => commitment_loop vout (o + 1) (if commits (CTxOut.scriptPubKey out) then i32 o else commitpos)
  end.

(** [block.vtx[0]] is out of range in a block without transactions. *)
Definition GetWitnessCommitmentIndex (block : CBlock) : res Z :=
  match vtx block with
  | [] => Undef
  | coinbase :: _ => Ok (commitment_loop (vout coinbase) 0 (-1))
  end.

Definition set_vtx (v : list CTransaction) (block : CBlock) : CBlock := mk_block (header block) v (fChecked block).
Definition make_ref (t : CMutableTransaction) : CTransaction := make_transaction sizeof_CTxIn sizeof_CTxOut sizeof_vector Hash t.

Definition UpdateUncommittedBlockStructures (st : gmap nat CBlockIndex) (block : CBlock) (pindexPrev : ptr) (versionbitscache : VersionBitsCache) :
  res (CBlock * VersionBitsCache) :=
  let? commitpos := GetWitnessCommitmentIndex block in
  if commitpos =? -1 then Ok (block, versionbitscache)
  else
    let? (enabled, versionbitscache) := IsWitnessEnabled st pindexPrev versionbitscache in
    match vtx block with
    | [] => Undef
    | coinbase :: rest =>
        if enabled && negb (HasWitness coinbase) then
          match vin coinbase with
          | [] => Undef
          | i :: vin =>
              let tx := mk_tx (nVersion coinbase) (CTxIn.set_witness [replicate 32 0] i :: vin) (vout coinbase) (nLockTime coinbase) in
              Ok (set_vtx (make_ref tx :: rest) block, versionbitscache)
          end
        else Ok (block, versionbitscache)
    end.

(** The commitment, the block and the cache. *)
Definition GenerateCoinbaseCommitment (st : gmap nat CBlockIndex) (block : CBlock) (pindexPrev : ptr) (versionbitscache : VersionBitsCache) :
  res (bytes * CBlock * VersionBitsCache) :=
  let? commitpos := GetWitnessCommitmentIndex block in
  let nonce := replicate 32 0 in
  let? (commitment, block) :=
    if negb (nTimeout (vDeployments params DEPLOYMENT_SEGWIT) =? 0) && (commitpos =? -1) then
      let? (witnessroot, _) := Block.BlockWitnessMerkleRoot sizeof_CTxIn sizeof_CTxOut sizeof_vector Hash block in
      let witnessroot := Hash (pn_bytes witnessroot ++ nonce) in
      let out := CTxOut.mk 0 ([value OP_RETURN; 0x24; 0xaa; 0x21; 0xa9; 0xed] ++ pn_bytes witnessroot) in
      match vtx block with
      | [] => Undef
      | coinbase :: rest =>
          let tx := mk_tx (nVersion coinbase) (vin coinbase) (vout coinbase ++ [out]) (nLockTime coinbase) in
          Ok (CTxOut.scriptPubKey out, set_vtx (make_ref tx :: rest) block)
      end
    else Ok ([], block) in
  let? (block, versionbitscache) := UpdateUncommittedBlockStructures st block pindexPrev versionbitscache in
  Ok (commitment, block, versionbitscache).

(** ** ContextualCheckBlock *)

(** The coinbase starts with the height; [block.vtx[0]->vin[0]] may be out of range. *)
Definition starts_with_height (block : CBlock) (nHeight : Z) : res bool :=
  match vtx block with
  | [] => Undef
  | coinbase :: _ =>
      match vin coinbase with
      | [] => Undef
      | i :: _ =>
          let expect := push_int64 WORDS_BIGENDIAN nHeight [] in
          Ok (negb (zlen (CTxIn.scriptSig i) <? zlen expect) && bool_decide (take (length expect) (CTxIn.scriptSig i) = expect))
      end
  end.

(** The commitment at [commitpos]: a report, or none. *)
Definition check_commitment (block : CBlock) (commitpos : Z) (state : CValidationState.t) : res (option (bool * CValidationState.t)) :=
  let? (hashWitness, _) := Block.BlockWitnessMerkleRoot sizeof_CTxIn sizeof_CTxOut sizeof_vector Hash block in
  match vtx block with
  | [] => Undef
  | coinbase :: _ =>
      match vin coinbase with
      | [] => Undef
      | i :: _ =>
          match CScriptWitness.stack (CTxIn.scriptWitness i) with
          | [nonce] =>
              if zlen nonce =? 32 then
                let hashWitness := Hash (pn_bytes hashWitness ++ nonce) in
                match vout coinbase !! Z.to_nat commitpos with
                | None => Undef
                | Some out =>
                    if negb (memcmp (pn_bytes hashWitness) (take 32 (drop 6 (CTxOut.scriptPubKey out))) =? 0)
                    then Ok (Some (CValidationState.DoS 100 false REJECT_INVALID "bad-witness-merkle-match" true
                                     "%s : witness merkle commitment mismatch" state))
                    else Ok None
                end
              else Ok (Some (CValidationState.DoS 100 false REJECT_INVALID "bad-witness-nonce-size" true "%s : invalid witness nonce size" state))
          | _ => Ok (Some (CValidationState.DoS 100 false REJECT_INVALID "bad-witness-nonce-size" true "%s : invalid witness nonce size" state))
          end
      end
  end.

(** The rules on witnesses: a report, or none. *)
Definition check_witness (block : CBlock) (active : bool) (state : CValidationState.t) : res (option (bool * CValidationState.t)) :=
  let? (fHaveWitness, report) :=
    if active then
      let? commitpos := GetWitnessCommitmentIndex block in
      if negb (commitpos =? -1) then
        let? report := check_commitment block commitpos state in
        Ok (true, report)
      else Ok (false, None)
    else Ok (false, None) in
  match report with
  | Some report => Ok (Some report)
  | None =>
      if negb fHaveWitness && existsb (fun tx : CTransaction => HasWitness tx) (vtx block)
      then Ok (Some (CValidationState.DoS 100 false REJECT_INVALID "unexpected-witness" true "%s : unexpected witness data found" state))
      else Ok None
  end.

Definition ContextualCheckBlock (st : gmap nat CBlockIndex) (block : CBlock) (state : CValidationState.t) (pindexPrev : ptr) (versionbitscache : VersionBitsCache) :
  res (bool * CValidationState.t * VersionBitsCache) :=
  let? nHeight := match pindexPrev with None => Ok 0 | Some _ => let? b := Chain.deref st pindexPrev in Ok (i32 (Chain.nHeight b + 1)) end in
  let? (csv, versionbitscache) := VersionBitsState st pindexPrev params DEPLOYMENT_CSV versionbitscache in
  let nLockTimeFlags := if bool_decide (csv = THRESHOLD_ACTIVE) then Z.lor 0 LOCKTIME_MEDIAN_TIME_PAST else 0 in
  let? nLockTimeCutoff :=
    if negb (Z.land nLockTimeFlags LOCKTIME_MEDIAN_TIME_PAST =? 0)
    then match pindexPrev with None => Undef | Some p => BlockIndex.GetMedianTimePast st p end
    else Ok (Header.GetBlockTime block) in
  if existsb (fun tx : CTransaction => negb (IsFinalTx tx nHeight nLockTimeCutoff)) (vtx block)
  then Ok (CValidationState.DoS 10 false REJECT_INVALID "bad-txns-nonfinal" false "non-final transaction" state, versionbitscache)
  else
    let? starts := if BIP34Height params <=? nHeight then starts_with_height block nHeight else Ok true in
    if negb starts
    then Ok (CValidationState.DoS 100 false REJECT_INVALID "bad-cb-height" false "block height mismatch in coinbase" state, versionbitscache)
    else
      let? (segwit, versionbitscache) := VersionBitsState st pindexPrev params DEPLOYMENT_SEGWIT versionbitscache in
      let? report := check_witness block (bool_decide (segwit = THRESHOLD_ACTIVE)) state in
      match report with
      | Some report => Ok (report, versionbitscache)
      | None =>
          if MAX_BLOCK_WEIGHT <? Block.GetBlockWeight sizeof_CTxIn sizeof_CTxOut sizeof_vector sizeof_ref Hash block
          then Ok (CValidationState.DoS 100 false REJECT_INVALID "bad-blk-weight" false "%s : weight limit failed" state, versionbitscache)
          else Ok (true, state, versionbitscache)
      end.
End blocks.
