(* ===== verification/BlockRulesSpec.v ===== *)
(** What the rules on blocks of [BlockRules] decide. *)

From S2P Require Import Prelude Bytes BaseUint UintBytes Uint256 Serialize Codec Header Chain ChainSpec BlockTree Pow VersionBits Opcode Prevector ScriptNum Script Amount Transaction Merkle Block PubKey Compressor Coins CoinsView Undo State Connect Ledger Spend Rules RulesSpec Headers HeadersSpec BlockRules.
Import Consensus.

(** ** Signature operations of a block *)

Definition tx_scripts (tx : CMutableTransaction) : list CScript :=
  map CTxIn.scriptSig (vin tx) ++ map CTxOut.scriptPubKey (vout tx).
Definition script_bytes (l : list CScript) : Z := foldr (fun s n => zlen s + n) 0 l.
Definition script_sigops (s : CScript) : Z := sigops false OP_INVALIDOPCODE (ops s).
Definition scripts_sigops (l : list CScript) : Z := foldr (fun s n => script_sigops s + n) 0 l.
Definition block_scripts (v : list CTransaction) : list CScript := concat (map (fun t : CTransaction => tx_scripts t) v).

Lemma script_bytes_app a b : script_bytes (a ++ b) = script_bytes a + script_bytes b.
Proof. unfold script_bytes. induction a as [|s a IH]; cbn [foldr app]; lia. Qed.
Lemma scripts_sigops_app a b : scripts_sigops (a ++ b) = scripts_sigops a + scripts_sigops b.
Proof. unfold scripts_sigops. induction a as [|s a IH]; cbn [foldr app]; lia. Qed.
Lemma script_bytes_nonneg l : 0 <= script_bytes l.
Proof. induction l as [|s l IH]; [done|]. cbn. fold (script_bytes l). unfold zlen. lia. Qed.

Lemma scripts_sigops_range l : 0 <= scripts_sigops l <= 20 * script_bytes l.
Proof.
  induction l as [|s l IH]; [done|]. cbn [scripts_sigops script_bytes foldr]. fold (scripts_sigops l) (script_bytes l).
  pose proof (sigops_range false OP_INVALIDOPCODE (ops s)). pose proof (ops_length s). unfold script_sigops, zlen. lia.
Qed.

Lemma compact_size_nonneg n : 0 <= GetSizeOfCompactSize n.
Proof. unfold GetSizeOfCompactSize. repeat case_match; done. Qed.

Lemma size_ge {A} (c : codec A) (len : A -> Z) sizeof_T v : (forall a, len a <= SerSize c a) ->
  foldr (fun a n => len a + n) 0 v <= SerSize (c_vector c sizeof_T) v.
Proof.
  intros H. cbn [SerSize c_vector]. pose proof (compact_size_nonneg (Z.of_nat (length v))).
  enough (foldr (fun a n => len a + n) 0 v <= foldr (fun a n => SerSize c a + n) 0 v) by lia.
  clear -H. induction v as [|a v IH]; [done|]. cbn [foldr]. pose proof (H a). lia.
Qed.

Lemma bytes_size (b : bytes) : zlen b <= SerSize c_bytes b.
Proof. cbn [SerSize c_bytes]. unfold blob_size. pose proof (compact_size_nonneg (Z.of_nat (length b))). unfold zlen. lia. Qed.

Section sizes.
Context (sizeof_CTxIn sizeof_CTxOut sizeof_vector sizeof_ref : Z) (Hash : bytes -> uint256).

(** The scripts of a transaction are part of its size. *)
Lemma tx_scripts_size version tx : allow_witness version = false ->
  script_bytes (tx_scripts tx) <= SizeTransaction sizeof_CTxIn sizeof_CTxOut sizeof_vector version tx.
Proof.
  intros Ha. unfold SizeTransaction. rewrite Ha. cbn [Z.eqb negb Z.land]. unfold tx_scripts. rewrite script_bytes_app.
  assert (script_bytes (map CTxIn.scriptSig (vin tx)) <= SerSize (c_vin sizeof_CTxIn) (vin tx)) as H1.
  { etransitivity; [|apply (size_ge CTxIn.codec (fun i => zlen (CTxIn.scriptSig i)))].
    - unfold script_bytes. induction (vin tx) as [|i v IH]; cbn [map foldr]; lia.
    - intros i. pose proof (bytes_size (CTxIn.scriptSig i)). cbn [CTxIn.codec SerSize c_map c_pair COutPoint.codec].
      assert (0 <= SerSize c_uint256 (COutPoint.hash (CTxIn.prevout i))) by (cbn; lia).
      assert (SerSize c_u32 (COutPoint.n (CTxIn.prevout i)) = 4 /\ SerSize c_u32 (CTxIn.nSequence i) = 4) as [-> ->] by done. lia. }
  assert (script_bytes (map CTxOut.scriptPubKey (vout tx)) <= SerSize (c_vout sizeof_CTxOut) (vout tx)) as H2.
  { etransitivity; [|apply (size_ge CTxOut.codec (fun i => zlen (CTxOut.scriptPubKey i)))].
    - unfold script_bytes. induction (vout tx) as [|i v IH]; cbn [map foldr]; lia.
    - intros i. pose proof (bytes_size (CTxOut.scriptPubKey i)). assert (SerSize CTxOut.codec i = 8 + SerSize c_bytes (CTxOut.scriptPubKey i)) as -> by done. lia. }
  assert (SerSize c_i32 (nVersion tx) = 4 /\ SerSize c_u32 (nLockTime tx) = 4) as [-> ->] by done. change (negb (Z.land 0 1 =? 0)) with false. cbn iota. lia.
Qed.

Lemma block_scripts_size version (b : CBlock) : allow_witness version = false ->
  script_bytes (block_scripts (vtx b)) <= GetSerializeSize (Block.c_block sizeof_CTxIn sizeof_CTxOut sizeof_vector sizeof_ref Hash version) b.
Proof.
  intros Ha. change (GetSerializeSize (Block.c_block sizeof_CTxIn sizeof_CTxOut sizeof_vector sizeof_ref Hash version) b) with
    (SerSize Header.c_header (header b) + SerSize (Block.c_vtx sizeof_CTxIn sizeof_CTxOut sizeof_vector sizeof_ref Hash version) (vtx b)).
  assert (0 <= SerSize Header.c_header (header b)) by (cbn; lia).
  enough (script_bytes (block_scripts (vtx b)) <= SerSize (Block.c_vtx sizeof_CTxIn sizeof_CTxOut sizeof_vector sizeof_ref Hash version) (vtx b)) by lia.
  unfold Block.c_vtx. etransitivity; [|apply (size_ge _ (fun t : CTransaction => script_bytes (tx_scripts t)))].
  - induction (vtx b) as [|t v IH]; [done|]. unfold block_scripts. cbn [map concat foldr]. rewrite script_bytes_app. fold (block_scripts v). lia.
  - intros t. cbn [c_shared_ptr c_map c_CTransaction SerSize c_transaction]. by apply tx_scripts_size.
Qed.
End sizes.

Section counting.
Context (be : bool).

Lemma GetSigOpCount_spec s : byte_list s -> 20 * zlen s < 2 ^ 31 -> GetSigOpCount be false s = Ok (script_sigops s).
Proof.
  intros Hs Hl. assert (script_ok s) as Ho by (split; [done|lia]).
  exact (sigop_spec be false s (length s) [] OP_INVALIDOPCODE 0 Ho (le_n _) ltac:(lia) ltac:(lia)).
Qed.

Lemma sigops_loop_spec scripts : forall n, Forall byte_list scripts -> 0 <= n -> n + 20 * script_bytes scripts < 2 ^ 31 ->
  sigops_loop be scripts n = Ok (n + scripts_sigops scripts).
Proof.
  induction scripts as [|s l IH]; intros n Hb Hn Hl; cbn [sigops_loop scripts_sigops foldr]; [f_equal; lia|].
  apply Forall_cons in Hb as [Hs Hb]. cbn [script_bytes foldr] in Hl. fold (script_bytes l) in Hl. fold (scripts_sigops l).
  pose proof (script_bytes_nonneg l). pose proof (sigops_range false OP_INVALIDOPCODE (ops s)) as Hr. pose proof (ops_length s). unfold zlen in *.
  rewrite GetSigOpCount_spec by (done || unfold zlen; lia). cbn [res_bind]. fold (script_sigops s) in *. rewrite wrap_small by (unfold in_u; lia).
  rewrite IH by (done || lia). f_equal. lia.
Qed.

Lemma legacy_spec (tx : CMutableTransaction) : Forall byte_list (tx_scripts tx) -> 20 * script_bytes (tx_scripts tx) < 2 ^ 31 ->
  GetLegacySigOpCount be tx = Ok (scripts_sigops (tx_scripts tx)).
Proof.
  unfold GetLegacySigOpCount, tx_scripts. rewrite Forall_app, script_bytes_app. intros [H1 H2] Hl.
  pose proof (script_bytes_nonneg (map CTxIn.scriptSig (vin tx))). pose proof (script_bytes_nonneg (map CTxOut.scriptPubKey (vout tx))).
  rewrite sigops_loop_spec by (done || lia). cbn [res_bind]. pose proof (scripts_sigops_range (map CTxIn.scriptSig (vin tx))).
  rewrite sigops_loop_spec by (done || lia). by rewrite scripts_sigops_app, Z.add_0_l.
Qed.

Lemma block_sigops_spec v : forall n, Forall byte_list (block_scripts v) -> 0 <= n -> n + 20 * script_bytes (block_scripts v) < 2 ^ 31 ->
  block_sigops_loop be v n = Ok (n + scripts_sigops (block_scripts v)).
Proof.
  induction v as [|t v IH]; intros n; [intros; cbn; f_equal; lia|].
  unfold block_scripts. cbn [map concat block_sigops_loop]. fold (block_scripts v).
  rewrite Forall_app, script_bytes_app, scripts_sigops_app. intros [H1 H2] Hn Hl.
  pose proof (script_bytes_nonneg (tx_scripts t)). pose proof (script_bytes_nonneg (block_scripts v)). pose proof (scripts_sigops_range (tx_scripts t)).
  rewrite legacy_spec by (done || lia). cbn [res_bind]. rewrite wrap_small by (unfold in_u; lia). rewrite IH by (done || lia). f_equal. lia.
Qed.
End counting.

(** ** CheckBlock *)

Section checking.
Context (be : bool) (sizeof_CTxIn sizeof_CTxOut sizeof_vector sizeof_ref : Z) (Hash : bytes -> uint256) (params : Params).

(** The root of the header, from transactions that are not a duplication. *)
Definition valid_root (b : CBlock) : bool :=
  match Block.BlockMerkleRoot Hash b with Ok (r, false) => bool_decide (Header.hashMerkleRoot b = r) | _ => false end.

Definition stripped_block_size (b : CBlock) : Z :=
  GetSerializeSize (Block.c_block sizeof_CTxIn sizeof_CTxOut sizeof_vector sizeof_ref Hash
    (Z.lor PROTOCOL_VERSION SERIALIZE_TRANSACTION_NO_WITNESS)) b.

Definition one_coinbase (v : list CTransaction) : bool :=
  match v with
  | c :: rest => IsCoinBase c && forallb (fun t : CTransaction => negb (IsCoinBase t)) rest
  | [] => false
  end.

Definition transactions_fine (v : list CTransaction) : bool :=
  forallb (fun t : CTransaction => well_formed sizeof_CTxIn sizeof_CTxOut sizeof_vector false t) v.

Definition block_fine (pow root : bool) (b : CBlock) : bool :=
  (negb pow || CheckProofOfWork (Header.GetHash Hash b) (Header.nBits b) params) && (negb root || valid_root b) &&
  (zlen (vtx b) <=? MAX_BLOCK_BASE_SIZE) && (stripped_block_size b <=? MAX_BLOCK_BASE_SIZE) && one_coinbase (vtx b) &&
  transactions_fine (vtx b) && (4 * scripts_sigops (block_scripts (vtx b)) <=? MAX_BLOCK_SIGOPS_COST).

Definition block_reasons : list string :=
  ["high-hash"; "bad-txnmrklroot"; "bad-txns-duplicate"; "bad-blk-length"; "bad-cb-missing"; "bad-cb-multiple"; "bad-blk-sigops"] ++
  transaction_reasons.

Lemma reported_weaken r1 r2 st st' r : reported r1 st r -> (forall x, x ∈ r1 -> x ∈ r2) -> reported r2 st' r.
Proof. intros (H1 & H2 & H3) H. split_and!; [done|done|by apply H]. Qed.

Lemma check_transactions_spec v : forall state, Forall (fun t : CTransaction => Forall (fun i => COutPoint.wf_outpoint (CTxIn.prevout i)) (vin t)) v ->
  if transactions_fine v then check_transactions sizeof_CTxIn sizeof_CTxOut sizeof_vector v state = (None, state)
  else exists rep st, check_transactions sizeof_CTxIn sizeof_CTxOut sizeof_vector v state = (Some rep, st) /\ reported block_reasons state rep.
Proof.
  induction v as [|t v IH]; intros state Hv; cbn [transactions_fine forallb check_transactions]; [done|]. apply Forall_cons in Hv as [Ht Hv].
  pose proof (CheckTransaction_spec sizeof_CTxIn sizeof_CTxOut sizeof_vector t state false Ht) as H. cbn zeta in H.
  destruct (well_formed _ _ _ false t); cbn [andb].
  - rewrite H. cbn [negb]. by apply IH.
  - destruct (CheckTransaction _ _ _ t state false) as [r st]. destruct H as (H1 & H2 & H3). cbn [fst snd] in *. subst r. cbn [negb].
    eexists _, _. split; [done|]. apply DoS_reported. unfold CValidationState.GetRejectReason, block_reasons. apply elem_of_app. by right.
Qed.

Lemma merkle_total (b : CBlock) : zlen (vtx b) <= 2 ^ 31 -> exists root m, Block.BlockMerkleRoot Hash b = Ok (root, m).
Proof.
  intros Hl. unfold Block.BlockMerkleRoot. destruct (map GetHash (vtx b)) as [|h l] eqn:E; [by do 2 eexists|].
  assert (length (map GetHash (vtx b)) = length (vtx b)) as El by apply length_map. rewrite E in El. cbn [length] in El. unfold zlen in Hl.
  destruct (ComputeMerkleRoot_spec Hash (h :: l)) as (root & m & _ & -> & _); [cbn [length]; lia|]. by exists root, m.
Qed.

Ltac reject := apply DoS_reported; unfold block_reasons; cbn [app]; rewrite !elem_of_cons; tauto.

(** The checks after the Merkle root. *)
Lemma body_spec pow root (b : CBlock) state :
  Forall (fun t : CTransaction => Forall (fun i => COutPoint.wf_outpoint (CTxIn.prevout i)) (vin t)) (vtx b) ->
  Forall byte_list (block_scripts (vtx b)) ->
  exists r b', (if (length (vtx b) =? 0)%nat || (MAX_BLOCK_BASE_SIZE <? zlen (vtx b)) || (MAX_BLOCK_BASE_SIZE <? stripped_block_size b)
     then Ok (CValidationState.DoS 100 false REJECT_INVALID "bad-blk-length" false "size limits failed" state, b)
     else
       match vtx b with
       | [] => Ok (CValidationState.DoS 100 false REJECT_INVALID "bad-cb-missing" false "first tx is not coinbase" state, b)
       | coinbase :: rest =>
           if negb (IsCoinBase coinbase)
           then Ok (CValidationState.DoS 100 false REJECT_INVALID "bad-cb-missing" false "first tx is not coinbase" state, b)
           else if existsb (fun tx : CTransaction => IsCoinBase tx) rest
           then Ok (CValidationState.DoS 100 false REJECT_INVALID "bad-cb-multiple" false "more than one coinbase" state, b)
           else
             match check_transactions sizeof_CTxIn sizeof_CTxOut sizeof_vector (vtx b) state with
             | (Some report, _) => Ok (report, b)
             | (None, state) =>
                 let? nSigOps := block_sigops_loop be (vtx b) 0 in
                 if MAX_BLOCK_SIGOPS_COST <? u32 (nSigOps * WITNESS_SCALE_FACTOR)
                 then Ok (CValidationState.DoS 100 false REJECT_INVALID "bad-blk-sigops" false "out-of-bounds SigOpCount" state, b)
                 else Ok (true, state, mk_block (header b) (vtx b) (pow && root || false))
             end
       end) = Ok (r, b') /\
    if (zlen (vtx b) <=? MAX_BLOCK_BASE_SIZE) && (stripped_block_size b <=? MAX_BLOCK_BASE_SIZE) && one_coinbase (vtx b) &&
       transactions_fine (vtx b) && (4 * scripts_sigops (block_scripts (vtx b)) <=? MAX_BLOCK_SIGOPS_COST)
    then r = (true, state) /\ b' = mk_block (header b) (vtx b) (pow && root) else reported block_reasons state r /\ b' = b.
Proof.
  intros Ho Hs. rewrite !(Z.leb_antisym MAX_BLOCK_BASE_SIZE). destruct (MAX_BLOCK_BASE_SIZE <? zlen (vtx b)) eqn:E1; cbn [negb andb orb].
  { rewrite orb_true_r. cbn [orb]. eexists _, b. split; [done|]. split; [reject|done]. }
  rewrite orb_false_r. destruct (MAX_BLOCK_BASE_SIZE <? stripped_block_size b) eqn:E2; cbn [negb andb orb].
  { rewrite orb_true_r. eexists _, b. split; [done|]. split; [reject|done]. }
  rewrite orb_false_r. destruct (vtx b) as [|c rest] eqn:Ev; cbn [length Nat.eqb one_coinbase andb].
  { eexists _, b. split; [done|]. split; [reject|done]. }
  destruct (IsCoinBase c); cbn [negb andb]. 2: { eexists _, b. split; [done|]. split; [reject|done]. }
  rewrite existsb_negb. destruct (forallb _ rest); cbn [negb andb]. 2: { eexists _, b. split; [done|]. split; [reject|done]. }
  pose proof (check_transactions_spec (c :: rest) state Ho) as Ht. destruct (transactions_fine (c :: rest)); cbn [andb].
  2: { destruct Ht as (rep & st & -> & Hr). eexists _, b. split; [done|]. by split. }
  rewrite Ht. pose proof (block_scripts_size sizeof_CTxIn sizeof_CTxOut sizeof_vector sizeof_ref Hash (Z.lor PROTOCOL_VERSION SERIALIZE_TRANSACTION_NO_WITNESS) b eq_refl) as Hsz.
  fold (stripped_block_size b) in Hsz. rewrite Ev in Hsz. apply Z.ltb_ge in E2. unfold MAX_BLOCK_BASE_SIZE in E2.
  pose proof (scripts_sigops_range (block_scripts (c :: rest))). pose proof (script_bytes_nonneg (block_scripts (c :: rest))).
  rewrite block_sigops_spec by (done || lia). cbn [res_bind]. rewrite Z.add_0_l. unfold WITNESS_SCALE_FACTOR.
  rewrite wrap_small by (unfold in_u; lia). rewrite Z.mul_comm, (Z.leb_antisym MAX_BLOCK_SIGOPS_COST).
  destruct (MAX_BLOCK_SIGOPS_COST <? _); cbn [negb]; [eexists _, b; split; [done|]; split; [reject|done]|].
  eexists _, _. split; [done|]. split; [done|]. by rewrite orb_false_r.
Qed.

Lemma root_spec root (b : CBlock) state : zlen (vtx b) <= 2 ^ 31 ->
  exists report, (if root : bool then
     let? (hashMerkleRoot2, mutated) := Block.BlockMerkleRoot Hash b in
     if BaseUint.op_ne (Header.hashMerkleRoot b) hashMerkleRoot2
     then Ok (Some (CValidationState.DoS 100 false REJECT_INVALID "bad-txnmrklroot" true "hashMerkleRoot mismatch" state))
     else if mutated : bool
     then Ok (Some (CValidationState.DoS 100 false REJECT_INVALID "bad-txns-duplicate" true "duplicate transaction" state))
     else Ok None
   else Ok None) = Ok report /\
  if negb root || valid_root b then report = None else exists rep, report = Some rep /\ reported block_reasons state rep.
Proof.
  intros Hl. destruct root; cbn [negb orb]; [|by eexists]. unfold valid_root. destruct (merkle_total b Hl) as (r & m & ->). cbn [res_bind].
  unfold BaseUint.op_ne, BaseUint.op_eq. destruct (bool_decide (Header.hashMerkleRoot b = r)), m; cbn [negb]; eexists; (split; [done|]);
    try done; eexists; (split; [done|]); reject.
Qed.

Lemma CheckBlock_spec pow root (b : CBlock) state : fChecked b = false -> zlen (vtx b) <= 2 ^ 31 ->
  Forall (fun t : CTransaction => Forall (fun i => COutPoint.wf_outpoint (CTxIn.prevout i)) (vin t)) (vtx b) ->
  Forall byte_list (block_scripts (vtx b)) ->
  exists r b', CheckBlock be sizeof_CTxIn sizeof_CTxOut sizeof_vector sizeof_ref Hash params b state pow root = Ok (r, b') /\
    if block_fine pow root b then r = (true, state) /\ b' = mk_block (header b) (vtx b) (pow && root) else reported block_reasons state r /\ b' = b.
Proof.
  intros Hc Hl Ho Hs. unfold CheckBlock, block_fine, CheckBlockHeader. rewrite Hc. fold (stripped_block_size b).
  replace (pow && negb (CheckProofOfWork (Header.GetHash Hash b) (Header.nBits b) params)) with
    (negb (negb pow || CheckProofOfWork (Header.GetHash Hash b) (Header.nBits b) params)) by (by rewrite negb_orb, negb_involutive).
  destruct (negb pow || _); cbn [negb andb].
  2: { rewrite DoS_pair. cbn [negb]. eexists _, b. split; [done|]. split; [rewrite <- DoS_pair; reject|done]. }
  destruct (root_spec root b state Hl) as (report & -> & Hr). cbn [res_bind]. destruct (negb root || valid_root b); cbn [andb].
  - subst report. by apply body_spec.
  - destruct Hr as ([r st] & -> & Hr). eexists _, b. split; [done|]. by split.
Qed.
End checking.

(** ** Property *)

(** C20: [CheckBlock] on any block in memory returns: a block already checked is
    accepted as it is; otherwise it is accepted, leaving the validation state as
    it was and marked as checked when both switches are on, exactly when its
    claimed work is in range, the Merkle root is the one of its transactions
    without duplication, the sizes are within the limit, only the first
    transaction is a coinbase, every transaction is well formed and the weighted
    signature operations of all its scripts (a sum that cannot overflow for a
    block of that size) are within the limit; the rest is reported and changes
    nothing. *)
Theorem CheckBlock_correct (be : bool) (s1 s2 s3 s4 : Z) (Hash : bytes -> uint256) (params : Params) (pow root : bool) (b : CBlock) (state : CValidationState.t) :
  zlen (vtx b) <= 2 ^ 31 ->
  Forall (fun t : CTransaction => Forall (fun i => COutPoint.wf_outpoint (CTxIn.prevout i)) (vin t)) (vtx b) ->
  Forall byte_list (block_scripts (vtx b)) ->
  exists r b', CheckBlock be s1 s2 s3 s4 Hash params b state pow root = Ok (r, b') /\
    if fChecked b then r = (true, state) /\ b' = b
    else if block_fine s1 s2 s3 s4 Hash params pow root b then r = (true, state) /\ b' = mk_block (header b) (vtx b) (pow && root)
    else reported block_reasons state r /\ b' = b.
Proof.
  intros Hl Ho Hs. destruct (fChecked b) eqn:Hc; [|by apply CheckBlock_spec]. unfold CheckBlock. rewrite Hc. by exists (true, state), b.
Qed.

(** A block of one coinbase on the first block of the examples, and one whose
    second transaction is a coinbase too. *)
Definition demo_coinbase_tx (height : Z) : CTransaction :=
  make_transaction 100 40 24 toy_hash (mk_tx 1 [CTxIn.make COutPoint.make [height; 1] SEQUENCE_FINAL] [demo_out 50] 0).
Definition demo_mined (v : list CTransaction) : CBlock :=
  let h := demo_genesis in
  mk_block {| Header.nVersion := Header.nVersion h; Header.hashPrevBlock := Header.GetHash toy_hash h;
    Header.hashMerkleRoot := match ComputeMerkleRoot toy_hash (map GetHash v) with Ok (r, _) => r | _ => [] end;
    Header.nTime := 20; Header.nBits := 0x1c00ffff; Header.nNonce := 0 |} v false.

Lemma CheckBlock_correct_witness :
  let b := demo_mined [demo_coinbase_tx 81] in
  (exists r b', CheckBlock false 100 40 24 16 toy_hash demo_rules b CValidationState.make true true = Ok (r, b') /\
     r = (true, CValidationState.make) /\ b' = mk_block (header b) (vtx b) true) /\
  (match CheckBlock false 100 40 24 16 toy_hash demo_rules (demo_mined [demo_coinbase_tx 81; demo_coinbase_tx 82]) CValidationState.make true true with
   | Ok (r, st, _) => (r, CValidationState.strRejectReason st) | _ => (true, "") end) = (false, "bad-cb-multiple").
Proof.
  intros b. split; [|by vm_compute].
  destruct (CheckBlock_correct false 100 40 24 16 toy_hash demo_rules true true b CValidationState.make) as (r & b' & E & H).
  - by vm_compute.
  - repeat constructor; vm_compute; congruence.
  - repeat constructor; vm_compute; congruence.
  - exists r, b'. split; [exact E|]. change (fChecked b) with false in H.
    replace (block_fine 100 40 24 16 toy_hash demo_rules true true b) with true in H by (vm_compute; reflexivity). exact H.
Defined.
