(* ===== verification/BlockContext.v ===== *)
(** What [ContextualCheckBlock] decides and what [GenerateCoinbaseCommitment]
    makes: the rules on a block after its predecessor, and the coinbase that
    commits to the witnesses. *)

From S2P Require Import Prelude Bytes BaseUint UintBytes Uint256 Serialize Codec Header Chain ChainSpec BlockTree Pow VersionBits Opcode Prevector ScriptNum Script Amount Transaction Merkle Block PubKey Compressor Coins CoinsView Undo State Connect Ledger Spend Rules RulesSpec Headers HeadersSpec BlockRules BlockRulesSpec.
Import Consensus.

(** ** The commitment of a coinbase *)

(** The script of the last output that commits. *)
Definition last_commitment (v : list CTxOut.t) : option CScript := last (filter (fun s => commits s = true) (map CTxOut.scriptPubKey v)).

Lemma commitment_loop_spec v : forall pre pos, Z.of_nat (length pre + length v) < 2 ^ 31 ->
  (match last_commitment pre with
   | Some s => 0 <= pos /\ exists o, pre !! Z.to_nat pos = Some o /\ CTxOut.scriptPubKey o = s
   | None => pos = -1
   end) ->
  let r := commitment_loop v (zlen pre) pos in
  match last_commitment (pre ++ v) with
  | Some s => 0 <= r /\ exists o, (pre ++ v) !! Z.to_nat r = Some o /\ CTxOut.scriptPubKey o = s
  | None => r = -1
  end.
Proof.
  induction v as [|o v IH]; intros pre pos Hl Hpre; cbn [commitment_loop]; [by rewrite app_nil_r|].
  specialize (IH (pre ++ [o])). rewrite <- app_assoc in IH. cbn [app] in IH.
  replace (zlen (pre ++ [o])) with (zlen pre + 1) in IH by (unfold zlen; rewrite length_app; cbn; lia).
  apply IH; [rewrite length_app; cbn [length] in *; lia|]. unfold last_commitment in *. rewrite map_app, filter_app. cbn [map].
  rewrite swrap_small by (unfold in_s, zlen; cbn [length] in Hl; lia).
  destruct (commits (CTxOut.scriptPubKey o)) eqn:E.
  - rewrite filter_cons_True, filter_nil, last_snoc by done. unfold zlen. rewrite Nat2Z.id. split; [lia|]. exists o.
    split; [|done]. by apply list_lookup_middle.
  - rewrite filter_cons_False, filter_nil, app_nil_r by (rewrite E; discriminate). clear IH. revert Hpre. destruct (last _) as [s|]; [|done].
    intros (H0 & x & Hx & Hs). split; [done|]. exists x. split; [|done]. by apply lookup_app_l_Some.
Qed.

Lemma commitment_index (c : CTransaction) rest b : vtx b = c :: rest -> Z.of_nat (length (vout c)) < 2 ^ 31 ->
  exists pos, GetWitnessCommitmentIndex b = Ok pos /\
    match last_commitment (vout c) with
    | Some s => 0 <= pos /\ exists o, vout c !! Z.to_nat pos = Some o /\ CTxOut.scriptPubKey o = s
    | None => pos = -1
    end.
Proof.
  intros Hv Hl. unfold GetWitnessCommitmentIndex. rewrite Hv. eexists. split; [done|].
  apply (commitment_loop_spec (vout c) [] (-1)); [cbn [length]; lia|done].
Qed.

Section context.
Context (be : bool) (sizeof_CTxIn sizeof_CTxOut sizeof_vector sizeof_ref : Z) (Hash : bytes -> uint256) (Hash_wf : forall x, wf256 (Hash x)) (params : Params).

(** ** The rules on witnesses *)

Definition witness_root (b : CBlock) : uint256 :=
  match Block.BlockWitnessMerkleRoot sizeof_CTxIn sizeof_CTxOut sizeof_vector Hash b with Ok (r, _) => r | _ => [] end.

(** The commitment opens with the nonce in the coinbase, if there is one; else
    there are no witnesses. *)
Definition witness_fine (active : bool) (b : CBlock) : bool :=
  match (if active then match vtx b with c :: _ => last_commitment (vout c) | [] => None end else None) with
  | None => forallb (fun t : CTransaction => negb (HasWitness t)) (vtx b)
  | Some s =>
      match vtx b with
      | c :: _ =>
          match vin c with
          | i :: _ =>
              match CScriptWitness.stack (CTxIn.scriptWitness i) with
              | [nonce] => (zlen nonce =? 32) && bool_decide (take 32 (drop 6 s) = pn_bytes (Hash (pn_bytes (witness_root b) ++ nonce)))
              | _ => false
              end
          | [] => false
          end
      | [] => false
      end
  end.

Definition context_reasons : list string :=
  ["bad-txns-nonfinal"; "bad-cb-height"; "bad-witness-nonce-size"; "bad-witness-merkle-match"; "unexpected-witness"; "bad-blk-weight"].

Ltac reject := apply DoS_reported; unfold context_reasons; rewrite !elem_of_cons; tauto.

Lemma witness_root_total (b : CBlock) : vtx b <> [] -> zlen (vtx b) <= 2 ^ 31 ->
  exists m, Block.BlockWitnessMerkleRoot sizeof_CTxIn sizeof_CTxOut sizeof_vector Hash b = Ok (witness_root b, m).
Proof.
  intros Hne Hl. unfold witness_root, Block.BlockWitnessMerkleRoot. destruct (vtx b) as [|t v]; [done|].
  match goal with |- context [ComputeMerkleRoot Hash ?l] => destruct (ComputeMerkleRoot_spec Hash l) as (r & m & _ & E & _) end;
    [unfold zlen in Hl; cbn [length] in *; rewrite length_map; lia|]. rewrite E. by exists m.
Qed.

Lemma memcmp_eq a b : length a = length b -> (memcmp a b =? 0) = bool_decide (b = a).
Proof.
  intros Hl. destruct (memcmp_cases a b Hl) as [[E ->]|[[E _]|[E _]]].
  - by rewrite E, bool_decide_true.
  - rewrite E, bool_decide_false; [done|]. intros ->. by rewrite memcmp_refl in E.
  - rewrite E, bool_decide_false; [done|]. intros ->. by rewrite memcmp_refl in E.
Qed.

Lemma commits_length s : commits s = true -> 38 <= zlen s.
Proof. unfold commits. intros H. bool_hyps. lia. Qed.

Lemma last_commitment_commits v s : last_commitment v = Some s -> commits s = true.
Proof.
  intros H%last_Some_elem_of. by apply list_elem_of_filter in H as [H _].
Qed.

(** The coinbase is there, and the lists are no longer than memory allows. *)
Definition has_coinbase (b : CBlock) : Prop :=
  exists c rest i, vtx b = c :: rest /\ vin c = [i] /\ zlen (vtx b) <= 2 ^ 31 /\ Z.of_nat (length (vout c)) < 2 ^ 31.

Lemma commitment_spec b c rest i pos o state : vtx b = c :: rest -> vin c = [i] -> zlen (vtx b) <= 2 ^ 31 ->
  vout c !! Z.to_nat pos = Some o -> commits (CTxOut.scriptPubKey o) = true ->
  exists report, check_commitment sizeof_CTxIn sizeof_CTxOut sizeof_vector Hash b pos state = Ok report /\
    if match CScriptWitness.stack (CTxIn.scriptWitness i) with
       | [nonce] => (zlen nonce =? 32) && bool_decide (take 32 (drop 6 (CTxOut.scriptPubKey o)) = pn_bytes (Hash (pn_bytes (witness_root b) ++ nonce)))
       | _ => false
       end
    then report = None else exists rep, report = Some rep /\ reported context_reasons state rep.
Proof.
  intros Hv Hi Hl Ho Hc. destruct (witness_root_total b) as [m E]; [by rewrite Hv|done|]. unfold check_commitment. rewrite E. cbn [res_bind].
  rewrite Hv, Hi. destruct (CScriptWitness.stack _) as [|nonce [|]]; [eexists; split; [done|]; eexists; split; [done|]; reject| |
    eexists; split; [done|]; eexists; split; [done|]; reject].
  destruct (zlen nonce =? 32); cbn [andb]; [|eexists; split; [done|]; eexists; split; [done|]; reject]. rewrite Ho.
  rewrite memcmp_eq.
  2: { rewrite length_pn_bytes, (wf_length WIDTH256) by apply Hash_wf. apply commits_length in Hc. unfold zlen in Hc.
       rewrite length_take, length_drop. unfold WIDTH256. lia. }
  destruct (bool_decide _); cbn [negb]; [by eexists|]. eexists; split; [done|]. eexists; split; [done|]. reject.
Qed.

Lemma witness_fine_eq (active : bool) b c rest i : vtx b = c :: rest -> vin c = [i] ->
  witness_fine active b =
    match (if active then last_commitment (vout c) else None) with
    | None => forallb (fun t : CTransaction => negb (HasWitness t)) (vtx b)
    | Some s =>
        match CScriptWitness.stack (CTxIn.scriptWitness i) with
        | [nonce] => (zlen nonce =? 32) && bool_decide (take 32 (drop 6 s) = pn_bytes (Hash (pn_bytes (witness_root b) ++ nonce)))
        | _ => false
        end
    end.
Proof. intros Hv Hi. unfold witness_fine. by rewrite Hv, Hi. Qed.

Lemma witness_spec b active state : has_coinbase b ->
  exists report, check_witness sizeof_CTxIn sizeof_CTxOut sizeof_vector Hash b active state = Ok report /\
    if witness_fine active b then report = None else exists rep, report = Some rep /\ reported context_reasons state rep.
Proof.
  intros (c & rest & i & Hv & Hi & Hl & Hlen). rewrite (witness_fine_eq active b c rest i Hv Hi). unfold check_witness.
  assert (forall fHave : bool, fHave = false -> exists report,
    (if negb fHave && existsb (fun tx : CTransaction => HasWitness tx) (vtx b)
     then Ok (Some (CValidationState.DoS 100 false REJECT_INVALID "unexpected-witness" true "%s : unexpected witness data found" state))
     else Ok None) = Ok report /\
    if forallb (fun t : CTransaction => negb (HasWitness t)) (vtx b) then report = None
    else exists rep, report = Some rep /\ reported context_reasons state rep) as Hnone.
  { intros fHave ->. cbn [negb andb]. rewrite existsb_negb. destruct (forallb _ _); cbn [negb]; [by eexists|].
    eexists; split; [done|]. eexists; split; [done|]. reject. }
  destruct active; [|cbn [res_bind]; by apply Hnone]. destruct (commitment_index c rest b Hv Hlen) as (pos & -> & Hpos). cbn [res_bind].
  destruct (last_commitment (vout c)) as [s|] eqn:Es.
  - destruct Hpos as (H0 & o & Ho & <-). rewrite (proj2 (Z.eqb_neq pos (-1))) by lia. cbn [negb].
    destruct (commitment_spec b c rest i pos o state Hv Hi Hl Ho (last_commitment_commits _ _ Es)) as (report & -> & Hr). cbn [res_bind].
    destruct (match CScriptWitness.stack _ with [nonce] => _ | _ => _ end); [subst report; cbn [negb andb]; by eexists|].
    destruct Hr as (rep & -> & Hr). eexists. split; [done|]. by exists rep.
  - subst pos. cbn [Z.eqb negb res_bind]. by apply Hnone.
Qed.

(** ** The states of the deployments *)

Definition deployments_ok (st : gmap nat CBlockIndex) : Prop := forall pos, @deployment_ok (VersionBitsConditionChecker params pos) st.
Definition caches_ok (st : gmap nat CBlockIndex) (cache : VersionBitsCache) : Prop :=
  forall pos, @VersionBits.cache_ok (VersionBitsConditionChecker params pos) st (caches cache pos).

(** The state of a deployment for the block after [q]. *)
Definition deployment_state (st : gmap nat CBlockIndex) (pos : DeploymentPos) (q : nat) (bq : CBlockIndex) : ThresholdState :=
  match @period_parent (VersionBitsConditionChecker params pos) st q with
  | Ok p => @VersionBits.spec (VersionBitsConditionChecker params pos) st (Z.to_nat ((Chain.nHeight bq + 1) / i32 (nMinerConfirmationWindow params))) p
  | _ => THRESHOLD_DEFINED
  end.

Lemma state_spec st pos q bq cache : deployments_ok st -> st !! q = Some bq -> caches_ok st cache ->
  exists cache', VersionBitsState st (Some q) params pos cache = Ok (deployment_state st pos q bq, cache') /\ caches_ok st cache'.
Proof.
  intros Hd Hq Hc. destruct (@GetStateFor_spec (VersionBitsConditionChecker params pos) st (Hd pos) q bq (caches cache pos) Hq (Hc pos)) as (p & c' & Ep & _ & E & Hc').
  unfold VersionBitsState. rewrite E. cbn [res_bind]. eexists. split; [unfold deployment_state; rewrite Ep; done|].
  intros d. cbn [caches set_cache]. destruct (decide (d = pos)) as [->|]; [done|apply Hc].
Qed.

(** ** ContextualCheckBlock *)

Definition coinbase_script (b : CBlock) : CScript :=
  match vtx b with c :: _ => match vin c with i :: _ => CTxIn.scriptSig i | [] => [] end | [] => [] end.

(** The time lock times are compared with: BIP 113 once its deployment is active. *)
Definition cutoff (st : gmap nat CBlockIndex) (q : nat) (bq : CBlockIndex) (b : CBlock) : Z :=
  if bool_decide (deployment_state st DEPLOYMENT_CSV q bq = THRESHOLD_ACTIVE) then mtp st q else Header.nTime b.

Definition context_fine (st : gmap nat CBlockIndex) (q : nat) (bq : CBlockIndex) (b : CBlock) : bool :=
  forallb (fun t : CTransaction => IsFinalTx t (Chain.nHeight bq + 1) (cutoff st q bq b)) (vtx b) &&
  (negb (BIP34Height params <=? Chain.nHeight bq + 1) || bool_decide (push_int64 be (Chain.nHeight bq + 1) [] `prefix_of` coinbase_script b)) &&
  witness_fine (bool_decide (deployment_state st DEPLOYMENT_SEGWIT q bq = THRESHOLD_ACTIVE)) b &&
  (Block.GetBlockWeight sizeof_CTxIn sizeof_CTxOut sizeof_vector sizeof_ref Hash b <=? MAX_BLOCK_WEIGHT).

Lemma forallb_ext {A} (f g : A -> bool) l : (forall x, f x = g x) -> forallb f l = forallb g l.
Proof. intros H. induction l as [|x l IH]; [done|]. cbn [forallb]. by rewrite H, IH. Qed.

Lemma prefix_take (e s : bytes) : negb (zlen s <? zlen e) && bool_decide (take (length e) s = e) = bool_decide (e `prefix_of` s).
Proof.
  apply eq_true_iff_eq. rewrite andb_true_iff, !bool_decide_eq_true, negb_true_iff, Z.ltb_ge. split.
  - intros [_ E]. exists (drop (length e) s). by rewrite <- E at 1; rewrite take_drop.
  - intros [k ->]. split; [unfold zlen; rewrite length_app; lia|by rewrite take_app_length].
Qed.

Lemma context_spec st q bq b state cache : deployments_ok st -> st !! q = Some bq -> Chain.nHeight bq + 1 < 2 ^ 31 -> caches_ok st cache -> has_coinbase b ->
  exists r cache', ContextualCheckBlock be sizeof_CTxIn sizeof_CTxOut sizeof_vector sizeof_ref Hash params st b state (Some q) cache = Ok (r, cache') /\
    caches_ok st cache' /\ if context_fine st q bq b then r = (true, state) else reported context_reasons state r.
Proof.
  intros Hd Hq Hh Hc Hb. pose proof (ok_store st (Hd DEPLOYMENT_CSV)) as Hst. pose proof (wf_height st Hst q bq Hq).
  unfold ContextualCheckBlock. rewrite (deref_Some _ _ _ Hq). cbn [res_bind]. rewrite swrap_small by (unfold in_s; lia).
  destruct (state_spec st DEPLOYMENT_CSV q bq cache Hd Hq Hc) as (c1 & -> & Hc1). cbn [res_bind].
  assert ((if negb (Z.land (if bool_decide (deployment_state st DEPLOYMENT_CSV q bq = THRESHOLD_ACTIVE) then Z.lor 0 LOCKTIME_MEDIAN_TIME_PAST else 0) LOCKTIME_MEDIAN_TIME_PAST =? 0)
    then BlockIndex.GetMedianTimePast st q else Ok (Header.GetBlockTime b)) = Ok (cutoff st q bq b)) as ->.
  { unfold cutoff. destruct (bool_decide _); [|done]. by apply (mtp_spec st (Hd DEPLOYMENT_CSV) q bq). }
  cbn [res_bind]. unfold context_fine. rewrite existsb_negb.
  rewrite (forallb_ext _ (fun t : CTransaction => IsFinalTx t (Chain.nHeight bq + 1) (cutoff st q bq b))) by (intros; apply negb_involutive).
  destruct (forallb _ (vtx b)); cbn [negb andb]. 2: { eexists _, c1. split; [done|]. split; [done|reject]. }
  assert ((if BIP34Height params <=? Chain.nHeight bq + 1 then starts_with_height be b (Chain.nHeight bq + 1) else Ok true) =
    Ok (negb (BIP34Height params <=? Chain.nHeight bq + 1) || bool_decide (push_int64 be (Chain.nHeight bq + 1) [] `prefix_of` coinbase_script b))) as ->.
  { destruct (_ <=? _); cbn [negb orb]; [|done]. destruct Hb as (c & rest & i & Hv & Hi & _). unfold starts_with_height, coinbase_script.
    rewrite Hv, Hi. by rewrite prefix_take. }
  cbn [res_bind]. destruct (negb (BIP34Height params <=? _) || _); cbn [negb andb]. 2: { eexists _, c1. split; [done|]. split; [done|reject]. }
  destruct (state_spec st DEPLOYMENT_SEGWIT q bq c1 Hd Hq Hc1) as (c2 & -> & Hc2). cbn [res_bind].
  destruct (witness_spec b (bool_decide (deployment_state st DEPLOYMENT_SEGWIT q bq = THRESHOLD_ACTIVE)) state Hb) as (report & -> & Hr). cbn [res_bind].
  destruct (witness_fine _ b); cbn [andb]. 2: { destruct Hr as (rep & -> & Hr). by exists rep, c2. }
  subst report. rewrite (Z.leb_antisym MAX_BLOCK_WEIGHT). destruct (MAX_BLOCK_WEIGHT <? _); cbn [negb]; eexists _, c2; (split; [done|]); (split; [done|]); [reject|done].
Qed.

(** ** GenerateCoinbaseCommitment *)

(** The coinbase with the commitment and the nonce. *)
Definition commitment_script (b : CBlock) : CScript :=
  [value OP_RETURN; 0x24; 0xaa; 0x21; 0xa9; 0xed] ++ pn_bytes (Hash (pn_bytes (witness_root b) ++ replicate 32 0)).
Definition committed (b : CBlock) (c : CTransaction) (rest : list CTransaction) (i : CTxIn.t) : CBlock :=
  set_vtx (make_ref sizeof_CTxIn sizeof_CTxOut sizeof_vector Hash
    (mk_tx (nVersion c) [CTxIn.set_witness [replicate 32 0] i] (vout c ++ [CTxOut.mk 0 (commitment_script b)]) (nLockTime c)) :: rest) b.

Lemma commitment_commits b : commits (commitment_script b) = true.
Proof.
  unfold commits. apply andb_true_iff. split; [|by rewrite bool_decide_true].
  apply Z.leb_le. unfold commitment_script, zlen. rewrite length_app, length_pn_bytes. pose proof (wf_length WIDTH256 _ (Hash_wf (pn_bytes (witness_root b) ++ replicate 32 0))) as ->. by vm_compute.
Qed.

Lemma witness_root_rest b c rest c' : vtx b = c :: rest -> witness_root (set_vtx (c' :: rest) b) = witness_root b.
Proof. intros Hv. unfold witness_root, Block.BlockWitnessMerkleRoot. by rewrite Hv. Qed.

Lemma last_commitment_snoc v s a : commits s = true -> last_commitment (v ++ [CTxOut.mk a s]) = Some s.
Proof.
  intros H. unfold last_commitment. rewrite map_app, filter_app. cbn [map CTxOut.scriptPubKey].
  by rewrite filter_cons_True, filter_nil, last_snoc by done.
Qed.

Lemma generate_spec st b c rest i q bq cache : deployments_ok st -> st !! q = Some bq -> caches_ok st cache ->
  nTimeout (vDeployments params DEPLOYMENT_SEGWIT) <> 0 -> deployment_state st DEPLOYMENT_SEGWIT q bq = THRESHOLD_ACTIVE ->
  vtx b = c :: rest -> vin c = [i] -> HasWitness c = false -> zlen (vtx b) <= 2 ^ 31 -> Z.of_nat (length (vout c)) + 1 < 2 ^ 31 ->
  last_commitment (vout c) = None ->
  exists cache', GenerateCoinbaseCommitment sizeof_CTxIn sizeof_CTxOut sizeof_vector Hash params st b (Some q) cache =
      Ok (commitment_script b, committed b c rest i, cache') /\ caches_ok st cache'.
Proof.
  intros Hd Hq Hc Ht Hact Hv Hi Hw Hl Hlen Hnone. unfold GenerateCoinbaseCommitment.
  destruct (commitment_index c rest b Hv ltac:(lia)) as (pos & -> & Hpos). rewrite Hnone in Hpos. subst pos. cbn [res_bind].
  rewrite (proj2 (Z.eqb_neq _ _) Ht). cbn [negb andb Z.eqb Pos.eqb].
  destruct (witness_root_total b) as [m ->]; [by rewrite Hv|done|]. cbn [res_bind]. rewrite Hv. cbn [res_bind]. fold (commitment_script b).
  unfold UpdateUncommittedBlockStructures. set (tx := mk_tx (nVersion c) (vin c) _ (nLockTime c)).
  destruct (commitment_index (make_ref sizeof_CTxIn sizeof_CTxOut sizeof_vector Hash tx) rest (set_vtx (make_ref sizeof_CTxIn sizeof_CTxOut sizeof_vector Hash tx :: rest) b)) as (pos & -> & Hpos);
    [done|cbn; rewrite length_app; cbn; lia|]. cbn [make_ref make_transaction Transaction.tx tx vout] in Hpos.
  rewrite last_commitment_snoc in Hpos by apply commitment_commits. destruct Hpos as [H0 _]. cbn [res_bind].
  rewrite (proj2 (Z.eqb_neq pos (-1))) by lia. unfold IsWitnessEnabled.
  destruct (state_spec st DEPLOYMENT_SEGWIT q bq cache Hd Hq Hc) as (c1 & -> & Hc1). cbn [res_bind]. rewrite Hact, bool_decide_true by done.
  cbn [set_vtx vtx make_ref make_transaction Transaction.tx]. change (HasWitness tx) with (HasWitness c).
  rewrite Hw. cbn [andb negb]. change (vin tx) with (vin c). rewrite Hi. cbn [res_bind]. exists c1. by split.
Qed.
End context.

(** ** Properties *)

(** C21: [ContextualCheckBlock] after a block of a tree that obeys the rules
    returns and keeps the cache of deployment states right: it accepts, leaving
    the validation state as it was, exactly when every transaction is final at
    the new height (at the median time once BIP 113 is active, at the block time
    before), the coinbase starts with the height once BIP 34 is in force, the
    last witness commitment opens with the coinbase nonce once the witnesses are
    active (and there are no witnesses without a commitment), and the weight is
    within the limit; the rest is reported. *)
Theorem ContextualCheckBlock_correct (be : bool) (s1 s2 s3 s4 : Z) (Hash : bytes -> uint256) (params : Params)
  (st : gmap nat CBlockIndex) (q : nat) (bq : CBlockIndex) (b : CBlock) (state : CValidationState.t) (cache : VersionBitsCache) :
  (forall x, wf256 (Hash x)) -> deployments_ok params st -> st !! q = Some bq -> Chain.nHeight bq + 1 < 2 ^ 31 ->
  caches_ok params st cache -> has_coinbase b ->
  exists r cache', ContextualCheckBlock be s1 s2 s3 s4 Hash params st b state (Some q) cache = Ok (r, cache') /\
    caches_ok params st cache' /\
    if context_fine be s1 s2 s3 s4 Hash params st q bq b then r = (true, state) else reported context_reasons state r.
Proof. intros. by apply context_spec. Qed.

(** C21: [GenerateCoinbaseCommitment], on a block template whose coinbase has
    neither witness nor commitment, after a block with active witnesses, appends
    one output of no value with the commitment and sets the nonce; all other
    transactions stay, and the result passes the check of the commitment in
    [ContextualCheckBlock], whatever witnesses the transactions have. *)
Theorem GenerateCoinbaseCommitment_correct (s1 s2 s3 : Z) (Hash : bytes -> uint256) (params : Params)
  (st : gmap nat CBlockIndex) (q : nat) (bq : CBlockIndex) (b : CBlock) (c : CTransaction) (rest : list CTransaction) (i : CTxIn.t)
  (state : CValidationState.t) (cache : VersionBitsCache) :
  (forall x, wf256 (Hash x)) -> deployments_ok params st -> st !! q = Some bq -> caches_ok params st cache ->
  nTimeout (vDeployments params DEPLOYMENT_SEGWIT) <> 0 -> deployment_state params st DEPLOYMENT_SEGWIT q bq = THRESHOLD_ACTIVE ->
  vtx b = c :: rest -> vin c = [i] -> HasWitness c = false -> zlen (vtx b) <= 2 ^ 31 -> Z.of_nat (length (vout c)) + 1 < 2 ^ 31 ->
  last_commitment (vout c) = None ->
  exists commitment b' cache', GenerateCoinbaseCommitment s1 s2 s3 Hash params st b (Some q) cache = Ok (commitment, b', cache') /\
    caches_ok params st cache' /\
    header b' = header b /\ (exists c', vtx b' = c' :: rest /\ vout c' = vout c ++ [CTxOut.mk 0 commitment] /\
      map CTxIn.prevout (vin c') = map CTxIn.prevout (vin c) /\ map CTxIn.scriptSig (vin c') = map CTxIn.scriptSig (vin c)) /\
    check_witness s1 s2 s3 Hash b' true state = Ok None.
Proof.
  intros Hw Hd Hq Hc Ht Ha Hv Hi Hn Hl Hlen Hnone.
  destruct (generate_spec s1 s2 s3 Hash Hw params st b c rest i q bq cache Hd Hq Hc Ht Ha Hv Hi Hn Hl Hlen Hnone) as (cache' & E & Hc').
  exists (commitment_script s1 s2 s3 Hash b), (committed s1 s2 s3 Hash b c rest i), cache'. split_and!; [done|done|done| |].
  - eexists. split; [done|]. by rewrite Hi.
  - set (b' := committed s1 s2 s3 Hash b c rest i).
    destruct (witness_spec s1 s2 s3 Hash Hw b' true state) as (report & E' & Hr).
    + do 3 eexists. split; [done|]. split; [done|]. split; [|cbn; rewrite length_app; cbn; lia].
      unfold zlen in *. rewrite Hv in Hl. exact Hl.
    + assert (witness_fine s1 s2 s3 Hash true b' = true) as Hf; [|rewrite Hf in Hr; by rewrite E', Hr].
      set (c' := make_ref s1 s2 s3 Hash (mk_tx (nVersion c) [CTxIn.set_witness [replicate 32 0] i] (vout c ++ [CTxOut.mk 0 (commitment_script s1 s2 s3 Hash b)]) (nLockTime c))).
      rewrite (witness_fine_eq s1 s2 s3 Hash true b' c' rest (CTxIn.set_witness [replicate 32 0] i) eq_refl eq_refl).
      change (vout c') with (vout c ++ [CTxOut.mk 0 (commitment_script s1 s2 s3 Hash b)]).
      rewrite last_commitment_snoc by by apply commitment_commits. cbn [CTxIn.set_witness CTxIn.scriptWitness CScriptWitness.stack].
      change b' with (set_vtx (c' :: rest) b). rewrite (witness_root_rest s1 s2 s3 Hash b c rest c' Hv). apply andb_true_iff. split; [done|]. apply bool_decide_eq_true.
      unfold commitment_script. rewrite drop_app_length' by done. apply take_ge. rewrite length_pn_bytes.
      by rewrite (wf_length WIDTH256 _ (Hw _)).
Qed.

(** Four headers that signal, with a window of one block, so that the witnesses
    are active for the fifth. *)
Definition demo_signal (prev : uint256) (time : Z) : CBlockHeader := {| Header.nVersion := 0x30000000; Header.hashPrevBlock := prev;
  Header.hashMerkleRoot := base_uint_zero 8; Header.nTime := time; Header.nBits := 0x1c00ffff; Header.nNonce := 0 |}.
Definition demo_chain_headers : list CBlockHeader :=
  let h := Header.GetHash BlockTree.toy_hash in
  let g := demo_signal (base_uint_zero 8) 10 in let a := demo_signal (h g) 20 in let b := demo_signal (h a) 30 in [g; a; b; demo_signal (h b) 40].
Definition demo_active_params : Params := {|
  hashGenesisBlock := Header.GetHash BlockTree.toy_hash (demo_signal (base_uint_zero 8) 10); nSubsidyHalvingInterval := 150; BIP34Height := 0;
  BIP34Hash := base_uint_zero 8; BIP65Height := 0; BIP66Height := 0; nRuleChangeActivationThreshold := 1;
  nMinerConfirmationWindow := 1;
  vDeployments := fun _ => {| bit := 28; nStartTime := 5; nTimeout := 1000 |};
  powLimit := replicate 7 0xffffffff ++ [0]; fPowAllowMinDifficultyBlocks := false; fPowNoRetargeting := true;
  nPowTargetSpacing := 10; nPowTargetTimespan := 40; nMinimumChainWork := base_uint_zero 8;
  defaultAssumeValid := base_uint_zero 8 |}.
Definition demo_signal_index : block_index :=
  match AddToBlockIndex BlockTree.toy_hash (demo_signal (base_uint_zero 8) 10) empty_index with Ok (_, s) => s | _ => empty_index end.
Definition demo_active_index : block_index :=
  match ProcessNewBlockHeaders BlockTree.toy_hash demo_active_params false [] 1000 (tail demo_chain_headers) (mk_accepted true CValidationState.make None demo_signal_index) with
  | Ok r => index_out r | _ => empty_index end.

Lemma demo_active_rules : tree_rules BlockTree.toy_hash demo_active_params demo_active_index.
Proof.
  assert (params_ok demo_active_params) as Hp by (split; [split; [done|]; repeat constructor; done|done|done|by vm_compute]).
  assert (Forall Header.wf_header demo_chain_headers) as Hw by (repeat constructor; vm_compute; congruence).
  destruct (genesis_rules BlockTree.toy_hash demo_active_params (demo_signal (base_uint_zero 8) 10)) as (a & s & E & Hs & Hm & Hr);
    [exact (Forall_inv Hw)|by vm_compute|done|by vm_compute|].
  assert (demo_signal_index = s) as Es by (unfold demo_signal_index; by rewrite E).
  unfold demo_active_index. rewrite Es.
  destruct (process_spec BlockTree.toy_hash demo_active_params Hp false [] 1000 ltac:(unfold in_s; lia) (tail demo_chain_headers) (mk_accepted true CValidationState.make None s))
    as (r & -> & Hs' & _); [exact Hs|exact (Forall_inv_tail Hw)|by apply (room_le _ (2 ^ 31 - 2))|by exists a|exact Hs'].
Qed.

Lemma demo_active_deployments : deployments_ok demo_active_params (heap demo_active_index).
Proof. intros pos. apply (tree_deployment BlockTree.toy_hash); [exact demo_active_rules|by vm_compute|by vm_compute]. Qed.

(** The template of the fifth block, with a transaction that has a witness. *)
Definition demo_template : CBlock :=
  mk_block (demo_signal (Header.GetHash BlockTree.toy_hash (demo_signal (base_uint_zero 8) 40)) 50)
    [demo_coinbase_tx 84; make_transaction 100 40 24 Merkle.toy_hash demo_tx] false.
Definition demo_no_states : VersionBitsCache := {| caches := fun _ => ∅ |}.

Definition demo_last : nat := match mapBlockIndex demo_active_index !! Header.GetHash BlockTree.toy_hash (List.last demo_chain_headers Header.SetNull) with Some a => a | None => 0%nat end.

Lemma demo_last_spec : exists bq, heap demo_active_index !! demo_last = Some bq /\ Chain.nHeight bq = 3 /\
  deployment_state demo_active_params (heap demo_active_index) DEPLOYMENT_SEGWIT demo_last bq = THRESHOLD_ACTIVE.
Proof.
  assert (match heap demo_active_index !! demo_last with
    | Some bq => (Chain.nHeight bq =? 3) && bool_decide (deployment_state demo_active_params (heap demo_active_index) DEPLOYMENT_SEGWIT demo_last bq = THRESHOLD_ACTIVE)
    | None => false end = true) as H by (vm_compute; reflexivity).
  destruct (heap demo_active_index !! demo_last) as [bq|]; [|discriminate H]. apply andb_true_iff in H as [H1 H2].
  exists bq. split; [reflexivity|]. split; [by apply Z.eqb_eq|by apply bool_decide_eq_true in H2].
Qed.

Lemma no_states_ok params st : caches_ok params st demo_no_states.
Proof. intros pos. apply map_Forall_empty. Qed.

Lemma GenerateCoinbaseCommitment_correct_witness :
  exists commitment b' cache', GenerateCoinbaseCommitment 100 40 24 Merkle.toy_hash demo_active_params (heap demo_active_index) demo_template (Some demo_last) demo_no_states =
      Ok (commitment, b', cache') /\ check_witness 100 40 24 Merkle.toy_hash b' true CValidationState.make = Ok None /\
      check_witness 100 40 24 Merkle.toy_hash demo_template true CValidationState.make <> Ok None.
Proof.
  destruct demo_last_spec as (bq & Hq & Hh & Ha).
  destruct (GenerateCoinbaseCommitment_correct 100 40 24 Merkle.toy_hash demo_active_params (heap demo_active_index) demo_last bq demo_template
    (demo_coinbase_tx 84) [make_transaction 100 40 24 Merkle.toy_hash demo_tx] (CTxIn.make COutPoint.make [84; 1] SEQUENCE_FINAL) CValidationState.make demo_no_states)
    as (commitment & b' & cache' & E & _ & _ & _ & H).
  - exact Merkle.toy_hash_wf.
  - exact demo_active_deployments.
  - exact Hq.
  - apply no_states_ok.
  - vm_compute. congruence.
  - exact Ha.
  - reflexivity.
  - reflexivity.
  - reflexivity.
  - by vm_compute.
  - by vm_compute.
  - reflexivity.
  - exists commitment, b', cache'. split; [exact E|]. split; [exact H|]. vm_compute. congruence.
Defined.

(** The block with the commitment is accepted. *)
Definition demo_committed : CBlock :=
  match GenerateCoinbaseCommitment 100 40 24 Merkle.toy_hash demo_active_params (heap demo_active_index) demo_template (Some demo_last) demo_no_states with
  | Ok (_, b, _) => b | _ => demo_template end.

Lemma ContextualCheckBlock_correct_witness :
  exists r cache', ContextualCheckBlock false 100 40 24 16 Merkle.toy_hash demo_active_params (heap demo_active_index) demo_committed CValidationState.make (Some demo_last) demo_no_states = Ok (r, cache') /\
    caches_ok demo_active_params (heap demo_active_index) cache' /\ r = (true, CValidationState.make).
Proof.
  destruct demo_last_spec as (bq & Hq & Hh & Ha).
  destruct (ContextualCheckBlock_correct false 100 40 24 16 Merkle.toy_hash demo_active_params (heap demo_active_index) demo_last bq demo_committed CValidationState.make demo_no_states)
    as (r & cache' & E & Hc & H).
  - exact Merkle.toy_hash_wf.
  - exact demo_active_deployments.
  - exact Hq.
  - rewrite Hh. by vm_compute.
  - apply no_states_ok.
  - do 3 eexists. split; [vm_compute; reflexivity|]. split; [reflexivity|]. split; by vm_compute.
  - exists r, cache'. split; [exact E|]. split; [exact Hc|].
    assert (match heap demo_active_index !! demo_last with
      | Some bq => context_fine false 100 40 24 16 Merkle.toy_hash demo_active_params (heap demo_active_index) demo_last bq demo_committed
      | None => false end = true) as Hf by (vm_compute; reflexivity).
    rewrite Hq in Hf. rewrite Hf in H. exact H.
Defined.
