(* ===== verification/Interpreter.v ===== *)
(** The script machine: [EvalScript] and the checks of encodings of
    src/sige/src/script/interpreter.cpp.

    A vector that the code uses as a stack is a list with its back first, so
    that [stacktop(-i)] is element [i - 1].  [set_error] and [set_success] are the
    two cases of a result; an exception is a [Throw], which [EvalScript] catches,
    and a failed assertion is not caught.  The hash functions of src/sige/crypto,
    the curve library and the signature checker are parameters.  A script that
    fails leaves its stack behind in the code; no caller looks at it, and a
    failure is only its error here. *)

From S2P Require Import Prelude Bytes BaseUint UintBytes Uint256 Serialize Codec Prevector ScriptNum Opcode Script Amount Transaction PubKey Rules.

(** The hash functions of src/sige/crypto. *)
Class Hashes := {
  RIPEMD160 : bytes -> bytes;
  SHA1 : bytes -> bytes;
  SHA256 : bytes -> bytes;
}.

(** [CHash160] and [CHash256] of hash.h. *)
Definition Hash160 `{!Hashes} (data : bytes) : bytes := RIPEMD160 (SHA256 data).
Definition Hash256 `{!Hashes} (data : bytes) : bytes := SHA256 (SHA256 data).

Inductive ScriptError :=
| SCRIPT_ERR_OK | SCRIPT_ERR_UNKNOWN_ERROR | SCRIPT_ERR_EVAL_FALSE | SCRIPT_ERR_OP_RETURN
| SCRIPT_ERR_SCRIPT_SIZE | SCRIPT_ERR_PUSH_SIZE | SCRIPT_ERR_OP_COUNT | SCRIPT_ERR_STACK_SIZE
| SCRIPT_ERR_SIG_COUNT | SCRIPT_ERR_PUBKEY_COUNT
| SCRIPT_ERR_VERIFY | SCRIPT_ERR_EQUALVERIFY | SCRIPT_ERR_CHECKMULTISIGVERIFY
| SCRIPT_ERR_CHECKSIGVERIFY | SCRIPT_ERR_NUMEQUALVERIFY
| SCRIPT_ERR_BAD_OPCODE | SCRIPT_ERR_DISABLED_OPCODE | SCRIPT_ERR_INVALID_STACK_OPERATION
| SCRIPT_ERR_INVALID_ALTSTACK_OPERATION | SCRIPT_ERR_UNBALANCED_CONDITIONAL
| SCRIPT_ERR_NEGATIVE_LOCKTIME | SCRIPT_ERR_UNSATISFIED_LOCKTIME
| SCRIPT_ERR_SIG_HASHTYPE | SCRIPT_ERR_SIG_DER | SCRIPT_ERR_MINIMALDATA | SCRIPT_ERR_SIG_PUSHONLY
| SCRIPT_ERR_SIG_HIGH_S | SCRIPT_ERR_SIG_NULLDUMMY | SCRIPT_ERR_PUBKEYTYPE | SCRIPT_ERR_CLEANSTACK
| SCRIPT_ERR_MINIMALIF | SCRIPT_ERR_SIG_NULLFAIL
| SCRIPT_ERR_DISCOURAGE_UPGRADABLE_NOPS | SCRIPT_ERR_DISCOURAGE_UPGRADABLE_WITNESS_PROGRAM
| SCRIPT_ERR_WITNESS_PROGRAM_WRONG_LENGTH | SCRIPT_ERR_WITNESS_PROGRAM_WITNESS_EMPTY
| SCRIPT_ERR_WITNESS_PROGRAM_MISMATCH | SCRIPT_ERR_WITNESS_MALLEATED | SCRIPT_ERR_WITNESS_MALLEATED_P2SH
| SCRIPT_ERR_WITNESS_UNEXPECTED | SCRIPT_ERR_WITNESS_PUBKEYTYPE
| SCRIPT_ERR_ERROR_COUNT.

#[export] Instance ScriptError_eq_dec : EqDecision ScriptError.
Proof. solve_decision. Defined.

(** [return set_error(serror, e)], or go on with a value. *)
Definition eval (A : Type) : Type := res (ScriptError + A).
Definition fail {A} (e : ScriptError) : eval A := Ok (inl e).
Definition ret {A} (a : A) : eval A := Ok (inr a).
Definition eval_bind {A B} (m : eval A) (k : A -> eval B) : eval B :=
  let? r := m in match r with inl e => fail e | inr a => k a end.
Notation "'let*' x := m 'in' k" := (eval_bind m (fun x => k))
  (at level 10, x pattern, m at level 100, k at level 200) : sige_scope.
(** A call that may throw or fail an assertion, but sets no error. *)
Definition lift {A} (m : res A) : eval A := let? a := m in ret a.

(** [flags & f] as a condition. *)
Definition has (flags f : Z) : bool := negb (Z.land flags f =? 0).

Definition SIGHASH_ALL : Z := 1.
Definition SIGHASH_NONE : Z := 2.
Definition SIGHASH_SINGLE : Z := 3.
Definition SIGHASH_ANYONECANPAY : Z := 0x80.

Definition SCRIPT_VERIFY_STRICTENC : Z := Z.shiftl 1 1.
Definition SCRIPT_VERIFY_DERSIG : Z := Z.shiftl 1 2.
Definition SCRIPT_VERIFY_LOW_S : Z := Z.shiftl 1 3.
Definition SCRIPT_VERIFY_NULLDUMMY : Z := Z.shiftl 1 4.
Definition SCRIPT_VERIFY_SIGPUSHONLY : Z := Z.shiftl 1 5.
Definition SCRIPT_VERIFY_MINIMALDATA : Z := Z.shiftl 1 6.
Definition SCRIPT_VERIFY_DISCOURAGE_UPGRADABLE_NOPS : Z := Z.shiftl 1 7.
Definition SCRIPT_VERIFY_CLEANSTACK : Z := Z.shiftl 1 8.
Definition SCRIPT_VERIFY_CHECKLOCKTIMEVERIFY : Z := Z.shiftl 1 9.
Definition SCRIPT_VERIFY_CHECKSEQUENCEVERIFY : Z := Z.shiftl 1 10.
Definition SCRIPT_VERIFY_DISCOURAGE_UPGRADABLE_WITNESS_PROGRAM : Z := Z.shiftl 1 12.
Definition SCRIPT_VERIFY_MINIMALIF : Z := Z.shiftl 1 13.
Definition SCRIPT_VERIFY_NULLFAIL : Z := Z.shiftl 1 14.
Definition SCRIPT_VERIFY_WITNESS_PUBKEYTYPE : Z := Z.shiftl 1 15.

Inductive SigVersion := SIGVERSION_BASE | SIGVERSION_WITNESS_V0.

#[export] Instance SigVersion_eq_dec : EqDecision SigVersion.
Proof. solve_decision. Defined.

(** [BaseSignatureChecker]: what a checker answers. *)
Class SignatureChecker := {
  CheckSig : bytes -> bytes -> CScript -> SigVersion -> res bool;
  CheckLockTime : Z -> res bool;
  CheckSequence : Z -> res bool;
}.

(** The base class itself answers false. *)
Definition BaseSignatureChecker : SignatureChecker := {|
  CheckSig _ _ _ _ := Ok false; CheckLockTime _ := Ok false; CheckSequence _ := Ok false |}.

(** ** Encodings *)

(** The loop of [CastToBool]: a byte that is not zero decides. *)
Fixpoint CastToBool (vch : bytes) : bool :=
  match vch with
  | [] => false
  | b :: vch =>
      if negb (b =? 0) then
        match vch with
        | [] => negb (b =? 0x80)
        | _ => true
        end
      else CastToBool vch
  end.

Definition byte_at (v : bytes) (i : Z) : Z := v.[Z.to_nat i].

Definition IsCompressedOrUncompressedPubKey (vchPubKey : bytes) : bool :=
  if zlen vchPubKey <? 33 then false
  else if byte_at vchPubKey 0 =? 0x04 then zlen vchPubKey =? 65
  else if (byte_at vchPubKey 0 =? 0x02) || (byte_at vchPubKey 0 =? 0x03) then zlen vchPubKey =? 33
  else false.

Definition IsCompressedPubKey (vchPubKey : bytes) : bool :=
  if negb (zlen vchPubKey =? 33) then false
  else (byte_at vchPubKey 0 =? 0x02) || (byte_at vchPubKey 0 =? 0x03).

Definition IsValidSignatureEncoding (sig : bytes) : bool :=
  if zlen sig <? 9 then false
  else if 73 <? zlen sig then false
  else if negb (byte_at sig 0 =? 0x30) then false
  else if negb (byte_at sig 1 =? zlen sig - 3) then false
  else
    let lenR := byte_at sig 3 in
    if zlen sig <=? 5 + lenR then false
    else
      let lenS := byte_at sig (5 + lenR) in
      if negb (lenR + lenS + 7 =? zlen sig) then false
      else if negb (byte_at sig 2 =? 0x02) then false
      else if lenR =? 0 then false
      else if negb (Z.land (byte_at sig 4) 0x80 =? 0) then false
      else if (1 <? lenR) && (byte_at sig 4 =? 0x00) && (Z.land (byte_at sig 5) 0x80 =? 0) then false
      else if negb (byte_at sig (lenR + 4) =? 0x02) then false
      else if lenS =? 0 then false
      else if negb (Z.land (byte_at sig (lenR + 6)) 0x80 =? 0) then false
      else if (1 <? lenS) && (byte_at sig (lenR + 6) =? 0x00) && (Z.land (byte_at sig (lenR + 7)) 0x80 =? 0) then false
      else true.

Definition IsDefinedHashtypeSignature (vchSig : bytes) : bool :=
  if zlen vchSig =? 0 then false
  else
    let nHashType := Z.land (byte_at vchSig (zlen vchSig - 1)) (wrap 8 (Z.lnot SIGHASH_ANYONECANPAY)) in
    if (nHashType <? SIGHASH_ALL) || (SIGHASH_SINGLE <? nHashType) then false else true.

Definition CheckMinimalPush (data : bytes) (opcode : Z) : bool :=
  if zlen data =? 0 then opcode =? OP_0
  else if (zlen data =? 1) && (1 <=? byte_at data 0) && (byte_at data 0 <=? 16) then opcode =? OP_1 + (byte_at data 0 - 1)
  else if (zlen data =? 1) && (byte_at data 0 =? 0x81) then opcode =? OP_1NEGATE
  else if zlen data <=? 75 then opcode =? zlen data
  else if zlen data <=? 255 then opcode =? OP_PUSHDATA1
  else if zlen data <=? 65535 then opcode =? OP_PUSHDATA2
  else true.

Section encodings.
Context (ec : secp256k1).

(** A function that returns false has set an error. *)
Definition IsLowDERSignature (vchSig : bytes) : eval unit :=
  if negb (IsValidSignatureEncoding vchSig) then fail SCRIPT_ERR_SIG_DER
  else
    let* low := lift (CPubKey.CheckLowS ec (removelast vchSig)) in
    if negb low then fail SCRIPT_ERR_SIG_HIGH_S else ret tt.

Definition CheckSignatureEncoding (vchSig : bytes) (flags : Z) : eval unit :=
  if zlen vchSig =? 0 then ret tt
  else if has flags (Z.lor (Z.lor SCRIPT_VERIFY_DERSIG SCRIPT_VERIFY_LOW_S) SCRIPT_VERIFY_STRICTENC)
          && negb (IsValidSignatureEncoding vchSig) then fail SCRIPT_ERR_SIG_DER
  else
    let* _ := if has flags SCRIPT_VERIFY_LOW_S then IsLowDERSignature vchSig else ret tt in
    if has flags SCRIPT_VERIFY_STRICTENC && negb (IsDefinedHashtypeSignature vchSig)
    then fail SCRIPT_ERR_SIG_HASHTYPE else ret tt.

Definition CheckPubKeyEncoding (vchPubKey : bytes) (flags : Z) (sigversion : SigVersion) : eval unit :=
  if has flags SCRIPT_VERIFY_STRICTENC && negb (IsCompressedOrUncompressedPubKey vchPubKey)
  then fail SCRIPT_ERR_PUBKEYTYPE
  else if has flags SCRIPT_VERIFY_WITNESS_PUBKEYTYPE && bool_decide (sigversion = SIGVERSION_WITNESS_V0)
          && negb (IsCompressedPubKey vchPubKey)
  then fail SCRIPT_ERR_WITNESS_PUBKEYTYPE
  else ret tt.
End encodings.
