(* ===== verification/EvalScript.v ===== *)
(** [EvalScript] of src/sige/src/script/interpreter.cpp.

    The guard of an operation on [stack.size()] and its reads through [stacktop]
    and [popstack] are a pattern on the list; where the position is computed
    ([OP_PICK], [OP_ROLL], [OP_CHECKMULTISIG]) the reads are [stacktop] itself,
    with its exception.  [MAX_OPS_PER_SCRIPT] and [MAX_PUBKEYS_PER_MULTISIG] keep
    [nOpCount] far below the range of an [int]. *)

From S2P Require Import Prelude Bytes BaseUint UintBytes Uint256 Serialize Codec Prevector ScriptNum Opcode Script Amount Transaction PubKey Rules Interpreter.

Definition vchFalse : bytes := [].
Definition vchTrue : bytes := [1].

Record machine := Machine {
  stack : list bytes;
  altstack : list bytes;
  vfExec : list bool;
  pbegincodehash : Z;
  nOpCount : Z;
}.

Definition with_stack (st : list bytes) (m : machine) : machine :=
  Machine st (altstack m) (vfExec m) (pbegincodehash m) (nOpCount m).
Definition with_vfExec (b : list bool) (m : machine) : machine :=
  Machine (stack m) (altstack m) b (pbegincodehash m) (nOpCount m).
Definition with_nOpCount (n : Z) (m : machine) : machine :=
  Machine (stack m) (altstack m) (vfExec m) (pbegincodehash m) n.

(** [stack.at(stack.size() - i)] *)
Definition stacktop (i : Z) (st : list bytes) : res bytes :=
  if i <=? 0 then Throw "vector::_M_range_check"
  else match st !! Z.to_nat (i - 1) with
       | Some vch => Ok vch
       | None => Throw "vector::_M_range_check"
       end.

Definition popstack (st : list bytes) : res (list bytes) :=
  match st with
  | [] => Throw "popstack(): stack empty"
  | _ :: st => Ok st
  end.

(** [stack.push_back(f ? vchTrue : vchFalse)], and for the [VERIFY] form of the
    operation, the pop or the error that follows. *)
Definition push_bool (verify : bool) (e : ScriptError) (f : bool) (st : list bytes) : eval (list bytes) :=
  let st := (if f then vchTrue else vchFalse) :: st in
  if verify then if f then lift (popstack st) else fail e
  else ret st.

Definition is_op (a b : opcodetype) : bool := value a =? value b.

(** ** Operations on the stack alone *)

Definition op_push (n : Z) (st : list bytes) : eval (list bytes) :=
  ret (CScriptNum.getvch n :: st).

Definition op_verify (st : list bytes) : eval (list bytes) :=
  match st with
  | vch :: st => if CastToBool vch then ret st else fail SCRIPT_ERR_VERIFY
  | _ => fail SCRIPT_ERR_INVALID_STACK_OPERATION
  end.

Definition op_2drop (st : list bytes) : eval (list bytes) :=
  match st with
  | _ :: _ :: st => ret st
  | _ => fail SCRIPT_ERR_INVALID_STACK_OPERATION
  end.

Definition op_2dup (st : list bytes) : eval (list bytes) :=
  match st with
  | vch2 :: vch1 :: _ => ret (vch2 :: vch1 :: st)
  | _ => fail SCRIPT_ERR_INVALID_STACK_OPERATION
  end.

Definition op_3dup (st : list bytes) : eval (list bytes) :=
  match st with
  | vch3 :: vch2 :: vch1 :: _ => ret (vch3 :: vch2 :: vch1 :: st)
  | _ => fail SCRIPT_ERR_INVALID_STACK_OPERATION
  end.

Definition op_2over (st : list bytes) : eval (list bytes) :=
  match st with
  | _ :: _ :: vch2 :: vch1 :: _ => ret (vch2 :: vch1 :: st)
  | _ => fail SCRIPT_ERR_INVALID_STACK_OPERATION
  end.

Definition op_2rot (st : list bytes) : eval (list bytes) :=
  match st with
  | x6 :: x5 :: x4 :: x3 :: vch2 :: vch1 :: st => ret (vch2 :: vch1 :: x6 :: x5 :: x4 :: x3 :: st)
  | _ => fail SCRIPT_ERR_INVALID_STACK_OPERATION
  end.

Definition op_2swap (st : list bytes) : eval (list bytes) :=
  match st with
  | x4 :: x3 :: x2 :: x1 :: st => ret (x2 :: x1 :: x4 :: x3 :: st)
  | _ => fail SCRIPT_ERR_INVALID_STACK_OPERATION
  end.

Definition op_ifdup (st : list bytes) : eval (list bytes) :=
  match st with
  | vch :: _ => ret (if CastToBool vch then vch :: st else st)
  | _ => fail SCRIPT_ERR_INVALID_STACK_OPERATION
  end.

Definition op_depth (st : list bytes) : eval (list bytes) :=
  ret (CScriptNum.getvch (i64 (zlen st)) :: st).

Definition op_drop (st : list bytes) : eval (list bytes) :=
  match st with
  | _ :: st => ret st
  | _ => fail SCRIPT_ERR_INVALID_STACK_OPERATION
  end.

Definition op_dup (st : list bytes) : eval (list bytes) :=
  match st with
  | vch :: _ => ret (vch :: st)
  | _ => fail SCRIPT_ERR_INVALID_STACK_OPERATION
  end.

Definition op_nip (st : list bytes) : eval (list bytes) :=
  match st with
  | x2 :: _ :: st => ret (x2 :: st)
  | _ => fail SCRIPT_ERR_INVALID_STACK_OPERATION
  end.

Definition op_over (st : list bytes) : eval (list bytes) :=
  match st with
  | _ :: vch :: _ => ret (vch :: st)
  | _ => fail SCRIPT_ERR_INVALID_STACK_OPERATION
  end.

(** Two swaps of neighbours. *)
Definition op_rot (st : list bytes) : eval (list bytes) :=
  match st with
  | x3 :: x2 :: x1 :: st => ret (x1 :: x3 :: x2 :: st)
  | _ => fail SCRIPT_ERR_INVALID_STACK_OPERATION
  end.

Definition op_swap (st : list bytes) : eval (list bytes) :=
  match st with
  | x2 :: x1 :: st => ret (x1 :: x2 :: st)
  | _ => fail SCRIPT_ERR_INVALID_STACK_OPERATION
  end.

Definition op_tuck (st : list bytes) : eval (list bytes) :=
  match st with
  | x2 :: x1 :: st => ret (x2 :: x1 :: x2 :: st)
  | _ => fail SCRIPT_ERR_INVALID_STACK_OPERATION
  end.

Definition op_size (st : list bytes) : eval (list bytes) :=
  match st with
  | vch :: _ => ret (CScriptNum.getvch (i64 (zlen vch)) :: st)
  | _ => fail SCRIPT_ERR_INVALID_STACK_OPERATION
  end.

(** [OP_EQUAL], [OP_EQUALVERIFY] *)
Definition op_equal (opcode : opcodetype) (st : list bytes) : eval (list bytes) :=
  match st with
  | vch2 :: vch1 :: st =>
      push_bool (is_op opcode OP_EQUALVERIFY) SCRIPT_ERR_EQUALVERIFY (bool_decide (vch1 = vch2)) st
  | _ => fail SCRIPT_ERR_INVALID_STACK_OPERATION
  end.

Section numbers.
(** [(flags & SCRIPT_VERIFY_MINIMALDATA) != 0] *)
Context (fRequireMinimal : bool).

Definition scriptnum (vch : bytes) (nMaxNumSize : nat) : eval Z :=
  lift (CScriptNum.make vch fRequireMinimal nMaxNumSize).

(** [OP_PICK], [OP_ROLL] *)
Definition op_pick (opcode : opcodetype) (st : list bytes) : eval (list bytes) :=
  match st with
  | vchN :: (_ :: _) as st =>
      let* bn := scriptnum vchN CScriptNum.nDefaultMaxNumSize in
      let n := CScriptNum.getint bn in
      if (n <? 0) || (i32 (zlen st) <=? n) then fail SCRIPT_ERR_INVALID_STACK_OPERATION
      else
        let* vch := lift (stacktop (n + 1) st) in
        let st := if is_op opcode OP_ROLL then delete (Z.to_nat n) st else st in
        ret (vch :: st)
  | _ => fail SCRIPT_ERR_INVALID_STACK_OPERATION
  end.

Definition unary (opcode : opcodetype) (bn : Z) : res Z :=
  match opcode with
  | OP_1ADD => CScriptNum.add_assign bn 1
  | OP_1SUB => CScriptNum.sub_assign bn 1
  | OP_NEGATE => CScriptNum.negate bn
  | OP_ABS => if bn <? 0 then CScriptNum.negate bn else Ok bn
  | OP_NOT => Ok (Z.b2z (bn =? 0))
  | OP_0NOTEQUAL => Ok (Z.b2z (negb (bn =? 0)))
  | _ => AssertFail
  end.

Definition op_unary (opcode : opcodetype) (st : list bytes) : eval (list bytes) :=
  match st with
  | vch :: st =>
      let* bn := scriptnum vch CScriptNum.nDefaultMaxNumSize in
      let* bn := lift (unary opcode bn) in
      ret (CScriptNum.getvch bn :: st)
  | _ => fail SCRIPT_ERR_INVALID_STACK_OPERATION
  end.

Definition binary (opcode : opcodetype) (bn1 bn2 : Z) : res Z :=
  match opcode with
  | OP_ADD => Ok (CScriptNum.add bn1 bn2)
  | OP_SUB => Ok (CScriptNum.sub bn1 bn2)
  | OP_BOOLAND => Ok (Z.b2z (negb (bn1 =? 0) && negb (bn2 =? 0)))
  | OP_BOOLOR => Ok (Z.b2z (negb (bn1 =? 0) || negb (bn2 =? 0)))
  | OP_NUMEQUAL | OP_NUMEQUALVERIFY => Ok (Z.b2z (bn1 =? bn2))
  | OP_NUMNOTEQUAL => Ok (Z.b2z (negb (bn1 =? bn2)))
  | OP_LESSTHAN => Ok (Z.b2z (bn1 <? bn2))
  | OP_GREATERTHAN => Ok (Z.b2z (bn2 <? bn1))
  | OP_LESSTHANOREQUAL => Ok (Z.b2z (bn1 <=? bn2))
  | OP_GREATERTHANOREQUAL => Ok (Z.b2z (bn2 <=? bn1))
  | OP_MIN => Ok (if bn1 <? bn2 then bn1 else bn2)
  | OP_MAX => Ok (if bn2 <? bn1 then bn1 else bn2)
  | _ => AssertFail
  end.

Definition op_binary (opcode : opcodetype) (st : list bytes) : eval (list bytes) :=
  match st with
  | vch2 :: vch1 :: st =>
      let* bn1 := scriptnum vch1 CScriptNum.nDefaultMaxNumSize in
      let* bn2 := scriptnum vch2 CScriptNum.nDefaultMaxNumSize in
      let* bn := lift (binary opcode bn1 bn2) in
      if is_op opcode OP_NUMEQUALVERIFY then
        if CastToBool (CScriptNum.getvch bn) then ret st else fail SCRIPT_ERR_NUMEQUALVERIFY
      else ret (CScriptNum.getvch bn :: st)
  | _ => fail SCRIPT_ERR_INVALID_STACK_OPERATION
  end.

Definition op_within (st : list bytes) : eval (list bytes) :=
  match st with
  | vch3 :: vch2 :: vch1 :: st =>
      let* bn1 := scriptnum vch1 CScriptNum.nDefaultMaxNumSize in
      let* bn2 := scriptnum vch2 CScriptNum.nDefaultMaxNumSize in
      let* bn3 := scriptnum vch3 CScriptNum.nDefaultMaxNumSize in
      ret ((if (bn2 <=? bn1) && (bn1 <? bn3) then vchTrue else vchFalse) :: st)
  | _ => fail SCRIPT_ERR_INVALID_STACK_OPERATION
  end.
End numbers.

Definition op_hash `{!Hashes} (opcode : opcodetype) (st : list bytes) : eval (list bytes) :=
  match st with
  | vch :: st =>
      let vchHash :=
        if is_op opcode OP_RIPEMD160 then RIPEMD160 vch
        else if is_op opcode OP_SHA1 then SHA1 vch
        else if is_op opcode OP_SHA256 then SHA256 vch
        else if is_op opcode OP_HASH160 then Hash160 vch
        else Hash256 vch in
      ret (vchHash :: st)
  | _ => fail SCRIPT_ERR_INVALID_STACK_OPERATION
  end.

(** ** Operations on the machine *)

Definition op_else (m : machine) : eval machine :=
  match vfExec m with
  | b :: vf => ret (with_vfExec (negb b :: vf) m)
  | [] => fail SCRIPT_ERR_UNBALANCED_CONDITIONAL
  end.

Definition op_endif (m : machine) : eval machine :=
  match vfExec m with
  | _ :: vf => ret (with_vfExec vf m)
  | [] => fail SCRIPT_ERR_UNBALANCED_CONDITIONAL
  end.

Definition op_toaltstack (m : machine) : eval machine :=
  match stack m with
  | vch :: st => ret (Machine st (vch :: altstack m) (vfExec m) (pbegincodehash m) (nOpCount m))
  | [] => fail SCRIPT_ERR_INVALID_STACK_OPERATION
  end.

Definition op_fromaltstack (m : machine) : eval machine :=
  match altstack m with
  | vch :: alt => ret (Machine (vch :: stack m) alt (vfExec m) (pbegincodehash m) (nOpCount m))
  | [] => fail SCRIPT_ERR_INVALID_ALTSTACK_OPERATION
  end.

Section evaluation.
Context (WORDS_BIGENDIAN : bool) {hashes : Hashes} (ec : secp256k1) {checker : SignatureChecker}.
Context (flags : Z) (sigversion : SigVersion).

Definition fRequireMinimal : bool := has flags SCRIPT_VERIFY_MINIMALDATA.

Definition discourage_nops {A} (a : A) : eval A :=
  if has flags SCRIPT_VERIFY_DISCOURAGE_UPGRADABLE_NOPS then fail SCRIPT_ERR_DISCOURAGE_UPGRADABLE_NOPS else ret a.

Definition op_checklocktimeverify (st : list bytes) : eval (list bytes) :=
  if negb (has flags SCRIPT_VERIFY_CHECKLOCKTIMEVERIFY) then discourage_nops st
  else
    match st with
    | vch :: _ =>
        let* nLockTime := scriptnum fRequireMinimal vch 5 in
        if nLockTime <? 0 then fail SCRIPT_ERR_NEGATIVE_LOCKTIME
        else
          let* ok := lift (CheckLockTime nLockTime) in
          if negb ok then fail SCRIPT_ERR_UNSATISFIED_LOCKTIME else ret st
    | _ => fail SCRIPT_ERR_INVALID_STACK_OPERATION
    end.

Definition op_checksequenceverify (st : list bytes) : eval (list bytes) :=
  if negb (has flags SCRIPT_VERIFY_CHECKSEQUENCEVERIFY) then discourage_nops st
  else
    match st with
    | vch :: _ =>
        let* nSequence := scriptnum fRequireMinimal vch 5 in
        if nSequence <? 0 then fail SCRIPT_ERR_NEGATIVE_LOCKTIME
        else if negb (CScriptNum.and_ nSequence SEQUENCE_LOCKTIME_DISABLE_FLAG =? 0) then ret st
        else
          let* ok := lift (CheckSequence nSequence) in
          if negb ok then fail SCRIPT_ERR_UNSATISFIED_LOCKTIME else ret st
    | _ => fail SCRIPT_ERR_INVALID_STACK_OPERATION
    end.

(** [OP_IF], [OP_NOTIF]; [fExec] says whether the branch around them runs. *)
Definition op_if (opcode : opcodetype) (fExec : bool) (m : machine) : eval machine :=
  if fExec then
    match stack m with
    | vch :: st =>
        if bool_decide (sigversion = SIGVERSION_WITNESS_V0) && has flags SCRIPT_VERIFY_MINIMALIF
           && ((1 <? zlen vch) || ((zlen vch =? 1) && negb (byte_at vch 0 =? 1)))
        then fail SCRIPT_ERR_MINIMALIF
        else
          let fValue := CastToBool vch in
          let fValue := if is_op opcode OP_NOTIF then negb fValue else fValue in
          ret (with_vfExec (fValue :: vfExec m) (with_stack st m))
    | [] => fail SCRIPT_ERR_UNBALANCED_CONDITIONAL
    end
  else ret (with_vfExec (false :: vfExec m) m).

(** [if (sigversion == SIGVERSION_BASE) scriptCode.FindAndDelete(CScript(vchSig));] *)
Definition drop_signature (vchSig : bytes) (scriptCode : CScript) : eval CScript :=
  match sigversion with
  | SIGVERSION_BASE =>
      let* (scriptCode, _) := lift (FindAndDelete WORDS_BIGENDIAN (put_vch WORDS_BIGENDIAN vchSig []) scriptCode) in
      ret scriptCode
  | SIGVERSION_WITNESS_V0 => ret scriptCode
  end.

(** [CScript(pbegincodehash, pend)] *)
Definition script_code (script : CScript) (m : machine) : CScript :=
  slice script (pbegincodehash m) (script_end script).

(** [OP_CHECKSIG], [OP_CHECKSIGVERIFY] *)
Definition op_checksig (opcode : opcodetype) (script : CScript) (m : machine) : eval machine :=
  match stack m with
  | vchPubKey :: vchSig :: st =>
      let* scriptCode := drop_signature vchSig (script_code script m) in
      let* _ := CheckSignatureEncoding ec vchSig flags in
      let* _ := CheckPubKeyEncoding vchPubKey flags sigversion in
      let* fSuccess := lift (CheckSig vchSig vchPubKey scriptCode sigversion) in
      if negb fSuccess && has flags SCRIPT_VERIFY_NULLFAIL && negb (zlen vchSig =? 0)
      then fail SCRIPT_ERR_SIG_NULLFAIL
      else
        let* st := push_bool (is_op opcode OP_CHECKSIGVERIFY) SCRIPT_ERR_CHECKSIGVERIFY fSuccess st in
        ret (with_stack st m)
  | _ => fail SCRIPT_ERR_INVALID_STACK_OPERATION
  end.

(** [for (int k = 0; k < nSigsCount; k++)]: [n] turns from [k]. *)
Fixpoint drop_signatures (n : nat) (k isig : Z) (st : list bytes) (scriptCode : CScript) : eval CScript :=
  match n with
  | O => ret scriptCode
  | S n =>
      let* vchSig := lift (stacktop (isig + k) st) in
      let* scriptCode := drop_signature vchSig scriptCode in
      drop_signatures n (k + 1) isig st scriptCode
  end.

(** [while (fSuccess && nSigsCount > 0)]; the result is [fSuccess].  Each turn
    uses up a key, and the loop goes on only with as many keys as signatures. *)
Fixpoint sigs_loop (fuel : nat) (fSuccess : bool) (nSigsCount nKeysCount isig ikey : Z)
    (st : list bytes) (scriptCode : CScript) : eval bool :=
  if fSuccess && (0 <? nSigsCount) then
    match fuel with
    | O => OutOfFuel
    | S fuel =>
        let* vchSig := lift (stacktop isig st) in
        let* vchPubKey := lift (stacktop ikey st) in
        let* _ := CheckSignatureEncoding ec vchSig flags in
        let* _ := CheckPubKeyEncoding vchPubKey flags sigversion in
        let* fOk := lift (CheckSig vchSig vchPubKey scriptCode sigversion) in
        let isig := if fOk then isig + 1 else isig in
        let nSigsCount := if fOk then nSigsCount - 1 else nSigsCount in
        let ikey := ikey + 1 in
        let nKeysCount := nKeysCount - 1 in
        let fSuccess := if nKeysCount <? nSigsCount then false else fSuccess in
        sigs_loop fuel fSuccess nSigsCount nKeysCount isig ikey st scriptCode
    end
  else ret fSuccess.

(** [while (i-- > 1)]: [n] turns. *)
Fixpoint clean_up (n : nat) (fSuccess : bool) (ikey2 : Z) (st : list bytes) : eval (list bytes) :=
  match n with
  | O => ret st
  | S n =>
      let* top := lift (stacktop 1 st) in
      if negb fSuccess && has flags SCRIPT_VERIFY_NULLFAIL && (ikey2 =? 0) && negb (zlen top =? 0)
      then fail SCRIPT_ERR_SIG_NULLFAIL
      else
        let ikey2 := if 0 <? ikey2 then ikey2 - 1 else ikey2 in
        let* st := lift (popstack st) in
        clean_up n fSuccess ikey2 st
  end.

(** [OP_CHECKMULTISIG], [OP_CHECKMULTISIGVERIFY] *)
Definition op_checkmultisig (opcode : opcodetype) (script : CScript) (m : machine) : eval machine :=
  let st := stack m in
  let i := 1 in
  if i32 (zlen st) <? i then fail SCRIPT_ERR_INVALID_STACK_OPERATION
  else
    let* vchKeys := lift (stacktop i st) in
    let* bnKeys := scriptnum fRequireMinimal vchKeys CScriptNum.nDefaultMaxNumSize in
    let nKeysCount := CScriptNum.getint bnKeys in
    if (nKeysCount <? 0) || (MAX_PUBKEYS_PER_MULTISIG <? nKeysCount) then fail SCRIPT_ERR_PUBKEY_COUNT
    else
      let m := with_nOpCount (nOpCount m + nKeysCount) m in
      if MAX_OPS_PER_SCRIPT <? nOpCount m then fail SCRIPT_ERR_OP_COUNT
      else
        let ikey := i + 1 in
        let ikey2 := nKeysCount + 2 in
        let i := ikey + nKeysCount in
        if i32 (zlen st) <? i then fail SCRIPT_ERR_INVALID_STACK_OPERATION
        else
          let* vchSigs := lift (stacktop i st) in
          let* bnSigs := scriptnum fRequireMinimal vchSigs CScriptNum.nDefaultMaxNumSize in
          let nSigsCount := CScriptNum.getint bnSigs in
          if (nSigsCount <? 0) || (nKeysCount <? nSigsCount) then fail SCRIPT_ERR_SIG_COUNT
          else
            let isig := i + 1 in
            let i := isig + nSigsCount in
            if i32 (zlen st) <? i then fail SCRIPT_ERR_INVALID_STACK_OPERATION
            else
              let* scriptCode := drop_signatures (Z.to_nat nSigsCount) 0 isig st (script_code script m) in
              let* fSuccess := sigs_loop (Z.to_nat nKeysCount) true nSigsCount nKeysCount isig ikey st scriptCode in
              let* st := clean_up (Z.to_nat (i - 1)) fSuccess ikey2 st in
              match st with
              | [] => fail SCRIPT_ERR_INVALID_STACK_OPERATION
              | dummy :: st =>
                  if has flags SCRIPT_VERIFY_NULLDUMMY && negb (zlen dummy =? 0)
                  then fail SCRIPT_ERR_SIG_NULLDUMMY
                  else
                    let* st := push_bool (is_op opcode OP_CHECKMULTISIGVERIFY) SCRIPT_ERR_CHECKMULTISIGVERIFY fSuccess st in
                    ret (with_stack st m)
              end.

(** ** The switch and the loop *)

Definition on_stack (f : list bytes -> eval (list bytes)) (m : machine) : eval machine :=
  let* st := f (stack m) in ret (with_stack st m).

(** [switch (opcode)]; [pc] is past the operation. *)
Definition execute (opcode : Z) (fExec : bool) (script : CScript) (pc : Z) (m : machine) : eval machine :=
  match enumerator opcode with
  | Some (OP_1NEGATE | OP_1 | OP_2 | OP_3 | OP_4 | OP_5 | OP_6 | OP_7 | OP_8 | OP_9 | OP_10 | OP_11 | OP_12
         | OP_13 | OP_14 | OP_15 | OP_16) => on_stack (op_push (opcode - (OP_1 - 1))) m
  | Some OP_NOP => ret m
  | Some OP_CHECKLOCKTIMEVERIFY => on_stack op_checklocktimeverify m
  | Some OP_CHECKSEQUENCEVERIFY => on_stack op_checksequenceverify m
  | Some (OP_NOP1 | OP_NOP4 | OP_NOP5 | OP_NOP6 | OP_NOP7 | OP_NOP8 | OP_NOP9 | OP_NOP10) => discourage_nops m
  | Some ((OP_IF | OP_NOTIF) as o) => op_if o fExec m
  | Some OP_ELSE => op_else m
  | Some OP_ENDIF => op_endif m
  | Some OP_VERIFY => on_stack op_verify m
  | Some OP_RETURN => fail SCRIPT_ERR_OP_RETURN
  | Some OP_TOALTSTACK => op_toaltstack m
  | Some OP_FROMALTSTACK => op_fromaltstack m
  | Some OP_2DROP => on_stack op_2drop m
  | Some OP_2DUP => on_stack op_2dup m
  | Some OP_3DUP => on_stack op_3dup m
  | Some OP_2OVER => on_stack op_2over m
  | Some OP_2ROT => on_stack op_2rot m
  | Some OP_2SWAP => on_stack op_2swap m
  | Some OP_IFDUP => on_stack op_ifdup m
  | Some OP_DEPTH => on_stack op_depth m
  | Some OP_DROP => on_stack op_drop m
  | Some OP_DUP => on_stack op_dup m
  | Some OP_NIP => on_stack op_nip m
  | Some OP_OVER => on_stack op_over m
  | Some ((OP_PICK | OP_ROLL) as o) => on_stack (op_pick fRequireMinimal o) m
  | Some OP_ROT => on_stack op_rot m
  | Some OP_SWAP => on_stack op_swap m
  | Some OP_TUCK => on_stack op_tuck m
  | Some OP_SIZE => on_stack op_size m
  | Some ((OP_EQUAL | OP_EQUALVERIFY) as o) => on_stack (op_equal o) m
  | Some ((OP_1ADD | OP_1SUB | OP_NEGATE | OP_ABS | OP_NOT | OP_0NOTEQUAL) as o) =>
      on_stack (op_unary fRequireMinimal o) m
  | Some ((OP_ADD | OP_SUB | OP_BOOLAND | OP_BOOLOR | OP_NUMEQUAL | OP_NUMEQUALVERIFY | OP_NUMNOTEQUAL
          | OP_LESSTHAN | OP_GREATERTHAN | OP_LESSTHANOREQUAL | OP_GREATERTHANOREQUAL | OP_MIN | OP_MAX) as o) =>
      on_stack (op_binary fRequireMinimal o) m
  | Some OP_WITHIN => on_stack (op_within fRequireMinimal) m
  | Some ((OP_RIPEMD160 | OP_SHA1 | OP_SHA256 | OP_HASH160 | OP_HASH256) as o) => on_stack (op_hash o) m
  | Some OP_CODESEPARATOR => ret (Machine (stack m) (altstack m) (vfExec m) pc (nOpCount m))
  | Some ((OP_CHECKSIG | OP_CHECKSIGVERIFY) as o) => op_checksig o script m
  | Some ((OP_CHECKMULTISIG | OP_CHECKMULTISIGVERIFY) as o) => op_checkmultisig o script m
  | _ => fail SCRIPT_ERR_BAD_OPCODE
  end.

Definition disabled (opcode : Z) : bool :=
  existsb (fun o : opcodetype => opcode =? o)
    [OP_CAT; OP_SUBSTR; OP_LEFT; OP_RIGHT; OP_INVERT; OP_AND; OP_OR; OP_XOR; OP_2MUL; OP_2DIV; OP_MUL; OP_DIV;
     OP_MOD; OP_LSHIFT; OP_RSHIFT].

(** The body of the loop, from a read operation on. *)
Definition operation (opcode : Z) (vchPushValue : bytes) (script : CScript) (pc : Z) (m : machine) : eval machine :=
  let fExec := forallb id (vfExec m) in
  if MAX_SCRIPT_ELEMENT_SIZE <? zlen vchPushValue then fail SCRIPT_ERR_PUSH_SIZE
  else
    let m := if OP_16 <? opcode then with_nOpCount (nOpCount m + 1) m else m in
    if (OP_16 <? opcode) && (MAX_OPS_PER_SCRIPT <? nOpCount m) then fail SCRIPT_ERR_OP_COUNT
    else if disabled opcode then fail SCRIPT_ERR_DISABLED_OPCODE
    else
      let* m :=
        if fExec && (0 <=? opcode) && (opcode <=? OP_PUSHDATA4) then
          if fRequireMinimal && negb (CheckMinimalPush vchPushValue opcode) then fail SCRIPT_ERR_MINIMALDATA
          else ret (with_stack (vchPushValue :: stack m) m)
        else if fExec || ((OP_IF <=? opcode) && (opcode <=? OP_ENDIF)) then execute opcode fExec script pc m
        else ret m in
      if 1000 <? zlen (stack m) + zlen (altstack m) then fail SCRIPT_ERR_STACK_SIZE
      else ret m.

Fixpoint eval_loop (fuel : nat) (script : CScript) (pc : Z) (m : machine) : eval machine :=
  if pc <? script_end script then
    match fuel with
    | O => OutOfFuel
    | S fuel =>
        let r := GetOp WORDS_BIGENDIAN script pc in
        if negb (fRet r) then fail SCRIPT_ERR_BAD_OPCODE
        else
          let* m := operation (opcodeRet r) (vchRet r) script (pcRet r) m in
          eval_loop fuel script (pcRet r) m
    end
  else ret m.

(** [try { .. } catch (...) { return set_error(serror, SCRIPT_ERR_UNKNOWN_ERROR); }] *)
Definition catch_all {A} (r : eval A) : eval A :=
  match r with
  | Throw _ => fail SCRIPT_ERR_UNKNOWN_ERROR
  | _ => r
  end.

Definition EvalScript (st : list bytes) (script : CScript) : eval (list bytes) :=
  if MAX_SCRIPT_SIZE <? zlen script then fail SCRIPT_ERR_SCRIPT_SIZE
  else
    let* m := catch_all (eval_loop (length script) script begin_ (Machine st [] [] begin_ 0)) in
    match vfExec m with
    | [] => ret (stack m)
    | _ => fail SCRIPT_ERR_UNBALANCED_CONDITIONAL
    end.
End evaluation.
