(* ===== verification/EvalScriptSpec.v ===== *)
(** The script machine is safe: [EvalScript] ends with a result or an error on
    every script, and what it leaves on the stack is within the limits. *)

From S2P Require Import Prelude Bytes BaseUint UintBytes Uint256 Serialize Codec Prevector ScriptNum Opcode Script Amount Transaction PubKey Rules Interpreter EvalScript.

(** ** Outcomes of an evaluation *)

(** An error, an exception that is caught, or a value with [P]: no assertion
    fails, no undefined behaviour is reached, the fuel suffices. *)
Definition safe {A} (P : A -> Prop) (r : eval A) : Prop :=
  match r with
  | Ok (inr a) => P a
  | Ok (inl _) | Throw _ => True
  | _ => False
  end.

Lemma safe_bind {A B} (P : A -> Prop) (Q : B -> Prop) (m : eval A) (k : A -> eval B) :
  safe P m -> (forall a, P a -> safe Q (k a)) -> safe Q (eval_bind m k).
Proof. intros Hm Hk. destruct m as [[e|a]|w| | |]; try done. cbn. by apply Hk. Qed.

Lemma safe_mono {A} (P Q : A -> Prop) r : safe P r -> (forall a, P a -> Q a) -> safe Q r.
Proof. intros Hr H. destruct r as [[e|a]|w| | |]; try done. by apply H. Qed.

Lemma safe_ret {A} (P : A -> Prop) a : P a -> safe P (ret a).
Proof. done. Qed.

Lemma safe_fail {A} (P : A -> Prop) e : safe P (fail e).
Proof. done. Qed.

Lemma safe_lift {A} (P : A -> Prop) (m : res A) a : m = Ok a -> P a -> safe P (lift m).
Proof. by intros ->. Qed.

Lemma safe_if {A} (P : A -> Prop) (b : bool) x y : (b = true -> safe P x) -> (b = false -> safe P y) -> safe P (if b then x else y).
Proof. destruct b; auto. Qed.

Create HintDb safe.
#[export] Hint Resolve safe_ret safe_fail : safe.

(** ** Elements *)

Definition element (vch : bytes) : Prop := byte_list vch /\ zlen vch <= MAX_SCRIPT_ELEMENT_SIZE.
Definition elements (st : list bytes) : Prop := Forall element st.

Lemma element_short vch : byte_list vch -> (length vch <= 520)%nat -> element vch.
Proof. intros ? H. split; [done|]. unfold zlen, MAX_SCRIPT_ELEMENT_SIZE. lia. Qed.

Lemma element_bool (f : bool) : element (if f then vchTrue else vchFalse).
Proof. destruct f; apply element_short; simpl; try lia; repeat constructor; done. Qed.

Lemma abs_bytes_short fuel a : byte_list (CScriptNum.abs_bytes fuel a) /\ (length (CScriptNum.abs_bytes fuel a) <= fuel)%nat.
Proof.
  revert a; induction fuel as [|fuel IH]; intros a; cbn [CScriptNum.abs_bytes]; [split; [constructor|simpl; lia]|].
  case_bool; [split; [constructor|simpl; lia]|]. destruct (IH (Z.shiftr a 8)) as [H1 H2].
  split; [|simpl; lia]. constructor; [|done]. rewrite (land_ones_low a 0xff 8) by lia. apply wrap_range. lia.
Qed.

Lemma byte_or_0x80 b : in_u 8 b -> in_u 8 (Z.lor b 0x80).
Proof. intros. apply lor_range; [lia|done|unfold in_u; lia]. Qed.

(** Every number is written as an element. *)
Lemma element_getvch n : element (CScriptNum.getvch n).
Proof.
  unfold CScriptNum.getvch, CScriptNum.serialize. case_bool; [by apply element_short; [constructor|simpl; lia]|].
  set (a := u64 _). destruct (abs_bytes_short 8 a) as [Hb Hl]. set (l := CScriptNum.abs_bytes 8 a) in *. clearbody l.
  case_bool; [|case_bool].
  - apply element_short; [|rewrite length_app; simpl; lia]. apply byte_list_app; split; [done|].
    constructor; [case_bool; unfold in_u; lia|constructor].
  - destruct (snoc_cases l) as [->|(l' & b & ->)].
    + apply element_short; [repeat constructor; done|simpl; lia].
    + rewrite back_snoc, set_back_snoc. apply byte_list_app in Hb as [Hb1 Hb2]. rewrite length_app in Hl. cbn [length] in Hl.
      apply element_short; [|rewrite length_app; simpl; lia]. apply byte_list_app; split; [done|].
      constructor; [apply byte_or_0x80; by inversion Hb2|constructor].
  - apply element_short; [done|lia].
Qed.

#[export] Hint Resolve element_bool element_getvch : safe.

(** ** Operands *)

Lemma scriptnum_safe fm vch k : element vch -> (k <= 8)%nat ->
  safe (fun n => Z.abs n < 2 ^ (8 * Z.of_nat k - 1) \/ n = 0) (scriptnum fm vch k).
Proof.
  intros [Hb _] Hk. unfold scriptnum, CScriptNum.make. case_bool; [done|]. case_bool; [done|]. cbn.
  rewrite set_vch_sm by (done || (bool_hyps; lia)). destruct (decide (vch = [])) as [->|Hne]; [by right|]. left.
  eapply Z.lt_le_trans; [by apply sm_val_bound|]. bool_hyps. apply Z.pow_le_mono_r; lia.
Qed.

Lemma scriptnum4_safe fm vch : element vch ->
  safe (fun n => Z.abs n < 2 ^ 31) (scriptnum fm vch CScriptNum.nDefaultMaxNumSize).
Proof.
  intros H. eapply safe_mono; [apply scriptnum_safe; [done|unfold CScriptNum.nDefaultMaxNumSize; lia]|].
  unfold CScriptNum.nDefaultMaxNumSize. intros a [Ha | ->]; [exact Ha|done].
Qed.

Lemma getint_id n : Z.abs n < 2 ^ 31 -> CScriptNum.getint n = n.
Proof.
  intros H. unfold CScriptNum.getint, CScriptNum.INT_MAX, CScriptNum.INT_MIN.
  repeat case_bool; bool_hyps; try lia. apply swrap_small; unfold in_s; lia.
Qed.

Lemma i32_le x : 0 <= x -> i32 x <= x.
Proof.
  intros Hx. unfold swrap. pose proof (Z.div_mod (x + 2 ^ (32 - 1)) (2 ^ 32) ltac:(lia)).
  pose proof (Z.div_pos (x + 2 ^ (32 - 1)) (2 ^ 32) ltac:(lia) ltac:(lia)). lia.
Qed.

Lemma stacktop_Some i st : 1 <= i <= zlen st ->
  exists vch, stacktop i st = Ok vch /\ st !! Z.to_nat (i - 1) = Some vch /\ vch ∈ st.
Proof.
  intros Hi. unfold stacktop. rewrite (proj2 (Z.leb_gt i 0)) by lia.
  destruct (lookup_lt_is_Some_2 st (Z.to_nat (i - 1))) as [vch E]; [unfold zlen in Hi; lia|].
  rewrite E. exists vch. split_and!; [done|done|]. by eapply list_elem_of_lookup_2.
Qed.

Lemma stacktop_safe i st : elements st -> safe element (lift (stacktop i st)).
Proof.
  intros H. unfold stacktop. case_bool; [done|]. destruct (st !! _) eqn:E; [|done]. cbn.
  by eapply Forall_lookup_1.
Qed.

Lemma unary_safe o n : Z.abs n < 2 ^ 31 -> o ∈ [OP_1ADD; OP_1SUB; OP_NEGATE; OP_ABS; OP_NOT; OP_0NOTEQUAL] ->
  safe (fun _ => True) (lift (unary o n)).
Proof.
  intros Hn Ho. unfold unary, CScriptNum.add_assign, CScriptNum.sub_assign, CScriptNum.negate,
    CScriptNum.INT64_MIN, CScriptNum.INT64_MAX.
  repeat (apply elem_of_cons in Ho as [->|Ho]); [..|by apply elem_of_nil in Ho]; repeat case_bool; bool_hyps; try done; lia.
Qed.

(** ** Operations on the stack *)

Ltac elements_inv :=
  repeat match goal with
  | H : elements (_ :: _) |- _ => apply Forall_cons in H as [? ?]
  | H : Forall element (_ :: _) |- _ => apply Forall_cons in H as [? ?]
  end.

Ltac elements_solve := repeat (apply Forall_cons; split); auto with safe.

(** One step into an operation. *)
Ltac safe_step :=
  match goal with
  | |- safe _ (ret _) => apply safe_ret
  | |- safe _ (fail _) => apply safe_fail
  | |- safe _ (if _ then _ else _) => apply safe_if; intros ?
  | |- safe _ (match ?st with [] => _ | _ :: _ => _ end) => destruct st
  | |- safe _ (eval_bind (scriptnum _ _ CScriptNum.nDefaultMaxNumSize) _) =>
      eapply safe_bind; [apply scriptnum4_safe; elements_inv; assumption|cbn beta; intros ? ?]
  | |- safe _ (eval_bind (lift (stacktop _ _)) _) =>
      eapply safe_bind; [apply stacktop_safe; elements_inv; elements_solve; assumption|cbn beta; intros ? ?]
  end.

Ltac safe_op := intros Hst; repeat safe_step; elements_inv; elements_solve.

Lemma push_bool_safe v e f st : elements st -> safe elements (push_bool v e f st).
Proof.
  intros H. unfold push_bool. destruct v; [destruct f|]; cbn; try done.
  apply Forall_cons; split; [apply (element_bool f)|done].
Qed.

Section stack_ops.
Context (st : list bytes) (fm : bool).

Lemma op_push_safe n : elements st -> safe elements (op_push n st).
Proof. unfold op_push. safe_op. Qed.
Lemma op_verify_safe : elements st -> safe elements (op_verify st).
Proof. unfold op_verify. safe_op. Qed.
Lemma op_2drop_safe : elements st -> safe elements (op_2drop st).
Proof. unfold op_2drop. safe_op. Qed.
Lemma op_2dup_safe : elements st -> safe elements (op_2dup st).
Proof. unfold op_2dup. safe_op. Qed.
Lemma op_3dup_safe : elements st -> safe elements (op_3dup st).
Proof. unfold op_3dup. safe_op. Qed.
Lemma op_2over_safe : elements st -> safe elements (op_2over st).
Proof. unfold op_2over. safe_op. Qed.
Lemma op_2rot_safe : elements st -> safe elements (op_2rot st).
Proof. unfold op_2rot. safe_op. Qed.
Lemma op_2swap_safe : elements st -> safe elements (op_2swap st).
Proof. unfold op_2swap. safe_op. Qed.
Lemma op_ifdup_safe : elements st -> safe elements (op_ifdup st).
Proof. unfold op_ifdup. intros H. safe_step; [done|]. safe_step. case_bool; elements_inv; elements_solve. Qed.
Lemma op_depth_safe : elements st -> safe elements (op_depth st).
Proof. unfold op_depth. safe_op. Qed.
Lemma op_drop_safe : elements st -> safe elements (op_drop st).
Proof. unfold op_drop. safe_op. Qed.
Lemma op_dup_safe : elements st -> safe elements (op_dup st).
Proof. unfold op_dup. safe_op. Qed.
Lemma op_nip_safe : elements st -> safe elements (op_nip st).
Proof. unfold op_nip. safe_op. Qed.
Lemma op_over_safe : elements st -> safe elements (op_over st).
Proof. unfold op_over. safe_op. Qed.
Lemma op_rot_safe : elements st -> safe elements (op_rot st).
Proof. unfold op_rot. safe_op. Qed.
Lemma op_swap_safe : elements st -> safe elements (op_swap st).
Proof. unfold op_swap. safe_op. Qed.
Lemma op_tuck_safe : elements st -> safe elements (op_tuck st).
Proof. unfold op_tuck. safe_op. Qed.
Lemma op_size_safe : elements st -> safe elements (op_size st).
Proof. unfold op_size. safe_op. Qed.
Lemma op_equal_safe o : elements st -> safe elements (op_equal o st).
Proof. unfold op_equal. intros H. repeat safe_step. elements_inv. by apply push_bool_safe. Qed.
Lemma op_within_safe : elements st -> safe elements (op_within fm st).
Proof. unfold op_within. safe_op. Qed.

Lemma op_pick_safe o : elements st -> safe elements (op_pick fm o st).
Proof.
  unfold op_pick. safe_op. case_bool; [|elements_solve]. apply Forall_delete. elements_solve.
Qed.

Lemma op_unary_safe o : o ∈ [OP_1ADD; OP_1SUB; OP_NEGATE; OP_ABS; OP_NOT; OP_0NOTEQUAL] ->
  elements st -> safe elements (op_unary fm o st).
Proof.
  intros Ho. unfold op_unary. intros H. safe_step; [done|]. safe_step.
  eapply safe_bind; [by apply unary_safe|]. intros n _. elements_inv. safe_step. elements_solve.
Qed.

Lemma op_binary_safe o : o ∈ [OP_ADD; OP_SUB; OP_BOOLAND; OP_BOOLOR; OP_NUMEQUAL; OP_NUMEQUALVERIFY; OP_NUMNOTEQUAL;
    OP_LESSTHAN; OP_GREATERTHAN; OP_LESSTHANOREQUAL; OP_GREATERTHANOREQUAL; OP_MIN; OP_MAX] ->
  elements st -> safe elements (op_binary fm o st).
Proof.
  intros Ho. unfold op_binary. intros H. repeat safe_step.
  eapply (safe_bind (fun _ => True)).
  { repeat (apply elem_of_cons in Ho as [->|Ho]); [done..|]. by apply elem_of_nil in Ho. }
  intros n _. elements_inv. repeat safe_step; elements_solve.
Qed.
End stack_ops.

#[export] Hint Resolve op_push_safe op_verify_safe op_2drop_safe op_2dup_safe op_3dup_safe op_2over_safe op_2rot_safe
  op_2swap_safe op_ifdup_safe op_depth_safe op_drop_safe op_dup_safe op_nip_safe op_over_safe op_rot_safe op_swap_safe
  op_tuck_safe op_size_safe op_equal_safe op_within_safe op_pick_safe : safe.

(** ** What the parameters promise *)

Class HashesLaws `{!Hashes} : Prop := {
  RIPEMD160_size v : byte_list (RIPEMD160 v) /\ length (RIPEMD160 v) = 20%nat;
  SHA1_size v : byte_list (SHA1 v) /\ length (SHA1 v) = 20%nat;
  SHA256_size v : byte_list (SHA256 v) /\ length (SHA256 v) = 32%nat;
}.

(** The compact encoding of two zeroes parses. *)
Class CurveLaws (ec : secp256k1) : Prop := {
  compact_zeros : is_Some (ecdsa_signature_parse_compact ec (replicate 64 0));
}.

(** A checker answers: it throws no exception and reaches nothing undefined. *)
Class CheckerLaws `{!SignatureChecker} : Prop := {
  CheckSig_answers sig key code v : byte_list sig -> byte_list key -> script_ok code ->
    exists b, CheckSig sig key code v = Ok b;
  CheckLockTime_answers n : exists b, CheckLockTime n = Ok b;
  CheckSequence_answers n : exists b, CheckSequence n = Ok b;
}.

Lemma der_lax_some (ec : secp256k1) `{!CurveLaws ec} input : byte_list input ->
  exists ok sig, CPubKey.ecdsa_signature_parse_der_lax ec input = Ok (ok, Some sig).
Proof.
  intros H. destruct (der_lax_total ec input H) as (ok & sig & E). rewrite E.
  destruct sig as [sig|]; [by eexists _, _|]. destruct compact_zeros as [z Hz].
  unfold CPubKey.ecdsa_signature_parse_der_lax in E. rewrite Hz in E.
  repeat first [case_bool_in E; try done | apply res_bind_Ok in E as (? & _ & E) | case_match]; done.
Qed.

Lemma CheckLowS_answers (ec : secp256k1) `{!CurveLaws ec} sig : byte_list sig ->
  exists b, CPubKey.CheckLowS ec sig = Ok b.
Proof.
  intros H. unfold CPubKey.CheckLowS. destruct (der_lax_some ec sig H) as (ok & s & ->). cbn.
  destruct (negb ok); by eexists.
Qed.

(** ** Operations on the machine *)

Lemma removelast_bytes l : byte_list l -> byte_list (removelast l).
Proof.
  intros H. destruct (snoc_cases l) as [->|(l' & b & ->)]; [constructor|].
  rewrite removelast_last. by apply byte_list_app in H as [? _].
Qed.

Lemma slice_suffix (a r : bytes) : slice (a ++ r) (zlen a) (script_end (a ++ r)) = r.
Proof. apply slice_end. Qed.

Lemma script_ok_app a r : script_ok (a ++ r) -> script_ok r.
Proof.
  intros [Hb Hl]. apply byte_list_app in Hb as [_ Hb]. split; [done|]. rewrite zlen_app in Hl.
  pose proof (zlen_nonneg a). lia.
Qed.

Lemma deleted_ok b r r' k : deleted b r r' k -> script_ok r -> script_ok r'.
Proof.
  intros H [Hb Hl]. split; [|destruct (deleted_length _ _ _ _ H); pose proof (zlen_nonneg b); nia].
  clear Hl. induction H as [r r' k Hd IH|x op d r r' k _ _ Hd IH|]; [..|done];
    apply byte_list_app in Hb as [? ?]; [by apply IH|]. apply byte_list_app; split; [done|by apply IH].
Qed.

Lemma put_vch_cons be b : put_vch be b [] <> [].
Proof. unfold put_vch. repeat case_bool; done. Qed.

(** The code separator is a position of the script. *)
Definition position (script : CScript) (pos : Z) : Prop := exists a r, script = a ++ r /\ pos = zlen a.

Record machine_ok (script : CScript) (m : machine) : Prop := {
  ok_stack : elements (stack m);
  ok_altstack : elements (altstack m);
  ok_begin : position script (pbegincodehash m);
}.

Lemma with_stack_ok script st m : elements st -> machine_ok script m -> machine_ok script (with_stack st m).
Proof. intros ? []. by split. Qed.

Lemma with_vfExec_ok script b m : machine_ok script m -> machine_ok script (with_vfExec b m).
Proof. intros []. by split. Qed.

Lemma with_nOpCount_ok script n m : machine_ok script m -> machine_ok script (with_nOpCount n m).
Proof. intros []. by split. Qed.

#[export] Hint Resolve with_stack_ok with_vfExec_ok with_nOpCount_ok : safe.

Section machine_ops.
Context (be : bool) {hashes : Hashes} {hashes_laws : HashesLaws} (ec : secp256k1) {curve_laws : CurveLaws ec}.
Context {checker : SignatureChecker} {checker_laws : CheckerLaws}.
Context (flags : Z) (sv : SigVersion) (script : CScript) (Hscript : script_ok script).

Lemma on_stack_safe f m : machine_ok script m -> safe elements (f (stack m)) -> safe (machine_ok script) (on_stack f m).
Proof. intros Hm Hf. unfold on_stack. eapply safe_bind; [exact Hf|]. intros st Hst. apply safe_ret. auto with safe. Qed.

Lemma op_hash_safe o st : elements st -> safe elements (op_hash o st).
Proof.
  assert (forall v, element (Hash160 v)) as H160 by (intros v; apply element_short; [apply RIPEMD160_size|]; unfold Hash160; rewrite (proj2 (RIPEMD160_size _)); lia).
  assert (forall v, element (Hash256 v)) as H256 by (intros v; apply element_short; [apply SHA256_size|]; unfold Hash256; rewrite (proj2 (SHA256_size _)); lia).
  unfold op_hash. intros H. safe_step; [done|]. apply safe_ret. elements_inv. apply Forall_cons; split; [|done].
  repeat case_bool; [..|done|done]; (apply element_short;
    [first [apply RIPEMD160_size|apply SHA1_size|apply SHA256_size]|
     rewrite ?(proj2 (RIPEMD160_size _)), ?(proj2 (SHA1_size _)), ?(proj2 (SHA256_size _)); lia]).
Qed.

Lemma op_else_safe m : machine_ok script m -> safe (machine_ok script) (op_else m).
Proof. intros H. unfold op_else. destruct (vfExec m); [done|]. apply safe_ret. auto with safe. Qed.

Lemma op_endif_safe m : machine_ok script m -> safe (machine_ok script) (op_endif m).
Proof. intros H. unfold op_endif. destruct (vfExec m); [done|]. apply safe_ret. auto with safe. Qed.

Lemma op_toaltstack_safe m : machine_ok script m -> safe (machine_ok script) (op_toaltstack m).
Proof.
  intros [Hs Ha Hb]. unfold op_toaltstack. destruct (stack m); [done|]. elements_inv.
  apply safe_ret. split; [done| |done]. by apply Forall_cons.
Qed.

Lemma op_fromaltstack_safe m : machine_ok script m -> safe (machine_ok script) (op_fromaltstack m).
Proof.
  intros [Hs Ha Hb]. unfold op_fromaltstack. destruct (altstack m); [done|]. elements_inv.
  apply safe_ret. split; [by apply Forall_cons|done|done].
Qed.

Lemma op_if_safe o fe m : machine_ok script m -> safe (machine_ok script) (op_if flags sv o fe m).
Proof.
  intros H. unfold op_if. destruct fe; [|apply safe_ret; auto with safe].
  pose proof (ok_stack _ _ H) as Hs. destruct (stack m) as [|v st]; [done|]. elements_inv.
  safe_step; [done|]. apply safe_ret. auto with safe.
Qed.

Lemma discourage_nops_safe {A} (P : A -> Prop) a : P a -> safe P (discourage_nops flags a).
Proof. unfold discourage_nops. intros. safe_step; auto with safe. Qed.

Lemma answers_safe (r : res bool) : (exists b, r = Ok b) -> safe (fun _ => True) (lift r).
Proof. by intros [b ->]. Qed.

Lemma op_checklocktimeverify_safe st : elements st -> safe elements (op_checklocktimeverify flags st).
Proof.
  intros H. unfold op_checklocktimeverify. safe_step; [by apply discourage_nops_safe|]. safe_step; [done|].
  eapply safe_bind; [apply scriptnum_safe; [elements_inv; done|lia]|]. intros n _. safe_step; [done|].
  eapply safe_bind; [apply answers_safe, CheckLockTime_answers|]. intros ok _. by repeat safe_step.
Qed.

Lemma op_checksequenceverify_safe st : elements st -> safe elements (op_checksequenceverify flags st).
Proof.
  intros H. unfold op_checksequenceverify. safe_step; [by apply discourage_nops_safe|]. safe_step; [done|].
  eapply safe_bind; [apply scriptnum_safe; [elements_inv; done|lia]|]. intros n _. safe_step; [done|]. safe_step; [done|].
  eapply safe_bind; [apply answers_safe, CheckSequence_answers|]. intros ok _. by repeat safe_step.
Qed.

Lemma CheckSignatureEncoding_safe sig : byte_list sig -> safe (fun _ => True) (CheckSignatureEncoding ec sig flags).
Proof.
  intros H. unfold CheckSignatureEncoding. safe_step; [done|]. safe_step; [done|].
  eapply (safe_bind (fun _ => True)); [|intros _ _; by safe_step]. safe_step; [|done].
  unfold IsLowDERSignature. safe_step; [done|].
  eapply safe_bind; [apply answers_safe, CheckLowS_answers; [done|by apply removelast_bytes]|]. intros b _. by safe_step.
Qed.

Lemma CheckPubKeyEncoding_safe key : safe (fun _ => True) (CheckPubKeyEncoding key flags sv).
Proof. unfold CheckPubKeyEncoding. by repeat safe_step. Qed.

Lemma script_code_ok m : machine_ok script m -> script_ok (script_code script m).
Proof.
  intros [_ _ (a & r & E & Ep)]. unfold script_code. rewrite Ep, E in *. rewrite slice_end. by eapply script_ok_app.
Qed.

Lemma drop_signature_safe sig code : script_ok code -> safe script_ok (drop_signature be sv sig code).
Proof.
  intros H. unfold drop_signature. destruct sv; [|done].
  destruct (FindAndDelete_spec be (put_vch be sig []) code (put_vch_cons be sig) H) as (s & k & Hd & ->).
  cbn. by eapply deleted_ok.
Qed.

Lemma check_signature_safe sig key code : element sig -> element key -> script_ok code ->
  safe (fun _ => True) (lift (CheckSig sig key code sv)).
Proof. intros [? _] [? _] ?. by apply answers_safe, CheckSig_answers. Qed.

Lemma op_checksig_safe o m : machine_ok script m -> safe (machine_ok script) (op_checksig be ec flags sv o script m).
Proof.
  intros H. unfold op_checksig. pose proof (ok_stack _ _ H) as Hs. pose proof (script_code_ok m H) as Hc.
  destruct (stack m) as [|key [|sig st]]; [done|done|]. elements_inv.
  eapply safe_bind; [by apply drop_signature_safe|]. intros code Hcode.
  eapply safe_bind; [by apply CheckSignatureEncoding_safe; apply H1|]. intros _ _.
  eapply safe_bind; [apply CheckPubKeyEncoding_safe|]. intros _ _.
  eapply safe_bind; [by apply check_signature_safe|]. intros b _. safe_step; [done|].
  eapply safe_bind; [by apply push_bool_safe|]. intros st' Hst'. apply safe_ret. auto with safe.
Qed.

Lemma drop_signatures_safe n : forall k isig st code, elements st -> script_ok code ->
  safe script_ok (drop_signatures be sv n k isig st code).
Proof.
  induction n as [|n IH]; intros k isig st code Hs Hc; cbn [drop_signatures]; [done|]. safe_step.
  eapply safe_bind; [by apply drop_signature_safe|]. intros code' Hc'. by apply IH.
Qed.

Lemma sigs_loop_safe fuel : forall f ns nk isig ikey st code, elements st -> script_ok code ->
  (f = true -> ns <= nk <= Z.of_nat fuel) -> safe (fun _ => True) (sigs_loop ec flags sv fuel f ns nk isig ikey st code).
Proof.
  induction fuel as [|fuel IH]; intros f ns nk isig ikey st code Hs Hc Hf; cbn [sigs_loop].
  { safe_step; [|done]. bool_hyps. specialize (Hf ltac:(done)). lia. }
  safe_step; [|done]. bool_hyps. specialize (Hf ltac:(done)).
  eapply safe_bind; [by apply stacktop_safe|]. intros sig Hsig.
  eapply safe_bind; [by apply stacktop_safe|]. intros key Hkey.
  eapply safe_bind; [by apply CheckSignatureEncoding_safe; apply Hsig|]. intros _ _.
  eapply safe_bind; [apply CheckPubKeyEncoding_safe|]. intros _ _.
  eapply safe_bind; [by apply check_signature_safe|]. intros ok _.
  apply IH; [done|done|]. case_bool; [done|]. intros _. bool_hyps. destruct ok; lia.
Qed.

Lemma clean_up_safe n : forall f k st, elements st -> safe elements (clean_up flags n f k st).
Proof.
  induction n as [|n IH]; intros f k st H; cbn [clean_up]; [done|]. safe_step. safe_step; [done|].
  eapply (safe_bind elements); [destruct st; [done|]; by elements_inv|]. intros st' H'. by apply IH.
Qed.

Lemma op_checkmultisig_safe o m : machine_ok script m ->
  safe (machine_ok script) (op_checkmultisig be ec flags sv o script m).
Proof.
  intros H. unfold op_checkmultisig. pose proof (ok_stack _ _ H) as Hs.
  safe_step; [done|]. safe_step. safe_step. rewrite getint_id by done. safe_step; [done|]. safe_step; [done|].
  safe_step; [done|]. safe_step. safe_step. rewrite getint_id by done. safe_step; [done|]. safe_step; [done|]. bool_hyps.
  eapply safe_bind; [apply drop_signatures_safe; [done|by apply script_code_ok; auto with safe]|]. intros code Hcode.
  eapply safe_bind; [apply sigs_loop_safe; [done|done|intros _; lia]|]. intros f _.
  eapply safe_bind; [by apply clean_up_safe|]. intros st' Hst'. safe_step; [done|]. safe_step; [done|]. elements_inv.
  eapply safe_bind; [by apply push_bool_safe|]. intros st'' Hst''. apply safe_ret. auto with safe.
Qed.

(** ** The loop *)

Lemma execute_safe opcode fe pc m : machine_ok script m -> position script pc ->
  safe (machine_ok script) (execute be ec flags sv opcode fe script pc m).
Proof.
  intros H Hpc. pose proof (ok_stack _ _ H) as Hs. unfold execute.
  destruct (enumerator opcode) as [o|]; [|done].
  destruct o; try done;
    first [ apply on_stack_safe; [done|solve [auto with safe]]
          | by apply discourage_nops_safe
          | by apply op_if_safe | by apply op_else_safe | by apply op_endif_safe
          | by apply op_toaltstack_safe | by apply op_fromaltstack_safe
          | by apply op_checksig_safe | by apply op_checkmultisig_safe
          | idtac ].
  all: try (apply safe_ret; destruct H; split; done).
  all: apply on_stack_safe; [done|].
  all: first [ by apply op_checklocktimeverify_safe | by apply op_checksequenceverify_safe | by apply op_hash_safe
             | apply op_unary_safe; [solve [repeat constructor]|done] | apply op_binary_safe; [solve [repeat constructor]|done] ].
Qed.

(** The sizes the limits of the loop leave. *)
Definition bounded (m : machine) : Prop := zlen (stack m) + zlen (altstack m) <= 1000.

Lemma operation_safe opcode d pc m : machine_ok script m -> position script pc -> byte_list d ->
  safe (fun m => machine_ok script m /\ bounded m) (operation be ec flags sv opcode d script pc m).
Proof.
  intros H Hpc Hd. unfold operation. safe_step; [done|]. safe_step; [done|]. safe_step; [done|].
  set (m1 := if OP_16 <? opcode then _ else _).
  assert (machine_ok script m1) as Hm1 by (subst m1; case_bool; auto with safe).
  eapply (safe_bind (machine_ok script)).
  - safe_step; [safe_step; [done|]|safe_step; [by apply execute_safe|done]].
    apply safe_ret, with_stack_ok; [|done]. apply Forall_cons; split; [|apply Hm1]. split; [done|by bool_hyps].
  - intros m2 Hm2. safe_step; [done|]. apply safe_ret. split; [done|]. unfold bounded. by bool_hyps.
Qed.

Lemma at_end_script a r : script = a ++ r -> (zlen a <? script_end script) = negb (bool_decide (r = [])).
Proof. intros ->. apply at_end_ltb. Qed.

Lemma eval_loop_safe r : forall fuel a m, script = a ++ r -> (length r <= fuel)%nat -> machine_ok script m ->
  safe (fun m' => machine_ok script m' /\ (r <> [] \/ bounded m -> bounded m')) (eval_loop be ec flags sv fuel script (zlen a) m).
Proof.
  induction r as [r E|r op d r' E Hl IH] using script_ind; intros fuel a m Hr Hf H.
  - destruct fuel; cbn [eval_loop]; rewrite (at_end_script a r Hr); case_bool_decide; cbn [negb];
      try (apply safe_ret; split; [done|]; intros [?|?]; first [done|congruence]).
    + destruct r; [done|simpl in Hf; lia].
    + pose proof (GetOp_spec be a r) as Hg. rewrite <- Hr, E in Hg. destruct (Hg Hscript) as (b & r' & _ & Hget).
      rewrite Hget. done.
  - destruct fuel as [|fuel]; [lia|]. cbn [eval_loop]. rewrite (at_end_script a r Hr), bool_decide_eq_false_2
      by (intros ->; done). cbn [negb].
    pose proof (GetOp_spec be a r) as Hg. rewrite <- Hr, E in Hg. destruct (Hg Hscript) as (b & Eb & Hb & Hop & Hget).
    rewrite Hget. cbn [fRet negb opcodeRet vchRet pcRet]. rewrite Eb, app_assoc in Hr.
    eapply safe_bind.
    + apply operation_safe; [done|by eexists _, _|]. refine (proj1 (next_op_data r op d r' _ E)).
      destruct Hscript as [Hby _]. rewrite Hr, <- app_assoc, <- Eb in Hby. by apply byte_list_app in Hby as [_ ?].
    + intros m' [Hm' Hbd]. eapply safe_mono; [apply (IH fuel (a ++ b)); [done|lia|done]|].
      intros m'' [? Hor]. split; [done|]. auto.
Qed.
End machine_ops.

Lemma EvalScript_total (be : bool) {hashes : Hashes} {hashes_laws : HashesLaws} (ec : secp256k1) {curve_laws : CurveLaws ec}
    {checker : SignatureChecker} {checker_laws : CheckerLaws} (flags : Z) (sv : SigVersion) (st : list bytes) (script : CScript) :
  elements st -> byte_list script ->
  exists r, EvalScript be ec flags sv st script = Ok r /\
    forall st', r = inr st' -> elements st' /\ (script <> [] -> zlen st' <= 1000).
Proof.
  intros Hst Hb. unfold EvalScript. case_bool; [by eexists|]. bool_hyps. unfold MAX_SCRIPT_SIZE in *.
  assert (script_ok script) as Hok by (split; [done|lia]).
  assert (machine_ok script (Machine st [] [] begin_ 0)) as Hm by (split; [done|constructor|by exists [], script]).
  pose proof (eval_loop_safe be ec flags sv script Hok script (length script) [] _ eq_refl ltac:(done) Hm) as Hs.
  change (zlen []) with begin_ in Hs.
  destruct (eval_loop _ _ _ _ _ _ _ _) as [[e|m]|w| | |]; try done; cbn in *; try by eexists.
  destruct Hs as [[Hst' _ _] Hbd]. destruct (vfExec m); [|by eexists]. eexists; split; [done|]. intros st' [= <-].
  split; [done|]. intros Hne. specialize (Hbd (or_introl Hne)). unfold bounded in Hbd. pose proof (zlen_nonneg (altstack m)). lia.
Qed.

(** ** Properties *)

(** C7: Evaluation is safe and total: on every script of bytes, whatever the flags,
    from elements within the limit, [EvalScript] returns; no assertion fails, no
    exception leaves it, nothing undefined is reached and its loop ends.  When it
    succeeds the stack holds elements of at most 520 bytes again, and at most
    1000 of them unless the script is empty or too long to be looked at. *)
Theorem EvalScript_safe (be : bool) {hashes : Hashes} {hashes_laws : HashesLaws} (ec : secp256k1) {curve_laws : CurveLaws ec}
    {checker : SignatureChecker} {checker_laws : CheckerLaws} (flags : Z) (sv : SigVersion) (st : list bytes) (script : CScript) :
  elements st -> byte_list script ->
  exists r, EvalScript be ec flags sv st script = Ok r /\
    forall st', r = inr st' -> elements st' /\ (script <> [] -> zlen st' <= 1000).
Proof. intros Hst Hb. by apply EvalScript_total. Qed.

(** Hash functions and a checker for the examples. *)
Definition toy_hashes : Hashes := {|
  RIPEMD160 _ := replicate 20 1; SHA1 _ := replicate 20 2; SHA256 _ := replicate 32 3 |}.

Lemma toy_hashes_ok : @HashesLaws toy_hashes.
Proof. split; intros v; split; try done; repeat constructor; done. Qed.

Lemma toy_curve_ok : CurveLaws toy_curve.
Proof. split. by eexists. Qed.

Lemma base_checker_ok : @CheckerLaws BaseSignatureChecker.
Proof. split; intros; by eexists. Qed.

Lemma EvalScript_safe_witness :
  exists r, EvalScript (hashes := toy_hashes) (checker := BaseSignatureChecker) false toy_curve 0 SIGVERSION_BASE [[7]]
      [value OP_2; value OP_ADD; value OP_DUP; value OP_HASH160] = Ok r /\
    forall st', r = inr st' -> elements st' /\
      ([value OP_2; value OP_ADD; value OP_DUP; value OP_HASH160] <> [] -> zlen st' <= 1000).
Proof.
  apply (@EvalScript_safe false toy_hashes toy_hashes_ok toy_curve toy_curve_ok BaseSignatureChecker base_checker_ok
    0 SIGVERSION_BASE [[7]]); [apply (bool_decide_unpack _); vm_compute; reflexivity|repeat constructor; done].
Defined.

Example EvalScript_ex :
  EvalScript (hashes := toy_hashes) (checker := BaseSignatureChecker) false toy_curve 0 SIGVERSION_BASE [[7]]
    [value OP_2; value OP_ADD; value OP_DUP; value OP_HASH160] = Ok (inr [replicate 20 1; [9]]).
Proof. vm_compute. reflexivity. Qed.
