(* ===== verification/SigHash.v ===== *)
(** What a signature signs: [SignatureHash] and [TransactionSignatureChecker]
    of src/sige/src/script/interpreter.h and interpreter.cpp.

    A read of an input or output by its index is [Undef] out of range. *)

From S2P Require Import Prelude Bytes BaseUint UintBytes Uint256 Serialize Codec Prevector ScriptNum Opcode Script Amount Transaction PubKey Rules Interpreter.

(** [CHashWriter::GetHash] after the bytes were written. *)
Definition GetHash_written `{!Hashes} (written : bytes) : uint256 := limbs_of_bytes WIDTH256 (Hash256 written).

(** ** The serializer of signed transactions *)

Module CTransactionSignatureSerializer.
Record t := mk {
  txTo : CMutableTransaction;
  scriptCode : CScript;
  nIn : Z;
  fAnyoneCanPay : bool;
  fHashSingle : bool;
  fHashNone : bool;
}.

Definition make (txToIn : CMutableTransaction) (scriptCodeIn : CScript) (nInIn nHashTypeIn : Z) : t :=
  mk txToIn scriptCodeIn nInIn (has nHashTypeIn SIGHASH_ANYONECANPAY)
    (Z.land nHashTypeIn 0x1f =? SIGHASH_SINGLE) (Z.land nHashTypeIn 0x1f =? SIGHASH_NONE).

Section serializer.
Context (WORDS_BIGENDIAN : bool).

(** [while (scriptCode.GetOp(it, opcode)) if (opcode == OP_CODESEPARATOR) nCodeSeparators++;] *)
Fixpoint count_loop (fuel : nat) (code : CScript) (it nCodeSeparators : Z) : res Z :=
  let r := GetOp WORDS_BIGENDIAN code it in
  if fRet r then
    match fuel with
    | O => OutOfFuel
    | S fuel =>
        count_loop fuel code (pcRet r)
          (if opcodeRet r =? OP_CODESEPARATOR then u32 (nCodeSeparators + 1) else nCodeSeparators)
    end
  else Ok nCodeSeparators.

(** The second loop: what it writes, [it] and [itBegin] at its end. *)
Fixpoint write_loop (fuel : nat) (code : CScript) (it itBegin : Z) (s : bytes) : res (bytes * Z * Z) :=
  let r := GetOp WORDS_BIGENDIAN code it in
  if fRet r then
    match fuel with
    | O => OutOfFuel
    | S fuel =>
        if opcodeRet r =? OP_CODESEPARATOR then
          write_loop fuel code (pcRet r) (pcRet r) (s ++ slice code itBegin (pcRet r - 1))
        else write_loop fuel code (pcRet r) itBegin s
    end
  else Ok (s, pcRet r, itBegin).

Definition SerializeScriptCode (this : t) : res bytes :=
  let code := scriptCode this in
  let? nCodeSeparators := count_loop (length code) code begin_ 0 in
  let s := WriteCompactSize (u32 (zlen code - nCodeSeparators)) in
  let? (s, it, itBegin) := write_loop (length code) code begin_ begin_ s in
  Ok (if negb (itBegin =? script_end code) then s ++ slice code itBegin it else s).

Definition SerializeInput (this : t) (nInput : Z) : res bytes :=
  let nInput := if fAnyoneCanPay this then nIn this else nInput in
  let? txin := res_of_option (vin (txTo this) !! Z.to_nat nInput) in
  let? script := if negb (nInput =? nIn this) then Ok (Serialize c_bytes []) else SerializeScriptCode this in
  let sequence :=
    if negb (nInput =? nIn this) && (fHashSingle this || fHashNone this) then Serialize c_i32 0
    else Serialize c_u32 (CTxIn.nSequence txin) in
  Ok (Serialize COutPoint.codec (CTxIn.prevout txin) ++ script ++ sequence).

Definition SerializeOutput (this : t) (nOutput : Z) : res bytes :=
  if fHashSingle this && negb (nOutput =? nIn this) then Ok (Serialize CTxOut.codec CTxOut.SetNull)
  else
    let? txout := res_of_option (vout (txTo this) !! Z.to_nat nOutput) in
    Ok (Serialize CTxOut.codec txout).

(** [for (i = from; i < from + n; i++) f(i)] on one stream. *)
Fixpoint each (f : Z -> res bytes) (n : nat) (from : Z) : res bytes :=
  match n with
  | O => Ok []
  | S n => let? s := f from in let? s' := each f n (from + 1) in Ok (s ++ s')
  end.

Definition Serialize_tx (this : t) : res bytes :=
  let nInputs := if fAnyoneCanPay this then 1 else u32 (zlen (vin (txTo this))) in
  let? inputs := each (SerializeInput this) (Z.to_nat nInputs) 0 in
  let nOutputs := if fHashNone this then 0 else if fHashSingle this then u32 (nIn this + 1) else u32 (zlen (vout (txTo this))) in
  let? outputs := each (SerializeOutput this) (Z.to_nat nOutputs) 0 in
  Ok (Serialize c_i32 (nVersion (txTo this)) ++
      WriteCompactSize nInputs ++ inputs ++
      WriteCompactSize nOutputs ++ outputs ++
      Serialize c_u32 (nLockTime (txTo this))).
End serializer.
End CTransactionSignatureSerializer.

(** ** The hashes of segregated witness *)

Section sighash.
Context (WORDS_BIGENDIAN : bool) {hashes : Hashes}.

Definition GetPrevoutHash (txTo : CMutableTransaction) : uint256 :=
  GetHash_written (mjoin (map (fun txin => Serialize COutPoint.codec (CTxIn.prevout txin)) (vin txTo))).
Definition GetSequenceHash (txTo : CMutableTransaction) : uint256 :=
  GetHash_written (mjoin (map (fun txin => Serialize c_u32 (CTxIn.nSequence txin)) (vin txTo))).
Definition GetOutputsHash (txTo : CMutableTransaction) : uint256 :=
  GetHash_written (mjoin (map (Serialize CTxOut.codec) (vout txTo))).

Record PrecomputedTransactionData := mk_precomputed {
  hashPrevouts : uint256;
  hashSequence : uint256;
  hashOutputs : uint256;
}.

Definition precompute (txTo : CMutableTransaction) : PrecomputedTransactionData :=
  mk_precomputed (GetPrevoutHash txTo) (GetSequenceHash txTo) (GetOutputsHash txTo).

(** [uint256S("00..01")] *)
Definition one : uint256 := uint256S (replicate 63 48 ++ [49]).

Definition uint256_null : uint256 := base_uint_zero WIDTH256.

Definition SignatureHash_v0 (scriptCode : CScript) (txTo : CMutableTransaction) (nIn nHashType amount : Z)
    (cache : option PrecomputedTransactionData) : res uint256 :=
  let acp := has nHashType SIGHASH_ANYONECANPAY in
  let base := Z.land nHashType 0x1f in
  let prevouts :=
    if negb acp then match cache with Some c => hashPrevouts c | None => GetPrevoutHash txTo end else uint256_null in
  let sequence :=
    if negb acp && negb (base =? SIGHASH_SINGLE) && negb (base =? SIGHASH_NONE)
    then match cache with Some c => hashSequence c | None => GetSequenceHash txTo end else uint256_null in
  let? outputs :=
    if negb (base =? SIGHASH_SINGLE) && negb (base =? SIGHASH_NONE)
    then Ok (match cache with Some c => hashOutputs c | None => GetOutputsHash txTo end)
    else if (base =? SIGHASH_SINGLE) && (nIn <? zlen (vout txTo)) then
      let? txout := res_of_option (vout txTo !! Z.to_nat nIn) in
      Ok (GetHash_written (Serialize CTxOut.codec txout))
    else Ok uint256_null in
  let? txin := res_of_option (vin txTo !! Z.to_nat nIn) in
  Ok (GetHash_written (
    Serialize c_i32 (nVersion txTo) ++
    Serialize c_uint256 prevouts ++ Serialize c_uint256 sequence ++
    Serialize COutPoint.codec (CTxIn.prevout txin) ++ Serialize c_bytes scriptCode ++
    Serialize c_i64 amount ++ Serialize c_u32 (CTxIn.nSequence txin) ++
    Serialize c_uint256 outputs ++ Serialize c_u32 (nLockTime txTo) ++ Serialize c_i32 nHashType)).

Definition SignatureHash (scriptCode : CScript) (txTo : CMutableTransaction) (nIn nHashType amount : Z)
    (sigversion : SigVersion) (cache : option PrecomputedTransactionData) : res uint256 :=
  match sigversion with
  | SIGVERSION_WITNESS_V0 => SignatureHash_v0 scriptCode txTo nIn nHashType amount cache
  | SIGVERSION_BASE =>
      if zlen (vin txTo) <=? nIn then Ok one
      else if (Z.land nHashType 0x1f =? SIGHASH_SINGLE) && (zlen (vout txTo) <=? nIn) then Ok one
      else
        let? txTmp := CTransactionSignatureSerializer.Serialize_tx WORDS_BIGENDIAN
          (CTransactionSignatureSerializer.make txTo scriptCode nIn nHashType) in
        Ok (GetHash_written (txTmp ++ Serialize c_i32 nHashType))
  end.

(** ** TransactionSignatureChecker *)

Section checker.
(** [mem] is the array of a key before it is set. *)
Context (ec : secp256k1) (mem : bytes).
Context (txTo : CMutableTransaction) (nIn amount : Z) (txdata : option PrecomputedTransactionData).

Definition VerifySignature (vchSig : bytes) (pubkey : CPubKey.t) (sighash : uint256) : res bool :=
  CPubKey.Verify ec sighash vchSig pubkey.

Definition tx_CheckSig (vchSigIn vchPubKey : bytes) (scriptCode : CScript) (sigversion : SigVersion) : res bool :=
  let pubkey := CPubKey.of_vch mem vchPubKey in
  if negb (CPubKey.IsValid pubkey) then Ok false
  else if zlen vchSigIn =? 0 then Ok false
  else
    let nHashType := List.last vchSigIn 0 in
    let vchSig := removelast vchSigIn in
    let? sighash := SignatureHash scriptCode txTo nIn nHashType amount sigversion txdata in
    let? ok := VerifySignature vchSig pubkey sighash in
    Ok (if negb ok then false else true).

Definition tx_CheckLockTime (nLockTime_ : Z) : res bool :=
  if negb (((nLockTime txTo <? LOCKTIME_THRESHOLD) && (nLockTime_ <? LOCKTIME_THRESHOLD)) ||
           ((LOCKTIME_THRESHOLD <=? nLockTime txTo) && (LOCKTIME_THRESHOLD <=? nLockTime_)))
  then Ok false
  else if nLockTime txTo <? nLockTime_ then Ok false
  else
    let? txin := res_of_option (vin txTo !! Z.to_nat nIn) in
    if SEQUENCE_FINAL =? CTxIn.nSequence txin then Ok false else Ok true.

Definition tx_CheckSequence (nSequence_ : Z) : res bool :=
  let? txin := res_of_option (vin txTo !! Z.to_nat nIn) in
  let txToSequence := CTxIn.nSequence txin in
  if u32 (nVersion txTo) <? 2 then Ok false
  else if negb (Z.land txToSequence SEQUENCE_LOCKTIME_DISABLE_FLAG =? 0) then Ok false
  else
    let nLockTimeMask := Z.lor SEQUENCE_LOCKTIME_TYPE_FLAG SEQUENCE_LOCKTIME_MASK in
    let txToSequenceMasked := Z.land txToSequence nLockTimeMask in
    let nSequenceMasked := CScriptNum.and_ nSequence_ nLockTimeMask in
    if negb (((txToSequenceMasked <? SEQUENCE_LOCKTIME_TYPE_FLAG) && (nSequenceMasked <? SEQUENCE_LOCKTIME_TYPE_FLAG)) ||
             ((SEQUENCE_LOCKTIME_TYPE_FLAG <=? txToSequenceMasked) && (SEQUENCE_LOCKTIME_TYPE_FLAG <=? nSequenceMasked)))
    then Ok false
    else if txToSequenceMasked <? nSequenceMasked then Ok false else Ok true.

Definition TransactionSignatureChecker : SignatureChecker := {|
  CheckSig := tx_CheckSig;
  CheckLockTime := tx_CheckLockTime;
  CheckSequence := tx_CheckSequence;
|}.
End checker.
End sighash.
