(* ===== verification/VerifyScript.v ===== *)
(** [VerifyWitnessProgram] and [VerifyScript] of
    src/sige/src/script/interpreter.cpp.

    A function that returns false has set an error: it is [fail].  A witness
    keeps its vector in the order of the code; an evaluation stack has its back
    first. *)

From S2P Require Import Prelude Bytes BaseUint UintBytes Uint256 Serialize Codec Prevector ScriptNum Opcode Script Amount Transaction PubKey Rules Interpreter EvalScript.

(** The combinations of flags that [VerifyScript] asserts. *)
Record flags_ok (flags : Z) : Prop := {
  clean_stack_ok : has flags SCRIPT_VERIFY_CLEANSTACK = true -> has flags SCRIPT_VERIFY_WITNESS = true;
  witness_ok : has flags SCRIPT_VERIFY_WITNESS = true -> has flags SCRIPT_VERIFY_P2SH = true;
}.

Section verify.
Context (WORDS_BIGENDIAN : bool) {hashes : Hashes} (ec : secp256k1) {checker : SignatureChecker}.
Context (flags : Z).

Abbreviation Eval := (EvalScript WORDS_BIGENDIAN ec flags).

(** [scriptPubKey << OP_DUP << OP_HASH160 << program << OP_EQUALVERIFY << OP_CHECKSIG] *)
Definition witness_pubkeyhash_script (program : bytes) : res CScript :=
  let? s := put_opcode OP_DUP [] in
  let? s := put_opcode OP_HASH160 s in
  let s := put_vch WORDS_BIGENDIAN program s in
  let? s := put_opcode OP_EQUALVERIFY s in
  put_opcode OP_CHECKSIG s.

(** The script to run and its stack, of a program of version 0. *)
Definition witness_script (witness : CScriptWitness.t) (program : bytes) : eval (list bytes * CScript) :=
  if zlen program =? 32 then
    match last (CScriptWitness.stack witness) with
    | None => fail SCRIPT_ERR_WITNESS_PROGRAM_WITNESS_EMPTY
    | Some scriptPubKey =>
        if bool_decide (SHA256 scriptPubKey = program)
        then ret (rev (removelast (CScriptWitness.stack witness)), scriptPubKey)
        else fail SCRIPT_ERR_WITNESS_PROGRAM_MISMATCH
    end
  else if zlen program =? 20 then
    if negb (zlen (CScriptWitness.stack witness) =? 2) then fail SCRIPT_ERR_WITNESS_PROGRAM_MISMATCH
    else
      let* scriptPubKey := lift (witness_pubkeyhash_script program) in
      ret (rev (CScriptWitness.stack witness), scriptPubKey)
  else fail SCRIPT_ERR_WITNESS_PROGRAM_WRONG_LENGTH.

Definition VerifyWitnessProgram (witness : CScriptWitness.t) (witversion : Z) (program : bytes) : eval unit :=
  if witversion =? 0 then
    let* (st, scriptPubKey) := witness_script witness program in
    if existsb (fun vch => MAX_SCRIPT_ELEMENT_SIZE <? zlen vch) st then fail SCRIPT_ERR_PUSH_SIZE
    else
      let* st := Eval SIGVERSION_WITNESS_V0 st scriptPubKey in
      match st with
      | [top] => if negb (CastToBool top) then fail SCRIPT_ERR_EVAL_FALSE else ret tt
      | _ => fail SCRIPT_ERR_EVAL_FALSE
      end
  else if has flags SCRIPT_VERIFY_DISCOURAGE_UPGRADABLE_WITNESS_PROGRAM
  then fail SCRIPT_ERR_DISCOURAGE_UPGRADABLE_WITNESS_PROGRAM
  else ret tt.

(** [stack.resize(1)] keeps the bottom. *)
Definition resize_one (st : list bytes) : list bytes :=
  match last st with
  | Some bottom => [bottom]
  | None => [[]]
  end.

(** [if (stack.empty()) ..; if (CastToBool(stack.back()) == false) ..] *)
Definition check_top (st : list bytes) : eval unit :=
  match st with
  | [] => fail SCRIPT_ERR_EVAL_FALSE
  | top :: _ => if negb (CastToBool top) then fail SCRIPT_ERR_EVAL_FALSE else ret tt
  end.

(** Bare witness programs: the stack and [hadWitness] that are left. *)
Definition bare_witness (scriptSig scriptPubKey : CScript) (witness : CScriptWitness.t) (st : list bytes) :
    eval (list bytes * bool) :=
  if has flags SCRIPT_VERIFY_WITNESS then
    let* w := lift (IsWitnessProgram scriptPubKey) in
    match w with
    | Some (witnessversion, witnessprogram) =>
        if negb (zlen scriptSig =? 0) then fail SCRIPT_ERR_WITNESS_MALLEATED
        else
          let* _ := VerifyWitnessProgram witness witnessversion witnessprogram in
          ret (resize_one st, true)
    | None => ret (st, false)
    end
  else ret (st, false).

(** The part for outputs that pay to a script hash; [stackCopy] is what
    [scriptSig] left. *)
Definition script_hash (scriptSig : CScript) (witness : CScriptWitness.t) (stackCopy : list bytes) (hadWitness : bool) :
    eval (list bytes * bool) :=
  let* push := lift (IsPushOnly WORDS_BIGENDIAN scriptSig) in
  if negb push then fail SCRIPT_ERR_SIG_PUSHONLY
  else
    match stackCopy with
    | [] => AssertFail
    | pubKey2 :: st =>
        let* st := Eval SIGVERSION_BASE st pubKey2 in
        let* _ := check_top st in
        if has flags SCRIPT_VERIFY_WITNESS then
          let* w := lift (IsWitnessProgram pubKey2) in
          match w with
          | Some (witnessversion, witnessprogram) =>
              if negb (bool_decide (scriptSig = put_vch WORDS_BIGENDIAN pubKey2 []))
              then fail SCRIPT_ERR_WITNESS_MALLEATED_P2SH
              else
                let* _ := VerifyWitnessProgram witness witnessversion witnessprogram in
                ret (resize_one st, true)
          | None => ret (st, hadWitness)
          end
        else ret (st, hadWitness)
    end.

(** [SCRIPT_VERIFY_CLEANSTACK] *)
Definition check_clean (st : list bytes) : eval unit :=
  if has flags SCRIPT_VERIFY_CLEANSTACK then
    if negb (has flags SCRIPT_VERIFY_P2SH) then AssertFail
    else if negb (has flags SCRIPT_VERIFY_WITNESS) then AssertFail
    else if negb (zlen st =? 1) then fail SCRIPT_ERR_CLEANSTACK else ret tt
  else ret tt.

Definition check_witness (witness : CScriptWitness.t) (hadWitness : bool) : eval unit :=
  if has flags SCRIPT_VERIFY_WITNESS then
    if negb (has flags SCRIPT_VERIFY_P2SH) then AssertFail
    else if negb hadWitness && negb (CScriptWitness.IsNull witness) then fail SCRIPT_ERR_WITNESS_UNEXPECTED
    else ret tt
  else ret tt.

Definition VerifyScript (scriptSig scriptPubKey : CScript) (witness : option CScriptWitness.t) : eval unit :=
  let witness := default CScriptWitness.make witness in
  let* _ :=
    if has flags SCRIPT_VERIFY_SIGPUSHONLY then
      let* push := lift (IsPushOnly WORDS_BIGENDIAN scriptSig) in
      if negb push then fail SCRIPT_ERR_SIG_PUSHONLY else ret tt
    else ret tt in
  let* st := Eval SIGVERSION_BASE [] scriptSig in
  let stackCopy := if has flags SCRIPT_VERIFY_P2SH then st else [] in
  let* st := Eval SIGVERSION_BASE st scriptPubKey in
  let* _ := check_top st in
  let* (st, hadWitness) := bare_witness scriptSig scriptPubKey witness st in
  let* (st, hadWitness) :=
    if has flags SCRIPT_VERIFY_P2SH && IsPayToScriptHash scriptPubKey
    then script_hash scriptSig witness stackCopy hadWitness
    else ret (st, hadWitness) in
  let* _ := check_clean st in
  check_witness witness hadWitness.
End verify.
