(* ===== verification/SoftFork.v ===== *)
(** Verification flags are soft forks: a script that a set of flags accepts is
    accepted with fewer of them, with the same stack. *)

From S2P Require Import Prelude Bytes BaseUint UintBytes Uint256 Serialize Codec Prevector ScriptNum Opcode Script Amount Transaction PubKey Rules Interpreter EvalScript EvalScriptSpec VerifyScript.

(** [r] succeeds wherever [s] does, with the same value. *)
Definition le {A} (r s : eval A) : Prop := forall a, s = Ok (inr a) -> r = Ok (inr a).

#[global] Instance le_preorder {A} : PreOrder (@le A).
Proof. split; [by intros r a|]. intros r s t Hrs Hst a Ha. by apply Hrs, Hst. Qed.

Lemma le_bind {A B} (m n : eval A) (k l : A -> eval B) :
  le m n -> (forall a, le (k a) (l a)) -> le (eval_bind m k) (eval_bind n l).
Proof.
  intros Hm Hk b. destruct n as [[e|a]|w| | |]; try done. rewrite (Hm a eq_refl). cbn. apply Hk.
Qed.

Lemma le_fail {A} (r : eval A) e : le r (fail e).
Proof. done. Qed.

(** A guard that rejects less. *)
Lemma le_guard {A} (b c : bool) e (r s : eval A) :
  (b = true -> c = true) -> le r s -> le (if b then fail e else r) (if c then fail e else s).
Proof. intros H Hrs. destruct b; [by rewrite (H eq_refl)|]. by destruct c. Qed.

Lemma le_if {A} (b : bool) (r s r' s' : eval A) : le r s -> le r' s' -> le (if b then r else r') (if b then s else s').
Proof. by destruct b. Qed.

(** [loose] are some of the flags [strict].  A flag that makes an unknown
    operation an error is none where the operation gets its meaning. *)
Record weaker (loose strict : Z) : Prop := {
  weaker_subset : Z.land loose strict = loose;
  weaker_cltv : has loose SCRIPT_VERIFY_DISCOURAGE_UPGRADABLE_NOPS = true ->
    has strict SCRIPT_VERIFY_CHECKLOCKTIMEVERIFY = true -> has loose SCRIPT_VERIFY_CHECKLOCKTIMEVERIFY = true;
  weaker_csv : has loose SCRIPT_VERIFY_DISCOURAGE_UPGRADABLE_NOPS = true ->
    has strict SCRIPT_VERIFY_CHECKSEQUENCEVERIFY = true -> has loose SCRIPT_VERIFY_CHECKSEQUENCEVERIFY = true;
}.

Lemma has_mono loose strict (Hw : weaker loose strict) f : has loose f = true -> has strict f = true.
Proof.
  unfold has. rewrite <- (weaker_subset _ _ Hw) at 1. rewrite <- Z.land_assoc, !negb_true_iff, !Z.eqb_neq.
  intros H E. rewrite E, Z.land_0_r in H. done.
Qed.

(** Split a goal on [le] along the structure of its two sides. *)
Ltac le_step :=
  match goal with
  | |- le ?r ?s => constr_eq r s; reflexivity
  | |- le _ (fail _) => apply le_fail
  | |- le (if ?b then _ else _) (if ?c then _ else _) => constr_eq b c; apply le_if
  | |- le (if ?b then fail ?e else _) (if _ then fail ?e else _) => apply le_guard
  | |- le (eval_bind _ _) (eval_bind _ _) => apply le_bind; [|intros ?]
  | |- le (match ?st with [] => _ | _ :: _ => _ end) _ => destruct st
  end.

Ltac le_mask := rewrite ?andb_true_iff; intuition eauto using has_mono.

Section flags.
Context (be : bool) {hashes : Hashes} (ec : secp256k1) {checker : SignatureChecker}.
Context (loose strict : Z) (Hw : weaker loose strict) (sv : SigVersion).


Lemma scriptnum_le v k : le (scriptnum (fRequireMinimal loose) v k) (scriptnum (fRequireMinimal strict) v k).
Proof.
  unfold scriptnum, CScriptNum.make, fRequireMinimal. case_bool; [done|].
  intros n. destruct (has loose _) eqn:E; [by rewrite (has_mono _ _ Hw _ E)|]. cbn [andb].
  by destruct (has strict _ && _ && _ && _).
Qed.

Lemma op_pick_le o st : le (op_pick (fRequireMinimal loose) o st) (op_pick (fRequireMinimal strict) o st).
Proof. unfold op_pick. repeat le_step. apply scriptnum_le. Qed.

Lemma op_unary_le o st : le (op_unary (fRequireMinimal loose) o st) (op_unary (fRequireMinimal strict) o st).
Proof. unfold op_unary. repeat le_step. apply scriptnum_le. Qed.

Lemma op_binary_le o st : le (op_binary (fRequireMinimal loose) o st) (op_binary (fRequireMinimal strict) o st).
Proof. unfold op_binary. repeat le_step; apply scriptnum_le. Qed.

Lemma op_within_le st : le (op_within (fRequireMinimal loose) st) (op_within (fRequireMinimal strict) st).
Proof. unfold op_within. repeat le_step; apply scriptnum_le. Qed.

Lemma discourage_le {A} (a : A) : le (discourage_nops loose a) (discourage_nops strict a).
Proof. unfold discourage_nops. le_step; [by apply has_mono|done]. Qed.

Lemma op_checklocktimeverify_le st : le (op_checklocktimeverify loose st) (op_checklocktimeverify strict st).
Proof.
  unfold op_checklocktimeverify. destruct (has strict SCRIPT_VERIFY_CHECKLOCKTIMEVERIFY) eqn:Es; cbn [negb].
  - destruct (has loose SCRIPT_VERIFY_CHECKLOCKTIMEVERIFY) eqn:El; cbn [negb].
    + repeat le_step. apply scriptnum_le.
    + unfold discourage_nops. destruct (has loose SCRIPT_VERIFY_DISCOURAGE_UPGRADABLE_NOPS) eqn:Ed;
        [by rewrite (weaker_cltv _ _ Hw Ed Es) in El|].
      destruct st; [done|]. intros a. unfold eval_bind. destruct (scriptnum _ _ _) as [[?|n]|?| | |]; try done. cbn.
      case_bool; [done|]. destruct (CheckLockTime n) as [[]|?| | |]; done.
  - destruct (has loose SCRIPT_VERIFY_CHECKLOCKTIMEVERIFY) eqn:El; [by rewrite (has_mono _ _ Hw _ El) in Es|]. apply discourage_le.
Qed.

Lemma op_checksequenceverify_le st : le (op_checksequenceverify loose st) (op_checksequenceverify strict st).
Proof.
  unfold op_checksequenceverify. destruct (has strict SCRIPT_VERIFY_CHECKSEQUENCEVERIFY) eqn:Es; cbn [negb].
  - destruct (has loose SCRIPT_VERIFY_CHECKSEQUENCEVERIFY) eqn:El; cbn [negb].
    + repeat le_step. apply scriptnum_le.
    + unfold discourage_nops. destruct (has loose SCRIPT_VERIFY_DISCOURAGE_UPGRADABLE_NOPS) eqn:Ed;
        [by rewrite (weaker_csv _ _ Hw Ed Es) in El|].
      destruct st; [done|]. intros a. unfold eval_bind. destruct (scriptnum _ _ _) as [[?|n]|?| | |]; try done. cbn.
      case_bool; [done|]. case_bool; [done|]. destruct (CheckSequence n) as [[]|?| | |]; done.
  - destruct (has loose SCRIPT_VERIFY_CHECKSEQUENCEVERIFY) eqn:El; [by rewrite (has_mono _ _ Hw _ El) in Es|]. apply discourage_le.
Qed.

Lemma op_if_le o fe m : le (op_if loose sv o fe m) (op_if strict sv o fe m).
Proof. unfold op_if. repeat le_step. le_mask. Qed.

Lemma CheckSignatureEncoding_le sig : le (CheckSignatureEncoding ec sig loose) (CheckSignatureEncoding ec sig strict).
Proof.
  unfold CheckSignatureEncoding. repeat le_step; [le_mask| |le_mask].
  destruct (has loose SCRIPT_VERIFY_LOW_S) eqn:E; [by rewrite (has_mono _ _ Hw _ E)|].
  destruct (has strict _); [|done]. intros []. done.
Qed.

Lemma CheckPubKeyEncoding_le key : le (CheckPubKeyEncoding key loose sv) (CheckPubKeyEncoding key strict sv).
Proof. unfold CheckPubKeyEncoding. repeat le_step; le_mask. Qed.

Lemma op_checksig_le o script m : le (op_checksig be ec loose sv o script m) (op_checksig be ec strict sv o script m).
Proof.
  unfold op_checksig. repeat le_step; [apply CheckSignatureEncoding_le|apply CheckPubKeyEncoding_le|le_mask].
Qed.

Lemma sigs_loop_le fuel : forall f ns nk isig ikey st code,
  le (sigs_loop ec loose sv fuel f ns nk isig ikey st code) (sigs_loop ec strict sv fuel f ns nk isig ikey st code).
Proof.
  induction fuel as [|fuel IH]; intros; cbn [sigs_loop]; [done|].
  repeat le_step; [apply CheckSignatureEncoding_le|apply CheckPubKeyEncoding_le|apply IH].
Qed.

Lemma clean_up_le n : forall f k st, le (clean_up loose n f k st) (clean_up strict n f k st).
Proof. induction n as [|n IH]; intros; cbn [clean_up]; [done|]. repeat le_step; [le_mask|apply IH]. Qed.

Lemma op_checkmultisig_le o script m :
  le (op_checkmultisig be ec loose sv o script m) (op_checkmultisig be ec strict sv o script m).
Proof.
  unfold op_checkmultisig. repeat le_step; [apply scriptnum_le|apply scriptnum_le|apply sigs_loop_le|apply clean_up_le|le_mask].
Qed.

Lemma on_stack_le f g m : (forall st, le (f st) (g st)) -> le (on_stack f m) (on_stack g m).
Proof. intros H. unfold on_stack. by repeat le_step. Qed.

Hint Resolve op_pick_le op_unary_le op_binary_le op_within_le discourage_le op_checklocktimeverify_le
  op_checksequenceverify_le op_if_le op_checksig_le op_checkmultisig_le on_stack_le : core.

Lemma execute_le opcode fe script pc m :
  le (execute be ec loose sv opcode fe script pc m) (execute be ec strict sv opcode fe script pc m).
Proof. unfold execute. destruct (enumerator opcode) as [o|]; [|done]. destruct o; first [reflexivity|auto]. Qed.

Lemma operation_le opcode d script pc m :
  le (operation be ec loose sv opcode d script pc m) (operation be ec strict sv opcode d script pc m).
Proof. unfold operation. repeat le_step; [unfold fRequireMinimal; le_mask|apply execute_le]. Qed.

Lemma eval_loop_le fuel : forall script pc m,
  le (eval_loop be ec loose sv fuel script pc m) (eval_loop be ec strict sv fuel script pc m).
Proof.
  induction fuel as [|fuel IH]; intros; cbn [eval_loop]; [done|]. repeat le_step; [apply operation_le|apply IH].
Qed.

Lemma catch_all_le {A} (r s : eval A) : le r s -> le (catch_all r) (catch_all s).
Proof. intros H a. destruct s as [[e|b]|w| | |]; try done. cbn. intros [= ->]. by rewrite (H a). Qed.

Lemma EvalScript_le st script : le (EvalScript be ec loose sv st script) (EvalScript be ec strict sv st script).
Proof. unfold EvalScript. repeat le_step. apply catch_all_le, eval_loop_le. Qed.
End flags.

(** ** VerifyScript *)

Section verify.
Context (be : bool) {hashes : Hashes} (ec : secp256k1) {checker : SignatureChecker}.
Context (loose strict : Z) (Hw : weaker loose strict).

Lemma VerifyWitnessProgram_le witness v program :
  le (VerifyWitnessProgram be ec loose witness v program) (VerifyWitnessProgram be ec strict witness v program).
Proof.
  unfold VerifyWitnessProgram. repeat le_step; [|le_mask].
  destruct a as [st s]. repeat le_step. by apply EvalScript_le.
Qed.

(** What a value read from a successful evaluation says. *)
Lemma bind_success {A B} (m : eval A) (k : A -> eval B) b :
  eval_bind m k = Ok (inr b) -> exists a, m = Ok (inr a) /\ k a = Ok (inr b).
Proof. destruct m as [[e|a]|w| | |]; try done. by exists a. Qed.

Lemma bare_witness_le sig key w st : has loose SCRIPT_VERIFY_WITNESS = true ->
  le (bare_witness be ec loose sig key w st) (bare_witness be ec strict sig key w st).
Proof.
  intros H. unfold bare_witness. rewrite H, (has_mono _ _ Hw _ H). repeat le_step.
  destruct a as [[v p]|]; repeat le_step. by apply VerifyWitnessProgram_le.
Qed.

Lemma script_hash_le sig w copy had : has loose SCRIPT_VERIFY_WITNESS = true ->
  le (script_hash be ec loose sig w copy had) (script_hash be ec strict sig w copy had).
Proof.
  intros H. unfold script_hash. rewrite H, (has_mono _ _ Hw _ H). repeat le_step; [by apply EvalScript_le|].
  destruct a2 as [[v p]|]; repeat le_step. by apply VerifyWitnessProgram_le.
Qed.

(** Without the witness flag the redeem script alone decides. *)
Lemma script_hash_le_off sig w copy had had' r : has loose SCRIPT_VERIFY_WITNESS = false ->
  script_hash be ec strict sig w copy had = Ok (inr r) -> exists st, script_hash be ec loose sig w copy had' = Ok (inr (st, had')).
Proof.
  intros H. unfold script_hash. rewrite H. intros (push & -> & E)%bind_success. cbn [eval_bind res_bind].
  destruct (negb push); [done|]. destruct copy as [|key st]; [done|].
  apply bind_success in E as (st' & Est & E). apply bind_success in E as ([] & Et & _).
  rewrite (EvalScript_le be ec _ _ Hw _ _ _ _ Est). cbn. rewrite Et. cbn. by eexists.
Qed.

Lemma check_clean_off st : has loose SCRIPT_VERIFY_CLEANSTACK = false -> check_clean loose st = ret tt.
Proof. unfold check_clean. by intros ->. Qed.

Lemma check_clean_le st : has loose SCRIPT_VERIFY_P2SH = true -> has loose SCRIPT_VERIFY_WITNESS = true ->
  le (check_clean loose st) (check_clean strict st).
Proof.
  intros H1 H2. unfold check_clean. rewrite H1, H2, (has_mono _ _ Hw _ H1), (has_mono _ _ Hw _ H2). cbn [negb].
  destruct (has loose SCRIPT_VERIFY_CLEANSTACK) eqn:E; [by rewrite (has_mono _ _ Hw _ E)|].
  destruct (has strict _); [|done]. case_bool; [done|]. done.
Qed.
End verify.

Section soft_fork.
Context (be : bool) {hashes : Hashes} (ec : secp256k1) {checker : SignatureChecker}.
Context (loose strict : Z) (Hw : weaker loose strict) (Hok : flags_ok loose).

Lemma push_only_le sig :
  le (if has loose SCRIPT_VERIFY_SIGPUSHONLY then
        let* push := lift (IsPushOnly be sig) in if negb push then fail SCRIPT_ERR_SIG_PUSHONLY else ret tt
      else ret tt)
     (if has strict SCRIPT_VERIFY_SIGPUSHONLY then
        let* push := lift (IsPushOnly be sig) in if negb push then fail SCRIPT_ERR_SIG_PUSHONLY else ret tt
      else ret tt).
Proof.
  destruct (has loose _) eqn:E; [by rewrite (has_mono _ _ Hw _ E)|]. intros [] _. done.
Qed.

(** With the witness flag the two runs take the same way. *)
Lemma VerifyScript_le_witness sig key w : has loose SCRIPT_VERIFY_WITNESS = true ->
  le (VerifyScript be ec loose sig key w) (VerifyScript be ec strict sig key w).
Proof.
  intros H. pose proof (witness_ok _ Hok H) as Hp. unfold VerifyScript.
  rewrite Hp, (has_mono _ _ Hw _ Hp). cbn [andb].
  apply le_bind; [apply push_only_le|intros _].
  apply le_bind; [by apply EvalScript_le|intros copy].
  apply le_bind; [by apply EvalScript_le|intros st].
  apply le_bind; [reflexivity|intros _].
  apply le_bind; [by apply bare_witness_le|intros [st' had]].
  apply le_bind; [case_bool; [by apply script_hash_le|reflexivity]|intros [st'' had']].
  apply le_bind; [by apply check_clean_le|intros _].
  unfold check_witness. rewrite H, (has_mono _ _ Hw _ H), Hp, (has_mono _ _ Hw _ Hp). reflexivity.
Qed.

(** Without it, the last checks and the witness are not looked at. *)
Lemma VerifyScript_le_legacy sig key w : has loose SCRIPT_VERIFY_WITNESS = false ->
  le (VerifyScript be ec loose sig key w) (VerifyScript be ec strict sig key w).
Proof.
  intros H [] (? & E1 & E)%bind_success. unfold VerifyScript. rewrite (push_only_le _ _ E1). clear E1.
  apply bind_success in E as (copy & E1 & E). apply bind_success in E as (st & E2 & E).
  apply bind_success in E as ([] & E3 & E). apply bind_success in E as ([st' had] & E4 & E).
  apply bind_success in E as ([st'' had'] & E5 & _).
  cbn [eval_bind res_bind ret]. rewrite (EvalScript_le be ec _ _ Hw _ _ _ _ E1). cbn [eval_bind res_bind].
  rewrite (EvalScript_le be ec _ _ Hw _ _ _ _ E2). cbn [eval_bind res_bind]. rewrite E3. cbn [eval_bind res_bind].
  unfold bare_witness. rewrite H. cbn [eval_bind res_bind ret].
  assert (has loose SCRIPT_VERIFY_CLEANSTACK = false) as Hc.
  { destruct (has loose SCRIPT_VERIFY_CLEANSTACK) eqn:E'; [|done]. by rewrite (clean_stack_ok _ Hok E') in H. }
  unfold check_witness. rewrite H.
  destruct (has loose SCRIPT_VERIFY_P2SH) eqn:Ep; cbn [andb].
  - rewrite (has_mono _ _ Hw _ Ep) in E5. cbn [andb] in E5. destruct (IsPayToScriptHash key).
    + destruct (script_hash_le_off be ec _ _ Hw _ _ _ _ false _ H E5) as [s ->]. cbn. by rewrite check_clean_off.
    + cbn. by rewrite check_clean_off.
  - cbn. by rewrite check_clean_off.
Qed.
End soft_fork.

(** ** Properties *)

(** C9: Verification flags are soft forks, for evaluation and for a whole
    verification: what succeeds with some flags succeeds with fewer, with the
    same stack, whatever the hashes, the curve and the checker do.  The weaker
    flags have to be a combination that is asserted to be used, and an operation
    that they discourage as unknown must not be one that the others define. *)
Theorem flags_are_soft_forks (be : bool) {hashes : Hashes} (ec : secp256k1) {checker : SignatureChecker} (loose strict : Z) :
  weaker loose strict -> flags_ok loose ->
  (forall sv st script st', EvalScript be ec strict sv st script = Ok (inr st') ->
     EvalScript be ec loose sv st script = Ok (inr st')) /\
  (forall scriptSig scriptPubKey witness, VerifyScript be ec strict scriptSig scriptPubKey witness = Ok (inr tt) ->
     VerifyScript be ec loose scriptSig scriptPubKey witness = Ok (inr tt)).
Proof.
  intros Hw Hok. split; intros *; [by apply EvalScript_le|].
  destruct (has loose SCRIPT_VERIFY_WITNESS) eqn:E; [by apply VerifyScript_le_witness|by apply VerifyScript_le_legacy].
Qed.

(** P2SH and WITNESS against these and CLEANSTACK, MINIMALDATA and
    CHECKLOCKTIMEVERIFY, on a redeem script [OP_1] and its hash. *)
Definition demo_loose : Z := Z.lor SCRIPT_VERIFY_P2SH SCRIPT_VERIFY_WITNESS.
Definition demo_strict : Z :=
  Z.lor demo_loose (Z.lor SCRIPT_VERIFY_CLEANSTACK (Z.lor SCRIPT_VERIFY_MINIMALDATA SCRIPT_VERIFY_CHECKLOCKTIMEVERIFY)).
Definition demo_p2sh : CScript := [value OP_HASH160; 20] ++ replicate 20 1 ++ [value OP_EQUAL].

Lemma flags_are_soft_forks_witness :
  VerifyScript (hashes := toy_hashes) (checker := BaseSignatureChecker) false toy_curve demo_strict [1; value OP_1] demo_p2sh None = Ok (inr tt) /\
  VerifyScript (hashes := toy_hashes) (checker := BaseSignatureChecker) false toy_curve demo_loose [1; value OP_1] demo_p2sh None = Ok (inr tt).
Proof.
  split; [vm_compute; reflexivity|].
  apply (@flags_are_soft_forks false toy_hashes toy_curve BaseSignatureChecker demo_loose demo_strict);
    [split; vm_compute; congruence|split; vm_compute; congruence|vm_compute; reflexivity].
Defined.

(** The exception is real: with the operation discouraged as unknown and not
    enabled it fails, with it enabled as well it may pass. *)
Example discouraged_lock_time :
  let checker := {| CheckSig _ _ _ _ := Ok false; CheckLockTime _ := Ok true; CheckSequence _ := Ok true |} in
  let run flags := EvalScript (hashes := toy_hashes) (checker := checker) false toy_curve flags SIGVERSION_BASE []
    [value OP_1; value OP_CHECKLOCKTIMEVERIFY] in
  let loose := SCRIPT_VERIFY_DISCOURAGE_UPGRADABLE_NOPS in
  run loose = Ok (inl SCRIPT_ERR_DISCOURAGE_UPGRADABLE_NOPS) /\
  run (Z.lor loose SCRIPT_VERIFY_CHECKLOCKTIMEVERIFY) = Ok (inr [[1]]).
Proof. split; vm_compute; reflexivity. Qed.
