(* ===== verification/EvalRun.v ===== *)
(** Evaluation as a run over the parsed operations of a script, and what the
    standard scripts do. *)

From S2P Require Import Prelude Bytes BaseUint UintBytes Uint256 Serialize Codec Prevector ScriptNum Opcode Script Amount Transaction PubKey Rules Interpreter EvalScript EvalScriptSpec.

(** An operation with its data and the position after it. *)
Abbreviation located := (Z * bytes * Z)%type.

Fixpoint locate_fuel (fuel : nat) (pos : Z) (r : bytes) : list located :=
  match fuel, next_op r with
  | S fuel, Some (op, d, r') =>
      let pos := pos + zlen r - zlen r' in (op, d, pos) :: locate_fuel fuel pos r'
  | _, _ => []
  end.

(** The operations of what follows a position. *)
Definition locate (pos : Z) (r : bytes) : list located := locate_fuel (length r) pos r.

Lemma locate_fuel_enough f : forall g pos r, (length r <= f)%nat -> (length r <= g)%nat ->
  locate_fuel f pos r = locate_fuel g pos r.
Proof.
  induction f as [|f IH]; intros g pos r Hf Hg.
  { destruct r; [|simpl in Hf; lia]. by destruct g. }
  destruct g as [|g]; [destruct r; [done|simpl in Hg; lia]|]. cbn [locate_fuel].
  destruct (next_op r) as [[[op d] r']|] eqn:E; [|done]. pose proof (next_op_shorter _ _ _ _ E).
  f_equal. apply IH; lia.
Qed.

Lemma locate_step pos r op d r' : next_op r = Some (op, d, r') ->
  locate pos r = (op, d, pos + zlen r - zlen r') :: locate (pos + zlen r - zlen r') r'.
Proof.
  intros E. pose proof (next_op_shorter _ _ _ _ E). unfold locate. destruct (length r) as [|n] eqn:El; [lia|].
  cbn [locate_fuel]. rewrite E. f_equal. apply locate_fuel_enough; lia.
Qed.

Lemma locate_stop pos r : next_op r = None -> locate pos r = [].
Proof. intros E. unfold locate. destruct (length r); cbn [locate_fuel]; by rewrite ?E. Qed.

Section run.
Context (be : bool) {hashes : Hashes} (ec : secp256k1) {checker : SignatureChecker}.
Context (flags : Z) (sv : SigVersion).

Fixpoint run (script : CScript) (l : list located) (m : machine) : eval machine :=
  match l with
  | [] => ret m
  | (op, d, pos) :: l => let* m := operation be ec flags sv op d script pos m in run script l m
  end.

Lemma eval_bind_assoc {A B C} (m : eval A) (k : A -> eval B) (l : B -> eval C) :
  eval_bind (eval_bind m k) l = eval_bind m (fun a => eval_bind (k a) l).
Proof. by destruct m as [[e|a]|w| | |]. Qed.

Lemma eval_bind_ext {A B} (m : eval A) (k l : A -> eval B) : (forall a, k a = l a) -> eval_bind m k = eval_bind m l.
Proof. intros H. destruct m as [[e|a]|w| | |]; try done. apply H. Qed.

(** The loop over positions is the run over operations. *)
Lemma eval_loop_run r : forall fuel a script m, script = a ++ r -> script_ok script -> (length r <= fuel)%nat ->
  eval_loop be ec flags sv fuel script (zlen a) m =
  let* m := run script (locate (zlen a) r) m in
  if well_parsed r then ret m else fail SCRIPT_ERR_BAD_OPCODE.
Proof.
  induction r as [r E|r op d r' E Hl IH] using script_ind; intros fuel a script m Hr Hs Hf.
  - rewrite locate_stop by done. destruct (ops_stop _ E) as [_ ->]. cbn [run eval_bind res_bind].
    pose proof (GetOp_spec be a r) as Hg. rewrite <- Hr, E in Hg. destruct (Hg Hs) as (b & r' & _ & Hget).
    destruct fuel; cbn [eval_loop]; rewrite (at_end_script script Hs a r Hr); case_bool_decide; cbn [negb]; try done.
    + destruct r; [done|simpl in Hf; lia].
    + by rewrite Hget.
  - destruct fuel as [|fuel]; [lia|]. rewrite (locate_step _ _ _ _ _ E). destruct (ops_step _ _ _ _ E) as [_ ->].
    cbn [eval_loop run]. rewrite (at_end_script script Hs a r Hr), bool_decide_eq_false_2 by (intros ->; done). cbn [negb].
    pose proof (GetOp_spec be a r) as Hg. rewrite <- Hr, E in Hg. destruct (Hg Hs) as (b & Eb & _ & _ & Hget).
    rewrite Hget. cbn [fRet negb opcodeRet vchRet pcRet].
    assert (zlen a + zlen r - zlen r' = zlen (a ++ b)) as -> by (rewrite Eb, !zlen_app; lia).
    rewrite eval_bind_assoc. apply eval_bind_ext. intros m'.
    apply IH; [by rewrite Hr, Eb, app_assoc|done|lia].
Qed.

(** What [EvalScript] does with a script that is short enough. *)
Definition run_script (st : list bytes) (script : CScript) : eval (list bytes) :=
  let* m := catch_all (run script (locate 0 script) (Machine st [] [] 0 0)) in
  if negb (well_parsed script) then fail SCRIPT_ERR_BAD_OPCODE
  else match vfExec m with [] => ret (stack m) | _ => fail SCRIPT_ERR_UNBALANCED_CONDITIONAL end.

Lemma EvalScript_run st script : byte_list script ->
  EvalScript be ec flags sv st script =
  if MAX_SCRIPT_SIZE <? zlen script then fail SCRIPT_ERR_SCRIPT_SIZE else run_script st script.
Proof.
  intros Hb. unfold EvalScript. case_bool; [done|]. bool_hyps. unfold MAX_SCRIPT_SIZE in *.
  assert (script_ok script) as Hok by (split; [done|lia]).
  pose proof (eval_loop_run script (length script) [] script (Machine st [] [] begin_ 0) eq_refl Hok ltac:(done)) as E.
  change (zlen (@nil Z)) with begin_ in E. rewrite E. unfold run_script. change begin_ with 0.
  destruct (run _ _ _) as [[e|m]|w| | |]; try done. cbn. by destruct (well_parsed script).
Qed.
End run.

(** ** Single operations *)

(** The size limit after an operation. *)
Definition limit (m : machine) : eval machine :=
  if 1000 <? zlen (stack m) + zlen (altstack m) then fail SCRIPT_ERR_STACK_SIZE else ret m.

Lemma limit_ok m : zlen (stack m) + zlen (altstack m) <= 1000 -> limit m = ret m.
Proof. intros H. unfold limit. by rewrite (proj2 (Z.ltb_ge _ _)). Qed.

Section steps.
Context (be : bool) {hashes : Hashes} (ec : secp256k1) {checker : SignatureChecker}.
Context (flags : Z) (sv : SigVersion).

Lemma disabled_push op : op <= OP_16 -> disabled op = false.
Proof.
  intros H. apply not_true_iff_false. unfold disabled. rewrite existsb_exists. intros (o & Ho & E%Z.eqb_eq).
  repeat (destruct Ho as [<-|Ho]; [simpl in *; lia|]). done.
Qed.

(** A push outside of conditionals. *)
Lemma operation_push op d script pos m :
  0 <= op <= OP_PUSHDATA4 -> zlen d <= MAX_SCRIPT_ELEMENT_SIZE -> forallb id (vfExec m) = true ->
  CheckMinimalPush d op = true ->
  operation be ec flags sv op d script pos m = limit (with_stack (d :: stack m) m).
Proof.
  intros Hop Hd Hv Hm. unfold operation. rewrite (proj2 (Z.ltb_ge _ _)) by done.
  rewrite (proj2 (Z.ltb_ge OP_16 op)) by (simpl in *; lia). cbn [andb].
  rewrite disabled_push by (simpl in *; lia). rewrite Hv, !(proj2 (Z.leb_le _ _)) by lia. cbn [andb].
  rewrite Hm, andb_false_r. done.
Qed.

(** An enabled operation outside of conditionals. *)
Lemma operation_execute op script pos m :
  OP_16 < op -> nOpCount m < MAX_OPS_PER_SCRIPT -> disabled op = false -> forallb id (vfExec m) = true ->
  operation be ec flags sv op [] script pos m =
  let* m := execute be ec flags sv op true script pos (with_nOpCount (nOpCount m + 1) m) in limit m.
Proof.
  intros Hop Hn Hd Hv. unfold operation. change (MAX_SCRIPT_ELEMENT_SIZE <? zlen []) with false. cbn [andb].
  rewrite (proj2 (Z.ltb_lt OP_16 op)) by done. cbn [andb]. change (nOpCount (with_nOpCount (nOpCount m + 1) m)) with (nOpCount m + 1).
  rewrite (proj2 (Z.ltb_ge _ _)) by lia. rewrite Hd, Hv. cbn [andb orb].
  rewrite (proj2 (Z.leb_gt op OP_PUSHDATA4)) by (simpl in *; lia). rewrite andb_false_r. done.
Qed.

(** Runs from a machine outside of conditionals, one operation at a time. *)
Lemma run_push op d pos script l st p n :
  0 <= op <= OP_PUSHDATA4 -> zlen d <= MAX_SCRIPT_ELEMENT_SIZE -> CheckMinimalPush d op = true -> zlen st < 1000 ->
  run be ec flags sv script ((op, d, pos) :: l) (Machine st [] [] p n) =
  run be ec flags sv script l (Machine (d :: st) [] [] p n).
Proof.
  intros Hop Hd Hm Hst. cbn [run]. rewrite operation_push by done. rewrite limit_ok; [done|].
  cbn [stack altstack with_stack]. rewrite zlen_cons. unfold zlen at 2. simpl. lia.
Qed.

Lemma run_stack (o : opcodetype) f pos script l st st' p n :
  (forall m, execute be ec flags sv o true script pos m = on_stack f m) ->
  OP_16 < o -> disabled o = false -> n < MAX_OPS_PER_SCRIPT -> f st = ret st' -> zlen st' <= 1000 ->
  run be ec flags sv script ((value o, [], pos) :: l) (Machine st [] [] p n) =
  run be ec flags sv script l (Machine st' [] [] p (n + 1)).
Proof.
  intros He Ho Hd Hn Hf Hst. cbn [run]. rewrite operation_execute by done. rewrite He. unfold on_stack.
  cbn [with_nOpCount stack nOpCount altstack vfExec pbegincodehash]. rewrite Hf. cbn [eval_bind res_bind ret].
  rewrite limit_ok; [done|]. cbn [stack altstack with_stack]. unfold zlen at 2. simpl. lia.
Qed.

Lemma run_stack_fail (o : opcodetype) f pos script l st e p n :
  (forall m, execute be ec flags sv o true script pos m = on_stack f m) ->
  OP_16 < o -> disabled o = false -> n < MAX_OPS_PER_SCRIPT -> f st = fail e ->
  run be ec flags sv script ((value o, [], pos) :: l) (Machine st [] [] p n) = fail e.
Proof.
  intros He Ho Hd Hn Hf. cbn [run]. rewrite operation_execute by done. rewrite He. unfold on_stack.
  cbn [with_nOpCount stack]. by rewrite Hf.
Qed.
End steps.
