(* ===== verification/Payments.v ===== *)
(** The standard payments: what verifying an input that spends a
    pay-to-pubkey-hash output, bare or as a witness program, comes to. *)

From S2P Require Import Prelude Bytes BaseUint UintBytes Uint256 Serialize Codec Prevector ScriptNum Opcode Script Amount Transaction PubKey Rules Interpreter EvalScript EvalScriptSpec EvalRun VerifyScript.

(** [OP_DUP OP_HASH160 h OP_EQUALVERIFY OP_CHECKSIG] *)
Definition p2pkh (h : bytes) : CScript :=
  [value OP_DUP; value OP_HASH160; 20] ++ h ++ [value OP_EQUALVERIFY; value OP_CHECKSIG].

Lemma next_op_short d r : 0 < zlen d < OP_PUSHDATA1 -> next_op (zlen d :: d ++ r) = Some (zlen d, d, r).
Proof.
  intros Hd. cbn [next_op]. rewrite (proj2 (Z.leb_le _ _)) by (simpl in *; lia). unfold header.
  rewrite (proj2 (Z.ltb_lt _ _)) by lia. cbn [mbind option_bind].
  rewrite (proj2 (Z.ltb_ge _ _)) by (rewrite zlen_app; pose proof (zlen_nonneg r); lia).
  unfold zlen at 2 3. rewrite Nat2Z.id. by destruct (take_drop_block d r) as [-> ->].
Qed.

Lemma next_op_code op r : OP_PUSHDATA4 < op -> next_op (op :: r) = Some (op, [], r).
Proof. intros H. cbn [next_op]. by rewrite (proj2 (Z.leb_gt _ _)). Qed.

Lemma locate_p2pkh h : zlen h = 20 ->
  locate 0 (p2pkh h) =
    [(value OP_DUP, [], 1); (value OP_HASH160, [], 2); (20, h, 23); (value OP_EQUALVERIFY, [], 24); (value OP_CHECKSIG, [], 25)] /\
  well_parsed (p2pkh h) = true.
Proof.
  intros Hh. unfold p2pkh. cbn [app].
  assert (next_op (20 :: h ++ [value OP_EQUALVERIFY; value OP_CHECKSIG]) = Some (20, h, [value OP_EQUALVERIFY; value OP_CHECKSIG])) as E
    by (rewrite <- Hh; apply next_op_short; rewrite Hh; simpl; lia).
  split.
  - do 2 (erewrite locate_step by (apply next_op_code; simpl; lia)). erewrite locate_step by exact E.
    do 2 (erewrite locate_step by (apply next_op_code; simpl; lia)). rewrite locate_stop by done.
    rewrite !zlen_cons, !zlen_app, Hh, !zlen_cons. unfold zlen; simpl. repeat f_equal; lia.
  - do 2 (erewrite (proj2 (ops_step _ _ _ _ (next_op_code _ _ _)))). rewrite (proj2 (ops_step _ _ _ _ E)). done.
    Unshelve. all: simpl; lia.
Qed.

Lemma p2pkh_bytes h : byte_list h -> byte_list (p2pkh h).
Proof. intros H. apply byte_list_app; split; [repeat constructor; done|]. apply byte_list_app; split; [done|repeat constructor; done]. Qed.

Lemma p2pkh_length h : zlen h = 20 -> zlen (p2pkh h) = 25.
Proof. intros H. unfold p2pkh. rewrite !zlen_app, H. done. Qed.

Section payments.
Context (be : bool) {hashes : Hashes} (ec : secp256k1) {checker : SignatureChecker}.
Context (flags : Z).

(** The signature check of one [OP_CHECKSIG] with its errors. *)
Definition check_signature (sv : SigVersion) (script : CScript) (sig key : bytes) : eval bool :=
  let* code := drop_signature be sv sig script in
  let* _ := CheckSignatureEncoding ec sig flags in
  let* _ := CheckPubKeyEncoding key flags sv in
  let* ok := lift (CheckSig sig key code sv) in
  if negb ok && has flags SCRIPT_VERIFY_NULLFAIL && negb (zlen sig =? 0) then fail SCRIPT_ERR_SIG_NULLFAIL
  else ret ok.

Lemma minimal_20 h : zlen h = 20 -> CheckMinimalPush h 20 = true.
Proof. intros H. unfold CheckMinimalPush. rewrite H. done. Qed.

Lemma script_code_all script st vf n : script_code script (Machine st [] vf 0 n) = script.
Proof. apply (slice_end [] script). Qed.

Lemma op_checksig_eq sv script key sig st alt vf p n :
  op_checksig be ec flags sv OP_CHECKSIG script (Machine (key :: sig :: st) alt vf p n) =
  let* ok := check_signature sv (script_code script (Machine (key :: sig :: st) alt vf p n)) sig key in
  ret (Machine ((if ok then vchTrue else vchFalse) :: st) alt vf p n).
Proof.
  unfold op_checksig, check_signature. cbn [stack]. rewrite eval_bind_assoc. apply eval_bind_ext. intros code.
  rewrite eval_bind_assoc. apply eval_bind_ext. intros _. rewrite eval_bind_assoc. apply eval_bind_ext. intros _.
  rewrite eval_bind_assoc. apply eval_bind_ext. intros ok. by destruct (_ && _ && _).
Qed.

Lemma EvalScript_p2pkh sv h st : byte_list h -> zlen h = 20 -> zlen st <= 998 ->
  EvalScript be ec flags sv st (p2pkh h) =
  match st with
  | [] => fail SCRIPT_ERR_INVALID_STACK_OPERATION
  | key :: st =>
      if bool_decide (Hash160 key = h) then
        match st with
        | [] => fail SCRIPT_ERR_INVALID_STACK_OPERATION
        | sig :: st =>
            catch_all (let* ok := check_signature sv (p2pkh h) sig key in ret ((if ok then vchTrue else vchFalse) :: st))
        end
      else fail SCRIPT_ERR_EQUALVERIFY
  end.
Proof.
  intros Hb Hh Hst. rewrite EvalScript_run by by apply p2pkh_bytes.
  rewrite p2pkh_length by done. cbn [Z.ltb Z.compare MAX_SCRIPT_SIZE Pos.compare Pos.compare_cont].
  unfold run_script. destruct (locate_p2pkh h Hh) as [-> ->]. cbn [negb].
  destruct st as [|key st]; [by rewrite (run_stack_fail _ _ _ _ OP_DUP op_dup _ _ _ _ SCRIPT_ERR_INVALID_STACK_OPERATION)|].
  rewrite zlen_cons in Hst. pose proof (zlen_nonneg st) as Hst0.
  rewrite (run_stack _ _ _ _ OP_DUP op_dup _ _ _ _ (key :: key :: st)) by (done || (rewrite !zlen_cons; lia)).
  rewrite (run_stack _ _ _ _ OP_HASH160 (op_hash OP_HASH160) _ _ _ _ (Hash160 key :: key :: st)) by (done || (rewrite !zlen_cons; lia)).
  rewrite run_push by (first [by apply minimal_20|rewrite ?zlen_cons, ?Hh; unfold MAX_SCRIPT_ELEMENT_SIZE; simpl; lia]).
  case_bool_decide as Hk.
  - rewrite (run_stack _ _ _ _ OP_EQUALVERIFY (op_equal OP_EQUALVERIFY) _ _ _ _ (key :: st));
      [|done..|cbn [op_equal]; by rewrite Hk, bool_decide_eq_true_2|rewrite zlen_cons; lia].
    cbn [run]. rewrite operation_execute by done. rewrite eval_bind_assoc.
    change (execute be ec flags sv (value OP_CHECKSIG) true (p2pkh h) 25) with (op_checksig be ec flags sv OP_CHECKSIG (p2pkh h)).
    destruct st as [|sig st]; [done|]. rewrite zlen_cons in Hst. pose proof (zlen_nonneg st).
    unfold with_nOpCount. cbn [stack altstack vfExec pbegincodehash nOpCount].
    rewrite op_checksig_eq, script_code_all, eval_bind_assoc.
    destruct (check_signature sv (p2pkh h) sig key) as [[e|ok]|w| | |]; try done.
    cbn [eval_bind res_bind ret]. rewrite limit_ok; [done|]. cbn [stack altstack]. rewrite zlen_cons. unfold zlen at 2. simpl. lia.
  - rewrite (run_stack_fail _ _ _ _ OP_EQUALVERIFY (op_equal OP_EQUALVERIFY) _ _ _ _ SCRIPT_ERR_EQUALVERIFY); [done..|].
    cbn [op_equal]. by rewrite bool_decide_eq_false_2 by congruence.
Qed.

(** ** Pushes *)

(** Data that a minimal push can carry and no shorter operation. *)
Record pushable (d : bytes) : Prop := {
  pushable_bytes : byte_list d;
  pushable_size : zlen d <= MAX_SCRIPT_ELEMENT_SIZE;
  pushable_not_small : zlen d <> 1;
}.

Lemma minimal_push d : pushable d -> CheckMinimalPush d (push_opcode d) = true.
Proof.
  intros [_ Hs Hn]. unfold MAX_SCRIPT_ELEMENT_SIZE in Hs. unfold CheckMinimalPush, push_opcode.
  destruct (Z.eqb_spec (zlen d) 0) as [->|]; [done|]. rewrite (proj2 (Z.eqb_neq (zlen d) 1)) by done. cbn [andb].
  pose proof (zlen_nonneg d). change (value OP_PUSHDATA1) with 76.
  destruct (Z.leb_spec (zlen d) 75); [rewrite (proj2 (Z.ltb_lt _ _)) by lia; apply Z.eqb_refl|].
  rewrite (proj2 (Z.ltb_ge _ _)) by lia. change 0xff with 255. change 0xffff with 65535. destruct (Z.leb_spec (zlen d) 255); [done|].
  by rewrite !(proj2 (Z.leb_le _ _)) by lia.
Qed.

Lemma push_opcode_range d : 0 <= push_opcode d <= OP_PUSHDATA4.
Proof. unfold push_opcode. pose proof (zlen_nonneg d). repeat case_bool; bool_hyps; simpl in *; lia. Qed.

Lemma pushable_next d r : pushable d -> next_op (put_vch be d [] ++ r) = Some (push_opcode d, d, r).
Proof. intros [_ Hs _]. unfold MAX_SCRIPT_ELEMENT_SIZE in Hs. apply next_op_push. lia. Qed.

Lemma put_vch_length d : pushable d -> zlen (put_vch be d []) <= 525.
Proof.
  intros [_ Hs _]. unfold MAX_SCRIPT_ELEMENT_SIZE in Hs. unfold put_vch.
  destruct (write_le be (replicate 2 0) (u16 (zlen d))) as (W2 & _ & _).
  destruct (write_le be (replicate 4 0) (u32 (zlen d))) as (_ & W4 & _).
  rewrite W2, W4 by (apply wrap_range; lia).
  repeat case_bool; rewrite !zlen_app; unfold zlen in *; rewrite ?length_app, ?length_le_bytes; simpl; lia.
Qed.

(** A script that pushes the items of [ds], the last on top. *)
Definition push_all (ds : list bytes) : CScript := foldl (fun s d => put_vch be d s) [] ds.

Lemma push_all_snoc ds d : push_all (ds ++ [d]) = push_all ds ++ put_vch be d [].
Proof. unfold push_all. rewrite foldl_app. cbn [foldl]. apply put_vch_app. Qed.

Lemma push_all_cons d ds : push_all (d :: ds) = put_vch be d [] ++ push_all ds.
Proof.
  induction ds as [|e ds IH] using rev_ind; [unfold push_all; cbn; by rewrite app_nil_r|].
  by rewrite app_comm_cons, !push_all_snoc, IH, app_assoc.
Qed.

Lemma push_all_ok ds : Forall pushable ds -> byte_list (push_all ds) /\ zlen (push_all ds) <= 525 * zlen ds /\
  pushes (push_all ds) = true /\ well_parsed (push_all ds) = true.
Proof.
  induction 1 as [|d ds Hd Hds (IH1 & IH2 & IH3 & IH4)]; [repeat split; [constructor|by vm_compute]|].
  rewrite push_all_cons, zlen_app, zlen_cons. pose proof (put_vch_length d Hd).
  destruct (ops_step _ _ _ _ (pushable_next d (push_all ds) Hd)) as [Eo Ew].
  split_and!; [apply byte_list_app; split; [apply put_vch_bytes, Hd|done]|lia| |by rewrite Ew].
  unfold pushes in *. rewrite Eo, Ew. cbn [forallb fst]. apply andb_true_iff in IH3 as [-> ->].
  rewrite (proj2 (Z.leb_le _ _)); [done|]. pose proof (push_opcode_range d). simpl in *. lia.
Qed.

Lemma run_pushes sv script ds : Forall pushable ds -> forall pos st p n, zlen st + zlen ds <= 1000 ->
  run be ec flags sv script (locate pos (push_all ds)) (Machine st [] [] p n) = ret (Machine (rev ds ++ st) [] [] p n).
Proof.
  induction 1 as [|d ds Hd Hds IH]; intros pos st p n Hst; [done|]. rewrite zlen_cons in Hst. pose proof (zlen_nonneg ds).
  rewrite push_all_cons, (locate_step _ _ _ _ _ (pushable_next d _ Hd)).
  rewrite run_push by (first [apply push_opcode_range|apply Hd|by apply minimal_push|lia]).
  rewrite IH by (rewrite zlen_cons; lia). cbn [rev]. by rewrite <- app_assoc.
Qed.

(** Evaluating a script of pushes. *)
Lemma EvalScript_pushes sv ds : Forall pushable ds -> zlen ds <= 19 ->
  EvalScript be ec flags sv [] (push_all ds) = ret (rev ds).
Proof.
  intros Hds Hl. destruct (push_all_ok ds Hds) as (Hb & Hs & _ & Hw). rewrite EvalScript_run by done.
  rewrite (proj2 (Z.ltb_ge _ _)) by (unfold MAX_SCRIPT_SIZE; lia). unfold run_script.
  rewrite run_pushes by (done || (unfold zlen at 1; simpl; lia)). cbn. rewrite Hw, app_nil_r. done.
Qed.

Lemma IsPushOnly_push_all ds : Forall pushable ds -> zlen ds <= 19 -> IsPushOnly be (push_all ds) = Ok true.
Proof.
  intros Hds Hl. destruct (push_all_ok ds Hds) as (Hb & Hs & Hp & _). rewrite <- Hp.
  apply (push_only_spec be (push_all ds) (length (push_all ds)) []); [split; [done|simpl; lia]|done].
Qed.

(** ** Script hashes *)

(** [OP_HASH160 h OP_EQUAL] *)
Definition p2sh (h : bytes) : CScript := [value OP_HASH160; 20] ++ h ++ [value OP_EQUAL].

Lemma locate_p2sh h : zlen h = 20 ->
  locate 0 (p2sh h) = [(value OP_HASH160, [], 1); (20, h, 22); (value OP_EQUAL, [], 23)] /\ well_parsed (p2sh h) = true.
Proof.
  intros Hh. unfold p2sh. cbn [app].
  assert (next_op (20 :: h ++ [value OP_EQUAL]) = Some (20, h, [value OP_EQUAL])) as E
    by (rewrite <- Hh; apply next_op_short; rewrite Hh; simpl; lia).
  split.
  - erewrite locate_step by (apply next_op_code; simpl; lia). erewrite locate_step by exact E.
    erewrite locate_step by (apply next_op_code; simpl; lia). rewrite locate_stop by done.
    rewrite !zlen_cons, !zlen_app, Hh, !zlen_cons. unfold zlen; simpl. repeat f_equal; lia.
  - erewrite (proj2 (ops_step _ _ _ _ (next_op_code _ _ _))). rewrite (proj2 (ops_step _ _ _ _ E)). done.
    Unshelve. all: simpl; lia.
Qed.

Lemma p2sh_bytes h : byte_list h -> byte_list (p2sh h).
Proof. intros H. apply byte_list_app; split; [repeat constructor; done|]. apply byte_list_app; split; [done|repeat constructor; done]. Qed.

Lemma EvalScript_p2sh sv h st : byte_list h -> zlen h = 20 -> zlen st <= 999 ->
  EvalScript be ec flags sv st (p2sh h) =
  match st with
  | [] => fail SCRIPT_ERR_INVALID_STACK_OPERATION
  | d :: st => ret ((if bool_decide (Hash160 d = h) then vchTrue else vchFalse) :: st)
  end.
Proof.
  intros Hb Hh Hst. rewrite EvalScript_run by by apply p2sh_bytes.
  replace (zlen (p2sh h)) with 23 by (unfold p2sh; rewrite !zlen_app, Hh; done).
  cbn [Z.ltb Z.compare MAX_SCRIPT_SIZE Pos.compare Pos.compare_cont].
  unfold run_script. destruct (locate_p2sh h Hh) as [-> ->]. cbn [negb].
  destruct st as [|d st]; [by rewrite (run_stack_fail _ _ _ _ OP_HASH160 (op_hash OP_HASH160) _ _ _ _ SCRIPT_ERR_INVALID_STACK_OPERATION)|].
  rewrite zlen_cons in Hst. pose proof (zlen_nonneg st).
  rewrite (run_stack _ _ _ _ OP_HASH160 (op_hash OP_HASH160) _ _ _ _ (Hash160 d :: st)) by (done || (rewrite !zlen_cons; lia)).
  rewrite run_push by (first [by apply minimal_20|rewrite ?zlen_cons, ?Hh; unfold MAX_SCRIPT_ELEMENT_SIZE; simpl; lia]).
  rewrite (run_stack _ _ _ _ OP_EQUAL (op_equal OP_EQUAL) _ _ _ _
    ((if bool_decide (Hash160 d = h) then vchTrue else vchFalse) :: st)) by (done || (rewrite ?zlen_cons; lia)).
  done.
Qed.

(** ** Verification *)

(** The verdict on a signature and a key against a hash. *)
Definition pays (sv : SigVersion) (h sig key : bytes) : eval unit :=
  if bool_decide (Hash160 key = h) then
    let* ok := catch_all (check_signature sv (p2pkh h) sig key) in
    if ok then ret tt else fail SCRIPT_ERR_EVAL_FALSE
  else fail SCRIPT_ERR_EQUALVERIFY.

Lemma catch_bind {A B} (m : eval A) (k : A -> eval B) :
  (forall a, catch_all (k a) = k a) -> catch_all (eval_bind m k) = eval_bind (catch_all m) k.
Proof. intros H. destruct m as [[e|a]|w| | |]; try done. apply H. Qed.

(** An evaluation of the script and the check of its single result. *)
Lemma pays_eval {B} sv h sig key (k : eval B) : byte_list h -> zlen h = 20 ->
  (let* st := EvalScript be ec flags sv [key; sig] (p2pkh h) in let* _ := check_top st in k) =
  let* _ := pays sv h sig key in k.
Proof.
  intros Hb Hh. rewrite EvalScript_p2pkh by (done || (unfold zlen; simpl; lia)). unfold pays.
  case_bool_decide; [|done]. rewrite catch_bind by (by intros []). rewrite eval_bind_assoc, eval_bind_assoc.
  apply eval_bind_ext. by intros [].
Qed.

Lemma check_clean_one top : flags_ok flags -> check_clean flags [top] = ret tt.
Proof.
  intros [H1 H2]. unfold check_clean. destruct (has flags SCRIPT_VERIFY_CLEANSTACK); [|done].
  rewrite (H2 (H1 eq_refl)), (H1 eq_refl). done.
Qed.

Lemma push_only_passes sig : IsPushOnly be sig = Ok true ->
  (if has flags SCRIPT_VERIFY_SIGPUSHONLY then
     let* push := lift (IsPushOnly be sig) in if negb push then fail SCRIPT_ERR_SIG_PUSHONLY else ret tt
   else ret tt) = ret tt.
Proof. intros ->. by destruct (has flags _). Qed.

(** *** A bare output *)

Lemma not_templates h : byte_list h -> zlen h = 20 ->
  IsPayToScriptHash (p2pkh h) = false /\ IsWitnessProgram (p2pkh h) = Ok None.
Proof.
  intros Hb Hh. unfold IsPayToScriptHash, IsWitnessProgram. rewrite !p2pkh_length by done.
  change (at_ (p2pkh h) 0) with 118. done.
Qed.

Lemma pays_bare sig key h : pushable sig -> pushable key -> byte_list h -> zlen h = 20 -> flags_ok flags ->
  VerifyScript be ec flags (push_all [sig; key]) (p2pkh h) None = pays SIGVERSION_BASE h sig key.
Proof.
  intros Hs Hk Hb Hh Hf. unfold VerifyScript. cbn [default from_option id].
  assert (Forall pushable [sig; key]) as Hds by (repeat (constructor; [done|]); constructor).
  rewrite push_only_passes by by apply IsPushOnly_push_all.
  rewrite (EvalScript_pushes SIGVERSION_BASE [sig; key]) by done. cbn [rev app].
  destruct (not_templates h Hb Hh) as [E1 E2]. rewrite E1, andb_false_r.
  cbn [eval_bind res_bind ret]. unfold bare_witness, check_witness. rewrite E2. cbn [lift res_bind ret eval_bind].
  rewrite EvalScript_p2pkh by (done || (unfold zlen; simpl; lia)). unfold pays. case_bool_decide; [|done].
  rewrite catch_bind by (by intros []). destruct (catch_all _) as [[e|ok]|w| | |]; try done.
  cbn [eval_bind res_bind ret]. destruct ok; [|done]. cbn [check_top negb CastToBool vchTrue eval_bind res_bind ret].
  pose proof (witness_ok _ Hf) as Hw. pose proof (check_clean_one [1] Hf) as Hc. unfold vchTrue.
  destruct (has flags SCRIPT_VERIFY_WITNESS); cbn [eval_bind res_bind ret]; rewrite Hc; cbn [eval_bind res_bind ret]; [by rewrite Hw|done].
Qed.

(** *** Witness programs *)

Lemma witness_pubkeyhash_script_eq h : zlen h = 20 -> witness_pubkeyhash_script be h = Ok (p2pkh h).
Proof.
  intros Hh. unfold witness_pubkeyhash_script. cbn. unfold put_vch. rewrite Hh. cbn. unfold p2pkh. by rewrite <- app_assoc.
Qed.

Lemma VerifyWitnessProgram_pkh sig key h : element sig -> element key -> byte_list h -> zlen h = 20 ->
  VerifyWitnessProgram be ec flags (CScriptWitness.mk [sig; key]) 0 h = pays SIGVERSION_WITNESS_V0 h sig key.
Proof.
  intros [_ Hs] [_ Hk] Hb Hh. unfold VerifyWitnessProgram, witness_script. rewrite Hh. cbn [Z.eqb Pos.eqb CScriptWitness.stack].
  change (zlen [sig; key] =? 2) with true. cbn [negb]. rewrite witness_pubkeyhash_script_eq by done.
  cbn [lift res_bind ret eval_bind rev app existsb].
  rewrite !(proj2 (Z.ltb_ge MAX_SCRIPT_ELEMENT_SIZE _)) by done. cbn [orb].
  rewrite EvalScript_p2pkh by (done || (unfold zlen; simpl; lia)). unfold pays. case_bool_decide; [|done].
  rewrite catch_bind by (by intros []). rewrite eval_bind_assoc. apply eval_bind_ext. by intros [].
Qed.

(** [OP_0 h] *)
Definition p2wpkh (h : bytes) : CScript := [value OP_0; 20] ++ h.

Lemma p2wpkh_push h : byte_list h -> zlen h = 20 -> p2wpkh h = push_all [[]; h] /\ Forall pushable [[]; h].
Proof.
  intros Hb Hh. split.
  - rewrite !push_all_cons. change (put_vch be [] []) with [0]. unfold put_vch. rewrite Hh. cbn.
    by rewrite app_nil_r.
  - constructor; [split; [constructor|unfold MAX_SCRIPT_ELEMENT_SIZE, zlen; simpl; lia|unfold zlen; simpl; lia]|]. constructor; [|constructor].
    split; [done|rewrite Hh; unfold MAX_SCRIPT_ELEMENT_SIZE; lia|by rewrite Hh].
Qed.

Lemma p2wpkh_program h : zlen h = 20 -> IsWitnessProgram (p2wpkh h) = Ok (Some (0, h)) /\
  IsPayToScriptHash (p2wpkh h) = false.
Proof.
  intros Hh. assert (zlen (p2wpkh h) = 22) as El by (unfold p2wpkh; rewrite zlen_app, Hh; done).
  unfold IsWitnessProgram, IsPayToScriptHash. rewrite El. split; [|done].
  change (at_ (p2wpkh h) 0) with 0. change (at_ (p2wpkh h) 1) with 20. cbn -[slice].
  do 3 f_equal. apply (slice_end [0; 20] h).
Qed.

Lemma EvalScript_p2wpkh h : byte_list h -> zlen h = 20 ->
  EvalScript be ec flags SIGVERSION_BASE [] (p2wpkh h) = ret [h; []].
Proof. intros Hb Hh. destruct (p2wpkh_push h Hb Hh) as [-> Hp]. by apply EvalScript_pushes. Qed.

Lemma pays_witness sig key h : element sig -> element key -> byte_list h -> zlen h = 20 -> CastToBool h = true ->
  flags_ok flags -> has flags SCRIPT_VERIFY_WITNESS = true ->
  VerifyScript be ec flags [] (p2wpkh h) (Some (CScriptWitness.mk [sig; key])) = pays SIGVERSION_WITNESS_V0 h sig key.
Proof.
  intros Hs Hk Hb Hh Ht Hf Hw. unfold VerifyScript. cbn [default from_option id].
  pose proof (IsPushOnly_push_all [] ltac:(constructor) ltac:(done)) as Ep. change (push_all []) with (@nil Z) in Ep. rewrite (push_only_passes _ Ep).
  pose proof (EvalScript_pushes SIGVERSION_BASE [] ltac:(constructor) ltac:(done)) as Ee.
  change (push_all []) with (@nil Z) in Ee. rewrite Ee.
  cbn [rev eval_bind res_bind ret]. rewrite EvalScript_p2wpkh by done. cbn [check_top eval_bind res_bind ret]. rewrite Ht.
  cbn [negb eval_bind res_bind ret]. destruct (p2wpkh_program h Hh) as [E1 E2]. rewrite E2, andb_false_r.
  unfold bare_witness, check_witness. rewrite Hw, E1, (witness_ok _ Hf Hw). cbn [lift res_bind ret eval_bind].
  change (zlen (@nil Z)) with 0. cbn [Z.eqb negb]. rewrite VerifyWitnessProgram_pkh by done.
  destruct (pays _ _ _ _) as [[e|[]]|w| | |]; try done. cbn [eval_bind res_bind ret].
  change (resize_one [h; []]) with [@nil Z].
  by rewrite check_clean_one.
Qed.

(** *** A witness program behind a script hash *)

Lemma pays_nested sig key h : element sig -> element key -> byte_list h -> zlen h = 20 -> CastToBool h = true ->
  byte_list (Hash160 (p2wpkh h)) -> zlen (Hash160 (p2wpkh h)) = 20 ->
  flags_ok flags -> has flags SCRIPT_VERIFY_WITNESS = true ->
  VerifyScript be ec flags (push_all [p2wpkh h]) (p2sh (Hash160 (p2wpkh h))) (Some (CScriptWitness.mk [sig; key])) =
  pays SIGVERSION_WITNESS_V0 h sig key.
Proof.
  intros Hs Hk Hb Hh Ht Hrb Hrl Hf Hw. unfold VerifyScript. cbn [default from_option id].
  assert (Forall pushable [p2wpkh h]) as Hp.
  { constructor; [|constructor]. unfold p2wpkh.
    split; [apply byte_list_app; split; [repeat constructor; done|done]| |]; rewrite zlen_app, Hh; unfold MAX_SCRIPT_ELEMENT_SIZE, zlen; simpl; lia. }
  rewrite push_only_passes by by apply IsPushOnly_push_all. rewrite (EvalScript_pushes SIGVERSION_BASE [p2wpkh h]) by done.
  cbn [rev app eval_bind res_bind ret]. set (rh := Hash160 (p2wpkh h)) in *.
  rewrite EvalScript_p2sh by done. fold rh. rewrite bool_decide_eq_true_2 by done.
  cbn [check_top eval_bind res_bind ret vchTrue CastToBool Z.eqb negb].
  unfold bare_witness, check_witness. rewrite Hw, (witness_ok _ Hf Hw).
  assert (IsWitnessProgram (p2sh rh) = Ok None) as -> by
    (unfold IsWitnessProgram; replace (zlen (p2sh rh)) with 23 by (unfold p2sh; rewrite !zlen_app, Hrl; done); done).
  assert (IsPayToScriptHash (p2sh rh) = true) as -> by (apply p2sh_spec; by exists rh).
  cbn [andb lift res_bind ret eval_bind]. unfold script_hash.
  rewrite (IsPushOnly_push_all [p2wpkh h]) by done. cbn [lift res_bind ret eval_bind negb].
  rewrite EvalScript_p2wpkh by done. cbn [check_top eval_bind res_bind ret]. rewrite Ht, Hw. cbn [negb].
  destruct (p2wpkh_program h Hh) as [-> _]. cbn [lift res_bind ret eval_bind].
  change (push_all [p2wpkh h]) with (put_vch be (p2wpkh h) []). rewrite bool_decide_eq_true_2 by done. cbn [negb].
  rewrite VerifyWitnessProgram_pkh by done.
  destruct (pays _ _ _ _) as [[e|[]]|w| | |]; try done. cbn [eval_bind res_bind ret].
  change (resize_one [h; []]) with [@nil Z].
  by rewrite check_clean_one.
Qed.
End payments.

(** ** Properties *)

(** C10: Paying to a public key hash means what it says, in each of its three
    forms.  An input that gives a signature and a key spends the bare output, the
    witness program, and the witness program behind a script hash, exactly when the
    key has the hash and the signature check of the key passes; in every other
    case the error is the one of the failed hash comparison or of the check.
    What the signature signs is the script of the bare form, under the rules of
    the form's version.  A witness program must not be false as a number. *)
Theorem pay_to_pubkey_hash (be : bool) {hashes : Hashes} {hashes_laws : HashesLaws} (ec : secp256k1)
    {checker : SignatureChecker} (flags : Z) (sig key h : bytes) :
  flags_ok flags -> byte_list h -> zlen h = 20 ->
  (pushable sig -> pushable key ->
   VerifyScript be ec flags (push_all be [sig; key]) (p2pkh h) None = pays be ec flags SIGVERSION_BASE h sig key) /\
  (element sig -> element key -> CastToBool h = true -> has flags SCRIPT_VERIFY_WITNESS = true ->
   let witness := Some (CScriptWitness.mk [sig; key]) in
   VerifyScript be ec flags [] (p2wpkh h) witness = pays be ec flags SIGVERSION_WITNESS_V0 h sig key /\
   VerifyScript be ec flags (push_all be [p2wpkh h]) (p2sh (Hash160 (p2wpkh h))) witness =
     pays be ec flags SIGVERSION_WITNESS_V0 h sig key).
Proof.
  intros Hf Hb Hh. split; [intros; by apply pays_bare|]. intros Hs Hk Ht Hw. split; [by apply pays_witness|].
  destruct (RIPEMD160_size (SHA256 (p2wpkh h))) as [Hrb Hrl].
  apply pays_nested; try done. unfold zlen, Hash160. by rewrite Hrl.
Qed.

(** P2SH and WITNESS. *)
Definition demo_flags : Z := Z.lor SCRIPT_VERIFY_P2SH SCRIPT_VERIFY_WITNESS.

Lemma demo_flags_ok : flags_ok demo_flags.
Proof. split; vm_compute; congruence. Qed.

(** A checker that knows one signature. *)
Definition demo_checker : SignatureChecker := {|
  CheckSig sig key code v := Ok (bool_decide (sig = [9; 9])); CheckLockTime _ := Ok false; CheckSequence _ := Ok false |}.

Lemma pay_to_pubkey_hash_witness :
  let verify := VerifyScript (hashes := toy_hashes) (checker := demo_checker) false toy_curve demo_flags in
  verify (push_all false [[9; 9]; [2; 2]]) (p2pkh (replicate 20 1)) None = Ok (inr tt) /\
  verify [] (p2wpkh (replicate 20 1)) (Some (CScriptWitness.mk [[9; 8]; [2; 2]])) = Ok (inl SCRIPT_ERR_EVAL_FALSE) /\
  verify (push_all false [p2wpkh (replicate 20 1)]) (p2sh (replicate 20 1)) (Some (CScriptWitness.mk [[9; 9]; [2; 2]])) = Ok (inr tt).
Proof.
  assert (forall d, element d \/ d = [9; 9] \/ d = [9; 8] \/ d = [2; 2] -> element d) as He.
  { intros d [H|H]; [exact H|]. apply element_short; destruct H as [->|[->| ->]]; first [repeat constructor; done|simpl; lia]. }
  assert (forall d, d = [9; 9] \/ d = [2; 2] -> pushable d) as Hp.
  { intros d H. destruct H as [->| ->]; (split; [repeat constructor; done|unfold MAX_SCRIPT_ELEMENT_SIZE, zlen; simpl; lia|unfold zlen; simpl; lia]). }
  pose proof (fun sig => @pay_to_pubkey_hash false toy_hashes toy_hashes_ok toy_curve demo_checker demo_flags sig [2; 2] (replicate 20 1)
    demo_flags_ok ltac:(repeat constructor; done) eq_refl) as H.
  split_and!.
  - destruct (H [9; 9]) as [H1 _]. rewrite H1 by auto. vm_compute. reflexivity.
  - destruct (H [9; 8]) as [_ H2]. destruct H2 as [H2 _]; [auto|auto|reflexivity|reflexivity|]. rewrite H2. vm_compute. reflexivity.
  - destruct (H [9; 9]) as [_ H2]. destruct H2 as [_ H2]; [auto|auto|reflexivity|reflexivity|].
    etransitivity; [exact H2|]. vm_compute. reflexivity.
Defined.
