(* ===== verification/VerifySpec.v ===== *)
(** [VerifyScript] is safe: it returns a verdict on every input. *)

From S2P Require Import Prelude Bytes BaseUint UintBytes Uint256 Serialize Codec Prevector ScriptNum Opcode Script Amount Transaction PubKey Rules Interpreter EvalScript EvalScriptSpec EvalRun VerifyScript Payments.

(** An error or a value with [P], and nothing else. *)
Definition returns {A} (P : A -> Prop) (r : eval A) : Prop :=
  match r with
  | Ok (inl _) => True
  | Ok (inr a) => P a
  | _ => False
  end.

Lemma returns_bind {A B} (P : A -> Prop) (Q : B -> Prop) (m : eval A) (k : A -> eval B) :
  returns P m -> (forall a, P a -> returns Q (k a)) -> returns Q (eval_bind m k).
Proof. intros Hm Hk. destruct m as [[e|a]|w| | |]; try done. cbn. by apply Hk. Qed.

Lemma returns_if {A} (P : A -> Prop) (b : bool) x y :
  (b = true -> returns P x) -> (b = false -> returns P y) -> returns P (if b then x else y).
Proof. destruct b; auto. Qed.

(** The arguments of a verification are bytes. *)
Definition witness_bytes (w : CScriptWitness.t) : Prop := Forall byte_list (CScriptWitness.stack w).

Section verify.
Context (be : bool) {hashes : Hashes} {hashes_laws : HashesLaws} (ec : secp256k1) {curve_laws : CurveLaws ec}.
Context {checker : SignatureChecker} {checker_laws : CheckerLaws}.
Context (flags : Z) (Hf : flags_ok flags).

Lemma EvalScript_returns sv st script : elements st -> byte_list script -> returns elements (EvalScript be ec flags sv st script).
Proof. intros Hst Hb. destruct (EvalScript_total be ec flags sv st script Hst Hb) as ([e|st'] & -> & H); [done|]. by apply H. Qed.

Lemma IsWitnessProgram_returns s : script_ok s ->
  returns (fun w => forall v p, w = Some (v, p) -> byte_list p /\ v < 2 ^ 31) (lift (IsWitnessProgram s)).
Proof.
  intros H. pose proof (IsWitnessProgram_spec s H) as Hw.
  destruct (IsWitnessProgram s) as [[[v p]|]|w| | |]; try done. cbn. intros v' p' [= <- <-].
  destruct Hw as (Hv & _ & op & _ & E). destruct H as [Hb _]. rewrite E in Hb. apply byte_list_app in Hb as [_ Hb].
  split; [done|lia].
Qed.

Lemma IsPushOnly_returns s : script_ok s -> returns (fun _ => True) (lift (IsPushOnly be s)).
Proof. intros H. pose proof (push_only_spec be s (length s) [] H ltac:(done)) as E. change (IsPushOnly be s = Ok (pushes s)) in E. by rewrite E. Qed.

Lemma check_top_returns st : returns (fun _ => True) (check_top st).
Proof. destruct st as [|top st]; [done|]. cbn. by destruct (negb _). Qed.

Lemma last_In {A} (l : list A) x : last l = Some x -> x ∈ l.
Proof. intros H. apply last_Some in H as [l' ->]. set_solver. Qed.

Lemma removelast_Forall {A} (P : A -> Prop) l : Forall P l -> Forall P (removelast l).
Proof.
  intros H. destruct l as [|x l _] using rev_ind; [done|]. rewrite removelast_last. by apply Forall_app in H as [? _].
Qed.

Lemma witness_script_returns w p : witness_bytes w -> byte_list p ->
  returns (fun '(st, s) => Forall byte_list st /\ byte_list s) (witness_script be w p).
Proof.
  intros Hw Hp. unfold witness_script. apply returns_if; intros Hl.
  - destruct (last _) as [s|] eqn:E; [|done]. apply returns_if; intros _; [|done]. cbn.
    split; [by apply Forall_rev, removelast_Forall|]. apply last_In in E. unfold witness_bytes in Hw. rewrite Forall_forall in Hw. auto.
  - apply returns_if; intros Hl2; [|done]. apply returns_if; intros _; [done|]. apply Z.eqb_eq in Hl2.
    rewrite witness_pubkeyhash_script_eq by done. cbn. split; [by apply Forall_rev|by apply p2pkh_bytes].
Qed.

Lemma VerifyWitnessProgram_returns w v p : witness_bytes w -> byte_list p ->
  returns (fun _ => True) (VerifyWitnessProgram be ec flags w v p).
Proof.
  intros Hw Hp. unfold VerifyWitnessProgram. apply returns_if; intros _; [|by apply returns_if].
  eapply returns_bind; [by apply witness_script_returns|]. intros [st s] [Hst Hs].
  apply returns_if; intros Hsize; [done|].
  eapply returns_bind.
  - apply EvalScript_returns; [|done]. apply Forall_forall. intros d Hd. rewrite Forall_forall in Hst. split; [auto|].
    destruct (Z.leb_spec (zlen d) MAX_SCRIPT_ELEMENT_SIZE); [done|]. exfalso.
    apply not_true_iff_false in Hsize. apply Hsize, existsb_exists. exists d. split; [by apply list_elem_of_In|by apply Z.ltb_lt].
  - intros [|top [|? ?]] _; try done. by apply returns_if.
Qed.

(** A script hash output is not satisfied by an empty stack. *)
Lemma p2sh_needs_item s st : byte_list s -> IsPayToScriptHash s = true ->
  EvalScript be ec flags SIGVERSION_BASE [] s <> ret st.
Proof.
  intros Hb (h & Hh & E)%p2sh_spec. rewrite E in Hb |- *. apply byte_list_app in Hb as [_ Hb]. apply byte_list_app in Hb as [Hb _].
  change ([OP_HASH160 : Z; 20] ++ h ++ [OP_EQUAL : Z]) with (p2sh h). by rewrite EvalScript_p2sh.
Qed.

Lemma bare_witness_returns sig key w st : script_ok key -> witness_bytes w ->
  returns (fun _ => True) (bare_witness be ec flags sig key w st).
Proof.
  intros Hk Hw. unfold bare_witness. apply returns_if; intros _; [|done].
  eapply returns_bind; [by apply IsWitnessProgram_returns|]. intros [[v p]|] H; [|done].
  apply returns_if; intros _; [done|]. eapply returns_bind; [apply VerifyWitnessProgram_returns; [done|by eapply H]|done].
Qed.

Lemma script_hash_returns sig w copy had : script_ok sig -> witness_bytes w -> elements copy -> copy <> [] ->
  returns (fun _ => True) (script_hash be ec flags sig w copy had).
Proof.
  intros Hs Hw Hc Hne. unfold script_hash. eapply returns_bind; [by apply IsPushOnly_returns|]. intros push _.
  apply returns_if; intros _; [done|]. destruct copy as [|key st]; [done|]. apply Forall_cons in Hc as [[Hkb Hkl] Hst].
  eapply returns_bind; [by apply EvalScript_returns|]. intros st' _. eapply returns_bind; [apply check_top_returns|]. intros _ _.
  apply returns_if; intros _; [|done].
  eapply returns_bind; [apply IsWitnessProgram_returns; split; [done|unfold MAX_SCRIPT_ELEMENT_SIZE in Hkl; lia]|].
  intros [[v p]|] H; [|done]. apply returns_if; intros _; [done|].
  eapply returns_bind; [apply VerifyWitnessProgram_returns; [done|by eapply H]|done].
Qed.

Lemma check_clean_returns st : returns (fun _ => True) (check_clean flags st).
Proof.
  unfold check_clean. destruct (has flags SCRIPT_VERIFY_CLEANSTACK) eqn:E; [|done].
  pose proof (clean_stack_ok _ Hf E) as Hw. rewrite (witness_ok _ Hf Hw), Hw. cbn [negb]. by apply returns_if.
Qed.

Lemma check_witness_returns w had : returns (fun _ => True) (check_witness flags w had).
Proof.
  unfold check_witness. destruct (has flags SCRIPT_VERIFY_WITNESS) eqn:E; [|done].
  rewrite (witness_ok _ Hf E). cbn [negb]. by apply returns_if.
Qed.

Lemma VerifyScript_returns sig key w : script_ok sig -> script_ok key -> witness_bytes (default CScriptWitness.make w) ->
  returns (fun _ => True) (VerifyScript be ec flags sig key w).
Proof.
  intros Hs Hk Hw. unfold VerifyScript. set (w' := default CScriptWitness.make w) in *. clearbody w'.
  eapply (returns_bind (fun _ => True)).
  { apply returns_if; intros _; [|done]. eapply returns_bind; [by apply IsPushOnly_returns|]. intros ? _. by apply returns_if. }
  intros _ _. eapply returns_bind; [apply EvalScript_returns; [constructor|apply Hs]|]. intros copy Hcopy.
  destruct (EvalScript be ec flags SIGVERSION_BASE copy key) as [[e|st]|w''| | |] eqn:Ek;
    try (pose proof (EvalScript_returns SIGVERSION_BASE copy key Hcopy (proj1 Hk)) as Hr; rewrite Ek in Hr; done).
  cbn [eval_bind res_bind]. eapply returns_bind; [apply check_top_returns|]. intros _ _.
  eapply returns_bind; [by apply bare_witness_returns|]. intros [st' had] _.
  eapply (returns_bind (fun _ => True)).
  - destruct (has flags SCRIPT_VERIFY_P2SH); cbn [andb]; [|done]. apply returns_if; intros Ep; [|done].
    apply script_hash_returns; [done|done|done|]. intros ->. by apply (p2sh_needs_item key st (proj1 Hk) Ep).
  - intros [st'' had'] _. eapply returns_bind; [apply check_clean_returns|]. intros _ _. apply check_witness_returns.
Qed.
End verify.

(** C8: Verification is total: on scripts and a witness of any bytes, and with any
    combination of flags that is asserted to be used, [VerifyScript] returns a
    verdict.  Neither of its own assertions fails, the one that the stack of a
    script-hash spend is not empty included, and no exception leaves it. *)
Theorem VerifyScript_safe (be : bool) {hashes : Hashes} {hashes_laws : HashesLaws} (ec : secp256k1) {curve_laws : CurveLaws ec}
    {checker : SignatureChecker} {checker_laws : CheckerLaws} (flags : Z) (scriptSig scriptPubKey : CScript)
    (witness : option CScriptWitness.t) :
  flags_ok flags -> script_ok scriptSig -> script_ok scriptPubKey -> witness_bytes (default CScriptWitness.make witness) ->
  exists r, VerifyScript be ec flags scriptSig scriptPubKey witness = Ok r.
Proof.
  intros Hf Hs Hk Hw. pose proof (VerifyScript_returns be ec flags Hf _ _ _ Hs Hk Hw) as H.
  destruct (VerifyScript _ _ _ _ _ _) as [r|w| | |]; try done. by exists r.
Qed.

Lemma VerifyScript_safe_witness :
  exists r, VerifyScript (hashes := toy_hashes) (checker := BaseSignatureChecker) false toy_curve demo_flags
    [1; 5] (p2sh (replicate 20 1)) (Some (CScriptWitness.mk [[7]])) = Ok r.
Proof.
  apply (@VerifyScript_safe false toy_hashes toy_hashes_ok toy_curve toy_curve_ok BaseSignatureChecker base_checker_ok demo_flags);
    [exact demo_flags_ok|split; [repeat constructor; done|done]|split; [repeat constructor; done|done]|repeat constructor; done].
Defined.
