(* ===== verification/Multisig.v ===== *)
(** [OP_CHECKMULTISIG]: the loop over signatures and keys finds a matching
    exactly when there is one. *)

From S2P Require Import Prelude Bytes BaseUint UintBytes Uint256 Serialize Codec Prevector ScriptNum Opcode Script Amount Transaction PubKey Rules Interpreter EvalScript EvalScriptSpec EvalRun.

(** ** Matching in order *)

Section matching.
Context (check : bytes -> bytes -> bool).

(** The signatures belong, in order, to some of the keys. *)
Definition signed_by (sigs keys : list bytes) : Prop :=
  exists ks, ks `sublist_of` keys /\ Forall2 (fun s k => check s k = true) sigs ks.

(** Give each key to the first signature that still needs one. *)
Fixpoint greedy (sigs keys : list bytes) : bool :=
  match sigs, keys with
  | [], _ => true
  | _, [] => false
  | s :: ss, k :: ks => if check s k then greedy ss ks else greedy sigs ks
  end.

Lemma signed_by_nil keys : signed_by [] keys.
Proof. exists []. split; [apply sublist_nil_l|constructor]. Qed.

(** A matching survives the loss of its first signature. *)
Lemma signed_by_tail s ss k ks : signed_by (s :: ss) (k :: ks) -> signed_by ss ks.
Proof.
  intros (l & Hl & H). apply Forall2_cons_inv_l in H as (x & l' & _ & H & ->). exists l'. split; [|done].
  apply sublist_cons_r in Hl as [Hl|(l'' & [= -> ->] & Hl)]; [|done].
  etransitivity; [|exact Hl]. by constructor.
Qed.

Lemma signed_by_skip s ss k ks : check s k = false -> signed_by (s :: ss) (k :: ks) -> signed_by (s :: ss) ks.
Proof.
  intros Hc (l & Hl & H). exists l. split; [|done].
  apply sublist_cons_r in Hl as [Hl|(l' & -> & _)]; [done|].
  apply Forall2_cons_1 in H as [H _]. congruence.
Qed.

Lemma greedy_spec keys : forall sigs, greedy sigs keys = true <-> signed_by sigs keys.
Proof.
  induction keys as [|k ks IH]; intros [|s ss]; cbn [greedy]; try (split; [intros _; apply signed_by_nil|done]).
  - split; [done|]. intros (l & ->%sublist_nil_r & H). by apply Forall2_length in H.
  - destruct (check s k) eqn:E; rewrite IH.
    + split; [|apply signed_by_tail]. intros (l & Hl & H). exists (k :: l). split; [by constructor|by constructor].
    + split; [|by apply signed_by_skip]. intros (l & Hl & H). exists l. split; [by constructor|done].
Qed.

Lemma greedy_short sigs keys : zlen keys < zlen sigs -> greedy sigs keys = false.
Proof.
  intros H. apply not_true_iff_false. rewrite greedy_spec. intros (l & Hl & H2).
  apply sublist_length in Hl. apply Forall2_length in H2. unfold zlen in H. lia.
Qed.
End matching.

(** ** Positions on the stack *)

Lemma stacktop_mid a x r i : i = zlen a + 1 -> stacktop i (a ++ x :: r) = Ok x.
Proof.
  intros ->. unfold stacktop. pose proof (zlen_nonneg a). rewrite (proj2 (Z.leb_gt _ _)) by lia.
  replace (Z.to_nat (zlen a + 1 - 1)) with (length a) by (unfold zlen; lia). by rewrite list_lookup_middle.
Qed.

Lemma i32_small (st : list bytes) : zlen st < 2 ^ 31 -> i32 (zlen st) = zlen st.
Proof. intros H. pose proof (zlen_nonneg st). apply swrap_small; unfold in_s; lia. Qed.

Section multisig.
Context (be : bool) (ec : secp256k1) {checker : SignatureChecker}.
Context (flags : Z) (sv : SigVersion).

(** All the signatures dropped from the script code. *)
Fixpoint drop_all (sigs : list bytes) (code : CScript) : eval CScript :=
  match sigs with
  | [] => ret code
  | sig :: sigs => let* code := drop_signature be sv sig code in drop_all sigs code
  end.

Lemma drop_signatures_eq isig r sigs : forall a k code, isig + k = zlen a + 1 ->
  drop_signatures be sv (length sigs) k isig (a ++ sigs ++ r) code = drop_all sigs code.
Proof.
  induction sigs as [|sig sigs IH]; intros a k code Hk; cbn [drop_signatures length drop_all]; [done|].
  rewrite <- app_comm_cons, (stacktop_mid a sig (sigs ++ r)) by lia. cbn [lift res_bind ret eval_bind].
  apply eval_bind_ext. intros code'. replace (a ++ sig :: sigs ++ r) with ((a ++ [sig]) ++ sigs ++ r) by by rewrite <- app_assoc.
  apply IH. rewrite zlen_app. unfold zlen at 2. simpl. lia.
Qed.

(** The loop over the keys [keys] from [ikey] and the signatures [sigs] from
    [isig] on. *)
Lemma sigs_loop_eq check code keys : forall sigs fuel a c b d isig ikey,
  (forall sig, sig ∈ sigs -> CheckSignatureEncoding ec sig flags = ret tt) ->
  (forall key, key ∈ keys -> CheckPubKeyEncoding key flags sv = ret tt) ->
  (forall sig key, sig ∈ sigs -> key ∈ keys -> CheckSig sig key code sv = Ok (check sig key)) ->
  ikey = zlen a + 1 -> isig = zlen b + 1 -> a ++ keys ++ c = b ++ sigs ++ d -> (length keys <= fuel)%nat -> zlen sigs <= zlen keys ->
  sigs_loop ec flags sv fuel true (zlen sigs) (zlen keys) isig ikey (a ++ keys ++ c) code = ret (greedy check sigs keys).
Proof.
  induction keys as [|key keys IH]; intros sigs fuel a c b d isig ikey Hs Hk Hc Hik His Est Hf Hl;
    destruct sigs as [|sig sigs]; cbn [greedy].
  - by destruct fuel.
  - rewrite zlen_cons in Hl. pose proof (zlen_nonneg sigs). unfold zlen in Hl at 2. simpl in Hl. lia.
  - by destruct fuel.
  - destruct fuel as [|fuel]; [simpl in Hf; lia|]. rewrite !zlen_cons in *. pose proof (zlen_nonneg sigs). cbn [sigs_loop].
    rewrite (proj2 (Z.ltb_lt 0 _)) by lia. cbn [andb].
    rewrite Est at 1. rewrite <- (app_comm_cons sigs d sig), (stacktop_mid b) by done. cbn [lift res_bind ret eval_bind].
    rewrite <- (app_comm_cons keys c key), (stacktop_mid a) by done. cbn [lift res_bind ret eval_bind].
    rewrite Hs, Hk, Hc by apply list_elem_of_here. cbn [lift res_bind ret eval_bind].
    replace (a ++ key :: keys ++ c) with ((a ++ [key]) ++ keys ++ c) by by rewrite <- app_assoc.
    replace (zlen keys + 1 - 1) with (zlen keys) by lia.
    assert (zlen (a ++ [key]) = zlen a + 1) as Ea by (rewrite zlen_app; done).
    destruct (check sig key).
    + replace (zlen sigs + 1 - 1) with (zlen sigs) by lia. rewrite (proj2 (Z.ltb_ge _ _)) by lia.
      apply (IH sigs fuel (a ++ [key]) c (b ++ [sig]) d); auto using list_elem_of_further.
      * lia.
      * rewrite zlen_app. unfold zlen at 2. simpl. lia.
      * by rewrite <- !app_assoc.
      * simpl in Hf; lia.
      * lia.
    + destruct (Z.ltb_spec (zlen keys) (zlen sigs + 1)) as [Hlt|Hge].
      * rewrite greedy_short by (rewrite zlen_cons; lia). by destruct fuel.
      * rewrite <- (zlen_cons sig sigs).
        apply (IH (sig :: sigs) fuel (a ++ [key]) c b d); auto using list_elem_of_further.
        -- lia.
        -- by rewrite <- app_assoc.
        -- simpl in Hf; lia.
        -- rewrite zlen_cons; lia.
Qed.

(** The clean-up: the items above the signatures, then the signatures. *)
Lemma clean_up_above f a : forall n k st, zlen a <= k ->
  clean_up flags (length a + n) f k (a ++ st) = clean_up flags n f (k - zlen a) st.
Proof.
  induction a as [|x a IH]; intros n k st Hk; cbn [length Nat.add app]; [unfold zlen; simpl; by rewrite Z.sub_0_r|].
  rewrite zlen_cons in *. pose proof (zlen_nonneg a). cbn [clean_up].
  change (stacktop 1 (x :: a ++ st)) with (@Ok bytes x). cbn [lift res_bind ret eval_bind popstack].
  rewrite (proj2 (Z.eqb_neq k 0)) by lia. rewrite andb_false_r. cbn [andb]. rewrite (proj2 (Z.ltb_lt 0 k)) by lia.
  rewrite IH by lia. f_equal. lia.
Qed.

Definition nonempty (d : bytes) : bool := negb (zlen d =? 0).

Lemma clean_up_sigs f sigs : forall st,
  clean_up flags (length sigs) f 0 (sigs ++ st) =
  if negb f && has flags SCRIPT_VERIFY_NULLFAIL && existsb nonempty sigs then fail SCRIPT_ERR_SIG_NULLFAIL else ret st.
Proof.
  induction sigs as [|sig sigs IH]; intros st; cbn [length app clean_up existsb]; [by rewrite andb_false_r|].
  change (stacktop 1 (sig :: sigs ++ st)) with (@Ok bytes sig). cbn [lift res_bind ret eval_bind popstack Z.eqb Z.ltb Z.compare].
  rewrite andb_true_r. fold (nonempty sig). rewrite IH.
  by destruct (negb f && has flags SCRIPT_VERIFY_NULLFAIL), (nonempty sig).
Qed.

Lemma op_checkmultisig_eq o script vk keys vs sigs dummy rest alt vf p n code check :
  let st := vk :: keys ++ vs :: sigs ++ dummy :: rest in
  zlen st < 2 ^ 31 ->
  scriptnum (fRequireMinimal flags) vk CScriptNum.nDefaultMaxNumSize = ret (zlen keys) ->
  scriptnum (fRequireMinimal flags) vs CScriptNum.nDefaultMaxNumSize = ret (zlen sigs) ->
  zlen keys <= MAX_PUBKEYS_PER_MULTISIG -> zlen sigs <= zlen keys -> n + zlen keys <= MAX_OPS_PER_SCRIPT ->
  drop_all sigs (script_code script (Machine st alt vf p n)) = ret code ->
  (forall sig, sig ∈ sigs -> CheckSignatureEncoding ec sig flags = ret tt) ->
  (forall key, key ∈ keys -> CheckPubKeyEncoding key flags sv = ret tt) ->
  (forall sig key, sig ∈ sigs -> key ∈ keys -> CheckSig sig key code sv = Ok (check sig key)) ->
  op_checkmultisig be ec flags sv o script (Machine st alt vf p n) =
  let ok := greedy check sigs keys in
  if negb ok && has flags SCRIPT_VERIFY_NULLFAIL && existsb nonempty sigs then fail SCRIPT_ERR_SIG_NULLFAIL
  else if has flags SCRIPT_VERIFY_NULLDUMMY && nonempty dummy then fail SCRIPT_ERR_SIG_NULLDUMMY
  else
    let* st := push_bool (is_op o OP_CHECKMULTISIGVERIFY) SCRIPT_ERR_CHECKMULTISIGVERIFY ok rest in
    ret (Machine st alt vf p (n + zlen keys)).
Proof.
  intros st Hst Hvk Hvs Hk20 Hsk Hops Hdrop Hs Hk Hc. unfold op_checkmultisig. cbn [stack].
  unfold MAX_PUBKEYS_PER_MULTISIG, MAX_OPS_PER_SCRIPT in *.
  pose proof (zlen_nonneg keys). pose proof (zlen_nonneg sigs). pose proof (zlen_nonneg rest).
  assert (zlen st = zlen keys + zlen sigs + zlen rest + 3) as Hlen
    by (subst st; rewrite zlen_cons, zlen_app, zlen_cons, zlen_app, zlen_cons; lia).
  rewrite i32_small by done. rewrite (proj2 (Z.ltb_ge (zlen st) 1)) by lia.
  change (stacktop 1 st) with (@Ok bytes vk). cbn [lift res_bind ret eval_bind]. rewrite Hvk. cbn [ret eval_bind res_bind].
  rewrite getint_id by lia. rewrite (proj2 (Z.ltb_ge (zlen keys) 0)), (proj2 (Z.ltb_ge 20 (zlen keys))) by lia. cbn [orb with_nOpCount nOpCount altstack vfExec pbegincodehash].
  rewrite (proj2 (Z.ltb_ge 201 _)) by lia. rewrite (proj2 (Z.ltb_ge (zlen st) _)) by lia.
  assert (stacktop (1 + 1 + zlen keys) st = Ok vs) as ->
    by (apply (stacktop_mid (vk :: keys) vs); rewrite zlen_cons; lia).
  cbn [lift res_bind ret eval_bind]. rewrite Hvs. cbn [ret eval_bind res_bind].
  rewrite getint_id by lia. rewrite (proj2 (Z.ltb_ge (zlen sigs) 0)), (proj2 (Z.ltb_ge (zlen keys) (zlen sigs))) by lia. cbn [orb].
  rewrite (proj2 (Z.ltb_ge (zlen st) _)) by lia.
  assert (Z.to_nat (zlen sigs) = length sigs) as -> by (unfold zlen; lia).
  assert (st = ((vk :: keys) ++ [vs]) ++ sigs ++ dummy :: rest) as E by (subst st; cbn [app]; by rewrite <- !app_assoc).
  rewrite E at 1. rewrite drop_signatures_eq by (rewrite zlen_app, zlen_cons; unfold zlen; simpl; lia).
  unfold script_code in Hdrop |- *. cbn [pbegincodehash with_nOpCount] in Hdrop |- *. rewrite Hdrop. cbn [ret eval_bind res_bind].
  assert (st = [vk] ++ keys ++ vs :: sigs ++ dummy :: rest) as E2 by done.
  rewrite E2 at 1. rewrite (sigs_loop_eq check code keys sigs _ [vk] (vs :: sigs ++ dummy :: rest) ((vk :: keys) ++ [vs]) (dummy :: rest));
    [|done..|rewrite zlen_app, zlen_cons; unfold zlen; simpl; lia|by rewrite <- E2|unfold zlen; lia|done].
  cbn [ret eval_bind res_bind].
  replace (Z.to_nat (1 + 1 + zlen keys + 1 + zlen sigs - 1)) with (length ((vk :: keys) ++ [vs]) + length sigs)%nat
    by (rewrite length_app; unfold zlen; simpl; lia).
  rewrite E at 1. rewrite clean_up_above by (rewrite zlen_app, zlen_cons; unfold zlen; simpl; lia).
  replace (zlen keys + 2 - zlen ((vk :: keys) ++ [vs])) with 0 by (rewrite zlen_app, zlen_cons; unfold zlen at 3; simpl; lia).
  rewrite clean_up_sigs. cbv zeta. destruct (_ && _ && existsb _ _); [done|]. cbn [ret eval_bind res_bind].
  fold (nonempty dummy). destruct (_ && nonempty dummy); [done|]. done.
Qed.
End multisig.

(** ** Properties *)

(** C11: [OP_CHECKMULTISIG] accepts exactly when there is a matching: with the
    counts, keys, signatures and the extra element in place, encodings that the
    flags allow and a checker that answers, its result is true if and only if the
    signatures belong, in the order of the stack, to a subsequence of the keys.
    The loop's early exit never loses one.  A failure with a signature that is
    not empty and an extra element that is not empty are errors under their
    flags; otherwise the operands are gone, the extra element too, and only the
    result is left on what was below. *)
Theorem multisig_correct (be : bool) (ec : secp256k1) {checker : SignatureChecker} (flags : Z) (sv : SigVersion)
    (o : opcodetype) (script code : CScript) (vk vs dummy : bytes) (keys sigs rest alt : list bytes) (vf : list bool) (p n : Z)
    (check : bytes -> bytes -> bool) :
  let st := vk :: keys ++ vs :: sigs ++ dummy :: rest in
  zlen st < 2 ^ 31 ->
  scriptnum (fRequireMinimal flags) vk CScriptNum.nDefaultMaxNumSize = ret (zlen keys) ->
  scriptnum (fRequireMinimal flags) vs CScriptNum.nDefaultMaxNumSize = ret (zlen sigs) ->
  zlen keys <= MAX_PUBKEYS_PER_MULTISIG -> zlen sigs <= zlen keys -> n + zlen keys <= MAX_OPS_PER_SCRIPT ->
  drop_all be sv sigs (script_code script (Machine st alt vf p n)) = ret code ->
  (forall sig, sig ∈ sigs -> CheckSignatureEncoding ec sig flags = ret tt) ->
  (forall key, key ∈ keys -> CheckPubKeyEncoding key flags sv = ret tt) ->
  (forall sig key, sig ∈ sigs -> key ∈ keys -> CheckSig sig key code sv = Ok (check sig key)) ->
  exists ok, (ok = true <-> signed_by check sigs keys) /\
    op_checkmultisig be ec flags sv o script (Machine st alt vf p n) =
      if negb ok && has flags SCRIPT_VERIFY_NULLFAIL && existsb nonempty sigs then fail SCRIPT_ERR_SIG_NULLFAIL
      else if has flags SCRIPT_VERIFY_NULLDUMMY && nonempty dummy then fail SCRIPT_ERR_SIG_NULLDUMMY
      else
        let* st := push_bool (is_op o OP_CHECKMULTISIGVERIFY) SCRIPT_ERR_CHECKMULTISIGVERIFY ok rest in
        ret (Machine st alt vf p (n + zlen keys)).
Proof.
  intros st Hst Hvk Hvs Hk20 Hsk Hops Hdrop Hs Hk Hc. exists (greedy check sigs keys). split; [apply greedy_spec|].
  by apply op_checkmultisig_eq with (code := code).
Qed.

(** Two of three: the signatures are their keys, and the second key signs nothing. *)
Definition echo_checker : SignatureChecker := {|
  CheckSig sig key code v := Ok (bool_decide (sig = key)); CheckLockTime _ := Ok false; CheckSequence _ := Ok false |}.

Lemma multisig_correct_witness :
  op_checkmultisig (checker := echo_checker) false toy_curve 0 SIGVERSION_BASE OP_CHECKMULTISIG [value OP_CHECKMULTISIG]
    (Machine [[3]; [7; 7]; [8; 8]; [9; 9]; [2]; [7; 7]; [9; 9]; []; [5]] [] [] 0 1) = ret (Machine [[1]; [5]] [] [] 0 4).
Proof.
  destruct (@multisig_correct false toy_curve echo_checker 0 SIGVERSION_BASE OP_CHECKMULTISIG [value OP_CHECKMULTISIG]
    [value OP_CHECKMULTISIG] [3] [2] [] [[7; 7]; [8; 8]; [9; 9]] [[7; 7]; [9; 9]] [[5]] [] [] 0 1 (fun s k => bool_decide (s = k)))
    as (ok & Hok & E); [reflexivity|reflexivity|reflexivity|by vm_compute|by vm_compute|by vm_compute|reflexivity|..].
  - intros sig Hs. apply list_elem_of_In in Hs. repeat (destruct Hs as [<-|Hs]; [reflexivity|]). destruct Hs.
  - intros key Hk. apply list_elem_of_In in Hk. repeat (destruct Hk as [<-|Hk]; [reflexivity|]). destruct Hk.
  - intros sig key _ _. reflexivity.
  - assert (ok = true) as ->.
    { apply Hok. exists [[7; 7]; [9; 9]]. split; [repeat constructor|repeat constructor]. }
    exact E.
Defined.
