(* ===== verification/SigHashSpec.v ===== *)
(** The signature hash against its first definition. *)

From S2P Require Import Prelude Bytes BaseUint UintBytes Uint256 Serialize Codec Prevector ScriptNum Opcode Script Amount Transaction PubKey Rules Interpreter SigHash.

(** ** The first definition

    [SignatureHashOld] of src/test/sighash_tests.cpp, the function that the tests
    compare with: it changes a copy of the transaction and serialises that. *)

Section old.
Context (sizeof_CTxIn sizeof_CTxOut sizeof_vector : Z) (WORDS_BIGENDIAN : bool) {hashes : Hashes}.

Definition set_scriptSig (s : CScript) (i : CTxIn.t) : CTxIn.t :=
  CTxIn.mk (CTxIn.prevout i) s (CTxIn.nSequence i) (CTxIn.scriptWitness i).
Definition set_nSequence (n : Z) (i : CTxIn.t) : CTxIn.t :=
  CTxIn.mk (CTxIn.prevout i) (CTxIn.scriptSig i) n (CTxIn.scriptWitness i).

(** [if (i != nIn) txTmp.vin[i].nSequence = 0;] for every input. *)
Definition zero_sequences (nIn : Z) (vin : list CTxIn.t) : list CTxIn.t :=
  imap (fun i txin => if negb (Z.of_nat i =? nIn) then set_nSequence 0 txin else txin) vin.

Definition SignatureHashOld (scriptCode : CScript) (txTo : CMutableTransaction) (nIn nHashType : Z) : res uint256 :=
  if zlen (vin txTo) <=? nIn then Ok one
  else
    let? separator := put_opcode OP_CODESEPARATOR [] in
    let? (scriptCode, _) := FindAndDelete WORDS_BIGENDIAN separator scriptCode in
    let vin := map (set_scriptSig []) (vin txTo) in
    let vin := alter (set_scriptSig scriptCode) (Z.to_nat nIn) vin in
    let base := Z.land nHashType 0x1f in
    let? (vin, vout) :=
      if base =? SIGHASH_NONE then Ok (zero_sequences nIn vin, Some [])
      else if base =? SIGHASH_SINGLE then
        if zlen (vout txTo) <=? nIn then Ok (vin, None)
        else
          let vout := take (Z.to_nat (nIn + 1)) (vout txTo) in
          let vout := imap (fun i txout => if Z.of_nat i <? nIn then CTxOut.SetNull else txout) vout in
          Ok (zero_sequences nIn vin, Some vout)
      else Ok (vin, Some (vout txTo)) in
    match vout with
    | None => Ok one
    | Some vout =>
        let? vin :=
          if has nHashType SIGHASH_ANYONECANPAY then
            let? txin := res_of_option (vin !! Z.to_nat nIn) in Ok [txin]
          else Ok vin in
        let txTmp := mk_tx (nVersion txTo) vin vout (nLockTime txTo) in
        Ok (GetHash_written (
          SerializeTransaction sizeof_CTxIn sizeof_CTxOut sizeof_vector SERIALIZE_TRANSACTION_NO_WITNESS txTmp ++
          Serialize c_i32 nHashType))
    end.
End old.

(** ** Script code without separators *)

Lemma deleted_fun b r r1 k1 : b <> [] -> deleted b r r1 k1 -> forall r2 k2, deleted b r r2 k2 -> r1 = r2 /\ k1 = k2.
Proof.
  intros Hb. induction 1 as [r r1 k1 H IH|x op d r r1 k1 Hn E H IH|r Hn E]; intros r2 k2 H2.
  - inversion H2 as [r' r2' k' H2' E1|x op d r' r2' k' Hn' E' H2' E1|r' Hn' E' E1]; subst.
    + apply app_inv_head in E1 as ->. by destruct (IH _ _ H2') as [-> ->].
    + exfalso. apply Hn'. rewrite E1. by eexists.
    + exfalso. apply Hn'. by eexists.
  - inversion H2 as [r' r2' k' H2' E1|x' op' d' r' r2' k' Hn' E' H2' E1|r' Hn' E' E1]; subst.
    + exfalso. apply Hn. rewrite <- E1. by eexists.
    + rewrite E1 in E'. rewrite E in E'. injection E' as <- <- <-. apply app_inv_tail in E1 as ->.
      by destruct (IH _ _ H2') as [-> ->].
    + congruence.
  - inversion H2 as [r' r2' k' H2' E1|x' op' d' r' r2' k' Hn' E' H2' E1|r' Hn' E' E1]; subst; [|congruence|done].
    exfalso. apply Hn. by eexists.
Qed.

Section script_code.
Context (be : bool).
Import CTransactionSignatureSerializer.

Lemma not_separator r op d r' : next_op r = Some (op, d, r') -> op <> OP_CODESEPARATOR -> ~ [value OP_CODESEPARATOR] `prefix_of` r.
Proof. intros E Ho [k ->]. cbn in E. injection E as <- _ _. by apply Ho. Qed.

Lemma separator_next r d r' : next_op r = Some (value OP_CODESEPARATOR, d, r') -> r = [value OP_CODESEPARATOR] ++ r'.
Proof.
  destruct r as [|x r]; [done|]. cbn [next_op]. case_bool.
  - intros [[n r1] [E H]]%bind_Some. case_bool_in H; [done|]. injection H as -> _ _. bool_hyps. simpl in *. lia.
  - intros [= -> _ ->]. done.
Qed.

(** The two loops from a position on: [c] is what is still to be written. *)
Lemma loops_spec r : forall fuel code a b c n s, script_ok code -> code = a ++ r -> a = b ++ c -> well_parsed r = true ->
  (length r <= fuel)%nat -> 0 <= n -> n + zlen r < 2 ^ 31 ->
  exists r' k s' itBegin, deleted [value OP_CODESEPARATOR] r r' k /\
    count_loop be fuel code (zlen a) n = Ok (n + k) /\
    write_loop be fuel code (zlen a) (zlen b) s = Ok (s', zlen code, itBegin) /\
    s' ++ slice code itBegin (zlen code) = s ++ c ++ r'.
Proof.
  induction r as [r E|r op d r' E Hl IH] using script_ind; intros fuel code a b c n s Hok Hr Ha Hw Hf Hn Hb.
  - destruct (ops_stop _ E) as [_ Hw']. rewrite Hw in Hw'. symmetry in Hw'. apply bool_decide_eq_true in Hw'. subst r.
    rewrite app_nil_r in Hr. subst code. exists [], 0, s, (zlen b).
    pose proof (GetOp_spec be a []) as Hg. rewrite E, app_nil_r in Hg. destruct (Hg Hok) as (b' & r' & Hb' & Hget).
    symmetry in Hb'. apply app_nil in Hb' as [-> ->]. rewrite app_nil_r in Hget.
    split_and!.
    + apply deleted_stop; [by intros [k Hk]|done].
    + destruct fuel; cbn [count_loop]; rewrite Hget; cbn [fRet getop_fail]; f_equal; lia.
    + destruct fuel; cbn [write_loop]; rewrite Hget; done.
    + rewrite app_nil_r, Ha. f_equal. apply (slice_end b c).
  - destruct (ops_step _ _ _ _ E) as [_ Hw']. rewrite Hw in Hw'. symmetry in Hw'.
    pose proof (GetOp_spec be a r) as Hg. rewrite <- Hr, E in Hg. destruct (Hg Hok) as (x & Ex & Hx & _ & Hget).
    destruct fuel as [|fuel]; [lia|]. cbn [count_loop write_loop]. rewrite Hget. cbn [fRet pcRet opcodeRet].
    pose proof (zlen_nonneg r'). assert (zlen r = zlen x + zlen r') as Hxl by (by rewrite Ex, zlen_app).
    assert (1 <= zlen x) by (destruct x; [done|rewrite zlen_cons; pose proof (zlen_nonneg x); lia]).
    destruct (Z.eqb_spec op OP_CODESEPARATOR) as [->|Ho].
    + pose proof (separator_next _ _ _ E) as Es. assert (x = [value OP_CODESEPARATOR]) as -> by
        (rewrite Es in Ex; by apply app_inv_tail in Ex).
      rewrite wrap_small by (unfold in_u; lia).
      destruct (IH fuel code (a ++ [value OP_CODESEPARATOR]) (a ++ [value OP_CODESEPARATOR]) [] (n + 1)
        (s ++ slice code (zlen b) (zlen (a ++ [value OP_CODESEPARATOR]) - 1))) as (r1 & k & s' & ib & Hd & Hc & Hwr & Es');
        [done|by rewrite <- app_assoc, <- Es|by rewrite app_nil_r|done|lia|lia|lia|].
      exists r1, (k + 1), s', ib. rewrite Hc, Hwr. split_and!; [rewrite Es; by apply deleted_match|f_equal; lia|done|].
      rewrite Es'. cbn [app]. rewrite <- app_assoc. f_equal. f_equal.
      replace (zlen (a ++ [value OP_CODESEPARATOR]) - 1) with (zlen b + zlen c)
        by (rewrite Ha, !zlen_app; unfold zlen at 5; simpl; lia).
      rewrite Hr, Ha, <- app_assoc. apply slice_mid.
    + destruct (IH fuel code (a ++ x) b (c ++ x) n s) as (r1 & k & s' & ib & Hd & Hc & Hwr & Es');
        [done|by rewrite <- app_assoc, <- Ex|by rewrite Ha, app_assoc|done|lia|lia|lia|].
      exists (x ++ r1), k, s', ib. rewrite Hc, Hwr. split_and!; [|done|done|by rewrite Es', <- app_assoc].
      rewrite Ex. rewrite Ex in E. eapply deleted_op; [|exact E|done]. by eapply not_separator.
Qed.

Lemma SerializeScriptCode_spec txTo code nIn acp single none : script_ok code -> well_parsed code = true ->
  exists code' k, FindAndDelete be [value OP_CODESEPARATOR] code = Ok (code', k) /\
    SerializeScriptCode be (mk txTo code nIn acp single none) = Ok (Serialize c_bytes code').
Proof.
  intros Hok Hw. destruct (FindAndDelete_spec be [value OP_CODESEPARATOR] code ltac:(done) Hok) as (code' & k & Hd & E).
  exists code', k. split; [exact E|]. unfold SerializeScriptCode. cbn [scriptCode].
  pose proof (proj2 Hok) as Hlen.
  destruct (loops_spec code (length code) code [] [] [] 0 (WriteCompactSize (u32 (zlen code - k)))) as (r' & k' & s' & ib & Hd' & Hc & Hwr & Es);
    [done|done|done|done|done|lia|lia|].
  destruct (deleted_fun [value OP_CODESEPARATOR] code code' k ltac:(discriminate) Hd _ _ Hd') as [<- <-].
  change (zlen (@nil Z)) with begin_ in Hc, Hwr. rewrite Hc. cbn [res_bind]. rewrite Z.add_0_l in *. rewrite Hwr. cbn [res_bind].
  destruct (deleted_length _ _ _ _ Hd) as [Hk Hkl]. change (zlen [value OP_CODESEPARATOR]) with 1 in Hkl. pose proof (zlen_nonneg code').
  rewrite wrap_small in Es by (unfold in_u; lia). cbn [app] in Es.
  change (Serialize c_bytes code') with (write_blob code'). rewrite write_blob_eq. fold (zlen code').
  replace (zlen code') with (zlen code - k) by lia. rewrite <- Es. unfold script_end.
  destruct (Z.eqb_spec ib (zlen code)) as [->|]; cbn [negb]; [|done].
  f_equal. unfold slice. rewrite Z.sub_diag. cbn. by rewrite take_0, app_nil_r.
Qed.
End script_code.

(** ** The serialised copy *)

Module Ser := CTransactionSignatureSerializer.

Section copy.
Context (be : bool) (txTo : CMutableTransaction) (code code' : CScript) (k nIn nHashType : Z).
Hypothesis Hok : script_ok code.
Hypothesis Hparsed : well_parsed code = true.
Hypothesis Hdel : FindAndDelete be [value OP_CODESEPARATOR] code = Ok (code', k).
Hypothesis HnIn : 0 <= nIn < zlen (vin txTo).

Let this := Ser.make txTo code nIn nHashType.
Let base := Z.land nHashType 0x1f.

(** An input as it is signed, and a coin as it is signed. *)
Definition signed_input (i : Z) (txin : CTxIn.t) : CTxIn.t :=
  CTxIn.mk (CTxIn.prevout txin) (if i =? nIn then code' else [])
    (if negb (i =? nIn) && ((base =? SIGHASH_SINGLE) || (base =? SIGHASH_NONE)) then 0 else CTxIn.nSequence txin)
    (CTxIn.scriptWitness txin).

Lemma serialize_input_eq i txin : vin txTo !! Z.to_nat i = Some txin ->
  Ser.SerializeInput be (Ser.mk txTo code nIn false (base =? SIGHASH_SINGLE) (base =? SIGHASH_NONE)) i =
  Ok (Serialize CTxIn.codec (signed_input i txin)).
Proof.
  intros E. unfold Ser.SerializeInput. cbn [Ser.fAnyoneCanPay Ser.nIn Ser.txTo Ser.fHashSingle Ser.fHashNone]. rewrite E. cbn [res_of_option res_bind].
  unfold signed_input. destruct (i =? nIn); cbn [negb andb].
  - destruct (SerializeScriptCode_spec be txTo code nIn false (base =? SIGHASH_SINGLE) (base =? SIGHASH_NONE) Hok Hparsed)
      as (c & j & Hd & ->). rewrite Hdel in Hd. injection Hd as <- <-. done.
  - cbn [res_bind]. by destruct (_ || _).
Qed.

Lemma serialize_input_acp txin : vin txTo !! Z.to_nat nIn = Some txin ->
  Ser.SerializeInput be (Ser.mk txTo code nIn true (base =? SIGHASH_SINGLE) (base =? SIGHASH_NONE)) 0 =
  Ok (Serialize CTxIn.codec (signed_input nIn txin)).
Proof. intros E. rewrite <- (serialize_input_eq nIn txin E). done. Qed.

Lemma each_eq {A} (g : A -> bytes) f l : forall from,
  (forall i x, l !! i = Some x -> f (from + Z.of_nat i) = Ok (g x)) -> Ser.each f (length l) from = Ok (mjoin (map g l)).
Proof.
  induction l as [|x l IH]; intros from H; [done|]. cbn [Ser.each length map].
  assert (f from = Ok (g x)) as -> by (rewrite <- (Z.add_0_r from); exact (H 0%nat x eq_refl)). cbn [res_bind].
  rewrite IH; [done|]. intros i y Hi. rewrite <- (H (S i) y Hi). f_equal. lia.
Qed.

(** The changes of the copy, input by input. *)
Lemma copy_inputs :
  let vin1 := alter (set_scriptSig code') (Z.to_nat nIn) (map (set_scriptSig []) (vin txTo)) in
  imap (fun i => signed_input (Z.of_nat i)) (vin txTo) =
  if (base =? SIGHASH_NONE) || (base =? SIGHASH_SINGLE) then zero_sequences nIn vin1 else vin1.
Proof.
  intros vin1. apply list_eq. intros i. rewrite list_lookup_imap.
  assert (vin1 !! i = (fun x => set_scriptSig (if Z.of_nat i =? nIn then code' else []) x) <$> vin txTo !! i) as Hv.
  { subst vin1. destruct (Z.eqb_spec (Z.of_nat i) nIn) as [<-|Hne].
    - rewrite Nat2Z.id, list_lookup_alter_eq, list_lookup_fmap. by destruct (vin txTo !! i).
    - rewrite list_lookup_alter_ne by lia. by rewrite list_lookup_fmap. }
  unfold signed_input. rewrite orb_comm. destruct (_ || _).
  - unfold zero_sequences. rewrite list_lookup_imap, Hv. destruct (vin txTo !! i); [|done]. cbn.
    by destruct (Z.of_nat i =? nIn).
  - rewrite Hv. destruct (vin txTo !! i); [|done]. cbn. by rewrite andb_false_r.
Qed.

(** The outputs. *)
Lemma copy_outputs : base = SIGHASH_SINGLE -> nIn < zlen (vout txTo) -> forall acp none,
  Ser.each (Ser.SerializeOutput (Ser.mk txTo code nIn acp true none)) (Z.to_nat (nIn + 1)) 0 =
  Ok (mjoin (map (Serialize CTxOut.codec)
    (imap (fun i txout => if Z.of_nat i <? nIn then CTxOut.SetNull else txout) (take (Z.to_nat (nIn + 1)) (vout txTo))))).
Proof.
  intros Hs Ho acp none. set (l := imap _ _).
  assert (length l = Z.to_nat (nIn + 1)) as <- by (subst l; rewrite length_imap, length_take; unfold zlen in Ho; lia).
  apply each_eq. intros i x. subst l. rewrite list_lookup_imap. intros (y & Hy & ->)%fmap_Some. cbv beta.
  apply lookup_take_Some in Hy as [Hy Hi]. unfold Ser.SerializeOutput. cbn [Ser.fHashSingle Ser.nIn Ser.txTo]. rewrite Z.add_0_l.
  destruct (Z.ltb_spec (Z.of_nat i) nIn) as [Hlt|Hge].
  - rewrite (proj2 (Z.eqb_neq _ _)) by lia. done.
  - rewrite (proj2 (Z.eqb_eq _ _)) by lia. cbn [negb andb]. rewrite Nat2Z.id, Hy. done.
Qed.

Lemma all_outputs acp none :
  Ser.each (Ser.SerializeOutput (Ser.mk txTo code nIn acp false none)) (length (vout txTo)) 0 = Ok (mjoin (map (Serialize CTxOut.codec) (vout txTo))).
Proof. apply each_eq. intros i x Hi. unfold Ser.SerializeOutput. cbn [Ser.fHashSingle andb Ser.txTo]. by rewrite Z.add_0_l, Nat2Z.id, Hi. Qed.

(** The copy that the first definition serialises, as written by the serializer. *)
Lemma serialize_inputs : zlen (vin txTo) < 2 ^ 32 -> nIn < zlen (vin txTo) ->
  let ser := Ser.make txTo code nIn nHashType in
  let signed := imap (fun i => signed_input (Z.of_nat i)) (vin txTo) in
  let vin' := if has nHashType SIGHASH_ANYONECANPAY then take 1 (drop (Z.to_nat nIn) signed) else signed in
  let n := if Ser.fAnyoneCanPay ser then 1 else u32 (zlen (vin txTo)) in
  n = Z.of_nat (length vin') /\
  Ser.each (Ser.SerializeInput be ser) (Z.to_nat n) 0 = Ok (mjoin (map (Serialize CTxIn.codec) vin')).
Proof.
  intros Hv Hlt ser signed vin' n. subst ser n vin'. unfold Ser.make. cbn [Ser.fAnyoneCanPay]. fold base.
  destruct (lookup_lt_is_Some_2 (vin txTo) (Z.to_nat nIn) ltac:(unfold zlen in Hlt; lia)) as [txin Ei].
  destruct (has _ _).
  - assert (signed !! Z.to_nat nIn = Some (signed_input nIn txin)) as Es
      by (unfold signed; rewrite list_lookup_imap, Ei; cbn; do 2 f_equal; lia).
    rewrite (drop_S _ _ _ Es). cbn [take]. rewrite take_0. split; [done|].
    change (Z.to_nat 1) with 1%nat. cbn [Ser.each]. rewrite serialize_input_acp with txin by done. by cbn.
  - rewrite wrap_small by (unfold in_u; lia). unfold signed. rewrite length_imap. split; [done|].
    unfold zlen. rewrite Nat2Z.id. rewrite <- (length_imap (fun i => signed_input (Z.of_nat i)) (vin txTo)).
    apply each_eq. intros i x. rewrite list_lookup_imap. intros (y & Hy & ->)%fmap_Some. cbv beta.
    rewrite Z.add_0_l. apply serialize_input_eq. by rewrite Nat2Z.id.
Qed.

Lemma serialize_outputs : zlen (vin txTo) < 2 ^ 32 -> zlen (vout txTo) < 2 ^ 32 -> nIn < zlen (vin txTo) ->
  (base = SIGHASH_SINGLE -> nIn < zlen (vout txTo)) ->
  let ser := Ser.make txTo code nIn nHashType in
  let vout' := if base =? SIGHASH_NONE then [] else if base =? SIGHASH_SINGLE then
    imap (fun i txout => if Z.of_nat i <? nIn then CTxOut.SetNull else txout) (take (Z.to_nat (nIn + 1)) (vout txTo)) else vout txTo in
  let n := if Ser.fHashNone ser then 0 else if Ser.fHashSingle ser then u32 (nIn + 1) else u32 (zlen (vout txTo)) in
  n = Z.of_nat (length vout') /\
  Ser.each (Ser.SerializeOutput ser) (Z.to_nat n) 0 = Ok (mjoin (map (Serialize CTxOut.codec) vout')).
Proof.
  intros Hv Ho Hlt Hs ser vout' n. subst ser n vout'. unfold Ser.make. cbn [Ser.fHashNone Ser.fHashSingle]. fold base.
  destruct (base =? SIGHASH_NONE); [done|]. destruct (Z.eqb_spec base SIGHASH_SINGLE) as [E|_].
  - rewrite wrap_small by (unfold in_u; lia). rewrite copy_outputs by auto. split; [|done].
    rewrite length_imap, length_take. specialize (Hs E). unfold zlen in Hs. lia.
  - rewrite wrap_small by (unfold in_u; pose proof (zlen_nonneg (vout txTo)); lia). split; [done|].
    unfold zlen. rewrite Nat2Z.id. apply all_outputs.
Qed.
End copy.

Lemma serialize_no_witness s1 s2 s3 v i o l :
  SerializeTransaction s1 s2 s3 SERIALIZE_TRANSACTION_NO_WITNESS (mk_tx v i o l) =
  Serialize c_i32 v ++ WriteCompactSize (Z.of_nat (length i)) ++ mjoin (map (Serialize CTxIn.codec) i) ++
  WriteCompactSize (Z.of_nat (length o)) ++ mjoin (map (Serialize CTxOut.codec) o) ++ Serialize c_u32 l.
Proof.
  unfold SerializeTransaction. change (allow_witness _) with false. cbv zeta iota. rewrite Z.land_0_l. cbn [negb Z.eqb app].
  cbn [nVersion vin vout nLockTime]. unfold c_vin, c_vout. cbn [Serialize c_vector]. by rewrite <- !app_assoc.
Qed.

(** The changes that the first definition makes to its copy: the outputs, unless there
    is none for the input, and the inputs. *)
Definition signed_outputs (tx : CMutableTransaction) (nIn nHashType : Z) : list CTxOut.t :=
  let base := Z.land nHashType 0x1f in
  if base =? SIGHASH_NONE then [] else if base =? SIGHASH_SINGLE then
    imap (fun i txout => if Z.of_nat i <? nIn then CTxOut.SetNull else txout) (take (Z.to_nat (nIn + 1)) (vout tx)) else vout tx.

Definition signed_inputs (tx : CMutableTransaction) (code' : CScript) (nIn nHashType : Z) : list CTxIn.t :=
  let signed := imap (fun i => signed_input code' nIn nHashType (Z.of_nat i)) (vin tx) in
  if has nHashType SIGHASH_ANYONECANPAY then take 1 (drop (Z.to_nat nIn) signed) else signed.

Lemma Serialize_tx_eq be s1 s2 s3 tx code code' k nIn nHashType : script_ok code -> well_parsed code = true ->
  FindAndDelete be [value OP_CODESEPARATOR] code = Ok (code', k) ->
  0 <= nIn < zlen (vin tx) -> zlen (vin tx) < 2 ^ 32 -> zlen (vout tx) < 2 ^ 32 ->
  (Z.land nHashType 0x1f = SIGHASH_SINGLE -> nIn < zlen (vout tx)) ->
  Ser.Serialize_tx be (Ser.make tx code nIn nHashType) =
  Ok (SerializeTransaction s1 s2 s3 SERIALIZE_TRANSACTION_NO_WITNESS
    (mk_tx (nVersion tx) (signed_inputs tx code' nIn nHashType) (signed_outputs tx nIn nHashType) (nLockTime tx))).
Proof.
  intros Hok Hw Hd Hn Hv Ho Hs.
  destruct (serialize_inputs be tx code code' k nIn nHashType Hok Hw Hd Hn Hv (proj2 Hn)) as [Hni Hei].
  destruct (serialize_outputs tx code nIn nHashType Hn Hv Ho (proj2 Hn) Hs) as [Hno Heo].
  unfold Ser.Serialize_tx. change (Ser.txTo _) with tx. change (Ser.nIn _) with nIn. rewrite Hei. cbn [res_bind]. rewrite Heo. cbn [res_bind].
  by rewrite serialize_no_witness, Hni, Hno.
Qed.

Lemma one_input {A} (l : list A) n x : l !! n = Some x -> take 1 (drop n l) = [x].
Proof. intros E. by rewrite (drop_S _ _ _ E). Qed.

Lemma SignatureHashOld_eq `{!Hashes} be s1 s2 s3 tx code code' k nIn nHashType :
  FindAndDelete be [value OP_CODESEPARATOR] code = Ok (code', k) -> 0 <= nIn < zlen (vin tx) ->
  SignatureHashOld s1 s2 s3 be code tx nIn nHashType =
  Ok (if (Z.land nHashType 0x1f =? SIGHASH_SINGLE) && (zlen (vout tx) <=? nIn) then one else
    GetHash_written (SerializeTransaction s1 s2 s3 SERIALIZE_TRANSACTION_NO_WITNESS
      (mk_tx (nVersion tx) (signed_inputs tx code' nIn nHashType) (signed_outputs tx nIn nHashType) (nLockTime tx)) ++
      Serialize c_i32 nHashType)).
Proof.
  intros Hd Hn. unfold SignatureHashOld. destruct (Z.leb_spec (zlen (vin tx)) nIn); [lia|].
  change (put_opcode OP_CODESEPARATOR []) with (@Ok bytes [value OP_CODESEPARATOR]). cbn [res_bind]. rewrite Hd. cbn [res_bind].
  unfold signed_inputs, signed_outputs. rewrite (copy_inputs tx code code' nIn nHashType Hn).
  set (vin1 := alter _ _ _). set (base := Z.land nHashType 0x1f).
  assert (forall l, length l = length (vin tx) -> exists x, l !! Z.to_nat nIn = Some x :> option CTxIn.t) as Hat
    by (intros l El; apply lookup_lt_is_Some_2; unfold zlen in Hn; lia).
  assert (length vin1 = length (vin tx)) as El by (unfold vin1; by rewrite length_alter, length_map).
  assert (length (zero_sequences nIn vin1) = length (vin tx)) as Ez by (unfold zero_sequences; by rewrite length_imap).
  destruct (Hat _ El) as [x Ex], (Hat _ Ez) as [z Ez'].
  destruct (Z.eqb_spec base SIGHASH_NONE) as [En|En]; [rewrite En|destruct (Z.eqb_spec base SIGHASH_SINGLE) as [Es|Es]];
    cbn [res_bind andb orb]; try change (SIGHASH_NONE =? SIGHASH_SINGLE) with false; cbn [andb];
    try destruct (Z.leb_spec (zlen (vout tx)) nIn); cbn [res_bind]; try done; destruct (has _ _);
    rewrite ?(one_input _ _ _ Ex), ?(one_input _ _ _ Ez'), ?Ex, ?Ez'; done.
Qed.

(** ** What is signed *)

Section equivalence.
Context (be : bool) (sizeof_CTxIn sizeof_CTxOut sizeof_vector : Z) {hashes : Hashes}.

(** C12: the hash that a signature signs. On a script code in which every operation
    parses, the serializer of the consensus code, which writes the altered
    transaction without building it, gives the hash of the first definition,
    which alters a copy: the script code without its separators in its
    input, nothing in the others, the outputs and sequence numbers that the
    type leaves free blanked, and [one] for an input or output that is not
    there. For the hash of segregated witness, the three hashes computed once
    for a transaction change nothing. *)
Theorem SignatureHash_correct code tx nIn nHashType amount cache :
  script_ok code -> well_parsed code = true -> 0 <= nIn -> zlen (vin tx) < 2 ^ 32 -> zlen (vout tx) < 2 ^ 32 ->
  SignatureHash be code tx nIn nHashType amount SIGVERSION_BASE cache =
    SignatureHashOld sizeof_CTxIn sizeof_CTxOut sizeof_vector be code tx nIn nHashType /\
  SignatureHash be code tx nIn nHashType amount SIGVERSION_WITNESS_V0 (Some (precompute tx)) =
    SignatureHash be code tx nIn nHashType amount SIGVERSION_WITNESS_V0 None.
Proof.
  intros Hok Hw Hn Hv Ho. split; [|done]. unfold SignatureHash.
  destruct (Z.leb_spec (zlen (vin tx)) nIn) as [Hge|Hlt].
  { unfold SignatureHashOld. by rewrite (proj2 (Z.leb_le _ _) Hge). }
  destruct (FindAndDelete_spec be [value OP_CODESEPARATOR] code ltac:(done) Hok) as (code' & k & _ & Hd).
  rewrite (SignatureHashOld_eq be _ _ _ tx code code' k) by done.
  destruct (_ && _) eqn:E; [done|].
  rewrite (Serialize_tx_eq be sizeof_CTxIn sizeof_CTxOut sizeof_vector tx code code' k); try done.
  intros Hs. rewrite Hs in E. cbn [Z.eqb andb] in E. change (SIGHASH_SINGLE =? SIGHASH_SINGLE) with true in E.
  cbn [andb] in E. by apply Z.leb_gt in E.
Qed.
End equivalence.

(** A transaction of two inputs and two outputs, hashes that depend on every byte,
    and a script code with two separators. *)
Definition sum_hash (n : nat) (v : bytes) : bytes := foldl (fun a b => (a * 31 + b) mod 251) 7 v :: replicate (n - 1) 0.
Definition sum_hashes : Hashes := {| RIPEMD160 := sum_hash 20; SHA1 := sum_hash 20; SHA256 := sum_hash 32 |}.

Definition two_in_two_out : CMutableTransaction :=
  let input n := CTxIn.make (COutPoint.mk (base_uint_of_u64 WIDTH256 (100 + n)) n) [value OP_1] (7 + n) in
  mk_tx 2 [input 0; input 1] [CTxOut.mk 50 [value OP_1]; CTxOut.mk 60 [value OP_2; value OP_DROP]] 9.

Definition separated_code : CScript :=
  [value OP_1; value OP_CODESEPARATOR; value OP_2; value OP_CODESEPARATOR; value OP_CHECKSIG].

Definition demo_sighash (nIn nHashType : Z) : res uint256 :=
  SignatureHash (hashes := sum_hashes) false separated_code two_in_two_out nIn nHashType 60 SIGVERSION_BASE None.

Lemma SignatureHash_correct_witness :
  (demo_sighash 1 (Z.lor SIGHASH_SINGLE SIGHASH_ANYONECANPAY) =
     SignatureHashOld (hashes := sum_hashes) 1 1 1 false separated_code two_in_two_out 1 (Z.lor SIGHASH_SINGLE SIGHASH_ANYONECANPAY) /\
   SignatureHash (hashes := sum_hashes) false separated_code two_in_two_out 1 (Z.lor SIGHASH_SINGLE SIGHASH_ANYONECANPAY) 60
     SIGVERSION_WITNESS_V0 (Some (precompute (hashes := sum_hashes) two_in_two_out)) =
   SignatureHash (hashes := sum_hashes) false separated_code two_in_two_out 1 (Z.lor SIGHASH_SINGLE SIGHASH_ANYONECANPAY) 60
     SIGVERSION_WITNESS_V0 None) /\
  demo_sighash 2 SIGHASH_SINGLE = Ok one /\
  NoDup (map (fun ty => match demo_sighash 1 ty with Ok h => h | _ => [] end) [SIGHASH_ALL; SIGHASH_NONE; SIGHASH_SINGLE; Z.lor SIGHASH_ALL SIGHASH_ANYONECANPAY]).
Proof.
  split; [|split; [by vm_compute|]].
  - apply (@SignatureHash_correct false 1 1 1 sum_hashes separated_code two_in_two_out 1 (Z.lor SIGHASH_SINGLE SIGHASH_ANYONECANPAY) 60 None).
    + apply (bool_decide_unpack _). by vm_compute.
    + by vm_compute.
    + done.
    + by vm_compute.
    + by vm_compute.
  - apply (bool_decide_unpack _). by vm_compute.
Defined.
