(* ===== verification/LockTime.v ===== *)
(** The lock-time operations of scripts against the rules of the block: what
    [OP_CHECKLOCKTIMEVERIFY] (BIP 65) and [OP_CHECKSEQUENCEVERIFY] (BIP 112)
    establish of the blocks that may hold the transaction. *)

From S2P Require Import Prelude Bytes BaseUint UintBytes Uint256 Serialize Codec Header Chain ChainSpec BlockTree Prevector ScriptNum Opcode Script Amount Transaction PubKey CoinsView Ledger Rules RulesSpec Interpreter EvalScript SigHash.

#[local] Ltac Zify.zify_post_hook ::= Z.to_euclidean_division_equations.

(** ** The two checks *)

Section checks.
Context (txTo : CMutableTransaction) (nIn : Z).

(** Both are heights, or both are times. *)
Definition same_kind (threshold a b : Z) : bool := Bool.eqb (a <? threshold) (b <? threshold).

Lemma same_kind_eq k a b : ((a <? k) && (b <? k)) || ((k <=? a) && (k <=? b)) = same_kind k a b.
Proof. unfold same_kind. rewrite !Z.leb_antisym. by destruct (a <? k), (b <? k). Qed.

Lemma CheckLockTime_spec n : tx_CheckLockTime txTo nIn n = Ok true <->
  exists i, vin txTo !! Z.to_nat nIn = Some i /\ CTxIn.nSequence i <> SEQUENCE_FINAL /\
    same_kind LOCKTIME_THRESHOLD (nLockTime txTo) n = true /\ n <= nLockTime txTo.
Proof.
  unfold tx_CheckLockTime. rewrite same_kind_eq. destruct (same_kind _ _ _); cbn [negb]; [|naive_solver].
  destruct (Z.ltb_spec (nLockTime txTo) n); [naive_solver lia|]. destruct (vin txTo !! Z.to_nat nIn) as [i|]; cbn [res_of_option res_bind]; [|naive_solver].
  destruct (Z.eqb_spec SEQUENCE_FINAL (CTxIn.nSequence i)); naive_solver.
Qed.

(** A transaction that may be in a block of height [h] and time [t] has a lock
    before these, unless no input has a lock. *)
Lemma final_lock h t i : 0 < h -> 0 < t -> 0 <= nLockTime txTo -> i ∈ vin txTo -> CTxIn.nSequence i <> SEQUENCE_FINAL ->
  IsFinalTx txTo h t = true -> nLockTime txTo < if nLockTime txTo <? LOCKTIME_THRESHOLD then h else t.
Proof.
  intros Hh Ht Hl Hi Hs. unfold IsFinalTx. destruct (Z.eqb_spec (nLockTime txTo) 0) as [->|]; [intros _; done|].
  destruct (Z.ltb_spec (nLockTime txTo) (if nLockTime txTo <? LOCKTIME_THRESHOLD then h else t)); [done|].
  intros Hf. rewrite forallb_forall in Hf. apply list_elem_of_In in Hi. apply Hf in Hi. by apply Z.eqb_eq in Hi.
Qed.

Lemma lock_fields n : 0 <= n ->
  Z.land n (Z.lor SEQUENCE_LOCKTIME_TYPE_FLAG SEQUENCE_LOCKTIME_MASK) = (if lock_in_time n then 2 ^ 22 else 0) + lock_value n.
Proof.
  intros Hn. rewrite Z.land_lor_distr_r. unfold SEQUENCE_LOCKTIME_MASK. rewrite (land_ones_low n 0xffff 16) by done. fold (lock_value n).
  assert (0 <= lock_value n < 2 ^ 16) by (by apply Z.mod_pos_bound).
  assert (Z.land n SEQUENCE_LOCKTIME_TYPE_FLAG = if lock_in_time n then 2 ^ 22 else 0) as ->.
  { unfold SEQUENCE_LOCKTIME_TYPE_FLAG, lock_in_time. rewrite Z.shiftl_1_l. apply Z.bits_inj'. intros m Hm. rewrite Z.land_spec.
    destruct (decide (m = 22)) as [->|Hne]; [by destruct (Z.testbit n 22)|]. rewrite Z.pow2_bits_false, andb_false_r by done.
    destruct (Z.testbit n 22); [by rewrite Z.pow2_bits_false by done|by rewrite Z.bits_0]. }
  destruct (lock_in_time n); [|done]. exact (lor_shiftl_add (lock_value n) 1 22 ltac:(done) ltac:(unfold in_u; lia)).
Qed.

Lemma same_fields a b : 0 <= a -> 0 <= b ->
  let mask := Z.lor SEQUENCE_LOCKTIME_TYPE_FLAG SEQUENCE_LOCKTIME_MASK in
  same_kind SEQUENCE_LOCKTIME_TYPE_FLAG (Z.land a mask) (Z.land b mask) = true /\ Z.land b mask <= Z.land a mask <->
  lock_in_time a = lock_in_time b /\ lock_value b <= lock_value a.
Proof.
  intros Ha Hb mask. subst mask. rewrite !lock_fields by done. change SEQUENCE_LOCKTIME_TYPE_FLAG with (2 ^ 22).
  assert (0 <= lock_value a < 2 ^ 16 /\ 0 <= lock_value b < 2 ^ 16) as [? ?] by (split; by apply Z.mod_pos_bound).
  unfold same_kind. rewrite eqb_true_iff.
  destruct (lock_in_time a), (lock_in_time b); repeat destruct (Z.ltb_spec _ _); split; intros [? ?]; split; try done; lia.
Qed.

Lemma CheckSequence_spec n : 0 <= n -> Forall (fun i => in_u 32 (CTxIn.nSequence i)) (vin txTo) ->
  tx_CheckSequence txTo nIn n = Ok true <->
  exists i, vin txTo !! Z.to_nat nIn = Some i /\ 2 <= u32 (nVersion txTo) /\ lock_disabled (CTxIn.nSequence i) = false /\
    lock_in_time (CTxIn.nSequence i) = lock_in_time n /\ lock_value n <= lock_value (CTxIn.nSequence i).
Proof.
  intros Hn Hv. unfold tx_CheckSequence, CScriptNum.and_. destruct (vin txTo !! Z.to_nat nIn) as [i|] eqn:Ei; cbn [res_of_option res_bind]; [|naive_solver].
  assert (0 <= CTxIn.nSequence i) as Hi by (apply (proj1 (Forall_lookup _ _) Hv) in Ei; unfold in_u in Ei; lia).
  pose proof (same_fields _ _ Hi Hn) as Hf. cbv zeta in Hf. rewrite same_kind_eq.
  unfold SEQUENCE_LOCKTIME_DISABLE_FLAG at 1. rewrite (flag_testbit _ 31) by done. fold (lock_disabled (CTxIn.nSequence i)).
  destruct (Z.ltb_spec (u32 (nVersion txTo)) 2); [split; [done|intros (? & [= <-] & ? & _); lia]|].
  destruct (lock_disabled _) eqn:Ed; [split; [done|intros (? & [= <-] & _ & ? & _); congruence]|].
  destruct (same_kind _ _ _); cbn [negb]; [|split; [done|intros (? & [= <-] & _ & _ & Hm); by apply Hf in Hm as [? _]]].
  destruct (Z.ltb_spec (Z.land (CTxIn.nSequence i) (Z.lor SEQUENCE_LOCKTIME_TYPE_FLAG SEQUENCE_LOCKTIME_MASK))
    (Z.land n (Z.lor SEQUENCE_LOCKTIME_TYPE_FLAG SEQUENCE_LOCKTIME_MASK))).
  - split; [done|]. intros (? & [= <-] & _ & _ & Hm). apply Hf in Hm as [_ ?]. lia.
  - split; [|done]. intros _. exists i. split_and!; try done; by apply Hf.
Qed.
End checks.

(** ** The operations *)

Section operations.
Context (be : bool) {hashes : Hashes} (ec : secp256k1) (mem : bytes).
Context (tx : CMutableTransaction) (nIn amount : Z) (txdata : option PrecomputedTransactionData).
Context (Hlock : in_u 32 (nLockTime tx)) (Hsequence : Forall (fun i => in_u 32 (CTxIn.nSequence i)) (vin tx)).

Let checker : SignatureChecker := TransactionSignatureChecker be ec mem tx nIn amount txdata.
#[local] Existing Instance checker.

(** What the operation [op] leaves on success: the stack as it was, with a number that is not
    negative on top. *)
Lemma op_checklocktimeverify_success flags stack stack' : has flags SCRIPT_VERIFY_CHECKLOCKTIMEVERIFY = true ->
  op_checklocktimeverify flags stack = Ok (inr stack') ->
  exists vch rest n, stack = vch :: rest /\ stack' = stack /\ CScriptNum.make vch (fRequireMinimal flags) 5 = Ok n /\ 0 <= n /\
    tx_CheckLockTime tx nIn n = Ok true.
Proof.
  intros Hf. unfold op_checklocktimeverify. rewrite Hf. cbn [negb]. destruct stack as [|vch rest]; [done|].
  unfold scriptnum, lift, eval_bind, ret, fail. destruct (CScriptNum.make _ _ _) as [n| | | |] eqn:En; try done. cbn [res_bind].
  destruct (Z.ltb_spec n 0); [done|]. change (CheckLockTime n) with (tx_CheckLockTime tx nIn n).
  destruct (tx_CheckLockTime tx nIn n) as [[]| | | |] eqn:Ec; try done. intros [= <-]. by exists vch, rest, n.
Qed.

Lemma op_checksequenceverify_success flags stack stack' : has flags SCRIPT_VERIFY_CHECKSEQUENCEVERIFY = true ->
  op_checksequenceverify flags stack = Ok (inr stack') ->
  exists vch rest n, stack = vch :: rest /\ stack' = stack /\ CScriptNum.make vch (fRequireMinimal flags) 5 = Ok n /\ 0 <= n /\
    (lock_disabled n = true \/ tx_CheckSequence tx nIn n = Ok true).
Proof.
  intros Hf. unfold op_checksequenceverify. rewrite Hf. cbn [negb]. destruct stack as [|vch rest]; [done|].
  unfold scriptnum, lift, eval_bind, ret, fail. destruct (CScriptNum.make _ _ _) as [n| | | |] eqn:En; try done. cbn [res_bind].
  destruct (Z.ltb_spec n 0); [done|]. unfold CScriptNum.and_, SEQUENCE_LOCKTIME_DISABLE_FLAG. rewrite (flag_testbit n 31) by done.
  fold (lock_disabled n). destruct (lock_disabled n) eqn:Ed; [intros [= <-]; exists vch, rest, n; tauto|].
  change (CheckSequence n) with (tx_CheckSequence tx nIn n).
  destruct (tx_CheckSequence tx nIn n) as [[]| | | |] eqn:Ec; try done. intros [= <-]. exists vch, rest, n. tauto.
Qed.

(** The number on top of the stack, [n], bounds the blocks that may hold the transaction. *)
Definition locked_until (n : Z) : Prop :=
  forall h t, 0 < h -> 0 < t -> IsFinalTx tx h t = true -> n < if n <? LOCKTIME_THRESHOLD then h else t.

(** The output spent, of a height of [hs], is mature as the script asks. *)
Definition matured (n : Z) : Prop :=
  forall st p b q hs hs', wf_store st -> map_Forall (fun _ e => in_u 32 (nTime e)) st -> st !! p = Some b -> Chain.pprev b = Some q ->
    Chain.nHeight b < 2 ^ 31 - 2 ^ 16 -> length hs = length (vin tx) -> Forall (fun h => 0 <= h <= Chain.nHeight b) hs ->
    SequenceLocks st tx LOCKTIME_VERIFY_SEQUENCE hs p = Ok (true, hs') ->
    exists i h, vin tx !! Z.to_nat nIn = Some i /\ hs !! Z.to_nat nIn = Some h /\
      mature st p b q (CTxIn.make (CTxIn.prevout i) [] n) h.

Lemma CheckLockTime_locked n : tx_CheckLockTime tx nIn n = Ok true -> locked_until n.
Proof.
  intros (i & Hi & Hs & Hk & Hn)%CheckLockTime_spec h t Hh Ht Hfin. unfold in_u in Hlock.
  pose proof (final_lock tx h t i Hh Ht (proj1 Hlock) (list_elem_of_lookup_2 _ _ _ Hi) Hs Hfin) as Hl.
  apply eqb_prop in Hk. rewrite <- Hk. lia.
Qed.

Lemma mature_weaken st p b q i j h : mature st p b q i h -> lock_disabled (CTxIn.nSequence i) = false ->
  lock_in_time (CTxIn.nSequence i) = lock_in_time (CTxIn.nSequence j) ->
  lock_value (CTxIn.nSequence j) <= lock_value (CTxIn.nSequence i) -> mature st p b q j h.
Proof.
  unfold mature. intros [->|Hm] Hd Hk Hv; [done|]. right. rewrite <- Hk. destruct (lock_in_time _).
  - destruct Hm as (a & Ha & Hm). exists a. split; [done|lia].
  - lia.
Qed.

Lemma CheckSequence_matured n : 0 <= n -> tx_CheckSequence tx nIn n = Ok true -> matured n.
Proof.
  intros Hn (i & Hi & Hver & Hd & Hk & Hv)%CheckSequence_spec st p b q hs hs' Hst Ht Hp Hq Hb Hl Hh E; [|done..].
  destruct (SequenceLocks_spec st p b q tx LOCKTIME_VERIFY_SEQUENCE hs Hst Ht Hp Hq Hb Hsequence Hl Hh) as (r & Er & Hr).
  rewrite E in Er. injection Er as <- _. destruct (proj1 Hr eq_refl) as [He|Hm].
  - unfold locks_enforced in He. rewrite (proj2 (Z.leb_le _ _) Hver) in He. done.
  - destruct (Forall2_lookup_l _ _ _ _ _ Hm Hi) as (h & Eh & Hmat). exists i, h. split_and!; [done|done|].
    by eapply mature_weaken.
Qed.

(** C13: the lock-time operations mean what they say. Run on an input of a
    transaction with its own checker, [OP_CHECKLOCKTIMEVERIFY] and
    [OP_CHECKSEQUENCEVERIFY] leave the stack as it was, and succeed only with a
    number [n >= 0] of at most five bytes on it such that: for the first, no
    block may hold the transaction ([IsFinalTx]) unless its height, or its time,
    is above [n]; for the second, unless the number disables the check, no block may hold it
    ([SequenceLocks]) unless the output that the input spends is as old as [n]
    asks, in blocks or in steps of 512 seconds. *)
Theorem lock_times_enforced flags stack stack' :
  (has flags SCRIPT_VERIFY_CHECKLOCKTIMEVERIFY = true -> op_checklocktimeverify flags stack = Ok (inr stack') ->
   exists vch rest n, stack = vch :: rest /\ stack' = stack /\ CScriptNum.make vch (fRequireMinimal flags) 5 = Ok n /\ 0 <= n /\
     locked_until n) /\
  (has flags SCRIPT_VERIFY_CHECKSEQUENCEVERIFY = true -> op_checksequenceverify flags stack = Ok (inr stack') ->
   exists vch rest n, stack = vch :: rest /\ stack' = stack /\ CScriptNum.make vch (fRequireMinimal flags) 5 = Ok n /\ 0 <= n /\
     (lock_disabled n = true \/ matured n)).
Proof.
  split; intros Hf E.
  - destruct (op_checklocktimeverify_success flags stack stack' Hf E) as (vch & rest & n & ? & ? & ? & ? & Hc).
    exists vch, rest, n. split_and!; try done. by apply CheckLockTime_locked.
  - destruct (op_checksequenceverify_success flags stack stack' Hf E) as (vch & rest & n & ? & ? & ? & ? & Hc).
    exists vch, rest, n. split_and!; try done. destruct Hc; [by left|right]. by apply CheckSequence_matured.
Qed.
End operations.

(** A spending transaction of version 2 with the lock time 9 and a sequence number of
    3 blocks, and scripts that ask for 5 and 2. *)
Definition no_hashes : Hashes := {| RIPEMD160 _ := replicate 20 0; SHA1 _ := replicate 20 0; SHA256 _ := replicate 32 0 |}.
Definition locked_tx : CMutableTransaction := mk_tx 2 [CTxIn.make (COutPoint.mk (demo_txid 1) 0) [] 3] [] 9.
Definition lock_flags : Z := Z.lor SCRIPT_VERIFY_CHECKLOCKTIMEVERIFY SCRIPT_VERIFY_CHECKSEQUENCEVERIFY.
Definition locked_checker : SignatureChecker :=
  TransactionSignatureChecker (hashes := no_hashes) false toy_curve [] locked_tx 0 50 None.

Lemma lock_times_enforced_witness :
  (exists vch rest n, [[5]] = vch :: rest /\ [[5]] = [[5]] :> list bytes /\
     CScriptNum.make vch (fRequireMinimal lock_flags) 5 = Ok n /\ 0 <= n /\ locked_until locked_tx n) /\
  (exists vch rest n, [[2]] = vch :: rest /\ [[2]] = [[2]] :> list bytes /\
     CScriptNum.make vch (fRequireMinimal lock_flags) 5 = Ok n /\ 0 <= n /\ (lock_disabled n = true \/ matured locked_tx 0 n)) /\
  op_checklocktimeverify (checker := locked_checker) lock_flags [[10]] = Ok (inl SCRIPT_ERR_UNSATISFIED_LOCKTIME) /\
  op_checksequenceverify (checker := locked_checker) lock_flags [[4]] = Ok (inl SCRIPT_ERR_UNSATISFIED_LOCKTIME).
Proof.
  assert (in_u 32 (nLockTime locked_tx) /\ Forall (fun i => in_u 32 (CTxIn.nSequence i)) (vin locked_tx)) as [Hl Hs]
    by (split; [done|repeat constructor; done]).
  split; [|split; [|split; by vm_compute]].
  - apply (proj1 (@lock_times_enforced false no_hashes toy_curve [] locked_tx 0 50 None Hl Hs lock_flags [[5]] [[5]])); by vm_compute.
  - apply (proj2 (@lock_times_enforced false no_hashes toy_curve [] locked_tx 0 50 None Hl Hs lock_flags [[2]] [[2]])); by vm_compute.
Defined.
