(* ===== verification/HashStream.v ===== *)
(** The streaming of the hash classes of src/sige/crypto: a chaining state, a
    buffer for the bytes that do not fill a block yet, and the count of bytes.

    [Write] and [Finalize] are the same code in sha1.cpp, sha256.cpp,
    sha512.cpp and ripemd160.cpp up to the size of a block, the transformation
    of a block and the byte order; they are modelled once, over these. The
    buffer is memory: an access outside it is [Undef]. *)

From S2P Require Import Prelude Bytes Prevector.

#[local] Ltac Zify.zify_post_hook ::= Z.to_euclidean_division_equations.

(** ** The class *)

Record hasher (T : Type) := mk_hasher { s : T; buf : bytes; bytes_ : Z }.
Arguments mk_hasher {T}. Arguments s {T}. Arguments buf {T}. Arguments bytes_ {T}.

Section stream.
Context {T : Type} (block : Z) (Transform : T -> bytes -> T).

(** [while (end >= data + block)]: what is left of the data. *)
Fixpoint chunks_loop (fuel : nat) (h : hasher T) (data : bytes) : res (hasher T * bytes) :=
  if block <=? zlen data then
    match fuel with
    | O => OutOfFuel
    | S fuel =>
        let? chunk := mem_read data 0 block in
        chunks_loop fuel (mk_hasher (Transform (s h) chunk) (buf h) (u64 (bytes_ h + block))) (drop (Z.to_nat block) data)
    end
  else Ok (h, data).

Definition Write (data : bytes) (h : hasher T) : res (hasher T) :=
  let bufsize := bytes_ h mod block in
  let? (h, data, bufsize) :=
    if negb (bufsize =? 0) && (block <=? u64 (bufsize + zlen data)) then
      let? d := mem_read data 0 (block - bufsize) in
      let? b := mem_write (buf h) bufsize d in
      Ok (mk_hasher (Transform (s h) b) b (u64 (bytes_ h + (block - bufsize))), drop (Z.to_nat (block - bufsize)) data, 0)
    else Ok (h, data, bufsize) in
  let? (h, data) := chunks_loop (length data) h data in
  if 0 <? zlen data then
    let? b := mem_write (buf h) bufsize data in
    Ok (mk_hasher (s h) b (u64 (bytes_ h + zlen data)))
  else Ok h.

(** The hash and the object after it. [pad] is the array of the padding, [sizedesc] writes the number of bits and
    [encode] the hash. *)
Definition Finalize (last : Z) (sizedesc : Z -> bytes) (encode : T -> bytes) (h : hasher T) : res (bytes * hasher T) :=
  let pad := 0x80 :: replicate (Z.to_nat block - 1) 0 in
  let size := sizedesc (u64 (Z.shiftl (bytes_ h) 3)) in
  let? p := mem_read pad 0 (1 + (last - bytes_ h mod block) mod block) in
  let? h := Write p h in
  let? h := Write size h in
  Ok (encode (s h), h).

(** The object after writes in a row. *)
Fixpoint write_all (parts : list bytes) (h : hasher T) : res (hasher T) :=
  match parts with
  | [] => Ok h
  | d :: parts => let? h := Write d h in write_all parts h
  end.
End stream.

(** ** The reference: Merkle and Damgard

    The message is padded with a bit, zeros and its size to whole blocks, which
    are absorbed one after the other. *)

Section reference.
Context {T : Type} (B : nat).

Fixpoint blocks (n : nat) (m : bytes) : list bytes :=
  match n with
  | O => []
  | S n => take B m :: blocks n (drop B m)
  end.

(** [sizelen] is the number of bytes that hold the size. *)
Definition padded (sizelen : nat) (sizedesc : Z -> bytes) (m : bytes) : bytes :=
  m ++ [0x80] ++ replicate (Z.to_nat ((- (1 + Z.of_nat sizelen + zlen m)) mod Z.of_nat B)) 0 ++ sizedesc (8 * zlen m).

Definition digest (compress : T -> bytes -> T) (iv : T) (sizelen : nat) (sizedesc : Z -> bytes) (encode : T -> bytes) (m : bytes) : bytes :=
  let p := padded sizelen sizedesc m in
  encode (foldl compress iv (blocks (length p / B) p)).

Lemma blocks_app n k a b : length a = (n * B)%nat -> blocks (n + k) (a ++ b) = blocks n a ++ blocks k b.
Proof.
  revert a. induction n as [|n IH]; intros a Ha.
  - apply nil_length_inv in Ha as ->. done.
  - cbn [Nat.add blocks app]. rewrite take_app_le, drop_app_le by lia. by rewrite IH by (rewrite length_drop; lia).
Qed.

Lemma blocks_prefix n a b : (n * B <= length a)%nat -> blocks n (a ++ b) = blocks n a.
Proof.
  revert a. induction n as [|n IH]; intros a Ha; [done|].
  cbn [blocks]. rewrite take_app_le, drop_app_le by lia. by rewrite IH by (rewrite length_drop; lia).
Qed.

Lemma blocks_ok n m : (n * B <= length m)%nat -> byte_list m -> Forall (fun c => length c = B /\ byte_list c) (blocks n m).
Proof.
  revert m. induction n as [|n IH]; intros m Hl Hm; constructor.
  - split; [rewrite length_take; lia|by apply Forall_take].
  - apply IH; [rewrite length_drop; lia|by apply Forall_drop].
Qed.
End reference.

(** ** Writes *)

Section refinement.
Context {T : Type} (B : nat) (Transform : T -> bytes -> T) (iv : T).
Hypothesis HB : (0 < B)%nat.
Hypothesis Hdvd : (Z.of_nat B | 2 ^ 64).

Let block := Z.of_nat B.
Abbreviation absorbed m := (foldl Transform iv (blocks B (length m / B) m)).
Abbreviation rest m := (drop (length m / B * B) m).

(** The object after the bytes [m]. *)
Record holds (m : bytes) (h : hasher T) : Prop := {
  holds_state : s h = absorbed m;
  holds_buf : length (buf h) = B;
  holds_rest : take (length m mod B) (buf h) = rest m;
  holds_bytes : bytes_ h = u64 (zlen m);
}.

Lemma count_mod m h : holds m h -> bytes_ h mod block = Z.of_nat (length m mod B).
Proof.
  intros H. rewrite (holds_bytes m h H). destruct Hdvd as [k Hk]. unfold wrap. rewrite Hk.
  rewrite Z.mul_comm, Z.rem_mul_r by lia. unfold block, zlen. rewrite Z.mul_comm, Z.mod_add, Z.mod_mod by lia. by rewrite Nat2Z.inj_mod.
Qed.

Lemma holds_init mem : length mem = B -> holds [] (mk_hasher iv mem 0).
Proof. intros Hm. split; cbn [s buf bytes_ length]; rewrite ?Nat.Div0.div_0_l, ?Nat.Div0.mod_0_l; done. Qed.

(** Bytes that complete a block are absorbed with what is left. *)
Lemma absorbed_block (m d : bytes) : (length m mod B + length d = B)%nat ->
  absorbed (m ++ d) = Transform (absorbed m) (rest m ++ d).
Proof.
  intros Hd. pose proof (Nat.div_mod_eq (length m) B) as Hm.
  assert (length (m ++ d) / B = length m / B + 1)%nat as ->.
  { rewrite length_app. symmetry. apply (Nat.div_unique _ _ _ 0); lia. }
  set (q := (length m / B)%nat) in *.
  rewrite <- (take_drop (q * B) m) at 1. rewrite <- app_assoc, blocks_app by (rewrite length_take; lia).
  rewrite foldl_app. cbn [blocks foldl]. rewrite (take_ge (drop (q * B) m ++ d)) by (rewrite length_app, length_drop; lia). f_equal. f_equal.
  rewrite <- (take_drop (q * B) m) at 2. by rewrite blocks_prefix by (rewrite length_take; lia).
Qed.

Lemma rest_block (m d : bytes) : (length m mod B + length d = B)%nat -> rest (m ++ d) = [] /\ (length (m ++ d) mod B = 0)%nat.
Proof.
  intros Hd. pose proof (Nat.div_mod_eq (length m) B) as Hm. rewrite length_app.
  assert (length m + length d = (length m / B + 1) * B)%nat as -> by lia.
  rewrite Nat.div_mul, Nat.Div0.mod_mul by lia. split; [|done]. apply drop_ge. rewrite length_app. lia.
Qed.

(** Bytes that do not complete it are kept. *)
Lemma rest_tail (m d : bytes) : (length m mod B + length d < B)%nat ->
  absorbed (m ++ d) = absorbed m /\ rest (m ++ d) = rest m ++ d /\ (length (m ++ d) mod B = length m mod B + length d)%nat.
Proof.
  intros Hd. pose proof (Nat.div_mod_eq (length m) B) as Hm. rewrite length_app.
  assert ((length m + length d) / B = length m / B)%nat as -> by (symmetry; apply (Nat.div_unique _ _ _ (length m mod B + length d)); lia).
  assert ((length m + length d) mod B = length m mod B + length d)%nat as -> by (symmetry; apply (Nat.mod_unique _ _ (length m / B)); lia).
  split_and!; [by rewrite blocks_prefix by lia| |done]. by rewrite drop_app_le by lia.
Qed.

Lemma length_rest (m : bytes) : length (rest m) = (length m mod B)%nat.
Proof. rewrite length_drop. pose proof (Nat.div_mod_eq (length m) B). lia. Qed.

Lemma count_add (m d : bytes) n : n = zlen d -> u64 (u64 (zlen m) + n) = u64 (zlen (m ++ d)).
Proof. intros ->. unfold wrap. by rewrite zlen_app, Zplus_mod_idemp_l. Qed.

Lemma holds_chunks fuel : forall m h d, (length d <= fuel)%nat -> holds m h -> (length m mod B = 0)%nat ->
  exists h' d' c, chunks_loop block Transform fuel h d = Ok (h', d') /\ d = c ++ d' /\ (length d' < B)%nat /\
    (length (m ++ c) mod B = 0)%nat /\ holds (m ++ c) h'.
Proof.
  assert (forall fuel m h d, (length d < B)%nat -> holds m h -> (length m mod B = 0)%nat ->
    exists h' d' c, chunks_loop block Transform fuel h d = Ok (h', d') /\ d = c ++ d' /\ (length d' < B)%nat /\
      (length (m ++ c) mod B = 0)%nat /\ holds (m ++ c) h') as Hstop.
  { intros f m h d Hd H Hz. exists h, d, []. rewrite app_nil_r. split_and!; try done.
    destruct f; cbn [chunks_loop]; rewrite (proj2 (Z.leb_gt block (zlen d))) by (unfold block, zlen; lia); done. }
  induction fuel as [|fuel IH]; intros m h d Hf H Hz; [apply Hstop; [lia|done..]|].
  destruct (decide (length d < B)%nat) as [Hlt|Hge]; [by apply Hstop|]. cbn [chunks_loop].
  rewrite (proj2 (Z.leb_le block (zlen d))) by (unfold block, zlen; lia).
  rewrite mem_read_ok by (unfold block, zlen; lia). cbn [res_bind].
  replace (Z.to_nat block) with B by (unfold block; lia). rewrite drop_0. set (c := take B d).
  assert (length c = B) as Hc by (unfold c; rewrite length_take; lia).
  destruct (rest_block m c) as [Er Ez]; [lia|].
  destruct (IH (m ++ c) (mk_hasher (Transform (s h) c) (buf h) (u64 (bytes_ h + block))) (drop B d)) as (h' & d' & c' & E & Ed & Hl & Hz' & H').
  - rewrite length_drop. lia.
  - split; cbn [s buf bytes_].
    + rewrite absorbed_block by lia. rewrite (holds_state m h H). f_equal.
      by rewrite (nil_length_inv (rest m)) by (rewrite length_rest; lia).
    + apply (holds_buf m h H).
    + by rewrite Ez, Er, take_0.
    + rewrite (holds_bytes m h H). apply count_add. unfold block, zlen. by rewrite Hc.
  - done.
  - exists h', d', (c ++ c'). rewrite !app_assoc in *. split_and!; try done.
    rewrite <- app_assoc, <- Ed. unfold c. by rewrite take_drop.
Qed.

(** The end of a write. *)
Lemma holds_tail m h d : holds m h -> (length m mod B + length d < B)%nat ->
  exists h', (if 0 <? zlen d then let? b := mem_write (buf h) (Z.of_nat (length m mod B)) d in Ok (mk_hasher (s h) b (u64 (bytes_ h + zlen d)))
              else Ok h) = Ok h' /\ holds (m ++ d) h'.
Proof.
  intros H Hd. destruct (Z.ltb_spec 0 (zlen d)) as [Hp|Hp].
  - rewrite mem_write_ok by (unfold zlen; rewrite ?(holds_buf m h H); lia). cbn [res_bind]. eexists. split; [done|].
    destruct (rest_tail m d Hd) as (Ea & Er & Em). rewrite Nat2Z.id. split; cbn [s buf bytes_].
    + by rewrite Ea, (holds_state m h H).
    + rewrite !length_app, length_take, length_drop, (holds_buf m h H). unfold zlen. lia.
    + rewrite Em, Er, (holds_rest m h H), app_assoc. rewrite take_app_length'; [done|].
      by rewrite length_app, length_rest.
    + rewrite (holds_bytes m h H). by apply count_add.
  - assert (d = []) as -> by (destruct d; [done|unfold zlen in Hp; simpl in Hp; lia]). exists h. rewrite app_nil_r. done.
Qed.

(** A write appends to the message, whatever its size. *)
Lemma Write_holds m h d : holds m h -> zlen d < 2 ^ 63 -> block < 2 ^ 63 ->
  exists h', Write block Transform d h = Ok h' /\ holds (m ++ d) h'.
Proof.
  intros H Hd Hb. unfold Write. rewrite (count_mod m h H).
  assert (length m mod B < B)%nat as Hr by (apply Nat.mod_upper_bound; lia).
  rewrite wrap_small by (unfold in_u; unfold block, zlen in *; lia).
  destruct (Z.eqb_spec (Z.of_nat (length m mod B)) 0) as [Hz|Hz]; cbn [negb andb res_bind].
  { destruct (holds_chunks (length d) m h d) as (h' & d' & c & -> & -> & Hl & Hz' & H'); [lia|done|lia|]. cbn [res_bind].
    destruct (holds_tail (m ++ c) h' d' H') as (h'' & E & H''); [lia|]. change (Z.of_nat 0) with 0 in *. rewrite Hz' in E. rewrite Hz. change (Z.of_nat 0) with 0 in E. rewrite E, app_assoc. by exists h''. }
  destruct (Z.leb_spec block (Z.of_nat (length m mod B) + zlen d)) as [Hge|Hlt]; cbn [res_bind].
  - set (r := (length m mod B)%nat) in *. unfold block, zlen in Hge.
    rewrite mem_read_ok by (unfold block, zlen; lia). cbn [res_bind]. rewrite drop_0.
    assert (Z.to_nat (block - Z.of_nat r) = B - r)%nat as -> by (unfold block; lia).
    set (c := take (B - r) d). assert (length c = (B - r)%nat) as Hc by (unfold c; rewrite length_take; lia).
    rewrite mem_write_ok by (unfold zlen; rewrite ?(holds_buf m h H), ?Hc; lia). cbn [res_bind]. rewrite Nat2Z.id.
    rewrite (drop_ge (buf h)) by (rewrite (holds_buf m h H); unfold zlen; lia). rewrite app_nil_r. pose proof (holds_rest m h H) as Hrest. fold r in Hrest. rewrite Hrest.
    destruct (rest_block m c) as [Er Ez]; [fold r; lia|].
    set (h1 := mk_hasher _ _ _). assert (holds (m ++ c) h1) as H1.
    { split; cbn [h1 s buf bytes_].
      - by rewrite absorbed_block, (holds_state m h H) by (fold r; lia).
      - rewrite length_app, length_rest. fold r. lia.
      - by rewrite Ez, Er, take_0.
      - rewrite (holds_bytes m h H). apply count_add. unfold zlen, block. lia. }
    destruct (holds_chunks (length (drop (B - r) d)) (m ++ c) h1 (drop (B - r) d)) as (h' & d' & c' & -> & Ed & Hl & Hz' & H'); [lia|done|done|].
    cbn [res_bind]. destruct (holds_tail ((m ++ c) ++ c') h' d' H') as (h'' & E & H''); [lia|]. rewrite Hz' in E.
    change (Z.of_nat 0) with 0 in E. rewrite E. exists h''. split; [done|].
    rewrite <- !app_assoc in H''. rewrite <- Ed in H''. unfold c in H''. by rewrite take_drop in H''.
  - unfold block, zlen in Hlt. destruct (length d) eqn:El; cbn [chunks_loop];
      rewrite (proj2 (Z.leb_gt block (zlen d))) by (unfold block, zlen; lia); cbn [res_bind]; apply holds_tail; (done || lia).
Qed.

Lemma write_all_holds parts : forall m h, holds m h -> block < 2 ^ 63 -> Forall (fun d => zlen d < 2 ^ 63) parts ->
  exists h', write_all block Transform parts h = Ok h' /\ holds (m ++ mjoin parts) h'.
Proof.
  induction parts as [|d parts IH]; intros m h H Hb Hp.
  - exists h. by rewrite app_nil_r.
  - apply Forall_cons in Hp as [Hd Hp]. cbn [write_all]. destruct (Write_holds m h d H Hd Hb) as (h1 & -> & H1). cbn [res_bind].
    destruct (IH _ _ H1 Hb Hp) as (h' & -> & H'). exists h'. by rewrite <- app_assoc in H'.
Qed.

Context (sizelen : nat) (sizedesc sizespec : Z -> bytes) (encode : T -> bytes).
Hypothesis Hsize : (1 + sizelen <= B)%nat.
Hypothesis Hdesc : forall n, in_u 64 n -> sizedesc n = sizespec n.
Hypothesis Hspec : forall n, length (sizespec n) = sizelen.

Lemma Finalize_digest m h : holds m h -> zlen m < 2 ^ 61 -> block < 2 ^ 61 ->
  exists h', Finalize block Transform (2 * block - 1 - Z.of_nat sizelen) sizedesc encode h =
    Ok (digest B Transform iv sizelen sizespec encode m, h') /\ length (buf h') = B.
Proof.
  intros H Hm Hb. unfold Finalize. rewrite (count_mod m h H).
  assert (length m mod B < B)%nat as Hr by (apply Nat.mod_upper_bound; lia).
  set (k := Z.to_nat ((- (1 + Z.of_nat sizelen + zlen m)) mod Z.of_nat B)).
  assert ((2 * block - 1 - Z.of_nat sizelen - Z.of_nat (length m mod B)) mod block = Z.of_nat k) as Ek.
  { unfold k, block, zlen. rewrite Z2Nat.id by (apply Z.mod_pos_bound; lia).
    pose proof (Nat.div_mod_eq (length m) B) as Em. rewrite Em at 2.
    replace (- (1 + Z.of_nat sizelen + Z.of_nat (B * (length m / B) + length m mod B)))
      with (2 * Z.of_nat B - 1 - Z.of_nat sizelen - Z.of_nat (length m mod B) + (- Z.of_nat (length m / B) - 2) * Z.of_nat B) by lia.
    by rewrite Z.mod_add by lia. }
  rewrite Ek. assert (Z.of_nat k < block) as Hk by (rewrite <- Ek; apply Z.mod_pos_bound; unfold block; lia).
  unfold block in Hk. rewrite mem_read_ok; [|lia|lia|unfold zlen, block; cbn [length]; rewrite length_replicate; lia].
  cbn [res_bind]. rewrite drop_0. replace (Z.to_nat (1 + Z.of_nat k)) with (S k) by lia. cbn [take].
  rewrite take_replicate. replace (k `min` (Z.to_nat block - 1))%nat with k by (unfold block; lia).
  destruct (Write_holds m h (0x80 :: replicate k 0) H) as (h1 & -> & H1); [unfold zlen; cbn [length]; rewrite length_replicate; unfold block in *; lia|unfold block in *; lia|].
  cbn [res_bind]. destruct (Write_holds _ h1 (sizespec (u64 (Z.shiftl (bytes_ h) 3))) H1) as (h2 & E2 & H2); [unfold zlen; rewrite Hspec; unfold block in *; lia|unfold block in *; lia|].
  rewrite Hdesc by (by apply wrap_range). rewrite E2. cbn [res_bind]. exists h2. split; [|exact (holds_buf _ h2 H2)]. rewrite (holds_state _ h2 H2). unfold digest, padded. fold k.
  rewrite (holds_bytes m h H), (wrap_small 64 (zlen m)) by (unfold in_u, zlen in *; lia).
  rewrite Z.shiftl_mul_pow2 by done. replace (zlen m * 2 ^ 3) with (8 * zlen m) by lia.
  rewrite wrap_small by (unfold in_u, zlen in *; lia). by rewrite <- app_assoc.
Qed.

Lemma hasher_correct mem parts : length mem = B -> Forall (fun d => zlen d < 2 ^ 63) parts -> zlen (mjoin parts) < 2 ^ 61 -> block < 2 ^ 61 ->
  exists h', (let? h := write_all block Transform parts (mk_hasher iv mem 0) in
     Finalize block Transform (2 * block - 1 - Z.of_nat sizelen) sizedesc encode h) =
    Ok (digest B Transform iv sizelen sizespec encode (mjoin parts), h') /\ length (buf h') = B.
Proof.
  intros Hm Hs Hl Hb. destruct (write_all_holds parts [] (mk_hasher iv mem 0)) as (h' & -> & H'); [by apply holds_init|lia|done|].
  cbn [res_bind]. by apply Finalize_digest.
Qed.
End refinement.

(** The reference over equal transformations. *)
Lemma digest_ext {T} B (f g : T -> bytes -> T) iv sizelen sizedesc encode m : (0 < B)%nat ->
  byte_list m -> (forall n, byte_list (sizedesc n)) -> (forall t c, length c = B -> byte_list c -> f t c = g t c) ->
  digest B f iv sizelen sizedesc encode m = digest B g iv sizelen sizedesc encode m.
Proof.
  intros HB Hm Hs Hfg. unfold digest. f_equal. set (p := padded _ _ _ _).
  assert (byte_list p) as Hp.
  { subst p. unfold padded, byte_list. rewrite !Forall_app. split_and!; [done|repeat constructor; done| |apply Hs].
    apply Forall_replicate. done. }
  assert (Forall (fun c => length c = B /\ byte_list c) (blocks B (length p / B) p)) as Hb.
  { apply blocks_ok; [|done]. pose proof (Nat.div_mod_eq (length p) B). lia. }
  revert iv. induction Hb as [|c l [Hc Hcb] _ IH]; intros iv; [done|]. cbn [foldl]. rewrite Hfg by done. apply IH.
Qed.
