(* ===== verification/Schedule.v ===== *)
(** Message schedules: the words of a block, each computed from the sixteen
    before it, and the window of sixteen variables in which the unrolled rounds
    of sha1.cpp, sha256.cpp and sha512.cpp keep them. *)

From S2P Require Import Prelude Bytes.

#[local] Ltac Zify.zify_post_hook ::= Z.to_euclidean_division_equations.

Section schedule.
(** The next word of a schedule, and a round with its constants [A]. *)
Context {A V : Type} (next : list Z -> Z) (step : V -> A * Z -> V).

Fixpoint schedule (n : nat) (W : list Z) : list Z :=
  match n with
  | O => W
  | S n => schedule n (W ++ [next W])
  end.

Fixpoint windowed (ks : list A) (win : list Z) (v : V) : V :=
  match ks with
  | [] => v
  | k :: ks => windowed ks (tail win ++ [next win]) (step v (k, next win))
  end.

Lemma schedule_prefix n W : exists X, schedule n W = W ++ X /\ length X = n.
Proof.
  revert W. induction n as [|n IH]; intros W; [exists []; by rewrite app_nil_r|].
  destruct (IH (W ++ [next W])) as (X & E & <-). exists (next W :: X). cbn [schedule]. by rewrite E, <- app_assoc.
Qed.

(** Only the last sixteen words matter. *)
Hypothesis next_window : forall a win, length win = 16%nat -> next (a ++ win) = next win.

Lemma windowed_long ks : forall n a win v, length win = 16%nat -> (length ks <= n)%nat ->
  foldl step v (zip ks (drop (length a + 16) (schedule n (a ++ win)))) = windowed ks win v.
Proof.
  induction ks as [|k ks IH]; intros n a win v Hw Hn; [done|]. destruct n as [|n]; [simpl in Hn; lia|].
  destruct win as [|x win]; [done|]. cbn [schedule]. rewrite next_window by done.
  set (y := next (x :: win)).
  replace ((a ++ x :: win) ++ [y]) with ((a ++ [x]) ++ win ++ [y]) by (by rewrite <- !app_assoc).
  cbn [windowed tail]. fold y. rewrite <- (IH n (a ++ [x]) (win ++ [y])); [|rewrite length_app; simpl in *; lia|simpl in Hn; lia].
  destruct (schedule_prefix n ((a ++ [x]) ++ win ++ [y])) as (X & -> & _).
  assert (length (a ++ [x]) + 16 = length (((a ++ [x]) ++ win ++ [y])))%nat as -> by (rewrite !length_app; simpl in *; lia).
  assert (length a + 16 = length ((a ++ [x]) ++ win))%nat as -> by (rewrite !length_app; simpl in *; lia).
  rewrite drop_app_length. rewrite (app_assoc (a ++ [x]) win [y]), <- (app_assoc ((a ++ [x]) ++ win)), drop_app_length. done.
Qed.

Lemma zip_split {B} (ks : list A) (a b : list B) : (length a <= length ks)%nat ->
  zip ks (a ++ b) = zip (take (length a) ks) a ++ zip (drop (length a) ks) b.
Proof.
  revert a. induction ks as [|k ks IH]; intros [|x a] Hl; try done; simpl in Hl.
  cbn. by rewrite IH by lia.
Qed.

Lemma windowed_schedule ks win v : length win = 16%nat -> (16 <= length ks)%nat ->
  foldl step v (zip ks (schedule (length ks - 16) win)) = windowed (drop 16 ks) win (foldl step v (zip (take 16 ks) win)).
Proof.
  intros Hw Hk. rewrite <- (windowed_long (drop 16 ks) (length ks - 16) [] win) by (rewrite ?length_drop; done || lia). cbn [length Nat.add app].
  destruct (schedule_prefix (length ks - 16) win) as (X & -> & HX). rewrite <- Hw, drop_app_length.
  rewrite zip_split by lia. by rewrite foldl_app.
Qed.
End schedule.

(** ** Unrolled rounds *)

(** The sixteen variables of the words. *)
Definition words16 : Type := Z * Z * Z * Z * Z * Z * Z * Z * Z * Z * Z * Z * Z * Z * Z * Z.

Definition list_of (win : words16) : list Z :=
  let '(w0, w1, w2, w3, w4, w5, w6, w7, w8, w9, w10, w11, w12, w13, w14, w15) := win in
  [w0; w1; w2; w3; w4; w5; w6; w7; w8; w9; w10; w11; w12; w13; w14; w15].

Definition words_of (l : list Z) : words16 :=
  (l !!! 0%nat, l !!! 1%nat, l !!! 2%nat, l !!! 3%nat, l !!! 4%nat, l !!! 5%nat, l !!! 6%nat, l !!! 7%nat,
   l !!! 8%nat, l !!! 9%nat, l !!! 10%nat, l !!! 11%nat, l !!! 12%nat, l !!! 13%nat, l !!! 14%nat, l !!! 15%nat).

Lemma list_words_of l : length l = 16%nat -> list_of (words_of l) = l.
Proof. intros Hl. do 16 (destruct l as [|? l]; [done|]). by destruct l. Qed.

(** The rest of the rounds after a group. *)
Definition finish {A V} (next : list Z -> Z) (step : V -> A * Z -> V) (ks : list A) (r : V * words16) : V :=
  windowed next step ks (list_of (snd r)) (fst r).

(** One round of a group against one of the reference: [window] opens the
    window, [step] the round; the new word gets a name on both sides. *)
Ltac group_round window step assoc :=
  rewrite window;
  lazymatch goal with
  | |- context [windowed _ _ _ [_; _; _; _; _; _; _; _; _; _; _; _; _; _; _; ?X] _] =>
      lazymatch goal with
      | |- ?L = ?F (let x := _ in @?B x) => change (L = F (B X))
      | |- ?L = let x := _ in @?B x => change (L = B X)
      | _ => assoc
      end; cbv beta; generalize X; intros ?
  end;
  step;
  lazymatch goal with |- windowed _ _ _ _ (match ?r with _ => _ end) = _ => destruct r as [? ?] end; cbv beta iota.

(** A round of the first group, over the words of the block. *)
Ltac first_round step :=
  cbv zeta; cbn [foldl]; step;
  lazymatch goal with |- context [match ?r with _ => _ end] => destruct r as [? ?] end; cbv beta iota.

(** ** Sums *)

(** [eqm_wrap] erases the reductions inside a sum. *)
Lemma eqm_wrap w x : 0 <= w -> eqm (2 ^ w) (wrap w x) x.
Proof. intros Hw. unfold eqm, wrap. by rewrite Z.mod_mod by (pose proof (pow2_pos w Hw); lia). Qed.
Lemma wrap_eq w x y : eqm (2 ^ w) x y -> wrap w x = wrap w y.
Proof. done. Qed.

#[global] Instance wrap_proper w : Proper (eqm (2 ^ w) ==> eqm (2 ^ w)) (wrap w).
Proof. intros x y H. unfold wrap. unfold eqm in H. by rewrite H. Qed.

Ltac sum_mod := apply wrap_eq; repeat rewrite eqm_wrap by done; apply eq_subrelation; [apply _|lia].
