(* ===== verification/Sha2.v ===== *)
(** The reference definition of SHA-2 (FIPS 180-4, sections 4 to 6), over the
    size of a word and the rotations of its functions, for sha256.cpp and
    sha512.cpp. The constants are computed from the primes. *)

From S2P Require Import Prelude Bytes HashStream Schedule.

#[local] Ltac Zify.zify_post_hook ::= Z.to_euclidean_division_equations.

(** ** The constants *)

(** The largest [x] of [k] bits with [x * x * x <= n]. *)
Fixpoint cbrt (k : nat) (n : Z) : Z :=
  match k with
  | O => 0
  | S k' => let x := 2 * cbrt k' (n / 8) in if (x + 1) * (x + 1) * (x + 1) <=? n then x + 1 else x
  end.

Lemma cbrt_spec k n : 0 <= n < 8 ^ Z.of_nat k ->
  let x := cbrt k n in 0 <= x /\ x * x * x <= n < (x + 1) * (x + 1) * (x + 1).
Proof.
  revert n. induction k as [|k IH]; intros n Hn; cbv zeta; [cbn in *; lia|].
  rewrite Nat2Z.inj_succ, Z.pow_succ_r in Hn by lia. destruct (IH (n / 8)) as (H0 & H1 & H2); [lia|]. cbn [cbrt].
  set (y := cbrt k (n / 8)) in *. destruct (Z.leb_spec ((2 * y + 1) * (2 * y + 1) * (2 * y + 1)) n) as [H|H]; nia.
Qed.

Definition is_prime (p : nat) : bool := forallb (fun d => negb (p mod d =? 0)%nat) (seq 2 (p - 2)).
Definition primes : list Z := map Z.of_nat (filter (fun p => is_prime p = true) (seq 2 408)).

(** The first [w] bits of the fractional part of a root. *)
Definition root3 (w p : Z) : Z := cbrt (Z.to_nat (w + 3)) (p * 2 ^ (3 * w)) mod 2 ^ w.
Definition root2 (w p : Z) : Z := Z.sqrt (p * 2 ^ (2 * w)) mod 2 ^ w.

(** ** The algorithm *)

(** Three rotations, or two and a shift. *)
Record parameters := {
  w : Z;
  big0 : Z * Z * Z;
  big1 : Z * Z * Z;
  small0 : Z * Z * Z;
  small1 : Z * Z * Z;
}.

Definition regs : Type := Z * Z * Z * Z * Z * Z * Z * Z.

Definition regs_list (v : regs) : list Z := let '(a, b, c, d, e, f, g, h) := v in [a; b; c; d; e; f; g; h].

Section sha2.
Context (p : parameters) (rounds : nat).

Definition add (x y : Z) : Z := wrap (w p) (x + y).
Definition ROTR (n x : Z) : Z := Z.lor (Z.shiftr x n) (wrap (w p) (Z.shiftl x (w p - n))).
Definition SHR (n x : Z) : Z := Z.shiftr x n.
Definition Ch' (x y z : Z) : Z := Z.lxor (Z.land x y) (Z.land (Z.lnot x) z).
Definition Maj' (x y z : Z) : Z := Z.lxor (Z.lxor (Z.land x y) (Z.land x z)) (Z.land y z).
Definition Sigma (r : Z * Z * Z) (x : Z) : Z := let '(i, j, k) := r in Z.lxor (Z.lxor (ROTR i x) (ROTR j x)) (ROTR k x).
Definition sigma (r : Z * Z * Z) (x : Z) : Z := let '(i, j, k) := r in Z.lxor (Z.lxor (ROTR i x) (ROTR j x)) (SHR k x).

Definition K : list Z := map (root3 (w p)) (take rounds primes).
Definition H0 : list Z := map (root2 (w p)) (take 8 primes).

(** The words of a block, the most significant byte first. *)
Definition word (t : nat) (chunk : bytes) : Z :=
  let n := Z.to_nat (w p / 8) in le_val (rev (take n (drop (t * n) chunk))).
Definition words (chunk : bytes) : list Z := map (fun t => word t chunk) (seq 0 16).

(** The message schedule: the word [t] from the words [t-2], [t-7], [t-15] and [t-16]. *)
Definition next (W : list Z) : Z :=
  let t := length W in
  add (add (add (sigma (small1 p) (W !!! (t - 2)%nat)) (W !!! (t - 7)%nat)) (sigma (small0 p) (W !!! (t - 15)%nat))) (W !!! (t - 16)%nat).
Definition step (v : regs) (kw : Z * Z) : regs :=
  let '(a, b, c, d, e, f, g, h) := v in
  let '(K, W) := kw in
  let T1 := add (add (add (add h (Sigma (big1 p) e)) (Ch' e f g)) K) W in
  let T2 := add (Sigma (big0 p) a) (Maj' a b c) in
  (add T1 T2, a, b, c, add d T1, e, f, g).

Definition compress (H : regs) (chunk : bytes) : regs :=
  let '(a, b, c, d, e, f, g, h) := foldl step H (zip K (schedule next (rounds - 16) (words chunk))) in
  let '(H0, H1, H2, H3, H4, H5, H6, H7) := H in
  (add a H0, add b H1, add c H2, add d H3, add e H4, add f H5, add g H6, add h H7).

Lemma next_window a win : length win = 16%nat -> next (a ++ win) = next win.
Proof.
  intros Hl. unfold next. rewrite length_app, Hl.
  assert (forall i, (1 <= i <= 16)%nat -> (a ++ win) !!! (length a + 16 - i)%nat = win !!! (16 - i)%nat) as E.
  { intros i Hi. rewrite (lookup_total_app_r a win) by lia. f_equal. lia. }
  by rewrite !E by lia.
Qed.

Lemma compress_range v chunk : 0 <= w p -> Forall (in_u (w p)) (regs_list (compress v chunk)).
Proof.
  intros Hw. unfold compress. destruct (foldl _ _ _) as [[[[[[[a b] c] d] e] f] g] h], v as [[[[[[[a' b'] c'] d'] e'] f'] g'] h'].
  repeat constructor; by apply wrap_range.
Qed.

Lemma absorb_range v l : 0 <= w p -> Forall (in_u (w p)) (regs_list v) -> Forall (in_u (w p)) (regs_list (foldl compress v l)).
Proof. intros Hw. revert v. induction l as [|c l IH]; intros v Hv; [done|]. apply IH. by apply compress_range. Qed.
End sha2.

(** ** Bits *)

Lemma Ch_eq x y z : Z.lxor z (Z.land x (Z.lxor y z)) = Ch' x y z.
Proof.
  apply Z.bits_inj'. intros n Hn. unfold Ch'. rewrite !Z.lxor_spec, !Z.land_spec, Z.lxor_spec, Z.lnot_spec by done.
  by destruct (Z.testbit x n), (Z.testbit y n), (Z.testbit z n).
Qed.

Lemma Maj_eq x y z : Z.lor (Z.land x y) (Z.land z (Z.lor x y)) = Maj' x y z.
Proof.
  apply Z.bits_inj'. intros n Hn. unfold Maj'. rewrite !Z.lxor_spec, Z.lor_spec, !Z.land_spec, Z.lor_spec.
  by destruct (Z.testbit x n), (Z.testbit y n), (Z.testbit z n).
Qed.

(** Numbers written most significant byte first. *)
Lemma be_bytes_list n l : byte_list (mjoin (map (fun x => rev (le_bytes n x)) l)) /\
  length (mjoin (map (fun x => rev (le_bytes n x)) l)) = (n * length l)%nat.
Proof.
  induction l as [|x l [IHb IHl]]; [split; [apply Forall_nil_2|simpl; lia]|]. cbn [map length].
  change (mjoin (?y :: ?k)) with (y ++ mjoin k). split.
  - apply Forall_app. split; [|exact IHb]. apply byte_list_rev, le_bytes_bytes.
  - rewrite length_app, length_rev, length_le_bytes, IHl. lia.
Qed.
