(* ===== verification/Sha256.v ===== *)
(** [CSHA256] of src/sige/crypto/sha256.h and sha256.cpp, and that it is SHA-256. *)

From S2P Require Import Prelude Bytes Prevector HashStream Schedule Sha2.

#[local] Notation "x [+] y" := (u32 (x + y)) (at level 50, left associativity) : sige_scope.

Module sha256.
Definition Ch (x y z : Z) : Z := Z.lxor z (Z.land x (Z.lxor y z)).
Definition Maj (x y z : Z) : Z := Z.lor (Z.land x y) (Z.land z (Z.lor x y)).
Definition Sigma0 (x : Z) : Z := Z.lxor (Z.lxor (Z.lor (Z.shiftr x 2) (u32 (Z.shiftl x 30))) (Z.lor (Z.shiftr x 13) (u32 (Z.shiftl x 19)))) (Z.lor (Z.shiftr x 22) (u32 (Z.shiftl x 10))).
Definition Sigma1 (x : Z) : Z := Z.lxor (Z.lxor (Z.lor (Z.shiftr x 6) (u32 (Z.shiftl x 26))) (Z.lor (Z.shiftr x 11) (u32 (Z.shiftl x 21)))) (Z.lor (Z.shiftr x 25) (u32 (Z.shiftl x 7))).
Definition sigma0 (x : Z) : Z := Z.lxor (Z.lxor (Z.lor (Z.shiftr x 7) (u32 (Z.shiftl x 25))) (Z.lor (Z.shiftr x 18) (u32 (Z.shiftl x 14)))) (Z.shiftr x 3).
Definition sigma1 (x : Z) : Z := Z.lxor (Z.lxor (Z.lor (Z.shiftr x 17) (u32 (Z.shiftl x 15))) (Z.lor (Z.shiftr x 19) (u32 (Z.shiftl x 13)))) (Z.shiftr x 10).

(** The registers [d] and [h] after a round. *)
Definition Round (a b c d e f g h k w : Z) : Z * Z :=
  let t1 := h [+] Sigma1 e [+] Ch e f g [+] k [+] w in
  let t2 := Sigma0 a [+] Maj a b c in
  (d [+] t1, t1 [+] t2).

Definition Initialize : regs :=
  (0x6a09e667, 0xbb67ae85, 0x3c6ef372, 0xa54ff53a, 0x510e527f, 0x9b05688c, 0x1f83d9ab, 0x5be0cd19).

(** The rounds, in the groups of sixteen of the code: the registers and the words after each. *)
Definition rounds0 (WORDS_BIGENDIAN : bool) (chunk : bytes) (v : regs) : regs * words16 :=
  let '(a, b, c, d, e, f, g, h) := v in
  let w0 := ReadBE32 WORDS_BIGENDIAN (drop 0 chunk) in
  let '(d, h) := Round a b c d e f g h 0x428a2f98 w0 in
  let w1 := ReadBE32 WORDS_BIGENDIAN (drop 4 chunk) in
  let '(c, g) := Round h a b c d e f g 0x71374491 w1 in
  let w2 := ReadBE32 WORDS_BIGENDIAN (drop 8 chunk) in
  let '(b, f) := Round g h a b c d e f 0xb5c0fbcf w2 in
  let w3 := ReadBE32 WORDS_BIGENDIAN (drop 12 chunk) in
  let '(a, e) := Round f g h a b c d e 0xe9b5dba5 w3 in
  let w4 := ReadBE32 WORDS_BIGENDIAN (drop 16 chunk) in
  let '(h, d) := Round e f g h a b c d 0x3956c25b w4 in
  let w5 := ReadBE32 WORDS_BIGENDIAN (drop 20 chunk) in
  let '(g, c) := Round d e f g h a b c 0x59f111f1 w5 in
  let w6 := ReadBE32 WORDS_BIGENDIAN (drop 24 chunk) in
  let '(f, b) := Round c d e f g h a b 0x923f82a4 w6 in
  let w7 := ReadBE32 WORDS_BIGENDIAN (drop 28 chunk) in
  let '(e, a) := Round b c d e f g h a 0xab1c5ed5 w7 in
  let w8 := ReadBE32 WORDS_BIGENDIAN (drop 32 chunk) in
  let '(d, h) := Round a b c d e f g h 0xd807aa98 w8 in
  let w9 := ReadBE32 WORDS_BIGENDIAN (drop 36 chunk) in
  let '(c, g) := Round h a b c d e f g 0x12835b01 w9 in
  let w10 := ReadBE32 WORDS_BIGENDIAN (drop 40 chunk) in
  let '(b, f) := Round g h a b c d e f 0x243185be w10 in
  let w11 := ReadBE32 WORDS_BIGENDIAN (drop 44 chunk) in
  let '(a, e) := Round f g h a b c d e 0x550c7dc3 w11 in
  let w12 := ReadBE32 WORDS_BIGENDIAN (drop 48 chunk) in
  let '(h, d) := Round e f g h a b c d 0x72be5d74 w12 in
  let w13 := ReadBE32 WORDS_BIGENDIAN (drop 52 chunk) in
  let '(g, c) := Round d e f g h a b c 0x80deb1fe w13 in
  let w14 := ReadBE32 WORDS_BIGENDIAN (drop 56 chunk) in
  let '(f, b) := Round c d e f g h a b 0x9bdc06a7 w14 in
  let w15 := ReadBE32 WORDS_BIGENDIAN (drop 60 chunk) in
  let '(e, a) := Round b c d e f g h a 0xc19bf174 w15 in
  ((a, b, c, d, e, f, g, h), (w0, w1, w2, w3, w4, w5, w6, w7, w8, w9, w10, w11, w12, w13, w14, w15)).

Definition rounds1 (v : regs) (win : words16) : regs * words16 :=
  let '(a, b, c, d, e, f, g, h) := v in
  let '(w0, w1, w2, w3, w4, w5, w6, w7, w8, w9, w10, w11, w12, w13, w14, w15) := win in
  let w0 := w0 [+] (sigma1 w14 [+] w9 [+] sigma0 w1) in
  let '(d, h) := Round a b c d e f g h 0xe49b69c1 w0 in
  let w1 := w1 [+] (sigma1 w15 [+] w10 [+] sigma0 w2) in
  let '(c, g) := Round h a b c d e f g 0xefbe4786 w1 in
  let w2 := w2 [+] (sigma1 w0 [+] w11 [+] sigma0 w3) in
  let '(b, f) := Round g h a b c d e f 0x0fc19dc6 w2 in
  let w3 := w3 [+] (sigma1 w1 [+] w12 [+] sigma0 w4) in
  let '(a, e) := Round f g h a b c d e 0x240ca1cc w3 in
  let w4 := w4 [+] (sigma1 w2 [+] w13 [+] sigma0 w5) in
  let '(h, d) := Round e f g h a b c d 0x2de92c6f w4 in
  let w5 := w5 [+] (sigma1 w3 [+] w14 [+] sigma0 w6) in
  let '(g, c) := Round d e f g h a b c 0x4a7484aa w5 in
  let w6 := w6 [+] (sigma1 w4 [+] w15 [+] sigma0 w7) in
  let '(f, b) := Round c d e f g h a b 0x5cb0a9dc w6 in
  let w7 := w7 [+] (sigma1 w5 [+] w0 [+] sigma0 w8) in
  let '(e, a) := Round b c d e f g h a 0x76f988da w7 in
  let w8 := w8 [+] (sigma1 w6 [+] w1 [+] sigma0 w9) in
  let '(d, h) := Round a b c d e f g h 0x983e5152 w8 in
  let w9 := w9 [+] (sigma1 w7 [+] w2 [+] sigma0 w10) in
  let '(c, g) := Round h a b c d e f g 0xa831c66d w9 in
  let w10 := w10 [+] (sigma1 w8 [+] w3 [+] sigma0 w11) in
  let '(b, f) := Round g h a b c d e f 0xb00327c8 w10 in
  let w11 := w11 [+] (sigma1 w9 [+] w4 [+] sigma0 w12) in
  let '(a, e) := Round f g h a b c d e 0xbf597fc7 w11 in
  let w12 := w12 [+] (sigma1 w10 [+] w5 [+] sigma0 w13) in
  let '(h, d) := Round e f g h a b c d 0xc6e00bf3 w12 in
  let w13 := w13 [+] (sigma1 w11 [+] w6 [+] sigma0 w14) in
  let '(g, c) := Round d e f g h a b c 0xd5a79147 w13 in
  let w14 := w14 [+] (sigma1 w12 [+] w7 [+] sigma0 w15) in
  let '(f, b) := Round c d e f g h a b 0x06ca6351 w14 in
  let w15 := w15 [+] (sigma1 w13 [+] w8 [+] sigma0 w0) in
  let '(e, a) := Round b c d e f g h a 0x14292967 w15 in
  ((a, b, c, d, e, f, g, h), (w0, w1, w2, w3, w4, w5, w6, w7, w8, w9, w10, w11, w12, w13, w14, w15)).

Definition rounds2 (v : regs) (win : words16) : regs * words16 :=
  let '(a, b, c, d, e, f, g, h) := v in
  let '(w0, w1, w2, w3, w4, w5, w6, w7, w8, w9, w10, w11, w12, w13, w14, w15) := win in
  let w0 := w0 [+] (sigma1 w14 [+] w9 [+] sigma0 w1) in
  let '(d, h) := Round a b c d e f g h 0x27b70a85 w0 in
  let w1 := w1 [+] (sigma1 w15 [+] w10 [+] sigma0 w2) in
  let '(c, g) := Round h a b c d e f g 0x2e1b2138 w1 in
  let w2 := w2 [+] (sigma1 w0 [+] w11 [+] sigma0 w3) in
  let '(b, f) := Round g h a b c d e f 0x4d2c6dfc w2 in
  let w3 := w3 [+] (sigma1 w1 [+] w12 [+] sigma0 w4) in
  let '(a, e) := Round f g h a b c d e 0x53380d13 w3 in
  let w4 := w4 [+] (sigma1 w2 [+] w13 [+] sigma0 w5) in
  let '(h, d) := Round e f g h a b c d 0x650a7354 w4 in
  let w5 := w5 [+] (sigma1 w3 [+] w14 [+] sigma0 w6) in
  let '(g, c) := Round d e f g h a b c 0x766a0abb w5 in
  let w6 := w6 [+] (sigma1 w4 [+] w15 [+] sigma0 w7) in
  let '(f, b) := Round c d e f g h a b 0x81c2c92e w6 in
  let w7 := w7 [+] (sigma1 w5 [+] w0 [+] sigma0 w8) in
  let '(e, a) := Round b c d e f g h a 0x92722c85 w7 in
  let w8 := w8 [+] (sigma1 w6 [+] w1 [+] sigma0 w9) in
  let '(d, h) := Round a b c d e f g h 0xa2bfe8a1 w8 in
  let w9 := w9 [+] (sigma1 w7 [+] w2 [+] sigma0 w10) in
  let '(c, g) := Round h a b c d e f g 0xa81a664b w9 in
  let w10 := w10 [+] (sigma1 w8 [+] w3 [+] sigma0 w11) in
  let '(b, f) := Round g h a b c d e f 0xc24b8b70 w10 in
  let w11 := w11 [+] (sigma1 w9 [+] w4 [+] sigma0 w12) in
  let '(a, e) := Round f g h a b c d e 0xc76c51a3 w11 in
  let w12 := w12 [+] (sigma1 w10 [+] w5 [+] sigma0 w13) in
  let '(h, d) := Round e f g h a b c d 0xd192e819 w12 in
  let w13 := w13 [+] (sigma1 w11 [+] w6 [+] sigma0 w14) in
  let '(g, c) := Round d e f g h a b c 0xd6990624 w13 in
  let w14 := w14 [+] (sigma1 w12 [+] w7 [+] sigma0 w15) in
  let '(f, b) := Round c d e f g h a b 0xf40e3585 w14 in
  let w15 := w15 [+] (sigma1 w13 [+] w8 [+] sigma0 w0) in
  let '(e, a) := Round b c d e f g h a 0x106aa070 w15 in
  ((a, b, c, d, e, f, g, h), (w0, w1, w2, w3, w4, w5, w6, w7, w8, w9, w10, w11, w12, w13, w14, w15)).

Definition rounds3 (v : regs) (win : words16) : regs :=
  let '(a, b, c, d, e, f, g, h) := v in
  let '(w0, w1, w2, w3, w4, w5, w6, w7, w8, w9, w10, w11, w12, w13, w14, w15) := win in
  let w0 := w0 [+] (sigma1 w14 [+] w9 [+] sigma0 w1) in
  let '(d, h) := Round a b c d e f g h 0x19a4c116 w0 in
  let w1 := w1 [+] (sigma1 w15 [+] w10 [+] sigma0 w2) in
  let '(c, g) := Round h a b c d e f g 0x1e376c08 w1 in
  let w2 := w2 [+] (sigma1 w0 [+] w11 [+] sigma0 w3) in
  let '(b, f) := Round g h a b c d e f 0x2748774c w2 in
  let w3 := w3 [+] (sigma1 w1 [+] w12 [+] sigma0 w4) in
  let '(a, e) := Round f g h a b c d e 0x34b0bcb5 w3 in
  let w4 := w4 [+] (sigma1 w2 [+] w13 [+] sigma0 w5) in
  let '(h, d) := Round e f g h a b c d 0x391c0cb3 w4 in
  let w5 := w5 [+] (sigma1 w3 [+] w14 [+] sigma0 w6) in
  let '(g, c) := Round d e f g h a b c 0x4ed8aa4a w5 in
  let w6 := w6 [+] (sigma1 w4 [+] w15 [+] sigma0 w7) in
  let '(f, b) := Round c d e f g h a b 0x5b9cca4f w6 in
  let w7 := w7 [+] (sigma1 w5 [+] w0 [+] sigma0 w8) in
  let '(e, a) := Round b c d e f g h a 0x682e6ff3 w7 in
  let w8 := w8 [+] (sigma1 w6 [+] w1 [+] sigma0 w9) in
  let '(d, h) := Round a b c d e f g h 0x748f82ee w8 in
  let w9 := w9 [+] (sigma1 w7 [+] w2 [+] sigma0 w10) in
  let '(c, g) := Round h a b c d e f g 0x78a5636f w9 in
  let w10 := w10 [+] (sigma1 w8 [+] w3 [+] sigma0 w11) in
  let '(b, f) := Round g h a b c d e f 0x84c87814 w10 in
  let w11 := w11 [+] (sigma1 w9 [+] w4 [+] sigma0 w12) in
  let '(a, e) := Round f g h a b c d e 0x8cc70208 w11 in
  let w12 := w12 [+] (sigma1 w10 [+] w5 [+] sigma0 w13) in
  let '(h, d) := Round e f g h a b c d 0x90befffa w12 in
  let w13 := w13 [+] (sigma1 w11 [+] w6 [+] sigma0 w14) in
  let '(g, c) := Round d e f g h a b c 0xa4506ceb w13 in
  let '(f, b) := Round c d e f g h a b 0xbef9a3f7 (w14 [+] sigma1 w12 [+] w7 [+] sigma0 w15) in
  let '(e, a) := Round b c d e f g h a 0xc67178f2 (w15 [+] sigma1 w13 [+] w8 [+] sigma0 w0) in
  (a, b, c, d, e, f, g, h).

Definition Transform (WORDS_BIGENDIAN : bool) (s : regs) (chunk : bytes) : regs :=
  let '(v, win) := rounds0 WORDS_BIGENDIAN chunk s in
  let '(v, win) := rounds1 v win in
  let '(v, win) := rounds2 v win in
  let '(a, b, c, d, e, f, g, h) := rounds3 v win in
  let '(s0, s1, s2, s3, s4, s5, s6, s7) := s in
  (s0 [+] a, s1 [+] b, s2 [+] c, s3 [+] d, s4 [+] e, s5 [+] f, s6 [+] g, s7 [+] h).
End sha256.

(** ** The transformation *)

Definition SHA256_parameters : parameters :=
  {| w := 32; big0 := (2, 13, 22); big1 := (6, 11, 25); small0 := (7, 18, 3); small1 := (17, 19, 10) |}.

Section transform.
Import sha256.

Lemma sha256_step_Round a b c d e f g h k x :
  step SHA256_parameters (a, b, c, d, e, f, g, h) (k, x) =
  let '(d', h') := Round a b c d e f g h k x in (h', a, b, c, d', e, f, g).
Proof. unfold step, Round, Ch, Maj. by rewrite Ch_eq, Maj_eq. Qed.

Lemma sha256_add_assoc x a b c : x [+] a [+] b [+] c = x [+] (a [+] b [+] c).
Proof. sum_mod. Qed.

(** The new word of the window, in the order of the code. *)
Lemma sha256_window k ks x0 x1 x2 x3 x4 x5 x6 x7 x8 x9 x10 x11 x12 x13 x14 x15 v :
  windowed (next SHA256_parameters) (step SHA256_parameters) (k :: ks) [x0; x1; x2; x3; x4; x5; x6; x7; x8; x9; x10; x11; x12; x13; x14; x15] v =
  windowed (next SHA256_parameters) (step SHA256_parameters) ks [x1; x2; x3; x4; x5; x6; x7; x8; x9; x10; x11; x12; x13; x14; x15; x0 [+] (sigma1 x14 [+] x9 [+] sigma0 x1)]
    (step SHA256_parameters v (k, x0 [+] (sigma1 x14 [+] x9 [+] sigma0 x1))).
Proof.
  assert (x0 [+] (sigma1 x14 [+] x9 [+] sigma0 x1) = sigma1 x14 [+] x9 [+] sigma0 x1 [+] x0) as -> by sum_mod. reflexivity.
Qed.

Lemma sha256_read_word be chunk t : length chunk = 64%nat -> byte_list chunk -> (t < 16)%nat ->
  word SHA256_parameters t chunk = ReadBE32 be (drop (t * 4) chunk).
Proof.
  intros Hl Hb Ht. destruct (read_be be (drop (t * 4) chunk)) as [E _]; [by apply Forall_drop|]. rewrite E by (rewrite length_drop; lia). done.
Qed.

(** A group of rounds against the rounds of the reference. *)
Lemma sha256_rounds0_spec be chunk v : length chunk = 64%nat -> byte_list chunk ->
  rounds0 be chunk v = (foldl (step SHA256_parameters) v (zip (take 16 (K SHA256_parameters 64)) (words SHA256_parameters chunk)), words_of (words SHA256_parameters chunk)).
Proof.
  intros Hl Hb. destruct v as [[[[[[[a b] c] d] e] f] g] h]. unfold words. cbn [map seq]. rewrite !(sha256_read_word be) by (done || lia). cbn [Nat.mul Nat.add].
  let K' := eval vm_compute in (take 16 (K SHA256_parameters 64)) in replace (take 16 (K SHA256_parameters 64)) with K' by (vm_compute; reflexivity).
  cbn [zip zip_with words_of list_lookup_total]. cbv delta [rounds0]. cbv beta iota.
  repeat match goal with |- context [ReadBE32 be (drop ?n chunk)] => generalize (ReadBE32 be (drop n chunk)); intros ? end.
  do 16 first_round ltac:(rewrite sha256_step_Round). reflexivity.
Qed.

Lemma sha256_rounds1_spec v win :
  windowed (next SHA256_parameters) (step SHA256_parameters) (drop 16 (K SHA256_parameters 64)) (list_of win) v = finish (next SHA256_parameters) (step SHA256_parameters) (drop 32 (K SHA256_parameters 64)) (rounds1 v win).
Proof.
  set (ks := drop 32 _).
  assert (drop 16 (K SHA256_parameters 64) = take 16 (drop 16 (K SHA256_parameters 64)) ++ ks) as -> by (unfold ks; by rewrite <- (take_drop 16 (drop 16 _)), drop_drop at 1).
  generalize ks. clear ks. intros ks.
  let K' := eval vm_compute in (take 16 (drop 16 (K SHA256_parameters 64))) in replace (take 16 (drop 16 (K SHA256_parameters 64))) with K' by (vm_compute; reflexivity).
  destruct v as [[[[[[[a b] c] d] e] f] g] h], win as [[[[[[[[[[[[[[[w0 w1] w2] w3] w4] w5] w6] w7] w8] w9] w10] w11] w12] w13] w14] w15].
  cbn [list_of app]. cbv delta [rounds1]. cbv beta iota. do 16 group_round sha256_window ltac:(rewrite sha256_step_Round) ltac:(rewrite sha256_add_assoc). reflexivity.
Qed.

Lemma sha256_rounds2_spec v win :
  windowed (next SHA256_parameters) (step SHA256_parameters) (drop 32 (K SHA256_parameters 64)) (list_of win) v = finish (next SHA256_parameters) (step SHA256_parameters) (drop 48 (K SHA256_parameters 64)) (rounds2 v win).
Proof.
  set (ks := drop 48 _).
  assert (drop 32 (K SHA256_parameters 64) = take 16 (drop 32 (K SHA256_parameters 64)) ++ ks) as -> by (unfold ks; by rewrite <- (take_drop 16 (drop 32 _)), drop_drop at 1).
  generalize ks. clear ks. intros ks.
  let K' := eval vm_compute in (take 16 (drop 32 (K SHA256_parameters 64))) in replace (take 16 (drop 32 (K SHA256_parameters 64))) with K' by (vm_compute; reflexivity).
  destruct v as [[[[[[[a b] c] d] e] f] g] h], win as [[[[[[[[[[[[[[[w0 w1] w2] w3] w4] w5] w6] w7] w8] w9] w10] w11] w12] w13] w14] w15].
  cbn [list_of app]. cbv delta [rounds2]. cbv beta iota. do 16 group_round sha256_window ltac:(rewrite sha256_step_Round) ltac:(rewrite sha256_add_assoc). reflexivity.
Qed.

Lemma sha256_rounds3_spec v win :
  windowed (next SHA256_parameters) (step SHA256_parameters) (drop 48 (K SHA256_parameters 64)) (list_of win) v = rounds3 v win.
Proof.
  let K' := eval vm_compute in (drop 48 (K SHA256_parameters 64)) in replace (drop 48 (K SHA256_parameters 64)) with K' by (vm_compute; reflexivity).
  destruct v as [[[[[[[a b] c] d] e] f] g] h], win as [[[[[[[[[[[[[[[w0 w1] w2] w3] w4] w5] w6] w7] w8] w9] w10] w11] w12] w13] w14] w15].
  cbn [list_of app]. cbv delta [rounds3]. cbv beta iota. do 16 group_round sha256_window ltac:(rewrite sha256_step_Round) ltac:(rewrite sha256_add_assoc). reflexivity.
Qed.

Lemma sha256_Transform_compress be s chunk : length chunk = 64%nat -> byte_list chunk ->
  Transform be s chunk = compress SHA256_parameters 64 s chunk.
Proof.
  intros Hl Hb. unfold Transform, compress. rewrite sha256_rounds0_spec by done.
  assert (length (K SHA256_parameters 64) = 64%nat) as HK by (vm_compute; reflexivity).
  replace (64 - 16)%nat with (length (K SHA256_parameters 64) - 16)%nat by (by rewrite HK). rewrite windowed_schedule; [|apply next_window|reflexivity|rewrite HK; lia].
  pose proof (list_words_of (words SHA256_parameters chunk) eq_refl) as EW. generalize (foldl (step SHA256_parameters) s (zip (take 16 (K SHA256_parameters 64)) (words SHA256_parameters chunk))).
  intros v0. generalize dependent (words_of (words SHA256_parameters chunk)). intros win0 <-. rewrite sha256_rounds1_spec.
  destruct (rounds1 _ _) as [v1 win1]. unfold finish at 1. cbn [fst snd]. rewrite sha256_rounds2_spec.
  destruct (rounds2 _ _) as [v2 win2]. unfold finish at 1. cbn [fst snd]. rewrite sha256_rounds3_spec.
  destruct (rounds3 _ _) as [[[[[[[a b] c] d] e] f] g] h], s as [[[[[[[a' b'] c'] d'] e'] f'] g'] h'].
  unfold add. cbn [w SHA256_parameters]. repeat apply (f_equal2 pair); apply (f_equal u32), Z.add_comm.
Qed.
End transform.

(** ** The class *)

Module CSHA256.
Definition OUTPUT_SIZE : Z := 32.

Section class.
Context (WORDS_BIGENDIAN : bool).

(** [mem] is the buffer before it is set. *)
Definition make (mem : bytes) : hasher regs := mk_hasher sha256.Initialize mem 0.

Definition Write : bytes -> hasher regs -> res (hasher regs) := HashStream.Write 64 (sha256.Transform WORDS_BIGENDIAN).

Definition encode (s : regs) : bytes :=
  mjoin (map (fun x => WriteBE32 WORDS_BIGENDIAN (replicate 4 0) x) (regs_list s)).

Definition Finalize : hasher regs -> res (bytes * hasher regs) :=
  HashStream.Finalize 64 (sha256.Transform WORDS_BIGENDIAN) 119 (WriteBE64 WORDS_BIGENDIAN (replicate 8 0)) encode.

Definition Reset (h : hasher regs) : hasher regs := mk_hasher sha256.Initialize (buf h) 0.
End class.
End CSHA256.

(** FIPS 180-4: the hash of a message. *)
Definition SHA256_spec (m : bytes) : bytes :=
  digest 64 (compress SHA256_parameters 64) sha256.Initialize 8 (fun n => rev (le_bytes 8 n))
    (fun s => mjoin (map (fun x => rev (le_bytes 4 x)) (regs_list s))) m.

Lemma sha256_Initialize_H0 : regs_list sha256.Initialize = H0 SHA256_parameters.
Proof. vm_compute. reflexivity. Qed.

Example SHA256_abc :
  (let? h := CSHA256.Write false [97; 98; 99] (CSHA256.make (replicate 64 7)) in let? (d, _) := CSHA256.Finalize false h in Ok d) =
  Ok [0xba; 0x78; 0x16; 0xbf; 0x8f; 0x01; 0xcf; 0xea; 0x41; 0x41; 0x40; 0xde; 0x5d; 0xae; 0x22; 0x23;
      0xb0; 0x03; 0x61; 0xa3; 0x96; 0x17; 0x7a; 0x9c; 0xb4; 0x10; 0xff; 0x61; 0xf2; 0x00; 0x15; 0xad].
Proof. vm_compute. reflexivity. Qed.

(** ** The class computes the hash *)

Lemma sha256_encode_spec be s : Forall (in_u 32) (regs_list s) ->
  CSHA256.encode be s = mjoin (map (fun x => rev (le_bytes 4 x)) (regs_list s)).
Proof.
  intros H. unfold CSHA256.encode. f_equal. apply map_ext_Forall. eapply Forall_impl; [exact H|]. intros x Hx. cbv beta.
  rewrite (proj1 (write_be be (replicate 4 0) x) Hx). by rewrite drop_ge, app_nil_r.
Qed.

Lemma SHA256_spec_size m : byte_list (SHA256_spec m) /\ length (SHA256_spec m) = 32%nat.
Proof.
  unfold SHA256_spec, digest. destruct (be_bytes_list 4 (regs_list (foldl (compress SHA256_parameters 64) sha256.Initialize
    (blocks 64 (length (padded 64 8 (fun n => rev (le_bytes 8 n)) m) / 64) (padded 64 8 (fun n => rev (le_bytes 8 n)) m))))) as [Hb Hl].
  split; [exact Hb|]. rewrite Hl. by destruct (foldl _ _ _) as [[[[[[[a b] c] d] e] f] g] h].
Qed.

(** Whatever parts a message is written in, and whatever the buffer held, the object ends with its hash. *)
Lemma CSHA256_correct be h parts : length (buf h) = 64%nat -> Forall byte_list parts ->
  Forall (fun d => zlen d < 2 ^ 63) parts -> zlen (mjoin parts) < 2 ^ 61 ->
  exists h', (let? h := write_all 64 (sha256.Transform be) parts (CSHA256.Reset h) in CSHA256.Finalize be h) = Ok (SHA256_spec (mjoin parts), h') /\ length (buf h') = 64%nat.
Proof.
  intros Hbuf Hp Hs Hl. assert (Z.of_nat 64 | 2 ^ 64) as Hdvd by (exists (2 ^ 58); reflexivity).
  assert (byte_list (mjoin parts)) as Hb by (clear -Hp; induction Hp; [constructor|by apply Forall_app]).
  assert (forall n, in_u 64 n -> WriteBE64 be (replicate 8 0) n = rev (le_bytes 8 n)) as Hd.
  { intros n Hn. rewrite (proj2 (write_be be (replicate 8 0) n) Hn). by rewrite drop_ge, app_nil_r. }
  assert (forall n, length (rev (le_bytes 8 n)) = 8%nat) as Hn by (intros; by rewrite length_rev, length_le_bytes).
  destruct (hasher_correct 64 (sha256.Transform be) sha256.Initialize ltac:(lia) Hdvd 8
      (WriteBE64 be (replicate 8 0)) (fun n => rev (le_bytes 8 n)) (CSHA256.encode be) ltac:(lia) Hd Hn (buf h) parts Hbuf Hs Hl ltac:(done)) as (h' & E & Hb').
  exists h'. split; [|exact Hb']. refine (eq_trans E _). do 2 f_equal.
  rewrite (digest_ext 64 (sha256.Transform be) (compress SHA256_parameters 64)); [|lia|exact Hb| |].
  - apply sha256_encode_spec, (absorb_range SHA256_parameters); [done|]. repeat constructor; done.
  - intros n. apply byte_list_rev, le_bytes_bytes.
  - intros. by apply sha256_Transform_compress.
Qed.
