(* ===== verification/Sha512.v ===== *)
(** [CSHA512] of src/sige/crypto/sha512.h and sha512.cpp, and that it is SHA-512. *)

From S2P Require Import Prelude Bytes Prevector HashStream Schedule Sha2.

#[local] Notation "x [+] y" := (u64 (x + y)) (at level 50, left associativity) : sige_scope.

Module sha512.
Definition Ch (x y z : Z) : Z := Z.lxor z (Z.land x (Z.lxor y z)).
Definition Maj (x y z : Z) : Z := Z.lor (Z.land x y) (Z.land z (Z.lor x y)).
Definition Sigma0 (x : Z) : Z := Z.lxor (Z.lxor (Z.lor (Z.shiftr x 28) (u64 (Z.shiftl x 36))) (Z.lor (Z.shiftr x 34) (u64 (Z.shiftl x 30)))) (Z.lor (Z.shiftr x 39) (u64 (Z.shiftl x 25))).
Definition Sigma1 (x : Z) : Z := Z.lxor (Z.lxor (Z.lor (Z.shiftr x 14) (u64 (Z.shiftl x 50))) (Z.lor (Z.shiftr x 18) (u64 (Z.shiftl x 46)))) (Z.lor (Z.shiftr x 41) (u64 (Z.shiftl x 23))).
Definition sigma0 (x : Z) : Z := Z.lxor (Z.lxor (Z.lor (Z.shiftr x 1) (u64 (Z.shiftl x 63))) (Z.lor (Z.shiftr x 8) (u64 (Z.shiftl x 56)))) (Z.shiftr x 7).
Definition sigma1 (x : Z) : Z := Z.lxor (Z.lxor (Z.lor (Z.shiftr x 19) (u64 (Z.shiftl x 45))) (Z.lor (Z.shiftr x 61) (u64 (Z.shiftl x 3)))) (Z.shiftr x 6).

(** The registers [d] and [h] after a round. *)
Definition Round (a b c d e f g h k w : Z) : Z * Z :=
  let t1 := h [+] Sigma1 e [+] Ch e f g [+] k [+] w in
  let t2 := Sigma0 a [+] Maj a b c in
  (d [+] t1, t1 [+] t2).

Definition Initialize : regs :=
  (0x6a09e667f3bcc908, 0xbb67ae8584caa73b, 0x3c6ef372fe94f82b, 0xa54ff53a5f1d36f1, 0x510e527fade682d1, 0x9b05688c2b3e6c1f, 0x1f83d9abfb41bd6b, 0x5be0cd19137e2179).

(** The rounds, in the groups of sixteen of the code: the registers and the words after each. *)
Definition rounds0 (WORDS_BIGENDIAN : bool) (chunk : bytes) (v : regs) : regs * words16 :=
  let '(a, b, c, d, e, f, g, h) := v in
  let w0 := ReadBE64 WORDS_BIGENDIAN (drop 0 chunk) in
  let '(d, h) := Round a b c d e f g h 0x428a2f98d728ae22 w0 in
  let w1 := ReadBE64 WORDS_BIGENDIAN (drop 8 chunk) in
  let '(c, g) := Round h a b c d e f g 0x7137449123ef65cd w1 in
  let w2 := ReadBE64 WORDS_BIGENDIAN (drop 16 chunk) in
  let '(b, f) := Round g h a b c d e f 0xb5c0fbcfec4d3b2f w2 in
  let w3 := ReadBE64 WORDS_BIGENDIAN (drop 24 chunk) in
  let '(a, e) := Round f g h a b c d e 0xe9b5dba58189dbbc w3 in
  let w4 := ReadBE64 WORDS_BIGENDIAN (drop 32 chunk) in
  let '(h, d) := Round e f g h a b c d 0x3956c25bf348b538 w4 in
  let w5 := ReadBE64 WORDS_BIGENDIAN (drop 40 chunk) in
  let '(g, c) := Round d e f g h a b c 0x59f111f1b605d019 w5 in
  let w6 := ReadBE64 WORDS_BIGENDIAN (drop 48 chunk) in
  let '(f, b) := Round c d e f g h a b 0x923f82a4af194f9b w6 in
  let w7 := ReadBE64 WORDS_BIGENDIAN (drop 56 chunk) in
  let '(e, a) := Round b c d e f g h a 0xab1c5ed5da6d8118 w7 in
  let w8 := ReadBE64 WORDS_BIGENDIAN (drop 64 chunk) in
  let '(d, h) := Round a b c d e f g h 0xd807aa98a3030242 w8 in
  let w9 := ReadBE64 WORDS_BIGENDIAN (drop 72 chunk) in
  let '(c, g) := Round h a b c d e f g 0x12835b0145706fbe w9 in
  let w10 := ReadBE64 WORDS_BIGENDIAN (drop 80 chunk) in
  let '(b, f) := Round g h a b c d e f 0x243185be4ee4b28c w10 in
  let w11 := ReadBE64 WORDS_BIGENDIAN (drop 88 chunk) in
  let '(a, e) := Round f g h a b c d e 0x550c7dc3d5ffb4e2 w11 in
  let w12 := ReadBE64 WORDS_BIGENDIAN (drop 96 chunk) in
  let '(h, d) := Round e f g h a b c d 0x72be5d74f27b896f w12 in
  let w13 := ReadBE64 WORDS_BIGENDIAN (drop 104 chunk) in
  let '(g, c) := Round d e f g h a b c 0x80deb1fe3b1696b1 w13 in
  let w14 := ReadBE64 WORDS_BIGENDIAN (drop 112 chunk) in
  let '(f, b) := Round c d e f g h a b 0x9bdc06a725c71235 w14 in
  let w15 := ReadBE64 WORDS_BIGENDIAN (drop 120 chunk) in
  let '(e, a) := Round b c d e f g h a 0xc19bf174cf692694 w15 in
  ((a, b, c, d, e, f, g, h), (w0, w1, w2, w3, w4, w5, w6, w7, w8, w9, w10, w11, w12, w13, w14, w15)).

Definition rounds1 (v : regs) (win : words16) : regs * words16 :=
  let '(a, b, c, d, e, f, g, h) := v in
  let '(w0, w1, w2, w3, w4, w5, w6, w7, w8, w9, w10, w11, w12, w13, w14, w15) := win in
  let w0 := w0 [+] (sigma1 w14 [+] w9 [+] sigma0 w1) in
  let '(d, h) := Round a b c d e f g h 0xe49b69c19ef14ad2 w0 in
  let w1 := w1 [+] (sigma1 w15 [+] w10 [+] sigma0 w2) in
  let '(c, g) := Round h a b c d e f g 0xefbe4786384f25e3 w1 in
  let w2 := w2 [+] (sigma1 w0 [+] w11 [+] sigma0 w3) in
  let '(b, f) := Round g h a b c d e f 0x0fc19dc68b8cd5b5 w2 in
  let w3 := w3 [+] (sigma1 w1 [+] w12 [+] sigma0 w4) in
  let '(a, e) := Round f g h a b c d e 0x240ca1cc77ac9c65 w3 in
  let w4 := w4 [+] (sigma1 w2 [+] w13 [+] sigma0 w5) in
  let '(h, d) := Round e f g h a b c d 0x2de92c6f592b0275 w4 in
  let w5 := w5 [+] (sigma1 w3 [+] w14 [+] sigma0 w6) in
  let '(g, c) := Round d e f g h a b c 0x4a7484aa6ea6e483 w5 in
  let w6 := w6 [+] (sigma1 w4 [+] w15 [+] sigma0 w7) in
  let '(f, b) := Round c d e f g h a b 0x5cb0a9dcbd41fbd4 w6 in
  let w7 := w7 [+] (sigma1 w5 [+] w0 [+] sigma0 w8) in
  let '(e, a) := Round b c d e f g h a 0x76f988da831153b5 w7 in
  let w8 := w8 [+] (sigma1 w6 [+] w1 [+] sigma0 w9) in
  let '(d, h) := Round a b c d e f g h 0x983e5152ee66dfab w8 in
  let w9 := w9 [+] (sigma1 w7 [+] w2 [+] sigma0 w10) in
  let '(c, g) := Round h a b c d e f g 0xa831c66d2db43210 w9 in
  let w10 := w10 [+] (sigma1 w8 [+] w3 [+] sigma0 w11) in
  let '(b, f) := Round g h a b c d e f 0xb00327c898fb213f w10 in
  let w11 := w11 [+] (sigma1 w9 [+] w4 [+] sigma0 w12) in
  let '(a, e) := Round f g h a b c d e 0xbf597fc7beef0ee4 w11 in
  let w12 := w12 [+] (sigma1 w10 [+] w5 [+] sigma0 w13) in
  let '(h, d) := Round e f g h a b c d 0xc6e00bf33da88fc2 w12 in
  let w13 := w13 [+] (sigma1 w11 [+] w6 [+] sigma0 w14) in
  let '(g, c) := Round d e f g h a b c 0xd5a79147930aa725 w13 in
  let w14 := w14 [+] (sigma1 w12 [+] w7 [+] sigma0 w15) in
  let '(f, b) := Round c d e f g h a b 0x06ca6351e003826f w14 in
  let w15 := w15 [+] (sigma1 w13 [+] w8 [+] sigma0 w0) in
  let '(e, a) := Round b c d e f g h a 0x142929670a0e6e70 w15 in
  ((a, b, c, d, e, f, g, h), (w0, w1, w2, w3, w4, w5, w6, w7, w8, w9, w10, w11, w12, w13, w14, w15)).

Definition rounds2 (v : regs) (win : words16) : regs * words16 :=
  let '(a, b, c, d, e, f, g, h) := v in
  let '(w0, w1, w2, w3, w4, w5, w6, w7, w8, w9, w10, w11, w12, w13, w14, w15) := win in
  let w0 := w0 [+] (sigma1 w14 [+] w9 [+] sigma0 w1) in
  let '(d, h) := Round a b c d e f g h 0x27b70a8546d22ffc w0 in
  let w1 := w1 [+] (sigma1 w15 [+] w10 [+] sigma0 w2) in
  let '(c, g) := Round h a b c d e f g 0x2e1b21385c26c926 w1 in
  let w2 := w2 [+] (sigma1 w0 [+] w11 [+] sigma0 w3) in
  let '(b, f) := Round g h a b c d e f 0x4d2c6dfc5ac42aed w2 in
  let w3 := w3 [+] (sigma1 w1 [+] w12 [+] sigma0 w4) in
  let '(a, e) := Round f g h a b c d e 0x53380d139d95b3df w3 in
  let w4 := w4 [+] (sigma1 w2 [+] w13 [+] sigma0 w5) in
  let '(h, d) := Round e f g h a b c d 0x650a73548baf63de w4 in
  let w5 := w5 [+] (sigma1 w3 [+] w14 [+] sigma0 w6) in
  let '(g, c) := Round d e f g h a b c 0x766a0abb3c77b2a8 w5 in
  let w6 := w6 [+] (sigma1 w4 [+] w15 [+] sigma0 w7) in
  let '(f, b) := Round c d e f g h a b 0x81c2c92e47edaee6 w6 in
  let w7 := w7 [+] (sigma1 w5 [+] w0 [+] sigma0 w8) in
  let '(e, a) := Round b c d e f g h a 0x92722c851482353b w7 in
  let w8 := w8 [+] (sigma1 w6 [+] w1 [+] sigma0 w9) in
  let '(d, h) := Round a b c d e f g h 0xa2bfe8a14cf10364 w8 in
  let w9 := w9 [+] (sigma1 w7 [+] w2 [+] sigma0 w10) in
  let '(c, g) := Round h a b c d e f g 0xa81a664bbc423001 w9 in
  let w10 := w10 [+] (sigma1 w8 [+] w3 [+] sigma0 w11) in
  let '(b, f) := Round g h a b c d e f 0xc24b8b70d0f89791 w10 in
  let w11 := w11 [+] (sigma1 w9 [+] w4 [+] sigma0 w12) in
  let '(a, e) := Round f g h a b c d e 0xc76c51a30654be30 w11 in
  let w12 := w12 [+] (sigma1 w10 [+] w5 [+] sigma0 w13) in
  let '(h, d) := Round e f g h a b c d 0xd192e819d6ef5218 w12 in
  let w13 := w13 [+] (sigma1 w11 [+] w6 [+] sigma0 w14) in
  let '(g, c) := Round d e f g h a b c 0xd69906245565a910 w13 in
  let w14 := w14 [+] (sigma1 w12 [+] w7 [+] sigma0 w15) in
  let '(f, b) := Round c d e f g h a b 0xf40e35855771202a w14 in
  let w15 := w15 [+] (sigma1 w13 [+] w8 [+] sigma0 w0) in
  let '(e, a) := Round b c d e f g h a 0x106aa07032bbd1b8 w15 in
  ((a, b, c, d, e, f, g, h), (w0, w1, w2, w3, w4, w5, w6, w7, w8, w9, w10, w11, w12, w13, w14, w15)).

Definition rounds3 (v : regs) (win : words16) : regs * words16 :=
  let '(a, b, c, d, e, f, g, h) := v in
  let '(w0, w1, w2, w3, w4, w5, w6, w7, w8, w9, w10, w11, w12, w13, w14, w15) := win in
  let w0 := w0 [+] (sigma1 w14 [+] w9 [+] sigma0 w1) in
  let '(d, h) := Round a b c d e f g h 0x19a4c116b8d2d0c8 w0 in
  let w1 := w1 [+] (sigma1 w15 [+] w10 [+] sigma0 w2) in
  let '(c, g) := Round h a b c d e f g 0x1e376c085141ab53 w1 in
  let w2 := w2 [+] (sigma1 w0 [+] w11 [+] sigma0 w3) in
  let '(b, f) := Round g h a b c d e f 0x2748774cdf8eeb99 w2 in
  let w3 := w3 [+] (sigma1 w1 [+] w12 [+] sigma0 w4) in
  let '(a, e) := Round f g h a b c d e 0x34b0bcb5e19b48a8 w3 in
  let w4 := w4 [+] (sigma1 w2 [+] w13 [+] sigma0 w5) in
  let '(h, d) := Round e f g h a b c d 0x391c0cb3c5c95a63 w4 in
  let w5 := w5 [+] (sigma1 w3 [+] w14 [+] sigma0 w6) in
  let '(g, c) := Round d e f g h a b c 0x4ed8aa4ae3418acb w5 in
  let w6 := w6 [+] (sigma1 w4 [+] w15 [+] sigma0 w7) in
  let '(f, b) := Round c d e f g h a b 0x5b9cca4f7763e373 w6 in
  let w7 := w7 [+] (sigma1 w5 [+] w0 [+] sigma0 w8) in
  let '(e, a) := Round b c d e f g h a 0x682e6ff3d6b2b8a3 w7 in
  let w8 := w8 [+] (sigma1 w6 [+] w1 [+] sigma0 w9) in
  let '(d, h) := Round a b c d e f g h 0x748f82ee5defb2fc w8 in
  let w9 := w9 [+] (sigma1 w7 [+] w2 [+] sigma0 w10) in
  let '(c, g) := Round h a b c d e f g 0x78a5636f43172f60 w9 in
  let w10 := w10 [+] (sigma1 w8 [+] w3 [+] sigma0 w11) in
  let '(b, f) := Round g h a b c d e f 0x84c87814a1f0ab72 w10 in
  let w11 := w11 [+] (sigma1 w9 [+] w4 [+] sigma0 w12) in
  let '(a, e) := Round f g h a b c d e 0x8cc702081a6439ec w11 in
  let w12 := w12 [+] (sigma1 w10 [+] w5 [+] sigma0 w13) in
  let '(h, d) := Round e f g h a b c d 0x90befffa23631e28 w12 in
  let w13 := w13 [+] (sigma1 w11 [+] w6 [+] sigma0 w14) in
  let '(g, c) := Round d e f g h a b c 0xa4506cebde82bde9 w13 in
  let w14 := w14 [+] (sigma1 w12 [+] w7 [+] sigma0 w15) in
  let '(f, b) := Round c d e f g h a b 0xbef9a3f7b2c67915 w14 in
  let w15 := w15 [+] (sigma1 w13 [+] w8 [+] sigma0 w0) in
  let '(e, a) := Round b c d e f g h a 0xc67178f2e372532b w15 in
  ((a, b, c, d, e, f, g, h), (w0, w1, w2, w3, w4, w5, w6, w7, w8, w9, w10, w11, w12, w13, w14, w15)).

Definition rounds4 (v : regs) (win : words16) : regs :=
  let '(a, b, c, d, e, f, g, h) := v in
  let '(w0, w1, w2, w3, w4, w5, w6, w7, w8, w9, w10, w11, w12, w13, w14, w15) := win in
  let w0 := w0 [+] (sigma1 w14 [+] w9 [+] sigma0 w1) in
  let '(d, h) := Round a b c d e f g h 0xca273eceea26619c w0 in
  let w1 := w1 [+] (sigma1 w15 [+] w10 [+] sigma0 w2) in
  let '(c, g) := Round h a b c d e f g 0xd186b8c721c0c207 w1 in
  let w2 := w2 [+] (sigma1 w0 [+] w11 [+] sigma0 w3) in
  let '(b, f) := Round g h a b c d e f 0xeada7dd6cde0eb1e w2 in
  let w3 := w3 [+] (sigma1 w1 [+] w12 [+] sigma0 w4) in
  let '(a, e) := Round f g h a b c d e 0xf57d4f7fee6ed178 w3 in
  let w4 := w4 [+] (sigma1 w2 [+] w13 [+] sigma0 w5) in
  let '(h, d) := Round e f g h a b c d 0x06f067aa72176fba w4 in
  let w5 := w5 [+] (sigma1 w3 [+] w14 [+] sigma0 w6) in
  let '(g, c) := Round d e f g h a b c 0x0a637dc5a2c898a6 w5 in
  let w6 := w6 [+] (sigma1 w4 [+] w15 [+] sigma0 w7) in
  let '(f, b) := Round c d e f g h a b 0x113f9804bef90dae w6 in
  let w7 := w7 [+] (sigma1 w5 [+] w0 [+] sigma0 w8) in
  let '(e, a) := Round b c d e f g h a 0x1b710b35131c471b w7 in
  let w8 := w8 [+] (sigma1 w6 [+] w1 [+] sigma0 w9) in
  let '(d, h) := Round a b c d e f g h 0x28db77f523047d84 w8 in
  let w9 := w9 [+] (sigma1 w7 [+] w2 [+] sigma0 w10) in
  let '(c, g) := Round h a b c d e f g 0x32caab7b40c72493 w9 in
  let w10 := w10 [+] (sigma1 w8 [+] w3 [+] sigma0 w11) in
  let '(b, f) := Round g h a b c d e f 0x3c9ebe0a15c9bebc w10 in
  let w11 := w11 [+] (sigma1 w9 [+] w4 [+] sigma0 w12) in
  let '(a, e) := Round f g h a b c d e 0x431d67c49c100d4c w11 in
  let w12 := w12 [+] (sigma1 w10 [+] w5 [+] sigma0 w13) in
  let '(h, d) := Round e f g h a b c d 0x4cc5d4becb3e42b6 w12 in
  let w13 := w13 [+] (sigma1 w11 [+] w6 [+] sigma0 w14) in
  let '(g, c) := Round d e f g h a b c 0x597f299cfc657e2a w13 in
  let '(f, b) := Round c d e f g h a b 0x5fcb6fab3ad6faec (w14 [+] sigma1 w12 [+] w7 [+] sigma0 w15) in
  let '(e, a) := Round b c d e f g h a 0x6c44198c4a475817 (w15 [+] sigma1 w13 [+] w8 [+] sigma0 w0) in
  (a, b, c, d, e, f, g, h).

Definition Transform (WORDS_BIGENDIAN : bool) (s : regs) (chunk : bytes) : regs :=
  let '(v, win) := rounds0 WORDS_BIGENDIAN chunk s in
  let '(v, win) := rounds1 v win in
  let '(v, win) := rounds2 v win in
  let '(v, win) := rounds3 v win in
  let '(a, b, c, d, e, f, g, h) := rounds4 v win in
  let '(s0, s1, s2, s3, s4, s5, s6, s7) := s in
  (s0 [+] a, s1 [+] b, s2 [+] c, s3 [+] d, s4 [+] e, s5 [+] f, s6 [+] g, s7 [+] h).
End sha512.

(** ** The transformation *)

Definition SHA512_parameters : parameters :=
  {| w := 64; big0 := (28, 34, 39); big1 := (14, 18, 41); small0 := (1, 8, 7); small1 := (19, 61, 6) |}.

Section transform.
Import sha512.

Lemma sha512_step_Round a b c d e f g h k x :
  step SHA512_parameters (a, b, c, d, e, f, g, h) (k, x) =
  let '(d', h') := Round a b c d e f g h k x in (h', a, b, c, d', e, f, g).
Proof. unfold step, Round, Ch, Maj. by rewrite Ch_eq, Maj_eq. Qed.

Lemma sha512_add_assoc x a b c : x [+] a [+] b [+] c = x [+] (a [+] b [+] c).
Proof. sum_mod. Qed.

(** The new word of the window, in the order of the code. *)
Lemma sha512_window k ks x0 x1 x2 x3 x4 x5 x6 x7 x8 x9 x10 x11 x12 x13 x14 x15 v :
  windowed (next SHA512_parameters) (step SHA512_parameters) (k :: ks) [x0; x1; x2; x3; x4; x5; x6; x7; x8; x9; x10; x11; x12; x13; x14; x15] v =
  windowed (next SHA512_parameters) (step SHA512_parameters) ks [x1; x2; x3; x4; x5; x6; x7; x8; x9; x10; x11; x12; x13; x14; x15; x0 [+] (sigma1 x14 [+] x9 [+] sigma0 x1)]
    (step SHA512_parameters v (k, x0 [+] (sigma1 x14 [+] x9 [+] sigma0 x1))).
Proof.
  assert (x0 [+] (sigma1 x14 [+] x9 [+] sigma0 x1) = sigma1 x14 [+] x9 [+] sigma0 x1 [+] x0) as -> by sum_mod. reflexivity.
Qed.

Lemma sha512_read_word be chunk t : length chunk = 128%nat -> byte_list chunk -> (t < 16)%nat ->
  word SHA512_parameters t chunk = ReadBE64 be (drop (t * 8) chunk).
Proof.
  intros Hl Hb Ht. destruct (read_be be (drop (t * 8) chunk)) as [_ E]; [by apply Forall_drop|]. rewrite E by (rewrite length_drop; lia). done.
Qed.

(** A group of rounds against the rounds of the reference. *)
Lemma sha512_rounds0_spec be chunk v : length chunk = 128%nat -> byte_list chunk ->
  rounds0 be chunk v = (foldl (step SHA512_parameters) v (zip (take 16 (K SHA512_parameters 80)) (words SHA512_parameters chunk)), words_of (words SHA512_parameters chunk)).
Proof.
  intros Hl Hb. destruct v as [[[[[[[a b] c] d] e] f] g] h]. unfold words. cbn [map seq]. rewrite !(sha512_read_word be) by (done || lia). cbn [Nat.mul Nat.add].
  let K' := eval vm_compute in (take 16 (K SHA512_parameters 80)) in replace (take 16 (K SHA512_parameters 80)) with K' by (vm_compute; reflexivity).
  cbn [zip zip_with words_of list_lookup_total]. cbv delta [rounds0]. cbv beta iota.
  repeat match goal with |- context [ReadBE64 be (drop ?n chunk)] => generalize (ReadBE64 be (drop n chunk)); intros ? end.
  do 16 first_round ltac:(rewrite sha512_step_Round). reflexivity.
Qed.

Lemma sha512_rounds1_spec v win :
  windowed (next SHA512_parameters) (step SHA512_parameters) (drop 16 (K SHA512_parameters 80)) (list_of win) v = finish (next SHA512_parameters) (step SHA512_parameters) (drop 32 (K SHA512_parameters 80)) (rounds1 v win).
Proof.
  set (ks := drop 32 _).
  assert (drop 16 (K SHA512_parameters 80) = take 16 (drop 16 (K SHA512_parameters 80)) ++ ks) as -> by (unfold ks; by rewrite <- (take_drop 16 (drop 16 _)), drop_drop at 1).
  generalize ks. clear ks. intros ks.
  let K' := eval vm_compute in (take 16 (drop 16 (K SHA512_parameters 80))) in replace (take 16 (drop 16 (K SHA512_parameters 80))) with K' by (vm_compute; reflexivity).
  destruct v as [[[[[[[a b] c] d] e] f] g] h], win as [[[[[[[[[[[[[[[w0 w1] w2] w3] w4] w5] w6] w7] w8] w9] w10] w11] w12] w13] w14] w15].
  cbn [list_of app]. cbv delta [rounds1]. cbv beta iota. do 16 group_round sha512_window ltac:(rewrite sha512_step_Round) ltac:(rewrite sha512_add_assoc). reflexivity.
Qed.

Lemma sha512_rounds2_spec v win :
  windowed (next SHA512_parameters) (step SHA512_parameters) (drop 32 (K SHA512_parameters 80)) (list_of win) v = finish (next SHA512_parameters) (step SHA512_parameters) (drop 48 (K SHA512_parameters 80)) (rounds2 v win).
Proof.
  set (ks := drop 48 _).
  assert (drop 32 (K SHA512_parameters 80) = take 16 (drop 32 (K SHA512_parameters 80)) ++ ks) as -> by (unfold ks; by rewrite <- (take_drop 16 (drop 32 _)), drop_drop at 1).
  generalize ks. clear ks. intros ks.
  let K' := eval vm_compute in (take 16 (drop 32 (K SHA512_parameters 80))) in replace (take 16 (drop 32 (K SHA512_parameters 80))) with K' by (vm_compute; reflexivity).
  destruct v as [[[[[[[a b] c] d] e] f] g] h], win as [[[[[[[[[[[[[[[w0 w1] w2] w3] w4] w5] w6] w7] w8] w9] w10] w11] w12] w13] w14] w15].
  cbn [list_of app]. cbv delta [rounds2]. cbv beta iota. do 16 group_round sha512_window ltac:(rewrite sha512_step_Round) ltac:(rewrite sha512_add_assoc). reflexivity.
Qed.

Lemma sha512_rounds3_spec v win :
  windowed (next SHA512_parameters) (step SHA512_parameters) (drop 48 (K SHA512_parameters 80)) (list_of win) v = finish (next SHA512_parameters) (step SHA512_parameters) (drop 64 (K SHA512_parameters 80)) (rounds3 v win).
Proof.
  set (ks := drop 64 _).
  assert (drop 48 (K SHA512_parameters 80) = take 16 (drop 48 (K SHA512_parameters 80)) ++ ks) as -> by (unfold ks; by rewrite <- (take_drop 16 (drop 48 _)), drop_drop at 1).
  generalize ks. clear ks. intros ks.
  let K' := eval vm_compute in (take 16 (drop 48 (K SHA512_parameters 80))) in replace (take 16 (drop 48 (K SHA512_parameters 80))) with K' by (vm_compute; reflexivity).
  destruct v as [[[[[[[a b] c] d] e] f] g] h], win as [[[[[[[[[[[[[[[w0 w1] w2] w3] w4] w5] w6] w7] w8] w9] w10] w11] w12] w13] w14] w15].
  cbn [list_of app]. cbv delta [rounds3]. cbv beta iota. do 16 group_round sha512_window ltac:(rewrite sha512_step_Round) ltac:(rewrite sha512_add_assoc). reflexivity.
Qed.

Lemma sha512_rounds4_spec v win :
  windowed (next SHA512_parameters) (step SHA512_parameters) (drop 64 (K SHA512_parameters 80)) (list_of win) v = rounds4 v win.
Proof.
  let K' := eval vm_compute in (drop 64 (K SHA512_parameters 80)) in replace (drop 64 (K SHA512_parameters 80)) with K' by (vm_compute; reflexivity).
  destruct v as [[[[[[[a b] c] d] e] f] g] h], win as [[[[[[[[[[[[[[[w0 w1] w2] w3] w4] w5] w6] w7] w8] w9] w10] w11] w12] w13] w14] w15].
  cbn [list_of app]. cbv delta [rounds4]. cbv beta iota. do 16 group_round sha512_window ltac:(rewrite sha512_step_Round) ltac:(rewrite sha512_add_assoc). reflexivity.
Qed.

Lemma sha512_Transform_compress be s chunk : length chunk = 128%nat -> byte_list chunk ->
  Transform be s chunk = compress SHA512_parameters 80 s chunk.
Proof.
  intros Hl Hb. unfold Transform, compress. rewrite sha512_rounds0_spec by done.
  assert (length (K SHA512_parameters 80) = 80%nat) as HK by (vm_compute; reflexivity).
  replace (80 - 16)%nat with (length (K SHA512_parameters 80) - 16)%nat by (by rewrite HK). rewrite windowed_schedule; [|apply next_window|reflexivity|rewrite HK; lia].
  pose proof (list_words_of (words SHA512_parameters chunk) eq_refl) as EW. generalize (foldl (step SHA512_parameters) s (zip (take 16 (K SHA512_parameters 80)) (words SHA512_parameters chunk))).
  intros v0. generalize dependent (words_of (words SHA512_parameters chunk)). intros win0 <-. rewrite sha512_rounds1_spec.
  destruct (rounds1 _ _) as [v1 win1]. unfold finish at 1. cbn [fst snd]. rewrite sha512_rounds2_spec.
  destruct (rounds2 _ _) as [v2 win2]. unfold finish at 1. cbn [fst snd]. rewrite sha512_rounds3_spec.
  destruct (rounds3 _ _) as [v3 win3]. unfold finish at 1. cbn [fst snd]. rewrite sha512_rounds4_spec.
  destruct (rounds4 _ _) as [[[[[[[a b] c] d] e] f] g] h], s as [[[[[[[a' b'] c'] d'] e'] f'] g'] h'].
  unfold add. cbn [w SHA512_parameters]. repeat apply (f_equal2 pair); apply (f_equal u64), Z.add_comm.
Qed.
End transform.

(** ** The class *)

Module CSHA512.
Definition OUTPUT_SIZE : Z := 64.

Section class.
Context (WORDS_BIGENDIAN : bool).

(** [mem] is the buffer before it is set. *)
Definition make (mem : bytes) : hasher regs := mk_hasher sha512.Initialize mem 0.

Definition Write : bytes -> hasher regs -> res (hasher regs) := HashStream.Write 128 (sha512.Transform WORDS_BIGENDIAN).

Definition encode (s : regs) : bytes :=
  mjoin (map (fun x => WriteBE64 WORDS_BIGENDIAN (replicate 8 0) x) (regs_list s)).

(** [sizedesc]: eight zeros, then the size in eight bytes. *)
Definition sizedesc (bits : Z) : bytes := replicate 8 0 ++ WriteBE64 WORDS_BIGENDIAN (replicate 8 0) bits.

Definition Finalize : hasher regs -> res (bytes * hasher regs) :=
  HashStream.Finalize 128 (sha512.Transform WORDS_BIGENDIAN) 239 sizedesc encode.

Definition Reset (h : hasher regs) : hasher regs := mk_hasher sha512.Initialize (buf h) 0.
End class.
End CSHA512.

(** FIPS 180-4: the hash of a message. *)
Definition SHA512_spec (m : bytes) : bytes :=
  digest 128 (compress SHA512_parameters 80) sha512.Initialize 16 (fun n => rev (le_bytes 16 n))
    (fun s => mjoin (map (fun x => rev (le_bytes 8 x)) (regs_list s))) m.

Lemma sha512_Initialize_H0 : regs_list sha512.Initialize = H0 SHA512_parameters.
Proof. vm_compute. reflexivity. Qed.

Example SHA512_abc :
  (let? h := CSHA512.Write false [97; 98; 99] (CSHA512.make (replicate 128 7)) in let? (d, _) := CSHA512.Finalize false h in Ok d) =
  Ok [0xdd; 0xaf; 0x35; 0xa1; 0x93; 0x61; 0x7a; 0xba; 0xcc; 0x41; 0x73; 0x49; 0xae; 0x20; 0x41; 0x31;
      0x12; 0xe6; 0xfa; 0x4e; 0x89; 0xa9; 0x7e; 0xa2; 0x0a; 0x9e; 0xee; 0xe6; 0x4b; 0x55; 0xd3; 0x9a;
      0x21; 0x92; 0x99; 0x2a; 0x27; 0x4f; 0xc1; 0xa8; 0x36; 0xba; 0x3c; 0x23; 0xa3; 0xfe; 0xeb; 0xbd;
      0x45; 0x4d; 0x44; 0x23; 0x64; 0x3c; 0xe8; 0x0e; 0x2a; 0x9a; 0xc9; 0x4f; 0xa5; 0x4c; 0xa4; 0x9f].
Proof. vm_compute. reflexivity. Qed.

(** ** The class computes the hash *)

Lemma le_bytes_add a b x : le_bytes (a + b) x = le_bytes a x ++ le_bytes b (x / 256 ^ Z.of_nat a).
Proof.
  revert x. induction a as [|a IH]; intros x; [by rewrite Z.pow_0_r, Z.div_1_r|].
  cbn [Nat.add le_bytes app]. rewrite IH. do 3 f_equal. rewrite Z.div_div by lia. f_equal. rewrite Nat2Z.inj_succ, Z.pow_succ_r by lia. done.
Qed.

(** Bytes 0 to 7 of the size in sixteen bytes. *)
Lemma size_zeros n : in_u 64 n -> rev (le_bytes 16 n) = replicate 8 0 ++ rev (le_bytes 8 n).
Proof.
  intros Hn. rewrite (le_bytes_add 8 8), rev_app_distr. rewrite Z.div_small by exact Hn. done.
Qed.

Lemma sha512_encode_spec be s : Forall (in_u 64) (regs_list s) ->
  CSHA512.encode be s = mjoin (map (fun x => rev (le_bytes 8 x)) (regs_list s)).
Proof.
  intros H. unfold CSHA512.encode. f_equal. apply map_ext_Forall. eapply Forall_impl; [exact H|]. intros x Hx. cbv beta.
  rewrite (proj2 (write_be be (replicate 8 0) x) Hx). by rewrite drop_ge, app_nil_r.
Qed.

Lemma SHA512_spec_size m : byte_list (SHA512_spec m) /\ length (SHA512_spec m) = 64%nat.
Proof.
  unfold SHA512_spec, digest. destruct (be_bytes_list 8 (regs_list (foldl (compress SHA512_parameters 80) sha512.Initialize
    (blocks 128 (length (padded 128 16 (fun n => rev (le_bytes 16 n)) m) / 128) (padded 128 16 (fun n => rev (le_bytes 16 n)) m))))) as [Hb Hl].
  split; [exact Hb|]. rewrite Hl. by destruct (foldl _ _ _) as [[[[[[[a b] c] d] e] f] g] h].
Qed.

(** Whatever parts a message is written in, and whatever the buffer held, the object ends with its hash. *)
Lemma CSHA512_correct be h parts : length (buf h) = 128%nat -> Forall byte_list parts ->
  Forall (fun d => zlen d < 2 ^ 63) parts -> zlen (mjoin parts) < 2 ^ 61 ->
  exists h', (let? h := write_all 128 (sha512.Transform be) parts (CSHA512.Reset h) in CSHA512.Finalize be h) = Ok (SHA512_spec (mjoin parts), h') /\ length (buf h') = 128%nat.
Proof.
  intros Hbuf Hp Hs Hl. assert (Z.of_nat 128 | 2 ^ 64) as Hdvd by (exists (2 ^ 57); reflexivity).
  assert (byte_list (mjoin parts)) as Hb by (clear -Hp; induction Hp; [constructor|by apply Forall_app]).
  assert (forall n, in_u 64 n -> CSHA512.sizedesc be n = rev (le_bytes 16 n)) as Hd.
  { intros n Hn. unfold CSHA512.sizedesc. rewrite (proj2 (write_be be (replicate 8 0) n) Hn).
    rewrite drop_ge, app_nil_r by done. by rewrite size_zeros. }
  assert (forall n, length (rev (le_bytes 16 n)) = 16%nat) as Hn by (intros; by rewrite length_rev, length_le_bytes).
  destruct (hasher_correct 128 (sha512.Transform be) sha512.Initialize ltac:(lia) Hdvd 16
      (CSHA512.sizedesc be) (fun n => rev (le_bytes 16 n)) (CSHA512.encode be) ltac:(lia) Hd Hn (buf h) parts Hbuf Hs Hl ltac:(done)) as (h' & E & Hb').
  exists h'. split; [|exact Hb']. refine (eq_trans E _). do 2 f_equal.
  rewrite (digest_ext 128 (sha512.Transform be) (compress SHA512_parameters 80)); [|lia|exact Hb| |].
  - apply sha512_encode_spec, (absorb_range SHA512_parameters); [done|]. repeat constructor; done.
  - intros n. apply byte_list_rev, le_bytes_bytes.
  - intros. by apply sha512_Transform_compress.
Qed.
