(* ===== verification/Sha1.v ===== *)
(** [CSHA1] of src/sige/crypto/sha1.h and sha1.cpp, and that it is SHA-1 (FIPS 180-4). *)

From S2P Require Import Prelude Bytes Prevector HashStream Schedule Sha2.

#[local] Notation "x [+] y" := (u32 (x + y)) (at level 50, left associativity) : sige_scope.

Definition regs5 : Type := Z * Z * Z * Z * Z.
Definition regs5_list (v : regs5) : list Z := let '(a, b, c, d, e) := v in [a; b; c; d; e].

Module sha1.
(** The registers [b] and [e] after a round. *)
Definition Round (a b c d e f k w : Z) : Z * Z :=
  let e := e [+] (Z.lor (u32 (Z.shiftl a 5)) (Z.shiftr a 27) [+] f [+] k [+] w) in
  (Z.lor (u32 (Z.shiftl b 30)) (Z.shiftr b 2), e).

Definition f1 (b c d : Z) : Z := Z.lxor d (Z.land b (Z.lxor c d)).
Definition f2 (b c d : Z) : Z := Z.lxor (Z.lxor b c) d.
Definition f3 (b c d : Z) : Z := Z.lor (Z.land b c) (Z.land d (Z.lor b c)).

Definition left (x : Z) : Z := Z.lor (u32 (Z.shiftl x 1)) (Z.shiftr x 31).

Definition Initialize : regs5 := (0x67452301, 0xEFCDAB89, 0x98BADCFE, 0x10325476, 0xC3D2E1F0).

Definition k1 : Z := 0x5A827999.
Definition k2 : Z := 0x6ED9EBA1.
Definition k3 : Z := 0x8F1BBCDC.
Definition k4 : Z := 0xCA62C1D6.

(** The rounds, in the groups of sixteen of the code: the registers and the words after each. *)
Definition rounds0 (WORDS_BIGENDIAN : bool) (chunk : bytes) (v : regs5) : regs5 * words16 :=
  let '(a, b, c, d, e) := v in
  let w0 := ReadBE32 WORDS_BIGENDIAN (drop 0 chunk) in
  let '(b, e) := Round a b c d e (f1 b c d) k1 w0 in
  let w1 := ReadBE32 WORDS_BIGENDIAN (drop 4 chunk) in
  let '(a, d) := Round e a b c d (f1 a b c) k1 w1 in
  let w2 := ReadBE32 WORDS_BIGENDIAN (drop 8 chunk) in
  let '(e, c) := Round d e a b c (f1 e a b) k1 w2 in
  let w3 := ReadBE32 WORDS_BIGENDIAN (drop 12 chunk) in
  let '(d, b) := Round c d e a b (f1 d e a) k1 w3 in
  let w4 := ReadBE32 WORDS_BIGENDIAN (drop 16 chunk) in
  let '(c, a) := Round b c d e a (f1 c d e) k1 w4 in
  let w5 := ReadBE32 WORDS_BIGENDIAN (drop 20 chunk) in
  let '(b, e) := Round a b c d e (f1 b c d) k1 w5 in
  let w6 := ReadBE32 WORDS_BIGENDIAN (drop 24 chunk) in
  let '(a, d) := Round e a b c d (f1 a b c) k1 w6 in
  let w7 := ReadBE32 WORDS_BIGENDIAN (drop 28 chunk) in
  let '(e, c) := Round d e a b c (f1 e a b) k1 w7 in
  let w8 := ReadBE32 WORDS_BIGENDIAN (drop 32 chunk) in
  let '(d, b) := Round c d e a b (f1 d e a) k1 w8 in
  let w9 := ReadBE32 WORDS_BIGENDIAN (drop 36 chunk) in
  let '(c, a) := Round b c d e a (f1 c d e) k1 w9 in
  let w10 := ReadBE32 WORDS_BIGENDIAN (drop 40 chunk) in
  let '(b, e) := Round a b c d e (f1 b c d) k1 w10 in
  let w11 := ReadBE32 WORDS_BIGENDIAN (drop 44 chunk) in
  let '(a, d) := Round e a b c d (f1 a b c) k1 w11 in
  let w12 := ReadBE32 WORDS_BIGENDIAN (drop 48 chunk) in
  let '(e, c) := Round d e a b c (f1 e a b) k1 w12 in
  let w13 := ReadBE32 WORDS_BIGENDIAN (drop 52 chunk) in
  let '(d, b) := Round c d e a b (f1 d e a) k1 w13 in
  let w14 := ReadBE32 WORDS_BIGENDIAN (drop 56 chunk) in
  let '(c, a) := Round b c d e a (f1 c d e) k1 w14 in
  let w15 := ReadBE32 WORDS_BIGENDIAN (drop 60 chunk) in
  let '(b, e) := Round a b c d e (f1 b c d) k1 w15 in
  ((a, b, c, d, e), (w0, w1, w2, w3, w4, w5, w6, w7, w8, w9, w10, w11, w12, w13, w14, w15)).

Definition rounds1 (v : regs5) (win : words16) : regs5 * words16 :=
  let '(a, b, c, d, e) := v in
  let '(w0, w1, w2, w3, w4, w5, w6, w7, w8, w9, w10, w11, w12, w13, w14, w15) := win in
  let w0 := left (Z.lxor (Z.lxor (Z.lxor w0 w13) w8) w2) in
  let '(a, d) := Round e a b c d (f1 a b c) k1 w0 in
  let w1 := left (Z.lxor (Z.lxor (Z.lxor w1 w14) w9) w3) in
  let '(e, c) := Round d e a b c (f1 e a b) k1 w1 in
  let w2 := left (Z.lxor (Z.lxor (Z.lxor w2 w15) w10) w4) in
  let '(d, b) := Round c d e a b (f1 d e a) k1 w2 in
  let w3 := left (Z.lxor (Z.lxor (Z.lxor w3 w0) w11) w5) in
  let '(c, a) := Round b c d e a (f1 c d e) k1 w3 in
  let w4 := left (Z.lxor (Z.lxor (Z.lxor w4 w1) w12) w6) in
  let '(b, e) := Round a b c d e (f2 b c d) k2 w4 in
  let w5 := left (Z.lxor (Z.lxor (Z.lxor w5 w2) w13) w7) in
  let '(a, d) := Round e a b c d (f2 a b c) k2 w5 in
  let w6 := left (Z.lxor (Z.lxor (Z.lxor w6 w3) w14) w8) in
  let '(e, c) := Round d e a b c (f2 e a b) k2 w6 in
  let w7 := left (Z.lxor (Z.lxor (Z.lxor w7 w4) w15) w9) in
  let '(d, b) := Round c d e a b (f2 d e a) k2 w7 in
  let w8 := left (Z.lxor (Z.lxor (Z.lxor w8 w5) w0) w10) in
  let '(c, a) := Round b c d e a (f2 c d e) k2 w8 in
  let w9 := left (Z.lxor (Z.lxor (Z.lxor w9 w6) w1) w11) in
  let '(b, e) := Round a b c d e (f2 b c d) k2 w9 in
  let w10 := left (Z.lxor (Z.lxor (Z.lxor w10 w7) w2) w12) in
  let '(a, d) := Round e a b c d (f2 a b c) k2 w10 in
  let w11 := left (Z.lxor (Z.lxor (Z.lxor w11 w8) w3) w13) in
  let '(e, c) := Round d e a b c (f2 e a b) k2 w11 in
  let w12 := left (Z.lxor (Z.lxor (Z.lxor w12 w9) w4) w14) in
  let '(d, b) := Round c d e a b (f2 d e a) k2 w12 in
  let w13 := left (Z.lxor (Z.lxor (Z.lxor w13 w10) w5) w15) in
  let '(c, a) := Round b c d e a (f2 c d e) k2 w13 in
  let w14 := left (Z.lxor (Z.lxor (Z.lxor w14 w11) w6) w0) in
  let '(b, e) := Round a b c d e (f2 b c d) k2 w14 in
  let w15 := left (Z.lxor (Z.lxor (Z.lxor w15 w12) w7) w1) in
  let '(a, d) := Round e a b c d (f2 a b c) k2 w15 in
  ((a, b, c, d, e), (w0, w1, w2, w3, w4, w5, w6, w7, w8, w9, w10, w11, w12, w13, w14, w15)).

Definition rounds2 (v : regs5) (win : words16) : regs5 * words16 :=
  let '(a, b, c, d, e) := v in
  let '(w0, w1, w2, w3, w4, w5, w6, w7, w8, w9, w10, w11, w12, w13, w14, w15) := win in
  let w0 := left (Z.lxor (Z.lxor (Z.lxor w0 w13) w8) w2) in
  let '(e, c) := Round d e a b c (f2 e a b) k2 w0 in
  let w1 := left (Z.lxor (Z.lxor (Z.lxor w1 w14) w9) w3) in
  let '(d, b) := Round c d e a b (f2 d e a) k2 w1 in
  let w2 := left (Z.lxor (Z.lxor (Z.lxor w2 w15) w10) w4) in
  let '(c, a) := Round b c d e a (f2 c d e) k2 w2 in
  let w3 := left (Z.lxor (Z.lxor (Z.lxor w3 w0) w11) w5) in
  let '(b, e) := Round a b c d e (f2 b c d) k2 w3 in
  let w4 := left (Z.lxor (Z.lxor (Z.lxor w4 w1) w12) w6) in
  let '(a, d) := Round e a b c d (f2 a b c) k2 w4 in
  let w5 := left (Z.lxor (Z.lxor (Z.lxor w5 w2) w13) w7) in
  let '(e, c) := Round d e a b c (f2 e a b) k2 w5 in
  let w6 := left (Z.lxor (Z.lxor (Z.lxor w6 w3) w14) w8) in
  let '(d, b) := Round c d e a b (f2 d e a) k2 w6 in
  let w7 := left (Z.lxor (Z.lxor (Z.lxor w7 w4) w15) w9) in
  let '(c, a) := Round b c d e a (f2 c d e) k2 w7 in
  let w8 := left (Z.lxor (Z.lxor (Z.lxor w8 w5) w0) w10) in
  let '(b, e) := Round a b c d e (f3 b c d) k3 w8 in
  let w9 := left (Z.lxor (Z.lxor (Z.lxor w9 w6) w1) w11) in
  let '(a, d) := Round e a b c d (f3 a b c) k3 w9 in
  let w10 := left (Z.lxor (Z.lxor (Z.lxor w10 w7) w2) w12) in
  let '(e, c) := Round d e a b c (f3 e a b) k3 w10 in
  let w11 := left (Z.lxor (Z.lxor (Z.lxor w11 w8) w3) w13) in
  let '(d, b) := Round c d e a b (f3 d e a) k3 w11 in
  let w12 := left (Z.lxor (Z.lxor (Z.lxor w12 w9) w4) w14) in
  let '(c, a) := Round b c d e a (f3 c d e) k3 w12 in
  let w13 := left (Z.lxor (Z.lxor (Z.lxor w13 w10) w5) w15) in
  let '(b, e) := Round a b c d e (f3 b c d) k3 w13 in
  let w14 := left (Z.lxor (Z.lxor (Z.lxor w14 w11) w6) w0) in
  let '(a, d) := Round e a b c d (f3 a b c) k3 w14 in
  let w15 := left (Z.lxor (Z.lxor (Z.lxor w15 w12) w7) w1) in
  let '(e, c) := Round d e a b c (f3 e a b) k3 w15 in
  ((a, b, c, d, e), (w0, w1, w2, w3, w4, w5, w6, w7, w8, w9, w10, w11, w12, w13, w14, w15)).

Definition rounds3 (v : regs5) (win : words16) : regs5 * words16 :=
  let '(a, b, c, d, e) := v in
  let '(w0, w1, w2, w3, w4, w5, w6, w7, w8, w9, w10, w11, w12, w13, w14, w15) := win in
  let w0 := left (Z.lxor (Z.lxor (Z.lxor w0 w13) w8) w2) in
  let '(d, b) := Round c d e a b (f3 d e a) k3 w0 in
  let w1 := left (Z.lxor (Z.lxor (Z.lxor w1 w14) w9) w3) in
  let '(c, a) := Round b c d e a (f3 c d e) k3 w1 in
  let w2 := left (Z.lxor (Z.lxor (Z.lxor w2 w15) w10) w4) in
  let '(b, e) := Round a b c d e (f3 b c d) k3 w2 in
  let w3 := left (Z.lxor (Z.lxor (Z.lxor w3 w0) w11) w5) in
  let '(a, d) := Round e a b c d (f3 a b c) k3 w3 in
  let w4 := left (Z.lxor (Z.lxor (Z.lxor w4 w1) w12) w6) in
  let '(e, c) := Round d e a b c (f3 e a b) k3 w4 in
  let w5 := left (Z.lxor (Z.lxor (Z.lxor w5 w2) w13) w7) in
  let '(d, b) := Round c d e a b (f3 d e a) k3 w5 in
  let w6 := left (Z.lxor (Z.lxor (Z.lxor w6 w3) w14) w8) in
  let '(c, a) := Round b c d e a (f3 c d e) k3 w6 in
  let w7 := left (Z.lxor (Z.lxor (Z.lxor w7 w4) w15) w9) in
  let '(b, e) := Round a b c d e (f3 b c d) k3 w7 in
  let w8 := left (Z.lxor (Z.lxor (Z.lxor w8 w5) w0) w10) in
  let '(a, d) := Round e a b c d (f3 a b c) k3 w8 in
  let w9 := left (Z.lxor (Z.lxor (Z.lxor w9 w6) w1) w11) in
  let '(e, c) := Round d e a b c (f3 e a b) k3 w9 in
  let w10 := left (Z.lxor (Z.lxor (Z.lxor w10 w7) w2) w12) in
  let '(d, b) := Round c d e a b (f3 d e a) k3 w10 in
  let w11 := left (Z.lxor (Z.lxor (Z.lxor w11 w8) w3) w13) in
  let '(c, a) := Round b c d e a (f3 c d e) k3 w11 in
  let w12 := left (Z.lxor (Z.lxor (Z.lxor w12 w9) w4) w14) in
  let '(b, e) := Round a b c d e (f2 b c d) k4 w12 in
  let w13 := left (Z.lxor (Z.lxor (Z.lxor w13 w10) w5) w15) in
  let '(a, d) := Round e a b c d (f2 a b c) k4 w13 in
  let w14 := left (Z.lxor (Z.lxor (Z.lxor w14 w11) w6) w0) in
  let '(e, c) := Round d e a b c (f2 e a b) k4 w14 in
  let w15 := left (Z.lxor (Z.lxor (Z.lxor w15 w12) w7) w1) in
  let '(d, b) := Round c d e a b (f2 d e a) k4 w15 in
  ((a, b, c, d, e), (w0, w1, w2, w3, w4, w5, w6, w7, w8, w9, w10, w11, w12, w13, w14, w15)).

Definition rounds4 (v : regs5) (win : words16) : regs5 :=
  let '(a, b, c, d, e) := v in
  let '(w0, w1, w2, w3, w4, w5, w6, w7, w8, w9, w10, w11, w12, w13, w14, w15) := win in
  let w0 := left (Z.lxor (Z.lxor (Z.lxor w0 w13) w8) w2) in
  let '(c, a) := Round b c d e a (f2 c d e) k4 w0 in
  let w1 := left (Z.lxor (Z.lxor (Z.lxor w1 w14) w9) w3) in
  let '(b, e) := Round a b c d e (f2 b c d) k4 w1 in
  let w2 := left (Z.lxor (Z.lxor (Z.lxor w2 w15) w10) w4) in
  let '(a, d) := Round e a b c d (f2 a b c) k4 w2 in
  let w3 := left (Z.lxor (Z.lxor (Z.lxor w3 w0) w11) w5) in
  let '(e, c) := Round d e a b c (f2 e a b) k4 w3 in
  let w4 := left (Z.lxor (Z.lxor (Z.lxor w4 w1) w12) w6) in
  let '(d, b) := Round c d e a b (f2 d e a) k4 w4 in
  let w5 := left (Z.lxor (Z.lxor (Z.lxor w5 w2) w13) w7) in
  let '(c, a) := Round b c d e a (f2 c d e) k4 w5 in
  let w6 := left (Z.lxor (Z.lxor (Z.lxor w6 w3) w14) w8) in
  let '(b, e) := Round a b c d e (f2 b c d) k4 w6 in
  let w7 := left (Z.lxor (Z.lxor (Z.lxor w7 w4) w15) w9) in
  let '(a, d) := Round e a b c d (f2 a b c) k4 w7 in
  let w8 := left (Z.lxor (Z.lxor (Z.lxor w8 w5) w0) w10) in
  let '(e, c) := Round d e a b c (f2 e a b) k4 w8 in
  let w9 := left (Z.lxor (Z.lxor (Z.lxor w9 w6) w1) w11) in
  let '(d, b) := Round c d e a b (f2 d e a) k4 w9 in
  let w10 := left (Z.lxor (Z.lxor (Z.lxor w10 w7) w2) w12) in
  let '(c, a) := Round b c d e a (f2 c d e) k4 w10 in
  let w11 := left (Z.lxor (Z.lxor (Z.lxor w11 w8) w3) w13) in
  let '(b, e) := Round a b c d e (f2 b c d) k4 w11 in
  let w12 := left (Z.lxor (Z.lxor (Z.lxor w12 w9) w4) w14) in
  let '(a, d) := Round e a b c d (f2 a b c) k4 w12 in
  let '(e, c) := Round d e a b c (f2 e a b) k4 (left (Z.lxor (Z.lxor (Z.lxor w13 w10) w5) w15)) in
  let '(d, b) := Round c d e a b (f2 d e a) k4 (left (Z.lxor (Z.lxor (Z.lxor w14 w11) w6) w0)) in
  let '(c, a) := Round b c d e a (f2 c d e) k4 (left (Z.lxor (Z.lxor (Z.lxor w15 w12) w7) w1)) in
  (a, b, c, d, e).

Definition Transform (WORDS_BIGENDIAN : bool) (s : regs5) (chunk : bytes) : regs5 :=
  let '(v, win) := rounds0 WORDS_BIGENDIAN chunk s in
  let '(v, win) := rounds1 v win in
  let '(v, win) := rounds2 v win in
  let '(v, win) := rounds3 v win in
  let '(a, b, c, d, e) := rounds4 v win in
  let '(s0, s1, s2, s3, s4) := s in
  (s0 [+] a, s1 [+] b, s2 [+] c, s3 [+] d, s4 [+] e).
End sha1.

(** ** The reference *)

Module SHA1_reference.
Definition ROTL (n x : Z) : Z := Z.lor (u32 (Z.shiftl x n)) (Z.shiftr x (32 - n)).
Definition Parity (x y z : Z) : Z := Z.lxor (Z.lxor x y) z.

Definition f (t : nat) (x y z : Z) : Z :=
  if (t <? 20)%nat then Ch' x y z else if (t <? 40)%nat then Parity x y z else if (t <? 60)%nat then Maj' x y z else Parity x y z.
(** The roots of 2, 3, 5 and 10. *)
Definition K (t : nat) : Z :=
  Z.sqrt ((if (t <? 20)%nat then 2 else if (t <? 40)%nat then 3 else if (t <? 60)%nat then 5 else 10) * 2 ^ 60).

Definition words (chunk : bytes) : list Z := map (fun t => le_val (rev (take 4 (drop (t * 4) chunk)))) (seq 0 16).

(** The word [t] from the words [t-3], [t-8], [t-14] and [t-16]. *)
Definition next (W : list Z) : Z :=
  let t := length W in
  ROTL 1 (Z.lxor (Z.lxor (Z.lxor (W !!! (t - 3)%nat) (W !!! (t - 8)%nat)) (W !!! (t - 14)%nat)) (W !!! (t - 16)%nat)).

Definition step (v : regs5) (tw : nat * Z) : regs5 :=
  let '(a, b, c, d, e) := v in
  let '(t, W) := tw in
  let T := ROTL 5 a [+] f t b c d [+] e [+] K t [+] W in
  (T, a, ROTL 30 b, c, d).

Definition compress (H : regs5) (chunk : bytes) : regs5 :=
  let '(a, b, c, d, e) := foldl step H (zip (seq 0 80) (schedule next 64 (words chunk))) in
  let '(H0, H1, H2, H3, H4) := H in
  (a [+] H0, b [+] H1, c [+] H2, d [+] H3, e [+] H4).
End SHA1_reference.

(** ** The transformation *)

Section transform.
Import sha1 SHA1_reference.

Definition round_f (t : nat) : Z -> Z -> Z -> Z := if (t <? 20)%nat then f1 else if (t <? 40)%nat then f2 else if (t <? 60)%nat then f3 else f2.
Definition round_k (t : nat) : Z := if (t <? 20)%nat then k1 else if (t <? 40)%nat then k2 else if (t <? 60)%nat then k3 else k4.

Lemma sha1_step_Round a b c d e t x :
  step (a, b, c, d, e) (t, x) =
  let '(b', e') := Round a b c d e (round_f t b c d) (round_k t) x in (e', a, b', c, d).
Proof.
  assert (round_f t b c d = f t b c d) as ->.
  { unfold round_f, f, f1, f3. repeat case_match; try done; [apply Ch_eq|apply Maj_eq]. }
  assert (round_k t = K t) as -> by (unfold round_k, K; repeat case_match; vm_compute; reflexivity).
  unfold step, Round, ROTL. change (32 - 5) with 27. change (32 - 30) with 2. do 4 f_equal.
  generalize (Z.lor (u32 (Z.shiftl a 5)) (Z.shiftr a 27)) (f t b c d) (K t). intros r1 r2 r3. sum_mod.
Qed.

Lemma sha1_next_window a win : length win = 16%nat -> next (a ++ win) = next win.
Proof.
  intros Hl. unfold next. rewrite length_app, Hl.
  assert (forall i, (1 <= i <= 16)%nat -> (a ++ win) !!! (length a + 16 - i)%nat = win !!! (16 - i)%nat) as E.
  { intros i Hi. rewrite (lookup_total_app_r a win) by lia. f_equal. lia. }
  by rewrite !E by lia.
Qed.

(** The new word of the window, in the order of the code. *)
Lemma sha1_window t ks x0 x1 x2 x3 x4 x5 x6 x7 x8 x9 x10 x11 x12 x13 x14 x15 v :
  windowed next step (t :: ks) [x0; x1; x2; x3; x4; x5; x6; x7; x8; x9; x10; x11; x12; x13; x14; x15] v =
  windowed next step ks [x1; x2; x3; x4; x5; x6; x7; x8; x9; x10; x11; x12; x13; x14; x15; left (Z.lxor (Z.lxor (Z.lxor x0 x13) x8) x2)]
    (step v (t, left (Z.lxor (Z.lxor (Z.lxor x0 x13) x8) x2))).
Proof.
  assert (Z.lxor (Z.lxor (Z.lxor x0 x13) x8) x2 = Z.lxor (Z.lxor (Z.lxor x13 x8) x2) x0) as ->; [|reflexivity].
  apply Z.bits_inj'. intros n Hn. rewrite !Z.lxor_spec. by destruct (Z.testbit x0 n), (Z.testbit x13 n), (Z.testbit x8 n), (Z.testbit x2 n).
Qed.

(** The names of the registers turn by one at each round of the code, so by one in a group of sixteen. *)
Fixpoint turn (n : nat) (v : regs5) : regs5 :=
  match n with
  | O => v
  | S n => let '(a, b, c, d, e) := turn n v in (e, a, b, c, d)
  end.

Definition turned (ks : list nat) (n : nat) (r : regs5 * words16) : regs5 := windowed next step ks (list_of (snd r)) (turn n (fst r)).

Ltac round := rewrite sha1_step_Round; cbv beta iota delta [round_f round_k Nat.ltb Nat.leb].

Lemma sha1_read_word be chunk t : length chunk = 64%nat -> byte_list chunk -> (t < 16)%nat ->
  le_val (rev (take 4 (drop (t * 4) chunk))) = ReadBE32 be (drop (t * 4) chunk).
Proof.
  intros Hl Hb Ht. destruct (read_be be (drop (t * 4) chunk)) as [E _]; [by apply Forall_drop|]. rewrite E by (rewrite length_drop; lia). done.
Qed.

(** A group of rounds against the rounds of the reference. *)
Lemma sha1_rounds0_spec be chunk v : length chunk = 64%nat -> byte_list chunk ->
  exists v', rounds0 be chunk v = (v', words_of (words chunk)) /\ turn 1 v' = foldl step v (zip (take 16 (seq 0 80)) (words chunk)).
Proof.
  intros Hl Hb. destruct v as [[[[a b] c] d] e]. unfold words. cbn [map seq]. rewrite !(sha1_read_word be) by (done || lia). cbn [Nat.mul Nat.add take].
  cbn [zip zip_with words_of list_lookup_total]. cbv delta [rounds0]. cbv beta iota.
  repeat match goal with |- context [ReadBE32 be (drop ?n chunk)] => generalize (ReadBE32 be (drop n chunk)); intros ? end.
  do 16 first_round round. eexists. split; reflexivity.
Qed.

Lemma sha1_rounds1_spec v win : windowed next step (seq 16 64) (list_of win) (turn 1 v) = turned (seq 32 48) 2 (rounds1 v win).
Proof.
  change (seq 16 64) with (seq 16 16 ++ seq 32 48). generalize (seq 32 48). intros ks.
  destruct v as [[[[a b] c] d] e], win as [[[[[[[[[[[[[[[w0 w1] w2] w3] w4] w5] w6] w7] w8] w9] w10] w11] w12] w13] w14] w15].
  cbn [list_of app seq turn]. cbv delta [rounds1]. cbv beta iota. do 16 group_round sha1_window round idtac. reflexivity.
Qed.

Lemma sha1_rounds2_spec v win : windowed next step (seq 32 48) (list_of win) (turn 2 v) = turned (seq 48 32) 3 (rounds2 v win).
Proof.
  change (seq 32 48) with (seq 32 16 ++ seq 48 32). generalize (seq 48 32). intros ks.
  destruct v as [[[[a b] c] d] e], win as [[[[[[[[[[[[[[[w0 w1] w2] w3] w4] w5] w6] w7] w8] w9] w10] w11] w12] w13] w14] w15].
  cbn [list_of app seq turn]. cbv delta [rounds2]. cbv beta iota. do 16 group_round sha1_window round idtac. reflexivity.
Qed.

Lemma sha1_rounds3_spec v win : windowed next step (seq 48 32) (list_of win) (turn 3 v) = turned (seq 64 16) 4 (rounds3 v win).
Proof.
  change (seq 48 32) with (seq 48 16 ++ seq 64 16). generalize (seq 64 16). intros ks.
  destruct v as [[[[a b] c] d] e], win as [[[[[[[[[[[[[[[w0 w1] w2] w3] w4] w5] w6] w7] w8] w9] w10] w11] w12] w13] w14] w15].
  cbn [list_of app seq turn]. cbv delta [rounds3]. cbv beta iota. do 16 group_round sha1_window round idtac. reflexivity.
Qed.

Lemma sha1_rounds4_spec v win : windowed next step (seq 64 16) (list_of win) (turn 4 v) = rounds4 v win.
Proof.
  destruct v as [[[[a b] c] d] e], win as [[[[[[[[[[[[[[[w0 w1] w2] w3] w4] w5] w6] w7] w8] w9] w10] w11] w12] w13] w14] w15].
  cbn [list_of app seq turn]. cbv delta [rounds4]. cbv beta iota. do 16 group_round sha1_window round idtac. reflexivity.
Qed.

Lemma sha1_Transform_compress be s chunk : length chunk = 64%nat -> byte_list chunk -> Transform be s chunk = compress s chunk.
Proof.
  intros Hl Hb. unfold Transform, compress. destruct (sha1_rounds0_spec be chunk s Hl Hb) as (v0 & -> & E0).
  change 64%nat with (length (seq 0 80) - 16)%nat. rewrite windowed_schedule; [|apply sha1_next_window|reflexivity|simpl; lia].
  pose proof (list_words_of (words chunk) eq_refl) as EW. rewrite <- E0. clear E0. generalize dependent (words_of (words chunk)). intros win0 <-. change (drop 16 (seq 0 80)) with (seq 16 64). rewrite sha1_rounds1_spec.
  destruct (rounds1 _ _) as [v1 win1]. unfold turned. cbn [fst snd]. rewrite sha1_rounds2_spec.
  destruct (rounds2 _ _) as [v2 win2]. unfold turned. cbn [fst snd]. rewrite sha1_rounds3_spec.
  destruct (rounds3 _ _) as [v3 win3]. unfold turned. cbn [fst snd]. rewrite sha1_rounds4_spec.
  destruct (rounds4 _ _) as [[[[a b] c] d] e], s as [[[[a' b'] c'] d'] e'].
  repeat apply (f_equal2 pair); apply (f_equal u32), Z.add_comm.
Qed.

Lemma sha1_compress_range v chunk : Forall (in_u 32) (regs5_list (compress v chunk)).
Proof.
  unfold compress. destruct (foldl _ _ _) as [[[[a b] c] d] e], v as [[[[a' b'] c'] d'] e']. repeat constructor; by apply wrap_range.
Qed.
End transform.

(** ** The class *)

Module CSHA1.
Definition OUTPUT_SIZE : Z := 20.

Section class.
Context (WORDS_BIGENDIAN : bool).

(** [mem] is the buffer before it is set. *)
Definition make (mem : bytes) : hasher regs5 := mk_hasher sha1.Initialize mem 0.

Definition Write : bytes -> hasher regs5 -> res (hasher regs5) := HashStream.Write 64 (sha1.Transform WORDS_BIGENDIAN).

Definition encode (s : regs5) : bytes := mjoin (map (fun x => WriteBE32 WORDS_BIGENDIAN (replicate 4 0) x) (regs5_list s)).

Definition Finalize : hasher regs5 -> res (bytes * hasher regs5) :=
  HashStream.Finalize 64 (sha1.Transform WORDS_BIGENDIAN) 119 (WriteBE64 WORDS_BIGENDIAN (replicate 8 0)) encode.

Definition Reset (h : hasher regs5) : hasher regs5 := mk_hasher sha1.Initialize (buf h) 0.
End class.
End CSHA1.

(** FIPS 180-4: the hash of a message. *)
Definition SHA1_spec (m : bytes) : bytes :=
  digest 64 SHA1_reference.compress sha1.Initialize 8 (fun n => rev (le_bytes 8 n))
    (fun s => mjoin (map (fun x => rev (le_bytes 4 x)) (regs5_list s))) m.

Example SHA1_abc :
  (let? h := CSHA1.Write false [97; 98; 99] (CSHA1.make (replicate 64 7)) in let? (d, _) := CSHA1.Finalize false h in Ok d) =
  Ok [0xa9; 0x99; 0x3e; 0x36; 0x47; 0x06; 0x81; 0x6a; 0xba; 0x3e; 0x25; 0x71; 0x78; 0x50; 0xc2; 0x6c; 0x9c; 0xd0; 0xd8; 0x9d].
Proof. vm_compute. reflexivity. Qed.

(** ** The class computes the hash *)

Lemma sha1_encode_spec be s : Forall (in_u 32) (regs5_list s) ->
  CSHA1.encode be s = mjoin (map (fun x => rev (le_bytes 4 x)) (regs5_list s)).
Proof.
  intros H. unfold CSHA1.encode. f_equal. apply map_ext_Forall. eapply Forall_impl; [exact H|]. intros x Hx. cbv beta.
  rewrite (proj1 (write_be be (replicate 4 0) x) Hx). by rewrite drop_ge, app_nil_r.
Qed.

Lemma SHA1_spec_size m : byte_list (SHA1_spec m) /\ length (SHA1_spec m) = 20%nat.
Proof.
  unfold SHA1_spec, digest. cbv zeta. destruct (foldl _ _ _) as [[[[a b] c] d] e].
  destruct (be_bytes_list 4 (regs5_list (a, b, c, d, e))) as [Hb Hl]. split; [exact Hb|]. by rewrite Hl.
Qed.

(** Whatever parts a message is written in, and whatever the buffer held, the object ends with its hash. *)
Lemma CSHA1_correct be h parts : length (buf h) = 64%nat -> Forall byte_list parts ->
  Forall (fun d => zlen d < 2 ^ 63) parts -> zlen (mjoin parts) < 2 ^ 61 ->
  exists h', (let? h := write_all 64 (sha1.Transform be) parts (CSHA1.Reset h) in CSHA1.Finalize be h) = Ok (SHA1_spec (mjoin parts), h') /\ length (buf h') = 64%nat.
Proof.
  intros Hbuf Hp Hs Hl. assert (Z.of_nat 64 | 2 ^ 64) as Hdvd by (exists (2 ^ 58); reflexivity).
  assert (byte_list (mjoin parts)) as Hb by (clear -Hp; induction Hp; [constructor|by apply Forall_app]).
  assert (forall n, in_u 64 n -> WriteBE64 be (replicate 8 0) n = rev (le_bytes 8 n)) as Hd.
  { intros n Hn. rewrite (proj2 (write_be be (replicate 8 0) n) Hn). by rewrite drop_ge, app_nil_r. }
  assert (forall n, length (rev (le_bytes 8 n)) = 8%nat) as Hn by (intros; by rewrite ?length_rev, length_le_bytes).
  destruct (hasher_correct 64 (sha1.Transform be) sha1.Initialize ltac:(lia) Hdvd 8
      (WriteBE64 be (replicate 8 0)) (fun n => rev (le_bytes 8 n)) (CSHA1.encode be) ltac:(lia) Hd Hn (buf h) parts Hbuf Hs Hl ltac:(done)) as (h' & E & Hb').
  exists h'. split; [|exact Hb']. refine (eq_trans E _). do 2 f_equal.
  rewrite (digest_ext 64 (sha1.Transform be) SHA1_reference.compress); [|lia|exact Hb| |].
  - apply sha1_encode_spec. set (l := blocks _ _ _). clearbody l. assert (Forall (in_u 32) (regs5_list sha1.Initialize)) as H0 by (repeat constructor; done).
    revert H0. generalize sha1.Initialize. induction l as [|c l IH]; intros v Hv; [done|]. apply IH, sha1_compress_range.
  - intros n. apply byte_list_rev, le_bytes_bytes.
  - intros. by apply sha1_Transform_compress.
Qed.
