(* ===== verification/Ripemd160.v ===== *)
(** [CRIPEMD160] of src/sige/crypto/ripemd160.h and ripemd160.cpp, and that it is
    RIPEMD-160 (Dobbertin, Bosselaers and Preneel, 1996). *)

From S2P Require Import Prelude Bytes Prevector HashStream Schedule Sha2 Sha1.

#[local] Notation "x [+] y" := (u32 (x + y)) (at level 50, left associativity) : sige_scope.

Module ripemd160.
#[local] Notation "~ x" := (u32 (Z.lnot x)) : sige_scope.

Definition f1 (x y z : Z) : Z := Z.lxor (Z.lxor x y) z.
Definition f2 (x y z : Z) : Z := Z.lor (Z.land x y) (Z.land (~ x) z).
Definition f3 (x y z : Z) : Z := Z.lxor (Z.lor x (~ y)) z.
Definition f4 (x y z : Z) : Z := Z.lor (Z.land x z) (Z.land y (~ z)).
Definition f5 (x y z : Z) : Z := Z.lxor x (Z.lor y (~ z)).

Definition Initialize : regs5 := (0x67452301, 0xEFCDAB89, 0x98BADCFE, 0x10325476, 0xC3D2E1F0).

Definition rol (x i : Z) : Z := Z.lor (u32 (Z.shiftl x i)) (Z.shiftr x (32 - i)).

(** The registers [a] and [c] after a round. *)
Definition Round (a b c d e f x k r : Z) : Z * Z := (rol (a [+] f [+] x [+] k) r [+] e, rol c 10).

Definition R11 (a b c d e x r : Z) : Z * Z := Round a b c d e (f1 b c d) x 0 r.
Definition R21 (a b c d e x r : Z) : Z * Z := Round a b c d e (f2 b c d) x 0x5A827999 r.
Definition R31 (a b c d e x r : Z) : Z * Z := Round a b c d e (f3 b c d) x 0x6ED9EBA1 r.
Definition R41 (a b c d e x r : Z) : Z * Z := Round a b c d e (f4 b c d) x 0x8F1BBCDC r.
Definition R51 (a b c d e x r : Z) : Z * Z := Round a b c d e (f5 b c d) x 0xA953FD4E r.
Definition R12 (a b c d e x r : Z) : Z * Z := Round a b c d e (f5 b c d) x 0x50A28BE6 r.
Definition R22 (a b c d e x r : Z) : Z * Z := Round a b c d e (f4 b c d) x 0x5C4DD124 r.
Definition R32 (a b c d e x r : Z) : Z * Z := Round a b c d e (f3 b c d) x 0x6D703EF3 r.
Definition R42 (a b c d e x r : Z) : Z * Z := Round a b c d e (f2 b c d) x 0x7A6D76E9 r.
Definition R52 (a b c d e x r : Z) : Z * Z := Round a b c d e (f1 b c d) x 0 r.

(** The rounds of the two lines, in the groups of the code. *)
Definition rounds1 (X : words16) (v : regs5 * regs5) : regs5 * regs5 :=
  let '(w0, w1, w2, w3, w4, w5, w6, w7, w8, w9, w10, w11, w12, w13, w14, w15) := X in
  let '((a1, b1, c1, d1, e1), (a2, b2, c2, d2, e2)) := v in
  let '(a1, c1) := R11 a1 b1 c1 d1 e1 w0 11 in
  let '(a2, c2) := R12 a2 b2 c2 d2 e2 w5 8 in
  let '(e1, b1) := R11 e1 a1 b1 c1 d1 w1 14 in
  let '(e2, b2) := R12 e2 a2 b2 c2 d2 w14 9 in
  let '(d1, a1) := R11 d1 e1 a1 b1 c1 w2 15 in
  let '(d2, a2) := R12 d2 e2 a2 b2 c2 w7 9 in
  let '(c1, e1) := R11 c1 d1 e1 a1 b1 w3 12 in
  let '(c2, e2) := R12 c2 d2 e2 a2 b2 w0 11 in
  let '(b1, d1) := R11 b1 c1 d1 e1 a1 w4 5 in
  let '(b2, d2) := R12 b2 c2 d2 e2 a2 w9 13 in
  let '(a1, c1) := R11 a1 b1 c1 d1 e1 w5 8 in
  let '(a2, c2) := R12 a2 b2 c2 d2 e2 w2 15 in
  let '(e1, b1) := R11 e1 a1 b1 c1 d1 w6 7 in
  let '(e2, b2) := R12 e2 a2 b2 c2 d2 w11 15 in
  let '(d1, a1) := R11 d1 e1 a1 b1 c1 w7 9 in
  let '(d2, a2) := R12 d2 e2 a2 b2 c2 w4 5 in
  let '(c1, e1) := R11 c1 d1 e1 a1 b1 w8 11 in
  let '(c2, e2) := R12 c2 d2 e2 a2 b2 w13 7 in
  let '(b1, d1) := R11 b1 c1 d1 e1 a1 w9 13 in
  let '(b2, d2) := R12 b2 c2 d2 e2 a2 w6 7 in
  let '(a1, c1) := R11 a1 b1 c1 d1 e1 w10 14 in
  let '(a2, c2) := R12 a2 b2 c2 d2 e2 w15 8 in
  let '(e1, b1) := R11 e1 a1 b1 c1 d1 w11 15 in
  let '(e2, b2) := R12 e2 a2 b2 c2 d2 w8 11 in
  let '(d1, a1) := R11 d1 e1 a1 b1 c1 w12 6 in
  let '(d2, a2) := R12 d2 e2 a2 b2 c2 w1 14 in
  let '(c1, e1) := R11 c1 d1 e1 a1 b1 w13 7 in
  let '(c2, e2) := R12 c2 d2 e2 a2 b2 w10 14 in
  let '(b1, d1) := R11 b1 c1 d1 e1 a1 w14 9 in
  let '(b2, d2) := R12 b2 c2 d2 e2 a2 w3 12 in
  let '(a1, c1) := R11 a1 b1 c1 d1 e1 w15 8 in
  let '(a2, c2) := R12 a2 b2 c2 d2 e2 w12 6 in
  ((a1, b1, c1, d1, e1), (a2, b2, c2, d2, e2)).

Definition rounds2 (X : words16) (v : regs5 * regs5) : regs5 * regs5 :=
  let '(w0, w1, w2, w3, w4, w5, w6, w7, w8, w9, w10, w11, w12, w13, w14, w15) := X in
  let '((a1, b1, c1, d1, e1), (a2, b2, c2, d2, e2)) := v in
  let '(e1, b1) := R21 e1 a1 b1 c1 d1 w7 7 in
  let '(e2, b2) := R22 e2 a2 b2 c2 d2 w6 9 in
  let '(d1, a1) := R21 d1 e1 a1 b1 c1 w4 6 in
  let '(d2, a2) := R22 d2 e2 a2 b2 c2 w11 13 in
  let '(c1, e1) := R21 c1 d1 e1 a1 b1 w13 8 in
  let '(c2, e2) := R22 c2 d2 e2 a2 b2 w3 15 in
  let '(b1, d1) := R21 b1 c1 d1 e1 a1 w1 13 in
  let '(b2, d2) := R22 b2 c2 d2 e2 a2 w7 7 in
  let '(a1, c1) := R21 a1 b1 c1 d1 e1 w10 11 in
  let '(a2, c2) := R22 a2 b2 c2 d2 e2 w0 12 in
  let '(e1, b1) := R21 e1 a1 b1 c1 d1 w6 9 in
  let '(e2, b2) := R22 e2 a2 b2 c2 d2 w13 8 in
  let '(d1, a1) := R21 d1 e1 a1 b1 c1 w15 7 in
  let '(d2, a2) := R22 d2 e2 a2 b2 c2 w5 9 in
  let '(c1, e1) := R21 c1 d1 e1 a1 b1 w3 15 in
  let '(c2, e2) := R22 c2 d2 e2 a2 b2 w10 11 in
  let '(b1, d1) := R21 b1 c1 d1 e1 a1 w12 7 in
  let '(b2, d2) := R22 b2 c2 d2 e2 a2 w14 7 in
  let '(a1, c1) := R21 a1 b1 c1 d1 e1 w0 12 in
  let '(a2, c2) := R22 a2 b2 c2 d2 e2 w15 7 in
  let '(e1, b1) := R21 e1 a1 b1 c1 d1 w9 15 in
  let '(e2, b2) := R22 e2 a2 b2 c2 d2 w8 12 in
  let '(d1, a1) := R21 d1 e1 a1 b1 c1 w5 9 in
  let '(d2, a2) := R22 d2 e2 a2 b2 c2 w12 7 in
  let '(c1, e1) := R21 c1 d1 e1 a1 b1 w2 11 in
  let '(c2, e2) := R22 c2 d2 e2 a2 b2 w4 6 in
  let '(b1, d1) := R21 b1 c1 d1 e1 a1 w14 7 in
  let '(b2, d2) := R22 b2 c2 d2 e2 a2 w9 15 in
  let '(a1, c1) := R21 a1 b1 c1 d1 e1 w11 13 in
  let '(a2, c2) := R22 a2 b2 c2 d2 e2 w1 13 in
  let '(e1, b1) := R21 e1 a1 b1 c1 d1 w8 12 in
  let '(e2, b2) := R22 e2 a2 b2 c2 d2 w2 11 in
  ((a1, b1, c1, d1, e1), (a2, b2, c2, d2, e2)).

Definition rounds3 (X : words16) (v : regs5 * regs5) : regs5 * regs5 :=
  let '(w0, w1, w2, w3, w4, w5, w6, w7, w8, w9, w10, w11, w12, w13, w14, w15) := X in
  let '((a1, b1, c1, d1, e1), (a2, b2, c2, d2, e2)) := v in
  let '(d1, a1) := R31 d1 e1 a1 b1 c1 w3 11 in
  let '(d2, a2) := R32 d2 e2 a2 b2 c2 w15 9 in
  let '(c1, e1) := R31 c1 d1 e1 a1 b1 w10 13 in
  let '(c2, e2) := R32 c2 d2 e2 a2 b2 w5 7 in
  let '(b1, d1) := R31 b1 c1 d1 e1 a1 w14 6 in
  let '(b2, d2) := R32 b2 c2 d2 e2 a2 w1 15 in
  let '(a1, c1) := R31 a1 b1 c1 d1 e1 w4 7 in
  let '(a2, c2) := R32 a2 b2 c2 d2 e2 w3 11 in
  let '(e1, b1) := R31 e1 a1 b1 c1 d1 w9 14 in
  let '(e2, b2) := R32 e2 a2 b2 c2 d2 w7 8 in
  let '(d1, a1) := R31 d1 e1 a1 b1 c1 w15 9 in
  let '(d2, a2) := R32 d2 e2 a2 b2 c2 w14 6 in
  let '(c1, e1) := R31 c1 d1 e1 a1 b1 w8 13 in
  let '(c2, e2) := R32 c2 d2 e2 a2 b2 w6 6 in
  let '(b1, d1) := R31 b1 c1 d1 e1 a1 w1 15 in
  let '(b2, d2) := R32 b2 c2 d2 e2 a2 w9 14 in
  let '(a1, c1) := R31 a1 b1 c1 d1 e1 w2 14 in
  let '(a2, c2) := R32 a2 b2 c2 d2 e2 w11 12 in
  let '(e1, b1) := R31 e1 a1 b1 c1 d1 w7 8 in
  let '(e2, b2) := R32 e2 a2 b2 c2 d2 w8 13 in
  let '(d1, a1) := R31 d1 e1 a1 b1 c1 w0 13 in
  let '(d2, a2) := R32 d2 e2 a2 b2 c2 w12 5 in
  let '(c1, e1) := R31 c1 d1 e1 a1 b1 w6 6 in
  let '(c2, e2) := R32 c2 d2 e2 a2 b2 w2 14 in
  let '(b1, d1) := R31 b1 c1 d1 e1 a1 w13 5 in
  let '(b2, d2) := R32 b2 c2 d2 e2 a2 w10 13 in
  let '(a1, c1) := R31 a1 b1 c1 d1 e1 w11 12 in
  let '(a2, c2) := R32 a2 b2 c2 d2 e2 w0 13 in
  let '(e1, b1) := R31 e1 a1 b1 c1 d1 w5 7 in
  let '(e2, b2) := R32 e2 a2 b2 c2 d2 w4 7 in
  let '(d1, a1) := R31 d1 e1 a1 b1 c1 w12 5 in
  let '(d2, a2) := R32 d2 e2 a2 b2 c2 w13 5 in
  ((a1, b1, c1, d1, e1), (a2, b2, c2, d2, e2)).

Definition rounds4 (X : words16) (v : regs5 * regs5) : regs5 * regs5 :=
  let '(w0, w1, w2, w3, w4, w5, w6, w7, w8, w9, w10, w11, w12, w13, w14, w15) := X in
  let '((a1, b1, c1, d1, e1), (a2, b2, c2, d2, e2)) := v in
  let '(c1, e1) := R41 c1 d1 e1 a1 b1 w1 11 in
  let '(c2, e2) := R42 c2 d2 e2 a2 b2 w8 15 in
  let '(b1, d1) := R41 b1 c1 d1 e1 a1 w9 12 in
  let '(b2, d2) := R42 b2 c2 d2 e2 a2 w6 5 in
  let '(a1, c1) := R41 a1 b1 c1 d1 e1 w11 14 in
  let '(a2, c2) := R42 a2 b2 c2 d2 e2 w4 8 in
  let '(e1, b1) := R41 e1 a1 b1 c1 d1 w10 15 in
  let '(e2, b2) := R42 e2 a2 b2 c2 d2 w1 11 in
  let '(d1, a1) := R41 d1 e1 a1 b1 c1 w0 14 in
  let '(d2, a2) := R42 d2 e2 a2 b2 c2 w3 14 in
  let '(c1, e1) := R41 c1 d1 e1 a1 b1 w8 15 in
  let '(c2, e2) := R42 c2 d2 e2 a2 b2 w11 14 in
  let '(b1, d1) := R41 b1 c1 d1 e1 a1 w12 9 in
  let '(b2, d2) := R42 b2 c2 d2 e2 a2 w15 6 in
  let '(a1, c1) := R41 a1 b1 c1 d1 e1 w4 8 in
  let '(a2, c2) := R42 a2 b2 c2 d2 e2 w0 14 in
  let '(e1, b1) := R41 e1 a1 b1 c1 d1 w13 9 in
  let '(e2, b2) := R42 e2 a2 b2 c2 d2 w5 6 in
  let '(d1, a1) := R41 d1 e1 a1 b1 c1 w3 14 in
  let '(d2, a2) := R42 d2 e2 a2 b2 c2 w12 9 in
  let '(c1, e1) := R41 c1 d1 e1 a1 b1 w7 5 in
  let '(c2, e2) := R42 c2 d2 e2 a2 b2 w2 12 in
  let '(b1, d1) := R41 b1 c1 d1 e1 a1 w15 6 in
  let '(b2, d2) := R42 b2 c2 d2 e2 a2 w13 9 in
  let '(a1, c1) := R41 a1 b1 c1 d1 e1 w14 8 in
  let '(a2, c2) := R42 a2 b2 c2 d2 e2 w9 12 in
  let '(e1, b1) := R41 e1 a1 b1 c1 d1 w5 6 in
  let '(e2, b2) := R42 e2 a2 b2 c2 d2 w7 5 in
  let '(d1, a1) := R41 d1 e1 a1 b1 c1 w6 5 in
  let '(d2, a2) := R42 d2 e2 a2 b2 c2 w10 15 in
  let '(c1, e1) := R41 c1 d1 e1 a1 b1 w2 12 in
  let '(c2, e2) := R42 c2 d2 e2 a2 b2 w14 8 in
  ((a1, b1, c1, d1, e1), (a2, b2, c2, d2, e2)).

Definition rounds5 (X : words16) (v : regs5 * regs5) : regs5 * regs5 :=
  let '(w0, w1, w2, w3, w4, w5, w6, w7, w8, w9, w10, w11, w12, w13, w14, w15) := X in
  let '((a1, b1, c1, d1, e1), (a2, b2, c2, d2, e2)) := v in
  let '(b1, d1) := R51 b1 c1 d1 e1 a1 w4 9 in
  let '(b2, d2) := R52 b2 c2 d2 e2 a2 w12 8 in
  let '(a1, c1) := R51 a1 b1 c1 d1 e1 w0 15 in
  let '(a2, c2) := R52 a2 b2 c2 d2 e2 w15 5 in
  let '(e1, b1) := R51 e1 a1 b1 c1 d1 w5 5 in
  let '(e2, b2) := R52 e2 a2 b2 c2 d2 w10 12 in
  let '(d1, a1) := R51 d1 e1 a1 b1 c1 w9 11 in
  let '(d2, a2) := R52 d2 e2 a2 b2 c2 w4 9 in
  let '(c1, e1) := R51 c1 d1 e1 a1 b1 w7 6 in
  let '(c2, e2) := R52 c2 d2 e2 a2 b2 w1 12 in
  let '(b1, d1) := R51 b1 c1 d1 e1 a1 w12 8 in
  let '(b2, d2) := R52 b2 c2 d2 e2 a2 w5 5 in
  let '(a1, c1) := R51 a1 b1 c1 d1 e1 w2 13 in
  let '(a2, c2) := R52 a2 b2 c2 d2 e2 w8 14 in
  let '(e1, b1) := R51 e1 a1 b1 c1 d1 w10 12 in
  let '(e2, b2) := R52 e2 a2 b2 c2 d2 w7 6 in
  let '(d1, a1) := R51 d1 e1 a1 b1 c1 w14 5 in
  let '(d2, a2) := R52 d2 e2 a2 b2 c2 w6 8 in
  let '(c1, e1) := R51 c1 d1 e1 a1 b1 w1 12 in
  let '(c2, e2) := R52 c2 d2 e2 a2 b2 w2 13 in
  let '(b1, d1) := R51 b1 c1 d1 e1 a1 w3 13 in
  let '(b2, d2) := R52 b2 c2 d2 e2 a2 w13 6 in
  let '(a1, c1) := R51 a1 b1 c1 d1 e1 w8 14 in
  let '(a2, c2) := R52 a2 b2 c2 d2 e2 w14 5 in
  let '(e1, b1) := R51 e1 a1 b1 c1 d1 w11 11 in
  let '(e2, b2) := R52 e2 a2 b2 c2 d2 w0 15 in
  let '(d1, a1) := R51 d1 e1 a1 b1 c1 w6 8 in
  let '(d2, a2) := R52 d2 e2 a2 b2 c2 w3 13 in
  let '(c1, e1) := R51 c1 d1 e1 a1 b1 w15 5 in
  let '(c2, e2) := R52 c2 d2 e2 a2 b2 w9 11 in
  let '(b1, d1) := R51 b1 c1 d1 e1 a1 w13 6 in
  let '(b2, d2) := R52 b2 c2 d2 e2 a2 w11 11 in
  ((a1, b1, c1, d1, e1), (a2, b2, c2, d2, e2)).

Definition Transform (WORDS_BIGENDIAN : bool) (s : regs5) (chunk : bytes) : regs5 :=
  let w0 := ReadLE32 WORDS_BIGENDIAN (drop 0 chunk) in
  let w1 := ReadLE32 WORDS_BIGENDIAN (drop 4 chunk) in
  let w2 := ReadLE32 WORDS_BIGENDIAN (drop 8 chunk) in
  let w3 := ReadLE32 WORDS_BIGENDIAN (drop 12 chunk) in
  let w4 := ReadLE32 WORDS_BIGENDIAN (drop 16 chunk) in
  let w5 := ReadLE32 WORDS_BIGENDIAN (drop 20 chunk) in
  let w6 := ReadLE32 WORDS_BIGENDIAN (drop 24 chunk) in
  let w7 := ReadLE32 WORDS_BIGENDIAN (drop 28 chunk) in
  let w8 := ReadLE32 WORDS_BIGENDIAN (drop 32 chunk) in
  let w9 := ReadLE32 WORDS_BIGENDIAN (drop 36 chunk) in
  let w10 := ReadLE32 WORDS_BIGENDIAN (drop 40 chunk) in
  let w11 := ReadLE32 WORDS_BIGENDIAN (drop 44 chunk) in
  let w12 := ReadLE32 WORDS_BIGENDIAN (drop 48 chunk) in
  let w13 := ReadLE32 WORDS_BIGENDIAN (drop 52 chunk) in
  let w14 := ReadLE32 WORDS_BIGENDIAN (drop 56 chunk) in
  let w15 := ReadLE32 WORDS_BIGENDIAN (drop 60 chunk) in
  let X := (w0, w1, w2, w3, w4, w5, w6, w7, w8, w9, w10, w11, w12, w13, w14, w15) in
  let v := rounds5 X (rounds4 X (rounds3 X (rounds2 X (rounds1 X (s, s))))) in
  let '((a1, b1, c1, d1, e1), (a2, b2, c2, d2, e2)) := v in
  let '(s0, s1, s2, s3, s4) := s in
  (s1 [+] c1 [+] d2, s2 [+] d1 [+] e2, s3 [+] e1 [+] a2, s4 [+] a1 [+] b2, s0 [+] b1 [+] c2).
End ripemd160.

(** ** The reference *)

Module RIPEMD160_reference.
Import ripemd160.

(** The function and the constant of a line in the round [i] (the roots of 2, 3, 5 and 7). *)
Definition f (i : nat) : Z -> Z -> Z -> Z := nth i [f1; f2; f3; f4; f5] f1.
Definition K (i : nat) : Z := match i with O => 0 | _ => Z.sqrt (nth (i - 1) [2; 3; 5; 7] 0 * 2 ^ 60) end.
Definition K' (i : nat) : Z := match i with 4%nat => 0 | _ => cbrt 33 (nth i [2; 3; 5; 7] 0 * 2 ^ 90) end.

(** The permutations of the words, and the shift of each word in each round. *)
Definition rho (i : nat) : nat := nth i [7; 4; 13; 1; 10; 6; 15; 3; 12; 0; 9; 5; 2; 14; 11; 8]%nat 0%nat.
Definition pi (i : nat) : nat := ((9 * i + 5) mod 16)%nat.
Definition r (j : nat) : nat := Nat.iter (j / 16) rho (j mod 16)%nat.
Definition r' (j : nat) : nat := Nat.iter (j / 16) rho (pi (j mod 16)%nat).
Definition shifts (i : nat) : list Z :=
  nth i [[11; 14; 15; 12; 5; 8; 7; 9; 11; 13; 14; 15; 6; 7; 9; 8];
         [12; 13; 11; 15; 6; 9; 9; 7; 12; 15; 11; 13; 7; 8; 7; 7];
         [13; 15; 14; 11; 7; 7; 6; 8; 13; 14; 13; 12; 5; 5; 6; 9];
         [14; 11; 12; 14; 8; 6; 5; 5; 15; 12; 15; 14; 9; 9; 8; 6];
         [15; 12; 13; 13; 9; 5; 8; 6; 14; 11; 12; 11; 8; 6; 5; 5]] [].

(** The step [j] of each line: its function, constant, word and shift. *)
Definition left (X : list Z) (j : nat) : nat * Z * Z * Z := ((j / 16)%nat, K (j / 16)%nat, X !!! r j, shifts (j / 16)%nat !!! r j).
Definition right (X : list Z) (j : nat) : nat * Z * Z * Z := ((4 - j / 16)%nat, K' (j / 16)%nat, X !!! r' j, shifts (j / 16)%nat !!! r' j).

Definition step (v : regs5) (o : nat * Z * Z * Z) : regs5 :=
  let '(A, B, C, D, E) := v in
  let '(i, K, X, s) := o in
  let T := rol (A [+] f i B C D [+] X [+] K) s [+] E in
  (E, T, B, rol C 10, D).

Definition words (chunk : bytes) : list Z := map (fun t => le_val (take 4 (drop (t * 4) chunk))) (seq 0 16).

Definition compress (h : regs5) (chunk : bytes) : regs5 :=
  let X := words chunk in
  let '(A, B, C, D, E) := foldl step h (map (left X) (seq 0 80)) in
  let '(A', B', C', D', E') := foldl step h (map (right X) (seq 0 80)) in
  let '(h0, h1, h2, h3, h4) := h in
  (h1 [+] C [+] D', h2 [+] D [+] E', h3 [+] E [+] A', h4 [+] A [+] B', h0 [+] B [+] C').
End RIPEMD160_reference.

(** ** The transformation *)

Section transform.
Import ripemd160 RIPEMD160_reference.

Lemma ripemd160_step_Round a b c d e i k x s :
  step (a, b, c, d, e) (i, k, x, s) = let '(a', c') := Round a b c d e (f i b c d) x k s in (e, a', b, c', d).
Proof. done. Qed.

(** Both lines, the names of the registers turned. *)
Definition both (n : nat) (v : regs5 * regs5) : regs5 * regs5 := (turn n (fst v), turn n (snd v)).

Ltac line_round :=
  rewrite ripemd160_step_Round; cbv beta iota delta [f nth];
  lazymatch goal with |- _ = ?rhs => lazymatch rhs with context [match Round ?a ?b ?c ?d ?e ?g ?x ?k ?s with _ => _ end] =>
    destruct (Round a b c d e g x k s) as [? ?] end end; cbv beta iota.

Ltac line_group X v1 v2 rounds :=
  destruct X as [[[[[[[[[[[[[[[w0 w1] w2] w3] w4] w5] w6] w7] w8] w9] w10] w11] w12] w13] w14] w15];
  destruct v1 as [[[[a1 b1] c1] d1] e1], v2 as [[[[a2 b2] c2] d2] e2]; cbn [list_of turn];
  repeat match goal with |- context [map ?g ?l] => let l' := eval vm_compute in (map g l) in change (map g l) with l' end;
  cbv beta iota zeta delta [rounds R11 R21 R31 R41 R51 R12 R22 R32 R42 R52]; cbn [foldl];
  do 32 line_round; reflexivity.

Lemma ripemd160_rounds1_spec X v1 v2 :
  both 1 (rounds1 X (v1, v2)) =
  (foldl step (turn 0 v1) (map (left (list_of X)) (seq 0 16)), foldl step (turn 0 v2) (map (right (list_of X)) (seq 0 16))).
Proof. line_group X v1 v2 rounds1. Qed.

Lemma ripemd160_rounds2_spec X v1 v2 :
  both 2 (rounds2 X (v1, v2)) =
  (foldl step (turn 1 v1) (map (left (list_of X)) (seq 16 16)), foldl step (turn 1 v2) (map (right (list_of X)) (seq 16 16))).
Proof. line_group X v1 v2 rounds2. Qed.

Lemma ripemd160_rounds3_spec X v1 v2 :
  both 3 (rounds3 X (v1, v2)) =
  (foldl step (turn 2 v1) (map (left (list_of X)) (seq 32 16)), foldl step (turn 2 v2) (map (right (list_of X)) (seq 32 16))).
Proof. line_group X v1 v2 rounds3. Qed.

Lemma ripemd160_rounds4_spec X v1 v2 :
  both 4 (rounds4 X (v1, v2)) =
  (foldl step (turn 3 v1) (map (left (list_of X)) (seq 48 16)), foldl step (turn 3 v2) (map (right (list_of X)) (seq 48 16))).
Proof. line_group X v1 v2 rounds4. Qed.

Lemma rounds5_spec X v1 v2 :
  both 5 (rounds5 X (v1, v2)) =
  (foldl step (turn 4 v1) (map (left (list_of X)) (seq 64 16)), foldl step (turn 4 v2) (map (right (list_of X)) (seq 64 16))).
Proof. line_group X v1 v2 rounds5. Qed.

Lemma ripemd160_read_word be chunk t : length chunk = 64%nat -> byte_list chunk -> (t < 16)%nat ->
  le_val (take 4 (drop (t * 4) chunk)) = ReadLE32 be (drop (t * 4) chunk).
Proof.
  intros Hl Hb Ht. destruct (read_le be (drop (t * 4) chunk)) as (_ & E & _); [by apply Forall_drop|]. rewrite E by (rewrite length_drop; lia). done.
Qed.

(** Eighty steps are five rounds. *)
Lemma lines_split (g : nat -> nat * Z * Z * Z) v : foldl step v (map g (seq 0 80)) =
  foldl step (foldl step (foldl step (foldl step (foldl step v (map g (seq 0 16))) (map g (seq 16 16))) (map g (seq 32 16))) (map g (seq 48 16))) (map g (seq 64 16)).
Proof. rewrite <- !foldl_app, <- !map_app. done. Qed.

Lemma turn_5 v : turn 5 v = v.
Proof. by destruct v as [[[[a b] c] d] e]. Qed.

Lemma both_inv n v x y : both n v = (x, y) -> turn n (fst v) = x /\ turn n (snd v) = y.
Proof. by intros [= <- <-]. Qed.

Lemma lines_spec X s : rounds5 X (rounds4 X (rounds3 X (rounds2 X (rounds1 X (s, s))))) =
  (foldl step s (map (left (list_of X)) (seq 0 80)), foldl step s (map (right (list_of X)) (seq 0 80))).
Proof.
  rewrite !lines_split.
  assert (forall v : regs5 * regs5, both 5 v = v) as E5 by (intros [v1 v2]; unfold both; cbn [fst snd]; by rewrite !turn_5).
  rewrite <- (E5 (rounds5 _ _)). rewrite (surjective_pairing (rounds4 _ _)), rounds5_spec.
  pose proof (ripemd160_rounds4_spec X (fst (rounds3 X (rounds2 X (rounds1 X (s, s))))) (snd (rounds3 X (rounds2 X (rounds1 X (s, s)))))) as E4.
  pose proof (ripemd160_rounds3_spec X (fst (rounds2 X (rounds1 X (s, s)))) (snd (rounds2 X (rounds1 X (s, s))))) as E3.
  pose proof (ripemd160_rounds2_spec X (fst (rounds1 X (s, s))) (snd (rounds1 X (s, s)))) as E2.
  pose proof (ripemd160_rounds1_spec X s s) as E1. rewrite <- !surjective_pairing in E4, E3, E2.
  apply both_inv in E4 as [-> ->], E3 as [-> ->], E2 as [-> ->], E1 as [-> ->]. done.
Qed.

Lemma ripemd160_Transform_compress be s chunk : length chunk = 64%nat -> byte_list chunk -> Transform be s chunk = compress s chunk.
Proof.
  intros Hl Hb. unfold Transform, compress. cbv zeta. rewrite lines_spec. cbn [list_of].
  assert (words chunk = [ReadLE32 be (drop 0 chunk); ReadLE32 be (drop 4 chunk); ReadLE32 be (drop 8 chunk); ReadLE32 be (drop 12 chunk);
    ReadLE32 be (drop 16 chunk); ReadLE32 be (drop 20 chunk); ReadLE32 be (drop 24 chunk); ReadLE32 be (drop 28 chunk);
    ReadLE32 be (drop 32 chunk); ReadLE32 be (drop 36 chunk); ReadLE32 be (drop 40 chunk); ReadLE32 be (drop 44 chunk);
    ReadLE32 be (drop 48 chunk); ReadLE32 be (drop 52 chunk); ReadLE32 be (drop 56 chunk); ReadLE32 be (drop 60 chunk)]) as ->.
  { unfold words. cbn [map seq]. rewrite !(ripemd160_read_word be) by (done || lia). done. }
  destruct (foldl step s _) as [[[[a b] c] d] e]. destruct (foldl step s _) as [[[[a' b'] c'] d'] e']. by destruct s as [[[[s0 s1] s2] s3] s4].
Qed.

Lemma ripemd160_compress_range v chunk : Forall (in_u 32) (regs5_list (compress v chunk)).
Proof.
  unfold compress. cbv zeta. destruct (foldl _ _ _) as [[[[a b] c] d] e], (foldl _ _ _) as [[[[a2 b2] c2] d2] e2], v as [[[[a' b'] c'] d'] e'].
  repeat constructor; by apply wrap_range.
Qed.
End transform.

(** ** The class *)

Module CRIPEMD160.
Definition OUTPUT_SIZE : Z := 20.

Section class.
Context (WORDS_BIGENDIAN : bool).

(** [mem] is the buffer before it is set. *)
Definition make (mem : bytes) : hasher regs5 := mk_hasher ripemd160.Initialize mem 0.

Definition Write : bytes -> hasher regs5 -> res (hasher regs5) := HashStream.Write 64 (ripemd160.Transform WORDS_BIGENDIAN).

Definition encode (s : regs5) : bytes := mjoin (map (fun x => WriteLE32 WORDS_BIGENDIAN (replicate 4 0) x) (regs5_list s)).

Definition Finalize : hasher regs5 -> res (bytes * hasher regs5) :=
  HashStream.Finalize 64 (ripemd160.Transform WORDS_BIGENDIAN) 119 (WriteLE64 WORDS_BIGENDIAN (replicate 8 0)) encode.

Definition Reset (h : hasher regs5) : hasher regs5 := mk_hasher ripemd160.Initialize (buf h) 0.
End class.
End CRIPEMD160.

(** The hash of a message. *)
Definition RIPEMD160_spec (m : bytes) : bytes :=
  digest 64 RIPEMD160_reference.compress ripemd160.Initialize 8 (le_bytes 8)
    (fun s => mjoin (map (le_bytes 4) (regs5_list s))) m.

Example RIPEMD160_abc :
  (let? h := CRIPEMD160.Write false [97; 98; 99] (CRIPEMD160.make (replicate 64 7)) in let? (d, _) := CRIPEMD160.Finalize false h in Ok d) =
  Ok [0x8e; 0xb2; 0x08; 0xf7; 0xe0; 0x5d; 0x98; 0x7a; 0x9b; 0x04; 0x4a; 0x8e; 0x98; 0xc6; 0xb0; 0x87; 0xf1; 0x5a; 0x0b; 0xfc].
Proof. vm_compute. reflexivity. Qed.

(** ** The class computes the hash *)

Lemma ripemd160_encode_spec be s : Forall (in_u 32) (regs5_list s) ->
  CRIPEMD160.encode be s = mjoin (map (le_bytes 4) (regs5_list s)).
Proof.
  intros H. unfold CRIPEMD160.encode. f_equal. apply map_ext_Forall. eapply Forall_impl; [exact H|]. intros x Hx. cbv beta.
  rewrite (proj1 (proj2 (write_le be (replicate 4 0) x)) Hx). by rewrite drop_ge, app_nil_r.
Qed.

Lemma le_bytes_list n l : byte_list (mjoin (map (le_bytes n) l)) /\ length (mjoin (map (le_bytes n) l)) = (n * length l)%nat.
Proof.
  induction l as [|x l [IHb IHl]]; [split; [apply Forall_nil_2|simpl; lia]|]. cbn [map length].
  change (mjoin (?y :: ?k)) with (y ++ mjoin k). split.
  - apply Forall_app. split; [|exact IHb]. apply le_bytes_bytes.
  - rewrite length_app, length_le_bytes, IHl. lia.
Qed.

Lemma RIPEMD160_spec_size m : byte_list (RIPEMD160_spec m) /\ length (RIPEMD160_spec m) = 20%nat.
Proof.
  unfold RIPEMD160_spec, digest. cbv zeta. destruct (foldl _ _ _) as [[[[a b] c] d] e].
  destruct (le_bytes_list 4 (regs5_list (a, b, c, d, e))) as [Hb Hl]. split; [exact Hb|]. by rewrite Hl.
Qed.

(** Whatever parts a message is written in, and whatever the buffer held, the object ends with its hash. *)
Lemma CRIPEMD160_correct be h parts : length (buf h) = 64%nat -> Forall byte_list parts ->
  Forall (fun d => zlen d < 2 ^ 63) parts -> zlen (mjoin parts) < 2 ^ 61 ->
  exists h', (let? h := write_all 64 (ripemd160.Transform be) parts (CRIPEMD160.Reset h) in CRIPEMD160.Finalize be h) = Ok (RIPEMD160_spec (mjoin parts), h') /\ length (buf h') = 64%nat.
Proof.
  intros Hbuf Hp Hs Hl. assert (Z.of_nat 64 | 2 ^ 64) as Hdvd by (exists (2 ^ 58); reflexivity).
  assert (byte_list (mjoin parts)) as Hb by (clear -Hp; induction Hp; [constructor|by apply Forall_app]).
  assert (forall n, in_u 64 n -> WriteLE64 be (replicate 8 0) n = le_bytes 8 n) as Hd.
  { intros n Hn. rewrite (proj2 (proj2 (write_le be (replicate 8 0) n)) Hn). by rewrite drop_ge, app_nil_r. }
  assert (forall n, length (le_bytes 8 n) = 8%nat) as Hn by (intros; by rewrite ?length_rev, length_le_bytes).
  destruct (hasher_correct 64 (ripemd160.Transform be) ripemd160.Initialize ltac:(lia) Hdvd 8
      (WriteLE64 be (replicate 8 0)) (le_bytes 8) (CRIPEMD160.encode be) ltac:(lia) Hd Hn (buf h) parts Hbuf Hs Hl ltac:(done)) as (h' & E & Hb').
  exists h'. split; [|exact Hb']. refine (eq_trans E _). do 2 f_equal.
  rewrite (digest_ext 64 (ripemd160.Transform be) RIPEMD160_reference.compress); [|lia|exact Hb| |].
  - apply ripemd160_encode_spec. set (l := blocks _ _ _). clearbody l. assert (Forall (in_u 32) (regs5_list ripemd160.Initialize)) as H0 by (repeat constructor; done).
    revert H0. generalize ripemd160.Initialize. induction l as [|c l IH]; intros v Hv; [done|]. apply IH, ripemd160_compress_range.
  - intros n. apply le_bytes_bytes.
  - intros. by apply ripemd160_Transform_compress.
Qed.
