(* ===== verification/HashClasses.v ===== *)
(** The hash classes behind one interface; [CHash256] and [CHash160] of
    src/sige/src/hash.h; [CHMAC_SHA256] and [CHMAC_SHA512] of
    src/sige/crypto/hmac_sha256.cpp and hmac_sha512.cpp, which are the same code
    over two classes. *)

From S2P Require Import Prelude Bytes Prevector HashStream Schedule Sha2 Sha256 Sha512 Sha1 Ripemd160 Interpreter EvalScriptSpec.

(** ** The interface

    A class with its transformation of blocks and its [Finalize], and the
    function that it promises to compute. *)

Class StreamHash (T : Type) := {
  hash_block : nat;
  OUTPUT_SIZE : nat;
  hash_transform : T -> bytes -> T;
  hash_init : T;
  hash_finalize : hasher T -> res (bytes * hasher T);
  hash_of : bytes -> bytes;
}.
Arguments hash_block T {_}. Arguments OUTPUT_SIZE T {_}. Arguments hash_of T {_} _.

Section classes.
Context {T : Type} `{!StreamHash T}.

(** The constructor; [mem] is the buffer before it is set. *)
Definition hash_make (mem : bytes) : hasher T := mk_hasher hash_init mem 0.
Definition hash_write : bytes -> hasher T -> res (hasher T) := Write (Z.of_nat (hash_block T)) hash_transform.
Definition hash_reset (h : hasher T) : hasher T := mk_hasher hash_init (buf h) 0.
Definition hash_write_all : list bytes -> hasher T -> res (hasher T) := write_all (Z.of_nat (hash_block T)) hash_transform.
End classes.

(** [Class().Write(data, len).Finalize(hash)] *)
Definition hash_once `{!StreamHash T} (mem data : bytes) : res bytes :=
  let? h := hash_write data (hash_make mem) in
  let? (hash, _) := hash_finalize h in
  Ok hash.

(** The parts of a message, within the sizes that the algorithms are defined for. *)
Definition message (parts : list bytes) : Prop := Forall byte_list parts /\ zlen (mjoin parts) < 2 ^ 61.

Class StreamHashLaws (T : Type) `{!StreamHash T} : Prop := {
  hash_sizes : (0 < OUTPUT_SIZE T <= hash_block T)%nat /\ (hash_block T <= 128)%nat;
  hash_size m : byte_list (hash_of T m) /\ length (hash_of T m) = OUTPUT_SIZE T;
  hash_correct mem parts : length mem = hash_block T -> message parts ->
    exists h', (let? h := hash_write_all parts (hash_make mem) in hash_finalize h) = Ok (hash_of T (mjoin parts), h') /\
      length (buf h') = hash_block T;
}.

Lemma message_parts parts : message parts -> Forall (fun d => zlen d < 2 ^ 63) parts.
Proof.
  intros [_ Hl]. revert Hl. induction parts as [|d parts IH]; [constructor|].
  change (mjoin (d :: parts)) with (d ++ mjoin parts). rewrite zlen_app. intros Hl.
  pose proof (zlen_nonneg d). pose proof (zlen_nonneg (mjoin parts)). constructor; [lia|apply IH; lia].
Qed.

Definition SHA256_class (be : bool) : StreamHash regs := {|
  hash_block := 64; OUTPUT_SIZE := 32; hash_transform := sha256.Transform be; hash_init := sha256.Initialize;
  hash_finalize := CSHA256.Finalize be; hash_of := SHA256_spec |}.
Definition SHA512_class (be : bool) : StreamHash regs := {|
  hash_block := 128; OUTPUT_SIZE := 64; hash_transform := sha512.Transform be; hash_init := sha512.Initialize;
  hash_finalize := CSHA512.Finalize be; hash_of := SHA512_spec |}.
Definition SHA1_class (be : bool) : StreamHash regs5 := {|
  hash_block := 64; OUTPUT_SIZE := 20; hash_transform := sha1.Transform be; hash_init := sha1.Initialize;
  hash_finalize := CSHA1.Finalize be; hash_of := SHA1_spec |}.
Definition RIPEMD160_class (be : bool) : StreamHash regs5 := {|
  hash_block := 64; OUTPUT_SIZE := 20; hash_transform := ripemd160.Transform be; hash_init := ripemd160.Initialize;
  hash_finalize := CRIPEMD160.Finalize be; hash_of := RIPEMD160_spec |}.

Ltac stream_laws size correct init :=
  split; [split; simpl; lia|exact size|];
  let mem := fresh "mem" in let parts := fresh "parts" in let Hm := fresh "Hm" in let Hp := fresh "Hp" in
  intros mem parts Hm Hp; pose proof (correct (mk_hasher init mem 0) parts Hm (proj1 Hp) (message_parts _ Hp) (proj2 Hp)) as H;
  exact H.

#[export] Instance SHA256_laws be : @StreamHashLaws regs (SHA256_class be).
Proof. stream_laws SHA256_spec_size (CSHA256_correct be) sha256.Initialize. Qed.
#[export] Instance SHA512_laws be : @StreamHashLaws regs (SHA512_class be).
Proof. stream_laws SHA512_spec_size (CSHA512_correct be) sha512.Initialize. Qed.
#[export] Instance SHA1_laws be : @StreamHashLaws regs5 (SHA1_class be).
Proof. stream_laws SHA1_spec_size (CSHA1_correct be) sha1.Initialize. Qed.
#[export] Instance RIPEMD160_laws be : @StreamHashLaws regs5 (RIPEMD160_class be).
Proof. stream_laws RIPEMD160_spec_size (CRIPEMD160_correct be) ripemd160.Initialize. Qed.

(** ** The hash functions of the program *)

(** The functions that the other files take as a parameter. *)
#[export] Instance crypto_hashes : Hashes := {| RIPEMD160 := RIPEMD160_spec; SHA1 := SHA1_spec; SHA256 := SHA256_spec |}.

#[export] Instance crypto_hashes_laws : @HashesLaws crypto_hashes.
Proof. split; [exact RIPEMD160_spec_size|exact SHA1_spec_size|exact SHA256_spec_size]. Qed.

Module CHash256.
Section class.
Context (WORDS_BIGENDIAN : bool).

Definition Write : bytes -> hasher regs -> res (hasher regs) := CSHA256.Write WORDS_BIGENDIAN.
Definition Reset : hasher regs -> hasher regs := CSHA256.Reset.
Definition Finalize (sha : hasher regs) : res (bytes * hasher regs) :=
  let? (b, sha) := CSHA256.Finalize WORDS_BIGENDIAN sha in
  let? sha := CSHA256.Write WORDS_BIGENDIAN b (CSHA256.Reset sha) in
  CSHA256.Finalize WORDS_BIGENDIAN sha.
End class.
End CHash256.

Module CHash160.
Section class.
Context (WORDS_BIGENDIAN : bool).

Definition Write : bytes -> hasher regs -> res (hasher regs) := CSHA256.Write WORDS_BIGENDIAN.
Definition Reset : hasher regs -> hasher regs := CSHA256.Reset.
(** [mem] is the buffer of the [CRIPEMD160] before it is set. *)
Definition Finalize (mem : bytes) (sha : hasher regs) : res (bytes * hasher regs) :=
  let? (b, sha) := CSHA256.Finalize WORDS_BIGENDIAN sha in
  let? ripemd := CRIPEMD160.Write WORDS_BIGENDIAN b (CRIPEMD160.make mem) in
  let? (hash, _) := CRIPEMD160.Finalize WORDS_BIGENDIAN ripemd in
  Ok (hash, sha).
End class.
End CHash160.

(** Writes in a row. *)
Fixpoint writes {T} (write : bytes -> hasher T -> res (hasher T)) (parts : list bytes) (h : hasher T) : res (hasher T) :=
  match parts with
  | [] => Ok h
  | d :: parts => let? h := write d h in writes write parts h
  end.

Lemma writes_eq {T} block (tr : T -> bytes -> T) parts h : writes (Write block tr) parts h = write_all block tr parts h.
Proof.
  revert h. induction parts as [|d parts IH]; intros h; [done|]. cbn [writes write_all].
  destruct (Write block tr d h); try done. apply IH.
Qed.

Lemma mjoin_one (d : bytes) : mjoin [d] = d.
Proof. change (mjoin [d]) with (d ++ []). apply app_nil_r. Qed.

Lemma message_one d : byte_list d -> (length d <= 1000)%nat -> message [d].
Proof. intros Hd Hl. split; [by repeat constructor|]. rewrite mjoin_one. unfold zlen. lia. Qed.

(** One part: the state between [Write] and [Finalize]. *)
Lemma laws_one {T} `{!StreamHash T, !StreamHashLaws T} mem d : length mem = hash_block T -> byte_list d -> (length d <= 1000)%nat ->
  exists h h', hash_write d (hash_make mem) = Ok h /\ hash_finalize h = Ok (hash_of T d, h') /\ length (buf h') = hash_block T.
Proof.
  intros Hm Hd Hl. destruct (hash_correct mem [d] Hm (message_one d Hd Hl)) as (h' & E & Hb). rewrite mjoin_one in E.
  unfold hash_write_all in E. cbn [write_all] in E. unfold hash_write.
  destruct (Write _ _ d (hash_make mem)) as [h| | | |]; try done. cbn [res_bind] in E. by exists h, h'.
Qed.

Section programs.
Context (WORDS_BIGENDIAN : bool).
Abbreviation be := WORDS_BIGENDIAN.

Lemma CHash256_correct h parts : length (buf h) = 64%nat -> message parts ->
  exists h', (let? h := writes (CHash256.Write be) parts (CHash256.Reset h) in CHash256.Finalize be h) = Ok (Hash256 (mjoin parts), h') /\
    length (buf h') = 64%nat.
Proof.
  intros Hb Hp. destruct (@hash_correct regs _ (SHA256_laws be) (buf h) parts Hb Hp) as (h1 & E1 & Hb1).
  unfold CHash256.Write, CSHA256.Write. rewrite writes_eq.
  change (write_all 64 (sha256.Transform be) parts (CHash256.Reset h)) with (@hash_write_all regs (SHA256_class be) parts (@hash_make regs (SHA256_class be) (buf h))).
  destruct (hash_write_all parts _) as [h0| | | |]; try done. cbn [res_bind] in *. unfold CHash256.Finalize.
  change (@hash_finalize regs (SHA256_class be)) with (CSHA256.Finalize be) in E1.
  change (@hash_of regs (SHA256_class be) (mjoin parts)) with (SHA256_spec (mjoin parts)) in E1. rewrite E1. cbn [res_bind].
  destruct (SHA256_spec_size (mjoin parts)) as [Hs Hl].
  destruct (@laws_one regs _ (SHA256_laws be) (buf h1) (SHA256_spec (mjoin parts)) Hb1 Hs) as (h2 & h3 & E2 & E3 & Hb3); [lia|].
  change (CSHA256.Write be (SHA256_spec (mjoin parts)) (CSHA256.Reset h1) = Ok h2) in E2.
  change (Hash256 (mjoin parts)) with (SHA256_spec (SHA256_spec (mjoin parts))). rewrite E2. cbn [res_bind]. exists h3. split; [exact E3|exact Hb3].
Qed.

Lemma CHash160_correct mem h parts : length (buf h) = 64%nat -> length mem = 64%nat -> message parts ->
  exists h', (let? h := writes (CHash160.Write be) parts (CHash160.Reset h) in CHash160.Finalize be mem h) = Ok (Hash160 (mjoin parts), h') /\
    length (buf h') = 64%nat.
Proof.
  intros Hb Hm Hp. destruct (@hash_correct regs _ (SHA256_laws be) (buf h) parts Hb Hp) as (h1 & E1 & Hb1).
  unfold CHash160.Write, CSHA256.Write. rewrite writes_eq.
  change (write_all 64 (sha256.Transform be) parts (CHash160.Reset h)) with (@hash_write_all regs (SHA256_class be) parts (@hash_make regs (SHA256_class be) (buf h))).
  destruct (hash_write_all parts _) as [h0| | | |]; try done. cbn [res_bind] in *. unfold CHash160.Finalize.
  change (@hash_finalize regs (SHA256_class be)) with (CSHA256.Finalize be) in E1.
  change (@hash_of regs (SHA256_class be) (mjoin parts)) with (SHA256_spec (mjoin parts)) in E1. rewrite E1. cbn [res_bind].
  destruct (SHA256_spec_size (mjoin parts)) as [Hs Hl].
  destruct (@laws_one regs5 _ (RIPEMD160_laws be) mem (SHA256_spec (mjoin parts)) Hm Hs) as (h2 & h3 & E2 & E3 & Hb3); [lia|].
  change (CRIPEMD160.Write be (SHA256_spec (mjoin parts)) (CRIPEMD160.make mem) = Ok h2) in E2. rewrite E2. cbn [res_bind].
  change (@hash_finalize regs5 (RIPEMD160_class be)) with (CRIPEMD160.Finalize be) in E3. rewrite E3. cbn [res_bind].
  exists h1. split; [reflexivity|exact Hb1].
Qed.

(** C14: the hash classes compute their hash functions. On both kinds of host, and
    whatever a class's buffer holds, the bytes of a message, written in any
    parts, end in the hash of the standard, for SHA-256, SHA-512 and SHA-1
    (FIPS 180-4) and RIPEMD-160; in the double SHA-256 for [CHash256] and in the
    RIPEMD-160 of the SHA-256 for [CHash160]. No write leaves the buffer. *)
Theorem hash_classes_correct h h512 h5 mem parts : message parts ->
  length (buf h) = 64%nat -> length (buf h512) = 128%nat -> length (buf h5) = 64%nat -> length mem = 64%nat ->
  (exists h', (let? h := writes (CSHA256.Write be) parts (CSHA256.Reset h) in CSHA256.Finalize be h) = Ok (SHA256_spec (mjoin parts), h')) /\
  (exists h', (let? h := writes (CSHA512.Write be) parts (CSHA512.Reset h512) in CSHA512.Finalize be h) = Ok (SHA512_spec (mjoin parts), h')) /\
  (exists h', (let? h := writes (CSHA1.Write be) parts (CSHA1.Reset h5) in CSHA1.Finalize be h) = Ok (SHA1_spec (mjoin parts), h')) /\
  (exists h', (let? h := writes (CRIPEMD160.Write be) parts (CRIPEMD160.Reset h5) in CRIPEMD160.Finalize be h) = Ok (RIPEMD160_spec (mjoin parts), h')) /\
  (exists h', (let? h := writes (CHash256.Write be) parts (CHash256.Reset h) in CHash256.Finalize be h) = Ok (Hash256 (mjoin parts), h')) /\
  (exists h', (let? h := writes (CHash160.Write be) parts (CHash160.Reset h) in CHash160.Finalize be mem h) = Ok (Hash160 (mjoin parts), h')).
Proof.
  intros Hp H1 H2 H3 Hm. unfold CSHA256.Write, CSHA512.Write, CSHA1.Write, CRIPEMD160.Write.
  destruct (CSHA256_correct be h parts H1 (proj1 Hp) (message_parts _ Hp) (proj2 Hp)) as (a & Ea & _).
  destruct (CSHA512_correct be h512 parts H2 (proj1 Hp) (message_parts _ Hp) (proj2 Hp)) as (b & Eb & _).
  destruct (CSHA1_correct be h5 parts H3 (proj1 Hp) (message_parts _ Hp) (proj2 Hp)) as (c & Ec & _).
  destruct (CRIPEMD160_correct be h5 parts H3 (proj1 Hp) (message_parts _ Hp) (proj2 Hp)) as (d & Ed & _).
  destruct (CHash256_correct h parts H1 Hp) as (e & Ee & _). destruct (CHash160_correct mem h parts H1 Hm Hp) as (f & Ef & _).
  split; [exists a; rewrite writes_eq; exact Ea|]. split; [exists b; rewrite writes_eq; exact Eb|]. split; [exists c; rewrite writes_eq; exact Ec|].
  split; [exists d; rewrite writes_eq; exact Ed|]. split; [exists e; exact Ee|exists f; exact Ef].
Qed.
End programs.

(** ** Message authentication *)

Module HMAC.
Section hmac.
Context {T : Type} `{!StreamHash T}.

Record t := mk { outer : hasher T; inner : hasher T }.

(** [for (int n = 0; n < block; n++) rkey[n] ^= x;] *)
Definition xor_key (x : Z) (rkey : bytes) : bytes := map (fun b => Z.lxor b x) rkey.

(** [mem], [mem_outer] and [mem_inner] are the buffers of the objects before they are set. *)
Definition make (mem mem_outer mem_inner key : bytes) : res t :=
  let block := hash_block T in
  let? rkey :=
    if zlen key <=? Z.of_nat block then Ok (key ++ replicate (block - length key) 0)
    else
      let? hash := hash_once mem key in
      Ok (hash ++ replicate (block - OUTPUT_SIZE T) 0) in
  let rkey := xor_key 0x5c rkey in
  let? outer := hash_write rkey (hash_make mem_outer) in
  let rkey := xor_key (Z.lxor 0x5c 0x36) rkey in
  let? inner := hash_write rkey (hash_make mem_inner) in
  Ok (mk outer inner).

Definition Write (data : bytes) (this : t) : res t :=
  let? inner := hash_write data (inner this) in
  Ok (mk (outer this) inner).

Definition Finalize (this : t) : res (bytes * t) :=
  let? (temp, inner) := hash_finalize (inner this) in
  let? outer := hash_write temp (outer this) in
  let? (hash, outer) := hash_finalize outer in
  Ok (hash, mk outer inner).

(** Writes in a row. *)
Fixpoint write_parts (parts : list bytes) (this : t) : res t :=
  match parts with
  | [] => Ok this
  | d :: parts => let? this := Write d this in write_parts parts this
  end.
End hmac.
Arguments t T : clear implicits.
End HMAC.

(** RFC 2104. *)
Definition hmac_spec {T} `{!StreamHash T} (key text : bytes) : bytes :=
  let B := hash_block T in
  let K0 := (if decide (length key <= B)%nat then key else hash_of T key) in
  let K := K0 ++ replicate (B - length K0) 0 in
  hash_of T (map (fun b => Z.lxor b 0x5c) K ++ hash_of T (map (fun b => Z.lxor b 0x36) K ++ text)).

Section hmac_correct.
Context {T : Type} `{!StreamHash T, !StreamHashLaws T}.

Lemma hash_once_spec mem d : length mem = hash_block T -> byte_list d -> zlen d < 2 ^ 61 -> hash_once mem d = Ok (hash_of T d).
Proof.
  intros Hm Hd Hl. destruct (hash_correct mem [d] Hm) as (h' & E & _).
  { split; [by repeat constructor|]. change (mjoin [d]) with (d ++ []). by rewrite app_nil_r. }
  change (mjoin [d]) with (d ++ []) in E. rewrite app_nil_r in E.
  unfold hash_write_all in E. cbn [write_all] in E. unfold hash_once, hash_write.
  destruct (Write _ _ d (hash_make mem)) as [h1| | | |]; try done. cbn [res_bind] in *. by rewrite E.
Qed.

Lemma write_parts_eq parts : forall o i, HMAC.write_parts parts (HMAC.mk o i) =
  let? i := hash_write_all parts i in Ok (HMAC.mk o i).
Proof.
  induction parts as [|d parts IH]; intros o i; [done|]. cbn [HMAC.write_parts]. unfold HMAC.Write, hash_write_all. cbn [HMAC.inner HMAC.outer write_all].
  unfold hash_write. destruct (Write _ _ d i) as [i'| | | |]; try done. cbn [res_bind]. apply IH.
Qed.

Lemma xor_twice K : HMAC.xor_key (Z.lxor 0x5c 0x36) (HMAC.xor_key 0x5c K) = HMAC.xor_key 0x36 K.
Proof.
  unfold HMAC.xor_key. rewrite map_map. apply map_ext. intros b. by rewrite Z.lxor_assoc, <- (Z.lxor_assoc 0x5c), Z.lxor_nilpotent, Z.lxor_0_l.
Qed.

Lemma xor_bytes x K : in_u 8 x -> byte_list K -> byte_list (HMAC.xor_key x K).
Proof. intros Hx HK. apply Forall_map. eapply Forall_impl; [exact HK|]. intros b Hb. by apply lxor_range. Qed.

(** Message authentication. For any of the hash classes, whatever its buffers
    held, with any key and a message written in any parts, [CHMAC] ends with
    the code of RFC 2104; a key longer than a block is hashed first. *)
Theorem hmac_correct mem mem_outer mem_inner key parts :
  length mem = hash_block T -> length mem_outer = hash_block T -> length mem_inner = hash_block T ->
  byte_list key -> zlen key < 2 ^ 61 -> Forall byte_list parts -> zlen (mjoin parts) < 2 ^ 60 ->
  exists this', (let? this := HMAC.make mem mem_outer mem_inner key in
    let? this := HMAC.write_parts parts this in HMAC.Finalize this) = Ok (hmac_spec key (mjoin parts), this').
Proof.
  intros Hm Ho Hi Hk Hkl Hp Hpl. destruct hash_sizes as [HO HB].
  set (K0 := if decide (length key <= hash_block T)%nat then key else hash_of T key).
  set (K := K0 ++ replicate (hash_block T - length K0) 0).
  assert (byte_list K0 /\ (length K0 <= hash_block T)%nat) as [HK0 HK0l].
  { unfold K0. case_decide; [done|]. destruct (hash_size key) as [Hb Hs]. split; [done|lia]. }
  assert (byte_list K /\ length K = hash_block T) as [HK HKl].
  { unfold K. split; [apply Forall_app; split; [done|by apply Forall_replicate]|rewrite length_app, length_replicate; lia]. }
  assert (forall x parts', in_u 8 x -> Forall byte_list parts' -> zlen (mjoin parts') < 2 ^ 60 -> message (HMAC.xor_key x K :: parts')) as Hmsg.
  { intros x parts' Hx Hp' Hl'. split; [constructor; [by apply xor_bytes|done]|].
    change (mjoin (?y :: parts')) with (y ++ mjoin parts'). rewrite zlen_app.
    assert (zlen (HMAC.xor_key x K) = Z.of_nat (hash_block T)) as -> by (unfold zlen, HMAC.xor_key; by rewrite length_map, HKl). lia. }
  unfold HMAC.make.
  assert ((if zlen key <=? Z.of_nat (hash_block T) then Ok (key ++ replicate (hash_block T - length key) 0)
    else let? hash := hash_once mem key in Ok (hash ++ replicate (hash_block T - OUTPUT_SIZE T) 0)) = Ok K) as ->.
  { unfold K, K0, zlen. destruct (Z.leb_spec (Z.of_nat (length key)) (Z.of_nat (hash_block T))); [by rewrite decide_True by lia|].
    rewrite decide_False by lia. rewrite hash_once_spec by done. cbn [res_bind]. by rewrite (proj2 (hash_size key)). }
  cbn [res_bind]. rewrite xor_twice.
  destruct (hash_correct mem_inner (HMAC.xor_key 0x36 K :: parts) Hi) as (i' & Ei & _); [by apply Hmsg|].
  destruct (hash_correct mem_outer [HMAC.xor_key 0x5c K; hash_of T (mjoin (HMAC.xor_key 0x36 K :: parts))] Ho) as (o' & Eo & _).
  { destruct (hash_size (mjoin (HMAC.xor_key 0x36 K :: parts))) as [Hb Hs]. apply Hmsg; [done|by repeat constructor|].
    change (mjoin [?y]) with (y ++ []). rewrite app_nil_r. unfold zlen. rewrite Hs. lia. }
  unfold hash_write_all in Ei, Eo. cbn [write_all] in Ei, Eo. unfold hash_write.
  destruct (Write _ _ (HMAC.xor_key 0x5c K) (hash_make mem_outer)) as [o| | | |]; try done.
  destruct (Write _ _ (HMAC.xor_key 0x36 K) (hash_make mem_inner)) as [i| | | |]; try done. cbn [res_bind] in *.
  rewrite write_parts_eq. unfold hash_write_all.
  destruct (write_all _ _ parts i) as [i2| | | |]; try done. cbn [res_bind] in *.
  unfold HMAC.Finalize, hash_write. cbn [HMAC.inner HMAC.outer]. rewrite Ei. cbn [res_bind].
  destruct (Write _ _ (hash_of T _) o) as [o2| | | |]; try done. cbn [res_bind] in *. rewrite Eo. cbn [res_bind].
  eexists. unfold hmac_spec. fold K0. fold K. change (mjoin [?x; ?y]) with (x ++ y ++ []).
  change (mjoin (?x :: parts)) with (x ++ mjoin parts). rewrite app_nil_r. reflexivity.
Qed.
End hmac_correct.

Lemma hash_classes_correct_witness :
  let h := CSHA256.make (replicate 64 1) in let h512 := CSHA512.make (replicate 128 2) in let h5 := CSHA1.make (replicate 64 3) in
  let parts := [[97; 98]; []; [99]] in
  (exists h', (let? h := writes (CSHA256.Write true) parts (CSHA256.Reset h) in CSHA256.Finalize true h) = Ok (SHA256_spec (mjoin parts), h')) /\
  (exists h', (let? h := writes (CSHA512.Write true) parts (CSHA512.Reset h512) in CSHA512.Finalize true h) = Ok (SHA512_spec (mjoin parts), h')) /\
  (exists h', (let? h := writes (CSHA1.Write true) parts (CSHA1.Reset h5) in CSHA1.Finalize true h) = Ok (SHA1_spec (mjoin parts), h')) /\
  (exists h', (let? h := writes (CRIPEMD160.Write true) parts (CRIPEMD160.Reset h5) in CRIPEMD160.Finalize true h) = Ok (RIPEMD160_spec (mjoin parts), h')) /\
  (exists h', (let? h := writes (CHash256.Write true) parts (CHash256.Reset h) in CHash256.Finalize true h) = Ok (Hash256 (mjoin parts), h')) /\
  (exists h', (let? h := writes (CHash160.Write true) parts (CHash160.Reset h) in CHash160.Finalize true (replicate 64 4) h) = Ok (Hash160 (mjoin parts), h')).
Proof.
  intros h h512 h5 parts. apply (hash_classes_correct true h h512 h5 (replicate 64 4) parts); [|done..].
  split; [apply (bool_decide_unpack _); vm_compute; reflexivity|vm_compute; reflexivity].
Defined.

(** RFC 4231, the first case. *)
Lemma hmac_correct_witness :
  let key := replicate 20 0x0b in let parts := [[72; 105; 32]; [84; 104; 101; 114; 101]] in
  (exists this', (let? this := HMAC.make (StreamHash0 := SHA256_class false) (replicate 64 1) (replicate 64 2) (replicate 64 3) key in
     let? this := HMAC.write_parts (StreamHash0 := SHA256_class false) parts this in HMAC.Finalize (StreamHash0 := SHA256_class false) this) =
     Ok (hmac_spec (StreamHash0 := SHA256_class false) key (mjoin parts), this')) /\
  hmac_spec (StreamHash0 := SHA256_class false) key (mjoin parts) =
    [0xb0; 0x34; 0x4c; 0x61; 0xd8; 0xdb; 0x38; 0x53; 0x5c; 0xa8; 0xaf; 0xce; 0xaf; 0x0b; 0xf1; 0x2b; 0x88; 0x1d; 0xc2; 0x00; 0xc9; 0x83; 0x3d; 0xa7; 0x26; 0xe9; 0x37; 0x6c; 0x2e; 0x32; 0xcf; 0xf7].
Proof.
  intros key parts. split; [|vm_compute; reflexivity].
  apply (@hmac_correct regs (SHA256_class false) (SHA256_laws false) (replicate 64 1) (replicate 64 2) (replicate 64 3) key parts); try done.
  - apply (bool_decide_unpack _). vm_compute. reflexivity.
  - apply (bool_decide_unpack _). vm_compute. reflexivity.
Defined.
