(* ===== verification/SipHash.v ===== *)
(** SipHash-2-4: [CSipHasher] and [SipHashUint256] of src/sige/src/hash.h and
    hash.cpp, which key the hash tables of the program. *)

From S2P Require Import Prelude Bytes BaseUint UintBytes Uint256 Prevector HashStream.

#[local] Ltac Zify.zify_post_hook ::= Z.to_euclidean_division_equations.

(** ** The code *)

Definition sip_state : Type := Z * Z * Z * Z.

(** [ROTL(x, b)] *)
Definition ROTL64 (x b : Z) : Z := Z.lor (u64 (Z.shiftl x b)) (Z.shiftr x (64 - b)).

Definition SIPROUND (v : sip_state) : sip_state :=
  let '(v0, v1, v2, v3) := v in
  let v0 := u64 (v0 + v1) in let v1 := ROTL64 v1 13 in let v1 := Z.lxor v1 v0 in
  let v0 := ROTL64 v0 32 in
  let v2 := u64 (v2 + v3) in let v3 := ROTL64 v3 16 in let v3 := Z.lxor v3 v2 in
  let v0 := u64 (v0 + v3) in let v3 := ROTL64 v3 21 in let v3 := Z.lxor v3 v0 in
  let v2 := u64 (v2 + v1) in let v1 := ROTL64 v1 17 in let v1 := Z.lxor v1 v2 in
  let v2 := ROTL64 v2 32 in
  (v0, v1, v2, v3).

(** [v3 ^= x], [v0 ^= x], [v2 ^= 0xFF] *)
Definition xor3 (x : Z) (v : sip_state) : sip_state := let '(v0, v1, v2, v3) := v in (v0, v1, v2, Z.lxor v3 x).
Definition xor0 (x : Z) (v : sip_state) : sip_state := let '(v0, v1, v2, v3) := v in (Z.lxor v0 x, v1, v2, v3).
Definition xor2 (x : Z) (v : sip_state) : sip_state := let '(v0, v1, v2, v3) := v in (v0, v1, Z.lxor v2 x, v3).
Definition xor_all (v : sip_state) : Z := let '(v0, v1, v2, v3) := v in Z.lxor (Z.lxor (Z.lxor v0 v1) v2) v3.

Module CSipHasher.
Record t := mk { v : sip_state; tmp : Z; count : Z }.

Definition make (k0 k1 : Z) : t :=
  mk (Z.lxor 0x736f6d6570736575 k0, Z.lxor 0x646f72616e646f6d k1, Z.lxor 0x6c7967656e657261 k0, Z.lxor 0x7465646279746573 k1) 0 0.

(** [count] is an [int]: past its range it is not defined. *)
Definition plus (count n : Z) : res Z := if count + n <? 2 ^ 31 then Ok (count + n) else Undef.

Definition Write64 (data : Z) (this : t) : res t :=
  if negb (count this mod 8 =? 0) then AssertFail
  else
    let s := v this in
    let s := xor3 data s in
    let s := SIPROUND s in
    let s := SIPROUND s in
    let s := xor0 data s in
    let? c := plus (count this) 8 in
    Ok (mk s (tmp this) c).

Fixpoint write_loop (data : bytes) (s : sip_state) (t c : Z) : res (sip_state * Z * Z) :=
  match data with
  | [] => Ok (s, t, c)
  | b :: data =>
      let t := Z.lor t (u64 (Z.shiftl b (8 * (c mod 8)))) in
      let? c := plus c 1 in
      if Z.land c 7 =? 0 then
        let s := xor3 t s in
        let s := SIPROUND s in
        let s := SIPROUND s in
        let s := xor0 t s in
        write_loop data s 0 c
      else write_loop data s t c
  end.

Definition Write (data : bytes) (this : t) : res t :=
  let? (s, t, c) := write_loop data (v this) (tmp this) (count this) in
  Ok (mk s t c).

Definition Finalize (this : t) : Z :=
  let s := v this in
  let t := Z.lor (tmp this) (u64 (Z.shiftl (u64 (count this)) 56)) in
  let s := xor3 t s in
  let s := SIPROUND s in
  let s := SIPROUND s in
  let s := xor0 t s in
  let s := xor2 0xFF s in
  let s := SIPROUND s in
  let s := SIPROUND s in
  let s := SIPROUND s in
  let s := SIPROUND s in
  xor_all s.
End CSipHasher.

Definition SipHashUint256 (k0 k1 : Z) (val : uint256) : Z :=
  let d := GetUint64 val 0 in
  let s := (Z.lxor 0x736f6d6570736575 k0, Z.lxor 0x646f72616e646f6d k1, Z.lxor 0x6c7967656e657261 k0,
            Z.lxor (Z.lxor 0x7465646279746573 k1) d) in
  let s := SIPROUND s in
  let s := SIPROUND s in
  let s := xor0 d s in
  let d := GetUint64 val 1 in
  let s := xor3 d s in
  let s := SIPROUND s in
  let s := SIPROUND s in
  let s := xor0 d s in
  let d := GetUint64 val 2 in
  let s := xor3 d s in
  let s := SIPROUND s in
  let s := SIPROUND s in
  let s := xor0 d s in
  let d := GetUint64 val 3 in
  let s := xor3 d s in
  let s := SIPROUND s in
  let s := SIPROUND s in
  let s := xor0 d s in
  let s := xor3 (u64 (Z.shiftl 4 59)) s in
  let s := SIPROUND s in
  let s := SIPROUND s in
  let s := xor0 (u64 (Z.shiftl 4 59)) s in
  let s := xor2 0xFF s in
  let s := SIPROUND s in
  let s := SIPROUND s in
  let s := SIPROUND s in
  let s := SIPROUND s in
  xor_all s.

(** ** The reference (Aumasson and Bernstein, 2012)

    The message, padded with zeros and its length modulo 256 to whole words,
    goes through [c = 2] rounds a word and [d = 4] rounds at the end. *)

Definition sip_word (s : sip_state) (m : Z) : sip_state := xor0 m (Nat.iter 2 SIPROUND (xor3 m s)).
Definition sip_padded (m : bytes) : bytes := m ++ replicate (7 - length m mod 8) 0 ++ [zlen m mod 256].
Definition siphash (k0 k1 : Z) (m : bytes) : Z :=
  let p := sip_padded m in
  let s := foldl sip_word (CSipHasher.v (CSipHasher.make k0 k1)) (map le_val (blocks 8 (length p / 8) p)) in
  xor_all (Nat.iter 4 SIPROUND (xor2 0xFF s)).

(** ** The class computes it *)

Section siphash.
Context (k0 k1 : Z).

Let iv := CSipHasher.v (CSipHasher.make k0 k1).
Let absorb (s : sip_state) (c : bytes) : sip_state := sip_word s (le_val c).

(** The object after the bytes [m]. *)
Record sip_holds (m : bytes) (h : CSipHasher.t) : Prop := {
  sip_v : CSipHasher.v h = foldl absorb iv (blocks 8 (length m / 8) m);
  sip_tmp : CSipHasher.tmp h = le_val (drop (length m / 8 * 8) m);
  sip_count : CSipHasher.count h = zlen m;
  sip_bytes : byte_list m;
}.

Lemma sip_init : sip_holds [] (CSipHasher.make k0 k1).
Proof. split; try done. apply Forall_nil_2. Qed.

Lemma sip_dvd : (Z.of_nat 8 | 2 ^ 64).
Proof. by exists (2 ^ 61). Qed.

Lemma rest_length (m : bytes) : length (drop (length m / 8 * 8) m) = (length m mod 8)%nat.
Proof. rewrite length_drop. pose proof (Nat.div_mod_eq (length m) 8). lia. Qed.

Lemma sip_byte m s t c b : sip_holds m (CSipHasher.mk s t c) -> in_u 8 b -> zlen m + 1 < 2 ^ 31 ->
  exists s' t' c', CSipHasher.write_loop [b] s t c = Ok (s', t', c') /\ sip_holds (m ++ [b]) (CSipHasher.mk s' t' c').
Proof.
  intros [Hv Ht Hc Hm] Hb Hl. cbn [CSipHasher.v CSipHasher.tmp CSipHasher.count] in *. cbn [CSipHasher.write_loop].
  assert (length m mod 8 < 8)%nat as Hr by (by apply Nat.mod_upper_bound).
  assert (c mod 8 = Z.of_nat (length m mod 8)) as Hc8 by (rewrite Hc; unfold zlen; by rewrite Nat2Z.inj_mod).
  assert (byte_list (m ++ [b])) as Hmb by (apply Forall_app; split; [done|by constructor]).
  assert (Z.lor t (u64 (Z.shiftl b (8 * (c mod 8)))) = le_val (drop (length m / 8 * 8) m ++ [b])) as Et.
  { rewrite Hc8, le_val_app, rest_length. cbn [le_val]. rewrite Z.shiftl_mul_pow2 by lia.
    set (k := 8 * Z.of_nat (length m mod 8)). assert (0 <= k <= 56) as Hk by lia.
    assert (in_u k t) as Htk.
    { rewrite Ht. pose proof (le_val_range (drop (length m / 8 * 8) m) (Forall_drop _ _ _ Hm)) as R. by rewrite rest_length in R. }
    rewrite wrap_small. 2:{ unfold in_u in *. split; [lia|]. apply Z.lt_le_trans with (2 ^ 8 * 2 ^ k); [nia|]. rewrite <- Z.pow_add_r by lia. apply Z.pow_le_mono_r; lia. }
    rewrite (proj1 (lor_byte t b k ltac:(lia) Htk Hb)). rewrite Ht. lia. }
  rewrite Et. unfold CSipHasher.plus. rewrite (proj2 (Z.ltb_lt (c + 1) (2 ^ 31))) by lia. cbn [res_bind].
  rewrite (land_ones_low _ 7 3) by done. change (2 ^ 3) with 8.
  destruct (Z.eqb_spec ((c + 1) mod 8) 0) as [Hz|Hz].
  - assert (length m mod 8 + length [b] = 8)%nat as Hd by (cbn [length]; lia).
    destruct (rest_block 8 absorb iv ltac:(lia) sip_dvd m [b] Hd) as [Er _]. do 3 eexists. split; [reflexivity|].
    split; cbn [CSipHasher.v CSipHasher.tmp CSipHasher.count]; [|by rewrite Er|rewrite Hc, zlen_app; done|done].
    rewrite (absorbed_block 8 absorb iv ltac:(lia) sip_dvd m [b] Hd), <- Hv. done.
  - assert (length m mod 8 + length [b] < 8)%nat as Hd by (cbn [length]; lia).
    destruct (rest_tail 8 absorb iv ltac:(lia) sip_dvd m [b] Hd) as (Ea & Er & _). do 3 eexists. split; [reflexivity|].
    split; cbn [CSipHasher.v CSipHasher.tmp CSipHasher.count]; [by rewrite Ea|by rewrite Er|rewrite Hc, zlen_app; done|done].
Qed.

Lemma write_loop_app a b s t c : CSipHasher.write_loop (a ++ b) s t c =
  let? (s, t, c) := CSipHasher.write_loop a s t c in CSipHasher.write_loop b s t c.
Proof.
  revert s t c. induction a as [|x a IH]; intros s t c; [done|]. cbn [app CSipHasher.write_loop].
  destruct (CSipHasher.plus c 1); try done. cbn [res_bind]. case_match; apply IH.
Qed.

Lemma sip_write d : forall m h, sip_holds m h -> byte_list d -> zlen (m ++ d) < 2 ^ 31 ->
  exists h', CSipHasher.Write d h = Ok h' /\ sip_holds (m ++ d) h'.
Proof.
  unfold CSipHasher.Write. induction d as [|b d IH]; intros m [s t c] H Hd Hl.
  - exists (CSipHasher.mk s t c). rewrite app_nil_r. done.
  - apply Forall_cons in Hd as [Hb Hd]. rewrite zlen_app in Hl. change (zlen (b :: d)) with (Z.of_nat (S (length d))) in Hl.
    destruct (sip_byte m s t c b H Hb ltac:(lia)) as (s1 & t1 & c1 & E & H1).
    change (b :: d) with ([b] ++ d). rewrite write_loop_app. cbn [CSipHasher.v CSipHasher.tmp CSipHasher.count]. rewrite E. cbn [res_bind].
    destruct (IH (m ++ [b]) (CSipHasher.mk s1 t1 c1) H1 Hd) as (h' & E' & H'); [rewrite !zlen_app; unfold zlen in *; cbn [length]; lia|].
    exists h'. split; [exact E'|]. by rewrite <- app_assoc in H'.
Qed.

Lemma sip_write64 w m h : sip_holds m h -> (length m mod 8 = 0)%nat -> in_u 64 w -> zlen m + 8 < 2 ^ 31 ->
  exists h', CSipHasher.Write64 w h = Ok h' /\ sip_holds (m ++ le_bytes 8 w) h'.
Proof.
  intros [Hv Ht Hc Hm] Hz Hw Hl. unfold CSipHasher.Write64, CSipHasher.plus.
  assert (CSipHasher.count h mod 8 = 0) as E8.
  { rewrite Hc. unfold zlen. change 8 with (Z.of_nat 8). rewrite <- Nat2Z.inj_mod. by rewrite Hz. }
  rewrite E8. cbn [Z.eqb negb]. rewrite (proj2 (Z.ltb_lt (CSipHasher.count h + 8) (2 ^ 31))) by lia. cbn [res_bind].
  assert (length m mod 8 + length (le_bytes 8 w) = 8)%nat as Hd by (rewrite length_le_bytes; lia).
  destruct (rest_block 8 absorb iv ltac:(lia) sip_dvd m (le_bytes 8 w) Hd) as [Er _].
  assert (drop (length m / 8 * 8) m = []) as E0 by (apply nil_length_inv; by rewrite rest_length).
  eexists. split; [reflexivity|]. split; cbn [CSipHasher.v CSipHasher.tmp CSipHasher.count].
  - rewrite (absorbed_block 8 absorb iv ltac:(lia) sip_dvd m (le_bytes 8 w) Hd), <- Hv, E0. unfold absorb. cbn [app].
    by rewrite le_val_small.
  - by rewrite Er, Ht, E0.
  - rewrite Hc, zlen_app. unfold zlen. by rewrite length_le_bytes.
  - apply Forall_app. split; [done|apply le_bytes_bytes].
Qed.

Lemma sip_finalize m h : sip_holds m h -> zlen m < 2 ^ 31 -> CSipHasher.Finalize h = siphash k0 k1 m.
Proof.
  intros [Hv Ht Hc Hm] Hl. unfold CSipHasher.Finalize, siphash, sip_padded. set (d := replicate _ _ ++ _).
  assert (length m mod 8 < 8)%nat as Hr by (by apply Nat.mod_upper_bound).
  assert (length m mod 8 + length d = 8)%nat as Hd by (unfold d; rewrite length_app, length_replicate; cbn [length]; lia).
  pose proof (absorbed_block 8 absorb iv ltac:(lia) sip_dvd m d Hd) as Ea. rewrite <- Hv in Ea.
  assert (forall l (s : sip_state), foldl sip_word s (map le_val l) = foldl absorb s l) as Emap
    by (induction l as [|c l IH]; intros s; [done|apply IH]).
  rewrite Emap. fold iv. rewrite Ea. unfold absorb.
  assert (Z.lor (CSipHasher.tmp h) (u64 (Z.shiftl (u64 (CSipHasher.count h)) 56)) = le_val (drop (length m / 8 * 8) m ++ d)) as ->; [|reflexivity].
  rewrite Hc, (wrap_small 64 (zlen m)) by (unfold in_u, zlen in *; lia). rewrite Z.shiftl_mul_pow2 by done.
  assert (u64 (zlen m * 2 ^ 56) = zlen m mod 256 * 2 ^ 56) as -> by (unfold wrap; change (2 ^ 64) with (256 * 2 ^ 56); by rewrite Z.mul_mod_distr_r by done).
  assert (in_u 56 (CSipHasher.tmp h)) as Htk.
  { rewrite Ht. pose proof (le_val_range (drop (length m / 8 * 8) m) (Forall_drop _ _ _ Hm)) as R. rewrite rest_length in R.
    eapply in_u_mono; [|exact R]. lia. }
  rewrite (proj1 (lor_byte (CSipHasher.tmp h) (zlen m mod 256) 56 ltac:(done) Htk ltac:(unfold in_u; lia))).
  rewrite Ht. unfold d. rewrite app_assoc, le_val_app, !length_app, rest_length, length_replicate.
  assert (le_val (drop (length m / 8 * 8) m ++ replicate (7 - length m mod 8) 0) = le_val (drop (length m / 8 * 8) m)) as ->.
  { rewrite le_val_app. assert (forall n, le_val (replicate n 0) = 0) as -> by (induction n as [|n IHn]; [done|cbn [replicate le_val]; by rewrite IHn]). lia. }
  replace (8 * Z.of_nat (length m mod 8 + (7 - length m mod 8))) with 56 by lia. cbn [le_val]. lia.
Qed.
End siphash.

(** What is written: bytes, or a word. *)
Inductive sip_part := SBytes (d : bytes) | SWord (w : Z).

Definition part_bytes (p : sip_part) : bytes := match p with SBytes d => d | SWord w => le_bytes 8 w end.
Definition part_ok (p : sip_part) : Prop := match p with SBytes d => byte_list d | SWord w => in_u 64 w end.

Fixpoint sip_writes (parts : list sip_part) (h : CSipHasher.t) : res CSipHasher.t :=
  match parts with
  | [] => Ok h
  | p :: parts =>
      let? h := match p with SBytes d => CSipHasher.Write d h | SWord w => CSipHasher.Write64 w h end in
      sip_writes parts h
  end.

(** Words come after a multiple of eight bytes ([n] bytes are there). *)
Fixpoint words_aligned (n : nat) (parts : list sip_part) : Prop :=
  match parts with
  | [] => True
  | p :: parts => (if p is SWord _ then n mod 8 = 0 else True)%nat /\ words_aligned (n + length (part_bytes p)) parts
  end.

Lemma sip_writes_spec k0 k1 parts : forall m h, sip_holds k0 k1 m h -> Forall part_ok parts -> words_aligned (length m) parts ->
  zlen (m ++ mjoin (map part_bytes parts)) < 2 ^ 31 ->
  exists h', sip_writes parts h = Ok h' /\ sip_holds k0 k1 (m ++ mjoin (map part_bytes parts)) h'.
Proof.
  induction parts as [|p parts IH]; intros m h H Hp Ha Hl.
  - exists h. split; [done|]. change (mjoin (map part_bytes [])) with (@nil Z). by rewrite app_nil_r.
  - apply Forall_cons in Hp as [Hp Hps]. destruct Ha as [Ha Has]. cbn [map] in Hl |- *.
    change (mjoin (?y :: ?k)) with (y ++ mjoin k) in Hl |- *. rewrite app_assoc in Hl |- *.
    assert (zlen (m ++ part_bytes p) < 2 ^ 31) as Hl1 by (rewrite zlen_app in Hl; pose proof (zlen_nonneg (mjoin (map part_bytes parts))); lia).
    assert (exists h1, match p with SBytes d => CSipHasher.Write d h | SWord w => CSipHasher.Write64 w h end = Ok h1 /\
      sip_holds k0 k1 (m ++ part_bytes p) h1) as (h1 & E1 & H1).
    { destruct p as [d|w]; [by apply sip_write|]. apply sip_write64; try done.
      rewrite zlen_app in Hl1. unfold part_bytes, zlen in *. rewrite length_le_bytes in Hl1. lia. }
    cbn [sip_writes]. rewrite E1. cbn [res_bind]. apply IH; [done..| |done]. by rewrite length_app.
Qed.

Lemma or_byte acc c k n : 0 <= k -> k + 8 = n -> in_u k acc -> in_u 8 c ->
  Z.lor acc (Z.shiftl c k) = acc + c * 2 ^ k /\ in_u n (acc + c * 2 ^ k).
Proof. intros Hk <- Ha Hc. rewrite Z.shiftl_mul_pow2 by done. by apply lor_byte. Qed.

Lemma GetUint64_val x pos : wf256 x -> (pos < 4)%nat ->
  GetUint64 x pos = le_val (take 8 (drop (pos * 8) (pn_bytes x))) /\ in_u 64 (GetUint64 x pos).
Proof.
  intros Hx Hpos. unfold GetUint64.
  assert (exists b0 b1 b2 b3 b4 b5 b6 b7 r, drop (pos * 8) (pn_bytes x) = [b0; b1; b2; b3; b4; b5; b6; b7] ++ r) as
    (b0 & b1 & b2 & b3 & b4 & b5 & b6 & b7 & r & E).
  { assert (8 <= length (drop (pos * 8) (pn_bytes x)))%nat as Hl by (rewrite length_drop, length_pn_bytes; destruct Hx as [-> _]; unfold WIDTH256; lia).
    destruct (drop (pos * 8) (pn_bytes x)) as [|b0 [|b1 [|b2 [|b3 [|b4 [|b5 [|b6 [|b7 r]]]]]]]]; try (simpl in Hl; lia).
    by exists b0, b1, b2, b3, b4, b5, b6, b7, r. }
  assert (byte_list (drop (pos * 8) (pn_bytes x))) as Hb by apply Forall_drop, pn_bytes_bytes.
  rewrite E in Hb |- *. apply Forall_app in Hb as [Hb _].
  repeat match goal with H : Forall _ (_ :: _) |- _ => apply Forall_cons in H as [? H] end.
  change (([b0; b1; b2; b3; b4; b5; b6; b7] ++ r) !!! 0%nat) with b0. change (([b0; b1; b2; b3; b4; b5; b6; b7] ++ r) !!! 1%nat) with b1.
  change (([b0; b1; b2; b3; b4; b5; b6; b7] ++ r) !!! 2%nat) with b2. change (([b0; b1; b2; b3; b4; b5; b6; b7] ++ r) !!! 3%nat) with b3.
  change (([b0; b1; b2; b3; b4; b5; b6; b7] ++ r) !!! 4%nat) with b4. change (([b0; b1; b2; b3; b4; b5; b6; b7] ++ r) !!! 5%nat) with b5.
  change (([b0; b1; b2; b3; b4; b5; b6; b7] ++ r) !!! 6%nat) with b6. change (([b0; b1; b2; b3; b4; b5; b6; b7] ++ r) !!! 7%nat) with b7.
  change (take 8 ([b0; b1; b2; b3; b4; b5; b6; b7] ++ r)) with [b0; b1; b2; b3; b4; b5; b6; b7].
  destruct (or_byte b0 b1 8 16) as [-> R1]; [done..|]. destruct (or_byte _ b2 16 24 ltac:(done) eq_refl R1) as [-> R2]; [done|].
  destruct (or_byte _ b3 24 32 ltac:(done) eq_refl R2) as [-> R3]; [done|]. destruct (or_byte _ b4 32 40 ltac:(done) eq_refl R3) as [-> R4]; [done|].
  destruct (or_byte _ b5 40 48 ltac:(done) eq_refl R4) as [-> R5]; [done|]. destruct (or_byte _ b6 48 56 ltac:(done) eq_refl R5) as [-> R6]; [done|].
  destruct (or_byte _ b7 56 64 ltac:(done) eq_refl R6) as [-> R7]; [done|]. split; [|exact R7]. cbn [le_val]. lia.
Qed.

(** The unrolled function is four writes. *)
Lemma SipHashUint256_unrolled k0 k1 x :
  SipHashUint256 k0 k1 x = xor_all (Nat.iter 4 SIPROUND (xor2 0xFF
    (foldl sip_word (CSipHasher.v (CSipHasher.make k0 k1))
      [GetUint64 x 0; GetUint64 x 1; GetUint64 x 2; GetUint64 x 3; u64 (Z.shiftl 4 59)]))).
Proof.
  unfold SipHashUint256, sip_word. cbn [foldl Nat.iter nat_rect].
  change (SIPROUND (_, _, _, _)) with (SIPROUND (xor3 (GetUint64 x 0) (CSipHasher.v (CSipHasher.make k0 k1)))).
  generalize SIPROUND as R, (CSipHasher.v (CSipHasher.make k0 k1)) as s. reflexivity.
Qed.

Lemma Write64_word w s c : c mod 8 = 0 -> c + 8 < 2 ^ 31 ->
  CSipHasher.Write64 w (CSipHasher.mk s 0 c) = Ok (CSipHasher.mk (sip_word s w) 0 (c + 8)).
Proof.
  intros E Hc. unfold CSipHasher.Write64, CSipHasher.plus. cbn [CSipHasher.count CSipHasher.v CSipHasher.tmp].
  rewrite E. cbn [Z.eqb negb]. by rewrite (proj2 (Z.ltb_lt _ _) Hc).
Qed.

Lemma Finalize_words s : CSipHasher.Finalize (CSipHasher.mk s 0 32) = xor_all (Nat.iter 4 SIPROUND (xor2 0xFF (sip_word s (u64 (Z.shiftl 4 59))))).
Proof.
  unfold CSipHasher.Finalize, sip_word. cbn [CSipHasher.v CSipHasher.tmp CSipHasher.count Nat.iter nat_rect].
  change (Z.lor 0 (u64 (Z.shiftl (u64 32) 56))) with (u64 (Z.shiftl 4 59)). generalize SIPROUND as R. reflexivity.
Qed.

Lemma SipHashUint256_words k0 k1 x :
  (let? h := sip_writes [SWord (GetUint64 x 0); SWord (GetUint64 x 1); SWord (GetUint64 x 2); SWord (GetUint64 x 3)] (CSipHasher.make k0 k1) in
   Ok (CSipHasher.Finalize h)) = Ok (SipHashUint256 k0 k1 x).
Proof.
  rewrite SipHashUint256_unrolled. unfold sip_writes, CSipHasher.make. cbn [CSipHasher.v foldl].
  do 4 (rewrite Write64_word by done; cbn [res_bind]). change (0 + 8 + 8 + 8 + 8) with 32. by rewrite Finalize_words.
Qed.

Lemma ok_inj (a b : Z) : Ok a = Ok b -> a = b.
Proof. by intros [= ->]. Qed.

(** SipHash. A [CSipHasher] fed a message in any parts, byte strings and words
    (these after a multiple of eight bytes, as its assertion asks), ends in
    SipHash-2-4 of the whole message, and no part of it is undefined below
    2^31 bytes; [SipHashUint256], which is unrolled, is SipHash-2-4 of the 32
    bytes of its argument. *)
Theorem siphash_correct k0 k1 parts x :
  Forall part_ok parts -> words_aligned 0 parts -> zlen (mjoin (map part_bytes parts)) < 2 ^ 31 -> wf256 x ->
  (let? h := sip_writes parts (CSipHasher.make k0 k1) in Ok (CSipHasher.Finalize h)) = Ok (siphash k0 k1 (mjoin (map part_bytes parts))) /\
  SipHashUint256 k0 k1 x = siphash k0 k1 (pn_bytes x).
Proof.
  assert (forall parts, Forall part_ok parts -> words_aligned 0 parts -> zlen (mjoin (map part_bytes parts)) < 2 ^ 31 ->
    (let? h := sip_writes parts (CSipHasher.make k0 k1) in Ok (CSipHasher.Finalize h)) = Ok (siphash k0 k1 (mjoin (map part_bytes parts)))) as Hall.
  { intros ps Hp Ha Hl. destruct (sip_writes_spec k0 k1 ps [] _ (sip_init k0 k1) Hp Ha Hl) as (h & -> & H). cbn [res_bind app] in *.
    by rewrite (sip_finalize k0 k1 _ h H Hl). }
  intros Hp Ha Hl Hx. split; [by apply Hall|].
  assert (forall pos, (pos < 4)%nat -> part_ok (SWord (GetUint64 x pos)) /\ le_bytes 8 (GetUint64 x pos) = take 8 (drop (pos * 8) (pn_bytes x))) as Hw.
  { intros pos Hpos. destruct (GetUint64_val x pos Hx Hpos) as [E R]. split; [exact R|]. rewrite E.
    assert (length (take 8 (drop (pos * 8) (pn_bytes x))) = 8%nat) as E8.
    { rewrite length_take, length_drop, length_pn_bytes. destruct Hx as [-> _]. unfold WIDTH256. lia. }
    rewrite <- E8 at 1. apply le_bytes_val, Forall_take, Forall_drop, pn_bytes_bytes. }
  destruct (Hw 0%nat) as [P0 E0], (Hw 1%nat) as [P1 E1], (Hw 2%nat) as [P2 E2], (Hw 3%nat) as [P3 E3]; [lia..|].
  assert (mjoin (map part_bytes [SWord (GetUint64 x 0); SWord (GetUint64 x 1); SWord (GetUint64 x 2); SWord (GetUint64 x 3)]) = pn_bytes x) as E.
  { change (mjoin _) with (le_bytes 8 (GetUint64 x 0) ++ le_bytes 8 (GetUint64 x 1) ++ le_bytes 8 (GetUint64 x 2) ++ le_bytes 8 (GetUint64 x 3) ++ []).
    rewrite E0, E1, E2, E3, app_nil_r. cbn [Nat.mul Nat.add].
    assert (length (pn_bytes x) = 32%nat) as Hl32 by (rewrite length_pn_bytes; by destruct Hx as [-> _]).
    rewrite <- (take_drop 8 (pn_bytes x)) at 5. f_equal. rewrite <- (take_drop 8 (drop 8 (pn_bytes x))) at 2. rewrite drop_drop. f_equal.
    rewrite <- (take_drop 8 (drop (8 + 8) (pn_bytes x))), drop_drop. f_equal. apply take_ge. rewrite length_drop, Hl32. simpl. lia. }
  apply ok_inj.
  rewrite <- SipHashUint256_words, <- E. apply Hall.
  - apply Forall_cons; split; [exact P0|]. apply Forall_cons; split; [exact P1|]. apply Forall_cons; split; [exact P2|].
    apply Forall_cons; split; [exact P3|apply Forall_nil_2].
  - cbn [words_aligned part_bytes]. rewrite !length_le_bytes. by repeat split.
  - rewrite E. unfold zlen. rewrite length_pn_bytes. by destruct Hx as [-> _].
Qed.

(** The vectors of src/test/hash_tests.cpp. *)
Definition sip_k0 : Z := 0x0706050403020100.
Definition sip_k1 : Z := 0x0F0E0D0C0B0A0908.
Definition sip_parts : list sip_part := [SBytes (map Z.of_nat (seq 0 8)); SWord 0x0F0E0D0C0B0A0908; SBytes [16; 17]].
Definition sip_uint : uint256 := map (fun i => 0x03020100 + Z.of_nat i * 0x04040404) (seq 0 8).

Lemma siphash_correct_witness :
  (let? h := sip_writes sip_parts (CSipHasher.make sip_k0 sip_k1) in Ok (CSipHasher.Finalize h)) = Ok 0x4bc1b3f0968dd39c /\
  SipHashUint256 sip_k0 sip_k1 sip_uint = 0x7127512f72f27cce.
Proof.
  destruct (siphash_correct sip_k0 sip_k1 sip_parts sip_uint) as [E1 E2].
  - repeat constructor; done.
  - by repeat split.
  - done.
  - by split; [|repeat constructor].
  - split; [rewrite E1|rewrite E2]; vm_compute; reflexivity.
Defined.

(** The order of the writes of the test. *)
Example sip_vectors :
  map (fun n => siphash sip_k0 sip_k1 (map Z.of_nat (seq 0 n))) [0; 1; 2; 8; 16; 27; 63]%nat =
  [0x726fdb47dd0e0e31; 0x74f839c593dc67fd; 0x0d6c8009d9a94f5a; 0x93f5f5799a932462; 0x3f2acc7f57c29bdb; 0x2f2e6163076bcfad; 0x958a324ceb064572].
Proof. by vm_compute. Qed.
