(* ===== verification/CheckQueue.v ===== *)
(** The queue of script checks: [CCheckQueue] of src/sige/src/checkqueue.h.

    A step is what a thread does between two operations that other threads can
    see: a section under the mutex, one check, or a wake-up without a
    notification, which Boost's condition variables allow.  Thread 0 is the
    master, the only one that adds checks and waits on [condMaster]; the others
    run [Thread].  Interruption of the workers at shutdown is not modelled. *)

From S2P Require Import Prelude Prevector.

Module CCheckQueue.

Record t (T : Type) := mk {
  queue : list T;
  nIdle : Z;
  nTotal : Z;
  fAllOk : bool;
  nTodo : Z;
  fQuit : bool;
  nBatchSize : Z;
}.
Arguments mk {T}. Arguments queue {T}. Arguments nIdle {T}. Arguments nTotal {T}. Arguments fAllOk {T}. Arguments nTodo {T}.
Arguments fQuit {T}. Arguments nBatchSize {T}.

(** Where a thread is: outside of the loop, with what it returned last; before
    the lock, with the checks it has done; waiting, or woken and before the
    lock; or at its checks. *)
Inductive thread (T : Type) :=
  | Outside (fRet : option bool)
  | Running (nNow : Z) (fOk : bool)
  | Asleep
  | Woken
  | Working (nNow : Z) (vChecks : list T) (fOk : bool).
Arguments Outside {T}. Arguments Running {T}. Arguments Asleep {T}. Arguments Woken {T}. Arguments Working {T}.

Section queue.
Context {T : Type} (run : T -> bool).

Definition make (nBatchSizeIn : Z) : t T := mk [] 0 0 true 0 false nBatchSizeIn.

(** *** Under the lock *)

(** The clean-up of the previous turn, and whether the master is notified. *)
Definition clean_up (fMaster : bool) (nNow : Z) (fOk : bool) (s : t T) : t T * bool :=
  if negb (nNow =? 0) then
    let nTodo := u32 (nTodo s - nNow) in
    (mk (queue s) (nIdle s) (nTotal s) (fAllOk s && fOk) nTodo (fQuit s) (nBatchSize s), (nTodo =? 0) && negb fMaster)
  else (mk (queue s) (nIdle s) (i32 (nTotal s + 1)) (fAllOk s) (nTodo s) (fQuit s) (nBatchSize s), false).

(** [n] jobs go from the end of the queue to the batch. *)
Fixpoint swap_jobs (n : nat) (queue vChecks : list T) : res (list T * list T) :=
  match n with
  | O => Ok (vChecks, queue)
  | S n => match last queue with
           | None => Undef
           | Some c => swap_jobs n (take (length queue - 1) queue) (vChecks ++ [c])
           end
  end.

(** From the test of the inner loop: the thread returns, waits, or takes a batch. *)
Definition attempt (fMaster : bool) (s : t T) : res (thread T * t T) :=
  if bool_decide (queue s = []) then
    if (fMaster || fQuit s) && (nTodo s =? 0) then
      Ok (Outside (Some (fAllOk s)),
          mk (queue s) (nIdle s) (i32 (nTotal s - 1)) (if fMaster then true else fAllOk s) (nTodo s) (fQuit s) (nBatchSize s))
    else Ok (Asleep, mk (queue s) (i32 (nIdle s + 1)) (nTotal s) (fAllOk s) (nTodo s) (fQuit s) (nBatchSize s))
  else
    let d := u32 (i32 (nTotal s + nIdle s + 1)) in
    if d =? 0 then Undef
    else
      let nNow := Z.max 1 (Z.min (nBatchSize s) (u32 (zlen (queue s)) / d)) in
      let? (vChecks, queue) := swap_jobs (Z.to_nat nNow) (queue s) [] in
      Ok (Working nNow vChecks (fAllOk s), mk queue (nIdle s) (nTotal s) (fAllOk s) (nTodo s) (fQuit s) (nBatchSize s)).

(** [nIdle--] after [cond.wait]. *)
Definition awake (s : t T) : t T := mk (queue s) (i32 (nIdle s - 1)) (nTotal s) (fAllOk s) (nTodo s) (fQuit s) (nBatchSize s).

Definition Add (vChecks : list T) (s : t T) : t T :=
  mk (queue s ++ vChecks) (nIdle s) (nTotal s) (fAllOk s) (u32 (nTodo s + zlen vChecks)) (fQuit s) (nBatchSize s).

Definition IsIdle (s : t T) : bool := (nTotal s =? nIdle s) && (nTodo s =? 0) && eqb (fAllOk s) true.

(** *** Threads *)

Record system := mk_system { shared : t T; threads : list (thread T) }.

Definition wake (x : thread T) : thread T := match x with Asleep => Woken | x => x end.
Definition outside (x : thread T) : bool := match x with Outside _ => true | _ => false end.

(** [condMaster.notify_one()], where only the master can wait. *)
Definition notify_master (notify : bool) (ts : list (thread T)) : list (thread T) := if notify then alter wake 0%nat ts else ts.

(** [condWorker.notify_one()] and [condWorker.notify_all()]. *)
Inductive notified (n : nat) (ts : list (thread T)) : list (thread T) -> Prop :=
  | notify_none : n = 0%nat -> notified n ts ts
  | notify_nobody : n = 1%nat -> (forall i, ts !! S i <> Some Asleep) -> notified n ts ts
  | notify_one i : n = 1%nat -> ts !! S i = Some Asleep -> notified n ts (<[S i := Woken]> ts)
  | notify_all m ws : (1 < n)%nat -> ts = m :: ws -> notified n ts (m :: map wake ws).

Inductive event := EAdd (vChecks : list T) | EWait | EStart (i : nat) | ELock (i : nat) | ECheck (i : nat) | EUnlock (i : nat) | ESpurious (i : nat).

(** The master adds fewer than [2^32] checks before it waits. *)
Inductive step : event -> system -> system -> Prop :=
  | step_add l s ts ts' r : ts !! 0%nat = Some (Outside r) -> nTodo s + zlen l < 2 ^ 32 -> notified (length l) ts ts' ->
      step (EAdd l) (mk_system s ts) (mk_system (Add l s) ts')
  | step_wait s ts r : ts !! 0%nat = Some (Outside r) -> step EWait (mk_system s ts) (mk_system s (<[0%nat := Running 0 true]> ts))
  | step_start i s ts r : ts !! S i = Some (Outside r) -> step (EStart (S i)) (mk_system s ts) (mk_system s (<[S i := Running 0 true]> ts))
  | step_lock i s ts nNow fOk s1 notify x s' : ts !! i = Some (Running nNow fOk) ->
      clean_up (i =? 0)%nat nNow fOk s = (s1, notify) -> attempt (i =? 0)%nat s1 = Ok (x, s') ->
      step (ELock i) (mk_system s ts) (mk_system s' (notify_master notify (<[i := x]> ts)))
  | step_relock i s ts x s' : ts !! i = Some Woken -> attempt (i =? 0)%nat (awake s) = Ok (x, s') ->
      step (ELock i) (mk_system s ts) (mk_system s' (<[i := x]> ts))
  | step_check i s ts nNow c l (fOk : bool) : ts !! i = Some (Working nNow (c :: l) fOk) ->
      step (ECheck i) (mk_system s ts) (mk_system s (<[i := Working nNow l (if fOk then run c else fOk)]> ts))
  | step_unlock i s ts nNow fOk : ts !! i = Some (Working nNow [] fOk) ->
      step (EUnlock i) (mk_system s ts) (mk_system s (<[i := Running nNow fOk]> ts))
  | step_spurious i s ts : ts !! i = Some Asleep -> step (ESpurious i) (mk_system s ts) (mk_system s (<[i := Woken]> ts)).

Definition initial (nBatch : Z) (workers : nat) : system := mk_system (make nBatch) (replicate (S workers) (Outside None)).

Definition spurious (e : event) : bool := match e with ESpurious _ => true | _ => false end.
Definition in_wait (s : system) : bool := match threads s !! 0%nat with Some x => negb (outside x) | None => false end.
End queue.
Arguments system : clear implicits.
Arguments event : clear implicits.
End CCheckQueue.

Import CCheckQueue.

(** ** The invariant *)

Section proofs.
Context {T : Type} (run : T -> bool).

Implicit Types (s : t T) (x : thread T) (ts : list (thread T)).

Definition in_loop x : Z := match x with Outside _ => 0 | Running n _ => if n =? 0 then 0 else 1 | _ => 1 end.
Definition sleeping x : Z := match x with Asleep | Woken => 1 | _ => 0 end.
Definition pending x : Z := match x with Running n _ | Working n _ _ => n | _ => 0 end.
Definition failing (l : list T) : Z := zlen (filter (fun c => run c = false) l).
Definition doubt x : Z :=
  match x with Running _ ok => Z.b2z (negb ok) | Working _ l ok => Z.b2z (negb ok) + failing l | _ => 0 end.

(** What a thread may still do, for the bound on the steps of a wait. *)
Definition weight x : Z :=
  match x with Outside None => 4 | Outside (Some _) => 0 | Running _ _ => 3 | Asleep => 0 | Woken => 1 | Working _ l _ => 4 + zlen l end.

Definition total (f : thread T -> Z) ts : Z := foldr (fun x z => f x + z) 0 ts.

Lemma total_cons f x ts : total f (x :: ts) = f x + total f ts.
Proof. done. Qed.

Lemma total_insert f ts i x y : ts !! i = Some x -> total f (<[i := y]> ts) = total f ts - f x + f y.
Proof.
  revert i. induction ts as [|z ts IH]; intros [|i] Hi; [done|done| |]; cbn in Hi.
  - injection Hi as ->. change (<[0%nat := y]> (x :: ts)) with (y :: ts). rewrite !total_cons. lia.
  - change (<[S i := y]> (z :: ts)) with (z :: <[i := y]> ts). rewrite !total_cons, (IH i Hi). lia.
Qed.

Lemma total_nonneg f ts : Forall (fun x => 0 <= f x) ts -> 0 <= total f ts.
Proof. induction 1; rewrite ?total_cons; [done|lia]. Qed.

Lemma total_lookup f ts i x : Forall (fun x => 0 <= f x) ts -> ts !! i = Some x -> f x <= total f ts.
Proof.
  intros H. revert i. induction H as [|y ts Hy H IH]; intros [|i] Hi; [done|done| |]; cbn in Hi; rewrite total_cons.
  - injection Hi as ->. pose proof (total_nonneg _ _ H). lia.
  - specialize (IH i Hi). lia.
Qed.

Lemma total_positive f ts : 0 < total f ts -> exists i x, ts !! i = Some x /\ 0 < f x.
Proof.
  induction ts as [|y ts IH]; [done|]. rewrite total_cons. intros H. destruct (decide (0 < f y)); [by exists 0%nat, y|].
  destruct IH as (i & x & Hi & Hx); [lia|]. by exists (S i), x.
Qed.

Lemma total_wake f ts : (forall x, f (wake x) = f x) -> total f (map wake ts) = total f ts.
Proof. intros H. induction ts as [|x ts IH]; [done|]. cbn [map]. by rewrite !total_cons, H, IH. Qed.

Lemma total_le f g ts : Forall (fun x => f x <= g x) ts -> total f ts <= total g ts.
Proof. induction 1; rewrite ?total_cons; [done|lia]. Qed.

Lemma failing_app l m : failing (l ++ m) = failing l + failing m.
Proof. unfold failing, zlen. rewrite filter_app, length_app. lia. Qed.
Lemma failing_cons c l : failing (c :: l) = Z.b2z (negb (run c)) + failing l.
Proof. unfold failing, zlen. rewrite filter_cons. case_decide as E; [rewrite E; cbn; lia|]. apply not_false_is_true in E. rewrite E. cbn. lia. Qed.
Lemma failing_nonneg l : 0 <= failing l.
Proof. unfold failing, zlen. lia. Qed.
Lemma failing_zero l : failing l = 0 <-> forallb run l = true.
Proof.
  induction l as [|c l IH]; [done|]. rewrite failing_cons. cbn [forallb]. pose proof (failing_nonneg l). destruct (run c); cbn; [|lia]. rewrite <- IH. lia.
Qed.

Record thread_ok x : Prop := {
  ok_pending : 0 <= pending x;
  ok_batch : match x with Running n fOk => n = 0 -> fOk = true | Working n l _ => 0 < n | _ => True end;
}.

(** [added]: the checks since the master returned from a wait. *)
Record inv (added : list T) (y : system T) : Prop := {
  i_threads : Forall thread_ok (threads y);
  i_count : 0 < zlen (threads y) < 2 ^ 29;
  i_total : nTotal (shared y) = total in_loop (threads y);
  i_idle : nIdle (shared y) = total sleeping (threads y);
  i_todo : nTodo (shared y) = zlen (queue (shared y)) + total pending (threads y);
  i_range : in_u 32 (nTodo (shared y));
  i_quit : fQuit (shared y) = false;
  i_doubt : Z.b2z (negb (fAllOk (shared y))) + failing (queue (shared y)) + total doubt (threads y) = 0 <-> forallb run added = true;
  i_master : threads y !! 0%nat = Some Asleep -> queue (shared y) = [] /\ nTodo (shared y) <> 0;
  i_workers i r : threads y !! S i = Some (Outside r) -> r = None;
  i_idle_queue : added = [] -> nTodo (shared y) = 0 /\ fAllOk (shared y) = true;
}.

Lemma thread_bounds x : thread_ok x -> 0 <= in_loop x <= 1 /\ 0 <= sleeping x <= in_loop x /\ 0 <= doubt x /\ 0 <= weight x.
Proof.
  intros _. destruct x as [[]| n ok | | |n l ok]; cbn [in_loop sleeping doubt weight]; try lia.
  - case_bool; destruct ok; cbn; lia.
  - pose proof (failing_nonneg l). unfold zlen. destruct ok; cbn; lia.
Qed.

Lemma counts_range added y : inv added y -> 0 <= total sleeping (threads y) <= total in_loop (threads y) /\ total in_loop (threads y) <= zlen (threads y) /\
  0 <= total pending (threads y) /\ 0 <= total doubt (threads y) /\ 0 <= total weight (threads y).
Proof.
  intros [Ht _ _ _ _ _ _ _ _ _ _]. induction (threads y) as [|x ts IH]; [unfold zlen; cbn; lia|]. apply Forall_cons in Ht as [Hx Ht]. specialize (IH Ht).
  pose proof (thread_bounds x Hx). pose proof (ok_pending _ Hx). unfold zlen in *. rewrite !total_cons. cbn [length]. lia.
Qed.

Lemma nothing_pending ts : Forall thread_ok ts -> total pending ts = 0 -> total doubt ts = 0 /\ total in_loop ts = total sleeping ts.
Proof.
  induction 1 as [|x ts Hx Ht IH]; [done|]. rewrite !total_cons. intros Hp. pose proof (ok_pending _ Hx) as Hp0.
  assert (0 <= total pending ts) by (apply total_nonneg; eapply Forall_impl; [exact Ht|]; apply ok_pending).
  destruct IH as [-> ->]; [lia|]. pose proof (ok_batch _ Hx) as Hb. destruct x as [[]| n ok | | |n l ok]; cbn [doubt in_loop sleeping pending] in *; try lia.
  rewrite (Hb ltac:(lia)), (proj2 (Z.eqb_eq _ _)) by lia. cbn. lia.
Qed.

(** One thread changes, and the shared state with it. *)
Lemma inv_replace added s ts i x x' s' : inv added (mk_system s ts) -> ts !! i = Some x -> thread_ok x' ->
  nTotal s' - in_loop x' = nTotal s - in_loop x -> nIdle s' - sleeping x' = nIdle s - sleeping x ->
  nTodo s' - zlen (queue s') - pending x' = nTodo s - zlen (queue s) - pending x -> in_u 32 (nTodo s') -> fQuit s' = false ->
  (Z.b2z (negb (fAllOk s')) + failing (queue s') + doubt x' = 0 <-> Z.b2z (negb (fAllOk s)) + failing (queue s) + doubt x = 0) ->
  (<[i := x']> ts !! 0%nat = Some Asleep -> queue s' = [] /\ nTodo s' <> 0) ->
  (added = [] -> nTodo s' = 0 /\ fAllOk s' = true) ->
  (forall r, i <> 0%nat -> x' = Outside r -> r = None) ->
  inv added (mk_system s' (<[i := x']> ts)).
Proof.
  intros Hinv Hi Hx' H1 H2 H3 H4 H5 H6 H7 H8 H9. pose proof (counts_range _ _ Hinv) as (_ & _ & _ & Hd & _). destruct Hinv as [Ht Hc It Ii Itd Ir Iq Idb Im Iw Ie].
  cbn [threads shared] in *. pose proof (thread_bounds x (Forall_lookup_1 _ _ _ _ Ht Hi)) as (_ & _ & Hdx & _).
  pose proof (thread_bounds x' Hx') as (_ & _ & Hdx' & _). pose proof (failing_nonneg (queue s)). pose proof (failing_nonneg (queue s')).
  assert (doubt x <= total doubt ts) as Hle.
  { apply (total_lookup _ _ i); [|done]. eapply Forall_impl; [exact Ht|]. intros z Hz. apply (thread_bounds z Hz). }
  split; cbn [threads shared]; rewrite ?(total_insert _ _ _ _ _ Hi); try lia; try done.
  - by apply Forall_insert.
  - unfold zlen in *. by rewrite length_insert.
  - rewrite <- Idb. assert (0 <= Z.b2z (negb (fAllOk s))) by (by destruct (fAllOk s)). assert (0 <= Z.b2z (negb (fAllOk s'))) by (by destruct (fAllOk s')).
    lia.
  - intros j r Hj. destruct (decide (i = S j)) as [->|Hne].
    + rewrite list_lookup_insert_eq in Hj by (by eapply lookup_lt_Some). injection Hj as Hj. by apply (H9 r).
    + rewrite list_lookup_insert_ne in Hj by done. by apply (Iw j).
Qed.

(** *** What happens under the lock *)

Lemma swap_jobs_spec n : forall q v : list T, (n <= length q)%nat -> exists l q', swap_jobs n q v = Ok (v ++ l, q') /\ length l = n /\ q ≡ₚ l ++ q'.
Proof.
  induction n as [|n IH]; intros q v Hn; cbn [swap_jobs]; [exists [], q; by rewrite app_nil_r|].
  destruct q as [|c q _] using rev_ind; [cbn in Hn; lia|]. rewrite last_snoc, length_app, Nat.add_sub, take_app_length. rewrite length_app in Hn. cbn in Hn.
  destruct (IH q (v ++ [c]) ltac:(lia)) as (l & q' & -> & Hl & Hp). exists (c :: l), q'. rewrite <- app_assoc. split; [done|]. split; [cbn; lia|].
  rewrite Hp, Permutation_app_comm. done.
Qed.

Lemma failing_perm l m : l ≡ₚ m -> failing l = failing m.
Proof. intros H. unfold failing, zlen. by rewrite H. Qed.

Inductive attempted (fMaster : bool) s : thread T -> t T -> Prop :=
  | at_return : fMaster = true -> queue s = [] -> nTodo s = 0 ->
      attempted fMaster s (Outside (Some (fAllOk s))) (mk [] (nIdle s) (nTotal s - 1) true 0 false (nBatchSize s))
  | at_wait : queue s = [] -> (fMaster = true -> nTodo s <> 0) ->
      attempted fMaster s Asleep (mk [] (nIdle s + 1) (nTotal s) (fAllOk s) (nTodo s) false (nBatchSize s))
  | at_work l q : l <> [] -> queue s ≡ₚ l ++ q ->
      attempted fMaster s (Working (zlen l) l (fAllOk s)) (mk q (nIdle s) (nTotal s) (fAllOk s) (nTodo s) false (nBatchSize s)).

Lemma attempt_spec fMaster s : fQuit s = false -> 0 < nTotal s <= 2 ^ 29 -> 0 <= nIdle s <= 2 ^ 29 -> zlen (queue s) < 2 ^ 32 ->
  exists x s', attempt fMaster s = Ok (x, s') /\ attempted fMaster s x s'.
Proof.
  intros Hq Ht Hi Hl. unfold attempt. rewrite Hq, orb_false_r. case_bool_decide as E.
  - rewrite E. destruct (Z.eqb_spec (nTodo s) 0) as [H0|H0]; [destruct fMaster|rewrite andb_false_r]; cbn [andb].
    + rewrite swrap_small by (unfold in_s; lia). do 2 eexists. split; [done|]. rewrite H0. by apply at_return.
    + rewrite swrap_small by (unfold in_s; lia). do 2 eexists. split; [done|]. by apply at_wait.
    + rewrite swrap_small by (unfold in_s; lia). do 2 eexists. split; [done|]. by apply at_wait.
  - rewrite swrap_small, wrap_small by (unfold in_s, in_u; lia). rewrite (proj2 (Z.eqb_neq _ _)) by lia.
    assert (0 < zlen (queue s)) as Hl0 by (unfold zlen; destruct (queue s); [done|cbn; lia]).
    rewrite (wrap_small 32) by (unfold in_u; lia). set (n := Z.max 1 _).
    assert (0 < n <= zlen (queue s)) as Hn.
    { pose proof (Z.div_le_upper_bound (zlen (queue s)) (nTotal s + nIdle s + 1) (zlen (queue s)) ltac:(lia) ltac:(nia)). lia. }
    destruct (swap_jobs_spec (Z.to_nat n) (queue s) []) as (l & q & -> & Hlen & Hp); [unfold zlen in Hn; lia|]. cbn [res_bind app].
    assert (n = zlen l) as -> by (unfold zlen; lia). do 2 eexists. split; [done|]. apply at_work; [|done]. intros ->. unfold zlen in Hn. cbn in Hn. lia.
Qed.

(** The state before the test of the inner loop. *)
Record ready s x s1 : Prop := {
  r_total : nTotal s1 = nTotal s - in_loop x + 1;
  r_idle : nIdle s1 = nIdle s - sleeping x;
  r_todo : nTodo s1 = nTodo s - pending x;
  r_queue : queue s1 = queue s;
  r_quit : fQuit s1 = fQuit s;
  r_ok : fAllOk s1 = true <-> fAllOk s = true /\ doubt x = 0;
}.

Lemma clean_up_spec added s ts fMaster i n ok : inv added (mk_system s ts) -> ts !! i = Some (Running n ok) ->
  ready s (Running n ok) (fst (clean_up fMaster n ok s)) /\
  snd (clean_up fMaster n ok s) = negb (n =? 0) && (nTodo s - n =? 0) && negb fMaster.
Proof.
  intros Hinv Hi. pose proof (counts_range _ _ Hinv) as (Hs & Hl & Hp & _). destruct Hinv as [Ht Hc It Ii Itd Ir Iq _ _ _ _]. cbn [shared threads] in *.
  pose proof (Forall_lookup_1 _ _ _ _ Ht Hi) as [Hn Hok]. cbn [pending] in Hn.
  assert (n <= total pending ts) as Hle by (apply (total_lookup pending ts i (Running n ok)); [eapply Forall_impl; [exact Ht|]; apply ok_pending|done]).
  unfold clean_up. assert (0 <= zlen (queue s)) by (unfold zlen; lia). unfold in_u in Ir.
  destruct (Z.eqb_spec n 0) as [->|Hn0]; cbn [negb fst snd].
  - split; [|done]. split; cbn; try lia; try done.
    + rewrite swrap_small by (unfold in_s; lia). lia.
    + rewrite (Hok eq_refl). cbn. tauto.
  - rewrite wrap_small by (unfold in_u; lia). split; [|done]. split; cbn; try lia; try done.
    + rewrite (proj2 (Z.eqb_neq n 0)) by done. lia.
    + destruct (fAllOk s), ok; cbn; intuition lia.
Qed.

Lemma awake_spec added s ts i : inv added (mk_system s ts) -> ts !! i = Some Woken -> ready s Woken (awake s).
Proof.
  intros Hinv Hi. pose proof (counts_range _ _ Hinv) as (Hs & Hl & _). destruct Hinv as [Ht Hc It Ii _ _ _ _ _ _ _]. cbn [shared threads] in *.
  assert (1 <= total sleeping ts) as Hle.
  { apply (total_lookup sleeping ts i Woken); [|done]. eapply Forall_impl; [exact Ht|]. intros z Hz. apply (thread_bounds z Hz). }
  split; cbn; try lia; try done; [|tauto]. rewrite swrap_small by (unfold in_s; lia). lia.
Qed.

(** *** Waking threads *)

Definition measure (y : system T) : Z := 6 * zlen (queue (shared y)) + total weight (threads y).

Lemma wake_same x : in_loop (wake x) = in_loop x /\ sleeping (wake x) = sleeping x /\ pending (wake x) = pending x /\ doubt (wake x) = doubt x /\
  weight x <= weight (wake x) <= weight x + 1.
Proof. destruct x as [[]| | | |]; cbn; lia. Qed.

Lemma wake_ok x : thread_ok x -> thread_ok (wake x).
Proof. intros [H1 H2]. destruct x; by split. Qed.

Lemma wake_asleep x : wake x <> Asleep.
Proof. by destruct x. Qed.

Lemma inv_wake_one added s ts i x : inv added (mk_system s ts) -> ts !! i = Some x -> inv added (mk_system s (<[i := wake x]> ts)).
Proof.
  intros H Hi. destruct (wake_same x) as (H1 & H2 & H3 & H4 & _).
  apply (inv_replace added s ts i x); [done|done| |rewrite ?H1, ?H2, ?H3, ?H4; try lia; try apply H..].
  - apply wake_ok. exact (Forall_lookup_1 _ _ _ _ (i_threads _ _ H) Hi).
  - intros Hm. apply (i_master _ _ H). cbn. destruct i; [|by rewrite list_lookup_insert_ne in Hm].
    rewrite list_lookup_insert_eq in Hm by (by eapply lookup_lt_Some). injection Hm as Hm. by apply wake_asleep in Hm.
  - intros r Hne E. destruct x; try done. injection E as ->. destruct i as [|i]; [done|]. by apply (i_workers _ _ H i).
Qed.

Lemma inv_wake_all added s m ws : inv added (mk_system s (m :: ws)) -> inv added (mk_system s (m :: map wake ws)).
Proof.
  intros [Ht Hc It Ii Itd Ir Iq Idb Im Iw Ie]. cbn [threads shared] in *.
  split; cbn [threads shared]; rewrite ?total_cons, ?total_wake by (intros; apply wake_same); try done.
  - apply Forall_cons in Ht as [Hm Ht]. constructor; [done|]. apply Forall_map. eapply Forall_impl; [exact Ht|]. apply wake_ok.
  - unfold zlen in *. cbn in *. by rewrite length_map.
  - intros i r Hi. change ((wake <$> ws) !! i = Some (Outside r)) in Hi. rewrite list_lookup_fmap in Hi. apply (Iw i). cbn. destruct (ws !! i) as [x|]; [|done]. destruct x; cbn in Hi; congruence.
Qed.

Lemma inv_notified added s ts n ts' : inv added (mk_system s ts) -> notified n ts ts' -> inv added (mk_system s ts').
Proof.
  intros H [_|_ _|i _ Hi|m ws _ ->]; [done|done| |by apply inv_wake_all].
  exact (inv_wake_one _ _ _ _ _ H Hi).
Qed.

Lemma notify_master_spec added s b ts : inv added (mk_system s ts) -> inv added (mk_system s (notify_master b ts)) /\
  total weight (notify_master b ts) <= total weight ts + Z.b2z b /\
  (forall i, ts !! S i = notify_master b ts !! S i) /\ (b = true -> notify_master b ts !! 0%nat <> Some Asleep) /\
  (notify_master b ts !! 0%nat = Some Asleep -> ts !! 0%nat = Some Asleep).
Proof.
  intros H. unfold notify_master. destruct b; [|split_and!; try done; cbn; lia]. destruct ts as [|m ts]; [by split_and!|].
  change (alter wake 0%nat (m :: ts)) with (wake m :: ts). split.
  { exact (inv_wake_one added s (m :: ts) 0 m H eq_refl). }
  rewrite !total_cons. pose proof (wake_same m). split; [cbn; lia|]. split_and!; [done| |]; cbn; intros; pose proof (wake_asleep m); congruence.
Qed.

Lemma inv_add added l s ts r : inv added (mk_system s ts) -> ts !! 0%nat = Some (Outside r) -> nTodo s + zlen l < 2 ^ 32 ->
  inv (added ++ l) (mk_system (Add l s) ts).
Proof.
  intros H H0 Hl. pose proof (counts_range _ _ H) as (_ & _ & _ & Hd & _). destruct H as [Ht Hc It Ii Itd Ir Iq Idb Im Iw Ie]. cbn [threads shared] in *.
  unfold in_u in Ir. assert (0 <= zlen l) by (unfold zlen; lia). split; cbn [threads shared Add nTotal nIdle fAllOk nTodo fQuit queue]; try done.
  - rewrite wrap_small by (unfold in_u; lia). unfold zlen in *. rewrite length_app. lia.
  - by apply wrap_range.
  - rewrite failing_app, forallb_app, andb_true_iff, <- Idb, <- failing_zero. pose proof (failing_nonneg l). pose proof (failing_nonneg (queue s)).
    destruct (fAllOk s); cbn; lia.
  - intros Hm. congruence.
  - intros [-> ->]%app_eq_nil. destruct (Ie eq_refl) as [H1 H2]. by rewrite H1.
Qed.

(** *** One section under the lock *)

(** The checks since the last return of the master. *)
Definition after (e : event T) (y : system T) (added : list T) : list T :=
  match e with
  | EAdd l => added ++ l
  | ELock O => match threads y !! 0%nat with Some (Outside _) => [] | _ => added end
  | _ => added
  end.

Lemma attempted_ok s1 fMaster x' s' : attempted fMaster s1 x' s' -> thread_ok x'.
Proof. intros [_ _ _|_ _|l q Hl _]; [by split|by split|]. assert (0 < zlen l) by (destruct l; [done|unfold zlen; cbn; lia]). split; cbn; lia. Qed.

(** The master returns what the checks say. *)
Lemma return_spec added s ts i x s1 : inv added (mk_system s ts) -> i = 0%nat -> ts !! i = Some x -> ready s x s1 -> queue s1 = [] -> nTodo s1 = 0 ->
  fAllOk s1 = forallb run added /\
  inv [] (mk_system (mk [] (nIdle s1) (nTotal s1 - 1) true 0 false (nBatchSize s1)) (<[i := Outside (Some (fAllOk s1))]> ts)).
Proof.
  intros H H0 Hi [R1 R2 R3 R4 R5 R6] Hq Ht0. destruct (counts_range _ _ H) as (_ & _ & Hp & Hd & _). destruct H as [Ht Hc It Ii Itd Ir Iq Idb Im Iw Ie].
  cbn [threads shared] in *. rewrite R4 in Hq. rewrite Hq in *. change (zlen (@nil T)) with 0 in *. change (failing []) with 0 in *.
  assert (total pending (<[i := Outside (Some (fAllOk s1))]> ts) = 0) as Hp0 by (rewrite (total_insert _ _ _ _ _ Hi); cbn; lia).
  assert (Forall thread_ok (<[i := Outside (Some (fAllOk s1))]> ts)) as Hts by (apply Forall_insert; [done|by split]).
  destruct (nothing_pending _ Hts Hp0) as [Hd0 Hin]. pose proof Hd0 as Hd1. rewrite (total_insert _ _ _ _ _ Hi) in Hd1. cbn [doubt] in Hd1.
  pose proof (thread_bounds x (Forall_lookup_1 _ _ _ _ Ht Hi)) as (_ & _ & Hdx & _). split.
  - apply eq_true_iff_eq. rewrite R6, <- Idb. destruct (fAllOk s); cbn; intuition (try lia; try done).
  - split; cbn [threads shared nTotal nIdle fAllOk nTodo fQuit queue]; rewrite ?Hp0, ?Hd0; try done.
    + unfold zlen in *. by rewrite length_insert.
    + rewrite (total_insert _ _ _ _ _ Hi). cbn. lia.
    + rewrite (total_insert _ _ _ _ _ Hi). cbn. lia.
    + intros Hm. rewrite H0, list_lookup_insert_eq in Hm by (rewrite <- H0; by eapply lookup_lt_Some). done.
    + intros j r Hj. rewrite H0, list_lookup_insert_ne in Hj by done. by apply (Iw j).
Qed.

Lemma stay_spec added s ts i x s1 x' s' notify : inv added (mk_system s ts) -> ts !! i = Some x -> ready s x s1 ->
  (i <> 0%nat -> nTodo s1 = 0 -> nTodo s <> 0 -> notify = true) -> (i = 0%nat -> notify = false) ->
  attempted (i =? 0)%nat s1 x' s' -> outside x' = false ->
  inv added (mk_system s' (<[i := x']> (notify_master notify ts))).
Proof.
  intros H Hi [R1 R2 R3 R4 R5 R6] Hnot Hnot0 Hat Hout. destruct (notify_master_spec added s notify ts H) as (H' & _ & Hsame & Hawake & Hback).
  assert (notify_master notify ts !! i = Some x) as Hi' by (destruct i; [by rewrite (Hnot0 eq_refl)|by rewrite <- Hsame]).
  pose proof (attempted_ok _ _ _ _ Hat) as Hx'. pose proof (counts_range _ _ H') as (_ & _ & Hp & Hd & _).
  pose proof (i_threads _ _ H') as Ht. pose proof (i_todo _ _ H') as Itd. pose proof (i_range _ _ H') as Ir. pose proof (i_quit _ _ H') as Iq.
  pose proof (i_idle_queue _ _ H') as Ie. pose proof (i_master _ _ H') as Im. cbn [threads shared] in *. unfold in_u in *.
  pose proof (Forall_lookup_1 _ _ _ _ Ht Hi') as Hx. pose proof (thread_bounds x Hx) as (_ & _ & Hdx & _). pose proof (ok_pending _ Hx) as Hpx.
  assert (pending x <= total pending (notify_master notify ts)) as Hple by (apply (total_lookup pending _ i); [eapply Forall_impl; [exact Ht|]; apply ok_pending|done]).
  assert (0 <= zlen (queue s)) by (unfold zlen; lia).
  assert (added = [] -> nTodo s1 = 0 /\ fAllOk s1 = true) as Ie1.
  { intros Ha. destruct (Ie Ha) as [H1 H2]. assert (pending x = 0) as Hpx0 by lia. split; [lia|]. apply R6. split; [done|].
    pose proof (ok_batch _ Hx) as Hb. destruct x as [[]| n ok | | |n l ok]; cbn in *; try lia; rewrite Hb by done; done. }
  assert (forall P : Prop, P -> (Z.b2z (negb (fAllOk s1)) = 0 <-> Z.b2z (negb (fAllOk s)) + doubt x = 0)) as Hok.
  { intros _ _. destruct (fAllOk s1), (fAllOk s); cbn in *; intuition lia. }
  specialize (Hok True I). apply (inv_replace added s _ i x); [done|done|done|..].
  all: destruct Hat as [|Hq Hm|l q Hl Hq]; [done| |]; cbn [nTotal nIdle nTodo queue fAllOk fQuit in_loop sleeping pending doubt] in *; unfold in_u; try lia; try done.
  all: rewrite R4 in Hq; try (pose proof (failing_perm _ _ Hq) as Hfq; rewrite failing_app in Hfq; apply Permutation_length in Hq as Hlq; rewrite length_app in Hlq;
    pose proof (failing_nonneg l)); rewrite ?Hq; change (failing []) with 0; try (unfold zlen in *; lia).
  - pose proof (failing_nonneg q). destruct (fAllOk s1), (fAllOk s); cbn in *; intuition lia.
  - intros Hm'. split; [done|]. destruct (decide (i = 0%nat)) as [E|Hne]; [apply Hm; by apply Nat.eqb_eq|]. rewrite list_lookup_insert_ne in Hm' by done.
    destruct (Im Hm') as [_ Hs0]. intros Hz. by apply (Hawake (Hnot Hne Hz Hs0)).
  - intros Hm'. exfalso. destruct (decide (i = 0%nat)) as [E|Hne].
    + rewrite E, list_lookup_insert_eq in Hm' by (rewrite <- E; by eapply lookup_lt_Some). done.
    + rewrite list_lookup_insert_ne in Hm' by done. destruct (Im Hm') as [Hq0 _]. rewrite Hq0 in Hq. apply Permutation_nil_l in Hq. by destruct l.
Qed.

Lemma notify_insert b i x' ts : (i = 0%nat -> b = false) -> notify_master b (<[i := x']> ts) = <[i := x']> (notify_master b ts).
Proof. intros H. destruct b; [|done]. destruct i; [by discriminate H|]. by destruct ts. Qed.

Lemma lock_spec added s ts i x s1 notify : inv added (mk_system s ts) -> ts !! i = Some x -> ready s x s1 ->
  (i <> 0%nat -> nTodo s1 = 0 -> nTodo s <> 0 -> notify = true) -> (i = 0%nat -> notify = false) -> 1 + Z.b2z notify <= weight x ->
  exists x' s', attempt (i =? 0)%nat s1 = Ok (x', s') /\ let y' := mk_system s' (notify_master notify (<[i := x']> ts)) in
    (if outside x' then i = 0%nat /\ inv [] y' /\ x' = Outside (Some (forallb run added)) else inv added y') /\
    measure y' < measure (mk_system s ts).
Proof.
  intros H Hi R Hnot Hnot0 Hw. pose proof (counts_range _ _ H) as (Hs & Hl & Hp & _). pose proof (i_threads _ _ H) as Ht.
  pose proof (i_total _ _ H) as It. pose proof (i_idle _ _ H) as Ii. pose proof (i_todo _ _ H) as Itd. pose proof (i_range _ _ H) as Ir.
  pose proof (i_quit _ _ H) as Iq. pose proof (i_count _ _ H) as Ic. cbn [threads shared] in *. unfold in_u in Ir.
  assert (Forall (fun x => 0 <= in_loop x /\ 0 <= sleeping x) ts) as Hb.
  { eapply Forall_impl; [exact Ht|]. intros z Hz. destruct (thread_bounds z Hz) as ([? _] & [? _] & _). done. }
  assert (in_loop x <= total in_loop ts) by (apply (total_lookup _ _ i); [eapply Forall_impl; [exact Hb|]; by intros ? []|done]).
  assert (sleeping x <= total sleeping ts) by (apply (total_lookup _ _ i); [eapply Forall_impl; [exact Hb|]; by intros ? []|done]).
  pose proof (Forall_lookup_1 _ _ _ _ Hb Hi) as [? ?].
  destruct (attempt_spec (i =? 0)%nat s1) as (x' & s' & E & Hat); [rewrite (r_quit _ _ _ R); done|rewrite (r_total _ _ _ R); lia|rewrite (r_idle _ _ _ R); lia
    |rewrite (r_queue _ _ _ R); lia|].
  exists x', s'. split; [exact E|]. cbn zeta. rewrite notify_insert by done.
  destruct (notify_master_spec added s notify ts H) as (_ & Hwt & Hsame & _).
  assert (notify_master notify ts !! i = Some x) as Hi' by (destruct i; [by rewrite (Hnot0 eq_refl)|by rewrite <- Hsame]).
  split.
  - destruct (outside x') eqn:Eo; [|by eapply stay_spec].
    destruct Hat as [Hm Hq Hz|Hq Hm|l q Hne Hq]; [|done|done]. apply Nat.eqb_eq in Hm. rewrite (Hnot0 Hm). cbn [notify_master].
    destruct (return_spec added s ts i x s1 H Hm Hi R Hq Hz) as [Ef Hinv]. split; [done|]. split; [exact Hinv|]. by rewrite Ef.
  - unfold measure. cbn [shared threads]. rewrite (total_insert _ _ _ _ _ Hi'). rewrite <- (r_queue _ _ _ R).
    destruct Hat as [Hm Hq Hz|Hq Hm|l q Hne Hq]; cbn [queue weight]; try (rewrite Hq; change (zlen (@nil T)) with 0; lia).
    apply Permutation_length in Hq. rewrite length_app in Hq. assert (0 < length l)%nat by (by destruct l; [|cbn; lia]). unfold zlen in *. lia.
Qed.

(** *** Steps *)

(** A thread that is not outside changes alone, and stays in the loop. *)
Lemma alone_spec added s ts i x x' : inv added (mk_system s ts) -> ts !! i = Some x -> outside x' = false -> thread_ok x' ->
  in_loop x' = in_loop x -> sleeping x' = sleeping x -> pending x' = pending x -> (doubt x' = 0 <-> doubt x = 0) -> (x' = Asleep -> x = Asleep) ->
  inv added (mk_system s (<[i := x']> ts)) /\ measure (mk_system s (<[i := x']> ts)) = measure (mk_system s ts) - weight x + weight x'.
Proof.
  intros H Hi Ho Hx' H1 H2 H3 H4 H5. split; [|unfold measure; cbn [shared threads]; rewrite (total_insert _ _ _ _ _ Hi); lia].
  pose proof (thread_bounds x' Hx') as (_ & _ & Hd' & _). pose proof (thread_bounds x (Forall_lookup_1 _ _ _ _ (i_threads _ _ H) Hi)) as (_ & _ & Hd & _).
  apply (inv_replace added s ts i x); rewrite ?H1, ?H2, ?H3; try done; try apply H.
  - pose proof (failing_nonneg (queue s)). destruct (fAllOk s); cbn; lia.
  - intros Hm. apply (i_master _ _ H). cbn. destruct (decide (i = 0%nat)) as [E|Hne].
    + rewrite E, list_lookup_insert_eq in Hm by (rewrite <- E; by eapply lookup_lt_Some). injection Hm as Hm. rewrite <- E, Hi. by rewrite H5.
    + by rewrite list_lookup_insert_ne in Hm.
  - intros r _ E. by rewrite E in Ho.
Qed.

(** What a step does to the master, seen from a wait. *)
Lemma master_stays ts i x' : outside x' = false -> i <> 0%nat \/ (i < length ts)%nat ->
  match ts !! 0%nat with Some x => negb (outside x) | None => false end = true ->
  match <[i := x']> ts !! 0%nat with Some x => negb (outside x) | None => false end = true.
Proof.
  intros Ho Hi Hw. destruct (decide (i = 0%nat)) as [->|Hne]; [|by rewrite list_lookup_insert_ne].
  destruct Hi as [Hi|Hi]; [done|]. rewrite list_lookup_insert_eq by done. by rewrite Ho.
Qed.

Record stepped (added : list T) (e : event T) (y y' : system T) : Prop := {
  st_inv : inv (after e y' added) y';
  st_spurious : spurious e = true -> measure y' = measure y + 1;
  st_measure : spurious e = false -> in_wait y = true -> measure y' < measure y;
  st_returned : in_wait y = true -> in_wait y' = false -> e = ELock 0 /\ threads y' !! 0%nat = Some (Outside (Some (forallb run added)));
  st_added : in_wait y = true -> in_wait y' = true -> after e y' added = added;
}.

Lemma stepped_alone added e s ts i x x' : inv added (mk_system s ts) -> ts !! i = Some x -> outside x = false \/ i <> 0%nat -> outside x' = false -> thread_ok x' ->
  in_loop x' = in_loop x -> sleeping x' = sleeping x -> pending x' = pending x -> (doubt x' = 0 <-> doubt x = 0) -> (x' = Asleep -> x = Asleep) ->
  (if spurious e then weight x' = weight x + 1 else weight x' < weight x) -> (forall y, after e y added = added) ->
  stepped added e (mk_system s ts) (mk_system s (<[i := x']> ts)).
Proof.
  intros H Hi Hor Ho Hx' H1 H2 H3 H4 H5 Hw Ha. destruct (alone_spec added s ts i x x' H Hi Ho Hx' H1 H2 H3 H4 H5) as [Hinv Hm].
  split; rewrite ?Ha, ?Hm; try done.
  - intros E. rewrite E in Hw. lia.
  - intros E _. rewrite E in Hw. lia.
  - intros Hy Hy'. unfold in_wait in *. cbn [threads] in *. rewrite (master_stays ts i x') in Hy'; try done. right. by eapply lookup_lt_Some.
Qed.

Lemma stepped_lock added s ts i x s1 notify x' s' : inv added (mk_system s ts) -> ts !! i = Some x -> outside x = false -> ready s x s1 ->
  (i <> 0%nat -> nTodo s1 = 0 -> nTodo s <> 0 -> notify = true) -> (i = 0%nat -> notify = false) -> 1 + Z.b2z notify <= weight x ->
  attempt (i =? 0)%nat s1 = Ok (x', s') ->
  stepped added (ELock i) (mk_system s ts) (mk_system s' (notify_master notify (<[i := x']> ts))).
Proof.
  intros H Hi Hx R Hn Hn0 Hw E. destruct (lock_spec added s ts i x s1 notify H Hi R Hn Hn0 Hw) as (x2 & s2 & E2 & Hr & Hm).
  rewrite E in E2. injection E2 as <- <-. cbn zeta in *. pose proof (lookup_lt_Some _ _ _ Hi) as Hlt. destruct (outside x') eqn:Eo.
  - destruct Hr as (-> & Hinv & Ex). rewrite (Hn0 eq_refl) in *. cbn [notify_master] in *.
    assert (<[0%nat := x']> ts !! 0%nat = Some x') as E0 by (by apply list_lookup_insert_eq).
    split; unfold in_wait, after; cbn [threads spurious]; rewrite ?E0, ?Ex; try done.
    + by rewrite <- Ex.
    + intros _ _. by rewrite <- Ex.
  - assert (in_wait (mk_system s ts) = true -> in_wait (mk_system s' (notify_master notify (<[i := x']> ts))) = true) as Hstay.
    { unfold in_wait. cbn [threads]. intros Hy. rewrite notify_insert by done. apply master_stays; [done|right; unfold notify_master; destruct notify; [by rewrite length_alter|done]|].
      unfold notify_master. destruct notify; [|done]. destruct ts as [|m ts]; [done|]. cbn in *. by destruct m. }
    assert (after (ELock i) (mk_system s' (notify_master notify (<[i := x']> ts))) added = added) as Ha.
    { destruct i; [|done]. cbn [after threads]. rewrite (Hn0 eq_refl). cbn [notify_master]. rewrite list_lookup_insert_eq by done. by destruct x'. }
    split; rewrite ?Ha; try done. intros Hy Hy'. by rewrite Hstay in Hy'.
Qed.

Lemma step_spec added e y y' : step run e y y' -> inv added y -> stepped added e y y'.
Proof.
  intros [l s ts ts' r H0 Hl Hnot|s ts r H0|i s ts r Hi|i s ts nNow fOk s1 notify x s' Hi Ec Ea|i s ts x s' Hi Ea|i s ts nNow c l fOk Hi|i s ts nNow fOk Hi|i s ts Hi] H.
  - assert (in_wait (mk_system s ts) = true -> False) as Hf by (unfold in_wait; cbn [threads]; rewrite H0; cbn; discriminate).
    split; try (intros; done); try (intros; exfalso; by apply Hf). cbn [after]. eapply inv_notified; [|exact Hnot]. by eapply inv_add.
  - assert (in_wait (mk_system s ts) = true -> False) as Hf by (unfold in_wait; cbn [threads]; rewrite H0; cbn; discriminate).
    split; try (intros; done); try (intros; exfalso; by apply Hf). cbn [after].
    apply (inv_replace added s ts 0 (Outside r)); try done; try apply H; cbn; try lia.
    rewrite list_lookup_insert_eq by (by eapply lookup_lt_Some). done.
  - rewrite (i_workers _ _ H i r Hi) in Hi. eapply stepped_alone; [done|exact Hi|by right|done|by split|done..|by intros].
  - pose proof (clean_up_spec added s ts (i =? 0)%nat i nNow fOk H Hi) as [R En]. rewrite Ec in R, En. cbn [fst snd] in *.
    eapply stepped_lock; [done|exact Hi|done|exact R| | |cbn; destruct notify; cbn; lia|exact Ea].
    + intros Hne Hz Hs0. pose proof (r_todo _ _ _ R) as Ht. cbn in Ht. rewrite En, (proj2 (Nat.eqb_neq i 0)) by done.
      rewrite (proj2 (Z.eqb_neq nNow 0)) by lia. rewrite (proj2 (Z.eqb_eq (nTodo s - nNow) 0)) by lia. done.
    + intros ->. rewrite En. by rewrite andb_false_r.
  - pose proof (awake_spec added s ts i H Hi) as R. change (<[i := x]> ts) with (notify_master false (<[i := x]> ts)).
    eapply stepped_lock; [done|exact Hi|done|exact R| |done|cbn; lia|exact Ea]. intros _ Hz Hs0. by cbn in Hz.
  - pose proof (Forall_lookup_1 _ _ _ _ (i_threads _ _ H) Hi) as [Hp Hb]. cbn in Hp, Hb.
    eapply stepped_alone; [done|exact Hi|by left|done|by split|done|done|done| |done| |by intros]; cbn [doubt weight spurious].
    + rewrite failing_cons. pose proof (failing_nonneg l). destruct fOk, (run c); cbn; lia.
    + unfold zlen. cbn [length]. lia.
  - pose proof (Forall_lookup_1 _ _ _ _ (i_threads _ _ H) Hi) as [Hp Hb]. cbn in Hp, Hb.
    eapply stepped_alone; [done|exact Hi|by left|done|split; [done|cbn; lia]| |done|done| |done| |by intros]; cbn [in_loop doubt weight spurious].
    + by rewrite (proj2 (Z.eqb_neq _ _)) by lia.
    + change (failing []) with 0. lia.
    + change (zlen (@nil T)) with 0. lia.
  - eapply stepped_alone; [done|exact Hi|by left|done|by split|done..|by intros].
Qed.

(** *** Runs *)

Inductive reach (nBatch : Z) (workers : nat) : list T -> system T -> Prop :=
  | reach_initial : reach nBatch workers [] (initial nBatch workers)
  | reach_step added e y y' : reach nBatch workers added y -> step run e y y' -> reach nBatch workers (after e y' added) y'.

(** [k] wake-ups without a notification and [m] other steps while the master waits. *)
Inductive waits : nat -> nat -> system T -> system T -> Prop :=
  | waits_refl y : waits 0 0 y y
  | waits_step k m e y y' y'' : in_wait y = true -> step run e y y' -> waits k m y' y'' ->
      waits (if spurious e then S k else k) (if spurious e then m else S m) y y''.

Lemma initial_inv nBatch workers : Z.of_nat workers < 2 ^ 29 - 1 -> inv [] (initial nBatch workers).
Proof.
  intros Hw. unfold initial. assert (forall f n, f (Outside None) = 0 -> total f (replicate n (Outside None)) = 0) as Hz.
  { intros f n Hf. induction n as [|n IH]; [done|]. cbn [replicate]. rewrite total_cons. lia. }
  split; cbn [threads shared make nTotal nIdle nTodo queue fAllOk fQuit]; rewrite ?Hz by done; try done.
  - apply Forall_replicate. by split.
  - unfold zlen. rewrite length_replicate. lia.
  - by intros i r [[= ->] _]%lookup_replicate.
Qed.

Lemma reach_inv nBatch workers added y : Z.of_nat workers < 2 ^ 29 - 1 -> reach nBatch workers added y -> inv added y.
Proof.
  intros Hw. induction 1 as [|added e y y' _ IH Hs]; [by apply initial_inv|]. by apply (st_inv _ _ _ _ (step_spec _ _ _ _ Hs IH)).
Qed.

(** A thread in the loop that does not sleep can do its next step. *)
Lemma enabled added s ts i x : inv added (mk_system s ts) -> ts !! i = Some x -> outside x = false -> x <> Asleep ->
  exists e y', step run e (mk_system s ts) y' /\ spurious e = false.
Proof.
  intros H Hi Ho Hx. destruct x as [r|n ok| | |n [|c l] ok]; try done.
  - destruct (clean_up_spec added s ts (i =? 0)%nat i n ok H Hi) as [R En]. destruct (clean_up (i =? 0)%nat n ok s) as [s1 b] eqn:Ec. cbn [fst snd] in *.
    destruct (lock_spec added s ts i (Running n ok) s1 b H Hi R) as (x' & s' & E & _).
    + intros Hne Hz Hs0. pose proof (r_todo _ _ _ R) as Ht. cbn in Ht. rewrite En, (proj2 (Nat.eqb_neq i 0)) by done.
      rewrite (proj2 (Z.eqb_neq n 0)) by lia. rewrite (proj2 (Z.eqb_eq (nTodo s - n) 0)) by lia. done.
    + intros ->. rewrite En. by rewrite andb_false_r.
    + cbn. destruct b; cbn; lia.
    + do 2 eexists. split; [by eapply step_lock|done].
  - destruct (lock_spec added s ts i Woken (awake s) false H Hi (awake_spec added s ts i H Hi)) as (x' & s' & E & _); [by intros _ Hz|done|cbn; lia|].
    do 2 eexists. split; [by eapply step_relock|done].
  - do 2 eexists. split; [by eapply step_unlock|done].
  - do 2 eexists. split; [by eapply step_check|done].
Qed.

Lemma progress added y : inv added y -> in_wait y = true -> exists e y', step run e y y' /\ spurious e = false.
Proof.
  destruct y as [s ts]. intros H Hw. unfold in_wait in Hw. cbn [threads] in Hw. destruct (ts !! 0%nat) as [x|] eqn:E0; [|done].
  apply negb_true_iff in Hw. assert (x = Asleep \/ x <> Asleep) as [-> |Hne] by (destruct x; auto; right; done); [|by eapply enabled].
  destruct (i_master _ _ H E0) as [Hq Ht]. pose proof (i_todo _ _ H) as Itd. cbn [threads shared] in *. rewrite Hq in Itd. change (zlen (@nil T)) with 0 in Itd.
  destruct (counts_range _ _ H) as (_ & _ & Hp & _). cbn [threads] in Hp. destruct (total_positive pending ts ltac:(lia)) as (i & x & Hi & Hx).
  eapply enabled; [exact H|exact Hi|by destruct x|by destruct x].
Qed.

Lemma waits_spec k m y y' added : waits k m y y' -> inv added y -> in_wait y = true ->
  Z.of_nat m + measure y' <= measure y + Z.of_nat k /\
  if in_wait y' then inv added y' else inv [] y' /\ threads y' !! 0%nat = Some (Outside (Some (forallb run added))).
Proof.
  induction 1 as [y|k m e y y' y'' Hw Hs Hr IH]; intros H Hy; [rewrite Hy; split; [lia|done]|].
  destruct (step_spec _ _ _ _ Hs H) as [S1 S2 S3 S4 S5]. destruct (in_wait y') eqn:Ey.
  - rewrite (S5 Hy eq_refl) in S1. destruct (IH S1 eq_refl) as [IH1 IH2]. split; [|done]. destruct (spurious e); [specialize (S2 eq_refl)|specialize (S3 eq_refl Hy)]; lia.
  - destruct (S4 Hy eq_refl) as [-> E0]. assert (k = 0%nat /\ m = 0%nat /\ y'' = y') as (-> & -> & ->) by (inversion Hr; subst; [done|congruence]).
    rewrite Ey. cbn [spurious]. specialize (S3 eq_refl Hy). split; [lia|]. split; [|done]. unfold after in S1. by rewrite E0 in S1.
Qed.

Lemma idle_spec y : inv [] y -> in_wait y = false -> IsIdle (shared y) = true.
Proof.
  intros H _. destruct (i_idle_queue _ _ H eq_refl) as [H1 H2]. pose proof (i_todo _ _ H). destruct (counts_range _ _ H) as (_ & _ & Hp & _).
  assert (0 <= zlen (queue (shared y))) by (unfold zlen; lia). destruct (nothing_pending _ (i_threads _ _ H) ltac:(lia)) as [_ E].
  unfold IsIdle. rewrite (i_total _ _ H), (i_idle _ _ H), E, H1, H2, Z.eqb_refl. done.
Qed.
End proofs.

(** ** Property *)

(** C3: the queue, with any number of workers in any order of their steps: from
    every state it can reach in which the master waits, every run makes at most
    so many steps as the measure of that state and one for each wake-up without
    a notification, it is never stuck, and when it ends the master has returned
    whether all checks added since the last wait succeed, and the queue is idle
    for the next user. *)
Theorem Wait_correct {T : Type} (run : T -> bool) (nBatch : Z) (workers : nat) (added : list T) (y : system T) :
  Z.of_nat workers < 2 ^ 29 - 1 -> reach run nBatch workers added y -> in_wait y = true ->
  forall k m y', waits run k m y y' ->
    Z.of_nat m <= measure y + Z.of_nat k /\
    if in_wait y' then exists e y'', step run e y' y'' /\ spurious e = false
    else threads y' !! 0%nat = Some (Outside (Some (forallb run added))) /\ IsIdle (shared y') = true.
Proof.
  intros Hw Hr Hy k m y' Hrun. pose proof (reach_inv run nBatch workers added y Hw Hr) as H.
  destruct (waits_spec run k m y y' added Hrun H Hy) as [Hm Hend]. split.
  - assert (exists added', inv run added' y') as [a Ha] by (destruct (in_wait y'); [by exists added|by exists []; apply Hend]).
    destruct (counts_range run a y' Ha) as (_ & _ & _ & _ & Hwt). unfold measure, zlen in *. lia.
  - destruct (in_wait y') eqn:Ey; [by eapply progress|]. destruct Hend as [Hi E]. split; [exact E|by eapply idle_spec].
Qed.

(** One worker that was woken, and a master that waits for two checks, one of
    which fails; the master does both. *)
Definition demo_waiting : system Z := mk_system (mk [4; 7] 1 1 true 2 false 128) [Running 0 true; Woken].

Ltac reached H step := eapply reach_step in H; [|eapply step; reflexivity]; cbn in H.

Lemma demo_reached : reach Z.even 128 1 [4; 7] demo_waiting.
Proof.
  pose proof (reach_initial Z.even 128 1) as H. change (initial 128 1) with (mk_system (T := Z) (make 128) [Outside None; Outside None]) in H.
  reached H (step_start Z.even 0). reached H (step_lock Z.even 1).
  eapply reach_step in H; [|eapply (step_add Z.even [4; 7]); [reflexivity|reflexivity|eapply notify_all; [cbn; lia|reflexivity]]]. cbn in H.
  reached H (step_wait Z.even). exact H.
Qed.

Ltac waited step := eapply waits_step; [reflexivity|eapply step; reflexivity|].

Lemma Wait_correct_witness : exists k m y', waits Z.even k m demo_waiting y' /\ (k, m) = (0, 7)%nat /\
  threads y' !! 0%nat = Some (Outside (Some false)) /\ IsIdle (shared y') = true.
Proof.
  assert (exists k m y', waits Z.even k m demo_waiting y' /\ in_wait y' = false /\ (k, m) = (0, 7)%nat) as (k & m & y' & Hrun & Hy & Hkm).
  { eexists _, _, _. split; [|split].
    - unfold demo_waiting. waited (step_lock Z.even 0). waited (step_check Z.even 0). waited (step_unlock Z.even 0).
      waited (step_lock Z.even 0). waited (step_check Z.even 0). waited (step_unlock Z.even 0). waited (step_lock Z.even 0). apply waits_refl.
    - reflexivity.
    - reflexivity. }
  exists k, m, y'. split; [exact Hrun|]. split; [exact Hkm|].
  destruct (Wait_correct Z.even 128 1 [4; 7] demo_waiting eq_refl demo_reached eq_refl k m y' Hrun) as [_ H]. rewrite Hy in H. exact H.
Defined.
