(* ===== verification/BlockFiles.v ===== *)
(** Block and undo files: [FindBlockPos], [FindUndoPos], [WriteBlockToDisk],
    [ReadBlockFromDisk], [UndoWriteToDisk] and [UndoReadFromDisk] of
    src/sige/src/validation.cpp over the [CAutoFile] of src/sige/src/streams.h.

    A directory is a map from file numbers to the bytes of the file: opening,
    seeking, reading, writing and truncating are those of stdio, which here
    does not fail for want of space or rights.  Whether there is space,
    [CheckDiskSpace], is a parameter; preallocation follows posix_fallocate. *)

From S2P Require Import Prelude Bytes BaseUint UintBytes Uint256 Serialize Codec Header Chain Pow Opcode Prevector ScriptNum Script Amount Transaction Block PubKey Compressor Coins Undo State.

(** ** Files *)

(** The contents after [d] is written at [pos]; a gap is filled with zeros. *)
Definition fwrite_at (pos : nat) (d c : bytes) : bytes :=
  take pos (c ++ replicate (pos - length c) 0) ++ d ++ drop (pos + length d) c.

Module CAutoFile.
(** [FILE*]: the contents and the position, or NULL. *)
Record t := mk { file : option (bytes * nat) }.

Definition IsNull (s : t) : bool := match file s with None => true | Some _ => false end.

Definition read (nSize : nat) : rd t bytes := fun s =>
  match file s with
  | None => Throw "CAutoFile::read: file handle is NULL"
  | Some (c, p) =>
      if (length (drop p c) <? nSize)%nat then Throw "CAutoFile::read: end of file"
      else Ok (take nSize (drop p c), mk (Some (c, (p + nSize)%nat)))
  end.

Definition write (pch : bytes) (s : t) : res t :=
  match file s with
  | None => Throw "CAutoFile::write: file handle is NULL"
  | Some (c, p) => Ok (mk (Some (fwrite_at p pch c, (p + length pch)%nat)))
  end.

(** The bytes left: fuel for the readers, not a call of the code. *)
Definition left (s : t) : nat := match file s with None => 0 | Some (c, p) => length (drop p c) end.
End CAutoFile.

#[export] Instance CAutoFile_Stream : Stream CAutoFile.t := {
  s_read := CAutoFile.read;
  s_size := CAutoFile.left;
}.

(** [posix_fallocate(file, 0, nEndPos)] and [ftruncate] *)
Definition AllocateFileRange (offset length_ : Z) (c : bytes) : bytes :=
  c ++ replicate (Z.to_nat (offset + length_) - length c) 0.
Definition TruncateFile (length_ : Z) (c : bytes) : bytes :=
  take (Z.to_nat length_) c ++ replicate (Z.to_nat length_ - length c) 0.

Abbreviation dir := (gmap Z bytes).

(** The file at the position, if it opens, and the directory, where it may be new. *)
Definition OpenDiskFile (m : dir) (pos : CDiskBlockPos.t) (fReadOnly : bool) : option (bytes * nat) * dir :=
  if CDiskBlockPos.IsNull pos then (None, m)
  else
    let at_ (c : bytes) := Some (c, Z.to_nat (CDiskBlockPos.nPos pos)) in
    match m !! CDiskBlockPos.nFile pos with
    | Some c => (at_ c, m)
    | None => if fReadOnly then (None, m) else (at_ [], <[CDiskBlockPos.nFile pos := []]> m)
    end.

(** The directory after the file [n] is closed. *)
Definition close (n : Z) (f : CAutoFile.t) (m : dir) : dir :=
  match CAutoFile.file f with Some (c, _) => <[n := c]> m | None => m end.

(** ** The state of the block files *)

Definition MAX_BLOCKFILE_SIZE : Z := 0x8000000.
Definition BLOCKFILE_CHUNK_SIZE : Z := 0x1000000.
Definition UNDOFILE_CHUNK_SIZE : Z := 0x100000.

Record block_files := mk_files {
  vinfoBlockFile : list CBlockFileInfo.t;
  nLastBlockFile : Z;
  setDirtyFileInfo : gset Z;
  fCheckForPruning : bool;
  blk : dir;
  rev_ : dir;
}.

Definition set_info (v : list CBlockFileInfo.t) (f : block_files) : block_files :=
  mk_files v (nLastBlockFile f) (setDirtyFileInfo f) (fCheckForPruning f) (blk f) (rev_ f).
Definition set_last (n : Z) (f : block_files) : block_files :=
  mk_files (vinfoBlockFile f) n (setDirtyFileInfo f) (fCheckForPruning f) (blk f) (rev_ f).
Definition set_dirty (n : Z) (f : block_files) : block_files :=
  mk_files (vinfoBlockFile f) (nLastBlockFile f) ({[n]} ∪ setDirtyFileInfo f) (fCheckForPruning f) (blk f) (rev_ f).
Definition set_check (c : bool) (f : block_files) : block_files :=
  mk_files (vinfoBlockFile f) (nLastBlockFile f) (setDirtyFileInfo f) c (blk f) (rev_ f).
Definition set_blk (m : dir) (f : block_files) : block_files :=
  mk_files (vinfoBlockFile f) (nLastBlockFile f) (setDirtyFileInfo f) (fCheckForPruning f) m (rev_ f).
Definition set_rev (m : dir) (f : block_files) : block_files :=
  mk_files (vinfoBlockFile f) (nLastBlockFile f) (setDirtyFileInfo f) (fCheckForPruning f) (blk f) m.

(** [info.nSize = n] and [info.nUndoSize = n] *)
Definition with_size (n : Z) (i : CBlockFileInfo.t) : CBlockFileInfo.t :=
  {| CBlockFileInfo.nBlocks := CBlockFileInfo.nBlocks i; CBlockFileInfo.nSize := n; CBlockFileInfo.nUndoSize := CBlockFileInfo.nUndoSize i;
     CBlockFileInfo.nHeightFirst := CBlockFileInfo.nHeightFirst i; CBlockFileInfo.nHeightLast := CBlockFileInfo.nHeightLast i;
     CBlockFileInfo.nTimeFirst := CBlockFileInfo.nTimeFirst i; CBlockFileInfo.nTimeLast := CBlockFileInfo.nTimeLast i |}.
Definition with_undo_size (n : Z) (i : CBlockFileInfo.t) : CBlockFileInfo.t :=
  {| CBlockFileInfo.nBlocks := CBlockFileInfo.nBlocks i; CBlockFileInfo.nSize := CBlockFileInfo.nSize i; CBlockFileInfo.nUndoSize := n;
     CBlockFileInfo.nHeightFirst := CBlockFileInfo.nHeightFirst i; CBlockFileInfo.nHeightLast := CBlockFileInfo.nHeightLast i;
     CBlockFileInfo.nTimeFirst := CBlockFileInfo.nTimeFirst i; CBlockFileInfo.nTimeLast := CBlockFileInfo.nTimeLast i |}.

(** [if (vinfoBlockFile.size() <= n) vinfoBlockFile.resize(n + 1)] *)
Definition resize_info (n : Z) (v : list CBlockFileInfo.t) : list CBlockFileInfo.t :=
  if zlen v <=? n then v ++ replicate (Z.to_nat (n + 1) - length v) CBlockFileInfo.SetNull else v.

(** [vinfoBlockFile[n]], which is not checked *)
Definition info_at (n : Z) (v : list CBlockFileInfo.t) : res CBlockFileInfo.t :=
  if n <? 0 then Undef else res_of_option (v !! Z.to_nat n).

Section files.
Context (CheckDiskSpace : Z -> bool) (fPruneMode : bool).

(** [FlushBlockFile]: what it changes is the size of the last files. *)
Definition FlushBlockFile (fFinalize : bool) (f : block_files) : res block_files :=
  let posOld := {| CDiskBlockPos.nFile := nLastBlockFile f; CDiskBlockPos.nPos := 0 |} in
  let '(fileOld, m) := OpenDiskFile (blk f) posOld false in
  let f := set_blk m f in
  let? f :=
    match fileOld with
    | Some (c, _) =>
        if fFinalize then
          let? i := info_at (nLastBlockFile f) (vinfoBlockFile f) in
          Ok (set_blk (<[nLastBlockFile f := TruncateFile (CBlockFileInfo.nSize i) c]> (blk f)) f)
        else Ok f
    | None => Ok f
    end in
  let '(fileOld, m) := OpenDiskFile (rev_ f) posOld false in
  let f := set_rev m f in
  match fileOld with
  | Some (c, _) =>
      if fFinalize then
        let? i := info_at (nLastBlockFile f) (vinfoBlockFile f) in
        Ok (set_rev (<[nLastBlockFile f := TruncateFile (CBlockFileInfo.nUndoSize i) c]> (rev_ f)) f)
      else Ok f
  | None => Ok f
  end.

(** [while (vinfoBlockFile[nFile].nSize + nAddSize >= MAX_BLOCKFILE_SIZE)] *)
Fixpoint next_file (fuel : nat) (nAddSize nFile : Z) (v : list CBlockFileInfo.t) : res (Z * list CBlockFileInfo.t) :=
  let? i := info_at nFile v in
  if MAX_BLOCKFILE_SIZE <=? u32 (CBlockFileInfo.nSize i + nAddSize) then
    match fuel with
    | O => OutOfFuel
    | S fuel =>
        let nFile := u32 (nFile + 1) in
        next_file fuel nAddSize nFile (resize_info nFile v)
    end
  else Ok (nFile, v).

(** The preallocation of both functions: the report that space is out, or the directory. *)
Definition preallocate (chunk : Z) (pos : CDiskBlockPos.t) (nNewSize : Z) (m : dir) : option dir * bool :=
  let nOldChunks := u32 (CDiskBlockPos.nPos pos + chunk - 1) / chunk in
  let nNewChunks := u32 (nNewSize + chunk - 1) / chunk in
  if nOldChunks <? nNewChunks then
    if CheckDiskSpace (u32 (u32 (nNewChunks * chunk) - CDiskBlockPos.nPos pos)) then
      let '(file, m) := OpenDiskFile m pos false in
      match file with
      | Some (c, _) =>
          (Some (<[CDiskBlockPos.nFile pos := AllocateFileRange (CDiskBlockPos.nPos pos) (u32 (u32 (nNewChunks * chunk) - CDiskBlockPos.nPos pos)) c]> m), true)
      | None => (Some m, true)
      end
    else (None, true)
  else (Some m, false).

Definition FindBlockPos (state : CValidationState.t) (pos : CDiskBlockPos.t) (nAddSize nHeight nTime : Z) (fKnown : bool) (f : block_files) :
  res (bool * CValidationState.t * CDiskBlockPos.t * block_files) :=
  let nFile := if fKnown then u32 (CDiskBlockPos.nFile pos) else u32 (nLastBlockFile f) in
  let f := set_info (resize_info nFile (vinfoBlockFile f)) f in
  let? (nFile, pos, f) :=
    if negb fKnown then
      let? (nFile, v) := next_file (length (vinfoBlockFile f)) nAddSize nFile (vinfoBlockFile f) in
      let f := set_info v f in
      let? i := info_at nFile v in
      Ok (nFile, {| CDiskBlockPos.nFile := i32 nFile; CDiskBlockPos.nPos := CBlockFileInfo.nSize i |}, f)
    else Ok (nFile, pos, f) in
  let? f :=
    if negb (i32 nFile =? nLastBlockFile f) then
      let? f := FlushBlockFile (negb fKnown) f in
      Ok (set_last (i32 nFile) f)
    else Ok f in
  let? i := info_at nFile (vinfoBlockFile f) in
  let i := CBlockFileInfo.AddBlock nHeight nTime i in
  let i :=
    if fKnown then with_size (Z.max (u32 (CDiskBlockPos.nPos pos + nAddSize)) (CBlockFileInfo.nSize i)) i
    else with_size (u32 (CBlockFileInfo.nSize i + nAddSize)) i in
  let f := set_info (<[Z.to_nat nFile := i]> (vinfoBlockFile f)) f in
  if negb fKnown then
    match preallocate BLOCKFILE_CHUNK_SIZE pos (CBlockFileInfo.nSize i) (blk f) with
    | (None, grown) =>
        let f := if grown && fPruneMode then set_check true f else f in
        let '(r, state) := CValidationState.Error "out of disk space" state in Ok (r, state, pos, f)
    | (Some m, grown) =>
        let f := if grown && fPruneMode then set_check true f else f in
        Ok (true, state, pos, set_dirty nFile (set_blk m f))
    end
  else Ok (true, state, pos, set_dirty nFile f).

Definition FindUndoPos (state : CValidationState.t) (nFile nAddSize : Z) (f : block_files) :
  res (bool * CValidationState.t * CDiskBlockPos.t * block_files) :=
  let? i := info_at nFile (vinfoBlockFile f) in
  let pos := {| CDiskBlockPos.nFile := nFile; CDiskBlockPos.nPos := CBlockFileInfo.nUndoSize i |} in
  let nNewSize := u32 (CBlockFileInfo.nUndoSize i + nAddSize) in
  let f := set_info (<[Z.to_nat nFile := with_undo_size nNewSize i]> (vinfoBlockFile f)) f in
  let f := set_dirty nFile f in
  match preallocate UNDOFILE_CHUNK_SIZE pos nNewSize (rev_ f) with
  | (None, grown) =>
      let f := if grown && fPruneMode then set_check true f else f in
      let '(r, state) := CValidationState.Error "out of disk space" state in Ok (r, state, pos, f)
  | (Some m, grown) =>
      let f := if grown && fPruneMode then set_check true f else f in
      Ok (true, state, pos, set_rev m f)
  end.
End files.

(** ** Blocks and undo data on disk *)

Definition CLIENT_VERSION : Z := 1000000 * 1 + 10000 * 0 + 100 * 0 + 1 * 1.

Section disk.
Context (sizeof_CTxIn sizeof_CTxOut sizeof_vector sizeof_ref : Z) (Hash : bytes -> uint256) (params : Consensus.Params).
Context (ec : secp256k1) (mem : bytes) (sizeof_CTxInUndo sizeof_CTxUndo : Z).

Abbreviation c_block := (Block.c_block sizeof_CTxIn sizeof_CTxOut sizeof_vector sizeof_ref Hash CLIENT_VERSION).
Abbreviation c_undo := (CBlockUndo.codec ec mem sizeof_CTxInUndo sizeof_CTxUndo).

(** The directory and the position after the record was written: [false] when the file does not open. *)
Definition WriteBlockToDisk (block : CBlock) (pos : CDiskBlockPos.t) (messageStart : bytes) (m : dir) : res (bool * CDiskBlockPos.t * dir) :=
  let '(f, m) := OpenDiskFile m pos false in
  let fileout := CAutoFile.mk f in
  if CAutoFile.IsNull fileout then Ok (false, pos, m)
  else
    let nSize := u32 (Codec.GetSerializeSize c_block block) in
    let? fileout := CAutoFile.write messageStart fileout in
    let? fileout := CAutoFile.write (Codec.Serialize c_u32 nSize) fileout in
    let? (_, fileOutPos) := res_of_option (CAutoFile.file fileout) in
    let pos := {| CDiskBlockPos.nFile := CDiskBlockPos.nFile pos; CDiskBlockPos.nPos := u32 (Z.of_nat fileOutPos) |} in
    let? fileout := CAutoFile.write (Codec.Serialize c_block block) fileout in
    Ok (true, pos, close (CDiskBlockPos.nFile pos) fileout m).

(** [None] is the return of false; the block is read over an empty one. *)
Definition ReadBlockFromDisk (pos : CDiskBlockPos.t) (m : dir) : res (option CBlock) :=
  let '(f, _) := OpenDiskFile m pos true in
  let filein := CAutoFile.mk f in
  if CAutoFile.IsNull filein then Ok None
  else
    match Codec.Unserialize c_block CAutoFile.t filein with
    | Throw _ => Ok None
    | Ok (block, _) =>
        if negb (CheckProofOfWork (Header.GetHash Hash (Block.GetBlockHeader block)) (Header.nBits (header block)) params) then Ok None
        else Ok (Some block)
    | AssertFail => AssertFail | Undef => Undef | OutOfFuel => OutOfFuel
    end.

Definition ReadBlockFromDisk_index (pindex : CBlockIndex) (m : dir) : res (option CBlock) :=
  let? r := ReadBlockFromDisk (BlockIndex.GetBlockPos pindex) m in
  match r with
  | None => Ok None
  | Some block =>
      let? hash := BlockIndex.GetBlockHash pindex in
      if BaseUint.op_ne (Header.GetHash Hash (Block.GetBlockHeader block)) hash then Ok None else Ok (Some block)
  end.

(** [CHashWriter] of the hash of the previous block and the undo data *)
Definition undo_checksum (hashBlock : uint256) (blockundo : CBlockUndo.t) : uint256 :=
  Hash (Codec.Serialize c_uint256 hashBlock ++ Codec.Serialize c_undo blockundo).

Definition UndoWriteToDisk (blockundo : CBlockUndo.t) (pos : CDiskBlockPos.t) (hashBlock : uint256) (messageStart : bytes) (m : dir) :
  res (bool * CDiskBlockPos.t * dir) :=
  let '(f, m) := OpenDiskFile m pos false in
  let fileout := CAutoFile.mk f in
  if CAutoFile.IsNull fileout then Ok (false, pos, m)
  else
    let nSize := u32 (Codec.GetSerializeSize c_undo blockundo) in
    let? fileout := CAutoFile.write messageStart fileout in
    let? fileout := CAutoFile.write (Codec.Serialize c_u32 nSize) fileout in
    let? (_, fileOutPos) := res_of_option (CAutoFile.file fileout) in
    let pos := {| CDiskBlockPos.nFile := CDiskBlockPos.nFile pos; CDiskBlockPos.nPos := u32 (Z.of_nat fileOutPos) |} in
    let? fileout := CAutoFile.write (Codec.Serialize c_undo blockundo) fileout in
    let? fileout := CAutoFile.write (Codec.Serialize c_uint256 (undo_checksum hashBlock blockundo)) fileout in
    Ok (true, pos, close (CDiskBlockPos.nFile pos) fileout m).

Definition UndoReadFromDisk (pos : CDiskBlockPos.t) (hashBlock : uint256) (m : dir) : res (option CBlockUndo.t) :=
  let '(f, _) := OpenDiskFile m pos true in
  let filein := CAutoFile.mk f in
  if CAutoFile.IsNull filein then Ok None
  else
    match (let! blockundo := Codec.Unserialize c_undo CAutoFile.t in
           let! hashChecksum := Codec.Unserialize c_uint256 CAutoFile.t in
           rd_ret (blockundo, hashChecksum)) filein with
    | Throw _ => Ok None
    | Ok ((blockundo, hashChecksum), _) =>
        if BaseUint.op_ne hashChecksum (undo_checksum hashBlock blockundo) then Ok None else Ok (Some blockundo)
    | AssertFail => AssertFail | Undef => Undef | OutOfFuel => OutOfFuel
    end.
End disk.
