(* ===== verification/BlockFilesSpec.v ===== *)
(** What the block and undo files promise: a record keeps its bytes whatever is
    written, preallocated, truncated or moved to a new file after it. *)

From S2P Require Import Prelude Bytes BaseUint UintBytes Uint256 Serialize Codec Header Chain Pow Opcode Prevector ScriptNum Script Amount Transaction Block PubKey Compressor Coins Undo State BlockFiles.

#[local] Ltac Zify.zify_post_hook ::= Z.to_euclidean_division_equations.

(** ** Writing and slices *)

Definition slice (a l : nat) (c : bytes) : bytes := take l (drop a c).

Lemma fwrite_length p d c : length (fwrite_at p d c) = Nat.max (length c) (p + length d).
Proof. unfold fwrite_at. rewrite !length_app, length_take, length_app, length_replicate, length_drop. lia. Qed.

Lemma fwrite_nil p c : (p <= length c)%nat -> fwrite_at p [] c = c.
Proof.
  intros H. unfold fwrite_at. replace (p - length c)%nat with 0%nat by lia. cbn [replicate length app].
  rewrite app_nil_r, Nat.add_0_r. apply take_drop.
Qed.

Lemma fwrite_lookup p d c i : fwrite_at p d c !! i =
  if decide (i < p)%nat then (c ++ replicate (p - length c) 0) !! i
  else if decide (i < p + length d)%nat then d !! (i - p)%nat else c !! i.
Proof.
  unfold fwrite_at. set (x := take p _). assert (length x = p) as Hx by (unfold x; rewrite length_take, length_app, length_replicate; lia).
  repeat case_decide.
  - rewrite lookup_app_l by lia. unfold x. by rewrite lookup_take_lt.
  - rewrite lookup_app_r, lookup_app_l by lia. by rewrite Hx.
  - rewrite !lookup_app_r by lia. rewrite lookup_drop, Hx. f_equal. lia.
Qed.

Lemma fwrite_app p d1 d2 c : fwrite_at (p + length d1) d2 (fwrite_at p d1 c) = fwrite_at p (d1 ++ d2) c.
Proof.
  apply list_eq. intros i. rewrite !fwrite_lookup, length_app, fwrite_length.
  replace (p + length d1 - Nat.max (length c) (p + length d1))%nat with 0%nat by lia. cbn [replicate]. rewrite app_nil_r, fwrite_lookup.
  repeat case_decide; try lia; try done.
  - by rewrite lookup_app_l by lia.
  - rewrite lookup_app_r by lia. f_equal. lia.
Qed.

Lemma fwrite_slice p d c : slice p (length d) (fwrite_at p d c) = d.
Proof.
  apply list_eq. intros i. unfold slice. destruct (decide (i < length d)%nat) as [Hi|Hi].
  - rewrite lookup_take_lt, lookup_drop, fwrite_lookup by done. repeat case_decide; try lia. f_equal. lia.
  - rewrite lookup_take_ge by lia. symmetry. apply lookup_ge_None. lia.
Qed.

Lemma fwrite_before p d c a l : (a + l <= p)%nat -> (a + l <= length c)%nat -> slice a l (fwrite_at p d c) = slice a l c.
Proof.
  intros Hp Hc. apply list_eq. intros i. unfold slice. destruct (decide (i < l)%nat) as [Hi|Hi]; [|by rewrite !lookup_take_ge by lia].
  rewrite !lookup_take_lt, !lookup_drop, fwrite_lookup by done. rewrite decide_True by lia. by rewrite lookup_app_l by lia.
Qed.

(** ** Records in a directory *)

(** The file [n] of [m] has the bytes [d] at [a]. *)
Definition at_ (m : dir) (n : Z) (a : nat) (d : bytes) : Prop :=
  exists c, m !! n = Some c /\ (a + length d <= length c)%nat /\ slice a (length d) c = d.

Definition bytes_dir (m : dir) : Prop := map_Forall (fun _ c => byte_list c) m.

(** Records within the bounds are kept. *)
Definition keeps (bound : Z -> Z) (m m' : dir) : Prop :=
  (bytes_dir m -> bytes_dir m') /\ forall n a d, at_ m n a d -> Z.of_nat (a + length d) <= bound n -> at_ m' n a d.

#[export] Instance keeps_refl bound : Reflexive (keeps bound).
Proof. by intros m; split. Qed.

Lemma keeps_trans b1 b2 m1 m2 m3 : (forall n, b1 n <= b2 n) -> keeps b1 m1 m2 -> keeps b2 m2 m3 -> keeps b1 m1 m3.
Proof.
  intros Hb [B1 H1] [B2 H2]. split; [tauto|]. intros n a d Ha Hl. apply H2; [by apply H1|]. specialize (Hb n). lia.
Qed.

Lemma keeps_insert bound m n c c' : m !! n = Some c -> (byte_list c -> byte_list c') ->
  (forall a l, (a + l <= length c)%nat -> Z.of_nat (a + l) <= bound n -> slice a l c' = slice a l c /\ (a + l <= length c')%nat) ->
  keeps bound m (<[n := c']> m).
Proof.
  intros E Hc H. split; [intros Hm; apply map_Forall_insert_2; [by apply Hc, (Hm n)|done]|].
  intros n' a d (c1 & E1 & Hl & Hs) Hb. destruct (decide (n' = n)) as [->|Hn].
  - rewrite E in E1. injection E1 as <-. destruct (H a (length d) Hl Hb) as [Es El]. exists c'. rewrite lookup_insert_eq. by rewrite Es.
  - exists c1. by rewrite lookup_insert_ne.
Qed.

Lemma zeros_bytes n : byte_list (replicate n 0).
Proof. apply Forall_replicate. done. Qed.

Lemma fwrite_bytes p d c : byte_list d -> byte_list c -> byte_list (fwrite_at p d c).
Proof.
  intros Hd Hc. unfold fwrite_at. repeat (apply byte_list_app; split); [apply Forall_take, byte_list_app|done|by apply Forall_drop].
  split; [done|apply zeros_bytes].
Qed.

Lemma keeps_write bound m n c p d : m !! n = Some c -> byte_list d -> bound n <= Z.of_nat p -> keeps bound m (<[n := fwrite_at p d c]> m).
Proof.
  intros E Hd Hp. eapply keeps_insert; [exact E|by apply fwrite_bytes|].
  intros a l Hl Hb. split; [apply fwrite_before; lia|]. rewrite fwrite_length. lia.
Qed.

Lemma slice_app_l a l c e : (a + l <= length c)%nat -> slice a l (c ++ e) = slice a l c.
Proof. intros H. unfold slice. rewrite drop_app_le by lia. by rewrite take_app_le by (rewrite length_drop; lia). Qed.

Lemma keeps_allocate bound m n c o l : m !! n = Some c -> keeps bound m (<[n := AllocateFileRange o l c]> m).
Proof.
  intros E. eapply keeps_insert; [exact E|intros Hc; apply byte_list_app; by split; [|apply zeros_bytes]|].
  intros a k Hl Hb. unfold AllocateFileRange. split; [by apply slice_app_l|rewrite length_app; lia].
Qed.

Lemma keeps_truncate bound m n c L : m !! n = Some c -> bound n <= L -> keeps bound m (<[n := TruncateFile L c]> m).
Proof.
  intros E HL. eapply keeps_insert; [exact E|intros Hc; apply byte_list_app; by split; [apply Forall_take|apply zeros_bytes]|].
  intros a k Hl Hb. unfold TruncateFile.
  assert (a + k <= length (take (Z.to_nat L) c))%nat as Ht by (rewrite length_take; lia).
  split; [|rewrite length_app; lia]. rewrite slice_app_l by done. apply list_eq. intros i. unfold slice.
  destruct (decide (i < k)%nat); [|by rewrite !lookup_take_ge by lia]. rewrite !lookup_take_lt, !lookup_drop by done.
  by rewrite lookup_take_lt by lia.
Qed.

Lemma keeps_new bound m n : m !! n = None -> keeps bound m (<[n := []]> m).
Proof.
  intros E. split; [intros Hm; apply map_Forall_insert_2; [apply Forall_nil_2|done]|]. intros n' a d (c & Ec & Hl) _. exists c.
  rewrite lookup_insert_ne; [done|]. intros <-. by rewrite E in Ec.
Qed.

Lemma open_keeps bound m pos ro f m' : OpenDiskFile m pos ro = (f, m') -> keeps bound m m' /\
  match f with
  | Some (c, p) => m' !! CDiskBlockPos.nFile pos = Some c /\ p = Z.to_nat (CDiskBlockPos.nPos pos)
  | None => ro = true \/ CDiskBlockPos.IsNull pos = true
  end.
Proof.
  unfold OpenDiskFile. destruct (CDiskBlockPos.IsNull pos); [intros [= <- <-]; split; [reflexivity|tauto]|].
  destruct (m !! _) as [c|] eqn:E; [intros [= <- <-]; split; [reflexivity|done]|].
  destruct ro; intros [= <- <-]; [split; [reflexivity|by left]|]. split; [by apply keeps_new|by rewrite lookup_insert_eq].
Qed.

Lemma open_at bound m pos : CDiskBlockPos.IsNull pos = false ->
  exists c m', OpenDiskFile m pos false = (Some (c, Z.to_nat (CDiskBlockPos.nPos pos)), m') /\ m' !! CDiskBlockPos.nFile pos = Some c /\
    keeps bound m m'.
Proof.
  intros Hn. destruct (OpenDiskFile m pos false) as [f m'] eqn:E. destruct (open_keeps bound _ _ _ _ _ E) as [Hk Hf].
  destruct f as [[c p]|]; [destruct Hf as [Hc ->]; by exists c, m'|]. destruct Hf as [Hf|Hf]; [done|congruence].
Qed.

(** *** A file as a stream *)

#[export] Program Instance CAutoFile_Laws : StreamLaws CAutoFile.t := {|
  s_ok s := exists c p, CAutoFile.file s = Some (c, p) /\ byte_list c;
  s_view s := match CAutoFile.file s with Some (c, p) => drop p c | None => [] end;
|}.
Next Obligation. intros s (c & p & -> & Hc). by apply Forall_drop. Qed.
Next Obligation. by intros s (c & p & E & Hc); unfold s_size, CAutoFile_Stream, CAutoFile.left; rewrite E. Qed.
Next Obligation.
  intros n s (c & p & E & Hc). cbn [s_read CAutoFile_Stream]. unfold CAutoFile.read. rewrite E. intros Hn.
  rewrite (proj2 (Nat.ltb_ge _ _)) by done. eexists. split; [reflexivity|]. split; [by do 2 eexists|]. cbn [CAutoFile.file]. by rewrite drop_drop.
Qed.
Next Obligation.
  intros n s (c & p & E & Hc) Hn. cbn [s_read CAutoFile_Stream]. unfold CAutoFile.read. rewrite E. intros Hl.
  rewrite (proj2 (Nat.ltb_lt _ _)) by done. by eexists.
Qed.

(** ** Sizes *)

Definition nsize (v : list CBlockFileInfo.t) (n : Z) : Z := default 0 (CBlockFileInfo.nSize <$> v !! Z.to_nat n).
Definition usize (v : list CBlockFileInfo.t) (n : Z) : Z := default 0 (CBlockFileInfo.nUndoSize <$> v !! Z.to_nat n).

Definition info_ok (i : CBlockFileInfo.t) : Prop :=
  0 <= CBlockFileInfo.nSize i < MAX_BLOCKFILE_SIZE /\ 0 <= CBlockFileInfo.nUndoSize i.

Record files_ok (f : block_files) : Prop := {
  ok_last : 0 <= nLastBlockFile f;
  ok_len : zlen (vinfoBlockFile f) <= nLastBlockFile f + 1;
  ok_info : Forall info_ok (vinfoBlockFile f);
  ok_blk : bytes_dir (blk f);
  ok_rev : bytes_dir (rev_ f);
}.

Lemma info_at_Some n v i : 0 <= n -> v !! Z.to_nat n = Some i -> info_at n v = Ok i.
Proof. intros Hn E. unfold info_at. rewrite (proj2 (Z.ltb_ge _ _)) by done. by rewrite E. Qed.

Lemma info_in n v : 0 <= n < zlen v -> exists i, v !! Z.to_nat n = Some i /\ info_at n v = Ok i.
Proof.
  intros Hn. destruct (lookup_lt_is_Some_2 v (Z.to_nat n)) as [i E]; [unfold zlen in Hn; lia|]. exists i. split; [done|].
  apply info_at_Some; [lia|done].
Qed.

(** Growing the table gives empty files. *)
Lemma resize_info_spec n v : 0 <= n -> let w := resize_info n v in
  n < zlen w /\ zlen w = Z.max (zlen v) (n + 1) /\ (forall k, nsize w k = nsize v k) /\ (forall k, usize w k = usize v k) /\
  (Forall info_ok v -> Forall info_ok w).
Proof.
  intros Hn. unfold resize_info. destruct (Z.leb_spec (zlen v) n) as [H|H]; [|split_and!; done || lia].
  rewrite !zlen_app. unfold zlen in *. rewrite length_replicate. split_and!; [lia|lia| | |].
  1-2: intros k; unfold nsize, usize; destruct (decide (Z.to_nat k < length v)%nat);
    [by rewrite lookup_app_l|rewrite lookup_app_r by lia; rewrite (lookup_ge_None_2 v) by lia].
  1-2: destruct (replicate _ _ !! _) as [i|] eqn:E; [by apply lookup_replicate in E as [-> _]|done].
  intros Hv. apply Forall_app. split; [done|]. apply Forall_replicate. by unfold info_ok.
Qed.

Lemma next_file_spec nAddSize fuel : forall nFile v, 0 <= nAddSize < MAX_BLOCKFILE_SIZE -> 0 <= nFile < zlen v -> zlen v < 2 ^ 31 ->
  Forall info_ok v -> zlen v - nFile <= Z.of_nat fuel ->
  exists n w, next_file fuel nAddSize nFile v = Ok (n, w) /\ nFile <= n < zlen w /\ n <= zlen v /\ zlen w = Z.max (zlen v) (n + 1) /\
    (forall k, nsize w k = nsize v k) /\ (forall k, usize w k = usize v k) /\ Forall info_ok w /\ nsize w n + nAddSize < MAX_BLOCKFILE_SIZE.
Proof.
  induction fuel as [|fuel IH]; intros nFile v Ha Hn Hv Hok Hf; [lia|]. destruct (info_in nFile v Hn) as (i & E & Ei).
  assert (info_ok i) as [Hi _] by (rewrite Forall_lookup in Hok; by eapply Hok).
  assert (MAX_BLOCKFILE_SIZE < 2 ^ 28) as HM by done.
  cbn [next_file]. rewrite Ei. cbn [res_bind]. rewrite wrap_small by (unfold in_u; lia). destruct (Z.leb_spec MAX_BLOCKFILE_SIZE (CBlockFileInfo.nSize i + nAddSize)) as [Hfull|Hroom].
  - rewrite wrap_small by (unfold in_u; lia). destruct (resize_info_spec (nFile + 1) v ltac:(lia)) as (H1 & H2 & H3 & H4 & H5).
    destruct (decide (nFile + 1 < zlen v)) as [Hl|Hl].
    + assert (resize_info (nFile + 1) v = v) as -> by (unfold resize_info; by rewrite (proj2 (Z.leb_gt _ _))).
      destruct (IH (nFile + 1) v Ha ltac:(lia) Hv Hok ltac:(lia)) as (n & w & -> & ? & ? & ? & ? & ? & ? & ?). exists n, w. split_and!; done || lia.
    + exists (nFile + 1), (resize_info (nFile + 1) v). destruct (info_in (nFile + 1) (resize_info (nFile + 1) v) ltac:(lia)) as (j & Ej & Ej').
      assert (nsize v (nFile + 1) = 0) as E0 by (unfold nsize; by rewrite lookup_ge_None_2 by (unfold zlen in *; lia)).
      assert (CBlockFileInfo.nSize j = 0) as Ez by (rewrite <- E0, <- H3; unfold nsize; by rewrite Ej).
      split; [|split_and!; try done; [lia|lia|by apply H5|rewrite H3, E0; lia]].
      destruct fuel; cbn [next_file]; rewrite Ej'; cbn [res_bind]; rewrite Ez, wrap_small by (unfold in_u; lia);
        by rewrite (proj2 (Z.leb_gt _ _)) by lia.
  - exists nFile, v. split_and!; try done; try lia. unfold nsize. by rewrite E.
Qed.

(** ** Finding a position *)

Lemma nsize_insert v n i k : 0 <= n < zlen v -> nsize (<[Z.to_nat n := i]> v) k =
  if decide (Z.to_nat k = Z.to_nat n) then CBlockFileInfo.nSize i else nsize v k.
Proof.
  intros Hn. unfold nsize. case_decide as Hk; [rewrite Hk|by rewrite list_lookup_insert_ne].
  by rewrite list_lookup_insert_eq by (unfold zlen in Hn; lia).
Qed.

Lemma usize_insert v n i k : 0 <= n < zlen v -> usize (<[Z.to_nat n := i]> v) k =
  if decide (Z.to_nat k = Z.to_nat n) then CBlockFileInfo.nUndoSize i else usize v k.
Proof.
  intros Hn. unfold usize. case_decide as Hk; [rewrite Hk|by rewrite list_lookup_insert_ne].
  by rewrite list_lookup_insert_eq by (unfold zlen in Hn; lia).
Qed.

Lemma nsize_at v n i k : v !! Z.to_nat n = Some i -> Z.to_nat k = Z.to_nat n -> nsize v k = CBlockFileInfo.nSize i.
Proof. intros E Hk. unfold nsize. by rewrite Hk, E. Qed.
Lemma usize_at v n i k : v !! Z.to_nat n = Some i -> Z.to_nat k = Z.to_nat n -> usize v k = CBlockFileInfo.nUndoSize i.
Proof. intros E Hk. unfold usize. by rewrite Hk, E. Qed.

(** What no step changes but the named parts. *)
Record moved (f f' : block_files) : Prop := {
  moved_blk : keeps (nsize (vinfoBlockFile f)) (blk f) (blk f');
  moved_rev : keeps (usize (vinfoBlockFile f)) (rev_ f) (rev_ f');
  moved_nsize k : nsize (vinfoBlockFile f) k <= nsize (vinfoBlockFile f') k;
  moved_usize k : usize (vinfoBlockFile f) k <= usize (vinfoBlockFile f') k;
  moved_len : zlen (vinfoBlockFile f) <= zlen (vinfoBlockFile f');
}.

#[export] Instance moved_refl : Reflexive moved.
Proof. intros f. split; [reflexivity|reflexivity|lia|lia|lia]. Qed.

#[export] Instance moved_trans : Transitive moved.
Proof.
  intros f g h [B1 R1 N1 U1 L1] [B2 R2 N2 U2 L2]. split; [by eapply keeps_trans|by eapply keeps_trans| | |lia]; intros k;
    [specialize (N1 k); specialize (N2 k)|specialize (U1 k); specialize (U2 k)]; lia.
Qed.

Section finding.
Context (CheckDiskSpace : Z -> bool) (fPruneMode : bool).

Lemma FlushBlockFile_spec fin f : 0 <= nLastBlockFile f < zlen (vinfoBlockFile f) ->
  exists f', FlushBlockFile fin f = Ok f' /\ vinfoBlockFile f' = vinfoBlockFile f /\ nLastBlockFile f' = nLastBlockFile f /\ moved f f'.
Proof.
  intros Hl. unfold FlushBlockFile. set (pos := {| CDiskBlockPos.nFile := _ |}).
  assert (CDiskBlockPos.IsNull pos = false) as Hn by (unfold CDiskBlockPos.IsNull, pos; cbn [CDiskBlockPos.nFile]; lia).
  destruct (info_in _ _ Hl) as (i & Ei & Eat). pose (v := vinfoBlockFile f). pose (n := nLastBlockFile f).
  destruct (open_at (nsize v) (blk f) pos Hn) as (c & m & -> & Hc & Hk). cbn [vinfoBlockFile nLastBlockFile set_blk blk].
  destruct (open_at (usize v) (rev_ f) pos Hn) as (c2 & m2 & Eo & Hc2 & Hk2).
  assert (keeps (nsize v) (blk f) (<[n := TruncateFile (CBlockFileInfo.nSize i) c]> m)) as Kb.
  { eapply keeps_trans; [reflexivity| |apply keeps_truncate; [exact Hc|by rewrite (nsize_at v _ i _ Ei)]]. done. }
  assert (keeps (usize v) (rev_ f) (<[n := TruncateFile (CBlockFileInfo.nUndoSize i) c2]> m2)) as Kr.
  { eapply keeps_trans; [reflexivity| |apply keeps_truncate; [exact Hc2|by rewrite (usize_at v _ i _ Ei)]]. done. }
  destruct fin; cbn [res_bind set_blk blk rev_ vinfoBlockFile nLastBlockFile].
  - rewrite Eat. cbn [res_bind set_rev set_blk rev_ nLastBlockFile vinfoBlockFile]. rewrite Eo. cbn [set_rev nLastBlockFile vinfoBlockFile]. rewrite Eat.
    cbn [res_bind]. eexists. split_and!; [reflexivity|done|done|]. split; cbn; [exact Kb|exact Kr|lia|lia|lia].
  - rewrite Eo. eexists. split_and!; [reflexivity|done|done|]. split; cbn; [exact Hk|exact Hk2|lia|lia|lia].
Qed.

Lemma preallocate_spec bound chunk pos nNew m r grown : CDiskBlockPos.IsNull pos = false ->
  preallocate CheckDiskSpace chunk pos nNew m = (r, grown) -> match r with Some m' => keeps bound m m' | None => exists n, CheckDiskSpace n = false end.
Proof.
  intros Hn. unfold preallocate. case_bool; [|intros [= <- <-]; reflexivity]. destruct (CheckDiskSpace _) eqn:Ed; [|intros [= <- <-]; by eexists].
  destruct (open_at bound m pos Hn) as (c & m' & -> & Hc & Hk). intros [= <- <-].
  eapply keeps_trans; [reflexivity|exact Hk|by apply keeps_allocate].
Qed.

(** The outcome: a report that there is no space, or success. *)
Definition outcome (r : bool) (state state' : CValidationState.t) : Prop :=
  if r then state' = state else CValidationState.IsError state' = true /\ exists n, CheckDiskSpace n = false.

Lemma FindBlockPos_spec state pos0 nAddSize h t f : files_ok f -> 0 <= nAddSize < MAX_BLOCKFILE_SIZE -> nLastBlockFile f + 2 < 2 ^ 31 ->
  exists r state' pos f', FindBlockPos CheckDiskSpace fPruneMode state pos0 nAddSize h t false f = Ok (r, state', pos, f') /\
    outcome r state state' /\ files_ok f' /\ moved f f' /\ nLastBlockFile f' <= nLastBlockFile f + 1 /\
    0 <= CDiskBlockPos.nFile pos < zlen (vinfoBlockFile f') /\ CDiskBlockPos.nPos pos = nsize (vinfoBlockFile f) (CDiskBlockPos.nFile pos) /\
    nsize (vinfoBlockFile f') (CDiskBlockPos.nFile pos) = CDiskBlockPos.nPos pos + nAddSize /\ CDiskBlockPos.nPos pos + nAddSize < MAX_BLOCKFILE_SIZE /\
    (forall k, usize (vinfoBlockFile f') k = usize (vinfoBlockFile f) k).
Proof.
  intros [Hlast Hlen Hinfo Hb Hr] Ha Hmax. unfold FindBlockPos. cbn [negb]. rewrite (wrap_small 32) by (unfold in_u; lia).
  set (v0 := vinfoBlockFile f) in *. set (v := resize_info (nLastBlockFile f) v0).
  destruct (resize_info_spec (nLastBlockFile f) v0 Hlast) as (Rl & Rz & Rn & Ru & Rok). fold v in Rl, Rz, Rn, Ru, Rok. specialize (Rok Hinfo).
  cbn [set_info vinfoBlockFile]. fold v0 v.
  destruct (next_file_spec nAddSize (length v) (nLastBlockFile f) v Ha ltac:(lia) ltac:(lia) Rok ltac:(unfold zlen; lia)) as
    (n & w & -> & Hn & Hnv & Hw & Nn & Nu & Nok & Nroom). cbn [res_bind]. cbn [set_info vinfoBlockFile].
  destruct (info_in n w ltac:(lia)) as (i & Ei & Eat). rewrite Eat. cbn [res_bind].
  rewrite (swrap_small 32) by (unfold in_s; lia). cbn [nLastBlockFile].
  set (pos := {| CDiskBlockPos.nFile := n; CDiskBlockPos.nPos := CBlockFileInfo.nSize i |}).
  set (g := set_info w _).
  assert (moved f g) as Mg.
  { split; cbn; [reflexivity|reflexivity| | |fold v0; lia]; intros k; [rewrite Nn, Rn|rewrite Nu, Ru]; fold v0; lia. }
  assert (exists g', (if negb (n =? nLastBlockFile g) then (let? f := FlushBlockFile true g in Ok (set_last n f)) else Ok g) = Ok g' /\
    vinfoBlockFile g' = w /\ nLastBlockFile g' = n /\ moved f g') as (g' & -> & Gv & Gl & Gm).
  { change (nLastBlockFile g) with (nLastBlockFile f). destruct (Z.eqb_spec n (nLastBlockFile f)) as [->|Hne]; cbn [negb]; [by exists g|].
    destruct (FlushBlockFile_spec true g ltac:(cbn; lia)) as (g' & -> & Ev & _ & Em). cbn [res_bind]. exists (set_last n g').
    split_and!; [done|exact Ev|done|]. transitivity g; [done|]. destruct Em. by split. }
  cbn [res_bind]. rewrite Gv, Eat. cbn [res_bind]. set (j := CBlockFileInfo.AddBlock h t i).
  change (CBlockFileInfo.nSize j) with (CBlockFileInfo.nSize i). set (j' := with_size _ j).
  assert (nsize w n = CBlockFileInfo.nSize i) as Esz by by apply (nsize_at w n).
  assert (info_ok i) as [Hi1 Hi2] by (rewrite Forall_lookup in Nok; by eapply Nok).
  assert (CBlockFileInfo.nSize j' = CBlockFileInfo.nSize i + nAddSize) as Ej.
  { unfold j'. cbn [with_size CBlockFileInfo.nSize]. rewrite wrap_small; [done|]. rewrite Esz in Nroom. unfold in_u, MAX_BLOCKFILE_SIZE in *. lia. }
  set (x := set_info (<[Z.to_nat n := j']> w) g').
  assert (moved f x) as Mx.
  { transitivity g'; [done|]. split; cbn; [reflexivity|reflexivity| | |rewrite Gv; unfold zlen; by rewrite length_insert]; intros k; rewrite Gv.
    - rewrite nsize_insert by lia. case_decide as Hk; [|lia]. rewrite Ej, (nsize_at w n i k Ei Hk). lia.
    - rewrite usize_insert by lia. case_decide as Hk; [|lia]. rewrite (usize_at w n i k Ei Hk). done. }
  assert (forall y, vinfoBlockFile y = vinfoBlockFile x -> nLastBlockFile y = n -> moved f y -> files_ok y) as Hok.
  { intros y Ey El [[By _] [Ry _] _ _ _]. split; [lia| | |by apply By|by apply Ry]; rewrite Ey; cbn [vinfoBlockFile x set_info].
    - unfold zlen in *. rewrite length_insert. lia.
    - apply Forall_insert; [done|]. split; [rewrite Ej, <- Esz; lia|done]. }
  assert (forall k, usize (<[Z.to_nat n := j']> w) k = usize v0 k) as Hus.
  { intros k. rewrite usize_insert by lia. case_decide as Hk; [|by rewrite Nu, Ru]. rewrite <- Ru, <- Nu, (usize_at w n i k Ei Hk). done. }
  assert (nsize (<[Z.to_nat n := j']> w) n = CBlockFileInfo.nSize i + nAddSize) as Hns by (rewrite nsize_insert, decide_True by (done || lia); done).
  assert (CDiskBlockPos.IsNull pos = false) as Hnull by (unfold CDiskBlockPos.IsNull, pos; cbn [CDiskBlockPos.nFile]; lia).
  assert (0 <= n < zlen (<[Z.to_nat n := j']> w)) as Hin by (unfold zlen in *; rewrite length_insert; lia).
  rewrite Esz in Nroom. assert (CBlockFileInfo.nSize i = nsize v0 n) as Epos by by rewrite <- Esz, Nn, Rn.
  destruct (preallocate _ _ pos _ _) as [[m|] grown] eqn:Ep; pose proof (preallocate_spec (nsize v0) _ _ _ _ _ _ Hnull Ep) as Kp.
  - eexists true, state, pos, _. split; [reflexivity|]. set (y := set_dirty n (set_blk m _)).
    assert (vinfoBlockFile y = vinfoBlockFile x /\ nLastBlockFile y = n /\ blk y = m /\ rev_ y = rev_ x) as (Y1 & Y2 & Y3 & Y4)
      by (unfold y; destruct (grown && fPruneMode); by rewrite <- ?Gl).
    assert (moved f y) as My.
    { destruct Mx as [M1 M2 M3 M4 M5]. split; rewrite ?Y1, ?Y3, ?Y4; [|exact M2|exact M3|exact M4|exact M5]. eapply keeps_trans; [reflexivity|exact M1|exact Kp]. }
    split_and!; [done|by apply Hok|done|rewrite Y2; lia|cbn; lia|rewrite Y1; cbn; lia|exact Epos|by rewrite Y1|cbn; lia|by rewrite Y1].
  - destruct (CValidationState.Error "out of disk space" state) as [r state'] eqn:Es. injection Es as <- Es'.
    eexists false, state', pos, _. split; [reflexivity|]. set (y := if grown && fPruneMode then _ else x).
    assert (vinfoBlockFile y = vinfoBlockFile x /\ nLastBlockFile y = n /\ blk y = blk x /\ rev_ y = rev_ x) as (Y1 & Y2 & Y3 & Y4)
      by (unfold y; destruct (grown && fPruneMode); by rewrite <- ?Gl).
    assert (moved f y) as My by (destruct Mx as [M1 M2 M3 M4 M5]; split; rewrite ?Y1, ?Y3, ?Y4; done).
    split_and!; [by rewrite <- Es'|by apply Hok|done|rewrite Y2; lia|cbn; lia|rewrite Y1; cbn; lia|exact Epos|by rewrite Y1|cbn; lia|by rewrite Y1].
Qed.

Lemma FindUndoPos_spec state nFile nAddSize f : files_ok f -> 0 <= nFile < zlen (vinfoBlockFile f) -> 0 <= nAddSize ->
  usize (vinfoBlockFile f) nFile + nAddSize < 2 ^ 32 ->
  exists r state' f', let pos := {| CDiskBlockPos.nFile := nFile; CDiskBlockPos.nPos := usize (vinfoBlockFile f) nFile |} in
    FindUndoPos CheckDiskSpace fPruneMode state nFile nAddSize f = Ok (r, state', pos, f') /\
    outcome r state state' /\ files_ok f' /\ moved f f' /\ nLastBlockFile f' = nLastBlockFile f /\
    zlen (vinfoBlockFile f') = zlen (vinfoBlockFile f) /\ (forall k, nsize (vinfoBlockFile f') k = nsize (vinfoBlockFile f) k) /\
    (forall k, usize (vinfoBlockFile f') k = usize (vinfoBlockFile f) k + if decide (Z.to_nat k = Z.to_nat nFile) then nAddSize else 0).
Proof.
  intros [Hlast Hlen Hinfo Hb Hr] Hn Ha Hu. unfold FindUndoPos. set (v := vinfoBlockFile f) in *.
  destruct (info_in nFile v Hn) as (i & Ei & ->). cbn [res_bind]. assert (usize v nFile = CBlockFileInfo.nUndoSize i) as Eu by by apply (usize_at v nFile).
  assert (info_ok i) as [Hi1 Hi2] by (rewrite Forall_lookup in Hinfo; by eapply Hinfo). rewrite Eu in Hu |- *.
  rewrite (wrap_small 32) by (unfold in_u; lia). set (pos := {| CDiskBlockPos.nFile := nFile |}). set (j := with_undo_size _ i).
  assert (CDiskBlockPos.IsNull pos = false) as Hnull by (unfold CDiskBlockPos.IsNull, pos; cbn [CDiskBlockPos.nFile]; lia).
  assert (forall k, nsize (<[Z.to_nat nFile := j]> v) k = nsize v k) as Hns.
  { intros k. rewrite nsize_insert by lia. case_decide as Hk; [|done]. by rewrite (nsize_at v nFile i k Ei Hk). }
  assert (forall k, usize (<[Z.to_nat nFile := j]> v) k = usize v k + if decide (Z.to_nat k = Z.to_nat nFile) then nAddSize else 0) as Hus.
  { intros k. rewrite usize_insert by lia. case_decide as Hk; [|lia]. by rewrite (usize_at v nFile i k Ei Hk). }
  assert (zlen (<[Z.to_nat nFile := j]> v) = zlen v) as Hz by (unfold zlen; by rewrite length_insert).
  assert (forall y m, vinfoBlockFile y = <[Z.to_nat nFile := j]> v -> nLastBlockFile y = nLastBlockFile f -> blk y = blk f -> rev_ y = m ->
    keeps (usize v) (rev_ f) m -> files_ok y /\ moved f y) as Hok.
  { intros y m Ev El Eb Er Hk. assert (moved f y) as My.
    { split; rewrite ?Ev, ?Eb, ?Er; [reflexivity|exact Hk| | |fold v; lia]; intros k; fold v; rewrite ?Hns, ?Hus; [lia|case_decide; lia]. }
    split; [|done]. destruct My as [[By _] [Ry _] _ _ _]. split; [lia| | |by apply By|by apply Ry]; rewrite Ev; [lia|].
    apply Forall_insert; [done|]. split; [exact Hi1|]. cbn [j with_undo_size CBlockFileInfo.nUndoSize]. lia. }
  set (g := set_dirty nFile _). destruct (preallocate _ _ pos _ _) as [[m|] grown] eqn:Ep; pose proof (preallocate_spec (usize v) _ _ _ _ _ _ Hnull Ep) as Kp.
  - eexists true, state, _. split; [reflexivity|]. set (y := set_rev m _).
    assert (vinfoBlockFile y = <[Z.to_nat nFile := j]> v /\ nLastBlockFile y = nLastBlockFile f /\ blk y = blk f /\ rev_ y = m) as (Y1 & Y2 & Y3 & Y4)
      by (unfold y; by destruct (grown && fPruneMode)).
    destruct (Hok y m Y1 Y2 Y3 Y4 Kp). rewrite Y1. by split_and!.
  - destruct (CValidationState.Error "out of disk space" state) as [r state'] eqn:Es. injection Es as <- Es'.
    eexists false, state', _. split; [reflexivity|]. set (y := if grown && fPruneMode then _ else _).
    assert (vinfoBlockFile y = <[Z.to_nat nFile := j]> v /\ nLastBlockFile y = nLastBlockFile f /\ blk y = blk f /\ rev_ y = rev_ f) as (Y1 & Y2 & Y3 & Y4)
      by (unfold y; by destruct (grown && fPruneMode)).
    destruct (Hok y (rev_ f) Y1 Y2 Y3 Y4 ltac:(reflexivity)). rewrite Y1. split_and!; try done. by rewrite <- Es'.
Qed.
End finding.

(** ** Writing and reading records *)

Lemma at_written m n p d1 d2 d3 c : at_ (<[n := fwrite_at p (d1 ++ d2 ++ d3) c]> m) n (p + length d1) d2.
Proof.
  exists (fwrite_at p (d1 ++ d2 ++ d3) c). rewrite lookup_insert_eq, fwrite_length, !length_app. split_and!; [done|lia|].
  rewrite <- fwrite_app, <- fwrite_app. rewrite fwrite_before by (rewrite ?fwrite_length; lia). apply fwrite_slice.
Qed.

Lemma write_Ok d c p : CAutoFile.write d (CAutoFile.mk (Some (c, p))) = Ok (CAutoFile.mk (Some (fwrite_at p d c, (p + length d)%nat))).
Proof. done. Qed.

(** A record is read from any stream that starts with it. *)
Lemma at_stream m n a d : at_ m n a d -> bytes_dir m -> exists c, m !! n = Some c /\ s_ok (CAutoFile.mk (Some (c, a))) /\
  exists rest, s_view (CAutoFile.mk (Some (c, a))) = d ++ rest.
Proof.
  intros (c & E & Hl & Hs) Hb. exists c. split; [done|]. split; [exists c, a; split; [done|by apply (Hb n)]|].
  exists (drop (length d) (drop a c)). cbn [s_view CAutoFile_Laws CAutoFile.file]. rewrite <- Hs at 1. unfold slice. by rewrite take_drop.
Qed.

Section records.
Context (sizeof_CTxIn sizeof_CTxOut sizeof_vector sizeof_ref : Z) (Hash : bytes -> uint256) (params : Consensus.Params).
Context (ec : secp256k1) (mem : bytes) (sizeof_CTxInUndo sizeof_CTxUndo : Z).
Context (Hin : 0 < sizeof_CTxIn <= 5000000) (Hout : 0 < sizeof_CTxOut <= 5000000) (Hvec : 0 < sizeof_vector <= 5000000)
  (Href : 0 < sizeof_ref <= 5000000) (Hiu : 0 < sizeof_CTxInUndo <= 5000000) (Htu : 0 < sizeof_CTxUndo <= 5000000).
Context (Hec : curve_compression ec) (Hash_wf : forall x, wf256 (Hash x)).

Abbreviation block_codec := (Block.c_block sizeof_CTxIn sizeof_CTxOut sizeof_vector sizeof_ref Hash CLIENT_VERSION).
Abbreviation undo_codec := (CBlockUndo.codec ec mem sizeof_CTxInUndo sizeof_CTxUndo).

Definition block_record (b : CBlock) : bytes := Codec.Serialize block_codec b.
Definition undo_record (hashBlock : uint256) (u : CBlockUndo.t) : bytes :=
  Codec.Serialize undo_codec u ++ Codec.Serialize c_uint256 (undo_checksum Hash ec mem sizeof_CTxInUndo sizeof_CTxUndo hashBlock u).

Lemma word_length n : length (Codec.Serialize c_u32 n) = 4%nat.
Proof. done. Qed.

Lemma word_bytes n : byte_list (Codec.Serialize c_u32 n).
Proof. apply le_bytes_bytes. Qed.

(** The header of four bytes and the size, then the record [d]: where [d] lies. *)
Lemma record_spec bound pos m c n start d : 0 <= CDiskBlockPos.nPos pos -> length start = 4%nat -> byte_list start -> byte_list d ->
  bound (CDiskBlockPos.nFile pos) <= CDiskBlockPos.nPos pos -> m !! CDiskBlockPos.nFile pos = Some c ->
  let p := Z.to_nat (CDiskBlockPos.nPos pos) in let m' := <[CDiskBlockPos.nFile pos := fwrite_at p ((start ++ Codec.Serialize c_u32 n) ++ d) c]> m in
  keeps bound m m' /\ at_ m' (CDiskBlockPos.nFile pos) (Z.to_nat (CDiskBlockPos.nPos pos + 8)) d.
Proof.
  intros Hp Hs Hsb Hd Hb Hc p m'. split.
  - apply keeps_write; [done| |unfold p; lia]. apply byte_list_app; split; [apply byte_list_app; split; [done|apply word_bytes]|done].
  - pose proof (at_written m (CDiskBlockPos.nFile pos) p (start ++ Codec.Serialize c_u32 n) d [] c) as H. rewrite app_nil_r in H.
    replace (Z.to_nat (CDiskBlockPos.nPos pos + 8)) with (p + length (start ++ Codec.Serialize c_u32 n))%nat; [exact H|].
    rewrite length_app, Hs, word_length. unfold p. lia.
Qed.

Lemma record_pos pos (start : bytes) n : 0 <= CDiskBlockPos.nPos pos < 2 ^ 32 - 8 -> length start = 4%nat ->
  u32 (Z.of_nat (Z.to_nat (CDiskBlockPos.nPos pos) + length start + length (Codec.Serialize c_u32 n))) = CDiskBlockPos.nPos pos + 8.
Proof. intros Hp Hs. rewrite Hs, word_length, wrap_small by (unfold in_u; lia). lia. Qed.

Lemma WriteBlockToDisk_spec bound b pos start m : CDiskBlockPos.IsNull pos = false -> 0 <= CDiskBlockPos.nPos pos < 2 ^ 32 - 8 ->
  length start = 4%nat -> byte_list start -> byte_list (block_record b) -> bound (CDiskBlockPos.nFile pos) <= CDiskBlockPos.nPos pos ->
  let pos' := {| CDiskBlockPos.nFile := CDiskBlockPos.nFile pos; CDiskBlockPos.nPos := CDiskBlockPos.nPos pos + 8 |} in
  exists m', WriteBlockToDisk sizeof_CTxIn sizeof_CTxOut sizeof_vector sizeof_ref Hash b pos start m = Ok (true, pos', m') /\ keeps bound m m' /\
    at_ m' (CDiskBlockPos.nFile pos) (Z.to_nat (CDiskBlockPos.nPos pos + 8)) (block_record b).
Proof.
  intros Hn Hp Hs Hsb Hb Hbound pos'. unfold WriteBlockToDisk. destruct (open_at bound m pos Hn) as (c & m1 & -> & Hc & Hk).
  cbn [CAutoFile.IsNull CAutoFile.file]. rewrite write_Ok. cbn [res_bind]. rewrite write_Ok. cbn [res_bind CAutoFile.file res_of_option].
  rewrite write_Ok. cbn [res_bind close CAutoFile.file CDiskBlockPos.nFile]. set (n := u32 (GetSerializeSize _ _)).
  rewrite !fwrite_app, app_assoc, record_pos by done. fold (block_record b).
  destruct (record_spec bound pos m1 c n start (block_record b) ltac:(lia) Hs Hsb Hb Hbound Hc) as [Hk2 Hat].
  eexists. split; [reflexivity|]. split; [by eapply keeps_trans; [|exact Hk|exact Hk2]|exact Hat].
Qed.

Lemma UndoWriteToDisk_spec bound u h pos start m : CDiskBlockPos.IsNull pos = false -> 0 <= CDiskBlockPos.nPos pos < 2 ^ 32 - 8 ->
  length start = 4%nat -> byte_list start -> byte_list (undo_record h u) -> bound (CDiskBlockPos.nFile pos) <= CDiskBlockPos.nPos pos ->
  let pos' := {| CDiskBlockPos.nFile := CDiskBlockPos.nFile pos; CDiskBlockPos.nPos := CDiskBlockPos.nPos pos + 8 |} in
  exists m', UndoWriteToDisk Hash ec mem sizeof_CTxInUndo sizeof_CTxUndo u pos h start m = Ok (true, pos', m') /\ keeps bound m m' /\
    at_ m' (CDiskBlockPos.nFile pos) (Z.to_nat (CDiskBlockPos.nPos pos + 8)) (undo_record h u).
Proof.
  intros Hn Hp Hs Hsb Hb Hbound pos'. unfold UndoWriteToDisk. destruct (open_at bound m pos Hn) as (c & m1 & -> & Hc & Hk).
  cbn [CAutoFile.IsNull CAutoFile.file]. rewrite write_Ok. cbn [res_bind]. rewrite write_Ok. cbn [res_bind CAutoFile.file res_of_option].
  rewrite write_Ok. cbn [res_bind]. rewrite write_Ok. cbn [res_bind close CAutoFile.file CDiskBlockPos.nFile]. set (n := u32 (GetSerializeSize _ _)).
  rewrite !fwrite_app, app_assoc, record_pos by done. fold (undo_record h u).
  destruct (record_spec bound pos m1 c n start (undo_record h u) ltac:(lia) Hs Hsb Hb Hbound Hc) as [Hk2 Hat].
  eexists. split; [reflexivity|]. split; [by eapply keeps_trans; [|exact Hk|exact Hk2]|exact Hat].
Qed.

(** A file that is there opens for reading. *)
Lemma open_read m n a c : n <> -1 -> m !! n = Some c ->
  OpenDiskFile m {| CDiskBlockPos.nFile := n; CDiskBlockPos.nPos := a |} true = (Some (c, Z.to_nat a), m).
Proof. intros Hn E. unfold OpenDiskFile, CDiskBlockPos.IsNull. cbn [CDiskBlockPos.nFile CDiskBlockPos.nPos]. by rewrite (proj2 (Z.eqb_neq _ _)), E. Qed.

Lemma ReadBlockFromDisk_spec m n a b : n <> -1 -> bytes_dir m -> at_ m n (Z.to_nat a) (block_record b) ->
  Block.wf_block sizeof_CTxIn sizeof_CTxOut sizeof_vector Hash CLIENT_VERSION b -> fChecked b = false ->
  CheckProofOfWork (Header.GetHash Hash (Block.GetBlockHeader b)) (Header.nBits (header b)) params = true ->
  ReadBlockFromDisk sizeof_CTxIn sizeof_CTxOut sizeof_vector sizeof_ref Hash params {| CDiskBlockPos.nFile := n; CDiskBlockPos.nPos := a |} m = Ok (Some b).
Proof.
  intros Hn Hm Hat Hw Hf Hpow. destruct (at_stream m n _ _ Hat Hm) as (c & Hc & Hok & rest & Hv). unfold ReadBlockFromDisk.
  rewrite (open_read m n a c Hn Hc). cbn [CAutoFile.IsNull CAutoFile.file].
  pose proof (Block.c_block_lawful sizeof_CTxIn sizeof_CTxOut sizeof_vector sizeof_ref Hash Hin Hout Hvec Href CLIENT_VERSION) as L.
  destruct (law_reads (Lawful := L) CAutoFile.t b (conj Hw Hf) _ rest Hok Hv) as (s' & -> & _). by rewrite Hpow.
Qed.

Lemma UndoReadFromDisk_spec m n a h u : n <> -1 -> bytes_dir m -> at_ m n (Z.to_nat a) (undo_record h u) -> wf_blockundo u ->
  UndoReadFromDisk Hash ec mem sizeof_CTxInUndo sizeof_CTxUndo {| CDiskBlockPos.nFile := n; CDiskBlockPos.nPos := a |} h m = Ok (Some u).
Proof.
  intros Hn Hm Hat Hw. destruct (at_stream m n _ _ Hat Hm) as (c & Hc & Hok & rest & Hv). unfold UndoReadFromDisk.
  rewrite (open_read m n a c Hn Hc). cbn [CAutoFile.IsNull CAutoFile.file].
  pose proof (blockundo_lawful ec Hec mem sizeof_CTxInUndo sizeof_CTxUndo Hiu Htu) as L.
  unfold undo_record in Hv. rewrite <- app_assoc in Hv.
  destruct (law_reads (Lawful := L) CAutoFile.t u Hw _ _ Hok Hv) as (s1 & E1 & Hok1 & Hv1).
  set (sum := undo_checksum _ _ _ _ _ h u) in *.
  destruct (law_reads (c := c_uint256) CAutoFile.t sum ltac:(apply Hash_wf) _ _ Hok1 Hv1) as (s2 & E2 & _).
  unfold rd_bind, rd_ret. rewrite E1. cbn [res_bind]. rewrite E2. cbn [res_bind]. fold sum. unfold BaseUint.op_ne, BaseUint.op_eq.
  by rewrite bool_decide_true.
Qed.

(** *** Sequences of records

    What [AcceptBlock] and [ConnectBlock] do with a block and with its undo
    data, which goes to the undo file of the block's number. *)

Context (CheckDiskSpace : Z -> bool) (fPruneMode : bool) (start : bytes) (state : CValidationState.t).

Inductive store_op := SaveBlock (b : CBlock) (nHeight nTime : Z) | SaveUndo (k : nat) (u : CBlockUndo.t) (hashPrev : uint256).
Inductive saved := SavedBlock (pos : CDiskBlockPos.t) (b : CBlock) | SavedUndo (pos : CDiskBlockPos.t) (hashPrev : uint256) (u : CBlockUndo.t).

Definition saved_pos (r : saved) : CDiskBlockPos.t := match r with SavedBlock pos _ => pos | SavedUndo pos _ _ => pos end.
Definition saved_block (r : saved) : option CBlock := match r with SavedBlock _ b => Some b | _ => None end.
Definition op_block (o : store_op) : option CBlock := match o with SaveBlock b _ _ => Some b | _ => None end.

Definition run_store (o : store_op) (log : list saved) (f : block_files) : res (list saved * block_files) :=
  match o with
  | SaveBlock b nHeight nTime =>
      let? (r, _, pos, f) := FindBlockPos CheckDiskSpace fPruneMode state CDiskBlockPos.SetNull (Codec.GetSerializeSize block_codec b + 8) nHeight nTime false f in
      if r : bool then
        let? (ok, pos, m) := WriteBlockToDisk sizeof_CTxIn sizeof_CTxOut sizeof_vector sizeof_ref Hash b pos start (blk f) in
        Ok (if ok : bool then log ++ [SavedBlock pos b] else log, set_blk m f)
      else Ok (log, f)
  | SaveUndo k u h =>
      match log !! k with
      | None => Ok (log, f)
      | Some r =>
          let? (r, _, pos, f) := FindUndoPos CheckDiskSpace fPruneMode state (CDiskBlockPos.nFile (saved_pos r)) (Codec.GetSerializeSize undo_codec u + 40) f in
          if r : bool then
            let? (ok, pos, m) := UndoWriteToDisk Hash ec mem sizeof_CTxInUndo sizeof_CTxUndo u pos h start (rev_ f) in
            Ok (if ok : bool then log ++ [SavedUndo pos h u] else log, set_rev m f)
          else Ok (log, f)
      end
  end.

Fixpoint run_stores (ops : list store_op) (log : list saved) (f : block_files) : res (list saved * block_files) :=
  match ops with
  | [] => Ok (log, f)
  | o :: ops => let? (log, f) := run_store o log f in run_stores ops log f
  end.

Definition op_ok (o : store_op) : Prop :=
  match o with
  | SaveBlock b _ _ =>
      Block.wf_block sizeof_CTxIn sizeof_CTxOut sizeof_vector Hash CLIENT_VERSION b /\ fChecked b = false /\
      CheckProofOfWork (Header.GetHash Hash (Block.GetBlockHeader b)) (Header.nBits (header b)) params = true /\
      byte_list (block_record b) /\ zlen (block_record b) + 8 < MAX_BLOCKFILE_SIZE
  | SaveUndo _ u h => wf_blockundo u /\ byte_list (undo_record h u)
  end.

Definition undo_space (o : store_op) : Z := match o with SaveBlock _ _ _ => 0 | SaveUndo _ u _ => Codec.GetSerializeSize undo_codec u + 40 end.
Definition undo_total (ops : list store_op) : Z := foldr (fun o n => undo_space o + n) 0 ops.

(** The record reads back. *)
Definition reads_back (f : block_files) (r : saved) : Prop :=
  match r with
  | SavedBlock pos b => ReadBlockFromDisk sizeof_CTxIn sizeof_CTxOut sizeof_vector sizeof_ref Hash params pos (blk f) = Ok (Some b)
  | SavedUndo pos h u => UndoReadFromDisk Hash ec mem sizeof_CTxInUndo sizeof_CTxUndo pos h (rev_ f) = Ok (Some u)
  end.

(** It lies within the sizes of its file. *)
Definition kept (f : block_files) (r : saved) : Prop :=
  0 <= CDiskBlockPos.nFile (saved_pos r) < zlen (vinfoBlockFile f) /\ 0 <= CDiskBlockPos.nPos (saved_pos r) /\
  let n := CDiskBlockPos.nFile (saved_pos r) in let a := CDiskBlockPos.nPos (saved_pos r) in
  match r with
  | SavedBlock _ b => op_ok (SaveBlock b 0 0) /\ at_ (blk f) n (Z.to_nat a) (block_record b) /\ a + zlen (block_record b) <= nsize (vinfoBlockFile f) n
  | SavedUndo _ h u => op_ok (SaveUndo 0 u h) /\ at_ (rev_ f) n (Z.to_nat a) (undo_record h u) /\ a + zlen (undo_record h u) <= usize (vinfoBlockFile f) n
  end.

Lemma kept_moved f f' r : moved f f' -> kept f r -> kept f' r.
Proof.
  intros [[_ B] [_ R] N U Hz] (Hn & Ha & Hr). split; [lia|]. split; [done|]. unfold zlen in Hr.
  destruct r as [pos b|pos h u]; cbn [saved_pos] in *; destruct Hr as (Ho & Hat & Hl); (split; [exact Ho|]); (split; [|unfold zlen]);
    try (specialize (N (CDiskBlockPos.nFile pos)); lia); try (specialize (U (CDiskBlockPos.nFile pos)); lia).
  - apply B; [done|lia].
  - apply R; [done|lia].
Qed.

Lemma kept_reads f r : files_ok f -> kept f r -> reads_back f r.
Proof.
  intros [_ _ _ Hb Hr] (Hn & Ha & H). destruct r as [[n a] b|[n a] h u]; cbn [saved_pos CDiskBlockPos.nFile CDiskBlockPos.nPos] in *.
  - destruct H as ((Hw & Hf & Hp & _) & Hat & _). apply ReadBlockFromDisk_spec; try done. lia.
  - destruct H as ((Hw & _) & Hat & _). apply UndoReadFromDisk_spec; try done. lia.
Qed.

Lemma block_size_of b : op_ok (SaveBlock b 0 0) -> Codec.GetSerializeSize block_codec b = zlen (block_record b).
Proof.
  intros (Hw & Hf & _). pose proof (Block.c_block_lawful sizeof_CTxIn sizeof_CTxOut sizeof_vector sizeof_ref Hash Hin Hout Hvec Href CLIENT_VERSION) as L.
  by apply (GetSerializeSize_length _ _ (Lawful0 := L)).
Qed.

Lemma undo_size_of k u h : op_ok (SaveUndo k u h) ->
  0 <= Codec.GetSerializeSize undo_codec u /\ Codec.GetSerializeSize undo_codec u + 32 = zlen (undo_record h u).
Proof.
  intros (Hw & _). pose proof (blockundo_lawful ec Hec mem sizeof_CTxInUndo sizeof_CTxUndo Hiu Htu) as L.
  rewrite (GetSerializeSize_length _ _ (Lawful0 := L) u Hw). split; [lia|]. unfold undo_record. rewrite zlen_app. f_equal.
  unfold zlen. cbn [Codec.Serialize c_uint256 c_base_uint]. unfold Serialize_uint. cbn [app]. rewrite length_pn_bytes.
  by destruct (Hash_wf (Codec.Serialize c_uint256 h ++ Codec.Serialize undo_codec u)) as [E _]; unfold undo_checksum; rewrite E.
Qed.

Context (Hstart : length start = 4%nat) (Hstart_bytes : byte_list start).

Lemma sizes_nonneg f k : files_ok f -> 0 <= nsize (vinfoBlockFile f) k /\ 0 <= usize (vinfoBlockFile f) k.
Proof.
  intros [_ _ H _ _]. unfold nsize, usize. destruct (vinfoBlockFile f !! Z.to_nat k) as [i|] eqn:E; [|done].
  rewrite Forall_lookup in H. destruct (H _ _ E). cbn. lia.
Qed.

Lemma saved_file (pos : CDiskBlockPos.t) (v : list CBlockFileInfo.t) : 0 <= CDiskBlockPos.nFile pos < zlen v -> CDiskBlockPos.IsNull pos = false.
Proof. unfold CDiskBlockPos.IsNull. lia. Qed.

(** Writing behind what was there at [f]. *)
Lemma moved_blk_write f f1 m : files_ok f1 -> moved f f1 -> keeps (nsize (vinfoBlockFile f)) (blk f1) m ->
  files_ok (set_blk m f1) /\ moved f (set_blk m f1).
Proof.
  intros [? ? ? Hb ?] [M1 M2 M3 M4 M5] Hk. split; [split; try done; by apply Hk|].
  split; cbn; [by eapply keeps_trans; [|exact M1|exact Hk]|done..].
Qed.
Lemma moved_rev_write f f1 m : files_ok f1 -> moved f f1 -> keeps (usize (vinfoBlockFile f)) (rev_ f1) m ->
  files_ok (set_rev m f1) /\ moved f (set_rev m f1).
Proof.
  intros [? ? ? ? Hr] [M1 M2 M3 M4 M5] Hk. split; [split; try done; by apply Hk|].
  split; cbn; [done|by eapply keeps_trans; [|exact M2|exact Hk]|done..].
Qed.

(** What a step keeps: [T] bounds the undo files. *)
Record store_ok (log : list saved) (f : block_files) (T : Z) : Prop := {
  store_files : files_ok f;
  store_kept : Forall (kept f) log;
  store_undo k : usize (vinfoBlockFile f) k <= T;
}.

Definition blocks_of (log : list saved) : list CBlock := omap saved_block log.

Lemma save_block_spec b h t log f T : store_ok log f T -> op_ok (SaveBlock b h t) -> nLastBlockFile f + 2 < 2 ^ 31 ->
  exists log' f', run_store (SaveBlock b h t) log f = Ok (log', f') /\ store_ok log' f' T /\ nLastBlockFile f' <= nLastBlockFile f + 1 /\
    ((forall n, CheckDiskSpace n = true) -> blocks_of log' = blocks_of log ++ [b]).
Proof.
  intros [Hf Hk Hu] Ho Hmax. cbn [run_store]. rewrite (block_size_of b Ho). pose proof Ho as (_ & _ & _ & Hbytes & Hsz).
  destruct (FindBlockPos_spec CheckDiskSpace fPruneMode state CDiskBlockPos.SetNull (zlen (block_record b) + 8) h t f Hf) as
    (r & st' & pos & f1 & -> & Hres & Hf1 & Hm & Hlast & Hn & Hpos & Hsize & Hroom & Hus); [unfold zlen in *; lia|done|]. cbn [res_bind].
  assert (Forall (kept f1) log) as Hk1 by (eapply Forall_impl; [exact Hk|]; intros x Hx; by eapply kept_moved).
  assert (forall k, usize (vinfoBlockFile f1) k <= T) as Hu1 by (intros k; by rewrite Hus).
  destruct r; [|exists log, f1; split_and!; [done|by split|done|]; intros Hall; destruct Hres as (_ & n & E); by rewrite Hall in E].
  destruct (sizes_nonneg f (CDiskBlockPos.nFile pos) Hf) as [Hp0 _]. unfold MAX_BLOCKFILE_SIZE in *.
  destruct (WriteBlockToDisk_spec (nsize (vinfoBlockFile f)) b pos start (blk f1)) as (m & -> & Hkm & Hat);
    [by eapply saved_file|unfold zlen in *; lia|done|done|done|lia|]. cbn [res_bind].
  destruct (moved_blk_write f f1 m Hf1 Hm Hkm) as [Hf2 Hm2]. eexists _, _. split_and!; [reflexivity| |exact Hlast|].
  - split; [exact Hf2| |exact Hu1]. apply Forall_app. split; [eapply Forall_impl; [exact Hk|]; intros x Hx; by eapply kept_moved|].
    apply Forall_singleton. split; [exact Hn|]. split; [cbn; lia|]. cbn [saved_pos CDiskBlockPos.nFile CDiskBlockPos.nPos set_blk blk vinfoBlockFile].
    split_and!; [exact Ho|exact Hat|lia].
  - intros _. unfold blocks_of. by rewrite omap_app.
Qed.

Lemma save_undo_spec k u h log f T : store_ok log f T -> op_ok (SaveUndo k u h) ->
  T + undo_space (SaveUndo k u h) < 2 ^ 32 ->
  exists log' f', run_store (SaveUndo k u h) log f = Ok (log', f') /\ store_ok log' f' (T + undo_space (SaveUndo k u h)) /\
    nLastBlockFile f' = nLastBlockFile f /\ blocks_of log' = blocks_of log.
Proof.
  intros [Hf Hk Hu] Ho HT. cbn [run_store undo_space] in *. destruct (undo_size_of k u h Ho) as [Hn0 Hsz]. pose proof Ho as (_ & Hbytes).
  set (n := Codec.GetSerializeSize undo_codec u) in *.
  destruct (log !! k) as [r0|] eqn:Er; [|exists log, f; split_and!; [done|split; [done|done|intros j; specialize (Hu j); lia]|done|done]].
  assert (kept f r0) as (Hfile & _) by (rewrite Forall_lookup in Hk; by eapply Hk). set (nf := CDiskBlockPos.nFile (saved_pos r0)) in *.
  destruct (FindUndoPos_spec CheckDiskSpace fPruneMode state nf (n + 40) f Hf Hfile ltac:(lia)) as
    (r & st' & f1 & -> & _ & Hf1 & Hm & Hlast & Hlen & Hns & Hus); [specialize (Hu nf); lia|]. cbn [res_bind].
  set (pos := {| CDiskBlockPos.nFile := nf |}). destruct (sizes_nonneg f nf Hf) as [_ Hp0]. pose proof (Hu nf) as Hunf.
  assert (forall k, usize (vinfoBlockFile f1) k <= T + (n + 40)) as Hu1 by (intros j; rewrite Hus; specialize (Hu j); case_decide; lia).
  destruct r; [|exists log, f1; split_and!; [done|split; [done|eapply Forall_impl; [exact Hk|]; intros x Hx; by eapply kept_moved|done]|done|done]].
  assert (CDiskBlockPos.IsNull pos = false) as Hnull by (unfold CDiskBlockPos.IsNull, pos; cbn [CDiskBlockPos.nFile]; lia).
  destruct (UndoWriteToDisk_spec (usize (vinfoBlockFile f)) u h pos start (rev_ f1)) as (m & -> & Hkm & Hat);
    [done|cbn; lia|done|done|done|cbn; lia|]. cbn [res_bind].
  destruct (moved_rev_write f f1 m Hf1 Hm Hkm) as [Hf2 Hm2]. eexists _, _. split_and!; [reflexivity| |exact Hlast|].
  - split; [exact Hf2| |exact Hu1]. apply Forall_app. split; [eapply Forall_impl; [exact Hk|]; intros x Hx; by eapply kept_moved|].
    apply Forall_singleton. split; [cbn; lia|]. split; [cbn; lia|]. cbn [saved_pos CDiskBlockPos.nFile CDiskBlockPos.nPos set_rev rev_ vinfoBlockFile pos] in *.
    split_and!; [exact Ho|exact Hat|]. rewrite Hus, decide_True by done. lia.
  - unfold blocks_of. by rewrite omap_app, app_nil_r.
Qed.

Lemma undo_total_nonneg ops : Forall op_ok ops -> 0 <= undo_total ops.
Proof.
  induction 1 as [|o ops Ho H IH]; [done|]. change (0 <= undo_space o + undo_total ops).
  destruct o as [b h t|k u h]; cbn [undo_space]; [lia|]. destruct (undo_size_of k u h Ho). lia.
Qed.

Lemma run_stores_spec ops : forall log f T, store_ok log f T -> Forall op_ok ops -> nLastBlockFile f + zlen ops + 2 < 2 ^ 31 ->
  T + undo_total ops < 2 ^ 32 ->
  exists log' f', run_stores ops log f = Ok (log', f') /\ store_ok log' f' (T + undo_total ops) /\
    ((forall n, CheckDiskSpace n = true) -> blocks_of log' = blocks_of log ++ omap op_block ops).
Proof.
  induction ops as [|o ops IH]; intros log f T Hs Ho Hl HT; cbn [run_stores omap].
  - exists log, f. split_and!; [done| |by rewrite app_nil_r]. by rewrite Z.add_0_r.
  - apply Forall_cons in Ho as [Ho Hos]. pose proof (undo_total_nonneg ops Hos). unfold zlen in Hl. cbn [length] in Hl.
    change (undo_total (o :: ops)) with (undo_space o + undo_total ops) in *.
    assert (exists log1 f1, run_store o log f = Ok (log1, f1) /\ store_ok log1 f1 (T + undo_space o) /\ nLastBlockFile f1 <= nLastBlockFile f + 1 /\
      ((forall n, CheckDiskSpace n = true) -> blocks_of log1 = blocks_of log ++ omap op_block [o])) as (log1 & f1 & -> & H1 & Hl1 & Hb1).
    { destruct o as [b h t|k u h].
      - destruct (save_block_spec b h t log f T Hs Ho ltac:(lia)) as (log1 & f1 & E & H1 & Hl1 & Hb1). exists log1, f1.
        split_and!; [done| |done|done]. by rewrite Z.add_0_r.
      - destruct (save_undo_spec k u h log f T Hs Ho ltac:(lia)) as (log1 & f1 & E & H1 & Hl1 & Hb1). exists log1, f1.
        split_and!; [done|done|lia|]. intros _. cbn. by rewrite app_nil_r. }
    cbn [res_bind]. destruct (IH log1 f1 _ H1 Hos ltac:(unfold zlen; lia) ltac:(lia)) as (log2 & f2 & E2 & H2 & Hb2).
    exists log2, f2. split_and!; [done|by rewrite Z.add_assoc|]. intros Hall. rewrite (Hb2 Hall), (Hb1 Hall), <- app_assoc. f_equal.
    change (o :: ops) with ([o] ++ ops). by rewrite omap_app.
Qed.
End records.

(** No file yet. *)
Definition no_files : block_files := mk_files [] 0 ∅ false ∅ ∅.


Definition demo_saved_block : CBlock :=
  mk_block {| Header.nVersion := 1; Header.hashPrevBlock := base_uint_zero WIDTH256; Header.hashMerkleRoot := base_uint_zero WIDTH256;
              Header.nTime := 3; Header.nBits := 0x1c00ffff; Header.nNonce := 7 |}
    [make_transaction 100 40 24 Merkle.toy_hash demo_tx] false.
Definition demo_saved_undo : CBlockUndo.t := CBlockUndo.mk [CTxUndo.mk [CTxInUndo.mk (CTxOut.mk 5000 [118; 1]) true 7 1]].
Definition demo_stores : list store_op :=
  [SaveBlock demo_saved_block 1 3; SaveUndo 0 demo_saved_undo (base_uint_zero WIDTH256); SaveBlock demo_saved_block 2 4].

