(* ===== verification/BlockConnect.v ===== *)
(** Connecting a block: [CheckInputs] and [ConnectBlock] of
    src/sige/src/validation.cpp, with everything they call.

    [CScriptCheck]s go to [CCheckQueue] when there are threads for them; here
    the queue runs them all when it is waited for, and CheckQueue.v shows that
    this is what any interleaving of its threads gives.  The cache of valid
    signatures, the index of transactions in LevelDB ([WriteTxIndex]), the
    notifications, benchmarks and log lines are left out; texts keep their
    format and not the values in it. *)

From S2P Require Import Prelude Bytes BaseUint UintBytes Uint256 Serialize Codec Header Chain ChainSpec BlockTree Pow VersionBits Opcode Prevector ScriptNum Script Amount Transaction Merkle Block PubKey Compressor Coins CoinsView Undo State Connect Rules Headers BlockRules Interpreter EvalScript SigHash VerifyScript BlockFiles.

Import Consensus.

(** The characters of a literal. *)
Definition chars (s : string) : list Z := map (fun c => Z.of_N (Ascii.N_of_ascii c)) (String.list_ascii_of_string s).

(** ** CDiskTxPos *)

Module CDiskTxPos.
Record t := mk { pos : CDiskBlockPos.t; nTxOffset : Z }.
End CDiskTxPos.

(** ** Script checks *)

Definition MANDATORY_SCRIPT_VERIFY_FLAGS : Z := SCRIPT_VERIFY_P2SH.
Definition STANDARD_SCRIPT_VERIFY_FLAGS : Z :=
  foldl Z.lor MANDATORY_SCRIPT_VERIFY_FLAGS [SCRIPT_VERIFY_DERSIG; SCRIPT_VERIFY_STRICTENC; SCRIPT_VERIFY_MINIMALDATA; SCRIPT_VERIFY_NULLDUMMY;
    SCRIPT_VERIFY_DISCOURAGE_UPGRADABLE_NOPS; SCRIPT_VERIFY_CLEANSTACK; SCRIPT_VERIFY_MINIMALIF; SCRIPT_VERIFY_NULLFAIL;
    SCRIPT_VERIFY_CHECKLOCKTIMEVERIFY; SCRIPT_VERIFY_CHECKSEQUENCEVERIFY; SCRIPT_VERIFY_LOW_S; SCRIPT_VERIFY_WITNESS;
    SCRIPT_VERIFY_DISCOURAGE_UPGRADABLE_WITNESS_PROGRAM; SCRIPT_VERIFY_WITNESS_PUBKEYTYPE].
Definition STANDARD_NOT_MANDATORY_VERIFY_FLAGS : Z := Z.land STANDARD_SCRIPT_VERIFY_FLAGS (Z.lnot MANDATORY_SCRIPT_VERIFY_FLAGS).

Module CScriptCheck.
Record t := mk {
  scriptPubKey : CScript;
  amount : Z;
  ptxTo : CTransaction;
  nIn : nat;
  nFlags : Z;
  cacheStore : bool;
  txdata : PrecomputedTransactionData;
}.

(** The output the input names is read without a check. *)
Definition make (txFromIn : CCoins.t) (txToIn : CTransaction) (nInIn : nat) (nFlagsIn : Z) (cacheIn : bool) (txdataIn : PrecomputedTransactionData) :
  res t :=
  let? txin := res_of_option (vin txToIn !! nInIn) in
  let? o := res_of_option (CCoins.vout txFromIn !! Z.to_nat (COutPoint.n (CTxIn.prevout txin))) in
  Ok (mk (CTxOut.scriptPubKey o) (CTxOut.nValue o) txToIn nInIn nFlagsIn cacheIn txdataIn).

Section check.
Context (WORDS_BIGENDIAN : bool) {hashes : Hashes} (ec : secp256k1) (mem : bytes).

(** [operator()] *)
Definition run (c : t) : res bool :=
  let? txin := res_of_option (vin (ptxTo c) !! nIn c) in
  let? r := VerifyScript WORDS_BIGENDIAN ec
    (checker := TransactionSignatureChecker WORDS_BIGENDIAN ec mem (ptxTo c) (Z.of_nat (nIn c)) (amount c) (Some (txdata c)))
    (nFlags c) (CTxIn.scriptSig txin) (scriptPubKey c) (Some (CTxIn.scriptWitness txin)) in
  match r with inl _ => Ok false | inr _ => Ok true end.

(** What waiting for the queue returns: the conjunction of the checks. *)
Fixpoint run_all (l : list t) : res bool :=
  match l with
  | [] => Ok true
  | c :: l => let? ok := run c in if ok : bool then run_all l else Ok false
  end.
End check.
End CScriptCheck.

Section connecting.
Context (WORDS_BIGENDIAN : bool) {hashes : Hashes} (ec : secp256k1) (mem : bytes).
Context {V : Type} `{!CCoinsView V} (usage : CCoins.t -> Z).
Abbreviation cache := (CCoinsViewCache.t V).

Definition GetSpendHeight (s : block_index) (inputs : cache) : res (Z * cache) :=
  let? (best, inputs) := CCoinsViewCache.GetBestBlock inputs in
  match mapBlockIndex s !! best with
  | None => Undef
  | Some a => let? b := Chain.deref (heap s) (Some a) in Ok (i32 (Chain.nHeight b + 1), inputs)
  end.

(** The loop over the inputs from number [i]: a report, or the checks that are put off. *)
Fixpoint script_checks (rest : list CTxIn.t) (i : nat) (tx : CTransaction) (state : CValidationState.t) (inputs : cache) (flags : Z)
  (cacheStore : bool) (txdata : PrecomputedTransactionData) (later : bool) (pvChecks : list CScriptCheck.t) :
  res ((bool * CValidationState.t + list CScriptCheck.t) * cache) :=
  match rest with
  | [] => Ok (inr pvChecks, inputs)
  | txin :: rest =>
      let? (coins, inputs) := CCoinsViewCache.AccessCoins usage (COutPoint.hash (CTxIn.prevout txin)) inputs in
      match coins with
      | None => AssertFail
      | Some coins =>
          let? check := CScriptCheck.make coins tx i flags cacheStore txdata in
          if later then script_checks rest (S i) tx state inputs flags cacheStore txdata later (pvChecks ++ [check])
          else
            let? ok := CScriptCheck.run WORDS_BIGENDIAN ec mem check in
            if negb ok then
              let failed := CValidationState.DoS 100 false REJECT_INVALID "mandatory-script-verify-flag-failed (%s)" false "" state in
              if negb (Z.land flags STANDARD_NOT_MANDATORY_VERIFY_FLAGS =? 0) then
                let? check2 := CScriptCheck.make coins tx i (Z.land flags (Z.lnot STANDARD_NOT_MANDATORY_VERIFY_FLAGS)) cacheStore txdata in
                let? ok2 := CScriptCheck.run WORDS_BIGENDIAN ec mem check2 in
                if ok2 : bool
                then Ok (inl (CValidationState.Invalid false REJECT_NONSTANDARD "non-mandatory-script-verify-flag (%s)" "" state), inputs)
                else Ok (inl failed, inputs)
              else Ok (inl failed, inputs)
            else script_checks rest (S i) tx state inputs flags cacheStore txdata later pvChecks
      end
  end.

(** [later]: the checks go to [*pvChecks]. *)
Definition CheckInputs (s : block_index) (tx : CTransaction) (state : CValidationState.t) (inputs : cache) (fScriptChecks : bool) (flags : Z)
  (cacheStore : bool) (txdata : PrecomputedTransactionData) (later : bool) :
  res (bool * CValidationState.t * list CScriptCheck.t * cache) :=
  if negb (IsCoinBase tx) then
    let? (nSpendHeight, inputs) := GetSpendHeight s inputs in
    let? (ok, state, inputs) := CheckTxInputs usage tx state inputs nSpendHeight in
    if negb ok then Ok (false, state, [], inputs)
    else if fScriptChecks then
      let? (r, inputs) := script_checks (vin tx) 0 tx state inputs flags cacheStore txdata later [] in
      match r with
      | inl (ok, state) => Ok (ok, state, [], inputs)
      | inr pvChecks => Ok (true, state, pvChecks, inputs)
      end
    else Ok (true, state, [], inputs)
  else Ok (true, state, [], inputs).

(** ** ConnectBlock *)

Context (sizeof_CTxIn sizeof_CTxOut sizeof_vector sizeof_ref sizeof_CTxInUndo sizeof_CTxUndo : Z) (params : Consensus.Params).
Context (CheckDiskSpace : Z -> bool) (fPruneMode : bool) (MessageStart : bytes) (nScriptCheckThreads : Z) (hashAssumeValid : uint256)
  (fTxIndex : bool) (WriteTxIndex : list (uint256 * CDiskTxPos.t) -> bool).

Abbreviation Hash := GetHash_written.

(** What the function may change besides the state of the validation. *)
Record chainstate := mk_chainstate {
  c_index : block_index;
  c_view : cache;
  c_versionbits : VersionBitsCache;
  c_files : block_files;
}.

(** Whether the block is not below the block that is assumed valid. *)
Definition need_script_checks (s : block_index) (pindex : nat) : res bool :=
  if negb (BaseUint.IsNull WIDTH256 hashAssumeValid) then
    match mapBlockIndex s !! hashAssumeValid with
    | None => Ok true
    | Some it =>
        let? b := Chain.deref (heap s) (Some pindex) in
        let? a := BlockIndex.GetAncestor (heap s) it (Chain.nHeight b) in
        if negb (bool_decide (a = Some pindex)) then Ok true
        else
          match pindexBestHeader s with
          | None => Undef
          | Some best =>
              let? a := BlockIndex.GetAncestor (heap s) best (Chain.nHeight b) in
              if negb (bool_decide (a = Some pindex)) then Ok true
              else
                let? bb := Chain.deref (heap s) (Some best) in
                if BaseUint.op_ge WIDTH256 (Chain.nChainWork bb) (UintToArith256 (nMinimumChainWork params)) then
                  let? t := GetBlockProofEquivalentTime bb b bb (nPowTargetSpacing params) in
                  Ok (t <=? 60 * 60 * 24 * 7 * 2)
                else Ok true
          end
    end
  else Ok true.

(** Whether no transaction may replace unspent outputs. *)
Definition enforce_bip30 (s : block_index) (pindex : nat) : res bool :=
  let? b := Chain.deref (heap s) (Some pindex) in
  let exception_ (height : Z) (hash : list Z) :=
    if Chain.nHeight b =? height then
      let? h := BlockIndex.GetBlockHash b in Ok (BaseUint.op_eq h (uint256S hash))
    else Ok false in
  let? fEnforceBIP30 :=
    match Chain.phashBlock b with
    | None => Ok true
    | Some _ =>
        let? e1 := exception_ 91842 (chars "0x00000000000a4d0a398161ffc163c503763b1f4360639393e0e4c8e300e0caec") in
        let? e2 := if e1 : bool then Ok true else exception_ 91880 (chars "0x00000000000743f190a18c5577a3c2d2a1f610ae9601ac046a38084ccb7cd721") in
        Ok (negb e2)
    end in
  match Chain.pprev b with
  | None => Undef
  | Some prev =>
      let? a := BlockIndex.GetAncestor (heap s) prev (BIP34Height params) in
      if fEnforceBIP30 : bool then
        match a with
        | None => Ok true
        | Some _ =>
            let? bip34 := Chain.deref (heap s) a in
            let? h := BlockIndex.GetBlockHash bip34 in
            Ok (negb (BaseUint.op_eq h (BIP34Hash params)))
        end
      else Ok false
  end.

(** The flags of the scripts, and those of the lock times. *)
Definition block_flags (s : block_index) (pindex : nat) (versionbitscache : VersionBitsCache) : res (Z * Z * VersionBitsCache) :=
  let? b := Chain.deref (heap s) (Some pindex) in
  let nBIP16SwitchTime := 1333238400 in
  let fStrictPayToScriptHash := nBIP16SwitchTime <=? BlockIndex.GetBlockTime b in
  let flags := if fStrictPayToScriptHash then SCRIPT_VERIFY_P2SH else 0 in
  let flags := if BIP66Height params <=? Chain.nHeight b then Z.lor flags SCRIPT_VERIFY_DERSIG else flags in
  let flags := if BIP65Height params <=? Chain.nHeight b then Z.lor flags SCRIPT_VERIFY_CHECKLOCKTIMEVERIFY else flags in
  let nLockTimeFlags := 0 in
  let? (csv, versionbitscache) := VersionBitsState (heap s) (Chain.pprev b) params DEPLOYMENT_CSV versionbitscache in
  let '(flags, nLockTimeFlags) :=
    if bool_decide (csv = THRESHOLD_ACTIVE)
    then (Z.lor flags SCRIPT_VERIFY_CHECKSEQUENCEVERIFY, Z.lor nLockTimeFlags LOCKTIME_VERIFY_SEQUENCE)
    else (flags, nLockTimeFlags) in
  let? (enabled, versionbitscache) := IsWitnessEnabled params (heap s) (Chain.pprev b) versionbitscache in
  let flags := if enabled then Z.lor (Z.lor flags SCRIPT_VERIFY_WITNESS) SCRIPT_VERIFY_NULLDUMMY else flags in
  Ok (flags, nLockTimeFlags, versionbitscache).

(** [for (const auto& tx : block.vtx)]: a transaction that is there already. *)
Fixpoint bip30_loop (vtx : list CTransaction) (view : cache) : res (bool * cache) :=
  match vtx with
  | [] => Ok (false, view)
  | tx :: vtx =>
      let? (coins, view) := CCoinsViewCache.AccessCoins usage (GetHash tx) view in
      match coins with
      | Some coins => if negb (CCoins.IsPruned coins) then Ok (true, view) else bip30_loop vtx view
      | None => bip30_loop vtx view
      end
  end.

Fixpoint prev_heights (vin : list CTxIn.t) (view : cache) : res (list Z * cache) :=
  match vin with
  | [] => Ok ([], view)
  | txin :: vin =>
      let? (coins, view) := CCoinsViewCache.AccessCoins usage (COutPoint.hash (CTxIn.prevout txin)) view in
      match coins with
      | None => Undef
      | Some coins => let? (hs, view) := prev_heights vin view in Ok (CCoins.nHeight coins :: hs, view)
      end
  end.

(** The variables of the loop over the transactions. *)
Record progress := mk_progress {
  p_view : cache;
  vtxundo : list CTxUndo.t;
  nFees : Z;
  nSigOpsCost : Z;
  vChecks : list CScriptCheck.t;
  vPos : list (uint256 * CDiskTxPos.t);
  p_pos : CDiskTxPos.t;
}.

(** The inputs are there and their relative locks are over: a report, or none. *)
Definition check_available (s : block_index) (pindex : nat) (nLockTimeFlags : Z) (tx : CTransaction) (state : CValidationState.t) (view : cache) :
  res (option (bool * CValidationState.t) * cache) :=
  if negb (IsCoinBase tx) then
    let? (have, view) := CCoinsViewCache.HaveInputs usage tx view in
    if negb have then Ok (Some (CValidationState.DoS 100 false REJECT_INVALID "bad-txns-inputs-missingorspent" false "" state), view)
    else
      let? (prevheights, view) := prev_heights (vin tx) view in
      let? (final, _) := SequenceLocks (heap s) tx nLockTimeFlags prevheights pindex in
      if negb final then Ok (Some (CValidationState.DoS 100 false REJECT_INVALID "bad-txns-nonfinal" false "" state), view)
      else Ok (None, view)
  else Ok (None, view).

(** The fees and the checks of the inputs: a report, or the fees and the checks put off. *)
Definition check_payment (s : block_index) (fScriptChecks fJustCheck : bool) (flags : Z) (tx : CTransaction) (fees : Z) (state : CValidationState.t) (view : cache) :
  res ((bool * CValidationState.t + CValidationState.t * Z * list CScriptCheck.t) * cache) :=
  let txdata := precompute tx in
  if negb (IsCoinBase tx) then
    let? (nValueIn, view) := CCoinsViewCache.GetValueIn usage tx view in
    let? nValueOut := GetValueOut tx in
    let fees := i64 (fees + i64 (nValueIn - nValueOut)) in
    let? (ok, state, checks, view) := CheckInputs s tx state view fScriptChecks flags fJustCheck txdata (negb (nScriptCheckThreads =? 0)) in
    if negb ok then Ok (inl (false, state), view) else Ok (inr (state, fees, checks), view)
  else Ok (inr (state, fees, []), view).

(** The loop over the transactions from number [i]: a report, or the variables at its end. *)
Fixpoint connect_txs (vtx : list CTransaction) (i : nat) (s : block_index) (pindex : nat) (flags nLockTimeFlags : Z) (fScriptChecks fJustCheck : bool)
  (state : CValidationState.t) (p : progress) : res ((bool * CValidationState.t * cache) + (CValidationState.t * progress)) :=
  match vtx with
  | [] => Ok (inr (state, p))
  | tx :: vtx =>
      let? (report, view) := check_available s pindex nLockTimeFlags tx state (p_view p) in
      match report with
      | Some (ok, state) => Ok (inl (ok, state, view))
      | None =>
          let? (cost, view) := GetTransactionSigOpCost WORDS_BIGENDIAN usage tx view flags in
          let cost := i64 (nSigOpsCost p + cost) in
          if MAX_BLOCK_SIGOPS_COST <? cost
          then let '(ok, state) := CValidationState.DoS 100 false REJECT_INVALID "bad-blk-sigops" false "" state in Ok (inl (ok, state, view))
          else
            let? (r, view) := check_payment s fScriptChecks fJustCheck flags tx (nFees p) state view in
            match r with
            | inl (ok, state) => Ok (inl (ok, state, view))
            | inr (state, fees, checks) =>
                let? b := Chain.deref (heap s) (Some pindex) in
                let? (txundo, view) := UpdateCoins usage tx view (CTxUndo.mk []) (Chain.nHeight b) in
                let undo := if (0 <? i)%nat then vtxundo p ++ [txundo] else vtxundo p in
                let size := GetSerializeSize (c_CTransaction sizeof_CTxIn sizeof_CTxOut sizeof_vector Hash CLIENT_VERSION) tx in
                connect_txs vtx (S i) s pindex flags nLockTimeFlags fScriptChecks fJustCheck state
                  (mk_progress view undo fees cost (vChecks p ++ checks) (vPos p ++ [(GetHash tx, p_pos p)])
                     (CDiskTxPos.mk (CDiskTxPos.pos (p_pos p)) (u32 (CDiskTxPos.nTxOffset (p_pos p) + size))))
            end
      end
  end.

Definition set_nUndoPos (b : CBlockIndex) (nPos nStatus : Z) : CBlockIndex := {|
  Chain.phashBlock := Chain.phashBlock b; Chain.pprev := Chain.pprev b; Chain.pskip := Chain.pskip b; Chain.nHeight := Chain.nHeight b;
  Chain.nFile := Chain.nFile b; Chain.nDataPos := Chain.nDataPos b; Chain.nUndoPos := nPos; Chain.nChainWork := Chain.nChainWork b;
  Chain.nTx := Chain.nTx b; Chain.nChainTx := Chain.nChainTx b; Chain.nStatus := nStatus; Chain.nVersion := Chain.nVersion b;
  Chain.hashMerkleRoot := Chain.hashMerkleRoot b; Chain.nTime := Chain.nTime b; Chain.nBits := Chain.nBits b; Chain.nNonce := Chain.nNonce b;
  Chain.nSequenceId := Chain.nSequenceId b; Chain.nTimeMax := Chain.nTimeMax b |}.

(** [*p = b], and the entry is dirty. *)
Definition put_entry (p : nat) (b : CBlockIndex) (s : block_index) : block_index :=
  {| heap := <[p := b]> (heap s); mapBlockIndex := mapBlockIndex s; pindexBestHeader := pindexBestHeader s;
     setDirtyBlockIndex := {[p]} ∪ setDirtyBlockIndex s |}.

(** Undo data goes to disk: whether it did, and the entry after it. *)
Definition write_undo (s : block_index) (pindex : nat) (blockundo : CBlockUndo.t) (state : CValidationState.t) (f : block_files) :
  res (bool * CValidationState.t * block_index * block_files) :=
  let? b := Chain.deref (heap s) (Some pindex) in
  let? valid := BlockIndex.IsValid BLOCK_VALID_SCRIPTS b in
  if CDiskBlockPos.IsNull (BlockIndex.GetUndoPos b) || negb valid then
    let? (ok, state, b, f) :=
      if CDiskBlockPos.IsNull (BlockIndex.GetUndoPos b) then
        let c_undo := CBlockUndo.codec ec mem sizeof_CTxInUndo sizeof_CTxUndo in
        let? (ok, state, _pos, f) := FindUndoPos CheckDiskSpace fPruneMode state (Chain.nFile b) (u32 (GetSerializeSize c_undo blockundo + 40)) f in
        if negb ok then Ok (false, state, b, f)
        else
          let? prev := Chain.deref (heap s) (Chain.pprev b) in
          let? hash := BlockIndex.GetBlockHash prev in
          let? (ok, _pos, m) := UndoWriteToDisk Hash ec mem sizeof_CTxInUndo sizeof_CTxUndo blockundo _pos hash MessageStart (rev_ f) in
          let f := set_rev m f in
          if negb ok then let '(ok, state) := CValidationState.Error "Failed to write undo data" state in Ok (ok, state, b, f)
          else Ok (true, state, set_nUndoPos b (CDiskBlockPos.nPos _pos) (Z.lor (Chain.nStatus b) BLOCK_HAVE_UNDO), f)
      else Ok (true, state, b, f) in
    if negb ok then Ok (false, state, s, f)
    else
      let? (_, b) := BlockIndex.RaiseValidity BLOCK_VALID_SCRIPTS b in
      Ok (true, state, put_entry pindex b s, f)
  else Ok (true, state, s, f).

(** After the loop: the reward, the checks that were put off, and what goes to disk. *)
Definition finish_block (block : CBlock) (s : block_index) (pindex : nat) (b : CBlockIndex) (fScriptChecks fJustCheck : bool)
  (state : CValidationState.t) (p : progress) (vb : VersionBitsCache) (f : block_files) : res (bool * CValidationState.t * CBlock * chainstate) :=
  let view := p_view p in
  let? subsidy := GetBlockSubsidy (Chain.nHeight b) (nSubsidyHalvingInterval params) in
  let blockReward := i64 (nFees p + subsidy) in
  let? coinbase := res_of_option (head (vtx block)) in
  let? value := GetValueOut coinbase in
  if blockReward <? value then
    let '(ok, state) := CValidationState.DoS 100 false REJECT_INVALID "bad-cb-amount" false "" state in
    Ok (ok, state, block, mk_chainstate s view vb f)
  else
    let? done_ :=
      if fScriptChecks && negb (nScriptCheckThreads =? 0) then CScriptCheck.run_all WORDS_BIGENDIAN ec mem (vChecks p) else Ok true in
    if negb done_ then
      let '(ok, state) := CValidationState.DoS 100 false 0 "" false "" state in Ok (ok, state, block, mk_chainstate s view vb f)
    else if fJustCheck then Ok (true, state, block, mk_chainstate s view vb f)
    else
      let? (ok, state, s, f) := write_undo s pindex (CBlockUndo.mk (vtxundo p)) state f in
      if negb ok then Ok (false, state, block, mk_chainstate s view vb f)
      else if fTxIndex && negb (WriteTxIndex (vPos p)) then
        let '(ok, state) := CValidationState.Error "Failed to write transaction index" state in
        Ok (ok, state, block, mk_chainstate s view vb f)
      else
        let? hash := BlockIndex.GetBlockHash b in
        Ok (true, state, block, mk_chainstate s (CCoinsViewCache.SetBestBlock hash view) vb f).

Definition ConnectBlock (block : CBlock) (state : CValidationState.t) (pindex : nat) (fJustCheck : bool) (c : chainstate) :
  res (bool * CValidationState.t * CBlock * chainstate) :=
  let s := c_index c in
  let? (ok, state, block) := CheckBlock WORDS_BIGENDIAN sizeof_CTxIn sizeof_CTxOut sizeof_vector sizeof_ref Hash params block state
    (negb fJustCheck) (negb fJustCheck) in
  if negb ok then Ok (false, state, block, c)
  else
    let? b := Chain.deref (heap s) (Some pindex) in
    let? hashPrevBlock :=
      match Chain.pprev b with
      | None => Ok (base_uint_zero WIDTH256)
      | Some _ => let? prev := Chain.deref (heap s) (Chain.pprev b) in BlockIndex.GetBlockHash prev
      end in
    let? (best, view) := CCoinsViewCache.GetBestBlock (c_view c) in
    let with_view (view : cache) (vb : VersionBitsCache) := mk_chainstate s view vb (c_files c) in
    if negb (BaseUint.op_eq hashPrevBlock best) then AssertFail
    else if BaseUint.op_eq (Header.GetHash Hash (Block.GetBlockHeader block)) (hashGenesisBlock params) then
      if negb fJustCheck then
        let? hash := BlockIndex.GetBlockHash b in
        Ok (true, state, block, with_view (CCoinsViewCache.SetBestBlock hash view) (c_versionbits c))
      else Ok (true, state, block, with_view view (c_versionbits c))
    else
      let? fScriptChecks := need_script_checks s pindex in
      let? fEnforceBIP30 := enforce_bip30 s pindex in
      let? (overwrites, view) := if fEnforceBIP30 : bool then bip30_loop (vtx block) view else Ok (false, view) in
      if overwrites : bool then
        let '(ok, state) := CValidationState.DoS 100 false REJECT_INVALID "bad-txns-BIP30" false "" state in
        Ok (ok, state, block, with_view view (c_versionbits c))
      else
        let? (flags, nLockTimeFlags, vb) := block_flags s pindex (c_versionbits c) in
        let pos := CDiskTxPos.mk (BlockIndex.GetBlockPos b) (u32 (GetSizeOfCompactSize (zlen (vtx block)))) in
        if (length (vtx block) =? 0)%nat then Throw "vector::reserve"
        else
          let? r := connect_txs (vtx block) 0 s pindex flags nLockTimeFlags fScriptChecks fJustCheck state (mk_progress view [] 0 0 [] [] pos) in
          match r with
          | inl (ok, state, view) => Ok (ok, state, block, with_view view vb)
          | inr (state, p) => finish_block block s pindex b fScriptChecks fJustCheck state p vb (c_files c)
          end.
End connecting.
