(* ===== verification/CheckerSpec.v ===== *)
(** The checker of signatures of a transaction answers every question: the
    signature hash of any script code is computed, and no assertion of the
    parser of signatures fails.  With VerifySpec.v this makes the check of
    an input total. *)

From S2P Require Import Prelude Bytes BaseUint UintBytes Uint256 Serialize Codec Prevector ScriptNum Opcode Script Amount Transaction PubKey Rules Interpreter EvalScript EvalScriptSpec SigHash.

(** Where [GetOp] is after [a], by the operation that is next. *)
Ltac next_getop be a r E H :=
  let Hg := fresh "Hg" in
  pose proof (GetOp_spec be a r) as Hg; rewrite E in Hg; specialize (Hg H).

Section answers.
Context (be : bool).

(** Both loops of the serializer end on any code, parsed or not. *)
Lemma count_loop_total r : forall fuel a n, script_ok (a ++ r) -> (length r <= fuel)%nat -> exists k,
  CTransactionSignatureSerializer.count_loop be fuel (a ++ r) (zlen a) n = Ok k.
Proof.
  induction r as [r E|r op d r' E Hl IH] using script_ind; intros fuel a n H Hf; next_getop be a r E H.
  - destruct Hg as (b & r' & -> & Hget). destruct fuel; cbn [CTransactionSignatureSerializer.count_loop]; rewrite Hget; by eexists.
  - destruct Hg as (b & -> & _ & _ & Hget). destruct fuel as [|fuel]; [lia|]. cbn [CTransactionSignatureSerializer.count_loop].
    rewrite Hget. cbn [fRet pcRet opcodeRet]. rewrite app_assoc in *. apply IH; [done|lia].
Qed.

Lemma write_loop_total r : forall fuel a ib s, script_ok (a ++ r) -> (length r <= fuel)%nat -> exists s' it ib',
  CTransactionSignatureSerializer.write_loop be fuel (a ++ r) (zlen a) ib s = Ok (s', it, ib').
Proof.
  induction r as [r E|r op d r' E Hl IH] using script_ind; intros fuel a ib s H Hf; next_getop be a r E H.
  - destruct Hg as (b & r' & -> & Hget). destruct fuel; cbn [CTransactionSignatureSerializer.write_loop]; rewrite Hget; by eexists _, _, _.
  - destruct Hg as (b & -> & _ & _ & Hget). destruct fuel as [|fuel]; [lia|]. cbn [CTransactionSignatureSerializer.write_loop].
    rewrite Hget. cbn [fRet pcRet opcodeRet]. rewrite app_assoc in *. case_bool; apply IH; (done || lia).
Qed.

Section serializer.
Context (tx : CMutableTransaction) (code : CScript) (nIn nHashType : Z).
Hypothesis Hcode : script_ok code.
Hypothesis HnIn : 0 <= nIn < zlen (vin tx).
Hypothesis Hvin : zlen (vin tx) < 2 ^ 32.
Hypothesis Hvout : zlen (vout tx) < 2 ^ 32.

Let ser := CTransactionSignatureSerializer.make tx code nIn nHashType.

Lemma input_there i : 0 <= i < zlen (vin tx) -> is_Some (vin tx !! Z.to_nat i).
Proof. intros H. apply lookup_lt_is_Some. unfold zlen in H. lia. Qed.

Lemma SerializeScriptCode_total : exists s, CTransactionSignatureSerializer.SerializeScriptCode be ser = Ok s.
Proof.
  unfold CTransactionSignatureSerializer.SerializeScriptCode. subst ser. cbn [CTransactionSignatureSerializer.make CTransactionSignatureSerializer.scriptCode].
  destruct (count_loop_total code (length code) [] 0 Hcode ltac:(done)) as [k Hc]. change (zlen (@nil Z)) with begin_ in Hc. cbn [app] in Hc.
  rewrite Hc. cbn [res_bind].
  destruct (write_loop_total code (length code) [] begin_ (WriteCompactSize (u32 (zlen code - k))) Hcode ltac:(done)) as (s & it & ib & Hw).
  change (zlen (@nil Z)) with begin_ in Hw. cbn [app] in Hw. rewrite Hw. cbn [res_bind]. by eexists.
Qed.

Lemma SerializeInput_total i : 0 <= i < zlen (vin tx) -> exists s, CTransactionSignatureSerializer.SerializeInput be ser i = Ok s.
Proof.
  intros Hi. unfold CTransactionSignatureSerializer.SerializeInput.
  destruct (SerializeScriptCode_total) as [s Es].
  assert (is_Some (vin tx !! Z.to_nat (if CTransactionSignatureSerializer.fAnyoneCanPay ser then nIn else i))) as [x Hx]
    by (case_bool; by apply input_there).
  change (CTransactionSignatureSerializer.txTo ser) with tx. change (CTransactionSignatureSerializer.nIn ser) with nIn.
  rewrite Hx. cbn [res_of_option res_bind]. rewrite Es. case_bool; cbn [res_bind]; by eexists.
Qed.

Lemma SerializeOutput_total i : 0 <= i -> (i < zlen (vout tx) \/ CTransactionSignatureSerializer.fHashSingle ser = true /\ i <> nIn) ->
  exists s, CTransactionSignatureSerializer.SerializeOutput ser i = Ok s.
Proof.
  intros Hi H. unfold CTransactionSignatureSerializer.SerializeOutput.
  change (CTransactionSignatureSerializer.txTo ser) with tx. change (CTransactionSignatureSerializer.nIn ser) with nIn.
  case_bool; [by eexists|]. destruct H as [H|[Hs Hn]]; [|rewrite Hs in *; destruct (Z.eqb_spec i nIn); done].
  assert (is_Some (vout tx !! Z.to_nat i)) as [x ->] by (apply lookup_lt_is_Some; unfold zlen in H; lia).
  by eexists.
Qed.

Lemma each_total f n : forall from, (forall i, from <= i < from + Z.of_nat n -> exists s, f i = Ok s) ->
  exists s, CTransactionSignatureSerializer.each f n from = Ok s.
Proof.
  induction n as [|n IH]; intros from H; cbn [CTransactionSignatureSerializer.each]; [by eexists|].
  destruct (H from ltac:(lia)) as [s ->]. cbn [res_bind]. destruct (IH (from + 1)) as [s' ->]; [intros i Hi; apply H; lia|].
  by eexists.
Qed.

Lemma Serialize_tx_total : (CTransactionSignatureSerializer.fHashSingle ser = true -> nIn < zlen (vout tx)) ->
  exists s, CTransactionSignatureSerializer.Serialize_tx be ser = Ok s.
Proof.
  intros Hsingle. unfold CTransactionSignatureSerializer.Serialize_tx. pose proof (zlen_nonneg (vout tx)).
  change (CTransactionSignatureSerializer.txTo ser) with tx. change (CTransactionSignatureSerializer.nIn ser) with nIn.
  rewrite (wrap_small 32 (zlen (vin tx))), (wrap_small 32 (zlen (vout tx))) by (unfold in_u; lia).
  assert (forall f n, (forall i, 0 <= i < n -> exists s, f i = Ok s) -> exists s, CTransactionSignatureSerializer.each f (Z.to_nat n) 0 = Ok s) as Heach
    by (intros f n Hf; apply each_total; intros i Hi; apply Hf; lia).
  edestruct Heach as [s Es]; [|rewrite Es].
  { intros i Hi. apply SerializeInput_total. revert Hi. case_bool; lia. }
  cbn [res_bind]. edestruct Heach as [s' Es']; [|rewrite Es'; by eexists].
  intros i Hi. apply SerializeOutput_total; [lia|]. revert Hi. case_bool; [lia|]. case_bool; intros Hi; [|lia].
  specialize (Hsingle eq_refl). rewrite wrap_small in Hi by (unfold in_u; lia). destruct (Z.eq_dec i nIn); [left; lia|by right].
Qed.
End serializer.

Section checker.
Context {hashes : Hashes} (ec : secp256k1) {curve_laws : CurveLaws ec} (mem : bytes).
Context (tx : CMutableTransaction) (nIn amount : Z) (txdata : option PrecomputedTransactionData).
Hypothesis HnIn : 0 <= nIn < zlen (vin tx).
Hypothesis Hvin : zlen (vin tx) < 2 ^ 32.
Hypothesis Hvout : zlen (vout tx) < 2 ^ 32.

Lemma SignatureHash_total code nHashType sv : script_ok code -> exists h, SignatureHash be code tx nIn nHashType amount sv txdata = Ok h.
Proof.
  intros Hcode. destruct (input_there tx nIn HnIn) as [x Hx]. destruct sv; cbn [SignatureHash].
  - case_bool; [by eexists|]. case_bool; [by eexists|].
    destruct (Serialize_tx_total tx code nIn nHashType Hcode HnIn Hvin Hvout) as [s ->]; [|by eexists].
    cbn [CTransactionSignatureSerializer.make CTransactionSignatureSerializer.fHashSingle]. intros Es. rewrite Es in *. cbn [andb] in *. lia.
  - unfold SignatureHash_v0. rewrite Hx. cbn [res_of_option].
    case_bool; cbn [res_bind]; [by eexists|]. case_bool; cbn [res_bind]; [|by eexists].
    assert (is_Some (vout tx !! Z.to_nat nIn)) as [y ->]; [|by eexists].
    apply andb_prop in Heqb0 as [_ Hn%Z.ltb_lt]. apply lookup_lt_is_Some. unfold zlen in Hn. lia.
Qed.

Lemma Verify_total hash sig k : byte_list sig -> exists b, CPubKey.Verify ec hash sig k = Ok b.
Proof.
  intros Hs. unfold CPubKey.Verify. case_bool; [by eexists|]. destruct (ec_pubkey_parse _ _); [|by eexists].
  case_bool; [by eexists|]. destruct (der_lax_some ec sig Hs) as (ok & s & ->). cbn [res_bind]. case_bool; by eexists.
Qed.

(** What is left of a signature without its type is bytes. *)
Lemma tx_checker_ok : @CheckerLaws (TransactionSignatureChecker be ec mem tx nIn amount txdata).
Proof.
  destruct (input_there tx nIn HnIn) as [x Hx]. split; cbn.
  - intros sig key code sv Hs _ Hcode. unfold tx_CheckSig. do 2 (case_bool; [by eexists|]).
    destruct (SignatureHash_total code (List.last sig 0) sv Hcode) as [h ->]. cbn [res_bind]. unfold VerifySignature.
    destruct (Verify_total h (removelast sig) (CPubKey.of_vch mem key)) as [b ->]; [by apply removelast_bytes|]. by eexists.
  - intros n. unfold tx_CheckLockTime. rewrite Hx. cbn [res_of_option res_bind]. repeat (case_bool; [by eexists|]); by eexists.
  - intros n. unfold tx_CheckSequence. rewrite Hx. cbn [res_of_option res_bind]. repeat (case_bool; [by eexists|]); by eexists.
Qed.
End checker.
End answers.
