(* ===== verification/SigOpsSpec.v ===== *)
(** The weighted count of signature operations of a transaction, over a ledger. *)

From S2P Require Import Prelude Bytes BaseUint UintBytes Uint256 Serialize Codec Opcode Prevector ScriptNum Script Amount Transaction Coins CoinsView Connect Ledger Spend Rules RulesSpec BlockRulesSpec.

(** ** The operations of one input *)

(** The output an input spends, and the last item its script pushes. *)
Definition spent_out (M : ledger) (i : CTxIn.t) : CTxOut.t := match spent M i with Some (_, o) => o | None => CTxOut.SetNull end.
Definition redeem_script (s : CScript) : CScript := List.last (map snd (ops s)) [].
Definition exact_sigops (s : CScript) : Z := sigops true OP_INVALIDOPCODE (ops s).
Definition witness_program (s : CScript) : option (Z * bytes) := match IsWitnessProgram s with Ok w => w | _ => None end.

Definition p2sh_sigops (sig key : CScript) : Z :=
  if IsPayToScriptHash key && pushes sig then exact_sigops (redeem_script sig) else 0.

Definition program_sigops (w : option (Z * bytes)) (stack : list bytes) : Z :=
  match w with
  | Some (version, program) =>
      if negb (version =? 0) then 0
      else if zlen program =? 20 then 1
      else match last stack with Some s => if zlen program =? 32 then exact_sigops s else 0 | None => 0 end
  | None => 0
  end.

(** The program is the output, or what its script hash stands for. *)
Definition witness_sigops (sig key : CScript) (stack : list bytes) : Z :=
  match witness_program key with
  | Some w => program_sigops (Some w) stack
  | None => if IsPayToScriptHash key && pushes sig then program_sigops (witness_program (redeem_script sig)) stack else 0
  end.

Definition sum (l : list Z) : Z := foldr Z.add 0 l.

(** Four for an operation of a script, one for an operation of a witness. *)
Definition tx_cost (flags : Z) (M : ledger) (tx : CMutableTransaction) : Z :=
  4 * scripts_sigops (tx_scripts tx) +
  if IsCoinBase tx then 0
  else
    (if negb (Z.land flags SCRIPT_VERIFY_P2SH =? 0)
     then 4 * sum (map (fun i => p2sh_sigops (CTxIn.scriptSig i) (CTxOut.scriptPubKey (spent_out M i))) (vin tx)) else 0) +
    (if negb (Z.land flags SCRIPT_VERIFY_WITNESS =? 0)
     then sum (map (fun i => witness_sigops (CTxIn.scriptSig i) (CTxOut.scriptPubKey (spent_out M i)) (CScriptWitness.stack (CTxIn.scriptWitness i))) (vin tx)) else 0).

(** What a transaction in memory is: scripts of bytes, witnesses that fit. *)
Definition witness_size (i : CTxIn.t) : Z := script_bytes (CScriptWitness.stack (CTxIn.scriptWitness i)).
Record input_sane (i : CTxIn.t) : Prop := {
  sane_sig : byte_list (CTxIn.scriptSig i);
  sane_witness : Forall byte_list (CScriptWitness.stack (CTxIn.scriptWitness i));
  sane_size : witness_size i < 2 ^ 25;
}.
Record scripts_sane (tx : CMutableTransaction) : Prop := {
  sane_inputs : Forall input_sane (vin tx);
  sane_outputs : Forall (fun o => byte_list (CTxOut.scriptPubKey o)) (vout tx);
  sane_bytes : script_bytes (tx_scripts tx) < 2 ^ 24;
  sane_count : zlen (vin tx) <= MAX_SIZE;
}.

(** The scripts of the coins. *)
Definition ledger_scripts (M : ledger) : Prop :=
  map_Forall (fun _ c => Forall (fun o => script_ok (CTxOut.scriptPubKey o)) (CCoins.vout c)) M.

Lemma spent_script M i c o : ledger_scripts M -> spent M i = Some (c, o) -> script_ok (CTxOut.scriptPubKey o).
Proof.
  intros HM H. apply spent_coin in H as [Hc Ho]. pose proof (HM _ _ Hc) as Hf. cbn in Hf. rewrite Forall_lookup in Hf. eauto.
Qed.

Lemma sum_range l b : 0 <= b -> Forall (fun x => 0 <= x <= b) l -> 0 <= sum l <= b * zlen l.
Proof.
  intros Hb. induction 1 as [|x l Hx _ IH]; [unfold zlen; cbn; lia|]. rewrite zlen_cons. cbn [sum foldr]. fold (sum l). lia.
Qed.

Lemma exact_sigops_range s : 0 <= exact_sigops s <= 20 * zlen s.
Proof.
  unfold exact_sigops. pose proof (sigops_range true OP_INVALIDOPCODE (ops s)). pose proof (ops_length s). unfold zlen. lia.
Qed.

Lemma p2sh_sigops_range sig key : script_ok sig -> 0 <= p2sh_sigops sig key <= 20 * zlen sig.
Proof.
  intros H. unfold p2sh_sigops. pose proof (exact_sigops_range (redeem_script sig)). destruct (last_push_ok sig H) as [_ Hl].
  fold (redeem_script sig) in Hl. pose proof (zlen_nonneg sig). case_bool; lia.
Qed.

Lemma item_size (l : list bytes) s : last l = Some s -> zlen s <= script_bytes l.
Proof.
  intros [l' ->]%last_Some. rewrite script_bytes_app. pose proof (script_bytes_nonneg l'). unfold script_bytes at 2. cbn. lia.
Qed.

Lemma program_sigops_range w stack : 0 <= program_sigops w stack <= 20 * script_bytes stack + 1.
Proof.
  pose proof (script_bytes_nonneg stack). unfold program_sigops. destruct w as [[v p]|]; [|lia]. do 2 (case_bool; [lia|]).
  destruct (last stack) as [s|] eqn:E; [|lia]. pose proof (item_size _ _ E). pose proof (exact_sigops_range s). case_bool; lia.
Qed.

Lemma witness_sigops_range sig key stack : 0 <= witness_sigops sig key stack <= 20 * script_bytes stack + 1.
Proof.
  pose proof (script_bytes_nonneg stack). unfold witness_sigops.
  destruct (witness_program key) as [w|]; [apply program_sigops_range|]. case_bool; [apply program_sigops_range|lia].
Qed.

(** The walk over a transaction's inputs is within the range of the integers. *)
Lemma tx_cost_range flags M tx : scripts_sane tx -> 0 <= tx_cost flags M tx < 2 ^ 60.
Proof.
  intros H. unfold tx_cost. pose proof (scripts_sigops_range (tx_scripts tx)). pose proof (sane_bytes _ H). pose proof (sane_count _ H) as Hcount. unfold MAX_SIZE in Hcount.
  pose proof (script_bytes_nonneg (tx_scripts tx)).
  assert (forall f b, 0 <= b <= 2 ^ 30 -> (forall i, input_sane i -> zlen (CTxIn.scriptSig i) < 2 ^ 25 -> 0 <= f i <= b) -> 0 <= sum (map f (vin tx)) <= 2 ^ 56) as Hs.
  { intros f b Hb Hf. assert (0 <= sum (map f (vin tx)) <= b * zlen (map f (vin tx))) as Hr.
    { apply sum_range; [lia|]. apply Forall_map, Forall_forall. intros i Hi. apply Hf; [by apply (proj1 (Forall_forall _ _) (sane_inputs _ H))|].
      unfold tx_scripts in *. rewrite script_bytes_app in *. pose proof (script_bytes_nonneg (map CTxOut.scriptPubKey (vout tx))).
      enough (zlen (CTxIn.scriptSig i) <= script_bytes (map CTxIn.scriptSig (vin tx))) by lia.
      apply list_elem_of_split in Hi as (l1 & l2 & ->). rewrite map_app, script_bytes_app. cbn [map script_bytes foldr].
      fold (script_bytes (map CTxIn.scriptSig l2)). pose proof (script_bytes_nonneg (map CTxIn.scriptSig l1)). pose proof (script_bytes_nonneg (map CTxIn.scriptSig l2)). lia. }
    unfold zlen in Hr. rewrite length_map in Hr. fold (zlen (vin tx)) in Hr. pose proof (zlen_nonneg (vin tx)). nia. }
  case_bool; [lia|].
  pose proof (Hs (fun i => p2sh_sigops (CTxIn.scriptSig i) (CTxOut.scriptPubKey (spent_out M i))) (20 * 2 ^ 25) ltac:(lia)) as Hp2sh.
  pose proof (Hs (fun i => witness_sigops (CTxIn.scriptSig i) (CTxOut.scriptPubKey (spent_out M i)) (CScriptWitness.stack (CTxIn.scriptWitness i))) (20 * 2 ^ 25 + 1) ltac:(lia)) as Hwit.
  specialize (Hp2sh ltac:(intros i Hi Hl; pose proof (p2sh_sigops_range (CTxIn.scriptSig i) (CTxOut.scriptPubKey (spent_out M i)) ltac:(split; [apply Hi|lia])); lia)).
  specialize (Hwit ltac:(intros i Hi Hl; pose proof (witness_sigops_range (CTxIn.scriptSig i) (CTxOut.scriptPubKey (spent_out M i)) (CScriptWitness.stack (CTxIn.scriptWitness i))); pose proof (sane_size _ Hi); unfold witness_size in *; lia)).
  repeat case_bool; lia.
Qed.

(** ** The code *)

Section code.
Context (be : bool).

Lemma last_data_spec r : forall fuel a data, script_ok (a ++ r) -> (length r <= fuel)%nat -> well_parsed r = true ->
  last_data_loop be fuel (a ++ r) (zlen a) data = Ok (List.last (map snd (ops r)) data).
Proof.
  induction r as [r E|r op d r' E Hl IH] using script_ind; intros fuel a data H Hf Hw.
  - destruct (ops_stop _ E) as [Hops Hn]. rewrite Hw in Hn. symmetry in Hn. apply bool_decide_eq_true in Hn. subst r.
    destruct fuel; cbn [last_data_loop]; by rewrite at_end_ltb, Hops.
  - destruct (ops_step _ _ _ _ E) as [Hops Hn]. rewrite Hw in Hn. destruct fuel as [|fuel]; [lia|].
    pose proof (GetOp_spec be a r H) as Hg. rewrite E in Hg. destruct Hg as (b & -> & Hb & _ & Hget).
    cbn [last_data_loop]. rewrite at_end_ltb, bool_decide_eq_false_2 by (by destruct b). cbn [negb]. rewrite Hget. cbn [pcRet vchRet].
    rewrite app_assoc in *. rewrite IH by (done || lia). rewrite Hops. cbn [map snd]. f_equal.
    destruct (map snd (ops r')) as [|y l]; [done|]. clear. revert y; induction l as [|z l IHl]; intros y; [done|]. apply (IHl z).
Qed.

Lemma exact_count s : byte_list s -> zlen s < 2 ^ 25 -> GetSigOpCount be true s = Ok (exact_sigops s).
Proof.
  intros Hs Hl. assert (script_ok s) as Ho by (split; [done|lia]).
  exact (sigop_spec be true s (length s) [] OP_INVALIDOPCODE 0 Ho (le_n _) ltac:(lia) ltac:(lia)).
Qed.

Lemma IsWitnessProgram_total s : script_ok s -> IsWitnessProgram s = Ok (witness_program s).
Proof. intros H. pose proof (IsWitnessProgram_spec s H) as Hw. unfold witness_program. destruct (IsWitnessProgram s) as [[[v p]|]|w| | |]; done. Qed.

Lemma WitnessSigOps_spec v p w : Forall byte_list (CScriptWitness.stack w) -> script_bytes (CScriptWitness.stack w) < 2 ^ 25 ->
  WitnessSigOps be v p w = Ok (program_sigops (Some (v, p)) (CScriptWitness.stack w)).
Proof.
  intros Hb Hl. unfold WitnessSigOps, program_sigops. destruct (v =? 0); cbn [negb]; [|done]. case_bool; [done|].
  destruct (last (CScriptWitness.stack w)) as [s|] eqn:E; [|done]. case_bool; [|done]. pose proof (item_size _ _ E).
  apply exact_count; [|lia]. apply last_Some in E as [l' E]. rewrite E in Hb.
  apply Forall_app in Hb as [_ Hb]. by inversion Hb.
Qed.

(** With the assertion that the flag of witnesses brings that of script hashes. *)
Lemma CountWitnessSigOps_spec sig key w flags : script_ok sig -> script_ok key ->
  Forall byte_list (CScriptWitness.stack w) -> script_bytes (CScriptWitness.stack w) < 2 ^ 25 ->
  (Z.land flags SCRIPT_VERIFY_WITNESS <> 0 -> Z.land flags SCRIPT_VERIFY_P2SH <> 0) ->
  CountWitnessSigOps be sig key w flags =
  Ok (if negb (Z.land flags SCRIPT_VERIFY_WITNESS =? 0) then witness_sigops sig key (CScriptWitness.stack w) else 0).
Proof.
  intros Hs Hk Hb Hl Hf. unfold CountWitnessSigOps. destruct (Z.eqb_spec (Z.land flags SCRIPT_VERIFY_WITNESS) 0); [done|].
  rewrite (proj2 (Z.eqb_neq _ _)) by auto. cbn [negb]. rewrite IsWitnessProgram_total by done. cbn [res_bind]. unfold witness_sigops.
  destruct (witness_program key) as [[v p]|]; [by apply WitnessSigOps_spec|].
  destruct (IsPayToScriptHash key); cbn [andb]; [|done].
  pose proof (push_only_spec be sig (length sig) [] Hs ltac:(done)) as Ep. change (IsPushOnly be sig = Ok (pushes sig)) in Ep.
  rewrite Ep. cbn [res_bind]. destruct (pushes sig) eqn:E; [|done]. unfold pushes in E. apply andb_prop in E as [Ew _].
  pose proof (last_data_spec sig (length sig) [] [] Hs ltac:(done) Ew) as Ed. cbn [app] in Ed. change (zlen (@nil Z)) with 0 in Ed.
  rewrite Ed. cbn [res_bind]. fold (redeem_script sig). destruct (last_push_ok sig Hs) as [Hr _]. fold (redeem_script sig) in Hr.
  rewrite IsWitnessProgram_total by done. cbn [res_bind]. destruct (witness_program (redeem_script sig)) as [[v p]|]; [by apply WitnessSigOps_spec|done].
Qed.

Context {V : Type} `{!CCoinsView V, !CCoinsViewLaws V} (usage : CCoins.t -> Z).

Lemma output_for_shows (s : CCoinsViewCache.t V) M i : shows s M -> is_Some (spent M i) -> exists s',
  CCoinsViewCache.GetOutputFor usage i s = Ok (spent_out M i, s') /\ shows s' M /\ cache_best s' = cache_best s.
Proof.
  intros Hs [[c o] Ho]. destruct (fetch_shows usage s M i Hs) as (x & s' & E & Hs' & Hb & Ha & Hc). exists s'.
  split; [|done]. unfold CCoinsViewCache.GetOutputFor. rewrite E. cbn [res_bind]. rewrite (Hc _ _ Ho) in *. rewrite Ha, Ho.
  rewrite bool_decide_eq_true_2 by done. destruct (spent_coin M i c o Ho) as [_ El]. rewrite El. cbn. unfold spent_out. by rewrite Ho.
Qed.

Definition all_spent (M : ledger) (vin : list CTxIn.t) : Prop := Forall (fun i => is_Some (spent M i)) vin.

Lemma p2sh_loop_spec M vin : forall n (s : CCoinsViewCache.t V), shows s M -> all_spent M vin -> Forall (fun i => byte_list (CTxIn.scriptSig i)) vin ->
  0 <= n -> n + 20 * script_bytes (map CTxIn.scriptSig vin) < 2 ^ 29 ->
  exists s', p2sh_loop be usage vin n s =
      Ok (n + sum (map (fun i => p2sh_sigops (CTxIn.scriptSig i) (CTxOut.scriptPubKey (spent_out M i))) vin), s') /\
    shows s' M /\ cache_best s' = cache_best s.
Proof.
  induction vin as [|i vin IH]; intros n s Hs Ha Hb Hn Hl; cbn [p2sh_loop map sum foldr]; [exists s; by rewrite Z.add_0_r|].
  apply Forall_cons in Ha as [Hi Ha]. apply Forall_cons in Hb as [Hbi Hb]. cbn [map script_bytes foldr] in Hl.
  fold (script_bytes (map CTxIn.scriptSig vin)) in Hl. pose proof (script_bytes_nonneg (map CTxIn.scriptSig vin)).
  destruct (output_for_shows s M i Hs Hi) as (s1 & -> & Hs1 & Hb1). cbn [res_bind]. fold (sum (map (fun i => p2sh_sigops (CTxIn.scriptSig i) (CTxOut.scriptPubKey (spent_out M i))) vin)).
  pose proof (zlen_nonneg (CTxIn.scriptSig i)). assert (script_ok (CTxIn.scriptSig i)) as Hsi by (split; [done|lia]).
  pose proof (p2sh_sigops_range (CTxIn.scriptSig i) (CTxOut.scriptPubKey (spent_out M i)) Hsi) as Hr.
  destruct (IsPayToScriptHash (CTxOut.scriptPubKey (spent_out M i))) eqn:Ep.
  - unfold GetSigOpCountP2SH. rewrite Ep. cbn [negb].
    pose proof (last_push_spec be (CTxIn.scriptSig i) (length (CTxIn.scriptSig i)) [] [] Hsi ltac:(done)) as El.
    change (zlen (@nil Z)) with begin_ in El. cbn [app] in El. rewrite El. cbn [res_bind].
    assert ((match (if pushes (CTxIn.scriptSig i) then Some (List.last (map snd (ops (CTxIn.scriptSig i))) []) else None) with
             | Some subscript => GetSigOpCount be true subscript | None => Ok 0 end) =
            Ok (p2sh_sigops (CTxIn.scriptSig i) (CTxOut.scriptPubKey (spent_out M i)))) as ->.
    { unfold p2sh_sigops. rewrite Ep. destruct (pushes (CTxIn.scriptSig i)); cbn [andb]; [|done].
      destruct (last_push_ok _ Hsi) as [[H1 _] H2]. fold (redeem_script (CTxIn.scriptSig i)) in *. apply exact_count; [done|lia]. }
    cbn [res_bind]. rewrite wrap_small by (unfold in_u; lia).
    destruct (IH (n + p2sh_sigops (CTxIn.scriptSig i) (CTxOut.scriptPubKey (spent_out M i))) s1 Hs1 Ha Hb) as (s2 & -> & Hs2 & Hb2); [lia|lia|].
    exists s2. split; [by rewrite Z.add_assoc|]. by rewrite Hb2.
  - assert (p2sh_sigops (CTxIn.scriptSig i) (CTxOut.scriptPubKey (spent_out M i)) = 0) as -> by (unfold p2sh_sigops; by rewrite Ep).
    destruct (IH n s1 Hs1 Ha Hb) as (s2 & -> & Hs2 & Hb2); [lia|lia|]. exists s2. split; [by rewrite Z.add_0_l|]. by rewrite Hb2.
Qed.

Lemma witness_loop_spec M flags vin : in_u 32 flags -> (Z.land flags SCRIPT_VERIFY_WITNESS <> 0 -> Z.land flags SCRIPT_VERIFY_P2SH <> 0) -> ledger_scripts M ->
  forall n (s : CCoinsViewCache.t V), shows s M -> all_spent M vin -> Forall input_sane vin -> Forall (fun i => zlen (CTxIn.scriptSig i) < 2 ^ 24) vin ->
  0 <= n -> n + 2 ^ 30 * zlen vin < 2 ^ 62 ->
  exists s', witness_loop be usage vin flags n s =
      Ok (n + (if negb (Z.land flags SCRIPT_VERIFY_WITNESS =? 0) then
                 sum (map (fun i => witness_sigops (CTxIn.scriptSig i) (CTxOut.scriptPubKey (spent_out M i)) (CScriptWitness.stack (CTxIn.scriptWitness i))) vin)
               else 0), s') /\ shows s' M /\ cache_best s' = cache_best s.
Proof.
  intros Hf Hw HM. induction vin as [|i vin IH]; intros n s Hs Ha Hb Hsz Hn Hl; cbn [witness_loop map sum foldr].
  { exists s. destruct (negb _); by rewrite Z.add_0_r. }
  apply Forall_cons in Ha as [Hi Ha]. apply Forall_cons in Hb as [Hbi Hb]. apply Forall_cons in Hsz as [Hz Hsz]. rewrite zlen_cons in Hl.
  pose proof (zlen_nonneg vin). destruct (output_for_shows s M i Hs Hi) as (s1 & -> & Hs1 & Hb1). cbn [res_bind].
  rewrite (wrap_small 32 flags) by done. destruct Hi as [[c o] Ho]. pose proof (spent_script M i c o HM Ho) as Hk.
  assert (spent_out M i = o) as Eo by (unfold spent_out; by rewrite Ho). rewrite Eo.
  rewrite CountWitnessSigOps_spec; [|split; [apply Hbi|lia]|done|apply Hbi|apply Hbi|done]. cbn [res_bind].
  pose proof (witness_sigops_range (CTxIn.scriptSig i) (CTxOut.scriptPubKey o) (CScriptWitness.stack (CTxIn.scriptWitness i))) as Hr.
  pose proof (sane_size _ Hbi) as Hws. unfold witness_size in Hws.
  fold (sum (map (fun i => witness_sigops (CTxIn.scriptSig i) (CTxOut.scriptPubKey (spent_out M i)) (CScriptWitness.stack (CTxIn.scriptWitness i))) vin)).
  set (x := if negb (Z.land flags SCRIPT_VERIFY_WITNESS =? 0) then _ else 0).
  assert (0 <= x < 2 ^ 30) as Hx by (subst x; case_bool; lia). rewrite swrap_small by (unfold in_s; lia).
  destruct (IH (n + x) s1 Hs1 Ha Hb Hsz) as (s2 & -> & Hs2 & Hb2); [lia|lia|]. exists s2. split; [|by rewrite Hb2].
  do 2 f_equal. subst x. case_bool; lia.
Qed.

(** The count of the code is that of the ledger, without overflow. *)
Lemma GetTransactionSigOpCost_spec (tx : CMutableTransaction) flags M (s : CCoinsViewCache.t V) :
  shows s M -> (IsCoinBase tx = false -> all_spent M (vin tx)) -> scripts_sane tx -> ledger_scripts M -> in_u 32 flags ->
  (Z.land flags SCRIPT_VERIFY_WITNESS <> 0 -> Z.land flags SCRIPT_VERIFY_P2SH <> 0) ->
  exists s', GetTransactionSigOpCost be usage tx s flags = Ok (tx_cost flags M tx, s') /\ shows s' M /\ cache_best s' = cache_best s.
Proof.
  intros Hs Ha [Hi Ho Hb Hc] HM Hf Hw. unfold MAX_SIZE in Hc. unfold GetTransactionSigOpCost, tx_cost. unfold tx_scripts in Hb. rewrite script_bytes_app in Hb.
  pose proof (script_bytes_nonneg (map CTxIn.scriptSig (vin tx))) as B1. pose proof (script_bytes_nonneg (map CTxOut.scriptPubKey (vout tx))) as B2.
  assert (Forall byte_list (tx_scripts tx)) as Hbytes.
  { apply Forall_app. split; apply Forall_map; [|exact Ho]. eapply Forall_impl; [exact Hi|]. intros i Hx. apply Hx. }
  rewrite legacy_spec by (first [done|unfold tx_scripts; rewrite script_bytes_app; lia]). cbn [res_bind].
  pose proof (scripts_sigops_range (tx_scripts tx)) as Hr. unfold tx_scripts in Hr at 3. rewrite script_bytes_app in Hr.
  unfold WITNESS_SCALE_FACTOR. rewrite wrap_small by (unfold in_u; lia). rewrite (Z.mul_comm _ 4).
  destruct (IsCoinBase tx) eqn:Ecb; [exists s; by rewrite Z.add_0_r|].
  assert (Forall (fun i => zlen (CTxIn.scriptSig i) < 2 ^ 24) (vin tx)) as Hz.
  { apply Forall_forall. intros i Hin. enough (zlen (CTxIn.scriptSig i) <= script_bytes (map CTxIn.scriptSig (vin tx))) by lia.
    apply list_elem_of_split in Hin as (l1 & l2 & ->). rewrite map_app, script_bytes_app. cbn [map script_bytes foldr].
    fold (script_bytes (map CTxIn.scriptSig l2)). pose proof (script_bytes_nonneg (map CTxIn.scriptSig l1)). pose proof (script_bytes_nonneg (map CTxIn.scriptSig l2)). lia. }
  assert (Forall (fun i => byte_list (CTxIn.scriptSig i)) (vin tx)) as Hsig by (eapply Forall_impl; [exact Hi|]; intros i Hx; apply Hx).
  pose proof (zlen_nonneg (vin tx)). destruct (negb (Z.land flags SCRIPT_VERIFY_P2SH =? 0)) eqn:Ep.
  - unfold GetP2SHSigOpCount. rewrite Ecb.
    destruct (p2sh_loop_spec M (vin tx) 0 s Hs (Ha eq_refl) Hsig ltac:(lia) ltac:(lia)) as (s1 & -> & Hs1 & Hb1). cbn [res_bind]. rewrite Z.add_0_l.
    set (p := sum (map _ (vin tx))).
    assert (0 <= p <= 20 * script_bytes (map CTxIn.scriptSig (vin tx))) as Hp.
    { subst p. clear -Hsig Hz. induction (vin tx) as [|i v IH]; [done|]. apply Forall_cons in Hsig as [H1 H2]. apply Forall_cons in Hz as [Z1 Z2].
      cbn [map sum foldr script_bytes]. specialize (IH Z2 H2). unfold sum in IH. fold (script_bytes (map CTxIn.scriptSig v)).
      pose proof (p2sh_sigops_range (CTxIn.scriptSig i) (CTxOut.scriptPubKey (spent_out M i)) ltac:(split; [done|lia])). lia. }
    rewrite wrap_small by (unfold in_u; lia). rewrite swrap_small by (unfold in_s; lia).
    destruct (witness_loop_spec M flags (vin tx) Hf Hw HM (4 * scripts_sigops (tx_scripts tx) + p * 4) s1 Hs1 (Ha eq_refl) Hi Hz) as (s2 & -> & Hs2 & Hb2); [lia|lia|].
    exists s2. split; [|by rewrite Hb2]. do 2 f_equal. lia.
  - cbn [res_bind].
    destruct (witness_loop_spec M flags (vin tx) Hf Hw HM (4 * scripts_sigops (tx_scripts tx)) s Hs (Ha eq_refl) Hi Hz) as (s2 & -> & Hs2 & Hb2); [lia|lia|].
    exists s2. split; [|by rewrite Hb2]. do 2 f_equal.
Qed.
End code.
