(* ===== verification/BlockLedger.v ===== *)
(** What connecting the transactions of a block means for the ledger: the rules
    a transaction keeps, and what the ledger is afterwards. *)

From S2P Require Import Prelude Bytes BaseUint UintBytes Uint256 Serialize Codec Chain Opcode Prevector ScriptNum Script Amount Transaction PubKey Coins CoinsView Undo Connect Ledger Spend Rules RulesSpec BlockRules BlockRulesSpec Interpreter EvalScript SigHash VerifyScript SigOpsSpec.

(** ** Coins that blocks create *)

(** An output that can be in a ledger. *)
Record output_fine (o : CTxOut.t) : Prop := {
  fine_bytes : byte_list (CTxOut.scriptPubKey o);
  fine_script : zlen (CTxOut.scriptPubKey o) <= MAX_SCRIPT_SIZE;
  fine_value : 0 <= out_value o <= MAX_MONEY;
}.

Record coin_fine (h : Z) (c : CCoins.t) : Prop := {
  fine_outputs : Forall output_fine (CCoins.vout c);
  fine_height : CCoins.nHeight c <= h;
  fine_version : 0 <= CCoins.nVersion c < 2 ^ 31;
}.

Lemma fine_script_ok o : output_fine o -> script_ok (CTxOut.scriptPubKey o).
Proof. intros [Hb Hl _]. split; [done|]. unfold MAX_SCRIPT_SIZE in Hl. lia. Qed.

(** An output of a transaction: one with a long script is not kept. *)
Definition payment_fine (o : CTxOut.t) : Prop := byte_list (CTxOut.scriptPubKey o) /\ MoneyRange (CTxOut.nValue o) = true.
Record tx_fine (tx : CMutableTransaction) : Prop := {
  fine_vout : Forall payment_fine (vout tx);
  fine_tx_version : 0 <= nVersion tx < 2 ^ 31;
}.

(** A ledger at height [h]. *)
Record ledger_fine (h : Z) (M : ledger) : Prop := {
  fine_ledger : ledger_ok M;
  fine_coins : map_Forall (fun _ c => coin_fine h c) M;
}.

Lemma null_fine : output_fine CTxOut.SetNull.
Proof. split; [constructor|done|]. by vm_compute. Qed.

Lemma put_Forall (P : CCoins.t -> Prop) t c M : map_Forall (fun _ c => P c) M -> P c -> map_Forall (fun _ c => P c) (put t c M).
Proof.
  intros HM Hc. unfold put. case_bool; [by apply map_Forall_delete|]. by apply map_Forall_insert_2.
Qed.

Lemma without_fine h n c : coin_fine h c -> coin_fine h (without n c).
Proof.
  intros [Ho Hh Hv]. split; [|done|done]. cbn [without CCoins.vout]. apply Forall_trim. apply Forall_insert; [done|apply null_fine].
Qed.

Lemma FromTx_fine h (tx : CTransaction) : tx_fine tx -> coin_fine h (CCoins.FromTx tx h).
Proof.
  intros [Ho Hv]. split; [|cbn; lia|done].
  change (CCoins.vout (CCoins.FromTx tx h)) with (trim (map (fun txout => if IsUnspendable (CTxOut.scriptPubKey txout) then CTxOut.SetNull else txout) (vout tx))).
  apply Forall_trim, Forall_map. eapply Forall_impl; [exact Ho|]. intros o [Hb Hm]. cbn. destruct (IsUnspendable _) eqn:E; [apply null_fine|].
  unfold IsUnspendable in E. apply orb_false_iff in E as [_ E]. apply Z.ltb_ge in E. unfold MoneyRange in Hm. bool_hyps.
  split; [done|done|]. unfold out_value. case_bool; unfold MAX_MONEY, COIN in *; lia.
Qed.

Lemma spend_out_fine h p M u M' : spend_out p M = Some (u, M') -> map_Forall (fun _ c => coin_fine h c) M -> map_Forall (fun _ c => coin_fine h c) M'.
Proof.
  unfold spend_out. case_bool; [done|]. destruct (M !! COutPoint.hash p) as [c|] eqn:Ec; [|done].
  destruct (CCoins.vout c !! _) as [o|] eqn:Eo; [|done]. case_bool; [done|]. intros [= _ <-] HM.
  apply put_Forall; [done|]. apply without_fine. exact (HM _ _ Ec).
Qed.

Lemma spend_outs_fine h vin : forall M us M', spend_outs vin M = Some (us, M') ->
  map_Forall (fun _ c => coin_fine h c) M -> map_Forall (fun _ c => coin_fine h c) M'.
Proof.
  induction vin as [|i vin IH]; intros M us M'; cbn [spend_outs]; [by intros [= _ <-]|].
  destruct (spend_out _ M) as [[u M1]|] eqn:E; [|done]. destruct (spend_outs vin M1) as [[us1 M2]|] eqn:E2; [|done].
  intros [= _ <-] HM. eapply IH; [exact E2|]. by eapply spend_out_fine.
Qed.

Lemma ledger_tx_coins h (tx : CTransaction) M u M' : ledger_tx h tx M = Some (u, M') -> tx_fine tx ->
  map_Forall (fun _ c => coin_fine h c) M -> map_Forall (fun _ c => coin_fine h c) M'.
Proof.
  unfold ledger_tx. intros E Ho HM. destruct (if IsCoinBase tx then _ else _) as [[us M1]|] eqn:E1; [|done].
  destruct (M1 !! GetHash tx); [done|]. injection E as _ <-. apply put_Forall; [|by apply FromTx_fine].
  destruct (IsCoinBase tx); [by injection E1 as _ <-|]. by eapply spend_outs_fine.
Qed.

(** ** Coins that are there *)

Lemma trim_keeps w k x : w !! k = Some x -> CTxOut.IsNull x = false -> trim w !! k = Some x.
Proof.
  intros Hx Hn. destruct (trim_prefix w) as (m & l & E & _ & Hl). rewrite E in Hx. apply lookup_app_Some in Hx as [?|[_ Hx]]; [done|].
  exfalso. apply list_elem_of_lookup_2 in Hx. rewrite Forall_forall in Hl. specialize (Hl x Hx). congruence.
Qed.

Lemma spend_out_some p M i : CTxIn.prevout i = p -> 0 <= COutPoint.n p -> is_Some (spent M i) -> is_Some (spend_out p M).
Proof.
  intros <- Hn [[c o] Hs]. unfold spend_out. rewrite (proj2 (Z.ltb_ge _ _)) by done. unfold spent in Hs.
  destruct (M !! _) as [c'|]; [|done]. destruct (CCoins.vout c' !! _) as [o'|]; [|done]. destruct (CTxOut.IsNull o'); [done|]. by eexists.
Qed.

Lemma spend_out_other p M u M' i : spend_out p M = Some (u, M') -> 0 <= COutPoint.n (CTxIn.prevout i) -> CTxIn.prevout i <> p ->
  is_Some (spent M i) -> is_Some (spent M' i).
Proof.
  unfold spend_out. destruct (Z.ltb_spec (COutPoint.n p) 0); [done|]. destruct (M !! COutPoint.hash p) as [c|] eqn:Ec; [|done].
  destruct (CCoins.vout c !! _) as [o|] eqn:Eo; [|done]. case_bool; [done|]. intros [= _ <-] Hn Hne [[ci oi] Hi].
  unfold spent in *. rewrite put_lookup. unfold upd. case_decide as Eh; [|by rewrite Hi].
  rewrite Eh, Ec in Hi. destruct (CCoins.vout c !! Z.to_nat (COutPoint.n (CTxIn.prevout i))) as [x|] eqn:Ex; [|done].
  destruct (CTxOut.IsNull x) eqn:En; [done|].
  assert (CCoins.vout (without (Z.to_nat (COutPoint.n p)) c) !! Z.to_nat (COutPoint.n (CTxIn.prevout i)) = Some x) as Ew.
  { cbn [without CCoins.vout]. apply trim_keeps; [|done]. rewrite list_lookup_insert_ne; [done|]. intros E. apply Hne.
    destruct (CTxIn.prevout i), p. cbn in *. f_equal; [done|lia]. }
  unfold unspent. destruct (CCoins.IsPruned _) eqn:Ep.
  - exfalso. unfold CCoins.IsPruned in Ep. rewrite forallb_forall in Ep. apply list_elem_of_lookup_2, list_elem_of_In in Ew. specialize (Ep x Ew). congruence.
  - rewrite Ew, En. by eexists.
Qed.

Lemma spend_outs_some vin : forall M, NoDup (map CTxIn.prevout vin) -> Forall (fun i => 0 <= COutPoint.n (CTxIn.prevout i)) vin ->
  all_spent M vin -> is_Some (spend_outs vin M).
Proof.
  induction vin as [|i vin IH]; intros M Hd Hn Ha; cbn [spend_outs]; [by eexists|].
  cbn [map] in Hd. apply NoDup_cons in Hd as [Hi Hd]. apply Forall_cons in Hn as [Hni Hn]. apply Forall_cons in Ha as [Hai Ha].
  destruct (spend_out_some (CTxIn.prevout i) M i eq_refl Hni Hai) as [[u M1] E]. rewrite E.
  destruct (IH M1 Hd Hn) as [[us M2] ->]; [|by eexists]. apply Forall_forall. intros j Hj.
  unfold all_spent in Ha. rewrite Forall_forall in Ha, Hn. eapply spend_out_other; [exact E|by apply Hn| |by apply Ha].
  intros Ej. apply Hi. rewrite <- Ej. apply list_elem_of_In, in_map. by apply list_elem_of_In.
Qed.

Lemma spend_outs_absent t vin : forall M us M', spend_outs vin M = Some (us, M') -> M !! t = None -> M' !! t = None.
Proof.
  induction vin as [|i vin IH]; intros M us M'; cbn [spend_outs]; [by intros [= _ <-]|].
  destruct (spend_out _ M) as [[u M1]|] eqn:E; [|done]. destruct (spend_outs vin M1) as [[us1 M2]|] eqn:E2; [|done].
  intros [= _ <-] Ht. eapply IH; [exact E2|]. unfold spend_out in E. revert E. case_bool; [done|].
  destruct (M !! COutPoint.hash (CTxIn.prevout i)) as [c|] eqn:Ec; [|done]. destruct (CCoins.vout c !! _); [|done]. case_bool; [done|].
  intros [= _ <-]. rewrite put_lookup. unfold upd. case_decide; [|done]. subst t. congruence.
Qed.

Lemma ledger_tx_absent t h (tx : CTransaction) M u M' : ledger_tx h tx M = Some (u, M') -> t <> GetHash tx -> M !! t = None -> M' !! t = None.
Proof.
  unfold ledger_tx. intros E Ht HM. destruct (if IsCoinBase tx then _ else _) as [[us M1]|] eqn:E1; [|done].
  destruct (M1 !! GetHash tx); [done|]. injection E as _ <-. rewrite put_lookup. unfold upd. case_decide; [done|].
  destruct (IsCoinBase tx); [by injection E1 as _ <-|]. by eapply spend_outs_absent.
Qed.

Lemma ledger_tx_some h (tx : CTransaction) M : (IsCoinBase tx = false -> NoDup (map CTxIn.prevout (vin tx)) /\
    Forall (fun i => 0 <= COutPoint.n (CTxIn.prevout i)) (vin tx) /\ all_spent M (vin tx)) ->
  M !! GetHash tx = None -> is_Some (ledger_tx h tx M).
Proof.
  intros H Ht. unfold ledger_tx. destruct (IsCoinBase tx); [rewrite Ht; by eexists|]. destruct (H eq_refl) as (Hd & Hn & Ha).
  destruct (spend_outs_some (vin tx) M Hd Hn Ha) as [[us M1] E]. rewrite E, (spend_outs_absent _ _ _ _ _ E Ht). by eexists.
Qed.

(** ** The supply *)

Lemma outs_value_nonneg v : Forall output_fine v -> 0 <= outs_value v.
Proof. induction 1 as [|o v [_ _ Ho] _ IH]; [done|]. cbn [outs_value foldr]. fold (outs_value v). lia. Qed.

Lemma supply_nonneg h M : map_Forall (fun _ c => coin_fine h c) M -> 0 <= supply M.
Proof.
  induction M as [|t c M Ht IH] using map_ind; intros HM; [done|]. apply map_Forall_insert_1_1 in HM as Hc. apply map_Forall_insert_1_2 in HM; [|done].
  rewrite supply_insert by done. specialize (IH HM). pose proof (outs_value_nonneg _ (fine_outputs _ _ Hc)). unfold coins_value. lia.
Qed.

Lemma outputs_total (tx : CTransaction) : outputs_fine (vout tx) = true -> values_ok tx ->
  GetValueOut tx = Ok (total_value (vout tx)) /\ 0 <= total_value (vout tx) <= MAX_MONEY.
Proof.
  unfold outputs_fine. intros H Hv. apply andb_prop in H as [H1 H2]. pose proof (total_value_nonneg _ H1). apply Z.leb_le in H2.
  split; [|done]. unfold GetValueOut. rewrite value_loop_spec by (done || (unfold MAX_MONEY, COIN; lia)). rewrite Z.add_0_l, H1.
  by rewrite (proj2 (Z.leb_le _ _)).
Qed.

(** A transaction adds at most what it pays less what it spends. *)
Lemma ledger_tx_supply h (tx : CTransaction) M u M' : ledger_tx h tx M = Some (u, M') -> outputs_fine (vout tx) = true -> values_ok tx ->
  supply M' <= supply M + total_value (vout tx) - (if IsCoinBase tx then 0 else inputs_value M (vin tx)).
Proof.
  intros Htl Hout Hv. destruct (outputs_total tx Hout Hv) as [Eo _]. destruct (GetValueOut_Ok tx _ Hv Eo) as (_ & _ & Hnn).
  destruct (FromTx_value tx h Hnn) as [Hle _]. unfold ledger_tx in Htl.
  destruct (if IsCoinBase tx then Some ([], M) else spend_outs (vin tx) M) as [[us M1]|] eqn:E1; [|done].
  destruct (M1 !! GetHash tx) eqn:En; [done|]. injection Htl as _ <-. rewrite supply_put, delete_id by done.
  destruct (IsCoinBase tx); [injection E1 as _ <-; lia|].
  destruct (spend_outs_supply _ _ _ _ E1) as [Hsup Hf]. rewrite (inputs_value_undo M _ us Hf). lia.
Qed.

(** ** The rules on the transactions of a block *)

Section rules.
Context (be : bool) {hashes : Hashes} (ec : secp256k1) (mem : bytes).
Context (st : gmap nat CBlockIndex) (pindex : nat) (h : Z) (flags nLockTimeFlags : Z) (fScriptChecks : bool).

Definition spent_heights (M : ledger) (vin : list CTxIn.t) : list Z :=
  map (fun i => match spent M i with Some (c, _) => CCoins.nHeight c | None => 0 end) vin.

(** The relative lock times of the inputs are over (BIP 68). *)
Definition locks_over (M : ledger) (tx : CMutableTransaction) : bool :=
  match SequenceLocks st tx nLockTimeFlags (spent_heights M (vin tx)) pindex with Ok (r, _) => r | _ => false end.

(** The scripts of input [k] are satisfied. *)
Definition input_verifies (M : ledger) (tx : CTransaction) (k : nat) (i : CTxIn.t) : bool :=
  match VerifyScript be ec (checker := TransactionSignatureChecker be ec mem tx (Z.of_nat k) (CTxOut.nValue (spent_out M i)) (Some (precompute tx)))
    flags (CTxIn.scriptSig i) (CTxOut.scriptPubKey (spent_out M i)) (Some (CTxIn.scriptWitness i)) with
  | Ok (inr _) => true
  | _ => false
  end.
Fixpoint inputs_verify (M : ledger) (tx : CTransaction) (k : nat) (l : list CTxIn.t) : bool :=
  match l with [] => true | i :: l => input_verifies M tx k i && inputs_verify M tx (S k) l end.

Definition tx_verifies (M : ledger) (tx : CTransaction) : bool :=
  IsCoinBase tx || negb fScriptChecks || inputs_verify M tx 0 (vin tx).

Definition tx_fee (M : ledger) (tx : CTransaction) : Z :=
  if IsCoinBase tx then 0 else inputs_value M (vin tx) - total_value (vout tx).

(** The rules besides the scripts; [cost] is that of the block so far. *)
Definition tx_connects (M : ledger) (tx : CTransaction) (cost : Z) : bool :=
  (IsCoinBase tx || forallb (fun i => bool_decide (is_Some (spent M i))) (vin tx) && locks_over M tx) &&
  (cost <=? MAX_BLOCK_SIGOPS_COST) &&
  (IsCoinBase tx || payable M h (vin tx) (total_value (vout tx))).

(** The undo data, the ledger and the fees after the transactions, and whether
    all scripts are satisfied; nothing when a rule is broken. *)
Fixpoint connects (vtx : list CTransaction) (M : ledger) (fees cost : Z) (verified : bool) : option (list CTxUndo.t * ledger * Z * bool) :=
  match vtx with
  | [] => Some ([], M, fees, verified)
  | tx :: vtx =>
      let cost := cost + tx_cost flags M tx in
      if tx_connects M tx cost then
        match ledger_tx h tx M with
        | None => None
        | Some (u, M') =>
            match connects vtx M' (fees + tx_fee M tx) cost (verified && tx_verifies M tx) with
            | Some (us, M'', fees, verified) => Some (u :: us, M'', fees, verified)
            | None => None
            end
        end
      else None
  end.

Lemma connects_ledger vtx : forall M fees cost v us M' fees' v', connects vtx M fees cost v = Some (us, M', fees', v') ->
  ledger_txs h vtx M = Some (us, M').
Proof.
  induction vtx as [|tx vtx IH]; intros M fees cost v us M' fees' v'; cbn [connects ledger_txs]; [by intros [= <- <- _ _]|].
  case_bool; [|done]. destruct (ledger_tx h tx M) as [[u M1]|]; [|done].
  destruct (connects vtx M1 _ _ _) as [[[[us1 M2] f2] v2]|] eqn:E; [|done]. intros [= <- <- _ _]. by rewrite (IH _ _ _ _ _ _ _ _ E).
Qed.

(** Fees are paid out of the supply. *)
Lemma payable_fee M tx cost : tx_connects M tx cost = true -> outputs_fine (vout tx) = true -> values_ok tx ->
  0 <= tx_fee M tx <= MAX_MONEY /\ (IsCoinBase tx = false -> 0 <= inputs_value M (vin tx) <= MAX_MONEY).
Proof.
  intros H Ho Hv. destruct (outputs_total tx Ho Hv) as [_ Ht]. unfold tx_connects in H. apply andb_prop in H as [_ H]. unfold tx_fee.
  destruct (IsCoinBase tx); [split; [unfold MAX_MONEY, COIN; lia|done]|]. cbn [orb] in H. unfold payable in H. bool_hyps. split; [lia|]. intros _. lia.
Qed.
End rules.
