(* ===== verification/UndoSpec.v ===== *)
(** The undo data that connecting a block makes can be written and read back. *)

From S2P Require Import Prelude Bytes BaseUint UintBytes Uint256 Serialize Codec Opcode Prevector ScriptNum Script Amount Transaction PubKey Compressor Coins CoinsView Undo Connect Ledger Spend BlockFiles BlockFilesSpec SigOpsSpec BlockLedger.

(** ** What is written are bytes *)

Lemma ser8_bytes x : byte_list (ser_writedata8 x).
Proof. apply (le_bytes_bytes 1). Qed.

Lemma compact_bytes n : byte_list (WriteCompactSize n).
Proof.
  unfold WriteCompactSize. repeat case_bool; rewrite ?byte_list_app; split_and?; first [apply ser8_bytes|apply (le_bytes_bytes 2)|apply (le_bytes_bytes 4)|apply (le_bytes_bytes 8)].
Qed.

Lemma mjoin_bytes (l : list bytes) : Forall byte_list l -> byte_list (mjoin l).
Proof. induction 1 as [|b l Hb _ IH]; [constructor|]. change (mjoin (b :: l)) with (b ++ mjoin l). by apply byte_list_app. Qed.

Lemma varint_bytes w n : byte_list (default [] (WriteVarInt w n)).
Proof.
  unfold WriteVarInt. destruct (WriteVarInt_loop _ _ _) as [tmp|]; cbn; [|constructor]. apply mjoin_bytes, Forall_map, Forall_forall.
  intros x _. apply ser8_bytes.
Qed.

Section bytes.
Context (ec : secp256k1) (mem : bytes).

Lemma byte_at (s : bytes) i : byte_list s -> in_u 8 (s.[i]).
Proof.
  intros H. rewrite list_lookup_total_alt. destruct (s !! i) eqn:E; cbn; [|by split].
  exact (Forall_lookup_1 _ _ _ _ H E).
Qed.

Lemma compressed_bytes script compr : byte_list script -> CScriptCompressor.Compress ec mem script = Some compr -> byte_list compr.
Proof.
  intros Hs. unfold CScriptCompressor.Compress.
  destruct (CScriptCompressor.IsToKeyID script) as [h|] eqn:E1.
  { intros [= <-]. unfold CScriptCompressor.IsToKeyID in E1. revert E1. case_bool; [|done]. intros [= <-].
    constructor; [by split|]. by apply Forall_take, Forall_drop. }
  destruct (CScriptCompressor.IsToScriptID script) as [h|] eqn:E2.
  { intros [= <-]. unfold CScriptCompressor.IsToScriptID in E2. revert E2. case_bool; [|done]. intros [= <-].
    constructor; [by split|]. by apply Forall_take, Forall_drop. }
  destruct (CScriptCompressor.IsToPubKey ec mem script) as [[] k] eqn:E3; [|done].
  destruct (IsToPubKey_spec ec mem script k E3) as (p & Ep & _ & Hi & Hx & Hp). rewrite Hx.
  assert (byte_list p) as Hpb by (rewrite Ep in Hs; apply byte_list_app in Hs as [_ Hs]; by apply byte_list_app in Hs as [Hs _]).
  assert (byte_list (take 32 (drop 1 p))) as Htail by (by apply Forall_take, Forall_drop).
  unfold CPubKey.at_. change (Z.to_nat 0) with 0%nat. case_bool; [|case_bool; [|done]]; intros [= <-]; (constructor; [|exact Htail]).
  - apply orb_prop in Heqb as [->%Z.eqb_eq| ->%Z.eqb_eq]; by split.
  - assert (forall x, Z.lor 4 (Z.land x 1) = 4 \/ Z.lor 4 (Z.land x 1) = 5) as Hor.
    { intros x. change 1 with (2 ^ 1 - 1). rewrite land_ones_mod by lia. destruct (Z.mod_pos_bound x (2 ^ 1) ltac:(lia)) as [? ?].
      assert (x mod 2 ^ 1 = 0 \/ x mod 2 ^ 1 = 1) as [-> | ->] by lia; [by left|by right]. }
    destruct (Hor ((CPubKey.m_vch k).[Z.to_nat 64])) as [-> | ->]; by split.
Qed.

Lemma undo_entry_bytes u : byte_list (CTxOut.scriptPubKey (CTxInUndo.txout u)) -> byte_list (Codec.Serialize (CTxInUndo.codec ec mem) u).
Proof.
  intros Hs. cbn [CTxInUndo.codec Codec.Serialize]. unfold CTxInUndo.Serialize, CTxOutCompressor.Serialize.
  destruct (CTxOutCompressor.CompressAmount _) as [n|w| | |]; cbn [res_bind]; try constructor.
  rewrite !byte_list_app. split_and!.
  - apply varint_bytes.
  - case_bool; [apply varint_bytes|constructor].
  - apply varint_bytes.
  - unfold CScriptCompressor.Serialize. destruct (CScriptCompressor.Compress ec mem _) as [c|] eqn:E; [by eapply compressed_bytes|].
    apply byte_list_app. split; [apply varint_bytes|done].
Qed.

Definition undo_bytes (b : CBlockUndo.t) : Prop :=
  Forall (fun t => Forall (fun u => byte_list (CTxOut.scriptPubKey (CTxInUndo.txout u))) (CTxUndo.vprevout t)) (CBlockUndo.vtxundo b).

Lemma block_undo_bytes s5 s6 b : undo_bytes b -> byte_list (Codec.Serialize (CBlockUndo.codec ec mem s5 s6) b).
Proof.
  intros H. cbn. apply byte_list_app. split; [apply compact_bytes|]. apply mjoin_bytes, Forall_map. eapply Forall_impl; [exact H|].
  intros t Ht. cbn. apply byte_list_app. split; [apply compact_bytes|]. apply mjoin_bytes, Forall_map. eapply Forall_impl; [exact Ht|].
  intros u Hu. by apply undo_entry_bytes.
Qed.

Lemma undo_record_bytes (Hash : bytes -> uint256) s5 s6 h b : undo_bytes b -> byte_list (undo_record Hash ec mem s5 s6 h b).
Proof.
  intros H. unfold undo_record. apply byte_list_app. split; [by apply block_undo_bytes|]. cbn. apply mjoin_bytes, Forall_map, Forall_forall.
  intros x _. apply le_bytes_bytes.
Qed.
End bytes.

(** ** The undo data of a ledger *)

Definition entry_fine (u : CTxInUndo.t) : Prop := wf_undo u /\ byte_list (CTxOut.scriptPubKey (CTxInUndo.txout u)).

Lemma spend_out_entry h p M u M' : spend_out p M = Some (u, M') -> ledger_fine h M -> entry_fine u.
Proof.
  unfold spend_out. case_bool; [done|]. destruct (M !! COutPoint.hash p) as [c|] eqn:Ec; [|done].
  destruct (CCoins.vout c !! _) as [o|] eqn:Eo; [|done]. destruct (CTxOut.IsNull o) eqn:En; [done|]. intros [= <- _] [HM Hc].
  pose proof (Hc _ _ Ec) as Hf. cbn in Hf. destruct Hf as [Ho _ Hv]. rewrite Forall_lookup in Ho. destruct (Ho _ _ Eo) as [Hb Hs Hval].
  pose proof (coins_height _ (HM _ _ Ec)) as Hh. unfold out_value in Hval. rewrite En in Hval. unfold MAX_MONEY, COIN in Hval.
  split; [|by case_bool]. unfold wf_undo. case_bool; cbn; (split_and!; try lia; try done).
  case_bool; [done|]. lia.
Qed.

Lemma spend_out_ok p M u M' : spend_out p M = Some (u, M') -> ledger_ok M -> ledger_ok M'.
Proof.
  unfold spend_out. case_bool; [done|]. destruct (M !! COutPoint.hash p) as [c|] eqn:Ec; [|done].
  destruct (CCoins.vout c !! _) as [o|]; [|done]. case_bool; [done|]. intros [= _ <-] HM.
  apply put_ok; [done|]. apply without_ok. exact (HM _ _ Ec).
Qed.

Lemma spend_outs_entries h vin : forall M us M', spend_outs vin M = Some (us, M') -> ledger_fine h M ->
  Forall entry_fine us /\ length us = length vin.
Proof.
  induction vin as [|i vin IH]; intros M us M'; cbn [spend_outs]; [by intros [= <- _]|].
  destruct (spend_out _ M) as [[u M1]|] eqn:E; [|done]. destruct (spend_outs vin M1) as [[us1 M2]|] eqn:E2; [|done].
  intros [= <- _] HM. destruct (IH M1 us1 M2 E2) as [Hus Hl].
  - split; [|by eapply spend_out_fine; [exact E|apply HM]]. by eapply spend_out_ok; [exact E|apply HM].
  - split; [|cbn; lia]. constructor; [|done]. by eapply spend_out_entry.
Qed.

Lemma ledger_tx_entries h (tx : CTransaction) M u M' : ledger_tx h tx M = Some (u, M') -> ledger_fine h M -> zlen (vin tx) <= MAX_SIZE ->
  wf_txundo u /\ Forall (fun u => byte_list (CTxOut.scriptPubKey (CTxInUndo.txout u))) (CTxUndo.vprevout u).
Proof.
  unfold ledger_tx. intros E HM Hl. destruct (if IsCoinBase tx then _ else _) as [[us M1]|] eqn:E1; [|done].
  destruct (M1 !! GetHash tx); [done|]. injection E as <- _. unfold wf_txundo. cbn [CTxUndo.vprevout].
  destruct (IsCoinBase tx); [by injection E1 as <- _|]. destruct (spend_outs_entries h _ _ _ _ E1 HM) as [Hus Hlen].
  split; [split; [unfold zlen in *; lia|]|]; (eapply Forall_impl; [exact Hus|]; intros x Hx; apply Hx).
Qed.

Lemma spend_outs_ok vin : forall M us M', spend_outs vin M = Some (us, M') -> ledger_ok M -> ledger_ok M'.
Proof.
  induction vin as [|i vin IH]; intros M us M'; cbn [spend_outs]; [by intros [= _ <-]|].
  destruct (spend_out _ M) as [[u M1]|] eqn:E; [|done]. destruct (spend_outs vin M1) as [[us1 M2]|] eqn:E2; [|done].
  intros [= _ <-] HM. eapply IH; [exact E2|]. by eapply spend_out_ok.
Qed.

Lemma ledger_tx_fine h (tx : CTransaction) M u M' : ledger_tx h tx M = Some (u, M') -> 0 < h < 2 ^ 31 -> tx_ok tx -> tx_fine tx ->
  ledger_fine h M -> ledger_fine h M'.
Proof.
  intros E Hh Hok Hf [HM Hc]. split; [|by eapply ledger_tx_coins]. unfold ledger_tx in E.
  destruct (if IsCoinBase tx then _ else _) as [[us M1]|] eqn:E1; [|done]. destruct (M1 !! GetHash tx); [done|]. injection E as _ <-.
  apply put_ok; [|by apply FromTx_ok]. destruct (IsCoinBase tx); [by injection E1 as _ <-|]. by eapply spend_outs_ok.
Qed.

(** The undo data of a block: it fits what is written, and it is of bytes. *)
Lemma ledger_txs_entries h vtx : forall M us M', ledger_txs h vtx M = Some (us, M') -> 0 < h < 2 ^ 31 -> ledger_fine h M ->
  Forall (fun tx : CTransaction => tx_ok tx /\ tx_fine tx /\ zlen (vin tx) <= MAX_SIZE) vtx ->
  Forall (fun u => wf_txundo u /\ Forall (fun u => byte_list (CTxOut.scriptPubKey (CTxInUndo.txout u))) (CTxUndo.vprevout u)) us /\
  length us = length vtx.
Proof.
  induction vtx as [|tx vtx IH]; intros M us M'; cbn [ledger_txs]; [by intros [= <- _]|].
  destruct (ledger_tx h tx M) as [[u M1]|] eqn:E; [|done]. destruct (ledger_txs h vtx M1) as [[us1 M2]|] eqn:E2; [|done].
  intros [= <- _] Hh HM ((Hok & Hf & Hl) & Hv)%Forall_cons. destruct (IH M1 us1 M2 E2 Hh) as [Hus Hlen]; [by eapply ledger_tx_fine|done|].
  split; [|cbn; lia]. constructor; [|done]. by eapply ledger_tx_entries.
Qed.

Lemma block_undo_fine h vtx M us M' : ledger_txs h vtx M = Some (us, M') -> 0 < h < 2 ^ 31 -> ledger_fine h M ->
  Forall (fun tx : CTransaction => tx_ok tx /\ tx_fine tx /\ zlen (vin tx) <= MAX_SIZE) vtx -> zlen vtx <= MAX_SIZE ->
  wf_blockundo (CBlockUndo.mk (tail us)) /\ undo_bytes (CBlockUndo.mk (tail us)).
Proof.
  intros E Hh HM Hv Hl. destruct (ledger_txs_entries h vtx M us M' E Hh HM Hv) as [Hus Hlen].
  assert (Forall (fun u => wf_txundo u /\ Forall (fun u => byte_list (CTxOut.scriptPubKey (CTxInUndo.txout u))) (CTxUndo.vprevout u)) (tail us)) as Ht
    by (destruct us; [done|by inversion Hus]).
  split; [split|].
  - cbn [CBlockUndo.vtxundo]. destruct us; unfold zlen in *; cbn [tail length] in *; lia.
  - eapply Forall_impl; [exact Ht|]. intros x Hx. apply Hx.
  - eapply Forall_impl; [exact Ht|]. intros x Hx. apply Hx.
Qed.
