(* ===== verification/BlockConnectSpec.v ===== *)
(** What [ConnectBlock] decides and does, over a ledger. *)

From S2P Require Import Prelude Bytes BaseUint UintBytes Uint256 Serialize Codec Header Chain ChainSpec BlockTree Pow VersionBits Opcode Prevector ScriptNum Script Amount Transaction Merkle Block PubKey Compressor Coins CoinsView Undo State Connect Ledger Spend Rules RulesSpec Headers HeadersSpec BlockRules BlockRulesSpec BlockContext Interpreter EvalScript EvalScriptSpec EvalRun SigHash VerifyScript Payments VerifySpec CheckerSpec BlockFiles BlockFilesSpec BlockConnect SigOpsSpec BlockLedger.

Import Consensus.

(** A transaction in memory: its fields fit their types, it does not name an
    output twice, and its version is not negative (undo data loses such a version). *)
Record tx_sane (tx : CTransaction) : Prop := {
  sane_scripts : scripts_sane tx;
  sane_values : values_ok tx;
  sane_form : tx_ok tx;
  sane_prevouts : Forall (fun i => COutPoint.wf_outpoint (CTxIn.prevout i)) (vin tx);
  sane_sequences : Forall (fun i => in_u 32 (CTxIn.nSequence i)) (vin tx);
  sane_distinct : NoDup (map CTxIn.prevout (vin tx));
  sane_version : 0 <= Transaction.nVersion tx < 2 ^ 31;
}.

Definition connect_reasons : list string :=
  ["bad-txns-inputs-missingorspent"; "bad-txns-nonfinal"; "non-mandatory-script-verify-flag (%s)"; "mandatory-script-verify-flag-failed (%s)"] ++ tx_reasons ++ block_reasons ++
  ["bad-txns-BIP30"; "bad-cb-amount"].

Ltac rejected := apply DoS_reported; apply (bool_decide_unpack _); by vm_compute.

Lemma input_bytes (tx : CTransaction) i : tx_sane tx -> i ∈ vin tx -> script_ok (CTxIn.scriptSig i).
Proof.
  intros [[Hi _ Hb _] _ _ _ _ _ _] Hin. split; [by apply (proj1 (Forall_forall _ _) Hi)|].
  unfold tx_scripts in Hb. rewrite script_bytes_app in Hb. pose proof (script_bytes_nonneg (map CTxOut.scriptPubKey (vout tx))).
  apply list_elem_of_split in Hin as (l1 & l2 & E). rewrite E, map_app, script_bytes_app in Hb. cbn [map script_bytes foldr] in Hb.
  fold (script_bytes (map CTxIn.scriptSig l2)) in Hb. pose proof (script_bytes_nonneg (map CTxIn.scriptSig l1)). pose proof (script_bytes_nonneg (map CTxIn.scriptSig l2)). lia.
Qed.

Lemma sane_fine (tx : CTransaction) : tx_sane tx -> outputs_fine (vout tx) = true -> tx_fine tx.
Proof.
  intros Hs Ho. split; [|apply Hs]. unfold outputs_fine in Ho. apply andb_prop in Ho as [Ho _]. rewrite forallb_forall in Ho.
  pose proof (sane_outputs _ (sane_scripts _ Hs)) as Hb. rewrite Forall_forall in Hb |- *. intros o Hin.
  split; [by apply Hb|apply Ho; by apply list_elem_of_In].
Qed.

Lemma fine_scripts h M : map_Forall (fun _ c => coin_fine h c) M -> ledger_scripts M.
Proof. intros HM t c Hc. eapply Forall_impl; [apply (HM t c Hc)|]. intros o Ho. by apply fine_script_ok. Qed.

Section views.
Context {V : Type} `{!CCoinsView V, !CCoinsViewLaws V} (usage : CCoins.t -> Z).

Lemma prev_heights_spec M vin : forall s : CCoinsViewCache.t V, shows s M -> all_spent M vin ->
  exists s', prev_heights usage vin s = Ok (spent_heights M vin, s') /\ shows s' M /\ cache_best s' = cache_best s.
Proof.
  induction vin as [|i vin IH]; intros s Hs Ha; cbn [prev_heights spent_heights map]; [by exists s|].
  apply Forall_cons in Ha as [[[c o] Hi] Ha]. destruct (fetch_shows usage s M i Hs) as (x & s1 & -> & Hs1 & Hb1 & _ & Hx). cbn [res_bind].
  rewrite (Hx c o Hi). destruct (IH s1 Hs1 Ha) as (s2 & -> & Hs2 & Hb2). cbn [res_bind]. rewrite Hi. exists s2. by rewrite Hb2.
Qed.

Lemma spent_all M vin : forallb (fun i => bool_decide (is_Some (spent M i))) vin = true <-> all_spent M vin.
Proof.
  rewrite forallb_forall. unfold all_spent. rewrite Forall_forall. split; intros H i Hi.
  - specialize (H i ltac:(by apply list_elem_of_In)). by apply bool_decide_eq_true in H.
  - apply bool_decide_eq_true, H. by apply list_elem_of_In.
Qed.

(** The values of the inputs add up, whatever they are. *)
Lemma value_in_total M vin : forall n (s : CCoinsViewCache.t V), shows s M -> all_spent M vin ->
  exists r s', CCoinsViewCache.value_in_loop usage vin n s = Ok (r, s') /\ shows s' M /\ cache_best s' = cache_best s /\
    (Forall (fun i => 0 <= input_value M i) vin -> 0 <= n -> n + inputs_value M vin <= MAX_MONEY -> r = n + inputs_value M vin).
Proof.
  induction vin as [|i vin IH]; intros n s Hs Ha; cbn [CCoinsViewCache.value_in_loop inputs_value foldr].
  { exists n, s. split_and!; [done|done|done|]. intros. lia. }
  apply Forall_cons in Ha as [Hi Ha]. destruct (output_for_shows usage s M i Hs Hi) as (s1 & -> & Hs1 & Hb1). cbn [res_bind].
  destruct (IH (i64 (n + CTxOut.nValue (spent_out M i))) s1 Hs1 Ha) as (r & s2 & -> & Hs2 & Hb2 & Hr). exists r, s2.
  split_and!; [done|done|by rewrite Hb2|]. intros Hf Hn Hmax. apply Forall_cons in Hf as [Hfi Hf]. fold (inputs_value M vin) in *.
  assert (input_value M i = CTxOut.nValue (spent_out M i)) as Ei by (unfold input_value, spent_out; destruct Hi as [[c o] ->]; done).
  assert (0 <= inputs_value M vin) by (clear -Hf; induction Hf; [done|]; cbn [inputs_value foldr]; fold (inputs_value M l); lia).
  unfold MAX_MONEY, COIN in Hmax. rewrite swrap_small in Hr by (unfold in_s; lia). rewrite Hr; [lia|done|lia|unfold MAX_MONEY, COIN; lia].
Qed.

Section block.
Context (be : bool) {hashes : Hashes} {hashes_laws : HashesLaws} (ec : secp256k1) {curve_laws : CurveLaws ec} (mem : bytes).
Context (s : block_index) (pindex : nat) (b : CBlockIndex) (q : nat) (bq : CBlockIndex) (hashPrev : uint256) (flags lockflags : Z).
Hypothesis Hst : wf_store (heap s).
Hypothesis Htimes : map_Forall (fun _ e => in_u 32 (nTime e)) (heap s).
Hypothesis Hp : heap s !! pindex = Some b.
Hypothesis Hq : Chain.pprev b = Some q.
Hypothesis Hbq : heap s !! q = Some bq.
Hypothesis Hmap : mapBlockIndex s !! hashPrev = Some q.
Hypothesis Hheight : 0 < Chain.nHeight b < 2 ^ 31 - 2 ^ 16.
Hypothesis Hflags : flags_ok flags.
Hypothesis Hflags_range : in_u 32 flags.

Abbreviation h := (Chain.nHeight b).

Lemma heights_range M vin : map_Forall (fun _ c => coin_fine h c) M -> ledger_ok M -> Forall (fun n => 0 <= n <= h) (spent_heights M vin).
Proof.
  intros Hc HM. apply Forall_map, Forall_forall. intros i _. destruct (spent M i) as [[c o]|] eqn:E; [|lia].
  apply spent_coin in E as [E _]. pose proof (fine_height _ _ (Hc _ _ E)). pose proof (coins_height _ (HM _ _ E)). lia.
Qed.

Lemma locks_total M (tx : CTransaction) : tx_sane tx -> ledger_fine h M ->
  exists hs, SequenceLocks (heap s) tx lockflags (spent_heights M (vin tx)) pindex = Ok (locks_over (heap s) pindex lockflags M tx, hs).
Proof.
  intros Ht [HM Hc]. destruct (SequenceLocks_spec (heap s) pindex b q tx lockflags (spent_heights M (vin tx)) Hst Htimes Hp Hq) as (r & E & _).
  - lia.
  - apply Ht.
  - apply length_map.
  - by apply heights_range.
  - unfold locks_over. rewrite E. by eexists.
Qed.

Lemma check_available_spec M (tx : CTransaction) state (view : CCoinsViewCache.t V) : shows view M -> ledger_fine h M -> tx_sane tx ->
  exists report view', check_available usage s pindex lockflags tx state view = Ok (report, view') /\ shows view' M /\ cache_best view' = cache_best view /\
    if IsCoinBase tx || forallb (fun i => bool_decide (is_Some (spent M i))) (vin tx) && locks_over (heap s) pindex lockflags M tx then report = None
    else exists rep, report = Some rep /\ reported connect_reasons state rep.
Proof.
  intros Hs HM Ht. unfold check_available, CCoinsViewCache.HaveInputs. destruct (IsCoinBase tx) eqn:Ecb; cbn [negb orb]; [by exists None, view|].
  destruct (have_inputs_spec usage M (vin tx) view Hs) as (v1 & -> & Hs1 & Hb1). cbn [res_bind].
  destruct (forallb _ (vin tx)) eqn:Ea; cbn [negb andb].
  2: { eexists _, v1. split; [done|]. split_and!; [done|done|]. eexists. split; [done|]. rejected. }
  apply spent_all in Ea. destruct (prev_heights_spec M (vin tx) v1 Hs1 Ea) as (v2 & -> & Hs2 & Hb2). cbn [res_bind].
  destruct (locks_total M tx Ht HM) as [hs ->]. cbn [res_bind]. destruct (locks_over _ _ _ M tx); cbn [negb].
  - exists None, v2. by rewrite Hb2.
  - eexists _, v2. split; [done|]. split_and!; [done|by rewrite Hb2|]. eexists. split; [done|]. rejected.
Qed.

(** ** The checks of scripts *)

Lemma check_runs fl M (tx : CTransaction) k i c o cs : flags_ok fl -> ledger_fine h M -> tx_sane tx -> vin tx !! k = Some i -> spent M i = Some (c, o) ->
  exists check, CScriptCheck.make c tx k fl cs (precompute tx) = Ok check /\
    CScriptCheck.run be ec mem check = Ok (input_verifies be ec mem fl M tx k i).
Proof.
  intros Hf [HM Hc] Ht Hk Hi. pose proof (spent_coin M i c o Hi) as [_ Eo]. unfold CScriptCheck.make. rewrite Hk. cbn [res_of_option res_bind].
  rewrite Eo. cbn [res_of_option res_bind]. eexists. split; [done|]. unfold CScriptCheck.run. cbn. rewrite Hk. cbn [res_of_option res_bind].
  pose proof (sane_scripts _ Ht) as Hsc. pose proof (proj2 (sane_form _ Ht)) as Hvo. pose proof (sane_count _ Hsc) as Hvi. unfold MAX_SIZE in Hvi.
  assert (0 <= Z.of_nat k < zlen (vin tx)) as Hn by (apply lookup_lt_Some in Hk; unfold zlen; lia).
  pose proof (tx_checker_ok be ec mem tx (Z.of_nat k) (CTxOut.nValue o) (Some (precompute tx)) Hn ltac:(lia) Hvo) as Hlaws.
  pose proof (list_elem_of_lookup_2 _ _ _ Hk) as Hin.
  pose proof (VerifyScript_returns be ec (checker_laws := Hlaws) fl Hf (CTxIn.scriptSig i) (CTxOut.scriptPubKey o) (Some (CTxIn.scriptWitness i))
    (input_bytes tx i Ht Hin) (spent_script M i c o (fine_scripts _ M Hc) Hi)) as Hr.
  pose proof (sane_inputs _ Hsc) as Hall. rewrite Forall_forall in Hall. specialize (Hr (sane_witness _ (Hall i Hin))).
  unfold input_verifies. assert (spent_out M i = o) as -> by (unfold spent_out; by rewrite Hi).
  destruct (VerifyScript be ec fl _ _ _) as [[e|[]]|w| | |]; done.
Qed.

Lemma mandatory_flags_ok fl : flags_ok (Z.land fl (Z.lnot STANDARD_NOT_MANDATORY_VERIFY_FLAGS)).
Proof.
  assert (forall k, Z.land STANDARD_NOT_MANDATORY_VERIFY_FLAGS k = k -> has (Z.land fl (Z.lnot STANDARD_NOT_MANDATORY_VERIFY_FLAGS)) k = false) as H.
  { intros k Hk. unfold has. apply negb_false_iff, Z.eqb_eq. rewrite <- Hk. apply Z.bits_inj'. intros n Hn.
    rewrite !Z.land_spec, Z.lnot_spec, Z.bits_0 by done. destruct (Z.testbit fl n), (Z.testbit STANDARD_NOT_MANDATORY_VERIFY_FLAGS n); done. }
  split; intros E; [rewrite (H SCRIPT_VERIFY_CLEANSTACK) in E by done|rewrite (H SCRIPT_VERIFY_WITNESS) in E by done]; done.
Qed.

Lemma run_all_app x y l m : CScriptCheck.run_all be ec mem l = Ok x -> CScriptCheck.run_all be ec mem m = Ok y ->
  CScriptCheck.run_all be ec mem (l ++ m) = Ok (x && y).
Proof.
  revert x. induction l as [|c l IH]; intros x; cbn [CScriptCheck.run_all app]; [by intros [= <-]|].
  destruct (CScriptCheck.run be ec mem c) as [ok|w| | |]; cbn [res_bind]; try done. destruct ok; [apply IH|by intros [= <-]].
Qed.

(** What any run of the queue's threads returns (CheckQueue.v). *)
Lemma run_all_forallb (f : CScriptCheck.t -> bool) l : Forall (fun c => CScriptCheck.run be ec mem c = Ok (f c)) l ->
  CScriptCheck.run_all be ec mem l = Ok (forallb f l).
Proof. induction 1 as [|c l Hc _ IH]; [done|]. cbn [CScriptCheck.run_all forallb]. rewrite Hc. cbn [res_bind]. by destruct (f c). Qed.

Lemma script_checks_spec M (tx : CTransaction) state (cs later : bool) rest : forall k (view : CCoinsViewCache.t V) acc (x : bool), shows view M -> ledger_fine h M -> tx_sane tx ->
  rest = drop k (vin tx) -> all_spent M rest -> (if later then CScriptCheck.run_all be ec mem acc = Ok x else x = true) ->
  exists r view', script_checks be ec mem usage rest k tx state view flags cs (precompute tx) later acc = Ok (r, view') /\ shows view' M /\ cache_best view' = cache_best view /\
    let y := x && inputs_verify be ec mem flags M tx k rest in
    if later then exists l, r = inr l /\ CScriptCheck.run_all be ec mem l = Ok y
    else if y then r = inr acc else exists rep, r = inl rep /\ reported connect_reasons state rep.
Proof.
  induction rest as [|i rest IH]; intros k view acc x Hs HM Ht Hd Ha Hx; cbn [script_checks inputs_verify].
  { exists (inr acc), view. split_and!; [done|done|done|]. rewrite andb_true_r. destruct later; [by exists acc|by subst x]. }
  apply Forall_cons in Ha as [[[c o] Hi] Ha]. destruct (fetch_shows usage view M i Hs) as (co & v1 & -> & Hs1 & Hb1 & _ & Hco). cbn [res_bind].
  rewrite (Hco c o Hi). assert (vin tx !! k = Some i) as Hk by (by rewrite <- (Nat.add_0_r k), <- lookup_drop, <- Hd).
  assert (rest = drop (S k) (vin tx)) as Hd' by (by rewrite <- Nat.add_1_r, <- drop_drop, <- Hd).
  destruct (check_runs flags M tx k i c o cs Hflags HM Ht Hk Hi) as (check & -> & Hrun). cbn [res_bind]. destruct later.
  - destruct (IH (S k) v1 (acc ++ [check]) (x && input_verifies be ec mem flags M tx k i) Hs1 HM Ht Hd' Ha) as (r & v2 & -> & Hs2 & Hb2 & Hr).
    { apply run_all_app; [done|]. cbn [CScriptCheck.run_all]. rewrite Hrun. cbn [res_bind]. by case_bool. }
    exists r, v2. split_and!; [done|done|by rewrite Hb2|]. by rewrite <- andb_assoc in Hr.
  - subst x. rewrite Hrun. cbn [res_bind andb]. destruct (input_verifies be ec mem flags M tx k i); cbn [negb andb].
    + destruct (IH (S k) v1 acc true Hs1 HM Ht Hd' Ha eq_refl) as (r & v2 & -> & Hs2 & Hb2 & Hr). exists r, v2. by rewrite Hb2.
    + assert (exists r, (if negb (Z.land flags STANDARD_NOT_MANDATORY_VERIFY_FLAGS =? 0) then
          let? check2 := CScriptCheck.make c tx k (Z.land flags (Z.lnot STANDARD_NOT_MANDATORY_VERIFY_FLAGS)) cs (precompute tx) in
          let? ok2 := CScriptCheck.run be ec mem check2 in
          if ok2 : bool
          then Ok (inl (CValidationState.Invalid false REJECT_NONSTANDARD "non-mandatory-script-verify-flag (%s)" "" state), v1)
          else Ok (inl (CValidationState.DoS 100 false REJECT_INVALID "mandatory-script-verify-flag-failed (%s)" false "" state), v1)
        else Ok (inl (CValidationState.DoS 100 false REJECT_INVALID "mandatory-script-verify-flag-failed (%s)" false "" state), v1)) =
        Ok ((inl r : bool * CValidationState.t + list CScriptCheck.t), v1) /\ reported connect_reasons state r) as (r & -> & Hr).
      { case_bool; [|eexists; split; [done|rejected]].
        destruct (check_runs _ M tx k i c o cs (mandatory_flags_ok flags) HM Ht Hk Hi) as (check2 & -> & Hrun2). cbn [res_bind]. rewrite Hrun2. cbn [res_bind].
        case_bool; eexists; (split; [done|]); [unfold CValidationState.Invalid|]; rejected. }
      exists (inl r), v1. split_and!; [done|done|by rewrite Hb1|]. by exists r.
Qed.

(** ** One transaction *)

Lemma height_parent : h = Chain.nHeight bq + 1.
Proof. destruct (wf_parent (heap s) Hst pindex b q Hp Hq) as (bq' & E & Hh). rewrite Hbq in E. injection E as <-. lia. Qed.

Lemma same_shows (view view' : CCoinsViewCache.t V) M : shows view M -> cache_ok view' -> same view view' -> shows view' M.
Proof. intros [_ HM] Hok [Hu _]. split; [done|]. intros t. by rewrite Hu. Qed.

Lemma GetSpendHeight_spec M (view : CCoinsViewCache.t V) : shows view M -> cache_best view = hashPrev ->
  exists view', GetSpendHeight s view = Ok (h, view') /\ shows view' M /\ cache_best view' = hashPrev.
Proof.
  intros Hs Hb. destruct (GetBestBlock_spec view (shows_ok _ _ Hs)) as (v1 & E & Hok & Hsame). exists v1.
  unfold GetSpendHeight. rewrite E, Hb. cbn [res_bind]. rewrite Hmap, (deref_Some _ _ _ Hbq). cbn [res_bind].
  pose proof height_parent. rewrite swrap_small by (unfold in_s; lia). split_and!; [by rewrite <- height_parent|by eapply same_shows|].
  by rewrite (same_best _ _ Hsame).
Qed.

Lemma CheckInputs_spec M (tx : CTransaction) state (view : CCoinsViewCache.t V) (scripts cs later : bool) :
  shows view M -> cache_best view = hashPrev -> ledger_fine h M -> tx_sane tx -> outputs_fine (vout tx) = true -> IsCoinBase tx = false ->
  exists ok state' l view', CheckInputs be ec mem usage s tx state view scripts flags cs (precompute tx) later = Ok (ok, state', l, view') /\
    shows view' M /\ cache_best view' = hashPrev /\
    let y := negb scripts || inputs_verify be ec mem flags M tx 0 (vin tx) in
    if payable M h (vin tx) (total_value (vout tx)) && (later || y)
    then ok = true /\ state' = state /\ CScriptCheck.run_all be ec mem l = Ok (if later then y else true)
    else reported connect_reasons state (ok, state').
Proof.
  intros Hs Hb HM Ht Ho Hcb. unfold CheckInputs. rewrite Hcb. cbn [negb].
  destruct (GetSpendHeight_spec M view Hs Hb) as (v1 & -> & Hs1 & Hb1). cbn [res_bind].
  destruct (outputs_total tx Ho (sane_values _ Ht)) as [Eo _].
  destruct (CheckTxInputs_spec usage tx state v1 M h _ Hs1 (fine_ledger _ _ HM) ltac:(lia) Hcb (sane_values _ Ht) Eo) as ([ok st'] & v2 & -> & Hs2 & Hb2 & Hr).
  cbn [res_bind]. destruct (payable M h (vin tx) (total_value (vout tx))) eqn:Hpay; cbn [andb].
  2: { pose proof (proj1 Hr) as Hf. cbn in Hf. subst ok. cbn [negb]. eexists _, _, _, v2. split; [done|]. split_and!; [done|by rewrite Hb2|].
       eapply reported_weaken; [exact Hr|]. intros x Hx. unfold connect_reasons. rewrite !elem_of_app. tauto. }
  injection Hr as -> ->. cbn [negb]. destruct scripts; cbn [negb orb].
  2: { eexists _, _, _, v2. split; [done|]. split_and!; [done|by rewrite Hb2|]. rewrite orb_true_r. by destruct later. }
  assert (all_spent M (vin tx)) as Ha.
  { unfold payable in Hpay. apply andb_prop in Hpay as [Hpay _]. apply andb_prop in Hpay as [Hpay _]. apply spent_all.
    rewrite forallb_forall in Hpay |- *. intros i Hi. specialize (Hpay i Hi). unfold input_fine in Hpay. apply bool_decide_eq_true.
    destruct (spent M i); [by eexists|done]. }
  destruct (script_checks_spec M tx state cs later (vin tx) 0 v2 [] true Hs2 HM Ht eq_refl Ha) as (r & v3 & -> & Hs3 & Hb3 & Hr); [by destruct later|].
  cbn [res_bind andb] in *. destruct later; cbn [orb].
  - destruct Hr as (l & -> & Hl). eexists _, _, _, v3. split; [done|]. by rewrite Hb3, Hb2.
  - destruct (inputs_verify _ _ _ _ _ _ _ _).
    + subst r. eexists _, _, _, v3. split; [done|]. by rewrite Hb3, Hb2.
    + destruct Hr as ([ok' st''] & -> & Hr). eexists _, _, _, v3. split; [done|]. by rewrite Hb3, Hb2.
Qed.

Lemma check_payment_spec M (tx : CTransaction) state fees (view : CCoinsViewCache.t V) (scripts just : bool) threads :
  shows view M -> cache_best view = hashPrev -> ledger_fine h M -> tx_sane tx -> outputs_fine (vout tx) = true ->
  (IsCoinBase tx = false -> all_spent M (vin tx)) -> 0 <= fees < 2 ^ 62 ->
  let later := negb (threads =? 0) in
  exists r view', check_payment be ec mem usage threads s scripts just flags tx fees state view = Ok (r, view') /\ shows view' M /\ cache_best view' = hashPrev /\
    let y := tx_verifies be ec mem flags scripts M tx in
    if (IsCoinBase tx || payable M h (vin tx) (total_value (vout tx))) && (later || y)
    then exists l, r = inr (state, fees + tx_fee M tx, l) /\ CScriptCheck.run_all be ec mem l = Ok (if later then y else true)
    else exists rep, r = inl rep /\ reported connect_reasons state rep.
Proof.
  intros Hs Hb HM Ht Ho Ha Hf. unfold check_payment, tx_verifies, tx_fee. destruct (IsCoinBase tx) eqn:Ecb; cbn [negb orb andb].
  { exists (inr (state, fees, [])), view. rewrite orb_true_r, Z.add_0_r. split_and!; [done|done|done|]. exists []. split; [done|]. by case_bool. }
  unfold CCoinsViewCache.GetValueIn. rewrite Ecb.
  destruct (value_in_total M (vin tx) 0 view Hs (Ha eq_refl)) as (n & v1 & -> & Hs1 & Hb1 & Hn). cbn [res_bind].
  destruct (outputs_total tx Ho (sane_values _ Ht)) as [Eo Ht0]. rewrite Eo. cbn [res_bind].
  destruct (CheckInputs_spec M tx state v1 scripts just (negb (threads =? 0)) Hs1 ltac:(by rewrite Hb1) HM Ht Ho Ecb) as (ok & st' & l & v2 & -> & Hs2 & Hb2 & Hr).
  cbn [res_bind] in *. destruct (payable M h (vin tx) (total_value (vout tx))) eqn:Hpay; cbn [andb] in *.
  2: { pose proof (proj1 Hr) as Hfalse. cbn in Hfalse. subst ok. cbn [negb]. eexists _, v2. split; [done|]. split_and!; [done|done|]. by eexists. }
  destruct (negb (threads =? 0) || _).
  2: { pose proof (proj1 Hr) as Hfalse. cbn in Hfalse. subst ok. cbn [negb]. eexists _, v2. split; [done|]. split_and!; [done|done|]. by eexists. }
  destruct Hr as (-> & -> & Hl). cbn [negb]. eexists _, v2. split; [done|]. split_and!; [done|done|]. exists l. split; [|done].
  unfold payable in Hpay. apply andb_prop in Hpay as [Hpay Hmax]. apply andb_prop in Hpay as [Hpay Hle]. apply Z.leb_le in Hmax, Hle.
  rewrite Hn; [|apply Forall_forall; intros i Hi|lia|lia].
  - rewrite Z.add_0_l. unfold MAX_MONEY, COIN in *. rewrite (swrap_small 64 (_ - _)) by (unfold in_s; lia). rewrite swrap_small by (unfold in_s; lia). done.
  - rewrite forallb_forall in Hpay. specialize (Hpay i ltac:(by apply list_elem_of_In)). unfold input_fine in Hpay. unfold input_value.
    destruct (spent M i) as [[c o]|]; [|done]. apply andb_prop in Hpay as [_ Hpay]. unfold MoneyRange in Hpay. bool_hyps. lia.
Qed.

(** ** The loop over the transactions *)

Definition created (vtx : list CTransaction) : Z := sum (map (fun tx : CTransaction => if IsCoinBase tx then total_value (vout tx) else 0) vtx).

Lemma connects_unverified scripts vtx : forall M fees cost us M' fees' v',
  connects be ec mem (heap s) pindex h flags lockflags scripts vtx M fees cost false = Some (us, M', fees', v') -> v' = false.
Proof.
  induction vtx as [|tx vtx IH]; intros M fees cost us M' fees' v'; cbn [connects]; [by intros [= _ _ _ <-]|].
  case_bool; [|done]. destruct (ledger_tx h tx M) as [[u M1]|]; [|done]. cbn [andb].
  destruct (connects _ _ _ _ _ _ _ _ _ vtx M1 _ _ false) as [[[[us1 M2] f2] v2]|] eqn:E; [|done]. intros [= _ _ _ <-]. by eapply IH.
Qed.

(** A block that breaks a rule, or a script of which fails when checks are not put off. *)
Definition refused (r : res (bool * CValidationState.t * CCoinsViewCache.t V + CValidationState.t * progress (V:=V))) (state : CValidationState.t) : Prop :=
  exists rep view, r = Ok (inl (rep, view)) /\ reported connect_reasons state rep.

Context (s1 s2 s3 : Z) (threads : Z) (scripts just : bool).
Let later := negb (threads =? 0).

Abbreviation run vtx i state p := (connect_txs be ec mem usage s1 s2 s3 threads vtx i s pindex flags lockflags scripts just state p).
Abbreviation spec := (connects be ec mem (heap s) pindex h flags lockflags scripts).

Record progress_at (p : progress (V:=V)) (M : ledger) (fees cost : Z) (v : bool) : Prop := {
  at_shows : shows (p_view p) M;
  at_best : cache_best (p_view p) = hashPrev;
  at_ledger : ledger_fine h M;
  at_fees : nFees p = fees /\ 0 <= fees;
  at_cost : nSigOpsCost p = cost /\ 0 <= cost <= MAX_BLOCK_SIGOPS_COST;
  at_checks : if later then CScriptCheck.run_all be ec mem (vChecks p) = Ok v else v = true;
}.

(** One turn: the block is refused, or the progress is that of the ledger. *)
Lemma connect_tx_spec tx vtx i M fees cost v state p : progress_at p M fees cost v -> tx_sane tx -> outputs_fine (vout tx) = true ->
  M !! GetHash tx = None -> fees + supply M + created [tx] < 2 ^ 62 ->
  let y := tx_verifies be ec mem flags scripts M tx in
  let cost' := cost + tx_cost flags M tx in
  if tx_connects (heap s) pindex h lockflags M tx cost' && (later || y) then
    exists u M' p', ledger_tx h tx M = Some (u, M') /\ progress_at p' M' (fees + tx_fee M tx) cost' (v && y) /\
      vtxundo p' = vtxundo p ++ (if (0 <? i)%nat then [u] else []) /\
      fees + tx_fee M tx + supply M' <= fees + supply M + created [tx] /\
      run (tx :: vtx) i state p = run vtx (S i) state p'
  else refused (run (tx :: vtx) i state p) state.
Proof.
  intros [Hs Hb HM [Hf Hf0] [Hc Hc0] Hv] Ht Ho Habs Hbound y cost'. cbn [connect_txs]. subst fees cost.
  destruct (check_available_spec M tx state (p_view p) Hs HM Ht) as (report & v1 & -> & Hs1 & Hb1 & Ha). cbn [res_bind].
  pose proof HM as [Hok Hcoins]. unfold tx_connects.
  destruct (IsCoinBase tx || forallb _ (vin tx) && locks_over _ _ _ M tx) eqn:Eav; cbn [andb].
  2: { destruct Ha as ([ok st] & -> & Hr). by exists (ok, st), v1. }
  subst report.
  assert (IsCoinBase tx = false -> all_spent M (vin tx)) as Hall.
  { intros Ecb. rewrite Ecb in Eav. cbn [orb] in Eav. apply andb_prop in Eav as [Eav _]. by apply spent_all. }
  assert (Z.land flags SCRIPT_VERIFY_WITNESS <> 0 -> Z.land flags SCRIPT_VERIFY_P2SH <> 0) as Hw.
  { intros Hw. apply Z.eqb_neq in Hw. pose proof (witness_ok _ Hflags) as H. unfold has in H. rewrite Hw in H. specialize (H eq_refl). by apply negb_true_iff, Z.eqb_neq in H. }
  destruct (GetTransactionSigOpCost_spec be usage tx flags M v1 Hs1 Hall (sane_scripts _ Ht) (fine_scripts _ _ Hcoins) Hflags_range Hw) as (v2 & -> & Hs2 & Hb2).
  cbn [res_bind]. pose proof (tx_cost_range flags M tx (sane_scripts _ Ht)) as Hcr. unfold MAX_BLOCK_SIGOPS_COST in Hc0.
  rewrite swrap_small by (unfold in_s; lia). fold cost'. rewrite (Z.leb_antisym MAX_BLOCK_SIGOPS_COST cost').
  destruct (Z.ltb_spec MAX_BLOCK_SIGOPS_COST cost'); cbn [negb andb].
  { destruct (CValidationState.DoS _ _ _ _ _ _ state) as [ok st] eqn:E. exists (ok, st), v2. split; [done|]. rewrite <- E. rejected. }
  pose proof (supply_nonneg h M Hcoins). assert (0 <= created [tx]) as Hm0.
  { unfold created. cbn. destruct (outputs_total tx Ho (sane_values _ Ht)) as [_ ?]. case_bool; lia. }
  destruct (check_payment_spec M tx state (nFees p) v2 scripts just threads Hs2 ltac:(by rewrite Hb2, Hb1) HM Ht Ho Hall ltac:(lia))
    as (r & v3 & -> & Hs3 & Hb3 & Hr). cbn [res_bind]. cbn zeta in Hr. fold later y in Hr.
  destruct (IsCoinBase tx || payable M h (vin tx) (total_value (vout tx))) eqn:Epay; cbn [andb] in *.
  2: { destruct Hr as ([ok st] & -> & Hr). by exists (ok, st), v3. }
  destruct (later || y) eqn:Ely.
  2: { destruct Hr as ([ok st] & -> & Hr). by exists (ok, st), v3. }
  destruct Hr as (l & -> & Hl). rewrite (deref_Some _ _ _ Hp). cbn [res_bind].
  destruct (ledger_tx_some h tx M) as [[u M'] Etx]; [|done|].
  { intros Ecb. split_and!; [apply Ht| |by apply Hall]. eapply Forall_impl; [apply (sane_prevouts _ Ht)|]. intros j [_ Hj]. unfold in_u in Hj. lia. }
  destruct (ledger_tx_spec usage v3 tx h M u M' Hs3 Hok ltac:(lia) (sane_form _ Ht) Etx) as ((v4 & -> & Hs4 & Hb4) & Hok' & _). cbn [res_bind].
  destruct (payable_fee (heap s) pindex h lockflags M tx cost') as [Hfee _]; [|done|apply Ht|].
  { unfold tx_connects. rewrite Eav, Epay, (proj2 (Z.leb_le _ _)) by done. done. }
  exists u, M'. eexists (mk_progress _ _ _ _ _ _ _). split; [done|]. split; [split|split; [|split; [|reflexivity]]]; cbn [p_view nFees nSigOpsCost vChecks vtxundo].
  - exact Hs4.
  - by rewrite Hb4.
  - split; [done|]. eapply ledger_tx_coins; [exact Etx|by apply sane_fine|done].
  - split; [done|lia].
  - split; [done|lia].
  - destruct later; cbn [orb] in *; [by apply run_all_app|]. subst v. by rewrite Ely.
  - case_bool; [done|by rewrite app_nil_r].
  - pose proof (ledger_tx_supply h tx M u M' Etx Ho (sane_values _ Ht)) as Hsup. unfold tx_fee, created in *. cbn. destruct (IsCoinBase tx); lia.
Qed.

Lemma created_cons tx vtx : created (tx :: vtx) = created [tx] + created vtx.
Proof. unfold created, sum. cbn [map foldr]. lia. Qed.

Lemma connect_txs_spec vtx : forall i M fees cost v state p, progress_at p M fees cost v ->
  Forall tx_sane vtx -> Forall (fun tx : CTransaction => outputs_fine (vout tx) = true) vtx -> Forall (fun tx : CTransaction => M !! GetHash tx = None) vtx ->
  NoDup (map GetHash vtx) -> fees + supply M + created vtx < 2 ^ 62 ->
  match spec vtx M fees cost v with
  | Some (us, M', fees', v') =>
      if later || v' then exists p' cost', run vtx i state p = Ok (inr (state, p')) /\ progress_at p' M' fees' cost' v' /\
        vtxundo p' = vtxundo p ++ (if (0 <? i)%nat then us else tail us) /\ fees' + supply M' <= fees + supply M + created vtx
      else refused (run vtx i state p) state
  | None => refused (run vtx i state p) state
  end.
Proof.
  induction vtx as [|tx vtx IH]; intros i M fees cost v state p Hp0 Ht Ho Habs Hd Hbound.
  { cbn [connects connect_txs]. assert (later || v = true) as ->.
    { pose proof (at_checks _ _ _ _ _ Hp0) as H. destruct later; [done|by subst v]. }
    exists p, cost. split_and!; [done|done| |unfold created; cbn; lia]. case_bool; by rewrite app_nil_r. }
  apply Forall_cons in Ht as [Ht Hts]. apply Forall_cons in Ho as [Ho Hos]. apply Forall_cons in Habs as [Habs Habss].
  cbn [map] in Hd. apply NoDup_cons in Hd as [Hnew Hd]. rewrite created_cons in Hbound.
  assert (0 <= created vtx) as Hm0.
  { clear -Hts Hos. induction vtx as [|tx vtx IH]; [done|]. apply Forall_cons in Hts as [Ht Hts]. apply Forall_cons in Hos as [Ho Hos].
    rewrite created_cons. specialize (IH Hts Hos). assert (0 <= created [tx]) by (unfold created; cbn; destruct (outputs_total tx Ho (sane_values _ Ht)) as [_ ?]; case_bool; lia). lia. }
  pose proof (connect_tx_spec tx vtx i M fees cost v state p Hp0 Ht Ho Habs ltac:(lia)) as Hone. cbn zeta in Hone. cbn [connects].
  destruct (tx_connects _ _ _ _ M tx _) eqn:Econ; cbn [andb] in Hone; [|done].
  set (y := tx_verifies be ec mem flags scripts M tx) in *. destruct (later || y) eqn:Ely.
  - destruct Hone as (u & M' & p' & Etx & Hp' & Hundo & Hsup & ->). rewrite Etx.
    assert (Forall (fun tx : CTransaction => M' !! GetHash tx = None) vtx) as Habs'.
    { apply Forall_forall. intros t Hin. rewrite Forall_forall in Habss. eapply ledger_tx_absent; [exact Etx| |by apply Habss].
      intros E. apply Hnew. rewrite <- E. apply list_elem_of_In, in_map. by apply list_elem_of_In. }
    specialize (IH (S i) M' (fees + tx_fee M tx) (cost + tx_cost flags M tx) (v && y) state p' Hp' Hts Hos Habs' Hd ltac:(lia)).
    destruct (spec vtx M' _ _ (v && y)) as [[[[us M''] fees''] v'']|]; [|done]. destruct (later || v''); [|done].
    destruct IH as (p'' & cost'' & E & Hp'' & Hundo' & Hsup'). exists p'', cost''. split_and!; [exact E|done| |rewrite created_cons; lia].
    rewrite Hundo', Hundo. cbn [tail Nat.ltb Nat.leb]. rewrite <- app_assoc. f_equal. by case_bool.
  - assert (later = false /\ y = false) as [El Ey] by (by destruct later, y). pose proof (at_checks _ _ _ _ _ Hp0) as Hv. rewrite El in Hv. subst v.
    destruct (ledger_tx h tx M) as [[u M1]|]; [|done]. rewrite Ey. cbn [andb].
    destruct (spec vtx M1 _ _ false) as [[[[us M''] fees''] v'']|] eqn:E; [|done]. apply connects_unverified in E. subst v''. by rewrite El.
Qed.
End block.
End views.
