(* ===== verification/ConnectBlockSpec.v ===== *)
(** [ConnectBlock] accepts exactly the blocks that keep the rules, and what it
    writes undoes the block. *)

From S2P Require Import Prelude Bytes BaseUint UintBytes Uint256 Serialize Codec Header Chain ChainSpec BlockTree Pow VersionBits Opcode Prevector ScriptNum Script Amount Transaction Merkle Block PubKey Compressor Coins CoinsView Undo State Connect Ledger Spend Rules RulesSpec Headers HeadersSpec BlockRules BlockRulesSpec BlockContext Interpreter EvalScript EvalScriptSpec EvalRun SigHash VerifyScript Payments VerifySpec CheckerSpec BlockFiles BlockFilesSpec BlockConnect SigOpsSpec BlockLedger UndoSpec BlockConnectSpec.

Import Consensus.

(** ** The flags of a block *)

Definition flags_of (p2sh dersig cltv csv witness : bool) : Z :=
  let flags := if p2sh then SCRIPT_VERIFY_P2SH else 0 in
  let flags := if dersig then Z.lor flags SCRIPT_VERIFY_DERSIG else flags in
  let flags := if cltv then Z.lor flags SCRIPT_VERIFY_CHECKLOCKTIMEVERIFY else flags in
  let flags := if csv then Z.lor flags SCRIPT_VERIFY_CHECKSEQUENCEVERIFY else flags in
  if witness then Z.lor (Z.lor flags SCRIPT_VERIFY_WITNESS) SCRIPT_VERIFY_NULLDUMMY else flags.

Lemma flags_of_ok p2sh dersig cltv csv witness : (witness = true -> p2sh = true) ->
  flags_ok (flags_of p2sh dersig cltv csv witness) /\ in_u 32 (flags_of p2sh dersig cltv csv witness).
Proof.
  intros H. destruct witness; [rewrite (H eq_refl)|clear H; destruct p2sh]; destruct dersig, cltv, csv; (split; [split; by vm_compute|by vm_compute]).
Qed.

Section flags.
Context (params : Params) (s : block_index) (pindex : nat) (b : CBlockIndex) (q : nat) (bq : CBlockIndex).

Definition is_active (pos : DeploymentPos) : bool := bool_decide (deployment_state params (heap s) pos q bq = THRESHOLD_ACTIVE).

(** By time, by height and by deployment on the chain of the block. *)
Definition script_flags : Z :=
  flags_of (1333238400 <=? BlockIndex.GetBlockTime b) (BIP66Height params <=? Chain.nHeight b) (BIP65Height params <=? Chain.nHeight b)
    (is_active DEPLOYMENT_CSV) (is_active DEPLOYMENT_SEGWIT).
Definition lock_flags : Z := if is_active DEPLOYMENT_CSV then LOCKTIME_VERIFY_SEQUENCE else 0.

Lemma block_flags_spec cache : heap s !! pindex = Some b -> Chain.pprev b = Some q -> heap s !! q = Some bq ->
  deployments_ok params (heap s) -> caches_ok params (heap s) cache ->
  exists cache', block_flags params s pindex cache = Ok (script_flags, lock_flags, cache') /\ caches_ok params (heap s) cache'.
Proof.
  intros Hp Hq Hbq Hd Hc. unfold block_flags. rewrite (deref_Some _ _ _ Hp). cbn [res_bind]. rewrite Hq.
  destruct (state_spec params (heap s) DEPLOYMENT_CSV q bq cache Hd Hbq Hc) as (c1 & -> & Hc1). cbn [res_bind]. fold (is_active DEPLOYMENT_CSV).
  unfold IsWitnessEnabled. destruct (state_spec params (heap s) DEPLOYMENT_SEGWIT q bq c1 Hd Hbq Hc1) as (c2 & E & Hc2).
  exists c2. split; [|done]. unfold script_flags, lock_flags.
  destruct (is_active DEPLOYMENT_CSV); rewrite E; cbn [res_bind]; by fold (is_active DEPLOYMENT_SEGWIT).
Qed.
End flags.

(** ** Transactions that are there already *)

Lemma bip30_spec {V : Type} `{!CCoinsView V, !CCoinsViewLaws V} (usage : CCoins.t -> Z) M vtx : forall view : CCoinsViewCache.t V, shows view M ->
  exists view', bip30_loop usage vtx view = Ok (negb (forallb (fun tx : CTransaction => bool_decide (M !! GetHash tx = None)) vtx), view') /\
    shows view' M /\ cache_best view' = cache_best view.
Proof.
  induction vtx as [|tx vtx IH]; intros view [Hok HM]; cbn [bip30_loop forallb negb]; [by exists view|].
  destruct (FetchCoins_spec usage view (GetHash tx) Hok) as (o & v1 & E & Hok1 & [Hu Hb] & Ho & _). unfold CCoinsViewCache.AccessCoins.
  rewrite E. cbn [res_bind]. rewrite HM in Ho. assert (shows v1 M) as Hs1 by (split; [done|intros t; by rewrite Hu]).
  destruct (IH v1 Hs1) as (v2 & E2 & Hs2 & Hb2). destruct o as [c|].
  - unfold unspent in Ho. destruct (CCoins.IsPruned c); cbn [negb]; rewrite <- Ho.
    + rewrite bool_decide_eq_true_2 by done. cbn [andb]. exists v2. by rewrite Hb2.
    + rewrite bool_decide_eq_false_2 by done. cbn [andb negb]. by exists v1.
  - rewrite <- Ho. rewrite bool_decide_eq_true_2 by done. cbn [andb]. exists v2. by rewrite Hb2.
Qed.

(** ** Undo data on disk *)

Section undo.
Context {hashes : Hashes} {hashes_laws : HashesLaws} (ec : secp256k1) (mem : bytes) (s5 s6 : Z).
Context (Hs5 : 0 < s5 <= 5000000) (Hs6 : 0 < s6 <= 5000000) (Hec : curve_compression ec).
Context (CheckDiskSpace : Z -> bool) (fPruneMode : bool) (start : bytes) (Hstart : length start = 4%nat) (Hstart_bytes : byte_list start).

Lemma written_wf x : wf256 (GetHash_written x).
Proof. apply (limbs_of_bytes_spec WIDTH256); [apply SHA256_size|]. unfold Hash256. by rewrite (proj2 (SHA256_size _)). Qed.

Abbreviation undo_size u := (Codec.GetSerializeSize (CBlockUndo.codec ec mem s5 s6) u).
Abbreviation read_undo pos hash m := (UndoReadFromDisk GetHash_written ec mem s5 s6 pos hash m).

(** A new place for undo data in the file of the block: the data is there. *)
Lemma save_undo state nf u h f : files_ok f -> 0 <= nf < zlen (vinfoBlockFile f) -> wf_blockundo u -> undo_bytes u ->
  usize (vinfoBlockFile f) nf + undo_size u + 40 < 2 ^ 32 ->
  exists r state' f1, let pos := {| CDiskBlockPos.nFile := nf; CDiskBlockPos.nPos := usize (vinfoBlockFile f) nf |} in
    FindUndoPos CheckDiskSpace fPruneMode state nf (u32 (undo_size u + 40)) f = Ok (r, state', pos, f1) /\
    outcome CheckDiskSpace r state state' /\
    if r then exists m, let pos' := {| CDiskBlockPos.nFile := nf; CDiskBlockPos.nPos := usize (vinfoBlockFile f) nf + 8 |} in
      UndoWriteToDisk GetHash_written ec mem s5 s6 u pos h start (rev_ f1) = Ok (true, pos', m) /\
      files_ok (set_rev m f1) /\ moved f (set_rev m f1) /\ read_undo pos' h m = Ok (Some u)
    else files_ok f1 /\ moved f f1.
Proof.
  intros Hf Hnf Hw Hb Hroom. pose proof written_wf as Hwf.
  pose proof (blockundo_lawful ec Hec mem s5 s6 Hs5 Hs6) as L.
  assert (0 <= undo_size u) as Hn0 by (rewrite (GetSerializeSize_length _ _ (Lawful0 := L) u Hw); lia).
  assert (0 <= usize (vinfoBlockFile f) nf) as Hp0.
  { destruct (info_in nf (vinfoBlockFile f) Hnf) as (i & Hi & _). rewrite (usize_at _ nf i nf Hi eq_refl).
    exact (proj2 (Forall_lookup_1 _ _ _ _ (ok_info _ Hf) Hi)). }
  rewrite wrap_small by (unfold in_u; lia).
  destruct (FindUndoPos_spec CheckDiskSpace fPruneMode state nf (undo_size u + 40) f Hf Hnf ltac:(lia) ltac:(lia)) as
    (r & st' & f1 & E & Hr & Hf1 & Hm & _ & _ & _ & Hus). exists r, st', f1. split; [exact E|]. split; [done|]. destruct r; [|done].
  set (pos := {| CDiskBlockPos.nFile := nf; CDiskBlockPos.nPos := usize (vinfoBlockFile f) nf |}).
  assert (CDiskBlockPos.IsNull pos = false) as Hnull by (unfold CDiskBlockPos.IsNull, pos; cbn [CDiskBlockPos.nFile]; lia).
  destruct (UndoWriteToDisk_spec GetHash_written ec mem s5 s6 (usize (vinfoBlockFile f)) u h pos start (rev_ f1)) as (m & Ew & Hkm & Hat);
    [done|cbn; lia|done|done|by apply undo_record_bytes|cbn; lia|].
  destruct (moved_rev_write f f1 m Hf1 Hm Hkm) as [Hf2 Hm2]. exists m. split; [exact Ew|]. split; [done|]. split; [done|].
  apply (UndoReadFromDisk_spec GetHash_written ec mem s5 s6 Hs5 Hs6 Hec Hwf); [cbn; lia|exact (ok_rev _ Hf2)|exact Hat|done].
Qed.

(** The status keeps the flag of undo data when validity is raised. *)
Lemma raise_keeps_undo (b : CBlockIndex) n : exists b', BlockIndex.RaiseValidity BLOCK_VALID_SCRIPTS (set_nUndoPos b n (Z.lor (nStatus b) BLOCK_HAVE_UNDO)) = Ok b' /\
  BlockIndex.GetUndoPos (snd b') = {| CDiskBlockPos.nFile := nFile b; CDiskBlockPos.nPos := n |} /\
  phashBlock (snd b') = phashBlock b /\ pprev (snd b') = pprev b /\ Chain.nHeight (snd b') = Chain.nHeight b.
Proof.
  assert (forall x, (Z.land (Z.lor x BLOCK_HAVE_UNDO) BLOCK_HAVE_UNDO =? 0) = false) as H1.
  { intros x. apply Z.eqb_neq. intros H. apply (f_equal (fun z => Z.testbit z 4)) in H. rewrite Z.land_spec, Z.lor_spec, Z.bits_0 in H.
    change (Z.testbit BLOCK_HAVE_UNDO 4) with true in H. by rewrite orb_true_r in H. }
  assert (forall x, (Z.land (Z.lor (Z.land (Z.lor x BLOCK_HAVE_UNDO) (u32 (Z.lnot BLOCK_VALID_MASK))) BLOCK_VALID_SCRIPTS) BLOCK_HAVE_UNDO =? 0) = false) as H2.
  { intros x. apply Z.eqb_neq. intros H. apply (f_equal (fun z => Z.testbit z 4)) in H. rewrite !Z.land_spec, Z.lor_spec, Z.land_spec, Z.lor_spec, Z.bits_0 in H.
    change (Z.testbit BLOCK_HAVE_UNDO 4) with true in H. change (Z.testbit (u32 (Z.lnot BLOCK_VALID_MASK)) 4) with true in H.
    by rewrite orb_true_r in H. }
  unfold BlockIndex.RaiseValidity. change (Z.land BLOCK_VALID_SCRIPTS (u32 (Z.lnot BLOCK_VALID_MASK)) =? 0) with true. cbn [negb].
  case_bool; [|case_bool]; eexists; (split; [done|]); cbn [snd]; unfold BlockIndex.GetUndoPos; cbn; [| |]; by rewrite ?H1, ?H2.
Qed.

(** The entry of the block after its undo data went to disk. *)
Record undo_saved (s s' : block_index) (pindex : nat) (b : CBlockIndex) (hashPrev : uint256) (u : CBlockUndo.t) (f' : block_files) : Prop := {
  saved_entry : exists b', heap s' = <[pindex := b']> (heap s) /\ CDiskBlockPos.IsNull (BlockIndex.GetUndoPos b') = false /\
    read_undo (BlockIndex.GetUndoPos b') hashPrev (rev_ f') = Ok (Some u) /\
    phashBlock b' = phashBlock b /\ pprev b' = pprev b /\ Chain.nHeight b' = Chain.nHeight b;
  saved_map : mapBlockIndex s' = mapBlockIndex s;
}.

Lemma write_undo_spec s pindex b q bq hashPrev u state f : heap s !! pindex = Some b -> pprev b = Some q -> heap s !! q = Some bq ->
  phashBlock bq = Some hashPrev -> CDiskBlockPos.IsNull (BlockIndex.GetUndoPos b) = true ->
  files_ok f -> 0 <= nFile b < zlen (vinfoBlockFile f) -> wf_blockundo u -> undo_bytes u ->
  usize (vinfoBlockFile f) (nFile b) + undo_size u + 40 < 2 ^ 32 ->
  exists r st' s' f', write_undo ec mem s5 s6 CheckDiskSpace fPruneMode start s pindex u state f = Ok (r, st', s', f') /\
    outcome CheckDiskSpace r state st' /\ files_ok f' /\ moved f f' /\
    if r then undo_saved s s' pindex b hashPrev u f' else s' = s.
Proof.
  intros Hp Hq Hbq Hh Hnull Hf Hnf Hw Hb Hroom. unfold write_undo. rewrite (deref_Some _ _ _ Hp). cbn [res_bind].
  assert (exists v, BlockIndex.IsValid BLOCK_VALID_SCRIPTS b = Ok v) as [v ->].
  { unfold BlockIndex.IsValid. change (Z.land BLOCK_VALID_SCRIPTS (u32 (Z.lnot BLOCK_VALID_MASK)) =? 0) with true. cbn [negb]. case_bool; by eexists. }
  cbn [res_bind]. rewrite Hnull. cbn [orb].
  destruct (save_undo state (nFile b) u hashPrev f Hf Hnf Hw Hb Hroom) as (r & st' & f1 & E & Hr & Hres). cbn zeta in E, Hres. rewrite E. cbn [res_bind].
  destruct r; cbn [negb].
  - destruct Hres as (m & Ew & Hf2 & Hm2 & Hread). rewrite Hq, (deref_Some _ _ _ Hbq). cbn [res_bind]. unfold BlockIndex.GetBlockHash. rewrite Hh.
    cbn [res_of_option res_bind]. rewrite Ew. cbn [res_bind negb CDiskBlockPos.nPos].
    destruct (raise_keeps_undo b (usize (vinfoBlockFile f) (nFile b) + 8)) as ([ok b'] & -> & Hpos & H1 & H2 & H3). cbn [res_bind snd] in *.
    eexists _, _, _, _. split; [done|]. split; [done|]. split; [done|]. split; [done|]. split; [|done]. exists b'. split; [done|].
    rewrite Hpos. split; [unfold CDiskBlockPos.IsNull; cbn; lia|]. by split.
  - destruct Hres as [Hf1 Hm1]. cbn [res_bind negb]. by eexists _, _, _, _.
Qed.
End undo.

(** ** The block *)

Section connect.
Context (be : bool) {hashes : Hashes} {hashes_laws : HashesLaws} (ec : secp256k1) {curve_laws : CurveLaws ec} (mem : bytes).
Context {V : Type} `{!CCoinsView V, !CCoinsViewLaws V} (usage : CCoins.t -> Z).
Context (s1 s2 s3 s4 s5 s6 : Z) (params : Params) (CheckDiskSpace : Z -> bool) (fPruneMode : bool) (start : bytes) (threads : Z)
  (hashAssumeValid : uint256) (fTxIndex : bool) (WriteTxIndex : list (uint256 * CDiskTxPos.t) -> bool).

(** Where a block stands in the index. *)
Record placed (s : block_index) (pindex : nat) (b : CBlockIndex) (q : nat) (bq : CBlockIndex) (hashPrev hash : uint256) : Prop := {
  pl_store : wf_store (heap s);
  pl_times : map_Forall (fun _ e => in_u 32 (Chain.nTime e)) (heap s);
  pl_entry : heap s !! pindex = Some b;
  pl_pprev : Chain.pprev b = Some q;
  pl_prev : heap s !! q = Some bq;
  pl_map : mapBlockIndex s !! hashPrev = Some q;
  pl_hashes : phashBlock bq = Some hashPrev /\ phashBlock b = Some hash /\ BaseUint.IsNull WIDTH256 hash = false;
  pl_height : 0 < Chain.nHeight b < 2 ^ 31 - 2 ^ 16;
  pl_deployments : deployments_ok params (heap s);
  pl_witness : is_active params s q bq DEPLOYMENT_SEGWIT = true -> 1333238400 <= BlockIndex.GetBlockTime b;
}.

(** A block in memory that was not checked before, without two transactions of one name. *)
Record block_sane (block : CBlock) : Prop := {
  sane_unchecked : fChecked block = false;
  sane_txs : Forall tx_sane (vtx block);
  sane_names : NoDup (map GetHash (vtx block));
  sane_length : zlen (vtx block) <= 2 ^ 31;
}.

Definition coinbase_value (block : CBlock) : Z := match vtx block with c :: _ => total_value (vout c) | [] => 0 end.
Definition subsidy (b : CBlockIndex) : Z := era (Chain.nHeight b / nSubsidyHalvingInterval params).

(** The rules on the block: the undo data, the ledger and the fees after it. *)
Definition block_connects (s : block_index) (pindex : nat) (b : CBlockIndex) (q : nat) (bq : CBlockIndex) (fScriptChecks fEnforceBIP30 just : bool)
  (block : CBlock) (M : ledger) : option (list CTxUndo.t * ledger * Z) :=
  if block_fine s1 s2 s3 s4 GetHash_written params (negb just) (negb just) block &&
     (negb fEnforceBIP30 || forallb (fun tx : CTransaction => bool_decide (M !! GetHash tx = None)) (vtx block)) then
    match connects be ec mem (heap s) pindex (Chain.nHeight b) (script_flags params s b q bq) (lock_flags params s q bq) fScriptChecks (vtx block) M 0 0 true with
    | Some (us, M', fees, true) => if coinbase_value block <=? fees + subsidy b then Some (us, M', fees) else None
    | _ => None
    end
  else None.

Lemma block_sane_scripts block : block_sane block -> Forall byte_list (block_scripts (vtx block)) /\
  Forall (fun t : CTransaction => Forall (fun i => COutPoint.wf_outpoint (CTxIn.prevout i)) (vin t)) (vtx block).
Proof.
  intros [_ H _ _]. split; [|eapply Forall_impl; [exact H|]; intros t Ht; apply Ht].
  unfold block_scripts. induction H as [|t v Ht _ IH]; [constructor|]. cbn [map concat]. apply Forall_app. split; [|exact IH].
  pose proof (sane_scripts _ Ht) as [Hi Ho _ _]. apply Forall_app. split; apply Forall_map; [|exact Ho].
  eapply Forall_impl; [exact Hi|]. intros i Hx. apply Hx.
Qed.

(** What the checks of the block itself give to the rest. *)
Lemma fine_block pow root block : block_fine s1 s2 s3 s4 GetHash_written params pow root block = true -> block_sane block ->
  Forall (fun tx : CTransaction => outputs_fine (vout tx) = true) (vtx block) /\ created (vtx block) = coinbase_value block /\
  0 <= coinbase_value block <= MAX_MONEY /\ zlen (vtx block) <= MAX_SIZE /\ exists c rest, vtx block = c :: rest.
Proof.
  unfold block_fine. intros H Hs. apply andb_prop in H as [H _]. apply andb_prop in H as [H Ht]. apply andb_prop in H as [H Hc].
  apply andb_prop in H as [H _]. apply andb_prop in H as [_ Hl]. apply Z.leb_le in Hl.
  assert (Forall (fun tx : CTransaction => outputs_fine (vout tx) = true) (vtx block)) as Ho.
  { apply Forall_forall. intros tx Hin. unfold transactions_fine in Ht. rewrite forallb_forall in Ht.
    specialize (Ht tx ltac:(by apply list_elem_of_In)). unfold well_formed in Ht. repeat (apply andb_prop in Ht as [Ht ?]). done. }
  split; [done|]. unfold coinbase_value. destruct (vtx block) as [|c rest] eqn:Ev; [done|]. cbn [one_coinbase] in Hc. apply andb_prop in Hc as [Hcb Hrest].
  assert (created rest = 0) as Hr.
  { clear -Hrest. induction rest as [|t v IH]; [done|]. cbn [forallb] in Hrest. apply andb_prop in Hrest as [Ht Hv]. rewrite created_cons, (IH Hv).
    unfold created. cbn. apply negb_true_iff in Ht. by rewrite Ht. }
  rewrite created_cons, Hr. unfold created. cbn [map sum foldr]. rewrite Hcb. apply Forall_cons in Ho as [Ho _].
  pose proof (sane_txs _ Hs) as Hts. rewrite Ev in Hts. apply Forall_cons in Hts as [Htc _].
  destruct (outputs_total c Ho (sane_values _ Htc)) as [_ Hv]. split_and!; [lia|lia|lia|unfold MAX_BLOCK_BASE_SIZE, MAX_SIZE in *; lia|by do 2 eexists].
Qed.

Section result.
Context (s : block_index) (pindex : nat) (b : CBlockIndex) (q : nat) (bq : CBlockIndex) (hashPrev hash : uint256) (block : CBlock) (state : CValidationState.t)
  (M : ledger) (view : CCoinsViewCache.t V) (vb : VersionBitsCache) (files : block_files) (fScriptChecks fEnforceBIP30 just : bool).

Abbreviation spec := (block_connects s pindex b q bq fScriptChecks fEnforceBIP30 just block M).
Abbreviation undo_size u := (Codec.GetSerializeSize (CBlockUndo.codec ec mem s5 s6) u).

(** What is assumed of the state: the view shows a ledger whose tip is the
    parent, the files are well formed and the undo file has room. *)
Record connect_state : Prop := {
  cs_placed : placed s pindex b q bq hashPrev hash;
  cs_block : block_sane block;
  cs_shows : shows view M;
  cs_best : cache_best view = hashPrev;
  cs_ledger : ledger_fine (Chain.nHeight b) M;
  cs_supply : supply M < 2 ^ 61;
  cs_versions : caches_ok params (heap s) vb;
  cs_genesis : BaseUint.op_eq (Header.GetHash GetHash_written (Block.GetBlockHeader block)) (hashGenesisBlock params) = false;
  cs_halving : 0 < nSubsidyHalvingInterval params < 2 ^ 31;
  cs_scripts : need_script_checks params hashAssumeValid s pindex = Ok fScriptChecks;
  cs_bip30 : enforce_bip30 params s pindex = Ok fEnforceBIP30;
  cs_names : fEnforceBIP30 = false -> Forall (fun tx : CTransaction => M !! GetHash tx = None) (vtx block);
  cs_undo : CDiskBlockPos.IsNull (BlockIndex.GetUndoPos b) = true;
  cs_files : files_ok files /\ 0 <= nFile b < zlen (vinfoBlockFile files);
  cs_room us M' fees : spec = Some (us, M', fees) ->
    usize (vinfoBlockFile files) (nFile b) + undo_size (CBlockUndo.mk (tail us)) + 40 < 2 ^ 32;
  cs_sizes : 0 < s5 <= 5000000 /\ 0 < s6 <= 5000000 /\ curve_compression ec /\ length start = 4%nat /\ byte_list start;
}.

(** A failure of the system is reported as such. *)
Definition system_failure (state' : CValidationState.t) : Prop :=
  CValidationState.IsError state' = true /\ ((exists n, CheckDiskSpace n = false) \/ fTxIndex = true /\ exists l, WriteTxIndex l = false).

Definition connected (us : list CTxUndo.t) (M' : ledger) (r : bool * CValidationState.t * CBlock * chainstate (V := V)) : Prop :=
  let '(ok, state', _, c) := r in
  if just then ok = true /\ state' = state /\ shows (c_view c) M' /\ cache_best (c_view c) = hashPrev /\ c_index c = s /\ c_files c = files
  else if ok then state' = state /\ shows (c_view c) M' /\ cache_best (c_view c) = hash /\
    undo_saved ec mem s5 s6 s (c_index c) pindex b hashPrev (CBlockUndo.mk (tail us)) (c_files c) /\ files_ok (c_files c) /\ moved files (c_files c)
  else system_failure state'.

Abbreviation run := (ConnectBlock be ec mem usage s1 s2 s3 s4 s5 s6 params CheckDiskSpace fPruneMode start threads hashAssumeValid fTxIndex WriteTxIndex
  block state pindex just (mk_chainstate s view vb files)).

Definition ConnectBlock_result : Prop := exists ok st' block' c, run = Ok (ok, st', block', c) /\
  match spec with
  | None => reported connect_reasons state (ok, st')
  | Some (us, M', fees) => connected us M' (ok, st', block', c) /\ supply M' <= supply M + subsidy b
  end.

Lemma weaken_block r : reported block_reasons state r -> reported connect_reasons state r.
Proof. intros H. eapply reported_weaken; [exact H|]. intros x Hx. unfold connect_reasons. rewrite !elem_of_app. tauto. Qed.

Lemma DoS_case (x : bool * CValidationState.t) (block' : CBlock) (c : chainstate (V := V)) (P : bool -> CValidationState.t -> CBlock -> chainstate (V := V) -> Prop) :
  P (fst x) (snd x) block' c -> exists ok st' blk cc, (let '(ok, st) := x in Ok (ok, st, block', c)) = Ok (ok, st', blk, cc) /\ P ok st' blk cc.
Proof. destruct x as [ok st]. intros H. by exists ok, st, block', c. Qed.

(** Without the scripts, all are taken as satisfied. *)
Lemma connects_no_scripts st p h flags lockflags vtx : forall L fees cost us M' fees' v',
  connects be ec mem st p h flags lockflags false vtx L fees cost true = Some (us, M', fees', v') -> v' = true.
Proof.
  induction vtx as [|tx vtx IH]; intros L fees cost us M' fees' v'; cbn [connects]; [by intros [= _ _ _ <-]|].
  case_bool; [|done]. destruct (ledger_tx h tx L) as [[u L1]|]; [|done]. unfold tx_verifies. rewrite orb_true_r. cbn [orb andb].
  destruct (connects _ _ _ _ _ _ _ _ _ vtx L1 _ _ true) as [[[[us1 M2] f2] v2]|] eqn:E; [|done]. intros [= _ _ _ <-]. by eapply IH.
Qed.

Abbreviation ledger_after v0 := (connects be ec mem (heap s) pindex (Chain.nHeight b) (script_flags params s b q bq) (lock_flags params s q bq) fScriptChecks
  (vtx block) M 0 0 v0).

Lemma subsidy_small : connect_state -> GetBlockSubsidy (Chain.nHeight b) (nSubsidyHalvingInterval params) = Ok (subsidy b) /\ 0 <= subsidy b <= 55 * COIN.
Proof.
  intros H. pose proof (pl_height _ _ _ _ _ _ _ (cs_placed H)). split; [apply subsidy_spec; [lia|apply (cs_halving H)]|].
  apply era_range, Z.div_pos; [lia|apply (cs_halving H)].
Qed.

(** What the block leaves can be written and undone. *)
Lemma undo_fine us M' fees v : connect_state -> Forall (fun tx : CTransaction => outputs_fine (vout tx) = true) (vtx block) -> zlen (vtx block) <= MAX_SIZE ->
  ledger_after true = Some (us, M', fees, v) ->
  wf_blockundo (CBlockUndo.mk (tail us)) /\ undo_bytes (CBlockUndo.mk (tail us)).
Proof.
  intros H Hout Hlen Hafter. eapply block_undo_fine; [by eapply connects_ledger|pose proof (pl_height _ _ _ _ _ _ _ (cs_placed H)); lia|apply (cs_ledger H)| |done].
  pose proof (sane_txs _ (cs_block H)) as Hs. rewrite Forall_forall in Hs, Hout |- *. intros tx Hin.
  split_and!; [apply (Hs tx Hin)|apply sane_fine; [by apply Hs|by apply Hout]|apply (sane_count _ (sane_scripts _ (Hs tx Hin)))].
Qed.

(** The end of the function, when the loop came to its end. *)
Lemma finish_block_spec c0 rest us M' fees cost v p vb' block' : connect_state -> vtx block = c0 :: rest -> vtx block' = vtx block ->
  Forall (fun tx : CTransaction => outputs_fine (vout tx) = true) (vtx block) -> zlen (vtx block) <= MAX_SIZE ->
  ledger_after true = Some (us, M', fees, v) -> progress_at be ec mem b hashPrev threads p M' fees cost v -> vtxundo p = tail us ->
  fees + supply M' <= supply M + coinbase_value block ->
  spec = (if v then if coinbase_value block <=? fees + subsidy b then Some (us, M', fees) else None else None) ->
  exists ok st' blk c, finish_block be ec mem s5 s6 params CheckDiskSpace fPruneMode start threads fTxIndex WriteTxIndex
    block' s pindex b fScriptChecks just state p vb' files = Ok (ok, st', blk, c) /\
    match spec with
    | None => reported connect_reasons state (ok, st')
    | Some (us, M', fees) => connected us M' (ok, st', blk, c) /\ supply M' <= supply M + subsidy b
    end.
Proof.
  intros H Ev Ev' Hout Hlen Hafter [Hs Hb HM [Hf Hf0] _ Hv] Hundo Hsup Hspec. pose proof (cs_placed H) as Hpl.
  destruct (subsidy_small H) as [Hsub Hsubr]. pose proof (supply_nonneg _ _ (fine_coins _ _ HM)). pose proof (cs_supply H).
  unfold finish_block. rewrite Hsub. cbn [res_bind]. rewrite Ev', Ev. cbn [head res_of_option res_bind].
  destruct (outputs_total c0) as [-> Hcb]; [pose proof Hout as Hc; rewrite Ev in Hc; by apply Forall_cons in Hc as [? _]| |].
  { pose proof (sane_txs _ (cs_block H)) as Ht. rewrite Ev in Ht. apply Forall_cons in Ht as [Ht _]. apply Ht. }
  assert (coinbase_value block = total_value (vout c0)) as Ecb by (unfold coinbase_value; by rewrite Ev). rewrite Ecb in *. unfold MAX_MONEY, COIN in *.
  cbn [res_bind]. rewrite Hf, swrap_small by (unfold in_s; lia). rewrite Hspec, Z.leb_antisym.
  destruct (Z.ltb_spec (fees + subsidy b) (total_value (vout c0))); cbn [negb] in *.
  { apply DoS_case. case_bool; rejected. }
  assert ((if fScriptChecks && negb (threads =? 0) then CScriptCheck.run_all be ec mem (vChecks p) else Ok true) = Ok v) as ->.
  { destruct fScriptChecks eqn:Esc; cbn [andb]; [case_bool; [done|by rewrite Hv]|]. f_equal. symmetry. by eapply connects_no_scripts. }
  cbn [res_bind]. destruct v; cbn [negb]; [|apply DoS_case; rejected].
  assert (supply M' <= supply M + subsidy b) as Hend by lia. unfold connected. pose proof (cs_room H us M' fees) as Hroom.
  rewrite (proj2 (Z.leb_le _ _)) in Hspec by done. destruct just eqn:Ej.
  { eexists _, _, _, _. split; [done|]. split; [|done]. by repeat (split; [done|]). }
  destruct (undo_fine us M' fees true H Hout Hlen Hafter) as [Hw Hby].
  destruct (cs_sizes H) as (H5 & H6 & Hec & Hst & Hstb). destruct (cs_files H) as [Hfi Hnf]. destruct (pl_hashes _ _ _ _ _ _ _ Hpl) as (Hhp & Hh & Hnn).
  destruct (write_undo_spec ec mem s5 s6 H5 H6 Hec CheckDiskSpace fPruneMode start Hst Hstb s pindex b q bq hashPrev (CBlockUndo.mk (tail us)) state files
    (pl_entry _ _ _ _ _ _ _ Hpl) (pl_pprev _ _ _ _ _ _ _ Hpl) (pl_prev _ _ _ _ _ _ _ Hpl) Hhp (cs_undo H) Hfi Hnf Hw Hby (Hroom Hspec))
    as (r & st' & s' & f' & E & Hr & Hf' & Hmv & Hres).
  rewrite Hundo, E. cbn [res_bind]. destruct r; cbn [negb].
  - unfold outcome in Hr. subst st'. destruct (fTxIndex && negb (WriteTxIndex (vPos p))) eqn:Ei.
    + apply andb_prop in Ei as [Ei1 Ei2]. apply negb_true_iff in Ei2. apply DoS_case. split; [|done]. split; [done|]. right. split; [done|]. by eexists.
    + unfold BlockIndex.GetBlockHash. rewrite Hh. cbn [res_of_option res_bind]. eexists _, _, _, _. split; [done|]. split; [|done].
      destruct (set_hashBlock_ok (p_view p) hash (shows_ok _ _ Hs)) as (Hok' & Hu' & Hb'). split; [done|]. unfold CCoinsViewCache.SetBestBlock.
      split; [split; [done|intros t; cbn; rewrite Hu'; apply Hs]|]. split; [by apply Hb'|]. by split.
  - eexists _, _, _, _. split; [done|]. split; [|done]. destruct Hr as [He Hn]. split; [done|by left].
Qed.

(** The loop over the transactions of the block. *)
Lemma loop_block_spec v2 pos : connect_state -> shows v2 M -> cache_best v2 = hashPrev ->
  Forall (fun tx : CTransaction => outputs_fine (vout tx) = true) (vtx block) -> created (vtx block) = coinbase_value block ->
  0 <= coinbase_value block <= MAX_MONEY ->
  forallb (fun tx : CTransaction => bool_decide (M !! GetHash tx = None)) (vtx block) = true ->
  let r := connect_txs be ec mem usage s1 s2 s3 threads (vtx block) 0 s pindex (script_flags params s b q bq) (lock_flags params s q bq)
    fScriptChecks just state (mk_progress v2 [] 0 0 [] [] pos) in
  match ledger_after true with
  | Some (us, M', fees, v) =>
      if negb (threads =? 0) || v then exists p cost, r = Ok (inr (state, p)) /\ progress_at be ec mem b hashPrev threads p M' fees cost v /\
        vtxundo p = tail us /\ fees + supply M' <= supply M + coinbase_value block
      else refused r state
  | None => refused r state
  end.
Proof.
  intros H Hs2 Hb2 Hout Hcreated Hcb Hnames. pose proof (cs_placed H) as Hpl. pose proof (cs_block H) as Hbl. pose proof (cs_supply H).
  assert (flags_ok (script_flags params s b q bq) /\ in_u 32 (script_flags params s b q bq)) as [Hfl Hflr].
  { apply flags_of_ok. intros Hw. apply Z.leb_le. by apply (pl_witness _ _ _ _ _ _ _ Hpl). }
  assert (Forall (fun tx : CTransaction => M !! GetHash tx = None) (vtx block)) as Habs.
  { apply Forall_forall. intros tx Hin. rewrite forallb_forall in Hnames. specialize (Hnames tx ltac:(by apply list_elem_of_In)).
    by apply bool_decide_eq_true in Hnames. }
  assert (progress_at be ec mem b hashPrev threads (mk_progress v2 [] 0 0 [] [] pos) M 0 0 true) as Hp0.
  { split; [done|done|apply (cs_ledger H)|done|done|by case_bool]. }
  pose proof (connect_txs_spec usage be ec mem s pindex b q bq hashPrev (script_flags params s b q bq) (lock_flags params s q bq)
    (pl_store _ _ _ _ _ _ _ Hpl) (pl_times _ _ _ _ _ _ _ Hpl) (pl_entry _ _ _ _ _ _ _ Hpl) (pl_pprev _ _ _ _ _ _ _ Hpl) (pl_prev _ _ _ _ _ _ _ Hpl)
    (pl_map _ _ _ _ _ _ _ Hpl) (pl_height _ _ _ _ _ _ _ Hpl) Hfl Hflr s1 s2 s3 threads fScriptChecks just (vtx block) 0 M 0 0 true state _ Hp0
    (sane_txs _ Hbl) Hout Habs (sane_names _ Hbl) ltac:(rewrite Hcreated; unfold MAX_MONEY, COIN in Hcb; lia)) as Hloop.
  cbn zeta. destruct (connects _ _ _ _ _ _ _ _ _ _ M 0 0 true) as [[[[us M'] fees] v]|]; [|done].
  destruct (negb (threads =? 0) || v); [|done]. destruct Hloop as (p & cost & E & Hp & Hu & Hsup).
  exists p, cost. rewrite Hcreated in Hsup. by repeat (split; [done|]).
Qed.

(** No transaction of the block is there already, whether or not this is looked for. *)
Abbreviation new_names := (forallb (fun tx : CTransaction => bool_decide (M !! GetHash tx = None)) (vtx block)).

Lemma names_spec v1 : connect_state -> shows v1 M ->
  (exists v2, (if fEnforceBIP30 then bip30_loop usage (vtx block) v1 else Ok (false, v1)) = Ok (negb (negb fEnforceBIP30 || new_names), v2) /\
    shows v2 M /\ cache_best v2 = cache_best v1) /\ (negb fEnforceBIP30 || new_names = true -> new_names = true).
Proof.
  intros H Hs. split.
  - destruct fEnforceBIP30; [by apply bip30_spec|by exists v1].
  - destruct fEnforceBIP30 eqn:Ebip; [done|]. intros _. apply forallb_forall. intros tx Hin. apply bool_decide_eq_true.
    pose proof (cs_names H Ebip) as Hnames. rewrite Forall_forall in Hnames. apply Hnames. by apply list_elem_of_In.
Qed.

Lemma ConnectBlock_spec : connect_state -> ConnectBlock_result.
Proof.
  intros H. pose proof (cs_placed H) as Hpl. pose proof (cs_block H) as Hbl. destruct (pl_hashes _ _ _ _ _ _ _ Hpl) as (Hhp & Hh & Hnn).
  destruct (block_sane_scripts block Hbl) as [Hbytes Hprev].
  unfold ConnectBlock_result, ConnectBlock. cbn [c_index c_view c_versionbits c_files].
  destruct (CheckBlock_spec be s1 s2 s3 s4 GetHash_written params (negb just) (negb just) block state (sane_unchecked _ Hbl) (sane_length _ Hbl) Hprev Hbytes)
    as ([ok st] & block' & -> & Hck). cbn [res_bind]. unfold block_connects.
  destruct (block_fine s1 s2 s3 s4 GetHash_written params (negb just) (negb just) block) eqn:Hfine; cbn [andb].
  2: { destruct Hck as [Hr ->]. pose proof (proj1 Hr) as Hf. cbn in Hf. subst ok. cbn [negb]. exists false, st, block. eexists. split; [done|]. by apply weaken_block. }
  destruct Hck as [[= -> ->] ->]. cbn [negb]. destruct (fine_block _ _ _ Hfine Hbl) as (Hout & Hcreated & Hcb & Hlen & c0 & rest & Ev).
  rewrite (deref_Some _ _ _ (pl_entry _ _ _ _ _ _ _ Hpl)). cbn [res_bind]. rewrite (pl_pprev _ _ _ _ _ _ _ Hpl).
  rewrite (deref_Some _ _ _ (pl_prev _ _ _ _ _ _ _ Hpl)). cbn [res_bind]. unfold BlockIndex.GetBlockHash. rewrite Hhp, Hh. cbn [res_of_option res_bind].
  destruct (GetBestBlock_spec view (shows_ok _ _ (cs_shows H))) as (v1 & -> & Hok1 & Hsame). cbn [res_bind].
  rewrite (cs_best H). unfold BaseUint.op_eq at 1. rewrite bool_decide_eq_true_2 by done. cbn [negb].
  pose proof (same_shows _ _ _ (cs_shows H) Hok1 Hsame) as Hs1. assert (cache_best v1 = hashPrev) as Hb1 by (by rewrite (same_best _ _ Hsame), (cs_best H)).
  change (Block.GetBlockHeader (mk_block (header block) (vtx block) (negb just && negb just))) with (Block.GetBlockHeader block).
  rewrite (cs_genesis H), (cs_scripts H). cbn [res_bind]. rewrite (cs_bip30 H). cbn [res_bind vtx].
  destruct (names_spec v1 H Hs1) as [(v2 & -> & Hs2 & Hb2) Hnames]. cbn [res_bind].
  destruct (negb fEnforceBIP30 || new_names) eqn:En; cbn [negb]; [|apply DoS_case; rejected]. specialize (Hnames eq_refl).
  destruct (block_flags_spec params s pindex b q bq vb (pl_entry _ _ _ _ _ _ _ Hpl) (pl_pprev _ _ _ _ _ _ _ Hpl) (pl_prev _ _ _ _ _ _ _ Hpl)
    (pl_deployments _ _ _ _ _ _ _ Hpl) (cs_versions H)) as (vb' & -> & _). cbn [res_bind].
  replace (length (vtx block) =? 0)%nat with false by (by rewrite Ev). set (pos := CDiskTxPos.mk _ _).
  pose proof (loop_block_spec v2 pos H Hs2 ltac:(by rewrite Hb2) Hout Hcreated Hcb Hnames) as Hloop. cbn zeta in Hloop.
  destruct (ledger_after true) as [[[[us M'] fees] v]|] eqn:Eafter.
  2: { destruct Hloop as ([ok st] & v3 & -> & Hr). cbn [res_bind]. by eexists _, _, _, _. }
  assert (spec = if v then if coinbase_value block <=? fees + subsidy b then Some (us, M', fees) else None else None) as Hspec.
  { unfold block_connects. by rewrite Hfine, En, Eafter. }
  destruct (negb (threads =? 0) || v) eqn:El.
  - destruct Hloop as (p & cost & -> & Hp & Hu & Hsup). cbn [res_bind]. 
    destruct (finish_block_spec c0 rest us M' fees cost v p vb' (mk_block (header block) (vtx block) (negb just && negb just)) H Ev eq_refl Hout Hlen Eafter Hp Hu Hsup Hspec)
      as (ok & st' & blk & c & E & Hres). exists ok, st', blk, c. split; [exact E|]. rewrite Hspec in Hres. by destruct v.
  - apply orb_false_iff in El as [_ ->]. destruct Hloop as ([ok st] & v3 & -> & Hr). cbn [res_bind]. by eexists _, _, _, _.
Qed.
End result.
End connect.
