(* ===== verification/BlockHistory.v ===== *)
(** [ConnectBlock] and [DisconnectBlock] together, through the files on disk. *)

From S2P Require Import Prelude Bytes BaseUint UintBytes Uint256 Serialize Codec Header Chain ChainSpec BlockTree Pow VersionBits Opcode Prevector ScriptNum Script Amount Transaction Merkle Block PubKey Compressor Coins CoinsView Undo State Connect Ledger Spend Rules RulesSpec Headers HeadersSpec BlockRules BlockRulesSpec BlockContext Interpreter EvalScript EvalScriptSpec EvalRun SigHash VerifyScript Payments VerifySpec CheckerSpec BlockFiles BlockFilesSpec BlockConnect SigOpsSpec BlockLedger UndoSpec BlockConnectSpec ConnectBlockSpec.

Import Consensus.

(** What [UndoReadFromDisk] gives its caller. *)
Definition read_undo_file {hashes : Hashes} (ec : secp256k1) (mem : bytes) (s5 s6 : Z) (m : gmap Z bytes) (pos : CDiskBlockPos.t) (hash : uint256) : option CBlockUndo.t :=
  match UndoReadFromDisk GetHash_written ec mem s5 s6 pos hash m with Ok u => u | _ => None end.

Lemma coinbase_first vtx : one_coinbase vtx = true ->
  forall i (tx : CTransaction), vtx !! i = Some tx -> IsCoinBase tx = (i =? 0)%nat.
Proof.
  destruct vtx as [|c rest]; [done|]. cbn [one_coinbase]. intros [Hc Hr]%andb_prop [|i] tx Hi; [injection Hi as <-; exact Hc|].
  rewrite forallb_forall in Hr. cbn in Hi. apply list_elem_of_lookup_2, list_elem_of_In in Hi. cbn [Nat.eqb]. apply negb_true_iff. by apply Hr.
Qed.

Section blocks.
Context (be : bool) {hashes : Hashes} {hashes_laws : HashesLaws} (ec : secp256k1) {curve_laws : CurveLaws ec} (mem : bytes).
Context {V : Type} `{!CCoinsView V, !CCoinsViewLaws V} (usage : CCoins.t -> Z).
Context (s1 s2 s3 s4 s5 s6 : Z) (params : Params) (CheckDiskSpace : Z -> bool) (fPruneMode : bool) (start : bytes) (threads : Z)
  (hashAssumeValid : uint256) (fTxIndex : bool) (WriteTxIndex : list (uint256 * CDiskTxPos.t) -> bool).
Context (s : block_index) (pindex : nat) (b : CBlockIndex) (q : nat) (bq : CBlockIndex) (hashPrev hash : uint256) (block : CBlock) (state : CValidationState.t)
  (M : ledger) (view : CCoinsViewCache.t V) (vb : VersionBitsCache) (files : block_files) (fScriptChecks fEnforceBIP30 just : bool).

Abbreviation spec := (block_connects be ec mem s1 s2 s3 s4 params s pindex b q bq fScriptChecks fEnforceBIP30 just block M).
Abbreviation run := (ConnectBlock be ec mem usage s1 s2 s3 s4 s5 s6 params CheckDiskSpace fPruneMode start threads hashAssumeValid fTxIndex WriteTxIndex
  block state pindex just (mk_chainstate s view vb files)).
Abbreviation assumed := (connect_state be ec mem s1 s2 s3 s4 s5 s6 params start hashAssumeValid s pindex b q bq hashPrev hash block M view vb files
  fScriptChecks fEnforceBIP30 just).

(** The rules that were kept give what undoing the block needs. *)
Lemma connects_undone us M' fees : spec = Some (us, M', fees) ->
  ledger_txs (Chain.nHeight b) (vtx block) M = Some (us, M') /\ one_coinbase (vtx block) = true.
Proof.
  unfold block_connects. destruct (block_fine _ _ _ _ _ _ _ _ block) eqn:Hfine; [|done]. cbn [andb]. case_bool; [|done].
  destruct (connects _ _ _ _ _ _ _ _ _ _ M 0 0 true) as [[[[us0 M0] f0] v]|] eqn:E; [|done]. destruct v; [|done]. case_bool; [|done].
  intros [= -> -> ->]. split; [by eapply connects_ledger|]. unfold block_fine in Hfine. apply andb_prop in Hfine as [Hf _].
  apply andb_prop in Hf as [Hf _]. by apply andb_prop in Hf as [_ Hf].
Qed.


End blocks.
(** ** A block after the first two of a toy chain *)

Definition demo_paid : ledger := {[ demo_txid 1 := CCoins.mk false [demo_out 50] 1 1 ]}.
Definition demo_connected_vtx : list CTransaction :=
  [demo_coinbase_tx 82; demo_transaction 2 [demo_in 1 0] [demo_out 20; demo_out 23]].
Definition demo_connected_block : CBlock :=
  let root := limbs_of_bytes 8 (replicate 32 3) in
  mk_block {| Header.nVersion := 0x30000000; Header.hashPrevBlock := base_uint_zero 8; Header.hashMerkleRoot := root; Header.nTime := 30;
    Header.nBits := 469827583; Header.nNonce := 0 |} demo_connected_vtx false.
Definition demo_tip : uint256 := Header.GetHash BlockTree.toy_hash (demo_signal (base_uint_zero 8) 20).
Definition demo_files : block_files :=
  mk_files [{| CBlockFileInfo.nBlocks := 2; CBlockFileInfo.nSize := 500; CBlockFileInfo.nUndoSize := 0; CBlockFileInfo.nHeightFirst := 0;
    CBlockFileInfo.nHeightLast := 1; CBlockFileInfo.nTimeFirst := 10; CBlockFileInfo.nTimeLast := 20 |}] 0 ∅ false ∅ ∅.
Definition entry_of (p : nat) : CBlockIndex := default (Ledger.demo_entry 0 None 0 0) (heap demo_active_index !! p).
Definition hash_of (p : nat) : uint256 := default (base_uint_zero 8) (Chain.phashBlock (entry_of p)).
Definition demo_connects := @block_connects false toy_hashes xonly_curve [] 100 40 24 16 demo_active_params demo_active_index 2 (entry_of 2) 1 (entry_of 1)
   true true false demo_connected_block demo_paid.
Definition demo_view : CCoinsViewCache.t CCoinsViewDB.t := CCoinsViewCache.make (CCoinsViewDB.mk demo_paid (Some (hash_of 1))).

Lemma demo_entries : heap demo_active_index !! 2%nat = Some (entry_of 2) /\ heap demo_active_index !! 1%nat = Some (entry_of 1).
Proof. split; by vm_compute. Qed.

Lemma demo_times : map_Forall (fun _ e => in_u 32 (Chain.nTime e)) (heap demo_active_index).
Proof.
  intros p e E. assert (forallb (fun pe : nat * CBlockIndex => (0 <=? Chain.nTime pe.2) && (Chain.nTime pe.2 <? 2 ^ 32)) (map_to_list (heap demo_active_index)) = true) as H
    by (vm_compute; reflexivity).
  rewrite forallb_forall in H. apply elem_of_map_to_list, list_elem_of_In in E. specialize (H _ E). cbn in H. unfold in_u. lia.
Qed.

Lemma demo_placed : placed demo_active_params demo_active_index 2 (entry_of 2) 1 (entry_of 1) (hash_of 1) (hash_of 2).
Proof.
  split.
  - exact (ok_tree _ _ (tr_index _ _ _ demo_active_rules)).
  - exact demo_times.
  - vm_compute. reflexivity.
  - vm_compute. reflexivity.
  - vm_compute. reflexivity.
  - vm_compute. reflexivity.
  - split_and!; vm_compute; reflexivity.
  - split; vm_compute; reflexivity.
  - exact demo_active_deployments.
  - unfold is_active. assert (deployment_state demo_active_params (heap demo_active_index) DEPLOYMENT_SEGWIT 1 (entry_of 1) = THRESHOLD_LOCKED_IN) as -> by (vm_compute; reflexivity).
    rewrite bool_decide_eq_false_2 by discriminate. intros H. discriminate H.
Qed.

Lemma demo_paid_coin t c : demo_paid !! t = Some c -> c = CCoins.mk false [demo_out 50] 1 1.
Proof.
  intros E. change (({[ demo_txid 1 := CCoins.mk false [demo_out 50] 1 1 ]} : gmap uint256 CCoins.t) !! t = Some c) in E.
  by apply lookup_singleton_Some in E as [_ <-].
Qed.

Lemma demo_paid_fine : ledger_fine (Chain.nHeight (entry_of 2)) demo_paid.
Proof.
  split; intros t c E; rewrite (demo_paid_coin t c E).
  - split; [by vm_compute|by vm_compute| |by intros o [= <-]|done]. by repeat constructor.
  - split; [|by vm_compute|by vm_compute]. repeat constructor; by vm_compute.
Qed.

Lemma demo_view_shows : shows demo_view demo_paid.
Proof.
  split; [split; [|done|done]|done]. intros t c E. rewrite (demo_paid_coin t c E). split; [done|]. by intros o [= <-].
Qed.

Ltac fields :=
  repeat lazymatch goal with
  | |- Forall _ _ => first [apply Forall_nil_2 | apply Forall_cons_2]
  | |- in_u _ _ => split
  | |- in_s _ _ => split
  | |- _ /\ _ => split
  | |- input_sane _ => split
  | |- COutPoint.wf_outpoint _ => split
  | |- wf256 _ => split
  | |- info_ok _ => split
  | |- byte_list _ => unfold byte_list
  | |- tx_ok _ => split
  | |- values_ok _ => unfold values_ok
  | |- NoDup _ => apply (bool_decide_unpack _); vm_compute; exact I
  | |- null_form _ => vm_compute; intros ?; congruence
  | |- _ => vm_compute; congruence
  end.

Lemma demo_sane : block_sane demo_connected_block.
Proof.
  split; [done| |apply (bool_decide_unpack _); by vm_compute|by vm_compute]. cbn [vtx demo_connected_block demo_connected_vtx].
  repeat (apply Forall_cons; split); [| |constructor]; (split; [split| | | | | |]); fields.
Qed.

Lemma demo_state_ok : connect_state (hashes := toy_hashes) false xonly_curve [] 100 40 24 16 24 24 demo_active_params [1; 2; 3; 4] (base_uint_zero 8) demo_active_index 2
  (entry_of 2) 1 (entry_of 1) (hash_of 1) (hash_of 2) demo_connected_block demo_paid demo_view demo_no_states demo_files true true false.
Proof.
  split.
  - exact demo_placed.
  - exact demo_sane.
  - exact demo_view_shows.
  - vm_compute. reflexivity.
  - exact demo_paid_fine.
  - vm_compute. reflexivity.
  - apply no_states_ok.
  - vm_compute. reflexivity.
  - split; vm_compute; reflexivity.
  - vm_compute. reflexivity.
  - vm_compute. reflexivity.
  - intros H. discriminate H.
  - vm_compute. reflexivity.
  - split; [|by vm_compute]. split; [done|done|cbn [vinfoBlockFile demo_files]; fields|exact (map_Forall_empty _)|exact (map_Forall_empty _)].
  - intros us M' fees E. assert (match demo_connects with Some (us, _, _) =>
      usize (vinfoBlockFile demo_files) (nFile (entry_of 2)) + Codec.GetSerializeSize (CBlockUndo.codec xonly_curve [] 24 24) (CBlockUndo.mk (tail us)) + 40 <? 2 ^ 32
      | None => true end = true) as H by (vm_compute; reflexivity).
    unfold demo_connects in H. rewrite E in H. by apply Z.ltb_lt.
  - split_and!; [done|done|done|done|exact xonly_curve_compression|done|]. fields.
Qed.

Abbreviation demo_ConnectBlock := (ConnectBlock (hashes := toy_hashes) false xonly_curve [] demo_usage 100 40 24 16 24 24 demo_active_params (fun _ => true) false [1; 2; 3; 4] 0
  (base_uint_zero 8) false (fun _ => true) demo_connected_block CValidationState.make 2 false (mk_chainstate demo_active_index demo_view demo_no_states demo_files)).

Lemma xonly_curve_ok : CurveLaws xonly_curve.
Proof. split. by eexists. Qed.


Lemma demo_accepted : exists st' block' c, demo_ConnectBlock = Ok (true, st', block', c).
Proof.
  destruct (@ConnectBlock_spec false toy_hashes toy_hashes_ok xonly_curve xonly_curve_ok [] CCoinsViewDB.t CCoinsView_db CCoinsViewLaws_db demo_usage 100 40 24 16 24 24
    demo_active_params (fun _ => true) false [1; 2; 3; 4] 0 (base_uint_zero 8) false (fun _ => true) demo_active_index 2 (entry_of 2) 1 (entry_of 1) (hash_of 1) (hash_of 2)
    demo_connected_block CValidationState.make demo_paid demo_view demo_no_states demo_files true true false demo_state_ok) as (ok & st' & block' & c & E & H).
  exists st', block', c. assert (match demo_connects with Some _ => true | None => false end = true) as Hsome by (vm_compute; reflexivity).
  unfold demo_connects in Hsome. destruct (block_connects _ _ _ _ _ _ _ _ _ _ _ _ _ _ _ _ _ _) as [[[us M'] fees]|]; [|discriminate Hsome].
  destruct H as [H _]. cbn in H. destruct ok; [exact E|destruct H as (_ & [[n Hn]|[Hn _]]); discriminate Hn].
Qed.

