(* ===== verification/Standard.v ===== *)
(** Standard scripts: src/sige/src/script/standard.h and standard.cpp, with the
    destinations of txdestination.h.

    [Solver] matches a script against templates; the model reads both scripts
    operation by operation as the code does. The hash functions are parameters;
    a key object starts from the memory [mem]. The text forms of destinations
    (base 58) are not modelled. *)

From S2P Require Import Prelude Bytes BaseUint UintBytes Uint256 Prevector Opcode Script PubKey Interpreter.

Inductive txnouttype :=
| TX_NONSTANDARD | TX_PUBKEY | TX_PUBKEYHASH | TX_SCRIPTHASH | TX_MULTISIG | TX_NULL_DATA
| TX_WITNESS_V0_SCRIPTHASH | TX_WITNESS_V0_KEYHASH.
#[export] Instance txnouttype_eq_dec : EqDecision txnouttype.
Proof. solve_decision. Defined.

Definition GetTxnOutputType (t : txnouttype) : string :=
  match t with
  | TX_NONSTANDARD => "nonstandard" | TX_PUBKEY => "pubkey" | TX_PUBKEYHASH => "pubkeyhash"
  | TX_SCRIPTHASH => "scripthash" | TX_MULTISIG => "multisig" | TX_NULL_DATA => "nulldata"
  | TX_WITNESS_V0_KEYHASH => "witness_v0_keyhash" | TX_WITNESS_V0_SCRIPTHASH => "witness_v0_scripthash"
  end.

(** A destination: none, the hash of a key, or the hash of a script. *)
Inductive CTxDestination := CNoDestination | CKeyID (id : limbs) | CScriptID (id : limbs).
Definition IsNoDestination (d : CTxDestination) : bool := match d with CNoDestination => true | _ => false end.

Section standard.
Context (WORDS_BIGENDIAN : bool).

#[local] Abbreviation build := (build WORDS_BIGENDIAN).
#[local] Abbreviation GetOp := (GetOp WORDS_BIGENDIAN).

(** The templates, in the order of their types. *)
Definition mTemplates : list (txnouttype * res CScript) := [
  (TX_PUBKEY, build [Code OP_PUBKEY; Code OP_CHECKSIG] []);
  (TX_PUBKEYHASH, build [Code OP_DUP; Code OP_HASH160; Code OP_PUBKEYHASH; Code OP_EQUALVERIFY; Code OP_CHECKSIG] []);
  (TX_MULTISIG, build [Code OP_SMALLINTEGER; Code OP_PUBKEYS; Code OP_SMALLINTEGER; Code OP_CHECKMULTISIG] [])].

Definition key_size (vch : bytes) : bool := (33 <=? zlen vch) && (zlen vch <=? 65).

(** [while (vch1.size() >= 33 && vch1.size() <= 65)]: the last operation read, and the keys. *)
Fixpoint pubkeys_loop (fuel : nat) (script1 : CScript) (r1 : getop) (vSolutionsRet : list bytes) : res (getop * list bytes) :=
  if key_size (vchRet r1) then
    match fuel with
    | O => OutOfFuel
    | S fuel =>
        let vSolutionsRet := vSolutionsRet ++ [vchRet r1] in
        let r1 := GetOp script1 (pcRet r1) in
        if negb (fRet r1) then Ok (r1, vSolutionsRet) else pubkeys_loop fuel script1 r1 vSolutionsRet
    end
  else Ok (r1, vSolutionsRet).

(** What an operation adds where the one of the template is [opcode2]; [None] for a [break]. *)
Definition match_item (opcode1 : Z) (vch1 : bytes) (opcode2 : Z) (vch2 : bytes) : res (option (list bytes)) :=
  if opcode2 =? OP_PUBKEY then Ok (if key_size vch1 then Some [vch1] else None)
  else if opcode2 =? OP_PUBKEYHASH then Ok (if zlen vch1 =? 20 then Some [vch1] else None)
  else if opcode2 =? OP_SMALLINTEGER then
    if (opcode1 =? OP_0) || ((OP_1 <=? opcode1) && (opcode1 <=? OP_16)) then
      let? n := DecodeOP_N opcode1 in
      Ok (Some [[wrap 8 n]])
    else Ok None
  else Ok (if (opcode1 =? opcode2) && bool_decide (vch1 = vch2) then Some [] else None).

(** The comparison with one template: its solutions, or [None] after a [break]. *)
Fixpoint template_loop (fuel : nat) (script1 script2 : CScript) (pc1 pc2 : Z) (vSolutionsRet : list bytes) : res (option (list bytes)) :=
  if (pc1 =? script_end script1) && (pc2 =? script_end script2) then Ok (Some vSolutionsRet)
  else
    let r1 := GetOp script1 pc1 in
    if negb (fRet r1) then Ok None
    else
      let r2 := GetOp script2 pc2 in
      if negb (fRet r2) then Ok None
      else
        match fuel with
        | O => OutOfFuel
        | S fuel =>
            let next (r1 r2 : getop) (vSolutionsRet : list bytes) :=
              let? m := match_item (opcodeRet r1) (vchRet r1) (opcodeRet r2) (vchRet r2) in
              match m with
              | None => Ok None
              | Some v => template_loop fuel script1 script2 (pcRet r1) (pcRet r2) (vSolutionsRet ++ v)
              end in
            if opcodeRet r2 =? OP_PUBKEYS then
              let? (r1, vSolutionsRet) := pubkeys_loop (S (length script1)) script1 r1 vSolutionsRet in
              let r2 := GetOp script2 (pcRet r2) in
              if negb (fRet r2) then Ok None else next r1 r2 vSolutionsRet
            else next r1 r2 vSolutionsRet
        end.

(** Additional checks for [TX_MULTISIG]. *)
Definition multisig_counts (vSolutionsRet : list bytes) : res bool :=
  let? front := res_of_option (head vSolutionsRet) in
  let? m := res_of_option (head front) in
  let? back := res_of_option (last vSolutionsRet) in
  let? n := res_of_option (head back) in
  Ok (negb ((m <? 1) || (n <? 1) || (n <? m) || negb (u64 (zlen vSolutionsRet - 2) =? n))).

Fixpoint scan_templates (mTemplates : list (txnouttype * res CScript)) (script1 : CScript) : res (bool * txnouttype * list bytes) :=
  match mTemplates with
  | [] => Ok (false, TX_NONSTANDARD, [])
  | (type, script2) :: mTemplates =>
      let? script2 := script2 in
      let? found := template_loop (S (length script1)) script1 script2 0 0 [] in
      match found with
      | None => scan_templates mTemplates script1
      | Some vSolutionsRet =>
          if bool_decide (type = TX_MULTISIG) then
            let? ok := multisig_counts vSolutionsRet in
            Ok (ok, type, vSolutionsRet)
          else Ok (true, type, vSolutionsRet)
      end
  end.

(** The result, with [*typeRet], which is [typeRet] before, and the solutions. *)
Definition Solver (scriptPubKey : CScript) (typeRet : txnouttype) : res (bool * txnouttype * list bytes) :=
  if IsPayToScriptHash scriptPubKey then Ok (true, TX_SCRIPTHASH, [slice scriptPubKey 2 22])
  else
    let? wit := IsWitnessProgram scriptPubKey in
    match wit with
    | Some (witnessversion, witnessprogram) =>
        if (witnessversion =? 0) && (zlen witnessprogram =? 20) then Ok (true, TX_WITNESS_V0_KEYHASH, [witnessprogram])
        else if (witnessversion =? 0) && (zlen witnessprogram =? 32) then Ok (true, TX_WITNESS_V0_SCRIPTHASH, [witnessprogram])
        else Ok (false, typeRet, [])
    | None =>
        let? data := if (1 <=? zlen scriptPubKey) && (at_ scriptPubKey 0 =? OP_RETURN)
                     then push_only_loop WORDS_BIGENDIAN (length scriptPubKey) scriptPubKey 1 else Ok false in
        if data : bool then Ok (true, TX_NULL_DATA, []) else scan_templates mTemplates scriptPubKey
    end.

(** ** Destinations *)

Context {hashes : Hashes} (mem : bytes).

Definition uint160_of_vch (vch : bytes) : res limbs :=
  match base_uint_of_vch WIDTH160 vch with Some u => Ok u | None => AssertFail end.
Definition key_id (pubKey : CPubKey.t) : limbs := CPubKey.GetID (fun b => limbs_of_bytes WIDTH160 (Hash160 b)) pubKey.
(** [CScriptID(in)] *)
Definition script_id (script : CScript) : limbs := limbs_of_bytes WIDTH160 (Hash160 script).

(** [Some] destination where the code returns true. *)
Definition ExtractDestination (scriptPubKey : CScript) (whichType : txnouttype) : res (option CTxDestination) :=
  let? (ok, whichType, vSolutions) := Solver scriptPubKey whichType in
  if negb ok then Ok None
  else
    let first := res_of_option (head vSolutions) in
    if bool_decide (whichType = TX_PUBKEY) then
      let? vch := first in
      let pubKey := CPubKey.of_vch mem vch in
      if negb (CPubKey.IsValid pubKey) then Ok None else Ok (Some (CKeyID (key_id pubKey)))
    else if bool_decide (whichType = TX_PUBKEYHASH) then
      let? vch := first in
      let? id := uint160_of_vch vch in
      Ok (Some (CKeyID id))
    else if bool_decide (whichType = TX_SCRIPTHASH) then
      let? vch := first in
      let? id := uint160_of_vch vch in
      Ok (Some (CScriptID id))
    else Ok None.

(** [for (i = 1; i < vSolutions.size()-1; i++)] *)
Definition multisig_addresses (keys : list bytes) : list CTxDestination :=
  omap (fun vch => let pubKey := CPubKey.of_vch mem vch in
    if negb (CPubKey.IsValid pubKey) then None else Some (CKeyID (key_id pubKey))) keys.

(** The result, with the type, the addresses and the number required, which is
    [nRequiredRet] before. *)
Definition ExtractDestinations (scriptPubKey : CScript) (whichType : txnouttype) (nRequiredRet : Z) : res (bool * txnouttype * list CTxDestination * Z) :=
  let? (ok, typeRet, vSolutions) := Solver scriptPubKey TX_NONSTANDARD in
  if negb ok then Ok (false, typeRet, [], nRequiredRet)
  else if bool_decide (typeRet = TX_NULL_DATA) then Ok (false, typeRet, [], nRequiredRet)
  else if bool_decide (typeRet = TX_MULTISIG) then
    let? front := res_of_option (head vSolutions) in
    let? nRequiredRet := res_of_option (head front) in
    let addressRet := multisig_addresses (take (length vSolutions - 2) (drop 1 vSolutions)) in
    Ok (negb (bool_decide (addressRet = [])), typeRet, addressRet, nRequiredRet)
  else
    let? address := ExtractDestination scriptPubKey whichType in
    match address with
    | None => Ok (false, typeRet, [], 1)
    | Some address => Ok (true, typeRet, [address], 1)
    end.

Definition GetScriptForDestination (dest : CTxDestination) : res CScript :=
  match dest with
  | CNoDestination => Ok []
  | CKeyID keyID => build [Code OP_DUP; Code OP_HASH160; Data (pn_bytes keyID); Code OP_EQUALVERIFY; Code OP_CHECKSIG] []
  | CScriptID scriptID => build [Code OP_HASH160; Data (pn_bytes scriptID); Code OP_EQUAL] []
  end.

Definition GetScriptForRawPubKey (pubKey : CPubKey.t) : res CScript := build [Data (CPubKey.range pubKey); Code OP_CHECKSIG] [].

Definition GetScriptForMultisig (nRequired : Z) (keys : list CPubKey.t) : res CScript :=
  let? m := EncodeOP_N nRequired in
  let? script := build [Code m] [] in
  let? script := build (map (fun key => Data (CPubKey.range key)) keys) script in
  let? n := EncodeOP_N (swrap 32 (zlen keys)) in
  build [Code n; Code OP_CHECKMULTISIG] script.

Definition GetScriptForWitness (redeemscript : CScript) (typ : txnouttype) : res CScript :=
  let? (ok, typ, vSolutions) := Solver redeemscript typ in
  let by_script := build [Code OP_0; Data (SHA256 redeemscript)] [] in
  if ok then
    if bool_decide (typ = TX_PUBKEY) then
      let? vch := res_of_option (head vSolutions) in
      build [Code OP_0; Data (Hash160 vch)] []
    else if bool_decide (typ = TX_PUBKEYHASH) then
      let? vch := res_of_option (head vSolutions) in
      build [Code OP_0; Data vch] []
    else by_script
  else by_script.
End standard.

(** ** What the solver recognises *)

(** The opcode of a number from 0 to 16. *)
Definition small_op (op n : Z) : Prop := 0 <= n <= 16 /\ EncodeOP_N n = Ok op.

Inductive standard (s : CScript) : txnouttype -> list bytes -> Prop :=
| standard_scripthash h : zlen h = 20 -> s = [OP_HASH160 : Z; 20] ++ h ++ [OP_EQUAL : Z] -> standard s TX_SCRIPTHASH [h]
| standard_keyhash_v0 h : zlen h = 20 -> s = [0; 20] ++ h -> standard s TX_WITNESS_V0_KEYHASH [h]
| standard_scripthash_v0 h : zlen h = 32 -> s = [0; 32] ++ h -> standard s TX_WITNESS_V0_SCRIPTHASH [h]
| standard_null_data r : s = (OP_RETURN : Z) :: r -> pushes r = true -> standard s TX_NULL_DATA []
| standard_pubkey o k : well_parsed s = true -> ops s = [(o, k); (OP_CHECKSIG : Z, [])] -> 33 <= zlen k <= 65 -> standard s TX_PUBKEY [k]
| standard_pubkeyhash o h : well_parsed s = true -> zlen h = 20 ->
    ops s = [(OP_DUP : Z, []); (OP_HASH160 : Z, []); (o, h); (OP_EQUALVERIFY : Z, []); (OP_CHECKSIG : Z, [])] -> standard s TX_PUBKEYHASH [h]
| standard_multisig om m (keys : list (Z * bytes)) on n : well_parsed s = true ->
    ops s = (om, []) :: keys ++ [(on, []); (OP_CHECKMULTISIG : Z, [])] -> small_op om m -> small_op on n ->
    Forall (fun k => 33 <= zlen k.2 <= 65) keys -> 1 <= m <= n -> n = zlen keys -> standard s TX_MULTISIG ([m] :: map snd keys ++ [[n]]).

Section spec.
Context (be : bool).

Lemma match_item_total o1 d1 o2 d2 : exists m, match_item o1 d1 o2 d2 = Ok m.
Proof.
  unfold match_item. repeat (case_bool; [by eexists|]). case_bool; [|by eexists]. case_bool; [|by eexists].
  unfold DecodeOP_N. destruct (o1 =? OP_0); [by eexists|]. bool_hyps. destruct ((OP_1 <=? o1) && (o1 <=? OP_16)) eqn:E; [by eexists|].
  by rewrite orb_false_l in *.
Qed.

(** Operation by operation, against a template without [OP_PUBKEYS]. *)
Fixpoint match_ops (t l : list (Z * bytes)) : option (list bytes) :=
  match t, l with
  | [], [] => Some []
  | (o2, d2) :: t, (o1, d1) :: l =>
      match match_item o1 d1 o2 d2, match_ops t l with Ok (Some v), Some w => Some (v ++ w) | _, _ => None end
  | _, _ => None
  end.

(** The three shapes of what is left of a script. *)
Lemma ops_cases r : (next_op r = None /\ ops r = [] /\ well_parsed r = bool_decide (r = [])) \/
  exists o d r', next_op r = Some (o, d, r') /\ ops r = (o, d) :: ops r' /\ well_parsed r = well_parsed r' /\ r <> [] /\ (length r' < length r)%nat.
Proof.
  destruct (next_op r) as [[[o d] r']|] eqn:E; [right|left; by destruct (ops_stop r E)].
  destruct (ops_step r o d r' E). exists o, d, r'. split_and!; try done; [by destruct r|by eapply next_op_shorter].
Qed.

Lemma GetOp_some a r o d r' : script_ok (a ++ r) -> next_op r = Some (o, d, r') ->
  exists b, a ++ r = (a ++ b) ++ r' /\ GetOp be (a ++ r) (zlen a) = GetOpRet true (zlen (a ++ b)) o d.
Proof. intros H E. pose proof (GetOp_spec be a r H) as G. rewrite E in G. destruct G as (b & -> & _ & _ & G). exists b. by rewrite <- app_assoc. Qed.

Lemma GetOp_none a r : script_ok (a ++ r) -> next_op r = None -> exists pc, GetOp be (a ++ r) (zlen a) = getop_fail pc.
Proof. intros H E. pose proof (GetOp_spec be a r H) as G. rewrite E in G. destruct G as (b & r' & _ & G). by eexists. Qed.

Lemma end_test a r : (zlen a =? script_end (a ++ r)) = bool_decide (r = []).
Proof. unfold script_end. rewrite zlen_app. case_bool_decide; [subst; apply Z.eqb_eq; unfold zlen; cbn; lia|apply Z.eqb_neq]. destruct r; [done|]. rewrite zlen_cons. pose proof (zlen_nonneg r). lia. Qed.

Lemma template_simple (t : list (Z * bytes)) : Forall (fun o => o.1 <> OP_PUBKEYS :> Z) t -> forall a2 r2, script_ok (a2 ++ r2) -> ops r2 = t -> well_parsed r2 = true ->
  forall fuel a r sols, script_ok (a ++ r) -> (length r < fuel)%nat ->
  template_loop be fuel (a ++ r) (a2 ++ r2) (zlen a) (zlen a2) sols =
    Ok (if well_parsed r then match match_ops t (ops r) with Some v => Some (sols ++ v) | None => None end else None).
Proof.
  induction 1 as [|[o2 d2] t Ho _ IH]; intros a2 r2 H2 Hops Hw fuel a r sols H Hf; (destruct fuel as [|fuel]; [lia|]); cbn [template_loop]; rewrite !end_test;
    destruct (ops_cases r2) as [(E2 & O2 & W2)|(o & d & r2' & E2 & O2 & W2 & N2 & _)]; rewrite O2 in Hops; try done;
    destruct (ops_cases r) as [(E & O & W)|(o1 & d1 & r' & E & O & W & N & L)]; rewrite O, W.
  - rewrite W2 in Hw. bool_hyps. rewrite Hw, !(bool_decide_eq_true_2 ([] = [])) by done. case_bool_decide; cbn [andb match_ops]; [by rewrite app_nil_r|].
    destruct (GetOp_none a r H E) as (pc & ->). done.
  - rewrite (bool_decide_eq_false_2 (r = [])) by done. cbn [andb match_ops]. destruct (GetOp_some a r _ _ _ H E) as (b & _ & ->). cbn [fRet negb].
    destruct (GetOp_none a2 r2 H2 E2) as (pc & ->). cbn. by destruct (well_parsed r').
  - injection Hops as -> -> <-. rewrite (bool_decide_eq_false_2 (r2 = [])), andb_false_r by done. destruct (GetOp_none a r H E) as (pc & ->). cbn. by case_bool_decide.
  - injection Hops as -> -> <-. rewrite (bool_decide_eq_false_2 (r2 = [])), andb_false_r by done. destruct (GetOp_some a r _ _ _ H E) as (b & Ea & ->).
    destruct (GetOp_some a2 r2 _ _ _ H2 E2) as (b2 & Ea2 & ->). cbn [fRet negb opcodeRet vchRet pcRet match_ops]. rewrite (proj2 (Z.eqb_neq _ _)) by done.
    destruct (match_item_total o1 d1 o2 d2) as ([v|] & ->); cbn [res_bind]; [|by destruct (well_parsed r')].
    rewrite Ea, Ea2 in *. rewrite IH by (done || congruence || lia). destruct (well_parsed r'); [|done]. destruct (match_ops _ _); [|done]. by rewrite app_assoc.
Qed.

(** The keys that follow an operation [x] already read. *)
Lemma pubkeys_spec : forall r a o d sols fuel, script_ok (a ++ r) -> (length r < fuel)%nat ->
  (exists keys o' d' a' r', pubkeys_loop be fuel (a ++ r) (GetOpRet true (zlen a) o d) sols = Ok (GetOpRet true (zlen a') o' d', sols ++ map snd keys) /\
    (o, d) :: ops r = keys ++ (o', d') :: ops r' /\ Forall (fun k => key_size k.2 = true) keys /\ key_size d' = false /\
    a ++ r = a' ++ r' /\ well_parsed r = well_parsed r' /\ (length r' <= length r)%nat) \/
  (exists pc sols', pubkeys_loop be fuel (a ++ r) (GetOpRet true (zlen a) o d) sols = Ok (getop_fail pc, sols') /\
    Forall (fun k => key_size k.2 = true) ((o, d) :: ops r)).
Proof.
  induction r as [r E|r op x r' E Hl IH] using script_ind; intros a o d sols fuel H Hf; (destruct fuel as [|fuel]; [lia|]); cbn [pubkeys_loop vchRet].
  all: destruct (key_size d) eqn:Ek; [|left; exists [], o, d, a, r; cbn [map app]; rewrite app_nil_r; split_and!; done || lia || constructor].
  - right. cbn [pcRet]. destruct (GetOp_none a r H E) as (pc & ->). cbn [fRet negb getop_fail]. do 2 eexists. split; [done|].
    destruct (ops_stop r E) as [-> _]. by repeat constructor.
  - cbn [pcRet]. destruct (GetOp_some a r _ _ _ H E) as (b & Ea & ->). cbn [fRet negb]. destruct (ops_step r op x r' E) as [-> Hw]. rewrite Ea in *.
    destruct (IH (a ++ b) op x (sols ++ [d]) fuel H ltac:(lia)) as [(keys & o' & d' & a' & r'' & -> & E1 & E2 & E3 & E4 & E5 & E6)|(pc & sols' & -> & E1)]; [left|right].
    + exists ((o, d) :: keys), o', d', a', r''. rewrite E1. cbn [map snd app]. rewrite <- app_assoc. split_and!; try done; [by constructor|congruence|lia].
    + do 2 eexists. split; [done|]. by constructor.
Qed.

Lemma next_op_small r op d r' : next_op r = Some (op, d, r') -> op = OP_0 \/ OP_PUSHDATA4 < op -> d = [].
Proof.
  destruct r as [|x r]; [done|]. cbn [next_op]. destruct (Z.leb_spec x OP_PUSHDATA4); [|by intros [= <- <- <-]].
  destruct (header r x) as [[n r1]|] eqn:Eh; [|done]. cbn [mbind option_bind]. case_bool; [done|]. intros [= <- <- <-] [->|?]; [|lia].
  injection Eh as <- <-. done.
Qed.

Lemma ops_small r : Forall (fun x : Z * bytes => x.1 = OP_0 \/ OP_PUSHDATA4 < x.1 -> x.2 = []) (ops r).
Proof.
  induction r as [r E|r op x r' E Hl IH] using script_ind; [by destruct (ops_stop r E) as [-> _]; constructor|].
  destruct (ops_step r op x r' E) as [-> _]. constructor; [|done]. cbn. by eapply next_op_small.
Qed.

Lemma small_match o d : exists m, match_item o d OP_SMALLINTEGER [] = Ok m /\
  forall v, m = Some v <-> exists n, small_op o n /\ v = [[n]].
Proof.
  change (match_item o d OP_SMALLINTEGER []) with
    (if (o =? OP_0) || ((OP_1 <=? o) && (o <=? OP_16)) then let? n := DecodeOP_N o in Ok (Some [[wrap 8 n]]) else Ok None).
  destruct ((o =? OP_0) || ((OP_1 <=? o) && (o <=? OP_16))) eqn:E.
  - assert (exists n, DecodeOP_N o = Ok n /\ small_op o n) as (n & -> & Hn & En).
    { unfold DecodeOP_N, small_op. destruct (Z.eqb_spec o OP_0) as [->|]; [by exists 0|]. cbn [orb] in E. rewrite E. bool_hyps. exists (o - (OP_1 - 1)).
      split; [done|]. split; [simpl in *; lia|]. destruct (EncodeOP_N_spec (o - (OP_1 - 1))) as [-> _]; [simpl in *; lia|].
      rewrite (proj2 (Z.eqb_neq _ _)) by (simpl in *; lia). f_equal. simpl. lia. }
    cbn [res_bind]. eexists. split; [done|]. rewrite wrap_small by (unfold in_u; lia). intros v. split.
    + intros [= <-]. by exists n.
    + intros (n' & [Hn' En'] & ->). do 3 f_equal. destruct (EncodeOP_N_spec n Hn) as [_ D]. rewrite En in D. destruct (EncodeOP_N_spec n' Hn') as [_ D']. rewrite En' in D'.
      cbn [res_bind] in *. congruence.
  - eexists. split; [done|]. intros v. split; [done|]. intros (n & [Hn En] & _). destruct (EncodeOP_N_spec n Hn) as [E' _]. rewrite E' in En. injection En as <-.
    destruct (Z.eqb_spec n 0); [done|]. rewrite !(proj2 (Z.leb_le _ _)) in E by (simpl; lia). by rewrite orb_true_r in E.
Qed.

Lemma small_op_range o n : small_op o n -> o = OP_0 \/ OP_PUSHDATA4 < o.
Proof. intros [Hn En]. destruct (EncodeOP_N_spec n Hn) as [E _]. rewrite E in En. injection En as <-. destruct (Z.eqb_spec n 0); [by left|right]. simpl. lia. Qed.

Lemma span_unique (k1 k2 : list (Z * bytes)) x1 x2 r1 r2 : k1 ++ x1 :: r1 = k2 ++ x2 :: r2 ->
  Forall (fun k => key_size k.2 = true) k1 -> Forall (fun k => key_size k.2 = true) k2 -> key_size x1.2 = false -> key_size x2.2 = false ->
  k1 = k2 /\ x1 = x2 /\ r1 = r2.
Proof.
  revert k2. induction k1 as [|y k1 IH]; intros [|z k2] E H1 H2 N1 N2; injection E as E0 E; subst; try done.
  - inversion H2; subst; congruence.
  - inversion H1; subst; congruence.
  - inversion H1; inversion H2; subst. destruct (IH k2) as (-> & -> & ->); done.
Qed.

(** A template's code and nothing else. *)
Lemma match_code (c : opcodetype) t l v : (forall o d e, match_item o d c e = Ok (if (o =? c) && bool_decide (d = e) then Some [] else None)) ->
  match_ops ((c : Z, []) :: t) l = Some v <-> exists l', l = (c : Z, []) :: l' /\ match_ops t l' = Some v.
Proof.
  intros Hc. destruct l as [|[o d] l]; cbn [match_ops]; [split; [done|]; by intros (? & ? & _)|]. rewrite Hc. split.
  - destruct (Z.eqb_spec o c); [|done]. case_bool_decide; [|done]. cbn [andb]. destruct (match_ops t l) eqn:E; [|done]. intros [= <-]. subst. by exists l.
  - intros (l' & [= -> -> ->] & ->). by rewrite Z.eqb_refl, bool_decide_eq_true_2.
Qed.

Lemma match_nil l v : match_ops [] l = Some v <-> l = [] /\ v = [].
Proof. destruct l; cbn; split; [by intros [= <-]|by intros [_ ->]|done|by intros [? _]]. Qed.

Lemma match_pubkey l v : match_ops [(OP_PUBKEY : Z, []); (OP_CHECKSIG : Z, [])] l = Some v <->
  exists o k, l = [(o, k); (OP_CHECKSIG : Z, [])] /\ key_size k = true /\ v = [k].
Proof.
  destruct l as [|[o k] l]; [split; [done|]; by intros (? & ? & ? & _)|].
  change (match_ops _ _) with (match (if key_size k then Some [k] else None), match_ops [(OP_CHECKSIG : Z, [])] l with Some v, Some w => Some (v ++ w) | _, _ => None end).
  pose proof (match_code OP_CHECKSIG [] l) as Hc. split.
  - destruct (key_size k) eqn:Ek; [|done]. destruct (match_ops _ l) as [w|] eqn:E; [|done]. intros [= <-].
    destruct (proj1 (Hc w (fun _ _ _ => eq_refl)) eq_refl) as (l' & -> & (-> & ->)%match_nil). by exists o, k.
  - intros (o' & k' & [= -> -> ->] & -> & ->). rewrite (proj2 (Hc [] (fun _ _ _ => eq_refl))); [done|]. by exists [].
Qed.

Lemma match_pubkeyhash l v :
  match_ops [(OP_DUP : Z, []); (OP_HASH160 : Z, []); (OP_PUBKEYHASH : Z, []); (OP_EQUALVERIFY : Z, []); (OP_CHECKSIG : Z, [])] l = Some v <->
  exists o h, l = [(OP_DUP : Z, []); (OP_HASH160 : Z, []); (o, h); (OP_EQUALVERIFY : Z, []); (OP_CHECKSIG : Z, [])] /\ zlen h = 20 /\ v = [h].
Proof.
  rewrite (match_code OP_DUP) by done. setoid_rewrite (match_code OP_HASH160 _ _ _ (fun _ _ _ => eq_refl)).
  assert (forall l v, match_ops [(OP_PUBKEYHASH : Z, []); (OP_EQUALVERIFY : Z, []); (OP_CHECKSIG : Z, [])] l = Some v <->
    exists o h, l = [(o, h); (OP_EQUALVERIFY : Z, []); (OP_CHECKSIG : Z, [])] /\ zlen h = 20 /\ v = [h]) as Hh.
  { clear l v. intros [|[o h] l] v; [split; [done|]; by intros (? & ? & ? & _)|].
    change (match_ops _ _) with (match (if zlen h =? 20 then Some [h] else None), match_ops [(OP_EQUALVERIFY : Z, []); (OP_CHECKSIG : Z, [])] l with Some v, Some w => Some (v ++ w) | _, _ => None end).
    pose proof (fun v => match_code OP_EQUALVERIFY [(OP_CHECKSIG : Z, [])] l v (fun _ _ _ => eq_refl)) as Hc. split.
    - destruct (Z.eqb_spec (zlen h) 20); [|done]. destruct (match_ops _ l) as [w|] eqn:E; [|done]. intros [= <-].
      destruct (proj1 (Hc w) eq_refl) as (l' & -> & (l2 & -> & (-> & ->)%match_nil)%(match_code OP_CHECKSIG _ _ _ (fun _ _ _ => eq_refl))). by exists o, h.
    - intros (o' & k' & [= -> -> ->] & -> & ->). rewrite (proj2 (Hc [])); [done|]. eexists. split; [done|]. apply (match_code OP_CHECKSIG _ _ _ (fun _ _ _ => eq_refl)). by exists []. }
  split.
  - intros (l1 & -> & l2 & -> & (o & h & -> & Hl & ->)%Hh). by exists o, h.
  - intros (o & h & -> & Hl & ->). eexists. split; [done|]. eexists. split; [done|]. apply Hh. by exists o, h.
Qed.

Definition multisig_shape (s : CScript) (v : list bytes) : Prop := exists om m keys on n, well_parsed s = true /\
  ops s = (om, []) :: keys ++ [(on, []); (OP_CHECKMULTISIG : Z, [])] /\ small_op om m /\ small_op on n /\
  Forall (fun k : Z * bytes => key_size k.2 = true) keys /\ v = [m] :: map snd keys ++ [[n]].

Lemma template_multisig s : script_ok s -> exists m,
  template_loop be (S (length s)) s [OP_SMALLINTEGER : Z; OP_PUBKEYS : Z; OP_SMALLINTEGER : Z; OP_CHECKMULTISIG : Z] 0 0 [] = Ok m /\
  forall v, m = Some v <-> multisig_shape s v.
Proof.
  intros H. set (tm := [_; _; _; _]). cbn [template_loop]. change (0 =? script_end tm) with false. rewrite andb_false_r.
  destruct (ops_cases s) as [(E & O & W)|(o & d & r & E & O & W & N & L)].
  { destruct (GetOp_none [] s H E) as (pc & G). change (GetOp be s 0) with (GetOp be ([] ++ s) (zlen (@nil Z))). rewrite G. eexists. split; [done|].
    intros v. split; [done|]. intros (? & ? & ? & ? & ? & _ & E' & _). by rewrite O in E'. }
  destruct (GetOp_some [] s _ _ _ H E) as (b & Eb & G). change (GetOp be s 0) with (GetOp be ([] ++ s) (zlen (@nil Z))). rewrite G. cbn [fRet negb app] in *.
  change (GetOp be tm 0) with (GetOpRet true 1 OP_SMALLINTEGER []). cbn [fRet negb opcodeRet vchRet pcRet]. change (OP_SMALLINTEGER =? OP_PUBKEYS) with false. cbv iota.
  destruct (small_match o d) as (m1 & -> & Hm1). cbn [res_bind].
  destruct m1 as [v1|]; [|eexists; split; [done|]; intros v; split; [done|]; intros (om & m & keys & on & n & _ & E' & Hom & _); exfalso; rewrite O in E'; injection E' as -> -> _;
    pose proof (proj2 (Hm1 [[m]]) (ex_intro _ m (conj Hom eq_refl))); done].
  destruct (proj1 (Hm1 v1) eq_refl) as (m & Hm & ->). destruct s as [|x s0] eqn:Es; [done|]. rewrite <- Es in *. replace (length s) with (S (length s0)) by by rewrite Es.
  assert (length r <= length s0)%nat as Hr by (rewrite Es in L; cbn in L; lia). cbn [template_loop]. change (1 =? script_end tm) with false. rewrite andb_false_r.
  destruct (ops_cases r) as [(E2 & O2 & W2)|(o1 & d1 & r1 & E2 & O2 & W2 & N2 & L2)].
  { destruct (GetOp_none b r) as (pc & G2); [by rewrite <- Eb|done|]. rewrite <- Eb in G2. rewrite G2. eexists. split; [done|]. intros v. split; [done|].
    intros (? & ? & keys & ? & ? & _ & E' & _). rewrite O, O2 in E'. by destruct keys. }
  destruct (GetOp_some b r o1 d1 r1) as (b2 & Eb2 & G2); [by rewrite <- Eb|done|]. rewrite <- Eb in G2. rewrite G2. cbn [fRet negb].
  change (GetOp be tm 1) with (GetOpRet true 2 OP_PUBKEYS []). cbn [fRet negb opcodeRet pcRet]. change (OP_PUBKEYS =? OP_PUBKEYS) with true. cbv iota.
  change (GetOp be tm 2) with (GetOpRet true 3 OP_SMALLINTEGER []). cbn [fRet negb opcodeRet vchRet pcRet].
  destruct (pubkeys_spec r1 (b ++ b2) o1 d1 [[m]] (S (length s))) as [(keys & o' & d' & a' & r' & P & P1 & P2 & P3 & P4 & P5 & P6)|(pc & sols' & P & P1)];
    [by rewrite <- Eb2, <- Eb|lia|rewrite <- Eb2, <- Eb in P; rewrite P; cbn [res_bind opcodeRet vchRet pcRet]..].
  - destruct (small_match o' d') as (m2 & -> & Hm2). cbn [res_bind].
    assert (forall om m' keys' on, ops s = (om, []) :: keys' ++ [(on, []); (OP_CHECKMULTISIG : Z, [])] -> Forall (fun k : Z * bytes => key_size k.2 = true) keys' -> small_op om m' ->
      m' = m /\ keys' = keys /\ (on, []) = (o', d') /\ ops r' = [(OP_CHECKMULTISIG : Z, [])]) as Hu.
    { intros om m' keys' on E' Hk Hom. rewrite O, O2, P1 in E'. injection E' as -> -> E'. destruct (span_unique keys keys' (o', d') (on, []) (ops r') [(OP_CHECKMULTISIG : Z, [])] E' P2 Hk P3 eq_refl) as (-> & Ee & Er).
      split; [|by rewrite Ee, Er]. pose proof (proj2 (Hm1 [[m']]) (ex_intro _ m' (conj Hom eq_refl))). congruence. }
    destruct m2 as [v2|]; [|eexists; split; [done|]; intros v; split; [done|]; intros (om & m' & keys' & on & n & _ & E' & Hom & Hon & Hk & _); exfalso;
      destruct (Hu om m' keys' on E' Hk Hom) as (_ & _ & Ee & _); injection Ee as -> _; pose proof (proj2 (Hm2 [[n]]) (ex_intro _ n (conj Hon eq_refl))); done].
    destruct (proj1 (Hm2 v2) eq_refl) as (n & Hn & ->).
    assert (s = a' ++ r') as Es' by (rewrite <- P4, <- Eb2; exact Eb).
    assert (forall sols, template_loop be (length s0) s tm (zlen a') 3 sols = Ok (if well_parsed r' then match match_ops [(OP_CHECKMULTISIG : Z, [])] (ops r') with Some v => Some (sols ++ v) | None => None end else None)) as ->.
    { intros sols. rewrite Es'. apply (template_simple [(OP_CHECKMULTISIG : Z, [])]) with (a2 := [OP_SMALLINTEGER : Z; OP_PUBKEYS : Z; OP_SMALLINTEGER : Z]) (r2 := [OP_CHECKMULTISIG : Z]);
        [by repeat constructor|by repeat constructor|done|done|by rewrite <- Es'|lia]. }
    eexists. split; [done|]. intros v. split.
    + destruct (well_parsed r') eqn:Ew; [|done]. destruct (match_ops _ _) as [w|] eqn:Em; [|done]. intros [= <-].
      apply (match_code OP_CHECKMULTISIG _ _ _ (fun _ _ _ => eq_refl)) in Em as (l' & El & (-> & ->)%match_nil).
      exists o, m, keys, o', n. split_and!; try done; [congruence| |].
      * pose proof (ops_small s) as Hs. rewrite O in Hs. inversion Hs as [|? ? Hs1 _]. cbn in Hs1. rewrite O, O2, P1, El. rewrite (Hs1 (small_op_range _ _ Hm)).
        pose proof (ops_small r) as Hs2. rewrite O2, P1 in Hs2. apply Forall_app in Hs2 as [_ Hs2]. inversion Hs2 as [|? ? Hs3 _]. cbn in Hs3. by rewrite (Hs3 (small_op_range _ _ Hn)).
      * rewrite app_nil_r. cbn [app]. done.
    + intros (om & m' & keys' & on & n' & Hw & E' & Hom & Hon & Hk & ->). destruct (Hu om m' keys' on E' Hk Hom) as (-> & -> & [= -> <-] & El).
      assert (well_parsed r' = true) as -> by congruence. rewrite El. rewrite (proj2 (match_code OP_CHECKMULTISIG [] [(OP_CHECKMULTISIG : Z, [])] [] (fun _ _ _ => eq_refl))) by (by exists []).
      pose proof (proj2 (Hm2 [[n']]) (ex_intro _ n' (conj Hon eq_refl))) as En. injection En as ->. rewrite app_nil_r. done.
  - change (match_item _ _ _ _) with (Ok (A := option (list bytes)) None). cbn [res_bind]. eexists. split; [done|]. intros v. split; [done|].
    intros (om & m' & keys' & on & n' & Hw & E' & _). exfalso. rewrite O, O2 in E'. injection E' as _ _ E'. rewrite E' in P1. apply Forall_app in P1 as [_ P1]. inversion P1 as [|? ? P2]. done.
Qed.

Lemma key_size_range k : key_size k = true <-> 33 <= zlen k <= 65.
Proof. unfold key_size. rewrite andb_true_iff, !Z.leb_le. lia. Qed.

Lemma keys_range (keys : list (Z * bytes)) : Forall (fun k => key_size k.2 = true) keys <-> Forall (fun k => 33 <= zlen k.2 <= 65) keys.
Proof. apply Forall_iff. intros k. apply key_size_range. Qed.

Lemma multisig_counts_spec m (keys : list (Z * bytes)) n : zlen keys < 2 ^ 31 ->
  multisig_counts ([m] :: map snd keys ++ [[n]]) = Ok (bool_decide (1 <= m <= n /\ n = zlen keys)).
Proof.
  intros Hk. unfold multisig_counts. cbn [head res_of_option res_bind].
  rewrite app_comm_cons, last_snoc. cbn [head res_of_option res_bind]. f_equal.
  rewrite zlen_app, zlen_cons. assert (zlen (map snd keys) = zlen keys) as -> by (unfold zlen; by rewrite length_map). change (zlen [[n]]) with 1.
  rewrite wrap_small by (unfold in_u; pose proof (zlen_nonneg keys); lia). replace (zlen keys + 1 + 1 - 2) with (zlen keys) by lia.
  destruct (Z.ltb_spec m 1), (Z.ltb_spec n 1), (Z.ltb_spec n m), (Z.eqb_spec (zlen keys) n); cbn [orb negb]; symmetry; first [apply bool_decide_eq_true_2; lia|apply bool_decide_eq_false_2; lia].
Qed.

(** The three types that come from a template. *)
Definition by_template (s : CScript) (t : txnouttype) (v : list bytes) : Prop :=
  standard s t v /\ (t = TX_PUBKEY \/ t = TX_PUBKEYHASH \/ t = TX_MULTISIG).

Lemma scan_spec s : script_ok s -> exists ok t v, scan_templates be (mTemplates be) s = Ok (ok, t, v) /\
  forall t' v', (ok = true /\ t' = t /\ v' = v) <-> by_template s t' v'.
Proof.
  intros H. unfold mTemplates. cbn [scan_templates].
  change (build be [Code OP_PUBKEY; Code OP_CHECKSIG] []) with (Ok (A := CScript) [OP_PUBKEY : Z; OP_CHECKSIG : Z]).
  change (build be [Code OP_DUP; Code OP_HASH160; Code OP_PUBKEYHASH; Code OP_EQUALVERIFY; Code OP_CHECKSIG] []) with (Ok (A := CScript) [OP_DUP : Z; OP_HASH160 : Z; OP_PUBKEYHASH : Z; OP_EQUALVERIFY : Z; OP_CHECKSIG : Z]).
  change (build be [Code OP_SMALLINTEGER; Code OP_PUBKEYS; Code OP_SMALLINTEGER; Code OP_CHECKMULTISIG] []) with (Ok (A := CScript) [OP_SMALLINTEGER : Z; OP_PUBKEYS : Z; OP_SMALLINTEGER : Z; OP_CHECKMULTISIG : Z]).
  cbn [res_bind].
  assert (forall t s2, ops s2 = t -> well_parsed s2 = true -> script_ok s2 -> Forall (fun o => o.1 <> OP_PUBKEYS :> Z) t ->
    template_loop be (S (length s)) s s2 0 0 [] = Ok (if well_parsed s then match_ops t (ops s) else None)) as Ht.
  { intros t s2 Ot Wt Hs2 Hf. pose proof (template_simple t Hf [] s2 Hs2 Ot Wt (S (length s)) [] s [] H ltac:(lia)) as E. cbn [app] in E. change (zlen (@nil Z)) with 0 in E. rewrite E. by destruct (match_ops _ _). }
  rewrite (Ht [(OP_PUBKEY : Z, []); (OP_CHECKSIG : Z, [])]) by (try done; repeat constructor; done). cbn [res_bind].
  rewrite (Ht [(OP_DUP : Z, []); (OP_HASH160 : Z, []); (OP_PUBKEYHASH : Z, []); (OP_EQUALVERIFY : Z, []); (OP_CHECKSIG : Z, [])]) by (try done; repeat constructor; done). cbn [res_bind].
  destruct (template_multisig s H) as (mm & -> & Hmm). cbn [res_bind].
  destruct (if well_parsed s then match_ops [(OP_PUBKEY : Z, []); _] (ops s) else None) as [v1|] eqn:E1.
  { destruct (well_parsed s) eqn:W; [|done]. apply match_pubkey in E1 as (o & k & Eo & Hk & ->). do 3 eexists. split; [done|]. intros t' v'. split.
    - intros (_ & -> & ->). split; [|by left]. eapply standard_pubkey; [done|done|by apply key_size_range].
    - intros [Hs Ht']. destruct Hs; destruct Ht' as [?|[?|?]]; try done; rewrite Eo in *; simplify_eq; done. }
  destruct (if well_parsed s then match_ops [(OP_DUP : Z, []); _; _; _; _] (ops s) else None) as [v2|] eqn:E2.
  { destruct (well_parsed s) eqn:W; [|done]. apply match_pubkeyhash in E2 as (o & h & Eo & Hh & ->). do 3 eexists. split; [done|]. intros t' v'. split.
    - intros (_ & -> & ->). split; [|by right; left]. by eapply standard_pubkeyhash.
    - intros [Hs Ht']. destruct Hs as [| | | | | |om m keys on n _ Em Hom]; destruct Ht' as [?|[?|?]]; try done; [rewrite Eo in *; simplify_eq; done..|].
      exfalso. rewrite Eo in Em. injection Em as <- _. destruct (small_op_range _ _ Hom); [done|]. destruct Hom as [Hm Hom]. destruct (EncodeOP_N_spec m Hm) as [Hx _]. rewrite Hx in Hom.
      injection Hom as Hom. destruct (m =? 0); simpl in *; lia. }
  assert (forall t' v', t' = TX_PUBKEY \/ t' = TX_PUBKEYHASH -> ~ standard s t' v') as Hno.
  { intros t' v' Ht' Hs. destruct Hs as [| | | |o k W Eo Hk|o h W Hh Eo|]; destruct Ht'; try done; rewrite W in E1, E2.
    - rewrite (proj2 (match_pubkey _ [k])) in E1; [done|]. exists o, k. split; [done|]. split; [by apply key_size_range|done].
    - rewrite (proj2 (match_pubkeyhash _ [h])) in E2; [done|]. by exists o, h. }
  destruct mm as [v3|].
  - destruct (proj1 (Hmm v3) eq_refl) as (om & m & keys & on & n & W & Eo & Hom & Hon & Hk & ->). rewrite bool_decide_eq_true_2 by done.
    rewrite multisig_counts_spec.
    2: { pose proof (ops_length s) as Hl. rewrite Eo in Hl. cbn in Hl. rewrite length_app in Hl. destruct H as [_ H]. unfold zlen in *. lia. }
    cbn [res_bind]. do 3 eexists. split; [done|]. intros t' v'. rewrite bool_decide_eq_true. split.
    + intros ([Hmn Hn] & -> & ->). split; [|by right; right]. eapply standard_multisig; try done. by apply keys_range.
    + intros [Hs [-> | [-> | ->]]]; [exfalso; eapply Hno; [|exact Hs]; by left|exfalso; eapply Hno; [|exact Hs]; by right|].
      inversion Hs as [| | | | | |om' m' keys' on' n' W' Eo' Hom' Hon' Hk' Hmn' Hn']; subst.
      assert (Some ([m] :: map snd keys ++ [[n]]) = Some ([m'] :: map snd keys' ++ [[zlen keys']])) as Hx.
      { apply Hmm. exists om', m', keys', on', (zlen keys'). split_and!; try done. by apply keys_range. }
      injection Hx as -> Ek. apply app_inj_tail in Ek as [Ek [= ->]].
      assert (zlen keys = zlen keys') as El by (unfold zlen; rewrite <- (length_map snd keys), <- (length_map snd keys'); by rewrite Ek).
      rewrite Ek. split; [lia|done].
  - do 3 eexists. split; [done|]. intros t' v'. split; [by intros [? _]|]. intros [Hs [-> | [-> | ->]]]; [exfalso; eapply Hno; [|exact Hs]; by left|exfalso; eapply Hno; [|exact Hs]; by right|].
    exfalso. inversion Hs as [| | | | | |om' m' keys' on' n' W' Eo' Hom' Hon' Hk' Hmn' Hn']; subst.
    assert (None = Some ([m'] :: map snd keys' ++ [[zlen keys']])) as Hx; [|done].
    apply Hmm. exists om', m', keys', on', (zlen keys'). split_and!; try done. by apply keys_range.
Qed.

Lemma ops_head (x : Z) (r : bytes) : x = OP_0 \/ OP_PUSHDATA4 < x -> ops (x :: r) = (x, []) :: ops r /\ well_parsed (x :: r) = well_parsed r.
Proof.
  intros Hx. apply ops_step. cbn [next_op]. destruct Hx as [->|Hx]; [|by rewrite (proj2 (Z.leb_gt _ _))].
  cbn. rewrite (proj2 (Z.ltb_ge _ _)) by apply zlen_nonneg. done.
Qed.

(** A push of at most 75 bytes, and the rest. *)
Definition push (b : bytes) : bytes := zlen b :: b.

Lemma ops_push p r : zlen p < OP_PUSHDATA1 -> ops (push p ++ r) = (zlen p, p) :: ops r /\ well_parsed (push p ++ r) = well_parsed r.
Proof.
  intros Hp. pose proof (zlen_nonneg p). apply ops_step. assert (push p = put_vch be p []) as ->.
  { unfold push, put_vch. rewrite (proj2 (Z.ltb_lt _ _)), wrap_small by (done || (unfold in_u; simpl in *; lia)). done. }
  rewrite (next_op_push be) by (simpl in *; lia). do 3 f_equal. unfold push_opcode. by rewrite (proj2 (Z.ltb_lt _ _)).
Qed.

(** The forms that are told from the first bytes exclude the templates. *)
Lemma template_excluded s t v : by_template s t v ->
  (forall h, zlen h = 20 -> s <> [OP_HASH160 : Z; 20] ++ h ++ [OP_EQUAL : Z]) /\
  (forall op n p, small_op op n -> 2 <= zlen p <= 40 -> s <> [op; zlen p] ++ p) /\
  (forall r, s <> (OP_RETURN : Z) :: r).
Proof.
  intros [Hs Ht]. assert (exists o d l, ops s = (o, d) :: l /\ ((33 <= zlen d /\ t = TX_PUBKEY) \/ (o = OP_DUP /\ t = TX_PUBKEYHASH) \/ ((exists n, small_op o n) /\ (3 <= length (ops s))%nat))) as (o & d & l & Eo & Hod).
  { destruct Hs as [| | | |o k W Eo Hk|o h W Hh Eo|om m keys on n W Eo Hom Hon Hk]; destruct Ht as [?|[?|?]]; try done; do 3 eexists; (split; [exact Eo|]).
    - left. split; [lia|done].
    - right; left. done.
    - right; right. split; [by exists m|]. rewrite Eo. cbn. rewrite length_app. cbn. lia. }
  assert (forall (x : Z) (r : bytes), x = OP_0 \/ OP_PUSHDATA4 < x -> s = x :: r -> x = o /\ d = []) as Hhead.
  { intros x r Hx ->. destruct (ops_head x r Hx) as [E _]. rewrite E in Eo. by injection Eo as -> <- _. }
  assert (forall n, small_op o n -> o <> OP_HASH160 /\ o <> OP_RETURN /\ o <> OP_DUP) as Hsm.
  { intros n [Hn E]. destruct (EncodeOP_N_spec n Hn) as [E' _]. rewrite E' in E. injection E as <-. destruct (n =? 0); simpl; lia. }
  split_and!.
  - intros h Hh Es. cbn [app] in Es. destruct (Hhead _ _ (or_intror (eq_refl : (OP_PUSHDATA4 ?= OP_HASH160) = Lt)) Es) as [<- ->].
    destruct Hod as [[Hod _]|[[Hod _]|[[n Hod] _]]]; [by cbn in Hod|done|by destruct (Hsm n Hod)].
  - intros op n p Hop Hp Es. cbn [app] in Es. destruct (Hhead _ _ (small_op_range _ _ Hop) Es) as [-> ->].
    destruct (Hsm n Hop) as (_ & _ & Hd). destruct Hod as [[Hod _]|[[Hod _]|[_ Hod]]]; [by cbn in Hod|done|].
    rewrite Es in Hod. destruct (ops_head o (zlen p :: p) (small_op_range _ _ Hop)) as [E _]. rewrite E in Hod.
    destruct (ops_push p []) as [E2 _]; [simpl; lia|]. rewrite app_nil_r in E2. unfold push in E2. rewrite E2 in Hod. cbn in Hod. lia.
  - intros r Es. destruct (Hhead _ _ (or_intror (eq_refl : (OP_PUSHDATA4 ?= OP_RETURN) = Lt)) Es) as [<- ->].
    destruct Hod as [[Hod _]|[[Hod _]|[[n Hod] _]]]; [by cbn in Hod|done|by destruct (Hsm n Hod) as (_ & ? & _)].
Qed.
End spec.

(** ** The solver *)

Lemma by_shape s t v : standard s t v -> by_template s t v \/
  (exists h, zlen h = 20 /\ s = [OP_HASH160 : Z; 20] ++ h ++ [OP_EQUAL : Z] /\ t = TX_SCRIPTHASH /\ v = [h]) \/
  (exists h, s = [0; zlen h] ++ h /\ ((zlen h = 20 /\ t = TX_WITNESS_V0_KEYHASH) \/ (zlen h = 32 /\ t = TX_WITNESS_V0_SCRIPTHASH)) /\ v = [h]) \/
  (exists r, s = (OP_RETURN : Z) :: r /\ pushes r = true /\ t = TX_NULL_DATA /\ v = []).
Proof.
  intros Hs. destruct Hs as [h Hh E|h Hh E|h Hh E|r E Hr| | |].
  - right; left. by exists h.
  - right; right; left. exists h. rewrite Hh. auto.
  - right; right; left. exists h. rewrite Hh. auto.
  - right; right; right. by exists r.
  - left. split; [by econstructor|auto].
  - left. split; [by econstructor|auto].
  - left. split; [by econstructor|auto].
Qed.

Lemma solve_witness (s : CScript) (typeRet : txnouttype) version op p : 0 <= version <= 16 -> 2 <= zlen p <= 40 -> EncodeOP_N version = Ok op -> s = [op; zlen p] ++ p ->
  (forall h, zlen h = 20 -> s <> [OP_HASH160 : Z; 20] ++ h ++ [OP_EQUAL : Z]) ->
  exists ok t v, (if (version =? 0) && (zlen p =? 20) then Ok (true, TX_WITNESS_V0_KEYHASH, [p])
    else if (version =? 0) && (zlen p =? 32) then Ok (true, TX_WITNESS_V0_SCRIPTHASH, [p]) else Ok (false, typeRet, [])) = Ok (ok, t, v) /\
    forall t' v', (ok = true /\ t' = t /\ v' = v) <-> standard s t' v'.
Proof.
  intros Hver Hp Eop Es Np.
  assert (forall t' v', standard s t' v' -> exists h, s = [0; zlen h] ++ h /\ ((zlen h = 20 /\ t' = TX_WITNESS_V0_KEYHASH) \/ (zlen h = 32 /\ t' = TX_WITNESS_V0_SCRIPTHASH)) /\ v' = [h]) as Hst.
  { intros t' v' [Ht|[(h' & Hh' & Es' & _)|[Hx|(r & Es' & _)]]]%by_shape; [|by destruct (Np h' Hh')|done|].
    - destruct (template_excluded true _ _ _ Ht) as (_ & Hx & _). by destruct (Hx op version p (conj Hver Eop) Hp).
    - exfalso. rewrite Es' in Es. injection Es as <- _. destruct (EncodeOP_N_spec version Hver) as [E' _]. rewrite E' in Eop. injection Eop as Eop. destruct (version =? 0); simpl in *; lia. }
  assert (forall h, s = [0; zlen h] ++ h -> version = 0 /\ h = p) as Hv0.
  { intros h Eh. rewrite Es in Eh. injection Eh as -> _ ->. split; [|done]. destruct (EncodeOP_N_spec version Hver) as [E' _]. rewrite E' in Eop. injection Eop as Eop. destruct (Z.eqb_spec version 0); simpl in *; lia. }
  destruct (Z.eqb_spec version 0) as [->|Hv]; cbn [andb].
  2: { do 3 eexists. split; [done|]. intros t' v'. split; [by intros [? _]|]. intros (h & Eh & _)%Hst. by destruct (Hv0 h Eh). }
  injection Eop as <-. destruct (Z.eqb_spec (zlen p) 20) as [Hl|Hl]; [|destruct (Z.eqb_spec (zlen p) 32) as [Hl2|Hl2]]; do 3 eexists; (split; [done|]); intros t' v'; split.
  - intros (_ & -> & ->). eapply standard_keyhash_v0; [done|]. by rewrite Es, Hl.
  - intros (h & Eh & Ht & ->)%Hst. destruct (Hv0 h Eh) as [_ ->]. destruct Ht as [[_ ->]|[? _]]; [done|lia].
  - intros (_ & -> & ->). eapply standard_scripthash_v0; [done|]. by rewrite Es, Hl2.
  - intros (h & Eh & Ht & ->)%Hst. destruct (Hv0 h Eh) as [_ ->]. destruct Ht as [[? _]|[_ ->]]; [lia|done].
  - by intros [? _].
  - intros (h & Eh & Ht & ->)%Hst. destruct (Hv0 h Eh) as [_ ->]. destruct Ht as [[? _]|[? _]]; lia.
Qed.

Lemma solve_rest be (s : CScript) : script_ok s -> (forall h, zlen h = 20 -> s <> [OP_HASH160 : Z; 20] ++ h ++ [OP_EQUAL : Z]) ->
  (forall h, s = [0; zlen h] ++ h -> zlen h = 20 \/ zlen h = 32 -> False) ->
  exists ok t v, (let? data := if (1 <=? zlen s) && (at_ s 0 =? OP_RETURN) then push_only_loop be (length s) s 1 else Ok false in
    if data : bool then Ok (true, TX_NULL_DATA, []) else scan_templates be (mTemplates be) s) = Ok (ok, t, v) /\
    forall t' v', (ok = true /\ t' = t /\ v' = v) <-> standard s t' v'.
Proof.
  intros H Np Nw.
  assert (forall t' v', standard s t' v' -> by_template s t' v' \/ (exists r, s = (OP_RETURN : Z) :: r /\ pushes r = true /\ t' = TX_NULL_DATA /\ v' = [])) as Hst.
  { intros t' v' [Ht|[(h' & Hh' & Es' & _)|[(h & Eh & Hl & _)|Hr]]]%by_shape; [by left|by destruct (Np h' Hh')|exfalso; apply (Nw h Eh); destruct Hl as [[? _]|[? _]]; auto|by right]. }
  destruct (scan_spec be s H) as (ok & t & v & Hscan & Hspec).
  destruct ((1 <=? zlen s) && (at_ s 0 =? OP_RETURN)) eqn:Er; cbn [res_bind].
  - apply andb_true_iff in Er as [Hl Er]. destruct s as [|x r]; [done|]. apply Z.eqb_eq in Er. change (at_ (x :: r) 0) with x in Er. subst x.
    assert (push_only_loop be (length ((OP_RETURN : Z) :: r)) ((OP_RETURN : Z) :: r) 1 = Ok (pushes r)) as ->.
    { apply (push_only_spec be r (length ((OP_RETURN : Z) :: r)) [OP_RETURN : Z] H). cbn. lia. }
    cbn [res_bind]. destruct (pushes r) eqn:Epr.
    + do 3 eexists. split; [done|]. intros t' v'. split; [intros (_ & -> & ->); by eapply standard_null_data|].
      intros [Ht|(r' & Es & _ & -> & ->)]%Hst; [|done]. destruct (template_excluded be _ _ _ Ht) as (_ & _ & Hx). by destruct (Hx r).
    + do 3 eexists. split; [exact Hscan|]. intros t' v'. rewrite Hspec. split; [by intros [? _]|]. intros [Ht|(r' & [= <-] & ? & _)]%Hst; [done|congruence].
  - do 3 eexists. split; [exact Hscan|]. intros t' v'. rewrite Hspec. split; [by intros [? _]|]. intros [Ht|(r' & -> & _)]%Hst; [done|].
    rewrite zlen_cons in Er. pose proof (zlen_nonneg r'). rewrite (proj2 (Z.leb_le _ _)) in Er by lia. done.
Qed.

Lemma Solver_spec (be : bool) (s : CScript) (typeRet : txnouttype) : script_ok s ->
  exists ok t v, Solver be s typeRet = Ok (ok, t, v) /\ forall t' v', (ok = true /\ t' = t /\ v' = v) <-> standard s t' v'.
Proof.
  intros H. unfold Solver. destruct (IsPayToScriptHash s) eqn:Ep.
  { apply p2sh_spec in Ep as (h & Hh & Es). assert (slice s 2 22 = h) as -> by (rewrite Es; pose proof (slice_mid [OP_HASH160 : Z; 20] h [OP_EQUAL : Z]) as Hsl; rewrite Hh in Hsl; exact Hsl).
    do 3 eexists. split; [done|]. intros t' v'. split; [intros (_ & -> & ->); by eapply standard_scripthash|].
    intros [Ht|[(h' & Hh' & Es' & -> & ->)|[(h' & Es' & _)|(r & Es' & _)]]]%by_shape; [|rewrite Es in Es'; apply app_inv_head, app_inv_tail in Es'; by subst|rewrite Es in Es'; done..].
    destruct (template_excluded be _ _ _ Ht) as (Hx & _). by destruct (Hx h Hh). }
  assert (forall h, zlen h = 20 -> s <> [OP_HASH160 : Z; 20] ++ h ++ [OP_EQUAL : Z]) as Np.
  { intros h Hh Es. assert (IsPayToScriptHash s = true); [|congruence]. apply p2sh_spec. by exists h. }
  pose proof (IsWitnessProgram_spec s H) as Hw. destruct (IsWitnessProgram s) as [[[version p]|]| | | |]; try done; cbn [res_bind].
  - destruct Hw as (Hver & Hp & op & Eop & Es). by eapply solve_witness.
  - apply solve_rest; [done..|]. intros h Eh Hl. apply Hw. exists 0, 0, h. split_and!; try done; lia.
Qed.

Lemma Solver_standard be s t v typeRet : script_ok s -> standard s t v -> Solver be s typeRet = Ok (true, t, v).
Proof. intros H Hs. destruct (Solver_spec be s typeRet H) as (ok & t' & v' & -> & Hspec). by destruct (proj2 (Hspec t v) Hs) as (-> & -> & ->). Qed.

(** ** Building scripts *)

Lemma put_vch_short be b s : zlen b < OP_PUSHDATA1 -> put_vch be b s = s ++ push b.
Proof.
  intros Hb. pose proof (zlen_nonneg b). unfold put_vch, push. rewrite (proj2 (Z.ltb_lt _ _)), wrap_small by (done || (unfold in_u; simpl in *; lia)).
  by rewrite <- app_assoc.
Qed.

Definition key_ok (k : CPubKey.t) : Prop := length (CPubKey.m_vch k) = 65%nat /\ byte_list (CPubKey.m_vch k) /\ CPubKey.IsValid k = true.

Lemma GetLen_cases h : CPubKey.GetLen h = 0 \/ CPubKey.GetLen h = 33 \/ CPubKey.GetLen h = 65.
Proof. unfold CPubKey.GetLen. repeat case_bool; auto. Qed.

Lemma pubkey_range k : key_ok k -> byte_list (CPubKey.range k) /\ zlen (CPubKey.range k) = CPubKey.size k /\ 33 <= CPubKey.size k <= 65 /\
  exists r, CPubKey.range k = CPubKey.at_ k 0 :: r.
Proof.
  intros (Hl & Hb & Hv). apply Z.ltb_lt in Hv. unfold CPubKey.range. assert (33 <= CPubKey.size k <= 65) as Hs by (unfold CPubKey.size in *; destruct (GetLen_cases (CPubKey.at_ k 0)) as [?|[?|?]]; lia).
  split_and!; [by apply Forall_take|unfold zlen; rewrite length_take; lia|lia|lia|].
  unfold CPubKey.at_. destruct (CPubKey.m_vch k) as [|h r]; [done|]. destruct (Z.to_nat (CPubKey.size k)) as [|n] eqn:E; [lia|]. by exists (take n r).
Qed.

(** A key read back from its bytes. *)
Lemma of_vch_range mem k : length mem = 65%nat -> key_ok k ->
  CPubKey.IsValid (CPubKey.of_vch mem (CPubKey.range k)) = true /\ CPubKey.range (CPubKey.of_vch mem (CPubKey.range k)) = CPubKey.range k.
Proof.
  intros Hm Hk. destruct (pubkey_range k Hk) as (Hb & Hl & Hs & r & Er). unfold CPubKey.of_vch, CPubKey.Set_. rewrite Er. fold (CPubKey.size k). rewrite <- Er. fold (zlen (CPubKey.range k)).
  rewrite Hl, Z.eqb_refl, (proj2 (Z.eqb_neq _ _)) by lia. cbn [negb andb CPubKey.m_vch].
  assert (CPubKey.size (CPubKey.mk (Bytes.mem_write mem (CPubKey.range k))) = CPubKey.size k) as Hsz.
  { unfold CPubKey.size at 1, CPubKey.at_. cbn [CPubKey.m_vch]. unfold Bytes.mem_write. rewrite Er. done. }
  split; [unfold CPubKey.IsValid; rewrite Hsz; apply Z.ltb_lt; lia|]. set (b := CPubKey.range k) in *.
  unfold CPubKey.range. rewrite Hsz. cbn [CPubKey.m_vch]. unfold Bytes.mem_write.
  rewrite take_app_le by (unfold zlen in Hl; lia). apply take_ge. unfold zlen in Hl. lia.
Qed.

Section scripts.
Context (be : bool) {hashes : Hashes}.

Lemma put_code (op : opcodetype) s : put_opcode op s = Ok (s ++ [op : Z]).
Proof. by destruct op. Qed.

Lemma script_keyhash id : zlen (pn_bytes id) = 20 -> GetScriptForDestination be (CKeyID id) =
  Ok ([OP_DUP : Z; OP_HASH160 : Z] ++ push (pn_bytes id) ++ [OP_EQUALVERIFY : Z; OP_CHECKSIG : Z]).
Proof.
  intros Hl. cbn [GetScriptForDestination Script.build put_item]. rewrite put_code; cbn [res_bind]. rewrite ?put_code; cbn [res_bind]. rewrite put_vch_short by (simpl; lia).
  rewrite put_code; cbn [res_bind]. rewrite ?put_code; cbn [res_bind]. by rewrite <- !app_assoc.
Qed.

Lemma script_scripthash id : zlen (pn_bytes id) = 20 -> GetScriptForDestination be (CScriptID id) = Ok ([OP_HASH160 : Z; 20] ++ pn_bytes id ++ [OP_EQUAL : Z]).
Proof.
  intros Hl. cbn [GetScriptForDestination Script.build put_item]. rewrite put_code; cbn [res_bind]. rewrite ?put_code; cbn [res_bind]. rewrite put_vch_short by (simpl; lia).
  rewrite ?put_code; cbn [res_bind]. unfold push. rewrite Hl. by rewrite <- !app_assoc.
Qed.

Lemma script_pubkey k : key_ok k -> GetScriptForRawPubKey be k = Ok (push (CPubKey.range k) ++ [OP_CHECKSIG : Z]).
Proof.
  intros Hk. destruct (pubkey_range k Hk) as (_ & Hl & Hs & _). unfold GetScriptForRawPubKey. cbn [Script.build put_item res_bind].
  rewrite put_vch_short by (simpl; lia). by rewrite put_code.
Qed.

Definition key_pushes (keys : list CPubKey.t) : bytes := mjoin (map (fun k => push (CPubKey.range k)) keys).

Lemma build_keys keys : Forall key_ok keys -> forall s, Script.build be (map (fun key => Data (CPubKey.range key)) keys) s = Ok (s ++ key_pushes keys).
Proof.
  induction 1 as [|k keys Hk _ IH]; intros s; cbn [map Script.build put_item res_bind]; [by rewrite app_nil_r|].
  destruct (pubkey_range k Hk) as (_ & Hl & Hs & _). rewrite put_vch_short, IH by (simpl; lia). unfold key_pushes. cbn [map mjoin list_join]. by rewrite <- app_assoc.
Qed.

Lemma key_pushes_spec keys r : Forall key_ok keys ->
  ops (key_pushes keys ++ r) = map (fun k => (zlen (CPubKey.range k), CPubKey.range k)) keys ++ ops r /\
  well_parsed (key_pushes keys ++ r) = well_parsed r /\ byte_list (key_pushes keys) /\ zlen (key_pushes keys) <= 66 * zlen keys.
Proof.
  induction 1 as [|k keys Hk _ (IH1 & IH2 & IH3 & IH4)]; [split_and!; try done; constructor|].
  change (key_pushes (k :: keys)) with (push (CPubKey.range k) ++ key_pushes keys). cbn [map].
  destruct (pubkey_range k Hk) as (Hb & Hl & Hs & _). rewrite <- app_assoc. destruct (ops_push be (CPubKey.range k) (key_pushes keys ++ r)) as [-> ->]; [simpl; lia|].
  rewrite IH1, IH2. split_and!; [done|done| |].
  - apply byte_list_app. split; [|done]. constructor; [unfold in_u; lia|done].
  - rewrite zlen_app. unfold push. rewrite !zlen_cons. lia.
Qed.

Lemma script_multisig m keys : 1 <= m <= zlen keys -> zlen keys <= 16 -> Forall key_ok keys ->
  GetScriptForMultisig be m keys = Ok ([m + OP_RESERVED] ++ key_pushes keys ++ [zlen keys + OP_RESERVED; OP_CHECKMULTISIG : Z]).
Proof.
  intros Hm Hn Hk. unfold GetScriptForMultisig. destruct (EncodeOP_N_spec m) as [-> _]; [lia|]. rewrite (proj2 (Z.eqb_neq m 0)) by lia. cbn [res_bind].
  rewrite swrap_small by (unfold in_s; lia). destruct (EncodeOP_N_spec (zlen keys)) as [-> _]; [lia|]. rewrite (proj2 (Z.eqb_neq (zlen keys) 0)) by lia.
  cbn [Script.build put_item]. assert (forall x s, 0 <= x <= 255 -> put_opcode x s = Ok (s ++ [x])) as Hput.
  { intros x s Hx. unfold put_opcode. by rewrite !(proj2 (Z.ltb_ge _ _)) by lia. }
  rewrite Hput by (simpl; lia). cbn [res_bind]. rewrite build_keys by done. cbn [res_bind Script.build put_item]. rewrite Hput by (simpl; lia). cbn [res_bind]. rewrite put_code. by rewrite <- !app_assoc.
Qed.

Lemma small_opcode n : 1 <= n <= 16 -> small_op (n + OP_RESERVED) n.
Proof. intros Hn. split; [lia|]. destruct (EncodeOP_N_spec n) as [-> _]; [lia|]. by rewrite (proj2 (Z.eqb_neq n 0)) by lia. Qed.

(** The scripts are standard. *)
Lemma keyhash_standard id : byte_list (pn_bytes id) -> zlen (pn_bytes id) = 20 ->
  let s := [OP_DUP : Z; OP_HASH160 : Z] ++ push (pn_bytes id) ++ [OP_EQUALVERIFY : Z; OP_CHECKSIG : Z] in script_ok s /\ standard s TX_PUBKEYHASH [pn_bytes id].
Proof.
  intros Hb Hl s. split.
  - split; [|unfold s, push, zlen in *; rewrite !length_app; cbn [length]; lia]. apply byte_list_app. split; [repeat constructor; done|]. apply byte_list_app. split; [constructor; [rewrite Hl; done|done]|repeat constructor; done].
  - unfold s. cbn [app]. destruct (ops_head OP_DUP ((OP_HASH160 : Z) :: push (pn_bytes id) ++ [OP_EQUALVERIFY : Z; OP_CHECKSIG : Z])) as [E1 W1]; [by right|].
    destruct (ops_head OP_HASH160 (push (pn_bytes id) ++ [OP_EQUALVERIFY : Z; OP_CHECKSIG : Z])) as [E2 W2]; [by right|].
    destruct (ops_push be (pn_bytes id) [OP_EQUALVERIFY : Z; OP_CHECKSIG : Z]) as [E3 W3]; [simpl; lia|].
    eapply standard_pubkeyhash with (o := 20); [by rewrite W1, W2, W3|done|]. unfold push in *. by rewrite E1, E2, E3, Hl.
Qed.

Lemma pubkey_standard k : key_ok k -> let s := push (CPubKey.range k) ++ [OP_CHECKSIG : Z] in script_ok s /\ standard s TX_PUBKEY [CPubKey.range k].
Proof.
  intros Hk s. destruct (pubkey_range k Hk) as (Hb & Hl & Hs & _). split.
  - split; [|unfold s, push, zlen in *; rewrite !length_app; cbn [length]; lia]. apply byte_list_app. split; [constructor; [unfold in_u; lia|done]|repeat constructor; done].
  - destruct (ops_push be (CPubKey.range k) [OP_CHECKSIG : Z]) as [E W]; [simpl; lia|]. eapply standard_pubkey; [exact W|exact E|lia].
Qed.

Lemma multisig_standard m keys : 1 <= m <= zlen keys -> zlen keys <= 16 -> Forall key_ok keys ->
  let s := [m + OP_RESERVED] ++ key_pushes keys ++ [zlen keys + OP_RESERVED; OP_CHECKMULTISIG : Z] in
  script_ok s /\ standard s TX_MULTISIG ([m] :: map CPubKey.range keys ++ [[zlen keys]]).
Proof.
  intros Hm Hn Hk s. destruct (key_pushes_spec keys [zlen keys + OP_RESERVED; OP_CHECKMULTISIG : Z] Hk) as (E & W & Hb & Hl). split.
  - split; [|unfold s; rewrite !zlen_app, !zlen_cons; change (zlen (@nil Z)) with 0; lia].
    apply byte_list_app. split; [repeat constructor; simpl; lia|]. apply byte_list_app. split; [done|repeat constructor; simpl; lia].
  - unfold s. cbn [app]. destruct (ops_head (m + OP_RESERVED) (key_pushes keys ++ [zlen keys + OP_RESERVED; OP_CHECKMULTISIG : Z])) as [E1 W1]; [right; simpl; lia|].
    destruct (ops_head (zlen keys + OP_RESERVED) [OP_CHECKMULTISIG : Z]) as [E2 W2]; [right; simpl; lia|].
    replace (map CPubKey.range keys) with (map snd (map (fun k => (zlen (CPubKey.range k), CPubKey.range k)) keys)) by (rewrite map_map; done).
    eapply standard_multisig; [by rewrite W1, W, W2|by rewrite E1, E, E2|by apply small_opcode; lia|by apply small_opcode; lia| |done|by unfold zlen; rewrite length_map].
    apply Forall_map. eapply Forall_impl; [exact Hk|]. intros k Hk'. destruct (pubkey_range k Hk') as (_ & Hlk & Hs & _). cbn. lia.
Qed.

Lemma addresses_spec mem keys : length mem = 65%nat -> Forall key_ok keys -> multisig_addresses mem (map CPubKey.range keys) = map (fun k => CKeyID (key_id k)) keys.
Proof.
  intros Hm. induction 1 as [|k keys Hk _ IH]; [done|]. unfold multisig_addresses in *. cbn [map omap list_omap].
  destruct (of_vch_range mem k Hm Hk) as [-> Hr]. cbn [negb]. rewrite IH. unfold key_id at 1, CPubKey.GetID at 1. by rewrite Hr.
Qed.
End scripts.

(** ** Properties *)

(** C36: [Solver] returns on every script, and recognises exactly the standard
    forms: a script hash, the two witness programs of version 0, data after
    [OP_RETURN], a key, the hash of a key, and m of n keys, with the hash, the keys
    and the numbers as solutions. *)
Theorem Solver_correct (be : bool) (s : CScript) (typeRet : txnouttype) : script_ok s ->
  exists ok t v, Solver be s typeRet = Ok (ok, t, v) /\ forall t' v', (ok = true /\ t' = t /\ v' = v) <-> standard s t' v'.
Proof. apply Solver_spec. Qed.

Lemma Solver_correct_witness :
  let s := [0x51; 33] ++ replicate 33 2 ++ [0x51; 0xae] in
  Solver true s TX_NONSTANDARD = Ok (true, TX_MULTISIG, [[1]; replicate 33 2; [1]]) /\ standard s TX_MULTISIG [[1]; replicate 33 2; [1]].
Proof.
  intros s. destruct (Solver_correct true s TX_NONSTANDARD) as (ok & t & v & E & H); [split; [repeat constructor; done|done]|].
  assert (Solver true s TX_NONSTANDARD = Ok (true, TX_MULTISIG, [[1]; replicate 33 2; [1]])) as E' by (vm_compute; reflexivity).
  rewrite E' in E. injection E as <- <- <-. split; [exact E'|]. exact (proj1 (H _ _) (conj eq_refl (conj eq_refl eq_refl))).
Defined.

(** C37: the scripts that are made for a destination, for a key and for m of n keys
    give back the destination, the identifier of the key, and m with the
    identifiers of all the keys. *)
Theorem destinations_roundtrip (be : bool) `{Hashes} (mem : bytes) (typ : txnouttype) (nRequired : Z) : length mem = 65%nat ->
  (forall id, wf WIDTH160 id ->
    (exists s, GetScriptForDestination be (CKeyID id) = Ok s /\ ExtractDestination be mem s typ = Ok (Some (CKeyID id))) /\
    (exists s, GetScriptForDestination be (CScriptID id) = Ok s /\ ExtractDestination be mem s typ = Ok (Some (CScriptID id)))) /\
  (forall k, key_ok k -> exists s, GetScriptForRawPubKey be k = Ok s /\ ExtractDestination be mem s typ = Ok (Some (CKeyID (key_id k)))) /\
  (forall m keys, Forall key_ok keys -> 1 <= m <= zlen keys -> zlen keys <= 16 ->
    exists s, GetScriptForMultisig be m keys = Ok s /\
      ExtractDestinations be mem s typ nRequired = Ok (true, TX_MULTISIG, map (fun k => CKeyID (key_id k)) keys, m)).
Proof.
  intros Hm. split_and!.
  - intros id Hid. pose proof (pn_bytes_bytes id) as Hb. assert (length (pn_bytes id) = 20%nat) as Hl by (by rewrite length_pn_bytes, (wf_length WIDTH160)).
    assert (zlen (pn_bytes id) = 20) as Hz by (unfold zlen; lia). assert (uint160_of_vch (pn_bytes id) = Ok id) as Eid.
    { unfold uint160_of_vch, base_uint_of_vch. rewrite Hl. change (20 =? 4 * WIDTH160)%nat with true. cbv iota. f_equal. by apply limbs_of_pn_bytes. }
    split; eexists.
    + split; [by apply script_keyhash|]. destruct (keyhash_standard be id Hb Hz) as [H1 H2]. unfold ExtractDestination. rewrite (Solver_standard _ _ _ _ _ H1 H2). cbn [res_bind negb head res_of_option]. rewrite bool_decide_eq_false_2, bool_decide_eq_true_2 by done. cbn [res_bind]. by rewrite Eid.
    + split; [by apply script_scripthash|]. unfold ExtractDestination. rewrite (Solver_standard _ _ TX_SCRIPTHASH [pn_bytes id]).
      * cbn [res_bind negb head res_of_option]. rewrite !bool_decide_eq_false_2, bool_decide_eq_true_2 by done. cbn [res_bind]. by rewrite Eid.
      * split; [|unfold zlen; rewrite !length_app, Hl; cbn; lia]. apply byte_list_app. split; [repeat constructor; done|]. apply byte_list_app. split; [done|repeat constructor; done].
      * by eapply standard_scripthash.
  - intros k Hk. eexists. split; [by apply script_pubkey|]. destruct (pubkey_standard be k Hk) as [H1 H2]. unfold ExtractDestination.
    rewrite (Solver_standard _ _ _ _ _ H1 H2). cbn [res_bind negb head res_of_option]. rewrite bool_decide_eq_true_2 by done. cbn [res_bind]. destruct (of_vch_range mem k Hm Hk) as [-> Hr]. cbn [negb]. unfold key_id, CPubKey.GetID. by rewrite Hr.
  - intros m keys Hk Hmn Hn. eexists. split; [by apply script_multisig|]. destruct (multisig_standard be m keys Hmn Hn Hk) as [H1 H2]. unfold ExtractDestinations.
    rewrite (Solver_standard _ _ _ _ _ H1 H2). cbn [res_bind negb head res_of_option]. rewrite !bool_decide_eq_false_2, bool_decide_eq_true_2 by done. cbn [res_bind negb head res_of_option].
    assert (take (length ([m] :: map CPubKey.range keys ++ [[zlen keys]]) - 2) (drop 1 ([m] :: map CPubKey.range keys ++ [[zlen keys]])) = map CPubKey.range keys) as ->.
    { match goal with |- take _ (drop 1 (_ :: ?b)) = _ => change (drop 1 (_ :: b)) with b end. cbn [length]. rewrite length_app. cbn [length]. replace (S _ - 2)%nat with (length (map CPubKey.range keys)) by lia. apply take_app_length. }
    rewrite addresses_spec by done. rewrite bool_decide_eq_false_2; [done|]. destruct keys; [unfold zlen in Hmn; cbn in Hmn; lia|done].
Qed.

Lemma destinations_roundtrip_witness :
  let H := Build_Hashes (fun b => take 20 (b ++ replicate 20 0)) (fun b => b) (fun b => b) in
  let k := CPubKey.mk (2 :: replicate 64 7) in
  let s := push (2 :: replicate 32 7) in
  GetScriptForMultisig true 1 [k; k] = Ok ([0x51] ++ s ++ s ++ [0x52; 0xae]) /\
  ExtractDestinations true (replicate 65 9) ([0x51] ++ s ++ s ++ [0x52; 0xae]) TX_NONSTANDARD 0 = Ok (true, TX_MULTISIG, [CKeyID (key_id k); CKeyID (key_id k)], 1).
Proof.
  intros H k s. destruct (destinations_roundtrip true (replicate 65 9) TX_NONSTANDARD 0 eq_refl) as (_ & _ & Hm).
  assert (key_ok k) as Hk by (split_and!; [done|repeat constructor; done|done]).
  destruct (Hm 1 [k; k]) as (s' & E & E'); [by repeat constructor|vm_compute; split; discriminate|vm_compute; discriminate|].
  assert (GetScriptForMultisig true 1 [k; k] = Ok ([0x51] ++ s ++ s ++ [0x52; 0xae])) as Es by (vm_compute; reflexivity).
  rewrite Es in E. injection E as <-. split; [exact Es|exact E'].
Defined.
