(* ===== verification/Bloom.v ===== *)
(** Bloom filters: src/sige/src/bloom.h and bloom.cpp, and [MurmurHash3] of
    hash.cpp.

    The sizes that the constructors compute from a false positive rate in floating
    point are arguments of the models. A filter is read into an object that is
    there, so that its two flags stay until [UpdateEmptyFull]. *)

From S2P Require Import Prelude Bytes BaseUint UintBytes Uint256 Serialize Codec Prevector Opcode Script Amount Transaction PubKey Interpreter Standard.

Definition ROTL32 (x r : Z) : Z := Z.lor (u32 (Z.shiftl x r)) (Z.shiftr x (32 - r)).

Section murmur.
Context (WORDS_BIGENDIAN : bool).

Definition c1 : Z := 0xcc9e2d51.
Definition c2 : Z := 0x1b873593.
Definition mix (k1 : Z) : Z := u32 (ROTL32 (u32 (k1 * c1)) 15 * c2).

(** One block of four bytes; the blocks are counted from the first here. *)
Definition murmur_block (vDataToHash : bytes) (i : nat) (h1 : Z) : Z :=
  let h1 := Z.lxor h1 (mix (ReadLE32 WORDS_BIGENDIAN (drop (4 * i) vDataToHash))) in
  u32 (u32 (ROTL32 h1 13 * 5) + 0xe6546b64).

(** The cases of the switch fall through. *)
Definition murmur_tail (size : Z) (tail : bytes) (h1 : Z) : Z :=
  let k1 := 0 in
  let n := Z.land size 3 in
  let k1 := if n =? 3 then Z.lxor k1 (Z.shiftl (tail.[2%nat]) 16) else k1 in
  let k1 := if (n =? 3) || (n =? 2) then Z.lxor k1 (Z.shiftl (tail.[1%nat]) 8) else k1 in
  if n =? 0 then h1 else Z.lxor h1 (mix (Z.lxor k1 (tail.[0%nat]))).

Definition MurmurHash3 (nHashSeed : Z) (vDataToHash : bytes) : Z :=
  let h1 := nHashSeed in
  let nblocks := (length vDataToHash / 4)%nat in
  let h1 := if 0 <? zlen vDataToHash then murmur_tail (zlen vDataToHash) (drop (4 * nblocks) vDataToHash) (for_up nblocks (murmur_block vDataToHash) h1) else h1 in
  let h1 := Z.lxor h1 (u32 (zlen vDataToHash)) in
  let h1 := Z.lxor h1 (Z.shiftr h1 16) in
  let h1 := u32 (h1 * 0x85ebca6b) in
  let h1 := Z.lxor h1 (Z.shiftr h1 13) in
  let h1 := u32 (h1 * 0xc2b2ae35) in
  Z.lxor h1 (Z.shiftr h1 16).
End murmur.

(** The first cases of hash_tests.cpp. *)
Example murmur_tests : map (fun '(seed, data) => MurmurHash3 true seed data)
  [(0, []); (0xFBA4C795, []); (0xffffffff, []); (0, [0]); (0xFBA4C795, [0]); (0, [0xff]); (0, [0; 0x11]); (0, [0; 0x11; 0x22]); (0, [0; 0x11; 0x22; 0x33]); (0, [0; 0x11; 0x22; 0x33; 0x44; 0x55; 0x66])] =
  [0; 0x6a396f08; 0x81f16f39; 0x514e28b7; 0xea3f0b17; 0xfd6cf10d; 0x16c6b7ab; 0x8eb51c3d; 0xb4471bf8; 0xb074502c].
Proof. vm_compute. reflexivity. Qed.

Definition MAX_BLOOM_FILTER_SIZE : Z := 36000.
Definition MAX_HASH_FUNCS : Z := 50.
Definition BLOOM_UPDATE_NONE : Z := 0.
Definition BLOOM_UPDATE_ALL : Z := 1.
Definition BLOOM_UPDATE_P2PUBKEY_ONLY : Z := 2.
Definition BLOOM_UPDATE_MASK : Z := 3.

Module CBloomFilter.
Record t := mk {
  vData : bytes;
  isFull : bool;
  isEmpty : bool;
  nHashFuncs : Z;
  nTweak : Z;
  nFlags : Z;
}.

(** The number of bytes and the number of functions that were computed, within the limits. *)
Definition make (nBits nFuncs nTweakIn nFlagsIn : Z) : t :=
  mk (replicate (Z.to_nat (Z.min nBits (MAX_BLOOM_FILTER_SIZE * 8) / 8)) 0) false true (Z.min nFuncs MAX_HASH_FUNCS) nTweakIn nFlagsIn.
(** The private constructor, without limits. *)
Definition make_private (nBits nFuncs nTweakIn : Z) : t :=
  mk (replicate (Z.to_nat (nBits / 8)) 0) false true nFuncs nTweakIn BLOOM_UPDATE_NONE.
Definition make_default : t := mk [] true false 0 0 0.
Definition getVdata (f : t) : bytes := vData f.

Definition with_vData (f : t) (v : bytes) : t := mk v (isFull f) (isEmpty f) (nHashFuncs f) (nTweak f) (nFlags f).
Definition with_flags (f : t) (full empty : bool) : t := mk (vData f) full empty (nHashFuncs f) (nTweak f) (nFlags f).

Definition codec (f : t) : codec t :=
  c_map (c_pair c_bytes (c_pair c_u32 (c_pair c_u32 c_u8))) (fun '(v, (n, (tw, fl))) => mk v (isFull f) (isEmpty f) n tw fl)
    (fun f => (vData f, (nHashFuncs f, (nTweak f, nFlags f)))).

Section filter.
Context (WORDS_BIGENDIAN : bool).

(** A filter without bytes divides by zero. *)
Definition Hash (f : t) (nHashNum : Z) (vDataToHash : bytes) : res Z :=
  if zlen (vData f) =? 0 then Undef
  else Ok (u32 (MurmurHash3 WORDS_BIGENDIAN (u32 (u32 (nHashNum * 0xFBA4C795) + nTweak f)) vDataToHash mod u64 (zlen (vData f) * 8))).

(** [for (i = 0; i < nHashFuncs; i++)], with [n] still to go. *)
Fixpoint insert_loop (n : nat) (i : Z) (vKey : bytes) (f : t) : res t :=
  match n with
  | O => Ok f
  | S n =>
      let? nIndex := Hash f i vKey in
      let at_ := Z.to_nat (Z.shiftr nIndex 3) in
      let? b := res_of_option (vData f !! at_) in
      insert_loop n (u32 (i + 1)) vKey (with_vData f (<[at_ := u8 (Z.lor b (Z.shiftl 1 (Z.land 7 nIndex)))]> (vData f)))
  end.

Definition insert (vKey : bytes) (f : t) : res t :=
  if isFull f then Ok f
  else
    let? f := insert_loop (Z.to_nat (nHashFuncs f)) 0 vKey f in
    Ok (with_flags f (isFull f) false).

Fixpoint contains_loop (n : nat) (i : Z) (vKey : bytes) (f : t) : res bool :=
  match n with
  | O => Ok true
  | S n =>
      let? nIndex := Hash f i vKey in
      let? b := res_of_option (vData f !! Z.to_nat (Z.shiftr nIndex 3)) in
      if Z.land b (Z.shiftl 1 (Z.land 7 nIndex)) =? 0 then Ok false else contains_loop n (u32 (i + 1)) vKey f
  end.

Definition contains (vKey : bytes) (f : t) : res bool :=
  if isFull f then Ok true
  else if isEmpty f then Ok false
  else contains_loop (Z.to_nat (nHashFuncs f)) 0 vKey f.

(** The overloads for outpoints and hashes, by the bytes of the key. *)
Definition outpoint_key (outpoint : COutPoint.t) : bytes := Serialize COutPoint.codec outpoint.
Definition insert_outpoint (outpoint : COutPoint.t) : t -> res t := insert (outpoint_key outpoint).
Definition insert_hash (hash : uint256) : t -> res t := insert (pn_bytes hash).
Definition contains_outpoint (outpoint : COutPoint.t) : t -> res bool := contains (outpoint_key outpoint).
Definition contains_hash (hash : uint256) : t -> res bool := contains (pn_bytes hash).

Definition clear (f : t) : t := mk (replicate (length (vData f)) 0) false true (nHashFuncs f) (nTweak f) (nFlags f).
Definition reset (nNewTweak : Z) (f : t) : t :=
  let f := clear f in
  mk (vData f) (isFull f) (isEmpty f) (nHashFuncs f) nNewTweak (nFlags f).

Definition IsWithinSizeConstraints (f : t) : bool := (zlen (vData f) <=? MAX_BLOOM_FILTER_SIZE) && (nHashFuncs f <=? MAX_HASH_FUNCS).

Definition UpdateEmptyFull (f : t) : t :=
  let '(full, empty) := for_up (length (vData f)) (fun i '(full, empty) => (full && ((vData f).[i] =? 0xff), empty && ((vData f).[i] =? 0))) (true, true) in
  with_flags f full empty.

(** [while (pc < script.end())]: whether an element of the script is in the filter. *)
Fixpoint data_loop (fuel : nat) (script : CScript) (pc : Z) (f : t) : res bool :=
  if pc <? script_end script then
    let r := GetOp WORDS_BIGENDIAN script pc in
    if negb (fRet r) then Ok false
    else
      let? found := if negb (zlen (vchRet r) =? 0) then contains (vchRet r) f else Ok false in
      if found : bool then Ok true
      else match fuel with O => OutOfFuel | S fuel => data_loop fuel script (pcRet r) f end
  else Ok false.

(** The outpoint of an output that matched, as the flags say. The type is only read
    where [Solver] has set it. *)
Definition update (hash : uint256) (i : Z) (script : CScript) (f : t) : res t :=
  if Z.land (nFlags f) BLOOM_UPDATE_MASK =? BLOOM_UPDATE_ALL then insert_outpoint (COutPoint.mk hash i) f
  else if Z.land (nFlags f) BLOOM_UPDATE_MASK =? BLOOM_UPDATE_P2PUBKEY_ONLY then
    let? (ok, type, vSolutions) := Solver WORDS_BIGENDIAN script TX_NONSTANDARD in
    if ok && (bool_decide (type = TX_PUBKEY) || bool_decide (type = TX_MULTISIG)) then insert_outpoint (COutPoint.mk hash i) f else Ok f
  else Ok f.

Fixpoint outputs_loop (hash : uint256) (i : Z) (vout : list CTxOut.t) (fFound : bool) (f : t) : res (bool * t) :=
  match vout with
  | [] => Ok (fFound, f)
  | txout :: vout =>
      let script := CTxOut.scriptPubKey txout in
      let? found := data_loop (length script) script 0 f in
      if found : bool then
        let? f := update hash i script f in
        outputs_loop hash (u32 (i + 1)) vout true f
      else outputs_loop hash (u32 (i + 1)) vout fFound f
  end.

Fixpoint inputs_loop (vin : list CTxIn.t) (f : t) : res bool :=
  match vin with
  | [] => Ok false
  | txin :: vin =>
      let? c := contains_outpoint (CTxIn.prevout txin) f in
      if c : bool then Ok true
      else
        let? found := data_loop (length (CTxIn.scriptSig txin)) (CTxIn.scriptSig txin) 0 f in
        if found : bool then Ok true else inputs_loop vin f
  end.

Definition IsRelevantAndUpdate (tx : CTransaction) (f : t) : res (bool * t) :=
  if isFull f then Ok (true, f)
  else if isEmpty f then Ok (false, f)
  else
    let hash := GetHash tx in
    let? fFound := contains_hash hash f in
    let? (fFound, f) := outputs_loop hash 0 (vout tx) fFound f in
    if fFound : bool then Ok (true, f)
    else
      let? r := inputs_loop (vin tx) f in
      Ok (r, f).
End filter.
End CBloomFilter.

Import CBloomFilter.

(** ** The bits of a filter *)

Definition bit (v : bytes) (p : Z) : bool := Z.testbit (v.[Z.to_nat (p / 8)]) (p mod 8).

Lemma index_split p : 0 <= p -> Z.shiftr p 3 = p / 8 /\ Z.land 7 p = p mod 8.
Proof. intros Hp. rewrite Z.shiftr_div_pow2 by lia. rewrite Z.land_comm. split; [done|]. change 7 with (Z.ones 3). by rewrite Z.land_ones. Qed.

Lemma bit_at v p : 0 <= p < 8 * zlen v -> exists b, v !! Z.to_nat (p / 8) = Some b /\ bit v p = Z.testbit b (p mod 8).
Proof.
  intros Hp. assert (Z.to_nat (p / 8) < length v)%nat as Hl by (unfold zlen in Hp; pose proof (Z.div_mod p 8); pose proof (Z.mod_pos_bound p 8); lia).
  exists (v.[Z.to_nat (p / 8)]). split; [by apply list_lookup_lookup_total_lt|done].
Qed.

Definition set_bit (v : bytes) (p : Z) : bytes := <[Z.to_nat (p / 8) := u8 (Z.lor (v.[Z.to_nat (p / 8)]) (Z.shiftl 1 (p mod 8)))]> v.

Lemma set_bit_spec v p : byte_list v -> 0 <= p < 8 * zlen v -> byte_list (set_bit v p) /\ length (set_bit v p) = length v /\
  forall q, 0 <= q < 8 * zlen v -> bit (set_bit v p) q = bool_decide (q = p) || bit v q.
Proof.
  intros Hv Hp. destruct (bit_at v p Hp) as (b & Eb & _). assert (v.[Z.to_nat (p / 8)] = b) as Ev by by apply list_lookup_total_correct.
  pose proof (Forall_lookup_1 _ _ _ _ Hv Eb) as Hb. apply lookup_lt_Some in Eb. pose proof (Z.mod_pos_bound p 8 ltac:(lia)) as Hm.
  assert (in_u 8 (Z.lor b (Z.shiftl 1 (p mod 8)))) as Hx.
  { apply lor_range; [lia|done|]. rewrite Z.shiftl_mul_pow2 by lia. unfold in_u. pose proof (Z.pow_le_mono_r 2 (p mod 8) 7). lia. }
  unfold set_bit. rewrite Ev, wrap_small by done. split; [by apply Forall_insert|]. split; [apply length_insert|]. intros q Hq. unfold bit. rewrite insert_lookup_total by lia.
  pose proof (Z.div_mod p 8) as Dp. pose proof (Z.div_mod q 8) as Dq. pose proof (Z.mod_pos_bound q 8) as Hmq. case_decide as E.
  - assert (q / 8 = p / 8) as Ed by lia. rewrite Ed, Ev, Z.lor_spec, Z.shiftl_spec, orb_comm by lia. f_equal. case_bool_decide.
    + subst. rewrite Z.sub_diag. done.
    + destruct (Z.ltb_spec (q mod 8) (p mod 8)); [apply Z.testbit_neg_r; lia|]. apply (bits_above 1); [unfold in_u; lia|lia].
  - rewrite bool_decide_eq_false_2; [done|]. intros ->. done.
Qed.

Section spec.
Context (be : bool).

(** The bit that a function selects for a key. *)
Definition index (size tweak i : Z) (key : bytes) : Z := u32 (MurmurHash3 be (u32 (u32 (i * 0xFBA4C795) + tweak)) key mod u64 (size * 8)).

Lemma Hash_spec f i key : 0 < zlen (vData f) < 2 ^ 32 ->
  Hash be f i key = Ok (index (zlen (vData f)) (nTweak f) i key) /\ 0 <= index (zlen (vData f)) (nTweak f) i key < 8 * zlen (vData f).
Proof.
  intros Hs. unfold Hash, index. rewrite (proj2 (Z.eqb_neq _ _)) by lia. split; [done|]. rewrite (wrap_small 64) by (unfold in_u; lia).
  set (m := MurmurHash3 _ _ _). pose proof (Z.mod_pos_bound m (zlen (vData f) * 8) ltac:(lia)) as Hm.
  pose proof (wrap_range 32 (m mod (zlen (vData f) * 8)) ltac:(lia)) as Hr. unfold in_u in Hr.
  assert (u32 (m mod (zlen (vData f) * 8)) <= m mod (zlen (vData f) * 8)) by (unfold wrap; apply Z.mod_le; lia). lia.
Qed.

(** Every function of the filter selects a bit that is set. *)
Definition marks (v : bytes) (n tweak : Z) (key : bytes) : Prop := forall i, 0 <= i < n -> bit v (index (zlen v) tweak i key) = true.
Definition marked (f : t) (key : bytes) : Prop := marks (vData f) (nHashFuncs f) (nTweak f) key.

(** A filter with bytes and functions whose flags tell the truth. *)
Record filter_ok (f : t) : Prop := {
  ok_bytes : byte_list (vData f);
  ok_size : 0 < zlen (vData f) < 2 ^ 32;
  ok_funcs : 0 < nHashFuncs f < 2 ^ 32;
  ok_full : isFull f = true -> Forall (fun b => b = 0xff) (vData f);
  ok_empty : isEmpty f = true -> Forall (fun b => b = 0) (vData f);
}.

Lemma contains_loop_spec f key : 0 < zlen (vData f) < 2 ^ 32 -> forall n i, 0 <= i -> i + Z.of_nat n < 2 ^ 32 ->
  exists b, contains_loop be n i key f = Ok b /\
    (b = true <-> forall j, i <= j < i + Z.of_nat n -> bit (vData f) (index (zlen (vData f)) (nTweak f) j key) = true).
Proof.
  intros Hs. induction n as [|n IH]; intros i Hi Hn; cbn [contains_loop]; [exists true; split; [done|]; split; [intros; lia|done]|].
  destruct (Hash_spec f i key Hs) as [-> Hp]. cbn [res_bind]. destruct (index_split (index (zlen (vData f)) (nTweak f) i key)) as [-> ->]; [lia|].
  destruct (bit_at _ _ Hp) as (b & -> & Eb). cbn [res_of_option res_bind]. pose proof (bit_test b (index (zlen (vData f)) (nTweak f) i key mod 8) ltac:(apply Z.mod_pos_bound; lia)) as Et.
  rewrite <- Eb in Et. destruct (Z.land _ _ =? 0); cbn [negb] in Et.
  - exists false. split; [done|]. split; [done|]. intros Hx. rewrite Hx in Et by lia. done.
  - rewrite wrap_small by (unfold in_u; lia). destruct (IH (i + 1)) as (r & -> & Hr); [lia|lia|]. exists r. split; [done|]. rewrite Hr. split.
    + intros Hx j Hj. destruct (decide (j = i)) as [->|]; [done|]. apply Hx. lia.
    + intros Hx j Hj. apply Hx. lia.
Qed.

Lemma bit_const c v p : Forall (fun b => b = c) v -> 0 <= p < 8 * zlen v -> bit v p = Z.testbit c (p mod 8).
Proof. intros Hv Hp. destruct (bit_at v p Hp) as (b & E & ->). f_equal. exact (Forall_lookup_1 _ _ _ _ Hv E). Qed.

Lemma contains_spec f key : filter_ok f -> exists b, contains be key f = Ok b /\ (b = true <-> marked f key).
Proof.
  intros [Hb Hs Hn Hf He]. unfold contains. destruct (isFull f) eqn:Ef; [exists true|destruct (isEmpty f) eqn:Ee; [exists false|]]; try (split; [done|]).
  - split; [|done]. intros _ i Hi. rewrite (bit_const 255) by (auto; apply Hash_spec; done). change 255 with (Z.ones 8). apply Z.ones_spec_low. apply Z.mod_pos_bound. lia.
  - split; [done|]. intros Hm. specialize (Hm 0 ltac:(lia)). rewrite (bit_const 0) in Hm by (auto; apply Hash_spec; done). by rewrite Z.bits_0 in Hm.
  - destruct (contains_loop_spec f key Hs (Z.to_nat (nHashFuncs f)) 0) as (b & -> & E); [lia|lia|]. exists b. split; [done|]. rewrite E. unfold marked, marks. rewrite Z2Nat.id by lia. done.
Qed.

Lemma insert_loop_spec key : forall n i f, byte_list (vData f) -> 0 < zlen (vData f) < 2 ^ 32 -> 0 <= i -> i + Z.of_nat n < 2 ^ 32 ->
  exists v, insert_loop be n i key f = Ok (with_vData f v) /\ byte_list v /\ length v = length (vData f) /\
    forall q, 0 <= q < 8 * zlen v -> bit v q = true <-> bit (vData f) q = true \/ exists j, i <= j < i + Z.of_nat n /\ q = index (zlen v) (nTweak f) j key.
Proof.
  induction n as [|n IH]; intros i f Hb Hs Hi Hn; cbn [insert_loop].
  { exists (vData f). split; [by destruct f|]. split_and!; try done. intros q _. split; [by left|]. intros [?|(j & ? & _)]; [done|lia]. }
  destruct (Hash_spec f i key Hs) as [-> Hp]. cbn [res_bind]. destruct (index_split (index (zlen (vData f)) (nTweak f) i key)) as [-> ->]; [lia|].
  destruct (bit_at _ _ Hp) as (b & Eb & _). rewrite Eb. cbn [res_of_option res_bind]. apply list_lookup_total_correct in Eb. rewrite <- Eb.
  set (p := index (zlen (vData f)) (nTweak f) i key) in *. fold (set_bit (vData f) p). rewrite wrap_small by (unfold in_u; lia).
  destruct (set_bit_spec (vData f) p Hb Hp) as (S1 & S2 & S3). assert (zlen (set_bit (vData f) p) = zlen (vData f)) as S4 by (unfold zlen; lia).
  destruct (IH (i + 1) (with_vData f (set_bit (vData f) p))) as (v & -> & V1 & V2 & V3); [done|cbn; lia|lia|lia|]. cbn [with_vData vData nTweak] in *.
  exists v. split; [done|]. split; [done|]. split; [lia|]. intros q Hq. assert (zlen v = zlen (vData f)) as V4 by (unfold zlen; lia). rewrite V3, S3, orb_true_iff, bool_decide_eq_true by lia.
  rewrite V4. split.
  - intros [[->|?]|(j & Hj & ->)]; [right; exists i; split; [lia|done]|by left|right; exists j; split; [lia|done]].
  - intros [?|(j & Hj & ->)]; [by left; right|]. destruct (decide (j = i)) as [->|]; [left; by left|right; exists j; split; [lia|done]].
Qed.

(** What a later filter keeps of an earlier one. *)
Record extends (f f' : t) : Prop := {
  ext_size : length (vData f') = length (vData f);
  ext_params : nHashFuncs f' = nHashFuncs f /\ nTweak f' = nTweak f /\ nFlags f' = nFlags f;
  ext_marks : forall key, marked f key -> marked f' key;
}.

#[export] Instance extends_preorder : PreOrder extends.
Proof.
  split; [by split|]. intros f g h [S1 (A1 & B1 & C1) M1] [S2 (A2 & B2 & C2) M2]. split; [congruence|split_and!; congruence|auto].
Qed.

Lemma full_marked f key : filter_ok f -> isFull f = true -> marked f key.
Proof. intros Hok Ef. destruct (contains_spec f key Hok) as (b & E & <-). unfold contains in E. rewrite Ef in E. by injection E as <-. Qed.

Lemma empty_unmarked f key : filter_ok f -> isFull f = false -> isEmpty f = true -> ~ marked f key.
Proof. intros Hok Ef Ee Hm. destruct (contains_spec f key Hok) as (b & E & Hb). unfold contains in E. rewrite Ef, Ee in E. injection E as <-. by apply Hb in Hm. Qed.

Lemma insert_spec f key : filter_ok f -> exists f', insert be key f = Ok f' /\ filter_ok f' /\ extends f f' /\ marked f' key.
Proof.
  intros Hok. pose proof Hok as [Hb Hs Hn Hf He]. unfold insert. destruct (isFull f) eqn:Ef.
  { exists f. split_and!; try done. by apply full_marked. }
  destruct (insert_loop_spec key (Z.to_nat (nHashFuncs f)) 0 f Hb Hs) as (v & -> & V1 & V2 & V3); [lia|lia|]. cbn [res_bind].
  assert (zlen v = zlen (vData f)) as V4 by (unfold zlen; lia). eexists. split; [done|]. split; [|split; [split|]]; cbn.
  - split; cbn; try done; [by rewrite V4|by rewrite Ef].
  - done.
  - done.
  - unfold marked, marks. cbn. intros k Hk i Hi. rewrite V4. apply V3; [rewrite V4; apply (Hash_spec f i k Hs)|]. left. by apply Hk.
  - unfold marked, marks. cbn. intros i Hi. apply V3; [rewrite V4; apply (Hash_spec f i key Hs)|]. right. exists i. split; [lia|done].
Qed.

Lemma contains_same f g key : filter_ok f -> filter_ok g -> (marked g key <-> marked f key) -> contains be key g = contains be key f.
Proof.
  intros Hf Hg Hm. destruct (contains_spec f key Hf) as (b & -> & Hb), (contains_spec g key Hg) as (b' & -> & Hb'). f_equal.
  rewrite Hm in Hb'. destruct b, b'; try done; [destruct (proj2 Hb')|destruct (proj2 Hb)]; try done; [by apply Hb|by apply Hb'].
Qed.

Lemma UpdateEmptyFull_flags f : UpdateEmptyFull f = with_flags f (forallb (fun b => b =? 0xff) (vData f)) (forallb (fun b => b =? 0) (vData f)).
Proof.
  unfold UpdateEmptyFull. assert (for_up (length (vData f)) (fun i '(full, empty) => (full && ((vData f).[i] =? 255), empty && ((vData f).[i] =? 0))) (true, true) =
    (forallb (fun b => b =? 255) (take (length (vData f)) (vData f)), forallb (fun b => b =? 0) (take (length (vData f)) (vData f)))) as ->; [|by rewrite take_ge].
  refine (for_up_inv (fun i x => x = (forallb (fun b => b =? 255) (take i (vData f)), forallb (fun b => b =? 0) (take i (vData f)))) _ _ _ _ _); [done|].
  intros i x Hi ->. rewrite (take_S_r _ _ ((vData f).[i])) by (by apply list_lookup_lookup_total_lt). rewrite !forallb_app. cbn [forallb]. by rewrite !andb_true_r.
Qed.

Lemma UpdateEmptyFull_ok f : byte_list (vData f) -> 0 < zlen (vData f) < 2 ^ 32 -> 0 < nHashFuncs f < 2 ^ 32 -> filter_ok (UpdateEmptyFull f).
Proof.
  intros H1 H2 H3. rewrite UpdateEmptyFull_flags. split; cbn; try done; intros E; apply Forall_forall; intros b Hb;
    apply forallb_forall with (x := b) in E; [lia|by apply list_elem_of_In|lia|by apply list_elem_of_In].
Qed.

Lemma UpdateEmptyFull_spec f : filter_ok f -> filter_ok (UpdateEmptyFull f) /\ forall key, contains be key (UpdateEmptyFull f) = contains be key f.
Proof.
  intros Hok. assert (filter_ok (UpdateEmptyFull f)) as Hok' by (destruct Hok; by apply UpdateEmptyFull_ok).
  split; [done|]. intros key. apply contains_same; [done..|]. by rewrite UpdateEmptyFull_flags.
Qed.

(** ** What is relevant *)

Definition data_in (f : t) (script : CScript) : Prop := exists o d, (o, d) ∈ ops script /\ d <> [] /\ marked f d.

Lemma data_loop_spec f : filter_ok f -> forall r fuel a, script_ok (a ++ r) -> (length r <= fuel)%nat ->
  exists b, data_loop be fuel (a ++ r) (zlen a) f = Ok b /\ (b = true <-> data_in f r).
Proof.
  intros Hok. induction r as [r E|r op d r' E Hl IH] using script_ind; intros fuel a H Hf.
  - exists false. split; [|split; [done|]; intros (o & x & Hin & _); destruct (ops_stop r E) as [Ho _]; rewrite Ho in Hin; by apply elem_of_nil in Hin].
    destruct fuel; cbn [data_loop]; rewrite at_end_ltb; destruct (GetOp_none be a r H E) as (pc & ->); by case_bool_decide.
  - destruct fuel as [|fuel]; [lia|]. cbn [data_loop]. rewrite at_end_ltb, (bool_decide_eq_false_2 (r = [])) by (by destruct r). cbn [negb].
    destruct (GetOp_some be a r op d r' H E) as (b & Ea & ->). cbn [fRet negb vchRet pcRet]. destruct (ops_step r op d r' E) as [Eo _].
    assert (exists x, (if negb (zlen d =? 0) then contains be d f else Ok false) = Ok x /\ (x = true <-> d <> [] /\ marked f d)) as (x & -> & Hx).
    { destruct d as [|y d]; [exists false; split; [done|]; split; [done|]; by intros [? _]|]. rewrite zlen_cons, (proj2 (Z.eqb_neq _ _)) by (pose proof (zlen_nonneg d); lia). cbn [negb].
      destruct (contains_spec f (y :: d) Hok) as (x & -> & Hx). exists x. split; [done|]. rewrite Hx. split; [done|]. by intros [_ ?]. }
    cbn [res_bind]. rewrite Ea in *. destruct (IH fuel (a ++ b) H ltac:(lia)) as (y & Ey & Hy). destruct x.
    + exists true. split; [done|]. split; [|done]. intros _. exists op, d. rewrite Eo. split; [left|by apply Hx].
    + exists y. split; [done|]. rewrite Hy. unfold data_in. rewrite Eo. split.
      * intros (o & z & Hin & Hz). exists o, z. split; [by right|done].
      * intros (o & z & Hin & Hz). apply elem_of_cons in Hin as [[= -> ->]|Hin]; [by apply Hx in Hz|]. by exists o, z.
Qed.

Lemma data_loop_start f s : filter_ok f -> script_ok s -> exists b, data_loop be (length s) s 0 f = Ok b /\ (b = true <-> data_in f s).
Proof. intros Hok H. exact (data_loop_spec f Hok s (length s) [] H (le_n _)). Qed.

Definition updates_all (f : t) : Prop := Z.land (nFlags f) BLOOM_UPDATE_MASK = BLOOM_UPDATE_ALL.

Lemma update_spec f hash i s : filter_ok f -> script_ok s -> exists f', update be hash i s f = Ok f' /\ filter_ok f' /\ extends f f' /\
  (updates_all f -> marked f' (outpoint_key (COutPoint.mk hash i))).
Proof.
  intros Hok Hs. unfold update, updates_all, insert_outpoint. destruct (insert_spec f (outpoint_key (COutPoint.mk hash i)) Hok) as (f' & E & Hok' & Hext & Hm).
  destruct (Z.eqb_spec (Z.land (nFlags f) BLOOM_UPDATE_MASK) BLOOM_UPDATE_ALL); [by exists f'|]. destruct (Z.land (nFlags f) BLOOM_UPDATE_MASK =? BLOOM_UPDATE_P2PUBKEY_ONLY); [|by exists f].
  destruct (Solver_spec be s TX_NONSTANDARD Hs) as (ok & ty & v & -> & _). cbn [res_bind]. destruct (ok && _); [by exists f'|by exists f].
Qed.

Lemma data_in_extends f f' s : extends f f' -> data_in f s -> data_in f' s.
Proof. intros Hext (o & d & Hin & Hd & Hm). exists o, d. split_and!; [done|done|by apply Hext]. Qed.

Lemma outputs_loop_spec hash : forall vout i fFound f, filter_ok f -> Forall (fun o => script_ok (CTxOut.scriptPubKey o)) vout -> 0 <= i -> i + zlen vout < 2 ^ 32 ->
  exists b f', outputs_loop be hash i vout fFound f = Ok (b, f') /\ filter_ok f' /\ extends f f' /\ (fFound = true -> b = true) /\
    (b = true -> fFound = true \/ exists o, o ∈ vout /\ data_in f' (CTxOut.scriptPubKey o)) /\
    forall j o, vout !! j = Some o -> data_in f (CTxOut.scriptPubKey o) -> b = true /\ (updates_all f -> marked f' (outpoint_key (COutPoint.mk hash (i + Z.of_nat j)))).
Proof.
  induction vout as [|o vout IH]; intros i fFound f Hok Hs Hi Hl; cbn [outputs_loop].
  { exists fFound, f. split; [done|]. split; [done|]. split; [reflexivity|]. split; [done|]. split; [by left|]. intros j o E. by rewrite lookup_nil in E. }
  apply Forall_cons_1 in Hs as [Ho Hs]. rewrite zlen_cons in Hl. pose proof (zlen_nonneg vout).
  destruct (data_loop_start f (CTxOut.scriptPubKey o) Hok Ho) as (x & -> & Hx). cbn [res_bind]. rewrite wrap_small by (unfold in_u; lia). destruct x.
  - destruct (update_spec f hash i (CTxOut.scriptPubKey o) Hok Ho) as (f1 & -> & Hok1 & Hext1 & Hall1). cbn [res_bind].
    destruct (IH (i + 1) true f1 Hok1 Hs) as (b & f' & -> & Hok' & Hext & Hb & _ & Hj); [lia|lia|]. specialize (Hb eq_refl). exists b, f'. split; [done|]. split; [done|].
    split; [by transitivity f1|]. split; [done|]. split.
    + intros _. right. exists o. split; [left|]. eapply data_in_extends; [by transitivity f1|by apply Hx].
    + intros [|j] o' E Hd; (split; [done|]); intros Hall.
      * rewrite Z.add_0_r. apply Hext. by apply Hall1.
      * replace (i + Z.of_nat (S j)) with (i + 1 + Z.of_nat j) by lia. apply (Hj j o'); [done|by eapply data_in_extends|]. unfold updates_all. by destruct Hext1 as [_ (_ & _ & ->) _].
  - destruct (IH (i + 1) fFound f Hok Hs) as (b & f' & -> & Hok' & Hext & Hb & Hb' & Hj); [lia|lia|]. exists b, f'. split_and!; try done.
    + intros [?|(o' & Hin & Hd)]%Hb'; [by left|]. right. exists o'. split; [by right|done].
    + intros [|j] o' E Hd; [injection E as <-; by apply Hx in Hd|]. replace (i + Z.of_nat (S j)) with (i + 1 + Z.of_nat j) by lia. by apply (Hj j o').
Qed.

Definition data_in_input (f : t) (i : CTxIn.t) : Prop := marked f (outpoint_key (CTxIn.prevout i)) \/ data_in f (CTxIn.scriptSig i).

Lemma inputs_loop_spec f : filter_ok f -> forall vin, Forall (fun i => script_ok (CTxIn.scriptSig i)) vin ->
  exists b, inputs_loop be vin f = Ok b /\ (b = true <-> exists i, i ∈ vin /\ data_in_input f i).
Proof.
  intros Hok. induction 1 as [|i vin Hi _ (b & Eb & Hb)]; cbn [inputs_loop]; [exists false; split; [done|]; split; [done|]; intros (i & Hi & _); by apply elem_of_nil in Hi|].
  unfold contains_outpoint. destruct (contains_spec f (outpoint_key (CTxIn.prevout i)) Hok) as (x & -> & Hx). cbn [res_bind].
  destruct (data_loop_start f (CTxIn.scriptSig i) Hok Hi) as (y & Ey & Hy). destruct x; [exists true|rewrite Ey; cbn [res_bind]; destruct y; [exists true|exists b]]; (split; [done|]).
  - split; [|done]. intros _. exists i. split; [left|]. left. by apply Hx.
  - split; [|done]. intros _. exists i. split; [left|]. right. by apply Hy.
  - rewrite Hb. split; [intros (j & Hj & H); exists j; split; [by right|done]|]. intros (j & Hj & H). apply elem_of_cons in Hj as [->|Hj]; [|by exists j].
    destruct H as [H|H]; [by apply Hx in H|by apply Hy in H].
Qed.

Definition scripts_ok (tx : CTransaction) : Prop :=
  Forall (fun o => script_ok (CTxOut.scriptPubKey o)) (vout tx) /\ Forall (fun i => script_ok (CTxIn.scriptSig i)) (vin tx) /\ zlen (vout tx) < 2 ^ 32.

(** What makes a transaction relevant. *)
Definition touches (f : t) (tx : CTransaction) : Prop :=
  marked f (pn_bytes (GetHash tx)) \/ (exists o, o ∈ vout tx /\ data_in f (CTxOut.scriptPubKey o)) \/ exists i, i ∈ vin tx /\ data_in_input f i.

Lemma touches_extends f f' tx : extends f f' -> touches f tx -> touches f' tx.
Proof.
  intros Hext [H|[(o & Ho & H)|(i & Hi & [H|H])]].
  - left. by apply Hext.
  - right; left. exists o. split; [done|]. by eapply data_in_extends.
  - right; right. exists i. split; [done|]. left. by apply Hext.
  - right; right. exists i. split; [done|]. right. by eapply data_in_extends.
Qed.

Lemma IsRelevantAndUpdate_spec f tx : filter_ok f -> scripts_ok tx ->
  exists b f', IsRelevantAndUpdate be tx f = Ok (b, f') /\ filter_ok f' /\ extends f f' /\ (touches f tx -> b = true) /\ (b = true -> touches f' tx) /\
    forall j o, vout tx !! j = Some o -> data_in f (CTxOut.scriptPubKey o) -> updates_all f -> marked f' (outpoint_key (COutPoint.mk (GetHash tx) (Z.of_nat j))).
Proof.
  intros Hok (Ho & Hi & Hl). unfold IsRelevantAndUpdate. destruct (isFull f) eqn:Ef.
  { exists true, f. split; [done|]. split; [done|]. split; [reflexivity|]. split; [done|]. split; [left; by apply full_marked|]. intros. by apply full_marked. }
  destruct (isEmpty f) eqn:Ee.
  { assert (forall key, ~ marked f key) as Hno by (intros key; by apply empty_unmarked). exists false, f. split; [done|]. split; [done|]. split; [reflexivity|]. split; [|split; [done|]].
    - intros [H|[(o & _ & o' & d & _ & _ & H)|(i & _ & [H|(o' & d & _ & _ & H)])]]; by apply Hno in H.
    - intros j o _ (o' & d & _ & _ & H). by apply Hno in H. }
  unfold contains_hash. destruct (contains_spec f (pn_bytes (GetHash tx)) Hok) as (x & -> & Hx). cbn [res_bind].
  destruct (outputs_loop_spec (GetHash tx) (vout tx) 0 x f Hok Ho) as (b & f1 & -> & Hok1 & Hext & B1 & B2 & B3); [lia|lia|]. cbn [res_bind].
  assert (forall j o, vout tx !! j = Some o -> data_in f (CTxOut.scriptPubKey o) -> updates_all f -> marked f1 (outpoint_key (COutPoint.mk (GetHash tx) (Z.of_nat j)))) as Hall.
  { intros j o E Hd Hu. replace (Z.of_nat j) with (0 + Z.of_nat j) by lia. by apply (B3 j o). }
  destruct b.
  - exists true, f1. split_and!; try done. intros _. destruct (B2 eq_refl) as [->|H]; [left; apply Hext; by apply Hx|by right; left].
  - destruct (inputs_loop_spec f1 Hok1 (vin tx) Hi) as (y & -> & Hy). cbn [res_bind]. exists y, f1. split_and!; try done; [|intros ->; right; right; by apply Hy].
    intros [H|[(o & Hin & H)|(i & Hin & H)]].
    + apply Hx in H as ->. by specialize (B1 eq_refl).
    + apply list_elem_of_lookup in Hin as [j Hj]. by destruct (B3 j o Hj H).
    + apply Hy. exists i. split; [done|]. destruct H as [H|H]; [left; by apply Hext|right; by eapply data_in_extends].
Qed.
End spec.

(** ** Properties *)

Inductive bloom_op := Insert (vKey : bytes) | Update.
Definition bloom_step (be : bool) (o : bloom_op) (f : t) : res t := match o with Insert vKey => insert be vKey f | Update => Ok (UpdateEmptyFull f) end.
Fixpoint bloom_run (be : bool) (ops : list bloom_op) (f : t) : res t :=
  match ops with
  | [] => Ok f
  | o :: ops => let? f := bloom_step be o f in bloom_run be ops f
  end.

Lemma contains_marked be f key : filter_ok f -> contains be key f = Ok true <-> marked be f key.
Proof. intros Hok. destruct (contains_spec be f key Hok) as (b & -> & <-). split; [by intros [= ->]|by intros ->]. Qed.

Lemma bloom_run_spec be ops : forall f, filter_ok f -> exists f', bloom_run be ops f = Ok f' /\ filter_ok f' /\ extends be f f' /\ forall key, Insert key ∈ ops -> marked be f' key.
Proof.
  induction ops as [|[key|] ops IH]; intros f Hok; cbn [bloom_run bloom_step].
  - exists f. split; [done|]. split; [done|]. split; [reflexivity|]. intros key Hin. by apply elem_of_nil in Hin.
  - destruct (insert_spec be f key Hok) as (f1 & -> & Hok1 & Hext1 & Hm). cbn [res_bind]. destruct (IH f1 Hok1) as (f' & -> & Hok' & Hext & Hin).
    exists f'. split; [done|]. split; [done|]. split; [by transitivity f1|]. intros k Hk. apply elem_of_cons in Hk as [[= ->]|Hk]; [by apply Hext|by apply Hin].
  - cbn [res_bind]. destruct (UpdateEmptyFull_spec be f Hok) as [Hok1 Hc]. destruct (IH _ Hok1) as (f' & -> & Hok' & Hext & Hin).
    exists f'. split; [done|]. split; [done|]. split; [|intros k Hk; apply elem_of_cons in Hk as [?|Hk]; [done|by apply Hin]].
    transitivity (UpdateEmptyFull f); [|done]. rewrite UpdateEmptyFull_flags. by split.
Qed.

(** A Bloom filter has no false negatives: after any sequence of insertions and
    of [UpdateEmptyFull], it contains every key it contained before and every key
    inserted; and a peer that reads it from any stream and calls
    [UpdateEmptyFull] has a filter that answers the same for every key. *)
Theorem bloom_keeps_keys (be : bool) (f : t) (ops : list bloom_op) : filter_ok f -> IsWithinSizeConstraints f = true -> in_u 32 (nTweak f) -> in_u 8 (nFlags f) ->
  exists f' r, bloom_run be ops f = Ok f' /\ (forall key, contains be key f = Ok true \/ Insert key ∈ ops -> contains be key f' = Ok true) /\
    (forall (S : Type) (H1 : Stream S) (H2 : StreamLaws S), reads (Codec.Unserialize (codec make_default) S) (Codec.Serialize (codec f') f') r) /\
    forall key, contains be key (UpdateEmptyFull r) = contains be key f'.
Proof.
  intros Hok Hsz Ht Hf. destruct (bloom_run_spec be ops f Hok) as (f' & E & Hok' & Hext & Hin). destruct Hext as [X1 (X2 & X3 & X4) X5].
  apply andb_true_iff in Hsz as [Hsz _]. apply Z.leb_le in Hsz.
  exists f', (mk (vData f') (isFull make_default) (isEmpty make_default) (nHashFuncs f') (nTweak f') (nFlags f')). split; [done|]. split; [|split].
  - intros key Hk. apply contains_marked; [done|]. destruct Hk as [Hk|Hk]; [|by apply Hin]. apply X5. by apply contains_marked.
  - intros S H1 H2. refine (c_map_reads _ _ _ S (vData f', (nHashFuncs f', (nTweak f', nFlags f'))) _ _). destruct Hok'.
    refine (law_reads (Lawful := c_pair_lawful c_bytes _ _ _ c_bytes_lawful (c_pair_lawful c_u32 _ _ _ c_u32_lawful (c_pair_lawful c_u32 _ _ _ c_u32_lawful c_u8_lawful))) S _ _).
    cbn [fst snd]. rewrite X3, X4. split_and!; try done; [|unfold in_u; lia]. unfold blob_ok, MAX_SIZE. rewrite X1. unfold MAX_BLOOM_FILTER_SIZE, zlen in Hsz. lia.
  - intros key. destruct Hok' as [Y1 Y2 Y3 Y4 Y5] eqn:Eok. apply contains_same; [done|by apply UpdateEmptyFull_ok|]. by rewrite UpdateEmptyFull_flags.
Qed.

Lemma bloom_keeps_keys_witness :
  let f := make 64 3 5 0 in
  exists f', bloom_run true [Insert [1; 2; 3]; Update; Insert [4]] f = Ok f' /\ contains true [4] f' = Ok true /\ contains true [1; 2; 3] f' = Ok true /\ contains true [5] f' = Ok false.
Proof.
  intros f. assert (filter_ok f) as Hok by (split; [repeat constructor; done|by vm_compute|by vm_compute|done|repeat constructor; done]).
  destruct (bloom_keeps_keys true f [Insert [1; 2; 3]; Update; Insert [4]] Hok) as (f' & r & E & H & _); [by vm_compute|by vm_compute|by vm_compute|].
  exists f'. split; [exact E|]. split; [apply H; right; right; right; left|]. split; [apply H; right; left|]. vm_compute in E. injection E as <-. vm_compute. reflexivity.
Defined.

(** An element of the script is in the filter; what makes a transaction relevant. *)
Definition element_in (be : bool) (f : t) (script : CScript) : Prop := exists o d, (o, d) ∈ ops script /\ d <> [] /\ contains be d f = Ok true.
Definition relevant (be : bool) (f : t) (tx : CTransaction) : Prop :=
  contains_hash be (GetHash tx) f = Ok true \/
  (exists o, o ∈ vout tx /\ element_in be f (CTxOut.scriptPubKey o)) \/
  (exists i, i ∈ vin tx /\ (contains_outpoint be (CTxIn.prevout i) f = Ok true \/ element_in be f (CTxIn.scriptSig i))).

Lemma element_in_data be f s : filter_ok f -> element_in be f s <-> data_in be f s.
Proof. intros Hok. split; intros (o & d & H1 & H2 & H3); exists o, d; (split; [done|]); (split; [done|]); by apply (contains_marked be f d Hok). Qed.

Lemma relevant_touches be f tx : filter_ok f -> relevant be f tx <-> touches be f tx.
Proof.
  intros Hok. unfold relevant, touches, data_in_input. unfold contains_hash, contains_outpoint. rewrite (contains_marked be f _ Hok).
  setoid_rewrite (contains_marked be f _ Hok). by setoid_rewrite (element_in_data be f _ Hok).
Qed.

(** C34: [IsRelevantAndUpdate] returns on every transaction; it is true for every
    transaction whose id, or an element of whose output scripts, or a spent
    outpoint or an element of whose input scripts is in the filter, and only for
    those with one in the filter it leaves; that filter contains what the first
    did, and with [BLOOM_UPDATE_ALL] every transaction that spends an output that
    matched is relevant to it. *)
Theorem relevant_transactions (be : bool) (f : t) (tx : CTransaction) : filter_ok f -> scripts_ok tx ->
  exists b f', IsRelevantAndUpdate be tx f = Ok (b, f') /\ (forall key, contains be key f = Ok true -> contains be key f' = Ok true) /\
    (relevant be f tx -> b = true) /\ (b = true -> relevant be f' tx) /\
    (Z.land (nFlags f) BLOOM_UPDATE_MASK = BLOOM_UPDATE_ALL -> forall j o tx', vout tx !! j = Some o -> element_in be f (CTxOut.scriptPubKey o) ->
      scripts_ok tx' -> (exists i, i ∈ vin tx' /\ CTxIn.prevout i = COutPoint.mk (GetHash tx) (Z.of_nat j)) -> exists f'', IsRelevantAndUpdate be tx' f' = Ok (true, f'')).
Proof.
  intros Hok Htx. destruct (IsRelevantAndUpdate_spec be f tx Hok Htx) as (b & f' & E & Hok' & Hext & B1 & B2 & B3). exists b, f'. split; [done|].
  split; [intros key Hk; apply contains_marked; [done|]; apply Hext; by apply contains_marked|].
  split; [intros H; apply B1; by apply relevant_touches|]. split; [intros H; apply relevant_touches; auto|].
  intros Hall j o tx' Ej Hel Htx' (i & Hi & Ei). destruct (IsRelevantAndUpdate_spec be f' tx' Hok' Htx') as (b' & f'' & E' & _ & _ & B4 & _).
  exists f''. rewrite B4 in E'; [done|]. right; right. exists i. split; [done|]. left. rewrite Ei. eapply B3; [done|by apply element_in_data|done].
Qed.

Lemma relevant_transactions_witness :
  let f := mk [24; 0; 0; 0; 0; 0; 1; 0] false false 3 5 1 in
  let h i := [i; 0; 0; 0; 0; 0; 0; 0] in
  let tx1 := mk_CTransaction (mk_tx 1 [] [CTxOut.mk 10 [1; 9]] 0) (h 1) in
  let tx2 := mk_CTransaction (mk_tx 1 [CTxIn.make_at (h 1) 0 [] 0] [] 0) (h 2) in
  contains true [9] f = Ok true /\ IsRelevantAndUpdate true tx2 f = Ok (false, f) /\
  exists f' f'', IsRelevantAndUpdate true tx1 f = Ok (true, f') /\ IsRelevantAndUpdate true tx2 f' = Ok (true, f'').
Proof.
  intros f h tx1 tx2. assert (filter_ok f) as Hok by (split; [repeat constructor; done|by vm_compute|by vm_compute|done|done]).
  assert (contains true [9] f = Ok true) as Hc by (vm_compute; reflexivity).
  assert (element_in true f [1; 9]) as Hel by (exists 1, [9]; split; [left|]; split; [discriminate|exact Hc]).
  destruct (relevant_transactions true f tx1 Hok) as (b & f' & E & _ & B1 & _ & B2); [split_and!; [repeat constructor; done|constructor|by vm_compute]|].
  split; [exact Hc|]. split; [vm_compute; reflexivity|].
  destruct (B2 eq_refl 0%nat (CTxOut.mk 10 [1; 9]) tx2 eq_refl Hel) as (f'' & E2); [split_and!; [constructor|repeat constructor; done|by vm_compute]|exists (CTxIn.make_at (h 1) 0 [] 0); split; [left|reflexivity]|].
  exists f', f''. split; [|exact E2]. rewrite E. rewrite B1; [reflexivity|]. right; left. exists (CTxOut.mk 10 [1; 9]). split; [left|exact Hel].
Defined.
