(* ===== verification/RollingBloom.v ===== *)
(** Rolling Bloom filters: [CRollingBloomFilter] of src/sige/src/bloom.h and
    bloom.cpp.

    Two bits stand for an element: zero, or the generation of one to three in which
    it was set last. What the constructor computes in floating point and the random
    tweak are arguments of the models. *)

From S2P Require Import Prelude Bytes BaseUint UintBytes Uint256 Prevector Bloom.

Module CRollingBloomFilter.
Record t := mk {
  nEntriesPerGeneration : Z;
  nEntriesThisGeneration : Z;
  nGeneration : Z;
  data : list Z;
  nTweak : Z;
  nHashFuncs : Z;
}.

Definition with_data (f : t) (d : list Z) : t :=
  mk (nEntriesPerGeneration f) (nEntriesThisGeneration f) (nGeneration f) d (nTweak f) (nHashFuncs f).

Definition reset (rand : Z) (f : t) : t :=
  mk (nEntriesPerGeneration f) 0 1 (map (fun _ => 0) (data f)) rand (nHashFuncs f).

(** [nFuncs] and [nFilterBits] are rounded from the false positive rate; the object's
    other fields are whatever they were before [reset]. *)
Definition make (nElements nFuncs nFilterBits rand : Z) : t :=
  reset rand (mk (swrap 32 (u32 (nElements + 1) / 2)) 0 0
    (replicate (Z.to_nat (u32 (Z.shiftl (u32 (nFilterBits + 63) / 64) 1))) 0) 0 (Z.max 1 (Z.min nFuncs 50))).

Section filter.
Context (WORDS_BIGENDIAN : bool).

Definition RollingBloomHash (nHashNum nTweak : Z) (vDataToHash : bytes) : Z :=
  MurmurHash3 WORDS_BIGENDIAN (u32 (u32 (nHashNum * 0xFBA4C795) + nTweak)) vDataToHash.

(** [for (p = 0; p < data.size(); p += 2)], pair by pair. *)
Fixpoint wipe_loop (nGenerationMask1 nGenerationMask2 : Z) (data : list Z) : res (list Z) :=
  match data with
  | [] => Ok []
  | [_] => Undef
  | p1 :: p2 :: data =>
      let mask := Z.lor (Z.lxor p1 nGenerationMask1) (Z.lxor p2 nGenerationMask2) in
      let? data := wipe_loop nGenerationMask1 nGenerationMask2 data in
      Ok (Z.land p1 mask :: Z.land p2 mask :: data)
  end.

(** The next generation, which starts without entries. *)
Definition next_generation (f : t) : res t :=
  let nGeneration := nGeneration f + 1 in
  let nGeneration := if nGeneration =? 4 then 1 else nGeneration in
  let nGenerationMask1 := u64 (u64 (Z.lnot (Z.land nGeneration 1)) + 1) in
  let nGenerationMask2 := u64 (u64 (Z.lnot (Z.shiftr nGeneration 1)) + 1) in
  let? d := wipe_loop nGenerationMask1 nGenerationMask2 (data f) in
  Ok (mk (nEntriesPerGeneration f) 0 nGeneration d (nTweak f) (nHashFuncs f)).

(** [data[at] = (data[at] & ~(((uint64_t)1) << bit)) | value << bit] *)
Definition put_bit (d : list Z) (at_ bit value : Z) : res (list Z) :=
  let? x := res_of_option (d !! Z.to_nat at_) in
  Ok (<[Z.to_nat at_ := Z.lor (Z.land x (u64 (Z.lnot (Z.shiftl 1 bit)))) (u64 (Z.shiftl value bit))]> d).

(** The bit and the position of a hash; the filter must not be empty. *)
Definition place (f : t) (n : Z) (vKey : bytes) : res (Z * Z) :=
  let h := RollingBloomHash n (nTweak f) vKey in
  if zlen (data f) =? 0 then Undef else Ok (Z.land h 0x3F, u32 (Z.shiftr h 6 mod zlen (data f))).

Fixpoint insert_loop (m : nat) (n : Z) (vKey : bytes) (f : t) : res t :=
  match m with
  | O => Ok f
  | S m =>
      let? (bit, pos) := place f n vKey in
      let? d := put_bit (data f) (Z.land pos (u32 (Z.lnot 1))) bit (Z.land (nGeneration f) 1) in
      let? d := put_bit d (Z.lor pos 1) bit (Z.shiftr (nGeneration f) 1) in
      insert_loop m (n + 1) vKey (with_data f d)
  end.

Definition insert (vKey : bytes) (f : t) : res t :=
  let? f := if nEntriesThisGeneration f =? nEntriesPerGeneration f then next_generation f else Ok f in
  let f := mk (nEntriesPerGeneration f) (nEntriesThisGeneration f + 1) (nGeneration f) (data f) (nTweak f) (nHashFuncs f) in
  insert_loop (Z.to_nat (nHashFuncs f)) 0 vKey f.

Fixpoint contains_loop (m : nat) (n : Z) (vKey : bytes) (f : t) : res bool :=
  match m with
  | O => Ok true
  | S m =>
      let? (bit, pos) := place f n vKey in
      let? x := res_of_option (data f !! Z.to_nat (Z.land pos (u32 (Z.lnot 1)))) in
      let? y := res_of_option (data f !! Z.to_nat (Z.lor pos 1)) in
      if Z.land (Z.shiftr (Z.lor x y) bit) 1 =? 0 then Ok false else contains_loop m (n + 1) vKey f
  end.

Definition contains (vKey : bytes) (f : t) : res bool := contains_loop (Z.to_nat (nHashFuncs f)) 0 vKey f.

Definition insert_hash (hash : uint256) : t -> res t := insert (pn_bytes hash).
Definition contains_hash (hash : uint256) : t -> res bool := contains (pn_bytes hash).
End filter.
End CRollingBloomFilter.

Import CRollingBloomFilter.

(** ** The generation of an element *)

(** The element of bit [b] in the pair of words [w]. *)
Definition generation (d : list Z) (w b : Z) : Z :=
  Z.b2z (Z.testbit (d !!! Z.to_nat (2 * w)) b) + 2 * Z.b2z (Z.testbit (d !!! Z.to_nat (2 * w + 1)) b).

Lemma generation_head x y d b : generation (x :: y :: d) 0 b = Z.b2z (Z.testbit x b) + 2 * Z.b2z (Z.testbit y b).
Proof. done. Qed.

Definition words_ok (d : list Z) : Prop := Forall (in_u 64) d /\ Z.even (zlen d) = true /\ 0 < zlen d < 2 ^ 32.

Lemma generation_bits g : 1 <= g <= 3 -> Z.land g 1 = Z.b2z (Z.testbit g 0) /\ Z.shiftr g 1 = Z.b2z (Z.testbit g 1) /\ g = Z.b2z (Z.testbit g 0) + 2 * Z.b2z (Z.testbit g 1).
Proof. intros Hg. assert (g = 1 \/ g = 2 \/ g = 3) as [->|[->| ->]] by lia; done. Qed.

Lemma mask_bits c : u64 (u64 (Z.lnot (Z.b2z c)) + 1) = if c then 2 ^ 64 - 1 else 0.
Proof. by destruct c. Qed.

Lemma all_ones b : 0 <= b < 64 -> Z.testbit (2 ^ 64 - 1) b = true.
Proof. intros Hb. change (2 ^ 64 - 1) with (Z.ones 64). by apply Z.ones_spec_low. Qed.

Lemma mask_test c x b : 0 <= b < 64 -> Z.testbit (Z.lxor x (if c : bool then 2 ^ 64 - 1 else 0)) b = negb (Bool.eqb (Z.testbit x b) c).
Proof. intros Hb. rewrite Z.lxor_spec. destruct c; [rewrite all_ones by done|rewrite Z.bits_0]; by destruct (Z.testbit x b). Qed.

(** Wiping clears the elements of the generation that comes again. *)
Lemma wipe_spec g : 1 <= g <= 3 -> forall n d, length d = (2 * n)%nat -> Forall (in_u 64) d ->
  exists d', wipe_loop (u64 (u64 (Z.lnot (Z.land g 1)) + 1)) (u64 (u64 (Z.lnot (Z.shiftr g 1)) + 1)) d = Ok d' /\ length d' = length d /\ Forall (in_u 64) d' /\
    forall w b, 0 <= w < Z.of_nat n -> 0 <= b < 64 -> generation d' w b = if generation d w b =? g then 0 else generation d w b.
Proof.
  intros Hg. destruct (generation_bits g Hg) as (-> & -> & Eg). rewrite !mask_bits. set (g0 := Z.testbit g 0) in *. set (g1 := Z.testbit g 1) in *.
  induction n as [|n IH]; intros d Hl Hd.
  { destruct d; [|done]. exists []. split_and!; try done. intros; lia. }
  destruct d as [|p1 [|p2 d]]; [done|cbn in Hl; lia|]. apply Forall_cons_1 in Hd as [H1 [H2 Hd2]%Forall_cons_1]. cbn [wipe_loop].
  destruct (IH d ltac:(cbn in Hl; lia) Hd2) as (d' & -> & L & D & G). cbn [res_bind]. eexists. split; [done|]. split; [cbn; lia|]. split.
  - constructor; [|constructor; [|done]]; rewrite Z.land_comm; by apply land_range.
  - intros w b Hw Hb. destruct (decide (w = 0)) as [->|].
    + rewrite !generation_head. rewrite !Z.land_spec, Z.lor_spec, !mask_test by done. rewrite Eg. generalize g0 g1 (Z.testbit p1 b) (Z.testbit p2 b). clear. intros g0 g1 t1 t2. destruct t1, t2, g0, g1; done.
    + unfold generation in *. replace (Z.to_nat (2 * w)) with (S (S (Z.to_nat (2 * (w - 1))))) by lia. replace (Z.to_nat (2 * w + 1)) with (S (S (Z.to_nat (2 * (w - 1) + 1)))) by lia.
      apply G; lia.
Qed.

Lemma cleared_bit x b c : 0 <= b < 64 -> 0 <= c < 64 -> Z.testbit (Z.land x (u64 (Z.lnot (Z.shiftl 1 b)))) c = Z.testbit x c && negb (c =? b).
Proof.
  intros Hb Hc. rewrite Z.land_spec. f_equal. unfold wrap. rewrite Z.mod_pow2_bits_low, Z.lnot_spec, Z.shiftl_mul_pow2, Z.mul_1_l, Z.pow2_bits_eqb by lia. f_equal. apply Z.eqb_sym.
Qed.

(** One bit of one word. *)
Lemma put_bit_spec d p b (v : bool) : Forall (in_u 64) d -> 0 <= p < zlen d -> 0 <= b < 64 -> exists d', put_bit d p b (Z.b2z v) = Ok d' /\ length d' = length d /\ Forall (in_u 64) d' /\
  forall q c, 0 <= q -> 0 <= c < 64 -> Z.testbit (d' !!! Z.to_nat q) c = if (q =? p) && (c =? b) then v else Z.testbit (d !!! Z.to_nat q) c.
Proof.
  intros Hd Hp Hb. unfold put_bit. destruct (lookup_lt_is_Some_2 d (Z.to_nat p)) as [x Ex]; [unfold zlen in Hp; lia|]. rewrite Ex. cbn [res_of_option res_bind].
  pose proof (Forall_lookup_1 _ _ _ _ Hd Ex) as Hx. eexists. split; [done|]. split; [apply length_insert|].
  assert (in_u 64 (Z.shiftl (Z.b2z v) b)) as Hv.
  { rewrite Z.shiftl_mul_pow2 by lia. unfold in_u. pose proof (Z.pow_le_mono_r 2 b 63 ltac:(lia) ltac:(lia)). destruct v; cbn [Z.b2z]; lia. }
  rewrite (wrap_small 64 (Z.shiftl _ _)) by done. split.
  { apply Forall_insert; [done|]. apply lor_range; [lia| |done]. rewrite Z.land_comm. by apply land_range. }
  intros q c Hq Hc. rewrite insert_lookup_total by (unfold zlen in Hp; lia). apply list_lookup_total_correct in Ex.
  destruct (Z.eqb_spec q p) as [->|]; cbn [andb]; [rewrite decide_True by done|rewrite decide_False by lia; done].
  rewrite Z.lor_spec, cleared_bit, Z.shiftl_spec, Ex by lia. destruct (Z.eqb_spec c b) as [->|]; cbn [negb].
  - by rewrite andb_false_r, Z.sub_diag, Z.b2z_bit0.
  - rewrite andb_true_r. assert (Z.testbit (Z.b2z v) (c - b) = false) as ->; [|by rewrite orb_false_r].
    destruct (Z.ltb_spec c b); [apply Z.testbit_neg_r; lia|]. apply (bits_above 1); [unfold in_u; destruct v; cbn; lia|lia].
Qed.

(** The two words of a position. *)
Lemma pair_index pos : 0 <= pos < 2 ^ 32 -> Z.land pos (u32 (Z.lnot 1)) = 2 * (pos / 2) /\ Z.lor pos 1 = 2 * (pos / 2) + 1.
Proof.
  intros Hp. assert (forall i, 0 <= i -> Z.testbit (2 * (pos / 2)) i = negb (i =? 0) && Z.testbit pos i) as Hb.
  { intros i Hi. destruct (Z.eqb_spec i 0) as [->|]; [by rewrite Z.testbit_even_0|]. replace i with (Z.succ (i - 1)) at 1 by lia. rewrite Z.testbit_even_succ by lia.
    rewrite <- Z.div2_div, Z.div2_spec, Z.shiftr_spec by lia. cbn [negb andb]. f_equal. lia. }
  split; apply Z.bits_inj'; intros i Hi.
  - rewrite Z.land_spec, Hb, andb_comm by done. destruct (Z.ltb_spec i 32).
    + f_equal. unfold wrap. rewrite Z.mod_pow2_bits_low, Z.lnot_spec by lia. change 1 with (2 ^ 0). rewrite Z.pow2_bits_eqb by lia. by rewrite Z.eqb_sym.
    + rewrite (bits_above 32 pos) by (done || lia). by rewrite !andb_false_r.
  - rewrite Z.lor_spec. replace (2 * (pos / 2) + 1) with (Z.lor (2 * (pos / 2)) 1).
    + rewrite Z.lor_spec, Hb by done. change 1 with (2 ^ 0). rewrite Z.pow2_bits_eqb by lia. destruct (Z.eqb_spec 0 i), (Z.eqb_spec i 0); try lia; cbn [negb andb]; by rewrite ?orb_true_r, ?orb_false_r.
    + rewrite <- Z.lxor_lor, <- Z.add_nocarry_lxor; [done|..]; apply Z.bits_inj'; intros j Hj; rewrite Z.land_spec, Hb, Z.bits_0 by done; change 1 with (2 ^ 0); rewrite Z.pow2_bits_eqb by lia;
        destruct (Z.eqb_spec j 0), (Z.eqb_spec 0 j); try lia; cbn; by rewrite ?andb_false_r.
Qed.

Lemma set_generation d pos bit g : words_ok d -> 0 <= pos < zlen d -> 0 <= bit < 64 -> 1 <= g <= 3 ->
  exists d1 d2, put_bit d (Z.land pos (u32 (Z.lnot 1))) bit (Z.land g 1) = Ok d1 /\ put_bit d1 (Z.lor pos 1) bit (Z.shiftr g 1) = Ok d2 /\ words_ok d2 /\ zlen d2 = zlen d /\
    forall w b, 0 <= w -> 0 <= b < 64 -> generation d2 w b = if (w =? pos / 2) && (b =? bit) then g else generation d w b.
Proof.
  intros (Hd & He & Hs) Hp Hb Hg. destruct (generation_bits g Hg) as (-> & -> & Eg). destruct (pair_index pos) as [-> ->]; [lia|].
  apply Z.even_spec in He as [h He]. pose proof (Z.div_mod pos 2 ltac:(lia)). pose proof (Z.mod_pos_bound pos 2 ltac:(lia)).
  destruct (put_bit_spec d (2 * (pos / 2)) bit (Z.testbit g 0) Hd) as (d1 & E1 & L1 & F1 & T1); [lia|done|].
  destruct (put_bit_spec d1 (2 * (pos / 2) + 1) bit (Z.testbit g 1) F1) as (d2 & E2 & L2 & F2 & T2); [unfold zlen in *; lia|done|].
  exists d1, d2. split; [done|]. split; [done|]. assert (zlen d2 = zlen d) as El by (unfold zlen; lia). split; [split_and!; [done|rewrite El, He; apply Z.even_mul|lia..]|]. split; [done|].
  intros w b Hw Hb'. unfold generation. rewrite !T2, !T1 by lia. destruct (Z.eqb_spec w (pos / 2)) as [->|]; cbn [andb].
  - rewrite (proj2 (Z.eqb_neq (2 * (pos / 2)) (2 * (pos / 2) + 1))), (proj2 (Z.eqb_neq (2 * (pos / 2) + 1) (2 * (pos / 2)))), !Z.eqb_refl by lia. cbn [andb]. by destruct (b =? bit).
  - rewrite (proj2 (Z.eqb_neq (2 * w) (2 * (pos / 2) + 1))), (proj2 (Z.eqb_neq (2 * w) (2 * (pos / 2)))), (proj2 (Z.eqb_neq (2 * w + 1) (2 * (pos / 2) + 1))), (proj2 (Z.eqb_neq (2 * w + 1) (2 * (pos / 2)))) by lia. done.
Qed.

Section spec.
Context (be : bool).

(** The pair of words and the bit of a key under a function. *)
Definition bit_of (tweak n : Z) (key : bytes) : Z := Z.land (RollingBloomHash be n tweak key) 0x3F.
Definition pos_of (size tweak n : Z) (key : bytes) : Z := u32 (Z.shiftr (RollingBloomHash be n tweak key) 6 mod size).
Definition generation_of (d : list Z) (tweak n : Z) (key : bytes) : Z := generation d (pos_of (zlen d) tweak n key / 2) (bit_of tweak n key).

Lemma place_spec f n key : words_ok (data f) ->
  place be f n key = Ok (bit_of (nTweak f) n key, pos_of (zlen (data f)) (nTweak f) n key) /\
  0 <= bit_of (nTweak f) n key < 64 /\ 0 <= pos_of (zlen (data f)) (nTweak f) n key < zlen (data f).
Proof.
  intros (_ & _ & Hs). unfold place. rewrite (proj2 (Z.eqb_neq _ _)) by lia. split; [done|]. split.
  - unfold bit_of. change 63 with (Z.ones 6). rewrite Z.land_ones by lia. apply Z.mod_pos_bound. lia.
  - unfold pos_of. set (x := Z.shiftr _ _). pose proof (Z.mod_pos_bound x (zlen (data f)) ltac:(lia)). rewrite wrap_small by (unfold in_u; lia). done.
Qed.

Lemma insert_loop_ok key : forall m n f, words_ok (data f) -> 1 <= nGeneration f <= 3 ->
  exists d, insert_loop be m n key f = Ok (with_data f d) /\ words_ok d /\ zlen d = zlen (data f) /\
    (forall w b, 0 <= w -> 0 <= b < 64 -> generation d w b = generation (data f) w b \/ generation d w b = nGeneration f) /\
    (forall j, n <= j < n + Z.of_nat m -> generation_of d (nTweak f) j key = nGeneration f).
Proof.
  induction m as [|m IH]; intros n f Hd Hg; cbn [insert_loop].
  { exists (data f). split; [by destruct f|]. split_and!; try done; [by left|]. intros; lia. }
  destruct (place_spec f n key Hd) as (-> & Hb & Hp). cbn [res_bind].
  destruct (set_generation (data f) (pos_of (zlen (data f)) (nTweak f) n key) (bit_of (nTweak f) n key) (nGeneration f) Hd Hp Hb Hg) as (d1 & d2 & -> & E2 & W2 & L2 & G2).
  cbn [res_bind]. rewrite E2. cbn [res_bind]. destruct (IH (n + 1) (with_data f d2)) as (d & -> & W & L & G & GK); [done|done|]. cbn [with_data data nGeneration nTweak] in *.
  exists d. split; [done|]. split; [done|]. split; [lia|]. split.
  - intros w b Hw Hb'. destruct (G w b Hw Hb') as [-> | ->]; [|by right]. rewrite G2 by done. case_bool; [by right|by left].
  - intros j Hj. destruct (decide (j = n)) as [->|]; [|apply GK; lia]. unfold generation_of. assert (0 <= pos_of (zlen d) (nTweak f) n key / 2) as Hw by (apply Z.div_pos; [rewrite L, L2|]; lia).
    destruct (G _ _ Hw Hb) as [-> | ->]; [|done]. rewrite G2 by done. rewrite L, L2, !Z.eqb_refl. done.
Qed.

Lemma generation_zero d w b : generation d w b <> 0 <-> Z.testbit (d !!! Z.to_nat (2 * w)) b || Z.testbit (d !!! Z.to_nat (2 * w + 1)) b = true.
Proof. unfold generation. by destruct (Z.testbit _ b), (Z.testbit _ b). Qed.

Lemma contains_loop_ok key f : words_ok (data f) -> forall m n, exists b, contains_loop be m n key f = Ok b /\
  (b = true <-> forall j, n <= j < n + Z.of_nat m -> generation_of (data f) (nTweak f) j key <> 0).
Proof.
  intros Hd. induction m as [|m IH]; intros n; cbn [contains_loop]; [exists true; split; [done|]; split; [intros; lia|done]|].
  destruct (place_spec f n key Hd) as (-> & Hb & Hp). cbn [res_bind]. destruct Hd as (Hd & He & Hs). apply Z.even_spec in He as [h He].
  set (pos := pos_of (zlen (data f)) (nTweak f) n key) in *. destruct (pair_index pos) as [-> ->]; [lia|]. pose proof (Z.div_mod pos 2 ltac:(lia)). pose proof (Z.mod_pos_bound pos 2 ltac:(lia)).
  destruct (lookup_lt_is_Some_2 (data f) (Z.to_nat (2 * (pos / 2)))) as [x Ex]; [unfold zlen in *; lia|]. destruct (lookup_lt_is_Some_2 (data f) (Z.to_nat (2 * (pos / 2) + 1))) as [y Ey]; [unfold zlen in *; lia|].
  rewrite Ex, Ey. cbn [res_of_option res_bind]. assert (Z.land (Z.shiftr (Z.lor x y) (bit_of (nTweak f) n key)) 1 = Z.b2z (Z.testbit x (bit_of (nTweak f) n key) || Z.testbit y (bit_of (nTweak f) n key))) as ->.
  { rewrite <- Z.lor_spec, Z.testbit_spec' by lia. change 1 with (Z.ones 1). rewrite Z.land_ones, Z.shiftr_div_pow2 by lia. done. }
  pose proof (generation_zero (data f) (pos / 2) (bit_of (nTweak f) n key)) as Hz. rewrite (list_lookup_total_correct _ _ _ Ex), (list_lookup_total_correct _ _ _ Ey) in Hz.
  destruct (_ || _); cbn [Z.b2z Z.eqb].
  - destruct (IH (n + 1)) as (b & -> & Hb'). exists b. split; [done|]. rewrite Hb'. split; intros Hall j Hj; [|apply Hall; lia]. destruct (decide (j = n)) as [->|]; [by apply Hz|]. apply Hall. lia.
  - exists false. split; [done|]. split; [done|]. intros Hall. apply Hz. apply Hall. lia.
Qed.

(** Every element of the key was set at most [k] generations ago. *)
Definition fresh (k g v : Z) : Prop := 1 <= v <= 3 /\ (g - v) mod 3 <= k.
Definition kept (k : Z) (f : t) (key : bytes) : Prop := forall n, 0 <= n < nHashFuncs f -> fresh k (nGeneration f) (generation_of (data f) (nTweak f) n key).

Record rolling_ok (f : t) : Prop := {
  ro_words : words_ok (data f);
  ro_generation : 1 <= nGeneration f <= 3;
  ro_funcs : 1 <= nHashFuncs f < 2 ^ 31;
  ro_entries : 0 <= nEntriesThisGeneration f <= nEntriesPerGeneration f /\ 1 <= nEntriesPerGeneration f < 2 ^ 31;
}.

(** The keys inserted, the last first: those of this generation, of the two before it and the older ones. *)
Definition remembers (f : t) (hist : list bytes) : Prop := exists cur p1 p2 old, hist = cur ++ p1 ++ p2 ++ old /\
  zlen cur = nEntriesThisGeneration f /\ (p2 ++ old = [] \/ zlen p1 = nEntriesPerGeneration f) /\ (old = [] \/ zlen p2 = nEntriesPerGeneration f) /\
  Forall (kept 0 f) cur /\ Forall (kept 1 f) p1 /\ Forall (kept 2 f) p2.

Lemma fresh_mono k k' g v : k <= k' -> fresh k g v -> fresh k' g v.
Proof. intros Hk [H1 H2]. split; [done|lia]. Qed.

Lemma generation_place d tweak n key : words_ok d -> 0 <= pos_of (zlen d) tweak n key / 2 < zlen d / 2 /\ 0 <= bit_of tweak n key < 64.
Proof.
  intros Hd. destruct (place_spec (mk 0 0 0 d tweak 0) n key Hd) as (_ & Hb & Hp). cbn [data nTweak] in *. split; [|done]. destruct Hd as (_ & He & _). apply Z.even_spec in He as [h He].
  pose proof (Z.div_mod (pos_of (zlen d) tweak n key) 2 ltac:(lia)). pose proof (Z.mod_pos_bound (pos_of (zlen d) tweak n key) 2 ltac:(lia)). assert (zlen d / 2 = h) as -> by (rewrite He, (Z.mul_comm 2 h); apply Z.div_mul; lia). lia.
Qed.

(** A full generation gives way to the next. *)
Lemma next_generation_ok f hist : rolling_ok f -> nEntriesThisGeneration f = nEntriesPerGeneration f -> remembers f hist ->
  exists f', next_generation f = Ok f' /\ rolling_ok f' /\ remembers f' hist /\ nEntriesThisGeneration f' = 0 /\
    nEntriesPerGeneration f' = nEntriesPerGeneration f /\ nHashFuncs f' = nHashFuncs f /\ nTweak f' = nTweak f /\ zlen (data f') = zlen (data f).
Proof.
  intros [Hw Hg Hf He] Hfull (cur & p1 & p2 & old & -> & C1 & C2 & C3 & K0 & K1 & K2). unfold next_generation. set (g := if nGeneration f + 1 =? 4 then 1 else nGeneration f + 1).
  assert (1 <= g <= 3 /\ (g = nGeneration f + 1 \/ (g = 1 /\ nGeneration f = 3))) as [Hg1 Hg2] by (subst g; destruct (Z.eqb_spec (nGeneration f + 1) 4); lia).
  pose proof Hw as (Hd & Hev & Hs). pose proof (proj1 (Z.even_spec _) Hev) as [h Hh].
  destruct (wipe_spec g Hg1 (Z.to_nat h) (data f)) as (d & E & L & D & G); [unfold zlen in Hh; lia|done|]. rewrite E. cbn [res_bind]. eexists. split; [done|].
  assert (zlen d = zlen (data f)) as Ld by (unfold zlen; lia).
  assert (forall k key, 0 <= k <= 1 -> kept k f key -> kept (k + 1) (mk (nEntriesPerGeneration f) 0 g d (nTweak f) (nHashFuncs f)) key) as Hk.
  { intros k key Hk Hkept n Hn. cbn [data nGeneration nTweak nHashFuncs] in *. destruct (Hkept n Hn) as [Hv Hage]. unfold generation_of in *. rewrite Ld.
    destruct (generation_place (data f) (nTweak f) n key Hw) as [Hp Hb]. assert (zlen (data f) / 2 = h) as E2 by (rewrite Hh, (Z.mul_comm 2 h); apply Z.div_mul; lia). rewrite E2 in Hp. rewrite G by lia. set (v := generation _ _ _) in *.
    pose proof (Z.div_mod (nGeneration f - v) 3 ltac:(lia)). pose proof (Z.mod_pos_bound (nGeneration f - v) 3 ltac:(lia)).
    pose proof (Z.div_mod (g - v) 3 ltac:(lia)). pose proof (Z.mod_pos_bound (g - v) 3 ltac:(lia)).
    destruct (Z.eqb_spec v g); [lia|]. split; lia. }
  split; [split; cbn; try done; [by unfold words_ok; rewrite Ld|lia]|]. split; [|done].
  exists [], cur, p1, (p2 ++ old). cbn [nEntriesThisGeneration nEntriesPerGeneration]. split; [done|]. split; [done|]. split; [right; lia|].
  split; [done|]. split; [constructor|]. split; (eapply Forall_impl; [eassumption|]); intros key; [apply (Hk 0)|apply (Hk 1)]; lia.
Qed.

Lemma rolling_insert_ok f hist key : rolling_ok f -> remembers f hist -> exists f', insert be key f = Ok f' /\ rolling_ok f' /\ remembers f' (key :: hist) /\ nEntriesPerGeneration f' = nEntriesPerGeneration f.
Proof.
  intros Hok Hr. unfold insert. assert (exists f1, (if nEntriesThisGeneration f =? nEntriesPerGeneration f then next_generation f else Ok f) = Ok f1 /\ rolling_ok f1 /\ remembers f1 hist /\
    nEntriesThisGeneration f1 < nEntriesPerGeneration f1 /\ nEntriesPerGeneration f1 = nEntriesPerGeneration f) as (f1 & -> & Hok1 & Hr1 & Hlt & En).
  { destruct (Z.eqb_spec (nEntriesThisGeneration f) (nEntriesPerGeneration f)) as [E|E].
    - destruct (next_generation_ok f hist Hok E Hr) as (f' & Ef & Hok' & Hr' & E0 & E1 & _). exists f'. pose proof (ro_entries _ Hok'). split_and!; try done; lia.
    - exists f. pose proof (ro_entries _ Hok). split_and!; try done; lia. }
  cbn [res_bind nHashFuncs]. destruct Hok1 as [Hw Hg Hf He]. destruct Hr1 as (cur & p1 & p2 & old & -> & C1 & C2 & C3 & K0 & K1 & K2).
  set (f2 := mk _ _ _ _ _ _). destruct (insert_loop_ok key (Z.to_nat (nHashFuncs f1)) 0 f2) as (d & -> & W & L & G & GK); [done|done|]. cbn [f2 with_data data nGeneration nTweak] in *.
  eexists. split; [done|]. split; [split; cbn; try done; lia|]. split; [|done].
  assert (forall k key', 0 <= k -> kept k f1 key' -> kept k (with_data f2 d) key') as Hk.
  { intros k key' Hk0 Hkept n Hn. destruct (Hkept n Hn) as [Hv Hage]. unfold f2. cbn [with_data data nGeneration nTweak] in *. unfold generation_of in *. rewrite L.
    destruct (generation_place (data f1) (nTweak f1) n key' Hw) as [Hp Hb]. destruct (G _ _ (proj1 Hp) Hb) as [-> | ->]; [by split|]. split; [done|]. by rewrite Z.sub_diag. }
  exists (key :: cur), p1, p2, old. split; [done|]. split; [cbn [with_data f2 nEntriesThisGeneration]; rewrite zlen_cons; lia|]. split; [done|]. split; [done|].
  split; [constructor; [|eapply Forall_impl; [exact K0|]; intros k'; apply Hk; lia]|split; (eapply Forall_impl; [eassumption|]); intros k'; apply Hk; lia].
  intros n Hn. unfold f2 in *. cbn [with_data data nGeneration nTweak nHashFuncs] in *. rewrite GK by lia. split; [done|]. by rewrite Z.sub_diag.
Qed.

Lemma kept_contains f k key : rolling_ok f -> kept k f key -> contains be key f = Ok true.
Proof.
  intros [Hw Hg Hf He] Hk. destruct (contains_loop_ok key f Hw (Z.to_nat (nHashFuncs f)) 0) as (b & E & Hb). unfold contains. rewrite E. f_equal. apply Hb.
  intros j Hj. destruct (Hk j ltac:(lia)) as [Hv _]. lia.
Qed.

Fixpoint inserts (keys : list bytes) (f : t) : res t :=
  match keys with
  | [] => Ok f
  | key :: keys => let? f := insert be key f in inserts keys f
  end.

Lemma inserts_ok keys : forall f hist, rolling_ok f -> remembers f hist ->
  exists f', inserts keys f = Ok f' /\ rolling_ok f' /\ remembers f' (rev keys ++ hist) /\ nEntriesPerGeneration f' = nEntriesPerGeneration f.
Proof.
  induction keys as [|key keys IH]; intros f hist Hok Hr; cbn [inserts rev]; [by exists f|].
  destruct (rolling_insert_ok f hist key Hok Hr) as (f1 & -> & Hok1 & Hr1 & E1). cbn [res_bind]. destruct (IH f1 (key :: hist) Hok1 Hr1) as (f' & -> & Hok' & Hr' & E').
  exists f'. split; [done|]. split; [done|]. split; [by rewrite <- app_assoc|congruence].
Qed.

Lemma recent_kept f hist : rolling_ok f -> remembers f hist -> Forall (kept 2 f) (take (Z.to_nat (2 * nEntriesPerGeneration f)) hist).
Proof.
  intros Hok (cur & p1 & p2 & old & -> & C1 & C2 & C3 & K0 & K1 & K2). destruct Hok as [_ _ _ He].
  assert (Forall (kept 2 f) (cur ++ p1 ++ p2)) as Hall.
  { apply Forall_app. split; [|apply Forall_app; split; [|done]]; (eapply Forall_impl; [eassumption|]); intros key Hk n Hn; (eapply fresh_mono; [|by apply Hk]); lia. }
  destruct C3 as [->|C3]; [rewrite app_nil_r; by apply Forall_take|]. destruct C2 as [[-> ->]%app_nil|C2]; [rewrite !app_nil_r; apply Forall_take; by rewrite !app_nil_r in Hall|].
  rewrite !app_assoc, take_app_le; [apply Forall_take; by rewrite <- !app_assoc|]. rewrite !length_app. unfold zlen in *. lia.
Qed.
End spec.

(** ** Properties *)

Lemma make_ok be nElements nFuncs nFilterBits rand : 1 <= nElements < 2 ^ 32 - 1 -> 1 <= nFilterBits <= 2 ^ 32 - 64 ->
  rolling_ok (make nElements nFuncs nFilterBits rand) /\ remembers be (make nElements nFuncs nFilterBits rand) [] /\
  nEntriesPerGeneration (make nElements nFuncs nFilterBits rand) = (nElements + 1) / 2.
Proof.
  intros He Hb. pose proof (Z.div_mod (nElements + 1) 2 ltac:(lia)). pose proof (Z.mod_pos_bound (nElements + 1) 2 ltac:(lia)).
  pose proof (Z.div_mod (nFilterBits + 63) 64 ltac:(lia)). pose proof (Z.mod_pos_bound (nFilterBits + 63) 64 ltac:(lia)).
  assert (swrap 32 (u32 (nElements + 1) / 2) = (nElements + 1) / 2) as E1 by (rewrite (wrap_small 32) by (unfold in_u; lia); rewrite swrap_small by (unfold in_s; lia); done).
  assert (u32 (Z.shiftl (u32 (nFilterBits + 63) / 64) 1) = 2 * ((nFilterBits + 63) / 64)) as E2.
  { rewrite (wrap_small 32 (nFilterBits + 63)) by (unfold in_u; lia). rewrite Z.shiftl_mul_pow2 by lia. rewrite wrap_small by (unfold in_u; lia). lia. }
  unfold make. rewrite E1, E2. split; [|split; [by exists [], [], [], []; split_and!; try done; left|done]].
  split; cbn [reset data nGeneration nHashFuncs nEntriesThisGeneration nEntriesPerGeneration]; [|lia..].
  unfold words_ok, zlen. rewrite length_map, length_replicate, Z2Nat.id by lia. split; [apply Forall_map, Forall_replicate; unfold in_u; lia|]. split; [by rewrite Z.even_mul|lia].
Qed.

Lemma reset_empty be rand f key : rolling_ok f -> contains be key (reset rand f) = Ok false.
Proof.
  intros [(Hd & He & Hs) Hg Hf Hn]. assert (forall q, (q < length (data f))%nat -> map (fun _ => 0) (data f) !!! q = 0) as H0.
  { intros q Hq. apply list_lookup_total_correct. rewrite list_lookup_fmap. by destruct (lookup_lt_is_Some_2 _ _ Hq) as [x ->]. }
  assert (words_ok (data (reset rand f))) as Hw.
  { split; [apply Forall_map, Forall_forall; intros; cbn; unfold in_u; lia|]. unfold zlen in *. cbn [reset data]. by rewrite length_map. }
  destruct (contains_loop_ok be key (reset rand f) Hw (Z.to_nat (nHashFuncs f)) 0) as (b & E & Hb). unfold contains. change (nHashFuncs (reset rand f)) with (nHashFuncs f). rewrite E.
  destruct b; [|done]. exfalso. apply (proj1 Hb eq_refl 0); [lia|]. destruct (generation_place be (data (reset rand f)) (nTweak (reset rand f)) 0 key Hw) as [Hp _].
  unfold generation_of, generation. set (w := _ / 2) in *. assert (zlen (data (reset rand f)) = zlen (data f)) as El by (unfold zlen; cbn [reset data]; by rewrite length_map). rewrite El in Hp.
  apply Z.even_spec in He as [h He]. assert (zlen (data f) / 2 = h) as Eh by (rewrite He, (Z.mul_comm 2 h); apply Z.div_mul; lia). rewrite Eh in Hp.
  cbn [reset data]. rewrite !H0 by (unfold zlen in He; lia). by rewrite Z.bits_0.
Qed.

(** C35: a rolling Bloom filter made for some number of elements contains each of
    that many keys inserted last, whatever was inserted before and however often
    its generations have turned over; after [reset] it contains nothing. *)
Theorem rolling_remembers (be : bool) (nElements nFuncs nFilterBits rand : Z) (keys : list bytes) : 1 <= nElements < 2 ^ 32 - 1 -> 1 <= nFilterBits <= 2 ^ 32 - 64 ->
  exists f, inserts be keys (make nElements nFuncs nFilterBits rand) = Ok f /\
    (forall key, key ∈ drop (length keys - Z.to_nat nElements) keys -> contains be key f = Ok true) /\
    (forall key rand', contains be key (reset rand' f) = Ok false).
Proof.
  intros He Hb. destruct (make_ok be nElements nFuncs nFilterBits rand He Hb) as (Hok & Hr & En).
  destruct (inserts_ok be keys _ [] Hok Hr) as (f & E & Hok' & Hr' & En'). exists f. split; [done|]. split; [|intros key rand'; by apply reset_empty].
  intros key Hin. pose proof (recent_kept be f _ Hok' Hr') as Hall. rewrite app_nil_r, En', En in Hall. eapply (kept_contains be f 2); [done|].
  rewrite Forall_forall in Hall. apply Hall. pose proof (Z.div_mod (nElements + 1) 2 ltac:(lia)). pose proof (Z.mod_pos_bound (nElements + 1) 2 ltac:(lia)).
  assert (key ∈ take (Z.to_nat nElements) (rev keys)) as Hk by (rewrite firstn_rev; by apply list_elem_of_In, in_rev; rewrite rev_involutive; apply list_elem_of_In).
  replace (Z.to_nat nElements) with (Init.Nat.min (Z.to_nat nElements) (Z.to_nat (2 * ((nElements + 1) / 2)))) in Hk by lia. rewrite <- take_take in Hk.
  rewrite <- (take_drop (Z.to_nat nElements)). apply elem_of_app. by left.
Qed.

Lemma rolling_remembers_witness :
  let f0 := make 2 2 64 7 in
  exists f, inserts true [[1]; [2]; [3]; [4]; [5]; [6]] f0 = Ok f /\ contains true [6] f = Ok true /\ contains true [5] f = Ok true /\ contains true [1] f = Ok false.
Proof.
  intros f0. destruct (rolling_remembers true 2 2 64 7 [[1]; [2]; [3]; [4]; [5]; [6]]) as (f & E & H & _); [lia|lia|].
  exists f. split; [exact E|]. split; [apply H; right; left|]. split; [apply H; left|]. vm_compute in E. injection E as <-. vm_compute. reflexivity.
Defined.
