(* ===== verification/PartialMerkle.v ===== *)
(** Partial Merkle trees: src/sige/src/merkleblock.h and merkleblock.cpp.

    A tree is built from the transaction ids of a block and the ids to match, is
    sent, and is checked by a client that knows the block's header only.
    [CMerkleBlock] is in MerkleBlock.v. *)

From S2P Require Import Prelude Bytes BaseUint UintBytes Uint256 Serialize Codec Prevector Amount Transaction Merkle Rules.

Module CPartialMerkleTree.

Record t := mk {
  nTransactions : Z;
  vBits : list bool;
  vHash : list uint256;
  fBad : bool;
}.

Section tree.
Context (Hash : bytes -> uint256).

(** [1 << height] has no value from 31 on. *)
Definition CalcTreeWidth (nTransactions : Z) (height : nat) : res Z :=
  if (31 <=? height)%nat then Undef
  else Ok (Z.shiftr (u32 (u32 (nTransactions + Z.shiftl 1 (Z.of_nat height)) - 1)) (Z.of_nat height)).

Fixpoint CalcHash (nTransactions : Z) (height : nat) (pos : Z) (vTxid : list uint256) : res uint256 :=
  match height with
  | O => res_of_option (vTxid !! Z.to_nat pos)
  | S h =>
      let? hleft := CalcHash nTransactions h (u32 (pos * 2)) vTxid in
      let? w := CalcTreeWidth nTransactions h in
      let? hright := if u32 (u32 (pos * 2) + 1) <? w then CalcHash nTransactions h (u32 (u32 (pos * 2) + 1)) vTxid else Ok hleft in
      Ok (hash_pair Hash hleft hright)
  end.

(** [for (p = pos << height; p < (pos+1) << height && p < nTransactions; p++)] *)
Fixpoint match_loop (fuel : nat) (nTransactions p limit : Z) (vMatch : list bool) (fParentOfMatch : bool) : res bool :=
  if (p <? limit) && (p <? nTransactions) then
    match fuel with
    | O => OutOfFuel
    | S fuel =>
        let? m := res_of_option (vMatch !! Z.to_nat p) in
        match_loop fuel nTransactions (u32 (p + 1)) limit vMatch (fParentOfMatch || m)
    end
  else Ok fParentOfMatch.

(** The bits and hashes are added to those there. *)
Fixpoint TraverseAndBuild (nTransactions : Z) (height : nat) (pos : Z) (vTxid : list uint256) (vMatch : list bool)
  (vBits : list bool) (vHash : list uint256) : res (list bool * list uint256) :=
  let? fParentOfMatch := match_loop (Z.to_nat nTransactions) nTransactions (u32 (Z.shiftl pos (Z.of_nat height)))
    (u32 (Z.shiftl (u32 (pos + 1)) (Z.of_nat height))) vMatch false in
  let vBits := vBits ++ [fParentOfMatch] in
  match height with
  | O => let? h := CalcHash nTransactions height pos vTxid in Ok (vBits, vHash ++ [h])
  | S below =>
      if negb fParentOfMatch then let? h := CalcHash nTransactions height pos vTxid in Ok (vBits, vHash ++ [h])
      else
        let? (vBits, vHash) := TraverseAndBuild nTransactions below (u32 (pos * 2)) vTxid vMatch vBits vHash in
        let? w := CalcTreeWidth nTransactions below in
        if u32 (u32 (pos * 2) + 1) <? w then TraverseAndBuild nTransactions below (u32 (u32 (pos * 2) + 1)) vTxid vMatch vBits vHash
        else Ok (vBits, vHash)
  end.

(** What the traversal changes: the failure, the bits and hashes used, and the matches. *)
Record progress := mk_progress { bad : bool; nBitsUsed : Z; nHashUsed : Z; vMatch_out : list uint256; vnIndex : list Z }.
Definition fail (st : progress) : progress := mk_progress true (nBitsUsed st) (nHashUsed st) (vMatch_out st) (vnIndex st).

Fixpoint TraverseAndExtract (x : t) (height : nat) (pos : Z) (st : progress) : res (uint256 * progress) :=
  if zlen (vBits x) <=? nBitsUsed st then Ok (base_uint_zero WIDTH256, fail st)
  else
    let? fParentOfMatch := res_of_option (vBits x !! Z.to_nat (nBitsUsed st)) in
    let st := mk_progress (bad st) (u32 (nBitsUsed st + 1)) (nHashUsed st) (vMatch_out st) (vnIndex st) in
    let stored (leaf : bool) :=
      if zlen (vHash x) <=? nHashUsed st then Ok (base_uint_zero WIDTH256, fail st)
      else
        let? hash := res_of_option (vHash x !! Z.to_nat (nHashUsed st)) in
        let st := mk_progress (bad st) (nBitsUsed st) (u32 (nHashUsed st + 1)) (vMatch_out st) (vnIndex st) in
        if leaf && fParentOfMatch
        then Ok (hash, mk_progress (bad st) (nBitsUsed st) (nHashUsed st) (vMatch_out st ++ [hash]) (vnIndex st ++ [pos]))
        else Ok (hash, st) in
    match height with
    | O => stored true
    | S below =>
        if negb fParentOfMatch then stored false
        else
          let? (hleft, st) := TraverseAndExtract x below (u32 (pos * 2)) st in
          let? w := CalcTreeWidth (nTransactions x) below in
          if u32 (u32 (pos * 2) + 1) <? w then
            let? (hright, st) := TraverseAndExtract x below (u32 (u32 (pos * 2) + 1)) st in
            let st := if BaseUint.op_eq hright hleft then fail st else st in
            Ok (hash_pair Hash hleft hright, st)
          else Ok (hash_pair Hash hleft hleft, st)
    end.

(** [while (CalcTreeWidth(nHeight) > 1) nHeight++] *)
Fixpoint tree_height (fuel : nat) (nTransactions : Z) (nHeight : nat) : res nat :=
  let? w := CalcTreeWidth nTransactions nHeight in
  if 1 <? w then match fuel with O => OutOfFuel | S fuel => tree_height fuel nTransactions (S nHeight) end
  else Ok nHeight.

Definition make (vTxid : list uint256) (vMatch : list bool) : res t :=
  let nTransactions := u32 (zlen vTxid) in
  let? nHeight := tree_height 31 nTransactions 0 in
  let? (vBits, vHash) := TraverseAndBuild nTransactions nHeight 0 vTxid vMatch [] [] in
  Ok (mk nTransactions vBits vHash false).

Definition make_default : t := mk 0 [] [] true.

(** The root, or zero, with the matches, their positions and the tree after it;
    the positions are added to those given. *)
Definition ExtractMatches (x : t) (vnIndex0 : list Z) : res (uint256 * list uint256 * list Z * t) :=
  let zero := base_uint_zero WIDTH256 in
  if nTransactions x =? 0 then Ok (zero, [], vnIndex0, x)
  else if MAX_BLOCK_BASE_SIZE / 60 <? nTransactions x then Ok (zero, [], vnIndex0, x)
  else if nTransactions x <? zlen (vHash x) then Ok (zero, [], vnIndex0, x)
  else if zlen (vBits x) <? zlen (vHash x) then Ok (zero, [], vnIndex0, x)
  else
    let? nHeight := tree_height 31 (nTransactions x) 0 in
    let? (hashMerkleRoot, st) := TraverseAndExtract x nHeight 0 (mk_progress (fBad x) 0 0 [] vnIndex0) in
    let x := mk (nTransactions x) (vBits x) (vHash x) (bad st) in
    let out (h : uint256) := Ok (h, vMatch_out st, vnIndex st, x) in
    if bad st then out zero
    else if negb (u32 (nBitsUsed st + 7) / 8 =? (zlen (vBits x) + 7) / 8) then out zero
    else if negb (nHashUsed st =? zlen (vHash x)) then out zero
    else out hashMerkleRoot.

(** *** Serialisation *)

(** [vBytes[p / 8] |= vBits[p] << (p % 8)], and its inverse. *)
Definition pack (vBits : list bool) : bytes :=
  for_up (length vBits) (fun p vBytes => vBytes.[(p / 8)%nat := u8 (Z.lor (vBytes.[(p / 8)%nat]) (Z.shiftl (Z.b2z (vBits.[p])) (Z.of_nat (p mod 8))))])
    (replicate ((length vBits + 7) / 8) 0).
Definition unpack (vBytes : bytes) : list bool :=
  for_up (length vBytes * 8) (fun p vBits => vBits.[p := negb (Z.land (vBytes.[(p / 8)%nat]) (Z.shiftl 1 (Z.of_nat (p mod 8))) =? 0)])
    (replicate (length vBytes * 8) false).

Context (sizeof_uint256 : Z).
Definition codec : codec t :=
  c_map (c_pair c_u32 (c_pair (c_vector c_uint256 sizeof_uint256) c_bytes))
    (fun '(n, (h, b)) => mk n (unpack b) h false) (fun x => (nTransactions x, (vHash x, pack (vBits x)))).
End tree.
End CPartialMerkleTree.

Import CPartialMerkleTree.

(** ** The tree over the levels of Merkle.v *)

#[local] Abbreviation P k := (2 ^ Z.of_nat k).

Section levels.
Context (Hash : bytes -> uint256) (L : list uint256).
#[local] Abbreviation n := (zlen L).
Hypothesis Hn : 0 < n <= 16666.

Lemma width_range k : 1 <= width L k <= n.
Proof.
  pose proof (width_bounds L k (proj1 Hn)) as [H1 H2]. fold (zlen L) in *. assert (0 < P k) by lia. split; nia.
Qed.

Lemma small_pow k : (k <= 15)%nat -> 1 <= P k <= 32768.
Proof. intros Hk. split; [lia|]. change 32768 with (2 ^ 15). apply Z.pow_le_mono_r; lia. Qed.

Lemma CalcTreeWidth_spec k : (k <= 15)%nat -> CalcTreeWidth n k = Ok (width L k).
Proof.
  intros Hk. unfold CalcTreeWidth. rewrite (proj2 (Nat.leb_gt _ _)) by lia. pose proof (small_pow k Hk).
  rewrite Z.shiftl_mul_pow2, Z.mul_1_l by lia. rewrite !wrap_small by (unfold in_u; rewrite ?wrap_small; unfold in_u; lia).
  rewrite Z.shiftr_div_pow2 by lia. done.
Qed.

Lemma children k pos : 0 <= pos < width L (S k) -> 0 <= 2 * pos < width L k /\ (2 * pos + 1 < width L k \/ width L k = 2 * pos + 1) /\
  u32 (pos * 2) = 2 * pos /\ u32 (u32 (pos * 2) + 1) = 2 * pos + 1.
Proof.
  intros Hp. pose proof (width_range k). rewrite width_S in Hp. assert (2 * pos < width L k) by (pose proof (Z.div_mod (width L k + 1) 2); pose proof (Z.mod_pos_bound (width L k + 1) 2); lia).
  assert (u32 (pos * 2) = 2 * pos) as E by (rewrite wrap_small by (unfold in_u; lia); lia). rewrite E, wrap_small by (unfold in_u; lia). lia.
Qed.

Definition node (k : nat) (pos : Z) : uint256 := row Hash L k !!! Z.to_nat pos.

Lemma node_lookup k pos : 0 <= pos < width L k -> row Hash L k !! Z.to_nat pos = Some (node k pos).
Proof. intros Hp. apply list_lookup_lookup_total_lt. pose proof (row_length Hash L k). lia. Qed.

Lemma node_S k pos : 0 <= pos < width L (S k) ->
  node (S k) pos = hash_pair Hash (node k (2 * pos)) (if 2 * pos + 1 <? width L k then node k (2 * pos + 1) else node k (2 * pos)).
Proof.
  intros Hp. destruct (children k pos Hp) as (H0 & H1 & _). unfold node at 1. rewrite list_lookup_total_alt, row_S by lia.
  pose proof (node_lookup k (2 * pos) H0) as Ea. destruct (Z.ltb_spec (2 * pos + 1) (width L k)).
  - by rewrite Ea, (node_lookup k (2 * pos + 1)) by lia.
  - rewrite Ea. cbn [mbind option_bind]. rewrite (lookup_ge_None_2 (row Hash L k)); [done|]. pose proof (row_length Hash L k). lia.
Qed.

Lemma CalcHash_spec k : forall pos, (k <= 16)%nat -> 0 <= pos < width L k -> CalcHash Hash n k pos L = Ok (node k pos).
Proof.
  induction k as [|k IH]; intros pos Hk Hp; cbn [CalcHash].
  { pose proof (node_lookup 0 pos Hp) as E. change (row Hash L 0) with L in E. by rewrite E. }
  destruct (children k pos Hp) as (H0 & H1 & -> & ->). rewrite IH by lia. cbn [res_bind]. rewrite CalcTreeWidth_spec by lia. cbn [res_bind].
  rewrite node_S by done. destruct (Z.ltb_spec (2 * pos + 1) (width L k)); [rewrite IH by lia|]; done.
Qed.

(** The positions below a node. *)
Definition below (k : nat) (pos : Z) : list Z := seqZ (pos * P k) (Z.min ((pos + 1) * P k) n - pos * P k).
Lemma below_S k pos : 0 <= pos < width L (S k) ->
  below (S k) pos = below k (2 * pos) ++ (if 2 * pos + 1 <? width L k then below k (2 * pos + 1) else []).
Proof.
  intros Hp. destruct (children k pos Hp) as (H0 & H1 & _). unfold below. rewrite Nat2Z.inj_succ, Z.pow_succ_r by lia.
  pose proof (width_bounds L k (proj1 Hn)) as [B1 B2]. fold (zlen L) in *. assert (0 < P k) by lia.
  destruct (Z.ltb_spec (2 * pos + 1) (width L k)).
  - assert ((2 * pos + 1) * P k < n) by nia. rewrite (Z.min_l ((2 * pos + 1) * P k)) by lia.
    replace (pos * (2 * P k)) with (2 * pos * P k) by lia. replace ((pos + 1) * (2 * P k)) with ((2 * pos + 1 + 1) * P k) by lia.
    replace (Z.min ((2 * pos + 1 + 1) * P k) n - 2 * pos * P k) with (((2 * pos + 1) * P k - 2 * pos * P k) + (Z.min ((2 * pos + 1 + 1) * P k) n - (2 * pos + 1) * P k)) by lia.
    rewrite seqZ_app by lia. do 2 f_equal. lia.
  - assert (width L k = 2 * pos + 1) as E by lia. rewrite E in *. rewrite app_nil_r, !Z.min_r by nia. f_equal; lia.
Qed.

Lemma below_0 pos : 0 <= pos < width L 0 -> below 0 pos = [pos].
Proof.
  intros Hp. unfold below. change (P 0) with 1. assert (pos < n) by (pose proof (row_length Hash L 0) as E; change (row Hash L 0) with L in E; unfold zlen; lia).
  rewrite !Z.mul_1_r, Z.min_l by lia. replace (pos + 1 - pos) with 1 by lia. done.
Qed.

(** No node equals its sibling: such a block is malleable. *)
Definition siblings_differ : Prop := forall k pos, (k < 15)%nat -> 0 <= pos -> 2 * pos + 1 < width L k -> node k (2 * pos + 1) <> node k (2 * pos).

(** *** The height *)

Lemma tree_height_spec d : width L d = 1 -> (forall j, (j < d)%nat -> width L j <> 1) -> (d <= 15)%nat ->
  tree_height 31 n 0 = Ok d.
Proof.
  intros Hd Hj Hd15. assert (forall m j, (j + m = d)%nat -> tree_height (31 - j) n j = Ok d) as H.
  { induction m as [|m IH]; intros j Hm.
    - assert (j = d) as -> by lia. destruct (31 - d)%nat eqn:E; [lia|]. cbn [tree_height]. rewrite CalcTreeWidth_spec by lia. cbn [res_bind]. by rewrite Hd.
    - destruct (31 - j)%nat as [|f] eqn:E; [lia|]. cbn [tree_height]. rewrite CalcTreeWidth_spec by lia. cbn [res_bind].
      pose proof (width_range j). pose proof (Hj j ltac:(lia)). rewrite (proj2 (Z.ltb_lt _ _)) by lia.
      replace f with (31 - S j)%nat by lia. apply IH. lia. }
  apply (H d 0%nat). lia.
Qed.

(** The root as the block's validation computes it, and the height of the tree. *)
Lemma tree_root_spec : exists root m d, ComputeMerkleRoot Hash L = Ok (root, m) /\ node d 0 = root /\ (d <= 15)%nat /\ width L d = 1 /\
  (forall j, (j < d)%nat -> width L j <> 1).
Proof.
  destruct (ComputeMerkleRoot_spec Hash L ltac:(unfold zlen in Hn; lia)) as (root & m & d & E & Hrow & _ & Hj & Hlog & _).
  exists root, m, d. split; [done|]. split; [unfold node; by rewrite Hrow|]. split; [|split; [by eapply row_root_width|done]].
  assert (Z.of_nat d <= Z.log2_up 16666) as H by (rewrite Hlog; apply Z.log2_up_le_mono; unfold zlen in Hn; lia).
  change (Z.log2_up 16666) with 15 in H. lia.
Qed.

Context (vMatch : list bool) (Hmatch : length vMatch = length L).

(** Those that are matched. *)
Definition positions (k : nat) (pos : Z) : list Z := filter (fun p => vMatch !!! Z.to_nat p = true) (below k pos).
Definition hit (k : nat) (pos : Z) : bool := negb (bool_decide (positions k pos = [])).

Lemma positions_S k pos : 0 <= pos < width L (S k) ->
  positions (S k) pos = positions k (2 * pos) ++ (if 2 * pos + 1 <? width L k then positions k (2 * pos + 1) else []).
Proof. intros Hp. unfold positions. rewrite below_S, filter_app by done. f_equal. by case_bool. Qed.

Lemma match_loop_spec fuel : forall p limit f, 0 <= p <= 65536 -> limit <= 65536 -> n - p <= Z.of_nat fuel ->
  match_loop fuel n p limit vMatch f = Ok (f || negb (bool_decide (filter (fun p => vMatch !!! Z.to_nat p = true) (seqZ p (Z.min limit n - p)) = []))).
Proof.
  induction fuel as [|fuel IH]; intros p limit f Hp Hl Hf; cbn [match_loop].
  - rewrite (proj2 (Z.ltb_ge p n)), andb_false_r by lia. rewrite seqZ_nil by lia. cbn. by rewrite orb_false_r.
  - destruct (Z.ltb_spec p limit); [destruct (Z.ltb_spec p n)|]; cbn [andb]; [|rewrite seqZ_nil by lia; cbn; by rewrite orb_false_r..].
    rewrite (list_lookup_lookup_total_lt vMatch) by (unfold zlen in *; lia). cbn [res_of_option res_bind].
    rewrite wrap_small by (unfold in_u; lia). rewrite IH by lia. rewrite (seqZ_cons p) by lia. rewrite filter_cons.
    replace (Z.pred (Z.min limit n - p)) with (Z.min limit n - (p + 1)) by lia. change (Z.succ p) with (p + 1).
    destruct (vMatch !!! Z.to_nat p) eqn:E; case_decide; try congruence; [|by rewrite orb_false_r]. cbn. by rewrite orb_true_r.
Qed.

Lemma hit_spec k pos : (k <= 15)%nat -> 0 <= pos < width L k ->
  match_loop (Z.to_nat n) n (u32 (Z.shiftl pos (Z.of_nat k))) (u32 (Z.shiftl (u32 (pos + 1)) (Z.of_nat k))) vMatch false = Ok (hit k pos).
Proof.
  intros Hk Hp. pose proof (small_pow k Hk). pose proof (width_range k). pose proof (width_bounds L k (proj1 Hn)) as [B1 _]. fold (zlen L) in *.
  assert ((pos + 1) * P k <= n + P k) by nia. assert (0 <= pos * P k) by nia.
  rewrite (wrap_small 32 (pos + 1)), !Z.shiftl_mul_pow2, !wrap_small by (unfold in_u; nia). rewrite match_loop_spec by lia. done.
Qed.

(** *** What is built *)

Fixpoint bits (k : nat) (pos : Z) : list bool :=
  match k with
  | O => [hit 0 pos]
  | S k' => if hit k pos then true :: bits k' (2 * pos) ++ (if 2 * pos + 1 <? width L k' then bits k' (2 * pos + 1) else []) else [false]
  end.
Fixpoint hashes (k : nat) (pos : Z) : list uint256 :=
  match k with
  | O => [node 0 pos]
  | S k' => if hit k pos then hashes k' (2 * pos) ++ (if 2 * pos + 1 <? width L k' then hashes k' (2 * pos + 1) else []) else [node k pos]
  end.

Lemma build_spec k : forall pos vb vh, (k <= 15)%nat -> 0 <= pos < width L k ->
  TraverseAndBuild Hash n k pos L vMatch vb vh = Ok (vb ++ bits k pos, vh ++ hashes k pos).
Proof.
  induction k as [|k IH]; intros pos vb vh Hk Hp; cbn [TraverseAndBuild]; rewrite hit_spec by done; cbn [res_bind].
  - rewrite CalcHash_spec by (done || lia). done.
  - cbn [bits hashes]. destruct (hit (S k) pos); cbn [negb]; [|rewrite CalcHash_spec by (done || lia); done].
    destruct (children k pos Hp) as (H0 & H1 & -> & ->). rewrite IH by lia. cbn [res_bind]. rewrite CalcTreeWidth_spec by lia. cbn [res_bind].
    rewrite <- !app_assoc. destruct (Z.ltb_spec (2 * pos + 1) (width L k)); [rewrite IH by lia; by rewrite <- !app_assoc|by rewrite !app_nil_r].
Qed.

Lemma sizes k : forall pos, (k <= 15)%nat -> 0 <= pos < width L k ->
  1 <= zlen (hashes k pos) <= zlen (bits k pos) /\ zlen (hashes k pos) <= zlen (below k pos) /\ zlen (bits k pos) < 2 * P k.
Proof.
  induction k as [|k IH]; intros pos Hk Hp; [rewrite below_0 by done; unfold zlen; cbn; lia|].
  destruct (children k pos Hp) as (H0 & H1 & _). rewrite below_S by done. rewrite Nat2Z.inj_succ, Z.pow_succ_r by lia.
  pose proof (IH (2 * pos) ltac:(lia) H0) as I1. cbn [bits hashes]. unfold zlen in *. rewrite length_app. assert (0 < P k) by lia.
  destruct (Z.ltb_spec (2 * pos + 1) (width L k)) as [Hw|]; [pose proof (IH (2 * pos + 1) ltac:(lia) ltac:(lia)) as I2|];
    (destruct (hit (S k) pos); cbn [length]; rewrite ?length_app; cbn [length]; lia).
Qed.

(** *** What is extracted *)

Lemma hit_false k pos : hit k pos = false -> positions k pos = [].
Proof. unfold hit. intros H. apply negb_false_iff in H. by apply bool_decide_eq_true in H. Qed.

Lemma positions_0 pos : 0 <= pos < width L 0 -> positions 0 pos = if hit 0 pos then [pos] else [].
Proof.
  intros Hp. unfold hit. assert (positions 0 pos = if (vMatch !!! Z.to_nat pos : bool) then [pos] else []) as ->.
  { unfold positions. rewrite below_0, filter_cons, filter_nil by done. destruct (vMatch !!! Z.to_nat pos); case_decide; congruence. }
  by destruct (vMatch !!! Z.to_nat pos).
Qed.

(** The traversal after [bs] bits and [hs] hashes. *)
Definition reached (x : t) (bs : list bool) (hs : list uint256) (st : progress) : Prop :=
  nBitsUsed st = zlen bs /\ nHashUsed st = zlen hs /\ bs `prefix_of` vBits x /\ hs `prefix_of` vHash x.

Lemma next_bit x bs hs st b l : reached x bs hs st -> bs ++ b :: l `prefix_of` vBits x -> zlen (vBits x) < 2 ^ 32 ->
  (zlen (vBits x) <=? nBitsUsed st) = false /\ vBits x !! Z.to_nat (nBitsUsed st) = Some b /\
  u32 (nBitsUsed st + 1) = zlen (bs ++ [b]) /\ bs ++ [b] `prefix_of` vBits x.
Proof.
  intros (-> & _ & _ & _) [r E] Hl. rewrite E in *. unfold zlen in *. rewrite !length_app in *. cbn [length] in *.
  split; [apply Z.leb_gt; lia|]. rewrite Nat2Z.id, <- app_assoc, lookup_app_r, Nat.sub_diag by lia. split; [done|].
  rewrite wrap_small by (unfold in_u; lia). split; [lia|]. exists (l ++ r). by rewrite <- !app_assoc.
Qed.

Lemma next_hash x bs hs st h l : reached x bs hs st -> hs ++ h :: l `prefix_of` vHash x -> zlen (vHash x) < 2 ^ 32 ->
  (zlen (vHash x) <=? nHashUsed st) = false /\ vHash x !! Z.to_nat (nHashUsed st) = Some h /\
  u32 (nHashUsed st + 1) = zlen (hs ++ [h]) /\ hs ++ [h] `prefix_of` vHash x.
Proof.
  intros (_ & -> & _ & _) [r E] Hl. rewrite E in *. unfold zlen in *. rewrite !length_app in *. cbn [length] in *.
  split; [apply Z.leb_gt; lia|]. rewrite Nat2Z.id, <- app_assoc, lookup_app_r, Nat.sub_diag by lia. split; [done|].
  rewrite wrap_small by (unfold in_u; lia). split; [lia|]. exists (l ++ r). by rewrite <- !app_assoc.
Qed.

Lemma extract_spec x : siblings_differ -> nTransactions x = n -> zlen (vBits x) < 2 ^ 32 -> zlen (vHash x) < 2 ^ 32 ->
  forall k pos bs hs st, (k <= 15)%nat -> 0 <= pos < width L k -> reached x bs hs st ->
  bs ++ bits k pos `prefix_of` vBits x -> hs ++ hashes k pos `prefix_of` vHash x ->
  exists st', TraverseAndExtract Hash x k pos st = Ok (node k pos, st') /\ reached x (bs ++ bits k pos) (hs ++ hashes k pos) st' /\
    bad st' = bad st /\ vMatch_out st' = vMatch_out st ++ map (fun p => L !!! Z.to_nat p) (positions k pos) /\
    vnIndex st' = vnIndex st ++ positions k pos.
Proof.
  intros Hd Hx Hlb Hlh. induction k as [|k IH]; intros pos bs hs st Hk Hp Hr Hb Hh; cbn [TraverseAndExtract].
  - cbn [bits hashes] in *. destruct (next_bit x _ _ _ _ _ Hr Hb Hlb) as (-> & -> & E1 & P1). destruct (next_hash x _ _ _ _ _ Hr Hh Hlh) as (E2 & E3 & E4 & P2).
    cbn [res_of_option res_bind nHashUsed]. rewrite E2, E3. cbn [res_of_option res_bind andb]. rewrite positions_0 by done.
    destruct (hit 0 pos); (eexists; split; [done|]; split; [done|]); cbn [bad vMatch_out vnIndex map]; rewrite ?app_nil_r; done.
  - cbn [bits hashes] in *. destruct (hit (S k) pos) eqn:Ehit; cbn [negb].
    2: { destruct (next_bit x _ _ _ _ _ Hr Hb Hlb) as (-> & -> & E1 & P1). destruct (next_hash x _ _ _ _ _ Hr Hh Hlh) as (E2 & E3 & E4 & P2).
      cbn [res_of_option res_bind nHashUsed negb]. rewrite E2, E3. cbn [res_of_option res_bind andb]. rewrite (hit_false _ _ Ehit).
      eexists; split; [done|]; split; [done|]. cbn [bad vMatch_out vnIndex map]. by rewrite !app_nil_r. }
    destruct (next_bit x _ _ _ _ _ Hr Hb Hlb) as (-> & -> & E1 & P1). cbn [res_of_option res_bind negb].
    destruct (children k pos Hp) as (H0 & H1 & -> & ->). rewrite Hx. set (st1 := mk_progress _ _ _ _ _).
    assert (reached x (bs ++ [true]) hs st1) as Hr1 by (destruct Hr as (_ & ? & _ & ?); done).
    assert (forall a b : list bool, bs ++ true :: a ++ b = ((bs ++ [true]) ++ a) ++ b) as Eb by (intros; by rewrite <- !app_assoc).
    rewrite Eb in Hb. rewrite (app_assoc hs) in Hh.
    destruct (IH (2 * pos) (bs ++ [true]) hs st1 ltac:(lia) H0 Hr1) as (st2 & -> & Hr2 & Hbad2 & Hm2 & Hi2); [by eapply prefix_app_l|by eapply prefix_app_l|].
    cbn [res_bind]. rewrite CalcTreeWidth_spec by lia. cbn [res_bind]. rewrite positions_S, node_S, Eb, (app_assoc hs) by done.
    destruct (Z.ltb_spec (2 * pos + 1) (width L k)) as [Hw|Hw].
    + destruct (IH (2 * pos + 1) _ _ st2 ltac:(lia) ltac:(lia) Hr2 Hb Hh) as (st3 & -> & Hr3 & Hbad3 & Hm3 & Hi3). cbn [res_bind].
      unfold BaseUint.op_eq. rewrite bool_decide_eq_false_2 by (apply Hd; lia). exists st3. split; [done|]. split; [done|].
      rewrite Hbad3, Hm3, Hi3, Hm2, Hi2, map_app, <- !app_assoc. done.
    + exists st2. rewrite !app_nil_r. split; [done|]. split; [done|]. rewrite Hm2, Hi2. done.
Qed.

Lemma make_spec : exists d, (d <= 15)%nat /\ width L d = 1 /\ tree_height 31 n 0 = Ok d /\
  make Hash L vMatch = Ok (mk n (bits d 0) (hashes d 0) false).
Proof.
  destruct tree_root_spec as (root & m & d & _ & _ & Hd & Hw & Hj). exists d. pose proof (tree_height_spec d Hw Hj Hd) as Et.
  split; [done|]. split; [done|]. split; [done|]. unfold make. rewrite wrap_small by (unfold in_u; lia). rewrite Et. cbn [res_bind].
  rewrite build_spec by lia. done.
Qed.
End levels.

(** *** Bits as bytes *)

Section bits.
Context (vBits : list bool).
#[local] Abbreviation m := ((length vBits + 7) / 8)%nat.

Lemma byte_index p : (p < length vBits)%nat -> (p / 8 < m)%nat.
Proof. intros Hp. pose proof (Nat.div_mod_eq p 8). pose proof (Nat.div_mod_eq (length vBits + 7) 8). pose proof (Nat.mod_upper_bound p 8). pose proof (Nat.mod_upper_bound (length vBits + 7) 8). lia. Qed.

Lemma pack_spec : length (pack vBits) = m /\ Forall (in_u 8) (pack vBits) /\
  forall j k, (j < m)%nat -> (k < 8)%nat -> Z.testbit ((pack vBits).[j]) (Z.of_nat k) = (default false (vBits !! (8 * j + k)%nat)).
Proof.
  assert (length (pack vBits) = m /\ Forall (in_u 8) (pack vBits) /\ forall j k, (j < m)%nat -> (k < 8)%nat ->
    Z.testbit ((pack vBits).[j]) (Z.of_nat k) = bool_decide (8 * j + k < length vBits)%nat && (default false (vBits !! (8 * j + k)%nat))) as (H1 & H2 & H3).
  { unfold pack. refine (for_up_inv (fun p w => length w = m /\ Forall (in_u 8) w /\ forall j k, (j < m)%nat -> (k < 8)%nat ->
      Z.testbit (w.[j]) (Z.of_nat k) = bool_decide (8 * j + k < p)%nat && (default false (vBits !! (8 * j + k)%nat))) _ _ _ _ _).
    - rewrite length_replicate. split; [done|]. split; [by apply Forall_replicate|]. intros j k Hj Hk. rewrite lookup_total_replicate_2, Z.bits_0 by done.
      rewrite bool_decide_eq_false_2 by lia. done.
    - intros p w Hp (Hl & Hw & Hb). rewrite length_insert. pose proof (byte_index p Hp) as Hi. pose proof (Nat.mod_upper_bound p 8 ltac:(lia)) as Hmod.
      pose proof (Nat.div_mod_eq p 8) as Edm. assert (in_u 8 (w.[(p / 8)%nat])) as Hu by (apply Forall_lookup_total_le; [done|lia]).
      assert (in_u 8 (Z.lor (w.[(p / 8)%nat]) (Z.shiftl (Z.b2z (vBits.[p])) (Z.of_nat (p mod 8))))) as Hx.
      { apply lor_range; [lia|done|]. rewrite Z.shiftl_mul_pow2 by lia. unfold in_u. pose proof (Z.pow_le_mono_r 2 (Z.of_nat (p mod 8)) 7).
        destruct (vBits.[p]); cbn [Z.b2z]; lia. }
      rewrite wrap_small by done. split; [done|]. split; [by apply Forall_insert|]. intros j k Hj Hk. rewrite insert_lookup_total by lia.
      case_decide as Ej.
      + subst j. rewrite Z.lor_spec, Hb, Z.shiftl_spec by lia. destruct (decide (k = p mod 8)%nat) as [->|Hne].
        * rewrite Z.sub_diag, Z.b2z_bit0. replace (8 * (p / 8) + p mod 8)%nat with p by lia. rewrite (bool_decide_eq_false_2 (p < p)%nat), bool_decide_eq_true_2 by lia.
          rewrite list_lookup_total_alt. destruct (vBits !! p) eqn:E; [done|]. apply lookup_ge_None in E. lia.
        * assert (Z.testbit (Z.b2z (vBits.[p])) (Z.of_nat k - Z.of_nat (p mod 8)) = false) as ->.
          { destruct (Z.ltb_spec (Z.of_nat k) (Z.of_nat (p mod 8))); [apply Z.testbit_neg_r; lia|]. apply (bits_above 1); [|lia]. unfold in_u. destruct (vBits.[p]); cbn; lia. }
          rewrite orb_false_r. f_equal. apply bool_decide_ext. lia.
      + rewrite Hb by done. f_equal. apply bool_decide_ext. assert (8 * j + k <> p)%nat; [|lia]. intros E. apply Ej. symmetry. apply (Nat.div_unique p 8 j k); lia. }
  split; [done|]. split; [done|]. intros j k Hj Hk. rewrite H3 by done. case_bool_decide; [done|]. by rewrite lookup_ge_None_2 by lia.
Qed.

Lemma unpack_spec w : length (unpack w) = (length w * 8)%nat /\
  forall p, (p < length w * 8)%nat -> unpack w !! p = Some (Z.testbit (w.[(p / 8)%nat]) (Z.of_nat (p mod 8))).
Proof.
  unfold unpack. refine (for_up_inv (fun q v => length v = (length w * 8)%nat /\ forall p, (p < q)%nat -> v !! p = Some (Z.testbit (w.[(p / 8)%nat]) (Z.of_nat (p mod 8)))) _ _ _ _ _).
  - rewrite length_replicate. split; [done|]. intros; lia.
  - intros q v Hq [Hl Hb]. rewrite length_insert. split; [done|]. intros p Hp. destruct (decide (p = q)) as [->|Hne].
    + rewrite list_lookup_insert_eq by lia. by rewrite bit_test by lia.
    + rewrite list_lookup_insert_ne by done. apply Hb. lia.
Qed.

(** The bits come back, with zero bits up to a whole byte. *)
Lemma unpack_pack : unpack (pack vBits) = vBits ++ replicate (8 * m - length vBits) false.
Proof.
  destruct pack_spec as (Hl & _ & Hb). destruct (unpack_spec (pack vBits)) as [Hlu Hu]. rewrite Hl in *.
  assert (length vBits <= 8 * m)%nat as Hm by (pose proof (Nat.div_mod_eq (length vBits + 7) 8); pose proof (Nat.mod_upper_bound (length vBits + 7) 8 ltac:(lia)); lia).
  apply list_eq. intros p. destruct (decide (p < m * 8)%nat) as [Hp|Hp].
  - pose proof (Nat.div_mod_eq p 8) as Edm. pose proof (Nat.mod_upper_bound p 8 ltac:(lia)). assert (p / 8 < m)%nat by lia.
    rewrite Hu, Hb by lia. replace (8 * (p / 8) + p mod 8)%nat with p by lia. destruct (decide (p < length vBits)%nat).
    + rewrite lookup_app_l by lia. destruct (vBits !! p) eqn:E; [done|]. apply lookup_ge_None in E. lia.
    + rewrite lookup_app_r, lookup_replicate_2, lookup_ge_None_2 by lia. done.
  - rewrite !lookup_ge_None_2; [done|rewrite length_app, length_replicate; lia|lia].
Qed.
End bits.

(** ** Any tree *)

Section any.
Context (Hash : bytes -> uint256) (Hash_wf : forall x, wf256 (Hash x)).

Definition used_ok (x : t) (st : progress) : Prop := 0 <= nBitsUsed st <= zlen (vBits x) /\ 0 <= nHashUsed st <= zlen (vHash x).

(** Each match is the leaf at its position. *)
Definition proves (L : list uint256) (vm : list uint256) (vi : list Z) : Prop := Forall2 (fun h i => 0 <= i /\ L !! Z.to_nat i = Some h) vm vi.

Record extracted (x : t) (L : list uint256) (k : nat) (pos : Z) (st : progress) (h : uint256) (st' : progress) (vm : list uint256) (vi : list Z) : Prop := {
  ex_used : used_ok x st';
  ex_bad : bad st = true -> bad st' = true;
  ex_match : vMatch_out st' = vMatch_out st ++ vm;
  ex_index : vnIndex st' = vnIndex st ++ vi;
  ex_wf : Forall wf256 (vHash x) -> wf256 h;
  ex_sound : Forall wf256 (vHash x) -> Forall wf256 L -> nTransactions x = zlen L -> 0 < zlen L <= 16666 -> 0 <= pos < width L k -> (k <= 15)%nat ->
    bad st' = false -> h = node Hash L k pos -> proves L vm vi \/ collision Hash;
}.

Lemma zero_wf : wf256 (base_uint_zero WIDTH256).
Proof. split; [done|]. repeat constructor; done. Qed.

Lemma node_wf L k pos : 0 < zlen L <= 16666 -> Forall wf256 L -> 0 <= pos < width L k -> wf256 (node Hash L k pos).
Proof.
  intros Hn HL Hp. pose proof (node_lookup Hash L k pos Hp) as E. apply (Forall_lookup_1 _ _ _ _ (row_wf Hash Hash_wf L k HL) E).
Qed.

Lemma stored_spec x L k pos st (leaf fParentOfMatch : bool) : used_ok x st -> zlen (vHash x) < 2 ^ 32 -> (leaf = true -> k = 0%nat) -> (leaf = false -> fParentOfMatch = false) ->
  exists h st' vm vi,
    (if zlen (vHash x) <=? nHashUsed st then Ok (base_uint_zero WIDTH256, fail st)
     else
       let? hash := res_of_option (vHash x !! Z.to_nat (nHashUsed st)) in
       let st := mk_progress (bad st) (nBitsUsed st) (u32 (nHashUsed st + 1)) (vMatch_out st) (vnIndex st) in
       if leaf && fParentOfMatch
       then Ok (hash, mk_progress (bad st) (nBitsUsed st) (nHashUsed st) (vMatch_out st ++ [hash]) (vnIndex st ++ [pos]))
       else Ok (hash, st)) = Ok (h, st') /\ extracted x L k pos st h st' vm vi.
Proof.
  intros [Hb Hh] Hl Hk Hf. destruct (Z.leb_spec (zlen (vHash x)) (nHashUsed st)) as [Hle|Hlt].
  - exists (base_uint_zero WIDTH256), (fail st), [], []. split; [done|]. split; cbn; rewrite ?app_nil_r; try done. intros _. apply zero_wf.
  - destruct (lookup_lt_is_Some_2 (vHash x) (Z.to_nat (nHashUsed st))) as [h Eh]; [unfold zlen in *; lia|]. rewrite Eh. cbn [res_of_option res_bind].
    assert (u32 (nHashUsed st + 1) = nHashUsed st + 1) as -> by (apply wrap_small; unfold in_u; lia).
    destruct (leaf && fParentOfMatch) eqn:E; [apply andb_prop in E as [-> ->]|].
    + eexists h, _, [h], [pos]. split; [done|]. split; cbn; try done; [split; cbn; lia|intros HF; exact (Forall_lookup_1 _ _ _ _ HF Eh)|].
      intros _ _ _ Hn Hp _ _ ->. left. rewrite (Hk eq_refl). constructor; [|constructor]. split; [lia|]. rewrite (Hk eq_refl) in Hp. exact (node_lookup Hash L 0 pos Hp).
    + eexists h, _, [], []. split; [done|]. split; cbn; rewrite ?app_nil_r; try done; [split; cbn; lia|intros HF; exact (Forall_lookup_1 _ _ _ _ HF Eh)|].
      intros. left. constructor.
Qed.

Lemma extract_any x L k : zlen (vBits x) < 2 ^ 32 -> zlen (vHash x) < 2 ^ 32 -> (k <= 30)%nat -> forall pos st, used_ok x st ->
  exists h st' vm vi, TraverseAndExtract Hash x k pos st = Ok (h, st') /\ extracted x L k pos st h st' vm vi.
Proof.
  intros Hlb Hlh. induction k as [|k IH]; intros Hk pos st [Hb Hh]; cbn [TraverseAndExtract].
  all: destruct (Z.leb_spec (zlen (vBits x)) (nBitsUsed st)) as [Hle|Hlt];
    [exists (base_uint_zero WIDTH256), (fail st), [], []; split; [done|]; split; cbn; rewrite ?app_nil_r; try done; intros _; apply zero_wf|].
  all: destruct (lookup_lt_is_Some_2 (vBits x) (Z.to_nat (nBitsUsed st))) as [f Ef]; [unfold zlen in *; lia|]; rewrite Ef; cbn [res_of_option res_bind].
  all: assert (u32 (nBitsUsed st + 1) = nBitsUsed st + 1) as -> by (apply wrap_small; unfold in_u; lia).
  all: set (st1 := mk_progress _ _ _ _ _); assert (used_ok x st1) as Hst1 by (split; cbn; lia).
  - destruct (stored_spec x L 0 pos st1 true f Hst1 Hlh) as (h & st' & vm & vi & E & [X1 X2 X3 X4 X5 X6]); [done|done|].
    exists h, st', vm, vi. split; [exact E|]. by split.
  - destruct f; cbn [negb].
    2: { destruct (stored_spec x L (S k) pos st1 false false Hst1 Hlh) as (h & st' & vm & vi & E & [X1 X2 X3 X4 X5 X6]); [done|done|].
      exists h, st', vm, vi. split; [exact E|]. by split. }
    destruct (IH ltac:(lia) (u32 (pos * 2)) st1 Hst1) as (hl & st2 & vml & vil & -> & [X1 X2 X3 X4 X5 X6]). cbn [res_bind].
    unfold CalcTreeWidth at 1. rewrite (proj2 (Nat.leb_gt _ _)) by lia. cbn [res_bind]. set (w := Z.shiftr _ _).
    assert (forall (HL : nTransactions x = zlen L), 0 < zlen L <= 16666 -> 0 <= pos < width L (S k) -> (S k <= 15)%nat -> w = width L k) as Hw.
    { intros HL Hn Hp Hk15. pose proof (CalcTreeWidth_spec L Hn k ltac:(lia)) as E. unfold CalcTreeWidth in E. rewrite (proj2 (Nat.leb_gt _ _)) in E by lia.
      unfold w. rewrite HL. congruence. }
    destruct (Z.ltb_spec (u32 (u32 (pos * 2) + 1)) w) as [Hr|Hr].
    + destruct (IH ltac:(lia) (u32 (u32 (pos * 2) + 1)) st2 X1) as (hr & st3 & vmr & vir & -> & [Y1 Y2 Y3 Y4 Y5 Y6]). cbn [res_bind].
      set (st4 := if BaseUint.op_eq hr hl then fail st3 else st3).
      assert (used_ok x st4 /\ (bad st3 = true -> bad st4 = true) /\ vMatch_out st4 = vMatch_out st3 /\ vnIndex st4 = vnIndex st3) as (Z1 & Z2 & Z3 & Z4) by (unfold st4; by case_bool).
      eexists _, st4, (vml ++ vmr), (vil ++ vir). split; [done|]. split; [done|by auto|by rewrite Z3, Y3, X3, app_assoc|by rewrite Z4, Y4, X4, app_assoc|by intros _; apply Hash_wf|].
      intros HF HL HT Hn Hp Hk15 Hbad Eh. specialize (Hw HT Hn Hp Hk15). rewrite Hw in Hr. destruct (children L Hn k pos Hp) as (C0 & C1 & C2 & C3). rewrite C2, C3 in *.
      rewrite (node_S Hash L Hn k pos Hp), (proj2 (Z.ltb_lt _ _)) in Eh by lia.
      destruct (hash_pair_inj Hash _ _ _ _ (X5 HF) (Y5 HF) (node_wf L k (2 * pos) Hn HL ltac:(lia)) (node_wf L k (2 * pos + 1) Hn HL ltac:(lia)) Eh) as [[El Er]|Hc]; [|by right].
      assert (bad st3 = false) as Hb3 by (destruct (bad st3); [rewrite Z2 in Hbad by done|]; done).
      assert (bad st2 = false) as Hb2 by (destruct (bad st2); [rewrite Y2 in Hb3 by done|]; done).
      destruct (X6 HF HL HT Hn C0 ltac:(lia) Hb2 El) as [X6'|]; [|by right]. destruct (Y6 HF HL HT Hn ltac:(lia) ltac:(lia) Hb3 Er) as [Y6'|]; [|by right].
      left. by apply Forall2_app.
    + eexists _, st2, vml, vil. split; [done|]. split; [done|done|done|done|by intros _; apply Hash_wf|].
      intros HF HL HT Hn Hp Hk15 Hbad Eh. specialize (Hw HT Hn Hp Hk15). rewrite Hw in Hr. destruct (children L Hn k pos Hp) as (C0 & C1 & C2 & C3). rewrite C2, C3 in *.
      rewrite (node_S Hash L Hn k pos Hp), (proj2 (Z.ltb_ge _ _)) in Eh by lia.
      destruct (hash_pair_inj Hash _ _ _ _ (X5 HF) (X5 HF) (node_wf L k (2 * pos) Hn HL ltac:(lia)) (node_wf L k (2 * pos) Hn HL ltac:(lia)) Eh) as [[El Er]|Hc]; [|by right].
      apply (X6 HF HL HT Hn C0 ltac:(lia) Hbad El).
Qed.

Lemma tree_height_total n : 0 < n <= 16666 -> exists d, tree_height 31 n 0 = Ok d /\ (d <= 30)%nat.
Proof.
  intros Hn. set (L := replicate (Z.to_nat n) (base_uint_zero WIDTH256)). assert (zlen L = n) as E by (unfold L, zlen; rewrite length_replicate; lia).
  rewrite <- E in Hn |- *. destruct (tree_root_spec Hash L Hn) as (root & m & d & _ & _ & Hd & Hw & Hj). exists d. split; [by apply tree_height_spec|lia].
Qed.

(** [ExtractMatches] returns; a root other than zero comes from a traversal that succeeds. *)
Lemma ExtractMatches_total x vi0 : in_u 32 (nTransactions x) -> zlen (vBits x) < 2 ^ 32 -> zlen (vHash x) < 2 ^ 32 ->
  exists r vm vi x', ExtractMatches Hash x vi0 = Ok (r, vm, vi, x') /\
    (r <> base_uint_zero WIDTH256 -> 0 < nTransactions x <= 16666 /\ exists d st', tree_height 31 (nTransactions x) 0 = Ok d /\
      TraverseAndExtract Hash x d 0 (mk_progress (fBad x) 0 0 [] vi0) = Ok (r, st') /\ bad st' = false /\ vm = vMatch_out st' /\ vi = vnIndex st').
Proof.
  intros HT Hb Hh. unfold in_u in HT. unfold ExtractMatches. change (MAX_BLOCK_BASE_SIZE / 60) with 16666. assert (forall y : uint256, y <> y -> False) as Hno by done.
  destruct (Z.eqb_spec (nTransactions x) 0); [do 4 eexists; split; [done|by intros ?%Hno]|].
  destruct (Z.ltb_spec 16666 (nTransactions x)); [do 4 eexists; split; [done|by intros ?%Hno]|].
  destruct (Z.ltb_spec (nTransactions x) (zlen (vHash x))); [do 4 eexists; split; [done|by intros ?%Hno]|].
  destruct (Z.ltb_spec (zlen (vBits x)) (zlen (vHash x))); [do 4 eexists; split; [done|by intros ?%Hno]|].
  destruct (tree_height_total (nTransactions x) ltac:(lia)) as (d & Ed & Hd). rewrite Ed. cbn [res_bind].
  destruct (extract_any x [] d Hb Hh Hd 0 (mk_progress (fBad x) 0 0 [] vi0)) as (r & st' & vm & vi & E & _); [split; cbn; unfold zlen; lia|].
  rewrite E. cbn [res_bind]. destruct (bad st') eqn:Eb; [do 4 eexists; split; [done|by intros ?%Hno]|].
  destruct (negb _); [do 4 eexists; split; [done|by intros ?%Hno]|]. destruct (negb _); [do 4 eexists; split; [done|by intros ?%Hno]|].
  do 4 eexists. split; [done|]. intros _. split; [lia|]. by exists d, st'.
Qed.
End any.

(** ** Properties *)

(** The positions a mask selects, in order. *)
Definition matched (vMatch : list bool) : list Z := filter (fun p => vMatch !!! Z.to_nat p = true) (seqZ 0 (zlen vMatch)).

Lemma hashes_wf Hash L vMatch : (forall x, wf256 (Hash x)) -> 0 < zlen L <= 16666 -> Forall wf256 L ->
  forall k pos, 0 <= pos < width L k -> Forall wf256 (hashes Hash L vMatch k pos).
Proof.
  intros HH Hn HL. induction k as [|k IH]; intros pos Hp; cbn [hashes].
  - constructor; [by apply node_wf|constructor].
  - destruct (children L Hn k pos Hp) as (C0 & C1 & _). case_bool; [|constructor; [by apply node_wf|constructor]].
    apply Forall_app. split; [by apply IH|]. destruct (Z.ltb_spec (2 * pos + 1) (width L k)); [apply IH; lia|constructor].
Qed.

(** The whole bytes that carry the bits are all used. *)
Lemma padded_bytes (m : nat) : Z.of_nat m < 2 ^ 31 -> u32 (Z.of_nat m + 7) / 8 = (Z.of_nat (8 * ((m + 7) / 8)) + 7) / 8 /\ (m <= 8 * ((m + 7) / 8) < m + 8)%nat.
Proof.
  intros Hm. rewrite wrap_small by (unfold in_u; lia). pose proof (Nat.div_mod_eq (m + 7) 8). pose proof (Nat.mod_upper_bound (m + 7) 8 ltac:(lia)).
  split; [|lia]. rewrite Nat2Z.inj_mul, Nat2Z.inj_div, Nat2Z.inj_add. change (Z.of_nat 8) with 8. change (Z.of_nat 7) with 7.
  rewrite (Z.mul_comm 8), Z.div_add_l by lia. change (7 / 8) with 0. lia.
Qed.

Lemma extract_built Hash L vMatch pad d : (forall x, wf256 (Hash x)) -> 0 < zlen L <= 16666 -> length vMatch = length L -> siblings_differ Hash L ->
  (d <= 15)%nat -> width L d = 1 -> tree_height 31 (zlen L) 0 = Ok d ->
  (pad = 0%nat \/ pad = (8 * ((length (bits L vMatch d 0) + 7) / 8) - length (bits L vMatch d 0))%nat) ->
  exists y', ExtractMatches Hash (mk (zlen L) (bits L vMatch d 0 ++ replicate pad false) (hashes Hash L vMatch d 0) false) [] =
    Ok (node Hash L d 0, map (fun p => L !!! Z.to_nat p) (matched vMatch), matched vMatch, y').
Proof.
  intros HH Hn Hm Hd Hd15 Hw Et Hpad. set (x := mk _ _ _ _). destruct (sizes Hash L Hn vMatch Hm d 0 Hd15 ltac:(lia)) as (S1 & S2 & S3).
  pose proof (small_pow d Hd15) as Hpow. assert (zlen (below L d 0) = zlen L) as Hbelow.
  { unfold below, zlen. rewrite length_seqZ. pose proof (proj1 (width_le_1 L d ltac:(unfold zlen in Hn; lia)) Hw). fold (zlen L). unfold zlen in *. rewrite Z.mul_0_l, Z.min_r by lia. lia. }
  assert (positions L vMatch d 0 = matched vMatch) as Hpos.
  { unfold positions, matched, below. pose proof (proj1 (width_le_1 L d ltac:(unfold zlen in Hn; lia)) Hw) as Hle. unfold zlen in *. rewrite Z.mul_0_l, Z.min_r, Z.sub_0_r, Hm by lia. done. }
  pose proof (padded_bytes (length (bits L vMatch d 0)) ltac:(unfold zlen in *; lia)) as [Hpb Hpl].
  unfold ExtractMatches. cbn [nTransactions x vHash vBits fBad]. change (MAX_BLOCK_BASE_SIZE / 60) with 16666.
  rewrite (proj2 (Z.eqb_neq _ _)), (proj2 (Z.ltb_ge 16666 _)), (proj2 (Z.ltb_ge (zlen L) _)) by lia.
  rewrite (proj2 (Z.ltb_ge _ (zlen (hashes Hash L vMatch d 0)))) by (unfold zlen in *; rewrite length_app; lia).
  rewrite Et. cbn [res_bind].
  destruct (extract_spec Hash L Hn vMatch Hm x Hd eq_refl) with (k := d) (pos := 0) (bs := @nil bool) (hs := @nil uint256) (st := mk_progress false 0 0 [] [])
    as (st' & -> & (R1 & R2 & _) & R3 & R4 & R5); [unfold zlen in *; cbn [x vBits vHash]; rewrite ?length_app, ?length_replicate; lia|unfold zlen in *; cbn [x vHash]; lia|done|lia
    |split; [done|split; [done|split; apply prefix_nil]]|cbn [app x vBits]; by eexists|cbn [app x vHash]; by exists []; rewrite app_nil_r|].
  cbn [res_bind bad vMatch_out vnIndex app] in *. rewrite R3, R1, R2, R4, R5, Hpos. unfold zlen at 1 3 4. rewrite Z.eqb_refl.
  assert (u32 (Z.of_nat (length (bits L vMatch d 0)) + 7) / 8 = (zlen (bits L vMatch d 0 ++ replicate pad false) + 7) / 8) as ->.
  { unfold zlen. rewrite length_app, length_replicate. destruct Hpad as [-> | ->].
    - rewrite Nat.add_0_r, wrap_small by (unfold in_u, zlen in *; lia). done.
    - rewrite Hpb. do 3 f_equal. lia. }
  rewrite Z.eqb_refl. by eexists.
Qed.

(** A partial Merkle tree made for any selection of the transactions of a
    block, whether as it was made or written and read through any stream, gives
    back the block's Merkle root and exactly the selected transaction ids with
    their positions, if no node of the block's tree equals its sibling. *)
Lemma partial_merkle_roundtrip (Hash : bytes -> uint256) (L : list uint256) (vMatch : list bool) (sizeof_uint256 : Z) :
  (forall x, wf256 (Hash x)) -> 0 < sizeof_uint256 <= 5000000 -> Forall wf256 L -> 0 < zlen L <= 16666 -> length vMatch = length L ->
  siblings_differ Hash L ->
  exists x x' root m, make Hash L vMatch = Ok x /\ ComputeMerkleRoot Hash L = Ok (root, m) /\
    (forall (S : Type) (H1 : Stream S) (H2 : StreamLaws S), reads (Codec.Unserialize (codec sizeof_uint256) S) (Codec.Serialize (codec sizeof_uint256) x) x') /\
    forall y, y = x \/ y = x' -> exists y', ExtractMatches Hash y [] = Ok (root, map (fun p => L !!! Z.to_nat p) (matched vMatch), matched vMatch, y').
Proof.
  intros HH Hsz HL Hn Hm Hd. destruct (tree_root_spec Hash L Hn) as (root & m & d & Er & <- & Hd15 & Hw & Hj). pose proof (tree_height_spec L Hn d Hw Hj Hd15) as Et.
  destruct (sizes Hash L Hn vMatch Hm d 0 Hd15 ltac:(lia)) as (S1 & S2 & S3). pose proof (small_pow d Hd15) as Hpow.
  set (b := bits L vMatch d 0) in *. set (h := hashes Hash L vMatch d 0) in *.
  exists (mk (zlen L) b h false), (mk (zlen L) (unpack (pack b)) h false), (node Hash L d 0), m. split_and!.
  - unfold make. rewrite wrap_small by (unfold in_u; lia). rewrite Et. cbn [res_bind]. rewrite build_spec by (done || lia). done.
  - done.
  - intros S H1 H2. destruct (pack_spec b) as (Hl & Hb8 & _).
    refine (c_map_reads _ _ _ S (zlen L, (h, pack b)) _ _).
    refine (law_reads (Lawful := c_pair_lawful c_u32 _ _ _ c_u32_lawful (c_pair_lawful _ c_bytes _ _ (c_vector_lawful c_uint256 wf256 sizeof_uint256 c_uint256_lawful Hsz) c_bytes_lawful)) S _ _).
    cbn [fst snd nTransactions vBits vHash]. split_and!.
    + unfold in_u. lia.
    + unfold zlen, MAX_SIZE in *. lia.
    + apply hashes_wf; [done..|lia].
    + unfold blob_ok, MAX_SIZE. rewrite Hl. pose proof (padded_bytes (length b) ltac:(unfold zlen in *; lia)). unfold zlen in *. lia.
  - intros y Hy. assert (exists pad, y = mk (zlen L) (b ++ replicate pad false) h false /\ (pad = 0%nat \/ pad = (8 * ((length b + 7) / 8) - length b)%nat)) as (pad & -> & Hpad).
    { destruct Hy as [-> | ->]; [exists 0%nat; cbn [replicate]; rewrite app_nil_r; auto|]. rewrite unpack_pack. eexists. split; [done|]. by right. }
    by apply extract_built.
Qed.


