(* ===== verification/MerkleBlock.v ===== *)
(** Merkle blocks: [CMerkleBlock] of src/sige/src/merkleblock.h and merkleblock.cpp,
    the header of a block with the partial tree of the transactions that a Bloom
    filter, or a set of ids, selects. *)

From S2P Require Import Prelude Bytes BaseUint UintBytes Uint256 Serialize Codec Header Opcode Prevector ScriptNum Script Amount Transaction Merkle Block PubKey Interpreter Standard Bloom PartialMerkle.
Import CPartialMerkleTree.

Module CMerkleBlock.
Record t := mk {
  header : CBlockHeader;
  txn : CPartialMerkleTree.t;
  vMatchedTxn : list (Z * uint256);
}.

Section merkle_block.
Context (WORDS_BIGENDIAN : bool) (Hash : bytes -> uint256).

(** [for (i = 0; i < block.vtx.size(); i++)]: the mask, the ids, the matches and the filter. *)
Fixpoint filter_loop (i : Z) (vtx : list CTransaction) (filter : CBloomFilter.t) : res (list bool * list uint256 * list (Z * uint256) * CBloomFilter.t) :=
  match vtx with
  | [] => Ok ([], [], [], filter)
  | tx :: vtx =>
      let hash := GetHash tx in
      let? (relevant, filter) := CBloomFilter.IsRelevantAndUpdate WORDS_BIGENDIAN tx filter in
      let? (vMatch, vHashes, vMatchedTxn, filter) := filter_loop (u32 (i + 1)) vtx filter in
      Ok (relevant :: vMatch, hash :: vHashes, (if relevant : bool then [(i, hash)] else []) ++ vMatchedTxn, filter)
  end.

Definition of_filter (block : CBlock) (filter : CBloomFilter.t) : res (t * CBloomFilter.t) :=
  let? (vMatch, vHashes, vMatchedTxn, filter) := filter_loop 0 (vtx block) filter in
  let? txn := CPartialMerkleTree.make Hash vHashes vMatch in
  Ok (mk (Block.GetBlockHeader block) txn vMatchedTxn, filter).

(** The set is the list of its elements. *)
Definition of_txids (block : CBlock) (txids : list uint256) : res t :=
  let vMatch := map (fun tx => existsb (BaseUint.op_eq (GetHash tx)) txids) (vtx block) in
  let? txn := CPartialMerkleTree.make Hash (map GetHash (vtx block)) vMatch in
  Ok (mk (Block.GetBlockHeader block) txn []).

Context (sizeof_uint256 : Z).
Definition codec : Codec.codec t :=
  c_map (c_pair Header.c_header (CPartialMerkleTree.codec sizeof_uint256)) (fun '(h, tr) => mk h tr []) (fun b => (header b, txn b)).
End merkle_block.
End CMerkleBlock.

Import CMerkleBlock.

(** The matches that a mask selects, from position [i] on. *)
Fixpoint selected (i : Z) (vMatch : list bool) (L : list uint256) : list (Z * uint256) :=
  match vMatch, L with
  | b :: vMatch, h :: L => (if b : bool then [(i, h)] else []) ++ selected (i + 1) vMatch L
  | _, _ => []
  end.

Lemma filter_loop_spec be : forall vtx i f, filter_ok f -> Forall scripts_ok vtx -> 0 <= i -> i + zlen vtx < 2 ^ 32 ->
  exists vMatch f', filter_loop be i vtx f = Ok (vMatch, map GetHash vtx, selected i vMatch (map GetHash vtx), f') /\ length vMatch = length vtx /\
    forall j tx, vtx !! j = Some tx -> touches be f tx -> vMatch !! j = Some true.
Proof.
  induction vtx as [|tx vtx IH]; intros i f Hok Hs Hi Hl; cbn [filter_loop]; [by exists [], f|].
  apply Forall_cons_1 in Hs as [Ht Hs]. rewrite zlen_cons in Hl. pose proof (zlen_nonneg vtx).
  destruct (IsRelevantAndUpdate_spec be f tx Hok Ht) as (b & f1 & -> & Hok1 & Hext & Hb & _). cbn [res_bind]. rewrite wrap_small by (unfold in_u; lia).
  destruct (IH (i + 1) f1 Hok1 Hs) as (vm & f' & -> & Hlen & Hj); [lia|lia|]. cbn [res_bind]. exists (b :: vm), f'. split; [done|]. split; [cbn; lia|].
  intros [|j] tx' E Htx; [injection E as <-; cbn; f_equal; by apply Hb|]. cbn. apply (Hj j tx' E). by eapply touches_extends.
Qed.

Lemma selected_spec L : forall vMatch i, 0 <= i -> length vMatch = length L ->
  forall p h, (p, h) ∈ selected i vMatch L <-> i <= p /\ vMatch !! Z.to_nat (p - i) = Some true /\ L !! Z.to_nat (p - i) = Some h.
Proof.
  induction L as [|x L IH]; intros [|b vMatch] i Hi Hl p h; try done; cbn [selected].
  - split; [intros Hx; by apply elem_of_nil in Hx|]. intros (_ & E & _). by rewrite lookup_nil in E.
  - rewrite elem_of_app, (IH vMatch (i + 1)) by (lia || (cbn in Hl; lia)). destruct (decide (p = i)) as [->|Hne].
    + rewrite Z.sub_diag. cbn. destruct b.
      * rewrite list_elem_of_singleton. split; [intros [[= ->]|[? _]]; [done|lia]|]. intros (_ & _ & [= ->]). by left.
      * rewrite elem_of_nil. split; [intros [[]|[? _]]; lia|by intros (_ & ? & _)].
    + replace (Z.to_nat (p - i)) with (if decide (i < p) then S (Z.to_nat (p - (i + 1))) else Z.to_nat (p - i)) by (case_decide; lia).
      destruct (decide (i < p)).
      * cbn. split; [intros [Hx|(? & ? & ?)]; [|split_and!; done || lia]|intros (? & ? & ?); right; split_and!; done || lia].
        destruct b; [apply list_elem_of_singleton in Hx; congruence|by apply elem_of_nil in Hx].
      * split; [intros [Hx|(? & _)]; [|lia]|intros (? & _); lia]. destruct b; [apply list_elem_of_singleton in Hx; congruence|by apply elem_of_nil in Hx].
Qed.

Lemma filter_ext_in {A} (P Q : A -> Prop) `{forall x, Decision (P x), forall x, Decision (Q x)} (l : list A) :
  (forall x, x ∈ l -> P x <-> Q x) -> filter P l = filter Q l.
Proof.
  induction l as [|x l IH]; intros HPQ; [done|]. rewrite !filter_cons, IH by (intros y Hy; apply HPQ; by right).
  pose proof (HPQ x (list_elem_of_here x l)). repeat case_decide; tauto.
Qed.

(** The positions and the ids of the matches are what the tree yields. *)
Lemma selected_matched L : forall vMatch i, 0 <= i -> length vMatch = length L ->
  map fst (selected i vMatch L) = filter (fun p => vMatch !!! Z.to_nat (p - i) = true) (seqZ i (zlen vMatch)) /\
  map snd (selected i vMatch L) = map (fun p => L !!! Z.to_nat (p - i)) (map fst (selected i vMatch L)).
Proof.
  induction L as [|x L IH]; intros [|b vMatch] i Hi Hl; try done. cbn [selected]. rewrite zlen_cons. pose proof (zlen_nonneg vMatch). rewrite (seqZ_cons i) by lia.
  replace (Z.pred (zlen vMatch + 1)) with (zlen vMatch) by lia. change (Z.succ i) with (i + 1). destruct (IH vMatch (i + 1)) as [E1 E2]; [lia|cbn in Hl; lia|].
  assert (forall A `{Inhabited A} (y : A) l p, i + 1 <= p -> (y :: l) !!! Z.to_nat (p - i) = l !!! Z.to_nat (p - (i + 1))) as Hsh.
  { intros A ? y l p Hp. by replace (Z.to_nat (p - i)) with (S (Z.to_nat (p - (i + 1)))) by lia. }
  assert (map fst (selected (i + 1) vMatch L) = filter (fun p => (b :: vMatch) !!! Z.to_nat (p - i) = true) (seqZ (i + 1) (zlen vMatch))) as E3.
  { rewrite E1. apply filter_ext_in. intros p [Hp _]%elem_of_seqZ. by rewrite (Hsh bool). }
  assert (map snd (selected (i + 1) vMatch L) = map (fun p => (x :: L) !!! Z.to_nat (p - i)) (map fst (selected (i + 1) vMatch L))) as E4.
  { rewrite E2. apply map_ext_in. intros p Hp%list_elem_of_In. rewrite E1 in Hp. apply list_elem_of_filter in Hp as [_ [Hp _]%elem_of_seqZ]. by rewrite (Hsh uint256). }
  rewrite filter_cons, Z.sub_diag. cbn [Z.to_nat]. rewrite !map_app, E4, E3. destruct b; cbn [map app fst snd].
  - rewrite decide_True by done. cbn [map]. by rewrite Z.sub_diag.
  - by rewrite decide_False by done.
Qed.

(** ** Properties *)

(** C33: the Merkle block that a node makes of a block for a Bloom filter names every
    transaction relevant to the filter and only transactions of the block; a client
    that reads it from any stream has the header of the block, and the partial
    tree gives it the Merkle root of the block and exactly the transactions named,
    if no node of the block's tree equals its sibling. *)
Theorem merkle_block_correct (be : bool) (Hash : bytes -> uint256) (sizeof_uint256 : Z) (block : CBlock) (f : CBloomFilter.t) :
  (forall x, wf256 (Hash x)) -> 0 < sizeof_uint256 <= 5000000 -> filter_ok f -> Forall scripts_ok (vtx block) -> Header.wf_header (Block.header block) ->
  Forall (fun tx => wf256 (GetHash tx)) (vtx block) -> 0 < zlen (vtx block) <= 16666 -> siblings_differ Hash (map GetHash (vtx block)) ->
  exists mb f' mb' root m, of_filter be Hash block f = Ok (mb, f') /\ Block.BlockMerkleRoot Hash block = Ok (root, m) /\
    (forall (S : Type) (H1 : Stream S) (H2 : StreamLaws S), reads (Codec.Unserialize (codec sizeof_uint256) S) (Codec.Serialize (codec sizeof_uint256) mb) mb') /\
    header mb' = Block.header block /\
    (exists x', ExtractMatches Hash (txn mb') [] = Ok (root, map snd (vMatchedTxn mb), map fst (vMatchedTxn mb), x')) /\
    (forall p h, (p, h) ∈ vMatchedTxn mb -> exists tx, vtx block !! Z.to_nat p = Some tx /\ h = GetHash tx) /\
    (forall j tx, vtx block !! j = Some tx -> relevant be f tx -> (Z.of_nat j, GetHash tx) ∈ vMatchedTxn mb).
Proof.
  intros HH Hsz Hok Hs Hh Hw Hn Hd. set (L := map GetHash (vtx block)) in *. assert (zlen L = zlen (vtx block)) as HlL by (unfold zlen, L; by rewrite length_map).
  destruct (filter_loop_spec be (vtx block) 0 f Hok Hs) as (vm & f' & E & Hlen & Hrel); [lia|lia|]. fold L in E.
  assert (length vm = length L) as Hlm by (unfold L; by rewrite length_map).
  destruct (partial_merkle_roundtrip Hash L vm sizeof_uint256 HH Hsz) as (x & x' & root & m & Em & Er & Hreads & Hex); [by apply Forall_map|lia|done|done|].
  exists (mk (Block.GetBlockHeader block) x (selected 0 vm L)), f', (mk (Block.GetBlockHeader block) x' []), root, m.
  assert (Block.GetBlockHeader block = Block.header block) as Eh by (by destruct block as [[] ? ?]).
  split; [unfold of_filter; rewrite E; cbn [res_bind]; by rewrite Em|]. split; [exact Er|]. split.
  { intros S H1 H2. refine (c_map_reads _ _ _ S (Block.GetBlockHeader block, x') _ _). cbn [header txn]. apply c_pair_reads; [|apply Hreads].
    apply law_reads. by rewrite Eh. }
  split; [exact Eh|]. split; [|split].
  - destruct (Hex x' (or_intror eq_refl)) as (y' & Ey). exists y'. cbn [txn vMatchedTxn]. rewrite Ey. destruct (selected_matched L vm 0 ltac:(lia) Hlm) as [E1 E2].
    assert (matched vm = map fst (selected 0 vm L)) as -> by (rewrite E1; apply filter_ext_in; intros p _; by rewrite Z.sub_0_r).
    rewrite E2. do 4 f_equal. apply map_ext. intros p. by rewrite Z.sub_0_r.
  - cbn [vMatchedTxn]. intros p h Hin. apply selected_spec in Hin as (_ & _ & El); [|lia|done]. rewrite Z.sub_0_r in El. unfold L in El. rewrite list_lookup_fmap in El.
    destruct (vtx block !! Z.to_nat p) as [tx|]; [|done]. exists tx. split; [done|]. by injection El as <-.
  - cbn [vMatchedTxn]. intros j tx Ej Hr. apply selected_spec; [lia|done|]. rewrite Z.sub_0_r, Nat2Z.id. split; [lia|]. split; [eapply Hrel; [done|by apply relevant_touches]|].
    unfold L. rewrite list_lookup_fmap, Ej. done.
Qed.

(** A block of three transactions; the second pays to the element that the filter holds. *)
Definition demo_block : CBlock :=
  let h i := [i; 0; 0; 0; 0; 0; 0; 0] in
  let tx i s := mk_CTransaction (mk_tx 1 [] [CTxOut.mk 10 s] 0) (h i) in
  mk_block (Build_CBlockHeader 1 (h 0) (h 12) 0 0 0) [tx 1 [1; 7]; tx 2 [1; 9]; tx 3 []] false.
Definition demo_filter : CBloomFilter.t := CBloomFilter.mk [24; 0; 0; 0; 0; 0; 1; 0] false false 3 5 0.

Lemma demo_siblings : siblings_differ toy_hash (map GetHash (vtx demo_block)).
Proof.
  intros k pos Hk Hp. do 15 (destruct k as [|k]; [match goal with |- _ < ?w -> _ => let v := eval vm_compute in w in change w with v end;
    intros H; first [exfalso; lia|assert (pos = 0) as -> by lia; vm_compute; discriminate]|]). lia.
Qed.

Lemma merkle_block_correct_witness :
  let h i := [i; 0; 0; 0; 0; 0; 0; 0] in
  exists mb f' x', of_filter true toy_hash demo_block demo_filter = Ok (mb, f') /\ vMatchedTxn mb = [(1, h 2)] /\
    header mb = Block.header demo_block /\ ExtractMatches toy_hash (txn mb) [] = Ok (h 12, [h 2], [1], x').
Proof.
  intros h. destruct (merkle_block_correct true toy_hash 32 demo_block demo_filter toy_hash_wf) as (mb & f' & mb' & root & m & E & _ & _ & Eh & _ & _ & Hrel).
  - lia.
  - split; [repeat constructor; done|by vm_compute|by vm_compute|done|done].
  - repeat constructor; done.
  - repeat constructor; done.
  - repeat constructor; done.
  - by vm_compute.
  - exact demo_siblings.
  - set (tx := mk_CTransaction (mk_tx 1 [] [CTxOut.mk 10 [1; 9]] 0) (h 2)). assert (relevant true demo_filter tx) as Hr.
    { right; left. exists (CTxOut.mk 10 [1; 9]). split; [left|]. exists 1, [9]. split; [left|]. split; [discriminate|vm_compute; reflexivity]. }
    specialize (Hrel 1%nat tx eq_refl Hr). vm_compute in E. injection E as <- <-.
    eexists _, _, _. split; [vm_compute; reflexivity|]. split; [reflexivity|]. split; [reflexivity|vm_compute; reflexivity].
Defined.
