(* ===== verification/Base58.v ===== *)
(** Base 58: src/sige/src/base58.h, base58.cpp and base58string.h, and the texts of
    destinations of txdestination.cpp, script_id.cpp, pubkey.cpp and
    sigaddress.cpp.

    A text is the list of its characters, without the terminator. The vectors of
    digits are read and written through reverse iterators only, so a model
    holds them with their back first. The double SHA-256 and the prefixes of the
    network (chainparams) are parameters. *)

From S2P Require Import Prelude Bytes BaseUint UintBytes Uint256 Prevector Transaction PubKey Interpreter Standard.

Definition text (s : string) : bytes := map (fun c => Z.of_N (Ascii.N_of_ascii c)) (String.list_ascii_of_string s).
Definition pszBase58 : bytes := text "123456789ABCDEFGHJKLMNPQRSTUVWXYZabcdefghijkmnopqrstuvwxyz".

(** [strchr(pszBase58, c) - pszBase58] *)
Fixpoint char_index (c : Z) (psz : bytes) (i : Z) : option Z :=
  match psz with
  | [] => None
  | x :: psz => if c =? x then Some i else char_index c psz (i + 1)
  end.

(** A string passed as a pointer ends at its first zero. *)
Fixpoint c_str (s : bytes) : bytes :=
  match s with
  | [] => []
  | c :: s => if c =? 0 then [] else c :: c_str s
  end.

(** Skip and count the leading [c]. *)
Fixpoint count_loop (c : Z) (psz : bytes) (zeroes : Z) : Z * bytes :=
  match psz with
  | x :: psz' => if x =? c then count_loop c psz' (zeroes + 1) else (zeroes, psz)
  | [] => (zeroes, [])
  end.

(** [for (...; (carry != 0 || i < length) && (it != rend); ++it, ++i)]: the digits, the
    carry and [i]. *)
Fixpoint carry_loop (mul base carry i len : Z) (digits : list Z) : list Z * Z * Z :=
  match digits with
  | [] => ([], carry, i)
  | x :: digits' =>
      if negb (carry =? 0) || (i <? len) then
        let carry := carry + mul * x in
        let '(digits', carry', i') := carry_loop mul base (carry / base) (i + 1) len digits' in
        (carry mod base :: digits', carry', i')
      else (digits, carry, i)
  end.

(** The digits from [begin() + (size - length)], after their leading zeros. *)
Definition significant (digits : list Z) (len : Z) : list Z := snd (count_loop 0 (rev (take (Z.to_nat len) digits)) 0).

(** The characters up to a space: [None] for a character of no digit, or the digits,
    their number and what is left. *)
Fixpoint decode_loop (psz : bytes) (b256 : list Z) (len : Z) : res (option (list Z * Z * bytes)) :=
  match psz with
  | [] => Ok (Some (b256, len, []))
  | c :: psz' =>
      if isspace c then Ok (Some (b256, len, psz))
      else
        match char_index c pszBase58 0 with
        | None => Ok None
        | Some ch =>
            let '(b256, carry, i) := carry_loop 58 256 ch 0 len b256 in
            if negb (carry =? 0) then AssertFail else decode_loop psz' b256 i
        end
  end.

(** A vector of a negative size is refused. *)
Definition new_vector (size : Z) : res (list Z) := if size <? 0 then Throw "vector" else Ok (replicate (Z.to_nat size) 0).

Definition DecodeBase58 (psz : bytes) : res (option bytes) :=
  let psz := skip_space psz in
  let '(zeroes, psz) := count_loop 49 psz 0 in
  let? b256 := new_vector (swrap 32 (u64 (u64 (zlen psz * 733) / 1000 + 1))) in
  let? r := decode_loop psz b256 0 in
  match r with
  | None => Ok None
  | Some (b256, len, psz) =>
      if negb (bool_decide (skip_space psz = [])) then Ok None
      else Ok (Some (replicate (Z.to_nat zeroes) 0 ++ significant b256 len))
  end.

Fixpoint encode_loop (bs : bytes) (b58 : list Z) (len : Z) : res (list Z * Z) :=
  match bs with
  | [] => Ok (b58, len)
  | b :: bs =>
      let '(b58, carry, i) := carry_loop 256 58 b 0 len b58 in
      if negb (carry =? 0) then AssertFail else encode_loop bs b58 i
  end.

(** [EncodeBase58(pbegin, pend)] *)
Definition EncodeBase58 (bs : bytes) : res bytes :=
  let '(zeroes, bs) := count_loop 0 bs 0 in
  let? b58 := new_vector (swrap 32 (zlen bs * 138 / 100 + 1)) in
  let? (b58, len) := encode_loop bs b58 0 in
  Ok (replicate (Z.to_nat zeroes) 49 ++ map (fun d => pszBase58 !!! Z.to_nat d) (significant b58 len)).

(** [&vch[0]] of an empty vector has no value. *)
Definition EncodeBase58_vch (vch : bytes) : res bytes := if zlen vch =? 0 then Undef else EncodeBase58 vch.
Definition DecodeBase58_str (str : bytes) : res (option bytes) := DecodeBase58 (c_str str).

Section check.
Context (Hash : bytes -> uint256).

Definition EncodeBase58Check (vchIn : bytes) : res bytes := EncodeBase58_vch (vchIn ++ take 4 (pn_bytes (Hash vchIn))).

(** [Some] vector where the code returns true; it is cleared otherwise. *)
Definition DecodeBase58Check (psz : bytes) : res (option bytes) :=
  let? r := DecodeBase58 psz in
  match r with
  | None => Ok None
  | Some vch =>
      if zlen vch <? 4 then Ok None
      else
        let n := (length vch - 4)%nat in
        let hash := Hash (take n vch) in
        if negb (memcmp (take 4 (pn_bytes hash)) (drop n vch) =? 0) then Ok None else Ok (Some (take n vch))
  end.
Definition DecodeBase58Check_str (str : bytes) : res (option bytes) := DecodeBase58Check (c_str str).

End check.

Module CBase58Data.
Record t := mk { m_vchVersion : bytes; m_vchData : bytes }.
Definition make : t := mk [] [].
Definition SetData (vchVersionIn pdata : bytes) : t := mk vchVersionIn pdata.

Section data.
Context (Hash : bytes -> uint256).

(** The result and the object after it. *)
Definition _SetStringWithVersionBytes (psz : bytes) (nVersionBytes : Z) : res (bool * t) :=
  let? r := DecodeBase58Check Hash psz in
  match r with
  | None => Ok (false, make)
  | Some vchTemp =>
      if zlen vchTemp <? nVersionBytes then Ok (false, make)
      else if zlen vchTemp =? 0 then Undef (* [&vchTemp[0]] *)
      else Ok (true, mk (take (Z.to_nat nVersionBytes) vchTemp) (drop (Z.to_nat nVersionBytes) vchTemp))
  end.
Definition _SetString (psz : bytes) : res (bool * t) := _SetStringWithVersionBytes psz 1.
(** [_SetString(str)] and [SetBase58string(str)] *)
Definition _SetString_str (str : bytes) : res (bool * t) := _SetString (c_str str).
Definition _ToString (d : t) : res bytes := EncodeBase58Check Hash (m_vchVersion d ++ m_vchData d).
End data.

(** [operator<] of vectors. *)
Fixpoint vector_lt (a b : bytes) : bool :=
  match a, b with
  | _, [] => false
  | [], _ :: _ => true
  | x :: a, y :: b => (x <? y) || ((x =? y) && vector_lt a b)
  end.
Definition CompareTo (d b58 : t) : Z :=
  if vector_lt (m_vchVersion d) (m_vchVersion b58) then -1
  else if vector_lt (m_vchVersion b58) (m_vchVersion d) then 1
  else if vector_lt (m_vchData d) (m_vchData b58) then -1
  else if vector_lt (m_vchData b58) (m_vchData d) then 1
  else 0.
End CBase58Data.
Import CBase58Data.

Section addresses.
Context (Hash : bytes -> uint256).

(** [base58string]: the text is normalised when it is made from a text. *)
Definition base58string_of (sz : bytes) (nVersionBytes : Z) : res bytes :=
  let? (_, data) := _SetStringWithVersionBytes Hash sz nVersionBytes in
  _ToString Hash data.
Definition base58string_SetData (vchVersionIn pdata : bytes) : res bytes := _ToString Hash (SetData vchVersionIn pdata).

(** ** Addresses *)

Context (PUBKEY_ADDRESS SCRIPT_ADDRESS : bytes).

Definition GetBase58addressWithNetworkPrefix (dest : CTxDestination) : res bytes :=
  match dest with
  | CKeyID id => base58string_SetData PUBKEY_ADDRESS (pn_bytes id)
  | CScriptID id => base58string_SetData SCRIPT_ADDRESS (pn_bytes id)
  | CNoDestination => Ok []
  end.

(** [CSigAddress(strAddress)]: the result of the parse is not looked at. *)
Definition CSigAddress (strAddress : bytes) : res t :=
  let? (_, data_) := _SetString_str Hash strAddress in
  Ok data_.
Definition IsValid (data_ : t) : bool :=
  (zlen (m_vchData data_) =? 20) && (bool_decide (m_vchVersion data_ = PUBKEY_ADDRESS) || bool_decide (m_vchVersion data_ = SCRIPT_ADDRESS)).
Definition Get (data_ : t) : CTxDestination :=
  if negb (IsValid data_) then CNoDestination
  else
    let id := limbs_of_bytes WIDTH160 (m_vchData data_) in
    if bool_decide (m_vchVersion data_ = PUBKEY_ADDRESS) then CKeyID id
    else if bool_decide (m_vchVersion data_ = SCRIPT_ADDRESS) then CScriptID id
    else CNoDestination.
Definition GetKeyID (data_ : t) : option limbs :=
  if negb (IsValid data_) || negb (bool_decide (m_vchVersion data_ = PUBKEY_ADDRESS)) then None
  else Some (limbs_of_bytes WIDTH160 (m_vchData data_)).
Definition IsScript (data_ : t) : bool := IsValid data_ && bool_decide (m_vchVersion data_ = SCRIPT_ADDRESS).
End addresses.

(** ** Numbers in a base *)

Section base.
Context (base : Z) (Hbase : 2 <= base).

Definition digits_ok (l : list Z) : Prop := Forall (fun d => 0 <= d < base) l.

(** The value of digits, the last first, and first to last on from [v]. *)
Fixpoint dval (l : list Z) : Z := match l with [] => 0 | x :: l => x + base * dval l end.
Definition horner (v : Z) (l : list Z) : Z := foldl (fun v d => base * v + d) v l.

Lemma dval_nonneg l : digits_ok l -> 0 <= dval l.
Proof. induction 1 as [|x l Hx _ IH]; cbn [dval]; [lia|nia]. Qed.

Lemma dval_app a b : dval (a ++ b) = dval a + base ^ zlen a * dval b.
Proof.
  induction a as [|x a IH]; cbn [app dval]; [change (zlen (@nil Z)) with 0; lia|]. rewrite IH, zlen_cons. pose proof (zlen_nonneg a). rewrite Z.pow_add_r by lia. lia.
Qed.

Lemma dval_zeros l : Forall (fun d => d = 0) l -> dval l = 0.
Proof. induction 1 as [|x l -> _ IH]; cbn [dval]; lia. Qed.

Lemma horner_app v a b : horner v (a ++ b) = horner (horner v a) b.
Proof. apply foldl_app. Qed.

Lemma horner_rev l : horner 0 (rev l) = dval l.
Proof. induction l as [|x l IH]; [done|]. cbn [rev dval]. rewrite horner_app, IH. cbn. lia. Qed.

Lemma horner_zeros n l : horner 0 (replicate n 0 ++ l) = horner 0 l.
Proof. rewrite horner_app. f_equal. induction n as [|n IH]; [done|]. cbn [replicate]. unfold horner in *. cbn [foldl]. by replace (base * 0 + 0) with 0 by lia. Qed.

Lemma horner_bound l : digits_ok l -> forall v, 0 <= v -> v <= horner v l /\ horner v l + 1 <= base ^ zlen l * (v + 1).
Proof.
  induction 1 as [|x l Hx _ IH]; intros v Hv; [change (zlen (@nil Z)) with 0; cbn; lia|]. unfold horner in *. cbn [foldl]. destruct (IH (base * v + x)) as [H1 H2]; [nia|].
  split; [nia|]. rewrite zlen_cons. pose proof (zlen_nonneg l). rewrite Z.pow_add_r by lia. rewrite Z.pow_1_r. assert (0 < base ^ zlen l) by (apply Z.pow_pos_nonneg; lia). nia.
Qed.

(** Without leading zeros the digits are unique. *)
Definition canonical (l : list Z) : Prop := digits_ok l /\ head l <> Some 0.

Lemma canonical_pos l : canonical l -> l <> [] -> 0 < horner 0 l.
Proof.
  intros [Hd Hh] Hl. destruct l as [|x l]; [done|]. apply Forall_cons_1 in Hd as [Hx Hd]. assert (x <> 0) by (intros ->; by apply Hh).
  change (horner 0 (x :: l)) with (horner (base * 0 + x) l). destruct (horner_bound l Hd (base * 0 + x)); lia.
Qed.

Lemma canonical_prefix l d : canonical (l ++ [d]) -> canonical l /\ 0 <= d < base.
Proof.
  intros [[Hd Hx]%Forall_app Hh]. apply Forall_cons_1 in Hx as [Hx _]. split; [|done]. split; [done|]. by destruct l.
Qed.

Lemma canonical_unique l1 : forall l2, canonical l1 -> canonical l2 -> horner 0 l1 = horner 0 l2 -> l1 = l2.
Proof.
  induction l1 as [|d1 l1 IH] using rev_ind; intros l2 H1 H2 E.
  - destruct l2 as [|x l2]; [done|]. pose proof (canonical_pos (x :: l2) H2 ltac:(done)). change (horner 0 []) with 0 in E. lia.
  - destruct l2 as [|d2 l2' _] using rev_ind.
    + pose proof (canonical_pos (l1 ++ [d1]) H1 ltac:(by destruct l1)). change (horner 0 []) with 0 in E. lia.
    + destruct (canonical_prefix _ _ H1) as [C1 D1], (canonical_prefix _ _ H2) as [C2 D2]. rewrite !horner_app in E. change (base * horner 0 l1 + d1 = base * horner 0 l2' + d2) in E.
      destruct (Z.div_mod_unique base (horner 0 l1) (horner 0 l2') d1 d2) as [Eh ->]; [by left|by left|done|]. by rewrite (IH l2').
Qed.

(** *** The loop over the digits *)

Lemma carry_loop_spec mul : 0 <= mul -> forall l carry i len, digits_ok l -> 0 <= carry -> Forall (fun d => d = 0) (drop (Z.to_nat (len - i)) l) ->
  exists l' c' i', carry_loop mul base carry i len l = (l', c', i') /\ length l' = length l /\ digits_ok l' /\ 0 <= c' /\ i <= i' <= i + zlen l /\
    dval l' + base ^ zlen l * c' = mul * dval l + carry /\ Forall (fun d => d = 0) (drop (Z.to_nat (i' - i)) l').
Proof.
  intros Hmul. induction l as [|x l IH]; intros carry i len Hd Hc Hz; cbn [carry_loop].
  { exists [], carry, i. change (zlen (@nil Z)) with 0. cbn [dval]. split_and!; try done; try lia. by rewrite drop_nil. }
  rewrite zlen_cons. pose proof (zlen_nonneg l). apply Forall_cons_1 in Hd as [Hx Hd]. destruct (negb (carry =? 0) || (i <? len)) eqn:E.
  - assert (Forall (fun d => d = 0) (drop (Z.to_nat (len - (i + 1))) l)) as Hz'.
    { destruct (decide (i < len)); [replace (Z.to_nat (len - i)) with (S (Z.to_nat (len - (i + 1)))) in Hz by lia; done|].
      replace (Z.to_nat (len - i)) with 0%nat in Hz by lia. apply Forall_cons_1 in Hz as [_ Hz]. by apply Forall_drop. }
    destruct (IH ((carry + mul * x) / base) (i + 1) len Hd) as (l' & c' & i' & -> & L & D & C & I & V & Z'); [apply Z.div_pos; nia|done|].
    exists ((carry + mul * x) mod base :: l'), c', i'. pose proof (Z.mod_pos_bound (carry + mul * x) base ltac:(lia)). pose proof (Z.div_mod (carry + mul * x) base ltac:(lia)).
    split; [done|]. split; [cbn; lia|]. split; [by constructor|]. split; [done|]. split; [lia|]. cbn [dval]. split.
    + rewrite Z.pow_add_r by lia. nia.
    + replace (Z.to_nat (i' - i)) with (S (Z.to_nat (i' - (i + 1)))) by lia. done.
  - bool_hyps. subst carry. replace (Z.to_nat (len - i)) with 0%nat in Hz by lia. exists (x :: l), 0, i. split; [done|]. split; [done|]. split; [by constructor|]. split; [lia|]. split; [lia|].
    split; [rewrite (dval_zeros (x :: l)) by done; lia|]. by replace (Z.to_nat (i - i)) with 0%nat by lia.
Qed.

(** The vector holds the value [v] in its first [len] digits. *)
Definition holds (size : Z) (l : list Z) (len v : Z) : Prop :=
  digits_ok l /\ zlen l = size /\ 0 <= len <= size /\ dval l = v /\ Forall (fun d => d = 0) (drop (Z.to_nat len) l).

Lemma holds_new size : 0 <= size -> holds size (replicate (Z.to_nat size) 0) 0 0.
Proof.
  intros Hs. split; [apply Forall_replicate; lia|]. split; [unfold zlen; rewrite length_replicate; lia|]. split; [lia|].
  assert (Forall (fun d => d = 0) (replicate (Z.to_nat size) 0)) as Hz by by apply Forall_replicate. split; [by apply dval_zeros|]. by apply Forall_drop.
Qed.

Lemma carry_step mul size l len v carry : 0 <= mul -> holds size l len v -> 0 <= carry -> mul * v + carry < base ^ size ->
  exists l' i', carry_loop mul base carry 0 len l = (l', 0, i') /\ holds size l' i' (mul * v + carry).
Proof.
  intros Hm (D & S & L & V & Z) Hc Hb. destruct (carry_loop_spec mul Hm l carry 0 len D Hc) as (l' & c' & i' & E & E1 & E2 & E3 & E4 & E5 & E6); [by rewrite Z.sub_0_r|].
  rewrite Z.sub_0_r in E6. rewrite S, V in *. pose proof (dval_nonneg l' E2). assert (0 < base ^ size) by (apply Z.pow_pos_nonneg; lia). assert (c' = 0) as -> by nia.
  exists l', i'. split; [done|]. split; [done|]. split; [unfold zlen in *; lia|]. split; [lia|]. split; [lia|done].
Qed.

Lemma count_loop_spec c s : forall z, exists n r, count_loop c s z = (z + Z.of_nat n, r) /\ s = replicate n c ++ r /\ head r <> Some c.
Proof.
  induction s as [|x s IH]; intros z; cbn [count_loop]; [exists 0%nat, []; split; [f_equal; lia|done]|]. destruct (Z.eqb_spec x c) as [->|Hx].
  - destruct (IH (z + 1)) as (n & r & -> & -> & Hr). exists (S n), r. split; [f_equal; lia|done].
  - exists 0%nat, (x :: s). split; [f_equal; lia|]. split; [done|]. by intros [= ->].
Qed.

Lemma count_loop_exact c n r z : head r <> Some c -> count_loop c (replicate n c ++ r) z = (z + Z.of_nat n, r).
Proof.
  intros Hr. revert z. induction n as [|n IH]; intros z; cbn [replicate app].
  - destruct r as [|x r]; cbn [count_loop]; [f_equal; lia|]. rewrite (proj2 (Z.eqb_neq x c)) by (intros ->; by apply Hr). f_equal; lia.
  - cbn [count_loop]. rewrite Z.eqb_refl, IH. f_equal; lia.
Qed.

Lemma significant_spec size l len v : holds size l len v -> canonical (significant l len) /\ horner 0 (significant l len) = v /\ zlen (significant l len) <= size.
Proof.
  intros (D & S & L & V & Z). unfold significant. destruct (count_loop_spec 0 (rev (take (Z.to_nat len) l)) 0) as (n & r & -> & E & Hr). cbn [snd].
  assert (digits_ok (rev (take (Z.to_nat len) l))) as Dr by (apply Forall_rev; by apply Forall_take). rewrite E in Dr. apply Forall_app in Dr as [_ Dr].
  split; [by split|]. split.
  - rewrite <- (horner_zeros n r), <- E, horner_rev, <- V. rewrite <- (take_drop (Z.to_nat len) l) at 2. rewrite dval_app, (dval_zeros (drop _ l)) by done. lia.
  - apply (f_equal length) in E. rewrite length_rev, length_app, length_take in E. unfold zlen in *. lia.
Qed.
End base.

(** *** The sizes of the vectors *)

Lemma pow_size a b k m n : 2 <= a -> 2 <= b -> 0 < k -> 0 <= m -> a ^ k <= b ^ m -> 0 <= n -> a ^ n <= b ^ (m * n / k + 1).
Proof.
  intros Ha Hb Hk Hm H Hn. assert (0 <= m * n / k) by (apply Z.div_pos; nia). apply Z.nlt_ge. intros Hlt.
  assert ((b ^ (m * n / k + 1)) ^ k < (a ^ n) ^ k) as H1 by (apply Z.pow_lt_mono_l; [lia|]; split; [apply Z.pow_nonneg; lia|done]).
  rewrite <- !Z.pow_mul_r in H1 by lia. rewrite (Z.mul_comm n k) in H1.
  assert ((a ^ k) ^ n <= (b ^ m) ^ n) as H2 by (apply Z.pow_le_mono_l; split; [apply Z.pow_nonneg; lia|done]). rewrite <- !Z.pow_mul_r in H2 by lia.
  assert (b ^ (m * n) <= b ^ ((m * n / k + 1) * k)); [|lia]. apply Z.pow_le_mono_r; [lia|]. pose proof (Z.mod_pos_bound (m * n) k Hk). pose proof (Z.div_mod (m * n) k ltac:(lia)). nia.
Qed.

Lemma encode_size n : 0 <= n -> 256 ^ n <= 58 ^ (n * 138 / 100 + 1).
Proof. intros Hn. rewrite (Z.mul_comm n). apply pow_size; lia. Qed.
Lemma decode_size n : 0 <= n -> 58 ^ n <= 256 ^ (n * 733 / 1000 + 1).
Proof. intros Hn. rewrite (Z.mul_comm n). apply pow_size; lia. Qed.

(** *** Characters *)

Definition chr58 (d : Z) : Z := pszBase58 !!! Z.to_nat d.
Abbreviation chars := (map chr58).

Lemma chr58_facts d : 0 <= d < 58 -> char_index (chr58 d) pszBase58 0 = Some d /\ isspace (chr58 d) = false /\ (chr58 d = 49 -> d = 0) /\ 0 < chr58 d < 128.
Proof.
  intros Hd. assert (Forall (fun d => char_index (chr58 d) pszBase58 0 = Some d /\ isspace (chr58 d) = false /\ (chr58 d = 49 -> d = 0) /\ 0 < chr58 d < 128) (seqZ 0 58)) as H.
  { change (seqZ 0 58) with (ltac:(let l := eval vm_compute in (seqZ 0 58) in exact l)). repeat apply Forall_cons_2; [..|apply Forall_nil_2]; (split; [vm_compute; reflexivity|split; [vm_compute; reflexivity|split; [vm_compute; congruence|vm_compute; auto]]]). }
  rewrite Forall_forall in H. apply H. apply elem_of_seqZ. lia.
Qed.

Lemma char_index_lookup c psz : forall i d, char_index c psz i = Some d -> i <= d /\ psz !! Z.to_nat (d - i) = Some c.
Proof.
  induction psz as [|x psz IH]; intros i d; cbn [char_index]; [done|]. destruct (Z.eqb_spec c x) as [->|_].
  - intros [= ->]. split; [lia|]. by replace (d - d) with 0 by lia.
  - intros [H1 H2]%IH. split; [lia|]. by replace (Z.to_nat (d - i)) with (S (Z.to_nat (d - (i + 1)))) by lia.
Qed.

Lemma char_index_chr c d : char_index c pszBase58 0 = Some d -> 0 <= d < 58 /\ chr58 d = c.
Proof.
  intros [H1 H2]%char_index_lookup. rewrite Z.sub_0_r in H2. split; [|by apply list_lookup_total_correct].
  apply lookup_lt_Some in H2. change (length pszBase58) with 58%nat in H2. lia.
Qed.

(** *** The conversions *)

Lemma horner_nonneg base l v : 2 <= base -> digits_ok base l -> 0 <= v -> 0 <= horner base v l.
Proof. intros Hb Hl Hv. destruct (horner_bound base Hb l Hl v Hv). lia. Qed.

Lemma encode_loop_spec size : forall bs b58 len v, digits_ok 256 bs -> holds 58 size b58 len v -> 0 <= v -> horner 256 v bs < 58 ^ size ->
  exists b58' len', encode_loop bs b58 len = Ok (b58', len') /\ holds 58 size b58' len' (horner 256 v bs).
Proof.
  induction bs as [|b bs IH]; intros b58 len v Hd Hh Hv Hs; [by exists b58, len|]. apply Forall_cons_1 in Hd as [Hb Hd].
  change (horner 256 v (b :: bs)) with (horner 256 (256 * v + b) bs) in *. destruct (horner_bound 256 ltac:(lia) bs Hd (256 * v + b)) as [H1 _]; [lia|].
  destruct (carry_step 58 ltac:(lia) 256 size b58 len v b ltac:(lia) Hh) as (l' & i' & E & Hh'); [lia|lia|]. cbn [encode_loop]. rewrite E. cbn [Z.eqb negb]. apply IH; [done|done|lia|done].
Qed.

(** What ends the characters of base 58. *)
Definition ends58 (rest : bytes) : Prop := head rest = None \/ (exists c, head rest = Some c /\ isspace c = true).

Lemma decode_loop_spec size rest : ends58 rest -> forall ds b256 len v, digits_ok 58 ds -> holds 256 size b256 len v -> 0 <= v -> horner 58 v ds < 256 ^ size ->
  exists b256' len', decode_loop (chars ds ++ rest) b256 len = Ok (Some (b256', len', rest)) /\ holds 256 size b256' len' (horner 58 v ds).
Proof.
  intros Hr. induction ds as [|d ds IH]; intros b256 len v Hd Hh Hv Hs.
  - exists b256, len. split; [|done]. cbn [map app]. destruct rest as [|c rest]; [done|]. destruct Hr as [|(c' & [= <-] & Hc)]; [done|]. cbn [decode_loop]. by rewrite Hc.
  - apply Forall_cons_1 in Hd as [Hb Hd]. destruct (chr58_facts d Hb) as (Hi & Hsp & _).
    change (horner 58 v (d :: ds)) with (horner 58 (58 * v + d) ds) in *. destruct (horner_bound 58 ltac:(lia) ds Hd (58 * v + d)) as [H1 _]; [lia|].
    destruct (carry_step 256 ltac:(lia) 58 size b256 len v d ltac:(lia) Hh) as (l' & i' & E & Hh'); [lia|lia|]. cbn [map app decode_loop]. rewrite Hsp, Hi, E. cbn [Z.eqb negb]. apply IH; [done|done|lia|done].
Qed.

(** A character of no digit. *)
Lemma decode_loop_refused size c rest : isspace c = false -> char_index c pszBase58 0 = None -> forall ds b256 len v, digits_ok 58 ds -> holds 256 size b256 len v -> 0 <= v ->
  horner 58 v ds < 256 ^ size -> decode_loop (chars ds ++ c :: rest) b256 len = Ok None.
Proof.
  intros Hsp0 Hc. induction ds as [|d ds IH]; intros b256 len v Hd Hh Hv Hs.
  - cbn [map app decode_loop]. by rewrite Hsp0, Hc.
  - apply Forall_cons_1 in Hd as [Hb Hd]. destruct (chr58_facts d Hb) as (Hi & Hsp & _).
    change (horner 58 v (d :: ds)) with (horner 58 (58 * v + d) ds) in *. destruct (horner_bound 58 ltac:(lia) ds Hd (58 * v + d)) as [H1 _]; [lia|].
    destruct (carry_step 256 ltac:(lia) 58 size b256 len v d ltac:(lia) Hh) as (l' & i' & E & Hh'); [lia|lia|]. cbn [map app decode_loop]. rewrite Hsp, Hi, E. cbn [Z.eqb negb]. eapply IH; [done|done|lia|done].
Qed.

(** Any text starts with characters of base 58. *)
Lemma split58 psz : exists ds rest, psz = chars ds ++ rest /\ digits_ok 58 ds /\ (ends58 rest \/ exists c r, rest = c :: r /\ isspace c = false /\ char_index c pszBase58 0 = None).
Proof.
  induction psz as [|c psz (ds & rest & -> & Hd & Hr)]; [exists [], []; split; [done|]; split; [constructor|]; left; by left|].
  destruct (isspace c) eqn:Hs; [exists [], (c :: chars ds ++ rest); split; [done|]; split; [constructor|]; left; right; by exists c|].
  destruct (char_index c pszBase58 0) as [d|] eqn:Hc; [|exists [], (c :: chars ds ++ rest); split; [done|]; split; [constructor|]; right; by exists c, (chars ds ++ rest)].
  destruct (char_index_chr c d Hc) as [Hd' <-]. exists (d :: ds), rest. split; [done|]. split; [by constructor|done].
Qed.

(** *** The encoding of bytes *)

Definition is_encoding (bs t : bytes) : Prop :=
  exists n bs' ds, bs = replicate n 0 ++ bs' /\ t = replicate n 49 ++ chars ds /\ canonical 256 bs' /\ canonical 58 ds /\ horner 58 0 ds = horner 256 0 bs'.

Lemma chars_no_one ds : canonical 58 ds -> head (chars ds) <> Some 49.
Proof. intros [Hd Hh]. destruct ds as [|d ds]; [done|]. apply Forall_cons_1 in Hd as [Hd _]. cbn. intros [= E]. apply Hh. cbn. f_equal. by apply (chr58_facts d Hd). Qed.

Lemma chars_inj l1 l2 : digits_ok 58 l1 -> digits_ok 58 l2 -> chars l1 = chars l2 -> l1 = l2.
Proof.
  intros H1. revert l2. induction H1 as [|x l1 Hx _ IH]; intros [|y l2] H2 E; try done. apply Forall_cons_1 in H2 as [Hy H2]. injection E as E1 E2.
  f_equal; [|by apply IH]. destruct (chr58_facts x Hx) as [Ex _], (chr58_facts y Hy) as [Ey _]. congruence.
Qed.

(** A list starts with one number of a value. *)
Lemma leading_unique (c : Z) n1 : forall n2 r1 r2, head r1 <> Some c -> head r2 <> Some c -> replicate n1 c ++ r1 = replicate n2 c ++ r2 -> n1 = n2 /\ r1 = r2.
Proof.
  induction n1 as [|n1 IH]; intros [|n2] r1 r2 H1 H2 E; cbn [replicate app] in E; [done|subst r1; by destruct H1|subst r2; by destruct H2|].
  injection E as E. destruct (IH n2 r1 r2 H1 H2 E) as [-> ->]. done.
Qed.

Lemma encoding_decodes bs1 bs2 t : is_encoding bs1 t -> is_encoding bs2 t -> bs1 = bs2.
Proof.
  intros (n1 & b1 & d1 & -> & -> & B1 & D1 & E1) (n2 & b2 & d2 & -> & Et & B2 & D2 & E2).
  destruct (leading_unique 49 n1 n2 (chars d1) (chars d2)) as [-> Ec]; [by apply chars_no_one|by apply chars_no_one|done|].
  apply chars_inj in Ec; [subst d2|by destruct D1|by destruct D2]. f_equal. apply (canonical_unique 256); [lia|done|done|congruence].
Qed.

Lemma encoding_unique bs t1 t2 : is_encoding bs t1 -> is_encoding bs t2 -> t1 = t2.
Proof.
  intros (n1 & b1 & d1 & -> & -> & B1 & D1 & E1) (n2 & b2 & d2 & Eb & -> & B2 & D2 & E2).
  destruct (leading_unique 0 n1 n2 b1 b2) as [-> ->]; [by destruct B1|by destruct B2|done|]. do 2 f_equal. apply (canonical_unique 58); [lia|done|done|congruence].
Qed.

Lemma zlen_replicate {A} n (x : A) : zlen (replicate n x) = Z.of_nat n.
Proof. unfold zlen. by rewrite length_replicate. Qed.

Lemma EncodeBase58_spec bs : digits_ok 256 bs -> zlen bs <= 10 ^ 9 -> exists t, EncodeBase58 bs = Ok t /\ is_encoding bs t.
Proof.
  intros Hd Hl. unfold EncodeBase58. destruct (count_loop_spec 0 bs 0) as (n & r & -> & -> & Hr). apply Forall_app in Hd as [_ Hd]. rewrite zlen_app in Hl. pose proof (zlen_nonneg r). pose proof (zlen_nonneg (replicate n 0)).
  set (size := zlen r * 138 / 100 + 1). assert (0 <= zlen r * 138 / 100) as Hq by (apply Z.div_pos; lia).
  assert (zlen r * 138 / 100 <= 1380000000) by (apply Z.div_le_upper_bound; lia). rewrite (swrap_small 32 size) by (unfold in_s; subst size; lia). unfold new_vector. rewrite (proj2 (Z.ltb_ge size 0)) by lia. cbn [res_bind].
  destruct (horner_bound 256 ltac:(lia) r Hd 0 ltac:(lia)) as [Hp Hv]. pose proof (encode_size (zlen r) ltac:(lia)) as Hz. fold size in Hz.
  destruct (encode_loop_spec size r (replicate (Z.to_nat size) 0) 0 0) as (b58' & len' & -> & Hh); [done|apply holds_new; lia|lia|lia|]. cbn [res_bind].
  eexists. split; [done|]. destruct (significant_spec 58 size b58' len' _ Hh) as (C & V & _). exists n, r, (significant b58' len'). rewrite Z.add_0_l, Nat2Z.id. split_and!; try done.
Qed.

Lemma skip_space_spec psz : exists sp, psz = sp ++ skip_space psz /\ Forall (fun c => isspace c = true) sp /\ (forall c, head (skip_space psz) = Some c -> isspace c = false).
Proof.
  induction psz as [|c psz (sp & E & Hs & Hh)]; [by exists []|]. cbn [skip_space]. destruct (isspace c) eqn:Hc.
  - exists (c :: sp). split; [cbn; by rewrite <- E|]. split; [by constructor|done].
  - exists []. split; [done|]. split; [done|]. by intros c' [= <-].
Qed.

Lemma skip_spaces sp psz : Forall (fun c => isspace c = true) sp -> (forall c, head psz = Some c -> isspace c = false) -> skip_space (sp ++ psz) = psz.
Proof.
  intros Hs Hh. induction Hs as [|c sp Hc _ IH]; cbn [app]; [|cbn [skip_space]; by rewrite Hc]. destruct psz as [|c psz]; [done|]. cbn [skip_space]. by rewrite (Hh c eq_refl).
Qed.

(** What the decoding finds, from the first character that is no space and no ['1']. *)
Lemma decode_digits r : zlen r <= 2 * 10 ^ 9 -> head r <> Some 49 ->
  exists size, new_vector (swrap 32 (u64 (u64 (zlen r * 733) / 1000 + 1))) = Ok (replicate (Z.to_nat size) 0) /\
    size = zlen r * 733 / 1000 + 1 /\
    (decode_loop r (replicate (Z.to_nat size) 0) 0 = Ok None /\ (forall ds rest, r = chars ds ++ rest -> digits_ok 58 ds -> ~ ends58 rest) \/
     exists ds rest b256 len, r = chars ds ++ rest /\ canonical 58 ds /\ ends58 rest /\ decode_loop r (replicate (Z.to_nat size) 0) 0 = Ok (Some (b256, len, rest)) /\ holds 256 size b256 len (horner 58 0 ds)).
Proof.
  intros Hl Hh. pose proof (zlen_nonneg r). set (size := zlen r * 733 / 1000 + 1). assert (0 <= zlen r * 733 / 1000) by (apply Z.div_pos; lia).
  assert (zlen r * 733 / 1000 <= 1466000000) by (apply Z.div_le_upper_bound; lia). exists size.
  rewrite (wrap_small 64 (zlen r * 733)) by (unfold in_u; lia). fold size. rewrite (wrap_small 64 size) by (unfold in_u; subst size; lia). rewrite (swrap_small 32 size) by (unfold in_s; subst size; lia).
  split; [unfold new_vector; by rewrite (proj2 (Z.ltb_ge size 0)) by lia|]. split; [done|]. destruct (split58 r) as (ds & rest & Er & Hd & Hr).
  assert (zlen ds <= zlen r) as Hz by (rewrite Er, zlen_app; unfold zlen; rewrite length_map; lia).
  destruct (horner_bound 58 ltac:(lia) ds Hd 0 ltac:(lia)) as [Hp Hv]. pose proof (decode_size (zlen r) ltac:(lia)) as Hs. fold size in Hs.
  assert (58 ^ zlen ds <= 58 ^ zlen r) by (apply Z.pow_le_mono_r; lia).
  destruct Hr as [Hr|(c & r' & -> & Hsp & Hc)].
  - right. destruct (decode_loop_spec size rest Hr ds (replicate (Z.to_nat size) 0) 0 0) as (b256 & len & E & Hb); [done|apply holds_new; lia|lia|lia|]. exists ds, rest, b256, len. rewrite Er at 2. split; [done|].
    split; [|done]. split; [done|]. intros E0. apply Hh. rewrite Er. destruct ds as [|d ds]; [done|]. injection E0 as ->. vm_compute. reflexivity.
  - left. split; [rewrite Er; eapply (decode_loop_refused size c r'); [done|done|done|apply holds_new; lia|lia|lia]|].
    intros ds' rest' E' Hd' Hr'. rewrite Er in E'. clear - E' Hd Hd' Hr' Hsp Hc. revert ds' E' Hd'. induction Hd as [|d ds Hx _ IH]; intros [|d' ds'] E' Hd'; cbn in E'.
    + subst rest'. destruct Hr' as [|(c' & [= <-] & Hc')]; [done|congruence].
    + injection E' as -> _. apply Forall_cons_1 in Hd' as [Hd' _]. destruct (chr58_facts d' Hd') as [E _]. congruence.
    + subst rest'. destruct (chr58_facts d Hx) as (_ & E & _). destruct Hr' as [|(c' & [= <-] & Hc')]; [done|congruence].
    + injection E' as _ E'. apply Forall_cons_1 in Hd' as [_ Hd']. by apply (IH ds').
Qed.

Lemma split58_unique ds rest : forall ds' rest', chars ds ++ rest = chars ds' ++ rest' -> digits_ok 58 ds -> digits_ok 58 ds' -> ends58 rest -> ends58 rest' -> ds = ds' /\ rest = rest'.
Proof.
  assert (forall d l, 0 <= d < 58 -> ~ ends58 (chr58 d :: l)) as Hno.
  { intros d l Hd [Hn|(c & [= <-] & Hc)]; [done|]. destruct (chr58_facts d Hd) as (_ & E & _). congruence. }
  induction ds as [|d ds IH]; intros [|d' ds'] rest' E H1 H2 E1 E2; cbn [map app] in E; [done| | |].
  - subst rest. apply Forall_cons_1 in H2 as [H2 _]. by destruct (Hno d' (chars ds' ++ rest') H2).
  - subst rest'. apply Forall_cons_1 in H1 as [H1 _]. by destruct (Hno d (chars ds ++ rest) H1).
  - injection E as E0 E. apply Forall_cons_1 in H1 as [Hd H1]. apply Forall_cons_1 in H2 as [Hd' H2]. destruct (IH ds' rest' E H1 H2 E1 E2) as [-> ->].
    destruct (chr58_facts d Hd) as [X _], (chr58_facts d' Hd') as [Y _]. split; [congruence|done].
Qed.

Abbreviation spaces := (Forall (fun c => isspace c = true)).

(** The text is the encoding of [bs] between spaces. *)
Definition written (psz bs : bytes) : Prop :=
  exists sp1 t sp2, psz = sp1 ++ t ++ sp2 /\ spaces sp1 /\ spaces sp2 /\ is_encoding bs t.

Lemma ends_spaces sp : spaces sp -> ends58 sp.
Proof. intros [|c l Hc _]; [by left|right; by exists c]. Qed.

Lemma ends_not_one rest : ends58 rest -> head rest <> Some 49.
Proof. intros [->|(c & -> & Hc)]; [done|]. by intros [= ->]. Qed.

Lemma app_not_one ds rest : canonical 58 ds -> ends58 rest -> head (chars ds ++ rest) <> Some 49.
Proof. intros Hd Hr. pose proof (chars_no_one ds Hd). destruct ds; [by apply ends_not_one|done]. Qed.

Lemma written_parts psz bs : written psz bs -> exists n bs' ds sp, skip_space psz = replicate n 49 ++ chars ds ++ sp /\ spaces sp /\
  bs = replicate n 0 ++ bs' /\ canonical 256 bs' /\ canonical 58 ds /\ horner 58 0 ds = horner 256 0 bs'.
Proof.
  intros (sp1 & t & sp2 & -> & H1 & H2 & (n & bs' & ds & -> & -> & B & D & V)). destruct (decide (n = 0%nat /\ ds = [])) as [[-> ->]|Hn].
  - exists 0%nat, bs', [], []. cbn [replicate map app]. rewrite <- (app_nil_r (sp1 ++ sp2)), skip_spaces; [done|by apply Forall_app|done].
  - exists n, bs', ds, sp2. rewrite skip_spaces; [by rewrite <- app_assoc|done|]. intros c. destruct n as [|n]; cbn [replicate app]; [|by intros [= <-]].
    destruct ds as [|d ds]; [by destruct Hn|]. intros [= <-]. destruct D as [[Hd _]%Forall_cons_1 _]. by apply (chr58_facts d Hd).
Qed.

Lemma DecodeBase58_spec psz : zlen psz <= 2 * 10 ^ 9 ->
  exists r, DecodeBase58 psz = Ok r /\ (forall bs, r = Some bs -> digits_ok 256 bs) /\ (forall bs, r = Some bs <-> written psz bs).
Proof.
  intros Hl. unfold DecodeBase58. destruct (skip_space_spec psz) as (sp & Ep & Hsp & Hns). destruct (count_loop_spec 49 (skip_space psz) 0) as (n & r & Ec & Er & Hr). rewrite Ec. cbv iota beta.
  assert (zlen r <= 2 * 10 ^ 9) as Hlr by (pose proof (zlen_nonneg sp); pose proof (zlen_nonneg (replicate n 49)); rewrite Ep, Er, !zlen_app in Hl; lia).
  assert (forall bs, written psz bs -> exists bs' ds' sp', r = chars ds' ++ sp' /\ spaces sp' /\ bs = replicate n 0 ++ bs' /\ canonical 256 bs' /\ canonical 58 ds' /\ horner 58 0 ds' = horner 256 0 bs') as Hw.
  { intros bs (n' & bs' & ds' & sp' & E & Hs & -> & B & D & V)%written_parts. rewrite Er in E.
    destruct (leading_unique 49 n n' r (chars ds' ++ sp') Hr) as [-> ->]; [by apply app_not_one, ends_spaces|done|]. by exists bs', ds', sp'. }
  destruct (decode_digits r Hlr Hr) as (size & -> & _ & Hcase). cbn [res_bind].
  destruct Hcase as [[-> Hno]|(ds & rest & b256 & len & Ed & D & He & -> & Hh)]; cbn [res_bind].
  - exists None. split; [done|]. split; [done|]. intros bs. split; [done|]. intros (bs' & ds' & sp' & E & Hs & _ & _ & [D' _] & _)%Hw. by destruct (Hno ds' sp' E D' (ends_spaces sp' Hs)).
  - destruct (skip_space_spec rest) as (sp2 & Erest & Hsp2 & _). destruct (decide (skip_space rest = [])) as [Hs|Hs].
    + rewrite bool_decide_eq_true_2 by done. cbn [negb]. rewrite Hs, app_nil_r in Erest. subst sp2. destruct (significant_spec 256 size b256 len _ Hh) as (C & V & _). rewrite Z.add_0_l, Nat2Z.id.
      assert (written psz (replicate n 0 ++ significant b256 len)) as W.
      { exists sp, (replicate n 49 ++ chars ds), rest. split; [by rewrite Ep, Er, Ed, <- app_assoc|]. split; [done|]. split; [done|]. exists n, (significant b256 len), ds. by split_and!. }
      eexists. split; [done|]. split; [intros bs [= <-]; apply Forall_app; split; [apply Forall_replicate; lia|by destruct C]|]. intros bs. split; [by intros [= <-]|].
      intros (bs' & ds' & sp' & E & Hs' & -> & B & D' & V')%Hw. rewrite Ed in E. destruct (split58_unique ds rest ds' sp' E) as [-> _]; [by destruct D|by destruct D'|done|by apply ends_spaces|].
      do 2 f_equal. apply (canonical_unique 256); [lia|done|done|congruence].
    + rewrite bool_decide_eq_false_2 by done. cbn [negb]. exists None. split; [done|]. split; [done|]. intros bs. split; [done|].
      intros (bs' & ds' & sp' & E & Hs' & _ & _ & D' & _)%Hw. rewrite Ed in E. destruct (split58_unique ds rest ds' sp' E) as [_ ->]; [by destruct D|by destruct D'|done|by apply ends_spaces|].
      destruct Hs. rewrite <- (app_nil_r sp'). by apply skip_spaces.
Qed.

(** *** Lengths and checksums *)

Lemma horner_lower base l : 2 <= base -> digits_ok base l -> forall v, 0 <= v -> base ^ zlen l * v <= horner base v l.
Proof.
  intros Hb. induction 1 as [|x l Hx _ IH]; intros v Hv; [change (zlen (@nil Z)) with 0; cbn; lia|]. change (horner base v (x :: l)) with (horner base (base * v + x) l).
  specialize (IH (base * v + x) ltac:(nia)). rewrite zlen_cons. pose proof (zlen_nonneg l). rewrite Z.pow_add_r, Z.pow_1_r by lia. assert (0 < base ^ zlen l) by (apply Z.pow_pos_nonneg; lia). nia.
Qed.

(** The bytes are not more than the characters. *)
Lemma encoding_length bs t : is_encoding bs t -> zlen bs <= zlen t.
Proof.
  intros (n & b & ds & -> & -> & [Hb Hh] & [Hd _] & E). rewrite !zlen_app, !zlen_replicate. assert (zlen (chars ds) = zlen ds) as -> by (unfold zlen; by rewrite length_map).
  apply Z.add_le_mono_l. destruct b as [|x b]; [change (zlen (@nil Z)) with 0; apply zlen_nonneg|]. apply Forall_cons_1 in Hb as [Hx Hb]. assert (x <> 0) by (intros ->; by apply Hh).
  pose proof (horner_lower 256 b ltac:(lia) Hb (256 * 0 + x) ltac:(lia)) as H1. change (horner 256 (256 * 0 + x) b) with (horner 256 0 (x :: b)) in H1.
  destruct (horner_bound 58 ltac:(lia) ds Hd 0 ltac:(lia)) as [_ H2]. pose proof (zlen_nonneg ds). pose proof (zlen_nonneg b). rewrite zlen_cons. apply Z.nlt_ge. intros Hlt.
  assert (58 ^ zlen ds <= 256 ^ zlen b); [|assert (0 < 256 ^ zlen b) by (apply Z.pow_pos_nonneg; lia); nia].
  transitivity (256 ^ zlen ds); [apply Z.pow_le_mono_l; lia|apply Z.pow_le_mono_r; lia].
Qed.

Lemma encoding_c_str bs t : is_encoding bs t -> c_str t = t.
Proof.
  assert (forall s, Forall (fun c => c <> 0) s -> c_str s = s) as Hc by (induction 1 as [|c s H _ IH]; [done|]; cbn [c_str]; rewrite (proj2 (Z.eqb_neq c 0) H); by rewrite IH).
  intros (n & b & ds & -> & -> & _ & [Hd _] & _). apply Hc, Forall_app. split; [by apply Forall_replicate|]. apply Forall_map. eapply Forall_impl; [exact Hd|]. intros d Hx. destruct (chr58_facts d Hx) as (_ & _ & _ & H). cbn. lia.
Qed.

Section checked.
Context (Hash : bytes -> uint256) (Hash_wf : forall b, wf256 (Hash b)).

Definition checksum (b : bytes) : bytes := take 4 (pn_bytes (Hash b)).
Lemma checksum_length b : length (checksum b) = 4%nat.
Proof. unfold checksum. rewrite length_take, pn_bytes_len by apply Hash_wf. done. Qed.
Lemma checksum_bytes b : byte_list (checksum b).
Proof. apply Forall_take, pn_bytes_bytes. Qed.

Lemma EncodeBase58Check_spec v : byte_list v -> zlen v <= 10 ^ 9 - 4 -> exists t, EncodeBase58Check Hash v = Ok t /\ is_encoding (v ++ checksum v) t.
Proof.
  intros Hv Hl. unfold EncodeBase58Check, EncodeBase58_vch. fold (checksum v). assert (zlen (v ++ checksum v) = zlen v + 4) as E by (rewrite zlen_app; unfold zlen; rewrite checksum_length; lia). pose proof (zlen_nonneg v).
  rewrite (proj2 (Z.eqb_neq _ _)) by lia. apply EncodeBase58_spec; [apply Forall_app; split; [done|apply checksum_bytes]|lia].
Qed.

Lemma DecodeBase58Check_spec psz : zlen psz <= 2 * 10 ^ 9 ->
  exists r, DecodeBase58Check Hash psz = Ok r /\ (forall v, r = Some v -> byte_list v) /\ (forall v, r = Some v <-> written psz (v ++ checksum v)).
Proof.
  intros Hl. unfold DecodeBase58Check. destruct (DecodeBase58_spec psz Hl) as (r & -> & Hb & Hr). cbn [res_bind]. destruct r as [vch|].
  2:{ exists None. split; [done|]. split; [done|]. intros v. split; [done|]. by intros H%Hr. }
  specialize (Hb vch eq_refl). destruct (Z.ltb_spec (zlen vch) 4).
  { exists None. split; [done|]. split; [done|]. intros v. split; [done|]. intros [= ->]%Hr. rewrite zlen_app in *. pose proof (zlen_nonneg v). unfold zlen in *. rewrite checksum_length in *. lia. }
  set (n := (length vch - 4)%nat). fold (checksum (take n vch)). assert (length (drop n vch) = 4%nat) as Hd by (rewrite length_drop; unfold zlen in *; lia).
  assert (forall v, Some vch = Some (v ++ checksum v) -> take n vch = v /\ drop n vch = checksum v) as Hs.
  { intros v [= E]. assert (n = length v) as En by (subst n; rewrite E, length_app, checksum_length; lia). rewrite E, En. by rewrite take_app_length, drop_app_length. }
  destruct (memcmp_cases (checksum (take n vch)) (drop n vch)) as [[-> E]|H']; [by rewrite checksum_length| |].
  - cbn [Z.eqb negb]. eexists. split; [done|]. split; [intros v [= <-]; by apply Forall_take|]. intros v. split; [intros [= <-]; apply Hr; by rewrite E, take_drop|]. intros H1%Hr. f_equal. by apply Hs.
  - exists None. split; [by destruct H' as [[-> _]|[-> _]]|]. split; [done|]. intros v. split; [done|]. intros H1%Hr. destruct (Hs v H1) as [E1 E2]. rewrite E1, E2, memcmp_refl in H'. lia.
Qed.
End checked.

(** The characters are at most two for each byte. *)
Lemma encoding_length2 bs t : is_encoding bs t -> zlen t <= 2 * zlen bs.
Proof.
  intros (n & b & ds & -> & -> & [Hb _] & [Hd Hh] & E). rewrite !zlen_app, !zlen_replicate. assert (zlen (chars ds) = zlen ds) as -> by (unfold zlen; by rewrite length_map).
  assert (zlen ds <= 2 * zlen b); [|lia]. pose proof (zlen_nonneg b). destruct ds as [|x ds]; [change (zlen (@nil Z)) with 0; lia|].
  apply Forall_cons_1 in Hd as [Hx Hd]. assert (x <> 0) by (intros ->; by apply Hh).
  pose proof (horner_lower 58 ds ltac:(lia) Hd (58 * 0 + x) ltac:(lia)) as H1. change (horner 58 (58 * 0 + x) ds) with (horner 58 0 (x :: ds)) in H1.
  destruct (horner_bound 256 ltac:(lia) b Hb 0 ltac:(lia)) as [_ H2]. pose proof (zlen_nonneg ds). rewrite zlen_cons. apply Z.nlt_ge. intros Hlt.
  assert (256 ^ zlen b <= 58 ^ zlen ds); [|assert (0 < 58 ^ zlen ds) by (apply Z.pow_pos_nonneg; lia); nia].
  transitivity (58 ^ (2 * zlen b)); [rewrite Z.pow_mul_r by lia; apply Z.pow_le_mono_l; lia|apply Z.pow_le_mono_r; lia].
Qed.

Section addressed.
Context (Hash : bytes -> uint256) (Hash_wf : forall b, wf256 (Hash b)) (P S : Z) (HP : in_u 8 P) (HS : in_u 8 S) (HPS : P <> S).

(** The version byte of a destination and its identifier. *)
Definition dest_version (dest : CTxDestination) : Z := match dest with CScriptID _ => S | _ => P end.
Definition dest_id (dest : CTxDestination) : option limbs := match dest with CKeyID id | CScriptID id => Some id | CNoDestination => None end.

Lemma address_spec dest id : dest_id dest = Some id -> wf WIDTH160 id ->
  exists t, GetBase58addressWithNetworkPrefix Hash [P] [S] dest = Ok t /\ is_encoding ((dest_version dest :: pn_bytes id) ++ checksum Hash (dest_version dest :: pn_bytes id)) t.
Proof.
  intros Hid Hw. assert (zlen (pn_bytes id) = 20) as Hl by (unfold zlen; rewrite length_pn_bytes, (wf_length WIDTH160) by done; done).
  assert (forall x, in_u 8 x -> exists t, base58string_SetData Hash [x] (pn_bytes id) = Ok t /\ is_encoding ((x :: pn_bytes id) ++ checksum Hash (x :: pn_bytes id)) t) as H.
  { intros x Hx. apply (EncodeBase58Check_spec Hash Hash_wf (x :: pn_bytes id)); [constructor; [done|apply pn_bytes_bytes]|rewrite zlen_cons; lia]. }
  destruct dest as [|i|i]; [done|..]; injection Hid as ->; [by apply (H P)|by apply (H S)].
Qed.

Lemma dest_get dest id : dest_id dest = Some id -> wf WIDTH160 id -> let d := CBase58Data.mk [dest_version dest] (pn_bytes id) in
  Get [P] [S] d = dest /\ GetKeyID [P] [S] d = (match dest with CKeyID id => Some id | _ => None end) /\ IsScript [P] [S] d = (match dest with CScriptID _ => true | _ => false end).
Proof.
  intros Hid Hw d. assert (zlen (pn_bytes id) = 20) as Hl by (unfold zlen; rewrite length_pn_bytes, (wf_length WIDTH160) by done; done).
  assert (IsValid [P] [S] d = true) as Hv.
  { unfold IsValid, d. cbn [m_vchData m_vchVersion]. rewrite Hl. cbn [Z.eqb Pos.eqb andb]. apply orb_true_iff. destruct dest; cbn [dest_version]; [left|left|right]; by apply bool_decide_eq_true. }
  unfold Get, GetKeyID, IsScript. rewrite Hv. unfold d. cbn [negb orb andb m_vchData m_vchVersion]. rewrite limbs_of_pn_bytes by done.
  destruct dest as [|i|i]; [done|..]; injection Hid as ->; cbn [dest_version].
  - rewrite !(bool_decide_eq_true_2 ([P] = [P])) by done. rewrite bool_decide_eq_false_2 by congruence. done.
  - rewrite !(bool_decide_eq_true_2 ([S] = [S])) by done. rewrite !(bool_decide_eq_false_2 ([S] = [P])) by congruence. done.
Qed.

Lemma pn_bytes_limbs data : byte_list data -> length data = (4 * WIDTH160)%nat -> wf WIDTH160 (limbs_of_bytes WIDTH160 data) /\ pn_bytes (limbs_of_bytes WIDTH160 data) = data.
Proof.
  intros Hb El. destruct (limbs_of_bytes_spec WIDTH160 data Hb El) as [Hwf Hval]. split; [done|].
  rewrite <- (le_bytes_val data) at 2 by done. rewrite <- Hval, <- (pn_bytes_val WIDTH160) by done. rewrite <- le_bytes_val at 1 by apply pn_bytes_bytes. f_equal. by rewrite length_pn_bytes, (wf_length WIDTH160).
Qed.

Lemma get_dest x data : byte_list (x :: data) -> Get [P] [S] (CBase58Data.mk [x] data) <> CNoDestination ->
  exists dest id, Get [P] [S] (CBase58Data.mk [x] data) = dest /\ dest_id dest = Some id /\ wf WIDTH160 id /\ pn_bytes id = data /\ dest_version dest = x.
Proof.
  intros Hb Hg. unfold Get, IsValid in *. cbn [m_vchData m_vchVersion] in *. destruct (Z.eqb_spec (zlen data) 20) as [El|]; [|by destruct Hg]. apply Forall_cons_1 in Hb as [Hx Hb].
  destruct (pn_bytes_limbs data Hb) as [Hwf Hpn]; [unfold zlen in El; change (4 * WIDTH160)%nat with 20%nat; lia|]. destruct (decide (x = P)) as [->|Np].
  - rewrite !(bool_decide_eq_true_2 ([P] = [P])) by done. cbn [andb orb negb]. eexists _, (limbs_of_bytes WIDTH160 data). split; [reflexivity|]. by split_and!.
  - rewrite !(bool_decide_eq_false_2 ([x] = [P])) in * by congruence. destruct (decide (x = S)) as [->|Ns]; [|rewrite !(bool_decide_eq_false_2 ([x] = [S])) in Hg by congruence; by destruct Hg].
    rewrite !(bool_decide_eq_true_2 ([S] = [S])) by done. cbn [andb orb negb]. eexists _, (limbs_of_bytes WIDTH160 data). split; [reflexivity|]. by split_and!.
Qed.

(** The object that is made from the version and the data. *)
Definition parsed (v : bytes) : CBase58Data.t := match v with [] => CBase58Data.make | x :: data => CBase58Data.mk [x] data end.

Lemma set_string_spec sz : zlen sz <= 2 * 10 ^ 9 -> exists v ok, _SetString Hash sz = Ok (ok, parsed v) /\ byte_list v /\
  (forall w, written sz (w ++ checksum Hash w) -> v = w) /\ (v <> [] -> written sz (v ++ checksum Hash v)).
Proof.
  intros Hl. unfold _SetString, _SetStringWithVersionBytes. destruct (DecodeBase58Check_spec Hash Hash_wf sz Hl) as (r & -> & Hb & Hr). cbn [res_bind].
  destruct r as [[|x data]|].
  - exists [], false. split; [done|]. split; [constructor|]. split; [|done]. by intros w [= <-]%Hr.
  - rewrite zlen_cons. pose proof (zlen_nonneg data). rewrite (proj2 (Z.ltb_ge _ _)) by lia. rewrite (proj2 (Z.eqb_neq _ _)) by lia.
    exists (x :: data), true. split; [done|]. split; [by apply Hb|]. split; [by intros w [= <-]%Hr|]. intros _. by apply Hr.
  - exists [], false. split; [done|]. split; [constructor|]. split; [|done]. by intros w H%Hr.
Qed.

Lemma CSigAddress_parsed v t : is_encoding (v ++ checksum Hash v) t -> zlen t <= 2 * 10 ^ 9 -> CSigAddress Hash t = Ok (parsed v).
Proof.
  intros Ht Hz. unfold CSigAddress, _SetString_str. rewrite (encoding_c_str _ _ Ht). destruct (set_string_spec t Hz) as (v' & ok & -> & _ & Hv & _). cbn [res_bind].
  rewrite (Hv v); [done|]. exists [], t, []. by rewrite app_nil_r.
Qed.

(** A text is normalised to the encoding of what it holds. *)
Lemma base58string_of_spec sz : zlen sz <= 10 ^ 9 -> exists v t, base58string_of Hash sz 1 = Ok t /\ byte_list v /\ is_encoding (v ++ checksum Hash v) t /\ zlen t <= 2 * 10 ^ 9 /\
  (forall w, written sz (w ++ checksum Hash w) -> v = w) /\ (v <> [] -> exists sp1 sp2, sz = sp1 ++ t ++ sp2 /\ spaces sp1 /\ spaces sp2).
Proof.
  intros Hl. unfold base58string_of. change (_SetStringWithVersionBytes Hash sz 1) with (_SetString Hash sz). destruct (set_string_spec sz ltac:(lia)) as (v & ok & -> & Hb & Hv & Hw). cbn [res_bind].
  assert (_ToString Hash (parsed v) = EncodeBase58Check Hash v) as -> by (by destruct v). assert (zlen (v ++ checksum Hash v) <= 10 ^ 9) as Hz.
  { destruct v as [|x v]; [unfold zlen; rewrite length_app, checksum_length by done; done|]. destruct (Hw ltac:(done)) as (sp1 & t & sp2 & -> & _ & _ & He). apply encoding_length in He.
    rewrite !zlen_app in Hl. pose proof (zlen_nonneg sp1). pose proof (zlen_nonneg sp2). lia. }
  destruct (EncodeBase58Check_spec Hash Hash_wf v Hb) as (t & Et & Ht); [rewrite zlen_app in Hz; unfold zlen in *; rewrite checksum_length in Hz by done; lia|].
  exists v, t. split; [done|]. split; [done|]. split; [done|]. split; [pose proof (encoding_length2 _ _ Ht); lia|]. split; [done|].
  intros Hn. destruct (Hw Hn) as (sp1 & t' & sp2 & -> & H1 & H2 & Ht'). rewrite (encoding_unique _ _ _ Ht Ht'). by exists sp1, sp2.
Qed.
End addressed.

(** C38: bytes are encoded, and the text gives them back between any spaces; a text is
    decoded to bytes if and only if it is their encoding between spaces, and no
    assertion of either direction fails. *)
Theorem base58_correct :
  (forall bs, byte_list bs -> zlen bs <= 10 ^ 9 -> exists t, EncodeBase58 bs = Ok t /\
    forall sp1 sp2, spaces sp1 -> spaces sp2 -> zlen (sp1 ++ t ++ sp2) <= 2 * 10 ^ 9 -> DecodeBase58 (sp1 ++ t ++ sp2) = Ok (Some bs)) /\
  (forall psz, zlen psz <= 10 ^ 9 -> exists r, DecodeBase58 psz = Ok r /\
    forall bs, r = Some bs <-> byte_list bs /\ zlen bs <= 10 ^ 9 /\ exists sp1 t sp2, psz = sp1 ++ t ++ sp2 /\ spaces sp1 /\ spaces sp2 /\ EncodeBase58 bs = Ok t).
Proof.
  split.
  - intros bs Hb Hl. destruct (EncodeBase58_spec bs Hb Hl) as (t & E & Ht). exists t. split; [done|]. intros sp1 sp2 H1 H2 Hz.
    destruct (DecodeBase58_spec _ Hz) as (r & -> & _ & Hr). f_equal. apply Hr. by exists sp1, t, sp2.
  - intros psz Hz. destruct (DecodeBase58_spec psz ltac:(lia)) as (r & Er & Hb & Hr). exists r. split; [done|]. intros bs. rewrite Hr. split.
    + intros W. pose proof (Hb bs (proj2 (Hr bs) W)) as Hbs. destruct W as (sp1 & t & sp2 & -> & H1 & H2 & Ht). assert (zlen bs <= 10 ^ 9) as Hl.
      { pose proof (encoding_length bs t Ht). rewrite !zlen_app in Hz. pose proof (zlen_nonneg sp1). pose proof (zlen_nonneg sp2). lia. }
      split; [exact Hbs|]. split; [done|]. exists sp1, t, sp2. split_and!; try done. destruct (EncodeBase58_spec bs Hbs Hl) as (t' & -> & Ht'). f_equal. by apply (encoding_unique bs).
    + intros (Hbs & Hl & sp1 & t & sp2 & -> & H1 & H2 & Et). destruct (EncodeBase58_spec bs Hbs Hl) as (t' & E & Ht). exists sp1, t, sp2. split_and!; try done. congruence.
Qed.

(** C39: every key and script has an address; a text with the address between spaces is
    normalised to it and parsed to the destination; and a text that is parsed to a
    destination holds its address. *)
Theorem address_roundtrip (Hash : bytes -> uint256) (P S : Z) : (forall b, wf256 (Hash b)) -> in_u 8 P -> in_u 8 S -> P <> S ->
  (forall dest id, dest_id dest = Some id -> wf WIDTH160 id -> exists t, GetBase58addressWithNetworkPrefix Hash [P] [S] dest = Ok t /\
    forall sp1 sp2, spaces sp1 -> spaces sp2 -> zlen (sp1 ++ t ++ sp2) <= 10 ^ 9 -> base58string_of Hash (sp1 ++ t ++ sp2) 1 = Ok t /\
    exists d, CSigAddress Hash t = Ok d /\ Get [P] [S] d = dest /\
      GetKeyID [P] [S] d = (match dest with CKeyID id => Some id | _ => None end) /\ IsScript [P] [S] d = (match dest with CScriptID _ => true | _ => false end)) /\
  (forall sz, zlen sz <= 10 ^ 9 -> exists t d, base58string_of Hash sz 1 = Ok t /\ CSigAddress Hash t = Ok d /\
    (Get [P] [S] d = CNoDestination \/
     GetBase58addressWithNetworkPrefix Hash [P] [S] (Get [P] [S] d) = Ok t /\ exists sp1 sp2, sz = sp1 ++ t ++ sp2 /\ spaces sp1 /\ spaces sp2)).
Proof.
  intros Hw HP HS HPS. split.
  - intros dest id Hid Hwid. destruct (address_spec Hash Hw P S HP HS dest id Hid Hwid) as (t & E & Ht). exists t. split; [done|]. intros sp1 sp2 H1 H2 Hz.
    destruct (base58string_of_spec Hash Hw _ Hz) as (v & t' & -> & _ & Ht' & Hl & Hv & _). rewrite (Hv (dest_version P S dest :: pn_bytes id)) in Ht' by by exists sp1, t, sp2.
    rewrite <- (encoding_unique _ _ _ Ht Ht') in *. split; [done|]. rewrite (CSigAddress_parsed Hash Hw _ _ Ht Hl). eexists. split; [done|]. by apply dest_get.
  - intros sz Hz. destruct (base58string_of_spec Hash Hw sz Hz) as (v & t & -> & Hb & Ht & Hl & _ & Hs). exists t, (parsed v). split; [done|]. split; [by apply CSigAddress_parsed|].
    assert (Get [P] [S] (parsed v) = CNoDestination \/ Get [P] [S] (parsed v) <> CNoDestination) as [|Hg] by (destruct (Get [P] [S] (parsed v)); auto); [by left|]. right.
    destruct v as [|x data]; [by destruct Hg|]. destruct (get_dest P S x data Hb Hg) as (dest & id & Ed & Hid & Hwid & <- & <-). cbn [parsed]. rewrite Ed.
    destruct (address_spec Hash Hw P S HP HS dest id Hid Hwid) as (t' & -> & Ht'). rewrite (encoding_unique _ _ _ Ht' Ht). split; [done|]. by apply Hs.
Qed.

Lemma address_roundtrip_witness :
  let Hash := fun _ : bytes => replicate 8 0x01020304 in
  let id := replicate 5 7 in
  exists t, GetBase58addressWithNetworkPrefix Hash [63] [18] (CScriptID id) = Ok t /\ zlen t = 34 /\ base58string_of Hash ([32; 9] ++ t ++ [10]) 1 = Ok t /\
    exists d, CSigAddress Hash t = Ok d /\ Get [63] [18] d = CScriptID id /\ GetKeyID [63] [18] d = None.
Proof.
  intros Hash id. assert (forall b, wf256 (Hash b)) as Hw by (intros b; split; [reflexivity|]; apply Forall_replicate; split; [discriminate|reflexivity]).
  destruct (address_roundtrip Hash 63 18 Hw) as [H _]; [split; [discriminate|reflexivity]..|discriminate|].
  destruct (H (CScriptID id) id eq_refl) as (t & E & Ht); [split; [reflexivity|apply Forall_replicate; split; [discriminate|reflexivity]]|].
  assert (zlen t = 34) as Hl by (vm_compute in E; injection E as <-; reflexivity).
  destruct (Ht [32; 9] [10]) as (En & d & Ed & Eg & Ek & _); [repeat constructor..|rewrite !zlen_app, Hl; vm_compute; discriminate|].
  exists t. split; [exact E|]. split; [exact Hl|]. split; [exact En|]. exists d. split; [exact Ed|]. split; [exact Eg|exact Ek].
Defined.
