(* ===== verification/Candidates.v ===== *)
(** The choice of the chain to follow: the candidates for the tip in
    src/sige/src/validation.cpp, from the receipt of the transactions of a block to
    [FindMostWorkChain].

    [setBlockIndexCandidates] is the list of its elements in order; two elements
    that its comparator does not tell apart are the same pointer. A multimap is
    the list of its pairs in the order of their insertion, which is the order
    among equal keys. The warnings about forks and the log lines are left out. *)

From S2P Require Import Prelude Bytes BaseUint UintBytes Uint256 Serialize Codec Header Chain ChainSpec BlockTree State.

Import BlockIndex.

Record candidates := mk_candidates {
  c_index : block_index;
  chainActive : CChain.t;
  pindexBestInvalid : ptr;
  setBlockIndexCandidates : list nat;
  mapBlocksUnlinked : list (ptr * nat);
  nBlockSequenceId : Z;
  nBlockReverseSequenceId : Z;
  nLastPreciousChainwork : uint256;
}.

Definition c_heap (g : candidates) : store := heap (c_index g).

Definition set_index (s : block_index) (g : candidates) : candidates :=
  mk_candidates s (chainActive g) (pindexBestInvalid g) (setBlockIndexCandidates g) (mapBlocksUnlinked g) (nBlockSequenceId g) (nBlockReverseSequenceId g)
    (nLastPreciousChainwork g).
Definition set_chain (c : CChain.t) (g : candidates) : candidates :=
  mk_candidates (c_index g) c (pindexBestInvalid g) (setBlockIndexCandidates g) (mapBlocksUnlinked g) (nBlockSequenceId g) (nBlockReverseSequenceId g)
    (nLastPreciousChainwork g).
Definition set_invalid (p : ptr) (g : candidates) : candidates :=
  mk_candidates (c_index g) (chainActive g) p (setBlockIndexCandidates g) (mapBlocksUnlinked g) (nBlockSequenceId g) (nBlockReverseSequenceId g)
    (nLastPreciousChainwork g).
Definition set_cands (l : list nat) (g : candidates) : candidates :=
  mk_candidates (c_index g) (chainActive g) (pindexBestInvalid g) l (mapBlocksUnlinked g) (nBlockSequenceId g) (nBlockReverseSequenceId g)
    (nLastPreciousChainwork g).
Definition set_unlinked (m : list (ptr * nat)) (g : candidates) : candidates :=
  mk_candidates (c_index g) (chainActive g) (pindexBestInvalid g) (setBlockIndexCandidates g) m (nBlockSequenceId g) (nBlockReverseSequenceId g)
    (nLastPreciousChainwork g).
Definition set_sequence (n : Z) (g : candidates) : candidates :=
  mk_candidates (c_index g) (chainActive g) (pindexBestInvalid g) (setBlockIndexCandidates g) (mapBlocksUnlinked g) n (nBlockReverseSequenceId g)
    (nLastPreciousChainwork g).
Definition set_precious (work : uint256) (n : Z) (g : candidates) : candidates :=
  mk_candidates (c_index g) (chainActive g) (pindexBestInvalid g) (setBlockIndexCandidates g) (mapBlocksUnlinked g) (nBlockSequenceId g) n work.

(** [*p = b], without and with [setDirtyBlockIndex.insert(p)]. *)
Definition write_entry (p : nat) (b : CBlockIndex) (g : candidates) : candidates :=
  let s := c_index g in
  set_index {| heap := <[p := b]> (heap s); mapBlockIndex := mapBlockIndex s; pindexBestHeader := pindexBestHeader s;
               setDirtyBlockIndex := setDirtyBlockIndex s |} g.
Definition mark_dirty (p : nat) (g : candidates) : candidates :=
  let s := c_index g in
  set_index {| heap := heap s; mapBlockIndex := mapBlockIndex s; pindexBestHeader := pindexBestHeader s;
               setDirtyBlockIndex := {[p]} ∪ setDirtyBlockIndex s |} g.

(** Assignments to fields of an entry. *)
Definition set_tx (b : CBlockIndex) (tx chainTx file pos undo status : Z) : CBlockIndex := {|
  phashBlock := phashBlock b; pprev := pprev b; pskip := pskip b; nHeight := nHeight b;
  nFile := file; nDataPos := pos; nUndoPos := undo; nChainWork := nChainWork b;
  nTx := tx; nChainTx := chainTx; nStatus := status; nVersion := nVersion b;
  hashMerkleRoot := hashMerkleRoot b; nTime := nTime b; nBits := nBits b; nNonce := nNonce b;
  nSequenceId := nSequenceId b; nTimeMax := nTimeMax b |}.
Definition set_chain_tx (b : CBlockIndex) (chainTx seq : Z) : CBlockIndex := {|
  phashBlock := phashBlock b; pprev := pprev b; pskip := pskip b; nHeight := nHeight b;
  nFile := nFile b; nDataPos := nDataPos b; nUndoPos := nUndoPos b; nChainWork := nChainWork b;
  nTx := nTx b; nChainTx := chainTx; nStatus := nStatus b; nVersion := nVersion b;
  hashMerkleRoot := hashMerkleRoot b; nTime := nTime b; nBits := nBits b; nNonce := nNonce b;
  nSequenceId := seq; nTimeMax := nTimeMax b |}.

(** ** The set of candidates *)

(** [operator()] on the entries [a] and [b] at [pa] and [pb] *)
Definition work_less (pa : nat) (a : CBlockIndex) (pb : nat) (b : CBlockIndex) : bool :=
  if BaseUint.op_gt WIDTH256 (nChainWork a) (nChainWork b) then false
  else if BaseUint.op_lt WIDTH256 (nChainWork a) (nChainWork b) then true
  else if nSequenceId a <? nSequenceId b then false
  else if nSequenceId b <? nSequenceId a then true
  else if (pa <? pb)%nat then false
  else if (pb <? pa)%nat then true
  else false.
Definition CBlockIndexWorkComparator (st : store) (pa pb : ptr) : res bool :=
  match pa, pb with
  | Some p, Some q => let? a := deref st pa in let? b := deref st pb in Ok (work_less p a q b)
  | _, _ => Undef
  end.

(** [std::set::insert] *)
Fixpoint set_insert (st : store) (p : nat) (l : list nat) : res (list nat) :=
  match l with
  | [] => Ok [p]
  | q :: l' =>
      let? below := CBlockIndexWorkComparator st (Some p) (Some q) in
      if below : bool then Ok (p :: l)
      else
        let? above := CBlockIndexWorkComparator st (Some q) (Some p) in
        if above : bool then let? l' := set_insert st p l' in Ok (q :: l') else Ok l
  end.
(** [std::set::erase] *)
Definition set_erase (p : nat) (l : list nat) : list nat := filter (fun q => q <> p) l.

Definition insert_candidate (p : nat) (g : candidates) : res candidates :=
  let? l := set_insert (c_heap g) p (setBlockIndexCandidates g) in Ok (set_cands l g).
Definition erase_candidate (p : nat) (g : candidates) : candidates := set_cands (set_erase p (setBlockIndexCandidates g)) g.

(** The candidates below the tip are erased from the first on. *)
Fixpoint prune_loop (st : store) (tip : ptr) (l : list nat) : res (list nat) :=
  match l with
  | [] => Ok []
  | p :: l' =>
      let? below := CBlockIndexWorkComparator st (Some p) tip in
      if below : bool then prune_loop st tip l' else Ok l
  end.
Definition PruneBlockIndexCandidates (g : candidates) : res candidates :=
  let? l := prune_loop (c_heap g) (CChain.Tip (chainActive g)) (setBlockIndexCandidates g) in
  match l with
  | [] => AssertFail
  | _ => Ok (set_cands l g)
  end.

(** ** Invalid blocks *)

(** The warning about forks and the log line are left out. *)
Definition InvalidChainFound (pindexNew : nat) (g : candidates) : res candidates :=
  let? new := deref (c_heap g) (Some pindexNew) in
  let? g :=
    match pindexBestInvalid g with
    | None => Ok (set_invalid (Some pindexNew) g)
    | Some _ =>
        let? b := deref (c_heap g) (pindexBestInvalid g) in
        Ok (if BaseUint.op_gt WIDTH256 (nChainWork new) (nChainWork b) then set_invalid (Some pindexNew) g else g)
    end in
  match CChain.Tip (chainActive g) with None => AssertFail | Some _ => Ok g end.

Definition InvalidBlockFound (pindex : nat) (state : CValidationState.t) (g : candidates) : res candidates :=
  if negb (CValidationState.CorruptionPossible state) then
    let? b := deref (c_heap g) (Some pindex) in
    let g := mark_dirty pindex (write_entry pindex (set_nStatus b (Z.lor (nStatus b) BLOCK_FAILED_VALID)) g) in
    InvalidChainFound pindex (erase_candidate pindex g)
  else Ok g.

(** ** FindMostWorkChain *)

(** [while (pindexTest != pindexFailed)] *)
Fixpoint failed_loop (fuel : nat) (fFailedChain fMissingData : bool) (pindexTest pindexFailed : nat) (g : candidates) : res candidates :=
  if (pindexTest =? pindexFailed)%nat then Ok g
  else
    match fuel with
    | O => OutOfFuel
    | S fuel =>
        let? b := deref (c_heap g) (Some pindexFailed) in
        let g :=
          if fFailedChain then write_entry pindexFailed (set_nStatus b (Z.lor (nStatus b) BLOCK_FAILED_CHILD)) g
          else if fMissingData then set_unlinked (mapBlocksUnlinked g ++ [(pprev b, pindexFailed)]) g else g in
        let g := erase_candidate pindexFailed g in
        match pprev b with
        | None => Undef
        | Some q => failed_loop fuel fFailedChain fMissingData pindexTest q g
        end
    end.

(** [while (pindexTest && !chainActive.Contains(pindexTest))]: [fInvalidAncestor]. *)
Fixpoint test_loop (fuel : nat) (pindexNew : nat) (pindexTest : ptr) (g : candidates) : res (bool * candidates) :=
  match pindexTest with
  | None => Ok (false, g)
  | Some p =>
      let? c := CChain.Contains (c_heap g) (chainActive g) p in
      if c : bool then Ok (false, g)
      else
        match fuel with
        | O => OutOfFuel
        | S fuel =>
            let? b := deref (c_heap g) (Some p) in
            if (nChainTx b =? 0) && negb (nHeight b =? 0) then AssertFail
            else
              let fFailedChain := negb (Z.land (nStatus b) BLOCK_FAILED_MASK =? 0) in
              let fMissingData := Z.land (nStatus b) BLOCK_HAVE_DATA =? 0 in
              if fFailedChain || fMissingData then
                let? new := deref (c_heap g) (Some pindexNew) in
                let? better :=
                  match pindexBestInvalid g with
                  | None => Ok true
                  | Some _ => let? i := deref (c_heap g) (pindexBestInvalid g) in Ok (BaseUint.op_gt WIDTH256 (nChainWork new) (nChainWork i))
                  end in
                let g := if fFailedChain && better then set_invalid (Some pindexNew) g else g in
                let? g := failed_loop (Z.to_nat (nHeight new)) fFailedChain fMissingData p pindexNew g in
                Ok (true, erase_candidate p g)
              else test_loop fuel pindexNew (pprev b) g
        end
  end.

(** Every turn erases a candidate. *)
Fixpoint find_loop (fuel : nat) (g : candidates) : res (ptr * candidates) :=
  match fuel with
  | O => OutOfFuel
  | S fuel =>
      match last (setBlockIndexCandidates g) with
      | None => Ok (None, g)
      | Some pindexNew =>
          let? new := deref (c_heap g) (Some pindexNew) in
          let? (fInvalidAncestor, g) := test_loop (Z.to_nat (nHeight new) + 1) pindexNew (Some pindexNew) g in
          if fInvalidAncestor : bool then find_loop fuel g else Ok (Some pindexNew, g)
      end
  end.
Definition FindMostWorkChain (g : candidates) : res (ptr * candidates) := find_loop (length (setBlockIndexCandidates g) + 1) g.

(** ** The transactions of a block *)

(** The queue of [ReceivedBlockTransactions]: every turn but the first takes a pair out
    of [mapBlocksUnlinked]. *)
Fixpoint queue_loop (fuel : nat) (queue : list nat) (g : candidates) : res candidates :=
  match queue with
  | [] => Ok g
  | pindex :: queue =>
      match fuel with
      | O => OutOfFuel
      | S fuel =>
          let? b := deref (c_heap g) (Some pindex) in
          let? prevTx := match pprev b with None => Ok 0 | Some _ => let? q := deref (c_heap g) (pprev b) in Ok (nChainTx q) end in
          let g := write_entry pindex (set_chain_tx b (u32 (prevTx + nTx b)) (nBlockSequenceId g)) g in
          let g := set_sequence (i32 (nBlockSequenceId g + 1)) g in
          let? add :=
            match CChain.Tip (chainActive g) with
            | None => Ok true
            | Some _ => let? below := CBlockIndexWorkComparator (c_heap g) (Some pindex) (CChain.Tip (chainActive g)) in Ok (negb below)
            end in
          let? g := if add : bool then insert_candidate pindex g else Ok g in
          let range := map snd (filter (fun e => e.1 = Some pindex) (mapBlocksUnlinked g)) in
          let g := set_unlinked (filter (fun e => e.1 <> Some pindex) (mapBlocksUnlinked g)) g in
          queue_loop fuel (queue ++ range) g
      end
  end.

(** [witness] is [IsWitnessEnabled(pindexNew->pprev)]. *)
Definition ReceivedBlockTransactions (ntx : Z) (witness : bool) (pindexNew : nat) (pos : CDiskBlockPos.t) (g : candidates) : res candidates :=
  let? b := deref (c_heap g) (Some pindexNew) in
  let status := Z.lor (nStatus b) BLOCK_HAVE_DATA in
  let status := if witness then Z.lor status BLOCK_OPT_WITNESS else status in
  let? (_, b) := RaiseValidity BLOCK_VALID_TRANSACTIONS (set_tx b (u32 ntx) 0 (CDiskBlockPos.nFile pos) (CDiskBlockPos.nPos pos) 0 status) in
  let g := mark_dirty pindexNew (write_entry pindexNew b g) in
  let? linked :=
    match pprev b with
    | None => Ok true
    | Some _ => let? q := deref (c_heap g) (pprev b) in Ok (negb (nChainTx q =? 0))
    end in
  if linked : bool then queue_loop (length (mapBlocksUnlinked g) + 1) [pindexNew] g
  else
    let? q := deref (c_heap g) (pprev b) in
    let? valid := IsValid BLOCK_VALID_TREE q in
    if valid : bool then Ok (set_unlinked (mapBlocksUnlinked g ++ [(pprev b, pindexNew)]) g) else Ok g.
