(* ===== verification/CandidatesSpec.v ===== *)
(** The candidates for the tip: their order, what makes one usable, and what
    [FindMostWorkChain], [PruneBlockIndexCandidates] and
    [ReceivedBlockTransactions] of Candidates.v do with them. *)

From S2P Require Import Prelude Bytes BaseUint UintBytes Uint256 Serialize Codec Header Chain ChainSpec BlockTree State Candidates.
From Stdlib Require Import Sorting.Sorted.
Import BlockIndex.

(** ** Heaps that agree *)

(** The entries of both heaps have the same [f]. *)
Definition agrees {A} (f : CBlockIndex -> A) (st st' : store) : Prop := forall p, f <$> st !! p = f <$> st' !! p.

Definition tree (b : CBlockIndex) := (pprev b, pskip b, nHeight b).
Definition order (b : CBlockIndex) := (nChainWork b, nSequenceId b).

Section agree.
Context {A : Type} (f : CBlockIndex -> A).

#[global] Instance agrees_equivalence : Equivalence (agrees f).
Proof. split; [done|by intros st st' H p|by intros s1 s2 s3 H1 H2 p; rewrite H1]. Qed.

Lemma agrees_lookup st st' p b : agrees f st st' -> st !! p = Some b -> exists b', st' !! p = Some b' /\ f b' = f b.
Proof. intros H E. specialize (H p). rewrite E in H. cbn in H. destruct (st' !! p) as [b'|]; [|done]. injection H as H. by exists b'. Qed.

Lemma agrees_insert st p b b' : st !! p = Some b -> f b' = f b -> agrees f st (<[p := b']> st).
Proof.
  intros E H q. destruct (decide (q = p)) as [->|Hq]; [rewrite E, lookup_insert_eq; cbn; by rewrite H|by rewrite lookup_insert_ne by done].
Qed.

Lemma agrees_in st st' p : agrees f st st' -> is_Some (st !! p) -> is_Some (st' !! p).
Proof. intros H [b E]. destruct (agrees_lookup st st' p b H E) as (b' & -> & _). by eexists. Qed.
End agree.

Lemma agrees_weaken {A B} (f : CBlockIndex -> A) (h : A -> B) st st' : agrees f st st' -> agrees (fun b => h (f b)) st st'.
Proof. intros H p. specialize (H p). destruct (st !! p), (st' !! p); try done. cbn in *. injection H as H. by rewrite H. Qed.

Lemma agrees_prev st st' : agrees tree st st' -> agrees pprev st st'.
Proof. apply (agrees_weaken tree (fun t => t.1.1)). Qed.

Lemma anc_agrees st st' n p : agrees tree st st' -> anc st n p = anc st' n p.
Proof.
  intros H. pose proof (agrees_prev _ _ H) as Hp. revert p. induction n as [|n IH]; intros p; [done|]. cbn [anc].
  assert (parent st p = parent st' p) as ->. { unfold parent. specialize (Hp p). destruct (st !! p), (st' !! p); try done. by injection Hp. }
  destruct (parent st' p); [apply IH|done].
Qed.

Lemma wf_store_agrees st st' : agrees tree st st' -> wf_store st -> wf_store st'.
Proof.
  intros H Hw p b' E'. symmetry in H. destruct (agrees_lookup tree st' st p b' H E') as (b & E & [= H1 H2 H3]). symmetry in H.
  destruct (Hw p b E) as (W1 & W2 & W3). unfold wf_entry. rewrite <- H1, <- H2, <- H3. split; [done|]. split.
  - destruct (pprev b) as [q|]; [|done]. destruct W2 as (bq & Eq & Hq). destruct (agrees_lookup tree st st' q bq H Eq) as (bq' & Eq' & [= _ _ Hh]). exists bq'. split; [done|lia].
  - intros q Hq. rewrite <- (anc_agrees st st') by done. by apply W3.
Qed.

Lemma chain_ok_agrees st st' c : agrees tree st st' -> chain_ok st c -> chain_ok st' c.
Proof.
  intros H [Hl Hc]. split; [done|]. intros i p Hi. destruct (Hc i p Hi) as (a & b & -> & E & Hh & Hj). destruct (agrees_lookup tree st st' a b H E) as (b' & E' & [= H1 _ H3]).
  exists a, b'. rewrite H1, H3. done.
Qed.

(** ** The order of candidates *)

Definition works_ok (st : store) : Prop := map_Forall (fun _ b => wf256 (nChainWork b)) st.

Definition worse_entry (p : nat) (a : CBlockIndex) (q : nat) (b : CBlockIndex) : Prop :=
  val (nChainWork a) < val (nChainWork b) \/
  val (nChainWork a) = val (nChainWork b) /\ (nSequenceId b < nSequenceId a \/ nSequenceId b = nSequenceId a /\ (q < p)%nat).
Definition worse (st : store) (p q : nat) : Prop :=
  match st !! p, st !! q with Some a, Some b => worse_entry p a q b | _, _ => False end.

#[global] Instance worse_dec st p q : Decision (worse st p q).
Proof. unfold worse, worse_entry. destruct (st !! p), (st !! q); apply _. Defined.

Lemma works_agrees st st' : agrees nChainWork st st' -> works_ok st -> works_ok st'.
Proof. intros H Hw p b' E'. symmetry in H. destruct (agrees_lookup _ _ _ _ _ H E') as (b & E & Hb). rewrite <- Hb. by apply (Hw p). Qed.

Lemma worse_agrees st st' p q : agrees order st st' -> worse st p q <-> worse st' p q.
Proof.
  intros H. unfold worse, worse_entry. pose proof (H p) as Hp. pose proof (H q) as Hq. destruct (st !! p), (st' !! p); try done. destruct (st !! q), (st' !! q); try done.
  unfold order in *. cbn in Hp, Hq. injection Hp as -> ->. injection Hq as -> ->. done.
Qed.

Lemma agrees_work st st' : agrees order st st' -> agrees nChainWork st st'.
Proof. apply (agrees_weaken order fst). Qed.

Lemma worse_trans st p q r : worse st p q -> worse st q r -> worse st p r.
Proof. unfold worse, worse_entry. destruct (st !! p), (st !! q), (st !! r); try done. lia. Qed.
Lemma worse_irrefl st p : ~ worse st p p.
Proof. unfold worse, worse_entry. destruct (st !! p); [lia|by intros []]. Qed.
Lemma worse_total st p q : is_Some (st !! p) -> is_Some (st !! q) -> worse st p q \/ p = q \/ worse st q p.
Proof. intros [a Ea] [b Eb]. unfold worse, worse_entry. rewrite Ea, Eb. destruct (decide (p = q)); [auto|]. lia. Qed.

Section comparator.
Context (st : store) (Hst : works_ok st).

Lemma comparator_spec p q : is_Some (st !! p) -> is_Some (st !! q) -> CBlockIndexWorkComparator st (Some p) (Some q) = Ok (bool_decide (worse st p q)).
Proof.
  intros [a Ea] [b Eb]. unfold CBlockIndexWorkComparator. rewrite (deref_Some _ _ _ Ea), (deref_Some _ _ _ Eb). cbn [res_bind]. f_equal. assert (worse st p q <-> worse_entry p a q b) as Hw by (unfold worse; by rewrite Ea, Eb).
  unfold work_less. destruct (relops_spec WIDTH256 (nChainWork a) (nChainWork b)) as (-> & -> & _); [exact (Hst p a Ea)|exact (Hst q b Eb)|].
  destruct (Z.ltb_spec (val (nChainWork b)) (val (nChainWork a))); [symmetry; apply bool_decide_eq_false; rewrite Hw; unfold worse_entry; lia|].
  destruct (Z.ltb_spec (val (nChainWork a)) (val (nChainWork b))); [symmetry; apply bool_decide_eq_true; rewrite Hw; unfold worse_entry; lia|].
  destruct (Z.ltb_spec (nSequenceId a) (nSequenceId b)); [symmetry; apply bool_decide_eq_false; rewrite Hw; unfold worse_entry; lia|].
  destruct (Z.ltb_spec (nSequenceId b) (nSequenceId a)); [symmetry; apply bool_decide_eq_true; rewrite Hw; unfold worse_entry; lia|].
  destruct (Nat.ltb_spec p q); [symmetry; apply bool_decide_eq_false; rewrite Hw; unfold worse_entry; lia|].
  destruct (Nat.ltb_spec q p); symmetry; [apply bool_decide_eq_true|apply bool_decide_eq_false]; rewrite Hw; unfold worse_entry; lia.
Qed.

Abbreviation there := (Forall (fun p => is_Some (st !! p))).

Lemma set_insert_spec p l : is_Some (st !! p) -> there l -> StronglySorted (worse st) l ->
  exists l', set_insert st p l = Ok l' /\ StronglySorted (worse st) l' /\ (forall q, q ∈ l' <-> q = p \/ q ∈ l).
Proof.
  intros Hp. induction l as [|q l IH]; intros Ht Hs; cbn [set_insert].
  { exists [p]. split; [done|]. split; [repeat constructor|]. intros x. rewrite list_elem_of_singleton, elem_of_nil. tauto. }
  apply Forall_cons_1 in Ht as [Hq Ht]. apply StronglySorted_inv in Hs as [Hs Hf]. rewrite comparator_spec by done. cbn [res_bind]. case_bool_decide as H1.
  { exists (p :: q :: l). split; [done|]. split; [|intros x; rewrite elem_of_cons; tauto]. constructor; [by constructor|]. constructor; [done|]. eapply Forall_impl; [exact Hf|]. intros x. by apply worse_trans. }
  rewrite comparator_spec by done. cbn [res_bind]. case_bool_decide as H2.
  - destruct (IH Ht Hs) as (l' & -> & Hs' & Hl'). cbn [res_bind]. exists (q :: l'). split; [done|]. split; [|intros x; rewrite !elem_of_cons, Hl'; tauto].
    constructor; [done|]. apply Forall_forall. intros x [-> | Hx]%Hl'; [done|]. by eapply Forall_forall in Hf.
  - destruct (worse_total st p q Hp Hq) as [|[-> | ]]; [done| |done]. exists (q :: l). split; [done|]. split; [by constructor|]. intros x. rewrite elem_of_cons. tauto.
Qed.

Lemma prune_loop_spec tip l : is_Some (st !! tip) -> there l -> StronglySorted (worse st) l ->
  exists l', prune_loop st (Some tip) l = Ok l' /\ StronglySorted (worse st) l' /\ (forall q, q ∈ l' <-> q ∈ l /\ ~ worse st q tip).
Proof.
  intros Hp. induction l as [|q l IH]; intros Ht Hs; cbn [prune_loop].
  { exists []. split; [done|]. split; [constructor|]. intros x. rewrite elem_of_nil. tauto. }
  apply Forall_cons_1 in Ht as [Hq Ht]. apply StronglySorted_inv in Hs as [Hs Hf]. rewrite comparator_spec by done. cbn [res_bind]. case_bool_decide as H1.
  - destruct (IH Ht Hs) as (l' & -> & Hs' & Hl'). exists l'. split; [done|]. split; [done|]. intros x. rewrite Hl', elem_of_cons. split; [tauto|]. intros [[-> | Hx] Hn]; [by destruct Hn|done].
  - exists (q :: l). split; [done|]. split; [by constructor|]. intros x. rewrite elem_of_cons. split; [|tauto]. intros [-> | Hx]; split; auto.
    intros Hw. apply H1. eapply worse_trans; [|exact Hw]. by eapply Forall_forall in Hf.
Qed.
End comparator.

Lemma filter_sorted {A} (R : A -> A -> Prop) (P : A -> Prop) `{!forall x, Decision (P x)} l : StronglySorted R l -> StronglySorted R (filter P l).
Proof.
  induction 1 as [|x l Hs IH Hf]; [constructor|]. rewrite filter_cons. case_decide; [|done]. constructor; [done|]. apply Forall_forall. intros y [_ Hy]%list_elem_of_filter. by eapply Forall_forall in Hf.
Qed.

Lemma elem_of_erase p q l : q ∈ set_erase p l <-> q ∈ l /\ q <> p.
Proof. unfold set_erase. rewrite list_elem_of_filter. tauto. Qed.

Lemma erase_shorter p l : p ∈ l -> (length (set_erase p l) < length l)%nat.
Proof.
  induction l as [|q l IH]; [by intros ?%elem_of_nil|]. intros H. unfold set_erase. rewrite filter_cons. case_decide as Hq.
  - apply elem_of_cons in H as [-> | H]; [done|]. cbn [length]. specialize (IH H). unfold set_erase in IH. lia.
  - pose proof (length_filter (fun q => q <> p) l). cbn [length]. lia.
Qed.

Lemma sorted_last {A} (R : A -> A -> Prop) l x : StronglySorted R l -> last l = Some x -> forall y, y ∈ l -> y = x \/ R y x.
Proof.
  intros Hs Hl. apply last_Some in Hl as [l' ->]. induction l' as [|z l' IH]; intros y Hy; cbn in *.
  - apply list_elem_of_singleton in Hy. by left.
  - apply StronglySorted_inv in Hs as [Hs Hf]. apply elem_of_cons in Hy as [-> | Hy]; [|by apply IH]. right. eapply Forall_forall in Hf; [exact Hf|]. apply elem_of_app. right. by apply list_elem_of_singleton.
Qed.

(** ** The invariant of the candidates *)

Definition failed (b : CBlockIndex) : bool := negb (Z.land (nStatus b) BLOCK_FAILED_MASK =? 0).
Definition have_data (b : CBlockIndex) : bool := negb (Z.land (nStatus b) BLOCK_HAVE_DATA =? 0).

Record cand_inv (g : candidates) : Prop := {
  ci_store : wf_store (c_heap g);
  ci_works : works_ok (c_heap g);
  ci_chain : chain_ok (c_heap g) (chainActive g);
  ci_sorted : StronglySorted (worse (c_heap g)) (setBlockIndexCandidates g);
  ci_there : Forall (fun p => is_Some (c_heap g !! p)) (setBlockIndexCandidates g);
  (* the transactions of the predecessors are there *)
  ci_linked : forall p b q bq, c_heap g !! p = Some b -> nChainTx b <> 0 -> pprev b = Some q -> c_heap g !! q = Some bq -> nChainTx bq <> 0;
  ci_cands : forall p b, p ∈ setBlockIndexCandidates g -> c_heap g !! p = Some b -> nChainTx b <> 0 \/ nHeight b = 0;
  ci_best : forall p, pindexBestInvalid g = Some p -> is_Some (c_heap g !! p);
}.

(** What [cand_inv] reads of an entry. *)
Definition core (b : CBlockIndex) := (tree b, order b, nChainTx b).
Lemma core_tree st st' : agrees core st st' -> agrees tree st st'.
Proof. apply (agrees_weaken core (fun c => c.1.1)). Qed.
Lemma core_order st st' : agrees core st st' -> agrees order st st'.
Proof. apply (agrees_weaken core (fun c => c.1.2)). Qed.

Lemma sorted_impl {A} (R S : A -> A -> Prop) l : (forall x y, R x y -> S x y) -> StronglySorted R l -> StronglySorted S l.
Proof. intros H. induction 1 as [|x l Hs IH Hf]; constructor; [done|]. eapply Forall_impl; [exact Hf|]. auto. Qed.

(** New entries of the same core and fewer candidates keep it. *)
Lemma cand_inv_step g g' : cand_inv g -> agrees core (c_heap g) (c_heap g') -> chainActive g' = chainActive g ->
  (exists P (D : forall p, Decision (P p)), setBlockIndexCandidates g' = filter P (setBlockIndexCandidates g)) ->
  (forall p, pindexBestInvalid g' = Some p -> is_Some (c_heap g !! p)) -> cand_inv g'.
Proof.
  intros [Is Iw Ic Io It Il Ik Ib] Ha Hc (P & D & Hl) Hb. pose proof (core_tree _ _ Ha) as Ht. pose proof (core_order _ _ Ha) as Hr. pose proof (symmetry Ha) as Ha'. split.
  - by apply (wf_store_agrees (c_heap g)).
  - apply (works_agrees (c_heap g)); [by apply agrees_work|done].
  - rewrite Hc. by apply (chain_ok_agrees (c_heap g)).
  - rewrite Hl. apply filter_sorted. eapply sorted_impl; [|exact Io]. intros x y. by apply worse_agrees.
  - rewrite Hl. apply Forall_forall. intros x [_ Hx]%list_elem_of_filter. eapply agrees_in; [exact Ha|]. by eapply Forall_forall in It.
  - intros p b q bq E E0 Eq E1. destruct (agrees_lookup core _ _ p b Ha' E) as (b0 & F0 & [= F1 _ _ _ _ F2]). destruct (agrees_lookup core _ _ q bq Ha' E1) as (b1 & F3 & [= _ _ _ _ _ F4]).
    rewrite <- F4. apply (Il p b0 q b1); [done|by rewrite F2|by rewrite F1|done].
  - intros p b Hp E. rewrite Hl in Hp. apply list_elem_of_filter in Hp as [_ Hp]. destruct (agrees_lookup core _ _ p b Ha' E) as (b0 & F0 & [= _ _ F1 _ _ F2]).
    rewrite <- F1, <- F2. by apply (Ik p).
  - intros p Hp. eapply agrees_in; [exact Ha|]. by apply Hb.
Qed.

(** ** Usable candidates *)

(** Down to the active chain no block has failed and all data is there. *)
Definition fine_at (st : store) (c : CChain.t) (q : nat) : Prop :=
  forall b, st !! q = Some b -> ~ in_chain c q -> failed b = false /\ have_data b = true.
Definition usable (st : store) (c : CChain.t) (p : nat) : Prop := forall k q, anc st k p = Some q -> fine_at st c q.

(** A predecessor outside the chain has failed. *)
Definition failed_below (st : store) (c : CChain.t) (p : nat) : Prop :=
  exists k q b, (0 < k)%nat /\ anc st k p = Some q /\ st !! q = Some b /\ ~ in_chain c q /\ failed b = true.

Definition mark_child (b : CBlockIndex) : CBlockIndex := set_nStatus b (Z.lor (nStatus b) BLOCK_FAILED_CHILD).

Lemma mark_core b : core (mark_child b) = core b.
Proof. done. Qed.

Lemma testbit_zero x m i : 0 <= i -> Z.testbit m i = true -> Z.land x m = 0 -> Z.testbit x i = false.
Proof. intros Hi Hm H. pose proof (f_equal (fun z => Z.testbit z i) H) as Hb. cbn in Hb. by rewrite Z.land_spec, Hm, andb_true_r, Z.bits_0 in Hb. Qed.

Lemma mark_status b : failed (mark_child b) = true /\ have_data (mark_child b) = have_data b /\ mark_child (mark_child b) = mark_child b.
Proof.
  unfold failed, have_data, mark_child, set_nStatus. cbn [nStatus]. split; [|split].
  - apply negb_true_iff, Z.eqb_neq. intros H. pose proof (testbit_zero _ _ 6 ltac:(lia) (eq_refl : Z.testbit BLOCK_FAILED_MASK 6 = true) H) as Hb.
    rewrite Z.lor_spec in Hb. by rewrite (eq_refl : Z.testbit BLOCK_FAILED_CHILD 6 = true), orb_true_r in Hb.
  - do 2 f_equal. rewrite Z.land_lor_distr_l. change (Z.land BLOCK_FAILED_CHILD BLOCK_HAVE_DATA) with 0. by rewrite Z.lor_0_r.
  - by rewrite <- Z.lor_assoc, Z.lor_diag.
Qed.

(** What the search for a chain may do: mark the successors of failed blocks and take out
    candidates that are not usable. *)
Definition marked (st : store) (c : CChain.t) (p : nat) (b b' : CBlockIndex) : Prop := b' = b \/ b' = mark_child b /\ failed_below st c p.

Definition gone (st : store) (c : CChain.t) (un : list (ptr * nat)) (p : nat) : Prop :=
  ~ usable st c p /\ forall b, st !! p = Some b -> failed b = true \/ have_data b = false \/ failed_below st c p \/ (pprev b, p) ∈ un.

Record weeded (g g' : candidates) : Prop := {
  w_chain : chainActive g' = chainActive g;
  w_rest : nBlockSequenceId g' = nBlockSequenceId g /\ nBlockReverseSequenceId g' = nBlockReverseSequenceId g /\
    nLastPreciousChainwork g' = nLastPreciousChainwork g /\ mapBlockIndex (c_index g') = mapBlockIndex (c_index g) /\
    pindexBestHeader (c_index g') = pindexBestHeader (c_index g);
  w_dom : forall p, c_heap g !! p = None <-> c_heap g' !! p = None;
  w_heap : forall p b b', c_heap g !! p = Some b -> c_heap g' !! p = Some b' -> marked (c_heap g) (chainActive g) p b b';
  w_filter : exists P (D : forall p, Decision (P p)), setBlockIndexCandidates g' = filter P (setBlockIndexCandidates g);
  w_gone : forall p, p ∈ setBlockIndexCandidates g -> p ∉ setBlockIndexCandidates g' -> gone (c_heap g) (chainActive g) (mapBlocksUnlinked g') p;
  w_unlinked : forall e, e ∈ mapBlocksUnlinked g -> e ∈ mapBlocksUnlinked g';
}.

Lemma filter_same (l : list nat) : exists P (D : forall p, Decision (P p)), l = filter P l.
Proof.
  exists (fun _ => True), (fun _ => left I). induction l as [|x l IH]; [done|]. rewrite filter_cons. case_decide as H; [by rewrite <- IH|by destruct H].
Qed.

Lemma marked_core st c p b b' : marked st c p b b' -> core b' = core b.
Proof. by intros [-> | [-> _]]. Qed.

Lemma weeded_agrees g g' : weeded g g' -> agrees core (c_heap g) (c_heap g').
Proof.
  intros [_ _ Hd Hh _ _ _] p. destruct (c_heap g !! p) as [b|] eqn:E.
  - destruct (c_heap g' !! p) as [b'|] eqn:E'; [|by apply Hd in E'; congruence]. cbn. f_equal. symmetry. by eapply marked_core, Hh.
  - apply Hd in E. by rewrite E.
Qed.

Lemma weeded_anc g g' n p : weeded g g' -> anc (c_heap g') n p = anc (c_heap g) n p.
Proof. intros H. symmetry. by apply anc_agrees, core_tree, weeded_agrees. Qed.

Lemma weeded_entry g g' p b' : weeded g g' -> c_heap g' !! p = Some b' -> exists b, c_heap g !! p = Some b /\ marked (c_heap g) (chainActive g) p b b'.
Proof. intros H E. destruct (c_heap g !! p) as [b|] eqn:E0; [|by apply (w_dom g g' H) in E0; congruence]. exists b. split; [done|]. by eapply (w_heap g g' H). Qed.

Lemma failed_below_anc st c p q k : anc st k p = Some q -> failed_below st c q -> failed_below st c p.
Proof. intros Ha (j & r & b & Hj & Hr & H). exists (k + j)%nat, r, b. split; [lia|]. split; [by rewrite anc_add, Ha|done]. Qed.

Lemma failed_below_usable st c p : failed_below st c p -> ~ usable st c p.
Proof. intros (k & q & b & _ & Ha & Hq & Hc & Hf) Hu. destruct (Hu k q Ha b Hq Hc) as [Hf' _]. congruence. Qed.

Lemma usable_anc st c p q k : anc st k p = Some q -> usable st c p -> usable st c q.
Proof. intros Ha Hu j r Hr. apply (Hu (k + j)%nat). by rewrite anc_add, Ha. Qed.

Lemma weeded_below g g' p : weeded g g' -> failed_below (c_heap g') (chainActive g) p -> failed_below (c_heap g) (chainActive g) p.
Proof.
  intros H (k & q & b' & Hk & Ha & Hq & Hc & Hf). rewrite (weeded_anc g g') in Ha by done. destruct (weeded_entry g g' q b' H Hq) as (b & Eb & [-> | [-> Hb]]).
  - by exists k, q, b.
  - by eapply failed_below_anc.
Qed.

Lemma weeded_usable g g' p : weeded g g' -> usable (c_heap g') (chainActive g') p <-> usable (c_heap g) (chainActive g) p.
Proof.
  intros H. rewrite (w_chain g g' H). split; intros Hu k q Ha.
  - intros b Eb Hc. destruct (agrees_lookup core _ _ q b (weeded_agrees g g' H) Eb) as (b' & Eb' & _).
    pose proof (Hu k q ltac:(by rewrite (weeded_anc g g')) b' Eb' Hc) as [Hf Hd]. destruct (w_heap g g' H q b b' Eb Eb') as [-> | [-> _]]; [done|].
    destruct (mark_status b) as (Hm & _). congruence.
  - rewrite (weeded_anc g g') in Ha by done. intros b' Eb' Hc. destruct (weeded_entry g g' q b' H Eb') as (b & Eb & [-> | [-> Hb]]); [by apply (Hu k q Ha)|].
    exfalso. eapply failed_below_usable; [eapply failed_below_anc; [exact Ha|exact Hb]|done].
Qed.

Lemma weeded_refl g : weeded g g.
Proof.
  split; try done.
  - intros p b b' E E'. left. congruence.
  - apply filter_same.
Qed.

Lemma gone_weeded g g' un p : weeded g g' -> gone (c_heap g') (chainActive g') un p -> gone (c_heap g) (chainActive g) un p.
Proof.
  intros H [Hu Hg]. split; [intros Hn; by apply Hu, (weeded_usable g g')|]. intros b Eb. destruct (agrees_lookup core _ _ p b (weeded_agrees g g' H) Eb) as (b' & Eb' & [= E1 _ _ _ _ _]).
  rewrite (w_chain g g' H) in Hg. pose proof (w_heap g g' H p b b' Eb Eb') as Hm. destruct (Hg b' Eb') as [Hf|[Hd|[Hf|Hin]]].
  - destruct Hm as [-> | [_ Hm]]; auto.
  - right. left. destruct Hm as [-> | [-> _]]; [done|]. by destruct (mark_status b) as (_ & <- & _).
  - right. right. left. by apply (weeded_below g g').
  - right. right. right. by rewrite <- E1.
Qed.

Lemma gone_mono st c un un' p : (forall e, e ∈ un -> e ∈ un') -> gone st c un p -> gone st c un' p.
Proof. intros Hs [H1 H2]. split; [done|]. intros b Eb. destruct (H2 b Eb) as [|[|[|]]]; auto. Qed.

Lemma weeded_trans g1 g2 g3 : weeded g1 g2 -> weeded g2 g3 -> weeded g1 g3.
Proof.
  intros H1 H2. pose proof (w_chain _ _ H1) as C1. split.
  - rewrite (w_chain _ _ H2). exact C1.
  - destruct (w_rest _ _ H1) as (A1 & A2 & A3 & A4 & A5), (w_rest _ _ H2) as (B1 & B2 & B3 & B4 & B5). split_and!; congruence.
  - intros p. rewrite (w_dom _ _ H1). apply (w_dom _ _ H2).
  - intros p b b3 E1 E3. destruct (weeded_entry _ _ p b3 H2 E3) as (b2 & E2 & M2). pose proof (w_heap _ _ H1 p b b2 E1 E2) as M1. rewrite C1 in M2.
    destruct M1 as [-> | [-> F1]], M2 as [-> | [-> F2]].
    + by left.
    + right. split; [done|]. by apply (weeded_below g1 g2).
    + by right.
    + right. split; [|done]. apply mark_status.
  - destruct (w_filter _ _ H1) as (P & DP & EP), (w_filter _ _ H2) as (Q & DQ & EQ). exists (fun p => Q p /\ P p), _. by rewrite EQ, EP, list_filter_filter.
  - intros p Hin Hout. destruct (decide (p ∈ setBlockIndexCandidates g2)) as [H|H].
    + eapply gone_weeded; [exact H1|]. by apply (w_gone _ _ H2).
    + eapply gone_mono; [apply (w_unlinked _ _ H2)|]. by apply (w_gone _ _ H1).
  - intros e He. by apply (w_unlinked _ _ H2), (w_unlinked _ _ H1).
Qed.

Lemma weeded_inv g g' : cand_inv g -> weeded g g' -> (forall p, pindexBestInvalid g' = Some p -> is_Some (c_heap g !! p)) -> cand_inv g'.
Proof. intros Hi Hw Hb. apply (cand_inv_step g); [done|by apply weeded_agrees|apply Hw|apply Hw|done]. Qed.

(** The single steps. *)
Lemma weeded_erase g p : gone (c_heap g) (chainActive g) (mapBlocksUnlinked g) p -> weeded g (erase_candidate p g).
Proof.
  intros Hg. split; try done.
  - intros q b b' E E'. left. unfold erase_candidate, c_heap, set_cands in *. cbn in *. congruence.
  - by exists (fun q => q <> p), _.
  - intros q Hin Hout. cbn in Hout. rewrite elem_of_erase in Hout. destruct (decide (q = p)) as [->|]; [done|tauto].
Qed.

Lemma weeded_mark g p b : c_heap g !! p = Some b -> failed_below (c_heap g) (chainActive g) p -> weeded g (write_entry p (mark_child b) g).
Proof.
  intros E Hf. split; try done.
  - intros q. unfold c_heap, write_entry. cbn. destruct (decide (q = p)) as [->|]; [rewrite lookup_insert_eq; unfold c_heap in E; rewrite E; done|by rewrite lookup_insert_ne by done].
  - intros q bq b' Eq E'. unfold c_heap, write_entry in E'. cbn in E'. destruct (decide (q = p)) as [->|].
    + rewrite lookup_insert_eq in E'. injection E' as <-. right. split; [congruence|done].
    + rewrite lookup_insert_ne in E' by done. left. unfold c_heap in Eq. congruence.
  - apply filter_same.
Qed.

Lemma weeded_unlinked g e : weeded g (set_unlinked (mapBlocksUnlinked g ++ [e]) g).
Proof.
  split; try done.
  - intros q b b' E E'. left. unfold c_heap, set_unlinked in *. cbn in *. congruence.
  - apply filter_same.
  - intros e' He. cbn. apply elem_of_app. by left.
Qed.

Lemma weeded_set_invalid g p : weeded g (set_invalid p g).
Proof.
  split; try done.
  - intros q b b' E E'. left. unfold c_heap, set_invalid in *. cbn in *. congruence.
  - apply filter_same.
Qed.

Lemma filter_shorter {A} (P : A -> Prop) `{!forall x, Decision (P x)} (x : A) l : x ∈ l -> x ∉ filter P l -> (length (filter P l) < length l)%nat.
Proof.
  induction l as [|y l IH]; [by intros ?%elem_of_nil|]. rewrite filter_cons. intros Hin Hout. pose proof (length_filter P l). case_decide as Hy; cbn [length]; [|lia].
  rewrite elem_of_cons in Hin, Hout. assert (length (filter P l) < length l)%nat; [|lia]. apply IH; [destruct Hin as [-> | ]; [by destruct Hout; left|done]|tauto].
Qed.

Lemma in_chain_anc st c p b k q : wf_store st -> chain_ok st c -> st !! p = Some b -> in_chain c p -> anc st k p = Some q -> in_chain c q.
Proof.
  intros Hw Hc E Hin Ha. apply (in_chain_lookup st c p b Hc E) in Hin. destruct (anc_Some st Hw k p b q E Ha) as [Hk _]. exists (Z.to_nat (nHeight b) - k)%nat.
  rewrite <- Ha. apply (chain_anc st); [done|]. by replace (Z.to_nat (nHeight b) - k + k)%nat with (Z.to_nat (nHeight b)) by lia.
Qed.

(** A block outside the chain that has failed, or has no data. *)
Definition bad_at (g : candidates) (ff fm : bool) (t : nat) : Prop :=
  exists bt, c_heap g !! t = Some bt /\ ~ in_chain (chainActive g) t /\ failed bt = ff /\ have_data bt = negb fm.

Lemma bad_unusable g ff fm t p k : ff || fm = true -> bad_at g ff fm t -> anc (c_heap g) k p = Some t -> ~ usable (c_heap g) (chainActive g) p.
Proof. intros Hor (bt & Et & Hc & Hf & Hd) Ha Hu. destruct (Hu k t Ha bt Et Hc) as [H1 H2]. rewrite H1 in Hf. rewrite H2 in Hd. subst ff. by destruct fm. Qed.

Lemma failed_loop_spec (ff fm : bool) t : ff || fm = true -> forall n fuel f b g, cand_inv g -> anc (c_heap g) n f = Some t -> c_heap g !! f = Some b -> (n <= fuel)%nat -> bad_at g ff fm t ->
  exists g', failed_loop fuel ff fm t f g = Ok g' /\ weeded g g' /\ cand_inv g' /\ bad_at g' ff fm t /\ pindexBestInvalid g' = pindexBestInvalid g /\
    (forall j q, (j < n)%nat -> anc (c_heap g) j f = Some q -> q ∉ setBlockIndexCandidates g').
Proof.
  intros Hor. induction n as [|n IH]; intros fuel f b g Hi Ha E Hfuel Hbad.
  { injection Ha as ->. exists g. split; [destruct fuel; cbn [failed_loop]; by rewrite Nat.eqb_refl|]. split; [apply weeded_refl|]. split_and!; try done. intros; lia. }
  destruct fuel as [|fuel]; [lia|]. pose proof (ci_store _ Hi) as Hw. destruct (anc_Some _ Hw (S n) f b t E Ha) as (_ & bt0 & Et0 & Hh). assert (t <> f) as Hne by (intros ->; rewrite E in Et0; injection Et0 as <-; lia).
  cbn [failed_loop]. rewrite (proj2 (Nat.eqb_neq t f) Hne), (deref_Some _ _ _ E). cbn [res_bind]. cbn [anc] in Ha. unfold parent in Ha. rewrite E in Ha. cbn in Ha. destruct (pprev b) as [q|] eqn:Eq; [|done]. cbn in Ha.
  set (g1 := if ff then _ else _).
  assert (weeded g g1 /\ bad_at g1 ff fm t /\ gone (c_heap g1) (chainActive g1) (mapBlocksUnlinked g1) f /\ pindexBestInvalid g1 = pindexBestInvalid g) as (W1 & B1 & G1 & I1).
  { assert (anc (c_heap g) (S n) f = Some t) as Ha' by (cbn [anc]; unfold parent; rewrite E; cbn; rewrite Eq; exact Ha). destruct ff.
    - assert (failed_below (c_heap g) (chainActive g) f) as Hfb by (destruct Hbad as (bt & Et & Hc & Hf & _); exists (S n), t, bt; split_and!; [lia|done..]).
      assert (weeded g g1) as W by (by apply weeded_mark).
      assert (bad_at g1 true fm t) as B. { destruct Hbad as (bt & Et & H). exists bt. split; [|exact H]. unfold g1, c_heap, write_entry. cbn. by rewrite lookup_insert_ne. }
      split; [done|]. split; [done|]. split; [|done]. split; [eapply bad_unusable; [exact Hor|exact B|rewrite (weeded_anc g g1) by done; exact Ha']|].
      intros b1 Eb1. right. right. left. destruct B as (bt & Et & Hc & Hf & _). exists (S n), t, bt. split_and!; [lia|rewrite (weeded_anc g g1) by done; exact Ha'|done..].
    - destruct fm; [|done]. assert (weeded g g1) as W by apply weeded_unlinked. split; [done|]. split; [done|]. split; [|done]. split; [by eapply bad_unusable|].
      intros b1 Eb1. right. right. right. change (c_heap g1) with (c_heap g) in Eb1. assert (b1 = b) as -> by congruence. cbn. rewrite Eq. apply elem_of_app. right. by apply list_elem_of_singleton. }
  pose proof (weeded_erase g1 f G1) as W2. pose proof (weeded_trans _ _ _ W1 W2) as W. assert (cand_inv (erase_candidate f g1)) as Hi2.
  { apply (weeded_inv g); [done|done|]. intros p. change (pindexBestInvalid (erase_candidate f g1)) with (pindexBestInvalid g1). rewrite I1. apply (ci_best _ Hi). }
  destruct (wf_parent _ Hw f b q E Eq) as (bq & Ebq & _). destruct (agrees_lookup core _ _ q bq (weeded_agrees _ _ W) Ebq) as (bq' & Ebq' & _).
  destruct (IH fuel q bq' (erase_candidate f g1) Hi2) as (g' & -> & W' & Hi' & B' & I' & Hout); [by rewrite (weeded_anc g _)|done|lia|exact B1|].
  exists g'. split; [done|]. split; [by eapply weeded_trans|]. split; [done|]. split; [done|]. split; [by rewrite I'|].
  intros j r Hj Hr. destruct j as [|j].
  - injection Hr as <-. destruct (w_filter _ _ W') as (Pf & D & ->). rewrite list_elem_of_filter. cbn. rewrite elem_of_erase. tauto.
  - cbn [anc] in Hr. unfold parent in Hr. rewrite E in Hr. cbn in Hr. rewrite Eq in Hr. cbn in Hr. apply (Hout j); [lia|]. by rewrite (weeded_anc g _).
Qed.

Lemma not_in_weeded g g' p : weeded g g' -> p ∉ setBlockIndexCandidates g -> p ∉ setBlockIndexCandidates g'.
Proof. intros W H. destruct (w_filter _ _ W) as (P & D & ->). rewrite list_elem_of_filter. tauto. Qed.

(** The walk from the candidate [new], of which the first [k] blocks are fine. *)
Lemma test_loop_spec new bn g : cand_inv g -> c_heap g !! new = Some bn -> new ∈ setBlockIndexCandidates g -> forall fuel k test,
  test = anc (c_heap g) k new -> (forall p b, test = Some p -> c_heap g !! p = Some b -> nHeight b < Z.of_nat fuel /\ (nChainTx b <> 0 \/ nHeight b = 0)) ->
  (forall j q, (j < k)%nat -> anc (c_heap g) j new = Some q -> fine_at (c_heap g) (chainActive g) q) ->
  exists bad g', test_loop fuel new test g = Ok (bad, g') /\ weeded g g' /\ cand_inv g' /\
    if bad : bool then new ∉ setBlockIndexCandidates g' else g' = g /\ usable (c_heap g) (chainActive g) new.
Proof.
  intros Hi En Hin. pose proof (ci_store _ Hi) as Hw. induction fuel as [|fuel IH]; intros k test Ht Htx Hk.
  all: destruct test as [p|]; [|exists false, g; split; [done|]; split; [apply weeded_refl|]; split; [done|]; split; [done|];
    intros j q Ha; apply (Hk j); [|done]; apply Nat.nle_gt; intros Hle; replace j with (k + (j - k))%nat in Ha by lia; by rewrite anc_add, <- Ht in Ha].
  all: symmetry in Ht; destruct (anc_Some _ Hw k new bn p En Ht) as (Hkh & b & Eb & Hh); destruct (Htx p b eq_refl Eb) as [Hfuel Htx']; cbn [test_loop]; pose proof (wf_height _ Hw p b Eb) as Hpos.
  1: lia.
  rewrite (Contains_spec (c_heap g) Hw (chainActive g) p b) by (apply Hi || done). cbn [res_bind]. case_bool_decide as Hc.
  { exists false, g. split; [done|]. split; [apply weeded_refl|]. split; [done|]. split; [done|]. intros j q Ha. destruct (decide (j < k)%nat) as [|Hj]; [by apply (Hk j)|].
    replace j with (k + (j - k))%nat in Ha by lia. rewrite anc_add, Ht in Ha. cbn in Ha. intros b0 _ Hn. destruct Hn. eapply (in_chain_anc _ _ p b); [done|apply Hi|done|by eexists|done]. }
  assert (~ in_chain (chainActive g) p) as Hnc by (rewrite (in_chain_lookup _ _ p b (ci_chain _ Hi) Eb); done).
  rewrite (deref_Some _ _ _ Eb). cbn [res_bind]. replace ((nChainTx b =? 0) && negb (nHeight b =? 0)) with false by (symmetry; apply andb_false_iff; rewrite negb_false_iff, Z.eqb_neq, Z.eqb_eq; exact Htx').
  fold (failed b). destruct (failed b || (Z.land (nStatus b) BLOCK_HAVE_DATA =? 0)) eqn:Hbad.
  - rewrite (deref_Some _ _ _ En). cbn [res_bind]. set (fm := Z.land (nStatus b) BLOCK_HAVE_DATA =? 0) in *.
    assert (exists better, match pindexBestInvalid g with None => Ok true | Some _ => let? i := deref (c_heap g) (pindexBestInvalid g) in
       Ok (BaseUint.op_gt WIDTH256 (nChainWork bn) (nChainWork i)) end = Ok better) as [better ->].
    { destruct (pindexBestInvalid g) as [i|] eqn:Ei; [|by eexists]. destruct (ci_best _ Hi i Ei) as [bi Ebi]. rewrite (deref_Some _ _ _ Ebi). by eexists. }
    cbn [res_bind]. set (g1 := if failed b && better then _ else _). assert (weeded g g1) as W1 by (unfold g1; destruct (failed b && better); [apply weeded_set_invalid|apply weeded_refl]).
    assert (c_heap g1 = c_heap g /\ chainActive g1 = chainActive g) as [Hh1 Hc1] by (unfold g1; by destruct (failed b && better)).
    assert (cand_inv g1) as Hi1. { apply (weeded_inv g); [done|done|]. unfold g1. destruct (failed b && better); [cbn; intros q [= <-]; by eexists|apply (ci_best _ Hi)]. }
    assert (bad_at g1 (failed b) fm p) as B1 by (exists b; rewrite Hh1, Hc1; split_and!; [done..|]; unfold have_data, fm; done).
    destruct (failed_loop_spec (failed b) fm p Hbad k (Z.to_nat (nHeight bn)) new bn g1 Hi1) as (g' & -> & W' & Hi' & B' & _ & Hout); [by rewrite Hh1|by rewrite Hh1|lia|done|]. cbn [res_bind].
    assert (gone (c_heap g') (chainActive g') (mapBlocksUnlinked g') p) as Hg.
    { split; [by eapply (bad_unusable g' _ _ p p 0)|]. intros b0 Eb0. destruct B' as (b1 & Eb1 & _ & Hf & Hd). assert (b0 = b1) as -> by congruence. destruct (failed b); [by left|].
      right. left. by destruct fm. }
    pose proof (weeded_trans _ _ _ W' (weeded_erase g' p Hg)) as W2. exists true, (erase_candidate p g'). split; [done|]. split; [by eapply weeded_trans|]. split.
    { apply (weeded_inv g'); [done|by apply weeded_erase|]. apply (ci_best _ Hi'). }
    cbn. rewrite elem_of_erase. intros [Hin' Hne]. destruct k as [|k]; [injection Ht as ->; done|]. by apply (Hout 0%nat new); [lia|by rewrite Hh1|].
  - apply orb_false_iff in Hbad as [Hf Hd]. apply (IH (S k)).
    + rewrite <- Nat.add_1_r, anc_add, Ht. cbn. unfold parent. rewrite Eb. cbn. by destruct (pprev b).
    + intros q bq Eq Ebq. destruct (wf_parent _ Hw p b q Eb Eq) as (bq' & Ebq' & Hhq). assert (bq' = bq) as -> by congruence. split; [lia|]. left. destruct Htx' as [Htx'|]; [|pose proof (wf_height _ Hw q bq Ebq); lia].
      by apply (ci_linked _ Hi p b q bq).
    + intros j q Hj Ha. destruct (decide (j < k)%nat); [by apply (Hk j)|]. assert (j = k) as -> by lia. assert (q = p) as -> by congruence. intros b0 Eb0 _. assert (b0 = b) as -> by congruence. split; [done|]. unfold have_data. by rewrite Hd.
Qed.

Lemma find_loop_spec fuel : forall g, cand_inv g -> (length (setBlockIndexCandidates g) < fuel)%nat ->
  exists g', find_loop fuel g = Ok (last (setBlockIndexCandidates g'), g') /\ weeded g g' /\ cand_inv g' /\
    forall p, last (setBlockIndexCandidates g') = Some p -> usable (c_heap g) (chainActive g) p.
Proof.
  induction fuel as [|fuel IH]; intros g Hi Hl; [lia|]. cbn [find_loop]. destruct (last (setBlockIndexCandidates g)) as [new|] eqn:El.
  2:{ exists g. rewrite El. split; [done|]. split; [apply weeded_refl|]. done. }
  assert (new ∈ setBlockIndexCandidates g) as Hin by (apply last_Some in El as [l' ->]; apply elem_of_app; right; by apply list_elem_of_singleton).
  pose proof (ci_there _ Hi) as Ht. rewrite Forall_forall in Ht. destruct (Ht new Hin) as [bn En]. rewrite (deref_Some _ _ _ En). cbn [res_bind].
  destruct (test_loop_spec new bn g Hi En Hin (Z.to_nat (nHeight bn) + 1) 0 (Some new)) as (bad & g1 & -> & W & Hi1 & H); [done| |lia|].
  { intros p b [= <-] E. assert (b = bn) as -> by congruence. pose proof (wf_height _ (ci_store _ Hi) new bn En). split; [lia|]. by apply (ci_cands _ Hi new). }
  cbn [res_bind]. destruct bad.
  - destruct (IH g1 Hi1) as (g' & -> & W' & Hi' & Hu). { destruct (w_filter _ _ W) as (P & D & Ef). rewrite Ef in H |- *. pose proof (filter_shorter P new _ Hin H). lia. }
    exists g'. split; [done|]. split; [by eapply weeded_trans|]. split; [done|]. intros p Hp. apply (weeded_usable g g1); [done|]. by apply Hu.
  - destruct H as [-> H]. exists g. rewrite El. split; [done|]. split; [done|]. split; [done|]. by intros p [= <-].
Qed.

(** ** Received transactions *)

(** The first of a chain of received blocks is the root; [nChainTx] is the number of the
    transactions in the chain, or zero when some are missing. *)
Definition chain_tx_ok (st : store) (p : nat) (b : CBlockIndex) : Prop :=
  match pprev b with
  | None => nChainTx b = nTx b
  | Some q => forall bq, st !! q = Some bq -> nChainTx b = if (nTx b =? 0) || (nChainTx bq =? 0) then 0 else nChainTx bq + nTx b
  end.

(** The entry after the block was received, and after it was linked. *)
Definition received (ntx : Z) (witness : bool) (pos : CDiskBlockPos.t) (b : CBlockIndex) : CBlockIndex :=
  let status := Z.lor (nStatus b) BLOCK_HAVE_DATA in
  let status := if witness then Z.lor status BLOCK_OPT_WITNESS else status in
  let b' := set_tx b ntx 0 (CDiskBlockPos.nFile pos) (CDiskBlockPos.nPos pos) 0 status in
  match RaiseValidity BLOCK_VALID_TRANSACTIONS b' with Ok (_, b) => b | _ => b' end.

(** The state between the turns of the queue, of which the blocks are received and can be
    linked. A block has at most [N] transactions, and a chain less than 2^32; the
    blocks of [mapBlocksUnlinked] are those that wait for their predecessors; every
    usable block that is not worse than the tip is a candidate. *)
Record linking (N : Z) (queue : list nat) (g : candidates) : Prop := {
  li_store : wf_store (c_heap g);
  li_works : works_ok (c_heap g);
  li_chain : chain_ok (c_heap g) (chainActive g);
  li_sorted : StronglySorted (worse (c_heap g)) (setBlockIndexCandidates g);
  li_there : Forall (fun p => is_Some (c_heap g !! p)) (setBlockIndexCandidates g);
  li_cands : forall p b, p ∈ setBlockIndexCandidates g -> c_heap g !! p = Some b -> nChainTx b <> 0 \/ nHeight b = 0 /\ p ∉ queue;
  li_best : forall p, pindexBestInvalid g = Some p -> is_Some (c_heap g !! p);
  li_count : forall p b, c_heap g !! p = Some b -> 0 <= nTx b <= N /\ (nHeight b + 1) * N < 2 ^ 32;
  li_tx : forall p b, c_heap g !! p = Some b -> p ∉ queue -> chain_tx_ok (c_heap g) p b;
  li_queue : forall p, p ∈ queue -> exists b, c_heap g !! p = Some b /\ nTx b <> 0 /\ nChainTx b = 0 /\
    match pprev b with None => True | Some q => exists bq, c_heap g !! q = Some bq /\ nChainTx bq <> 0 end;
  li_nodup : NoDup queue;
  li_valid : forall p b, c_heap g !! p = Some b -> BLOCK_VALID_TREE <= Z.land (nStatus b) BLOCK_VALID_MASK;
  li_sequence : forall p b, c_heap g !! p = Some b -> nSequenceId b < nBlockSequenceId g;
  li_active : forall p b, in_chain (chainActive g) p -> c_heap g !! p = Some b -> nChainTx b <> 0;
  li_waiting : forall k p, (k, p) ∈ mapBlocksUnlinked g -> (p ∉ queue) /\ exists b q, c_heap g !! p = Some b /\ k = Some q /\ pprev b = Some q /\ nTx b <> 0 /\ nChainTx b = 0;
  li_complete : forall p b, c_heap g !! p = Some b -> nTx b <> 0 -> nChainTx b = 0 -> p ∉ queue -> (pprev b, p) ∈ mapBlocksUnlinked g;
  li_once : NoDup (map snd (mapBlocksUnlinked g));
  li_all : forall p b, c_heap g !! p = Some b -> nChainTx b <> 0 -> usable (c_heap g) (chainActive g) p ->
    (forall t, CChain.Tip (chainActive g) = Some t -> ~ worse (c_heap g) p t) -> p ∈ setBlockIndexCandidates g;
}.

(** The invariant between the operations. *)
Definition tx_inv (N : Z) (g : candidates) : Prop := linking N [] g.

(** A count is not zero just when all counts before it are not. *)
Lemma chain_tx_range N st p b : wf_store st -> (forall p b, st !! p = Some b -> 0 <= nTx b <= N /\ (nHeight b + 1) * N < 2 ^ 32) ->
  (forall p b, st !! p = Some b -> nChainTx b = 0 \/ chain_tx_ok st p b) -> st !! p = Some b -> 0 <= nChainTx b <= (nHeight b + 1) * N.
Proof.
  intros Hw Hn Hc. revert p b. assert (forall h p b, st !! p = Some b -> nHeight b = Z.of_nat h -> 0 <= nChainTx b <= (nHeight b + 1) * N) as H.
  { induction h as [|h IH]; intros p b E Hh; destruct (Hn p b E) as [Ht _]; (destruct (Hc p b E) as [-> | Hok]; [nia|]); unfold chain_tx_ok in Hok; destruct (pprev b) as [q|] eqn:Eq.
    - destruct (wf_parent st Hw p b q E Eq) as (bq & Ebq & Hhq). pose proof (wf_height st Hw q bq Ebq). lia.
    - rewrite Hok, Hh. lia.
    - destruct (wf_parent st Hw p b q E Eq) as (bq & Ebq & Hhq). rewrite (Hok bq Ebq). specialize (IH q bq Ebq ltac:(lia)). destruct (_ || _); nia.
    - rewrite Hok. nia. }
  intros p b E. apply (H (Z.to_nat (nHeight b)) p b E). pose proof (wf_height st Hw p b E). lia.
Qed.

Lemma linking_cand_inv N g : tx_inv N g -> cand_inv g.
Proof.
  intros [Is Iw Ic Io It Ik Ib In Ix Iq Id Iv Is' Ia Iwt Icm Ion Iall]. split; try done.
  - intros p b q bq E E0 Eq E1 H. pose proof (Ix p b E ltac:(by apply not_elem_of_nil)) as Hx. unfold chain_tx_ok in Hx. rewrite Eq in Hx. specialize (Hx bq E1). rewrite H, orb_true_r in Hx. done.
  - intros p b Hp E. destruct (Ik p b Hp E) as [|[H _]]; auto.
Qed.

Lemma tip_active c t : CChain.Tip c = Some t -> in_chain c t.
Proof.
  unfold CChain.Tip. destruct (Nat.ltb_spec 0 (length c)) as [Hc|]; [|done]. intros H. exists (length c - 1)%nat. destruct (lookup_lt_is_Some_2 c (length c - 1)) as [x Hx]; [lia|]. rewrite (list_lookup_total_correct _ _ _ Hx) in H. by rewrite Hx, H.
Qed.

Definition statuses (b : CBlockIndex) := (tree b, nStatus b).
Lemma usable_agrees st st' c p : agrees statuses st st' -> usable st c p <-> usable st' c p.
Proof.
  assert (forall st st', agrees statuses st st' -> usable st c p -> usable st' c p) as H; [|intros Ha; split; apply H; [done|by symmetry]].
  clear st st'. intros st st' Ha Hu k q Hq b' E' Hc. rewrite <- (anc_agrees st st') in Hq by (by apply (agrees_weaken statuses fst)).
  destruct (agrees_lookup statuses _ _ q b' (symmetry Ha) E') as (b & E & [= _ _ _ Hs]). destruct (Hu k q Hq b E Hc) as [H1 H2]. unfold failed, have_data in *. by rewrite <- Hs.
Qed.

(** One turn of the queue on the block [x]. *)
Section turn.
Context (N : Z) (x : nat) (qs : list nat) (g : candidates) (Hg : linking N (x :: qs) g) (b : CBlockIndex) (Eb : c_heap g !! x = Some b).

Definition prev_tx (bq : option CBlockIndex) : Z := match bq with Some bq => nChainTx bq | None => 0 end.
Context (bq : option CBlockIndex) (Hbq : (pprev b ≫= fun q => c_heap g !! q) = bq).
Abbreviation b' := (set_chain_tx b (u32 (prev_tx bq + nTx b)) (nBlockSequenceId g)).
Abbreviation st' := (<[x := b']> (c_heap g)).

Lemma turn_entry : nTx b <> 0 /\ nChainTx b = 0 /\ match pprev b with None => bq = None | Some q => q <> x /\ exists e, bq = Some e /\ c_heap g !! q = Some e /\ nChainTx e <> 0 end.
Proof.
  destruct (li_queue _ _ _ Hg x ltac:(by left)) as (b0 & E0 & H1 & H2 & H3). assert (b0 = b) as -> by congruence. split; [done|]. split; [done|].
  destruct (pprev b) as [q|] eqn:Eq; [|by cbn in Hbq]. destruct H3 as (e & Ee & He). cbn in Hbq. split; [intros ->; congruence|]. exists e. split; [congruence|done].
Qed.

Lemma turn_tx : u32 (prev_tx bq + nTx b) = prev_tx bq + nTx b /\ prev_tx bq + nTx b <> 0.
Proof.
  destruct turn_entry as (H1 & H2 & H3). destruct (li_count _ _ _ Hg x b Eb) as [Hn Hb]. pose proof (wf_height _ (li_store _ _ _ Hg) x b Eb) as Hh.
  assert (forall p e, c_heap g !! p = Some e -> nChainTx e = 0 \/ chain_tx_ok (c_heap g) p e) as Hall.
  { intros p e E. destruct (decide (p ∈ x :: qs)) as [Hin|Hin]; [|right; by apply (li_tx _ _ _ Hg)]. left. destruct (li_queue _ _ _ Hg p Hin) as (e' & E' & _ & H & _). congruence. }
  destruct (pprev b) as [q|] eqn:Eq.
  - destruct H3 as (_ & e & -> & Ee & He). cbn. pose proof (chain_tx_range N _ q e (li_store _ _ _ Hg) (li_count _ _ _ Hg) Hall Ee) as Hr.
    destruct (wf_parent _ (li_store _ _ _ Hg) x b q Eb Eq) as (e' & Ee' & Hhq). assert (e' = e) as -> by congruence. split; [apply wrap_small; unfold in_u; nia|lia].
  - rewrite H3. cbn. split; [apply wrap_small; unfold in_u; nia|lia].
Qed.

Lemma turn_agrees : agrees statuses (c_heap g) st' /\ agrees nChainWork (c_heap g) st' /\ agrees nTx (c_heap g) st'.
Proof. split_and!; by eapply agrees_insert. Qed.

Lemma turn_out : ~ in_chain (chainActive g) x /\ x ∉ setBlockIndexCandidates g.
Proof.
  destruct turn_entry as (_ & H & _). split; [intros Hc; by apply (li_active _ _ _ Hg x b Hc Eb)|]. intros Hc. destruct (li_cands _ _ _ Hg x b Hc Eb) as [|[_ Hn]]; [done|]. apply Hn. by left.
Qed.

Lemma turn_worse p q : p <> x -> q <> x -> worse st' p q <-> worse (c_heap g) p q.
Proof. intros Hp Hq. unfold worse. by rewrite !lookup_insert_ne by done. Qed.

Lemma turn_sorted : StronglySorted (worse st') (setBlockIndexCandidates g).
Proof.
  pose proof turn_out as [_ Hx]. pose proof (li_sorted _ _ _ Hg) as Hs. revert Hx. induction Hs as [|y l Hs IH Hf]; intros Hx; [constructor|]. rewrite not_elem_of_cons in Hx. destruct Hx as [Hy Hx].
  constructor; [by apply IH|]. apply Forall_forall. intros z Hz. apply turn_worse; [done|intros ->; done|]. by eapply Forall_forall in Hf.
Qed.
End turn.

Lemma snd_filter_fresh (P : ptr * nat -> Prop) `{!forall e, Decision (P e)} l : NoDup (map snd l) -> NoDup (map snd (filter P l)).
Proof.
  induction l as [|e l IH]; [done|]. cbn [map]. rewrite filter_cons. intros [Hn Hl]%NoDup_cons. case_decide; [|by apply IH]. cbn [map]. apply NoDup_cons. split; [|by apply IH].
  intros Hin. apply Hn. apply list_elem_of_fmap in Hin as (e' & -> & [_ He]%list_elem_of_filter). apply list_elem_of_fmap. by exists e'.
Qed.

Section turned.
Context (N : Z) (x : nat) (qs : list nat) (g : candidates) (Hg : linking N (x :: qs) g) (b : CBlockIndex) (Eb : c_heap g !! x = Some b).
Context (bq : option CBlockIndex) (Hbq : (pprev b ≫= fun q => c_heap g !! q) = bq).
Abbreviation b' := (set_chain_tx b (u32 (prev_tx bq + nTx b)) (nBlockSequenceId g)).
Abbreviation st' := (<[x := b']> (c_heap g)).
Abbreviation range := (map snd (filter (fun e => e.1 = Some x) (mapBlocksUnlinked g))).
Abbreviation rest := (filter (fun e => e.1 <> Some x) (mapBlocksUnlinked g)).

Lemma in_range p : p ∈ range <-> (Some x, p) ∈ mapBlocksUnlinked g.
Proof.
  split.
  - intros Hin. apply list_elem_of_fmap in Hin as ([k p'] & -> & [Hk He]%list_elem_of_filter). cbn in *. by subst k.
  - intros H. apply list_elem_of_fmap. exists (Some x, p). split; [done|]. by apply list_elem_of_filter.
Qed.

Lemma turn_entries p e : st' !! p = Some e -> p <> x -> c_heap g !! p = Some e.
Proof. intros E Hp. by rewrite lookup_insert_ne in E by done. Qed.

Lemma turn_linked p e : st' !! p = Some e -> p ∉ qs ++ range -> chain_tx_ok st' p e.
Proof.
  intros E Hn. rewrite elem_of_app, in_range in Hn. destruct (turn_entry N x qs g Hg b Eb bq Hbq) as (H1 & H2 & H3), (turn_tx N x qs g Hg b Eb bq Hbq) as [Ht Ht0].
  unfold chain_tx_ok. destruct (decide (p = x)) as [->|Hp].
  - rewrite lookup_insert_eq in E. injection E as <-. cbn. destruct (pprev b) as [q|].
    + destruct H3 as (Hq & e & -> & Ee & He). intros e' E'. rewrite lookup_insert_ne in E' by done. assert (e' = e) as -> by congruence. rewrite Ht. cbn.
      by rewrite (proj2 (Z.eqb_neq _ _) H1), (proj2 (Z.eqb_neq _ _) He).
    + subst bq. rewrite H3 in *. cbn in *. lia.
  - rewrite lookup_insert_ne in E by done. pose proof (li_tx _ _ _ Hg p e E) as Hx. rewrite not_elem_of_cons in Hx. specialize (Hx ltac:(tauto)). unfold chain_tx_ok in Hx.
    destruct (pprev e) as [q|] eqn:Eq; [|done]. intros eq E'. destruct (decide (q = x)) as [->|Hq]; [|rewrite lookup_insert_ne in E' by done; by apply Hx].
    rewrite lookup_insert_eq in E'. injection E' as <-. rewrite (Hx b Eb), H2, orb_true_r. cbn. destruct (Z.eqb_spec (nTx e) 0) as [|Hnt]; [done|]. exfalso. apply Hn. right.
    rewrite <- Eq. apply (li_complete _ _ _ Hg p e E Hnt); [rewrite (Hx b Eb), H2; by rewrite orb_true_r|]. rewrite not_elem_of_cons. tauto.
Qed.

Lemma turn_queue p : p ∈ qs ++ range -> exists e, st' !! p = Some e /\ nTx e <> 0 /\ nChainTx e = 0 /\
  match pprev e with None => True | Some q => exists eq, st' !! q = Some eq /\ nChainTx eq <> 0 end.
Proof.
  destruct (turn_tx N x qs g Hg b Eb bq Hbq) as [Ht Ht0]. pose proof (li_nodup _ _ _ Hg) as Hnd. apply NoDup_cons in Hnd as [Hnx Hnd]. rewrite elem_of_app, in_range. intros [Hp|Hp].
  - destruct (li_queue _ _ _ Hg p ltac:(by right)) as (e & E & H1 & H2 & H3). assert (p <> x) as Hne by congruence. exists e. rewrite lookup_insert_ne by done. split; [done|]. split; [done|]. split; [done|].
    destruct (pprev e) as [q|]; [|done]. destruct H3 as (eq & E' & H). destruct (decide (q = x)) as [->|]; [|exists eq; by rewrite lookup_insert_ne].
    exists b'. rewrite lookup_insert_eq. split; [done|]. cbn. by rewrite Ht.
  - destruct (li_waiting _ _ _ Hg (Some x) p Hp) as (Hn & e & q & E & [= <-] & Eq & H1 & H2). assert (p <> x) as Hne by (intros ->; apply Hn; by left).
    exists e. rewrite lookup_insert_ne by done. split_and!; [done..|]. rewrite Eq. exists b'. rewrite lookup_insert_eq. split; [done|]. cbn. by rewrite Ht.
Qed.

Lemma turn_nodup : NoDup (qs ++ range).
Proof.
  pose proof (li_nodup _ _ _ Hg) as Hnd. apply NoDup_cons in Hnd as [Hnx Hnd]. apply NoDup_app. split; [done|]. split; [|by apply snd_filter_fresh, (li_once _ _ _ Hg)].
  intros p Hp Hr%in_range. destruct (li_waiting _ _ _ Hg _ p Hr) as [Hn _]. apply Hn. by right.
Qed.

(** The state after the turn, with [l] for the candidates. *)
Definition turned (l : list nat) : candidates :=
  set_unlinked rest (set_cands l (set_sequence (nBlockSequenceId g + 1) (write_entry x b' g))).

Lemma turn_spec l : StronglySorted (worse st') l -> Forall (fun p => is_Some (st' !! p)) l -> (forall p, p ∈ setBlockIndexCandidates g -> p ∈ l) ->
  (forall p, p ∈ l -> p = x \/ p ∈ setBlockIndexCandidates g) -> ((forall t, CChain.Tip (chainActive g) = Some t -> ~ worse st' x t) -> x ∈ l) -> linking N (qs ++ range) (turned l).
Proof.
  intros Hs Hth Hl1 Hl2 Hx. destruct (turn_entry N x qs g Hg b Eb bq Hbq) as (H1 & H2 & H3), (turn_tx N x qs g Hg b Eb bq Hbq) as [Ht Ht0], (turn_out N x qs g Hg b Eb bq Hbq) as [Hxc Hxl].
  destruct (turn_agrees x g b Eb bq) as (A1 & A2 & A3). pose proof (agrees_weaken statuses fst _ _ A1) as At. change (agrees tree (c_heap g) st') in At.
  pose proof (li_nodup _ _ _ Hg) as Hnd. apply NoDup_cons in Hnd as [Hnx Hnd].
  split; unfold turned, c_heap; cbn [c_index set_unlinked set_cands set_sequence write_entry set_index heap chainActive setBlockIndexCandidates mapBlocksUnlinked pindexBestInvalid nBlockSequenceId].
  all: fold (c_heap g).
  - by apply (wf_store_agrees (c_heap g)), (li_store _ _ _ Hg).
  - by apply (works_agrees (c_heap g)), (li_works _ _ _ Hg).
  - by apply (chain_ok_agrees (c_heap g)), (li_chain _ _ _ Hg).
  - done.
  - done.
  - intros p e Hp E. destruct (decide (p = x)) as [->|Hne]; [rewrite lookup_insert_eq in E; injection E as <-; left; cbn; by rewrite Ht|]. apply turn_entries in E; [|done].
    destruct (Hl2 p Hp) as [|Hin]; [done|]. destruct (li_cands _ _ _ Hg p e Hin E) as [|[Hh Hn]]; [by left|]. destruct (decide (nChainTx e = 0)) as [Hz|]; [|by left]. right. split; [done|].
    rewrite elem_of_app, in_range. intros [Hq|Hr]; [apply Hn; by right|]. destruct (li_waiting _ _ _ Hg _ p Hr) as (_ & e' & q & E' & [= <-] & Eq & _). assert (e' = e) as -> by congruence.
    destruct (wf_parent _ (li_store _ _ _ Hg) p e x E Eq) as (bx & Ebx & Hhx). pose proof (wf_height _ (li_store _ _ _ Hg) x bx Ebx). lia.
  - intros p Hp. eapply agrees_in; [exact At|]. by apply (li_best _ _ _ Hg).
  - intros p e E. destruct (agrees_lookup statuses _ _ p e (symmetry A1) E) as (e0 & E0 & [= _ _ Hh _]), (agrees_lookup nTx _ _ p e (symmetry A3) E) as (e1 & E1 & Hn). assert (e1 = e0) as -> by congruence.
    rewrite <- Hn, <- Hh. by apply (li_count _ _ _ Hg p).
  - apply turn_linked.
  - apply turn_queue.
  - apply turn_nodup.
  - intros p e E. destruct (agrees_lookup statuses _ _ p e (symmetry A1) E) as (e0 & E0 & [= _ _ _ Hst]). rewrite <- Hst. by apply (li_valid _ _ _ Hg p).
  - intros p e E. destruct (decide (p = x)) as [->|Hne]; [rewrite lookup_insert_eq in E; injection E as <-; cbn; lia|]. apply turn_entries in E; [|done]. pose proof (li_sequence _ _ _ Hg p e E). lia.
  - intros p e Hc E. apply turn_entries in E; [|by intros ->]. by apply (li_active _ _ _ Hg p).
  - intros k p [Hk He]%list_elem_of_filter. cbn in Hk. destruct (li_waiting _ _ _ Hg k p He) as (Hn & e & q & E & -> & Eq & Hr). rewrite not_elem_of_cons in Hn. split.
    + rewrite elem_of_app, in_range. intros [|Hr']; [tauto|]. destruct (li_waiting _ _ _ Hg _ p Hr') as (_ & e' & q' & E' & [= <-] & Eq' & _). apply Hk. congruence.
    + exists e, q. rewrite lookup_insert_ne by (intros ->; tauto). done.
  - intros p e E Hn Hz Hq. rewrite elem_of_app, in_range in Hq. destruct (decide (p = x)) as [->|Hne]; [rewrite lookup_insert_eq in E; injection E as <-; cbn in Hz; by rewrite Ht in Hz|].
    apply turn_entries in E; [|done]. pose proof (li_complete _ _ _ Hg p e E Hn Hz) as Hc. rewrite not_elem_of_cons in Hc. specialize (Hc ltac:(tauto)). apply list_elem_of_filter. split; [|done]. cbn.
    intros Hk. apply Hq. right. by rewrite <- Hk.
  - by apply snd_filter_fresh, (li_once _ _ _ Hg).
  - intros p e E Hn Hu Ht'. destruct (decide (p = x)) as [->|Hne]; [by apply Hx|]. apply turn_entries in E; [|done]. apply Hl1, (li_all _ _ _ Hg p e E Hn).
    + by apply (usable_agrees (c_heap g) st').
    + intros t Et. specialize (Ht' t Et). intros Hw. apply Ht'. apply turn_worse; [done| |done]. intros ->. by apply Hxc, tip_active.
Qed.
End turned.

(** What linking blocks changes: counts and new sequence numbers, and more candidates, all
    with a new sequence number. *)
Record links (g g' : candidates) : Prop := {
  k_same : chainActive g' = chainActive g /\ pindexBestInvalid g' = pindexBestInvalid g /\ nBlockReverseSequenceId g' = nBlockReverseSequenceId g /\
    nLastPreciousChainwork g' = nLastPreciousChainwork g /\ mapBlockIndex (c_index g') = mapBlockIndex (c_index g) /\ pindexBestHeader (c_index g') = pindexBestHeader (c_index g);
  k_heap : forall p b, c_heap g !! p = Some b -> exists n s, c_heap g' !! p = Some (set_chain_tx b n s) /\
    (n = nChainTx b /\ s = nSequenceId b \/ nBlockSequenceId g <= s);
  k_dom : forall p, c_heap g !! p = None -> c_heap g' !! p = None;
  k_old : forall p, p ∈ setBlockIndexCandidates g -> p ∈ setBlockIndexCandidates g';
  k_new : forall p, p ∈ setBlockIndexCandidates g' -> p ∈ setBlockIndexCandidates g \/ exists b, c_heap g' !! p = Some b /\ nBlockSequenceId g <= nSequenceId b;
  k_sequence : nBlockSequenceId g <= nBlockSequenceId g';
}.

Lemma links_refl g : links g g.
Proof. split; try done; [|by left]. intros p b E. exists (nChainTx b), (nSequenceId b). split; [rewrite E; f_equal; by destruct b|by left]. Qed.

Lemma links_trans g1 g2 g3 : links g1 g2 -> links g2 g3 -> links g1 g3.
Proof.
  intros [(A1 & A2 & A3 & A4 & A5 & A6) H1 D1 O1 N1 S1] [(B1 & B2 & B3 & B4 & B5 & B6) H2 D2 O2 N2 S2]. split.
  - split_and!; congruence.
  - intros p b E. destruct (H1 p b E) as (n & s & E' & Hs). destruct (H2 p _ E') as (n' & s' & E'' & Hs'). exists n', s'. split; [exact E''|]. cbn in Hs'. lia.
  - auto.
  - auto.
  - intros p Hp. destruct (N2 p Hp) as [Hq|(b & E & Hb)]; [|right; exists b; split; [done|lia]]. destruct (N1 p Hq) as [|(b & E & Hb)]; [by left|]. right.
    destruct (H2 p b E) as (n & s & E' & Hs). exists (set_chain_tx b n s). split; [done|]. cbn. lia.
  - lia.
Qed.

Lemma turn_links x g b n l : c_heap g !! x = Some b -> (forall p, p ∈ setBlockIndexCandidates g -> p ∈ l) -> (forall p, p ∈ l -> p = x \/ p ∈ setBlockIndexCandidates g) ->
  forall m, links g (set_unlinked m (set_cands l (set_sequence (nBlockSequenceId g + 1) (write_entry x (set_chain_tx b n (nBlockSequenceId g)) g)))).
Proof.
  intros E Hl1 Hl2 m. split; unfold c_heap in *; cbn [c_index set_unlinked set_cands set_sequence write_entry set_index heap mapBlockIndex pindexBestHeader setBlockIndexCandidates nBlockSequenceId].
  - done.
  - intros p e Ee. destruct (decide (p = x)) as [->|Hne].
    + assert (e = b) as -> by congruence. exists n, (nBlockSequenceId g). rewrite lookup_insert_eq. split; [done|]. right. lia.
    + exists (nChainTx e), (nSequenceId e). rewrite lookup_insert_ne, Ee by done. split; [f_equal; by destruct e|by left].
  - intros p Hp. rewrite lookup_insert_ne by congruence. done.
  - done.
  - intros p [-> | ]%Hl2; [|by left]. right. eexists. rewrite lookup_insert_eq. split; [done|]. cbn. lia.
  - lia.
Qed.

Lemma range_length (x : nat) (l : list (ptr * nat)) :
  (length (map snd (filter (fun e => e.1 = Some x) l)) + length (filter (fun e => e.1 <> Some x) l) = length l)%nat.
Proof.
  induction l as [|e l IH]; [done|]. rewrite !filter_cons. rewrite length_map in *. destruct (decide (e.1 = Some x)) as [H|H].
  - destruct (decide (e.1 <> Some x)); [done|]. cbn [length]. lia.
  - destruct (decide (e.1 <> Some x)); [|done]. cbn [length]. lia.
Qed.

Lemma queue_loop_spec N fuel : forall queue g, linking N queue g -> (length queue + length (mapBlocksUnlinked g) <= fuel)%nat ->
  0 <= nBlockSequenceId g -> nBlockSequenceId g + Z.of_nat (length queue + length (mapBlocksUnlinked g)) < 2 ^ 31 ->
  exists g', queue_loop fuel queue g = Ok g' /\ tx_inv N g' /\ links g g'.
Proof.
  induction fuel as [|fuel IH]; intros [|x qs] g Hg Hf Hs0 Hs; cbn [queue_loop]; try (exists g; split; [done|]; split; [done|apply links_refl]); [cbn in Hf; lia|].
  destruct (li_queue _ _ _ Hg x ltac:(by left)) as (b & Eb & _). rewrite (deref_Some _ _ _ Eb). cbn [res_bind].
  set (bq := pprev b ≫= fun q => c_heap g !! q). pose proof (turn_entry N x qs g Hg b Eb bq eq_refl) as (_ & _ & H3).
  assert (match pprev b with None => Ok 0 | Some _ => let? q := deref (c_heap g) (pprev b) in Ok (nChainTx q) end = Ok (prev_tx bq)) as ->.
  { destruct (pprev b) as [q|]; [|by rewrite H3]. destruct H3 as (_ & e & -> & Ee & _). by rewrite (deref_Some _ _ _ Ee). }
  cbn [res_bind]. set (b' := set_chain_tx b (u32 (prev_tx bq + nTx b)) (nBlockSequenceId g)). set (g1 := set_sequence _ (write_entry x b' g)).
  assert (g1 = set_sequence (nBlockSequenceId g + 1) (write_entry x b' g)) as E1. { unfold g1. f_equal. apply swrap_small; [done|]. unfold in_s. cbn [nBlockSequenceId write_entry set_index]. cbn [length] in Hs. lia. }
  assert (c_heap g1 = <[x := b']> (c_heap g)) as Eh by (by rewrite E1). destruct (turn_agrees x g b Eb bq) as (A1 & A2 & _).
  assert (works_ok (c_heap g1)) as Hw by (rewrite Eh; apply (works_agrees (c_heap g)); [done|apply (li_works _ _ _ Hg)]).
  pose proof (turn_out N x qs g Hg b Eb bq eq_refl) as [Hxc Hxl]. pose proof (turn_sorted N x qs g Hg b Eb bq eq_refl) as Hsort.
  assert (Forall (fun p => is_Some (c_heap g1 !! p)) (setBlockIndexCandidates g)) as Hth.
  { eapply Forall_impl; [apply (li_there _ _ _ Hg)|]. intros p Hp. rewrite Eh. by eapply agrees_in. }
  assert (is_Some (c_heap g1 !! x)) as Hx by (rewrite Eh, lookup_insert_eq; by eexists).
  assert (exists add, match CChain.Tip (chainActive g1) with None => Ok true | Some _ =>
      let? below := CBlockIndexWorkComparator (c_heap g1) (Some x) (CChain.Tip (chainActive g1)) in Ok (negb below) end = Ok add /\
      (add = true <-> forall t, CChain.Tip (chainActive g) = Some t -> ~ worse (c_heap g1) x t)) as (add & -> & Hadd).
  { change (chainActive g1) with (chainActive g). destruct (CChain.Tip (chainActive g)) as [t|] eqn:Et; [|by exists true].
    destruct (tip_active _ _ Et) as [i Hi]. destruct (proj2 (li_chain _ _ _ Hg) i (Some t) Hi) as (t' & bt & [= <-] & Ebt & _). assert (is_Some (c_heap g1 !! t)) as Ht by (rewrite Eh; eapply agrees_in; [exact A1|by eexists]).
    rewrite comparator_spec by done. cbn [res_bind]. eexists. split; [done|]. rewrite negb_true_iff, bool_decide_eq_false. split; [by intros H t0 [= <-]|auto]. }
  cbn [res_bind].
  assert (exists l, (if add then insert_candidate x g1 else Ok g1) = Ok (set_cands l g1) /\ StronglySorted (worse (c_heap g1)) l /\ Forall (fun p => is_Some (c_heap g1 !! p)) l /\
    (forall p, p ∈ setBlockIndexCandidates g -> p ∈ l) /\ (forall p, p ∈ l -> p = x \/ p ∈ setBlockIndexCandidates g) /\ (add = true -> x ∈ l)) as (l & -> & L1 & L2 & L3 & L4 & L5).
  { destruct add.
    - unfold insert_candidate. change (setBlockIndexCandidates g1) with (setBlockIndexCandidates g). rewrite Eh in *.
      destruct (set_insert_spec _ Hw x (setBlockIndexCandidates g) Hx Hth Hsort) as (l & -> & Hl & Hin). exists l. split; [done|]. split; [done|]. split; [|by split_and!; intros; [apply Hin; auto|apply Hin|apply Hin; auto]].
      apply Forall_forall. intros p [-> | Hp]%Hin; [done|]. rewrite Forall_forall in Hth. by apply Hth.
    - exists (setBlockIndexCandidates g). split; [done|]. rewrite Eh in *. split_and!; try done; auto. }
  cbn [res_bind]. rewrite E1. pose proof (turn_spec N x qs g Hg b Eb bq eq_refl l) as Hturn. rewrite Eh in *. specialize (Hturn L1 L2 L3 L4 ltac:(intros H; by apply L5, Hadd)).
  pose proof (range_length x (mapBlocksUnlinked g)) as Hlen. edestruct (IH _ _ Hturn) as (g' & Eg' & Hi' & Hk').
  - unfold turned. cbn [mapBlocksUnlinked set_unlinked]. rewrite length_app. cbn [length] in Hf. lia.
  - unfold turned. cbn [nBlockSequenceId set_unlinked set_cands set_sequence]. lia.
  - unfold turned. cbn [mapBlocksUnlinked nBlockSequenceId set_unlinked set_cands set_sequence]. rewrite length_app. cbn [length] in Hs. lia.
  - exists g'. split; [exact Eg'|]. split; [done|]. eapply links_trans; [|exact Hk']. by apply turn_links.
Qed.

Lemma raise_transactions b : exists f s, RaiseValidity BLOCK_VALID_TRANSACTIONS b = Ok (f, set_nStatus b s) /\ Z.land s BLOCK_FAILED_MASK = Z.land (nStatus b) BLOCK_FAILED_MASK /\
  Z.land s BLOCK_HAVE_DATA = Z.land (nStatus b) BLOCK_HAVE_DATA /\ (BLOCK_VALID_TREE <= Z.land (nStatus b) BLOCK_VALID_MASK -> BLOCK_VALID_TREE <= Z.land s BLOCK_VALID_MASK).
Proof.
  unfold RaiseValidity. change (negb (Z.land BLOCK_VALID_TRANSACTIONS (u32 (Z.lnot BLOCK_VALID_MASK)) =? 0)) with false. cbv iota.
  destruct (negb _); [exists false, (nStatus b); split; [f_equal; f_equal; by destruct b|done]|]. destruct (_ <? _); [|exists false, (nStatus b); split; [f_equal; f_equal; by destruct b|done]].
  exists true. eexists. split; [done|]. rewrite !Z.land_lor_distr_l, <- !Z.land_assoc. split_and!.
  - change (Z.land (u32 (Z.lnot BLOCK_VALID_MASK)) BLOCK_FAILED_MASK) with BLOCK_FAILED_MASK. change (Z.land BLOCK_VALID_TRANSACTIONS BLOCK_FAILED_MASK) with 0. by rewrite Z.lor_0_r.
  - change (Z.land (u32 (Z.lnot BLOCK_VALID_MASK)) BLOCK_HAVE_DATA) with BLOCK_HAVE_DATA. change (Z.land BLOCK_VALID_TRANSACTIONS BLOCK_HAVE_DATA) with 0. by rewrite Z.lor_0_r.
  - intros _. change (Z.land (u32 (Z.lnot BLOCK_VALID_MASK)) BLOCK_VALID_MASK) with 0. rewrite Z.land_0_r. cbn. discriminate.
Qed.

(** The entry with the data of the block. *)
Definition has_block (ntx : Z) (pos : CDiskBlockPos.t) (b b' : CBlockIndex) : Prop :=
  tree b' = tree b /\ nChainWork b' = nChainWork b /\ phashBlock b' = phashBlock b /\ nTx b' = ntx /\ nFile b' = CDiskBlockPos.nFile pos /\ nDataPos b' = CDiskBlockPos.nPos pos /\
  nUndoPos b' = 0 /\ have_data b' = true /\ failed b' = failed b.

Section receive.
Context (N ntx : Z) (witness : bool) (new : nat) (pos : CDiskBlockPos.t) (g : candidates) (b : CBlockIndex).
Context (Hg : tx_inv N g) (Eb : c_heap g !! new = Some b) (Htx : nTx b = 0) (Hntx : 0 < ntx <= N) (Hout : new ∉ setBlockIndexCandidates g).

(** The heap with the data of the block, before it is linked. *)
Lemma stored_entry : exists f b', RaiseValidity BLOCK_VALID_TRANSACTIONS (set_tx b (u32 ntx) 0 (CDiskBlockPos.nFile pos) (CDiskBlockPos.nPos pos) 0
    (if witness then Z.lor (Z.lor (nStatus b) BLOCK_HAVE_DATA) BLOCK_OPT_WITNESS else Z.lor (nStatus b) BLOCK_HAVE_DATA)) = Ok (f, b') /\
  has_block ntx pos b b' /\ nChainTx b' = 0 /\ nSequenceId b' = nSequenceId b /\ BLOCK_VALID_TREE <= Z.land (nStatus b') BLOCK_VALID_MASK.
Proof.
  set (status := if witness then _ else _). assert (Z.land status BLOCK_FAILED_MASK = Z.land (nStatus b) BLOCK_FAILED_MASK /\ Z.land status BLOCK_HAVE_DATA = BLOCK_HAVE_DATA /\
    Z.land status BLOCK_VALID_MASK = Z.land (nStatus b) BLOCK_VALID_MASK) as (S1 & S2 & S3).
  { unfold status. destruct witness; rewrite !Z.land_lor_distr_l; cbn; rewrite ?Z.lor_0_r; split_and!; try done.
    all: rewrite Z.land_diag; apply Z.bits_inj'; intros i Hi; rewrite Z.lor_spec, Z.land_spec; by destruct (Z.testbit (nStatus b) i), (Z.testbit BLOCK_HAVE_DATA i). }
  set (b1 := set_tx b _ _ _ _ _ _). destruct (raise_transactions b1) as (f & s & -> & R1 & R2 & R3). exists f, (set_nStatus b1 s). split; [done|].
  destruct (li_count _ _ _ Hg new b Eb) as [_ Hb]. pose proof (wf_height _ (li_store _ _ _ Hg) new b Eb) as Hh.
  split; [|split; [done|split; [done|]]].
  - split_and!; try done.
    + cbn. apply wrap_small. unfold in_u. nia.
    + unfold have_data. cbn [nStatus set_nStatus]. rewrite R2. cbn [b1 set_tx nStatus]. by rewrite S2.
    + unfold failed. cbn [nStatus set_nStatus]. rewrite R1. cbn [b1 set_tx nStatus]. by rewrite S1.
  - cbn [nStatus set_nStatus]. apply R3. cbn [b1 set_tx nStatus]. rewrite S3. by apply (li_valid _ _ _ Hg new).
Qed.

Context (b' : CBlockIndex) (Hb' : has_block ntx pos b b') (Hc' : nChainTx b' = 0) (Hs' : nSequenceId b' = nSequenceId b) (Hv' : BLOCK_VALID_TREE <= Z.land (nStatus b') BLOCK_VALID_MASK).
Abbreviation st' := (<[new := b']> (c_heap g)).

Lemma new_chain_tx : nChainTx b = 0.
Proof.
  pose proof (li_tx _ _ _ Hg new b Eb ltac:(by apply not_elem_of_nil)) as Hx. unfold chain_tx_ok in Hx. destruct (pprev b) as [q|] eqn:Eq; [|congruence].
  destruct (wf_parent _ (li_store _ _ _ Hg) new b q Eb Eq) as (bq & Ebq & _). rewrite (Hx bq Ebq). by rewrite Htx.
Qed.

Lemma new_prev : pprev b' = pprev b /\ nHeight b' = nHeight b.
Proof. destruct Hb' as ([= H1 _ H2] & _). done. Qed.

Lemma store_agrees : agrees tree (c_heap g) st' /\ agrees order (c_heap g) st'.
Proof. destruct Hb' as (H1 & H2 & _). split; eapply agrees_insert; [done|done|done|]. unfold order. by rewrite H2, Hs'. Qed.

(** A block with all transactions has no ancestor without. *)
Lemma linked_anc p e k q eq : c_heap g !! p = Some e -> nChainTx e <> 0 -> anc (c_heap g) k p = Some q -> c_heap g !! q = Some eq -> nChainTx eq <> 0.
Proof.
  revert p e. induction k as [|k IH]; intros p e E Hn Ha Eq; [injection Ha as ->; congruence|]. cbn [anc] in Ha. unfold parent in Ha. rewrite E in Ha. cbn in Ha. destruct (pprev e) as [r|] eqn:Er; [|done]. cbn in Ha.
  destruct (wf_parent _ (li_store _ _ _ Hg) p e r E Er) as (br & Ebr & _). apply (IH r br Ebr); [|done|done]. by apply (ci_linked _ (linking_cand_inv N g Hg) p e r br).
Qed.

Lemma stored_usable p e : c_heap g !! p = Some e -> nChainTx e <> 0 -> usable st' (chainActive g) p -> usable (c_heap g) (chainActive g) p.
Proof.
  intros E Hn Hu k q Ha eq Eq Hc. destruct store_agrees as [At _]. rewrite (anc_agrees _ st') in Ha by done. apply (Hu k q Ha); [|done].
  destruct (decide (q = new)) as [->|Hne]; [|by rewrite lookup_insert_ne]. exfalso. rewrite <- (anc_agrees (c_heap g)) in Ha by done. apply (linked_anc p e k new b E Hn Ha Eb), new_chain_tx.
Qed.

(** The state before the queue runs, or when the block waits. *)
Lemma stored_linking queue un d : queue = [] /\ un = [(pprev b, new)] /\ (exists q bq, pprev b = Some q /\ c_heap g !! q = Some bq /\ nChainTx bq = 0) \/
    queue = [new] /\ un = [] /\ match pprev b with None => True | Some q => exists bq, c_heap g !! q = Some bq /\ nChainTx bq <> 0 end ->
  linking N queue (set_unlinked (mapBlocksUnlinked g ++ un) (set_index {| heap := st'; mapBlockIndex := mapBlockIndex (c_index g); pindexBestHeader := pindexBestHeader (c_index g);
    setDirtyBlockIndex := d |} g)).
Proof.
  intros Hcase. destruct store_agrees as [At Ao], new_prev as [Hp Hh]. pose proof new_chain_tx as Hz. pose proof (proj1 (proj2 (proj2 (proj2 Hb')))) as Hn'.
  assert (forall p e, st' !! p = Some e -> p <> new -> c_heap g !! p = Some e) as Hold by (intros p e E Hne; by rewrite lookup_insert_ne in E).
  assert (forall p, p ∈ queue -> p = new) as Hq by (intros p; destruct Hcase as [(-> & _)|(-> & _)]; [by intros ?%elem_of_nil|by intros ?%list_elem_of_singleton]).
  assert (forall p, p ∉ @nil nat) as Hnil by (intros p; apply not_elem_of_nil).
  assert (new ∉ map snd (mapBlocksUnlinked g)) as Hnw.
  { intros Hin. apply list_elem_of_fmap in Hin as ([k p] & Ep & Hin). cbn in Ep. subst p. destruct (li_waiting _ _ _ Hg k new Hin) as (_ & e & q & E & _ & _ & Hx & _). congruence. }
  split; unfold c_heap; cbn [c_index set_unlinked set_index heap chainActive setBlockIndexCandidates mapBlocksUnlinked pindexBestInvalid nBlockSequenceId]; fold (c_heap g).
  - by apply (wf_store_agrees (c_heap g)), (li_store _ _ _ Hg).
  - apply (works_agrees (c_heap g)); [by apply agrees_work|apply (li_works _ _ _ Hg)].
  - by apply (chain_ok_agrees (c_heap g)), (li_chain _ _ _ Hg).
  - eapply sorted_impl; [|apply (li_sorted _ _ _ Hg)]. intros p q. by apply worse_agrees.
  - eapply Forall_impl; [apply (li_there _ _ _ Hg)|]. intros p. exact (agrees_in tree _ _ p At).
  - intros p e Hin E. destruct (decide (p = new)) as [->|Hne]; [done|]. destruct (li_cands _ _ _ Hg p e Hin (Hold p e E Hne)) as [|[H _]]; [by left|]. right. split; [done|]. intros Hpq. by apply Hne, Hq.
  - intros p E. eapply agrees_in; [exact At|]. by apply (li_best _ _ _ Hg).
  - intros p e E. destruct (decide (p = new)) as [->|Hne]; [|by apply (li_count _ _ _ Hg p), Hold]. rewrite lookup_insert_eq in E. injection E as <-. rewrite Hn', Hh. split; [lia|]. by apply (li_count _ _ _ Hg new).
  - intros p e E Hnq. destruct (decide (p = new)) as [->|Hne].
    + rewrite lookup_insert_eq in E. injection E as <-. destruct Hcase as [(_ & _ & q & bq & Eq & Ebq & H0)|(-> & _)]; [|exfalso; apply Hnq; by left]. unfold chain_tx_ok. rewrite Hp, Eq, Hc'. intros e E.
      destruct (wf_parent _ (li_store _ _ _ Hg) new b q Eb Eq) as (bq' & Ebq' & Hhq). assert (q <> new) as Hqn by (intros ->; assert (bq' = b) as -> by congruence; lia).
      rewrite lookup_insert_ne in E by done. assert (e = bq) as -> by congruence. by rewrite H0, orb_true_r.
    + pose proof (li_tx _ _ _ Hg p e (Hold p e E Hne) (Hnil p)) as Hx. unfold chain_tx_ok in *. destruct (pprev e) as [q|]; [|done]. intros eq Eq.
      destruct (decide (q = new)) as [->|Hqn]; [|rewrite lookup_insert_ne in Eq by done; by apply Hx]. rewrite lookup_insert_eq in Eq. injection Eq as <-. rewrite Hc'. pose proof (Hx b Eb) as H0. by rewrite Hz in H0.
  - intros p Hpq. rewrite (Hq p Hpq) in *. exists b'. rewrite lookup_insert_eq. split; [done|]. rewrite Hn'. split; [lia|]. split; [done|]. rewrite Hp.
    destruct Hcase as [(-> & _)|(_ & _ & H)]; [by apply Hnil in Hpq|]. destruct (pprev b) as [q|] eqn:Eq; [|done]. destruct H as (bq & Ebq & H). exists bq. split; [|done]. rewrite lookup_insert_ne; [done|]. intros <-. congruence.
  - destruct Hcase as [(-> & _)|(-> & _)]; [constructor|apply NoDup_singleton].
  - intros p e E. destruct (decide (p = new)) as [->|Hne]; [|by apply (li_valid _ _ _ Hg p), Hold]. rewrite lookup_insert_eq in E. by injection E as <-.
  - intros p e E. destruct (decide (p = new)) as [->|Hne]; [|by apply (li_sequence _ _ _ Hg p), Hold]. rewrite lookup_insert_eq in E. injection E as <-. rewrite Hs'. by apply (li_sequence _ _ _ Hg new).
  - intros p e Hin E. destruct (decide (p = new)) as [->|Hne]; [by destruct (li_active _ _ _ Hg new b Hin Eb)|]. apply (li_active _ _ _ Hg p); [done|by apply Hold].
  - intros k p [Hin|Hin]%elem_of_app.
    + assert (p <> new) as Hne by (intros ->; apply Hnw, list_elem_of_fmap; by exists (k, new)). split; [intros Hpq; by apply Hne, Hq|].
      destruct (li_waiting _ _ _ Hg k p Hin) as (_ & e & q & E & H). exists e, q. by rewrite lookup_insert_ne.
    + destruct Hcase as [(-> & -> & q & bq & Eq & _)|(_ & -> & _)]; [|by apply elem_of_nil in Hin]. apply list_elem_of_singleton in Hin as [= -> ->]. split; [done|]. exists b', q.
      rewrite lookup_insert_eq. split; [done|]. rewrite Hp, Eq, Hn'. split_and!; [done|done|lia|done].
  - intros p e E Hx Hy Hpq. apply elem_of_app. destruct (decide (p = new)) as [->|Hne].
    + right. rewrite lookup_insert_eq in E. injection E as <-. destruct Hcase as [(_ & -> & _)|(-> & _)]; [|exfalso; apply Hpq; by left]. rewrite Hp. by apply list_elem_of_singleton.
    + left. apply (li_complete _ _ _ Hg p e); [by apply Hold|done..|apply Hnil].
  - rewrite map_app. apply NoDup_app. split; [apply (li_once _ _ _ Hg)|]. destruct Hcase as [(_ & -> & _)|(_ & -> & _)]; (split; [|first [apply NoDup_singleton|constructor]]); intros p Hin Hin'; [|by apply elem_of_nil in Hin'].
    apply list_elem_of_singleton in Hin'. cbn in Hin'. by subst p.
  - intros p e E Hx Hu Ht. destruct (decide (p = new)) as [->|Hne]; [rewrite lookup_insert_eq in E; injection E as <-; congruence|]. apply (li_all _ _ _ Hg p e (Hold p e E Hne) Hx).
    + eapply stored_usable; [by apply Hold|done|done].
    + intros t Et Hw. apply (Ht t Et). by apply (worse_agrees (c_heap g)).
Qed.
End receive.

(** [ReceivedBlockTransactions] on a block whose transactions were not there. *)
Lemma received_spec N ntx witness new pos g b : tx_inv N g -> c_heap g !! new = Some b -> nTx b = 0 -> 0 < ntx <= N -> new ∉ setBlockIndexCandidates g ->
  (forall q bq, pprev b = Some q -> c_heap g !! q = Some bq -> failed bq = false) ->
  0 <= nBlockSequenceId g -> nBlockSequenceId g + Z.of_nat (length (mapBlocksUnlinked g)) + 1 < 2 ^ 31 ->
  exists g1 g', ReceivedBlockTransactions ntx witness new pos g = Ok g' /\ tx_inv N g' /\ links g1 g' /\
    (exists b', has_block ntx pos b b' /\ c_heap g1 = <[new := b']> (c_heap g)) /\
    chainActive g1 = chainActive g /\ setBlockIndexCandidates g1 = setBlockIndexCandidates g /\ nBlockSequenceId g1 = nBlockSequenceId g.
Proof.
  intros Hg Eb Htx Hntx Hout Hprev Hs0 Hs. unfold ReceivedBlockTransactions. rewrite (deref_Some _ _ _ Eb). cbn [res_bind].
  destruct (stored_entry N ntx witness new pos g b Hg Eb Hntx) as (f & b' & -> & Hb' & Hc' & Hs' & Hv'). cbn [res_bind].
  set (g0 := mark_dirty new (write_entry new b' g)). destruct (new_prev ntx pos b b' Hb') as [Hp Hh]. rewrite Hp.
  pose proof (stored_linking N ntx new pos g b Hg Eb Htx Hntx Hout b' Hb' Hc' Hs' Hv') as Hl. destruct (store_agrees ntx new pos g b Eb b' Hb' Hs') as [At _].
  assert (c_heap g0 = <[new := b']> (c_heap g)) as Eh by done.
  destruct (pprev b) as [q|] eqn:Eq.
  - destruct (wf_parent _ (li_store _ _ _ Hg) new b q Eb Eq) as (bq & Ebq & Hhq). assert (q <> new) as Hqn by (intros ->; assert (bq = b) as -> by congruence; lia).
    assert (c_heap g0 !! q = Some bq) as Ebq' by (by rewrite Eh, lookup_insert_ne). rewrite (deref_Some _ _ _ Ebq'). cbn [res_bind]. destruct (Z.eqb_spec (nChainTx bq) 0) as [H0|H0]; cbn [negb].
    + assert (IsValid BLOCK_VALID_TREE bq = Ok true) as ->.
      { unfold IsValid. change (negb (Z.land BLOCK_VALID_TREE (u32 (Z.lnot BLOCK_VALID_MASK)) =? 0)) with false. fold (failed bq). rewrite (Hprev q bq eq_refl Ebq). cbv iota. f_equal. apply Z.leb_le. by apply (li_valid _ _ _ Hg q). }
      cbn [res_bind]. eexists (set_unlinked (mapBlocksUnlinked g0 ++ [(Some q, new)]) g0), _. split; [done|]. split; [|split; [apply links_refl|split; [by exists b'|done]]].
      apply Hl. left. split; [done|]. split; [done|]. by exists q, bq.
    + destruct (queue_loop_spec N (length (mapBlocksUnlinked g0) + 1) [new] g0) as (g' & Eg' & Hg' & Hk).
      * change g0 with (set_unlinked (mapBlocksUnlinked g) g0). rewrite <- (app_nil_r (mapBlocksUnlinked g)). apply Hl. right. split; [done|]. split; [done|]. by exists bq.
      * cbn [length]. lia.
      * done.
      * change (mapBlocksUnlinked g0) with (mapBlocksUnlinked g). change (nBlockSequenceId g0) with (nBlockSequenceId g). cbn [length]. lia.
      * exists g0, g'. split; [done|]. split; [done|]. split; [done|]. split; [by exists b'|done].
  - cbn [res_bind]. destruct (queue_loop_spec N (length (mapBlocksUnlinked g0) + 1) [new] g0) as (g' & Eg' & Hg' & Hk).
    * change g0 with (set_unlinked (mapBlocksUnlinked g) g0). rewrite <- (app_nil_r (mapBlocksUnlinked g)). apply Hl. right. done.
    * cbn [length]. lia.
    * done.
    * change (mapBlocksUnlinked g0) with (mapBlocksUnlinked g). change (nBlockSequenceId g0) with (nBlockSequenceId g). cbn [length]. lia.
    * exists g0, g'. split; [done|]. split; [done|]. split; [done|]. split; [by exists b'|done].
Qed.

(** [PruneBlockIndexCandidates] keeps exactly the candidates that are not worse than the
    tip, when the tip is one of them. *)
Lemma PruneBlockIndexCandidates_spec g t : cand_inv g -> CChain.Tip (chainActive g) = Some t -> t ∈ setBlockIndexCandidates g ->
  exists l, PruneBlockIndexCandidates g = Ok (set_cands l g) /\ StronglySorted (worse (c_heap g)) l /\
    forall p, p ∈ l <-> p ∈ setBlockIndexCandidates g /\ ~ worse (c_heap g) p t.
Proof.
  intros Hi Et Hin. unfold PruneBlockIndexCandidates. rewrite Et. pose proof (ci_there _ Hi) as Ht. rewrite Forall_forall in Ht.
  destruct (prune_loop_spec (c_heap g) (ci_works _ Hi) t (setBlockIndexCandidates g) (Ht t Hin) (ci_there _ Hi) (ci_sorted _ Hi)) as (l & -> & Hs & Hl). cbn [res_bind].
  exists l. split; [|done]. destruct l as [|p l]; [|done]. destruct (not_elem_of_nil t). apply Hl. split; [done|apply worse_irrefl].
Qed.

(** ** Properties *)

(** C5: [FindMostWorkChain] returns, and what it returns is the best of the usable
    candidates: no block from it down to the active chain has failed or misses its
    data, and any other usable candidate is worse by work, then by the order of
    arrival. It only takes out candidates that are not usable, only marks
    successors of failed blocks, and keeps the order and the structure. *)
Theorem FindMostWorkChain_correct (g : candidates) : cand_inv g ->
  exists r g', FindMostWorkChain g = Ok (r, g') /\ weeded g g' /\ cand_inv g' /\
    match r with
    | Some p => p ∈ setBlockIndexCandidates g /\ usable (c_heap g) (chainActive g) p /\
        forall q, q ∈ setBlockIndexCandidates g -> usable (c_heap g) (chainActive g) q -> q = p \/ worse (c_heap g) q p
    | None => forall q, q ∈ setBlockIndexCandidates g -> ~ usable (c_heap g) (chainActive g) q
    end.
Proof.
  intros Hi. unfold FindMostWorkChain. destruct (find_loop_spec (length (setBlockIndexCandidates g) + 1) g Hi ltac:(lia)) as (g' & E & W & Hi' & Hu).
  assert (forall q, q ∈ setBlockIndexCandidates g -> usable (c_heap g) (chainActive g) q -> q ∈ setBlockIndexCandidates g') as Hkept.
  { intros q Hq Huq. destruct (decide (q ∈ setBlockIndexCandidates g')) as [|Hn]; [done|]. by destruct (w_gone _ _ W q Hq Hn). }
  eexists _, g'. split; [exact E|]. split; [done|]. split; [done|]. destruct (last (setBlockIndexCandidates g')) as [p|] eqn:El.
  - assert (p ∈ setBlockIndexCandidates g') as Hp by (apply last_Some in El as [l ->]; apply elem_of_app; right; by apply list_elem_of_singleton). split; [|split; [by apply Hu|]].
    + destruct (w_filter _ _ W) as (P & D & Ef). rewrite Ef in Hp. by apply list_elem_of_filter in Hp as [_ Hp].
    + intros q Hq Huq. destruct (sorted_last _ _ p (ci_sorted _ Hi') El q) as [|Hw]; [by apply Hkept|by left|]. right. eapply worse_agrees; [|exact Hw]. by apply core_order, weeded_agrees.
  - apply last_None in El. intros q Hq Huq. specialize (Hkept q Hq Huq). rewrite El in Hkept. by apply elem_of_nil in Hkept.
Qed.

(** C6: when the transactions of a block arrive, [ReceivedBlockTransactions] stores where
    they are, links the block and every received block that waited for it, and keeps
    the invariant: the counts of transactions of all chains, the set of waiting
    blocks, and every usable block that is not worse than the tip among the
    candidates in their order; blocks that are linked now come after all others of
    the same work. *)
Theorem ReceivedBlockTransactions_correct (N ntx : Z) (witness : bool) (new : nat) (pos : CDiskBlockPos.t) (g : candidates) (b : CBlockIndex) :
  tx_inv N g -> c_heap g !! new = Some b -> nTx b = 0 -> 0 < ntx <= N -> new ∉ setBlockIndexCandidates g ->
  (forall q bq, pprev b = Some q -> c_heap g !! q = Some bq -> failed bq = false) ->
  0 <= nBlockSequenceId g -> nBlockSequenceId g + Z.of_nat (length (mapBlocksUnlinked g)) + 1 < 2 ^ 31 ->
  exists g', ReceivedBlockTransactions ntx witness new pos g = Ok g' /\ tx_inv N g' /\ chainActive g' = chainActive g /\
    (exists b', c_heap g' !! new = Some b' /\ has_block ntx pos b b') /\
    (forall p e, c_heap g !! p = Some e -> p <> new -> exists n s, c_heap g' !! p = Some (set_chain_tx e n s)) /\
    (forall p, p ∈ setBlockIndexCandidates g -> p ∈ setBlockIndexCandidates g') /\
    (forall p q bp bq, p ∈ setBlockIndexCandidates g' -> p ∉ setBlockIndexCandidates g -> c_heap g' !! p = Some bp ->
      q ∈ setBlockIndexCandidates g -> c_heap g' !! q = Some bq -> nSequenceId bq < nBlockSequenceId g -> val (nChainWork bp) = val (nChainWork bq) -> worse (c_heap g') p q).
Proof.
  intros Hg Eb Htx Hntx Hout Hprev Hs0 Hs. destruct (received_spec N ntx witness new pos g b Hg Eb Htx Hntx Hout Hprev Hs0 Hs) as (g1 & g' & E & Hg' & Hk & (b' & Hb' & Eh) & Ec & El & Es).
  exists g'. split; [done|]. split; [done|]. split; [by rewrite (proj1 (k_same _ _ Hk))|]. split; [|split; [|split]].
  - destruct (k_heap _ _ Hk new b') as (n & s & E' & _); [by rewrite Eh, lookup_insert_eq|]. exists (set_chain_tx b' n s). split; [done|]. destruct Hb' as (H1 & H2 & H3 & H4 & H5 & H6 & H7 & H8 & H9). by split_and!.
  - intros p e Ee Hne. destruct (k_heap _ _ Hk p e) as (n & s & E' & _); [by rewrite Eh, lookup_insert_ne|]. by exists n, s.
  - intros p Hp. apply (k_old _ _ Hk). by rewrite El.
  - intros p q bp bq Hp Hnp Ep Hq Eq Hsq Hwork. destruct (k_new _ _ Hk p Hp) as [H|(bp' & Ep' & Hsp)]; [by rewrite El in H|]. assert (bp' = bp) as -> by congruence. rewrite Es in Hsp.
    unfold worse. rewrite Ep, Eq. right. split; [done|]. left. lia.
Qed.

(** ** Examples *)

Definition demo_block (prev : ptr) (height work tx chainTx status : Z) : CBlockIndex := {|
  phashBlock := Some [work; 0; 0; 0; 0; 0; 0; 0]; pprev := prev; pskip := None; nHeight := height; nFile := 0;
  nDataPos := 0; nUndoPos := 0; nChainWork := base_uint_of_u64 WIDTH256 work; nTx := tx; nChainTx := chainTx; nStatus := status;
  nVersion := 1; hashMerkleRoot := base_uint_zero WIDTH256; nTime := work; nBits := 0x207fffff; nNonce := 0;
  nSequenceId := 0; nTimeMax := work |}.

(** A tip and two branches beside it; the one with the most work goes through a failed block. *)
Definition demo_forks : store := list_to_map [
  (0%nat, demo_block None 0 100 1 1 (BLOCK_VALID_SCRIPTS + BLOCK_HAVE_DATA));
  (1%nat, demo_block (Some 0%nat) 1 200 1 2 (BLOCK_VALID_SCRIPTS + BLOCK_HAVE_DATA));
  (2%nat, demo_block (Some 0%nat) 1 210 1 2 (BLOCK_VALID_TRANSACTIONS + BLOCK_HAVE_DATA + BLOCK_FAILED_VALID));
  (3%nat, demo_block (Some 2%nat) 2 400 1 3 (BLOCK_VALID_TRANSACTIONS + BLOCK_HAVE_DATA));
  (4%nat, demo_block (Some 0%nat) 1 250 1 2 (BLOCK_VALID_TRANSACTIONS + BLOCK_HAVE_DATA))].
Definition demo_state (st : store) (c : CChain.t) (l : list nat) : candidates :=
  mk_candidates {| heap := st; mapBlockIndex := ∅; pindexBestHeader := None; setDirtyBlockIndex := ∅ |} c None l [] 1 (-1) (base_uint_zero WIDTH256).
Definition demo_choice : candidates := demo_state demo_forks [Some 0%nat; Some 1%nat] [1%nat; 4%nat; 3%nat].

#[local] Instance wf256_dec w : Decision (wf256 w).
Proof. unfold wf256, wf. apply _. Defined.

(** One goal for each entry of a heap that is given by a list. *)
Ltac each_entry E :=
  apply elem_of_list_to_map_2 in E; repeat (apply elem_of_cons in E as [[= -> ->]|E]; [|]); [..|by apply elem_of_nil in E].

Lemma demo_choice_inv : cand_inv demo_choice.
Proof.
  split.
  - apply (bool_decide_unpack (wf_store demo_forks)). vm_compute. exact I.
  - apply (bool_decide_unpack (map_Forall (fun _ b => wf256 (nChainWork b)) demo_forks)). vm_compute. exact I.
  - split; [done|]. intros [|[|i]] p Hp; cbn in Hp; simplify_eq; do 2 eexists; (split_and!; [done|reflexivity|done|done]).
  - repeat constructor; apply (bool_decide_unpack _); vm_compute; exact I.
  - repeat constructor; by eexists.
  - assert (map_Forall (fun _ b => match pprev b with Some q => match demo_forks !! q with Some bq => nChainTx bq <> 0 | None => True end | None => True end) demo_forks) as H.
    { apply map_Forall_lookup. intros p b E. each_entry E; vm_compute; first [exact I|congruence]. }
    intros p b q bq E _ Eq E'. specialize (H p b E). cbv beta in H. rewrite Eq in H. change (c_heap demo_choice) with demo_forks in E'. by rewrite E' in H.
  - intros p b _ E. left. change (c_heap demo_choice) with demo_forks in E. each_entry E; vm_compute; congruence.
  - intros p H. discriminate H.
Qed.

Lemma FindMostWorkChain_correct_witness : exists g', FindMostWorkChain demo_choice = Ok (Some 4%nat, g') /\ setBlockIndexCandidates g' = [1%nat; 4%nat] /\
  (exists b, c_heap g' !! 3%nat = Some b /\ failed b = true) /\ usable demo_forks [Some 0%nat; Some 1%nat] 4.
Proof.
  destruct (FindMostWorkChain_correct demo_choice demo_choice_inv) as (r & g' & E & _ & _ & H).
  assert (match FindMostWorkChain demo_choice with Ok (r, g') => (r, setBlockIndexCandidates g', match c_heap g' !! 3%nat with Some b => failed b | None => false end) | _ => (None, [], false) end =
    (Some 4%nat, [1%nat; 4%nat], true)) as Hv by (vm_compute; reflexivity).
  rewrite E in Hv. injection Hv as -> Hl Hf. exists g'. split; [exact E|]. split; [exact Hl|]. split; [|exact (proj1 (proj2 H))].
  destruct (c_heap g' !! 3%nat) as [b|]; [|discriminate Hf]. exists b. split; [reflexivity|exact Hf].
Defined.

(** Headers only: the second block is received before the first. *)
Definition demo_headers : store := list_to_map [
  (0%nat, demo_block None 0 100 1 1 (BLOCK_VALID_SCRIPTS + BLOCK_HAVE_DATA));
  (1%nat, demo_block (Some 0%nat) 1 200 0 0 BLOCK_VALID_TREE);
  (2%nat, demo_block (Some 1%nat) 2 300 7 0 (BLOCK_VALID_TRANSACTIONS + BLOCK_HAVE_DATA))].
Definition demo_waiting : candidates :=
  mk_candidates {| heap := demo_headers; mapBlockIndex := ∅; pindexBestHeader := None; setDirtyBlockIndex := ∅ |} [Some 0%nat] None [0%nat] [(Some 1%nat, 2%nat)] 1 (-1)
    (base_uint_zero WIDTH256).

Lemma demo_waiting_inv : tx_inv 1000 demo_waiting.
Proof.
  split.
  - apply (bool_decide_unpack (wf_store demo_headers)). vm_compute. exact I.
  - apply (bool_decide_unpack (map_Forall (fun _ b => wf256 (nChainWork b)) demo_headers)). vm_compute. exact I.
  - split; [done|]. intros [|i] p Hp; cbn in Hp; simplify_eq; do 2 eexists; (split_and!; [done|reflexivity|done|done]).
  - repeat constructor.
  - repeat constructor; by eexists.
  - intros p b Hp E. apply list_elem_of_singleton in Hp as ->. injection E as <-. by left.
  - intros p H. discriminate H.
  - intros p b E. each_entry E; vm_compute; split_and!; congruence.
  - intros p b E _. each_entry E; unfold chain_tx_ok; cbn; try done; intros bq Eq; by injection Eq as <-.
  - intros p Hp. by apply elem_of_nil in Hp.
  - constructor.
  - intros p b E. each_entry E; vm_compute; congruence.
  - intros p b E. each_entry E; vm_compute; congruence.
  - intros p b [i Hi] E. destruct i as [|i]; cbn in Hi; [|done]. injection Hi as <-. injection E as <-. done.
  - intros k p Hin. cbn in Hin. apply list_elem_of_singleton in Hin as [= -> ->]. split; [apply not_elem_of_nil|]. by do 2 eexists.
  - intros p b E H1 H2 _. each_entry E; try done. cbn. by apply list_elem_of_singleton.
  - apply NoDup_singleton.
  - intros p b E Hn _ _. each_entry E; try done. by apply list_elem_of_singleton.
Qed.

(** Both blocks become candidates. *)
Lemma ReceivedBlockTransactions_correct_witness : exists g', ReceivedBlockTransactions 5 false 1 {| CDiskBlockPos.nFile := 0; CDiskBlockPos.nPos := 80 |} demo_waiting = Ok g' /\
  setBlockIndexCandidates g' = [0%nat; 1%nat; 2%nat] /\ mapBlocksUnlinked g' = [] /\ nChainTx <$> c_heap g' !! 2%nat = Some 13 /\ tx_inv 1000 g'.
Proof.
  destruct (ReceivedBlockTransactions_correct 1000 5 false 1 {| CDiskBlockPos.nFile := 0; CDiskBlockPos.nPos := 80 |} demo_waiting (demo_block (Some 0%nat) 1 200 0 0 BLOCK_VALID_TREE) demo_waiting_inv)
    as (g' & E & Hg' & _); [reflexivity|reflexivity|split; [reflexivity|discriminate]|vm_compute; intros H; apply list_elem_of_singleton in H; discriminate H| |discriminate|reflexivity|].
  { intros q bq Eq E. injection Eq as <-. vm_compute in E. injection E as <-. reflexivity. }
  assert (match ReceivedBlockTransactions 5 false 1 {| CDiskBlockPos.nFile := 0; CDiskBlockPos.nPos := 80 |} demo_waiting with
    Ok g' => (setBlockIndexCandidates g', mapBlocksUnlinked g', nChainTx <$> c_heap g' !! 2%nat) | _ => ([], [(None, 0%nat)], None) end = ([0%nat; 1%nat; 2%nat], [], Some 13)) as Hv by (vm_compute; reflexivity).
  rewrite E in Hv. injection Hv as H1 H2 H3. exists g'. split; [exact E|]. split; [exact H1|]. split; [exact H2|]. split; [exact H3|exact Hg'].
Defined.
